(* ===== verification/_CoqProject ===== *)
-Q . S2P
Prelude.v
Refcnt.v
Bitmap.v
CString.v
Sort.v
Hash.v
Printf.v
Memblock.v
Buddy.v
BootMem.v
Slab.v
PageTable.v
Vmalloc.v
Uvm.v
UvmUnmap.v
UvmFork.v
Devno.v
FdTable.v
Pipe.v
Path.v
PrintkRing.v
Timekeeping.v
Signal.v
Checksum.v
SkBuff.v
Inet.v
InetProps.v
Arp.v
Udp.v
Tcp.v
TcpWire.v
TcpTable.v
TcpStream.v
NTty.v
Sched.v
SchedInv.v
SchedSafe.v
SchedMain.v
