(* ===== verification/Prelude.v ===== *)
(** * A verification of the BRK kernel

    BRK is a monolithic kernel for 64-bit RISC-V written in C (src/src).  This
    library models the parts that carry its own logic and proves what makes them
    correct.  Definitions follow the C functions one by one, under the same names
    where possible, and are executable; theorems about them stand at the end of
    each file under the heading "Properties".

    ** Layout

    The files, in dependency order, and the sources they model:

    - [Prelude]: machine integers, outcomes, arrays, the arithmetic macros of
      include/brk/kernel.h and bits.h, tactics, shared lemmas (this file);
    - [Refcnt]: lib/refcnt.c, the reference counters everything else uses;
    - [Bitmap]: lib/bitmap.c, bit allocation in arrays of 64-bit words;
    - [CString]: lib/string.c over a byte memory with unmapped addresses;
    - [Sort]: lib/qsort.c, heap sort;
    - [Hash]: lib/hash.c and lib/rand.c;
    - [Printf]: lib/printf.c, formatted output;
    - [Memblock]: mm/memblock.c, the memory map of early boot: two sorted arrays
      of regions and the iteration over memory that is not reserved;
    - [Buddy]: mm/pgalloc.c and include/brk/pgalloc.h, the page allocator:
      free lists by order, per-CPU caches, page descriptors;
    - [BootMem]: the hand-over of the boot map to the page allocator;
    - [Slab]: mm/slab.c and mm/kmalloc.c, caches of objects and the kernel heap;
    - [PageTable]: riscv/include/arch/pgtable.h, the mapping half of mm/mm.c and
      riscv/mm/page_table.c: Sv39 trees of tables;
    - [Vmalloc]: mm/vmalloc.c and mm/ioremap.c, the areas of the kernel's mapping
      window and their pages, mapped through [PageTable];
    - [Uvm]: mm/mmap.c and the first half of mm/mm.c, user address spaces: regions,
      address choice, anonymous mappings, faults, protections, and the invariant;
    - [UvmUnmap]: [uvm_munmap] and the release of regions;
    - [UvmFork]: the copying of a space with copy on write;
    - [Devno]: dev/base/devno.c, device numbers, on top of [Bitmap];
    - [FdTable]: fs/fdtable.c and the counting half of fs/file.c, on [Refcnt];
    - [Pipe]: fs/pipe.c, the byte ring and its two ends;
    - [Path]: fs/path.c, path lookup over dentries, mounts and symbolic links;
    - [PrintkRing]: kern/printk.c, the record ring of the kernel log;
    - [Timekeeping]: kern/clocksource.c, timekeeper.c and ktime.c;
    - [Signal]: kern/signal.c, pending sets, handlers and their frames, kill;
    - [Checksum]: net/checksum.c, the internet checksum;
    - [SkBuff]: net/skbuff.c, packet buffers and their queues;
    - [Inet]: net/route.c, netdevice.c, eth.c, arp.c, ip.c and icmp.c: from the
      transport protocols to the drivers and back;
    - [InetProps]: routes, headers, echo and addresses as text;
    - [Arp]: the invariant of the ARP table and the resolution of addresses;
    - [Udp]: net/udp.c, datagrams from socket to socket;
    - [Tcp]: net/tcp.c, segments, sockets, calls and the timer;
    - [TcpWire]: segments as bytes;
    - [TcpTable]: the table of sockets under any sequence of calls;
    - [TcpStream]: two sockets over an unreliable network;
    - [NTty]: dev/tty/n_tty.c, the line discipline of terminals;
    - [Sched]: kern/sched.c, kern/cpu.c and the life of a task in kern/task.c: the
      CPUs and the kernel stacks of tasks as a transition system;
    - [SchedInv], [SchedSafe]: its invariant, kept by every step;
    - [SchedMain]: what follows for every interleaving.

    How the parts meet: boot memory ([Memblock]) is handed to the page allocator
    ([Buddy]); page tables take their frames from it through the class
    [PageTable.PageFrames], which lists what page-table code relies on, and of
    which the buddy allocator is shown to be an instance
    ([PageTable.buddy_frames]), and [Vmalloc] is stated over the same class; the allocator in turn relies on the page cache
    only through the class [Buddy.PageCacheShrink].  The kernel heap takes its
    blocks through the class [Slab.PageBlocks], of which the buddy allocator is
    again an instance ([Slab.buddy_blocks_ok]).  A user address space ([Uvm]) is
    stated over the map from page addresses to leaves that [PageTable] shows map
    and unmap to update, and over a pool of pages with their counts; which page is
    next and whether memory is to be had is up to the state, so the theorems hold
    for every allocator.  The network protocols share the buffers of [SkBuff]; UDP
    is stated over the whole way down to the frames, TCP over an IP layer given
    by its answers.  Descriptor tables, paths and pipes meet in open files, whose references [FdTable] and [Path] count.

    ** Conventions

    A value of a C integer type is a [Z]; an unsigned operation that can wrap is
    wrapped in [u32] or [u64], a conversion to a signed type in [s32] or [s64].
    State is passed explicitly as a record.  A routine that can stop the kernel
    returns in [res]: [Ret], or [Halt] with [Panic] (a failed assertion or
    [panic()]), [Fault] (an access outside its object) or [Fuel].  Error numbers
    are negative results as in C; pointers that may be NULL are options, or 0.
    A lock turns what it protects into one step; where a routine drops its lock
    while it works, as pipes do, the sections between are the steps of a
    transition relation and the theorem is an invariant of every interleaving.
    In [TcpTable] what a packet or a release does with a socket after it has
    dropped the lock is a step of its own.  [page_alloc] and the TCP calls on a
    socket that the caller holds are one step although they drop the lock.
    In [Sched] the steps are the points of every function of the scheduler at
    which another CPU can come in between.

    Loops without a structural bound take fuel, and the theorem about the routine
    shows that the fuel its caller passes is enough: the number of regions of
    both arrays for the scans of [Memblock], the twelve orders for [Buddy], one turn per
    page for the loops of [PageTable] and three chunks for [map_pages] (one per
    page size), the length of the name plus 40 links of at most 512 bytes for
    [Path], the nesting of mounts for [..], the ring size over the smallest record
    for [PrintkRing], the number of regions and two for the search of [choose_addr],
    the length of the array for [heapify], two folds for a checksum, the 32
    signals for delivery, the length of the format and of a padding in chunks of
    32 for [Printf], and the length of the line for a word erase.

    ** What the theorems show

    - Memory: [page_alloc] and [page_free] keep the free blocks aligned, disjoint
      and coalesced, hand out only free pages and account for every page, and are
      inverse; [memblock_add_region], [memblock_free], [memblock_alloc] and the
      iteration compute exactly the expected sets of addresses; vmalloc areas tile
      their window and are mapped page by page; mapping, unmapping, creating and destroying page tables do to
      the hardware's translation ([PageTable.walk]) exactly what they promise.
      At the end of boot the free pages are the whole pages not reserved.  Callers
      of the heap get the bytes they asked for, aligned and never overlapping, and
      never make it halt.
    - Address spaces: an invariant ties regions, table entries and page counts
      together, with the references of other spaces as a parameter; mappings,
      faults, unmapping and the copy for a fork keep it; what an address reads
      changes only by a store to it, and parent and child never see each other's
      stores.
    - Signals: delivery ends, in order of the numbers; a handler starts in a frame
      from which sigreturn restores every register; kill reaches exactly the
      permitted tasks; tables of actions are freed with their last task.
    - Files: the count of every open file is the number of its holders; a lookup
      refines the resolution of a list of components and keeps references
      balanced on every exit; a pipe is a FIFO under any interleaving.
    - Log and time: records come back as stored, oldest first, and a new one
      drops as few of the oldest as its room needs; sleeps end at their deadline; a tick runs every handler once.
    - Libraries: bit and region allocation is first fit; the string functions
      meet their specifications, overlap and truncation included; qsort ends with
      a sorted permutation; a packet with its checksum filled in sums to zero;
      formatting into a buffer of any size writes the longest prefix of the text
      that fits, and a printed integer reads back.
    - Scheduling: on up to eight CPUs, in every interleaving of yields, sleeps,
      wake-ups, forks, exits, waits and interrupts, no assertion fails and no
      freed task is touched; a task has one place and a runnable one is never
      lost; a wake-up under the lock of the condition reaches every sleeper;
      tasks join the least loaded CPU.
    - Networking: queues of buffers are lists; routing is by longest prefix; a
      packet passes through the headers and back unchanged, and no bytes make
      [ip_rcv] leave the buffer; packets that wait for a hardware address leave
      in order when it is known; a datagram reaches the one socket bound to its
      destination as it was sent, ports being exclusive.
      A segment reads back as it was built and no bytes make the
      parser leave the packet; under any sequence of socket calls,
      packets and timer ticks no freed socket is touched while the lock is held and
      none is lost, and what is done after the lock is dropped faults exactly when
      no socket is there any more; the handshake establishes a connection; over a
      network that loses, repeats and reorders segments a connection of fewer
      than 2^31 bytes each way delivers segments in order and once, and reads
      return them whole but for what does not fit their buffers.
    - Terminals: the receive path over the ring refines a line editor on lists;
      a typed line is what the next read returns.

    Some theorems record where the code falls short of its purpose, among them
    [CString.strcspn_overrun], [Devno.devno_alloc_minor_zero],
    [Memblock.memblock_alloc_skips_straddling],
    [Vmalloc.vmalloc_failure_panics],
    [PageTable.map_pages_error_keeps_prefix],
    [PageTable.map_large_over_empty_table], [Slab.kmalloc_oversize],
    [Signal.sa_mask_blocks_sigkill], [Signal.frame_at_top],
    [Signal.second_sigreturn_fails], [Signal.sigreturn_takes_any_frame],
    [Uvm.mmap_below_top], [UvmUnmap.munmap_len_wraps],
    [UvmFork.mprotect_after_fork_shares], [UvmFork.copy_heap_keeps_bound],
    [NTty.eof_in_line_withheld], [NTty.eof_out_of_order], [NTty.cr_mapped_twice],
    [Printf.precision_overrun], [Printf.char_of_negative],
    [Printf.plus_marks_unsigned], [SchedMain.wait_wakeup_lost],
    [TcpStream.short_read_loses], [TcpStream.syn_rst_leaks_child],
    [TcpStream.bogus_ack_strands_orphan], [TcpTable.late_reply_after_free], [Arp.request_strands_pending],
    [Udp.queued_message_reported_failed] and
    [Udp.shutdown_read_leaves_address].

    ** What is not modelled, and what is next

    Register-level drivers, assembly, boot order and output to devices are left
    out.  Hash tables are modelled by what they find.  Of address spaces the file
    mappings, msync, the user stack and the life of the space itself are left
    out.  The scheduler takes the spin locks of its callers as given and leaves
    out what other components own of a task.  Still to come, in this order:
    the page cache, interrupt domains, the dentry cache and mounts behind [Path],
    and the on-disk file system. *)

From Stdlib Require Export ZArith Lia.
From stdpp Require Export base numbers option list gmap sorting strings functions.

#[global] Open Scope Z_scope.

(** ** Machine integers

    The kernel is built for rv64: [unsigned long], [size_t] and [u64] are 64
    bits wide, [unsigned int] and [u32] are 32.  A value of such a type is a
    [Z]; the wrap-around of an unsigned operation is written out with [u64] or
    [u32], the conversion to a signed type with [s64] or [s32]. *)

Definition wrap (w : Z) (z : Z) : Z := z mod 2 ^ w.
Definition swrap (w : Z) (z : Z) : Z :=
  (z + 2 ^ (w - 1)) mod 2 ^ w - 2 ^ (w - 1).

Abbreviation u8 := (wrap 8).
Abbreviation u16 := (wrap 16).
Abbreviation u32 := (wrap 32).
Abbreviation u64 := (wrap 64).
Abbreviation s32 := (swrap 32).
Abbreviation s64 := (swrap 64).

Definition UINT64_MAX : Z := 2 ^ 64 - 1.
Definition UINT32_MAX : Z := 2 ^ 32 - 1.

(** [~x] on a 64-bit operand. *)
Definition not64 (x : Z) : Z := u64 (Z.lnot x).

(** ** Outcomes

    A kernel routine either returns ([Ret]), reaches [panic()] or a failing
    [assert()] ([Halt Panic]), or performs an access the C object it goes
    through does not have ([Halt Fault]).  [Halt Fuel] marks a loop that was
    given too little fuel; every theorem about a fuelled loop shows that the
    fuel its caller passes is enough. *)

Inductive stop : Set := Panic | Fault | Fuel.

#[global] Instance stop_eq_dec : EqDecision stop.
Proof. solve_decision. Defined.

Inductive res (A : Type) : Type :=
| Ret (a : A)
| Halt (s : stop).
Arguments Ret {A} _.
Arguments Halt {A} _.

Declare Scope brk_scope.
Delimit Scope brk_scope with brk.

Notation "'let!' x ':=' m 'in' k" :=
  (match m with Ret x => k | Halt e => Halt e end)
    (at level 10, x pattern, m at level 100, k at level 200,
     format "'[v' 'let!'  x  ':='  m  'in' '/' k ']'") : brk_scope.

(** [assert(b)]. *)
Notation "'assert!' b 'in' k" :=
  (if b then k else Halt Panic)
    (at level 10, b at level 100, k at level 200,
     format "'[v' 'assert!'  b  'in' '/' k ']'") : brk_scope.

#[global] Open Scope brk_scope.

(** An array access at a C index. *)
Definition rd {A} (l : list A) (i : Z) : res A :=
  if decide (0 <= i) then
    match l !! Z.to_nat i with Some x => Ret x | None => Halt Fault end
  else Halt Fault.

Definition wr {A} (l : list A) (i : Z) (x : A) : res (list A) :=
  if decide (0 <= i < Z.of_nat (length l)) then Ret (<[Z.to_nat i := x]> l)
  else Halt Fault.

(** [memcpy] out of and into a byte array of the object. *)
Definition rd_slice {A} (l : list A) (off n : Z) : res (list A) :=
  if decide (0 <= off /\ 0 <= n /\ off + n <= Z.of_nat (length l))
  then Ret (take (Z.to_nat n) (drop (Z.to_nat off) l)) else Halt Fault.

Definition wr_slice {A} (l : list A) (off : Z) (d : list A) : res (list A) :=
  if decide (0 <= off /\ off + Z.of_nat (length d) <= Z.of_nat (length l))
  then Ret (take (Z.to_nat off) l ++ d ++ drop (Z.to_nat off + length d) l) else Halt Fault.

(** Little-endian fields of a structure in memory. *)
Fixpoint le_enc (n : nat) (v : Z) : list Z :=
  match n with O => [] | S n' => v mod 256 :: le_enc n' (v / 256) end.

Fixpoint le_dec (l : list Z) : Z :=
  match l with [] => 0 | b :: l' => b + 256 * le_dec l' end.

(** ** Arithmetic macros of include/brk/kernel.h and include/brk/bits.h *)

Definition is_power_of_two (x : Z) : bool :=
  negb (x =? 0) && (Z.land x (u64 (x - 1)) =? 0).

Definition round_up (x align : Z) : Z :=
  Z.land (u64 (x + align - 1)) (not64 (align - 1)).

Definition round_down (x align : Z) : Z := Z.land x (not64 (align - 1)).

Definition is_aligned (x align : Z) : bool := Z.land x (align - 1) =? 0.

Definition round_up_to_pow_of_two (x : Z) : Z :=
  if x =? 0 then 1
  else if Z.land x (x - 1) =? 0 then x
  else
    let v := x - 1 in
    let v := Z.lor v (Z.shiftr v 1) in
    let v := Z.lor v (Z.shiftr v 2) in
    let v := Z.lor v (Z.shiftr v 4) in
    let v := Z.lor v (Z.shiftr v 8) in
    let v := Z.lor v (Z.shiftr v 16) in
    let v := Z.lor v (Z.shiftr v 32) in
    u64 (v + 1).

Definition BIT (nr : Z) : Z := u64 (Z.shiftl 1 nr).
Definition BIT_MASK (nr : Z) : Z := u64 (BIT nr - 1).

(** ** Tactics and hints *)

Create HintDb brk.
Create Rewrite HintDb brk.

(** Arithmetic with [/] and [mod] by constants. *)
Ltac zdm := Z.div_mod_to_equations; lia.

(** Evaluate the powers of two a bound mentions. *)
Ltac pow2 :=
  change (2 ^ 64) with 18446744073709551616 in *;
  change (2 ^ 63) with 9223372036854775808 in *;
  change (2 ^ 32) with 4294967296 in *;
  change (2 ^ 31) with 2147483648 in *;
  change (2 ^ 16) with 65536 in *;
  change (2 ^ 8) with 256 in *.

(** Turn the boolean tests of a definition into propositions. *)
Ltac bool_prop :=
  repeat match goal with
  | H : context [Z.eqb ?a ?b] |- _ => destruct (Z.eqb_spec a b)
  | |- context [Z.eqb ?a ?b] => destruct (Z.eqb_spec a b)
  | H : context [Z.ltb ?a ?b] |- _ => destruct (Z.ltb_spec a b)
  | |- context [Z.ltb ?a ?b] => destruct (Z.ltb_spec a b)
  | H : context [Z.leb ?a ?b] |- _ => destruct (Z.leb_spec a b)
  | |- context [Z.leb ?a ?b] => destruct (Z.leb_spec a b)
  end; cbn [andb orb negb] in *.

(** ** Lemmas on machine integers *)

Lemma wrap_small (w z : Z) : 0 <= z < 2 ^ w -> wrap w z = z.
Proof. intros. apply Z.mod_small. lia. Qed.

Lemma wrap_bound (w z : Z) : 0 <= w -> 0 <= wrap w z < 2 ^ w.
Proof. intros. apply Z.mod_pos_bound. lia. Qed.

Lemma u64_small (z : Z) : 0 <= z < 2 ^ 64 -> u64 z = z.
Proof. apply wrap_small. Qed.

Lemma u64_bound (z : Z) : 0 <= u64 z < 2 ^ 64.
Proof. apply wrap_bound. lia. Qed.

Lemma u32_small (z : Z) : 0 <= z < 2 ^ 32 -> u32 z = z.
Proof. apply wrap_small. Qed.

Lemma u32_bound (z : Z) : 0 <= u32 z < 2 ^ 32.
Proof. apply wrap_bound. lia. Qed.

Lemma swrap_bound (w z : Z) : 0 < w -> - 2 ^ (w - 1) <= swrap w z < 2 ^ (w - 1).
Proof.
  intros Hw. unfold swrap. assert (E : 2 ^ w = 2 * 2 ^ (w - 1)) by (rewrite <- Z.pow_succ_r by lia; f_equal; lia).
  pose proof (Z.mod_pos_bound (z + 2 ^ (w - 1)) (2 ^ w) ltac:(lia)). lia.
Qed.

Lemma swrap_small (w z : Z) :
  0 < w -> - 2 ^ (w - 1) <= z < 2 ^ (w - 1) -> swrap w z = z.
Proof.
  intros Hw Hz. unfold swrap.
  assert (2 ^ w = 2 * 2 ^ (w - 1)) as E.
  { rewrite <- Z.pow_succ_r by lia. f_equal. lia. }
  rewrite Z.mod_small; lia.
Qed.

Lemma wrap_testbit (w z i : Z) :
  0 <= w -> 0 <= i ->
  Z.testbit (wrap w z) i = (i <? w) && Z.testbit z i.
Proof.
  intros. unfold wrap. destruct (Z.ltb_spec i w); simpl.
  - apply Z.mod_pow2_bits_low. lia.
  - apply Z.mod_pow2_bits_high. lia.
Qed.

(** A word below [2^w] has no bit at or above [w]. *)
Lemma testbit_high (w z i : Z) :
  0 <= z < 2 ^ w -> w <= i -> Z.testbit z i = false.
Proof.
  intros [Hz Hb] Hi.
  destruct (Z.eq_dec z 0) as [-> | Hne]; [apply Z.bits_0 |].
  apply Z.bits_above_log2; [lia |].
  apply Z.log2_lt_pow2 in Hb; lia.
Qed.

(** Two words agree when their low bits do. *)
Lemma word_ext (w a b : Z) :
  0 <= a < 2 ^ w -> 0 <= b < 2 ^ w ->
  (forall i, 0 <= i < w -> Z.testbit a i = Z.testbit b i) -> a = b.
Proof.
  intros Ha Hb H. apply Z.bits_inj'. intros i Hi.
  destruct (Z.lt_ge_cases i w) as [Hlt | Hge]; [apply H; lia |].
  rewrite (testbit_high w a), (testbit_high w b); auto.
Qed.

Lemma not64_testbit (x i : Z) :
  0 <= i < 64 -> Z.testbit (not64 x) i = negb (Z.testbit x i).
Proof.
  intros. unfold not64. rewrite wrap_testbit by lia.
  destruct (Z.ltb_spec i 64); [| lia]. simpl. apply Z.lnot_spec. lia.
Qed.

Lemma pow2_minus1_testbit (k i : Z) :
  0 <= k -> 0 <= i -> Z.testbit (2 ^ k - 1) i = (i <? k).
Proof.
  intros. replace (2 ^ k - 1) with (Z.ones k) by (rewrite Z.ones_equiv; lia).
  destruct (Z.ltb_spec i k).
  - apply Z.ones_spec_low. lia.
  - apply Z.ones_spec_high. lia.
Qed.

(** Masking the low bits away is rounding down to the alignment. *)
Lemma land_align_down (x k : Z) :
  0 <= k <= 64 -> 0 <= x < 2 ^ 64 ->
  Z.land x (not64 (2 ^ k - 1)) = x / 2 ^ k * 2 ^ k.
Proof.
  intros Hk Hx.
  rewrite <- Z.shiftr_div_pow2, <- Z.shiftl_mul_pow2 by lia.
  apply Z.bits_inj'. intros i Hi. rewrite Z.land_spec.
  rewrite Z.shiftl_spec by lia.
  destruct (Z.lt_ge_cases i 64) as [Hlt | Hge].
  - rewrite not64_testbit, pow2_minus1_testbit by lia.
    destruct (Z.ltb_spec i k); simpl.
    + rewrite andb_false_r, Z.testbit_neg_r by lia. done.
    + rewrite andb_true_r, Z.shiftr_spec by lia. f_equal. lia.
  - rewrite (testbit_high 64 x) by lia. simpl.
    rewrite Z.shiftr_spec by lia. symmetry.
    apply (testbit_high 64); lia.
Qed.

Lemma round_down_spec (x k : Z) :
  0 <= k <= 64 -> 0 <= x < 2 ^ 64 ->
  round_down x (2 ^ k) = x / 2 ^ k * 2 ^ k.
Proof. apply land_align_down. Qed.

Lemma round_up_spec (x k : Z) :
  0 <= k <= 64 -> 0 <= x -> x + 2 ^ k - 1 < 2 ^ 64 ->
  round_up x (2 ^ k) = (x + 2 ^ k - 1) / 2 ^ k * 2 ^ k.
Proof.
  intros Hk Hx Hb. unfold round_up.
  assert (0 < 2 ^ k) by lia.
  rewrite u64_small by lia. apply land_align_down; lia.
Qed.

(** [round_up] is the least multiple of the alignment above [x]. *)
Lemma round_up_bounds (x k : Z) :
  0 <= k <= 62 -> 0 <= x -> x + 2 ^ k - 1 < 2 ^ 64 ->
  round_up x (2 ^ k) mod 2 ^ k = 0 /\ x <= round_up x (2 ^ k) < x + 2 ^ k.
Proof.
  intros Hk Hx Hb. rewrite round_up_spec by lia. assert (0 < 2 ^ k) by lia.
  rewrite Z.mod_mul by lia. split; [done |].
  pose proof (Z.div_mod (x + 2 ^ k - 1) (2 ^ k) ltac:(lia)).
  pose proof (Z.mod_pos_bound (x + 2 ^ k - 1) (2 ^ k) ltac:(lia)). lia.
Qed.

Lemma is_power_of_two_pow2 (k : Z) : 0 <= k < 64 -> is_power_of_two (2 ^ k) = true.
Proof.
  intros Hk. unfold is_power_of_two. assert (0 < 2 ^ k) by lia.
  assert (2 ^ k < 2 ^ 64) by (apply Z.pow_lt_mono_r; lia).
  rewrite u64_small by lia. destruct (Z.eqb_spec (2 ^ k) 0); [lia |]. simpl. apply Z.eqb_eq.
  replace (2 ^ k - 1) with (Z.ones k) by (rewrite Z.ones_equiv; lia).
  rewrite Z.land_ones, Z.mod_same by lia. done.
Qed.

Lemma is_aligned_spec (x k : Z) :
  0 <= k -> is_aligned x (2 ^ k) = true <-> x mod 2 ^ k = 0.
Proof.
  intros. unfold is_aligned.
  replace (2 ^ k - 1) with (Z.ones k) by (rewrite Z.ones_equiv; lia).
  rewrite Z.land_ones by lia. apply Z.eqb_eq.
Qed.

(** Packing a high and a low field into one word. *)
Lemma lor_pack (a b k : Z) :
  0 <= k -> 0 <= b < 2 ^ k -> Z.lor (a * 2 ^ k) b = a * 2 ^ k + b.
Proof.
  intros Hk Hb. symmetry. apply Z.add_nocarry_lor.
  apply Z.bits_inj'. intros i Hi. rewrite Z.land_spec, Z.bits_0.
  destruct (Z.lt_ge_cases i k).
  - rewrite Z.mul_pow2_bits_low by lia. done.
  - rewrite (testbit_high k b) by lia. apply andb_false_r.
Qed.

Lemma land_ones_mod (a k : Z) : 0 <= k -> Z.land a (2 ^ k - 1) = a mod 2 ^ k.
Proof. intros. rewrite <- Z.land_ones, Z.ones_equiv by lia. done. Qed.

Lemma BIT_pow2 (nr : Z) : 0 <= nr < 64 -> BIT nr = 2 ^ nr.
Proof.
  intros. unfold BIT. rewrite Z.shiftl_1_l. apply u64_small.
  split; [lia |]. apply Z.pow_lt_mono_r; lia.
Qed.

(** ** Lemmas on arrays *)

Lemma rd_ret {A} (l : list A) (i : Z) (x : A) :
  rd l i = Ret x <-> 0 <= i /\ l !! Z.to_nat i = Some x.
Proof.
  unfold rd. case_decide; [| naive_solver].
  destruct (l !! Z.to_nat i); naive_solver.
Qed.

Lemma rd_in_range {A} (l : list A) (i : Z) :
  0 <= i < Z.of_nat (length l) -> exists x, rd l i = Ret x.
Proof.
  intros Hi. destruct (lookup_lt_is_Some_2 l (Z.to_nat i)) as [x Hx]; [lia |].
  exists x. apply rd_ret. split; [lia | done].
Qed.

Lemma wr_ret {A} (l l' : list A) (i : Z) (x : A) :
  wr l i x = Ret l' <->
  0 <= i < Z.of_nat (length l) /\ l' = <[Z.to_nat i := x]> l.
Proof. unfold wr. case_decide; naive_solver. Qed.

Lemma wr_in_range {A} (l : list A) (i : Z) (x : A) :
  0 <= i < Z.of_nat (length l) -> wr l i x = Ret (<[Z.to_nat i := x]> l).
Proof. intros. apply wr_ret. done. Qed.

Lemma rd_slice_ret {A} (l : list A) (off n : Z) :
  0 <= off -> 0 <= n -> off + n <= Z.of_nat (length l) ->
  rd_slice l off n = Ret (take (Z.to_nat n) (drop (Z.to_nat off) l)).
Proof. intros. unfold rd_slice. by rewrite decide_True. Qed.

Lemma wr_slice_ret {A} (l d : list A) (off : Z) :
  0 <= off -> off + Z.of_nat (length d) <= Z.of_nat (length l) ->
  exists l', wr_slice l off d = Ret l' /\ length l' = length l /\
    forall i, l' !! i = if decide (Z.to_nat off <= i < Z.to_nat off + length d)%nat
                        then d !! (i - Z.to_nat off)%nat else l !! i.
Proof.
  intros H1 H2. unfold wr_slice. rewrite decide_True by done. eexists. split; [reflexivity |].
  split.
  - rewrite !length_app, length_take, length_drop. lia.
  - intros i. destruct (decide (i < Z.to_nat off)%nat).
    + rewrite decide_False by lia. rewrite lookup_app_l by (rewrite length_take; lia).
      by rewrite lookup_take_lt by lia.
    + rewrite lookup_app_r by (rewrite length_take; lia). rewrite length_take, Nat.min_l by lia.
      case_decide.
      * by rewrite lookup_app_l by lia.
      * rewrite lookup_app_r by lia. rewrite lookup_drop. f_equal. lia.
Qed.

Lemma rd_slice_ext {A} (l l' : list A) (off n : Z) :
  length l' = length l ->
  (forall i : nat, off <= Z.of_nat i < off + n -> l' !! i = l !! i) ->
  rd_slice l' off n = rd_slice l off n.
Proof.
  intros Hl Hi. unfold rd_slice. rewrite Hl. case_decide as H; [| done]. f_equal. apply list_eq. intros i.
  destruct (decide (i < Z.to_nat n)%nat).
  - rewrite !lookup_take_lt, !lookup_drop by lia. apply Hi. lia.
  - rewrite !lookup_take_ge by lia. done.
Qed.

(** Reading back what was written. *)
Lemma rd_slice_same {A} (l l' d : list A) (off n : Z) :
  wr_slice l off d = Ret l' -> n = Z.of_nat (length d) -> rd_slice l' off n = Ret d.
Proof.
  intros Hw ->. unfold wr_slice in Hw. case_decide as H; [| done]. injection Hw as <-.
  rewrite rd_slice_ret; [| lia | lia | rewrite !length_app, length_take, length_drop; lia].
  rewrite drop_app_length' by (rewrite length_take; lia). rewrite Nat2Z.id, take_app_length. done.
Qed.

Lemma length_le_enc n v : length (le_enc n v) = n.
Proof. revert v. induction n; intros; simpl; [done |]. by rewrite IHn. Qed.

Lemma le_roundtrip n v : 0 <= v < 256 ^ Z.of_nat n -> le_dec (le_enc n v) = v.
Proof.
  revert v. induction n as [| n IH]; intros v Hv; simpl.
  - change (256 ^ Z.of_nat 0) with 1 in Hv. lia.
  - rewrite IH; [zdm |]. rewrite Nat2Z.inj_succ, Z.pow_succ_r in Hv by lia. zdm.
Qed.

(** ** Lemmas on lists *)

(** A list of [n] elements is its reads. *)
Lemma list_ext_lt {A} (l1 l2 : list A) :
  length l1 = length l2 -> (forall i, (i < length l1)%nat -> l1 !! i = l2 !! i) -> l1 = l2.
Proof.
  intros Hlen H. apply list_eq. intros i. destruct (decide (i < length l1)%nat); [by apply H |].
  rewrite !lookup_ge_None_2 by lia. done.
Qed.

#[export] Hint Resolve u64_bound u32_bound : brk.
#[export] Hint Rewrite u64_small u32_small using lia : brk.
