(* ===== verification/Refcnt.v ===== *)
(** * lib/refcnt.c: saturating reference counts

    A [refcnt_t] is its counter; the spinlock inside makes every operation one
    atomic step. *)

From S2P Require Import Prelude.

Definition refcnt_init (val : Z) : Z := val.

Definition refcnt_read (counter : Z) : Z := counter.

(** Each operation returns the new counter and the C return value. *)
Definition refcnt_fetch_inc (counter : Z) : Z * Z := (u32 (counter + 1), counter).

Definition refcnt_fetch_dec (counter : Z) : Z * Z :=
  if 0 <? counter then (counter - 1, counter) else (counter, 0).

Definition refcnt_inc_fetch (counter : Z) : Z * Z :=
  let c := u32 (counter + 1) in (c, c).

Definition refcnt_dec_fetch (counter : Z) : Z * Z :=
  if 0 <? counter then (counter - 1, counter - 1) else (counter, 0).

Definition refcnt_inc (counter : Z) : Z := (refcnt_inc_fetch counter).1.

Definition refcnt_dec (counter : Z) : Z := (refcnt_dec_fetch counter).1.

Definition refcnt_inc_unless_zero (counter : Z) : Z * bool :=
  if 0 <? counter then (u32 (counter + 1), true) else (counter, false).

(** ** The life of a counted object

    What the users of the object may do to its count. *)
Inductive ref_op : Set := Get | TryGet | Put.

Definition ref_step (counter : Z) (op : ref_op) : Z :=
  match op with
  | Get => refcnt_inc counter
  | TryGet => (refcnt_inc_unless_zero counter).1
  | Put => refcnt_dec counter
  end.

(** References taken less references dropped, [Get] used by holders only. *)
Fixpoint balance (held : Z) (ops : list ref_op) : option Z :=
  match ops with
  | [] => Some held
  | Get :: ops => if 0 <? held then balance (held + 1) ops else None
  | TryGet :: ops => balance (if 0 <? held then held + 1 else held) ops
  | Put :: ops => if 0 <? held then balance (held - 1) ops else None
  end.

(** As long as [refcnt_inc] and [refcnt_dec] are called by holders only,
    the counter is the number of references held; in particular once it is
    zero, [refcnt_inc_unless_zero] never brings the object back. *)
Theorem refcnt_counts_references ops : forall held held',
  0 <= held -> held + Z.of_nat (length ops) < 2 ^ 32 ->
  balance held ops = Some held' ->
  fold_left ref_step ops held = held' /\ (held = 0 -> held' = 0).
Proof.
  induction ops as [| op ops IH]; intros held held' Hh Hlen Hb; simpl in *; [naive_solver |].
  destruct op; destruct (Z.ltb_spec 0 held) as [Hp | Hz]; try done; cbn [ref_step].
  - unfold refcnt_inc, refcnt_inc_fetch. simpl. rewrite u32_small by lia.
    destruct (IH (held + 1) held') as [IH1 _]; [lia | lia | done |]. split; [done | lia].
  - unfold refcnt_inc_unless_zero. destruct (Z.ltb_spec 0 held); [| lia]. simpl.
    rewrite u32_small by lia.
    destruct (IH (held + 1) held') as [IH1 _]; [lia | lia | done |]. split; [done | lia].
  - unfold refcnt_inc_unless_zero. destruct (Z.ltb_spec 0 held); [lia |]. simpl.
    apply IH; [lia | lia | done].
  - unfold refcnt_dec, refcnt_dec_fetch. destruct (Z.ltb_spec 0 held); [| lia]. simpl.
    destruct (IH (held - 1) held') as [IH1 _]; [lia | lia | done |]. split; [done | lia].
Qed.

Lemma refcnt_counts_references_witness :
  fold_left ref_step [Get; Put; Put; TryGet] 1 = 0 /\ (1 = 0 -> 0 = 0).
Proof.
  apply (refcnt_counts_references [Get; Put; Put; TryGet] 1 0); [lia | simpl; lia | reflexivity].
Defined.
