(* ===== verification/Bitmap.v ===== *)
(** * lib/bitmap.c: bit arrays and bit allocation

    A bitmap is the array of [unsigned long] words the C code is given; its
    length is the number of words the object really has, so that an access
    past it is a [Fault].  [bm_get] is the abstraction: the bitmap as a set of
    bit numbers.  The theorems state every operation on that set. *)

From S2P Require Import Prelude.

Definition BITS_PER_LONG : Z := 64.
Definition BITS_TO_LONGS (nbits : Z) : Z :=
  u64 (nbits + BITS_PER_LONG - 1) / BITS_PER_LONG.

(** ** Operations *)

Definition bitmap_last_word_mask (nbits : Z) : Z :=
  let rem := nbits mod BITS_PER_LONG in
  if rem =? 0 then not64 0 else BIT_MASK rem.

(** [memset] over the first [n] words. *)
Fixpoint fill_words (bitmap : list Z) (v : Z) (n : nat) : res (list Z) :=
  match n with
  | O => Ret bitmap
  | S n' =>
      let! bitmap := fill_words bitmap v n' in
      wr bitmap (Z.of_nat n') v
  end.

Definition bitmap_zero (bitmap : list Z) (nbits : Z) : res (list Z) :=
  let nlongs := BITS_TO_LONGS nbits in
  fill_words bitmap 0 (Z.to_nat nlongs).

Definition bitmap_fill (bitmap : list Z) (nbits : Z) : res (list Z) :=
  let nlongs := BITS_TO_LONGS nbits in
  let! bitmap := fill_words bitmap (not64 0) (Z.to_nat nlongs) in
  if negb (nlongs =? 0) then
    let! w := rd bitmap (nlongs - 1) in
    wr bitmap (nlongs - 1) (Z.land w (bitmap_last_word_mask nbits))
  else Ret bitmap.

Definition bitmap_set_bit (bitmap : list Z) (bit : Z) : res (list Z) :=
  let idx := bit / BITS_PER_LONG in
  let ofs := bit mod BITS_PER_LONG in
  let! w := rd bitmap idx in
  wr bitmap idx (Z.lor w (BIT ofs)).

Definition bitmap_clear_bit (bitmap : list Z) (bit : Z) : res (list Z) :=
  let idx := bit / BITS_PER_LONG in
  let ofs := bit mod BITS_PER_LONG in
  let! w := rd bitmap idx in
  wr bitmap idx (Z.land w (not64 (BIT ofs))).

Definition bitmap_test_bit (bitmap : list Z) (bit : Z) : res bool :=
  let idx := bit / BITS_PER_LONG in
  let ofs := bit mod BITS_PER_LONG in
  let! w := rd bitmap idx in
  Ret (negb (Z.land w (BIT ofs) =? 0)).

(** The loop [for (bit = start; bit < nbits; bit++)], [n] iterations left. *)
Fixpoint find_zero_loop (bitmap : list Z) (nbits bit : Z) (n : nat) : res Z :=
  match n with
  | O => Ret nbits
  | S n' =>
      let! b := bitmap_test_bit bitmap bit in
      if negb b then Ret bit else find_zero_loop bitmap nbits (bit + 1) n'
  end.

Definition bitmap_find_next_zero_bit (bitmap : list Z) (nbits start : Z)
    : res Z :=
  if nbits <=? start then Ret nbits
  else find_zero_loop bitmap nbits start (Z.to_nat (nbits - start)).

Definition bitmap_find_first_zero_bit (bitmap : list Z) (nbits : Z) : res Z :=
  bitmap_find_next_zero_bit bitmap nbits 0.

(** The allocators return the updated bitmap and [Some bit] where the C code
    returns [true] and stores the bit through [out_bit]. *)
Definition bitmap_alloc_bit (bitmap : list Z) (nbits : Z)
    : res (list Z * option Z) :=
  let! bit := bitmap_find_first_zero_bit bitmap nbits in
  if nbits <=? bit then Ret (bitmap, None)
  else
    let! bitmap := bitmap_set_bit bitmap bit in
    Ret (bitmap, Some bit).

Definition bitmap_alloc_bit_from (bitmap : list Z) (nbits hint : Z)
    : res (list Z * option Z) :=
  if nbits =? 0 then Ret (bitmap, None)
  else
    let hint := Z.min hint nbits in
    let! bit := bitmap_find_next_zero_bit bitmap nbits hint in
    if nbits <=? bit then
      let! bit := bitmap_find_next_zero_bit bitmap nbits 0 in
      if hint <=? bit then Ret (bitmap, None)
      else
        let! bitmap := bitmap_set_bit bitmap bit in
        Ret (bitmap, Some bit)
    else
      let! bitmap := bitmap_set_bit bitmap bit in
      Ret (bitmap, Some bit).

Definition bitmap_free_bit (bitmap : list Z) (nbits bit : Z) : res (list Z) :=
  if bit <? nbits then bitmap_clear_bit bitmap bit else Ret bitmap.

(** [for (i = 0; i < len; i++) if (bitmap_test_bit(bitmap, cand + i)) break;]:
    whether the loop runs to [len]. *)
Fixpoint region_is_free (bitmap : list Z) (bit : Z) (n : nat) : res bool :=
  match n with
  | O => Ret true
  | S n' =>
      let! b := bitmap_test_bit bitmap bit in
      if b then Ret false else region_is_free bitmap (bit + 1) n'
  end.

Fixpoint set_bits (bitmap : list Z) (bit : Z) (n : nat) : res (list Z) :=
  match n with
  | O => Ret bitmap
  | S n' =>
      let! bitmap := bitmap_set_bit bitmap bit in
      set_bits bitmap (bit + 1) n'
  end.

(** The candidate loop of [bitmap_alloc_region].  Every iteration moves to a
    larger zero bit, so [nbits + 1] iterations are enough. *)
Fixpoint alloc_region_loop (bitmap : list Z) (nbits len align cand : Z)
    (fuel : nat) : res (list Z * option Z) :=
  match fuel with
  | O => Halt Fuel
  | S fuel' =>
      if negb (u64 (cand + len) <=? nbits) then Ret (bitmap, None)
      else
        let next (_ : unit) :=
          let! cand := bitmap_find_next_zero_bit bitmap nbits (u64 (cand + 1)) in
          alloc_region_loop bitmap nbits len align cand fuel' in
        if (1 <? align) && negb (cand mod align =? 0) then next tt
        else
          let! ok := region_is_free bitmap cand (Z.to_nat len) in
          if negb ok then next tt
          else
            let! bitmap := set_bits bitmap cand (Z.to_nat len) in
            Ret (bitmap, Some cand)
  end.

Definition bitmap_alloc_region (bitmap : list Z) (nbits len align : Z)
    : res (list Z * option Z) :=
  if (len =? 0) || (nbits <? len) then Ret (bitmap, None)
  else
    let align := if align =? 0 then 1 else align in
    let! cand := bitmap_find_first_zero_bit bitmap nbits in
    alloc_region_loop bitmap nbits len align cand (S (Z.to_nat nbits)).

Fixpoint free_region_loop (bitmap : list Z) (nbits start i : Z) (n : nat)
    : res (list Z) :=
  match n with
  | O => Ret bitmap
  | S n' =>
      if u64 (start + i) <? nbits then
        let! bitmap := bitmap_clear_bit bitmap (u64 (start + i)) in
        free_region_loop bitmap nbits start (i + 1) n'
      else Ret bitmap
  end.

Definition bitmap_free_region (bitmap : list Z) (nbits start len : Z)
    : res (list Z) :=
  free_region_loop bitmap nbits start 0 (Z.to_nat len).

(** ** Abstraction *)

Definition words_ok (bm : list Z) : Prop := Forall (fun w => 0 <= w < 2 ^ 64) bm.

Definition bm_get (bm : list Z) (i : Z) : bool :=
  match bm !! Z.to_nat (i / 64) with
  | Some w => Z.testbit w (i mod 64)
  | None => false
  end.

(** The bits an array of words has room for. *)
Definition capacity (bm : list Z) : Z := 64 * Z.of_nat (length bm).

(** [bm'] is a well-formed array of the same size whose bits are [f]. *)
Record bm_is (bm bm' : list Z) (f : Z -> bool) : Prop := {
  bmi_length : length bm' = length bm;
  bmi_words : words_ok bm';
  bmi_get : forall j, 0 <= j < capacity bm -> bm_get bm' j = f j
}.

Lemma bm_index (bm : list Z) (i : Z) :
  0 <= i < capacity bm ->
  0 <= i / 64 < Z.of_nat (length bm) /\ 0 <= i mod 64 < 64.
Proof. unfold capacity. intros. zdm. Qed.

Lemma bm_word (bm : list Z) (i : Z) :
  words_ok bm -> 0 <= i < capacity bm ->
  exists w, rd bm (i / 64) = Ret w /\ 0 <= w < 2 ^ 64 /\
            bm_get bm i = Z.testbit w (i mod 64).
Proof.
  intros Hok Hi. apply bm_index in Hi as [Hx _].
  destruct (rd_in_range bm (i / 64) Hx) as [w Hw]. exists w.
  pose proof (proj1 (rd_ret _ _ _) Hw) as [_ Hl].
  unfold bm_get. rewrite Hl. split_and!; try done.
  all: eapply (Forall_lookup_1 _ _ _ _ Hok Hl).
Qed.

Lemma land_bit_test (w k : Z) :
  0 <= k < 64 -> negb (Z.land w (BIT k) =? 0) = Z.testbit w k.
Proof.
  intros. rewrite BIT_pow2 by lia.
  destruct (Z.testbit w k) eqn:E.
  - destruct (Z.eqb_spec (Z.land w (2 ^ k)) 0) as [H0 |]; [| done].
    apply (f_equal (fun z => Z.testbit z k)) in H0.
    rewrite Z.land_spec, E, Z.pow2_bits_true, Z.bits_0 in H0 by lia. done.
  - destruct (Z.eqb_spec (Z.land w (2 ^ k)) 0) as [| H0]; [done |].
    exfalso. apply H0. apply Z.bits_inj'. intros i Hi.
    rewrite Z.land_spec, Z.bits_0.
    destruct (Z.eq_dec i k) as [-> |]; [by rewrite E |].
    rewrite Z.pow2_bits_false by lia. apply andb_false_r.
Qed.

Lemma bitmap_test_bit_spec (bm : list Z) (i : Z) :
  words_ok bm -> 0 <= i < capacity bm ->
  bitmap_test_bit bm i = Ret (bm_get bm i).
Proof.
  intros Hok Hi. destruct (bm_word bm i Hok Hi) as (w & Hr & _ & Hg).
  unfold bitmap_test_bit, BITS_PER_LONG. rewrite Hr, Hg, land_bit_test; [done |].
  apply bm_index in Hi. lia.
Qed.

(** Replacing the word that holds bit [i]. *)
Lemma bm_is_insert (bm : list Z) (i w' : Z) (f : Z -> bool) :
  words_ok bm -> 0 <= i < capacity bm -> 0 <= w' < 2 ^ 64 ->
  (forall j, 0 <= j < capacity bm -> j / 64 = i / 64 -> Z.testbit w' (j mod 64) = f j) ->
  (forall j, 0 <= j < capacity bm -> j / 64 <> i / 64 -> bm_get bm j = f j) ->
  bm_is bm (<[Z.to_nat (i / 64) := w']> bm) f.
Proof.
  intros Hok Hi Hw Hsame Hother. pose proof (bm_index _ _ Hi).
  split.
  - apply length_insert.
  - by apply Forall_insert.
  - intros j Hj. pose proof (bm_index _ _ Hj). unfold bm_get.
    destruct (Z.eq_dec (j / 64) (i / 64)) as [E | Hne].
    + rewrite E, list_lookup_insert_eq by lia. auto.
    + rewrite list_lookup_insert_ne by lia. apply Hother; auto.
Qed.

Lemma same_word_same_bit (i j : Z) : j / 64 = i / 64 -> j mod 64 = i mod 64 -> j = i.
Proof. intros. zdm. Qed.

Lemma bitmap_set_bit_spec (bm : list Z) (i : Z) :
  words_ok bm -> 0 <= i < capacity bm ->
  exists bm', bitmap_set_bit bm i = Ret bm' /\
              bm_is bm bm' (fun j => (j =? i) || bm_get bm j).
Proof.
  intros Hok Hi. destruct (bm_word bm i Hok Hi) as (w & Hr & Hw & Hg).
  pose proof (bm_index _ _ Hi) as [Hx Ho].
  unfold bitmap_set_bit, BITS_PER_LONG. rewrite Hr, wr_in_range, BIT_pow2 by lia.
  eexists; split; [done |]. apply bm_is_insert; try done.
  - split; [apply Z.lor_nonneg; lia |].
    destruct (Z.eq_dec (Z.lor w (2 ^ (i mod 64))) 0); [lia |].
    apply Z.log2_lt_pow2; [pose proof (Z.lor_nonneg w (2 ^ (i mod 64))); lia |].
    rewrite Z.log2_lor, Z.log2_pow2 by lia.
    destruct (Z.eq_dec w 0) as [-> |]; [simpl; lia |].
    apply Z.max_lub_lt; [apply Z.log2_lt_pow2; lia | lia].
  - intros j Hj E. rewrite Z.lor_spec.
    apply rd_ret in Hr as [_ Hl]. unfold bm_get. rewrite E, Hl.
    destruct (Z.eqb_spec j i) as [-> | Hne]; simpl.
    + rewrite Z.pow2_bits_true by lia. apply orb_true_r.
    + rewrite Z.pow2_bits_false; [apply orb_false_r |].
      intros Hc. apply Hne. by apply same_word_same_bit.
  - intros j Hj Hne. destruct (Z.eqb_spec j i) as [-> |]; [lia | done].
Qed.

Lemma land_u64_bound (a b : Z) :
  0 <= a < 2 ^ 64 -> 0 <= b -> 0 <= Z.land a b < 2 ^ 64.
Proof.
  intros Ha Hb. split; [apply Z.land_nonneg; lia |].
  rewrite <- (Z.mod_small a (2 ^ 64)) by lia.
  rewrite <- Z.land_ones, <- Z.land_assoc, (Z.land_comm (Z.ones 64)) by lia.
  rewrite Z.land_assoc, Z.land_ones by lia. apply Z.mod_pos_bound. lia.
Qed.

Lemma bitmap_clear_bit_spec (bm : list Z) (i : Z) :
  words_ok bm -> 0 <= i < capacity bm ->
  exists bm', bitmap_clear_bit bm i = Ret bm' /\
              bm_is bm bm' (fun j => negb (j =? i) && bm_get bm j).
Proof.
  intros Hok Hi. destruct (bm_word bm i Hok Hi) as (w & Hr & Hw & Hg).
  pose proof (bm_index _ _ Hi) as [Hx Ho].
  unfold bitmap_clear_bit, BITS_PER_LONG. rewrite Hr, wr_in_range, BIT_pow2 by lia.
  eexists; split; [done |]. apply bm_is_insert; try done.
  - apply land_u64_bound; [done | apply u64_bound].
  - intros j Hj E. pose proof (bm_index _ _ Hj).
    rewrite Z.land_spec, not64_testbit by lia.
    apply rd_ret in Hr as [_ Hl]. unfold bm_get. rewrite E, Hl.
    destruct (Z.eqb_spec j i) as [-> | Hne]; simpl.
    + rewrite Z.pow2_bits_true by lia. apply andb_false_r.
    + rewrite Z.pow2_bits_false; [apply andb_true_r |].
      intros Hc. apply Hne. by apply same_word_same_bit.
  - intros j Hj Hne. destruct (Z.eqb_spec j i) as [-> |]; [lia | done].
Qed.

(** ** Searching *)

Lemma find_zero_loop_spec (bm : list Z) (nbits : Z) (n : nat) : forall bit,
  words_ok bm -> 0 <= bit -> bit + Z.of_nat n = nbits -> nbits <= capacity bm ->
  exists r, find_zero_loop bm nbits bit n = Ret r /\ bit <= r <= nbits /\
            (forall j, bit <= j < r -> bm_get bm j = true) /\
            (r < nbits -> bm_get bm r = false).
Proof.
  induction n as [| n IH]; intros bit Hok Hb Hn Hc; simpl.
  - exists nbits. split_and!; try done; intros; lia.
  - rewrite bitmap_test_bit_spec by (try done; lia).
    destruct (bm_get bm bit) eqn:E; simpl.
    + destruct (IH (bit + 1)) as (r & Hr & Hle & Hones & Hz); try done; try lia.
      exists r. split_and!; try done; try lia.
      intros j Hj. destruct (Z.eq_dec j bit) as [-> |]; [done | apply Hones; lia].
    + exists bit. split_and!; try done; lia.
Qed.

Lemma find_next_zero_spec (bm : list Z) (nbits start : Z) :
  words_ok bm -> 0 <= start -> 0 <= nbits <= capacity bm ->
  exists r, bitmap_find_next_zero_bit bm nbits start = Ret r /\
            Z.min start nbits <= r <= nbits /\
            (forall j, start <= j < r -> bm_get bm j = true) /\
            (r < nbits -> start <= r /\ bm_get bm r = false).
Proof.
  intros Hok Hs Hn. unfold bitmap_find_next_zero_bit.
  destruct (Z.leb_spec nbits start).
  - exists nbits. split_and!; try done; try lia; intros; lia.
  - destruct (find_zero_loop_spec bm nbits (Z.to_nat (nbits - start)) start)
      as (r & -> & ? & ? & ?); try done; try lia.
    exists r. split_and!; try done; try lia. intros; split; [lia | auto].
Qed.

(** ** Composing updates *)

Lemma bm_is_refl (bm : list Z) : words_ok bm -> bm_is bm bm (bm_get bm).
Proof. split; done. Qed.

Lemma bm_is_capacity (bm bm' : list Z) f : bm_is bm bm' f -> capacity bm' = capacity bm.
Proof. intros H. unfold capacity. by rewrite (bmi_length _ _ _ H). Qed.

Lemma bm_is_trans (bm bm1 bm2 : list Z) f g h :
  bm_is bm bm1 f -> bm_is bm1 bm2 g ->
  (forall j, 0 <= j < capacity bm -> bm_get bm1 j = f j -> g j = h j) ->
  bm_is bm bm2 h.
Proof.
  intros H1 H2 He. pose proof (bm_is_capacity _ _ _ H1) as Hc.
  split; [by rewrite (bmi_length _ _ _ H2), (bmi_length _ _ _ H1) | apply H2 |].
  intros j Hj. rewrite (bmi_get _ _ _ H2) by lia.
  apply He; [done | by apply H1].
Qed.

Lemma bm_is_base (bm bm1 bm2 : list Z) f :
  length bm1 = length bm -> bm_is bm1 bm2 f -> bm_is bm bm2 f.
Proof.
  intros Hl [H1 H2 H3]. split; [congruence | done |].
  intros j Hj. apply H3. unfold capacity in *. by rewrite Hl.
Qed.

Definition in_range (s n j : Z) : bool := (s <=? j) && (j <? s + n).

Lemma in_range_spec (s n j : Z) : in_range s n j = true <-> s <= j < s + n.
Proof. unfold in_range. rewrite andb_true_iff, Z.leb_le, Z.ltb_lt. done. Qed.

Lemma set_bits_spec (n : nat) : forall (bm : list Z) (bit : Z),
  words_ok bm -> 0 <= bit -> bit + Z.of_nat n <= capacity bm ->
  exists bm', set_bits bm bit n = Ret bm' /\
              bm_is bm bm' (fun j => in_range bit (Z.of_nat n) j || bm_get bm j).
Proof.
  induction n as [| n IH]; intros bm bit Hok Hb Hc; simpl.
  - eexists; split; [done |]. split; try done. intros j Hj.
    unfold in_range. bool_prop; try done; lia.
  - destruct (bitmap_set_bit_spec bm bit) as (bm1 & -> & H1); [done | lia |].
    destruct (IH bm1 (bit + 1)) as (bm2 & -> & H2);
      [apply H1 | lia | rewrite (bm_is_capacity _ _ _ H1); lia |].
    eexists; split; [done |]. eapply bm_is_trans; [apply H1 | apply H2 |].
    intros j Hj Hg. cbv beta in *. rewrite Hg. unfold in_range. bool_prop; try done; lia.
Qed.

Lemma region_is_free_spec (n : nat) : forall (bm : list Z) (bit : Z),
  words_ok bm -> 0 <= bit -> bit + Z.of_nat n <= capacity bm ->
  exists b, region_is_free bm bit n = Ret b /\
            (b = true <-> forall j, bit <= j < bit + Z.of_nat n -> bm_get bm j = false).
Proof.
  induction n as [| n IH]; intros bm bit Hok Hb Hc; simpl.
  - exists true. split; [done |]. split; [intros; lia | done].
  - rewrite bitmap_test_bit_spec by (try done; lia).
    destruct (bm_get bm bit) eqn:E.
    + exists false. split; [done |]. split; [done |].
      intros H. rewrite H in E by lia. done.
    + destruct (IH bm (bit + 1)) as (b & -> & Hb'); try done; try lia.
      exists b. split; [done |]. rewrite Hb'. split; intros H j Hj.
      * destruct (Z.eq_dec j bit) as [-> |]; [done | apply H; lia].
      * apply H; lia.
Qed.

Lemma free_region_loop_spec (n : nat) : forall (bm : list Z) (nbits start i : Z),
  words_ok bm -> 0 <= start -> 0 <= i -> nbits <= capacity bm ->
  start + i + Z.of_nat n < 2 ^ 64 ->
  exists bm', free_region_loop bm nbits start i n = Ret bm' /\
    bm_is bm bm' (fun j => negb (in_range (start + i) (Z.of_nat n) j && (j <? nbits))
                           && bm_get bm j).
Proof.
  induction n as [| n IH]; intros bm nbits start i Hok Hs Hi Hc Hb; simpl.
  - eexists; split; [done |]. split; try done. intros j Hj.
    unfold in_range. bool_prop; try done; lia.
  - rewrite u64_small by lia. destruct (Z.ltb_spec (start + i) nbits).
    + destruct (bitmap_clear_bit_spec bm (start + i)) as (bm1 & -> & H1); [done | lia |].
      destruct (IH bm1 nbits start (i + 1)) as (bm2 & -> & H2);
        [apply H1 | lia | lia | rewrite (bm_is_capacity _ _ _ H1); lia | lia |].
      eexists; split; [done |]. eapply bm_is_trans; [apply H1 | apply H2 |].
      intros j Hj Hg. cbv beta in *. rewrite Hg. unfold in_range. bool_prop; try done; lia.
    + eexists; split; [done |]. split; try done. intros j Hj.
      unfold in_range. bool_prop; try done; lia.
Qed.

Lemma fill_words_spec (bm : list Z) (v : Z) (n : nat) :
  words_ok bm -> 0 <= v < 2 ^ 64 -> (n <= length bm)%nat ->
  exists bm', fill_words bm v n = Ret bm' /\ length bm' = length bm /\ words_ok bm' /\
    forall k, bm' !! k = if decide (k < n)%nat then Some v else bm !! k.
Proof.
  intros Hok Hv. induction n as [| n IH]; intros Hn; simpl.
  - exists bm. split_and!; try done.
  - destruct IH as (bm1 & -> & Hl & Hw & Hk); [lia |].
    rewrite wr_in_range by lia. eexists; split; [done |].
    rewrite length_insert, Nat2Z.id. split_and!; [done | by apply Forall_insert |].
    intros k. destruct (decide (k = n)) as [-> |].
    + rewrite list_lookup_insert_eq by lia. by rewrite decide_True by lia.
    + rewrite list_lookup_insert_ne, Hk by done.
      destruct (decide (k < n)%nat), (decide (k < S n)%nat); try done; lia.
Qed.

(** ** Correctness of the allocators *)

Lemma alloc_bit_from_spec (bm : list Z) (nbits hint : Z) :
  words_ok bm -> 0 <= nbits <= capacity bm -> 0 <= hint ->
  exists bm' r, bitmap_alloc_bit_from bm nbits hint = Ret (bm', r) /\
    match r with
    | Some bit =>
        0 <= bit < nbits /\ bm_get bm bit = false /\
        bm_is bm bm' (fun j => (j =? bit) || bm_get bm j) /\
        (forall j, hint <= j < nbits -> (j < bit \/ bit < hint) -> bm_get bm j = true) /\
        (forall j, 0 <= j < bit -> bit < hint -> bm_get bm j = true)
    | None => bm' = bm /\ forall j, 0 <= j < nbits -> bm_get bm j = true
    end.
Proof.
  intros Hok Hn Hh. unfold bitmap_alloc_bit_from.
  destruct (Z.eqb_spec nbits 0) as [-> |].
  { exists bm, None. split_and!; try done; lia. }
  destruct (find_next_zero_spec bm nbits (Z.min hint nbits)) as (r & -> & Hr & Hones & Hz);
    try done; [lia |].
  destruct (Z.leb_spec nbits r).
  - destruct (find_next_zero_spec bm nbits 0) as (r0 & -> & Hr0 & Hones0 & Hz0);
      try done; try lia.
    destruct (Z.leb_spec (Z.min hint nbits) r0).
    + exists bm, None. split_and!; try done. intros j Hj.
      destruct (Z.lt_ge_cases j r0); [apply Hones0; lia | apply Hones; lia].
    + destruct (bitmap_set_bit_spec bm r0) as (bm' & -> & Hs); [done | lia |].
      destruct Hz0 as [_ Hz0]; [lia |].
      exists bm', (Some r0).
      split_and!; try done; try lia; intros j Hj ?; [apply Hones | apply Hones0]; lia.
  - destruct (bitmap_set_bit_spec bm r) as (bm' & -> & Hs); [done | lia |].
    destruct Hz as [? Hz]; [lia |].
    exists bm', (Some r). split_and!; try done; try lia; intros j Hj ?; apply Hones; lia.
Qed.

(** A free, aligned run of [len] bits at [s]. *)
Definition fits (bm : list Z) (nbits len align s : Z) : Prop :=
  0 <= s /\ s + len <= nbits /\ (align <= 1 \/ s mod align = 0) /\
  forall j, s <= j < s + len -> bm_get bm j = false.

(** What a call of [bitmap_alloc_region] yields: the least fit, now set, or
    nothing when there is none. *)
Definition region_outcome (bm : list Z) (nbits len align : Z) (bm' : list Z)
    (r : option Z) : Prop :=
  match r with
  | Some s => fits bm nbits len align s /\ (forall s', s' < s -> ~ fits bm nbits len align s') /\
              bm_is bm bm' (fun j => in_range s len j || bm_get bm j)
  | None => bm' = bm /\ forall s, ~ fits bm nbits len align s
  end.

Lemma align_test (align cand : Z) :
  (1 <? align) && negb (cand mod align =? 0) = false <-> align <= 1 \/ cand mod align = 0.
Proof. bool_prop; split; try done; lia. Qed.

Lemma alloc_region_loop_spec (bm : list Z) (nbits len align : Z) (fuel : nat) : forall cand,
  words_ok bm -> 0 <= nbits <= capacity bm -> nbits < 2 ^ 63 ->
  0 < len <= nbits -> 0 <= cand <= nbits -> (Z.to_nat (nbits - cand) < fuel)%nat ->
  (forall s, s < cand -> ~ fits bm nbits len align s) ->
  exists bm' r, alloc_region_loop bm nbits len align cand fuel = Ret (bm', r) /\
                region_outcome bm nbits len align bm' r.
Proof.
  induction fuel as [| fuel IH]; intros cand Hok Hn Hn63 Hlen Hcand Hf Hmin; [lia |].
  simpl. rewrite !u64_small by (pow2; lia).
  destruct (Z.leb_spec (cand + len) nbits) as [Hle | Hgt]; simpl.
  2: { exists bm, None. split; [done |]. split; [done |]. intros s Hs.
       destruct (Z.lt_ge_cases s cand); [by apply (Hmin s) | destruct Hs; lia]. }
  destruct (find_next_zero_spec bm nbits (cand + 1)) as (c' & Hfn & Hc' & Hones & Hz);
    try done; [lia |].
  rewrite Hfn.
  assert (Hstep : ~ fits bm nbits len align cand ->
    exists bm' r, alloc_region_loop bm nbits len align c' fuel = Ret (bm', r) /\
                  region_outcome bm nbits len align bm' r).
  { intros Hno. apply IH; try done; try lia.
    intros s Hs [Hs0 [Hs1 [Ha Hfree]]].
    destruct (Z.lt_trichotomy s cand) as [Hlt | [-> | Hgt]];
      [by apply (Hmin s) | by apply Hno |].
    specialize (Hones s ltac:(lia)). rewrite Hfree in Hones by lia. done. }
  destruct ((1 <? align) && negb (cand mod align =? 0)) eqn:Ea.
  { apply Hstep. intros (_ & _ & Ha & _). apply align_test in Ha. congruence. }
  apply align_test in Ea.
  destruct (region_is_free_spec (Z.to_nat len) bm cand) as (b & -> & Hb); try done; try lia.
  rewrite Z2Nat.id in Hb by lia. destruct b; simpl.
  - destruct (set_bits_spec (Z.to_nat len) bm cand) as (bm' & -> & Hs); try done; try lia.
    rewrite Z2Nat.id in Hs by lia.
    exists bm', (Some cand). split; [done |]. repeat split; try done; try lia; [| apply Hs..].
    by apply Hb.
  - apply Hstep. intros (_ & _ & _ & Hfree). by apply Hb in Hfree.
Qed.

Lemma alloc_region_spec (bm : list Z) (nbits len align : Z) :
  words_ok bm -> 0 <= nbits <= capacity bm -> nbits < 2 ^ 63 -> 0 < len -> 0 <= align ->
  exists bm' r, bitmap_alloc_region bm nbits len align = Ret (bm', r) /\
                region_outcome bm nbits len align bm' r.
Proof.
  intros Hok Hn Hn63 Hlen Hal. unfold bitmap_alloc_region.
  destruct (Z.eqb_spec len 0); [lia |]. cbn [orb].
  destruct (Z.ltb_spec nbits len).
  { exists bm, None. split; [done |]. split; [done |]. intros s (? & ? & _); lia. }
  assert (Heq : forall s, fits bm nbits len (if align =? 0 then 1 else align) s <->
                          fits bm nbits len align s).
  { intros s. unfold fits. bool_prop; [| done]. subst. split; intros (?&?&?&?); split_and!; auto; lia. }
  cbv zeta. unfold bitmap_find_first_zero_bit.
  destruct (find_next_zero_spec bm nbits 0) as (c & -> & Hc & Hones & Hz); try done; try lia.
  destruct (alloc_region_loop_spec bm nbits len (if align =? 0 then 1 else align)
              (S (Z.to_nat nbits)) c) as (bm' & r & -> & Hr); try done; try lia.
  { intros s Hs (Hs0 & _ & _ & Hfree). specialize (Hones s ltac:(lia)).
    rewrite Hfree in Hones by lia. done. }
  exists bm', r. split; [done |]. unfold region_outcome in *.
  destruct r; setoid_rewrite Heq in Hr; done.
Qed.

(** Freeing the region just allocated gives back the bits there were. *)
Theorem bitmap_alloc_free_region (bm bm' : list Z) (nbits len align s : Z) :
  words_ok bm -> 0 <= nbits <= capacity bm -> nbits < 2 ^ 63 -> 0 < len -> 0 <= align ->
  bitmap_alloc_region bm nbits len align = Ret (bm', Some s) ->
  exists bm'', bitmap_free_region bm' nbits s len = Ret bm'' /\ bm_is bm bm'' (bm_get bm).
Proof.
  intros Hok Hn Hn63 Hlen Hal Ha.
  destruct (alloc_region_spec bm nbits len align)
    as (bm1 & r & Ha' & Hr); try done.
  rewrite Ha in Ha'. simplify_eq. destruct Hr as ((Hs0 & Hs1 & _ & Hfree) & _ & Hset).
  destruct (free_region_loop_spec (Z.to_nat len) bm1 nbits s 0) as (bm2 & Hf & Hc);
    [apply Hset | lia | lia | rewrite (bm_is_capacity _ _ _ Hset); lia | pow2; lia |].
  exists bm2. split; [done |]. eapply bm_is_trans; [apply Hset | apply Hc |].
  intros j Hj Hg. cbv beta in *. rewrite Hg, Z2Nat.id, Z.add_0_r by lia.
  destruct (in_range s len j) eqn:E; simpl; [| done].
  apply in_range_spec in E. destruct (Z.ltb_spec j nbits); [| lia].
  simpl. by rewrite Hfree.
Qed.

Lemma bitmap_fill_spec (bm : list Z) (nbits : Z) :
  words_ok bm -> 0 <= nbits <= capacity bm -> nbits < 2 ^ 63 ->
  exists bm', bitmap_fill bm nbits = Ret bm' /\
    bm_is bm bm' (fun j => if j <? nbits then true
                           else if j <? 64 * BITS_TO_LONGS nbits then false
                           else bm_get bm j).
Proof.
  intros Hok Hn Hn63. unfold bitmap_fill.
  assert (E : BITS_TO_LONGS nbits = (nbits + 63) / 64).
  { unfold BITS_TO_LONGS, BITS_PER_LONG. rewrite u64_small by (pow2; lia).
    f_equal. lia. }
  assert (Hlen : 0 <= BITS_TO_LONGS nbits <= Z.of_nat (length bm)).
  { rewrite E. unfold capacity in Hn. zdm. }
  cbv zeta. set (n := BITS_TO_LONGS nbits) in *.
  destruct (fill_words_spec bm (not64 0) (Z.to_nat n)) as (bm1 & -> & Hl & Hw & Hk);
    [done | apply u64_bound | lia |].
  assert (Hget : forall j, 0 <= j < capacity bm ->
            bm_get bm1 j = if j <? 64 * n then true else bm_get bm j).
  { intros j Hj. unfold bm_get. rewrite Hk. pose proof (bm_index _ _ Hj).
    destruct (Z.ltb_spec j (64 * n)).
    - rewrite decide_True by zdm. rewrite not64_testbit by lia. by rewrite Z.bits_0.
    - rewrite decide_False by zdm. done. }
  destruct (Z.eqb_spec n 0) as [Hz | Hnz]; simpl.
  { exists bm1. split; [done |]. split; try done. intros j Hj.
    rewrite Hget by done. bool_prop; try done; zdm. }
  assert (Hi : 0 <= 64 * (n - 1) < capacity bm1) by (unfold capacity in *; lia).
  destruct (bm_word bm1 (64 * (n - 1)) Hw Hi) as (w & Hr & Hwb & _).
  replace (64 * (n - 1) / 64) with (n - 1) in Hr by zdm.
  rewrite Hr, wr_in_range by lia. eexists; split; [done |].
  assert (Hmask : forall k, 0 <= k < 64 ->
    Z.testbit (bitmap_last_word_mask nbits) k = (64 * (n - 1) + k <? nbits)).
  { intros k Hk64. unfold bitmap_last_word_mask, BITS_PER_LONG.
    destruct (Z.eqb_spec (nbits mod 64) 0).
    - rewrite not64_testbit, Z.bits_0 by lia. bool_prop; try done. zdm.
    - unfold BIT_MASK. assert (0 < nbits mod 64 < 64) by zdm.
      rewrite BIT_pow2, wrap_testbit, pow2_minus1_testbit by lia.
      bool_prop; try done; zdm. }
  assert (Hmb : 0 <= bitmap_last_word_mask nbits).
  { unfold bitmap_last_word_mask, BIT_MASK. case_match; apply u64_bound. }
  assert (Hwv : w = not64 0).
  { apply rd_ret in Hr as [_ Hr]. rewrite Hk, decide_True in Hr by lia. congruence. }
  assert (Hcap : capacity bm1 = capacity bm) by (unfold capacity; congruence).
  apply (bm_is_base bm bm1); [done |].
  replace (n - 1) with (64 * (n - 1) / 64) at 1 by zdm.
  apply bm_is_insert; try done; [by apply land_u64_bound | |].
  - intros j Hj Ej. pose proof (bm_index _ _ Hj).
    rewrite Hwv, Z.land_spec, not64_testbit, Hmask, Z.bits_0 by lia. simpl.
    replace (64 * (n - 1) + j mod 64) with j by zdm.
    bool_prop; try done; zdm.
  - intros j Hj Ej. rewrite Hget by lia. bool_prop; try done; zdm.
Qed.

(** ** Properties *)

(** [bitmap_alloc_bit_from] takes the first free bit at or after the hint,
    or, when there is none, the first free bit before it, and sets that bit only;
    it fails only when every bit is set. *)
Theorem bitmap_alloc_bit_from_correct (bm : list Z) (nbits hint : Z) :
  words_ok bm -> 0 <= nbits <= capacity bm -> 0 <= hint ->
  exists bm' r, bitmap_alloc_bit_from bm nbits hint = Ret (bm', r) /\
    match r with
    | Some bit =>
        0 <= bit < nbits /\ bm_get bm bit = false /\
        bm_is bm bm' (fun j => (j =? bit) || bm_get bm j) /\
        (forall j, hint <= j < nbits -> (j < bit \/ bit < hint) -> bm_get bm j = true) /\
        (forall j, 0 <= j < bit -> bit < hint -> bm_get bm j = true)
    | None => bm' = bm /\ forall j, 0 <= j < nbits -> bm_get bm j = true
    end.
Proof. apply alloc_bit_from_spec. Qed.

(** [bitmap_alloc_region] returns the least free aligned run and sets
    exactly its bits; it fails only when no such run exists. *)
Theorem bitmap_alloc_region_correct (bm : list Z) (nbits len align : Z) :
  words_ok bm -> 0 <= nbits <= capacity bm -> nbits < 2 ^ 63 -> 0 < len -> 0 <= align ->
  exists bm' r, bitmap_alloc_region bm nbits len align = Ret (bm', r) /\
                region_outcome bm nbits len align bm' r.
Proof. apply alloc_region_spec. Qed.

(** [bitmap_fill] sets bits [0 .. nbits) and clears the rest of the last
    word it touches, which no later search looks at. *)
Theorem bitmap_fill_correct (bm : list Z) (nbits : Z) :
  words_ok bm -> 0 <= nbits <= capacity bm -> nbits < 2 ^ 63 ->
  exists bm', bitmap_fill bm nbits = Ret bm' /\
    bm_is bm bm' (fun j => if j <? nbits then true
                           else if j <? 64 * BITS_TO_LONGS nbits then false
                           else bm_get bm j).
Proof. apply bitmap_fill_spec. Qed.

(** ** Witnesses *)

Lemma bitmap_alloc_bit_from_witness :
  exists bm' r, bitmap_alloc_bit_from [7; 0] 70 1 = Ret (bm', r) /\ r = Some 3.
Proof.
  destruct (bitmap_alloc_bit_from_correct [7; 0] 70 1) as (bm' & r & H & _);
    [repeat constructor; lia | unfold capacity; simpl; lia | lia |].
  exists bm', r. split; [exact H |]. vm_compute in H. congruence.
Defined.

Lemma bitmap_alloc_region_witness :
  exists bm' r, bitmap_alloc_region [7; 0] 70 4 4 = Ret (bm', r) /\ r = Some 4.
Proof.
  destruct (bitmap_alloc_region_correct [7; 0] 70 4 4) as (bm' & r & H & _);
    [repeat constructor; lia | unfold capacity; simpl; lia | lia | lia | lia |].
  exists bm', r. split; [exact H |]. vm_compute in H. congruence.
Defined.

Lemma bitmap_alloc_free_region_witness :
  exists bm'', bitmap_free_region [247; 0] 70 4 4 = Ret bm'' /\
               bm_is [7; 0] bm'' (bm_get [7; 0]).
Proof.
  apply (bitmap_alloc_free_region [7; 0] [247; 0] 70 4 4 4);
    [repeat constructor; lia | unfold capacity; simpl; lia | lia | lia | lia
    | vm_compute; reflexivity].
Defined.

Lemma bitmap_fill_witness :
  exists bm', bitmap_fill [0; 0] 70 = Ret bm' /\ bm' = [18446744073709551615; 63].
Proof.
  destruct (bitmap_fill_correct [0; 0] 70) as (bm' & H & _);
    [repeat constructor; lia | unfold capacity; simpl; lia | lia |].
  exists bm'. split; [exact H |]. vm_compute in H. congruence.
Defined.
