(* ===== verification/CString.v ===== *)
(** * lib/string.c: memory and string routines

    Memory is a map from addresses to bytes; an address it does not hold may
    not be touched.  [char] is unsigned on this target, so a byte is a number
    in [0, 256).  A loop that runs to a terminator is given [S (size m)] turns:
    each turn touches a new address, so a run that needs more has left the
    memory. *)

From S2P Require Import Prelude.

Abbreviation mem := (gmap Z Z).

Definition ld (m : mem) (a : Z) : res Z :=
  match m !! a with Some c => Ret c | None => Halt Fault end.

Definition sto (m : mem) (a v : Z) : res mem :=
  match m !! a with Some _ => Ret (<[a := u8 v]> m) | None => Halt Fault end.

(** ** Blocks of memory *)

Fixpoint copy_up (m : mem) (d s i : Z) (n : nat) : res mem :=
  match n with
  | O => Ret m
  | S n' =>
      let! c := ld m (s + i) in
      let! m := sto m (d + i) c in
      copy_up m d s (i + 1) n'
  end.

Fixpoint copy_down (m : mem) (d s : Z) (i : nat) : res mem :=
  match i with
  | O => Ret m
  | S i' =>
      let! c := ld m (s + Z.of_nat i') in
      let! m := sto m (d + Z.of_nat i') c in
      copy_down m d s i'
  end.

Definition memcpy (m : mem) (dst src n : Z) : res (mem * Z) :=
  let! m := copy_up m dst src 0 (Z.to_nat n) in Ret (m, dst).

Definition memmove (m : mem) (dst src n : Z) : res (mem * Z) :=
  if dst <? src then
    let! m := copy_up m dst src 0 (Z.to_nat n) in Ret (m, dst)
  else if src <? dst then
    let! m := copy_down m dst src (Z.to_nat n) in Ret (m, dst)
  else Ret (m, dst).

Fixpoint fill (m : mem) (p uc i : Z) (n : nat) : res mem :=
  match n with
  | O => Ret m
  | S n' => let! m := sto m (p + i) uc in fill m p uc (i + 1) n'
  end.

Definition memset (m : mem) (s c n : Z) : res (mem * Z) :=
  let! m := fill m s (u8 c) 0 (Z.to_nat n) in Ret (m, s).

Fixpoint memchr_loop (m : mem) (p uc : Z) (n : nat) : res (option Z) :=
  match n with
  | O => Ret None
  | S n' =>
      let! c := ld m p in
      if c =? uc then Ret (Some p) else memchr_loop m (p + 1) uc n'
  end.

Definition memchr (m : mem) (s c n : Z) : res (option Z) := memchr_loop m s (u8 c) (Z.to_nat n).

Fixpoint memrchr_loop (m : mem) (p uc : Z) (i : nat) : res (option Z) :=
  match i with
  | O => Ret None
  | S i' =>
      let! c := ld m (p + Z.of_nat i') in
      if c =? uc then Ret (Some (p + Z.of_nat i')) else memrchr_loop m p uc i'
  end.

Definition memrchr (m : mem) (s c n : Z) : res (option Z) := memrchr_loop m s (u8 c) (Z.to_nat n).

Fixpoint memcmp_loop (m : mem) (p1 p2 : Z) (n : nat) : res Z :=
  match n with
  | O => Ret 0
  | S n' =>
      let! a := ld m p1 in
      let! b := ld m p2 in
      if negb (a =? b) then Ret (if b <? a then 1 else -1)
      else memcmp_loop m (p1 + 1) (p2 + 1) n'
  end.

Definition memcmp (m : mem) (s1 s2 n : Z) : res Z := memcmp_loop m s1 s2 (Z.to_nat n).

Fixpoint memswap_loop (m : mem) (p1 p2 : Z) (n : nat) : res mem :=
  match n with
  | O => Ret m
  | S n' =>
      let! t := ld m p1 in
      let! b := ld m p2 in
      let! m := sto m p1 b in
      let! m := sto m p2 t in
      memswap_loop m (p1 + 1) (p2 + 1) n'
  end.

Definition memswap (m : mem) (s1 s2 size : Z) : res mem := memswap_loop m s1 s2 (Z.to_nat size).

(** ** Strings *)

Definition turns (m : mem) : nat := S (size m).

Fixpoint strlen_loop (m : mem) (s p : Z) (fuel : nat) : res Z :=
  match fuel with
  | O => Halt Fuel
  | S f =>
      let! c := ld m p in
      if negb (c =? 0) then strlen_loop m s (p + 1) f else Ret (p - s)
  end.

Definition strlen (m : mem) (s : Z) : res Z := strlen_loop m s s (turns m).

Fixpoint strnlen_loop (m : mem) (s p : Z) (n : nat) : res Z :=
  match n with
  | O => Ret (p - s)
  | S n' =>
      let! c := ld m p in
      if negb (c =? 0) then strnlen_loop m s (p + 1) n' else Ret (p - s)
  end.

Definition strnlen (m : mem) (s n : Z) : res Z := strnlen_loop m s s (Z.to_nat n).

Fixpoint strcmp_loop (m : mem) (s1 s2 : Z) (fuel : nat) : res Z :=
  match fuel with
  | O => Halt Fuel
  | S f =>
      let! a := ld m s1 in
      let! b := ld m s2 in
      if negb (a =? 0) && (a =? b) then strcmp_loop m (s1 + 1) (s2 + 1) f
      else Ret (a - b)
  end.

Definition strcmp (m : mem) (s1 s2 : Z) : res Z := strcmp_loop m s1 s2 (turns m).

(** [while (n-- > 0 && *s1 && ( *s1 == *s2 ))]; the second operand is read
    only when the first is a character. *)
Fixpoint strncmp_loop (m : mem) (s1 s2 n : Z) (fuel : nat) : res (Z * Z * Z) :=
  match fuel with
  | O => Halt Fuel
  | S f =>
      let n' := u64 (n - 1) in
      if 0 <? n then
        let! a := ld m s1 in
        if negb (a =? 0) then
          let! b := ld m s2 in
          if a =? b then strncmp_loop m (s1 + 1) (s2 + 1) n' f else Ret (s1, s2, n')
        else Ret (s1, s2, n')
      else Ret (s1, s2, n')
  end.

Definition strncmp (m : mem) (s1 s2 n : Z) : res Z :=
  if n =? 0 then Ret 0
  else
    let! (s1, s2, n) := strncmp_loop m s1 s2 n (S (Z.to_nat n)) in
    if n =? UINT64_MAX then Ret 0
    else
      let! a := ld m s1 in
      let! b := ld m s2 in
      Ret (a - b).

Fixpoint strcpy_loop (m : mem) (dst src : Z) (fuel : nat) : res mem :=
  match fuel with
  | O => Halt Fuel
  | S f =>
      let! c := ld m src in
      let! m := sto m dst c in
      if negb (c =? 0) then strcpy_loop m (dst + 1) (src + 1) f else Ret m
  end.

Definition strcpy (m : mem) (dst src : Z) : res (mem * Z) :=
  let! m := strcpy_loop m dst src (turns m) in Ret (m, dst).

Fixpoint strncpy_loop (m : mem) (dst src i : Z) (n : nat) : res (mem * Z) :=
  match n with
  | O => Ret (m, i)
  | S n' =>
      let! c := ld m (src + i) in
      if negb (c =? 0) then
        let! m := sto m (dst + i) c in
        strncpy_loop m dst src (i + 1) n'
      else Ret (m, i)
  end.

Definition strncpy (m : mem) (dst src n : Z) : res (mem * Z) :=
  let! (m, i) := strncpy_loop m dst src 0 (Z.to_nat n) in
  let! m := fill m dst 0 i (Z.to_nat (n - i)) in
  Ret (m, dst).

(** [while (size && *src)]. *)
Fixpoint bounded_copy (m : mem) (dst src : Z) (size : nat) : res (mem * Z * Z) :=
  match size with
  | O => Ret (m, dst, src)
  | S n' =>
      let! c := ld m src in
      if negb (c =? 0) then
        let! m := sto m dst c in
        bounded_copy m (dst + 1) (src + 1) n'
      else Ret (m, dst, src)
  end.

Definition strlcpy (m : mem) (dst src size : Z) : res (mem * Z) :=
  if size =? 0 then
    let! n := strlen m src in Ret (m, u64 (0 + n))
  else
    let! (m, p, src) := bounded_copy m dst src (Z.to_nat (size - 1)) in
    let! m := sto m p 0 in
    let! n := strlen m src in
    Ret (m, u64 (p - dst + n)).

Definition strcat (m : mem) (dst src : Z) : res (mem * Z) :=
  let! n := strlen m dst in
  let! (m, _) := strcpy m (dst + n) src in
  Ret (m, dst).

Definition strncat (m : mem) (dst src n : Z) : res (mem * Z) :=
  let! k := strlen m dst in
  let! (m, p, _) := bounded_copy m (dst + k) src (Z.to_nat n) in
  let! m := sto m p 0 in
  Ret (m, dst).

Definition strlcat (m : mem) (dst src size : Z) : res (mem * Z) :=
  let! len := strnlen m dst size in
  if len =? size then
    let! n := strlen m src in Ret (m, u64 (size + n))
  else
    let! (m, n) := strlcpy m (dst + len) src (size - len) in
    Ret (m, u64 (len + n)).

Fixpoint strchr_loop (m : mem) (s uc : Z) (fuel : nat) : res (option Z) :=
  match fuel with
  | O => Halt Fuel
  | S f =>
      let! c := ld m s in
      if negb (c =? 0) then
        if c =? uc then Ret (Some s) else strchr_loop m (s + 1) uc f
      else if uc =? 0 then Ret (Some s) else Ret None
  end.

Definition strchr (m : mem) (s c : Z) : res (option Z) := strchr_loop m s (u8 c) (turns m).

Fixpoint strrchr_loop (m : mem) (s uc : Z) (last : option Z) (fuel : nat) : res (option Z) :=
  match fuel with
  | O => Halt Fuel
  | S f =>
      let! c := ld m s in
      let last := if c =? uc then Some s else last in
      if negb (c =? 0) then strrchr_loop m (s + 1) uc last f else Ret last
  end.

Definition strrchr (m : mem) (s c : Z) : res (option Z) := strrchr_loop m s (u8 c) None (turns m).

(** [for (; p < end; ++p)], [n] positions left. *)
Fixpoint strstr_loop (m : mem) (p needle needle_len : Z) (n : nat) : res (option Z) :=
  match n with
  | O => Ret None
  | S n' =>
      let! c := memcmp m p needle needle_len in
      if c =? 0 then Ret (Some p) else strstr_loop m (p + 1) needle needle_len n'
  end.

Definition strstr (m : mem) (haystack needle : Z) : res (option Z) :=
  let! c := ld m needle in
  if c =? 0 then Ret (Some haystack)
  else
    let! needle_len := strlen m needle in
    let! haystack_len := strlen m haystack in
    if haystack_len <? needle_len then Ret None
    else strstr_loop m haystack needle needle_len (Z.to_nat (haystack_len - needle_len + 1)).

(** ** Spans *)

(** [for (i = 0; set[i] != 0; ++i) map[(int)set[i]] = true]. *)
Fixpoint char_map (m : mem) (set i : Z) (map : list bool) (fuel : nat) : res (list bool) :=
  match fuel with
  | O => Halt Fuel
  | S f =>
      let! c := ld m (set + i) in
      if negb (c =? 0) then
        let! map := wr map c true in
        char_map m set (i + 1) map f
      else Ret map
  end.

(** [while (map[(int)s[cnt]] == want) ++cnt]. *)
Fixpoint span_loop (m : mem) (s cnt : Z) (map : list bool) (want : bool) (fuel : nat) : res Z :=
  match fuel with
  | O => Halt Fuel
  | S f =>
      let! c := ld m (s + cnt) in
      let! b := rd map c in
      if Bool.eqb b want then span_loop m s (cnt + 1) map want f else Ret cnt
  end.

Definition strspn (m : mem) (s accept : Z) : res Z :=
  let! map := char_map m accept 0 (replicate 256 false) (turns m) in
  span_loop m s 0 map true (turns m).

Definition strcspn (m : mem) (s reject : Z) : res Z :=
  let! map := char_map m reject 0 (replicate 256 false) (turns m) in
  span_loop m s 0 map false (turns m).

(** ** strtok *)

Fixpoint is_delim_loop (m : mem) (c d : Z) (fuel : nat) : res bool :=
  match fuel with
  | O => Halt Fuel
  | S f =>
      let! x := ld m d in
      if negb (x =? 0) then
        if c =? x then Ret true else is_delim_loop m c (d + 1) f
      else Ret false
  end.

(** [while ( *p != 0 )] advancing while [is_delim] is [skip]. *)
Fixpoint token_loop (m : mem) (p delim : Z) (skip : bool) (fuel : nat) : res Z :=
  match fuel with
  | O => Halt Fuel
  | S f =>
      let! c := ld m p in
      if negb (c =? 0) then
        let! is_delim := is_delim_loop m c delim (turns m) in
        if Bool.eqb is_delim skip then token_loop m (p + 1) delim skip f else Ret p
      else Ret p
  end.

(** [saved_ptr] is the routine's static variable. *)
Definition strtok (m : mem) (saved_ptr str : option Z) (delim : Z)
    : res (mem * option Z * option Z) :=
  match (match str with Some p => Some p | None => saved_ptr end) with
  | None => Ret (m, saved_ptr, None)
  | Some start =>
      let! start := token_loop m start delim true (turns m) in
      let! c := ld m start in
      if c =? 0 then Ret (m, None, None)
      else
        let! end_ := token_loop m start delim false (turns m) in
        let! e := ld m end_ in
        if negb (e =? 0) then
          let! m := sto m end_ 0 in
          Ret (m, Some (end_ + 1), Some start)
        else Ret (m, None, Some start)
  end.

(** ** strerror *)

Definition EILSEQ : Z := 84.
Definition EDOM : Z := 33.
Definition ERANGE : Z := 34.
Definition ENOTTY : Z := 25.
Definition EACCES : Z := 13.
Definition EPERM : Z := 1.
Definition ENOENT : Z := 2.
Definition ESRCH : Z := 3.
Definition EEXIST : Z := 17.
Definition EOVERFLOW : Z := 75.
Definition ENOSPC : Z := 28.
Definition ENOMEM : Z := 12.
Definition EBUSY : Z := 16.
Definition EINTR : Z := 4.
Definition EAGAIN : Z := 11.
Definition ESPIPE : Z := 29.
Definition EXDEV : Z := 18.
Definition EROFS : Z := 30.
Definition ENOTEMPTY : Z := 39.
Definition ECONNRESET : Z := 104.
Definition ETIMEDOUT : Z := 110.
Definition ECONNREFUSED : Z := 111.
Definition EHOSTDOWN : Z := 112.
Definition EHOSTUNREACH : Z := 113.
Definition EADDRINUSE : Z := 98.
Definition EPIPE : Z := 32.
Definition EIO : Z := 5.
Definition ENXIO : Z := 6.
Definition ENOTBLK : Z := 15.
Definition ENODEV : Z := 19.
Definition ENOTDIR : Z := 20.
Definition EISDIR : Z := 21.
Definition ETXTBSY : Z := 26.
Definition ENOEXEC : Z := 8.
Definition EINVAL : Z := 22.
Definition E2BIG : Z := 7.
Definition ELOOP : Z := 40.
Definition ENAMETOOLONG : Z := 36.
Definition ENFILE : Z := 23.
Definition EMFILE : Z := 24.
Definition EBADF : Z := 9.
Definition ECHILD : Z := 10.
Definition EFAULT : Z := 14.
Definition EFBIG : Z := 27.
Definition EMLINK : Z := 31.
Definition ENOLCK : Z := 37.
Definition EDEADLK : Z := 35.
Definition ENOTRECOVERABLE : Z := 131.
Definition EOWNERDEAD : Z := 130.
Definition ECANCELED : Z := 125.
Definition ENOSYS : Z := 38.
Definition ENOMSG : Z := 42.
Definition EIDRM : Z := 43.
Definition ENOSTR : Z := 60.
Definition ENODATA : Z := 61.
Definition ETIME : Z := 62.
Definition ENOSR : Z := 63.
Definition ENOLINK : Z := 67.
Definition EPROTO : Z := 71.
Definition EBADMSG : Z := 74.
Definition EBADFD : Z := 77.
Definition ENOTSOCK : Z := 88.
Definition EDESTADDRREQ : Z := 89.
Definition EMSGSIZE : Z := 90.
Definition EPROTOTYPE : Z := 91.
Definition ENOPROTOOPT : Z := 92.
Definition EPROTONOSUPPORT : Z := 93.
Definition ESOCKTNOSUPPORT : Z := 94.
Definition EOPNOTSUPP : Z := 95.
Definition EPFNOSUPPORT : Z := 96.
Definition EAFNOSUPPORT : Z := 97.
Definition EADDRNOTAVAIL : Z := 99.
Definition ENETDOWN : Z := 100.
Definition ENETUNREACH : Z := 101.
Definition ENETRESET : Z := 102.
Definition ECONNABORTED : Z := 103.
Definition ENOBUFS : Z := 105.
Definition EISCONN : Z := 106.
Definition ENOTCONN : Z := 107.
Definition ESHUTDOWN : Z := 108.
Definition EALREADY : Z := 114.
Definition EINPROGRESS : Z := 115.
Definition ESTALE : Z := 116.
Definition EUCLEAN : Z := 117.
Definition ENAVAIL : Z := 119.
Definition EREMOTEIO : Z := 121.
Definition EDQUOT : Z := 122.
Definition ENOMEDIUM : Z := 123.
Definition EMEDIUMTYPE : Z := 124.
Definition EMULTIHOP : Z := 72.
Definition ENOKEY : Z := 126.
Definition EKEYEXPIRED : Z := 127.
Definition EKEYREVOKED : Z := 128.
Definition EKEYREJECTED : Z := 129.

Definition strerror_table : list (Z * string) :=
  [(0, "Success"%string);
   (EILSEQ, "Illegal byte sequence"%string);
   (EDOM, "Domain error"%string);
   (ERANGE, "Result not representable"%string);
   (ENOTTY, "Not a tty"%string);
   (EACCES, "Permission denied"%string);
   (EPERM, "Operation not permitted"%string);
   (ENOENT, "No such file or directory"%string);
   (ESRCH, "No such process"%string);
   (EEXIST, "File exists"%string);
   (EOVERFLOW, "Value too large for data type"%string);
   (ENOSPC, "No space left on device"%string);
   (ENOMEM, "Out of memory"%string);
   (EBUSY, "Resource busy"%string);
   (EINTR, "Interrupted system call"%string);
   (EAGAIN, "Resource temporarily unavailable"%string);
   (ESPIPE, "Invalid seek"%string);
   (EXDEV, "Cross-device link"%string);
   (EROFS, "Read-only file system"%string);
   (ENOTEMPTY, "Directory not empty"%string);
   (ECONNRESET, "Connection reset by peer"%string);
   (ETIMEDOUT, "Operation timed out"%string);
   (ECONNREFUSED, "Connection refused"%string);
   (EHOSTDOWN, "Host is down"%string);
   (EHOSTUNREACH, "Host is unreachable"%string);
   (EADDRINUSE, "Address in use"%string);
   (EPIPE, "Broken pipe"%string);
   (EIO, "I/O error"%string);
   (ENXIO, "No such device or address"%string);
   (ENOTBLK, "Block device required"%string);
   (ENODEV, "No such device"%string);
   (ENOTDIR, "Not a directory"%string);
   (EISDIR, "Is a directory"%string);
   (ETXTBSY, "Text file busy"%string);
   (ENOEXEC, "Exec format error"%string);
   (EINVAL, "Invalid argument"%string);
   (E2BIG, "Argument list too long"%string);
   (ELOOP, "Symbolic link loop"%string);
   (ENAMETOOLONG, "Filename too long"%string);
   (ENFILE, "Too many open files in system"%string);
   (EMFILE, "No file descriptors available"%string);
   (EBADF, "Bad file descriptor"%string);
   (ECHILD, "No child process"%string);
   (EFAULT, "Bad address"%string);
   (EFBIG, "File too large"%string);
   (EMLINK, "Too many links"%string);
   (ENOLCK, "No locks available"%string);
   (EDEADLK, "Resource deadlock would occur"%string);
   (ENOTRECOVERABLE, "State not recoverable"%string);
   (EOWNERDEAD, "Previous owner died"%string);
   (ECANCELED, "Operation canceled"%string);
   (ENOSYS, "Function not implemented"%string);
   (ENOMSG, "No message of desired type"%string);
   (EIDRM, "Identifier removed"%string);
   (ENOSTR, "Device not a stream"%string);
   (ENODATA, "No data available"%string);
   (ETIME, "Device timeout"%string);
   (ENOSR, "Out of streams resources"%string);
   (ENOLINK, "Link has been severed"%string);
   (EPROTO, "Protocol error"%string);
   (EBADMSG, "Bad message"%string);
   (EBADFD, "File descriptor in bad state"%string);
   (ENOTSOCK, "Not a socket"%string);
   (EDESTADDRREQ, "Destination address required"%string);
   (EMSGSIZE, "Message too large"%string);
   (EPROTOTYPE, "Protocol wrong type for socket"%string);
   (ENOPROTOOPT, "Protocol not available"%string);
   (EPROTONOSUPPORT, "Protocol not supported"%string);
   (ESOCKTNOSUPPORT, "Socket type not supported"%string);
   (EOPNOTSUPP, "Operation not supported on transport endpoint"%string);
   (EPFNOSUPPORT, "Protocol family not supported"%string);
   (EAFNOSUPPORT, "Address family not supported by protocol"%string);
   (EADDRNOTAVAIL, "Address not available"%string);
   (ENETDOWN, "Network is down"%string);
   (ENETUNREACH, "Network unreachable"%string);
   (ENETRESET, "Connection reset by network"%string);
   (ECONNABORTED, "Connection aborted"%string);
   (ENOBUFS, "No buffer space available"%string);
   (EISCONN, "Socket is connected"%string);
   (ENOTCONN, "Socket not connected"%string);
   (ESHUTDOWN, "Cannot send after socket shutdown"%string);
   (EALREADY, "Operation already in progress"%string);
   (EINPROGRESS, "Operation in progress"%string);
   (ESTALE, "Stale file handle"%string);
   (EUCLEAN, "Data consistency error"%string);
   (ENAVAIL, "Resource not available"%string);
   (EREMOTEIO, "Remote I/O error"%string);
   (EDQUOT, "Quota exceeded"%string);
   (ENOMEDIUM, "No medium found"%string);
   (EMEDIUMTYPE, "Wrong medium type"%string);
   (EMULTIHOP, "Multihop attempted"%string);
   (ENOKEY, "Required key not available"%string);
   (EKEYEXPIRED, "Key has expired"%string);
   (EKEYREVOKED, "Key has been revoked"%string);
   (EKEYREJECTED, "Key was rejected by service"%string)].

Fixpoint switch (l : list (Z * string)) (n : Z) (dflt : string) : string :=
  match l with
  | [] => dflt
  | (k, s) :: l' => if n =? k then s else switch l' n dflt
  end.

(** [-INT_MIN] is not an [int]; the two's complement result stands for it. *)
Definition strerror (errnum : Z) : string :=
  let errnum := if errnum <? 0 then s32 (- errnum) else errnum in
  switch strerror_table errnum "Unknown error"%string.

(** ** Memory contents *)

Fixpoint bytes_at (m : mem) (a : Z) (l : list Z) : Prop :=
  match l with
  | [] => True
  | c :: l' => m !! a = Some c /\ 0 <= c < 256 /\ bytes_at m (a + 1) l'
  end.

(** The NUL-terminated string [l] at [a]. *)
Fixpoint str_at (m : mem) (a : Z) (l : list Z) : Prop :=
  match l with
  | [] => m !! a = Some 0
  | c :: l' => m !! a = Some c /\ 0 < c < 256 /\ str_at m (a + 1) l'
  end.

Abbreviation len l := (Z.of_nat (length l)).

(** [l] written at [d]. *)
Fixpoint put (m : mem) (d : Z) (l : list Z) : mem :=
  match l with
  | [] => m
  | c :: l' => put (<[d := c]> m) (d + 1) l'
  end.

Definition mapped (m : mem) (a n : Z) : Prop := forall x, a <= x < a + n -> is_Some (m !! x).

Lemma put_lookup l : forall m d a,
  put m d l !! a = if decide (d <= a < d + len l) then l !! Z.to_nat (a - d) else m !! a.
Proof.
  induction l as [| c l IH]; intros m d a; simpl.
  { case_decide; [lia | done]. }
  rewrite IH. destruct (decide (a = d)) as [-> | Hne].
  - rewrite decide_False, decide_True by lia. by rewrite lookup_insert_eq, Z.sub_diag.
  - rewrite lookup_insert_ne by congruence. repeat case_decide; try lia; [| done].
    by replace (Z.to_nat (a - d)) with (S (Z.to_nat (a - (d + 1)))) by lia.
Qed.

Lemma bytes_at_lookup l : forall m a,
  bytes_at m a l <->
  forall i c, l !! i = Some c -> m !! (a + Z.of_nat i) = Some c /\ 0 <= c < 256.
Proof.
  induction l as [| c l IH]; intros m a; simpl; [split; [by intros _ [] | done] |].
  rewrite IH. split.
  - intros (H1 & H2 & H3) [| i] x Hx; simpl in Hx; [simplify_eq; by rewrite Z.add_0_r |].
    replace (a + Z.of_nat (S i)) with (a + 1 + Z.of_nat i) by lia. by apply H3.
  - intros H. pose proof (H 0%nat c eq_refl) as [H0 Hc]. rewrite Z.add_0_r in H0.
    split_and!; try lia; [done |]. intros i x Hx. destruct (H (S i) x Hx) as [Hl ?].
    split; [| done]. rewrite <- Hl. f_equal. lia.
Qed.

Lemma str_bytes l : forall m a, str_at m a l <-> bytes_at m a (l ++ [0]) /\ Forall (fun c => 0 < c) l.
Proof.
  induction l as [| c l IH]; intros m a; simpl; [split; [intros; split_and!; try done; lia | tauto] |].
  rewrite IH, list.Forall_cons. intuition lia.
Qed.

(** Memory that agrees on the range agrees on the contents. *)
Lemma bytes_at_ext m m' a l :
  (forall x, a <= x < a + len l -> m' !! x = m !! x) -> bytes_at m a l -> bytes_at m' a l.
Proof.
  rewrite !bytes_at_lookup. intros Hm H i c Hi. apply lookup_lt_Some in Hi as Hl.
  destruct (H i c Hi). rewrite Hm by lia. done.
Qed.

Lemma str_at_ext m m' a l :
  (forall x, a <= x <= a + len l -> m' !! x = m !! x) -> str_at m a l -> str_at m' a l.
Proof.
  rewrite !str_bytes. intros Hm [H1 H2]. split; [| done].
  apply (bytes_at_ext m); [| done]. intros x. rewrite length_app. simpl. intros. apply Hm. lia.
Qed.

Lemma put_bytes m d l : Forall (fun c => 0 <= c < 256) l -> bytes_at (put m d l) d l.
Proof.
  intros Hl. apply bytes_at_lookup. intros i c Hi. apply lookup_lt_Some in Hi as Hlt.
  rewrite put_lookup, decide_True by lia.
  replace (Z.to_nat (d + Z.of_nat i - d)) with i by lia. split; [done |].
  by eapply Forall_lookup_1 in Hi; [| exact Hl].
Qed.

Lemma bytes_at_range m a l : bytes_at m a l -> Forall (fun c => 0 <= c < 256) l.
Proof. revert a. induction l; simpl; intros a0 H; constructor; [lia |]. by eapply IHl, H. Qed.

Lemma mapped_insert m a n x v : mapped m a n -> mapped (<[x := v]> m) a n.
Proof. intros Hm y Hy. rewrite lookup_insert. case_decide; [eauto | by apply Hm]. Qed.

(** The turns given to a scan are enough for any string in memory. *)
Lemma bytes_at_turns m a l : bytes_at m a l -> (length l < turns m)%nat.
Proof.
  intros H. unfold turns.
  assert (Hsub : list_to_set (C := gset Z) (seqZ a (len l)) ⊆ dom m).
  { intros x Hx. apply elem_of_list_to_set, elem_of_seqZ in Hx. apply elem_of_dom.
    destruct (lookup_lt_is_Some_2 l (Z.to_nat (x - a))) as [c Hc]; [lia |].
    rewrite bytes_at_lookup in H. destruct (H _ c Hc) as [Hx' _].
    replace (a + Z.of_nat (Z.to_nat (x - a))) with x in Hx' by lia. eauto. }
  apply subseteq_size in Hsub. rewrite size_list_to_set in Hsub by apply NoDup_seqZ.
  rewrite length_seqZ, size_dom in Hsub. lia.
Qed.

Lemma str_at_turns m a l : str_at m a l -> (length l + 1 < turns m)%nat.
Proof. intros [H _]%str_bytes. apply bytes_at_turns in H. by rewrite length_app in H. Qed.

(** ** Blocks *)

Lemma sto_mapped m a v : is_Some (m !! a) -> 0 <= v < 256 -> sto m a v = Ret (<[a := v]> m).
Proof.
  intros [x Hx] Hv. unfold sto. rewrite Hx. rewrite wrap_small by (pow2; lia). done.
Qed.

Lemma copy_up_spec l : forall m d s i,
  d < s \/ (forall x, s + i <= x < s + i + len l -> ~ (d + i <= x < d + i + len l)) ->
  bytes_at m (s + i) l -> mapped m (d + i) (len l) ->
  copy_up m d s i (length l) = Ret (put m (d + i) l).
Proof.
  induction l as [| c l IH]; intros m d s i Hds Hb Hm; [done |].
  cbn [length copy_up put]. destruct Hb as (Hc & Hr & Hb). unfold ld. rewrite Hc.
  rewrite sto_mapped by (try lia; apply Hm; simpl; lia).
  rewrite IH; [by rewrite Z.add_assoc | | |].
  - destruct Hds as [? | Hds]; [by left |]. right. intros x Hx Hx'.
    apply (Hds x); simpl; lia.
  - rewrite Z.add_assoc. eapply bytes_at_ext; [| exact Hb]. intros x Hx.
    rewrite lookup_insert_ne; [done |]. intros <-.
    destruct Hds as [? | Hds]; [lia |]. apply (Hds (d + i)); simpl; lia.
  - apply mapped_insert. intros x Hx. apply Hm. simpl. lia.
Qed.

Lemma put_snoc m d l c : put m d (l ++ [c]) = put (<[d + len l := c]> m) d l.
Proof.
  apply map_eq. intros a. rewrite !put_lookup, length_app. simpl.
  destruct (decide (a = d + len l)) as [-> | Hne].
  - rewrite decide_True, decide_False by lia. rewrite lookup_insert_eq.
    rewrite lookup_app_r by lia. replace (Z.to_nat _ - _)%nat with 0%nat by lia. done.
  - rewrite lookup_insert_ne by congruence. repeat case_decide; try lia; [| done].
    apply lookup_app_l. lia.
Qed.

Lemma copy_down_spec l : forall m d s,
  s < d -> bytes_at m s l -> mapped m d (len l) -> copy_down m d s (length l) = Ret (put m d l).
Proof.
  induction l as [| c l IH] using rev_ind; intros m d s Hds Hb Hm; [done |].
  rewrite length_app, Nat.add_1_r. cbn [copy_down]. rewrite length_app in Hm. simpl in Hm.
  pose proof Hb as Hb'. rewrite bytes_at_lookup in Hb'.
  destruct (Hb' (length l) c) as [Hc Hr]; [rewrite lookup_app_r, Nat.sub_diag by lia; done |].
  unfold ld. rewrite Hc. rewrite sto_mapped by (try lia; apply Hm; lia).
  rewrite put_snoc. apply IH; [done | |].
  - apply (bytes_at_ext m).
    + intros x Hx. apply lookup_insert_ne. lia.
    + apply bytes_at_lookup. intros i y Hi. apply Hb'. by apply lookup_app_l_Some.
  - apply mapped_insert. intros x Hx. apply Hm. lia.
Qed.

Lemma fill_spec uc (n : nat) : forall m p i,
  0 <= uc < 256 -> mapped m (p + i) (Z.of_nat n) ->
  fill m p uc i n = Ret (put m (p + i) (replicate n uc)).
Proof.
  induction n as [| n IH]; intros m p i Hu Hm; [done |].
  cbn [fill replicate put]. rewrite sto_mapped by (try lia; apply Hm; lia).
  rewrite IH; [by rewrite Z.add_assoc | done |]. apply mapped_insert.
  intros x Hx. apply Hm. lia.
Qed.

Lemma memcmp_spec l1 : forall m p1 p2 l2,
  length l1 = length l2 -> bytes_at m p1 l1 -> bytes_at m p2 l2 ->
  exists v, memcmp_loop m p1 p2 (length l1) = Ret v /\ (v = 0 <-> l1 = l2).
Proof.
  induction l1 as [| a l1 IH]; intros m p1 p2 [| b l2] Hlen H1 H2; simplify_eq/=; [by exists 0 |].
  destruct H1 as (Ha & _ & H1), H2 as (Hb & _ & H2). unfold ld. rewrite Ha, Hb.
  destruct (Z.eqb_spec a b) as [-> | Hne]; simpl.
  - destruct (IH m (p1 + 1) (p2 + 1) l2) as (v & -> & Hv); try done. exists v. split; [done |].
    rewrite Hv. split; congruence.
  - eexists. split; [reflexivity |]. destruct (b <? a); split; try lia; congruence.
Qed.

(** ** Scans *)

Lemma strlen_loop_spec l : forall m s p f,
  str_at m p l -> (length l < f)%nat -> strlen_loop m s p f = Ret (p - s + len l).
Proof.
  induction l as [| c l IH]; intros m s p [| f] Hs Hf; try (simpl in Hf; lia);
    cbn [strlen_loop]; unfold ld.
  - simpl in Hs. rewrite Hs. simpl. f_equal. lia.
  - destruct Hs as (Hc & Hr & Hs). rewrite Hc. destruct (Z.eqb_spec c 0); [lia |]. cbn [negb].
    rewrite IH; [f_equal; simpl; lia | done | simpl in Hf; lia].
Qed.

Lemma strlen_spec m s l : str_at m s l -> strlen m s = Ret (len l).
Proof.
  intros Hs. pose proof (str_at_turns _ _ _ Hs). unfold strlen.
  rewrite (strlen_loop_spec l) by (done || lia). f_equal. lia.
Qed.

(** [l1] comes before [l2]: they first differ where [l1] ends or is smaller. *)
Fixpoint lex_lt (l1 l2 : list Z) : Prop :=
  match l1, l2 with
  | _, [] => False
  | [], _ :: _ => True
  | a :: l1', b :: l2' => a < b \/ (a = b /\ lex_lt l1' l2')
  end.

(** A three-way comparison of two strings. *)
Definition compares (v : Z) (l1 l2 : list Z) : Prop :=
  (v = 0 <-> l1 = l2) /\ (v < 0 <-> lex_lt l1 l2).

Lemma compares_cons v a l1 l2 : compares v l1 l2 -> compares v (a :: l1) (a :: l2).
Proof.
  intros [H1 H2]. split.
  - rewrite H1. split; congruence.
  - rewrite H2. simpl. intuition lia.
Qed.

Lemma compares_ne a b l1 l2 : a <> b -> compares (a - b) (a :: l1) (b :: l2).
Proof. intros. split; simpl; [split; [lia | congruence] | intuition lia]. Qed.

Lemma strcmp_loop_spec l1 : forall m s1 s2 l2 f,
  str_at m s1 l1 -> str_at m s2 l2 -> (length l1 < f)%nat ->
  exists v, strcmp_loop m s1 s2 f = Ret v /\ compares v l1 l2.
Proof.
  induction l1 as [| a l1 IH]; intros m s1 s2 l2 [| f] H1 H2 Hf; try (simpl in Hf; lia);
    cbn [strcmp_loop]; unfold ld.
  - simpl in H1. rewrite H1. destruct l2 as [| b l2].
    + simpl in H2. rewrite H2. exists 0. split; [done |]. split; [done | simpl; lia].
    + destruct H2 as (Hb & Hr & _). rewrite Hb. exists (0 - b). split; [done |].
      split; [split; [lia | done] | simpl; intuition lia].
  - destruct H1 as (Ha & Har & H1). rewrite Ha. destruct l2 as [| b l2].
    + simpl in H2. rewrite H2. destruct (Z.eqb_spec a 0); [lia |]. cbn [negb andb].
      exists (a - 0). split; [done |]. split; [split; [lia | done] | simpl; lia].
    + destruct H2 as (Hb & Hbr & H2). rewrite Hb. destruct (Z.eqb_spec a 0); [lia |]. cbn [negb andb].
      destruct (Z.eqb_spec a b) as [-> | Hne].
      * destruct (IH m (s1 + 1) (s2 + 1) l2 f) as (v & -> & Hv); try done; [simpl in Hf; lia |].
        exists v. split; [done |]. by apply compares_cons.
      * eexists. split; [reflexivity |]. by apply compares_ne.
Qed.

Lemma u64_dec n : 0 < n < 2 ^ 64 -> u64 (n - 1) = n - 1.
Proof. intros. apply u64_small. lia. Qed.

(** The loop stops with the counter at [UINT64_MAX] only when the first [n]
    characters agree. *)
Lemma strncmp_loop_spec m (k : nat) : forall s1 s2 l1 l2 n f,
  n = Z.of_nat k -> (k < f)%nat -> n < 2 ^ 64 - 1 -> str_at m s1 l1 -> str_at m s2 l2 ->
  exists t1 t2 n', strncmp_loop m s1 s2 n f = Ret (t1, t2, n') /\
    exists v, compares v (take k l1) (take k l2) /\
      ((n' = UINT64_MAX /\ v = 0) \/
       (n' <> UINT64_MAX /\ exists a b, m !! t1 = Some a /\ m !! t2 = Some b /\ v = a - b)).
Proof.
  induction k as [| k IH]; intros s1 s2 l1 l2 n [| f] -> Hf Hn H1 H2; try lia.
  { exists s1, s2, UINT64_MAX. split; [done |]. exists 0. split; [| by left].
    rewrite !take_0. split; [done | simpl; lia]. }
  cbn [strncmp_loop]. destruct (Z.ltb_spec 0 (Z.of_nat (S k))); [| lia].
  rewrite u64_dec by lia. replace (Z.of_nat (S k) - 1) with (Z.of_nat k) by lia.
  assert (Hne : Z.of_nat k <> UINT64_MAX) by (unfold UINT64_MAX; lia).
  unfold ld at 1. destruct l1 as [| a l1].
  - simpl in H1. rewrite H1. cbn [Z.eqb negb]. do 3 eexists. split; [reflexivity |].
    destruct l2 as [| b l2].
    + simpl in H2. exists 0. split; [split; [done | simpl; lia] |]. right. split; [done |].
      exists 0, 0. done.
    + destruct H2 as (Hb & Hbr & _). exists (0 - b).
      split; [split; [split; [lia | done] | simpl; intuition lia] |].
      right. split; [done |]. by exists 0, b.
  - destruct H1 as (Ha & Har & H1). rewrite Ha. destruct (Z.eqb_spec a 0); [lia |]. cbn [negb].
    unfold ld at 1. destruct l2 as [| b l2].
    + simpl in H2. rewrite H2. destruct (Z.eqb_spec a 0); [lia |]. do 3 eexists. split; [reflexivity |].
      exists (a - 0). split; [split; [split; [lia | done] | simpl; lia] |].
      right. split; [done |]. by exists a, 0.
    + destruct H2 as (Hb & Hbr & H2). rewrite Hb. destruct (Z.eqb_spec a b) as [-> | Hab].
      * destruct (IH (s1 + 1) (s2 + 1) l1 l2 (Z.of_nat k) f) as (t1 & t2 & n' & -> & v & Hv & Hr);
          try done; [lia | lia |].
        do 3 eexists. split; [reflexivity |]. exists v. split; [by apply compares_cons | done].
      * do 3 eexists. split; [reflexivity |]. exists (a - b). split; [by apply compares_ne |].
        right. split; [done |]. by exists a, b.
Qed.

Lemma bounded_copy_spec (k : nat) : forall m d s l,
  str_at m s l -> mapped m d (Z.of_nat k) ->
  (forall x, s <= x <= s + len l -> ~ (d <= x < d + Z.of_nat k)) ->
  let t := take k l in
  bounded_copy m d s k = Ret (put m d t, d + len t, s + len t) /\
  str_at (put m d t) (s + len t) (drop k l).
Proof.
  induction k as [| k IH]; intros m d s l Hs Hm Hd; cbv zeta.
  { rewrite take_0, drop_0. simpl. by rewrite !Z.add_0_r. }
  cbn [bounded_copy]. unfold ld. destruct l as [| c l].
  { cbn [take drop put length str_at] in *. rewrite Hs. by rewrite !Z.add_0_r. }
  destruct Hs as (Hc & Hr & Hs). rewrite Hc. destruct (Z.eqb_spec c 0); [lia |]. cbn [negb].
  rewrite sto_mapped by (try lia; apply Hm; lia).
  destruct (IH (<[d := c]> m) (d + 1) (s + 1) l) as [IH1 IH2].
  - eapply str_at_ext; [| exact Hs]. intros x Hx. apply lookup_insert_ne. intros <-.
    apply (Hd d); simpl; lia.
  - apply mapped_insert. intros x Hx. apply Hm. lia.
  - intros x Hx Hx'. apply (Hd x); simpl; lia.
  - cbn [take drop put length]. rewrite IH1. split; [do 2 f_equal; [f_equal |]; lia |].
    by replace (s + Z.of_nat (S (length (take k l)))) with (s + 1 + len (take k l)) by lia.
Qed.

Lemma str_at_put m d l m' :
  Forall (fun c => 0 < c < 256) l -> (forall x, d <= x < d + len l -> m' !! x = put m d l !! x) ->
  m' !! (d + len l) = Some 0 -> str_at m' d l.
Proof.
  intros Hl Hm H0. apply str_bytes. split; [| eapply Forall_impl; [| exact Hl]; simpl; lia].
  apply bytes_at_lookup. intros i c Hi. apply lookup_app_Some in Hi as [Hi | [Hge Hi]].
  - apply lookup_lt_Some in Hi as Hlt. rewrite Hm, put_lookup, decide_True by lia.
    replace (Z.to_nat (d + Z.of_nat i - d)) with i by lia. split; [done |].
    eapply Forall_lookup_1 in Hi; [| exact Hl]. simpl in Hi. lia.
  - apply list_lookup_singleton_Some in Hi as [Hi <-].
    replace i with (length l) by lia. split; [done | lia].
Qed.

Lemma str_at_chars m a l : str_at m a l -> Forall (fun c => 0 < c < 256) l.
Proof. revert a. induction l; simpl; intros a0 H; constructor; [lia |]. by eapply IHl, H. Qed.

(** ** Searching *)

Definition occurs_at (needle hay : list Z) (k : nat) : Prop :=
  take (length needle) (drop k hay) = needle.

Lemma str_at_drop m a l (k : nat) : (k <= length l)%nat -> str_at m a l ->
  str_at m (a + Z.of_nat k) (drop k l).
Proof.
  revert a l. induction k as [| k IH]; intros a l Hk Hs.
  - by rewrite drop_0, Z.add_0_r.
  - destruct l as [| c l]; [simpl in Hk; lia |]. destruct Hs as (_ & _ & Hs). cbn [drop].
    replace (a + Z.of_nat (S k)) with (a + 1 + Z.of_nat k) by lia. apply IH; [simpl in Hk; lia | done].
Qed.

Lemma str_at_take m a l (k : nat) : str_at m a l -> bytes_at m a (take k l).
Proof.
  revert a l. induction k as [| k IH]; intros a [| c l] Hs; [done | done | done |].
  destruct Hs as (H1 & H2 & Hs). cbn [take bytes_at]. split_and!; [done | lia | lia |]. by apply IH.
Qed.

Lemma strstr_loop_spec m needle nl (n : nat) : forall p h,
  str_at m needle nl -> str_at m p h -> length h = (n + length nl - 1)%nat -> (1 <= length nl)%nat ->
  exists r, strstr_loop m p needle (len nl) n = Ret r /\
    match r with
    | Some q => exists k : nat, q = p + Z.of_nat k /\ occurs_at nl h k /\
        forall j, (j < k)%nat -> ~ occurs_at nl h j
    | None => forall j, (j < n)%nat -> ~ occurs_at nl h j
    end.
Proof.
  induction n as [| n IH]; intros p h Hnl Hh Hlen Hne; cbn [strstr_loop].
  { exists None. split; [done | intros; lia]. }
  unfold memcmp. rewrite Nat2Z.id.
  destruct (memcmp_spec (take (length nl) h) m p needle nl) as (v & Hv & Hv0).
  { rewrite length_take. lia. }
  { by apply str_at_take. }
  { apply (str_at_take _ _ _ (length nl)) in Hnl. by rewrite take_ge in Hnl by lia. }
  rewrite length_take, Nat.min_l in Hv by lia. rewrite Hv.
  destruct (Z.eqb_spec v 0) as [E | E].
  { eexists. split; [reflexivity |]. exists 0%nat. split_and!; [lia | | intros; lia].
    unfold occurs_at. rewrite drop_0. by apply Hv0. }
  assert (H0 : ~ occurs_at nl h 0) by (unfold occurs_at; rewrite drop_0; tauto).
  destruct h as [| c h]; [simpl in Hlen; lia |]. destruct Hh as (_ & _ & Hh). simpl in Hlen.
  destruct (IH (p + 1) h) as (r & -> & Hr); try done; [lia |]. exists r. split; [done |].
  destruct r as [q |].
  - destruct Hr as (k & -> & Hk & Hj). exists (S k). split_and!; [lia | done |].
    intros [| j] Hj'; [done |]. apply (Hj j). lia.
  - intros [| j] Hj'; [done |]. apply (Hr j). lia.
Qed.

(** ** Spans and tokens *)

Lemma char_map_spec m l : forall set i map f,
  str_at m (set + i) l -> (length l < f)%nat -> length map = 256%nat ->
  exists map', char_map m set i map f = Ret map' /\ length map' = 256%nat /\
    forall c b, map' !! c = Some b ->
      (b = true <-> Z.of_nat c ∈ l \/ map !! c = Some true).
Proof.
  induction l as [| c l IH]; intros set i map [| f] Hs Hf Hlen; try (simpl in Hf; lia);
    cbn [char_map]; unfold ld.
  - simpl in Hs. rewrite Hs. simpl. exists map. split_and!; [done | done |].
    intros c b Hc. rewrite Hc, elem_of_nil. intuition congruence.
  - destruct Hs as (Hc & Hr & Hs). rewrite Hc. destruct (Z.eqb_spec c 0); [lia |]. cbn [negb].
    rewrite wr_in_range by lia.
    destruct (IH set (i + 1) (<[Z.to_nat c := true]> map) f) as (map' & -> & Hl' & Hm').
    { by rewrite Z.add_assoc. } { simpl in Hf; lia. } { by rewrite length_insert. }
    exists map'. split_and!; [done | done |]. intros x b Hx. rewrite (Hm' x b Hx), elem_of_cons.
    destruct (decide (x = Z.to_nat c)) as [-> | Hne].
    + rewrite list_lookup_insert_eq by lia. rewrite Z2Nat.id by lia. tauto.
    + rewrite list_lookup_insert_ne by congruence. split; [tauto |]. intros [[E | ?] | ?]; [lia | tauto | tauto].
Qed.

Lemma is_delim_spec m c dl : forall d f,
  str_at m d dl -> (length dl < f)%nat -> is_delim_loop m c d f = Ret (bool_decide (c ∈ dl)).
Proof.
  induction dl as [| x dl IH]; intros d [| f] Hs Hf; try (simpl in Hf; lia);
    cbn [is_delim_loop]; unfold ld.
  - simpl in Hs. rewrite Hs. done.
  - destruct Hs as (Hc & Hr & Hs). rewrite Hc. destruct (Z.eqb_spec x 0); [lia |]. cbn [negb].
    destruct (Z.eqb_spec c x) as [-> | Hne].
    + rewrite bool_decide_true; [done | left].
    + rewrite IH by (done || (simpl in Hf; lia)). f_equal. apply bool_decide_ext.
      rewrite elem_of_cons. tauto.
Qed.

Lemma token_loop_spec m dl delim skip t : forall p rest f,
  str_at m delim dl -> str_at m p (t ++ rest) -> (length t < f)%nat ->
  Forall (fun c => bool_decide (c ∈ dl) = skip) t ->
  match rest with c :: _ => bool_decide (c ∈ dl) = negb skip | [] => True end ->
  token_loop m p delim skip f = Ret (p + len t).
Proof.
  induction t as [| c t IH]; intros p rest [| f] Hd Hs Hf Ht Hrest; try (simpl in Hf; lia);
    cbn [token_loop]; unfold ld.
  - change (len []) with 0. rewrite Z.add_0_r. destruct rest as [| c rest]; simpl in Hs.
    + by rewrite Hs.
    + destruct Hs as (Hc & Hr & _). rewrite Hc. destruct (Z.eqb_spec c 0); [lia |]. cbn [negb].
      pose proof (str_at_turns _ _ _ Hd). rewrite (is_delim_spec _ _ dl) by (done || lia).
      rewrite Hrest. by destruct skip.
  - destruct Hs as (Hc & Hr & Hs). rewrite Hc. destruct (Z.eqb_spec c 0); [lia |]. cbn [negb].
    apply list.Forall_cons in Ht as [Hct Ht].
    pose proof (str_at_turns _ _ _ Hd). rewrite (is_delim_spec _ _ dl) by (done || lia).
    rewrite Hct, Bool.eqb_reflx. rewrite (IH _ rest); try done; [f_equal; simpl; lia | simpl in Hf; lia].
Qed.

Lemma str_at_app m a l1 l2 : str_at m a (l1 ++ l2) ->
  bytes_at m a l1 /\ str_at m (a + len l1) l2.
Proof.
  intros Hs. split.
  - apply (str_at_take _ _ _ (length l1)) in Hs. by rewrite take_app_length in Hs.
  - apply (str_at_drop _ _ _ (length l1)) in Hs; [| rewrite length_app; lia].
    by rewrite drop_app_length in Hs.
Qed.

(** ** Properties *)

(** [memmove] copies [n] bytes whatever way the two blocks overlap: the
    destination ends up with the bytes the source had, and no other address
    changes. *)
Theorem memmove_correct m dst src l :
  bytes_at m src l -> mapped m dst (len l) ->
  exists m', memmove m dst src (len l) = Ret (m', dst) /\
    bytes_at m' dst l /\ forall a, ~ (dst <= a < dst + len l) -> m' !! a = m !! a.
Proof.
  intros Hb Hm. unfold memmove. rewrite Nat2Z.id.
  assert (Hput : bytes_at (put m dst l) dst l /\
                 forall a, ~ (dst <= a < dst + len l) -> put m dst l !! a = m !! a).
  { split; [by eapply put_bytes, bytes_at_range |]. intros a Ha. by rewrite put_lookup, decide_False. }
  destruct (Z.ltb_spec dst src); [| destruct (Z.ltb_spec src dst)].
  - rewrite copy_up_spec; rewrite ?Z.add_0_r; [eauto | by left | done | done].
  - rewrite copy_down_spec by done. eauto.
  - replace dst with src in * by lia. eauto.
Qed.

Lemma memmove_witness :
  let m := list_to_map [(0, 1); (1, 2); (2, 3); (3, 4)] : mem in
  exists m', memmove m 1 0 3 = Ret (m', 1) /\ bytes_at m' 1 [1; 2; 3] /\
    forall a, ~ (1 <= a < 1 + 3) -> m' !! a = m !! a.
Proof.
  apply (memmove_correct (list_to_map [(0, 1); (1, 2); (2, 3); (3, 4)]) 1 0 [1; 2; 3]).
  - cbn [bytes_at]. split_and!; done.
  - intros x Hx. cbn in Hx. assert (x = 1 \/ x = 2 \/ x = 3) as [-> | [-> | ->]] by lia; eauto.
Defined.

(** [strcmp] of two strings is zero exactly for equal strings and
    negative exactly when the first comes first in the order of their unsigned
    bytes. *)
Theorem strcmp_correct m s1 s2 l1 l2 :
  str_at m s1 l1 -> str_at m s2 l2 ->
  exists v, strcmp m s1 s2 = Ret v /\ compares v l1 l2.
Proof. intros H1 H2. apply strcmp_loop_spec; try done. apply str_at_turns in H1. lia. Qed.

Lemma strcmp_witness :
  let m := list_to_map [(0, 97); (1, 98); (2, 0); (8, 97); (9, 200); (10, 0)] : mem in
  exists v, strcmp m 0 8 = Ret v /\ compares v [97; 98] [97; 200].
Proof.
  apply (strcmp_correct (list_to_map [(0, 97); (1, 98); (2, 0); (8, 97); (9, 200); (10, 0)])
           0 8 [97; 98] [97; 200]); cbn [str_at]; split_and!; done.
Defined.

(** [strncmp] compares the first [n] characters of two strings the way
    [strcmp] compares whole ones, [n] up to SIZE_MAX - 1. *)
Theorem strncmp_correct m s1 s2 l1 l2 n :
  str_at m s1 l1 -> str_at m s2 l2 -> 0 <= n < 2 ^ 64 - 1 ->
  exists v, strncmp m s1 s2 n = Ret v /\ compares v (take (Z.to_nat n) l1) (take (Z.to_nat n) l2).
Proof.
  intros H1 H2 Hn. unfold strncmp. destruct (Z.eqb_spec n 0) as [-> | Hne].
  { exists 0. split; [done |]. simpl. rewrite !take_0. split; [done | simpl; lia]. }
  destruct (strncmp_loop_spec m (Z.to_nat n) s1 s2 l1 l2 n (S (Z.to_nat n)))
    as (t1 & t2 & n' & -> & v & Hv & Hr); try done; [lia | lia | lia |].
  exists v. split; [| done]. destruct Hr as [[-> ->] | (Hn' & a & b & Ha & Hb & ->)]; [done |].
  destruct (Z.eqb_spec n' UINT64_MAX); [done |]. unfold ld. by rewrite Ha, Hb.
Qed.

Lemma strncmp_witness :
  let m := list_to_map [(0, 97); (1, 98); (2, 0); (8, 97); (9, 200); (10, 0)] : mem in
  exists v, strncmp m 0 8 1 = Ret v /\ compares v [97] [97].
Proof.
  apply (strncmp_correct (list_to_map [(0, 97); (1, 98); (2, 0); (8, 97); (9, 200); (10, 0)])
           0 8 [97; 98] [97; 200] 1); cbn [str_at]; split_and!; done.
Defined.

(** [strlcpy] into a buffer of [size] bytes that the source does not
    overlap leaves a terminated string holding the first [size - 1] characters,
    writes nothing outside that string, and returns the length of the source. *)
Theorem strlcpy_correct m dst src size l :
  str_at m src l -> 0 <= size < 2 ^ 64 -> len l < 2 ^ 64 -> mapped m dst size ->
  (forall x, src <= x <= src + len l -> ~ (dst <= x < dst + size)) ->
  let t := take (Z.to_nat (size - 1)) l in
  exists m', strlcpy m dst src size = Ret (m', len l) /\
    (0 < size -> str_at m' dst t) /\
    (forall a, ~ (dst <= a < dst + size /\ a <= dst + len t) -> m' !! a = m !! a).
Proof.
  intros Hs Hsz Hl Hm Hd t. unfold strlcpy. destruct (Z.eqb_spec size 0) as [-> | Hne].
  { rewrite (strlen_spec _ _ l Hs). rewrite u64_small by lia. exists m. split_and!; [done | lia | done]. }
  destruct (bounded_copy_spec (Z.to_nat (size - 1)) m dst src l Hs) as [H1 H2].
  { intros x Hx. apply Hm. lia. }
  { intros x Hx Hx'. apply (Hd x); lia. }
  fold t in H1, H2. rewrite H1.
  assert (Hlt : len t <= size - 1) by (unfold t; rewrite length_take; lia).
  assert (Hlt' : len t <= len l) by (unfold t; rewrite length_take; lia).
  assert (Hld : len (drop (Z.to_nat (size - 1)) l) = len l - len t)
    by (unfold t; rewrite length_drop, length_take; lia).
  rewrite sto_mapped; [| rewrite put_lookup, decide_False by lia; apply Hm; lia | lia].
  rewrite (strlen_spec _ _ (drop (Z.to_nat (size - 1)) l)).
  2: { eapply str_at_ext; [| exact H2]. intros x Hx. apply lookup_insert_ne. intros <-.
       apply (Hd (dst + len t)); lia. }
  eexists. split; [rewrite Hld, u64_small by lia; do 2 f_equal; lia |]. split.
  - intros _. apply (str_at_put m).
    + apply str_at_chars in Hs. by apply Forall_take.
    + intros x Hx. apply lookup_insert_ne. lia.
    + by rewrite lookup_insert_eq.
  - intros a Ha. rewrite lookup_insert_ne by lia. rewrite put_lookup, decide_False by lia. done.
Qed.

Lemma strlcpy_witness :
  let m := list_to_map [(0, 97); (1, 98); (2, 99); (3, 0); (8, 1); (9, 1); (10, 1)] : mem in
  exists m', strlcpy m 8 0 3 = Ret (m', 3) /\ (0 < 3 -> str_at m' 8 [97; 98]) /\
    forall a, ~ (8 <= a < 8 + 3 /\ a <= 8 + 2) -> m' !! a = m !! a.
Proof.
  apply (strlcpy_correct (list_to_map [(0, 97); (1, 98); (2, 99); (3, 0); (8, 1); (9, 1); (10, 1)])
           8 0 3 [97; 98; 99]).
  - cbn [str_at]. split_and!; done.
  - lia.
  - cbn. lia.
  - intros x Hx. assert (x = 8 \/ x = 9 \/ x = 10) as [-> | [-> | ->]] by lia; eauto.
  - cbn. lia.
Defined.

(** [strstr] returns the first position at which the needle occurs in the
    haystack, the haystack itself for an empty needle, and NULL exactly when
    it occurs nowhere. *)
Theorem strstr_correct m hay needle h nl :
  str_at m hay h -> str_at m needle nl ->
  exists r, strstr m hay needle = Ret r /\
    match r with
    | Some q => exists k : nat, q = hay + Z.of_nat k /\ occurs_at nl h k /\
        forall j, (j < k)%nat -> ~ occurs_at nl h j
    | None => forall j, ~ occurs_at nl h j
    end.
Proof.
  intros Hh Hn. unfold strstr, ld. destruct nl as [| c nl].
  { simpl in Hn. rewrite Hn. simpl. eexists. split; [reflexivity |]. exists 0%nat.
    split_and!; [lia | done | intros; lia]. }
  pose proof Hn as (Hc & Hr & _). rewrite Hc. destruct (Z.eqb_spec c 0); [lia |].
  rewrite (strlen_spec _ _ _ Hn), (strlen_spec _ _ _ Hh).
  assert (Hshort : forall j, (length h < j + length (c :: nl))%nat -> ~ occurs_at (c :: nl) h j).
  { intros j Hj Ho. apply (f_equal length) in Ho. rewrite length_take, length_drop in Ho.
    cbn [length] in Ho, Hj. lia. }
  destruct (Z.ltb_spec (len h) (len (c :: nl))) as [Hlt | Hge].
  { exists None. split; [done |]. intros j. apply Hshort. lia. }
  destruct (strstr_loop_spec m needle (c :: nl) (Z.to_nat (len h - len (c :: nl) + 1)) hay h)
    as (r & -> & Hr'); try done; [simpl in *; lia | simpl; lia |].
  exists r. split; [done |]. destruct r as [q |]; [done |].
  intros j. destruct (decide (j < Z.to_nat (len h - len (c :: nl) + 1))%nat); [by apply Hr' |].
  apply Hshort. lia.
Qed.

Lemma strstr_witness :
  let m := list_to_map [(0, 97); (1, 98); (2, 98); (3, 0); (8, 98); (9, 0)] : mem in
  exists r, strstr m 0 8 = Ret r /\
    match r with
    | Some q => exists k : nat, q = 0 + Z.of_nat k /\ occurs_at [98] [97; 98; 98] k /\
        forall j, (j < k)%nat -> ~ occurs_at [98] [97; 98; 98] j
    | None => forall j, ~ occurs_at [98] [97; 98; 98] j
    end.
Proof.
  apply (strstr_correct (list_to_map [(0, 97); (1, 98); (2, 98); (3, 0); (8, 98); (9, 0)])
           0 8 [97; 98; 98] [98]); cbn [str_at]; split_and!; done.
Defined.

(** [strcspn] does not stop at the terminator when the string holds no
    character of [reject]: it reads on past the end of the string, and faults
    when the next address is not mapped. *)
Theorem strcspn_overrun m s reject l r :
  str_at m s l -> str_at m reject r -> (forall c, c ∈ l -> c ∉ r) ->
  m !! (s + len l + 1) = None -> strcspn m s reject = Halt Fault.
Proof.
  intros Hs Hr Hdisj Hend. unfold strcspn.
  destruct (char_map_spec m r reject 0 (replicate 256 false) (turns m)) as (map & -> & Hlen & Hmap).
  { by rewrite Z.add_0_r. } { apply str_at_turns in Hr. lia. } { done. }
  assert (Hfalse : forall c, 0 <= c < 256 -> c ∉ r -> rd map c = Ret false).
  { intros c Hc Hcr. destruct (rd_in_range map c) as [b Hb]; [lia |]. rewrite Hb.
    apply rd_ret in Hb as [_ Hb]. pose proof (Hmap _ _ Hb) as Hb'. rewrite Z2Nat.id in Hb' by lia.
    destruct b; [| done]. exfalso. destruct Hb' as [Hb' _]. destruct (Hb' eq_refl) as [? | Hx]; [done |].
    rewrite lookup_replicate in Hx. by destruct Hx. }
  assert (Hloop : forall l cnt f, str_at m (s + cnt) l -> (forall c, c ∈ l -> c ∉ r) ->
    m !! (s + cnt + len l + 1) = None -> (length l + 1 < f)%nat ->
    span_loop m s cnt map false f = Halt Fault).
  { clear l Hs Hdisj Hend. induction l as [| c l IH]; intros cnt [| f] Hs Hdisj Hend Hf;
      try (simpl in Hf; lia); cbn [span_loop]; unfold ld at 1.
    - simpl in Hs. rewrite Hs. rewrite Hfalse; [| lia |].
      + destruct f; [simpl in Hf; lia |]. cbn [Bool.eqb span_loop]. unfold ld.
        replace (s + (cnt + 1)) with (s + cnt + len ([] : list Z) + 1) by (simpl; lia). by rewrite Hend.
      + intros H0. apply str_at_chars in Hr. rewrite list.Forall_forall in Hr. by apply Hr in H0 as [].
    - destruct Hs as (Hc & Hcr & Hs). rewrite Hc. rewrite Hfalse; [| lia | apply Hdisj; left].
      cbn [Bool.eqb]. apply IH; [by rewrite Z.add_assoc | intros; apply Hdisj; by right | | simpl in Hf; lia].
      rewrite <- Hend. f_equal. simpl. lia. }
  apply (Hloop l); rewrite ?Z.add_0_r; try done. by apply (str_at_turns _ s).
Qed.

Lemma strcspn_overrun_witness :
  strcspn (list_to_map [(0, 97); (1, 98); (2, 0); (8, 120); (9, 0)]) 0 8 = Halt Fault.
Proof.
  apply (strcspn_overrun (list_to_map [(0, 97); (1, 98); (2, 0); (8, 120); (9, 0)]) 0 8 [97; 98] [120]).
  - cbn [str_at]. split_and!; done.
  - cbn [str_at]. split_and!; done.
  - set_solver.
  - done.
Defined.

(** A call of [strtok] skips leading delimiters, returns the token up to
    the next delimiter or the end as a string of its own, and remembers the
    rest of the input for the next call, NULL when there is none. *)
Theorem strtok_correct m saved p delim dl d t rest :
  str_at m delim dl -> str_at m p (d ++ t ++ rest) -> t <> [] ->
  Forall (fun c => c ∈ dl) d -> Forall (fun c => c ∉ dl) t ->
  match rest with c :: _ => c ∈ dl | [] => True end ->
  exists m' saved', strtok m saved (Some p) delim = Ret (m', saved', Some (p + len d)) /\
    str_at m' (p + len d) t /\
    match rest with
    | [] => saved' = None
    | _ :: rest' => saved' = Some (p + len d + len t + 1) /\ str_at m' (p + len d + len t + 1) rest'
    end.
Proof.
  intros Hdl Hs Hne Hd Ht Hrest. unfold strtok.
  pose proof (str_at_turns _ _ _ Hs) as Hturns. rewrite !length_app in Hturns.
  destruct (str_at_app _ _ _ _ Hs) as [_ Hs2]. destruct (str_at_app _ _ _ _ Hs2) as [_ Hs3].
  destruct t as [| c t]; [done |].
  rewrite (token_loop_spec m dl delim true d p ((c :: t) ++ rest)); try done; try lia.
  2: { eapply Forall_impl; [| exact Hd]. simpl. intros x Hx. by rewrite bool_decide_true. }
  2: { apply list.Forall_cons in Ht as [Hc _]. simpl. by rewrite bool_decide_false. }
  pose proof Hs2 as (Hc & Hcr & _). unfold ld. rewrite Hc. destruct (Z.eqb_spec c 0); [lia |].
  rewrite (token_loop_spec m dl delim false (c :: t) (p + len d) rest); try done; try lia.
  2: { eapply Forall_impl; [| exact Ht]. simpl. intros x Hx. by rewrite bool_decide_false. }
  2: { destruct rest; [done |]. by rewrite bool_decide_true. }
  destruct rest as [| x rest].
  { cbn [str_at] in Hs3. rewrite Hs3. cbn [negb Z.eqb]. do 2 eexists. split; [reflexivity |].
    by rewrite app_nil_r in Hs2. }
  destruct Hs3 as (Hx & Hxr & Hs3). rewrite Hx. destruct (Z.eqb_spec x 0); [lia |]. cbn [negb].
  rewrite sto_mapped by (eauto || lia). do 2 eexists. split; [reflexivity |]. split.
  - apply (str_at_take _ _ _ (length (c :: t))) in Hs2. rewrite take_app_length in Hs2.
    apply str_bytes. split.
    + apply bytes_at_lookup. intros i y Hi. apply lookup_app_Some in Hi as [Hi | [Hge Hi]].
      * apply lookup_lt_Some in Hi as Hlt. rewrite lookup_insert_ne by lia.
        by apply (proj1 (bytes_at_lookup (c :: t) m (p + len d)) Hs2).
      * apply list_lookup_singleton_Some in Hi as [Hi <-].
        replace i with (length (c :: t)) by lia. rewrite lookup_insert_eq. split; [done | lia].
    + apply str_at_chars in Hs. rewrite !Forall_app in Hs.
      eapply Forall_impl; [| exact (proj1 (proj2 Hs))]. simpl. lia.
  - split; [done |]. eapply str_at_ext; [| exact Hs3]. intros y Hy. apply lookup_insert_ne. lia.
Qed.

Lemma strtok_witness :
  let m := list_to_map [(0, 47); (1, 97); (2, 47); (3, 98); (4, 0); (8, 47); (9, 0)] : mem in
  exists m' saved', strtok m None (Some 0) 8 = Ret (m', saved', Some 1) /\ str_at m' 1 [97] /\
    saved' = Some 3 /\ str_at m' 3 [98].
Proof.
  apply (strtok_correct (list_to_map [(0, 47); (1, 97); (2, 47); (3, 98); (4, 0); (8, 47); (9, 0)])
           None 0 8 [47] [47] [97] [47; 98]).
  - cbn [str_at]. split_and!; done.
  - cbn [str_at app]. split_and!; done.
  - done.
  - repeat constructor.
  - repeat constructor. set_solver.
  - set_solver.
Defined.

(** The switch of [strerror] has one case per error number, and a
    negative number means the same error as its absolute value. *)
Theorem strerror_correct :
  NoDup (map fst strerror_table) /\
  (forall n s, (n, s) ∈ strerror_table -> strerror n = s /\ strerror (- n) = s) /\
  (forall n, 0 <= n < 2 ^ 31 -> n ∉ map fst strerror_table -> strerror n = "Unknown error"%string).
Proof.
  assert (Hall : forallb (fun '(n, s) => String.eqb (strerror n) s && String.eqb (strerror (- n)) s)
                   strerror_table = true) by (vm_compute; reflexivity).
  split_and!.
  - apply (bool_decide_unpack _). vm_compute. exact I.
  - intros n s Hin. rewrite forallb_forall in Hall.
    specialize (Hall (n, s)). rewrite <- list_elem_of_In in Hall. specialize (Hall Hin).
    apply andb_true_iff in Hall as [H1 H2]. split; by apply String.eqb_eq.
  - intros n Hn Hni. unfold strerror. destruct (Z.ltb_spec n 0); [lia |]. cbv zeta.
    revert Hni. generalize strerror_table. induction l as [| [k s] l IH]; [done |]. simpl.
    intros Hni. destruct (Z.eqb_spec n k) as [-> |]; [exfalso; apply Hni; left |].
    apply IH. intros Hi. apply Hni. by right.
Qed.
