(* ===== verification/Sort.v ===== *)
(** * lib/qsort.c: heap sort

    The array is the list of its elements, each moved as a whole by [memswap];
    [compar] is an argument of every routine, as in C. *)

From S2P Require Import Prelude.

Section qsort.
Context {A : Type} (compar : A -> A -> Z).

Definition memswap (base : list A) (i j : Z) : res (list A) :=
  let! x := rd base i in
  let! y := rd base j in
  let! base := wr base i y in
  wr base j x.

(** One [if] of [heapify]: the child [c] takes over if it is larger. *)
Definition larger (base : list A) (nmemb c largest : Z) : res Z :=
  if c <? nmemb then
    let! x := rd base c in
    let! y := rd base largest in
    Ret (if 0 <? compar x y then c else largest)
  else Ret largest.

Fixpoint heapify (base : list A) (nmemb i : Z) (fuel : nat) : res (list A) :=
  let largest := i in
  let l := u64 (2 * i + 1) in
  let r := u64 (2 * i + 2) in
  let! largest := larger base nmemb l largest in
  let! largest := larger base nmemb r largest in
  if negb (largest =? i) then
    match fuel with
    | O => Halt Fuel
    | S fuel' =>
        let! base := memswap base i largest in
        heapify base nmemb largest fuel'
    end
  else Ret base.

(** [for (i = nmemb / 2 - 1; i >= 0; --i)]: [i] counts from [n - 1] down. *)
Fixpoint build_loop (base : list A) (nmemb : Z) (n : nat) : res (list A) :=
  match n with
  | O => Ret base
  | S i => let! base := heapify base nmemb (Z.of_nat i) (length base) in build_loop base nmemb i
  end.

(** [for (i = nmemb - 1; i > 0; --i)]. *)
Fixpoint sort_loop (base : list A) (n : nat) : res (list A) :=
  match n with
  | O => Ret base
  | S i' =>
      let i := Z.of_nat n in
      let! base := memswap base 0 i in
      let! base := heapify base i 0 (length base) in
      sort_loop base i'
  end.

(** [base] is NULL or an array. *)
Definition qsort (base : list A) (nmemb : Z) : res (list A) :=
  if nmemb <=? 1 then Ret base
  else
    let! base := build_loop base nmemb (Z.to_nat (nmemb / 2)) in
    sort_loop base (Z.to_nat (nmemb - 1)).

(** ** The order *)

Definition le (x y : A) : Prop := compar x y <= 0.

Context (le_total : forall x y, 0 < compar x y -> le y x)
        (le_trans : forall x y z, le x y -> le y z -> le x z).

Lemma le_refl x : le x x.
Proof. unfold le. destruct (Z.le_gt_cases (compar x x) 0) as [H | H]; [done |]. apply le_total, H. Qed.

(** ** Heaps *)

Definition at_ (l : list A) (k : Z) (x : A) : Prop := 0 <= k /\ l !! Z.to_nat k = Some x.

Definition child (i c : Z) : Prop := c = 2 * i + 1 \/ c = 2 * i + 2.

(** The children of node [i] below [n] are no larger than it. *)
Definition node_ok (l : list A) (n i : Z) : Prop :=
  forall c x y, child i c -> c < n -> at_ l i x -> at_ l c y -> le y x.

Definition heap_from (l : list A) (n i0 : Z) : Prop := forall k, i0 <= k -> node_ok l n k.

Lemma at_fun l k x y : at_ l k x -> at_ l k y -> x = y.
Proof. intros [_ H1] [_ H2]. congruence. Qed.

Lemma at_get l k : 0 <= k < Z.of_nat (length l) -> exists x, at_ l k x.
Proof. intros H. destruct (lookup_lt_is_Some_2 l (Z.to_nat k)) as [x Hx]; [lia |]. exists x. by split; [lia |]. Qed.

Lemma at_rd l k x : at_ l k x -> rd l k = Ret x.
Proof. intros H. by apply rd_ret. Qed.

Lemma swap_spec l i j x y : at_ l i x -> at_ l j y -> i <> j ->
  exists l', memswap l i j = Ret l' /\ l' ≡ₚ l /\ length l' = length l /\
    forall k z, at_ l' k z <-> (k = i /\ z = y) \/ (k = j /\ z = x) \/ (k <> i /\ k <> j /\ at_ l k z).
Proof.
  intros Hi Hj Hne. pose proof (at_rd _ _ _ Hi) as Ri. pose proof (at_rd _ _ _ Hj) as Rj. destruct Hi as [Hi0 Hi], Hj as [Hj0 Hj].
  pose proof (lookup_lt_Some _ _ _ Hi). pose proof (lookup_lt_Some _ _ _ Hj).
  unfold memswap. rewrite Ri, Rj, wr_in_range by lia. rewrite wr_in_range by (rewrite length_insert; lia).
  eexists. split; [done |]. split_and!.
  - rewrite (Permutation_insert_swap l (Z.to_nat i) (Z.to_nat j) x y) by (done || lia). done.
  - by rewrite !length_insert.
  - intros k z. unfold at_. destruct (Z.lt_ge_cases k 0); [split; [lia | naive_solver lia] |].
    destruct (decide (k = j)) as [-> |]; [rewrite list_lookup_insert_eq by (rewrite length_insert; lia); naive_solver |].
    rewrite list_lookup_insert_ne by lia.
    destruct (decide (k = i)) as [-> |]; [rewrite list_lookup_insert_eq by lia; naive_solver |].
    rewrite list_lookup_insert_ne by lia. naive_solver.
Qed.

(** The larger of the node and one of its children. *)
Lemma larger_spec l n c g x : at_ l g x -> 0 <= c -> n <= Z.of_nat (length l) ->
  exists g' x', larger l n c g = Ret g' /\ at_ l g' x' /\ le x x' /\ (c < n -> forall y, at_ l c y -> le y x') /\
    (g' = g \/ (g' = c /\ c < n)).
Proof.
  intros Hg Hc Hn. unfold larger. destruct (Z.ltb_spec c n) as [Hlt | Hge].
  - destruct (at_get l c) as [y Hy]; [lia |]. rewrite (at_rd _ _ _ Hy), (at_rd _ _ _ Hg).
    destruct (Z.ltb_spec 0 (compar y x)) as [Hgt | Hle].
    + exists c, y. split_and!; [done | done | by apply le_total | | by right].
      intros _ y' Hy'. rewrite (at_fun _ _ _ _ Hy' Hy). apply le_refl.
    + exists g, x. split_and!; [done | done | apply le_refl | | by left].
      intros _ y' Hy'. by rewrite (at_fun _ _ _ _ Hy' Hy).
  - exists g, x. split_and!; [done | done | apply le_refl | lia | by left].
Qed.

(** What [heapify] leaves alone. *)
Definition rearranges (l l' : list A) (n : Z) : Prop :=
  l' ≡ₚ l /\ length l' = length l /\ forall k z, n <= k -> at_ l' k z <-> at_ l k z.

Lemma rearranges_trans l l' l'' n : rearranges l l' n -> rearranges l' l'' n -> rearranges l l'' n.
Proof.
  intros (P1 & L1 & A1) (P2 & L2 & A2). split_and!; [by rewrite P2 | lia |]. intros k z Hk. by rewrite A2, A1.
Qed.

Lemma rearranges_refl l n : rearranges l l n.
Proof. done. Qed.

(** Every node from [i0] on is in order except perhaps [i], whose children are
    no larger than its parent. *)
Definition heap_but (l : list A) (n i0 i : Z) : Prop :=
  (forall k, i0 <= k -> k <> i -> node_ok l n k) /\
  (forall p c z w, i0 <= p -> child p i -> child i c -> c < n -> at_ l p z -> at_ l c w -> le w z).

Lemma heap_but_swap l l' n i0 i g x y : 0 <= i0 <= i -> heap_but l n i0 i -> child i g -> g < n ->
  at_ l i x -> at_ l g y -> le x y -> (forall c z, child i c -> c < n -> at_ l c z -> le z y) ->
  (forall k z, at_ l' k z <-> (k = i /\ z = y) \/ (k = g /\ z = x) \/ (k <> i /\ k <> g /\ at_ l k z)) ->
  heap_but l' n i0 g.
Proof.
  intros Hi [Hnode Hgrand] Hg Hgn Hx Hy Hxy Hmax Hat. unfold child in *. split.
  - intros k Hk Hkg c u v Hc Hcn Hu Hv. rewrite Hat in Hu, Hv.
    destruct Hu as [[-> ->] | [[-> _] | (Hki & _ & Hu)]]; [| done |].
    + destruct Hv as [[-> _] | [[_ ->] | (_ & _ & Hv)]]; [unfold child in *; lia | done | by apply (Hmax c)].
    + destruct Hv as [[-> ->] | [[-> _] | (_ & _ & Hv)]].
      * by apply (Hgrand k g).
      * unfold child in *. lia.
      * by apply (Hnode k Hk Hki c).
  - intros p c z w Hp Hpg Hgc Hcn Hz Hw. assert (p = i) as -> by (unfold child in *; lia).
    rewrite Hat in Hz, Hw. destruct Hz as [[_ ->] | [[-> _] | (Hne & _)]]; [| unfold child in *; lia | done].
    destruct Hw as [[-> _] | [[-> _] | (_ & _ & Hw)]]; [unfold child in *; lia | unfold child in *; lia |].
    apply (Hnode g ltac:(unfold child in *; lia) ltac:(unfold child in *; lia) c); done.
Qed.

Lemma heapify_spec n i0 (fuel : nat) : forall l i, 0 <= i0 <= i -> i < n -> n <= Z.of_nat (length l) -> n < 2 ^ 62 ->
  n - i <= Z.of_nat fuel -> heap_but l n i0 i ->
  exists l', heapify l n i fuel = Ret l' /\ heap_from l' n i0 /\ rearranges l l' n.
Proof.
  induction fuel as [| fuel IH]; intros l i Hi Hin Hn Hsz Hfuel Hheap; [lia |]. cbn [heapify].
  rewrite (u64_small (2 * i + 1)), (u64_small (2 * i + 2)) by lia.
  destruct (at_get l i) as [x Hx]; [lia |].
  destruct (larger_spec l n (2 * i + 1) i x Hx) as (g1 & x1 & -> & Hx1 & Hle1 & Hl & Hg1); [lia | done |].
  destruct (larger_spec l n (2 * i + 2) g1 x1 Hx1) as (g & y & -> & Hy & Hle2 & Hr & Hg); [lia | done |].
  assert (Hxy : le x y) by (by eapply le_trans).
  assert (Hmax : forall c z, child i c -> c < n -> at_ l c z -> le z y).
  { intros c z [-> | ->] Hc Hz; [| by apply Hr]. eapply le_trans; [by apply Hl | done]. }
  destruct (Z.eqb_spec g i) as [-> | Hne]; cbn [negb].
  - exists l. split_and!; [done | | done]. intros k Hk. destruct (decide (k = i)) as [-> |]; [| by apply Hheap].
    intros c u v Hc Hcn Hu Hv. rewrite (at_fun _ _ _ _ Hu Hy). by apply (Hmax c).
  - assert (Hgc : child i g /\ g < n) by (unfold child; lia). destruct Hgc as [Hgc Hgn].
    destruct (swap_spec l i g x y Hx Hy) as (l1 & -> & Hperm & Hlen & Hat); [done |].
    destruct (IH l1 g) as (l' & -> & Hheap' & Hre); [unfold child in *; lia | done | lia | done | unfold child in *; lia | |].
    { apply (heap_but_swap l l1 n i0 i g x y); done. }
    exists l'. split_and!; [done | done |]. apply rearranges_trans with l1; [| done]. split_and!; [done | done |].
    intros k z Hk. rewrite Hat. naive_solver lia.
Qed.

(** ** The two loops *)

Lemma build_loop_spec n (m : nat) : forall l, Z.of_nat m <= n -> n <= Z.of_nat (length l) -> n < 2 ^ 62 -> heap_from l n (Z.of_nat m) ->
  exists l', build_loop l n m = Ret l' /\ heap_from l' n 0 /\ rearranges l l' n.
Proof.
  induction m as [| m IH]; intros l Hm Hn Hsz Hh; cbn [build_loop]; [by exists l |].
  destruct (heapify_spec n (Z.of_nat m) (length l) l (Z.of_nat m)) as (l1 & -> & Hh1 & Hre1); [lia | lia | done | done | lia | |].
  { split; [intros k Hk Hne; apply Hh; lia |]. intros p c z w Hp Hpi. unfold child in *. lia. }
  destruct (IH l1) as (l' & -> & Hh' & Hre'); [lia | destruct Hre1 as (_ & -> & _); done | done | done |].
  exists l'. split_and!; [done | done | by apply rearranges_trans with l1].
Qed.

(** The root of a heap is its largest element. *)
Lemma root_max l n x : heap_from l n 0 -> n <= Z.of_nat (length l) -> at_ l 0 x -> forall k y, k < n -> at_ l k y -> le y x.
Proof.
  intros Hh Hn Hx k. induction k as [k IH] using (well_founded_induction (Z.lt_wf 0)). intros y Hk Hy.
  destruct (decide (k = 0)) as [-> | Hne]; [rewrite (at_fun _ _ _ _ Hy Hx); apply le_refl |].
  assert (0 <= k) by apply Hy. set (p := (k - 1) / 2). assert (0 <= p < k /\ child p k) as [Hp Hc] by (unfold p, child; zdm).
  destruct (at_get l p) as [z Hz]; [lia |]. eapply le_trans; [apply (Hh p ltac:(lia) k z y); done |]. apply (IH p); (done || lia).
Qed.

Lemma rearranges_prefix l l' n : 0 <= n -> rearranges l l' n -> forall k z, k < n -> at_ l' k z -> exists k', k' < n /\ at_ l k' z.
Proof.
  intros Hn (Hperm & Hlen & Hat) k z Hk [Hk0 Hz].
  assert (Hdrop : drop (Z.to_nat n) l' = drop (Z.to_nat n) l).
  { apply list_eq. intros j. rewrite !lookup_drop. pose proof (Hat (n + Z.of_nat j)) as Hj.
    replace (Z.to_nat n + j)%nat with (Z.to_nat (n + Z.of_nat j)) by lia. apply option_eq. intros w.
    specialize (Hj w ltac:(lia)). unfold at_ in Hj. naive_solver lia. }
  assert (Htake : take (Z.to_nat n) l' ≡ₚ take (Z.to_nat n) l).
  { apply (Permutation_app_inv_r (drop (Z.to_nat n) l)). rewrite <- Hdrop at 1. by rewrite !take_drop. }
  assert (Hin : z ∈ take (Z.to_nat n) l) by (rewrite <- Htake; apply list_elem_of_lookup; exists (Z.to_nat k); rewrite lookup_take_lt; [done | lia]).
  apply list_elem_of_lookup in Hin as [j Hj]. apply lookup_take_Some in Hj as [Hj Hlt].
  exists (Z.of_nat j). split; [lia |]. split; [lia |]. by rewrite Nat2Z.id.
Qed.

(** From [n] on the array is final. *)
Definition settled (l : list A) (n : Z) : Prop :=
  forall a b x y, a < b -> n <= b -> at_ l a x -> at_ l b y -> le x y.

Lemma sort_loop_spec (n : nat) : forall l, Z.of_nat n < Z.of_nat (length l) -> Z.of_nat n + 1 < 2 ^ 62 ->
  heap_from l (Z.of_nat n + 1) 0 -> settled l (Z.of_nat n + 1) ->
  exists l', sort_loop l n = Ret l' /\ l' ≡ₚ l /\ settled l' 1.
Proof.
  induction n as [| n IH]; intros l Hlen Hsz Hh Hset; cbn [sort_loop]; [by exists l |]. set (i := Z.of_nat (S n)) in *.
  destruct (at_get l 0) as [x Hx]; [lia |]. destruct (at_get l i) as [y Hy]; [lia |].
  destruct (swap_spec l 0 i x y Hx Hy) as (l1 & -> & Hp1 & Hl1 & Hat); [lia |].
  destruct (heapify_spec i 0 (length l1) l1 0) as (l2 & -> & Hh2 & Hre); [lia | lia | lia | lia | lia | |].
  { split; [| intros p c z w Hp Hc; unfold child in *; lia].
    intros k Hk Hne c u v Hc Hcn Hu Hv. rewrite Hat in Hu, Hv.
    destruct Hu as [[-> _] | [[-> _] | (_ & _ & Hu)]]; [done | unfold child in *; lia |].
    destruct Hv as [[-> _] | [[-> _] | (_ & _ & Hv)]]; [unfold child in *; lia | lia |].
    apply (Hh k Hk c); (done || lia). }
  assert (Hpre : forall k z, k < i -> at_ l2 k z -> exists k', k' <= i /\ at_ l k' z).
  { intros k z Hk Hz. destruct (rearranges_prefix l1 l2 i ltac:(lia) Hre k z Hk Hz) as (k' & Hk' & Hz').
    rewrite Hat in Hz'. destruct Hz' as [[_ ->] | [[-> _] | (_ & _ & Hz')]]; [by exists i | lia | exists k'; split; [lia | done]]. }
  destruct Hre as (Hp2 & Hl2 & Hat2).
  destruct (IH l2) as (l' & -> & Hp' & Hset'); [lia | lia | by replace (Z.of_nat n + 1) with i by lia | |].
  2: { exists l'. split_and!; [done | by rewrite Hp', Hp2, Hp1 | done]. }
  replace (Z.of_nat n + 1) with i by lia. intros a b u v Hab Hb Hu Hv.
  rewrite Hat2, Hat in Hv by done. destruct Hv as [[-> _] | [[-> ->] | (_ & Hbi & Hv)]]; [lia | |].
  - destruct (Hpre a u Hab Hu) as (k' & Hk' & Hu'). apply (root_max l (i + 1) x Hh ltac:(lia) Hx k'); [lia | done].
  - destruct (Z.lt_ge_cases a i) as [Ha | Ha].
    + destruct (Hpre a u Ha Hu) as (k' & Hk' & Hu'). apply (Hset k' b); (done || lia).
    + rewrite Hat2, Hat in Hu by done. destruct Hu as [[-> _] | [[-> ->] | (_ & _ & Hu)]]; [lia | | apply (Hset a b); (done || lia)].
      apply (Hset 0 b); (done || lia).
Qed.

(** ** Properties *)

(** C28: for a [compar] that is a total preorder [qsort] terminates (in particular
    [heapify] is never called deeper than the array is long), and leaves the
    same elements in ascending order. *)
Theorem qsort_correct l : Z.of_nat (length l) < 2 ^ 62 ->
  exists l', qsort l (Z.of_nat (length l)) = Ret l' /\ l' ≡ₚ l /\ StronglySorted le l'.
Proof.
  intros Hsz. set (n := Z.of_nat (length l)).
  assert (H : exists l', qsort l n = Ret l' /\ l' ≡ₚ l /\ settled l' 1).
  { unfold qsort. destruct (Z.leb_spec n 1) as [Hn | Hn].
    - exists l. split_and!; [done | done |]. intros a b x y Hab Hb [Ha0 Ha] [_ Hy]. apply lookup_lt_Some in Hy. lia.
    - destruct (build_loop_spec n (Z.to_nat (n / 2)) l) as (l1 & -> & Hh & Hre); [zdm | lia | done | |].
      { intros k Hk c x y Hc Hcn _ _. unfold child in Hc. zdm. }
      destruct Hre as (Hp1 & Hl1 & _). destruct (sort_loop_spec (Z.to_nat (n - 1)) l1) as (l' & -> & Hp & Hset); [lia | lia | | |].
      + by replace (Z.of_nat (Z.to_nat (n - 1)) + 1) with n by lia.
      + intros a b x y Hab Hb _ [_ Hy]. apply lookup_lt_Some in Hy. lia.
      + exists l'. split_and!; [done | by rewrite Hp, Hp1 | done]. }
  destruct H as (l' & Hq & Hp & Hset). exists l'. split_and!; [done | done |].
  assert (Hord : forall (a b : nat) x y, (a < b)%nat -> l' !! a = Some x -> l' !! b = Some y -> le x y).
  { intros a b x y Hab Hx Hy. apply (Hset (Z.of_nat a) (Z.of_nat b)); [lia | lia | |]; (split; [lia |]); by rewrite Nat2Z.id. }
  clear -Hord. induction l' as [| x l' IH]; constructor.
  - apply IH. intros a b u v Hab Hu Hv. apply (Hord (S a) (S b)); (done || lia).
  - apply list.Forall_forall. intros y [j Hj]%list_elem_of_lookup. apply (Hord 0%nat (S j)); (done || lia).
Qed.

End qsort.

Lemma qsort_witness : exists l', qsort Z.sub [5; 3; 9; 3; 1] (Z.of_nat (length [5; 3; 9; 3; 1])) = Ret l' /\ l' ≡ₚ [5; 3; 9; 3; 1] /\ StronglySorted (le Z.sub) l'.
Proof.
  apply (qsort_correct Z.sub); [unfold le; intros; lia | unfold le; intros; lia | simpl; lia].
Defined.
