(* ===== verification/Hash.v ===== *)
(** * lib/hash.c and lib/rand.c: the FNV-1a hash and the xorshift generator *)

From S2P Require Import Prelude.

Definition FNV1A_32_INIT : Z := 0x811C9DC5.
Definition FNV1A_32_PRIME : Z := 0x01000193.

(** The loop over the bytes. *)
Fixpoint fnv_loop (hash : Z) (k : list Z) : Z :=
  match k with
  | [] => hash
  | b :: k' => fnv_loop (u32 (Z.lxor hash b * FNV1A_32_PRIME)) k'
  end.

Definition fnv1a_32 (data : list Z) : Z := fnv_loop FNV1A_32_INIT data.

Definition hash_combine32 (a b : Z) : Z := Z.lxor a (u32 (Z.shiftl b 1)).

(** [xorshift_state] is the state; a call returns the number and the new state. *)
Definition rand_seed (seed : Z) : Z := seed.

Definition rand_u32 (xorshift_state : Z) : Z * Z :=
  let s := Z.lxor xorshift_state (Z.shiftr xorshift_state 12) in
  let s := Z.lxor s (u64 (Z.shiftl s 25)) in
  let s := Z.lxor s (Z.shiftr s 27) in
  (u32 (Z.shiftr (u64 (s * 0x2545F4914F6CDD1D)) 32), s).

(** ** The hash *)

(** [FNV1A_32_PRIME] is odd, so multiplication by it is invertible. *)
Definition FNV1A_32_INVERSE : Z := 899433627.

Lemma fnv_mul_inj x y : 0 <= x < 2 ^ 32 -> 0 <= y < 2 ^ 32 ->
  u32 (x * FNV1A_32_PRIME) = u32 (y * FNV1A_32_PRIME) -> x = y.
Proof.
  intros Hx Hy E. unfold wrap in E.
  assert (Hinv : forall z, 0 <= z < 2 ^ 32 -> (z * FNV1A_32_PRIME) mod 2 ^ 32 * FNV1A_32_INVERSE mod 2 ^ 32 = z).
  { intros z Hz. rewrite Z.mul_mod_idemp_l by lia. rewrite <- Z.mul_assoc, <- Z.mul_mod_idemp_r by lia.
    change (FNV1A_32_PRIME * FNV1A_32_INVERSE mod 2 ^ 32) with 1. rewrite Z.mul_1_r. by apply Z.mod_small. }
  rewrite <- (Hinv x), <- (Hinv y) by done. by rewrite E.
Qed.

Lemma lxor_bound w a b : 0 <= w -> 0 <= a < 2 ^ w -> 0 <= b < 2 ^ w -> 0 <= Z.lxor a b < 2 ^ w.
Proof.
  intros Hw Ha Hb. split; [apply Z.lxor_nonneg; lia |]. rewrite <- (Z.mod_small a (2 ^ w)), <- (Z.mod_small b (2 ^ w)) by done.
  rewrite <- !Z.land_ones by done. assert (E : Z.lxor (Z.land a (Z.ones w)) (Z.land b (Z.ones w)) = Z.land (Z.lxor a b) (Z.ones w)).
  { apply Z.bits_inj'. intros i Hi. rewrite !Z.lxor_spec, !Z.land_spec, Z.lxor_spec. by destruct (Z.testbit a i), (Z.testbit b i), (Z.testbit (Z.ones w) i). }
  rewrite E, Z.land_ones by done. apply Z.mod_pos_bound. lia.
Qed.

Lemma lxor_cancel_l a b c : Z.lxor a b = Z.lxor a c -> b = c.
Proof. intros E. apply (f_equal (Z.lxor a)) in E. by rewrite <- !Z.lxor_assoc, !Z.lxor_nilpotent, !Z.lxor_0_l in E. Qed.

Lemma lxor_cancel_r a b c : Z.lxor b a = Z.lxor c a -> b = c.
Proof. rewrite !(Z.lxor_comm _ a). apply lxor_cancel_l. Qed.

Lemma fnv_loop_app h p q : fnv_loop h (p ++ q) = fnv_loop (fnv_loop h p) q.
Proof. revert h. induction p as [| b p IH]; intros h; [done |]. apply IH. Qed.

Lemma fnv_loop_bound p : forall h, 0 <= h < 2 ^ 32 -> 0 <= fnv_loop h p < 2 ^ 32.
Proof. induction p as [| b p IH]; intros h Hh; [done |]. apply IH, u32_bound. Qed.

Lemma fnv_loop_inj p : Forall (fun b => 0 <= b < 256) p -> forall h h', 0 <= h < 2 ^ 32 -> 0 <= h' < 2 ^ 32 ->
  fnv_loop h p = fnv_loop h' p -> h = h'.
Proof.
  induction 1 as [| b p Hb _ IH]; intros h h' Hh Hh' E; [done |]. cbn [fnv_loop] in E.
  apply IH in E; [| apply u32_bound | apply u32_bound].
  apply fnv_mul_inj in E; [| apply lxor_bound; lia | apply lxor_bound; lia]. by apply lxor_cancel_r in E.
Qed.

(** Two strings of the same length that differ in one byte have different hashes,
    in whatever context the byte stands. *)
Theorem fnv1a_distinguishes pre post b b' : Forall (fun b => 0 <= b < 256) post -> 0 <= b < 256 -> 0 <= b' < 256 -> b <> b' ->
  fnv1a_32 (pre ++ b :: post) <> fnv1a_32 (pre ++ b' :: post).
Proof.
  intros Hpost Hb Hb' Hne E. unfold fnv1a_32 in E. rewrite !fnv_loop_app in E. cbn [fnv_loop] in E.
  pose proof (fnv_loop_bound pre FNV1A_32_INIT ltac:(unfold FNV1A_32_INIT; lia)).
  apply fnv_loop_inj in E; [| done | apply u32_bound | apply u32_bound].
  apply fnv_mul_inj in E; [| apply lxor_bound; lia | apply lxor_bound; lia]. by apply lxor_cancel_l in E.
Qed.

(** ** The generator *)

Lemma xorshift_r_inj k x y : 0 < k -> 0 <= x -> 0 <= y -> Z.lxor x (Z.shiftr x k) = Z.lxor y (Z.shiftr y k) -> x = y.
Proof.
  intros Hk Hx Hy E. apply Z.lxor_eq. set (z := Z.lxor x y). assert (Hz : 0 <= z) by (apply Z.lxor_nonneg; lia).
  assert (Hfix : z = Z.shiftr z k).
  { apply Z.lxor_eq. unfold z. rewrite Z.shiftr_lxor. apply Z.bits_inj'. intros i Hi. apply (f_equal (fun w => Z.testbit w i)) in E.
    rewrite !Z.lxor_spec in *. rewrite Z.bits_0. by destruct (Z.testbit x i), (Z.testbit y i), (Z.testbit (Z.shiftr x k) i), (Z.testbit (Z.shiftr y k) i). }
  rewrite Z.shiftr_div_pow2 in Hfix by lia. assert (2 <= 2 ^ k) by (change 2 with (2 ^ 1) at 1; apply Z.pow_le_mono_r; lia).
  destruct (Z.eq_dec z 0) as [| Hne]; [done |]. pose proof (Z.div_lt z (2 ^ k)). lia.
Qed.

Lemma xorshift_l_inj k x y : 0 < k -> 0 <= x < 2 ^ 64 -> 0 <= y < 2 ^ 64 ->
  Z.lxor x (u64 (Z.shiftl x k)) = Z.lxor y (u64 (Z.shiftl y k)) -> x = y.
Proof.
  intros Hk Hx Hy E. apply (word_ext 64); [done | done |]. intros i. induction i as [i IH] using (well_founded_induction (Z.lt_wf 0)).
  intros Hi. apply (f_equal (fun w => Z.testbit w i)) in E. rewrite !Z.lxor_spec, !wrap_testbit, !Z.shiftl_spec in E by lia.
  destruct (Z.ltb_spec i 64); [| lia]. cbn [andb] in E. destruct (Z.lt_ge_cases i k) as [Hlt | Hge].
  - rewrite !(Z.testbit_neg_r _ (i - k)) in E by lia. by destruct (Z.testbit x i), (Z.testbit y i).
  - rewrite (IH (i - k)) in E by lia. by destruct (Z.testbit x i), (Z.testbit y i), (Z.testbit y (i - k)).
Qed.

Lemma shiftr_bound x k : 0 <= k -> 0 <= x < 2 ^ 64 -> 0 <= Z.shiftr x k < 2 ^ 64.
Proof.
  intros Hk Hx. rewrite Z.shiftr_div_pow2 by done. assert (0 < 2 ^ k) by lia. split; [apply Z.div_pos; lia |].
  apply Z.div_lt_upper_bound; [done |]. nia.
Qed.

Lemma rand_bound s : 0 <= s < 2 ^ 64 -> 0 <= (rand_u32 s).2 < 2 ^ 64.
Proof.
  intros H. cbn [rand_u32 snd]. repeat (apply lxor_bound; [lia | |]); repeat (apply shiftr_bound; [lia |]); try done; try apply u64_bound;
    repeat (apply lxor_bound; [lia | |]); repeat (apply shiftr_bound; [lia |]); try done; apply u64_bound.
Qed.

(** The generator is a permutation of its 64-bit states, so it never runs
    from a non-zero seed into the state 0, where it would stay. *)
Theorem rand_u32_permutes s s' : 0 <= s < 2 ^ 64 -> 0 <= s' < 2 ^ 64 ->
  (0 <= (rand_u32 s).2 < 2 ^ 64) /\ ((rand_u32 s).2 = (rand_u32 s').2 -> s = s') /\ (s <> 0 -> (rand_u32 s).2 <> 0).
Proof.
  intros Hs Hs'. split; [by apply rand_bound |].
  assert (Hinj : forall a b, 0 <= a < 2 ^ 64 -> 0 <= b < 2 ^ 64 -> (rand_u32 a).2 = (rand_u32 b).2 -> a = b).
  { intros a b Ha Hb E. cbn [rand_u32 snd] in E.
    assert (Hx : forall x, 0 <= x < 2 ^ 64 -> 0 <= Z.lxor x (Z.shiftr x 12) < 2 ^ 64) by (intros; apply lxor_bound; [lia | done | by apply shiftr_bound]).
    assert (Hy : forall x, 0 <= x < 2 ^ 64 -> 0 <= Z.lxor x (u64 (Z.shiftl x 25)) < 2 ^ 64) by (intros; apply lxor_bound; [lia | done | apply u64_bound]).
    apply xorshift_r_inj in E; [| lia | by apply Hy, Hx | by apply Hy, Hx].
    apply xorshift_l_inj in E; [| lia | by apply Hx | by apply Hx]. apply xorshift_r_inj in E; [done | lia | lia | lia]. }
  split; [by apply Hinj |]. intros Hne E. apply Hne. apply Hinj; [done | lia |]. by rewrite E.
Qed.
