(* ===== verification/Printf.v ===== *)
(** * Formatted output: lib/printf.c

    The format is the list of its bytes before the terminator; reading past its
    end gives the terminator, 0.  The variable arguments are the 64-bit slots they
    were passed in.  A string argument is a pointer; [mem] gives the bytes of the
    object it points to, and [strlen] halts if no terminator is among them. *)

From S2P Require Import Prelude.

Definition EINVAL : Z := 22.
Definition EOVERFLOW : Z := 75.
Definition INT_MAX : Z := 2 ^ 31 - 1.

Definition FMT_F_ZERO_PAD : Z := 1.
Definition FMT_F_LEFT_ALIGN : Z := 2.
Definition FMT_F_MARK_POS : Z := 4.
Definition FMT_F_ALT_FORM : Z := 8.
Definition FMT_F_PAD_POS : Z := 16.

Definition has (f bit : Z) : bool := negb (Z.land f bit =? 0).

(** Characters of the formats. *)
Abbreviation ch_d := 100.
Abbreviation ch_i := 105.
Abbreviation ch_u := 117.
Abbreviation ch_x := 120.
Abbreviation ch_X := 88.
Abbreviation ch_o := 111.
Abbreviation ch_c := 99.
Abbreviation ch_s := 115.
Abbreviation ch_p := 112.
Abbreviation ch_l := 108.
Abbreviation ch_h := 104.
Abbreviation ch_z := 122.
Abbreviation ch_pct := 37.
Abbreviation ch_dot := 46.
Abbreviation ch_star := 42.
Abbreviation ch_space := 32.
Abbreviation ch_plus := 43.
Abbreviation ch_minus := 45.
Abbreviation ch_zero := 48.
Abbreviation ch_hash := 35.

Inductive fmt_state : Set :=
| FMT_S_INVALID | FMT_S_START | FMT_S_LPRE | FMT_S_LLPRE | FMT_S_HPRE | FMT_S_HHPRE | FMT_S_ZPRE | FMT_S_STOP
| FMT_S_CHAR | FMT_S_UCHAR | FMT_S_SHORT | FMT_S_USHORT | FMT_S_INT | FMT_S_UINT | FMT_S_LONG | FMT_S_ULONG
| FMT_S_LLONG | FMT_S_ULLONG | FMT_S_SIZE_T | FMT_S_SSIZE_T | FMT_S_PTR | FMT_S_STR.

#[global] Instance fmt_state_eq : EqDecision fmt_state.
Proof. solve_decision. Defined.

Record fmt_ctx : Type := mk_ctx { buf : list Z; size : Z; pos : Z; cnt : Z }.

(** ** The state machine of length modifiers and conversions *)

Definition is_signed_conv (c : Z) : bool := (c =? ch_d) || (c =? ch_i).
Definition is_unsigned_conv (c : Z) : bool := (c =? ch_u) || (c =? ch_x) || (c =? ch_X) || (c =? ch_o).

Definition transition (st : fmt_state) (c : Z) : fmt_state :=
  match st with
  | FMT_S_START =>
      if c =? ch_l then FMT_S_LPRE else if c =? ch_h then FMT_S_HPRE else if c =? ch_z then FMT_S_ZPRE
      else if is_signed_conv c then FMT_S_INT else if is_unsigned_conv c then FMT_S_UINT
      else if c =? ch_s then FMT_S_STR else if c =? ch_c then FMT_S_INT else if c =? ch_p then FMT_S_PTR else FMT_S_INVALID
  | FMT_S_LPRE => if c =? ch_l then FMT_S_LLPRE else if is_signed_conv c then FMT_S_LONG else if is_unsigned_conv c then FMT_S_ULONG else FMT_S_INVALID
  | FMT_S_LLPRE => if is_signed_conv c then FMT_S_LLONG else if is_unsigned_conv c then FMT_S_ULLONG else FMT_S_INVALID
  | FMT_S_HPRE => if c =? ch_h then FMT_S_HHPRE else if is_signed_conv c then FMT_S_SHORT else if is_unsigned_conv c then FMT_S_USHORT else FMT_S_INVALID
  | FMT_S_HHPRE => if is_signed_conv c then FMT_S_CHAR else if is_unsigned_conv c then FMT_S_UCHAR else FMT_S_INVALID
  | FMT_S_ZPRE => if is_signed_conv c then FMT_S_SSIZE_T else if is_unsigned_conv c then FMT_S_SIZE_T else FMT_S_INVALID
  | _ => FMT_S_INVALID
  end.

(** [st >= FMT_S_START && st <= FMT_S_STOP]. *)
Definition in_prefix (st : fmt_state) : bool :=
  match st with FMT_S_START | FMT_S_LPRE | FMT_S_LLPRE | FMT_S_HPRE | FMT_S_HHPRE | FMT_S_ZPRE | FMT_S_STOP => true | _ => false end.

(** ** Digits *)

Definition digits_lower : list Z := [48; 49; 50; 51; 52; 53; 54; 55; 56; 57; 97; 98; 99; 100; 101; 102].
Definition digits_upper : list Z := [48; 49; 50; 51; 52; 53; 54; 55; 56; 57; 65; 66; 67; 68; 69; 70].

(** The digits are written backwards into [num_buf], of which [room] bytes are
    free; [acc] is what has been written. *)
Fixpoint fmt_u (x : Z) (d acc : list Z) (room : nat) : res (list Z) :=
  match room with
  | O => Halt Fault
  | S room' => let! c := rd d (x mod 10) in let x := x / 10 in if 0 <? x then fmt_u x d (c :: acc) room' else Ret (c :: acc)
  end.

Fixpoint fmt_o (x : Z) (d acc : list Z) (room : nat) : res (list Z) :=
  match room with
  | O => Halt Fault
  | S room' => let! c := rd d (Z.land x 7) in let x := Z.shiftr x 3 in if 0 <? x then fmt_o x d (c :: acc) room' else Ret (c :: acc)
  end.

Fixpoint fmt_x (x : Z) (d acc : list Z) (room : nat) : res (list Z) :=
  match room with
  | O => Halt Fault
  | S room' => let! c := rd d (Z.land x 15) in let x := Z.shiftr x 4 in if 0 <? x then fmt_x x d (c :: acc) room' else Ret (c :: acc)
  end.

Definition NUM_BUF : nat := 32.

(** ** Output *)

Definition out (c : fmt_ctx) (l : list Z) : res fmt_ctx :=
  let len := Z.of_nat (length l) in
  if len =? 0 then Ret c
  else
    let n := u64 (size c - pos c) in
    let! c := (if 0 <? n then
                 let n := if len <? n then len else n in
                 let! b := wr_slice (buf c) (pos c) (take (Z.to_nat n) l) in
                 Ret (mk_ctx b (size c) (u64 (pos c + n)) (cnt c))
               else Ret c) in
    Ret (mk_ctx (buf c) (size c) (pos c) (u64 (cnt c + len))).

(** [for (i = 0; i < pad_len; i += 32)] with [n] chunks left at most. *)
Fixpoint pad_loop (c : fmt_ctx) (i pad_len ch : Z) (fuel : nat) : res fmt_ctx :=
  if i <? pad_len then
    match fuel with
    | O => Halt Fuel
    | S fuel' =>
        let n := pad_len - i in
        let n := if 32 <? n then 32 else n in
        let! c := out c (replicate (Z.to_nat n) ch) in
        pad_loop c (i + 32) pad_len ch fuel'
    end
  else Ret c.

Definition pad (c : fmt_ctx) (pad_len ch : Z) : res fmt_ctx := pad_loop c 0 pad_len ch (S (Z.to_nat (pad_len / 32))).

Definition fmt_terminate (c : fmt_ctx) : res fmt_ctx :=
  if size c =? 0 then Ret c
  else
    let null_pos := if pos c <? size c then pos c else size c - 1 in
    let! b := wr (buf c) null_pos 0 in
    Ret (mk_ctx b (size c) (pos c) (cnt c)).

(** ** Reading a directive *)

Definition peek (s : list Z) : Z := match s with [] => 0 | c :: _ => c end.
Definition is_digit (c : Z) : bool := (48 <=? c) && (c <=? 57).

Fixpoint parse_flags (s : list Z) (flags : Z) : Z * list Z :=
  match s with
  | [] => (flags, s)
  | c :: s' =>
      if c =? ch_space then parse_flags s' (Z.lor flags FMT_F_PAD_POS)
      else if c =? ch_plus then parse_flags s' (Z.lor flags FMT_F_MARK_POS)
      else if c =? ch_minus then parse_flags s' (Z.lor flags FMT_F_LEFT_ALIGN)
      else if c =? ch_zero then parse_flags s' (Z.lor flags FMT_F_ZERO_PAD)
      else if c =? ch_hash then parse_flags s' (Z.lor flags FMT_F_ALT_FORM)
      else (flags, s)
  end.

(** The loop over digits: the number and the rest, or [None] on overflow. *)
Fixpoint parse_number (s : list Z) (n : Z) : option (Z * list Z) :=
  match s with
  | [] => Some (n, s)
  | c :: s' =>
      if is_digit c then
        let digit := c - 48 in
        if (INT_MAX - digit) / 10 <? n then None else parse_number s' (n * 10 + digit)
      else Some (n, s)
  end.

(** The next argument slot; there is no telling what lies behind the last. *)
Definition va_arg (ap : list Z) : res (Z * list Z) := match ap with [] => Halt Fault | a :: ap' => Ret (a, ap') end.

Record spec : Set := mk_spec { flags : Z; width : Z; has_width : bool; prec : Z; has_prec : bool }.

(** Width: the new flags, the width if any, the rest of the format and of the
    arguments; [None] is -EOVERFLOW. *)
Definition parse_width (s ap : list Z) (fl : Z) : res (option (Z * Z * bool * list Z * list Z)) :=
  if peek s =? ch_star then
    let s := tl s in
    let! x := va_arg ap in
    let (a, ap) := x in
    let w := s32 a in
    let fl' := if w <? 0 then Z.lor fl FMT_F_LEFT_ALIGN else fl in
    let width := if w <? 0 then - w else w in
    if INT_MAX <? width then Ret None else Ret (Some (fl', width, true, s, ap))
  else if is_digit (peek s) then
    match parse_number (tl s) (peek s - 48) with
    | None => Ret None
    | Some (w, s) => Ret (Some (fl, w, true, s, ap))
    end
  else Ret (Some (fl, 0, false, s, ap)).

Definition parse_prec (s ap : list Z) : res (option (Z * bool * list Z * list Z)) :=
  if peek s =? ch_dot then
    let s := tl s in
    if peek s =? ch_star then
      let s := tl s in
      let! x := va_arg ap in
      let (a, ap) := x in
      let p := s32 a in
      let '(prec, has_prec) := (if 0 <=? p then (p, true) else (0, false)) in
      if INT_MAX <? prec then Ret None else Ret (Some (prec, has_prec, s, ap))
    else
      match parse_number s 0 with
      | None => Ret None
      | Some (p, s) => Ret (Some (p, true, s, ap))
      end
  else Ret (Some (0, false, s, ap)).

(** The conversion: its state and last character, or [None] for -EINVAL. *)
Fixpoint parse_conv (st : fmt_state) (s : list Z) (pch : Z) : option (fmt_state * Z * list Z) :=
  if in_prefix st then
    match s with
    | [] => None
    | c :: s' => match transition st c with FMT_S_INVALID => None | next => parse_conv next s' c end
    end
  else Some (st, pch, s).

(** ** Arguments *)

(** [arg.neg] and [arg.ui]. *)
Definition check_neg (si : Z) : bool * Z := if si <? 0 then (true, u64 (- si)) else (false, si).

Definition take_arg (st : fmt_state) (a : Z) : bool * Z :=
  match st with
  | FMT_S_CHAR => check_neg (swrap 8 a)
  | FMT_S_SHORT => check_neg (swrap 16 a)
  | FMT_S_INT => check_neg (s32 a)
  | FMT_S_LONG | FMT_S_LLONG | FMT_S_SSIZE_T => check_neg (s64 a)
  | FMT_S_UCHAR => (false, u8 a)
  | FMT_S_USHORT => (false, wrap 16 a)
  | FMT_S_UINT => (false, u32 a)
  | _ => (false, u64 a)
  end.

(** ** One directive *)

(** The pieces of a number: blanks, sign, radix, zeros, digits, blanks. *)
Record layout : Set := mk_layout { lspace_pad : Z; sign : list Z; radix : list Z; lzero_pad : Z; raw : list Z; rspace_pad : Z }.

(** [raw], [radix], and the flags and precision that are left, for a numeric
    conversion. *)
Definition number_parts (d : spec) (pch ui : Z) : res (list Z * list Z * Z * Z) :=
  let none := (ui =? 0) && has_prec d && (prec d =? 0) in
  let alt := has (flags d) FMT_F_ALT_FORM in
  if (pch =? ch_i) || (pch =? ch_d) || (pch =? ch_u) then
    let! r := (if none then Ret [] else fmt_u ui digits_lower [] NUM_BUF) in
    Ret (r, [], Z.land (flags d) (Z.lnot FMT_F_ALT_FORM), prec d)
  else if pch =? ch_o then
    if none then Ret ([], if alt then [48] else [], flags d, prec d)
    else
      let! r := fmt_o ui digits_lower [] NUM_BUF in
      if alt && negb (ui =? 0) then Ret (r, [48], flags d, if 0 <? prec d then prec d - 1 else prec d) else Ret (r, [], flags d, prec d)
  else if pch =? ch_x then
    let! r := (if none then Ret [] else fmt_x ui digits_lower [] NUM_BUF) in
    Ret (r, if alt && negb (ui =? 0) then [48; 120] else [], flags d, prec d)
  else if pch =? ch_X then
    let! r := (if none then Ret [] else fmt_x ui digits_upper [] NUM_BUF) in
    Ret (r, if alt && negb (ui =? 0) then [48; 88] else [], flags d, prec d)
  else
    let! r := (if none then Ret [] else fmt_x ui digits_lower [] NUM_BUF) in
    Ret (r, [48; 120], FMT_F_ALT_FORM, prec d).

Definition number_layout (d : spec) (pch : Z) (neg : bool) (ui : Z) : res layout :=
  let! x := number_parts d pch ui in
  let '(raw, radix, fl, prec) := x in
  let raw_len := Z.of_nat (length raw) in
  let fl := if has_prec d || has fl FMT_F_LEFT_ALIGN then Z.land fl (Z.lnot FMT_F_ZERO_PAD) else fl in
  let lzero := if has_prec d && (raw_len <? prec) then prec - raw_len else 0 in
  let sign := if neg then [45] else if has fl FMT_F_MARK_POS then [43] else if has fl FMT_F_PAD_POS then [32] else [] in
  let total_len := Z.of_nat (length sign) + Z.of_nat (length radix) + lzero + raw_len in
  if has_width d && (total_len <? width d) then
    let pad_extra := width d - total_len in
    if has fl FMT_F_LEFT_ALIGN then Ret (mk_layout 0 sign radix lzero raw pad_extra)
    else if has fl FMT_F_ZERO_PAD then Ret (mk_layout 0 sign radix pad_extra raw 0)
    else Ret (mk_layout pad_extra sign radix lzero raw 0)
  else Ret (mk_layout 0 sign radix lzero raw 0).

Definition put_layout (c : fmt_ctx) (l : layout) : res fmt_ctx :=
  let! c := pad c (lspace_pad l) ch_space in
  let! c := out c (sign l) in
  let! c := out c (radix l) in
  let! c := pad c (lzero_pad l) 48 in
  let! c := out c (raw l) in
  pad c (rspace_pad l) ch_space.

(** A string or a character in a field. *)
Definition put_field (c : fmt_ctx) (d : spec) (l : list Z) : res fmt_ctx :=
  let len := Z.of_nat (length l) in
  let room := has_width d && (len <? width d) in
  let left := has (flags d) FMT_F_LEFT_ALIGN in
  let! c := (if room && negb left then pad c (width d - len) ch_space else Ret c) in
  let! c := out c l in
  if room && left then pad c (width d - len) ch_space else Ret c.

(** The bytes of an object up to its terminator. *)
Fixpoint c_string (l : list Z) : res (list Z) :=
  match l with [] => Halt Fault | c :: l' => if c =? 0 then Ret [] else let! r := c_string l' in Ret (c :: r) end.

Section printf.
Context (mem : Z -> list Z).

Definition convert (c : fmt_ctx) (d : spec) (st : fmt_state) (pch a : Z) : res fmt_ctx :=
  let '(neg, ui) := take_arg st a in
  if pch =? ch_s then
    let! str := (if ui =? 0 then Ret [40; 110; 117; 108; 108; 41] else c_string (mem ui)) in
    put_field c d (if has_prec d && (prec d <? Z.of_nat (length str)) then take (Z.to_nat (prec d)) str else str)
  else if pch =? ch_c then put_field c d [u8 ui]
  else if (pch =? ch_p) && (ui =? 0) then out c [40; 110; 105; 108; 41]
  else
    let! l := number_layout d pch neg ui in
    put_layout c l.

(** The loop over the format: 0 or the error. *)
Fixpoint fmt_loop (c : fmt_ctx) (s ap : list Z) (fuel : nat) : res (fmt_ctx * Z) :=
  match s with
  | [] => Ret (c, 0)
  | ch :: s' =>
      match fuel with
      | O => Halt Fuel
      | S fuel' =>
          if negb (ch =? ch_pct) then let! c := out c [ch] in fmt_loop c s' ap fuel'
          else
            let (fl, s) := parse_flags s' 0 in
            let! w := parse_width s ap fl in
            match w with
            | None => Ret (c, - EOVERFLOW)
            | Some (fl, width, has_width, s, ap) =>
                let! p := parse_prec s ap in
                match p with
                | None => Ret (c, - EOVERFLOW)
                | Some (prec, has_prec, s, ap) =>
                    if peek s =? ch_pct then let! c := out c [ch_pct] in fmt_loop c (tl s) ap fuel'
                    else
                      match parse_conv FMT_S_START s 0 with
                      | None => Ret (c, - EINVAL)
                      | Some (st, pch, s) =>
                          let! x := va_arg ap in
                          let (a, ap) := x in
                          let! c := convert c (mk_spec fl width has_width prec has_prec) st pch a in
                          fmt_loop c s ap fuel'
                      end
                end
            end
      end
  end.

Definition vsnprintf_internal (c : fmt_ctx) (fmt ap : list Z) : res (fmt_ctx * Z) :=
  let! r := fmt_loop c fmt ap (length fmt) in
  let (c, err) := r in
  let! c := fmt_terminate c in
  Ret (c, if negb (err =? 0) then err else if INT_MAX <? cnt c then - EOVERFLOW else cnt c).

Definition vsnprintf (b : list Z) (sz : Z) (fmt ap : list Z) : res (list Z * Z) :=
  let! r := vsnprintf_internal (mk_ctx b sz 0 0) fmt ap in
  let (c, v) := r in Ret (buf c, v).

(** The variadic form only collects its arguments. *)
Definition snprintf (b : list Z) (sz : Z) (fmt ap : list Z) : res (list Z * Z) := vsnprintf b sz fmt ap.

End printf.

(** ** The text of a format, whatever the room for it *)

Definition text_layout (l : layout) : list Z :=
  replicate (Z.to_nat (lspace_pad l)) ch_space ++ sign l ++ radix l ++ replicate (Z.to_nat (lzero_pad l)) 48 ++ raw l ++ replicate (Z.to_nat (rspace_pad l)) ch_space.

Definition text_field (d : spec) (l : list Z) : list Z :=
  let blanks := replicate (Z.to_nat (if has_width d then width d - Z.of_nat (length l) else 0)) ch_space in
  if has (flags d) FMT_F_LEFT_ALIGN then l ++ blanks else blanks ++ l.

Section text.
Context (mem : Z -> list Z).

Definition text_convert (d : spec) (st : fmt_state) (pch a : Z) : res (list Z) :=
  let '(neg, ui) := take_arg st a in
  if pch =? ch_s then
    let! str := (if ui =? 0 then Ret [40; 110; 117; 108; 108; 41] else c_string (mem ui)) in
    Ret (text_field d (if has_prec d && (prec d <? Z.of_nat (length str)) then take (Z.to_nat (prec d)) str else str))
  else if pch =? ch_c then Ret (text_field d [u8 ui])
  else if (pch =? ch_p) && (ui =? 0) then Ret [40; 110; 105; 108; 41]
  else let! l := number_layout d pch neg ui in Ret (text_layout l).

(** The text and 0, or the text before a directive in error, and the error. *)
Fixpoint text_loop (s ap : list Z) (fuel : nat) : res (list Z * Z) :=
  match s with
  | [] => Ret ([], 0)
  | ch :: s' =>
      match fuel with
      | O => Halt Fuel
      | S fuel' =>
          let more (t : list Z) (s ap : list Z) : res (list Z * Z) := (let! r := text_loop s ap fuel' in let (u, e) := r in Ret (t ++ u, e)) in
          if negb (ch =? ch_pct) then more [ch] s' ap
          else
            let (fl, s) := parse_flags s' 0 in
            let! w := parse_width s ap fl in
            match w with
            | None => Ret ([], - EOVERFLOW)
            | Some (fl, width, has_width, s, ap) =>
                let! p := parse_prec s ap in
                match p with
                | None => Ret ([], - EOVERFLOW)
                | Some (prec, has_prec, s, ap) =>
                    if peek s =? ch_pct then more [ch_pct] (tl s) ap
                    else
                      match parse_conv FMT_S_START s 0 with
                      | None => Ret ([], - EINVAL)
                      | Some (st, pch, s) =>
                          let! x := va_arg ap in
                          let (a, ap) := x in
                          let! t := text_convert (mk_spec fl width has_width prec has_prec) st pch a in
                          more t s ap
                      end
                end
            end
      end
  end.

Definition text (fmt ap : list Z) : res (list Z * Z) := text_loop fmt ap (length fmt).

End text.

(** ** Output into a buffer *)

(** [c] has been given the text [t], into a buffer that held [b0]. *)
Record rep (b0 : list Z) (sz : Z) (c : fmt_ctx) (t : list Z) : Prop := {
  rp_size : size c = sz;
  rp_room : 0 <= sz <= Z.of_nat (length b0);
  rp_wide : sz < 2 ^ 64;
  rp_cnt : cnt c = Z.of_nat (length t);
  rp_pos : pos c = Z.min (Z.of_nat (length t)) sz;
  rp_buf : buf c = take (Z.to_nat (pos c)) t ++ drop (Z.to_nat (pos c)) b0
}.

Lemma out_rep b0 sz c t l : rep b0 sz c t -> Z.of_nat (length (t ++ l)) < 2 ^ 64 -> exists c', out c l = Ret c' /\ rep b0 sz c' (t ++ l).
Proof.
  intros [E1 E2 E2' E3 E4 E5] Hw. rewrite length_app in Hw. unfold out. destruct (Z.eqb_spec (Z.of_nat (length l)) 0) as [Hz | Hnz].
  { destruct l; [| cbn [length] in Hz; lia]. exists c. rewrite app_nil_r. split; [done | by constructor]. }
  rewrite u64_small by lia. destruct (Z.ltb_spec 0 (size c - pos c)) as [Hroom | Hfull].
  - set (n := if Z.of_nat (length l) <? size c - pos c then Z.of_nat (length l) else size c - pos c).
    assert (Hn : n = Z.min (Z.of_nat (length l)) (size c - pos c)) by (unfold n; destruct (Z.ltb_spec (Z.of_nat (length l)) (size c - pos c)); lia).
    assert (Hp : pos c = Z.of_nat (length t)) by lia. assert (Hlt : length (take (Z.to_nat n) l) = Z.to_nat n) by (rewrite length_take; lia).
    assert (Hbl : length (buf c) = length b0) by (rewrite E5, length_app, length_take, length_drop; lia).
    unfold wr_slice. rewrite decide_True by (rewrite Hlt, Hbl; lia). cbn [buf pos cnt size]. rewrite (u64_small (pos c + n)), (u64_small (cnt c + Z.of_nat (length l))) by lia. eexists. split; [done |].
    assert (Hb' : take (Z.to_nat (pos c)) (buf c) ++ take (Z.to_nat n) l ++ drop (Z.to_nat (pos c) + length (take (Z.to_nat n) l)) (buf c) = take (Z.to_nat (pos c + n)) (t ++ l) ++ drop (Z.to_nat (pos c + n)) b0).
    { rewrite Hlt, E5. replace (Z.to_nat (pos c)) with (length t) by lia. rewrite firstn_all. rewrite take_app_length.
      replace (Z.to_nat (pos c + n)) with (length t + Z.to_nat n)%nat by lia. rewrite firstn_app_2, <- app_assoc. do 2 f_equal. rewrite (drop_app_ge t) by lia. rewrite drop_drop. f_equal. lia. }
    constructor; cbn [size cnt pos buf]; try done; rewrite ?length_app; lia.
  - rewrite u64_small by lia. eexists. split; [done |]. constructor; cbn [size cnt pos buf]; try done; rewrite ?length_app; try lia. rewrite E5. f_equal. rewrite take_app_le by lia. done.
Qed.

Lemma pad_rep b0 sz ch n (fuel : nat) : forall c t i, rep b0 sz c t -> 0 <= i -> n - i <= 32 * Z.of_nat fuel -> Z.of_nat (length t) + (n - i) < 2 ^ 64 -> Z.of_nat (length t) < 2 ^ 64 ->
  exists c', pad_loop c i n ch fuel = Ret c' /\ rep b0 sz c' (t ++ replicate (Z.to_nat (n - i)) ch).
Proof.
  induction fuel as [| fuel IH]; intros c t i Hr Hi Hf Hw Hw'; cbn [pad_loop]; destruct (Z.ltb_spec i n) as [Hlt | Hge]; try lia.
  1, 3: exists c; split; [done |]; replace (Z.to_nat (n - i)) with 0%nat by lia; by rewrite app_nil_r.
  set (m := if 32 <? n - i then 32 else n - i). assert (Hm : m = Z.min 32 (n - i)) by (unfold m; destruct (Z.ltb_spec 32 (n - i)); lia).
  destruct (out_rep b0 sz c t (replicate (Z.to_nat m) ch) Hr) as (c1 & -> & Hr1); [rewrite length_app, length_replicate; lia |].
  destruct (Z.lt_ge_cases (n - i) 32) as [Hs | Hb].
  - exists c1. assert (pad_loop c1 (i + 32) n ch fuel = Ret c1) as -> by (destruct fuel; cbn [pad_loop]; destruct (Z.ltb_spec (i + 32) n); (done || lia)).
    split; [done |]. by replace (n - i) with m by lia.
  - destruct (IH c1 (t ++ replicate (Z.to_nat m) ch) (i + 32) Hr1) as (c' & -> & Hr'); [lia | lia | rewrite length_app, length_replicate; lia | rewrite length_app, length_replicate; lia |].
    exists c'. split; [done |]. rewrite <- app_assoc, <- replicate_add in Hr'. by replace (Z.to_nat (n - i)) with (Z.to_nat m + Z.to_nat (n - (i + 32)))%nat by lia.
Qed.

Lemma pad_spec b0 sz c t n ch : rep b0 sz c t -> Z.of_nat (length (t ++ replicate (Z.to_nat n) ch)) < 2 ^ 64 ->
  exists c', pad c n ch = Ret c' /\ rep b0 sz c' (t ++ replicate (Z.to_nat n) ch).
Proof.
  intros Hr Hw. rewrite length_app, length_replicate in Hw. unfold pad. destruct (Z.le_gt_cases n 0) as [Hn | Hn].
  - exists c. replace (Z.to_nat n) with 0%nat by lia. rewrite app_nil_r. split; [| done]. cbn [pad_loop]. destruct (Z.ltb_spec 0 n); (done || lia).
  - destruct (pad_rep b0 sz ch n (S (Z.to_nat (n / 32))) c t 0 Hr) as (c' & -> & Hr'); [lia | | lia | lia |].
    + pose proof (Z.div_mod n 32). pose proof (Z.mod_pos_bound n 32). pose proof (Z.div_pos n 32). lia.
    + exists c'. by rewrite Z.sub_0_r in Hr'.
Qed.

(** [c] goes on to hold [u] as well. *)
Definition emits (b0 : list Z) (sz : Z) (t u : list Z) (r : res fmt_ctx) : Prop :=
  Z.of_nat (length (t ++ u)) < 2 ^ 64 -> exists c', r = Ret c' /\ rep b0 sz c' (t ++ u).

Lemma emits_bind b0 sz t u v r k : emits b0 sz t u r -> (forall c', rep b0 sz c' (t ++ u) -> emits b0 sz (t ++ u) v (k c')) ->
  emits b0 sz t (u ++ v) (let! c := r in k c).
Proof.
  intros H1 H2 Hw. destruct H1 as (c1 & -> & Hr1); [rewrite !length_app in *; lia |]. destruct (H2 c1 Hr1) as (c2 & -> & Hr2); [by rewrite <- app_assoc |].
  exists c2. by rewrite <- app_assoc in Hr2.
Qed.

Lemma emits_out b0 sz c t l : rep b0 sz c t -> emits b0 sz t l (out c l).
Proof. intros Hr Hw. by apply out_rep. Qed.

Lemma emits_pad b0 sz c t n ch : rep b0 sz c t -> emits b0 sz t (replicate (Z.to_nat n) ch) (pad c n ch).
Proof. intros Hr Hw. by apply pad_spec. Qed.

Lemma emits_nil b0 sz c t : rep b0 sz c t -> emits b0 sz t [] (Ret c).
Proof. intros Hr _. exists c. by rewrite app_nil_r. Qed.

Lemma put_layout_emits b0 sz c t l : rep b0 sz c t -> emits b0 sz t (text_layout l) (put_layout c l).
Proof.
  intros Hr. unfold put_layout, text_layout. apply emits_bind; [by apply emits_pad | intros c1 H1]. apply emits_bind; [by apply emits_out | intros c2 H2]. apply emits_bind; [by apply emits_out | intros c3 H3].
  apply emits_bind; [by apply emits_pad | intros c4 H4]. apply emits_bind; [by apply emits_out | intros c5 H5]. by apply emits_pad.
Qed.

Lemma put_field_emits b0 sz c t d l : rep b0 sz c t -> emits b0 sz t (text_field d l) (put_field c d l).
Proof.
  intros Hr. unfold put_field, text_field. set (n := if has_width d then width d - Z.of_nat (length l) else 0).
  assert (Hroom : has_width d && (Z.of_nat (length l) <? width d) = (0 <? n)).
  { unfold n. destruct (has_width d); cbn [andb]; [| done]. destruct (Z.ltb_spec (Z.of_nat (length l)) (width d)), (Z.ltb_spec 0 (width d - Z.of_nat (length l))); (done || lia). }
  rewrite Hroom. assert (Hn : 0 < n -> width d - Z.of_nat (length l) = n) by (unfold n; destruct (has_width d); lia).
  destruct (has (flags d) FMT_F_LEFT_ALIGN); cbn [negb]; rewrite ?andb_true_r, ?andb_false_r.
  - apply emits_bind; [by apply emits_out |]. intros c2 H2.
    destruct (Z.ltb_spec 0 n); [rewrite Hn by done; by apply emits_pad | replace (Z.to_nat n) with 0%nat by lia; by apply emits_nil].
  - replace (replicate (Z.to_nat n) ch_space ++ l) with (replicate (Z.to_nat n) ch_space ++ l ++ []) by (by rewrite app_nil_r). apply emits_bind; [destruct (Z.ltb_spec 0 n); [rewrite Hn by done; by apply emits_pad | replace (Z.to_nat n) with 0%nat by lia; by apply emits_nil] |].
    intros c1 H1. apply emits_bind; [by apply emits_out |]. intros c2 H2. by apply emits_nil.
Qed.

Section truncation.
Context (mem : Z -> list Z) (b0 : list Z) (sz : Z).

Lemma convert_emits c t d st pch a : rep b0 sz c t ->
  match text_convert mem d st pch a with Halt h => convert mem c d st pch a = Halt h | Ret u => emits b0 sz t u (convert mem c d st pch a) end.
Proof.
  intros Hr. unfold text_convert, convert. destruct (take_arg st a) as [neg ui]. destruct (pch =? ch_s).
  - destruct (if ui =? 0 then _ else _) as [str | h]; [by apply put_field_emits | done].
  - destruct (pch =? ch_c); [by apply put_field_emits |]. destruct (_ && _); [by apply emits_out |]. destruct (number_layout d pch neg ui) as [l | h]; [by apply put_layout_emits | done].
Qed.

(** Appending [u] and going on. *)
Lemma emits_more t u v e r k : emits b0 sz t u r ->
  (forall c', rep b0 sz c' (t ++ u) -> Z.of_nat (length ((t ++ u) ++ v)) < 2 ^ 64 -> exists c2, k c' = Ret (c2, e) /\ rep b0 sz c2 ((t ++ u) ++ v)) ->
  Z.of_nat (length (t ++ u ++ v)) < 2 ^ 64 -> exists c2, (let! c := r in k c) = Ret (c2, e : Z) /\ rep b0 sz c2 (t ++ u ++ v).
Proof.
  intros H1 H2 Hw. destruct H1 as (c1 & -> & Hr1); [rewrite !length_app in *; lia |]. rewrite app_assoc in *. by apply H2.
Qed.

Lemma loop_emits (fuel : nat) : forall c t s ap u e, rep b0 sz c t -> text_loop mem s ap fuel = Ret (u, e) -> Z.of_nat (length (t ++ u)) < 2 ^ 64 ->
  exists c', fmt_loop mem c s ap fuel = Ret (c', e) /\ rep b0 sz c' (t ++ u).
Proof.
  induction fuel as [| fuel IH]; intros c t s ap u e Hr Ht Hw; (destruct s as [| ch s]; [injection Ht as <- <-; exists c; by rewrite app_nil_r |]); [done |]. cbn [text_loop fmt_loop] in *.
  assert (Hmore : forall v s ap u e, (let! r := text_loop mem s ap fuel in let (u, e) := r in Ret (v ++ u, e)) = Ret (u, e) ->
    exists u', u = v ++ u' /\ forall c' t', rep b0 sz c' t' -> Z.of_nat (length (t' ++ u')) < 2 ^ 64 -> exists c2, fmt_loop mem c' s ap fuel = Ret (c2, e) /\ rep b0 sz c2 (t' ++ u')).
  { clear -IH. intros v s ap u e E. destruct (text_loop mem s ap fuel) as [[u' e'] | h] eqn:Et; [| done]. injection E as <- <-. exists u'. split; [done |]. intros c' t' Hr Hw. by apply (IH c' t' s ap). }
  assert (Hput : forall v s0 ap0 c0 r, emits b0 sz t v r -> (let! r := text_loop mem s0 ap0 fuel in let (u, e) := r in Ret (v ++ u, e)) = Ret (u, e) -> c0 = c ->
    exists c', (let! c := r in fmt_loop mem c s0 ap0 fuel) = Ret (c', e) /\ rep b0 sz c' (t ++ u)).
  { intros v s0 ap0 c0 r Hem E _. destruct (Hmore v s0 ap0 u e E) as (u' & -> & Hk). apply emits_more; [done | | done]. intros c' Hr' Hw'. by apply Hk. }
  destruct (ch =? ch_pct); cbn [negb] in *; [| apply (Hput [ch] s ap c); [by apply emits_out | exact Ht | done]].
  destruct (parse_flags s 0) as [fl s1]. destruct (parse_width s1 ap fl) as [[[[[[fl' w] hw] s2] ap2] |] | h]; [| injection Ht as <- <-; exists c; by rewrite app_nil_r | done].
  destruct (parse_prec s2 ap2) as [[[[[p hp] s3] ap3] |] | h]; [| injection Ht as <- <-; exists c; by rewrite app_nil_r | done].
  destruct (peek s3 =? ch_pct); [apply (Hput [ch_pct] (tl s3) ap3 c); [by apply emits_out | exact Ht | done] |].
  destruct (parse_conv FMT_S_START s3 0) as [[[st pch] s4] |]; [| injection Ht as <- <-; exists c; by rewrite app_nil_r].
  destruct (va_arg ap3) as [[a ap4] | h]; [| done]. pose proof (convert_emits c t (mk_spec fl' w hw p hp) st pch a Hr) as Hc.
  destruct (text_convert mem (mk_spec fl' w hw p hp) st pch a) as [v | h]; [| done]. by apply (Hput v s4 ap4 c).
Qed.

Lemma terminate_rep c t : rep b0 sz c t -> exists c', fmt_terminate c = Ret c' /\ cnt c' = cnt c /\
  buf c' = if sz =? 0 then b0 else take (Z.to_nat (sz - 1)) t ++ 0 :: drop (S (Nat.min (length t) (Z.to_nat (sz - 1)))) b0.
Proof.
  intros [E1 E2 E2' E3 E4 E5]. unfold fmt_terminate. rewrite E1. destruct (Z.eqb_spec sz 0) as [-> | Hnz].
  { exists c. split_and!; try done. rewrite E5, E4. replace (Z.to_nat _) with 0%nat by lia. done. }
  set (np := if pos c <? sz then pos c else sz - 1). assert (Hnp : np = Z.min (Z.of_nat (length t)) (sz - 1)) by (unfold np; destruct (Z.ltb_spec (pos c) sz); lia).
  assert (Hbl : length (buf c) = length b0) by (rewrite E5, length_app, length_take, length_drop; lia). rewrite wr_in_range by lia. eexists. split; [done |]. split; [done |]. cbn [buf].
  rewrite E5. apply list_eq. intros i. set (n := Nat.min (length t) (Z.to_nat (sz - 1))). assert (En : Z.to_nat np = n) by lia. rewrite En.
  assert (Hlt : length (take (Z.to_nat (sz - 1)) t) = n) by (rewrite length_take; lia).
  destruct (decide (i = n)) as [-> | Hne].
  - rewrite list_lookup_insert_eq by (rewrite length_app, length_take, length_drop; lia). rewrite lookup_app_r, Hlt, Nat.sub_diag by lia. done.
  - rewrite list_lookup_insert_ne by lia. destruct (Nat.lt_ge_cases i n) as [Hi | Hi].
    + rewrite !lookup_app_l by (rewrite length_take; lia). rewrite !lookup_take_lt by lia. done.
    + rewrite (lookup_app_r (take (Z.to_nat (sz - 1)) t)), Hlt by lia. replace (i - n)%nat with (S (i - S n)) by lia. change ((0 :: drop (S n) b0) !! S (i - S n)) with (drop (S n) b0 !! (i - S n)%nat). rewrite lookup_drop.
      destruct (Nat.lt_ge_cases i (length (take (Z.to_nat (pos c)) t))) as [Hp | Hp]; [rewrite length_take in Hp; lia |]. rewrite lookup_app_r, lookup_drop by done. rewrite length_take in *. f_equal. lia.
Qed.

End truncation.

(** ** Properties *)

Lemma vsnprintf_spec mem b sz fmt ap t e : text mem fmt ap = Ret (t, e) -> 0 <= sz <= Z.of_nat (length b) -> sz < 2 ^ 64 -> Z.of_nat (length t) < 2 ^ 64 ->
  vsnprintf mem b sz fmt ap =
    Ret (if sz =? 0 then b else take (Z.to_nat (sz - 1)) t ++ 0 :: drop (S (Nat.min (length t) (Z.to_nat (sz - 1)))) b,
         if negb (e =? 0) then e else if INT_MAX <? Z.of_nat (length t) then - EOVERFLOW else Z.of_nat (length t)).
Proof.
  intros Ht Hsz Hw Hlen. unfold vsnprintf, vsnprintf_internal. assert (Hr : rep b sz (mk_ctx b sz 0 0) []) by (constructor; cbn; try done; lia).
  destruct (loop_emits mem b sz (length fmt) _ [] fmt ap t e Hr Ht Hlen) as (c & -> & Hr'). cbn [app] in Hr'. destruct (terminate_rep b sz c t Hr') as (c' & -> & Hc & ->). by rewrite Hc, (rp_cnt _ _ _ _ Hr').
Qed.

(** C22: [vsnprintf] writes the text of the format as far as there is room, with a
    terminator after it inside the buffer, leaves the rest of the buffer alone,
    and returns the length of the whole text however small the buffer is, so that
    a call with size 0 tells how much room is needed; it returns -EOVERFLOW for
    more than INT_MAX bytes and -EINVAL or -EOVERFLOW for a bad directive, with
    the text before it in the buffer. *)
Theorem vsnprintf_correct mem b sz fmt ap t e : text mem fmt ap = Ret (t, e) -> 0 <= sz <= Z.of_nat (length b) -> sz < 2 ^ 64 -> Z.of_nat (length t) < 2 ^ 64 ->
  vsnprintf mem b sz fmt ap =
    Ret (if sz =? 0 then b else take (Z.to_nat (sz - 1)) t ++ 0 :: drop (S (Nat.min (length t) (Z.to_nat (sz - 1)))) b,
         if negb (e =? 0) then e else if INT_MAX <? Z.of_nat (length t) then - EOVERFLOW else Z.of_nat (length t)).
Proof. apply vsnprintf_spec. Qed.

(** The digits of a number in base [b], and the number that digits denote. *)
Fixpoint fmt_base (b x : Z) (d acc : list Z) (room : nat) : res (list Z) :=
  match room with
  | O => Halt Fault
  | S room' => let! c := rd d (x mod b) in let x := x / b in if 0 <? x then fmt_base b x d (c :: acc) room' else Ret (c :: acc)
  end.

Definition digit_value (c : Z) : Z := if c <? 58 then c - 48 else if c <? 97 then c - 55 else c - 87.
Definition value (b : Z) (l : list Z) : Z := fold_left (fun a c => a * b + digit_value c) l 0.
Definition read_number (b : Z) (t : list Z) : Z := match t with 45 :: l => - value b l | _ => value b t end.

Lemma fmt_o_base (n : nat) : forall x d acc, fmt_o x d acc n = fmt_base 8 x d acc n.
Proof. induction n as [| n IH]; intros x d acc; cbn [fmt_o fmt_base]; [done |]. change 7 with (Z.ones 3). rewrite Z.land_ones, Z.shiftr_div_pow2 by lia. change (2 ^ 3) with 8. by destruct (rd _ _); [rewrite IH |]. Qed.

Lemma fmt_x_base (n : nat) : forall x d acc, fmt_x x d acc n = fmt_base 16 x d acc n.
Proof. induction n as [| n IH]; intros x d acc; cbn [fmt_x fmt_base]; [done |]. change 15 with (Z.ones 4). rewrite Z.land_ones, Z.shiftr_div_pow2 by lia. change (2 ^ 4) with 16. by destruct (rd _ _); [rewrite IH |]. Qed.

Lemma fmt_u_base (n : nat) : forall x d acc, fmt_u x d acc n = fmt_base 10 x d acc n.
Proof. induction n as [| n IH]; intros x d acc; cbn [fmt_u fmt_base]; [done |]. by destruct (rd _ _); [rewrite IH |]. Qed.

(** A table of digits for base [b]. *)
Definition digit_table (b : Z) (d : list Z) : Prop := forall i, 0 <= i < b -> exists c, rd d i = Ret c /\ digit_value c = i /\ 48 <= c.

Lemma table_ok b d : b <= 16 -> forallb (fun i => match rd d i with Ret c => (digit_value c =? i) && (48 <=? c) | Halt _ => false end) (map Z.of_nat (seq 0 16)) = true -> digit_table b d.
Proof.
  intros Hb Hall i Hi. rewrite forallb_forall in Hall. specialize (Hall i). assert (Hin : In i (map Z.of_nat (seq 0 16))) by (apply in_map_iff; exists (Z.to_nat i); split; [lia | apply in_seq; lia]).
  specialize (Hall Hin). destruct (rd d i) as [c | h]; [| done]. apply andb_true_iff in Hall as [H1 H2]. exists c. split_and!; [done | lia | lia].
Qed.

Lemma table_lower b : b <= 16 -> digit_table b digits_lower.
Proof. intros Hb. by apply table_ok. Qed.

Lemma table_upper b : b <= 16 -> digit_table b digits_upper.
Proof. intros Hb. by apply table_ok. Qed.

Lemma fmt_base_spec b d (n : nat) : 1 < b -> digit_table b d -> forall x acc, 0 <= x < b ^ Z.of_nat n -> (0 < n)%nat ->
  exists l, fmt_base b x d acc n = Ret (l ++ acc) /\ value b l = x /\ Forall (fun c => 48 <= c) l /\ l <> [] /\ (length l <= n)%nat.
Proof.
  intros Hb Hd. induction n as [| n IH]; intros x acc Hx Hn; [lia |]. cbn [fmt_base]. destruct (Hd (x mod b)) as (c & -> & Hc & Hp); [by apply Z.mod_pos_bound; lia |].
  pose proof (Z.div_mod x b ltac:(lia)) as Hdm. destruct (Z.ltb_spec 0 (x / b)) as [Hq | Hq].
  - rewrite Nat2Z.inj_succ, Z.pow_succ_r in Hx by lia. assert (Hqb : 0 <= x / b < b ^ Z.of_nat n) by (split; [lia | apply Z.div_lt_upper_bound; lia]).
    destruct n as [| n]; [change (b ^ Z.of_nat 0) with 1 in Hqb; lia |]. destruct (IH (x / b) (c :: acc) Hqb ltac:(lia)) as (l & -> & Hv & Hl & Hne & Hlen). exists (l ++ [c]). split_and!.
    + by rewrite <- app_assoc.
    + unfold value. rewrite fold_left_app. cbn [fold_left]. fold (value b l). rewrite Hv, Hc. lia.
    + apply list.Forall_app. split; [done | by constructor].
    + by destruct l.
    + rewrite length_app. cbn [length]. lia.
  - exists [c]. assert (0 <= x / b) by (apply Z.div_pos; lia). split_and!; try done; first [by constructor | cbn [length]; lia | unfold value; cbn [fold_left]; rewrite Hc; nia].
Qed.

(** ** Reading numbers back *)

Definition base_of (c : Z) : Z := if c =? ch_o then 8 else if (c =? ch_x) || (c =? ch_X) then 16 else 10.

Definition plain : spec := mk_spec 0 0 false 0 false.

Lemma value_pos b l : Forall (fun c => 48 <= c) l -> l <> [] -> read_number b l = value b l.
Proof. intros H Hne. destruct l as [| c l]; [done |]. apply list.Forall_cons in H as [Hc _]. unfold read_number. destruct c as [| [] |]; try done; repeat (destruct p as [p | p |]; try done); lia. Qed.

Lemma number_plain c neg ui : c ∈ [ch_d; ch_i; ch_u; ch_x; ch_X; ch_o] -> 0 <= ui < 2 ^ 64 ->
  exists l, number_layout plain c neg ui = Ret l /\ read_number (base_of c) (text_layout l) = if neg then - ui else ui.
Proof.
  intros Hc Hui.
  assert (Hparts : exists r, number_parts plain c ui = Ret (r, [], 0, 0) /\ value (base_of c) r = ui /\ Forall (fun c => 48 <= c) r /\ r <> []).
  { assert (Hgo : forall b d, 8 <= b <= 16 -> digit_table b d -> exists r, fmt_base b ui d [] NUM_BUF = Ret r /\ value b r = ui /\ Forall (fun c => 48 <= c) r /\ r <> []).
    { intros b d Hb Hd. destruct (fmt_base_spec b d NUM_BUF ltac:(lia) Hd ui []) as (l & E & H1 & H2 & H3 & _); [split; [lia |] | unfold NUM_BUF; lia |].
      - eapply Z.lt_le_trans; [exact (proj2 Hui) |]. transitivity (8 ^ 32); [done |]. apply Z.pow_le_mono_l. lia.
      - exists l. rewrite app_nil_r in E. done. }
    unfold number_parts. cbn [has_prec prec plain flags]. rewrite !andb_false_r. cbn [andb]. change (has 0 FMT_F_ALT_FORM) with false. cbn [andb].
    rewrite !fmt_u_base, !fmt_o_base, !fmt_x_base. unfold base_of.
    assert (Hcase : c = ch_d \/ c = ch_i \/ c = ch_u \/ c = ch_x \/ c = ch_X \/ c = ch_o) by (rewrite !elem_of_cons, elem_of_nil in Hc; tauto).
    destruct Hcase as [-> | [-> | [-> | [-> | [-> | ->]]]]]; cbn [Z.eqb Pos.eqb orb];
      [edestruct (Hgo 10 digits_lower) as (r & -> & H); [lia | apply table_lower; lia | by exists r] .. | | |].
    - destruct (Hgo 16 digits_lower) as (r & -> & H); [lia | apply table_lower; lia | by exists r].
    - destruct (Hgo 16 digits_upper) as (r & -> & H); [lia | apply table_upper; lia | by exists r].
    - destruct (Hgo 8 digits_lower) as (r & -> & H); [lia | apply table_lower; lia | by exists r]. }
  destruct Hparts as (r & E & Hv & Hf & Hne). unfold number_layout. rewrite E. cbn [has_prec has_width plain andb orb]. change (has 0 FMT_F_LEFT_ALIGN) with false. cbv iota. change (has 0 FMT_F_MARK_POS) with false. change (has 0 FMT_F_PAD_POS) with false.
  eexists. split; [done |]. unfold text_layout. cbn [lspace_pad sign radix lzero_pad raw rspace_pad Z.to_nat replicate app]. rewrite app_nil_r. destruct neg; cbn [app].
  - change (- value (base_of c) r = - ui). by rewrite Hv.
  - by rewrite value_pos.
Qed.

(** What the argument of an integer conversion is. *)
Definition integer_of (long : bool) (c a : Z) : Z :=
  if is_signed_conv c then (if long then s64 a else s32 a) else (if long then u64 a else u32 a).

(** C23: an integer printed with %d, %i, %u, %x, %X or %o, with or without l, is the
    numeral of its value: reading the text back in the base of the conversion,
    with its sign, gives the argument. *)
Theorem printed_integer_reads_back mem (long : bool) c a : c ∈ [ch_d; ch_i; ch_u; ch_x; ch_X; ch_o] ->
  exists t, text mem (ch_pct :: (if long then [ch_l] else []) ++ [c]) [a] = Ret (t, 0) /\ read_number (base_of c) t = integer_of long c a.
Proof.
  intros Hc. assert (Hcase : c = ch_d \/ c = ch_i \/ c = ch_u \/ c = ch_x \/ c = ch_X \/ c = ch_o) by (rewrite !elem_of_cons, elem_of_nil in Hc; tauto).
  assert (Hs32 : - 2 ^ 31 <= s32 a < 2 ^ 31) by (apply (swrap_bound 32); lia). assert (Hs64 : - 2 ^ 63 <= s64 a < 2 ^ 63) by (apply (swrap_bound 64); lia).
  set (st := if is_signed_conv c then (if long then FMT_S_LONG else FMT_S_INT) else (if long then FMT_S_ULONG else FMT_S_UINT)).
  assert (Harg : exists neg ui, take_arg st a = (neg, ui) /\ 0 <= ui < 2 ^ 64 /\ (if neg then - ui else ui) = integer_of long c a).
  { unfold st, integer_of, take_arg. pose proof (u64_bound a). pose proof (wrap_bound 32 a ltac:(lia)). assert (Hck : forall z, - 2 ^ 63 <= z < 2 ^ 63 -> exists neg ui, check_neg z = (neg, ui) /\ 0 <= ui < 2 ^ 64 /\ (if neg then - ui else ui) = z).
    { intros z Hz. unfold check_neg. destruct (Z.ltb_spec z 0); [exists true, (- z); rewrite u64_small by lia; split_and!; (done || lia) | exists false, z; split_and!; (done || lia)]. }
    destruct (is_signed_conv c), long; [by apply Hck | apply Hck; lia | by exists false, (u64 a) | exists false, (u32 a); split_and!; (done || lia)]. }
  destruct Harg as (neg & ui & Ea & Hui & Hval). destruct (number_plain c neg ui Hc Hui) as (l & El & Hl). exists (text_layout l). rewrite Hl. split; [| done].
  assert (Hconv : text_convert mem plain st c a = Ret (text_layout l)).
  { unfold text_convert. rewrite Ea, El. destruct Hcase as [-> | [-> | [-> | [-> | [-> | ->]]]]]; done. }
  unfold text. destruct Hcase as [-> | [-> | [-> | [-> | [-> | ->]]]]]; destruct long; cbn in Hconv |- *; fold plain; rewrite Hconv; by rewrite app_nil_r.
Qed.

Lemma cleared f bit : has (Z.land f (Z.lnot bit)) bit = false.
Proof. unfold has. by rewrite <- Z.land_assoc, (Z.land_comm (Z.lnot bit)), Z.land_lnot_diag, Z.land_0_r. Qed.

Lemma text_layout_length l : 0 <= lspace_pad l -> 0 <= lzero_pad l -> 0 <= rspace_pad l ->
  Z.of_nat (length (text_layout l)) = lspace_pad l + Z.of_nat (length (sign l)) + Z.of_nat (length (radix l)) + lzero_pad l + Z.of_nat (length (raw l)) + rspace_pad l.
Proof. intros H1 H2 H3. unfold text_layout. rewrite !length_app, !length_replicate. lia. Qed.

(** A numeric field is at least as wide as the width says, exactly as wide when
    the number is shorter, and has at least as many digits as the precision says
    (for # with %o counting the leading zero). *)
Theorem field_width d pch neg ui l : number_layout d pch neg ui = Ret l -> 0 <= width d -> 0 <= prec d ->
  exists n, 0 <= n /\ Z.of_nat (length (text_layout l)) = Z.max n (if has_width d then width d else 0) /\
    (has_prec d = true -> prec d <= Z.of_nat (length (radix l)) + lzero_pad l + Z.of_nat (length (raw l))).
Proof.
  intros E Hw Hp. unfold number_layout in E. destruct (number_parts d pch ui) as [[[[r rx] fl] p] | h] eqn:Ep; [| done].
  assert (Hpp : prec d <= p + Z.of_nat (length rx) /\ 0 <= p).
  { unfold number_parts in Ep. repeat match type of Ep with context [if ?b then _ else _] => destruct b eqn:? | context [match ?m with Ret _ => _ | Halt _ => _ end] => destruct m eqn:? end; simplify_eq; cbn [length]; lia. }

  set (fl' := if has_prec d || has fl FMT_F_LEFT_ALIGN then _ else fl) in E. set (lz := if has_prec d && _ then _ else 0) in E. set (sg := if neg then _ else _) in E. set (tot := _ + lz + _) in E.
  assert (Hlz : 0 <= lz /\ (has_prec d = true -> p <= lz + Z.of_nat (length r)) /\ (has_prec d = false -> lz = 0)).
  { unfold lz. destruct (has_prec d); cbn [andb]; [| by split_and!]. destruct (Z.ltb_spec (Z.of_nat (length r)) p); split_and!; (done || lia). }
  assert (Hzp : has fl' FMT_F_ZERO_PAD = true -> lz = 0).
  { unfold fl'. intros Hz. apply Hlz. destruct (has_prec d); [| done]. cbn [orb] in Hz. by rewrite cleared in Hz. }
  exists tot. split; [unfold tot; lia |]. destruct (has_width d); cbn [andb] in E.
  - destruct (Z.ltb_spec tot (width d)) as [Hlt | Hge].
    + destruct (has fl' FMT_F_LEFT_ALIGN); [| destruct (has fl' FMT_F_ZERO_PAD) eqn:Hz]; injection E as <-; rewrite text_layout_length; cbn [lspace_pad sign radix lzero_pad raw rspace_pad]; try lia;
        try (specialize (Hzp eq_refl)); unfold tot in *; split; try lia; intros; destruct Hlz as (? & Hl & ?); specialize (Hl ltac:(done)); lia.
    + injection E as <-. rewrite text_layout_length; cbn [lspace_pad sign radix lzero_pad raw rspace_pad]; try lia. unfold tot in *. split; [lia |]. intros; destruct Hlz as (? & Hl & ?); specialize (Hl ltac:(done)); lia.
  - injection E as <-. rewrite text_layout_length; cbn [lspace_pad sign radix lzero_pad raw rspace_pad]; try lia. unfold tot in *. split; [lia |]. intros; destruct Hlz as (? & Hl & ?); specialize (Hl ltac:(done)); lia.
Qed.

(** ** Examples and findings *)

Definition no_mem (_ : Z) : list Z := [].

(** "%5d|" of 42 into 6 bytes. *)
Lemma vsnprintf_witness : vsnprintf no_mem [1; 1; 1; 1; 1; 1; 1] 5 [37; 53; 100; 124] [42] = Ret ([32; 32; 32; 52; 0; 1; 1], 6).
Proof. rewrite (vsnprintf_correct no_mem [1; 1; 1; 1; 1; 1; 1] 5 [37; 53; 100; 124] [42] [32; 32; 32; 52; 50; 124] 0); [reflexivity | reflexivity | cbn; lia | reflexivity | reflexivity]. Defined.

Lemma printed_integer_witness : exists t, text no_mem [ch_pct; ch_l; ch_d] [-35] = Ret (t, 0) /\ read_number 10 t = -35.
Proof. apply (printed_integer_reads_back no_mem true ch_d (-35)). left. Defined.

Lemma field_width_witness : exists l n, number_layout (mk_spec 0 6 true 3 true) ch_d true 7 = Ret l /\ Z.of_nat (length (text_layout l)) = Z.max n 6.
Proof.
  destruct (number_layout (mk_spec 0 6 true 3 true) ch_d true 7) as [l | h] eqn:E; [| vm_compute in E; discriminate].
  destruct (field_width (mk_spec 0 6 true 3 true) ch_d true 7 l E ltac:(cbn; lia) ltac:(cbn; lia)) as (n & _ & H & _). exists l, n. split; [reflexivity | exact H].
Defined.

(** Finding: the sign flags, meant for signed conversions, also mark unsigned ones. *)
Theorem plus_marks_unsigned : text no_mem [ch_pct; ch_plus; ch_x] [255] = Ret ([43; 102; 102], 0).
Proof. reflexivity. Qed.

(** Finding: %c of a negative argument prints the character of its absolute value. *)
Theorem char_of_negative : text no_mem [ch_pct; ch_c] [-66] = Ret ([66], 0).
Proof. reflexivity. Qed.

(** Finding: %.2s of an array of two characters reads past its end, though the
    precision says that no more than two are wanted. *)
Theorem precision_overrun : text (fun _ => [97; 98]) [ch_pct; ch_dot; 50; ch_s] [8] = Halt Fault.
Proof. reflexivity. Qed.
