(* ===== verification/Memblock.v ===== *)
(** * mm/memblock.c: the early boot memory map

    Two sorted arrays of address ranges: the memory there is and the memory
    that is taken.  An array is modelled as it is in C, [max] slots of which
    the first [cnt] are live.  The first part of the proofs shows that the
    index loops compute functions on the list of live regions; the second
    part shows what those functions mean for the set of addresses covered. *)

From S2P Require Import Prelude.

(** ** Data *)

Record memblock_region : Set := mk_region { base : Z; size : Z }.

Record memblock_region_set : Set := mk_set {
  regions : list memblock_region;
  max : Z;
  cnt : Z
}.

Record memblock : Set := mk_memblock {
  memory : memblock_region_set;
  reserved : memblock_region_set
}.

Definition INIT_MEMBLOCK_REGIONS : Z := 32.
Definition INIT_MEMBLOCK_RESERVED_REGIONS : Z := 32.

Definition empty_set (n : Z) : memblock_region_set :=
  mk_set (replicate (Z.to_nat n) (mk_region 0 0)) n 0.

Definition init_memblock : memblock :=
  mk_memblock (empty_set INIT_MEMBLOCK_REGIONS)
              (empty_set INIT_MEMBLOCK_RESERVED_REGIONS).

(** ** Operations on a region set *)

(** [memmove] of [n] array entries; the source is read before it is written. *)
Definition memblock_move_regions (set : memblock_region_set) (to from n : Z)
    : res memblock_region_set :=
  let len := Z.of_nat (length (regions set)) in
  if decide (0 <= to /\ 0 <= from /\ 0 <= n /\ to + n <= len /\ from + n <= len) then
    Ret (mk_set (take (Z.to_nat to) (regions set)
                 ++ take (Z.to_nat n) (drop (Z.to_nat from) (regions set))
                 ++ drop (Z.to_nat (to + n)) (regions set))
                (max set) (cnt set))
  else Halt Fault.

Definition memblock_insert_region (set : memblock_region_set) (idx b s : Z)
    : res memblock_region_set :=
  let! set :=
    (if idx <? cnt set
     then memblock_move_regions set (idx + 1) idx (cnt set - idx)
     else Ret set) in
  let! rs := wr (regions set) idx (mk_region b s) in
  Ret (mk_set rs (max set) (cnt set + 1)).

Fixpoint merge_loop (set : memblock_region_set) (idx : Z) (fuel : nat)
    : res memblock_region_set :=
  match fuel with
  | O => Halt Fuel
  | S fuel' =>
      if idx <? cnt set - 1 then
        let! this := rd (regions set) idx in
        let! next := rd (regions set) (idx + 1) in
        if u64 (base this + size this) =? base next then
          let! rs := wr (regions set) idx
                        (mk_region (base this) (u64 (size this + size next))) in
          let! set := memblock_move_regions (mk_set rs (max set) (cnt set))
                        (idx + 1) (idx + 2) (cnt set - idx - 2) in
          merge_loop (mk_set (regions set) (max set) (cnt set - 1)) idx fuel'
        else merge_loop set (idx + 1) fuel'
      else Ret set
  end.

Definition memblock_merge_regions (set : memblock_region_set)
    : res memblock_region_set :=
  if cnt set <? 2 then Ret set
  else merge_loop set 0 (S (Z.to_nat (cnt set))).

(** State of one pass of the [for_each_memblock_region] loop of
    [memblock_add_region]. *)
Record add_state : Set := mk_add { a_set : memblock_region_set; a_idx : Z; a_base : Z; a_new : Z }.

Fixpoint add_loop (insert : bool) (end_ : Z) (st : add_state) (fuel : nat)
    : res add_state :=
  match fuel with
  | O => Halt Fuel
  | S fuel' =>
      let (set, idx, b, nr_new) := st in
      if idx <? cnt set then
        let! rgn := rd (regions set) idx in
        let rbase := base rgn in
        let rend := u64 (rbase + size rgn) in
        if end_ <=? rbase then Ret st
        else if rend <=? b then add_loop insert end_ (mk_add set (idx + 1) b nr_new) fuel'
        else
          let! st :=
            (if b <? rbase then
               if insert then
                 let! set := memblock_insert_region set idx b (rbase - b) in
                 Ret (mk_add set (idx + 1) b (nr_new + 1))
               else Ret (mk_add set idx b (nr_new + 1))
             else Ret st) in
          add_loop insert end_
            (mk_add (a_set st) (a_idx st + 1) (Z.min end_ rend) (a_new st)) fuel'
      else Ret st
  end.

(** One pass from the [repeat] label to the test of [insert]. *)
Definition add_pass (insert : bool) (set : memblock_region_set) (b end_ : Z)
    : res (memblock_region_set * Z) :=
  let! st := add_loop insert end_ (mk_add set 0 b 0) (S (Z.to_nat (cnt set))) in
  if a_base st <? end_ then
    if insert then
      let! set := memblock_insert_region (a_set st) (a_idx st) (a_base st) (end_ - a_base st) in
      Ret (set, a_new st + 1)
    else Ret (a_set st, a_new st + 1)
  else Ret (a_set st, a_new st).

Definition memblock_add_region (set : memblock_region_set) (b s : Z)
    : res memblock_region_set :=
  let end_ := u64 (b + s) in
  if s =? 0 then Ret set
  else if cnt set =? 0 then
    let! rs := wr (regions set) 0 (mk_region b s) in
    Ret (mk_set rs (max set) (cnt set + 1))
  else if u64 (cnt set * 2 + 1) <=? max set then
    let! (set, _) := add_pass true set b end_ in
    memblock_merge_regions set
  else
    let! (set, nr_new) := add_pass false set b end_ in
    if u64 (max set - cnt set) <? nr_new then Halt Panic
    else
      let! (set, _) := add_pass true set b end_ in
      memblock_merge_regions set.

Definition memblock_remove_region (set : memblock_region_set) (rgn_idx b s : Z)
    : res memblock_region_set :=
  let end_ := u64 (b + s) in
  let! rgn := rd (regions set) rgn_idx in
  let rbase := base rgn in
  let rend := u64 (rbase + size rgn) in
  assert! (rbase <=? b) && (end_ <=? rend) in
  if b =? rbase then
    if end_ =? rend then
      let! set := memblock_move_regions set rgn_idx (rgn_idx + 1) (cnt set - rgn_idx - 1) in
      Ret (mk_set (regions set) (max set) (cnt set - 1))
    else
      let! rs := wr (regions set) rgn_idx (mk_region end_ (rend - end_)) in
      Ret (mk_set rs (max set) (cnt set))
  else if end_ =? rend then
    let! rs := wr (regions set) rgn_idx (mk_region rbase (b - rbase)) in
    Ret (mk_set rs (max set) (cnt set))
  else if u64 (max set - 1) <? cnt set then Halt Panic
  else
    let! set := memblock_insert_region set (rgn_idx + 1) end_ (rend - end_) in
    let! rs := wr (regions set) rgn_idx (mk_region rbase (b - rbase)) in
    Ret (mk_set rs (max set) (cnt set)).

Fixpoint find_region_loop (set : memblock_region_set) (b end_ idx : Z) (n : nat)
    : res (option Z) :=
  match n with
  | O => Ret None
  | S n' =>
      let! rgn := rd (regions set) idx in
      if (base rgn <=? b) && (end_ <=? u64 (base rgn + size rgn)) then Ret (Some idx)
      else find_region_loop set b end_ (idx + 1) n'
  end.

(** [*pidx] on success; the region stored through [prgn] is [(b, s)] itself. *)
Definition memblock_find_region (set : memblock_region_set) (b s : Z)
    : res (option Z) :=
  find_region_loop set b (u64 (b + s)) 0 (Z.to_nat (cnt set)).

(** ** Operations on the memory map *)

Definition memblock_add (mb : memblock) (b s : Z) : res memblock :=
  let! set := memblock_add_region (memory mb) b s in
  Ret (mk_memblock set (reserved mb)).

Definition memblock_reserve (mb : memblock) (b s : Z) : res memblock :=
  let! set := memblock_add_region (reserved mb) b s in
  Ret (mk_memblock (memory mb) set).

Definition memblock_free (mb : memblock) (b s : Z) : res memblock :=
  let! r := memblock_find_region (reserved mb) b s in
  match r with
  | None => Ret mb
  | Some idx =>
      let! set := memblock_remove_region (reserved mb) idx b s in
      Ret (mk_memblock (memory mb) set)
  end.

Definition memblock_start_of_dram (mb : memblock) : res Z :=
  if cnt (memory mb) =? 0 then Ret 0
  else
    let! r := rd (regions (memory mb)) 0 in
    Ret (base r).

(** [*pidx] packs the two cursors: memory index high, reserved index low. *)
Definition pack_idx (idx_mem idx_res : Z) : Z :=
  Z.lor (u64 (Z.shiftl idx_mem 32)) idx_res.

(** Result of the scan of the reserved gaps for one memory region. *)
Inductive scan : Set :=
| Emit (start end_ idx : Z)     (* a range, and the packed index to resume at *)
| NextMem (idx_res : Z).        (* the [for] over [idx_res] was left *)

Fixpoint res_loop (res_ : memblock_region_set) (mstart mend idx_mem idx_res : Z)
    (fuel : nat) : res scan :=
  match fuel with
  | O => Halt Fuel
  | S fuel' =>
      if idx_res <? cnt res_ + 1 then
        let! rstart :=
          (if idx_res =? 0 then Ret 0
           else let! p := rd (regions res_) (idx_res - 1) in
                Ret (u64 (base p + size p))) in
        let! rend :=
          (if idx_res <? cnt res_
           then let! r := rd (regions res_) idx_res in Ret (base r)
           else Ret UINT64_MAX) in
        if mend <=? rstart then Ret (NextMem idx_res)
        else if mstart <? rend then
          let idx := if mend <=? rend then pack_idx (idx_mem + 1) idx_res
                     else pack_idx idx_mem (idx_res + 1) in
          Ret (Emit (Z.max mstart rstart) (Z.min mend rend) idx)
        else res_loop res_ mstart mend idx_mem (idx_res + 1) fuel'
      else Ret (NextMem idx_res)
  end.

Fixpoint mem_loop (mb : memblock) (idx_mem idx_res : Z) (fuel : nat)
    : res (option (Z * Z) * Z) :=
  match fuel with
  | O => Halt Fuel
  | S fuel' =>
      if idx_mem <? cnt (memory mb) then
        let! m := rd (regions (memory mb)) idx_mem in
        let mstart := base m in
        let mend := u64 (mstart + size m) in
        let! s := res_loop (reserved mb) mstart mend idx_mem idx_res
                    (S (S (Z.to_nat (cnt (reserved mb))))) in
        match s with
        | Emit start end_ idx => Ret (Some (start, end_), idx)
        | NextMem idx_res => mem_loop mb (idx_mem + 1) idx_res fuel'
        end
      else Ret (None, UINT64_MAX)
  end.

(** The range stored through [pstart] and [pend], if any, and the new
    [*pidx].  The [!res] branch of the source is dead: [res] is the address
    of a static object. *)
Definition next_mem_range (mb : memblock) (pidx : Z) : res (option (Z * Z) * Z) :=
  let idx_mem := Z.land (Z.shiftr pidx 32) 4294967295 in
  let idx_res := Z.land pidx 4294967295 in
  mem_loop mb idx_mem idx_res (S (Z.to_nat (cnt (memory mb)))).

(** [for_each_mem_range]: the ranges the iterator yields, in order. *)
Fixpoint mem_ranges_from (mb : memblock) (pidx : Z) (fuel : nat)
    : res (list (Z * Z)) :=
  match fuel with
  | O => Halt Fuel
  | S fuel' =>
      let! (r, pidx) := next_mem_range mb pidx in
      if pidx =? UINT64_MAX then Ret []
      else
        match r with
        | Some rg =>
            let! rest := mem_ranges_from mb pidx fuel' in
            Ret (rg :: rest)
        | None => Halt Fault     (* [start] and [end] read without a value *)
        end
  end.

Definition for_each_mem_range (mb : memblock) : res (list (Z * Z)) :=
  mem_ranges_from mb 0 (S (Z.to_nat (cnt (memory mb) + cnt (reserved mb) + 1))).

(** The body of the [memblock_alloc] loop over the ranges still to come. *)
Fixpoint alloc_loop (ranges : list (Z * Z)) (sz min_addr align : Z) : option Z :=
  match ranges with
  | [] => None
  | (start, end_) :: rest =>
      if start <? min_addr then alloc_loop rest sz min_addr align
      else
        let aligned_start := round_up (Z.max start min_addr) align in
        if end_ <? u64 (aligned_start + sz) then alloc_loop rest sz min_addr align
        else Some aligned_start
  end.

Definition memblock_alloc (mb : memblock) (sz min_addr align : Z)
    : res (memblock * Z) :=
  assert! is_power_of_two align in
  let! ranges := for_each_mem_range mb in
  match alloc_loop ranges sz min_addr align with
  | Some a =>
      let! mb := memblock_reserve mb a sz in
      Ret (mb, a)
  | None => Ret (mb, 0)
  end.

(** ** The arrays as lists of live regions *)

Definition repr (set : memblock_region_set) (l : list memblock_region) : Prop :=
  exists rest, regions set = l ++ rest /\ cnt set = Z.of_nat (length l) /\
               max set = Z.of_nat (length l + length rest).

Lemma repr_cnt set l : repr set l -> cnt set = Z.of_nat (length l).
Proof. intros (rest & _ & H & _). done. Qed.

Lemma repr_max set l : repr set l -> Z.of_nat (length l) <= max set.
Proof. intros (rest & _ & _ & H). lia. Qed.

Lemma repr_rd set l1 r l2 :
  repr set (l1 ++ r :: l2) -> rd (regions set) (Z.of_nat (length l1)) = Ret r.
Proof.
  intros (rest & Hr & _). apply rd_ret. split; [lia |].
  rewrite Hr, Nat2Z.id, <- app_assoc. simpl. by apply list_lookup_middle.
Qed.

Lemma repr_wr set l1 r r' l2 :
  repr set (l1 ++ r :: l2) ->
  exists rs, wr (regions set) (Z.of_nat (length l1)) r' = Ret rs /\
             repr (mk_set rs (max set) (cnt set)) (l1 ++ r' :: l2).
Proof.
  intros (rest & Hr & Hc & Hm). rewrite Hr, <- app_assoc. simpl.
  rewrite wr_in_range by (rewrite length_app; simpl; lia).
  eexists; split; [done |]. exists rest.
  rewrite Nat2Z.id, insert_app_r_alt, Nat.sub_diag by lia. simpl.
  rewrite <- app_assoc. rewrite Hc, Hm, !length_app. simpl. split_and!; done.
Qed.

Lemma move_regions_ret set to from n :
  0 <= to -> 0 <= from -> 0 <= n ->
  to + n <= Z.of_nat (length (regions set)) ->
  from + n <= Z.of_nat (length (regions set)) ->
  memblock_move_regions set to from n =
  Ret (mk_set (take (Z.to_nat to) (regions set)
               ++ take (Z.to_nat n) (drop (Z.to_nat from) (regions set))
               ++ drop (Z.to_nat (to + n)) (regions set)) (max set) (cnt set)).
Proof. intros. unfold memblock_move_regions. rewrite decide_True by lia. done. Qed.

Lemma repr_delete set l1 r l2 :
  repr set (l1 ++ r :: l2) ->
  exists set', memblock_move_regions set (Z.of_nat (length l1)) (Z.of_nat (length l1) + 1)
                 (cnt set - Z.of_nat (length l1) - 1) = Ret set' /\
               cnt set' = cnt set /\ max set' = max set /\
               repr (mk_set (regions set') (max set) (cnt set - 1)) (l1 ++ l2).
Proof.
  intros (rest & Hr & Hc & Hm). rewrite length_app in Hc, Hm. simpl in Hc, Hm.
  rewrite move_regions_ret by (rewrite ?Hr, ?length_app; simpl; lia).
  eexists; split; [done |]. simpl. split_and!; try done.
  exists (drop (length l1 + length l2) (regions set)). simpl. split_and!.
  - rewrite Hr, Hc. rewrite <- app_assoc. simpl.
    replace (Z.to_nat (Z.of_nat (length l1) + 1)) with (length (l1 ++ [r]))
      by (rewrite length_app; simpl; lia).
    replace (Z.to_nat (Z.of_nat (length l1 + S (length l2)) - Z.of_nat (length l1) - 1))
      with (length l2) by lia.
    replace (l1 ++ r :: l2 ++ rest) with ((l1 ++ [r]) ++ l2 ++ rest) at 2 by (by rewrite <- app_assoc).
    rewrite drop_app_length, take_app_length, Nat2Z.id, take_app_length, <- app_assoc.
    do 3 f_equal. lia.
  - rewrite length_app. lia.
  - rewrite length_app, length_drop, Hr, !length_app. simpl. lia.
Qed.

Lemma repr_insert set l1 l2 b s :
  repr set (l1 ++ l2) -> Z.of_nat (length (l1 ++ l2)) < max set ->
  exists set', memblock_insert_region set (Z.of_nat (length l1)) b s = Ret set' /\
               max set' = max set /\ repr set' (l1 ++ mk_region b s :: l2).
Proof.
  intros (rest & Hr & Hc & Hm) Hlt. rewrite !length_app in *.
  destruct rest as [| x rest]; [simpl in *; lia |]. simpl in Hm.
  unfold memblock_insert_region.
  assert (exists y, (if Z.of_nat (length l1) <? cnt set
     then memblock_move_regions set (Z.of_nat (length l1) + 1) (Z.of_nat (length l1))
            (cnt set - Z.of_nat (length l1))
     else Ret set) = Ret (mk_set ((l1 ++ y :: l2) ++ rest) (max set) (cnt set))) as [y ->].
  { destruct (Z.ltb_spec (Z.of_nat (length l1)) (cnt set)) as [Hlt' | Hge].
    - destruct l2 as [| y l2]; [simpl in *; lia |]. exists y.
      rewrite move_regions_ret by (rewrite ?Hr, ?length_app; simpl; rewrite ?length_app; simpl in *; lia).
      rewrite Hr. do 2 f_equal. rewrite <- !app_assoc. simpl.
      replace (Z.to_nat (Z.of_nat (length l1) + 1)) with (length (l1 ++ [y]))
        by (rewrite length_app; simpl; lia).
      replace (l1 ++ y :: l2 ++ x :: rest) with ((l1 ++ [y]) ++ l2 ++ x :: rest) at 1
        by (by rewrite <- app_assoc).
      rewrite take_app_length, Nat2Z.id, drop_app_length, <- app_assoc. simpl. do 2 f_equal.
      replace (y :: l2 ++ x :: rest) with ((y :: l2) ++ x :: rest) by done.
      replace (Z.to_nat (cnt set - Z.of_nat (length l1))) with (length (y :: l2)) by (simpl in *; lia).
      rewrite take_app_length. simpl. do 2 f_equal.
      replace (l1 ++ y :: l2 ++ x :: rest) with ((l1 ++ y :: l2 ++ [x]) ++ rest)
        by (by rewrite <- app_assoc; simpl; rewrite <- app_assoc).
      rewrite drop_app_length' by (rewrite length_app; simpl; rewrite length_app; simpl in *; lia).
      done.
    - destruct l2 as [| z l2]; [| simpl in *; lia]. exists x.
      destruct set. simpl in *. subst. rewrite app_nil_r, <- app_assoc. done. }
  destruct (repr_wr (mk_set ((l1 ++ y :: l2) ++ rest) (max set) (cnt set + 1)) l1 y
              (mk_region b s) l2) as (rs & Hw & Hrep).
  { exists rest. simpl. rewrite length_app. simpl. split_and!; [done | lia | lia]. }
  simpl in *. rewrite Hw. eauto.
Qed.

(** *** The loops as functions on the live regions *)

Definition rend (r : memblock_region) : Z := base r + size r.

Fixpoint merge_from (cur : memblock_region) (l : list memblock_region) : list memblock_region :=
  match l with
  | [] => [cur]
  | n :: l' =>
      if rend cur =? base n then merge_from (mk_region (base cur) (size cur + size n)) l'
      else cur :: merge_from n l'
  end.

Definition merge_list (l : list memblock_region) : list memblock_region :=
  match l with [] => [] | r :: l' => merge_from r l' end.

(** Sorted, non-empty, disjoint regions above [lo], within the address space.
    [wfw] lets neighbours touch, [wfs] does not. *)
Fixpoint wfw (lo : Z) (l : list memblock_region) : Prop :=
  match l with
  | [] => True
  | r :: l' => 0 <= lo <= base r /\ 0 < size r /\ rend r < 2 ^ 64 /\ wfw (rend r) l'
  end.

Fixpoint wfs (lo : Z) (l : list memblock_region) : Prop :=
  match l with
  | [] => True
  | r :: l' => -1 <= lo < base r /\ 0 < size r /\ rend r < 2 ^ 64 /\ wfs (rend r) l'
  end.

Definition covers (l : list memblock_region) (x : Z) : Prop :=
  Exists (fun r => base r <= x < rend r) l.

Lemma covers_cons r l x : covers (r :: l) x <-> base r <= x < rend r \/ covers l x.
Proof. apply Exists_cons. Qed.

Lemma covers_app l1 l2 x : covers (l1 ++ l2) x <-> covers l1 x \/ covers l2 x.
Proof. apply Exists_app. Qed.

Lemma covers_nil x : ~ covers [] x.
Proof. intros H. inversion H. Qed.

Lemma wfs_wfw lo l : 0 <= lo -> wfs (lo - 1) l -> wfw lo l.
Proof.
  revert lo. induction l as [| r l IH]; simpl; [done |].
  intros lo Hlo (Hb & Hs & He & Hl). split_and!; try lia.
  apply IH; [unfold rend in *; lia |]. destruct l as [| r' l]; [done |].
  simpl in *. unfold rend in *. split_and!; try apply Hl; lia.
Qed.

Lemma wfs_le lo lo' l : -1 <= lo' <= lo -> wfs lo l -> wfs lo' l.
Proof. destruct l; simpl; [done |]. intros ? (?&?&?&?). split_and!; try done; lia. Qed.

Lemma wfw_le lo lo' l : 0 <= lo' <= lo -> wfw lo l -> wfw lo' l.
Proof. destruct l; simpl; [done |]. intros ? (?&?&?&?). split_and!; try done; lia. Qed.

Lemma u64_rend r l lo : wfw lo (r :: l) -> u64 (base r + size r) = rend r.
Proof. simpl. unfold rend. intros (?&?&?&?). rewrite u64_small by lia. done. Qed.

Lemma merge_loop_repr (l2 : list memblock_region) : forall set l1 cur lo fuel,
  repr set (l1 ++ cur :: l2) -> wfw lo (cur :: l2) -> (length l2 < fuel)%nat ->
  exists set', merge_loop set (Z.of_nat (length l1)) fuel = Ret set' /\
               max set' = max set /\ repr set' (l1 ++ merge_from cur l2).
Proof.
  induction l2 as [| n l2 IH]; intros set l1 cur lo fuel Hrep Hwf Hf;
    (destruct fuel as [| fuel]; [simpl in *; lia |]); simpl merge_loop;
    pose proof (repr_cnt _ _ Hrep) as Hc; rewrite length_app in Hc; simpl in Hc.
  - destruct (Z.ltb_spec (Z.of_nat (length l1)) (cnt set - 1)); [lia |]. eauto.
  - destruct (Z.ltb_spec (Z.of_nat (length l1)) (cnt set - 1)); [| lia].
    rewrite (repr_rd set l1 cur (n :: l2)) by done.
    replace (Z.of_nat (length l1) + 1) with (Z.of_nat (length (l1 ++ [cur])))
      by (rewrite length_app; simpl; lia).
    rewrite (repr_rd set (l1 ++ [cur]) n l2) by (by rewrite <- app_assoc).
    rewrite (u64_rend cur (n :: l2) lo) by done. simpl in Hwf.
    destruct Hwf as (Hb & Hs & He & Hb' & Hs' & He' & Hl). simpl merge_from.
    destruct (Z.eqb_spec (rend cur) (base n)) as [E | Hne].
    + rewrite u64_small by (unfold rend in *; lia).
      set (m := mk_region (base cur) (size cur + size n)).
      destruct (repr_wr set l1 cur m (n :: l2) Hrep) as (rs & -> & Hrep1). simpl cnt.
      destruct (repr_delete (mk_set rs (max set) (cnt set)) (l1 ++ [m]) n l2) as
        (set1 & Hmv & Hc1 & Hm1 & Hrep2); [by rewrite <- app_assoc |].
      simpl in Hmv, Hc1, Hm1, Hrep2.
      rewrite length_app in Hmv |- *. simpl in Hmv |- *.
      replace (cnt set - Z.of_nat (length l1) - 2) with
        (cnt set - Z.of_nat (length l1 + 1) - 1) by lia.
      replace (Z.of_nat (length l1) + 2) with (Z.of_nat (length l1 + 1) + 1) by lia.
      rewrite Hmv, Hc1, Hm1.
      edestruct (IH (mk_set (regions set1) (max set) (cnt set - 1)) l1 m lo fuel)
        as (set' & -> & Hm' & Hrep'); [by rewrite <- app_assoc in Hrep2 | | simpl in Hf; lia | eauto].
      simpl. replace (rend m) with (rend n) by (unfold m, rend in *; simpl; lia).
      unfold m. simpl. split_and!; try done; lia.
    + destruct (IH set (l1 ++ [cur]) n (rend cur) fuel) as (set' & -> & Hm' & Hrep').
      * by rewrite <- app_assoc.
      * simpl. split_and!; try done; unfold rend in *; lia.
      * simpl in Hf. lia.
      * exists set'. rewrite <- app_assoc in Hrep'. eauto.
Qed.

Lemma merge_regions_repr set l lo :
  repr set l -> wfw lo l ->
  exists set', memblock_merge_regions set = Ret set' /\
               max set' = max set /\ repr set' (merge_list l).
Proof.
  intros Hrep Hwf. unfold memblock_merge_regions. pose proof (repr_cnt _ _ Hrep) as Hc.
  destruct l as [| r [| r' l]]; simpl in Hc; rewrite Hc.
  1,2: eexists; split_and!; try done; by simpl.
  destruct (Z.ltb_spec (Z.of_nat (S (S (length l)))) 2); [lia |].
  apply (merge_loop_repr (r' :: l) set [] r lo); [done | done |]. simpl. lia.
Qed.

(** One pass of [memblock_add_region] over the live regions. *)
Fixpoint add_list (b end_ : Z) (l : list memblock_region) : list memblock_region :=
  let tail := if b <? end_ then [mk_region b (end_ - b)] else [] in
  match l with
  | [] => tail
  | r :: l' =>
      if end_ <=? base r then tail ++ r :: l'
      else if rend r <=? b then r :: add_list b end_ l'
      else (if b <? base r then [mk_region b (base r - b)] else [])
             ++ r :: add_list (Z.min end_ (rend r)) end_ l'
  end.

Lemma length_add_list_ge end_ l : forall b, (length l <= length (add_list b end_ l))%nat.
Proof.
  induction l as [| r l IH]; intros b; simpl; [lia |].
  repeat case_match; simpl; try lia;
    repeat rewrite ?length_app; simpl; pose proof (IH b);
    pose proof (IH (Z.min end_ (rend r))); lia.
Qed.

Lemma length_add_list_le end_ l : forall b, (length (add_list b end_ l) <= 2 * length l + 1)%nat.
Proof.
  induction l as [| r l IH]; intros b; simpl; [case_match; simpl; lia |].
  repeat case_match; simpl; try lia;
    repeat rewrite ?length_app; simpl; pose proof (IH b);
    pose proof (IH (Z.min end_ (rend r))); lia.
Qed.

(** With [insert] set the pass writes [add_list] into the array, as long as
    there is room for it. *)
Lemma add_loop_insert end_ (l2 : list memblock_region) : forall set l1 b lo k fuel,
  repr set (l1 ++ l2) -> wfw lo l2 -> (length l2 < fuel)%nat ->
  Z.of_nat (length l1 + length (add_list b end_ l2)) <= max set ->
  exists set' d t b' k',
    add_loop true end_ (mk_add set (Z.of_nat (length l1)) b k) fuel =
      Ret (mk_add set' (Z.of_nat (length (l1 ++ d))) b' k') /\
    max set' = max set /\ repr set' ((l1 ++ d) ++ t) /\
    add_list b end_ l2 = d ++ (if b' <? end_ then [mk_region b' (end_ - b')] else []) ++ t.
Proof.
  induction l2 as [| r l2 IH]; intros set l1 b lo k fuel Hrep Hwf Hf Hmax;
    (destruct fuel as [| fuel]; [simpl in *; lia |]); simpl add_loop;
    pose proof (repr_cnt _ _ Hrep) as Hc; rewrite length_app in Hc; simpl in Hc.
  - destruct (Z.ltb_spec (Z.of_nat (length l1)) (cnt set)); [lia |].
    exists set, [], [], b, k. rewrite !app_nil_r in *. split_and!; done.
  - destruct (Z.ltb_spec (Z.of_nat (length l1)) (cnt set)); [| lia].
    rewrite (repr_rd set l1 r l2) by done. rewrite (u64_rend r l2 lo) by done.
    simpl in Hwf. destruct Hwf as (Hb & Hs & He & Hl). simpl in Hf.
    simpl add_list in *.
    destruct (Z.leb_spec end_ (base r)).
    { exists set, [], (r :: l2), b, k. rewrite app_nil_r. split_and!; done. }
    destruct (Z.leb_spec (rend r) b).
    { simpl in Hmax.
      destruct (IH set (l1 ++ [r]) b (rend r) k fuel) as (set' & d & t & b' & k' & Heq & Hm & Hrep' & Hadd).
      { by rewrite <- app_assoc. } { done. } { lia. } { rewrite length_app; simpl; lia. }
      exists set', (r :: d), t, b', k'. rewrite length_app in Heq. simpl in Heq.
      replace (Z.of_nat (length l1) + 1) with (Z.of_nat (length l1 + 1)) by lia.
      rewrite Heq, Hadd. rewrite <- !app_assoc in *. simpl in *. split_and!; done. }
    destruct (Z.ltb_spec b (base r)).
    + simpl in Hmax.
      pose proof (length_add_list_ge end_ l2 (Z.min end_ (rend r))).
      destruct (repr_insert set l1 (r :: l2) b (base r - b)) as (set1 & -> & Hm1 & Hrep1);
        [done | rewrite length_app; simpl; lia |]. simpl.
      set (g := mk_region b (base r - b)) in *.
      destruct (IH set1 (l1 ++ [g; r]) (Z.min end_ (rend r)) (rend r) (k + 1) fuel)
        as (set' & d & t & b' & k' & Heq & Hm & Hrep' & Hadd).
      { by rewrite <- app_assoc. } { done. } { lia. } { rewrite length_app, Hm1; simpl; lia. }
      exists set', (g :: r :: d), t, b', k'. rewrite length_app in Heq. simpl in Heq.
      replace (Z.of_nat (length l1) + 1 + 1) with (Z.of_nat (length l1 + 2)) by lia.
      rewrite Heq, Hadd. rewrite <- !app_assoc in *. simpl in *.
      split_and!; try done; congruence.
    + simpl in Hmax |- *.
      destruct (IH set (l1 ++ [r]) (Z.min end_ (rend r)) (rend r) k fuel)
        as (set' & d & t & b' & k' & Heq & Hm & Hrep' & Hadd).
      { by rewrite <- app_assoc. } { done. } { lia. } { rewrite length_app; simpl; lia. }
      exists set', (r :: d), t, b', k'. rewrite length_app in Heq. simpl in Heq.
      replace (Z.of_nat (length l1) + 1) with (Z.of_nat (length l1 + 1)) by lia.
      rewrite Heq, Hadd. rewrite <- !app_assoc in *. simpl in *. split_and!; done.
Qed.

(** Without [insert] the pass counts the regions it would add. *)
Lemma add_loop_count end_ (l2 : list memblock_region) : forall set l1 b lo k fuel,
  repr set (l1 ++ l2) -> wfw lo l2 -> (length l2 < fuel)%nat ->
  exists i b' k',
    add_loop false end_ (mk_add set (Z.of_nat (length l1)) b k) fuel = Ret (mk_add set i b' k') /\
    k' + (if b' <? end_ then 1 else 0) =
      k + Z.of_nat (length (add_list b end_ l2)) - Z.of_nat (length l2).
Proof.
  induction l2 as [| r l2 IH]; intros set l1 b lo k fuel Hrep Hwf Hf;
    (destruct fuel as [| fuel]; [simpl in *; lia |]); simpl add_loop;
    pose proof (repr_cnt _ _ Hrep) as Hc; rewrite length_app in Hc; simpl in Hc.
  - destruct (Z.ltb_spec (Z.of_nat (length l1)) (cnt set)); [lia |].
    eexists _, _, _; split; [done |]. simpl. case_match; simpl; lia.
  - destruct (Z.ltb_spec (Z.of_nat (length l1)) (cnt set)); [| lia].
    rewrite (repr_rd set l1 r l2) by done. rewrite (u64_rend r l2 lo) by done.
    simpl in Hwf. destruct Hwf as (Hb & Hs & He & Hl). simpl in Hf. simpl add_list.
    destruct (Z.leb_spec end_ (base r)).
    { eexists _, _, _; split; [done |]. rewrite length_app. simpl. case_match; simpl; lia. }
    replace (Z.of_nat (length l1) + 1) with (Z.of_nat (length (l1 ++ [r])))
      by (rewrite length_app; simpl; lia).
    destruct (Z.leb_spec (rend r) b).
    { destruct (IH set (l1 ++ [r]) b (rend r) k fuel) as (i & b' & k' & -> & Hk);
        [by rewrite <- app_assoc | done | lia |].
      eexists _, _, _; split; [done |]. simpl. lia. }
    destruct (Z.ltb_spec b (base r)); simpl;
      (replace (Z.of_nat (length l1) + 1) with (Z.of_nat (length (l1 ++ [r])))
      by (rewrite length_app; simpl; lia)).
    + destruct (IH set (l1 ++ [r]) (Z.min end_ (rend r)) (rend r) (k + 1) fuel)
        as (i & b' & k' & -> & Hk); [by rewrite <- app_assoc | done | lia |].
      eexists _, _, _; split; [done |]. simpl. lia.
    + destruct (IH set (l1 ++ [r]) (Z.min end_ (rend r)) (rend r) k fuel)
        as (i & b' & k' & -> & Hk); [by rewrite <- app_assoc | done | lia |].
      eexists _, _, _; split; [done |]. simpl. lia.
Qed.

(** ** What the functions mean for the addresses covered *)

Lemma add_list_done b end_ lo l : wfw lo l -> end_ <= lo -> end_ <= b -> add_list b end_ l = l.
Proof.
  destruct l as [| r l]; simpl; intros Hwf Hlo Hb;
    (destruct (Z.ltb_spec b end_); [lia |]); [done |].
  destruct (Z.leb_spec end_ (base r)); [done | lia].
Qed.

Lemma add_list_wfw end_ l : forall lo b,
  wfw lo l -> 0 <= lo <= b -> b <= end_ -> end_ < 2 ^ 64 -> wfw lo (add_list b end_ l).
Proof.
  induction l as [| r l IH]; intros lo b Hwf Hlo Hb He; simpl in *.
  - destruct (Z.ltb_spec b end_); simpl; [| done]. unfold rend; simpl. split_and!; try done; lia.
  - destruct Hwf as (Hr1 & Hr2 & Hr3 & Hwf).
    destruct (Z.leb_spec end_ (base r)).
    { destruct (Z.ltb_spec b end_); simpl; unfold rend in *; simpl; split_and!; try done; lia. }
    destruct (Z.leb_spec (rend r) b).
    { simpl. split_and!; try done; try lia. apply IH; try done; unfold rend in *; lia. }
    assert (Hrest : wfw (rend r) (add_list (Z.min end_ (rend r)) end_ l)).
    { destruct (Z.lt_ge_cases end_ (rend r)).
      - by rewrite (add_list_done _ _ (rend r)) by (try done; lia).
      - apply IH; try done; unfold rend in *; lia. }
    destruct (Z.ltb_spec b (base r)); simpl; unfold rend in *; simpl; split_and!; try done; try lia.
    all: replace (b + (base r - b)) with (base r) by lia; try lia.
Qed.

Lemma add_list_covers end_ l x : forall b,
  covers (add_list b end_ l) x <-> covers l x \/ b <= x < end_.
Proof.
  assert (Ht : forall b, covers (if b <? end_ then [mk_region b (end_ - b)] else []) x
                         <-> b <= x < end_).
  { intros b. destruct (Z.ltb_spec b end_).
    - rewrite covers_cons. unfold rend. simpl. split; [intros [|Hn] | left]; [lia | | lia].
      by apply covers_nil in Hn.
    - split; [intros Hn; by apply covers_nil in Hn | lia]. }
  induction l as [| r l IH]; intros b; simpl.
  - rewrite Ht. split; [tauto | intros [Hn |]; [by apply covers_nil in Hn | done]].
  - destruct (Z.leb_spec end_ (base r)).
    { rewrite covers_app, Ht. tauto. }
    destruct (Z.leb_spec (rend r) b).
    { rewrite !covers_cons, IH. tauto. }
    rewrite covers_app, !covers_cons, IH.
    destruct (Z.ltb_spec b (base r)).
    + rewrite covers_cons. unfold rend in *. simpl. split.
      * intros [[|Hn]|[|[|]]]; try tauto; try (right; lia); by apply covers_nil in Hn.
      * intros [[|]|]; [tauto | tauto |].
        destruct (Z.lt_ge_cases x (base r)); [left; left; lia | right].
        destruct (Z.lt_ge_cases x (base r + size r)); [left; lia | right; right; lia].
    + split.
      * intros [Hn|[|[|]]]; try tauto; try (right; lia); by apply covers_nil in Hn.
      * intros [[|]|]; [tauto | tauto |]. right.
        destruct (Z.lt_ge_cases x (rend r)); [left; lia | right; right; lia].
Qed.

Lemma merge_from_wfs l : forall cur lo lo',
  wfw lo (cur :: l) -> -1 <= lo' < base cur -> wfs lo' (merge_from cur l).
Proof.
  induction l as [| n l IH]; intros cur lo lo' Hwf Hlo; simpl merge_from.
  - simpl in *. tauto.
  - simpl in Hwf. destruct Hwf as (H1 & H2 & H3 & H4 & H5 & H6 & Hwf).
    destruct (Z.eqb_spec (rend cur) (base n)) as [E |].
    + eapply (IH _ lo); [| done]. simpl.
      replace (rend (mk_region (base cur) (size cur + size n))) with (rend n)
        by (unfold rend in *; simpl; lia).
      split_and!; try done; lia.
    + simpl. split_and!; try done; try lia.
      eapply (IH n (rend cur)); [simpl; split_and!; try done |]; unfold rend in *; lia.
Qed.

Lemma merge_from_covers l x : forall cur lo,
  wfw lo (cur :: l) -> covers (merge_from cur l) x <-> covers (cur :: l) x.
Proof.
  induction l as [| n l IH]; intros cur lo Hwf; simpl merge_from; [done |].
  simpl in Hwf. destruct Hwf as (H1 & H2 & H3 & H4 & H5 & H6 & Hwf).
  destruct (Z.eqb_spec (rend cur) (base n)) as [E |].
  - rewrite (IH _ lo).
    + rewrite !covers_cons. unfold rend in *. simpl. split; [intros [|]|intros [|[|]]]; try tauto.
      * destruct (Z.lt_ge_cases x (base n)); [left; lia | right; left; lia].
      * left. lia.
      * left. lia.
    + simpl. replace (rend (mk_region (base cur) (size cur + size n))) with (rend n)
        by (unfold rend in *; simpl; lia).
      split_and!; try done; lia.
  - rewrite covers_cons, (IH n (rend cur)), !covers_cons; [done |].
    simpl. split_and!; try done; unfold rend in *; lia.
Qed.

Lemma merge_list_wfs l : wfw 0 l -> wfs (-1) (merge_list l).
Proof.
  destruct l as [| r l]; simpl merge_list; [done |]. intros Hwf.
  eapply merge_from_wfs; [done |]. simpl in Hwf. lia.
Qed.

Lemma merge_list_covers l x : wfw 0 l -> covers (merge_list l) x <-> covers l x.
Proof. destruct l; simpl merge_list; [done |]. apply merge_from_covers. Qed.

Lemma length_merge_from l : forall cur, (length (merge_from cur l) <= S (length l))%nat.
Proof.
  induction l as [| n l IH]; intros cur; simpl; [lia |]. case_match; simpl.
  - etrans; [apply IH | lia].
  - pose proof (IH n). lia.
Qed.

Lemma length_merge_list l : (length (merge_list l) <= length l)%nat.
Proof. destruct l; [done |]. apply length_merge_from. Qed.

Lemma length_add_list_fresh end_ l : forall lo b, wfw lo l -> b < end_ ->
  (forall x, b <= x < end_ -> ~ covers l x) -> (length (add_list b end_ l) <= length l + 1)%nat.
Proof.
  induction l as [| r l IH]; intros lo b Hwf Hlt Hno; simpl; [case_match; simpl; lia |].
  simpl in Hwf. destruct Hwf as (H1 & H2 & H3 & H4).
  destruct (Z.leb_spec end_ (base r)); [case_match; simpl; lia |].
  destruct (Z.leb_spec (rend r) b).
  - simpl. apply le_n_S, (IH (rend r)); try done. intros x Hx Hc. apply (Hno x Hx). rewrite covers_cons. by right.
  - exfalso. apply (Hno (Z.max b (base r))); [lia |]. rewrite covers_cons. unfold rend in *. lia.
Qed.

Lemma add_list_noop end_ y l : forall b, end_ <= y <= b -> ~ covers l y -> add_list b end_ l = l.
Proof.
  induction l as [| r l IH]; intros b Hy Hno; simpl; (destruct (Z.ltb_spec b end_); [lia |]); [done |].
  rewrite covers_cons in Hno. destruct (Z.leb_spec end_ (base r)); [done |].
  destruct (Z.leb_spec (rend r) b); [| lia]. f_equal. apply IH; [done |]. tauto.
Qed.

(** A region set that denotes a set of addresses: its live regions are
    sorted, non-empty, separated, and cover exactly it. *)
Definition denotes (set : memblock_region_set) (P : Z -> Prop) : Prop :=
  exists l, repr set l /\ wfs (-1) l /\ forall x, covers l x <-> P x.

Definition in_rng (b s x : Z) : Prop := b <= x < b + s.

Lemma add_pass_insert set l b end_ :
  repr set l -> wfw 0 l -> Z.of_nat (length (add_list b end_ l)) <= max set ->
  exists set' k, add_pass true set b end_ = Ret (set', k) /\
                 max set' = max set /\ repr set' (add_list b end_ l).
Proof.
  intros Hrep Hwf Hmax. unfold add_pass.
  destruct (add_loop_insert end_ l set [] b 0 0 (S (Z.to_nat (cnt set))))
    as (set1 & d & t & b' & k' & Heq & Hm & Hrep1 & Hadd);
    [done | done | rewrite (repr_cnt _ _ Hrep); lia | done |].
  change (Z.of_nat (length [])) with 0 in Heq. rewrite app_nil_l in *. rewrite Heq. simpl.
  rewrite Hadd in *. destruct (b' <? end_); simpl in *.
  - destruct (repr_insert set1 d t b' (end_ - b')) as (set2 & -> & Hm2 & Hrep2); [done | |].
    { rewrite length_app in *. simpl in Hmax. rewrite Hm. lia. }
    exists set2, (k' + 1). split_and!; try done. congruence.
  - exists set1, k'. done.
Qed.

Lemma add_pass_count set l b end_ :
  repr set l -> wfw 0 l ->
  add_pass false set b end_ =
    Ret (set, Z.of_nat (length (add_list b end_ l)) - Z.of_nat (length l)).
Proof.
  intros Hrep Hwf. unfold add_pass.
  destruct (add_loop_count end_ l set [] b 0 0 (S (Z.to_nat (cnt set))))
    as (i & b' & k' & Heq & Hk); [done | done | rewrite (repr_cnt _ _ Hrep); lia |].
  change (Z.of_nat (length [])) with 0 in Heq. rewrite Heq. simpl.
  destruct (b' <? end_); do 2 f_equal; lia.
Qed.

(** What [memblock_add_region] does to the live regions [l], by the room the
    pass needs. *)
Lemma add_region_live set l b s :
  repr set l -> wfs (-1) l -> 0 < max set < 2 ^ 32 -> 0 <= b -> 0 < s -> b + s < 2 ^ 64 ->
  let need := Z.of_nat (length (add_list b (b + s) l)) in
  (need <= max set /\
   exists set' l', memblock_add_region set b s = Ret set' /\ max set' = max set /\ repr set' l' /\
     wfs (-1) l' /\ Z.of_nat (length l') <= need /\ forall x, covers l' x <-> covers l x \/ in_rng b s x) \/
  (max set < need /\ memblock_add_region set b s = Halt Panic /\ max set < cnt set * 2 + 1).
Proof.
  intros Hrep Hwf Hmax Hb Hs He need. unfold memblock_add_region. cbv zeta.
  pose proof (repr_cnt _ _ Hrep) as Hc. pose proof (repr_max _ _ Hrep) as Hle.
  assert (Hww : wfw 0 l) by (by apply wfs_wfw).
  rewrite (u64_small (b + s)) by lia.
  destruct (Z.eqb_spec s 0) as [-> |]; [lia |].
  destruct (Z.eqb_spec (cnt set) 0) as [Hz | Hnz].
  { left. destruct l as [| r l]; [| simpl in Hc; lia].
    subst need. cbn [add_list]. destruct (Z.ltb_spec b (b + s)); [| lia]. cbn [length]. split; [lia |].
    destruct Hrep as ([| r0 rest] & Hr & _ & Hm); simpl in Hr, Hm; [lia |].
    rewrite Hr. rewrite wr_in_range by (simpl; lia). simpl.
    eexists _, [mk_region b s]; split_and!; [done | done | | | done |].
    - exists rest. simpl. split_and!; [done | lia | lia].
    - simpl. unfold rend. simpl. split_and!; try done; lia.
    - intros x. rewrite covers_cons. unfold in_rng, rend. simpl. tauto. }
  assert (Hins : need <= max set ->
    exists set' l', (let! (set, _) := add_pass true set b (b + s) in memblock_merge_regions set)
                 = Ret set' /\ max set' = max set /\ repr set' l' /\
     wfs (-1) l' /\ Z.of_nat (length l') <= need /\ forall x, covers l' x <-> covers l x \/ in_rng b s x).
  { intros Hfit.
    assert (Hwa : wfw 0 (add_list b (b + s) l)) by (apply add_list_wfw; try done; lia).
    destruct (add_pass_insert set l b (b + s)) as (set1 & k & -> & Hm1 & Hrep1); try done.
    destruct (merge_regions_repr set1 (add_list b (b + s) l) 0) as (set2 & -> & Hm2 & Hrep2); try done.
    exists set2, (merge_list (add_list b (b + s) l)). split_and!; [done | congruence | done | by apply merge_list_wfs | |].
    - pose proof (length_merge_list (add_list b (b + s) l)). lia.
    - intros x. rewrite merge_list_covers, add_list_covers by done. done. }
  pose proof (length_add_list_le (b + s) l b) as Hlen.
  rewrite u64_small by (pow2; lia).
  destruct (Z.leb_spec (cnt set * 2 + 1) (max set)) as [Hroom | Hroom].
  { left. split; [lia |]. apply Hins. lia. }
  rewrite (add_pass_count set l b (b + s)) by done.
  rewrite u64_small by (pow2; lia). change (Z.of_nat (length (add_list b (b + s) l))) with need.
  destruct (Z.ltb_spec (max set - cnt set) (need - Z.of_nat (length l))).
  - right. split_and!; [lia | done | lia].
  - left. split; [lia |]. apply Hins. lia.
Qed.

Lemma add_region_spec set (P : Z -> Prop) b s :
  denotes set P -> 0 < max set < 2 ^ 32 -> 0 <= b -> 0 <= s -> b + s < 2 ^ 64 ->
  (exists set', memblock_add_region set b s = Ret set' /\ max set' = max set /\
                denotes set' (fun x => P x \/ in_rng b s x)) \/
  (memblock_add_region set b s = Halt Panic /\ max set < cnt set * 2 + 1).
Proof.
  intros Hd Hmax Hb Hs He. destruct (Z.eqb_spec s 0) as [-> | Hs0].
  { left. exists set. split_and!; [done | done |]. destruct Hd as (l & Hr & Hw & HP). exists l. split_and!; try done.
    intros x. rewrite HP. unfold in_rng. split; [tauto | intros [|]; [done | lia]]. }
  destruct Hd as (l & Hrep & Hwf & HP).
  destruct (add_region_live set l b s) as [(_ & set' & l' & H1 & H2 & H3 & H4 & _ & H5) | (_ & H)];
    try done; try lia; [left | by right].
  exists set'. split_and!; try done. exists l'. split_and!; try done. intros x. by rewrite H5, HP.
Qed.

(** A size that wraps the end of the range round to its start or below changes
    nothing, as long as an address between is not in the set. *)
Lemma add_region_wrapped set (P : Z -> Prop) b s y :
  denotes set P -> max set < 2 ^ 32 -> cnt set <> 0 -> s <> 0 -> u64 (b + s) <= y <= b -> ~ P y ->
  exists set', memblock_add_region set b s = Ret set' /\ max set' = max set /\ cnt set' <= cnt set /\ denotes set' P.
Proof.
  intros (l & Hrep & Hwf & HP) Hmax Hc Hs Hy HPy. unfold memblock_add_region. cbv zeta.
  pose proof (repr_cnt _ _ Hrep) as Hcl. pose proof (repr_max _ _ Hrep) as Hle.
  assert (Hww : wfw 0 l) by (by apply wfs_wfw).
  assert (Hnoop : add_list b (u64 (b + s)) l = l) by (apply (add_list_noop _ y); [lia | by rewrite HP]).
  assert (Hins : exists set', (let! (set, _) := add_pass true set b (u64 (b + s)) in memblock_merge_regions set)
                 = Ret set' /\ max set' = max set /\ cnt set' <= cnt set /\ denotes set' P).
  { destruct (add_pass_insert set l b (u64 (b + s))) as (set1 & k & -> & Hm1 & Hrep1); [done | done | by rewrite Hnoop |].
    rewrite Hnoop in Hrep1.
    destruct (merge_regions_repr set1 l 0) as (set2 & -> & Hm2 & Hrep2); try done.
    exists set2. split_and!; [done | congruence | |].
    - rewrite (repr_cnt _ _ Hrep2). pose proof (length_merge_list l). lia.
    - exists (merge_list l). split_and!; [done | by apply merge_list_wfs |].
      intros x. rewrite merge_list_covers by done. apply HP. }
  destruct (Z.eqb_spec s 0); [done |]. destruct (Z.eqb_spec (cnt set) 0); [done |].
  rewrite (u64_small (cnt set * 2 + 1)) by (pow2; lia).
  destruct (Z.leb_spec (cnt set * 2 + 1) (max set)); [done |].
  rewrite (add_pass_count set l b _), Hnoop by done.
  rewrite (u64_small (max set - cnt set)) by (pow2; lia).
  destruct (Z.ltb_spec (max set - cnt set) (Z.of_nat (length l) - Z.of_nat (length l))); [lia | done].
Qed.

(** A range that meets no region takes one slot at most. *)
Lemma add_region_fresh set (P : Z -> Prop) b s :
  denotes set P -> max set < 2 ^ 32 -> 0 <= b -> 0 <= s -> b + s < 2 ^ 64 ->
  (forall x, in_rng b s x -> ~ P x) -> cnt set < max set ->
  exists set', memblock_add_region set b s = Ret set' /\ max set' = max set /\ cnt set' <= cnt set + 1 /\
               denotes set' (fun x => P x \/ in_rng b s x).
Proof.
  intros Hd Hmax Hb Hs He Hfree Hroom. destruct (Z.eqb_spec s 0) as [-> | Hs0].
  { exists set. split_and!; [done | done | lia |]. destruct Hd as (l & Hr & Hw & HP). exists l. split_and!; try done.
    intros x. rewrite HP. unfold in_rng. split; [tauto | intros [|]; [done | lia]]. }
  destruct Hd as (l & Hrep & Hwf & HP). pose proof (repr_cnt _ _ Hrep) as Hc.
  assert (Hneed : (length (add_list b (b + s) l) <= length l + 1)%nat).
  { apply (length_add_list_fresh _ _ 0); [by apply wfs_wfw | lia |]. intros x Hx Hcov. apply (Hfree x); [done |]. by apply HP. }
  destruct (add_region_live set l b s) as [(_ & set' & l' & H1 & H2 & H3 & H4 & H6 & H5) | (H & _)]; try done; try lia.
  exists set'. split_and!; try done.
  - rewrite (repr_cnt _ _ H3). lia.
  - exists l'. split_and!; try done. intros x. by rewrite H5, HP.
Qed.

(** ** Freeing *)

Fixpoint last_end (lo : Z) (l : list memblock_region) : Z :=
  match l with [] => lo | r :: l' => last_end (rend r) l' end.

Lemma wfs_app lo l1 l2 : wfs lo (l1 ++ l2) <-> wfs lo l1 /\ wfs (last_end lo l1) l2.
Proof. revert lo. induction l1 as [| r l1 IH]; intros lo; simpl; [tauto |]. rewrite IH. tauto. Qed.

Lemma wfs_covers_gt lo l x : wfs lo l -> covers l x -> lo < x.
Proof.
  revert lo. induction l as [| r l IH]; intros lo Hwf Hx; [by apply covers_nil in Hx |].
  simpl in Hwf. apply covers_cons in Hx as [Hx | Hx]; [lia |].
  destruct Hwf as (H1 & H2 & H3 & H4). specialize (IH _ H4 Hx). unfold rend in *. lia.
Qed.

Lemma wfs_last_end_ge lo l : wfs lo l -> lo <= last_end lo l.
Proof.
  revert lo. induction l as [| r l IH]; intros lo Hwf; simpl in *; [lia |].
  destruct Hwf as (H1 & H2 & H3 & H4). specialize (IH _ H4). unfold rend in *. lia.
Qed.

Lemma wfs_covers_lt lo l x : wfs lo l -> covers l x -> x < last_end lo l.
Proof.
  revert lo. induction l as [| r l IH]; intros lo Hwf Hx; [by apply covers_nil in Hx |].
  simpl in *. destruct Hwf as (H1 & H2 & H3 & H4). apply covers_cons in Hx as [Hx | Hx]; [| auto].
  apply wfs_last_end_ge in H4. lia.
Qed.

(** What is left of region [r] without [b, end_). *)
Definition pieces (r : memblock_region) (b end_ : Z) : list memblock_region :=
  (if base r <? b then [mk_region (base r) (b - base r)] else []) ++
  (if end_ <? rend r then [mk_region end_ (rend r - end_)] else []).

Lemma pieces_wfs lo l1 r l2 b end_ :
  wfs lo (l1 ++ r :: l2) -> base r <= b -> b < end_ -> end_ <= rend r ->
  wfs lo (l1 ++ pieces r b end_ ++ l2).
Proof.
  rewrite !wfs_app. intros [H1 H2] Hb Hbe He. split; [done |]. simpl in H2.
  destruct H2 as (H3 & H4 & H5 & H6). unfold pieces. unfold rend in *.
  destruct (Z.ltb_spec (base r) b), (Z.ltb_spec end_ (base r + size r)); simpl;
    unfold rend; simpl;
    rewrite ?(Z.add_sub_assoc _ b), ?(Z.add_sub_assoc end_), ?Z.add_simpl_l;
    repeat match goal with |- context [?a + ?c - ?a] => replace (a + c - a) with c by lia end;
    split_and!; try done; try lia;
    try (eapply wfs_le; [| exact H6]; lia).
  all: try lia.
Qed.

Lemma pieces_covers lo l1 r l2 b end_ x :
  wfs lo (l1 ++ r :: l2) -> base r <= b -> b < end_ -> end_ <= rend r ->
  covers (l1 ++ pieces r b end_ ++ l2) x <-> covers (l1 ++ r :: l2) x /\ ~ (b <= x < end_).
Proof.
  intros Hwf Hb Hbe He. apply wfs_app in Hwf as [H1 H2]. simpl in H2.
  destruct H2 as (H3 & H4 & H5 & H6).
  pose proof (wfs_covers_lt _ _ x H1). pose proof (wfs_covers_gt _ _ x H6).
  rewrite !covers_app, covers_cons.
  assert (covers (pieces r b end_) x <-> base r <= x < rend r /\ ~ (b <= x < end_)) as ->.
  { unfold pieces. rewrite covers_app.
    destruct (Z.ltb_spec (base r) b), (Z.ltb_spec end_ (rend r));
      rewrite ?covers_cons; unfold rend in *; simpl;
      pose proof (covers_nil x); intuition lia. }
  unfold rend in *. intuition lia.
Qed.

Lemma find_region_loop_spec set b end_ (l2 : list memblock_region) : forall l1 lo,
  repr set (l1 ++ l2) -> wfs lo l2 ->
  exists o, find_region_loop set b end_ (Z.of_nat (length l1)) (length l2) = Ret o /\
    match o with
    | Some i => exists k1 r k2, l2 = k1 ++ r :: k2 /\ i = Z.of_nat (length (l1 ++ k1)) /\
                                base r <= b /\ end_ <= rend r
    | None => Forall (fun r => ~ (base r <= b /\ end_ <= rend r)) l2
    end.
Proof.
  induction l2 as [| r l2 IH]; intros l1 lo Hrep Hwf; simpl find_region_loop.
  - exists None. done.
  - rewrite (repr_rd set l1 r l2) by done. simpl in Hwf. destruct Hwf as (H1 & H2 & H3 & H4).
    rewrite u64_small by (unfold rend in *; lia).
    destruct ((base r <=? b) && (end_ <=? base r + size r)) eqn:E.
    + exists (Some (Z.of_nat (length l1))). split; [done |].
      exists [], r, l2. rewrite app_nil_r. unfold rend. split_and!; try done; lia.
    + replace (Z.of_nat (length l1) + 1) with (Z.of_nat (length (l1 ++ [r])))
        by (rewrite length_app; simpl; lia).
      destruct (IH (l1 ++ [r]) (rend r)) as (o & -> & Ho); [by rewrite <- app_assoc | done |].
      exists o. split; [done |]. destruct o as [i |].
      * destruct Ho as (k1 & r' & k2 & -> & -> & ?).
        exists (r :: k1), r', k2. rewrite <- !app_assoc. done.
      * constructor; [unfold rend; lia | done].
Qed.

Lemma remove_region_repr set lo l1 r l2 b s :
  repr set (l1 ++ r :: l2) -> wfs lo (l1 ++ r :: l2) -> 0 < max set < 2 ^ 32 ->
  0 < s -> base r <= b -> b + s <= rend r ->
  (exists set', memblock_remove_region set (Z.of_nat (length l1)) b s = Ret set' /\
                max set' = max set /\ repr set' (l1 ++ pieces r b (b + s) ++ l2)) \/
  (memblock_remove_region set (Z.of_nat (length l1)) b s = Halt Panic /\ cnt set = max set).
Proof.
  intros Hrep Hwf Hmax Hs Hb He. pose proof (repr_max _ _ Hrep) as Hle.
  pose proof (repr_cnt _ _ Hrep) as Hc.
  apply wfs_app in Hwf as [_ Hwf]. simpl in Hwf. destruct Hwf as (H1 & H2 & H3 & _).
  unfold memblock_remove_region. rewrite (repr_rd set l1 r l2) by done.
  rewrite !u64_small by (unfold rend in *; pow2; lia). fold (rend r).
  destruct (Z.leb_spec (base r) b); [| lia]. destruct (Z.leb_spec (b + s) (rend r)); [| lia].
  simpl andb. unfold pieces.
  destruct (Z.eqb_spec b (base r)) as [-> |].
  - rewrite Z.ltb_irrefl. left. destruct (Z.eqb_spec (base r + s) (rend r)) as [E |].
    + destruct (repr_delete set l1 r l2 Hrep) as (set1 & -> & Hc1 & Hm1 & Hrep1).
      rewrite Hc1, Hm1. rewrite E, Z.ltb_irrefl. eexists. split_and!; done.
    + destruct (Z.ltb_spec (base r + s) (rend r)); [| lia].
      destruct (repr_wr set l1 r (mk_region (base r + s) (rend r - (base r + s))) l2 Hrep)
        as (rs & -> & Hrep1).
      eexists. split_and!; done.
  - destruct (Z.ltb_spec (base r) b); [| lia].
    destruct (Z.eqb_spec (b + s) (rend r)) as [E |].
    + left. rewrite E, Z.ltb_irrefl.
      destruct (repr_wr set l1 r (mk_region (base r) (b - base r)) l2 Hrep) as (rs & -> & Hrep1).
      eexists. split_and!; done.
    + destruct (Z.ltb_spec (b + s) (rend r)); [| lia].
      destruct (Z.ltb_spec (max set - 1) (cnt set)); [right; split; [done | lia] | left].
      set (g := mk_region (b + s) (rend r - (b + s))).
      replace (Z.of_nat (length l1) + 1) with (Z.of_nat (length (l1 ++ [r])))
        by (rewrite length_app; simpl; lia).
      destruct (repr_insert set (l1 ++ [r]) l2 (b + s) (rend r - (b + s)))
        as (set1 & -> & Hm1 & Hrep1);
        [by rewrite <- app_assoc | rewrite <- app_assoc; simpl; lia |].
      rewrite <- app_assoc in Hrep1. fold g in Hrep1.
      destruct (repr_wr set1 l1 r (mk_region (base r) (b - base r)) (g :: l2) Hrep1)
        as (rs & -> & Hrep2).
      eexists. split_and!; [done | done |]. done.
Qed.

(** A range not inside one of the separated regions has an uncovered address. *)
Lemma range_gap l : forall lo b end_,
  wfs lo l -> b < end_ -> Forall (fun r => ~ (base r <= b /\ end_ <= rend r)) l ->
  exists x, b <= x < end_ /\ ~ covers l x.
Proof.
  induction l as [| r l IH]; intros lo b end_ Hwf Hbe Hall.
  { exists b. split; [lia | apply covers_nil]. }
  simpl in Hwf. destruct Hwf as (H1 & H2 & H3 & H4).
  apply list.Forall_cons in Hall as [Hr Hall].
  pose proof (wfs_covers_gt _ _ b H4). pose proof (wfs_covers_gt _ _ (rend r) H4).
  destruct (Z.lt_ge_cases b (base r)).
  { exists b. split; [lia |]. rewrite covers_cons. unfold rend in *. intuition lia. }
  destruct (Z.lt_ge_cases b (rend r)).
  { exists (rend r). split; [lia |]. rewrite covers_cons. intuition lia. }
  destruct (IH (rend r) b end_) as (x & Hx & Hn); try done.
  exists x. split; [done |]. rewrite covers_cons. intuition lia.
Qed.

(** [memblock_free] of a range that is reserved throughout un-reserves
    exactly that range (or panics because splitting a region needs a slot the
    full array does not have); a range that is not wholly reserved is left
    alone. *)
Theorem memblock_free_correct mb (P : Z -> Prop) b s :
  denotes (reserved mb) P -> 0 < max (reserved mb) < 2 ^ 32 ->
  0 <= b -> 0 < s -> b + s < 2 ^ 64 ->
  (exists mb', memblock_free mb b s = Ret mb' /\ memory mb' = memory mb /\
     denotes (reserved mb') (fun x => P x /\ ~ in_rng b s x) /\
     forall x, in_rng b s x -> P x) \/
  (memblock_free mb b s = Ret mb /\ exists x, in_rng b s x /\ ~ P x) \/
  (memblock_free mb b s = Halt Panic /\ cnt (reserved mb) = max (reserved mb)).
Proof.
  intros (l & Hrep & Hwf & HP) Hmax Hb Hs He. unfold memblock_free, memblock_find_region.
  rewrite (repr_cnt _ _ Hrep), Nat2Z.id, (u64_small (b + s)) by lia.
  destruct (find_region_loop_spec (reserved mb) b (b + s) l [] (-1)) as (o & Ho & Hspec); try done.
  change (Z.of_nat (length [])) with 0 in Ho. rewrite Ho. destruct o as [i |].
  - destruct Hspec as (l1 & r & l2 & -> & -> & Hbr & Her). rewrite app_nil_l.
    destruct (remove_region_repr (reserved mb) (-1) l1 r l2 b s)
      as [(set' & -> & Hm' & Hrep') | (-> & Hfull)]; try done;
      [left | right; right; split; [done | by rewrite <- Hfull, (repr_cnt _ _ Hrep)]].
    eexists. split_and!; [done | done | | ].
    + exists (l1 ++ pieces r b (b + s) ++ l2). split_and!; [done | |].
      * apply pieces_wfs; try done; lia.
      * intros x. rewrite (pieces_covers (-1)) by (try done; lia). rewrite HP. done.
    + intros x Hx. apply HP, covers_app. right. apply covers_cons. left. unfold in_rng in *. lia.
  - right; left. split; [done |].
    destruct (range_gap l (-1) b (b + s)) as (x & Hx & Hn); try done; [lia |].
    exists x. split; [done |]. by rewrite <- HP.
Qed.

(** ** The free-range iterator

    The iterator intersects the memory regions with the gaps between the
    reserved ones.  [isect] is that intersection as a function on the two
    sorted lists. *)

Fixpoint gaps (lo : Z) (rl : list memblock_region) : list (Z * Z) :=
  match rl with
  | [] => [(lo, UINT64_MAX)]
  | r :: rl' => (lo, base r) :: gaps (rend r) rl'
  end.

Fixpoint isect (ms : list memblock_region) (gs : list (Z * Z)) : list (Z * Z) :=
  match ms with
  | [] => []
  | m :: ms' =>
      (fix inner gs :=
         match gs with
         | [] => isect ms' []
         | g :: gs' =>
             if rend m <=? g.1 then isect ms' (g :: gs')
             else if base m <? g.2 then
               (Z.max (base m) g.1, Z.min (rend m) g.2) ::
               (if rend m <=? g.2 then isect ms' (g :: gs') else inner gs')
             else inner gs'
         end) gs
  end.

Lemma isect_nil_r ms : isect ms [] = [].
Proof. induction ms; simpl; done. Qed.

Lemma isect_cons m ms g gs :
  isect (m :: ms) (g :: gs) =
  if rend m <=? g.1 then isect ms (g :: gs)
  else if base m <? g.2 then
    (Z.max (base m) g.1, Z.min (rend m) g.2) ::
    (if rend m <=? g.2 then isect ms (g :: gs) else isect (m :: ms) gs)
  else isect (m :: ms) gs.
Proof. done. Qed.

Fixpoint gaps_ok (lo : Z) (gs : list (Z * Z)) : Prop :=
  match gs with
  | [] => True
  | g :: gs' => lo <= g.1 <= g.2 /\ (g.1 < g.2 \/ g.2 <= 0 \/ UINT64_MAX <= g.1) /\ gaps_ok g.2 gs'
  end.

Definition in_ranges (rs : list (Z * Z)) (x : Z) : Prop := Exists (fun r => r.1 <= x < r.2) rs.

Fixpoint ranges_ok (lo : Z) (rs : list (Z * Z)) : Prop :=
  match rs with
  | [] => True
  | r :: rs' => lo <= r.1 < r.2 /\ ranges_ok r.2 rs'
  end.

Lemma in_ranges_cons r rs x : in_ranges (r :: rs) x <-> r.1 <= x < r.2 \/ in_ranges rs x.
Proof. apply Exists_cons. Qed.

Lemma in_ranges_nil x : ~ in_ranges [] x.
Proof. intros H. inversion H. Qed.

Lemma gaps_ok_ge lo gs x : gaps_ok lo gs -> in_ranges gs x -> lo <= x.
Proof.
  revert lo. induction gs as [| g gs IH]; intros lo Hok Hx; [by apply in_ranges_nil in Hx |].
  simpl in Hok. apply in_ranges_cons in Hx as [|Hx]; [lia |].
  destruct Hok as (? & ? & Hok). specialize (IH _ Hok Hx). lia.
Qed.

Lemma wfw_covers_ge lo l x : wfw lo l -> covers l x -> lo <= x.
Proof.
  revert lo. induction l as [| r l IH]; intros lo Hwf Hx; [by apply covers_nil in Hx |].
  simpl in Hwf. apply covers_cons in Hx as [Hx | Hx]; [lia |].
  destruct Hwf as (H1 & H2 & H3 & H4). specialize (IH _ H4 Hx). unfold rend in *. lia.
Qed.

Lemma wfw_covers_bound lo l x : wfw lo l -> covers l x -> lo <= x < UINT64_MAX.
Proof.
  intros Hwf Hx. split; [by eapply wfw_covers_ge |].
  revert lo Hwf. induction l as [| r l IH]; intros lo Hwf; [by apply covers_nil in Hx |].
  simpl in Hwf. apply covers_cons in Hx as [Hx | Hx].
  - unfold UINT64_MAX, rend in *. lia.
  - destruct Hwf as (_ & _ & _ & Hwf). eauto.
Qed.

Lemma isect_in ms x : forall gs lo glo, wfw lo ms -> gaps_ok glo gs ->
  in_ranges (isect ms gs) x <-> covers ms x /\ in_ranges gs x.
Proof.
  induction ms as [| m ms IHm]; intros gs lo glo Hwf.
  { intros _. simpl. split; [intros H; by apply in_ranges_nil in H |].
    intros [H _]. by apply covers_nil in H. }
  revert glo. pose proof Hwf as (Hb & Hs & He & Hwf').
  pose proof (wfw_covers_ge _ _ x Hwf') as Hge.
  induction gs as [| g gs IHg]; intros glo Hok.
  { rewrite isect_nil_r. pose proof (in_ranges_nil x). tauto. }
  pose proof Hok as (Hg1 & Hg2 & Hok'). pose proof (gaps_ok_ge _ _ x Hok') as Hgge.
  rewrite isect_cons. specialize (IHg _ Hok').
  pose proof (IHm (g :: gs) _ _ Hwf' Hok) as IHms.
  destruct (Z.leb_spec (rend m) g.1).
  { rewrite IHms, covers_cons, in_ranges_cons. unfold rend in *. intuition lia. }
  destruct (Z.ltb_spec (base m) g.2).
  - rewrite in_ranges_cons. cbn [fst snd].
    destruct (Z.leb_spec (rend m) g.2).
    + rewrite IHms, covers_cons, in_ranges_cons. unfold rend in *. intuition lia.
    + rewrite IHg, covers_cons, in_ranges_cons. unfold rend in *. intuition lia.
  - rewrite IHg, covers_cons, in_ranges_cons. unfold rend in *. intuition lia.
Qed.

Lemma ranges_ok_le lo lo' rs : lo' <= lo -> ranges_ok lo rs -> ranges_ok lo' rs.
Proof. destruct rs; simpl; [done |]. intros ? [??]. split; [lia | done]. Qed.

Lemma isect_ok ms : forall gs lo glo, wfw lo ms -> gaps_ok glo gs ->
  ranges_ok (Z.max lo glo) (isect ms gs).
Proof.
  induction ms as [| m ms IHm]; intros gs lo glo Hwf; [done |].
  revert lo glo Hwf. induction gs as [| g gs IHg]; intros lo glo Hwf Hok.
  { rewrite isect_nil_r. done. }
  pose proof Hwf as (Hb & Hs & He & Hwf'). pose proof Hok as (Hg1 & Hg2 & Hok').
  rewrite isect_cons.
  pose proof (IHm (g :: gs) _ _ Hwf' Hok) as IHms. pose proof (IHg lo _ Hwf Hok') as IHgs.
  destruct (Z.leb_spec (rend m) g.1).
  { eapply ranges_ok_le; [| exact IHms]. unfold rend in *; lia. }
  destruct (Z.ltb_spec (base m) g.2).
  - simpl. split; [unfold rend, UINT64_MAX in *; lia |].
    destruct (Z.leb_spec (rend m) g.2).
    + eapply ranges_ok_le; [| apply (IHm (g :: gs) (rend m) glo)]; try done. lia.
    + eapply ranges_ok_le; [| apply (IHg (base m) g.2)]; [lia | | done].
      simpl. split_and!; try done; lia.
  - eapply ranges_ok_le; [| exact IHgs]. lia.
Qed.

(** *** The index loops compute [isect] *)

Lemma pack_idx_val i j : 0 <= i < 2 ^ 32 -> 0 <= j < 2 ^ 32 -> pack_idx i j = i * 2 ^ 32 + j.
Proof.
  intros Hi Hj. unfold pack_idx. rewrite Z.shiftl_mul_pow2, u64_small by (pow2; lia).
  apply lor_pack; lia.
Qed.

Lemma unpack_idx i j : 0 <= i < 2 ^ 32 -> 0 <= j < 2 ^ 32 ->
  Z.land (Z.shiftr (pack_idx i j) 32) 4294967295 = i /\ Z.land (pack_idx i j) 4294967295 = j.
Proof.
  intros Hi Hj. rewrite pack_idx_val by done.
  change 4294967295 with (2 ^ 32 - 1).
  rewrite !land_ones_mod, Z.shiftr_div_pow2 by lia. pow2. zdm.
Qed.

Fixpoint scan_gaps (mst me i j : Z) (gs : list (Z * Z)) : scan :=
  match gs with
  | [] => NextMem j
  | g :: gs' =>
      if me <=? g.1 then NextMem j
      else if mst <? g.2 then
        Emit (Z.max mst g.1) (Z.min me g.2)
             (if me <=? g.2 then pack_idx (i + 1) j else pack_idx i (j + 1))
      else scan_gaps mst me i (j + 1) gs'
  end.

Lemma length_gaps lo rl : length (gaps lo rl) = S (length rl).
Proof. revert lo. induction rl; intros; simpl; [done |]. f_equal. auto. Qed.

Lemma gaps_lookup rl : forall lo j, (j <= length rl)%nat ->
  gaps lo rl !! j = Some (match j with O => lo | S j' => default 0 (rend <$> rl !! j') end,
                          default UINT64_MAX (base <$> rl !! j)).
Proof.
  induction rl as [| r rl IH]; intros lo j Hj.
  - destruct j; [done | simpl in Hj; lia].
  - destruct j as [| j]; [done |]. simpl in Hj. simpl gaps. simpl lookup.
    change (((lo, base r) :: gaps (rend r) rl) !! S j) with (gaps (rend r) rl !! j).
    rewrite IH by lia. destruct j; done.
Qed.

Lemma wfw_app_in lo l1 r l2 : wfw lo (l1 ++ r :: l2) -> 0 <= base r /\ 0 < size r /\ rend r < 2 ^ 64.
Proof.
  revert lo. induction l1 as [| r' l1 IH]; intros lo; simpl.
  - intros (?&?&?&?). lia.
  - intros (?&?&?&?). eauto.
Qed.

Lemma res_loop_scan rset rl mst me i : forall fuel j,
  repr rset rl -> wfw 0 rl -> (j <= S (length rl))%nat -> (S (length rl) - j < fuel)%nat ->
  res_loop rset mst me i (Z.of_nat j) fuel =
  Ret (scan_gaps mst me i (Z.of_nat j) (drop j (gaps 0 rl))).
Proof.
  induction fuel as [| fuel IH]; intros j Hrep Hwf Hj Hf; [lia |]. simpl res_loop.
  pose proof (repr_cnt _ _ Hrep) as Hc.
  destruct (Z.ltb_spec (Z.of_nat j) (cnt rset + 1)) as [Hlt | Hge].
  2: { rewrite drop_ge by (rewrite length_gaps; lia). done. }
  assert (Hl : gaps 0 rl !! j = Some (match j with O => 0 | S j' => default 0 (rend <$> rl !! j') end,
                          default UINT64_MAX (base <$> rl !! j))) by (apply gaps_lookup; lia).
  rewrite (drop_S _ _ _ Hl). simpl scan_gaps.
  assert ((if Z.of_nat j =? 0 then Ret 0
     else let! p := rd (regions rset) (Z.of_nat j - 1) in Ret (u64 (base p + size p))) =
     Ret (match j with O => 0 | S j' => default 0 (rend <$> rl !! j') end)) as ->.
  { destruct j as [| j']; [done |]. destruct (Z.eqb_spec (Z.of_nat (S j')) 0); [lia |].
    destruct (lookup_lt_is_Some_2 rl j') as [p Hp]; [lia |].
    pose proof (list_elem_of_split_length _ _ _ Hp) as (l1 & l2 & -> & Hlen).
    replace (Z.of_nat (S j') - 1) with (Z.of_nat (length l1)) by lia.
    rewrite (repr_rd rset l1 p l2) by done. rewrite Hp. simpl.
    rewrite u64_small; [done |]. apply wfw_app_in in Hwf. unfold rend in *; lia. }
  assert ((if Z.of_nat j <? cnt rset
     then let! r := rd (regions rset) (Z.of_nat j) in Ret (base r)
     else Ret UINT64_MAX) = Ret (default UINT64_MAX (base <$> rl !! j))) as ->.
  { destruct (Z.ltb_spec (Z.of_nat j) (cnt rset)).
    - destruct (lookup_lt_is_Some_2 rl j) as [p Hp]; [lia |].
      pose proof (list_elem_of_split_length _ _ _ Hp) as (l1 & l2 & -> & Hlen).
      rewrite Hlen, (repr_rd rset l1 p l2) by done. by rewrite <- Hlen, Hp.
    - rewrite lookup_ge_None_2 by lia. done. }
  cbn [fst snd].
  destruct (me <=? _); [done |]. destruct (mst <? _); [done |].
  replace (Z.of_nat j + 1) with (Z.of_nat (S j)) by lia. apply IH; try done; lia.
Qed.

Lemma scan_gaps_isect ml GL m ms i : forall gs j,
  drop i ml = m :: ms -> drop j GL = gs -> (j <= length GL)%nat ->
  match scan_gaps (base m) (rend m) (Z.of_nat i) (Z.of_nat j) gs with
  | Emit s e p => exists i' j', p = pack_idx (Z.of_nat i') (Z.of_nat j') /\
      isect (m :: ms) gs = (s, e) :: isect (drop i' ml) (drop j' GL) /\
      (i <= i' <= S i)%nat /\ (j <= j' <= length GL)%nat /\ (i + j < i' + j')%nat
  | NextMem k => exists j', k = Z.of_nat j' /\ (j <= j' <= length GL)%nat /\
      isect (m :: ms) gs = isect ms (drop j' GL)
  end.
Proof.
  assert (Hds : drop i ml = m :: ms -> drop (S i) ml = ms).
  { intros Hd. replace (S i) with (i + 1)%nat by lia. rewrite <- drop_drop, Hd. done. }
  induction gs as [| g gs IH]; intros j Hm Hg Hj.
  - simpl scan_gaps. exists j. rewrite Hg, !isect_nil_r. split_and!; try done; lia.
  - assert (Hdg : drop (S j) GL = gs).
    { replace (S j) with (j + 1)%nat by lia. rewrite <- drop_drop, Hg. done. }
    assert (Hj' : (j < length GL)%nat).
    { destruct (decide (j < length GL)%nat); [done |]. by rewrite drop_ge in Hg by lia. }
    simpl scan_gaps. rewrite isect_cons.
    destruct (rend m <=? g.1). { exists j. rewrite Hg. split_and!; try done; lia. }
    destruct (base m <? g.2).
    + destruct (rend m <=? g.2).
      * exists (S i), j. rewrite (Hds Hm), Hg.
        replace (Z.of_nat i + 1) with (Z.of_nat (S i)) by lia. split_and!; try done; lia.
      * exists i, (S j). rewrite Hm, Hdg.
        replace (Z.of_nat j + 1) with (Z.of_nat (S j)) by lia. split_and!; try done; lia.
    + replace (Z.of_nat j + 1) with (Z.of_nat (S j)) by lia.
      specialize (IH (S j) Hm Hdg ltac:(lia)).
      destruct (scan_gaps _ _ _ _ _).
      * destruct IH as (i' & j' & ? & ? & ? & ? & ?). exists i', j'. split_and!; try done; lia.
      * destruct IH as (j' & ? & ? & ?). exists j'. split_and!; try done; lia.
Qed.

#[local] Arguments res_loop : simpl never.

Section iterator.
Context (mb : memblock) (ml rl : list memblock_region).
Hypothesis (Hm : repr (memory mb) ml) (Hr : repr (reserved mb) rl).
Hypothesis (Hwm : wfw 0 ml) (Hwr : wfs (-1) rl).
Hypothesis (Hmm : max (memory mb) < 2 ^ 31) (Hmr : max (reserved mb) < 2 ^ 31).

Let GL := gaps 0 rl.

Lemma mem_loop_isect : forall fuel i j,
  (i <= length ml)%nat -> (j <= length GL)%nat -> (length ml - i < fuel)%nat ->
  (exists s e i' j',
     mem_loop mb (Z.of_nat i) (Z.of_nat j) fuel =
       Ret (Some (s, e), pack_idx (Z.of_nat i') (Z.of_nat j')) /\
     isect (drop i ml) (drop j GL) = (s, e) :: isect (drop i' ml) (drop j' GL) /\
     (i <= i' <= length ml)%nat /\ (j <= j' <= length GL)%nat /\ (i + j < i' + j')%nat) \/
  (mem_loop mb (Z.of_nat i) (Z.of_nat j) fuel = Ret (None, UINT64_MAX) /\
   isect (drop i ml) (drop j GL) = []).
Proof using All.
  induction fuel as [| fuel IH]; intros i j Hi Hj Hf; [lia |]. cbn [mem_loop].
  pose proof (repr_cnt _ _ Hm) as Hc. pose proof (repr_cnt _ _ Hr) as Hcr.
  destruct (Z.ltb_spec (Z.of_nat i) (cnt (memory mb))).
  2: { right. split; [done |]. rewrite drop_ge by lia. done. }
  destruct (lookup_lt_is_Some_2 ml i) as [m Hlm]; [lia |].
  destruct (list_elem_of_split_length _ _ _ Hlm) as (l1 & l2 & Hml & Hlen).
  assert (Hrd : rd (regions (memory mb)) (Z.of_nat i) = Ret m).
  { rewrite Hlen. apply (repr_rd _ l1 m l2). by rewrite <- Hml. }
  rewrite Hrd. pose proof Hwm as Hwm'. rewrite Hml in Hwm'.
  apply wfw_app_in in Hwm'. rewrite u64_small by (unfold rend in *; lia). fold (rend m).
  rewrite (res_loop_scan (reserved mb) rl); try done;
    [| by apply wfs_wfw | unfold GL in Hj; rewrite length_gaps in Hj; lia | lia].
  pose proof (scan_gaps_isect ml GL m (drop (S i) ml) i (drop j GL) j
                (drop_S _ _ _ Hlm) eq_refl Hj) as Hscan.
  rewrite (drop_S _ _ _ Hlm). fold GL.
  destruct (scan_gaps _ _ _ _ _) as [s e p | k].
  - left. destruct Hscan as (i' & j' & -> & Heq & ? & ? & ?).
    exists s, e, i', j'. split_and!; try done; lia.
  - destruct Hscan as (j' & -> & Hj' & Heq).
    replace (Z.of_nat i + 1) with (Z.of_nat (S i)) by lia. rewrite Heq.
    destruct (IH (S i) j') as [(s & e & i2 & j2 & -> & ? & ? & ? & ?) | [-> ?]]; try lia.
    + left. exists s, e, i2, j2. split_and!; try done; lia.
    + right. done.
Qed.

Lemma mem_ranges_isect : forall fuel i j,
  (i <= length ml)%nat -> (j <= length GL)%nat ->
  (length ml - i + (length GL - j) < fuel)%nat ->
  mem_ranges_from mb (pack_idx (Z.of_nat i) (Z.of_nat j)) fuel =
  Ret (isect (drop i ml) (drop j GL)).
Proof using All.
  pose proof (repr_max _ _ Hm) as Hml. pose proof (repr_max _ _ Hr) as Hrl.
  pose proof (repr_cnt _ _ Hm) as Hc.
  assert (HGL : length GL = S (length rl)) by apply length_gaps.
  induction fuel as [| fuel IH]; intros i j Hi Hj Hf; [lia |]. cbn [mem_ranges_from].
  unfold next_mem_range.
  destruct (unpack_idx (Z.of_nat i) (Z.of_nat j)) as [-> ->]; try (pow2; lia).
  destruct (mem_loop_isect (S (Z.to_nat (cnt (memory mb)))) i j)
    as [(s & e & i' & j' & -> & -> & ? & ? & ?) | [-> ->]]; try lia; [| done].
  destruct (Z.eqb_spec (pack_idx (Z.of_nat i') (Z.of_nat j')) UINT64_MAX) as [E |].
  { rewrite pack_idx_val in E by (pow2; lia). unfold UINT64_MAX in E. pow2. lia. }
  rewrite IH by lia. done.
Qed.

Lemma for_each_isect : for_each_mem_range mb = Ret (isect ml GL).
Proof using All.
  unfold for_each_mem_range.
  apply (mem_ranges_isect _ 0%nat 0%nat); [lia | lia |].
  rewrite (repr_cnt _ _ Hm), (repr_cnt _ _ Hr). unfold GL. rewrite length_gaps. lia.
Qed.
End iterator.

Lemma gaps_wf rl : forall lo, 0 <= lo <= UINT64_MAX -> wfs lo rl \/ lo = 0 /\ wfs (-1) rl ->
  gaps_ok lo (gaps lo rl) /\
  forall x, in_ranges (gaps lo rl) x <-> lo <= x < UINT64_MAX /\ ~ covers rl x.
Proof.
  induction rl as [| r rl IH]; intros lo Hlo Hwf.
  - simpl. split; [unfold UINT64_MAX in *; split_and!; try done; lia |].
    intros x. rewrite in_ranges_cons. simpl. pose proof (covers_nil x).
    pose proof (in_ranges_nil x). intuition lia.
  - assert (H : (lo < base r \/ lo = 0 /\ 0 <= base r) /\ 0 < size r /\ rend r < 2 ^ 64 /\ wfs (rend r) rl).
    { simpl in Hwf. intuition lia. }
    destruct H as (H1 & H2 & H3 & H4).
    assert (0 <= base r) by lia.
    destruct (IH (rend r)) as [IH1 IH2]; [unfold UINT64_MAX, rend in *; lia | by left |].
    assert (Hc : gaps_ok (base r) (gaps (rend r) rl)).
    { destruct (gaps (rend r) rl); [done |]. destruct IH1 as (? & ? & ?).
      simpl. split_and!; try done; unfold rend in *; lia. }
    split.
    + simpl. split_and!; try done; lia.
    + intros x. simpl gaps. rewrite in_ranges_cons, IH2, covers_cons. cbn [fst snd].
      pose proof (wfs_covers_gt _ _ x H4). unfold UINT64_MAX, rend in *.
      split; [intuition lia |]. intros [? Hn].
      destruct (Z.lt_ge_cases x (base r)); [left; lia | right].
      split; [| tauto]. split; [| lia]. apply Z.nlt_ge. intros ?. apply Hn. left. lia.
Qed.

Lemma for_each_spec mb (M R : Z -> Prop) :
  denotes (memory mb) M -> denotes (reserved mb) R ->
  max (memory mb) < 2 ^ 31 -> max (reserved mb) < 2 ^ 31 ->
  exists rs, for_each_mem_range mb = Ret rs /\ ranges_ok 0 rs /\
             forall x, in_ranges rs x <-> M x /\ ~ R x.
Proof.
  intros (ml & Hm & Hwm & HM) (rl & Hr & Hwr & HR) Hmm Hmr.
  assert (Hww : wfw 0 ml) by (by apply wfs_wfw).
  exists (isect ml (gaps 0 rl)). split; [by apply for_each_isect |].
  destruct (gaps_wf rl 0) as [Hok Hin]; [unfold UINT64_MAX; lia | by right |].
  split; [by apply (isect_ok ml (gaps 0 rl) 0 0) |].
  intros x. rewrite (isect_in ml x (gaps 0 rl) 0 0), Hin, HM, HR by done.
  split; [tauto |]. intros [HMx ?]. split_and!; try done; apply HM in HMx;
    eapply wfw_covers_bound; eauto.
Qed.

(** ** Allocation *)

Lemma init_memblock_denotes :
  denotes (memory init_memblock) (fun _ => False) /\
  denotes (reserved init_memblock) (fun _ => False).
Proof.
  split; (exists []; split_and!; [| done | intros x; split; [apply covers_nil | done]]).
  all: exists (replicate 32 (mk_region 0 0)); done.
Qed.

Lemma alloc_loop_spec rs sz min_addr k : forall lo,
  0 <= lo -> ranges_ok lo rs -> (forall x, in_ranges rs x -> x < 2 ^ 63) ->
  0 <= k <= 32 -> 0 < sz < 2 ^ 62 ->
  match alloc_loop rs sz min_addr (2 ^ k) with
  | Some a => a mod 2 ^ k = 0 /\ min_addr <= a /\ 0 <= a /\ a + sz < 2 ^ 64 /\
              forall x, in_rng a sz x -> in_ranges rs x
  | None => Forall (fun r => r.1 < min_addr \/ r.2 < round_up r.1 (2 ^ k) + sz) rs
  end.
Proof.
  induction rs as [| [st e] rs IH]; intros lo Hlo Hok Hlt Hk Hsz; simpl; [constructor |].
  simpl in Hok. destruct Hok as [Hse Hok].
  assert (Hst : st < 2 ^ 63) by (apply Hlt, in_ranges_cons; left; simpl; lia).
  assert (IHc : match alloc_loop rs sz min_addr (2 ^ k) with
    | Some a => a mod 2 ^ k = 0 /\ min_addr <= a /\ 0 <= a /\ a + sz < 2 ^ 64 /\
                forall x, in_rng a sz x -> in_ranges ((st, e) :: rs) x
    | None => Forall (fun r => r.1 < min_addr \/ r.2 < round_up r.1 (2 ^ k) + sz) rs
    end).
  { specialize (IH e ltac:(lia) Hok). case_match.
    - destruct IH as (?&?&?&?&Hin); try done.
      { intros x Hx. apply Hlt, in_ranges_cons. by right. }
      split_and!; try done. intros x Hx. apply in_ranges_cons. right. auto.
    - apply IH; try done. intros x Hx. apply Hlt, in_ranges_cons. by right. }
  assert (2 ^ k <= 2 ^ 32) by (apply Z.pow_le_mono_r; lia).
  destruct (round_up_bounds st k) as [Ha Hb]; try (pow2; lia).
  destruct (Z.ltb_spec st min_addr).
  { case_match; [done |]. constructor; [by left | done]. }
  rewrite Z.max_l by lia. rewrite u64_small by (pow2; lia).
  destruct (Z.ltb_spec e (round_up st (2 ^ k) + sz)).
  - case_match; [done |]. constructor; [by right | done].
  - split_and!; try done; try (pow2; lia).
    intros x Hx. apply in_ranges_cons. left. unfold in_rng in Hx. simpl. lia.
Qed.

(** C17: [memblock_alloc] returns an aligned range of free memory at or above
    [min_addr] and reserves exactly it, or returns 0 with the map unchanged
    when no free range that starts at or above [min_addr] is long enough. *)
Theorem memblock_alloc_correct mb (M R : Z -> Prop) sz min_addr k :
  denotes (memory mb) M -> denotes (reserved mb) R ->
  max (memory mb) < 2 ^ 31 -> cnt (reserved mb) * 2 + 1 <= max (reserved mb) < 2 ^ 31 ->
  (forall x, M x -> x < 2 ^ 63) -> 0 <= k <= 32 -> 0 < sz < 2 ^ 62 ->
  exists mb' a, memblock_alloc mb sz min_addr (2 ^ k) = Ret (mb', a) /\
    memory mb' = memory mb /\
    ((a mod 2 ^ k = 0 /\ min_addr <= a /\
      (forall x, in_rng a sz x -> M x /\ ~ R x) /\
      denotes (reserved mb') (fun x => R x \/ in_rng a sz x)) \/
     (a = 0 /\ mb' = mb /\ exists rs, for_each_mem_range mb = Ret rs /\
      Forall (fun r => r.1 < min_addr \/ r.2 < round_up r.1 (2 ^ k) + sz) rs)).
Proof.
  intros HM HR Hmm Hmr Hlt Hk Hsz. unfold memblock_alloc.
  rewrite is_power_of_two_pow2 by lia.
  destruct (for_each_spec mb M R) as (rs & -> & Hok & Hin); try done; [lia |].
  assert (Hb63 : forall x, in_ranges rs x -> x < 2 ^ 63) by (intros x Hx; apply Hlt; by apply Hin).
  pose proof (alloc_loop_spec rs sz min_addr k 0 ltac:(lia) Hok Hb63 Hk Hsz) as Hal.
  destruct (alloc_loop rs sz min_addr (2 ^ k)) as [a |].
  - destruct Hal as (Ha & Hmin & Ha0 & Hab & Hfree).
    unfold memblock_reserve.
    assert (0 <= cnt (reserved mb)) by (destruct HR as (? & Hr & _); rewrite (repr_cnt _ _ Hr); lia).
    destruct (add_region_spec (reserved mb) R a sz)
      as [(set' & -> & _ & Hden) | [_ Hfull]]; try done; try (pow2; lia).
    eexists _, a. split_and!; [done | done |]. left.
    split_and!; try done; intros; by apply Hin, Hfree.
  - exists mb, 0. split_and!; [done | done |]. right. split_and!; try done.
    exists rs. done.
Qed.

(** A free range that starts below [min_addr] is skipped even when the
    part of it above [min_addr] is large enough: the [max(start, min_addr)]
    of the source never takes its second argument. *)
Theorem memblock_alloc_skips_straddling mb (M R : Z -> Prop) sz min_addr k :
  denotes (memory mb) M -> denotes (reserved mb) R ->
  max (memory mb) < 2 ^ 31 -> max (reserved mb) < 2 ^ 31 -> 0 <= k < 64 ->
  (forall rs, for_each_mem_range mb = Ret rs -> Forall (fun r => r.1 < min_addr) rs) ->
  memblock_alloc mb sz min_addr (2 ^ k) = Ret (mb, 0).
Proof.
  intros HM HR Hmm Hmr Hk Hall. unfold memblock_alloc. rewrite is_power_of_two_pow2 by lia.
  destruct (for_each_spec mb M R) as (rs & Hrs & _ & _); try done.
  specialize (Hall rs Hrs). rewrite Hrs. clear Hrs.
  induction Hall as [| [st e] rs Hst Hall IH]; [done |]. simpl in *.
  destruct (Z.ltb_spec st min_addr); [done | lia].
Qed.

(** ** Properties of the operations *)

(** [memblock_add_region] adds exactly the range [b, b+s) to the set and
    keeps it sorted, separated and merged; it panics only when the range needs
    more slots than the array has. *)
Theorem memblock_add_region_correct set (P : Z -> Prop) b s :
  denotes set P -> 0 < max set < 2 ^ 32 -> 0 <= b -> 0 <= s -> b + s < 2 ^ 64 ->
  (exists set', memblock_add_region set b s = Ret set' /\ max set' = max set /\
                denotes set' (fun x => P x \/ in_rng b s x)) \/
  (memblock_add_region set b s = Halt Panic /\ max set < cnt set * 2 + 1).
Proof. apply add_region_spec. Qed.


(** [for_each_mem_range] enumerates exactly the memory that is not
    reserved, as non-empty ranges in increasing order, and terminates. *)
Theorem for_each_mem_range_correct mb (M R : Z -> Prop) :
  denotes (memory mb) M -> denotes (reserved mb) R ->
  max (memory mb) < 2 ^ 31 -> max (reserved mb) < 2 ^ 31 ->
  exists rs, for_each_mem_range mb = Ret rs /\ ranges_ok 0 rs /\
             forall x, in_ranges rs x <-> M x /\ ~ R x.
Proof. apply for_each_spec. Qed.


(** ** Witnesses *)

(** 128 MiB at 0x80000000, the first 2 MiB reserved. *)
Definition demo : memblock :=
  match memblock_add init_memblock 2147483648 134217728 with
  | Ret mb => match memblock_reserve mb 2147483648 2097152 with Ret mb => mb | Halt _ => mb end
  | Halt _ => init_memblock
  end.

Definition demo_mem (x : Z) : Prop := in_rng 2147483648 134217728 x.
Definition demo_res (x : Z) : Prop := in_rng 2147483648 2097152 x.

Lemma demo_denotes : denotes (memory demo) demo_mem /\ denotes (reserved demo) demo_res.
Proof.
  split; [exists [mk_region 2147483648 134217728] | exists [mk_region 2147483648 2097152]];
    (split_and!; [exists (replicate 31 (mk_region 0 0)); vm_compute; done | | ]).
  1,3: simpl; unfold rend; simpl; split_and!; try done; lia.
  all: intros x; rewrite covers_cons; unfold demo_mem, demo_res, in_rng, rend; simpl;
    pose proof (covers_nil x); tauto.
Qed.

Lemma memblock_add_region_witness :
  exists set', memblock_add_region (reserved demo) 2151677952 4096 = Ret set' /\
    denotes set' (fun x => demo_res x \/ in_rng 2151677952 4096 x).
Proof.
  destruct (memblock_add_region_correct (reserved demo) demo_res 2151677952 4096)
    as [(set' & H & _ & Hd) | [H _]];
    [apply demo_denotes | vm_compute; done | lia | lia | lia | exists set'; done |].
  vm_compute in H. discriminate H.
Defined.

Lemma memblock_free_witness :
  exists mb', memblock_free demo 2147487744 4096 = Ret mb' /\
    denotes (reserved mb') (fun x => demo_res x /\ ~ in_rng 2147487744 4096 x).
Proof.
  destruct (memblock_free_correct demo demo_res 2147487744 4096)
    as [(mb' & H & _ & Hd & _) | [(_ & x & Hx & Hn) | [H _]]];
    [apply demo_denotes | vm_compute; done | lia | lia | lia | exists mb'; done | |].
  - exfalso. apply Hn. unfold demo_res, in_rng in *. lia.
  - vm_compute in H. discriminate H.
Defined.

Lemma for_each_mem_range_witness :
  exists rs, for_each_mem_range demo = Ret rs /\ rs = [(2149580800, 2281701376)].
Proof.
  destruct (for_each_mem_range_correct demo demo_mem demo_res) as (rs & H & _);
    [apply demo_denotes | apply demo_denotes | vm_compute; done | vm_compute; done |].
  exists rs. split; [exact H |]. vm_compute in H. congruence.
Defined.

Lemma memblock_alloc_witness :
  exists mb' a, memblock_alloc demo 4096 0 (2 ^ 12) = Ret (mb', a) /\ a = 2149580800.
Proof.
  destruct (memblock_alloc_correct demo demo_mem demo_res 4096 0 12) as (mb' & a & H & _);
    [apply demo_denotes | apply demo_denotes | vm_compute; done | vm_compute; done
    | unfold demo_mem, in_rng; lia | lia | lia |].
  exists mb', a. split; [exact H |]. vm_compute in H. congruence.
Defined.

(** The free range of [demo] has more than 120 MiB above 2149584896, and the
    request for one page there still fails. *)
Lemma memblock_alloc_skips_straddling_witness :
  memblock_alloc demo 4096 2149584896 (2 ^ 12) = Ret (demo, 0).
Proof.
  apply (memblock_alloc_skips_straddling demo demo_mem demo_res);
    [apply demo_denotes | apply demo_denotes | vm_compute; done | vm_compute; done | lia |].
  intros rs H. vm_compute in H. injection H as <-. repeat constructor.
Defined.
