(* ===== verification/Buddy.v ===== *)
(** * mm/pgalloc.c: the buddy page allocator with per-CPU caches

    Pages are named by their frame number: [struct page *pg] is
    [page_to_pfn(pg)].  [mem_map] is the [struct page] array behind
    VMEMMAP_START; a frame it does not hold is memory without a page
    descriptor, and touching it is a [Fault].  The intrusive [buddy_lru] lists
    are lists of frame numbers, head first.  What a routine does under a lock is
    one step; [page_alloc], which drops the lock between its two attempts (to
    drain the caches and shrink the page cache), is taken as one step too, so
    its theorem is about a call that no other CPU interferes with.  [cpu] is
    [this_cpuid()]. *)

From S2P Require Import Prelude Refcnt.

Definition PAGE_SHIFT : Z := 12.
Definition PAGE_SIZE : Z := 4096.
Definition PAGE_ORDER_MAX : Z := 12.
Definition PCP_MAX_ORDER0 : Z := 64.
Definition MAX_CPUS : Z := 8.

Definition PAGE_FLAGS_BUDDY : Z := 1.
Definition PAGE_FLAGS_HEAD : Z := 2.
Definition PAGE_FLAGS_SLAB : Z := 4.
Definition PAGE_FLAGS_FREE : Z := 8.
Definition PAGE_FLAGS_KMALLOC : Z := 16.
Definition PAGE_FLAGS_PCP : Z := 32.
Definition PAGE_FLAGS_NEW_PAGE : Z := Z.lor PAGE_FLAGS_BUDDY PAGE_FLAGS_HEAD.
Definition PAGE_FLAGS_NEW_FREE_PAGE : Z :=
  Z.lor (Z.lor PAGE_FLAGS_BUDDY PAGE_FLAGS_HEAD) PAGE_FLAGS_FREE.

(** ** Data *)

Record page : Set := mk_page { flags : Z; refcnt : Z; buddy_page_order : Z }.

Record pcp_cache : Set := mk_pcp { pages : list Z; count : Z }.

Record buddy_state : Set := mk_buddy {
  mem_map : gmap Z page;
  areas : Z -> list Z;          (* areas[0 .. PAGE_ORDER_MAX] *)
  pcps : Z -> pcp_cache         (* pcps[0 .. MAX_CPUS) *)
}.

Definition has (f bit : Z) : bool := negb (Z.land f bit =? 0).

Definition get_page (st : buddy_state) (pg : Z) : res page :=
  match mem_map st !! pg with Some p => Ret p | None => Halt Fault end.

Definition set_page (st : buddy_state) (pg : Z) (p : page) : buddy_state :=
  mk_buddy (<[pg := p]> (mem_map st)) (areas st) (pcps st).

Definition set_area (st : buddy_state) (order : Z) (l : list Z) : buddy_state :=
  mk_buddy (mem_map st) (<[order := l]> (areas st)) (pcps st).

Definition set_pcp (st : buddy_state) (cpu : Z) (c : pcp_cache) : buddy_state :=
  mk_buddy (mem_map st) (areas st) (<[cpu := c]> (pcps st)).

(** [list_add(&pg->buddy_lru, &areas[order].free_list)]. *)
Definition area_add (st : buddy_state) (pg order : Z) : res buddy_state :=
  if decide (0 <= order <= PAGE_ORDER_MAX) then Ret (set_area st order (pg :: areas st order))
  else Halt Fault.

(** [list_del(&pg->buddy_lru)] for a page on the free list of [order]. *)
Definition area_del (st : buddy_state) (pg order : Z) : buddy_state :=
  set_area st order (filter (fun q => q <> pg) (areas st order)).

(** ** include/brk/pgalloc.h *)

Definition find_buddy_pfn (pfn order : Z) : Z := Z.lxor pfn (Z.shiftl 1 order).

Definition pfn_to_phys (phys_offset pfn : Z) : Z :=
  u64 (u64 (Z.shiftl pfn PAGE_SHIFT) + phys_offset).

Definition phys_to_pfn (phys_offset paddr : Z) : Z :=
  Z.shiftr (u64 (paddr - phys_offset)) PAGE_SHIFT.

Fixpoint page_order_loop (size order : Z) (n : nat) : Z :=
  match n with
  | O => PAGE_ORDER_MAX
  | S n' =>
      if size <=? u32 (PAGE_SIZE * Z.shiftl 1 order) then order
      else page_order_loop size (order + 1) n'
  end.

Definition page_order (size : Z) : Z := page_order_loop size 0 12.

(** ** Per-CPU caches *)

Definition pcp_alloc (st : buddy_state) (cpu : Z) : res (buddy_state * option Z) :=
  let pcp := pcps st cpu in
  match pages pcp with
  | [] => Ret (st, None)
  | pg :: rest =>
      let st := set_pcp st cpu (mk_pcp rest (u32 (count pcp - 1))) in
      let! p := get_page st pg in
      assert! has (flags p) PAGE_FLAGS_PCP in
      let f := Z.land (flags p) (Z.lnot (Z.lor PAGE_FLAGS_FREE PAGE_FLAGS_PCP)) in
      Ret (set_page st pg (mk_page f (refcnt p) 0), Some pg)
  end.

Definition pcp_free (st : buddy_state) (cpu pg : Z) : res (buddy_state * bool) :=
  let pcp := pcps st cpu in
  if count pcp <? PCP_MAX_ORDER0 then
    let! p := get_page st pg in
    let st := set_page st pg
                (mk_page (Z.lor PAGE_FLAGS_NEW_FREE_PAGE PAGE_FLAGS_PCP) (refcnt p) 0) in
    Ret (set_pcp st cpu (mk_pcp (pg :: pages pcp) (u32 (count pcp + 1))), true)
  else Ret (st, false).

(** ** Freeing *)

Definition page_is_buddy (b : page) (order : Z) : bool :=
  if negb (has (flags b) PAGE_FLAGS_BUDDY) then false
  else if negb (has (flags b) PAGE_FLAGS_HEAD) then false
  else if negb (has (flags b) PAGE_FLAGS_FREE) then false
  else if has (flags b) PAGE_FLAGS_PCP then false
  else if negb (buddy_page_order b =? order) then false
  else true.

(** [while (order < PAGE_ORDER_MAX)], [n] orders left. *)
Fixpoint merge_loop (st : buddy_state) (pg order : Z) (n : nat)
    : res (buddy_state * Z * Z) :=
  match n with
  | O => Ret (st, pg, order)
  | S n' =>
      let buddy := find_buddy_pfn pg order in
      let! b := get_page st buddy in
      if negb (page_is_buddy b order) then Ret (st, pg, order)
      else
        let st := area_del st buddy order in
        let st := set_page st buddy (mk_page 0 (refcnt b) (buddy_page_order b)) in
        merge_loop st (Z.min pg buddy) (order + 1) n'
  end.

Definition page_free_to_buddy (phys_offset : Z) (st : buddy_state) (pg order : Z)
    : res buddy_state :=
  let! p := get_page st pg in
  assert! has (flags p) PAGE_FLAGS_BUDDY in
  assert! negb (has (flags p) PAGE_FLAGS_FREE) in
  assert! negb (has (flags p) PAGE_FLAGS_PCP) in
  assert! has (flags p) PAGE_FLAGS_HEAD in
  assert! is_aligned (pfn_to_phys phys_offset pg) (Z.shiftl 1 (PAGE_SHIFT + order)) in
  let st := set_page st pg (mk_page 0 (refcnt p) (buddy_page_order p)) in
  let! (st, pg, order) := merge_loop st pg order (Z.to_nat (PAGE_ORDER_MAX - order)) in
  let! p := get_page st pg in
  let st := set_page st pg (mk_page PAGE_FLAGS_NEW_FREE_PAGE (refcnt p) order) in
  area_add st pg order.

Definition page_free (phys_offset : Z) (st : buddy_state) (cpu pg order : Z)
    : res buddy_state :=
  let! p := get_page st pg in
  assert! has (flags p) PAGE_FLAGS_BUDDY in
  assert! negb (has (flags p) PAGE_FLAGS_FREE) in
  assert! has (flags p) PAGE_FLAGS_HEAD in
  assert! is_aligned (pfn_to_phys phys_offset pg) (Z.shiftl 1 (PAGE_SHIFT + order)) in
  if order =? 0 then
    let! (st, cached) := pcp_free st cpu pg in
    if cached then Ret st else page_free_to_buddy phys_offset st pg order
  else page_free_to_buddy phys_offset st pg order.

(** [while (!list_empty(&pcp->pages))] for one CPU. *)
Fixpoint drain_loop (phys_offset : Z) (st : buddy_state) (cpu : Z) (n : nat)
    : res buddy_state :=
  match pages (pcps st cpu) with
  | [] => Ret st
  | pg :: rest =>
      match n with
      | O => Halt Fuel
      | S n' =>
          let st := set_pcp st cpu (mk_pcp rest (u32 (count (pcps st cpu) - 1))) in
          let! p := get_page st pg in
          assert! has (flags p) PAGE_FLAGS_PCP in
          let st := set_page st pg (mk_page PAGE_FLAGS_NEW_PAGE (refcnt p) 0) in
          let! st := page_free_to_buddy phys_offset st pg 0 in
          drain_loop phys_offset st cpu n'
      end
  end.

(** [for (int i = 0; i < MAX_CPUS; ++i)], [n] CPUs left. *)
Fixpoint pcp_drain_from (phys_offset : Z) (st : buddy_state) (i : Z) (n : nat)
    : res buddy_state :=
  match n with
  | O => Ret st
  | S n' =>
      let! st := drain_loop phys_offset st i (length (pages (pcps st i))) in
      pcp_drain_from phys_offset st (i + 1) n'
  end.

Definition pcp_drain_all (phys_offset : Z) (st : buddy_state) : res buddy_state :=
  pcp_drain_from phys_offset st 0 (Z.to_nat MAX_CPUS).

(** ** Allocating *)

(** The search for a non-empty free list from [curr_order] up: the page at
    the tail of the first one, taken off it. *)
Fixpoint find_area (st : buddy_state) (curr_order : Z) (n : nat)
    : option (buddy_state * Z) :=
  match n with
  | O => None
  | S n' =>
      match list.last (areas st curr_order) with
      | Some pg => Some (area_del st pg curr_order, pg)
      | None => find_area st (curr_order + 1) n'
      end
  end.

(** [while (curr->buddy_page_order > order)]. *)
Fixpoint split_loop (st : buddy_state) (curr order : Z) (n : nat) : res buddy_state :=
  let! c := get_page st curr in
  if order <? buddy_page_order c then
    match n with
    | O => Halt Fuel
    | S n' =>
        let buddy := curr + Z.shiftr (Z.shiftl 1 (buddy_page_order c)) 1 in
        let o := buddy_page_order c - 1 in
        let st := set_page st curr (mk_page (flags c) (refcnt c) o) in
        let! b := get_page st buddy in
        let st := set_page st buddy (mk_page PAGE_FLAGS_NEW_FREE_PAGE (refcnt b) o) in
        let! st := area_add st buddy o in
        split_loop st curr order n'
    end
  else Ret st.

(** One attempt: the per-CPU cache for a single page, then the free lists. *)
Definition page_alloc_try (st : buddy_state) (cpu order : Z)
    : res (buddy_state * option Z) :=
  let! (st, r) := (if order =? 0 then pcp_alloc st cpu else Ret (st, None)) in
  match r with
  | Some curr =>
      let! c := get_page st curr in
      Ret (set_page st curr (mk_page (flags c) 1 (buddy_page_order c)), Some curr)
  | None =>
      match find_area st order (Z.to_nat (PAGE_ORDER_MAX + 1 - order)) with
      | None => Ret (st, None)
      | Some (st, curr) =>
          let! st := split_loop st curr order (Z.to_nat PAGE_ORDER_MAX) in
          let! c := get_page st curr in
          let f := Z.land (flags c) (Z.lnot PAGE_FLAGS_FREE) in
          Ret (set_page st curr (mk_page f 1 (buddy_page_order c)), Some curr)
      end
  end.

(** [page_cache_shrink] (mm/pagecache.c) belongs to the page cache, which is not
    modelled; the allocator takes it as an argument, with the contract
    [PageCacheShrink].  The code drops the lock between the attempts, where other
    CPUs may take or free pages; here nothing comes in between. *)
Definition page_alloc (phys_offset : Z) (shrink : buddy_state -> Z -> res buddy_state)
    (st : buddy_state) (cpu order : Z) : res (buddy_state * option Z) :=
  let! (st, r) := page_alloc_try st cpu order in
  match r with
  | Some pg => Ret (st, Some pg)
  | None =>
      let! st := pcp_drain_all phys_offset st in
      let! st := shrink st (u64 (Z.shiftl 1 order)) in
      page_alloc_try st cpu order
  end.

(** ** Reference counts *)

Definition page_get (st : buddy_state) (pg : option Z) : res buddy_state :=
  match pg with
  | None => Ret st
  | Some pg =>
      let! p := get_page st pg in
      Ret (set_page st pg (mk_page (flags p) (refcnt_inc (refcnt p)) (buddy_page_order p)))
  end.

Definition page_put (phys_offset : Z) (st : buddy_state) (cpu : Z) (pg : option Z)
    : res buddy_state :=
  match pg with
  | None => Ret st
  | Some pg =>
      let! p := get_page st pg in
      let (counter, new_val) := refcnt_dec_fetch (refcnt p) in
      let st := set_page st pg (mk_page (flags p) counter (buddy_page_order p)) in
      if 0 <? new_val then Ret st else page_free phys_offset st cpu pg 0
  end.

Definition page_alloc_init (st : buddy_state) : buddy_state :=
  mk_buddy (mem_map st) (fun _ => []) (fun _ => mk_pcp [] 0).

(** ** Invariant *)

Definition blk (p o x : Z) : Prop := p <= x < p + 2 ^ o.

(** A page that looks free to [page_is_buddy]. *)
Definition looks_free (p : page) : Prop :=
  has (flags p) PAGE_FLAGS_FREE = true /\ has (flags p) PAGE_FLAGS_PCP = false.

(** The descriptors are those of the frames [0, N), a whole number of
    largest blocks. *)
Definition map_full (N : Z) (st : buddy_state) : Prop :=
  N mod 2 ^ 12 = 0 /\ forall x, is_Some (mem_map st !! x) <-> 0 <= x < N.

(** [ex] holds of the pages whose flags are being changed. *)
Record inv (ex : Z -> Prop) (st : buddy_state) : Prop := {
  inv_area : forall o p, p ∈ areas st o ->
    0 <= o <= 12 /\ 0 <= p /\ p mod 2 ^ o = 0 /\
    exists r, mem_map st !! p = Some (mk_page PAGE_FLAGS_NEW_FREE_PAGE r o);
  inv_nodup : forall o, NoDup (areas st o);
  inv_disj : forall o1 p1 o2 p2 x, p1 ∈ areas st o1 -> p2 ∈ areas st o2 ->
    blk p1 o1 x -> blk p2 o2 x -> o1 = o2 /\ p1 = p2;
  inv_pcp : forall c pg, pg ∈ pages (pcps st c) ->
    0 <= pg /\ exists r, mem_map st !! pg =
      Some (mk_page (Z.lor PAGE_FLAGS_NEW_FREE_PAGE PAGE_FLAGS_PCP) r 0);
  inv_pcp_count : forall c, NoDup (pages (pcps st c)) /\
    count (pcps st c) = Z.of_nat (length (pages (pcps st c))) /\
    (length (pages (pcps st c)) <= 64)%nat;
  inv_pcp_disj : forall c1 c2 pg, pg ∈ pages (pcps st c1) -> pg ∈ pages (pcps st c2) -> c1 = c2;
  inv_pcp_area : forall c pg o p, pg ∈ pages (pcps st c) -> p ∈ areas st o -> ~ blk p o pg;
  inv_flags : forall pg p, mem_map st !! pg = Some p -> looks_free p -> ~ ex pg ->
    pg ∈ areas st (buddy_page_order p);
  inv_coalesced : forall o p, o < 12 -> p ∈ areas st o -> find_buddy_pfn p o ∉ areas st o
}.

Definition none (_ : Z) : Prop := False.

(** The pages a caller may hand back: a block of descriptors, aligned, none
    of it free or cached. *)
Record owned (st : buddy_state) (pg o : Z) : Prop := {
  own_order : 0 <= o <= 12;
  own_pos : 0 <= pg;
  own_align : pg mod 2 ^ o = 0;
  own_map : forall x, blk pg o x -> is_Some (mem_map st !! x);
  own_area : forall o' p x, p ∈ areas st o' -> blk p o' x -> ~ blk pg o x;
  own_pcp : forall c x, x ∈ pages (pcps st c) -> ~ blk pg o x
}.

Definition is_free (st : buddy_state) (x : Z) : Prop :=
  (exists o p, p ∈ areas st o /\ blk p o x) \/ (exists c, x ∈ pages (pcps st c)).

(** ** Orders *)

Lemma page_order_loop_spec size (n : nat) : forall o, 0 <= o -> o + Z.of_nat n = 12 ->
  o <= page_order_loop size o n <= 12 /\ (size <= 2 ^ 24 \/ page_order_loop size o n < 12 -> size <= 2 ^ (12 + page_order_loop size o n)) /\
  (o < page_order_loop size o n -> 2 ^ (11 + page_order_loop size o n) < size).
Proof.
  induction n as [| n IH]; intros o Ho Hn; cbn [page_order_loop].
  - unfold PAGE_ORDER_MAX. assert (o = 12) as -> by lia. split_and!; change (2 ^ (12 + 12)) with (2 ^ 24); lia.
  - assert (Hpow : u32 (PAGE_SIZE * Z.shiftl 1 o) = 2 ^ (12 + o)).
    { rewrite Z.shiftl_1_l. unfold PAGE_SIZE. change 4096 with (2 ^ 12). rewrite <- Z.pow_add_r by lia.
      apply u32_small. split; [lia |]. apply Z.pow_lt_mono_r; lia. }
    rewrite Hpow. destruct (Z.leb_spec size (2 ^ (12 + o))); [split_and!; lia |].
    destruct (IH (o + 1)) as (H1 & H2 & H3); [lia | lia |]. split; [lia |]; split; [done |]. intros _.
    destruct (Z.eq_dec (page_order_loop size (o + 1) n) (o + 1)) as [E | Hne]; [rewrite E; replace (11 + (o + 1)) with (12 + o) by lia; done |].
    apply H3. lia.
Qed.

Lemma page_order_bound size : 0 <= page_order size <= 12.
Proof. destruct (page_order_loop_spec size 12 0) as [H _]; [lia | done | exact H]. Qed.

(** The block is large enough up to the largest one, and no larger than needed. *)
Lemma page_order_fits size : size <= 2 ^ 24 -> size <= 2 ^ (12 + page_order size).
Proof. intros Hs. destruct (page_order_loop_spec size 12 0) as (_ & H & _); [lia | done |]. apply H. by left. Qed.

Lemma page_order_max size : 2 ^ 24 < size -> page_order size = 12.
Proof.
  intros Hs. destruct (page_order_loop_spec size 12 0) as (H1 & H & _); [lia | done |]. fold (page_order size) in *.
  destruct (Z.eq_dec (page_order size) 12); [done |]. specialize (H ltac:(lia)).
  assert (2 ^ (12 + page_order size) <= 2 ^ 24) by (apply Z.pow_le_mono_r; lia). lia.
Qed.

Lemma page_order_pos size : 4096 < size -> 0 < page_order size.
Proof.
  intros H. unfold page_order. change (page_order_loop size 0 12) with (if size <=? 4096 then 0 else page_order_loop size 1 11).
  destruct (Z.leb_spec size 4096); [lia |]. destruct (page_order_loop_spec size 11 1) as [Hx _]; [lia | done | lia].
Qed.

Lemma page_order_least size : 0 < page_order size -> 2 ^ (11 + page_order size) < size.
Proof. destruct (page_order_loop_spec size 12 0) as (_ & _ & H); [lia | done | exact H]. Qed.

(** ** Buddies *)

Lemma pow2_order (o : Z) : 0 <= o -> 0 < 2 ^ o.
Proof. lia. Qed.

Lemma blk_self p o : 0 <= o -> blk p o p.
Proof. intros. pose proof (pow2_order o). unfold blk. lia. Qed.

Lemma lxor_1 (q : Z) : Z.lxor q 1 = if Z.even q then q + 1 else q - 1.
Proof.
  assert (He : forall a, Z.lxor (2 * a) 1 = 2 * a + 1).
  { intros a. symmetry. apply Z.add_nocarry_lxor.
    change 1 with (Z.ones 1). rewrite Z.land_ones by lia. change (2 ^ 1) with 2. zdm. }
  destruct (Z.even q) eqn:E.
  - apply Z.even_spec in E as [a ->]. apply He.
  - assert (Ho : Z.odd q = true) by (rewrite <- Z.negb_even, E; done).
    apply Z.odd_spec in Ho as [a ->]. rewrite <- (He a).
    rewrite Z.lxor_assoc, Z.lxor_nilpotent, Z.lxor_0_r, He. lia.
Qed.

Lemma find_buddy_mul (q o : Z) : 0 <= o ->
  find_buddy_pfn (q * 2 ^ o) o = (if Z.even q then q + 1 else q - 1) * 2 ^ o.
Proof.
  intros. unfold find_buddy_pfn.
  rewrite <- lxor_1, <- !Z.shiftl_mul_pow2 by lia.
  rewrite Z.shiftl_lxor. done.
Qed.

(** The two halves of the enclosing block. *)
Lemma buddy_cases (p o : Z) : 0 <= o -> p mod 2 ^ o = 0 ->
  let b := find_buddy_pfn p o in
  b mod 2 ^ o = 0 /\ find_buddy_pfn b o = p /\ Z.min p b mod 2 ^ (o + 1) = 0 /\
  (b = p + 2 ^ o \/ b = p - 2 ^ o).
Proof.
  intros Ho Hp. pose proof (pow2_order o Ho).
  assert (Hq : p = p / 2 ^ o * 2 ^ o) by (pose proof (Z.div_mod p (2 ^ o)); lia).
  revert Hq. generalize (p / 2 ^ o). intros q ->. cbv zeta. rewrite find_buddy_mul by lia.
  assert (E2 : 2 ^ (o + 1) = 2 * 2 ^ o) by (rewrite Z.pow_add_r by lia; lia).
  destruct (Z.even q) eqn:E.
  - split_and!; [apply Z.mod_mul; lia | | | left; lia].
    + rewrite find_buddy_mul by lia. rewrite Z.even_add, E. simpl. lia.
    + rewrite Z.min_l by lia. apply Z.even_spec in E as [a ->]. rewrite E2.
      replace (2 * a * 2 ^ o) with (a * (2 * 2 ^ o)) by lia. apply Z.mod_mul. lia.
  - split_and!; [apply Z.mod_mul; lia | | | right; lia].
    + rewrite find_buddy_mul by lia. rewrite Z.even_sub, E. simpl. lia.
    + rewrite Z.min_r by lia.
      assert (Hodd : Z.odd q = true) by (rewrite <- Z.negb_even, E; done).
      apply Z.odd_spec in Hodd as [a ->]. rewrite E2.
      replace ((2 * a + 1 - 1) * 2 ^ o) with (a * (2 * 2 ^ o)) by lia. apply Z.mod_mul. lia.
Qed.

Lemma blk_join (p o x : Z) : 0 <= o -> p mod 2 ^ o = 0 ->
  blk (Z.min p (find_buddy_pfn p o)) (o + 1) x <-> blk p o x \/ blk (find_buddy_pfn p o) o x.
Proof.
  intros Ho Hp. destruct (buddy_cases p o Ho Hp) as (_ & _ & _ & Hb). unfold blk.
  assert (E2 : 2 ^ (o + 1) = 2 * 2 ^ o) by (rewrite Z.pow_add_r by lia; lia).
  destruct Hb; lia.
Qed.

(** The buddy of a block below the largest order has a descriptor. *)
Lemma buddy_in_map N st p o :
  map_full N st -> 0 <= o < 12 -> 0 <= p < N -> p mod 2 ^ o = 0 ->
  0 <= find_buddy_pfn p o < N.
Proof.
  intros [HN _] Ho Hp Hm. destruct (buddy_cases p o ltac:(lia) Hm) as (_ & _ & Hmin & Hb).
  pose proof (pow2_order o ltac:(lia)).
  assert (E2 : 2 ^ (o + 1) = 2 * 2 ^ o) by (rewrite Z.pow_add_r by lia; lia).
  assert (HN2 : N mod 2 ^ (o + 1) = 0).
  { apply Z.mod_divide; [lia |]. apply Z.mod_divide in HN; [| lia].
    eapply Z.divide_trans; [| exact HN]. exists (2 ^ (12 - (o + 1))).
    rewrite <- Z.pow_add_r by lia. f_equal. lia. }
  apply Z.mod_divide in Hmin as [a Ha]; [| lia]. apply Z.mod_divide in HN2 as [n Hn]; [| lia].
  rewrite E2 in Ha, Hn. clear HN Hm E2. set (P := 2 ^ o) in *. clearbody P.
  destruct Hb as [Hb | Hb]; rewrite Hb in *.
  - rewrite Z.min_l in Ha by lia. assert (a < n) by nia. nia.
  - rewrite Z.min_r in Ha by lia. assert (0 <= a) by nia. nia.
Qed.

(** ** Taking a block off a free list and putting one on *)

Lemma fn_insert_dec {B} (f : Z -> B) (k j : Z) (v : B) :
  (<[k := v]> f) j = if decide (k = j) then v else f j.
Proof. case_decide; subst; [apply fn_lookup_insert | by apply fn_lookup_insert_ne]. Qed.

Lemma elem_area_del st p o q o' :
  q ∈ areas (area_del st p o) o' <-> q ∈ areas st o' /\ ~ (o' = o /\ q = p).
Proof.
  unfold area_del. simpl. rewrite fn_insert_dec. case_decide; subst.
  - rewrite list_elem_of_filter. intuition congruence.
  - intuition congruence.
Qed.

Definition with_block (st : buddy_state) (p o r : Z) : buddy_state :=
  set_area (set_page st p (mk_page PAGE_FLAGS_NEW_FREE_PAGE r o)) o (p :: areas st o).

Lemma elem_with_block st p o r q o' :
  q ∈ areas (with_block st p o r) o' <-> (o' = o /\ q = p) \/ q ∈ areas st o'.
Proof.
  unfold with_block. simpl. rewrite fn_insert_dec. case_decide; subst.
  - rewrite elem_of_cons. intuition congruence.
  - intuition congruence.
Qed.

(** The block taken is the caller's; only its flags are still stale. *)
Lemma area_del_inv N st p o :
  map_full N st -> inv none st -> p ∈ areas st o ->
  inv (eq p) (area_del st p o) /\ owned (area_del st p o) p o /\
  (forall x, is_free st x <-> is_free (area_del st p o) x \/ blk p o x) /\
  (forall x, is_free (area_del st p o) x -> ~ blk p o x).
Proof.
  intros [HN Hdom] Hinv Hp. pose proof (inv_area _ _ Hinv _ _ Hp) as (Ho & Hpos & Hal & r & Hpg).
  assert (HpN : 0 <= p < N) by (apply Hdom; eauto).
  assert (Hown : owned (area_del st p o) p o).
  { split; try done.
    - intros x Hx. simpl. apply Hdom. unfold blk in Hx.
      apply Z.mod_divide in HN as [n Hn]; [| lia]. apply Z.mod_divide in Hal as [a Ha]; [| lia].
      assert (E : 2 ^ 12 = 2 ^ (12 - o) * 2 ^ o) by (rewrite <- Z.pow_add_r by lia; f_equal; lia).
      rewrite E in Hn. pose proof (pow2_order o ltac:(lia)). pose proof (pow2_order (12 - o) ltac:(lia)).
      assert (a < n * 2 ^ (12 - o)) by nia. nia.
    - intros o' q x Hq Hbq Hb. apply elem_area_del in Hq as [Hq Hne].
      apply Hne. eapply (inv_disj _ _ Hinv); eauto.
    - intros c x Hx Hb. eapply (inv_pcp_area _ _ Hinv); eauto. }
  split_and!; [| done | |].
  - split; try apply Hinv.
    + intros o' q Hq. apply elem_area_del in Hq as [Hq _]. by apply (inv_area _ _ Hinv).
    + intros o'. simpl. rewrite fn_insert_dec. case_decide; [| apply Hinv].
      apply list.NoDup_filter, Hinv.
    + intros o1 p1 o2 p2 x H1 H2. apply elem_area_del in H1 as [H1 _].
      apply elem_area_del in H2 as [H2 _]. exact (inv_disj _ _ Hinv _ _ _ _ x H1 H2).
    + intros c pg o' q Hpg' Hq. apply elem_area_del in Hq as [Hq _].
      exact (inv_pcp_area _ _ Hinv _ _ _ _ Hpg' Hq).
    + intros pg pv Hl Hf Hne. apply elem_area_del. split; [| intros [_ ->]; done].
      by apply (inv_flags _ _ Hinv); [| | intros []].
    + intros o' q Hlt Hq Hb. apply elem_area_del in Hq as [Hq _]. apply elem_area_del in Hb as [Hb _].
      exact (inv_coalesced _ _ Hinv _ _ Hlt Hq Hb).
  - intros x. unfold is_free. setoid_rewrite elem_area_del. simpl. split.
    + intros [(o' & q & Hq & Hb) | Hc]; [| tauto].
      destruct (decide (o' = o /\ q = p)) as [[-> ->] |]; [by right |].
      left; left. eauto.
    + intros [[(o' & q & [Hq _] & Hb) | Hc] | Hb]; [left; eauto | tauto |]. left. eauto.
  - intros x [(o' & q & Hq & Hb) | [c Hc]].
    + by eapply (own_area _ _ _ Hown).
    + by eapply (own_pcp _ _ _ Hown).
Qed.

(** Changing the descriptor of a page that is on no list. *)
Lemma set_page_inv (ex ex' : Z -> Prop) st p v old :
  inv ex st -> (forall o, p ∉ areas st o) -> (forall c, p ∉ pages (pcps st c)) ->
  mem_map st !! p = Some old ->
  (looks_free v -> ex' p) -> (forall q, q <> p -> ex q -> ex' q) ->
  inv ex' (set_page st p v).
Proof.
  intros Hinv Ha Hc Hold Hv Hex. split; try apply Hinv; simpl.
  - intros o q Hq. destruct (inv_area _ _ Hinv _ _ Hq) as (?&?&?&r&Hr).
    split_and!; try done; [lia | lia |]. exists r. rewrite lookup_insert_ne; [done |].
    intros ->. by apply (Ha o).
  - intros c q Hq. destruct (inv_pcp _ _ Hinv _ _ Hq) as (? & r & Hr).
    split; [done |]. exists r. rewrite lookup_insert_ne; [done |]. intros ->. by apply (Hc c).
  - intros q pv. rewrite lookup_insert. case_decide as E; [subst; intros [= <-] Hf Hn; by apply Hv in Hf |].
    intros Hl Hf Hn. apply (inv_flags _ _ Hinv); try done. intros He. apply Hn, Hex; [congruence | done].
Qed.

Lemma owned_set_page st p v pg o old :
  mem_map st !! p = Some old -> owned st pg o -> owned (set_page st p v) pg o.
Proof.
  intros Hold Hown. split; try apply Hown. simpl. intros x Hx. rewrite lookup_insert.
  case_decide; [eauto |]. by apply Hown.
Qed.

Lemma map_full_set_page N st p v old :
  mem_map st !! p = Some old -> map_full N st -> map_full N (set_page st p v).
Proof.
  intros Hold [H1 H2]. split; [done |]. intros x. rewrite <- H2. simpl. rewrite lookup_insert.
  case_decide; [subst; rewrite Hold; split; eauto | done].
Qed.


Lemma owned_unlisted ex st p o :
  inv ex st -> owned st p o -> (forall o', p ∉ areas st o') /\ (forall c, p ∉ pages (pcps st c)).
Proof.
  intros Hinv Hown. pose proof (own_order _ _ _ Hown) as Ho.
  pose proof (blk_self p o ltac:(lia)) as Hself. split.
  - intros o' Hp. pose proof (inv_area _ _ Hinv _ _ Hp) as (Ho' & _).
    eapply (own_area _ _ _ Hown); [exact Hp | apply blk_self; lia | done].
  - intros c Hp. by eapply (own_pcp _ _ _ Hown).
Qed.

Lemma with_block_inv ex st p o r old :
  inv ex st -> owned st p o -> mem_map st !! p = Some old ->
  (o < 12 -> find_buddy_pfn p o ∉ areas st o) -> ~ ex p ->
  inv ex (with_block st p o r) /\
  forall x, is_free (with_block st p o r) x <-> is_free st x \/ blk p o x.
Proof.
  intros Hinv Hown Hold Hcoal Hex.
  pose proof (own_order _ _ _ Hown) as Ho. pose proof (blk_self p o ltac:(lia)) as Hself.
  destruct (owned_unlisted _ _ _ _ Hinv Hown) as [Hna Hnc].
  split.
  - split.
    + intros o' q Hq. apply elem_with_block in Hq as [[-> ->] | Hq].
      * split_and!; try apply Hown; try lia. exists r. simpl. by rewrite lookup_insert_eq.
      * destruct (inv_area _ _ Hinv _ _ Hq) as (?&?&?&r'&Hr).
        split_and!; try done; try lia. exists r'. simpl. rewrite lookup_insert_ne; [done |].
        intros ->. by apply (Hna o').
    + intros o'. simpl. rewrite fn_insert_dec. case_decide; [| apply Hinv].
      apply list.NoDup_cons. split; [apply Hna | apply Hinv].
    + intros o1 p1 o2 p2 x H1 H2 Hb1 Hb2.
      apply elem_with_block in H1 as [[-> ->] | H1];
        apply elem_with_block in H2 as [[-> ->] | H2]; try done.
      * exfalso. by eapply (own_area _ _ _ Hown).
      * exfalso. by eapply (own_area _ _ _ Hown).
      * exact (inv_disj _ _ Hinv _ _ _ _ x H1 H2 Hb1 Hb2).
    + intros c q Hq. simpl in Hq. destruct (inv_pcp _ _ Hinv _ _ Hq) as (? & r' & Hr).
      split; [done |]. exists r'. simpl. rewrite lookup_insert_ne; [done |].
      intros ->. by apply (Hnc c).
    + apply Hinv.
    + apply Hinv.
    + intros c q o' p' Hq Hp'. simpl in Hq. apply elem_with_block in Hp' as [[-> ->] | Hp'].
      * by eapply (own_pcp _ _ _ Hown).
      * exact (inv_pcp_area _ _ Hinv _ _ _ _ Hq Hp').
    + intros q pv Hl Hf Hn. apply elem_with_block. simpl in Hl. rewrite lookup_insert in Hl.
      case_decide as E; [subst; left; by simplify_eq | right; by apply (inv_flags _ _ Hinv)].
    + intros o' q Hlt Hq Hb.
      apply elem_with_block in Hq as [[-> ->] | Hq]; apply elem_with_block in Hb as [[Eo Eb] | Hb].
      * pose proof (buddy_cases p o ltac:(lia) (own_align _ _ _ Hown)) as (_ & _ & _ & Hc).
        pose proof (pow2_order o). rewrite Eb in Hc. lia.
      * by apply Hcoal.
      * subst o'. pose proof (inv_area _ _ Hinv _ _ Hq) as (_ & _ & Hal & _).
        pose proof (buddy_cases q o ltac:(lia) Hal) as (_ & Hinvol & _).
        rewrite Eb in Hinvol. apply Hcoal; [done |]. by rewrite Hinvol.
      * exact (inv_coalesced _ _ Hinv _ _ Hlt Hq Hb).
  - intros x. unfold is_free. setoid_rewrite elem_with_block. simpl. split.
    + intros [(o' & q & [[-> ->] | Hq] & Hb) | Hc]; [by right | left; eauto | left; by right].
    + intros [[(o' & q & Hq & Hb) | Hc] | Hb]; [left; eauto | by right | left; eauto 6].
Qed.

(** ** Freeing *)

Lemma is_buddy_spec b o :
  page_is_buddy b o = true -> looks_free b /\ buddy_page_order b = o.
Proof.
  unfold page_is_buddy, looks_free.
  destruct (has (flags b) PAGE_FLAGS_BUDDY), (has (flags b) PAGE_FLAGS_HEAD),
    (has (flags b) PAGE_FLAGS_FREE), (has (flags b) PAGE_FLAGS_PCP),
    (Z.eqb_spec (buddy_page_order b) o); simpl; done.
Qed.

Lemma area_is_buddy r o : page_is_buddy (mk_page PAGE_FLAGS_NEW_FREE_PAGE r o) o = true.
Proof. unfold page_is_buddy. simpl. by rewrite Z.eqb_refl. Qed.

Lemma not_looks_free f r o : Z.land f PAGE_FLAGS_FREE = 0 -> ~ looks_free (mk_page f r o).
Proof. intros Hf [H _]. unfold has in H. simpl in H. by rewrite Hf in H. Qed.

Lemma owned_join st st' pg o :
  owned st pg o -> owned st' (find_buddy_pfn pg o) o -> o < 12 ->
  (forall x, is_Some (mem_map st !! x) -> is_Some (mem_map st' !! x)) ->
  (forall o' p, p ∈ areas st' o' -> p ∈ areas st o') ->
  (forall c, pages (pcps st' c) = pages (pcps st c)) ->
  owned st' (Z.min pg (find_buddy_pfn pg o)) (o + 1).
Proof.
  intros Hown Hb Ho Hmap Hareas Hpcps. pose proof (own_order _ _ _ Hown) as Ho'.
  pose proof (own_align _ _ _ Hown) as Hal.
  assert (Hj : forall x, blk (Z.min pg (find_buddy_pfn pg o)) (o + 1) x <->
                         blk pg o x \/ blk (find_buddy_pfn pg o) o x)
    by (intros; apply blk_join; [lia | done]).
  split.
  - lia.
  - pose proof (own_pos _ _ _ Hown). pose proof (own_pos _ _ _ Hb). lia.
  - apply buddy_cases; [lia | done].
  - intros x Hx. apply Hj in Hx as [Hx | Hx]; [apply Hmap, Hown | apply Hb]; done.
  - intros o' p x Hp Hx Hx'. apply Hj in Hx' as [Hx' | Hx'].
    + exact (own_area _ _ _ Hown _ _ _ (Hareas _ _ Hp) Hx Hx').
    + exact (own_area _ _ _ Hb _ _ _ Hp Hx Hx').
  - intros c x Hx Hx'. apply Hj in Hx' as [Hx' | Hx'].
    + rewrite Hpcps in Hx. exact (own_pcp _ _ _ Hown _ _ Hx Hx').
    + exact (own_pcp _ _ _ Hb _ _ Hx Hx').
Qed.

Lemma is_free_set_page st p v x : is_free (set_page st p v) x <-> is_free st x.
Proof. done. Qed.

Lemma owned_in_range N st pg o : map_full N st -> owned st pg o -> 0 <= pg < N.
Proof.
  intros [_ Hd] Hown. apply Hd, (own_map _ _ _ Hown), blk_self. apply (own_order _ _ _ Hown).
Qed.

Lemma map_full_lookup N st x : map_full N st -> 0 <= x < N -> exists p, mem_map st !! x = Some p.
Proof. intros [_ Hd] Hx. apply Hd in Hx as [p Hp]. eauto. Qed.

Lemma merge_loop_spec N (n : nat) : forall st pg o,
  map_full N st -> inv none st -> owned st pg o -> Z.of_nat n = 12 - o ->
  exists st' pg' o', merge_loop st pg o n = Ret (st', pg', o') /\
    map_full N st' /\ inv none st' /\ owned st' pg' o' /\
    (o' < 12 -> find_buddy_pfn pg' o' ∉ areas st' o') /\
    (forall x, is_free st' x \/ blk pg' o' x <-> is_free st x \/ blk pg o x) /\
    pcps st' = pcps st /\
    (forall x, ~ is_free st x -> mem_map st' !! x = mem_map st !! x).
Proof.
  induction n as [| n IH]; intros st pg o Hmap Hinv Hown Hn.
  { exists st, pg, o. split_and!; try done. lia. }
  cbn [merge_loop]. pose proof (own_order _ _ _ Hown) as Ho.
  set (b := find_buddy_pfn pg o).
  assert (HbN : 0 <= b < N).
  { apply (buddy_in_map N st); try done; [lia | by eapply owned_in_range | apply Hown]. }
  destruct (map_full_lookup _ _ _ Hmap HbN) as [bp Hbp].
  unfold get_page at 1. rewrite Hbp.
  destruct (page_is_buddy bp o) eqn:E; cbn [negb].
  2: { exists st, pg, o. split_and!; try done. intros Hlt Hin.
       destruct (inv_area _ _ Hinv _ _ Hin) as (_ & _ & _ & r & Hr). fold b in Hr.
       rewrite Hbp in Hr. simplify_eq. by rewrite area_is_buddy in E. }
  apply is_buddy_spec in E as [Hlf Hord].
  assert (Hin : b ∈ areas st o).
  { rewrite <- Hord. by apply (inv_flags _ _ Hinv); [| | intros []]. }
  destruct (area_del_inv N st b o Hmap Hinv Hin) as (Hinv1 & Hown1 & Hfree1 & _).
  set (st1 := area_del st b o) in *.
  destruct (owned_unlisted _ _ _ _ Hinv1 Hown1) as [Hna Hnc].
  assert (Hbp1 : mem_map st1 !! b = Some bp) by done.
  set (v := mk_page 0 (refcnt bp) (buddy_page_order bp)).
  assert (Hinv2 : inv none (set_page st1 b v)).
  { eapply (set_page_inv (eq b) none); try done.
    intros Hl. by apply (not_looks_free 0 (refcnt bp) (buddy_page_order bp)) in Hl. }
  destruct (IH (set_page st1 b v) (Z.min pg b) (o + 1)) as
    (st' & pg' & o' & -> & Hmap' & Hinv' & Hown' & Hco & Hfr & Hpcps & Hframe); try done; [| | lia |].
  - by eapply map_full_set_page.
  - apply (owned_join st); try done; [by eapply owned_set_page | lia | |].
    + intros x Hx. simpl. rewrite lookup_insert. case_decide; eauto.
    + intros o'' p Hp. by apply elem_area_del in Hp as [Hp _].
  - exists st', pg', o'. split_and!; try done.
    + intros x. rewrite Hfr, is_free_set_page, Hfree1.
      unfold b. rewrite blk_join by (try lia; apply Hown). tauto.
    + intros x Hx. rewrite Hframe by (rewrite is_free_set_page; rewrite Hfree1 in Hx; tauto).
      simpl. rewrite lookup_insert_ne; [done |]. intros <-. apply Hx, Hfree1. right.
      apply blk_self. lia.
Qed.

(** A block is the caller's exactly when no page of it is free. *)
Lemma owned_free st pg o x : owned st pg o -> blk pg o x -> ~ is_free st x.
Proof.
  intros Hown Hx [(o' & p & Hp & Hb) | [c Hc]].
  - by eapply (own_area _ _ _ Hown).
  - by eapply (own_pcp _ _ _ Hown).
Qed.

Lemma owned_intro N st pg o :
  map_full N st -> 0 <= o <= 12 -> pg mod 2 ^ o = 0 ->
  (forall x, blk pg o x -> 0 <= x < N /\ ~ is_free st x) -> owned st pg o.
Proof.
  intros Hmap Ho Hal Hb. split; try done.
  - apply Hb, blk_self. lia.
  - intros x Hx. by apply Hmap, Hb.
  - intros o' p x Hp Hx Hx'. apply Hb in Hx' as [_ Hf]. apply Hf. left. eauto.
  - intros c x Hx Hx'. apply Hb in Hx' as [_ Hf]. apply Hf. right. eauto.
Qed.

Lemma owned_range N st pg o x : map_full N st -> owned st pg o -> blk pg o x -> 0 <= x < N.
Proof. intros Hmap Hown Hx. by apply Hmap, (own_map _ _ _ Hown). Qed.

(** RAM starts at a multiple of the largest block. *)
Lemma pfn_aligned phys_offset pg o :
  phys_offset mod 2 ^ 24 = 0 -> 0 <= o <= 12 -> pg mod 2 ^ o = 0 ->
  is_aligned (pfn_to_phys phys_offset pg) (Z.shiftl 1 (PAGE_SHIFT + o)) = true.
Proof.
  intros Hoff Ho Hal. rewrite Z.shiftl_1_l. unfold PAGE_SHIFT.
  apply is_aligned_spec; [lia |]. unfold pfn_to_phys, wrap.
  rewrite Z.shiftl_mul_pow2 by (unfold PAGE_SHIFT; lia). unfold PAGE_SHIFT.
  apply Z.mod_divide; [lia |].
  assert (Hd : forall k z, 0 <= k <= 64 -> (2 ^ k | z) -> (2 ^ k | z mod 2 ^ 64)).
  { intros k z Hk Hz. rewrite Z.mod_eq by lia. apply Z.divide_sub_r; [done |].
    apply Z.divide_mul_l. exists (2 ^ (64 - k)). rewrite <- Z.pow_add_r by lia. f_equal. lia. }
  apply Hd; [lia |]. apply Z.divide_add_r.
  - apply Hd; [lia |]. apply Z.mod_divide in Hal as [a ->]; [| lia]. exists a.
    rewrite Z.pow_add_r by lia. lia.
  - apply Z.mod_divide in Hoff; [| lia]. eapply Z.divide_trans; [| exact Hoff].
    exists (2 ^ (24 - (12 + o))). rewrite <- Z.pow_add_r by lia. f_equal. lia.
Qed.

(** The head of an allocated block. *)
Definition allocated (st : buddy_state) (pg : Z) : Prop :=
  exists p, mem_map st !! pg = Some p /\ flags p = PAGE_FLAGS_NEW_PAGE.

(** What giving a block back amounts to. *)
Record gives_back (N : Z) (st st' : buddy_state) (pg o : Z) : Prop := {
  gb_map : map_full N st';
  gb_inv : inv none st';
  gb_free : forall x, is_free st' x <-> is_free st x \/ blk pg o x;
  gb_frame : forall x, ~ is_free st x -> ~ blk pg o x -> mem_map st' !! x = mem_map st !! x
}.

Lemma free_to_buddy_spec N phys_offset st pg o :
  phys_offset mod 2 ^ 24 = 0 -> map_full N st -> inv none st -> owned st pg o ->
  allocated st pg ->
  exists st', page_free_to_buddy phys_offset st pg o = Ret st' /\
    gives_back N st st' pg o /\ pcps st' = pcps st.
Proof.
  intros Hoff Hmap Hinv Hown (p & Hp & Hf). unfold page_free_to_buddy, get_page at 1.
  rewrite Hp, Hf. cbn -[Z.pow pfn_to_phys is_aligned Z.shiftl merge_loop].
  pose proof (own_order _ _ _ Hown) as Ho.
  rewrite pfn_aligned by (try done; apply Hown).
  destruct (owned_unlisted _ _ _ _ Hinv Hown) as [Hna Hnc].
  assert (Hinv1 : inv none (set_page st pg (mk_page 0 (refcnt p) (buddy_page_order p)))).
  { eapply (set_page_inv none none); try done.
    intros Hl. by apply (not_looks_free 0) in Hl. }
  destruct (merge_loop_spec N (Z.to_nat (PAGE_ORDER_MAX - o))
    (set_page st pg (mk_page 0 (refcnt p) (buddy_page_order p))) pg o)
    as (st' & pg' & o' & -> & Hmap' & Hinv' & Hown' & Hco & Hfr & Hpcps & Hframe); try done.
  { by eapply map_full_set_page. }
  { by eapply owned_set_page. }
  { unfold PAGE_ORDER_MAX. lia. }
  destruct (map_full_lookup _ _ _ Hmap' (owned_in_range _ _ _ _ Hmap' Hown')) as [p' Hp'].
  unfold get_page. rewrite Hp'. unfold area_add.
  pose proof (own_order _ _ _ Hown') as Ho'. unfold PAGE_ORDER_MAX. rewrite decide_True by lia.
  destruct (with_block_inv none st' pg' o' (refcnt p') p') as [Hinv'' Hfree'']; try done; [intros [] |].
  eexists. split; [reflexivity |]. split; [split |].
  - by eapply map_full_set_page.
  - exact Hinv''.
  - intros x. specialize (Hfree'' x). unfold with_block in Hfree''.
    rewrite Hfree'', Hfr. by rewrite is_free_set_page.
  - intros x Hx Hb. simpl.
    assert (~ (is_free st' x \/ blk pg' o' x)) as Hn by (rewrite Hfr, is_free_set_page; tauto).
    rewrite lookup_insert_ne; [| intros ->; apply Hn; right; apply blk_self; lia].
    rewrite Hframe by (by rewrite is_free_set_page). simpl.
    rewrite lookup_insert_ne; [done |]. intros ->. apply Hb, blk_self. lia.
  - done.
Qed.


(** ** Per-CPU caches *)

Lemma pages_set_pcp st cpu c c' :
  pages (pcps (set_pcp st cpu c) c') = if decide (cpu = c') then pages c else pages (pcps st c').
Proof. simpl. rewrite fn_insert_dec. by case_decide. Qed.

Definition PCP_PAGE : Z := Z.lor PAGE_FLAGS_NEW_FREE_PAGE PAGE_FLAGS_PCP.

Definition with_cached (st : buddy_state) (cpu pg r : Z) : buddy_state :=
  set_pcp (set_page st pg (mk_page PCP_PAGE r 0)) cpu
    (mk_pcp (pg :: pages (pcps st cpu)) (u32 (count (pcps st cpu) + 1))).

Lemma elem_with_cached st cpu pg r c x :
  x ∈ pages (pcps (with_cached st cpu pg r) c) <-> (c = cpu /\ x = pg) \/ x ∈ pages (pcps st c).
Proof.
  unfold with_cached. rewrite pages_set_pcp. case_decide; subst; simpl.
  - rewrite elem_of_cons. intuition congruence.
  - intuition congruence.
Qed.

Lemma blk_0 p x : blk p 0 x <-> x = p.
Proof. unfold blk. change (2 ^ 0) with 1. lia. Qed.

Lemma with_cached_inv st cpu pg r old :
  inv none st -> owned st pg 0 -> mem_map st !! pg = Some old ->
  count (pcps st cpu) < 64 -> inv none (with_cached st cpu pg r).
Proof.
  intros Hinv Hown Hold Hc. destruct (owned_unlisted _ _ _ _ Hinv Hown) as [Hna Hnc].
  split.
  - intros o q Hq. destruct (inv_area _ _ Hinv _ _ Hq) as (?&?&?&r'&Hr).
    split_and!; try done; try lia. exists r'. simpl. rewrite lookup_insert_ne; [done |].
    intros ->. by apply (Hna o).
  - exact (inv_nodup _ _ Hinv).
  - exact (inv_disj _ _ Hinv).
  - intros c x Hx. apply elem_with_cached in Hx as [[-> ->] | Hx].
    + split; [apply Hown |]. exists r. simpl. by rewrite lookup_insert_eq.
    + destruct (inv_pcp _ _ Hinv _ _ Hx) as (? & r' & Hr). split; [done |]. exists r'.
      simpl. rewrite lookup_insert_ne; [done |]. intros ->. by apply (Hnc c).
  - intros c. destruct (inv_pcp_count _ _ Hinv c) as (H1 & H2 & H3).
    simpl. rewrite fn_insert_dec. case_decide as E; [subst c | done]. simpl. rewrite H2 in *.
    split_and!; [by apply list.NoDup_cons | rewrite u32_small; pow2; lia | lia].
  - intros c1 c2 x H1 H2. apply elem_with_cached in H1 as [[-> ->] | H1];
      apply elem_with_cached in H2 as [[-> Hx] | H2]; subst; try done.
    + by apply Hnc in H2.
    + by apply Hnc in H1.
    + exact (inv_pcp_disj _ _ Hinv _ _ _ H1 H2).
  - intros c x o p Hx Hp. apply elem_with_cached in Hx as [[-> ->] | Hx].
    + intros Hb. eapply (own_area _ _ _ Hown); eauto. by apply blk_0.
    + exact (inv_pcp_area _ _ Hinv _ _ _ _ Hx Hp).
  - intros x p Hl [Hf Hp] _. simpl in Hl. rewrite lookup_insert in Hl.
    case_decide; [by simplify_eq |]. apply (inv_flags _ _ Hinv); [done | done | intros []].
  - exact (inv_coalesced _ _ Hinv).
Qed.

Lemma free_with_cached st cpu pg r x :
  is_free (with_cached st cpu pg r) x <-> is_free st x \/ x = pg.
Proof.
  unfold is_free. setoid_rewrite elem_with_cached. simpl. split.
  - intros [H | (c & [[-> ->] | H])]; eauto.
  - intros [[H | [c H]] | ->]; eauto.
Qed.

Lemma page_free_spec N phys_offset st cpu pg o :
  phys_offset mod 2 ^ 24 = 0 -> map_full N st -> inv none st -> owned st pg o ->
  allocated st pg ->
  exists st', page_free phys_offset st cpu pg o = Ret st' /\ gives_back N st st' pg o /\
    pages (pcps st' cpu) =
      if (o =? 0) && (count (pcps st cpu) <? PCP_MAX_ORDER0)
      then pg :: pages (pcps st cpu) else pages (pcps st cpu).
Proof.
  intros Hoff Hmap Hinv Hown Hal.
  destruct (free_to_buddy_spec N phys_offset st pg o) as (st' & Hst' & Hgb & Hpcps); try done.
  pose proof (own_order _ _ _ Hown) as Ho. destruct Hal as (p & Hp & Hf).
  unfold page_free, get_page at 1. rewrite Hp, Hf.
  cbn -[Z.pow pfn_to_phys is_aligned Z.shiftl pcp_free page_free_to_buddy].
  rewrite pfn_aligned by (try done; apply Hown).
  destruct (Z.eqb_spec o 0) as [-> | Hne]; simpl.
  2: { exists st'. by rewrite Hpcps. }
  unfold pcp_free, get_page. rewrite Hp.
  destruct (Z.ltb_spec (count (pcps st cpu)) PCP_MAX_ORDER0) as [Hlt | Hge].
  2: { exists st'. by rewrite Hpcps. }
  eexists. split; [reflexivity |]. unfold PCP_MAX_ORDER0 in Hlt. split; [split |].
  - by eapply map_full_set_page.
  - exact (with_cached_inv st cpu pg (refcnt p) p Hinv Hown Hp Hlt).
  - intros x. rewrite blk_0. exact (free_with_cached st cpu pg (refcnt p) x).
  - intros x _ Hb. simpl. rewrite lookup_insert_ne; [done |]. intros ->. by apply Hb, blk_0.
  - simpl. by rewrite fn_insert_dec, decide_True.
Qed.

(** Taking the first page off a cache. *)
Definition without_cached (st : buddy_state) (cpu : Z) (rest : list Z) : buddy_state :=
  set_pcp st cpu (mk_pcp rest (u32 (count (pcps st cpu) - 1))).

Lemma elem_without_cached ex st cpu pg rest c x :
  inv ex st -> pages (pcps st cpu) = pg :: rest ->
  x ∈ pages (pcps (without_cached st cpu rest) c) <-> x ∈ pages (pcps st c) /\ x <> pg.
Proof.
  intros Hinv Hpg. unfold without_cached. rewrite pages_set_pcp.
  assert (Hnd : NoDup (pg :: rest)) by (rewrite <- Hpg; apply (inv_pcp_count _ _ Hinv cpu)).
  apply list.NoDup_cons in Hnd as [Hni _]. case_decide; subst; simpl.
  - rewrite Hpg, elem_of_cons. intuition congruence.
  - split; [| tauto]. intros Hx. split; [done |]. intros ->.
    assert (cpu = c); [| done]. apply (inv_pcp_disj _ _ Hinv cpu c pg); [| done].
    rewrite Hpg. left.
Qed.

Lemma without_cached_inv N st cpu pg rest :
  map_full N st -> inv none st -> pages (pcps st cpu) = pg :: rest ->
  let st' := without_cached st cpu rest in
  inv none st' /\ owned st' pg 0 /\
  (exists r, mem_map st' !! pg = Some (mk_page PCP_PAGE r 0)) /\
  (forall x, is_free st x <-> is_free st' x \/ x = pg) /\
  (forall x, is_free st' x -> x <> pg).
Proof.
  intros Hmap Hinv Hpg st'.
  assert (Hin : pg ∈ pages (pcps st cpu)) by (rewrite Hpg; left).
  assert (Helem : forall c x, x ∈ pages (pcps st' c) <-> x ∈ pages (pcps st c) /\ x <> pg)
    by (intros; by eapply elem_without_cached).
  destruct (inv_pcp _ _ Hinv _ _ Hin) as (Hpos & r & Hr).
  assert (Hfree : forall x, is_free st x <-> is_free st' x \/ x = pg).
  { intros x. unfold is_free. setoid_rewrite Helem. simpl. split.
    - intros [H | [c H]]; [tauto |]. destruct (decide (x = pg)); [tauto |]. left; right; eauto.
    - intros [[H | [c [H _]]] | ->]; [tauto | eauto | eauto]. }
  assert (Hnf : forall x, is_free st' x -> x <> pg).
  { intros x [(o & p & Hp & Hb) | [c Hc]]; [| by apply Helem in Hc as [_ Hc]].
    intros ->. exact (inv_pcp_area _ _ Hinv _ _ _ _ Hin Hp Hb). }
  split_and!; [| | by exists r | done | done].
  - split; try apply Hinv.
    + intros c x Hx. apply Helem in Hx as [Hx _]. exact (inv_pcp _ _ Hinv _ _ Hx).
    + intros c. pose proof (inv_pcp_count _ _ Hinv c) as (H1 & H2 & H3).
      unfold st', without_cached. simpl. rewrite fn_insert_dec. case_decide as E; [subst c | done].
      rewrite Hpg in *. apply list.NoDup_cons in H1 as [_ H1]. simpl in *.
      split_and!; [done | rewrite u32_small; pow2; lia | lia].
    + intros c1 c2 x H1 H2. apply Helem in H1 as [H1 _]. apply Helem in H2 as [H2 _].
      exact (inv_pcp_disj _ _ Hinv _ _ _ H1 H2).
    + intros c x o p Hx Hp. apply Helem in Hx as [Hx _]. exact (inv_pcp_area _ _ Hinv _ _ _ _ Hx Hp).
  - apply (owned_intro N); [done | lia | change (2 ^ 0) with 1; apply Z.mod_1_r |].
    intros x Hx. apply blk_0 in Hx as ->. split; [apply Hmap; eauto |]. intros Hf. by apply Hnf in Hf.
Qed.

(** ** Draining *)

(** The pages free before and after are the same; no other descriptor moves. *)
Record same_free (N : Z) (st st' : buddy_state) : Prop := {
  sf_map : map_full N st';
  sf_inv : inv none st';
  sf_free : forall x, is_free st' x <-> is_free st x;
  sf_frame : forall x, ~ is_free st x -> mem_map st' !! x = mem_map st !! x
}.

Lemma same_free_trans N st1 st2 st3 :
  same_free N st1 st2 -> same_free N st2 st3 -> same_free N st1 st3.
Proof.
  intros [_ _ Hf1 Hm1] [Hmap Hinv Hf2 Hm2]. split; try done.
  - intros x. by rewrite Hf2.
  - intros x Hx. rewrite Hm2 by (by rewrite Hf1). by apply Hm1.
Qed.

Lemma same_free_refl N st : map_full N st -> inv none st -> same_free N st st.
Proof. by split. Qed.

Lemma drain_step N phys_offset st cpu pg rest :
  phys_offset mod 2 ^ 24 = 0 -> map_full N st -> inv none st ->
  pages (pcps st cpu) = pg :: rest ->
  exists r st', mem_map st !! pg = Some (mk_page PCP_PAGE r 0) /\
    page_free_to_buddy phys_offset
      (set_page (without_cached st cpu rest) pg (mk_page PAGE_FLAGS_NEW_PAGE r 0)) pg 0 = Ret st' /\
    same_free N st st' /\ pcps st' = pcps (without_cached st cpu rest).
Proof.
  intros Hoff Hmap Hinv Hpg.
  destruct (without_cached_inv N st cpu pg rest Hmap Hinv Hpg)
    as (Hinv1 & Hown1 & (r & Hr) & Hfree1 & Hnf). cbv zeta in *.
  set (st1 := without_cached st cpu rest) in *.
  destruct (owned_unlisted _ _ _ _ Hinv1 Hown1) as [Hna Hnc].
  assert (Hinv2 : inv none (set_page st1 pg (mk_page PAGE_FLAGS_NEW_PAGE r 0))).
  { eapply (set_page_inv none none); try done.
    intros Hl. by apply (not_looks_free PAGE_FLAGS_NEW_PAGE) in Hl. }
  destruct (free_to_buddy_spec N phys_offset
    (set_page st1 pg (mk_page PAGE_FLAGS_NEW_PAGE r 0)) pg 0) as (st' & Hst' & Hgb & Hpcps); try done.
  { by eapply (map_full_set_page N st1). }
  { by eapply owned_set_page. }
  { eexists. simpl. by rewrite lookup_insert_eq. }
  exists r, st'. split_and!; try done. split; try apply Hgb.
  - intros x. rewrite (gb_free _ _ _ _ _ Hgb), is_free_set_page, Hfree1, blk_0. done.
  - intros x Hx. rewrite Hfree1 in Hx. rewrite (gb_frame _ _ _ _ _ Hgb).
    + simpl. rewrite lookup_insert_ne; [done | intros ->; tauto].
    + rewrite is_free_set_page. tauto.
    + rewrite blk_0. tauto.
Qed.

Lemma drain_loop_spec N phys_offset cpu (n : nat) : forall st,
  phys_offset mod 2 ^ 24 = 0 -> map_full N st -> inv none st ->
  length (pages (pcps st cpu)) = n ->
  exists st', drain_loop phys_offset st cpu n = Ret st' /\ same_free N st st' /\
    forall c, pages (pcps st' c) = if decide (c = cpu) then [] else pages (pcps st c).
Proof.
  induction n as [| n IH]; intros st Hoff Hmap Hinv Hn; cbn [drain_loop].
  { apply nil_length_inv in Hn. rewrite Hn. exists st. split_and!; [done | by apply same_free_refl |].
    intros c. case_decide; congruence. }
  destruct (pages (pcps st cpu)) as [| pg rest] eqn:Hpg; [done |].
  destruct (drain_step N phys_offset st cpu pg rest) as (r & st1 & Hr & Hst1 & Hsf & Hpcps); try done.
  cbv zeta. unfold get_page. change (mem_map (set_pcp _ _ _)) with (mem_map st). rewrite Hr.
  cbn -[page_free_to_buddy drain_loop].
  unfold without_cached in Hst1. rewrite Hst1.
  destruct (IH st1) as (st' & -> & Hsf' & Hp'); try done; [apply Hsf | apply Hsf | |].
  { rewrite Hpcps. unfold without_cached. rewrite pages_set_pcp, decide_True by done. by inversion Hn. }
  exists st'. split_and!; [done | by eapply same_free_trans |].
  intros c. rewrite Hp'. case_decide; [done |]. rewrite Hpcps.
  unfold without_cached. rewrite pages_set_pcp, decide_False by done. done.
Qed.

Lemma drain_from_spec N phys_offset (n : nat) : forall st i,
  phys_offset mod 2 ^ 24 = 0 -> map_full N st -> inv none st ->
  exists st', pcp_drain_from phys_offset st i n = Ret st' /\ same_free N st st' /\
    forall c, pages (pcps st' c) =
      if decide (i <= c < i + Z.of_nat n) then [] else pages (pcps st c).
Proof.
  induction n as [| n IH]; intros st i Hoff Hmap Hinv; cbn [pcp_drain_from].
  { exists st. split_and!; [done | by apply same_free_refl |]. intros c. by rewrite decide_False by lia. }
  destruct (drain_loop_spec N phys_offset i _ st Hoff Hmap Hinv eq_refl) as (st1 & -> & Hsf1 & Hp1).
  destruct (IH st1 (i + 1)) as (st' & -> & Hsf' & Hp'); try done; [apply Hsf1 | apply Hsf1 |].
  exists st'. split_and!; [done | by eapply same_free_trans |].
  intros c. rewrite Hp', Hp1. repeat case_decide; try done; lia.
Qed.

(** ** Splitting *)

Lemma owned_sub N st p o q o' :
  map_full N st -> owned st p o -> 0 <= o' <= 12 -> q mod 2 ^ o' = 0 ->
  (forall x, blk q o' x -> blk p o x) -> owned st q o'.
Proof.
  intros Hmap Hown Ho' Hq Hsub. apply (owned_intro N); try done. intros x Hx%Hsub. split.
  - by eapply owned_range.
  - by eapply owned_free.
Qed.

Lemma mod_pow2_pred p o : 0 <= o -> p mod 2 ^ (o + 1) = 0 -> p mod 2 ^ o = 0.
Proof.
  intros Ho Hp. apply Z.mod_divide in Hp; [| lia]. apply Z.mod_divide; [lia |].
  eapply Z.divide_trans; [| exact Hp]. exists 2. rewrite Z.pow_add_r by lia. lia.
Qed.

Lemma find_buddy_low p o : 0 <= o -> p mod 2 ^ (o + 1) = 0 -> find_buddy_pfn p o = p + 2 ^ o.
Proof.
  intros Ho Hp. apply Z.mod_divide in Hp as [a ->]; [| lia].
  rewrite Z.pow_add_r by lia. change (2 ^ 1) with 2.
  replace (a * (2 ^ o * 2)) with ((2 * a) * 2 ^ o) by lia.
  rewrite find_buddy_mul by lia. rewrite Z.even_mul. simpl. lia.
Qed.

(** One turn of the loop: the upper half goes on the list below. *)
Lemma split_step N st curr r k :
  map_full N st -> inv (eq curr) st -> owned st curr (k + 1) -> 0 <= k ->
  mem_map st !! curr = Some (mk_page PAGE_FLAGS_NEW_FREE_PAGE r (k + 1)) ->
  let b := curr + 2 ^ k in
  let st1 := set_page st curr (mk_page PAGE_FLAGS_NEW_FREE_PAGE r k) in
  exists bp, mem_map st1 !! b = Some bp /\
  let st2 := with_block st1 b k (refcnt bp) in
  map_full N st2 /\ inv (eq curr) st2 /\ owned st2 curr k /\
  mem_map st2 !! curr = Some (mk_page PAGE_FLAGS_NEW_FREE_PAGE r k) /\
  (forall x, is_free st2 x <-> is_free st x \/ blk b k x) /\
  (forall x, ~ blk curr (k + 1) x -> mem_map st2 !! x = mem_map st !! x).
Proof.
  intros Hmap Hinv Hown Hk Hc b st1.
  pose proof (own_order _ _ _ Hown) as Ho. pose proof (own_align _ _ _ Hown) as Hal.
  pose proof (pow2_order k Hk) as Hpos.
  assert (E2 : 2 ^ (k + 1) = 2 * 2 ^ k) by (rewrite Z.pow_add_r by lia; lia).
  pose proof (mod_pow2_pred _ _ Hk Hal) as Hal'.
  destruct (buddy_cases curr k Hk Hal') as (Hbal & Hbb & _ & _).
  rewrite (find_buddy_low curr k Hk Hal) in Hbal, Hbb. fold b in Hbal, Hbb.
  destruct (owned_unlisted _ _ _ _ Hinv Hown) as [Hna Hnc].
  assert (Hmap1 : map_full N st1) by (by eapply map_full_set_page).
  assert (Hinv1 : inv (eq curr) st1) by (by eapply (set_page_inv (eq curr) (eq curr))).
  assert (Hown1 : owned st1 curr (k + 1)) by (by eapply owned_set_page).
  assert (Hownb : owned st1 b k).
  { apply (owned_sub N _ curr (k + 1)); try done; [lia |]. unfold blk, b. lia. }
  destruct (map_full_lookup _ _ _ Hmap1 (owned_in_range _ _ _ _ Hmap1 Hownb)) as [bp Hbp].
  exists bp. split; [done |]. cbv zeta.
  destruct (with_block_inv (eq curr) st1 b k (refcnt bp) bp) as [Hinv2 Hfree2]; try done.
  { intros _. rewrite Hbb. apply Hna. }
  { unfold b. lia. }
  split_and!.
  - by eapply (map_full_set_page N st1).
  - done.
  - apply (owned_intro N); [by eapply (map_full_set_page N st1) | lia | done |].
    intros x Hx. split; [eapply owned_range; [exact Hmap | exact Hown |]; unfold blk in *; lia |].
    rewrite Hfree2. intros [Hf | Hf]; [| unfold blk, b in *; lia].
    eapply owned_free; [exact Hown1 | | exact Hf]. unfold blk in *. lia.
  - simpl. rewrite lookup_insert_ne by (unfold b; lia). by rewrite lookup_insert_eq.
  - exact Hfree2.
  - intros x Hx. simpl. unfold blk in Hx. rewrite !lookup_insert_ne; [done | unfold b; lia | unfold b; lia].
Qed.

Lemma split_loop_spec N curr r order (n : nat) : forall st k,
  map_full N st -> inv (eq curr) st -> owned st curr k -> 0 <= order <= k -> k - order <= Z.of_nat n ->
  mem_map st !! curr = Some (mk_page PAGE_FLAGS_NEW_FREE_PAGE r k) ->
  exists st', split_loop st curr order n = Ret st' /\
    map_full N st' /\ inv (eq curr) st' /\ owned st' curr order /\
    mem_map st' !! curr = Some (mk_page PAGE_FLAGS_NEW_FREE_PAGE r order) /\
    (forall x, is_free st' x <-> is_free st x \/ (blk curr k x /\ ~ blk curr order x)) /\
    (forall x, ~ blk curr k x -> mem_map st' !! x = mem_map st !! x).
Proof.
  induction n as [| n IH]; intros st k Hmap Hinv Hown Hk Hn Hc;
    cbn [split_loop]; unfold get_page at 1; rewrite Hc; cbn [buddy_page_order];
    destruct (Z.ltb_spec order k); try lia.
  1, 3: replace k with order in * by lia; exists st; split_and!; try done; intros x; tauto.
  replace k with ((k - 1) + 1) in Hown, Hc by lia.
  destruct (split_step N st curr r (k - 1)) as (bp & Hbp & Hstep); try done; [lia |].
  cbv zeta in Hstep. destruct Hstep as (Hmap2 & Hinv2 & Hown2 & Hc2 & Hfree2 & Hfr2).
  cbv zeta. replace (Z.shiftr (Z.shiftl 1 k) 1) with (2 ^ (k - 1)).
  2: { rewrite Z.shiftl_1_l, Z.shiftr_div_pow2 by lia. replace k with (1 + (k - 1)) at 2 by lia.
       rewrite Z.pow_add_r, Z.mul_comm by lia. change (2 ^ 1) with 2. by rewrite Z.div_mul. }
  cbn [flags refcnt]. unfold get_page at 1. rewrite Hbp.
  pose proof (own_order _ _ _ Hown) as Ho.
  unfold area_add, PAGE_ORDER_MAX. rewrite decide_True by lia.
  destruct (IH _ (k - 1) Hmap2 Hinv2 Hown2) as (st' & Hst' & H1 & H2 & H3 & H4 & H5 & H6); try done; try lia.
  assert (E2 : 2 ^ k = 2 * 2 ^ (k - 1)).
  { replace k with ((k - 1) + 1) at 1 by lia. rewrite Z.pow_add_r by lia. lia. }
  assert (Hle : 2 ^ order <= 2 ^ (k - 1)) by (apply Z.pow_le_mono_r; lia).
  exists st'. split; [exact Hst' |]. split_and!; try done.
  - intros x. rewrite H5, Hfree2. unfold blk. intuition lia.
  - intros x Hx. rewrite H6 by (unfold blk in *; lia). apply Hfr2.
    by replace (k - 1 + 1) with k by lia.
Qed.

(** ** Allocating *)

(** What a successful allocation amounts to. *)
Record hands_out (N : Z) (st st' : buddy_state) (pg o : Z) : Prop := {
  ho_map : map_full N st';
  ho_inv : inv none st';
  ho_owned : owned st' pg o;
  ho_page : mem_map st' !! pg = Some (mk_page PAGE_FLAGS_NEW_PAGE 1 o);
  ho_free : forall x, is_free st x <-> is_free st' x \/ blk pg o x;
  ho_frame : forall x, ~ is_free st x -> mem_map st' !! x = mem_map st !! x
}.

Lemma find_area_spec (n : nat) : forall st o,
  match find_area st o n with
  | Some (st', pg) => exists o', o <= o' < o + Z.of_nat n /\ pg ∈ areas st o' /\ st' = area_del st pg o'
  | None => forall o', o <= o' < o + Z.of_nat n -> areas st o' = []
  end.
Proof.
  induction n as [| n IH]; intros st o; cbn [find_area]; [intros; lia |].
  destruct (list.last (areas st o)) as [pg |] eqn:E.
  - exists o. split_and!; [lia | lia | | done]. apply last_Some in E as [l' ->]. set_solver.
  - apply last_None in E. specialize (IH st (o + 1)).
    destruct (find_area st (o + 1) n) as [[st' pg] |].
    + destruct IH as (o' & ? & ?). exists o'. split; [lia | done].
    + intros o' Ho'. destruct (decide (o' = o)) as [-> | Hne]; [done |]. apply IH. lia.
Qed.

(** The page handed out is marked in use. *)
Lemma claim_page N st0 st pg o f r :
  map_full N st -> inv (eq pg) st -> owned st pg o -> mem_map st !! pg = Some (mk_page f r o) ->
  (forall x, is_free st0 x <-> is_free st x \/ blk pg o x) ->
  (forall x, ~ is_free st0 x -> mem_map st !! x = mem_map st0 !! x) ->
  hands_out N st0 (set_page st pg (mk_page PAGE_FLAGS_NEW_PAGE 1 o)) pg o.
Proof.
  intros Hmap Hinv Hown Hpg Hfree Hframe. pose proof (own_order _ _ _ Hown) as Ho. split.
  - by eapply map_full_set_page.
  - destruct (owned_unlisted _ _ _ _ Hinv Hown) as [Hna Hnc].
    eapply (set_page_inv (eq pg) none); try done.
    intros Hl. by apply (not_looks_free PAGE_FLAGS_NEW_PAGE) in Hl.
  - by eapply owned_set_page.
  - simpl. by rewrite lookup_insert_eq.
  - intros x. by rewrite is_free_set_page.
  - intros x Hx. simpl. rewrite lookup_insert_ne; [by apply Hframe |].
    intros ->. apply Hx, Hfree. right. apply blk_self. lia.
Qed.

Lemma inv_weaken ex st : inv none st -> inv ex st.
Proof.
  intros Hinv. split; try apply Hinv. intros pg p Hl Hf _.
  by apply (inv_flags _ _ Hinv); [| | intros []].
Qed.

Lemma pcp_alloc_spec N st cpu pg rest :
  map_full N st -> inv none st -> pages (pcps st cpu) = pg :: rest ->
  exists st1 p, pcp_alloc st cpu = Ret (st1, Some pg) /\ mem_map st1 !! pg = Some p /\
    hands_out N st (set_page st1 pg (mk_page (flags p) 1 (buddy_page_order p))) pg 0.
Proof.
  intros Hmap Hinv Hpg.
  destruct (without_cached_inv N st cpu pg rest Hmap Hinv Hpg)
    as (Hinv1 & Hown1 & (r & Hr) & Hfree1 & Hnf). cbv zeta in *.
  set (st1 := without_cached st cpu rest) in *.
  destruct (owned_unlisted _ _ _ _ Hinv1 Hown1) as [Hna Hnc].
  set (p := mk_page PAGE_FLAGS_NEW_PAGE r 0).
  exists (set_page st1 pg p), p. split_and!.
  - unfold pcp_alloc. rewrite Hpg. unfold get_page.
    change (mem_map (set_pcp _ _ _)) with (mem_map st1). by rewrite Hr.
  - simpl. by rewrite lookup_insert_eq.
  - eapply (claim_page N _ _ _ 0 PAGE_FLAGS_NEW_PAGE r).
    + by eapply map_full_set_page.
    + eapply (set_page_inv none (eq pg)); try done.
    + by eapply owned_set_page.
    + simpl. by rewrite lookup_insert_eq.
    + intros x. rewrite is_free_set_page, blk_0. apply Hfree1.
    + intros x Hx. simpl. rewrite lookup_insert_ne; [done |]. intros ->. apply Hx, Hfree1. by right.
Qed.

Lemma alloc_try_spec N st cpu order :
  map_full N st -> inv none st -> 0 <= order <= 12 ->
  exists st' r, page_alloc_try st cpu order = Ret (st', r) /\
    match r with
    | Some pg => hands_out N st st' pg order
    | None => st' = st /\ (forall o, order <= o <= 12 -> areas st o = [])
    end.
Proof.
  intros Hmap Hinv Ho. unfold page_alloc_try.
  assert (Hpcp : (exists pg rest, order = 0 /\ pages (pcps st cpu) = pg :: rest) \/
    (if order =? 0 then pcp_alloc st cpu else Ret (st, None)) = Ret (st, None)).
  { destruct (Z.eqb_spec order 0) as [-> |]; [| by right].
    unfold pcp_alloc. destruct (pages (pcps st cpu)) as [| pg rest]; [by right | left; eauto]. }
  destruct Hpcp as [(pg & rest & -> & Hpg) | ->].
  { destruct (pcp_alloc_spec N st cpu pg rest) as (st1 & p & Hst1 & Hp & Hho); try done.
    simpl. rewrite Hst1. unfold get_page. rewrite Hp. do 2 eexists. by split. }
  pose proof (find_area_spec (Z.to_nat (PAGE_ORDER_MAX + 1 - order)) st order) as Hfa.
  replace (order + Z.of_nat _) with 13 in Hfa by (unfold PAGE_ORDER_MAX; lia).
  destruct (find_area st order _) as [[st1 pg] |].
  2: { do 2 eexists. split; [reflexivity |]. split; [done |]. intros; apply Hfa; lia. }
  destruct Hfa as (k & Hk & Hpg & ->).
  destruct (area_del_inv N st pg k Hmap Hinv Hpg) as (Hinv1 & Hown1 & Hfree1 & _).
  destruct (inv_area _ _ Hinv _ _ Hpg) as (_ & _ & _ & r & Hr).
  destruct (split_loop_spec N pg r order (Z.to_nat PAGE_ORDER_MAX) (area_del st pg k) k)
    as (st2 & -> & Hmap2 & Hinv2 & Hown2 & Hpg2 & Hfree2 & Hframe2); try done; try (unfold PAGE_ORDER_MAX; lia).
  unfold get_page. rewrite Hpg2. do 2 eexists. split; [reflexivity |].
  assert (Hle : 2 ^ order <= 2 ^ k) by (apply Z.pow_le_mono_r; lia).
  eapply (claim_page N _ _ _ _ PAGE_FLAGS_NEW_FREE_PAGE r); try done.
  - intros x. rewrite Hfree1, Hfree2.
    assert (blk pg order x -> blk pg k x) by (unfold blk; lia).
    destruct (decide (pg <= x < pg + 2 ^ order)); unfold blk in *; tauto.
  - intros x Hx. rewrite Hfree1 in Hx. apply Hframe2. tauto.
Qed.

(** ** Completeness

    An allocation fails only when no aligned run of that many pages is on the
    free lists: the lists are always fully coalesced. *)

Definition in_buddy (st : buddy_state) (x : Z) : Prop := exists o p, p ∈ areas st o /\ blk p o x.

Lemma blk_nest p k q o x y :
  0 <= k <= o -> p mod 2 ^ k = 0 -> q mod 2 ^ o = 0 ->
  blk p k x -> blk q o x -> blk p k y -> blk q o y.
Proof.
  unfold blk. intros Hk Hp Hq Hx Hx' Hy.
  assert (E : 2 ^ o = 2 ^ (o - k) * 2 ^ k) by (rewrite <- Z.pow_add_r by lia; f_equal; lia).
  apply Z.mod_divide in Hp as [a Ha]; [| lia]. apply Z.mod_divide in Hq as [b Hb]; [| lia].
  pose proof (pow2_order k ltac:(lia)). pose proof (pow2_order (o - k) ltac:(lia)).
  rewrite E in *. set (P := 2 ^ k) in *. set (Q := 2 ^ (o - k)) in *. clearbody P Q. subst p q.
  assert (b * Q <= a < b * Q + Q) by nia. nia.
Qed.

Lemma coalesced_covers ex st : inv ex st -> forall (n : nat) p,
  let k := Z.of_nat n in k <= 12 -> p mod 2 ^ k = 0 ->
  (forall x, blk p k x -> in_buddy st x) ->
  exists o q, k <= o /\ q ∈ areas st o /\ forall x, blk p k x -> blk q o x.
Proof.
  intros Hinv n. induction n as [| n IH]; intros p k Hk Hal Hall.
  { destruct (Hall p) as (o & q & Hq & Hb); [by apply blk_0 |].
    exists o, q. pose proof (inv_area _ _ Hinv _ _ Hq). split_and!; [lia | done |].
    by intros x ->%blk_0. }
  set (j := Z.of_nat n) in *. assert (Ek : k = j + 1) by lia. clearbody k. subst k.
  pose proof (mod_pow2_pred p j ltac:(lia) Hal) as Hal'.
  pose proof (pow2_order j ltac:(lia)).
  assert (E2 : 2 ^ (j + 1) = 2 * 2 ^ j) by (rewrite Z.pow_add_r by lia; lia).
  pose proof (find_buddy_low p j ltac:(lia) Hal) as Hb.
  destruct (buddy_cases p j ltac:(lia) Hal') as (Hbal & _). rewrite Hb in Hbal.
  destruct (IH p) as (o1 & q1 & Ho1 & Hq1 & Hc1); [lia | done | intros; apply Hall; unfold blk in *; lia |].
  destruct (IH (p + 2 ^ j)) as (o2 & q2 & Ho2 & Hq2 & Hc2);
    [lia | done | intros; apply Hall; unfold blk in *; lia |].
  specialize (Hc1 p ltac:(apply blk_self; lia)).
  specialize (Hc2 (p + 2 ^ j) ltac:(apply blk_self; lia)).
  destruct (inv_area _ _ Hinv _ _ Hq1) as (Hr1 & _ & Hm1 & _).
  destruct (inv_area _ _ Hinv _ _ Hq2) as (Hr2 & _ & Hm2 & _).
  destruct (decide (j + 1 <= o1)).
  { exists o1, q1. split_and!; [done | done |]. intros x Hx.
    eapply (blk_nest p (j + 1) q1 o1 p); try done; [lia | apply blk_self; lia]. }
  destruct (decide (j + 1 <= o2)).
  { exists o2, q2. split_and!; [done | done |]. intros x Hx.
    eapply (blk_nest p (j + 1) q2 o2 (p + 2 ^ j)); try done; [lia | unfold blk; lia]. }
  assert (o1 = j) as -> by lia. assert (o2 = j) as -> by lia. exfalso.
  assert (q1 = p).
  { pose proof (blk_nest p j q1 j p q1). pose proof (blk_nest q1 j p j p q1 ltac:(lia) Hm1 Hal' Hc1) as H1.
    specialize (H1 ltac:(apply blk_self; lia) ltac:(apply blk_self; lia)). unfold blk in *. lia. }
  assert (q2 = p + 2 ^ j).
  { pose proof (blk_nest q2 j (p + 2 ^ j) j (p + 2 ^ j) q2 ltac:(lia) Hm2 Hbal Hc2) as H1.
    specialize (H1 ltac:(apply blk_self; lia) ltac:(apply blk_self; lia)). unfold blk in *. lia. }
  subst. apply (inv_coalesced _ _ Hinv j p); [lia | done |]. by rewrite Hb.
Qed.

(** ** The allocator's contract *)

(** What the allocator needs of [page_cache_shrink]: it gives pages back
    through the allocator's own interface, so no free page is lost and the
    free lists stay well formed. *)
Class PageCacheShrink (N : Z) (shrink : buddy_state -> Z -> res buddy_state) : Prop :=
  shrink_ok st n : map_full N st -> inv none st ->
    exists st', shrink st n = Ret st' /\ map_full N st' /\ inv none st' /\
      forall x, is_free st x -> is_free st' x.

(** A page cache with nothing to reclaim. *)
#[export] Instance shrink_nothing N : PageCacheShrink N (fun st _ => Ret st).
Proof. intros st n Hmap Hinv. by exists st. Qed.

Lemma drain_all_spec N phys_offset st :
  phys_offset mod 2 ^ 24 = 0 -> map_full N st -> inv none st ->
  exists st', pcp_drain_all phys_offset st = Ret st' /\ same_free N st st' /\
    forall c, 0 <= c < MAX_CPUS -> pages (pcps st' c) = [].
Proof.
  intros Hoff Hmap Hinv.
  destruct (drain_from_spec N phys_offset (Z.to_nat MAX_CPUS) st 0) as (st' & Hst' & Hsf & Hp); try done.
  exists st'. split_and!; [done | done |]. intros c Hc. rewrite Hp, decide_True by (unfold MAX_CPUS in *; lia).
  done.
Qed.

(** An allocation while the page cache has nothing to reclaim. *)
Definition quiet (st : buddy_state) (_ : Z) : res buddy_state := Ret st.

Lemma quiet_alloc_spec N phys_offset cpu st o :
  phys_offset mod 2 ^ 24 = 0 -> map_full N st -> inv none st -> 0 <= o <= 12 ->
  exists st' r, page_alloc phys_offset quiet st cpu o = Ret (st', r) /\
    exists st1, same_free N st st1 /\
      match r with Some pg => hands_out N st1 st' pg o | None => st' = st1 end.
Proof.
  intros Hoff Hm Hi Ho. unfold page_alloc.
  destruct (alloc_try_spec N st cpu o) as (st1 & r & -> & H1); try done. destruct r as [pg |].
  { exists st1, (Some pg). split; [done |]. exists st. by split. }
  destruct H1 as [-> _].
  destruct (drain_all_spec N phys_offset st Hoff Hm Hi) as (st1 & -> & Hsf & _). unfold quiet.
  destruct (alloc_try_spec N st1 cpu o) as (st2 & r & -> & H2); [apply Hsf | apply Hsf | lia |].
  exists st2, r. split; [done |]. exists st1. split; [done |]. destruct r; [done | by destruct H2].
Qed.

(** Every frame has a descriptor and none is free. *)
Definition boot_map (N : Z) : gmap Z page :=
  gset_to_gmap (mk_page PAGE_FLAGS_NEW_PAGE 1 0) (list_to_set (seqZ 0 N)).

Definition boot_state (N : Z) : buddy_state := page_alloc_init (mk_buddy (boot_map N) (fun _ => []) (fun _ => mk_pcp [] 0)).

Lemma boot_lookup N x p :
  boot_map N !! x = Some p <-> 0 <= x < N /\ p = mk_page PAGE_FLAGS_NEW_PAGE 1 0.
Proof.
  unfold boot_map. rewrite lookup_gset_to_gmap_Some, elem_of_list_to_set, elem_of_seqZ.
  intuition (congruence || lia).
Qed.

Lemma boot_full N : N mod 2 ^ 12 = 0 -> map_full N (boot_state N).
Proof.
  intros HN. split; [done |]. intros x. simpl. split.
  - intros [p Hp]. by apply boot_lookup in Hp as [Hx _].
  - intros Hx. eexists. by apply boot_lookup.
Qed.

Lemma boot_not_free N x : ~ is_free (boot_state N) x.
Proof. intros [(o & p & Hp & _) | (c & Hc)]; by apply elem_of_nil in Hp || by apply elem_of_nil in Hc. Qed.

Lemma boot_inv N : inv none (boot_state N).
Proof.
  split; simpl; try (by intros; set_solver).
  - intros o. constructor.
  - intros c. split_and!; [constructor | done | simpl; lia].
  - intros pg p Hp%boot_lookup. destruct Hp as [_ ->].
    intros Hl. by apply (not_looks_free PAGE_FLAGS_NEW_PAGE) in Hl.
Qed.

Lemma boot_owned N pg o :
  N mod 2 ^ 12 = 0 -> 0 <= o <= 12 -> pg mod 2 ^ o = 0 -> 0 <= pg -> pg + 2 ^ o <= N ->
  owned (boot_state N) pg o.
Proof.
  intros HN Ho Hal Hp Hlt. apply (owned_intro N); try done; [by apply boot_full |].
  intros x Hx. split; [unfold blk in Hx; lia | apply boot_not_free].
Qed.

(** The state with one largest block free. *)
Definition one_block : buddy_state := with_block (boot_state 4096) 0 12 1.

Lemma boot_block_ok N p o :
  N mod 2 ^ 12 = 0 -> 0 <= o <= 12 -> p mod 2 ^ o = 0 -> 0 <= p -> p + 2 ^ o <= N ->
  map_full N (with_block (boot_state N) p o 1) /\ inv none (with_block (boot_state N) p o 1).
Proof.
  intros HN Ho Hal Hp Hlt. assert (Hl : mem_map (boot_state N) !! p = Some (mk_page PAGE_FLAGS_NEW_PAGE 1 0)).
  { apply boot_lookup. split; [lia | done]. }
  split.
  - exact (map_full_set_page N (boot_state N) p (mk_page PAGE_FLAGS_NEW_FREE_PAGE 1 o) _ Hl (boot_full N HN)).
  - eapply (with_block_inv none); [apply boot_inv | by apply boot_owned | exact Hl | | intros []].
    intros _. apply not_elem_of_nil.
Qed.

Lemma boot_cached_ok N cpu p :
  N mod 2 ^ 12 = 0 -> 0 <= p < N ->
  map_full N (with_cached (boot_state N) cpu p 1) /\ inv none (with_cached (boot_state N) cpu p 1).
Proof.
  intros HN Hp. assert (Hl : mem_map (boot_state N) !! p = Some (mk_page PAGE_FLAGS_NEW_PAGE 1 0)).
  { apply boot_lookup. split; [lia | done]. }
  split.
  - exact (map_full_set_page N (boot_state N) p (mk_page PCP_PAGE 1 0) _ Hl (boot_full N HN)).
  - eapply with_cached_inv; [apply boot_inv | | exact Hl | done].
    apply boot_owned; try done; change (2 ^ 0) with 1; [apply Z.mod_1_r | lia | lia].
Qed.

Lemma one_block_ok : map_full 4096 one_block /\ inv none one_block.
Proof. apply boot_block_ok; first [reflexivity | lia]. Qed.

(** The state the second attempt of [page_alloc] starts from. *)
Definition reclaimed (phys_offset : Z) (shrink : buddy_state -> Z -> res buddy_state)
    (st : buddy_state) (order : Z) (st' : buddy_state) : Prop :=
  exists std, pcp_drain_all phys_offset st = Ret std /\
    shrink std (u64 (Z.shiftl 1 order)) = Ret st'.

(** ** Properties *)

(** C2: giving a block of [2^order] pages back succeeds for every block the
    caller owns, keeps the allocator's invariant (free blocks aligned,
    disjoint, fully coalesced and described by their heads), makes exactly
    the pages of the block free and leaves the descriptor of every page in use
    alone; a single page goes to the CPU's cache while that has room. *)
Theorem page_free_correct N phys_offset st cpu pg order :
  phys_offset mod 2 ^ 24 = 0 -> map_full N st -> inv none st -> owned st pg order ->
  allocated st pg ->
  exists st', page_free phys_offset st cpu pg order = Ret st' /\
    gives_back N st st' pg order /\
    pages (pcps st' cpu) =
      if (order =? 0) && (count (pcps st cpu) <? PCP_MAX_ORDER0)
      then pg :: pages (pcps st cpu) else pages (pcps st cpu).
Proof. apply page_free_spec. Qed.

Lemma page_free_witness :
  exists st', page_free 0x80000000 (boot_state 8192) 0 4096 12 = Ret st' /\
    gives_back 8192 (boot_state 8192) st' 4096 12 /\ pages (pcps st' 0) = [].
Proof.
  apply (page_free_correct 8192 0x80000000 (boot_state 8192) 0 4096 12).
  - done.
  - by apply boot_full.
  - apply boot_inv.
  - by apply boot_owned.
  - eexists. split; [apply boot_lookup; split; [lia | done] | done].
Defined.

(** C1: an allocation of order at most PAGE_ORDER_MAX always returns; when it
    returns a block, the block is aligned to its size, was free (after the
    retry's reclaim) and is free no longer, its head carries a reference count
    of one, and no other page changes hands; when it returns NULL, not one
    aligned run of [2^order] pages lies on the free lists. *)
Theorem page_alloc_correct N phys_offset shrink `{!PageCacheShrink N shrink} st cpu order :
  phys_offset mod 2 ^ 24 = 0 -> map_full N st -> inv none st -> 0 <= order <= PAGE_ORDER_MAX ->
  exists st' r, page_alloc phys_offset shrink st cpu order = Ret (st', r) /\
    match r with
    | Some pg => exists st1,
        (st1 = st \/ reclaimed phys_offset shrink st order st1) /\
        (forall x, is_free st x -> is_free st1 x) /\ hands_out N st1 st' pg order
    | None => map_full N st' /\ inv none st' /\ (forall x, is_free st x -> is_free st' x) /\
        forall p, p mod 2 ^ order = 0 -> ~ (forall x, blk p order x -> in_buddy st' x)
    end.
Proof.
  intros Hoff Hmap Hinv Ho. unfold PAGE_ORDER_MAX in Ho. unfold page_alloc.
  destruct (alloc_try_spec N st cpu order) as (st1 & [pg |] & -> & H1); try done.
  { do 2 eexists. split; [reflexivity |]. exists st. split; [by left | done]. }
  destruct H1 as [-> _].
  destruct (drain_all_spec N phys_offset st) as (st1 & Hdr & Hsf & _); try done. rewrite Hdr.
  destruct (shrink_ok st1 (u64 (Z.shiftl 1 order))) as (st2 & Hsh & Hmap2 & Hinv2 & Hsub);
    [apply Hsf | apply Hsf |]. rewrite Hsh.
  assert (Hkeep : forall x, is_free st x -> is_free st2 x) by (intros x Hx; by apply Hsub, Hsf).
  destruct (alloc_try_spec N st2 cpu order) as (st3 & r & -> & H3); try done.
  do 2 eexists. split; [reflexivity |]. destruct r as [pg |].
  { exists st2. split; [right; by exists st1 | done]. }
  destruct H3 as [-> Hempty]. split_and!; try done. intros p Hal Hall.
  destruct (coalesced_covers none st2 Hinv2 (Z.to_nat order) p) as (o & q & Ho' & Hq & _);
    rewrite ?Z2Nat.id by lia; try done; [lia |].
  destruct (inv_area _ _ Hinv2 _ _ Hq) as (Hor & _). rewrite Hempty in Hq by lia.
  by apply elem_of_nil in Hq.
Qed.

Lemma page_alloc_witness :
  exists st' r, page_alloc 0x80000000 (fun st _ => Ret st) one_block 0 3 = Ret (st', r) /\
    match r with
    | Some pg => exists st1,
        (st1 = one_block \/ reclaimed 0x80000000 (fun st _ => Ret st) one_block 3 st1) /\
        (forall x, is_free one_block x -> is_free st1 x) /\ hands_out 4096 st1 st' pg 3
    | None => map_full 4096 st' /\ inv none st' /\ (forall x, is_free one_block x -> is_free st' x) /\
        forall p, p mod 2 ^ 3 = 0 -> ~ (forall x, blk p 3 x -> in_buddy st' x)
    end.
Proof.
  apply (page_alloc_correct 4096 0x80000000 (fun st _ => Ret st) one_block 0 3);
    [done | apply one_block_ok | apply one_block_ok | unfold PAGE_ORDER_MAX; lia].
Defined.

(** A block that is allocated and given back leaves exactly the pages free
    that were free before, with every other descriptor as it was. *)
Theorem page_alloc_free_roundtrip N phys_offset st cpu order st1 pg :
  phys_offset mod 2 ^ 24 = 0 -> map_full N st -> inv none st -> 0 <= order <= PAGE_ORDER_MAX ->
  page_alloc_try st cpu order = Ret (st1, Some pg) ->
  exists st2, page_free phys_offset st1 cpu pg order = Ret st2 /\ same_free N st st2.
Proof.
  intros Hoff Hmap Hinv Ho Hal. unfold PAGE_ORDER_MAX in Ho.
  destruct (alloc_try_spec N st cpu order) as (st1' & r & Hal' & Hho); try done.
  rewrite Hal in Hal'. simplify_eq. destruct Hho as [Hm Hi Hown Hpg Hfree Hframe].
  destruct (page_free_spec N phys_offset st1' cpu pg order) as (st2 & Hst2 & Hgb & _); try done.
  { eexists. split; [exact Hpg | done]. }
  exists st2. split; [done |]. split; try apply Hgb.
  - intros x. rewrite (gb_free _ _ _ _ _ Hgb), Hfree. done.
  - intros x Hx. rewrite (gb_frame _ _ _ _ _ Hgb); [by apply Hframe | |]; rewrite Hfree in Hx; tauto.
Qed.

Lemma page_alloc_free_roundtrip_witness :
  exists st1 pg st2, page_alloc_try one_block 0 2 = Ret (st1, Some pg) /\
    page_free 0x80000000 st1 0 pg 2 = Ret st2 /\ same_free 4096 one_block st2.
Proof.
  destruct (alloc_try_spec 4096 one_block 0 2) as (st1 & r & Hal & Hr);
    [apply one_block_ok | apply one_block_ok | lia |].
  destruct r as [pg |].
  - exists st1, pg.
    destruct (page_alloc_free_roundtrip 4096 0x80000000 one_block 0 2 st1 pg) as (st2 & H1 & H2);
      [done | apply one_block_ok | apply one_block_ok | unfold PAGE_ORDER_MAX; lia | exact Hal |].
    exists st2. exact (conj Hal (conj H1 H2)).
  - destruct Hr as [_ Hr]. specialize (Hr 12 ltac:(lia)). discriminate Hr.
Defined.

(** Draining the per-CPU caches empties every one of them and moves their
    pages to the free lists: the set of free pages does not change, and no
    assertion of the loop fails. *)
Theorem pcp_drain_all_correct N phys_offset st :
  phys_offset mod 2 ^ 24 = 0 -> map_full N st -> inv none st ->
  exists st', pcp_drain_all phys_offset st = Ret st' /\ same_free N st st' /\
    forall c, 0 <= c < MAX_CPUS -> pages (pcps st' c) = [].
Proof. apply drain_all_spec. Qed.

Lemma pcp_drain_all_witness :
  let st := with_cached (boot_state 4096) 2 17 1 in
  exists st', pcp_drain_all 0x80000000 st = Ret st' /\ same_free 4096 st st' /\
    forall c, 0 <= c < MAX_CPUS -> pages (pcps st' c) = [].
Proof.
  apply (pcp_drain_all_correct 4096 0x80000000); [done | |]; apply boot_cached_ok; first [reflexivity | lia].
Defined.

(** Dropping a reference to a single page that has others only lowers
    the count; dropping the last one gives the page back to the allocator. *)
Theorem page_put_correct N phys_offset st cpu pg r o :
  phys_offset mod 2 ^ 24 = 0 -> map_full N st -> inv none st -> owned st pg 0 ->
  mem_map st !! pg = Some (mk_page PAGE_FLAGS_NEW_PAGE r o) -> 1 <= r < 2 ^ 32 ->
  exists st', page_put phys_offset st cpu (Some pg) = Ret st' /\
    (1 < r -> st' = set_page st pg (mk_page PAGE_FLAGS_NEW_PAGE (r - 1) o) /\ owned st' pg 0) /\
    (r = 1 -> gives_back N st st' pg 0).
Proof.
  intros Hoff Hmap Hinv Hown Hpg Hr. unfold page_put, get_page at 1. rewrite Hpg. cbn [refcnt flags buddy_page_order].
  unfold refcnt_dec_fetch. destruct (Z.ltb_spec 0 r); [| lia]. destruct (Z.ltb_spec 0 (r - 1)).
  { eexists. split; [reflexivity |]. split; [| lia]. intros _. split; [done |]. by eapply owned_set_page. }
  destruct (owned_unlisted _ _ _ _ Hinv Hown) as [Hna Hnc].
  destruct (page_free_spec N phys_offset (set_page st pg (mk_page PAGE_FLAGS_NEW_PAGE (r - 1) o)) cpu pg 0)
    as (st' & Hst' & [G1 G2 G3 G4] & _); try done.
  - by eapply map_full_set_page.
  - eapply (set_page_inv none none); try done. intros Hl. by apply (not_looks_free PAGE_FLAGS_NEW_PAGE) in Hl.
  - by eapply owned_set_page.
  - eexists. simpl. by rewrite lookup_insert_eq.
  - exists st'. split; [done |]. split; [lia |]. intros _. split; try done.
    intros x Hx Hb. rewrite G4 by done. simpl. rewrite lookup_insert_ne; [done |]. intros ->. by apply Hb, blk_0.
Qed.

Lemma page_put_witness :
  exists st', page_put 0x80000000 (boot_state 4096) 0 (Some 5) = Ret st' /\
    (1 < 1 -> st' = set_page (boot_state 4096) 5 (mk_page PAGE_FLAGS_NEW_PAGE (1 - 1) 0) /\ owned st' 5 0) /\
    (1 = 1 -> gives_back 4096 (boot_state 4096) st' 5 0).
Proof.
  apply (page_put_correct 4096 0x80000000 (boot_state 4096) 0 5 1 0);
    [done | by apply boot_full | apply boot_inv | by apply boot_owned | apply boot_lookup; split; [lia | done] | lia].
Defined.
