(* ===== verification/BootMem.v ===== *)
(** * The second half of mm/memblock.c: boot memory becomes page memory

    [memblock_free_all] walks the memory that is not reserved and gives its
    whole pages to the buddy allocator in the largest aligned blocks that fit.
    The state is the memory map and the allocator's; RAM begins at
    [phys_offset]. *)

From S2P Require Import Prelude Memblock Buddy.

Definition MAX_FREE_RANGES : Z := 128.

(** ** The page frames of memory *)

(** [__next_mem_pfn_range]: the loop over [*pidx], with what it leaves in
    [*pstart] and [*pend]. *)
Fixpoint pfn_loop (phys_offset : Z) (mem : memblock_region_set) (pidx pstart pend : Z) (fuel : nat) : res (Z * Z * Z) :=
  if pidx <? cnt mem then
    match fuel with
    | O => Halt Fuel
    | S fuel' =>
        let! rgn := rd (regions mem) pidx in
        let pidx := u32 (pidx + 1) in
        let pstart := phys_to_pfn phys_offset (round_up (base rgn) PAGE_SIZE) in
        let pend := phys_to_pfn phys_offset (round_down (u64 (base rgn + size rgn)) PAGE_SIZE) in
        if pstart <? pend then Ret (pidx, pstart, pend)
        else pfn_loop phys_offset mem pidx pstart pend fuel'
    end
  else Ret (UINT32_MAX, pstart, pend).

Definition next_mem_pfn_range (phys_offset : Z) (mb : memblock) (pidx pstart pend : Z) : res (Z * Z * Z) :=
  pfn_loop phys_offset (memory mb) pidx pstart pend (Z.to_nat (cnt (memory mb))).

Fixpoint pfn_ranges_from (phys_offset : Z) (mb : memblock) (idx start end_ : Z) (fuel : nat) : res (list (Z * Z)) :=
  match fuel with
  | O => Halt Fuel
  | S fuel' =>
      let! (i, s, e) := next_mem_pfn_range phys_offset mb idx start end_ in
      if i =? UINT32_MAX then Ret []
      else
        let! rest := pfn_ranges_from phys_offset mb i s e fuel' in
        Ret ((s, e) :: rest)
  end.

Definition for_each_mem_pfn_range (phys_offset : Z) (mb : memblock) : res (list (Z * Z)) :=
  pfn_ranges_from phys_offset mb 0 0 0 (S (Z.to_nat (cnt (memory mb)))).

(** ** The hand-over *)

(** [for (;;)]: the largest order, from [order] down, whose block is aligned
    at [start] and fits in [rem]. *)
Fixpoint fit_order (start rem order : Z) (n : nat) : res Z :=
  match n with
  | O => Halt Fuel
  | S n' =>
      let chunk_size := u64 (Z.shiftl 1 (PAGE_SHIFT + order)) in
      if is_aligned start chunk_size && (chunk_size <=? rem) then Ret order
      else fit_order start rem (u32 (order - 1)) n'
  end.

(** [while (start < end)]. *)
Fixpoint free_chunks (phys_offset : Z) (st : buddy_state) (cpu start end_ : Z) (fuel : nat)
    : res buddy_state :=
  if start <? end_ then
    match fuel with
    | O => Halt Fuel
    | S fuel' =>
        let order := page_order (end_ - start) in
        let order := if PAGE_ORDER_MAX <? order then PAGE_ORDER_MAX else order in
        let! order := fit_order start (end_ - start) order 13 in
        let npgs := Z.shiftl 1 order in
        let pg := phys_to_pfn phys_offset start in
        let! p := get_page st pg in
        let st := set_page st pg (mk_page PAGE_FLAGS_NEW_PAGE (refcnt p) (buddy_page_order p)) in
        let! st := page_free phys_offset st cpu pg order in
        free_chunks phys_offset st cpu (u64 (start + u64 (Z.shiftl npgs PAGE_SHIFT))) end_ fuel'
    end
  else Ret st.

(** Each turn frees a page at least. *)
Definition memblock_free_range (phys_offset : Z) (mb : memblock) (st : buddy_state) (cpu start end_ : Z)
    : res (memblock * buddy_state) :=
  let start := round_up start PAGE_SIZE in
  let end_ := round_down end_ PAGE_SIZE in
  let! mb := memblock_reserve mb start (u64 (end_ - start)) in
  let! st := free_chunks phys_offset st cpu start end_ (Z.to_nat ((end_ - start) / PAGE_SIZE)) in
  Ret (mb, st).

Fixpoint free_ranges (phys_offset : Z) (mb : memblock) (st : buddy_state) (cpu : Z) (ranges : list (Z * Z))
    : res (memblock * buddy_state) :=
  match ranges with
  | [] => Ret (mb, st)
  | (start, end_) :: ranges' =>
      let! (mb, st) := memblock_free_range phys_offset mb st cpu start end_ in
      free_ranges phys_offset mb st cpu ranges'
  end.

(** The ranges are copied before the first is freed. *)
Definition memblock_free_all (phys_offset : Z) (mb : memblock) (st : buddy_state) (cpu : Z)
    : res (memblock * buddy_state) :=
  let! ranges := for_each_mem_range mb in
  assert! Z.of_nat (length ranges) <=? MAX_FREE_RANGES in
  free_ranges phys_offset mb st cpu ranges.

(** ** Choosing the block *)

Lemma chunk_val o : 0 <= o <= 12 -> u64 (Z.shiftl 1 (PAGE_SHIFT + o)) = 2 ^ (12 + o).
Proof.
  intros Ho. rewrite Z.shiftl_1_l. unfold PAGE_SHIFT. apply u64_small. split; [lia |]. apply Z.pow_lt_mono_r; lia.
Qed.

Lemma fit_order_spec start rem (n : nat) : forall o, start mod 4096 = 0 -> 4096 <= rem -> 0 <= o <= 12 -> o < Z.of_nat n ->
  exists o', fit_order start rem o n = Ret o' /\ 0 <= o' <= o /\ start mod 2 ^ (12 + o') = 0 /\ 2 ^ (12 + o') <= rem /\
    forall q, o' < q <= o -> ~ (start mod 2 ^ (12 + q) = 0 /\ 2 ^ (12 + q) <= rem).
Proof.
  induction n as [| n IH]; intros o Hs Hr Ho Hn; [lia |]. cbn [fit_order]. rewrite chunk_val by done.
  destruct (is_aligned start (2 ^ (12 + o)) && (2 ^ (12 + o) <=? rem)) eqn:E.
  - apply andb_true_iff in E as [E1 E2%Z.leb_le]. apply is_aligned_spec in E1; [| lia].
    exists o. split_and!; try done; lia.
  - assert (Hno : ~ (start mod 2 ^ (12 + o) = 0 /\ 2 ^ (12 + o) <= rem)).
    { intros [H1 H2]. apply is_aligned_spec in H1; [| lia]. apply Z.leb_le in H2. by rewrite H1, H2 in E. }
    assert (Hpos : 0 < o).
    { destruct (decide (o = 0)) as [-> |]; [| lia]. exfalso. apply Hno. change (2 ^ (12 + 0)) with 4096. done. }
    rewrite u32_small by lia. destruct (IH (o - 1)) as (o' & -> & H1 & H2 & H3 & H4); try lia.
    exists o'. split_and!; try done; try lia. intros q Hq. destruct (decide (q = o)) as [-> |]; [done |]. apply H4. lia.
Qed.

(** ** Freeing a range *)

Section Boot.

Context (N phys_offset cpu : Z).
Hypothesis ram_base : 0 <= phys_offset /\ phys_offset mod 2 ^ 24 = 0.
Hypothesis ram_end : phys_offset + 4096 * N <= 2 ^ 56.

Definition frame (x : Z) : Z := phys_offset + 4096 * x.

(** The page [x] lies between [s] and [e]. *)
Definition page_in (s e x : Z) : Prop := s <= frame x /\ frame x + 4096 <= e.

Lemma pfn_of s : phys_offset <= s < 2 ^ 64 -> s mod 4096 = 0 ->
  exists pg, phys_to_pfn phys_offset s = pg /\ s = frame pg /\ 0 <= pg.
Proof.
  intros Hs Hal. assert (Hoff : phys_offset mod 4096 = 0).
  { destruct ram_base as [_ H]. apply Z.mod_divide in H as [q ->]; [| lia]. change (2 ^ 24) with (4096 * 4096).
    rewrite Z.mul_assoc, Z.mod_mul by lia. done. }
  exists ((s - phys_offset) / 4096). unfold phys_to_pfn, frame. rewrite u64_small by lia.
  rewrite Z.shiftr_div_pow2 by (unfold PAGE_SHIFT; lia). change (2 ^ PAGE_SHIFT) with 4096. clear ram_base. zdm.
Qed.

Lemma block_aligned pg o : 0 <= o <= 12 -> frame pg mod 2 ^ (12 + o) = 0 -> pg mod 2 ^ o = 0.
Proof.
  intros Ho Hal. destruct ram_base as [_ Hb]. unfold frame in Hal.
  apply Z.mod_divide in Hal as [q Hq]; [| lia]. apply Z.mod_divide in Hb as [b Hb]; [| lia].
  apply Z.mod_divide; [lia |]. exists (q - b * 2 ^ (12 - o)).
  rewrite Z.pow_add_r in Hq by lia. change (2 ^ 12) with 4096 in Hq.
  assert (H24 : 2 ^ 24 = 4096 * (2 ^ (12 - o) * 2 ^ o)).
  { rewrite <- Z.pow_add_r by lia. replace (12 - o + o) with 12 by lia. done. }
  rewrite H24 in Hb. nia.
Qed.

Lemma free_chunks_spec (n : nat) : forall st s e, map_full N st -> inv none st ->
  phys_offset <= s -> e <= phys_offset + 4096 * N -> s mod 4096 = 0 -> e mod 4096 = 0 -> s <= e ->
  e - s <= 4096 * Z.of_nat n -> (forall x, page_in s e x -> ~ is_free st x) ->
  exists st', free_chunks phys_offset st cpu s e n = Ret st' /\ map_full N st' /\ inv none st' /\
    forall x, is_free st' x <-> is_free st x \/ page_in s e x.
Proof.
  induction n as [| n IH]; intros st s e Hm Hi Hs He Hsa Hea Hle Hn Hnf; cbn [free_chunks];
    (destruct (Z.ltb_spec s e) as [Hlt | Hge];
     [| exists st; split_and!; try done; intros x; unfold page_in; split; [by left | intros [? | ?]; [done | lia]]]); [lia |].
  assert (Hrem : 4096 <= e - s) by (clear ram_base; zdm).
  pose proof (page_order_bound (e - s)) as Hpo. unfold PAGE_ORDER_MAX.
  destruct (Z.ltb_spec 12 (page_order (e - s))); [lia |].
  destruct (fit_order_spec s (e - s) 13 (page_order (e - s))) as (o & -> & Ho & Hal & Hfit & _); try lia.
  destruct (pfn_of s) as (pg & -> & Hpg & Hpg0); [lia | done |].
  assert (Hpow : 2 ^ (12 + o) = 4096 * 2 ^ o) by (rewrite Z.pow_add_r by lia; done).
  assert (H2o : 0 < 2 ^ o) by lia.
  assert (Hblk : forall x, blk pg o x -> page_in s e x).
  { intros x Hx. unfold blk in Hx. unfold page_in, frame in *. lia. }
  assert (HN : pg + 2 ^ o <= N) by (unfold frame in *; lia).
  destruct (map_full_lookup N st pg Hm ltac:(lia)) as [p Hp]. unfold get_page. rewrite Hp.
  set (st1 := set_page st pg (mk_page PAGE_FLAGS_NEW_PAGE (refcnt p) (buddy_page_order p))).
  assert (Hown : owned st pg o).
  { apply (owned_intro N); [done | lia | |].
    - apply block_aligned; [lia |]. by rewrite <- Hpg.
    - intros x Hx. split; [unfold blk in Hx; lia | by apply Hnf, Hblk]. }
  destruct (owned_unlisted _ _ _ _ Hi Hown) as [Hna Hnc].
  destruct (page_free_spec N phys_offset st1 cpu pg o (proj2 ram_base)) as (st2 & -> & [G1 G2 G3 G4] & _).
  - by eapply map_full_set_page.
  - eapply (set_page_inv none none); try done. intros Hl. by apply (not_looks_free PAGE_FLAGS_NEW_PAGE) in Hl.
  - by eapply owned_set_page.
  - eexists. split; [simpl; apply lookup_insert_eq | done].
  - rewrite !Z.shiftl_mul_pow2 by (unfold PAGE_SHIFT; lia). rewrite Z.mul_1_l. change (2 ^ PAGE_SHIFT) with 4096.
    rewrite (u64_small (2 ^ o * 4096)), u64_small by lia.
    destruct (IH st2 (s + 2 ^ o * 4096) e) as (st' & -> & Hm' & Hi' & Hf'); try done; try lia.
    + rewrite Z.add_mod, Hsa, Z.mod_mul by lia. done.
    + intros x Hx. rewrite G3. intros [Hf | Hb].
      * apply (Hnf x); [| done]. unfold page_in in *. lia.
      * unfold blk in Hb. unfold page_in, frame in *. lia.
    + exists st'. split_and!; try done. intros x. rewrite Hf', G3. unfold st1. rewrite is_free_set_page.
      unfold page_in, blk, frame in *. split; [intros [[? | ?] | ?] | intros [? | ?]]; try tauto; lia.
Qed.

(** The page inside a range once its ends are rounded. *)
Lemma page_rounded s e x : 0 <= s -> s + 4096 <= 2 ^ 64 -> 0 <= e < 2 ^ 64 -> phys_offset <= s ->
  let s' := round_up s PAGE_SIZE in let e' := round_down e PAGE_SIZE in
  s' mod 4096 = 0 /\ e' mod 4096 = 0 /\ s <= s' /\ e' <= e /\ (page_in s e x <-> page_in s' e' x).
Proof.
  intros Hs Hs2 He Hoff. cbv zeta.
  pose proof (round_up_bounds s 12 ltac:(lia) Hs ltac:(lia)) as [U1 U2].
  pose proof (round_down_spec e 12 ltac:(lia) He) as D. change (2 ^ 12) with PAGE_SIZE in *.
  set (s' := round_up s PAGE_SIZE) in *. set (e' := round_down e PAGE_SIZE) in *. clearbody s' e'.
  unfold PAGE_SIZE in *. assert (Hoff4 : phys_offset mod 4096 = 0).
  { destruct ram_base as [_ H]. apply Z.mod_divide in H as [q ->]; [| lia]. change (2 ^ 24) with (4096 * 4096).
    rewrite Z.mul_assoc, Z.mod_mul by lia. done. }
  clear ram_base ram_end. unfold page_in, frame. split_and!; [done | | lia | |]; zdm.
Qed.

(** The whole pages of a range, as addresses. *)
Definition whole (s e y : Z) : Prop := round_up s PAGE_SIZE <= y < round_down e PAGE_SIZE.

(** [memblock_reserve] of the whole pages of a range nobody has reserved.  A
    range without a whole page inside passes a size that wraps, and then the
    call changes nothing. *)
Lemma reserve_whole mb (R : Z -> Prop) s e : denotes (reserved mb) R -> max (reserved mb) < 2 ^ 32 ->
  0 < cnt (reserved mb) < max (reserved mb) -> 0 <= s < e -> e + 4096 <= 2 ^ 64 -> (forall y, s <= y < e -> ~ R y) ->
  exists mb', memblock_reserve mb (round_up s PAGE_SIZE) (u64 (round_down e PAGE_SIZE - round_up s PAGE_SIZE)) = Ret mb' /\
    memory mb' = memory mb /\ max (reserved mb') = max (reserved mb) /\
    0 < cnt (reserved mb') <= cnt (reserved mb) + 1 /\ denotes (reserved mb') (fun y => R y \/ whole s e y).
Proof.
  intros HR Hmax Hcnt Hse He Hfree.
  pose proof (round_up_bounds s 12 ltac:(lia) ltac:(lia) ltac:(lia)) as [U1 U2].
  pose proof (round_down_spec e 12 ltac:(lia) ltac:(lia)) as D.
  change (2 ^ 12) with PAGE_SIZE in *. unfold whole.
  set (s' := round_up s PAGE_SIZE) in *. set (e' := round_down e PAGE_SIZE) in *. clearbody s' e'. unfold PAGE_SIZE in *.
  assert (D' : e - 4096 < e' <= e /\ 0 <= e' /\ e' mod 4096 = 0) by (clear -D Hse; zdm). clear D.
  assert (Hpos : forall set P y, denotes set P -> P y -> 0 < cnt set).
  { intros set P y (l & Hrep & _ & HP) Hy. rewrite (repr_cnt _ _ Hrep). apply HP in Hy.
    destruct l; [by apply covers_nil in Hy | simpl; lia]. }
  assert (Hwit : exists y, R y).
  { destruct HR as ([| r l] & Hrep & Hwf & HP); [rewrite (repr_cnt _ _ Hrep) in Hcnt; simpl in Hcnt; lia |].
    exists (base r). apply HP. rewrite covers_cons. simpl in Hwf. unfold rend. lia. }
  destruct Hwit as [y0 Hy0]. unfold memblock_reserve.
  destruct (Z.le_gt_cases s' e') as [Hle | Hgt].
  - rewrite u64_small by lia.
    destruct (add_region_fresh (reserved mb) R s' (e' - s')) as (set' & -> & H1 & H2 & H3); try done; try lia.
    { intros y Hy. apply Hfree. unfold in_rng in Hy. lia. }
    exists (mk_memblock (memory mb) set'). cbn [reserved memory]. split_and!; try done.
    + apply (Hpos _ _ y0 H3). by left.
    + destruct H3 as (l & H3 & H4 & H5). exists l. split_and!; try done. intros y. rewrite H5. unfold in_rng.
      split; (intros [? |]; [by left | right; lia]).
  - assert (Hd : s' = e' + 4096) by (clear -Hgt Hse U1 U2 D'; zdm). subst s'.
    assert (Hu : u64 (e' - (e' + 4096)) = 2 ^ 64 - 4096) by (unfold wrap; replace (e' - (e' + 4096)) with (-4096) by lia; done).
    rewrite Hu.
    destruct (add_region_wrapped (reserved mb) R (e' + 4096) (2 ^ 64 - 4096) s) as (set' & -> & H1 & H2 & H3); try done; try lia.
    { replace (e' + 4096 + (2 ^ 64 - 4096)) with (e' + 1 * 2 ^ 64) by lia. unfold wrap. rewrite Z.mod_add by lia.
      rewrite Z.mod_small; lia. }
    { apply Hfree. lia. }
    exists (mk_memblock (memory mb) set'). cbn [reserved memory]. split_and!; try done; try lia.
    + by apply (Hpos _ _ y0 H3).
    + destruct H3 as (l & H3 & H4 & H5). exists l. split_and!; try done. intros y. rewrite H5.
      split; [by left | intros [? |]; [done | lia]].
Qed.

Lemma free_range_spec mb (R : Z -> Prop) st s e : map_full N st -> inv none st ->
  denotes (reserved mb) R -> max (reserved mb) < 2 ^ 32 -> 0 < cnt (reserved mb) < max (reserved mb) ->
  (forall y, s <= y < e -> ~ R y) ->
  phys_offset <= s -> s < e -> e <= phys_offset + 4096 * N -> (forall x, page_in s e x -> ~ is_free st x) ->
  exists mb' st', memblock_free_range phys_offset mb st cpu s e = Ret (mb', st') /\ map_full N st' /\ inv none st' /\
     memory mb' = memory mb /\ max (reserved mb') = max (reserved mb) /\
     0 < cnt (reserved mb') <= cnt (reserved mb) + 1 /\ denotes (reserved mb') (fun y => R y \/ whole s e y) /\
     forall x, is_free st' x <-> is_free st x \/ page_in s e x.
Proof.
  intros Hm Hi HR Hmax Hcnt Hfree Hs Hlt He Hnf. unfold memblock_free_range.
  destruct (reserve_whole mb R s e) as (mb' & -> & H1 & H2 & H3 & H4); try done; try lia.
  assert (Hr : forall x, _) by (intros x; exact (page_rounded s e x ltac:(lia) ltac:(lia) ltac:(lia) Hs)). cbv zeta in Hr.
  destruct (Hr 0) as (S1 & E1 & S2 & E2 & _).
  set (s' := round_up s PAGE_SIZE) in *. set (e' := round_down e PAGE_SIZE) in *.
  destruct (Z.le_gt_cases s' e') as [Hle | Hgt].
  - destruct (free_chunks_spec (Z.to_nat ((e' - s') / PAGE_SIZE)) st s' e') as (st' & -> & Hm' & Hi' & Hf'); try done; try lia.
    + rewrite Z2Nat.id by (apply Z.div_pos; [lia | done]). unfold PAGE_SIZE. clear ram_base. zdm.
    + intros x Hx. apply Hnf. by apply Hr.
    + exists mb', st'. split_and!; try done; try lia. intros x. rewrite Hf'. destruct (Hr x) as (_ & _ & _ & _ & ->). done.
  - exists mb', st. assert (Hno : free_chunks phys_offset st cpu s' e' (Z.to_nat ((e' - s') / PAGE_SIZE)) = Ret st).
    { destruct (Z.to_nat ((e' - s') / PAGE_SIZE)); cbn [free_chunks]; (destruct (Z.ltb_spec s' e'); [lia | done]). }
    rewrite Hno. split_and!; try done; try lia. intros x. split; [by left |]. intros [? | Hx]; [done |].
    apply Hr in Hx. unfold page_in in Hx. lia.
Qed.

Lemma free_ranges_spec rs : forall lo mb (R : Z -> Prop) st, map_full N st -> inv none st -> ranges_ok lo rs ->
  denotes (reserved mb) R -> max (reserved mb) < 2 ^ 32 ->
  0 < cnt (reserved mb) -> cnt (reserved mb) + Z.of_nat (length rs) <= max (reserved mb) ->
  (forall r y, r ∈ rs -> r.1 <= y < r.2 -> ~ R y) ->
  (forall r, r ∈ rs -> phys_offset <= r.1 /\ r.2 <= phys_offset + 4096 * N) ->
  (forall r x, r ∈ rs -> page_in r.1 r.2 x -> ~ is_free st x) ->
  exists mb' st', free_ranges phys_offset mb st cpu rs = Ret (mb', st') /\ map_full N st' /\ inv none st' /\
     memory mb' = memory mb /\ denotes (reserved mb') (fun y => R y \/ exists r, r ∈ rs /\ whole r.1 r.2 y) /\
     forall x, is_free st' x <-> is_free st x \/ exists r, r ∈ rs /\ page_in r.1 r.2 x.
Proof.
  induction rs as [| [s e] rs IH]; intros lo mb R st Hm Hi Hok HR Hmax Hc0 Hcnt Hfree Hin Hnf; cbn [free_ranges].
  { assert (Hnil : forall (T : Prop) (Q : Z * Z -> Prop), T \/ (exists r, r ∈ @nil (Z * Z) /\ Q r) <-> T).
    { intros T Q. split; [intros [? | (r & Hr & _)]; [done |]; by apply elem_of_nil in Hr | by left]. }
    exists mb, st. split_and!; try done; try (intros x; by rewrite Hnil).
    destruct HR as (l & H1 & H2 & H3). exists l. split_and!; try done. intros x. by rewrite H3, Hnil. }
  assert (Hcons : forall (T : Prop) (Q : Z * Z -> Prop),
    T \/ (exists r, r ∈ (s, e) :: rs /\ Q r) <-> (T \/ Q (s, e)) \/ exists r, r ∈ rs /\ Q r).
  { intros T Q. split.
    - intros [? | (r & Hr & Hq)]; [by left; left |]. apply elem_of_cons in Hr as [-> | Hr]; [left; by right | right; eauto].
    - intros [[? | ?] | (r & Hr & Hq)]; [by left | right; exists (s, e) | right; exists r]; (split; [| done]); [left | by right]. }
  destruct Hok as [Hlt Hok]. cbn [fst snd length] in *. destruct (Hin (s, e)) as [B1 B2]; [left |]. cbn [fst snd] in *.
  assert (Hsep : forall r, r ∈ rs -> e <= r.1).
  { clear -Hok. revert e Hok. induction rs as [| r rs IH]; intros e Hok r' Hr'; [by apply elem_of_nil in Hr' |].
    destruct Hok as [H1 H2]. apply elem_of_cons in Hr' as [-> | Hr']; [lia |]. specialize (IH _ H2 _ Hr'). lia. }
  destruct (free_range_spec mb R st s e) as (mb1 & st1 & -> & Hm1 & Hi1 & M1 & X1 & C1 & R1 & Hf1); try done; try lia.
  { intros y. apply (Hfree (s, e) y). left. }
  { intros x. apply (Hnf (s, e) x). left. }
  destruct (IH e mb1 (fun y => R y \/ whole s e y) st1) as (mb2 & st2 & -> & Hm2 & Hi2 & M2 & R2 & Hf2); try done; try lia.
  - intros r y Hr Hy [HRy | Hw]; [apply (Hfree r y); [by right | done | done] |].
    specialize (Hsep r Hr). unfold whole in Hw.
    pose proof (round_down_spec e 12 ltac:(lia) ltac:(lia)) as D. change (2 ^ 12) with PAGE_SIZE in D. unfold PAGE_SIZE in *. clear ram_base ram_end. zdm.
  - intros r Hr. apply Hin. by right.
  - intros r x Hr Hx. rewrite Hf1. intros [Hf | Hp]; [apply (Hnf r x); [by right | done | done] |].
    specialize (Hsep r Hr). unfold page_in in *. lia.
  - exists mb2, st2. split_and!; try done; [congruence | | intros x; by rewrite Hf2, Hf1, Hcons].
    destruct R2 as (l & H1 & H2 & H3). exists l. split_and!; try done. intros y. by rewrite H3, Hcons.
Qed.

Lemma ranges_count mb (n : nat) : forall pidx rs, mem_ranges_from mb pidx n = Ret rs -> (length rs < n)%nat.
Proof.
  induction n as [| n IH]; intros pidx rs; cbn [mem_ranges_from]; [done |].
  destruct (next_mem_range mb pidx) as [[r pidx'] |]; [| done].
  destruct (pidx' =? UINT64_MAX); [intros [= <-]; simpl; lia |]. destruct r as [rg |]; [| done].
  destruct (mem_ranges_from mb pidx' n) as [rest |] eqn:E; [| done]. intros [= <-]. apply IH in E. simpl. lia.
Qed.

(** ** The page frames of memory *)

(** What the iteration is to compute from the live regions. *)
Definition pfn_range (r : memblock_region) : Z * Z :=
  (phys_to_pfn phys_offset (round_up (base r) PAGE_SIZE),
   phys_to_pfn phys_offset (round_down (u64 (base r + size r)) PAGE_SIZE)).

Definition pfn_ranges (l : list memblock_region) : list (Z * Z) :=
  filter (fun r => r.1 < r.2) (pfn_range <$> l).

Lemma next_pfn_spec mem l2 : forall l1 ps pe (n : nat), repr mem (l1 ++ l2) -> max mem < 2 ^ 32 - 1 -> (length l2 <= n)%nat ->
  match pfn_ranges l2 with
  | [] => exists s e, pfn_loop phys_offset mem (Z.of_nat (length l1)) ps pe n = Ret (UINT32_MAX, s, e)
  | (s, e) :: rest => exists d t, l2 = d ++ t /\ d <> [] /\ pfn_ranges t = rest /\
      pfn_loop phys_offset mem (Z.of_nat (length l1)) ps pe n = Ret (Z.of_nat (length (l1 ++ d)), s, e)
  end.
Proof.
  induction l2 as [| r l2 IH]; intros l1 ps pe n Hrep Hmax Hn;
    pose proof (repr_cnt _ _ Hrep) as Hc; pose proof (repr_max _ _ Hrep) as Hle; rewrite length_app in Hc, Hle; simpl in Hc, Hle, Hn.
  - change (pfn_ranges []) with (@nil (Z * Z)). cbv iota.
    destruct n; cbn [pfn_loop]; (destruct (Z.ltb_spec (Z.of_nat (length l1)) (cnt mem)); [lia |]); eauto.
  - destruct n as [| n]; [lia |]. cbn [pfn_loop]. destruct (Z.ltb_spec (Z.of_nat (length l1)) (cnt mem)); [| lia].
    rewrite (repr_rd _ _ _ _ Hrep). rewrite u32_small by lia.
    replace (Z.of_nat (length l1) + 1) with (Z.of_nat (length (l1 ++ [r]))) by (rewrite length_app; simpl; lia).
    unfold pfn_ranges. rewrite fmap_cons, filter_cons. cbn [pfn_range fst snd].
    destruct (Z.ltb_spec (phys_to_pfn phys_offset (round_up (base r) PAGE_SIZE))
      (phys_to_pfn phys_offset (round_down (u64 (base r + size r)) PAGE_SIZE))).
    + rewrite decide_True by done. by exists [r], l2.
    + rewrite decide_False by lia. fold (pfn_ranges l2).
      specialize (IH (l1 ++ [r]) (phys_to_pfn phys_offset (round_up (base r) PAGE_SIZE))
        (phys_to_pfn phys_offset (round_down (u64 (base r + size r)) PAGE_SIZE)) n).
      rewrite <- app_assoc in IH. specialize (IH Hrep Hmax ltac:(lia)).
      destruct (pfn_ranges l2) as [| [s e] rest]; [done |].
      destruct IH as (d & t & -> & Hd & Ht & Heq). exists (r :: d), t. rewrite <- app_assoc in Heq. done.
Qed.

Lemma pfn_ranges_spec mb (n : nat) : forall l1 l2 ps pe, repr (memory mb) (l1 ++ l2) -> max (memory mb) < 2 ^ 32 - 1 ->
  (length l2 < n)%nat ->
  pfn_ranges_from phys_offset mb (Z.of_nat (length l1)) ps pe n = Ret (pfn_ranges l2).
Proof.
  induction n as [| n IH]; intros l1 l2 ps pe Hrep Hmax Hn; [lia |]. cbn [pfn_ranges_from]. unfold next_mem_pfn_range.
  pose proof (next_pfn_spec (memory mb) l2 l1 ps pe (Z.to_nat (cnt (memory mb))) Hrep Hmax) as H.
  assert (Hlen : (length l2 <= Z.to_nat (cnt (memory mb)))%nat) by (rewrite (repr_cnt _ _ Hrep), length_app; lia).
  specialize (H Hlen). destruct (pfn_ranges l2) as [| [s e] rest]; [destruct H as (s & e & ->); done |].
  destruct H as (d & t & -> & Hd & <- & ->). pose proof (repr_max _ _ Hrep) as Hle. rewrite !length_app in Hle.
  rewrite app_assoc in Hrep.
  destruct (Z.eqb_spec (Z.of_nat (length (l1 ++ d))) UINT32_MAX) as [Heq | _];
    [unfold UINT32_MAX in Heq; rewrite length_app in Heq; lia |].
  rewrite (IH _ t); [done | done | done |]. rewrite length_app in Hn. destruct d; [done | simpl in Hn; lia].
Qed.

(** The iteration ends, and yields for every region the frames of its whole
    pages, regions without one left out. *)
Theorem for_each_mem_pfn_range_correct mb l : repr (memory mb) l -> max (memory mb) < 2 ^ 32 - 1 ->
  for_each_mem_pfn_range phys_offset mb = Ret (pfn_ranges l).
Proof.
  intros Hrep Hmax. apply (pfn_ranges_spec mb _ [] l 0 0); [done | done |]. rewrite (repr_cnt _ _ Hrep). lia.
Qed.

(** ** Properties *)

(** C18: at the end of boot the free pages are exactly the whole pages inside
    the memory that is not reserved, in blocks that satisfy the allocator's
    invariant, and the map has them reserved: a page the allocator may hand out
    is memory nobody had reserved.  All it takes is a slot of the reserved array
    for each range. *)
Theorem memblock_free_all_correct mb st (M R : Z -> Prop) :
  denotes (memory mb) M -> denotes (reserved mb) R -> max (memory mb) + max (reserved mb) < MAX_FREE_RANGES ->
  (forall y, M y -> phys_offset <= y < phys_offset + 4096 * N) ->
  map_full N st -> inv none st -> (forall x, ~ is_free st x) ->
  exists rs, for_each_mem_range mb = Ret rs /\ (forall y, in_ranges rs y <-> M y /\ ~ R y) /\
    (0 < cnt (reserved mb) -> cnt (reserved mb) + Z.of_nat (length rs) <= max (reserved mb) ->
     exists mb' st', memblock_free_all phys_offset mb st cpu = Ret (mb', st') /\ map_full N st' /\ inv none st' /\
        (forall x, is_free st' x <-> exists r, r ∈ rs /\ page_in r.1 r.2 x) /\
        (forall x y, is_free st' x -> frame x <= y < frame x + 4096 -> M y /\ ~ R y) /\
        memory mb' = memory mb /\ denotes (reserved mb') (fun y => R y \/ exists r, r ∈ rs /\ whole r.1 r.2 y)).
Proof.
  intros HM HR Hmax Hram Hm Hi Hnone. unfold MAX_FREE_RANGES in *.
  assert (Hmm : 0 <= max (memory mb)) by (destruct HM as (l & Hrep & _); pose proof (repr_max _ _ Hrep); lia).
  assert (Hmr : 0 <= max (reserved mb)) by (destruct HR as (l & Hrep & _); pose proof (repr_max _ _ Hrep); lia).
  destruct (for_each_spec mb M R HM HR) as (rs & Hrs & Hok & Hin); [lia | lia |]. exists rs. split_and!; try done.
  intros Hc0 Hcnt. unfold memblock_free_all. rewrite Hrs. unfold MAX_FREE_RANGES.
  assert (Hlen : Z.of_nat (length rs) <= 128).
  { apply ranges_count in Hrs. destruct HM as (l & Hrep & _). destruct HR as (l' & Hrep' & _).
    pose proof (repr_cnt _ _ Hrep). pose proof (repr_max _ _ Hrep). pose proof (repr_cnt _ _ Hrep').
    pose proof (repr_max _ _ Hrep'). lia. }
  destruct (Z.leb_spec (Z.of_nat (length rs)) 128); [| lia].
  assert (Hmem : forall r y, r ∈ rs -> r.1 <= y < r.2 -> M y /\ ~ R y).
  { intros r y Hr Hy. apply Hin. apply list.Exists_exists. eauto. }
  assert (Hpos : forall lo l, ranges_ok lo l -> forall r, r ∈ l -> r.1 < r.2).
  { intros lo l. revert lo. induction l as [| r0 l IH]; intros lo Hl r Hr; [by apply elem_of_nil in Hr |].
    destruct Hl as [H1 H2]. apply elem_of_cons in Hr as [-> | Hr]; [lia | by eapply IH]. }
  destruct (free_ranges_spec rs 0 mb R st) as (mb' & st' & -> & Hm' & Hi' & M' & R' & Hf'); try done; try lia.
  { intros r y Hr Hy. by apply (Hmem r y). }
  { intros r Hr. specialize (Hpos _ _ Hok r Hr).
    destruct (Hmem r r.1 Hr ltac:(lia)) as [H1%Hram _]. destruct (Hmem r (r.2 - 1) Hr ltac:(lia)) as [H2%Hram _]. lia. }
  exists mb', st'. assert (Hf : forall x, is_free st' x <-> exists r, r ∈ rs /\ page_in r.1 r.2 x).
  { intros x. rewrite Hf'. split; [intros [Hx | ?]; [by destruct (Hnone x) | done] | by right]. }
  split_and!; try done. intros x y Hx Hy. apply Hf in Hx as (r & Hr & Hp). apply (Hmem r); [done |].
  unfold page_in in Hp. lia.
Qed.

End Boot.

(** A boot with 16 MiB at 0x80000000, the first 2 MiB of it reserved. *)
Definition boot_mb : memblock :=
  mk_memblock (mk_set (mk_region 0x80000000 0x1000000 :: replicate 31 (mk_region 0 0)) 32 1)
    (mk_set (mk_region 0x80000000 0x200000 :: replicate 31 (mk_region 0 0)) 32 1).

Lemma one_region_denotes b s : 0 <= b -> 0 < s -> b + s < 2 ^ 64 ->
  denotes (mk_set (mk_region b s :: replicate 31 (mk_region 0 0)) 32 1) (in_rng b s).
Proof.
  intros Hb Hs He. exists [mk_region b s]. split_and!.
  - exists (replicate 31 (mk_region 0 0)). split_and!; done.
  - cbn [wfs]. unfold rend. cbn [base size]. lia.
  - intros x. rewrite covers_cons. pose proof (covers_nil x). unfold rend, in_rng. cbn [base size]. tauto.
Qed.

Lemma memblock_free_all_witness :
  exists mb' st', memblock_free_all 0x80000000 boot_mb (boot_state 4096) 0 = Ret (mb', st') /\
    map_full 4096 st' /\ inv none st' /\ forall x, is_free st' x <-> 512 <= x < 4096.
Proof.
  destruct (memblock_free_all_correct 4096 0x80000000 0 ltac:(split; [lia | reflexivity]) ltac:(lia) boot_mb (boot_state 4096)
    (in_rng 0x80000000 0x1000000) (in_rng 0x80000000 0x200000)) as (rs & Hrs & _ & H).
  - apply one_region_denotes; lia.
  - apply one_region_denotes; lia.
  - reflexivity.
  - intros y. unfold in_rng. lia.
  - by apply boot_full.
  - apply boot_inv.
  - apply boot_not_free.
  - vm_compute in Hrs. injection Hrs as <-.
    destruct H as (mb' & st' & H1 & H2 & H3 & H4 & _); [reflexivity | discriminate |].
    exists mb', st'. split_and!; [exact H1 | exact H2 | exact H3 |]. intros x. rewrite H4. unfold page_in, frame. split.
    + intros (r & Hr & Hp). apply list_elem_of_singleton in Hr. subst r. cbn [fst snd] in Hp. lia.
    + intros Hx. eexists. split; [by apply list_elem_of_singleton |]. cbn [fst snd]. lia.
Defined.
