(* ===== verification/Slab.v ===== *)
(** * Object caches and kmalloc: mm/slab.c and mm/kmalloc.c

    A cache carves blocks of pages into objects of one size.  The free objects
    of a block are linked through their first word, so the free list lives in
    the memory that is handed out: [words] is the kernel's memory, one 64-bit
    word per 8-byte address.  Blocks come from an allocator that the
    [PageBlocks] class describes, with [struct page] as [Buddy.page]; the buddy
    allocator is an instance.  A cache is named by its address; the fields the
    union of [struct page] gives to slabs are [slab_page].  The locks make each
    operation one step. *)

From S2P Require Import Prelude Buddy.

Definition ENOMEM : Z := 12.
Definition EINVAL : Z := 22.
Definition PAGE_OFFSET : Z := 0xffffffc000000000.

(** ** The blocks of pages underneath *)

(** What slabs rely on: a block that was handed out belongs to its holder, who
    may write its descriptors (without making a page look free) until it gives
    the block back. *)
Class PageBlocks (A : Type) := {
  pb_inv : A -> Prop;
  pb_desc : A -> Z -> option page;
  pb_set : A -> Z -> page -> A;
  pb_held : A -> Z -> Z -> Prop;
  pb_free : A -> Z -> Prop;
  pb_alloc : A -> Z -> res (A * option Z);
  pb_release : A -> Z -> Z -> res A;
  pb_held_ok a p o : pb_inv a -> pb_held a p o ->
    0 <= o <= PAGE_ORDER_MAX /\ 0 <= p /\ p mod 2 ^ o = 0 /\ p + 2 ^ o <= 2 ^ 25 /\
    forall x, blk p o x -> ~ pb_free a x /\ exists d, pb_desc a x = Some d /\ ~ looks_free d;
  pb_disjoint a p o q o' x : pb_inv a -> pb_held a p o -> pb_held a q o' ->
    blk p o x -> blk q o' x -> p = q /\ o = o';
  pb_set_ok a p o x d : pb_inv a -> pb_held a p o -> blk p o x -> ~ looks_free d ->
    pb_inv (pb_set a x d) /\ (forall q o', pb_held (pb_set a x d) q o' <-> pb_held a q o') /\
    (forall y, pb_free (pb_set a x d) y <-> pb_free a y) /\
    (forall y, pb_desc (pb_set a x d) y = if decide (x = y) then Some d else pb_desc a y);
  pb_alloc_ok a o : pb_inv a -> 0 <= o <= PAGE_ORDER_MAX ->
    exists a' r, pb_alloc a o = Ret (a', r) /\ pb_inv a' /\
      (forall q o', pb_held a q o' -> forall x, blk q o' x -> pb_desc a' x = pb_desc a x) /\
      match r with
      | Some p => (forall q o', pb_held a' q o' <-> pb_held a q o' \/ (q = p /\ o' = o)) /\ ~ pb_held a p o /\
          exists d, pb_desc a' p = Some d /\ flags d = PAGE_FLAGS_NEW_PAGE
      | None => forall q o', pb_held a' q o' <-> pb_held a q o'
      end;
  pb_release_ok a p o d : pb_inv a -> pb_held a p o -> pb_desc a p = Some d -> flags d = PAGE_FLAGS_NEW_PAGE ->
    exists a', pb_release a p o = Ret a' /\ pb_inv a' /\
      (forall q o', pb_held a' q o' <-> pb_held a q o' /\ ~ (q = p /\ o' = o)) /\
      (forall x, pb_free a' x <-> pb_free a x \/ blk p o x) /\
      (forall q o', pb_held a' q o' -> forall x, blk q o' x -> pb_desc a' x = pb_desc a x)
}.

(** ** Data *)

Record slab_page : Set := mk_spage {
  slab_free_objs : Z;
  slab_cache : Z;
  slab_free_count : Z;
  slab_objs_count : Z
}.

Record slab_allocator : Set := mk_cache {
  size : Z;
  align : Z;
  page_order : Z;
  slab_list : list Z
}.

Section Slab.

Context {A : Type} `{PB : PageBlocks A}.

(** RAM begins at [phys_offset].  [link_bits] is the half of [slab_list.next]
    that the union lays over [buddy_page_order]. *)
Context (phys_offset link_bits : Z).

Record slab_state : Type := mk_slab {
  pool : A;
  spage : Z -> slab_page;
  words : Z -> Z;
  caches : Z -> slab_allocator
}.

Definition with_pool (s : slab_state) (a : A) : slab_state := mk_slab a (spage s) (words s) (caches s).
Definition set_spage (s : slab_state) (pg : Z) (sp : slab_page) : slab_state :=
  mk_slab (pool s) (<[pg := sp]> (spage s)) (words s) (caches s).
Definition store (s : slab_state) (addr v : Z) : slab_state :=
  mk_slab (pool s) (spage s) (<[addr := v]> (words s)) (caches s).
Definition set_cache (s : slab_state) (c : Z) (al : slab_allocator) : slab_state :=
  mk_slab (pool s) (spage s) (words s) (<[c := al]> (caches s)).

Definition get_desc (s : slab_state) (pg : Z) : res page :=
  match pb_desc (pool s) pg with Some d => Ret d | None => Halt Fault end.
Definition set_flags (s : slab_state) (pg f : Z) : res slab_state :=
  let! d := get_desc s pg in
  Ret (with_pool s (pb_set (pool s) pg (mk_page f (refcnt d) (buddy_page_order d)))).
Definition set_order (s : slab_state) (pg o : Z) : res slab_state :=
  let! d := get_desc s pg in
  Ret (with_pool s (pb_set (pool s) pg (mk_page (flags d) (refcnt d) o))).

Definition phys_to_virt (paddr : Z) : Z := u64 (u64 (paddr - phys_offset) + PAGE_OFFSET).
Definition virt_to_phys (vaddr : Z) : Z := u64 (u64 (vaddr - PAGE_OFFSET) + phys_offset).
Definition page_to_virt (pg : Z) : Z := phys_to_virt (pfn_to_phys phys_offset pg).
Definition virt_to_page (vaddr : Z) : Z := phys_to_pfn phys_offset (virt_to_phys vaddr).

(** ** mm/slab.c *)

(** The loops over the pages of a block, [n] pages left. *)
Fixpoint mark_loop (s : slab_state) (p allocator : Z) (n : nat) : res slab_state :=
  match n with
  | O => Ret s
  | S n' =>
      let! d := get_desc s p in
      let! s := set_flags s p (Z.lor (flags d) PAGE_FLAGS_SLAB) in
      let sp := spage s p in
      let s := set_spage s p (mk_spage (slab_free_objs sp) allocator (slab_free_count sp) (slab_objs_count sp)) in
      mark_loop s (p + 1) allocator n'
  end.

Definition slab_mark_page_range (s : slab_state) (head order allocator : Z) : res slab_state :=
  mark_loop s head allocator (Z.to_nat (u32 (Z.shiftl 1 order))).

(** [flags &= ~bit] over a block. *)
Fixpoint clear_loop (s : slab_state) (p bit : Z) (n : nat) : res slab_state :=
  match n with
  | O => Ret s
  | S n' =>
      let! d := get_desc s p in
      let! s := set_flags s p (Z.land (flags d) (Z.lnot bit)) in
      clear_loop s (p + 1) bit n'
  end.

Definition slab_unmark_page_range (s : slab_state) (head order : Z) : res slab_state :=
  clear_loop s head PAGE_FLAGS_SLAB (Z.to_nat (u32 (Z.shiftl 1 order))).

(** [while (addr + size < end_addr)], then the NULL at the end. *)
Fixpoint link_loop (s : slab_state) (addr size end_addr : Z) (n : nat) : res slab_state :=
  if u64 (addr + size) <? end_addr then
    match n with
    | O => Halt Fuel
    | S n' =>
        let next := u64 (addr + size) in
        link_loop (store s addr next) next size end_addr n'
    end
  else Ret (store s addr 0).

Definition slab_add_page (s : slab_state) (c : Z) : res (slab_state * Z) :=
  let al := caches s c in
  let! (a, r) := pb_alloc (pool s) (page_order al) in
  let s := with_pool s a in
  match r with
  | None => Ret (s, - ENOMEM)
  | Some pg =>
      let! s := slab_mark_page_range s pg (page_order al) c in
      let addr := page_to_virt pg in
      let end_addr := u64 (addr + Z.shiftl 1 (PAGE_SHIFT + page_order al)) in
      let addr := if is_aligned addr (align al) then addr else round_up addr (align al) in
      let cnt := u64 (end_addr - addr) / size al in
      let s := set_spage s pg (mk_spage addr (slab_cache (spage s pg)) cnt cnt) in
      if cnt =? 0 then
        let! s := slab_unmark_page_range s pg (page_order al) in
        let! a := pb_release (pool s) pg (page_order al) in
        Ret (with_pool s a, - ENOMEM)
      else
        let! s := link_loop s addr (size al) end_addr (Z.to_nat cnt) in
        let! s := set_order s pg link_bits in
        Ret (set_cache s c (mk_cache (size al) (align al) (page_order al) (pg :: slab_list al)), 0)
  end.

Definition slab_init (s : slab_state) (c sz al : Z) : res (slab_state * Z) :=
  if (sz =? 0) || (al =? 0) then Ret (s, - EINVAL)
  else
    let al := if al <? 8 then 8 else al in
    let sz := if sz <? 8 then 8 else sz in
    let al := if is_power_of_two al then al else round_up_to_pow_of_two al in
    let sz := if is_aligned sz al then sz else round_up sz al in
    let s := set_cache s c (mk_cache sz al (Buddy.page_order sz) []) in
    slab_add_page s c.

(** [while (!list_empty(list))], [n] blocks at most. *)
Fixpoint deinit_loop (s : slab_state) (c : Z) (n : nat) : res slab_state :=
  let al := caches s c in
  match slab_list al with
  | [] => Ret s
  | pg :: rest =>
      match n with
      | O => Halt Fuel
      | S n' =>
          let s := set_cache s c (mk_cache (size al) (align al) (page_order al) rest) in
          let! s := set_order s pg 0 in
          assert! slab_free_count (spage s pg) =? slab_objs_count (spage s pg) in
          let! s := slab_unmark_page_range s pg (page_order al) in
          let! a := pb_release (pool s) pg (page_order al) in
          deinit_loop (with_pool s a) c n'
      end
  end.

Definition slab_deinit (s : slab_state) (c : Z) : res slab_state :=
  deinit_loop s c (length (slab_list (caches s c))).

(** [list_for_each_entry] with its test. *)
Fixpoint first_with_free (s : slab_state) (l : list Z) : option Z :=
  match l with
  | [] => None
  | curr :: l' => if 0 <? slab_free_count (spage s curr) then Some curr else first_with_free s l'
  end.

Definition pop_object (s : slab_state) (curr : Z) : slab_state * Z :=
  let sp := spage s curr in
  let obj := slab_free_objs sp in
  (set_spage s curr (mk_spage (words s obj) (slab_cache sp) (u64 (slab_free_count sp - 1)) (slab_objs_count sp)), obj).

(** From [retry] on. *)
Fixpoint alloc_retry (s : slab_state) (c attempt : Z) (fuel : nat) : res (slab_state * option Z) :=
  if 1 <? attempt then Ret (s, None)
  else
    match first_with_free s (slab_list (caches s c)) with
    | Some curr => let (s, obj) := pop_object s curr in Ret (s, Some obj)
    | None =>
        match fuel with
        | O => Halt Fuel
        | S fuel' =>
            if attempt =? 0 then
              let! (s, err) := slab_add_page s c in
              if err <? 0 then Ret (s, None) else alloc_retry s c (attempt + 1) fuel'
            else alloc_retry s c (attempt + 1) fuel'
        end
    end.

Definition slab_alloc (s : slab_state) (c : Z) : res (slab_state * option Z) := alloc_retry s c 0 2.

(** [memset(addr, 0, bytes)]: whole words, then the low bytes of the last. *)
Fixpoint zero_words (s : slab_state) (addr : Z) (n : nat) : slab_state :=
  match n with O => s | S n' => zero_words (store s addr 0) (addr + 8) n' end.

Definition memset_zero (s : slab_state) (addr bytes : Z) : slab_state :=
  let s := zero_words s addr (Z.to_nat (bytes / 8)) in
  let last := addr + bytes / 8 * 8 in
  let r := 8 * (bytes mod 8) in
  if r =? 0 then s else store s last (words s last / 2 ^ r * 2 ^ r).

Definition slab_alloc_zero (s : slab_state) (c : Z) : res (slab_state * option Z) :=
  let! (s, r) := slab_alloc s c in
  match r with
  | None => Ret (s, None)
  | Some obj => Ret (memset_zero s obj (size (caches s c)), Some obj)
  end.

Fixpoint free_scan (s : slab_state) (l : list Z) (obj : Z) : res slab_state :=
  match l with
  | [] => Halt Panic
  | curr :: l' =>
      let sp := spage s curr in
      let start := page_to_virt curr in
      let end_ := u64 (start + Z.shiftl PAGE_SIZE (page_order (caches s (slab_cache sp)))) in
      if (start <=? obj) && (obj <? end_) then
        let s := store s obj (slab_free_objs sp) in
        Ret (set_spage s curr (mk_spage obj (slab_cache sp) (u64 (slab_free_count sp + 1)) (slab_objs_count sp)))
      else free_scan s l' obj
  end.

Definition slab_free (s : slab_state) (c obj : Z) : res slab_state :=
  if obj =? 0 then Ret s
  else
    assert! is_aligned obj (align (caches s c)) in
    free_scan s (slab_list (caches s c)) obj.

(** ** mm/kmalloc.c *)

Definition NR_KMALLOC_ALLOCATORS : Z := 10.

(** The address of [kmalloc_allocators[i]] is [i]. *)
Definition kmalloc_block_head (pg order : Z) : Z := Z.land pg (not64 (u64 (Z.shiftl 1 order) - 1)).

Fixpoint kmark_loop (s : slab_state) (p order : Z) (n : nat) : res slab_state :=
  match n with
  | O => Ret s
  | S n' =>
      let! d := get_desc s p in
      let! s := set_flags s p (Z.lor (flags d) PAGE_FLAGS_KMALLOC) in
      let! s := set_order s p order in
      kmark_loop s (p + 1) order n'
  end.

Definition kmalloc_mark_block (s : slab_state) (head order : Z) : res slab_state :=
  kmark_loop s head order (Z.to_nat (u32 (Z.shiftl 1 order))).

Definition kmalloc_unmark_block (s : slab_state) (head order : Z) : res slab_state :=
  clear_loop s head PAGE_FLAGS_KMALLOC (Z.to_nat (u32 (Z.shiftl 1 order))).

Definition kmalloc_allocator_index (size : Z) : Z :=
  if size <=? 8 then 0
  else if size <=? 16 then 1
  else if size <=? 32 then 2
  else if size <=? 64 then 3
  else if size <=? 128 then 4
  else if size <=? 256 then 5
  else if size <=? 512 then 6
  else if size <=? 1024 then 7
  else if size <=? 2048 then 8
  else if size <=? 4096 then 9
  else -1.

(** [for (int i = 0; ...)] over the sizes still to come; the results of
    [slab_init] are ignored.  [alignof(max_align_t)] is 16. *)
Fixpoint kinit_loop (s : slab_state) (i : Z) (sz : list Z) : res slab_state :=
  match sz with
  | [] => Ret s
  | z :: sz' => let! (s, _) := slab_init s i z 16 in kinit_loop s (i + 1) sz'
  end.

Definition kmalloc_init (s : slab_state) : res slab_state :=
  kinit_loop s 0 [8; 16; 32; 64; 128; 256; 512; 1024; 2048; 4096].

Definition kmalloc (s : slab_state) (size : Z) : res (slab_state * option Z) :=
  if size =? 0 then Ret (s, None)
  else
    let index := kmalloc_allocator_index size in
    if 0 <=? index then slab_alloc s index
    else
      let order := Buddy.page_order size in
      let! (a, r) := pb_alloc (pool s) order in
      let s := with_pool s a in
      match r with
      | None => Ret (s, None)
      | Some pg =>
          let! s := (if 0 <? order then kmalloc_mark_block s pg order else Ret s) in
          Ret (s, Some (page_to_virt pg))
      end.

Definition kcalloc (s : slab_state) (nmemb size : Z) : res (slab_state * option Z) :=
  if negb (nmemb =? 0) && (UINT64_MAX / nmemb <? size) then Ret (s, None)
  else
    let bytes := u64 (nmemb * size) in
    let! (s, r) := kmalloc s bytes in
    match r with
    | None => Ret (s, None)
    | Some ptr => Ret (memset_zero s ptr bytes, Some ptr)
    end.

Definition kzalloc (s : slab_state) (size : Z) : res (slab_state * option Z) := kcalloc s 1 size.

Definition kfree (s : slab_state) (ptr : Z) : res slab_state :=
  if ptr =? 0 then Ret s
  else
    let pg := virt_to_page ptr in
    let! d := get_desc s pg in
    if has (flags d) PAGE_FLAGS_SLAB then slab_free s (slab_cache (spage s pg)) ptr
    else if has (flags d) PAGE_FLAGS_KMALLOC then
      let head := kmalloc_block_head pg (buddy_page_order d) in
      let! h := get_desc s head in
      assert! has (flags h) PAGE_FLAGS_HEAD in
      let! s := kmalloc_unmark_block s head (buddy_page_order h) in
      let! h := get_desc s head in
      let! a := pb_release (pool s) head (buddy_page_order h) in
      Ret (with_pool s a)
    else
      let! a := pb_release (pool s) pg (buddy_page_order d) in
      Ret (with_pool s a).

(** ** Addresses *)

Hypothesis ram_base : 0 <= phys_offset <= 2 ^ 56.

Definition va (pg : Z) : Z := PAGE_OFFSET + 4096 * pg.

Lemma page_to_virt_va pg : 0 <= pg < 2 ^ 25 -> page_to_virt pg = va pg.
Proof.
  intros Hpg. unfold page_to_virt, phys_to_virt, pfn_to_phys, va, PAGE_OFFSET.
  rewrite Z.shiftl_mul_pow2 by (unfold PAGE_SHIFT; lia). change (2 ^ PAGE_SHIFT) with 4096.
  rewrite (u64_small (pg * 4096)), (u64_small (pg * 4096 + _)) by lia.
  rewrite (u64_small (_ - _)) by lia. rewrite u64_small; lia.
Qed.

Lemma virt_to_page_va pg r : 0 <= pg < 2 ^ 25 -> 0 <= r < 4096 -> virt_to_page (va pg + r) = pg.
Proof.
  intros Hpg Hr. unfold virt_to_page, virt_to_phys, phys_to_pfn, va, PAGE_OFFSET.
  rewrite Z.shiftr_div_pow2 by (unfold PAGE_SHIFT; lia). change (2 ^ PAGE_SHIFT) with 4096.
  rewrite (u64_small (_ - 18446743798831644672)) by lia. rewrite (u64_small (_ + phys_offset)) by lia.
  rewrite u64_small by lia. zdm.
Qed.

(** ** Descriptors of a held block *)

Lemma has_testbit f k : 0 <= k -> has f (2 ^ k) = Z.testbit f k.
Proof.
  intros Hk. unfold has. destruct (Z.testbit f k) eqn:E.
  - apply negb_true_iff, Z.eqb_neq. intros H0. apply (f_equal (fun z => Z.testbit z k)) in H0.
    rewrite Z.land_spec, E, Z.pow2_bits_true, Z.bits_0 in H0 by lia. done.
  - apply negb_false_iff, Z.eqb_eq. apply Z.bits_inj'. intros i Hi. rewrite Z.land_spec, Z.bits_0.
    destruct (decide (i = k)) as [-> |]; [by rewrite E |].
    rewrite Z.pow2_bits_false by lia. apply andb_false_r.
Qed.

Lemma has_lor f k j : 0 <= k -> 0 <= j -> has (Z.lor f (2 ^ k)) (2 ^ j) = (k =? j) || has f (2 ^ j).
Proof.
  intros. rewrite !has_testbit, Z.lor_spec, Z.pow2_bits_eqb by lia. apply orb_comm.
Qed.

Lemma has_clear f k j : 0 <= k -> 0 <= j -> has (Z.land f (Z.lnot (2 ^ k))) (2 ^ j) = negb (k =? j) && has f (2 ^ j).
Proof.
  intros. rewrite !has_testbit, Z.land_spec, Z.lnot_spec, Z.pow2_bits_eqb by lia. apply andb_comm.
Qed.

Lemma lor_clear f k : 0 <= k -> has f (2 ^ k) = false -> Z.land (Z.lor f (2 ^ k)) (Z.lnot (2 ^ k)) = f.
Proof.
  intros Hk Hf. rewrite has_testbit in Hf by lia. apply Z.bits_inj'. intros i Hi.
  rewrite Z.land_spec, Z.lor_spec, Z.lnot_spec, Z.pow2_bits_eqb by lia.
  destruct (Z.eqb_spec k i) as [<- |]; [by rewrite Hf |]. simpl. by rewrite orb_false_r, andb_true_r.
Qed.

(** The descriptors of [lo, hi) have been changed by [f]. *)
Record upd (a a' : A) (lo hi : Z) (f : page -> page) : Prop := {
  up_inv : pb_inv a';
  up_held : forall q o, pb_held a' q o <-> pb_held a q o;
  up_free : forall x, pb_free a' x <-> pb_free a x;
  up_desc : forall y, pb_desc a' y = (if decide (lo <= y < hi) then f <$> pb_desc a y else pb_desc a y)
}.

Lemma upd_refl a lo f : pb_inv a -> upd a a lo lo f.
Proof. intros. split; try done. intros y. by rewrite decide_False by lia. Qed.

Lemma upd_trans a a1 a2 lo mid hi f : lo <= mid <= hi -> upd a a1 lo mid f -> upd a1 a2 mid hi f -> upd a a2 lo hi f.
Proof.
  intros Hm [I1 H1 F1 D1] [I2 H2 F2 D2]. split; try done.
  - intros. by rewrite H2, H1.
  - intros. by rewrite F2, F1.
  - intros y. rewrite D2, D1.
    destruct (decide (mid <= y < hi)), (decide (lo <= y < mid)), (decide (lo <= y < hi)); try done; lia.
Qed.

(** One descriptor of a block its holder owns. *)
Lemma upd_one a p o x d f : pb_inv a -> pb_held a p o -> blk p o x -> pb_desc a x = Some d -> ~ looks_free (f d) ->
  upd a (pb_set a x (f d)) x (x + 1) f.
Proof.
  intros Hi Hh Hx Hd Hl. destruct (pb_set_ok a p o x (f d) Hi Hh Hx Hl) as (H1 & H2 & H3 & H4).
  split; try done. intros y. rewrite H4. destruct (decide (x = y)) as [-> |].
  - rewrite decide_True by lia. by rewrite Hd.
  - by rewrite decide_False by lia.
Qed.

Definition add_flag (bit : Z) (d : page) : page := mk_page (Z.lor (flags d) bit) (refcnt d) (buddy_page_order d).
Definition clear_flag (bit : Z) (d : page) : page := mk_page (Z.land (flags d) (Z.lnot bit)) (refcnt d) (buddy_page_order d).
Definition kmark (order : Z) (d : page) : page := mk_page (Z.lor (flags d) PAGE_FLAGS_KMALLOC) (refcnt d) order.

Lemma looks_free_add k d : k = 2 \/ k = 4 -> ~ looks_free d -> ~ looks_free (add_flag (2 ^ k) d).
Proof.
  intros Hk Hd [H1 H2]. apply Hd. unfold add_flag in *. cbn [flags] in *.
  change PAGE_FLAGS_FREE with (2 ^ 3) in *. change PAGE_FLAGS_PCP with (2 ^ 5) in *.
  rewrite has_lor in H1, H2 by lia. split.
  - apply orb_true_iff in H1 as [H1%Z.eqb_eq | H1]; [lia | done].
  - by apply orb_false_iff in H2 as [_ H2].
Qed.

Lemma looks_free_clear k d : k = 2 \/ k = 4 -> ~ looks_free d -> ~ looks_free (clear_flag (2 ^ k) d).
Proof.
  intros Hk Hd [H1 H2]. apply Hd. unfold clear_flag in *. cbn [flags] in *.
  change PAGE_FLAGS_FREE with (2 ^ 3) in *. change PAGE_FLAGS_PCP with (2 ^ 5) in *.
  rewrite has_clear in H1, H2 by lia. split.
  - by apply andb_true_iff in H1 as [_ H1].
  - apply andb_false_iff in H2 as [H2%negb_false_iff%Z.eqb_eq | H2]; [lia | done].
Qed.

Lemma looks_free_order d o : ~ looks_free d -> ~ looks_free (mk_page (flags d) (refcnt d) o).
Proof. done. Qed.

Lemma shiftl_order o : 0 <= o <= 12 -> Z.to_nat (u32 (Z.shiftl 1 o)) = Z.to_nat (2 ^ o).
Proof.
  intros Ho. rewrite Z.shiftl_1_l, u32_small; [done |]. assert (2 ^ o <= 2 ^ 12) by (apply Z.pow_le_mono_r; lia). lia.
Qed.

Lemma upd_comp a a1 a2 lo hi f g : upd a a1 lo hi f -> upd a1 a2 lo hi g -> upd a a2 lo hi (g ∘ f).
Proof.
  intros [I1 H1 F1 D1] [I2 H2 F2 D2]. split; try done.
  - intros. by rewrite H2, H1.
  - intros. by rewrite F2, F1.
  - intros y. rewrite D2, D1. case_decide; [| done]. by destruct (pb_desc a y).
Qed.

Lemma held_desc a p o x : pb_inv a -> pb_held a p o -> blk p o x -> exists d, pb_desc a x = Some d /\ ~ looks_free d.
Proof. intros Hi Hh Hx. destruct (pb_held_ok a p o Hi Hh) as (_ & _ & _ & _ & H). by destruct (H x Hx). Qed.

Lemma set_flags_upd s p o x (f : page -> page) :
  pb_inv (pool s) -> pb_held (pool s) p o -> blk p o x -> (forall d, refcnt (f d) = refcnt d /\ buddy_page_order (f d) = buddy_page_order d) ->
  (forall d, ~ looks_free d -> ~ looks_free (f d)) ->
  exists d a', pb_desc (pool s) x = Some d /\ set_flags s x (flags (f d)) = Ret (with_pool s a') /\ upd (pool s) a' x (x + 1) f.
Proof.
  intros Hi Hh Hx Hf Hl. destruct (held_desc _ _ _ _ Hi Hh Hx) as (d & Hd & Hnl).
  exists d, (pb_set (pool s) x (f d)). split; [done |]. split.
  - unfold set_flags, get_desc. rewrite Hd. destruct (Hf d) as [<- <-]. by destruct (f d).
  - apply (upd_one _ p o); auto.
Qed.

Lemma set_order_upd s p o x v : pb_inv (pool s) -> pb_held (pool s) p o -> blk p o x ->
  exists a', set_order s x v = Ret (with_pool s a') /\
    upd (pool s) a' x (x + 1) (fun d => mk_page (flags d) (refcnt d) v).
Proof.
  intros Hi Hh Hx. destruct (held_desc _ _ _ _ Hi Hh Hx) as (d & Hd & Hnl). unfold set_order, get_desc. rewrite Hd.
  eexists. split; [reflexivity |]. exact (upd_one _ p o x d (fun d => mk_page (flags d) (refcnt d) v) Hi Hh Hx Hd Hnl).
Qed.

Definition with_cache (c : Z) (sp : slab_page) : slab_page :=
  mk_spage (slab_free_objs sp) c (slab_free_count sp) (slab_objs_count sp).

Lemma mark_loop_spec p o c (n : nat) : forall s q, pb_inv (pool s) -> pb_held (pool s) p o ->
  p <= q -> q + Z.of_nat n <= p + 2 ^ o ->
  exists s', mark_loop s q c n = Ret s' /\ upd (pool s) (pool s') q (q + Z.of_nat n) (add_flag PAGE_FLAGS_SLAB) /\
    words s' = words s /\ caches s' = caches s /\
    forall x, spage s' x = if decide (q <= x < q + Z.of_nat n) then with_cache c (spage s x) else spage s x.
Proof.
  induction n as [| n IH]; intros s q Hi Hh Hq Hn; cbn [mark_loop].
  { exists s. change (Z.of_nat 0) with 0. rewrite Z.add_0_r. split_and!; try done; [by apply upd_refl |].
    intros x. by rewrite decide_False by lia. }
  destruct (set_flags_upd s p o q (add_flag PAGE_FLAGS_SLAB)) as (d & a1 & Hd & Hset & Hu); try done.
  { unfold blk. lia. }
  { intros. apply (looks_free_add 2); [by left | done]. }
  unfold get_desc at 1. rewrite Hd. change (Z.lor (flags d) PAGE_FLAGS_SLAB) with (flags (add_flag PAGE_FLAGS_SLAB d)).
  rewrite Hset. set (s1 := set_spage _ q _).
  destruct (IH s1 (q + 1)) as (s' & Heq & Hu' & Hw & Hc & Hsp).
  { apply Hu. } { by apply Hu. } { lia. } { lia. }
  exists s'. split; [exact Heq |]. split; [| split_and!; [done | done |]].
  - apply (upd_trans _ a1 _ _ (q + 1)); [lia | done |]. replace (q + Z.of_nat (S n)) with (q + 1 + Z.of_nat n) by lia. done.
  - intros x. rewrite Hsp. unfold s1. cbn [spage set_spage with_pool]. rewrite fn_insert_dec.
    destruct (decide (q = x)) as [<- |].
    + rewrite decide_False, decide_True by lia. done.
    + destruct (decide (q + 1 <= x < q + 1 + Z.of_nat n)), (decide (q <= x < q + Z.of_nat (S n))); try done; lia.
Qed.

Lemma clear_loop_spec p o k (n : nat) : k = 2 \/ k = 4 -> forall s q, pb_inv (pool s) -> pb_held (pool s) p o ->
  p <= q -> q + Z.of_nat n <= p + 2 ^ o ->
  exists a', clear_loop s q (2 ^ k) n = Ret (with_pool s a') /\
    upd (pool s) a' q (q + Z.of_nat n) (clear_flag (2 ^ k)).
Proof.
  intros Hk. induction n as [| n IH]; intros s q Hi Hh Hq Hn; cbn [clear_loop].
  { exists (pool s). change (Z.of_nat 0) with 0. rewrite Z.add_0_r. split; [by destruct s | by apply upd_refl]. }
  destruct (set_flags_upd s p o q (clear_flag (2 ^ k))) as (d & a1 & Hd & Hset & Hu); try done.
  { unfold blk. lia. }
  { intros. by apply looks_free_clear. }
  unfold get_desc at 1. rewrite Hd. change (Z.land (flags d) (Z.lnot (2 ^ k))) with (flags (clear_flag (2 ^ k) d)).
  rewrite Hset. destruct (IH (with_pool s a1) (q + 1)) as (a' & -> & Hu').
  { apply Hu. } { by apply Hu. } { lia. } { lia. }
  exists a'. split; [done |]. apply (upd_trans _ a1 _ _ (q + 1)); [lia | done |].
  replace (q + Z.of_nat (S n)) with (q + 1 + Z.of_nat n) by lia. done.
Qed.

Lemma kmark_loop_spec p o v (n : nat) : forall s q, pb_inv (pool s) -> pb_held (pool s) p o ->
  p <= q -> q + Z.of_nat n <= p + 2 ^ o ->
  exists a', kmark_loop s q v n = Ret (with_pool s a') /\ upd (pool s) a' q (q + Z.of_nat n) (kmark v).
Proof.
  induction n as [| n IH]; intros s q Hi Hh Hq Hn; cbn [kmark_loop].
  { exists (pool s). change (Z.of_nat 0) with 0. rewrite Z.add_0_r. split; [by destruct s | by apply upd_refl]. }
  assert (Hb : blk p o q) by (unfold blk; lia).
  destruct (set_flags_upd s p o q (add_flag PAGE_FLAGS_KMALLOC)) as (d & a1 & Hd & Hset & Hu); try done.
  { intros. apply (looks_free_add 4); [by right | done]. }
  unfold get_desc at 1. rewrite Hd. change (Z.lor (flags d) PAGE_FLAGS_KMALLOC) with (flags (add_flag PAGE_FLAGS_KMALLOC d)).
  rewrite Hset. destruct (set_order_upd (with_pool s a1) p o q v) as (a2 & -> & Hu2); [apply Hu | by apply Hu | done |].
  change (with_pool (with_pool s a1) a2) with (with_pool s a2).
  destruct (IH (with_pool s a2) (q + 1)) as (a' & -> & Hu').
  { apply Hu2. } { by apply Hu2, Hu. } { lia. } { lia. }
  exists a'. split; [done |]. apply (upd_trans _ a2 _ _ (q + 1)); [lia | | ].
  - exact (upd_comp _ _ _ _ _ _ _ Hu Hu2).
  - replace (q + Z.of_nat (S n)) with (q + 1 + Z.of_nat n) by lia. done.
Qed.

(** ** Free lists *)

(** The first [n] nodes of the list at [p]. *)
Fixpoint walk (w : Z -> Z) (p : Z) (n : nat) : list Z :=
  match n with O => [] | S n' => p :: walk w (w p) n' end.

Lemma length_walk w p n : length (walk w p n) = n.
Proof. revert p. induction n; intros; simpl; [done |]. by rewrite IHn. Qed.

Lemma walk_ext w w' n : forall p, (forall x, x ∈ walk w p n -> w' x = w x) -> walk w' p n = walk w p n.
Proof.
  induction n as [| n IH]; intros p H; simpl; [done |]. simpl in H. rewrite (H p) by left.
  f_equal. apply IH. intros x Hx. apply H. by right.
Qed.

Lemma walk_linear w a sz (n : nat) : (forall i : nat, (S i < n)%nat -> w (a + Z.of_nat i * sz) = a + Z.of_nat (S i) * sz) ->
  walk w a n = (fun i : nat => a + Z.of_nat i * sz) <$> seq 0 n.
Proof.
  revert a. induction n as [| n IH]; intros a H; [done |]. cbn [walk seq].
  rewrite fmap_cons, <- fmap_S_seq. f_equal; [lia |]. rewrite <- list_fmap_compose.
  destruct n as [| n]; [done |]. assert (Ha : w a = a + sz).
  { specialize (H 0%nat ltac:(lia)). change (Z.of_nat 0) with 0 in H. replace (a + 0 * sz) with a in H by lia. lia. }
  rewrite Ha, IH.
  - apply list_fmap_ext. intros i k _. simpl. lia.
  - intros i Hi. specialize (H (S i) ltac:(lia)).
    replace (a + sz + Z.of_nat i * sz) with (a + Z.of_nat (S i) * sz) by lia. rewrite H. lia.
Qed.

Lemma link_loop_spec sz e (n : nat) : forall s a, 0 < sz -> 0 <= a < e -> e + sz <= 2 ^ 64 -> (e - a) / sz <= Z.of_nat n ->
  exists w', link_loop s a sz e n = Ret (mk_slab (pool s) (spage s) w' (caches s)) /\
    (forall i : nat, a + Z.of_nat (S i) * sz < e -> w' (a + Z.of_nat i * sz) = a + Z.of_nat (S i) * sz) /\
    (forall x, x < a \/ e <= x -> w' x = words s x).
Proof.
  induction n as [| n IH]; intros s a Hsz Ha He Hn; cbn [link_loop]; rewrite u64_small by lia;
    (destruct (Z.ltb_spec (a + sz) e) as [Hlt | Hge];
     [| eexists; split; [reflexivity |]; cbn [words]; split;
        [intros i Hi; nia | intros x Hx; rewrite fn_lookup_insert_ne by lia; done]]).
  { exfalso. assert (1 <= (e - a) / sz) by (apply Z.div_le_lower_bound; lia). lia. }
  destruct (IH (store s a (a + sz)) (a + sz)) as (w' & -> & Hl & Hf); try lia.
  { replace (e - (a + sz)) with (e - a + (-1) * sz) by lia. rewrite Z.div_add by lia. lia. }
  exists w'. split; [done |]. split.
  - intros [| i] Hi.
    + change (Z.of_nat 0) with 0. replace (a + 0 * sz) with a by lia. rewrite Hf by lia. cbn [words store].
      rewrite fn_lookup_insert. lia.
    + specialize (Hl i ltac:(lia)). replace (a + Z.of_nat (S i) * sz) with (a + sz + Z.of_nat i * sz) by lia.
      rewrite Hl. lia.
  - intros x Hx. rewrite Hf by lia. cbn [words store]. by rewrite fn_lookup_insert_ne by lia.
Qed.

(** ** Invariant *)

Record cache_wf (al : slab_allocator) : Prop := {
  wf_align : exists k, 3 <= k /\ align al = 2 ^ k;
  wf_mod : size al mod align al = 0;
  wf_size : 0 < size al <= 2 ^ (12 + page_order al);
  wf_order : 0 <= page_order al <= 12
}.

Definition objs_of (al : slab_allocator) : Z := 2 ^ (12 + page_order al) / size al.
Definition is_obj (al : slab_allocator) (pg x : Z) : Prop :=
  exists i, 0 <= i < objs_of al /\ x = va pg + i * size al.

Definition free_list (s : slab_state) (pg : Z) : list Z :=
  walk (words s) (slab_free_objs (spage s pg)) (Z.to_nat (slab_free_count (spage s pg))).

(** The block at [pg] of the cache [c]: held, every page of it marked, and its
    free list one of distinct objects of the block. *)
Record page_ok (s : slab_state) (c pg : Z) : Prop := {
  po_held : pb_held (pool s) pg (page_order (caches s c));
  po_head : exists d, pb_desc (pool s) pg = Some d /\ flags d = Z.lor PAGE_FLAGS_NEW_PAGE PAGE_FLAGS_SLAB;
  po_mark : forall x, blk pg (page_order (caches s c)) x -> slab_cache (spage s x) = c /\
    exists d, pb_desc (pool s) x = Some d /\ has (flags d) PAGE_FLAGS_SLAB = true;
  po_count : slab_objs_count (spage s pg) = objs_of (caches s c) /\ 0 <= slab_free_count (spage s pg);
  po_nodup : NoDup (free_list s pg);
  po_free : forall x, x ∈ free_list s pg -> is_obj (caches s c) pg x
}.

Record cache_ok (s : slab_state) (c : Z) : Prop := {
  co_wf : cache_wf (caches s c);
  co_nodup : NoDup (slab_list (caches s c));
  co_page : forall pg, pg ∈ slab_list (caches s c) -> page_ok s c pg
}.

Definition slab_inv (s : slab_state) (C : Z -> Prop) : Prop :=
  pb_inv (pool s) /\ forall c, C c -> cache_ok s c.

(** The objects handed out. *)
Definition in_use (s : slab_state) (c x : Z) : Prop :=
  exists pg, pg ∈ slab_list (caches s c) /\ is_obj (caches s c) pg x /\ (x ∉ free_list s pg).

(** ** Objects lie apart *)

Lemma wf_objs al : cache_wf al -> 1 <= objs_of al <= 2 ^ 24 /\ objs_of al * size al <= 2 ^ (12 + page_order al).
Proof.
  intros [_ _ Hs Ho]. unfold objs_of.
  assert (H24 : 2 ^ (12 + page_order al) <= 2 ^ 24) by (apply Z.pow_le_mono_r; lia).
  pose proof (Z.mul_div_le (2 ^ (12 + page_order al)) (size al) ltac:(lia)).
  assert (1 <= 2 ^ (12 + page_order al) / size al) by (apply Z.div_le_lower_bound; lia).
  assert (2 ^ (12 + page_order al) / size al <= 2 ^ (12 + page_order al)).
  { apply Z.div_le_upper_bound; [lia |]. nia. }
  lia.
Qed.

Lemma obj_bounds al pg x : cache_wf al -> is_obj al pg x -> va pg <= x /\ x + size al <= va (pg + 2 ^ page_order al).
Proof.
  intros Hwf (i & Hi & ->). destruct (wf_objs _ Hwf) as [_ Hmul]. destruct Hwf as [_ _ Hs Ho].
  unfold va. rewrite Z.pow_add_r in Hmul by lia. change (2 ^ 12) with 4096 in Hmul. nia.
Qed.

Lemma obj_align al pg x : cache_wf al -> 0 <= pg -> pg mod 2 ^ page_order al = 0 -> is_obj al pg x ->
  x mod align al = 0.
Proof.
  intros Hwf H0 Hpg (i & Hi & ->). destruct Hwf as [(k & Hk & Ha) Hm Hs Ho]. rewrite Ha in *.
  assert (Hsz : 2 ^ k <= size al).
  { apply Z.mod_divide in Hm as [q Hq]; [| lia]. assert (0 < 2 ^ k) by lia. assert (1 <= q) by nia. rewrite Hq. nia. }
  assert (Hle : k <= 12 + page_order al).
  { apply (Z.pow_le_mono_r_iff 2); lia. }
  apply Z.mod_divide; [lia |]. apply Z.divide_add_r; [| apply Z.divide_mul_r, Z.mod_divide; [lia | done]].
  unfold va. apply Z.divide_add_r.
  - exists (0xffffffc000000000 / 2 ^ k). unfold PAGE_OFFSET.
    assert (H24 : 0xffffffc000000000 = 0xffffffc000 * (2 ^ (24 - k) * 2 ^ k)).
    { rewrite <- Z.pow_add_r by lia. replace (24 - k + k) with 24 by lia. done. }
    rewrite H24 at 1. rewrite H24 at 1. rewrite Z.mul_assoc, Z.div_mul by lia. lia.
  - apply Z.mod_divide in Hpg as [q ->]; [| lia]. exists (q * 2 ^ (12 + page_order al - k)).
    replace (4096 * (q * 2 ^ page_order al)) with (q * (2 ^ 12 * 2 ^ page_order al)) by lia.
    rewrite <- Z.pow_add_r by lia. rewrite <- Z.mul_assoc, <- Z.pow_add_r by lia. do 2 f_equal. lia.
Qed.

Lemma held_apart a p o q o' : pb_inv a -> pb_held a p o -> pb_held a q o' -> ~ (p = q /\ o = o') ->
  p + 2 ^ o <= q \/ q + 2 ^ o' <= p.
Proof.
  intros Hi H1 H2 Hne. destruct (pb_held_ok a p o Hi H1) as (O1 & _ & _ & _ & _).
  destruct (pb_held_ok a q o' Hi H2) as (O2 & _ & _ & _ & _).
  destruct (Z.le_gt_cases (p + 2 ^ o) q); [by left |]. destruct (Z.le_gt_cases (q + 2 ^ o') p); [by right |].
  exfalso. apply Hne. apply (pb_disjoint a p o q o' (Z.max p q)); try done; unfold blk; lia.
Qed.

Lemma page_cache_unique s c1 c2 pg : page_ok s c1 pg -> page_ok s c2 pg -> cache_wf (caches s c1) -> cache_wf (caches s c2) -> c1 = c2.
Proof.
  intros P1 P2 W1 W2. pose proof (wf_order _ W1). pose proof (wf_order _ W2).
  destruct (po_mark _ _ _ P1 pg) as [<- _]; [apply blk_self; lia |].
  destruct (po_mark _ _ _ P2 pg) as [<- _]; [apply blk_self; lia | done].
Qed.

Lemma pages_apart s c1 c2 pg1 pg2 : pb_inv (pool s) -> page_ok s c1 pg1 -> page_ok s c2 pg2 ->
  cache_wf (caches s c1) -> cache_wf (caches s c2) -> pg1 <> pg2 ->
  pg1 + 2 ^ page_order (caches s c1) <= pg2 \/ pg2 + 2 ^ page_order (caches s c2) <= pg1.
Proof.
  intros Hi P1 P2 W1 W2 Hne. apply (held_apart (pool s)); [done | apply P1 | apply P2 | tauto].
Qed.

Lemma va_le p q : p <= q -> va p <= va q.
Proof. unfold va. lia. Qed.

(** Two objects that are not the same do not overlap. *)
Lemma objs_apart s c1 c2 pg1 pg2 x y : pb_inv (pool s) -> cache_ok s c1 -> cache_ok s c2 ->
  pg1 ∈ slab_list (caches s c1) -> pg2 ∈ slab_list (caches s c2) ->
  is_obj (caches s c1) pg1 x -> is_obj (caches s c2) pg2 y -> ~ (c1 = c2 /\ x = y) ->
  x + size (caches s c1) <= y \/ y + size (caches s c2) <= x.
Proof.
  intros Hi C1 C2 L1 L2 X Y Hne. pose proof (co_wf _ _ C1) as W1. pose proof (co_wf _ _ C2) as W2.
  pose proof (co_page _ _ C1 _ L1) as P1. pose proof (co_page _ _ C2 _ L2) as P2.
  destruct (decide (pg1 = pg2)) as [-> | Hpg].
  - assert (c1 = c2) as -> by (by apply (page_cache_unique s c1 c2 pg2)).
    destruct X as (i & Hi' & ->), Y as (j & Hj & ->). pose proof (wf_size _ W2).
    assert (i <> j) by (intros ->; tauto). nia.
  - pose proof (obj_bounds _ _ _ W1 X). pose proof (obj_bounds _ _ _ W2 Y).
    destruct (pages_apart s c1 c2 pg1 pg2) as [H1%va_le | H1%va_le]; try done; lia.
Qed.

(** ** Growing a cache *)

(** The blocks [P] that are held keep their descriptors and their memory. *)
Record grows (P : Z -> Z -> Prop) (s s' : slab_state) : Prop := {
  gr_inv : pb_inv (pool s');
  gr_held : forall q o, P q o -> pb_held (pool s) q o -> pb_held (pool s') q o;
  gr_desc : forall q o x, P q o -> pb_held (pool s) q o -> blk q o x -> pb_desc (pool s') x = pb_desc (pool s) x;
  gr_spage : forall q o x, P q o -> pb_held (pool s) q o -> blk q o x -> spage s' x = spage s x;
  gr_words : forall q o w, P q o -> pb_held (pool s) q o -> va q <= w < va (q + 2 ^ o) -> words s' w = words s w
}.

Definition every (_ _ : Z) : Prop := True.

Definition same_shape (al al' : slab_allocator) : Prop :=
  size al' = size al /\ align al' = align al /\ page_order al' = page_order al.

Lemma wf_shape al al' : same_shape al al' -> cache_wf al -> cache_wf al'.
Proof. intros (E1 & E2 & E3) [H1 H2 H3 H4]. split; rewrite ?E1, ?E2, ?E3; done. Qed.

Lemma is_obj_shape al al' pg x : same_shape al al' -> is_obj al' pg x <-> is_obj al pg x.
Proof. intros (E1 & E2 & E3). unfold is_obj, objs_of. by rewrite E1, E3. Qed.

Lemma blk_head p o : 0 <= o -> blk p o p.
Proof. apply blk_self. Qed.

Lemma grows_free_list P s s' c pg : grows P s s' -> P pg (page_order (caches s c)) -> cache_wf (caches s c) -> page_ok s c pg ->
  free_list s' pg = free_list s pg.
Proof.
  intros G HP W K. pose proof (wf_order _ W) as Ho. unfold free_list.
  rewrite (gr_spage _ _ _ G pg (page_order (caches s c)) pg) by (done || apply K || apply blk_head; lia).
  apply walk_ext. intros x Hx. apply (gr_words _ _ _ G pg (page_order (caches s c))); [done | apply K |].
  pose proof (po_free _ _ _ K x Hx) as Hobj. pose proof (obj_bounds _ _ _ W Hobj). pose proof (wf_size _ W). lia.
Qed.

Lemma grows_page P s s' c pg : grows P s s' -> P pg (page_order (caches s c)) -> same_shape (caches s c) (caches s' c) ->
  cache_wf (caches s c) -> page_ok s c pg -> page_ok s' c pg.
Proof.
  intros G HP E W K. pose proof (wf_order _ W) as Ho. pose proof (grows_free_list _ _ _ _ _ G HP W K) as Hfl.
  destruct E as (E1 & E2 & E3) eqn:HE. pose proof (po_held _ _ _ K) as Hh.
  assert (Hself : blk pg (page_order (caches s c)) pg) by (apply blk_head; lia).
  split.
  - rewrite E3. by apply G.
  - destruct (po_head _ _ _ K) as (d & Hd & Hf). exists d. by rewrite (gr_desc _ _ _ G pg _ pg HP Hh Hself).
  - rewrite E3. intros x Hx. rewrite (gr_spage _ _ _ G pg _ x HP Hh Hx), (gr_desc _ _ _ G pg _ x HP Hh Hx). by apply K.
  - rewrite (gr_spage _ _ _ G pg _ pg HP Hh Hself). unfold objs_of. rewrite E1, E3. apply K.
  - rewrite Hfl. apply K.
  - rewrite Hfl. intros x Hx. apply (is_obj_shape (caches s c)); [done |]. by apply K.
Qed.

(** A cache whose blocks are all among [P]. *)
Definition within (P : Z -> Z -> Prop) (s : slab_state) (c : Z) : Prop :=
  forall pg, pg ∈ slab_list (caches s c) -> P pg (page_order (caches s c)).

Lemma grows_in_use P s s' c x : grows P s s' -> within P s c -> caches s' c = caches s c -> cache_ok s c ->
  in_use s' c x <-> in_use s c x.
Proof.
  intros G HP E C. unfold in_use. rewrite E.
  assert (H : forall pg, pg ∈ slab_list (caches s c) -> free_list s' pg = free_list s pg).
  { intros pg Hpg. apply (grows_free_list P s s' c); [done | by apply HP | apply C | by apply C]. }
  split; intros (pg & Hpg & Ho & Hf); exists pg; (split_and!; [done | done |]); [by rewrite <- H | by rewrite H].
Qed.

Lemma grows_cache P s s' c : grows P s s' -> within P s c -> caches s' c = caches s c -> cache_ok s c -> cache_ok s' c.
Proof.
  intros G HP E C. split; rewrite ?E; try apply C. intros pg Hpg.
  apply (grows_page P s); try done; [by apply HP | by rewrite E | apply C | by apply C].
Qed.

Lemma wf_addr al pg : cache_wf al -> 0 <= pg -> pg mod 2 ^ page_order al = 0 -> is_aligned (va pg) (align al) = true.
Proof.
  intros W H0 Hpg. pose proof (wf_align _ W) as (k & Hk & Ha). rewrite Ha, is_aligned_spec by lia. rewrite <- Ha.
  replace (va pg) with (va pg + 0 * size al) by lia.
  apply (obj_align al pg); try done. exists 0. pose proof (wf_objs _ W). split; [lia | done].
Qed.

Lemma seq_objs al pg n : cache_wf al -> Z.of_nat n = objs_of al ->
  let l := (fun i : nat => va pg + Z.of_nat i * size al) <$> seq 0 n in
  NoDup l /\ forall x, x ∈ l <-> is_obj al pg x.
Proof.
  intros W Hn l. pose proof (wf_size _ W). split.
  - apply NoDup_fmap_2_strong; [| apply NoDup_seq]. intros i j _ _ E. nia.
  - intros x. unfold l. rewrite list_elem_of_fmap. split.
    + intros (i & -> & Hi%elem_of_seq). exists (Z.of_nat i). split; [lia | done].
    + intros (i & Hi & ->). exists (Z.to_nat i). rewrite elem_of_seq. split; [lia | lia].
Qed.

(** [slab_add_page] puts a block with every object free at the head of the list,
    or reports that there is none. *)
Lemma add_page_spec s c : pb_inv (pool s) -> cache_ok s c ->
  exists s' err, slab_add_page s c = Ret (s', err) /\ grows every s s' /\ cache_ok s' c /\
    (forall c', c' <> c -> caches s' c' = caches s c') /\
    (forall q o, pb_held (pool s') q o -> pb_held (pool s) q o \/ q ∈ slab_list (caches s' c)) /\
    ((err = - ENOMEM /\ caches s' c = caches s c) \/
     (err = 0 /\ exists pg, slab_list (caches s' c) = pg :: slab_list (caches s c) /\
        same_shape (caches s c) (caches s' c) /\ (pg ∉ slab_list (caches s c)) /\
        0 < slab_free_count (spage s' pg) /\ forall x, x ∈ free_list s' pg <-> is_obj (caches s c) pg x)).
Proof.
  intros Hi C. pose proof (co_wf _ _ C) as W. pose proof (wf_order _ W) as Ho. pose proof (wf_size _ W) as Hs.
  unfold slab_add_page. set (al := caches s c) in *.
  destruct (pb_alloc_ok (pool s) (page_order al) Hi Ho) as (a1 & r & -> & Hi1 & Hd1 & Hr).
  destruct r as [pg |].
  2: { assert (G : grows every s (with_pool s a1)).
    { split; try done; [intros q o _; apply Hr | intros q o x _ Hq Hx; by apply (Hd1 q o)]. }
    exists (with_pool s a1), (- ENOMEM). split_and!; try done; [| intros q o Hq; left; by apply Hr | by left].
    split; [done | apply C |]. intros pg Hpg. apply (grows_page every s); try done. by apply C. }
  destruct Hr as (Hheld & Hnew & d0 & Hd0 & Hf0).
  assert (Hh1 : pb_held a1 pg (page_order al)) by (apply Hheld; by right).
  destruct (pb_held_ok a1 pg _ Hi1 Hh1) as (_ & Hp0 & Hpal & Hpend & _).
  assert (Hpow : 0 < 2 ^ page_order al) by lia.
  assert (H24 : 2 ^ (12 + page_order al) <= 2 ^ 24) by (apply Z.pow_le_mono_r; lia).
  unfold slab_mark_page_range. rewrite shiftl_order by lia.
  destruct (mark_loop_spec pg (page_order al) c (Z.to_nat (2 ^ page_order al)) (with_pool s a1) pg)
    as (s2 & -> & U2 & Hw2 & Hc2 & Hsp2); try done; try lia.
  cbn [pool words caches spage with_pool] in U2, Hw2, Hc2, Hsp2.
  rewrite Z2Nat.id in U2, Hsp2 by lia.
  rewrite page_to_virt_va by lia. rewrite (wf_addr al pg) by done.
  rewrite Z.shiftl_1_l. unfold PAGE_SHIFT. set (E := va pg + 2 ^ (12 + page_order al)).
  assert (HE : 0 <= va pg /\ E + 2 ^ 25 <= 2 ^ 64) by (unfold E, va, PAGE_OFFSET; lia).
  rewrite (u64_small E) by lia. replace (E - va pg) with (2 ^ (12 + page_order al)) by (unfold E; lia).
  rewrite u64_small by lia. fold (objs_of al). pose proof (wf_objs _ W) as [Hcnt Hmul].
  destruct (Z.eqb_spec (objs_of al) 0); [lia |].
  set (s3 := set_spage s2 pg _).
  destruct (link_loop_spec (size al) E (Z.to_nat (objs_of al)) s3 (va pg)) as (w4 & -> & Hlink & Hwf); try lia.
  { replace (E - va pg) with (2 ^ (12 + page_order al)) by (unfold E; lia). rewrite Z2Nat.id by lia. done. }
  set (s4 := mk_slab _ _ w4 _).
  destruct (set_order_upd s4 pg (page_order al) pg link_bits) as (a5 & -> & U5).
  { apply U2. } { by apply U2. } { apply blk_head; lia. }
  set (s' := set_cache _ c _). exists s', 0. split; [done |].
  assert (Hvas : va (pg + 2 ^ page_order al) = E) by (unfold E, va; rewrite Z.pow_add_r by lia; lia).
  assert (G : grows every s s').
  { assert (Hout : forall q o, pb_held (pool s) q o -> pg + 2 ^ page_order al <= q \/ q + 2 ^ o <= pg).
    { intros q o Hq. apply (held_apart a1); try done; [apply Hheld; by left |]. intros [<- <-]. done. }
    split.
    - apply U5.
    - intros q o _ Hq. apply U5, U2, Hheld. by left.
    - intros q o x _ Hq Hx. specialize (Hout q o Hq). unfold blk in Hx. cbn [pool s' set_cache with_pool].
      rewrite (up_desc _ _ _ _ _ U5), decide_False by lia. cbn [pool s4 s3 set_spage].
      rewrite (up_desc _ _ _ _ _ U2), decide_False by lia. by apply (Hd1 q o).
    - intros q o x _ Hq Hx. specialize (Hout q o Hq). unfold blk in Hx. cbn [spage s' set_cache with_pool s4 s3 set_spage].
      rewrite fn_lookup_insert_ne by lia. by rewrite Hsp2, decide_False by lia.
    - intros q o w _ Hq Hx. specialize (Hout q o Hq). cbn [words s' set_cache with_pool s4]. rewrite Hwf.
      + cbn [words s3 set_spage]. by rewrite Hw2.
      + destruct Hout as [H1%va_le | H1%va_le]; lia. }
  assert (Ecache : caches s' c = mk_cache (size al) (align al) (page_order al) (pg :: slab_list al)).
  { unfold s'. cbn [caches set_cache]. by rewrite fn_lookup_insert. }
  assert (Hshape : same_shape (caches s c) (caches s' c)) by (rewrite Ecache; done).
  assert (Hfresh : pg ∉ slab_list al) by (intros Hin; apply Hnew, (po_held _ _ _ (co_page _ _ C _ Hin))).
  assert (Hsp : spage s' pg = mk_spage (va pg) c (objs_of al) (objs_of al)).
  { cbn [spage s' set_cache with_pool s4 s3 set_spage]. rewrite fn_lookup_insert. f_equal.
    rewrite Hsp2, decide_True by lia. done. }
  assert (Hfl : free_list s' pg = (fun i : nat => va pg + Z.of_nat i * size al) <$> seq 0 (Z.to_nat (objs_of al))).
  { unfold free_list. rewrite Hsp. cbn [slab_free_objs slab_free_count]. apply walk_linear.
    intros i Hi'. change (words s') with w4. apply Hlink. unfold E. nia. }
  destruct (seq_objs al pg (Z.to_nat (objs_of al)) W) as [Hnd Hin]; [lia |]. rewrite <- Hfl in Hnd, Hin.
  split_and!; [done | | | | right; split; [done |]; exists pg; rewrite Hsp, Ecache; split_and!; try done; simpl; lia].
  3: { intros q o Hq. apply U5, U2, Hheld in Hq as [Hq | [-> _]]; [by left | right; rewrite Ecache; left]. }
  2: { intros c' Hc'. unfold s'. cbn [caches set_cache with_pool s4 s3 set_spage]. rewrite fn_lookup_insert_ne by done. by rewrite Hc2. }
  split; [by apply (wf_shape al) | rewrite Ecache; apply list.NoDup_cons; split; [done | apply C] |].
  intros q Hq. rewrite Ecache in Hq. cbn [slab_list] in Hq. apply elem_of_cons in Hq as [-> | Hq].
  2: { apply (grows_page every s); try done. by apply C. }
  assert (Hpd : forall x, blk pg (page_order al) x -> exists d, pb_desc (pool s') x = Some d /\ has (flags d) PAGE_FLAGS_SLAB = true /\
    (x = pg -> flags d = Z.lor PAGE_FLAGS_NEW_PAGE PAGE_FLAGS_SLAB)).
  { intros x Hx. destruct (held_desc a1 pg _ x Hi1 Hh1 Hx) as (d & Hd & _). unfold blk in Hx.
    assert (Hd2 : pb_desc (pool s2) x = Some (add_flag PAGE_FLAGS_SLAB d)) by (by rewrite (up_desc _ _ _ _ _ U2), decide_True, Hd by lia).
    assert (Hslab : has (Z.lor (flags d) PAGE_FLAGS_SLAB) PAGE_FLAGS_SLAB = true).
    { change PAGE_FLAGS_SLAB with (2 ^ 2). by rewrite has_lor by lia. }
    change (pool s') with a5. rewrite (up_desc _ _ _ _ _ U5). cbn [pool s4 s3 set_spage]. rewrite Hd2. case_decide.
    - eexists. split; [reflexivity |]. cbn [flags add_flag]. split; [done |]. intros ->. simplify_eq. by rewrite Hf0.
    - eexists. split; [reflexivity |]. cbn [flags add_flag]. split; [done |]. intros ->. lia. }
  split; rewrite ?Ecache; cbn [page_order size align].
  - apply U5, U2. done.
  - destruct (Hpd pg) as (d & H1 & _ & H2); [apply blk_head; lia |]. exists d. by rewrite H2.
  - intros x Hx. split.
    + destruct (decide (x = pg)) as [-> |]; [by rewrite Hsp |].
      cbn [spage s' set_cache with_pool s4 s3 set_spage]. rewrite fn_lookup_insert_ne by done.
      unfold blk in Hx. by rewrite Hsp2, decide_True by lia.
    + destruct (Hpd x Hx) as (d & H1 & H2 & _). eauto.
  - rewrite Hsp. cbn [slab_objs_count slab_free_count]. split; [done | lia].
  - done.
  - intros x Hx. apply Hin in Hx. done.
Qed.

(** ** Taking and returning an object *)

(** A change of free lists only: [q] is still a good block of [c]. *)
Lemma page_ok_touch s s' c q : pool s' = pool s -> caches s' = caches s ->
  (forall x, slab_cache (spage s' x) = slab_cache (spage s x) /\ slab_objs_count (spage s' x) = slab_objs_count (spage s x)) ->
  0 <= slab_free_count (spage s' q) -> NoDup (free_list s' q) -> (forall x, x ∈ free_list s' q -> is_obj (caches s c) q x) ->
  page_ok s c q -> page_ok s' c q.
Proof.
  intros Ep Ec Hsp Hfc Hnd Hobj [H1 H2 H3 H4 H5 H6]. split; rewrite ?Ep, ?Ec; try done.
  - intros x Hx. destruct (Hsp x) as [-> _]. by apply H3.
  - destruct (Hsp q) as [_ ->]. split; [apply H4 | done].
Qed.

Lemma free_list_cons s pg : 0 < slab_free_count (spage s pg) ->
  free_list s pg = slab_free_objs (spage s pg) ::
    walk (words s) (words s (slab_free_objs (spage s pg))) (Z.to_nat (slab_free_count (spage s pg) - 1)).
Proof.
  intros H. unfold free_list. replace (Z.to_nat (slab_free_count (spage s pg))) with (S (Z.to_nat (slab_free_count (spage s pg) - 1))) by lia.
  done.
Qed.

Lemma free_count_bound s c pg : cache_wf (caches s c) -> page_ok s c pg ->
  0 <= slab_free_count (spage s pg) <= objs_of (caches s c).
Proof.
  intros W K. pose proof (wf_objs _ W). destruct (po_count _ _ _ K) as [_ H0]. split; [done |].
  destruct (seq_objs (caches s c) pg (Z.to_nat (objs_of (caches s c))) W) as [Hnd Hin]; [lia |].
  pose proof (submseteq_length _ _ (NoDup_submseteq _ _ (po_nodup _ _ _ K)
    (fun x Hx => proj2 (Hin x) (po_free _ _ _ K x Hx)))) as Hlen.
  unfold free_list in Hlen. rewrite length_walk, length_fmap, length_seq in Hlen. lia.
Qed.

(** [free'] is the only free list that moved, and it is the one of [pg]. *)
Lemma in_use_touch s s' (C : Z -> Prop) c pg c' x : slab_inv s C -> C c -> C c' -> pg ∈ slab_list (caches s c) ->
  caches s' = caches s -> (forall q, q <> pg -> q ∈ slab_list (caches s c') -> free_list s' q = free_list s q) ->
  in_use s' c' x <-> (c' <> c /\ in_use s c' x) \/ (c' = c /\ exists q, q ∈ slab_list (caches s c) /\ is_obj (caches s c) q x /\
    (x ∉ if decide (q = pg) then free_list s' pg else free_list s q)).
Proof.
  intros [Hi HC] Hc Hc' Hpg E Hfl. unfold in_use. rewrite E. destruct (decide (c' = c)) as [-> | Hne].
  - split.
    + intros (q & Hq & Ho & Hf). right. split; [done |]. exists q. split_and!; try done.
      destruct (decide (q = pg)) as [-> | Hn]; [done |]. by rewrite <- Hfl.
    + intros [[? _] | (_ & q & Hq & Ho & Hf)]; [done |]. exists q. split_and!; try done.
      destruct (decide (q = pg)) as [-> | Hn]; [done |]. by rewrite Hfl.
  - assert (Hqn : forall q, q ∈ slab_list (caches s c') -> q <> pg).
    { intros q Hq ->. apply Hne. apply (page_cache_unique s c' c pg); try apply (HC _ Hc); try apply (HC _ Hc'); done. }
    split.
    + intros (q & Hq & Ho & Hf). left. split; [done |]. exists q. split_and!; try done. rewrite <- Hfl; auto.
    + intros [(_ & q & Hq & Ho & Hf) | [? _]]; [| done]. exists q. split_and!; try done. rewrite Hfl; auto.
Qed.

Lemma obj_page_unique s C c q pg x : slab_inv s C -> C c -> q ∈ slab_list (caches s c) -> pg ∈ slab_list (caches s c) ->
  is_obj (caches s c) q x -> is_obj (caches s c) pg x -> q = pg.
Proof.
  intros [Hi HC] Hc Hq Hpg H1 H2. destruct (decide (q = pg)) as [| Hne]; [done |]. exfalso. specialize (HC c Hc).
  pose proof (co_wf _ _ HC) as W. pose proof (wf_size _ W). pose proof (obj_bounds _ _ _ W H1). pose proof (obj_bounds _ _ _ W H2).
  destruct (pages_apart s c c q pg) as [E%va_le | E%va_le]; try done; try (by apply HC); lia.
Qed.

Lemma pop_spec s C c pg : slab_inv s C -> C c -> pg ∈ slab_list (caches s c) -> 0 < slab_free_count (spage s pg) ->
  let s' := (pop_object s pg).1 in let obj := (pop_object s pg).2 in
  slab_inv s' C /\ pool s' = pool s /\ words s' = words s /\ caches s' = caches s /\
  is_obj (caches s c) pg obj /\ obj ∈ free_list s pg /\
  (forall x, (forall c' q, C c' -> q ∈ slab_list (caches s c') -> ~ blk q (page_order (caches s c')) x) -> spage s' x = spage s x) /\
  forall c' x, C c' -> in_use s' c' x <-> in_use s c' x \/ (c' = c /\ x = obj).
Proof.
  intros Hinv Hc Hpg Hfc s' obj. destruct Hinv as [Hi HC] eqn:EI. pose proof (HC c Hc) as K. pose proof (co_wf _ _ K) as W.
  pose proof (co_page _ _ K _ Hpg) as P. pose proof (free_count_bound _ _ _ W P) as Hb. pose proof (wf_objs _ W) as Ho.
  pose proof (free_list_cons s pg Hfc) as Hfl. change (slab_free_objs (spage s pg)) with obj in Hfl.
  assert (Hfl' : free_list s' pg = walk (words s) (words s obj) (Z.to_nat (slab_free_count (spage s pg) - 1))).
  { unfold free_list, s', pop_object. cbn [fst spage set_spage words]. rewrite fn_lookup_insert. cbn [slab_free_objs slab_free_count].
    by rewrite u64_small by lia. }
  assert (Hne : forall q, q <> pg -> free_list s' q = free_list s q).
  { intros q Hq. unfold free_list, s', pop_object. cbn [fst spage set_spage words]. by rewrite fn_lookup_insert_ne. }
  pose proof (po_nodup _ _ _ P) as Hnd. rewrite Hfl, <- Hfl' in Hnd. apply list.NoDup_cons in Hnd as [Hnin Hnd].
  rewrite <- Hfl' in Hfl.
  assert (Hobj : is_obj (caches s c) pg obj) by (apply P; rewrite Hfl; left).
  assert (Hsp : forall x, slab_cache (spage s' x) = slab_cache (spage s x) /\ slab_objs_count (spage s' x) = slab_objs_count (spage s x)).
  { intros x. unfold s', pop_object. cbn [fst spage set_spage]. rewrite fn_insert_dec. by destruct (decide (pg = x)) as [<- |]. }
  split_and!; try done.
  - split; [done |]. intros c' Hc'. pose proof (HC c' Hc') as K'. split; try apply K'. intros q Hq.
    pose proof (co_page _ _ K' q Hq) as P'. destruct (decide (q = pg)) as [-> | Hqn].
    + assert (c' = c) as -> by (apply (page_cache_unique s c' c pg); try done; apply K').
      apply (page_ok_touch s); try done.
      * unfold s', pop_object. cbn [fst spage set_spage]. rewrite fn_lookup_insert. cbn [slab_free_count]. rewrite u64_small; lia.
      * intros x Hx. apply P. rewrite Hfl. by right.
    + apply (page_ok_touch s); try done; rewrite ?Hne by done; try apply P'.
      unfold s', pop_object. cbn [fst spage set_spage]. rewrite fn_lookup_insert_ne by done. apply P'.
  - rewrite Hfl. left.
  - intros x Hx. unfold s', pop_object. cbn [fst spage set_spage]. rewrite fn_lookup_insert_ne; [done |]. intros <-.
    apply (Hx c pg Hc Hpg). apply blk_head. apply W.
  - intros c' x Hc'. rewrite (in_use_touch s s' C c pg c' x Hinv Hc Hc' Hpg eq_refl) by auto. split.
    + intros [[? ?] | (-> & q & Hq & Hqo & Hf)]; [by left |]. destruct (decide (q = pg)) as [-> | Hqn].
      * destruct (decide (x = obj)) as [-> | Hxo]; [by right |]. left. exists pg. split_and!; try done.
        rewrite Hfl. by intros [? | ?]%elem_of_cons.
      * left. by exists q.
    + intros [Hu | [-> ->]].
      * destruct (decide (c' = c)) as [-> |]; [| by left]. right. split; [done |]. destruct Hu as (q & Hq & Hqo & Hf).
        exists q. split_and!; try done. destruct (decide (q = pg)) as [-> |]; [| done].
        intros Hx. apply Hf. rewrite Hfl. by right.
      * right. split; [done |]. exists pg. by rewrite decide_True by done.
Qed.

Lemma first_with_free_spec s l :
  match first_with_free s l with
  | Some pg => pg ∈ l /\ 0 < slab_free_count (spage s pg)
  | None => forall pg, pg ∈ l -> slab_free_count (spage s pg) <= 0
  end.
Proof.
  induction l as [| q l IH]; cbn [first_with_free]; [intros pg Hpg; by apply elem_of_nil in Hpg |].
  destruct (Z.ltb_spec 0 (slab_free_count (spage s q))); [split; [left | done] |].
  destruct (first_with_free s l) as [pg |].
  - destruct IH. split; [by right | done].
  - intros pg [-> | Hpg]%elem_of_cons; [done | auto].
Qed.

Lemma add_page_inv s C c s' err : slab_inv s C -> C c -> slab_add_page s c = Ret (s', err) ->
  slab_inv s' C /\ grows every s s' /\ (forall c' x, C c' -> in_use s' c' x <-> in_use s c' x) /\
  (forall c', same_shape (caches s c') (caches s' c')) /\
  (forall c', c' <> c -> caches s' c' = caches s c') /\
  (forall q o, pb_held (pool s') q o -> pb_held (pool s) q o \/ q ∈ slab_list (caches s' c)) /\
  ((err = - ENOMEM /\ caches s' c = caches s c) \/
   (err = 0 /\ exists pg, slab_list (caches s' c) = pg :: slab_list (caches s c) /\ 0 < slab_free_count (spage s' pg))).
Proof.
  intros [Hi HC] Hc Heq. pose proof (HC c Hc) as K.
  destruct (add_page_spec s c Hi K) as (s1 & err1 & H1 & G & K' & Hoth & Hhl & Hcase). rewrite Heq in H1. simplify_eq.
  assert (Hall : forall c', C c' -> c' <> c -> cache_ok s1 c' /\ forall x, in_use s1 c' x <-> in_use s c' x).
  { intros c' Hc' Hne. split; [apply (grows_cache every s); auto; done | intros x; apply (grows_in_use every); auto; done]. }
  split_and!; try done.
  - split; [apply G |]. intros c' Hc'. destruct (decide (c' = c)) as [-> |]; [done | by apply Hall].
  - intros c' x Hc'. destruct (decide (c' = c)) as [-> | Hne]; [| by apply Hall].
    destruct Hcase as [[_ E] | (_ & pg & E & Sh & Hfresh & _ & Hfl)]; [by apply (grows_in_use every) |].
    unfold in_use. rewrite E. split.
    + intros (q & [-> | Hq]%elem_of_cons & Ho & Hf).
      * exfalso. apply Hf, Hfl. by apply (is_obj_shape (caches s c)) in Ho.
      * exists q. split_and!; [done | by apply (is_obj_shape (caches s c)) in Ho |].
        rewrite <- (grows_free_list every s s1 c q); try done; [apply K | by apply K].
    + intros (q & Hq & Ho & Hf). exists q. split_and!; [by right | by apply (is_obj_shape (caches s c)) |].
      rewrite (grows_free_list every s s1 c q); try done; [apply K | by apply K].
  - intros c'. destruct (decide (c' = c)) as [-> | Hne]; [| by rewrite Hoth].
    destruct Hcase as [[_ ->] | (_ & pg & _ & Sh & _)]; done.
  - destruct Hcase as [? | (? & pg & E & _ & _ & Hpos & _)]; [by left | right; eauto].
Qed.

(** What was held before is still held, with its descriptors and memory. *)
Record keeps (s s' : slab_state) : Prop := {
  kp_held : forall q o, pb_held (pool s) q o -> pb_held (pool s') q o;
  kp_desc : forall q o x, pb_held (pool s) q o -> blk q o x -> pb_desc (pool s') x = pb_desc (pool s) x;
  kp_words : forall q o w, pb_held (pool s) q o -> va q <= w < va (q + 2 ^ o) -> words s' w = words s w
}.

Lemma keeps_refl s s' : pool s' = pool s -> words s' = words s -> keeps s s'.
Proof. intros E1 E2. split; rewrite ?E1, ?E2; done. Qed.

Lemma grows_keeps s s' : grows every s s' -> keeps s s'.
Proof. intros [_ H1 H2 _ H3]. split; intros; [by apply H1 | by apply (H2 q o) | by apply (H3 q o)]. Qed.

Lemma keeps_trans s1 s2 s3 : keeps s1 s2 -> keeps s2 s3 -> keeps s1 s3.
Proof.
  intros [A1 B1 C1] [A2 B2 C2]. split.
  - intros q o H. by apply A2, A1.
  - intros q o x H Hx. rewrite (B2 q o); [by apply (B1 q o) | by apply A1 | done].
  - intros q o w H Hw. rewrite (C2 q o); [by apply (C1 q o) | by apply A1 | done].
Qed.

(** An object that was in use keeps its contents. *)
Lemma keeps_contents s s' C c x w : keeps s s' -> slab_inv s C -> C c -> in_use s c x -> x <= w < x + size (caches s c) ->
  words s' w = words s w.
Proof.
  intros K [_ HC] Hc (pg & Hpg & Ho & _) Hw. pose proof (HC c Hc) as D. pose proof (co_page _ _ D _ Hpg) as P.
  apply (kp_words _ _ K pg (page_order (caches s c))); [apply P |].
  pose proof (obj_bounds _ _ _ (co_wf _ _ D) Ho). lia.
Qed.

(** The object [obj] of the cache [c] that a call hands out. *)
Record hands_object (C : Z -> Prop) (s s' : slab_state) (c obj : Z) : Prop := {
  hb_pos : 0 < obj;
  hb_align : obj mod align (caches s c) = 0;
  hb_free : ~ in_use s c obj;
  hb_used : forall c' x, C c' -> in_use s' c' x <-> in_use s c' x \/ (c' = c /\ x = obj)
}.

Lemma pop_hands s C c pg : slab_inv s C -> C c -> pg ∈ slab_list (caches s c) -> 0 < slab_free_count (spage s pg) ->
  hands_object C s (pop_object s pg).1 c (pop_object s pg).2 /\ slab_inv (pop_object s pg).1 C /\ keeps s (pop_object s pg).1.
Proof.
  intros Hinv Hc Hpg Hfc. destruct (pop_spec s C c pg Hinv Hc Hpg Hfc) as (H1 & H2 & H3 & H4 & H5 & H6 & _ & H7).
  destruct Hinv as [Hi HC] eqn:EI. pose proof (HC c Hc) as D. pose proof (co_wf _ _ D) as W.
  destruct (pb_held_ok _ _ _ Hi (po_held _ _ _ (co_page _ _ D _ Hpg))) as (_ & Hp0 & Hpal & _ & _).
  split_and!; [split | done | by apply keeps_refl].
  - pose proof (obj_bounds _ _ _ W H5) as [Hb _]. unfold va, PAGE_OFFSET in Hb. lia.
  - by apply (obj_align _ pg).
  - intros (q & Hq & Ho & Hf). assert (q = pg) as -> by (by apply (obj_page_unique s C c q pg (pop_object s pg).2)). done.
  - done.
Qed.

Lemma slab_alloc_spec s C c : slab_inv s C -> C c ->
  exists s' r, slab_alloc s c = Ret (s', r) /\ slab_inv s' C /\ keeps s s' /\
    (forall c', same_shape (caches s c') (caches s' c')) /\
    (forall q o, pb_held (pool s') q o -> pb_held (pool s) q o \/ q ∈ slab_list (caches s' c)) /\
    match r with
    | Some obj => hands_object C s s' c obj
    | None => (forall c' x, C c' -> in_use s' c' x <-> in_use s c' x) /\
        (forall pg x, pg ∈ slab_list (caches s c) -> is_obj (caches s c) pg x -> in_use s c x)
    end.
Proof.
  intros Hinv Hc. unfold slab_alloc. cbn [alloc_retry Z.ltb Z.compare].
  pose proof (first_with_free_spec s (slab_list (caches s c))) as Hff.
  destruct (first_with_free s (slab_list (caches s c))) as [pg |].
  { destruct Hff as [Hpg Hfc]. destruct (pop_hands s C c pg Hinv Hc Hpg Hfc) as (H1 & H2 & H3).
    exists (pop_object s pg).1, (Some (pop_object s pg).2). split_and!; try done. by left. }
  cbn [Z.eqb].
  assert (Hfull : forall pg x, pg ∈ slab_list (caches s c) -> is_obj (caches s c) pg x -> in_use s c x).
  { intros pg x Hpg Ho. exists pg. split_and!; try done. unfold free_list.
    replace (Z.to_nat (slab_free_count (spage s pg))) with O by (specialize (Hff pg Hpg); lia). apply not_elem_of_nil. }
  destruct (add_page_spec s c (proj1 Hinv) (proj2 Hinv c Hc)) as (s1 & err & Heq & _). rewrite Heq.
  destruct (add_page_inv s C c s1 err Hinv Hc Heq) as (Hinv1 & G & Hu & Hsh & Hoth & Hhl & Hcase).
  destruct Hcase as [[-> E] | (-> & pg & E & Hpos)]; cbn [Z.ltb Z.compare Z.opp ENOMEM].
  { exists s1, None. split_and!; try done. by apply grows_keeps. }
  change (0 + 1) with 1. cbn [alloc_retry Z.ltb Z.compare Pos.compare Pos.compare_cont].
  rewrite E. cbn [first_with_free]. destruct (Z.ltb_spec 0 (slab_free_count (spage s1 pg))); [| lia].
  destruct (pop_hands s1 C c pg Hinv1 Hc) as ([P1 P2 P3 P4] & H2 & H3); [rewrite E; left | done |].
  exists (pop_object s1 pg).1, (Some (pop_object s1 pg).2). split_and!; try done.
  - apply (keeps_trans s s1); [by apply grows_keeps | done].
  - split; [done | by destruct (Hsh c) as (_ & <- & _) | by rewrite <- Hu |].
    intros c' x Hc'. by rewrite P4, Hu.
Qed.

(** Returning the object to the block it lies in. *)
Lemma free_scan_spec s C c obj pg : slab_inv s C -> C c -> is_obj (caches s c) pg obj ->
  forall l, (forall q, q ∈ l -> q ∈ slab_list (caches s c)) -> pg ∈ l ->
  free_scan s l obj = Ret (set_spage (store s obj (slab_free_objs (spage s pg))) pg
    (mk_spage obj (slab_cache (spage s pg)) (u64 (slab_free_count (spage s pg) + 1)) (slab_objs_count (spage s pg)))).
Proof.
  intros Hinv Hc Hobj. destruct Hinv as [Hi HC]. pose proof (HC c Hc) as D. pose proof (co_wf _ _ D) as W.
  pose proof (obj_bounds _ _ _ W Hobj) as Hb. pose proof (wf_size _ W) as Hsz. pose proof (wf_order _ W) as Ho.
  induction l as [| q l IH]; intros Hl Hpg; [by apply elem_of_nil in Hpg |]. cbn [free_scan].
  assert (Hq : q ∈ slab_list (caches s c)) by (apply Hl; left).
  pose proof (co_page _ _ D q Hq) as Pq. destruct (po_mark _ _ _ Pq q) as [Hsc _]; [apply blk_head; lia |]. rewrite Hsc.
  destruct (pb_held_ok _ _ _ Hi (po_held _ _ _ Pq)) as (_ & Hq0 & _ & Hqe & _).
  rewrite page_to_virt_va by lia. rewrite Z.shiftl_mul_pow2 by lia.
  replace (va q + PAGE_SIZE * 2 ^ page_order (caches s c)) with (va (q + 2 ^ page_order (caches s c)))
    by (unfold va, PAGE_SIZE; lia).
  rewrite u64_small by (unfold va, PAGE_OFFSET; lia).
  destruct (decide (q = pg)) as [-> | Hne].
  - destruct (Z.leb_spec (va pg) obj); [| lia]. destruct (Z.ltb_spec obj (va (pg + 2 ^ page_order (caches s c)))); [| lia].
    by rewrite Hsc.
  - assert (Hpl : pg ∈ l) by (apply elem_of_cons in Hpg as [-> |]; done).
    assert (Hpgl : pg ∈ slab_list (caches s c)) by (apply Hl; by right).
    destruct (pages_apart s c c q pg) as [E%va_le | E%va_le]; try done; try (by apply D).
    + destruct (Z.ltb_spec obj (va (q + 2 ^ page_order (caches s c)))); [lia |]. rewrite andb_false_r.
      apply IH; [intros; apply Hl; by right | done].
    + destruct (Z.leb_spec (va q) obj); [lia |]. cbn [andb]. apply IH; [intros; apply Hl; by right | done].
Qed.

Lemma slab_free_spec s C c obj : slab_inv s C -> C c -> in_use s c obj ->
  exists s', slab_free s c obj = Ret s' /\ slab_inv s' C /\ pool s' = pool s /\ caches s' = caches s /\
    (forall w, w <> obj -> words s' w = words s w) /\
    (forall c' x, C c' -> in_use s' c' x <-> in_use s c' x /\ ~ (c' = c /\ x = obj)).
Proof.
  intros Hinv Hc (pg & Hpg & Hobj & Hnf). pose proof Hinv as [Hi HC]. pose proof (HC c Hc) as D. pose proof (co_wf _ _ D) as W.
  pose proof (co_page _ _ D _ Hpg) as P. pose proof (free_count_bound _ _ _ W P) as Hb. pose proof (wf_objs _ W) as Hcnt.
  destruct (pb_held_ok _ _ _ Hi (po_held _ _ _ P)) as (_ & Hp0 & Hpal & _ & _).
  unfold slab_free. destruct (Z.eqb_spec obj 0) as [E0 | _].
  { pose proof (obj_bounds _ _ _ W Hobj) as [H1 _]. unfold va, PAGE_OFFSET in H1. lia. }
  pose proof (obj_align _ _ _ W Hp0 Hpal Hobj) as Hal. pose proof (wf_align _ W) as (k & Hk & Ha). rewrite Ha in Hal |- *.
  assert (is_aligned obj (2 ^ k) = true) as -> by (by apply is_aligned_spec; [lia |]).
  rewrite (free_scan_spec s C c obj pg) by done. rewrite u64_small by lia.
  set (s' := set_spage _ _ _). exists s'. split; [done |].
  assert (Hother : forall c' q, C c' -> q ∈ slab_list (caches s c') -> q <> pg -> obj ∉ free_list s q).
  { intros c' q Hc' Hq Hne Hin. pose proof (HC c' Hc') as D'.
    pose proof (po_free _ _ _ (co_page _ _ D' _ Hq) _ Hin) as Hobj'. pose proof (co_wf _ _ D') as W'.
    pose proof (obj_bounds _ _ _ W Hobj). pose proof (obj_bounds _ _ _ W' Hobj'). pose proof (wf_size _ W). pose proof (wf_size _ W').
    destruct (pages_apart s c' c q pg) as [E%va_le | E%va_le]; try done; try (by apply D'); lia. }
  assert (Hwalk : forall p n, obj ∉ walk (words s) p n -> walk (words s') p n = walk (words s) p n).
  { intros p n Hn. apply walk_ext. intros x Hx. cbn [words s' set_spage store]. apply fn_lookup_insert_ne. by intros ->. }
  assert (Hfl' : forall c' q, C c' -> q ∈ slab_list (caches s c') -> q <> pg -> free_list s' q = free_list s q).
  { intros c' q Hc' Hq Hne. specialize (Hother c' q Hc' Hq Hne). unfold free_list in *. cbn [spage s' set_spage].
    rewrite fn_lookup_insert_ne by done. by apply Hwalk. }
  assert (Hfl : free_list s' pg = obj :: free_list s pg).
  { unfold free_list in *. cbn [spage s' set_spage]. rewrite fn_lookup_insert. cbn [slab_free_objs slab_free_count].
    replace (Z.to_nat (slab_free_count (spage s pg) + 1)) with (S (Z.to_nat (slab_free_count (spage s pg)))) by lia.
    cbn [walk]. f_equal. cbn [words s' set_spage store]. rewrite fn_lookup_insert. by apply Hwalk. }
  assert (Hsp : forall x, slab_cache (spage s' x) = slab_cache (spage s x) /\ slab_objs_count (spage s' x) = slab_objs_count (spage s x)).
  { intros x. cbn [spage s' set_spage store]. rewrite fn_insert_dec. by destruct (decide (pg = x)) as [<- |]. }
  split_and!; try done.
  - split; [done |]. intros c' Hc'. pose proof (HC c' Hc') as K'. split; try apply K'. intros q Hq.
    pose proof (co_page _ _ K' q Hq) as P'. destruct (decide (q = pg)) as [-> | Hqn].
    + assert (c' = c) as -> by (apply (page_cache_unique s c' c pg); try done; apply K').
      apply (page_ok_touch s); try done; rewrite ?Hfl.
      * cbn [spage s' set_spage]. rewrite fn_lookup_insert. cbn [slab_free_count]. lia.
      * apply list.NoDup_cons. split; [done | apply P].
      * intros x [-> | Hx]%elem_of_cons; [done | by apply P].
    + apply (page_ok_touch s); try done; rewrite ?(Hfl' c' q Hc' Hq Hqn); try apply P'.
      cbn [spage s' set_spage store]. rewrite fn_lookup_insert_ne by done. apply P'.
  - intros w Hw. cbn [words s' set_spage store]. by apply fn_lookup_insert_ne.
  - intros c' x Hc'. rewrite (in_use_touch s s' C c pg c' x) by (done || intros q Hq ?; by apply (Hfl' c')). split.
    + intros [[Hne Hu] | (-> & q & Hq & Hqo & Hf)]; [split; [done | tauto] |]. destruct (decide (q = pg)) as [-> | Hqn].
      * rewrite Hfl in Hf. apply not_elem_of_cons in Hf as [Hxo Hf]. split; [by exists pg | tauto].
      * split; [by exists q |]. intros [_ ->]. apply Hqn. by apply (obj_page_unique s C c q pg obj).
    + intros [Hu Hne]. destruct (decide (c' = c)) as [-> |]; [| by left]. right. split; [done |].
      destruct Hu as (q & Hq & Hqo & Hf). exists q. split_and!; try done. destruct (decide (q = pg)) as [-> |]; [| done].
      rewrite Hfl. apply not_elem_of_cons. split; [| done]. intros ->. tauto.
Qed.

(** ** Giving a block back *)

Definition other_than (pg o q o' : Z) : Prop := ~ (q = pg /\ o' = o).

(** Clearing the mark [2^k] of a block and releasing it; [d] is its head. *)
Lemma release_spec s pg o k d : pb_inv (pool s) -> pb_held (pool s) pg o -> k = 2 \/ k = 4 ->
  pb_desc (pool s) pg = Some d -> flags d = Z.lor PAGE_FLAGS_NEW_PAGE (2 ^ k) ->
  exists a1 a2, clear_loop s pg (2 ^ k) (Z.to_nat (u32 (Z.shiftl 1 o))) = Ret (with_pool s a1) /\
    pb_desc a1 pg = Some (clear_flag (2 ^ k) d) /\
    pb_release a1 pg o = Ret a2 /\ grows (other_than pg o) s (with_pool s a2) /\
    (forall q o', pb_held a2 q o' <-> pb_held (pool s) q o' /\ other_than pg o q o') /\
    (forall x, pb_free a2 x <-> pb_free (pool s) x \/ blk pg o x).
Proof.
  intros Hi Hh Hk Hd Hf. destruct (pb_held_ok _ _ _ Hi Hh) as (Ho & _ & _ & _ & _). unfold PAGE_ORDER_MAX in Ho.
  rewrite shiftl_order by done.
  destruct (clear_loop_spec pg o k (Z.to_nat (2 ^ o)) Hk s pg) as (a1 & -> & U); try done; try lia.
  rewrite Z2Nat.id in U by lia. exists a1.
  assert (Hd1 : pb_desc a1 pg = Some (clear_flag (2 ^ k) d)).
  { rewrite (up_desc _ _ _ _ _ U), decide_True, Hd; [done |]. pose proof (blk_head pg o ltac:(lia)) as Hb. unfold blk in Hb. lia. }
  destruct (pb_release_ok a1 pg o (clear_flag (2 ^ k) d)) as (a2 & Hrel & Hi2 & Hh2 & Hf2 & Hd2).
  { apply U. } { by apply U. } { done. }
  { unfold clear_flag. cbn [flags]. rewrite Hf. destruct Hk as [-> | ->]; done. }
  exists a2. split_and!; try done.
  - split; cbn [pool with_pool spage words]; try done.
    + intros q o' Hne Hq. apply Hh2. split; [by apply U | done].
    + intros q o' x Hne Hq Hx. rewrite (Hd2 q o'); [| apply Hh2; split; [by apply U | done] | done].
      rewrite (up_desc _ _ _ _ _ U), decide_False; [done |]. intros Hx'.
      destruct (pb_disjoint (pool s) q o' pg o x) as [-> ->]; try done. by apply Hne.
  - intros q o'. rewrite Hh2, (up_held _ _ _ _ _ U). done.
  - intros x. rewrite Hf2, (up_free _ _ _ _ _ U). done.
Qed.

(** [slab_list.next] cleared by [list_del]: the descriptor of the head changes. *)
Lemma deinit_head s C c pg : slab_inv s C -> C c -> pg ∈ slab_list (caches s c) ->
  exists a' d, set_order s pg 0 = Ret (with_pool s a') /\ pb_inv a' /\ pb_held a' pg (page_order (caches s c)) /\
    pb_desc a' pg = Some d /\ flags d = Z.lor PAGE_FLAGS_NEW_PAGE PAGE_FLAGS_SLAB /\
    grows (other_than pg (page_order (caches s c))) s (with_pool s a') /\
    (forall q o, pb_held a' q o <-> pb_held (pool s) q o) /\ (forall x, pb_free a' x <-> pb_free (pool s) x).
Proof.
  intros [Hi HC] Hc Hpg. pose proof (HC c Hc) as D. pose proof (co_page _ _ D _ Hpg) as P. pose proof (wf_order _ (co_wf _ _ D)) as Ho.
  destruct (set_order_upd s pg (page_order (caches s c)) pg 0) as (a' & Heq & U); [done | apply P | apply blk_head; lia |].
  destruct (po_head _ _ _ P) as (d & Hd & Hf).
  exists a', (mk_page (flags d) (refcnt d) 0). split_and!; try done.
  - apply U.
  - apply U, P.
  - rewrite (up_desc _ _ _ _ _ U), decide_True, Hd by lia. done.
  - split; cbn [pool with_pool spage words]; try done; [apply U | intros q o _; apply U |].
    intros q o x Hne Hq Hx. rewrite (up_desc _ _ _ _ _ U), decide_False; [done |]. intros Hx'. assert (x = pg) as -> by lia.
    destruct (pb_disjoint (pool s) q o pg (page_order (caches s c)) pg) as [-> ->]; try done; [apply P | apply blk_head; lia |].
    by apply Hne.
  - apply U.
  - apply U.
Qed.

Lemma slab_grows_trans P s1 s2 s3 : grows P s1 s2 -> grows P s2 s3 -> grows P s1 s3.
Proof.
  intros [I1 H1 D1 S1 W1] [I2 H2 D2 S2 W2]. split; try done.
  - intros q o HP Hq. auto.
  - intros q o x HP Hq Hx. rewrite (D2 q o); [by apply (D1 q o) | done | auto | done].
  - intros q o x HP Hq Hx. rewrite (S2 q o); [by apply (S1 q o) | done | auto | done].
  - intros q o w HP Hq Hw. rewrite (W2 q o); [by apply (W1 q o) | done | auto | done].
Qed.

(** One turn of [slab_deinit]: a block with every object free goes back. *)
Lemma deinit_step s C c pg rest : slab_inv s C -> C c -> slab_list (caches s c) = pg :: rest ->
  let al := caches s c in
  let s1 := set_cache s c (mk_cache (size al) (align al) (page_order al) rest) in
  exists a2 a3 a4, set_order s1 pg 0 = Ret (with_pool s1 a2) /\
    slab_unmark_page_range (with_pool s1 a2) pg (page_order al) = Ret (with_pool s1 a3) /\
    pb_release a3 pg (page_order al) = Ret a4 /\ slab_inv (with_pool s1 a4) C /\
    (forall c' x, C c' -> c' <> c -> in_use (with_pool s1 a4) c' x <-> in_use s c' x) /\
    (forall x, in_use (with_pool s1 a4) c x <-> in_use s c x /\ ~ is_obj al pg x) /\
    (forall q, q ∈ rest -> free_list (with_pool s1 a4) q = free_list s q) /\
    (forall x, pb_free a4 x <-> pb_free (pool s) x \/ blk pg (page_order al) x).
Proof.
  intros Hinv Hc El al s1. pose proof Hinv as [Hi HC]. pose proof (HC c Hc) as D.
  assert (Hpg : pg ∈ slab_list (caches s c)) by (rewrite El; left).
  destruct (deinit_head s C c pg Hinv Hc Hpg) as (a2 & d & E2 & Hi2 & Hh2 & Hd2 & Hf2 & G2 & Hi2' & Hfr2).
  assert (E2' : set_order s1 pg 0 = Ret (with_pool s1 a2)).
  { unfold set_order, get_desc in *. cbn [pool s1 set_cache]. destruct (pb_desc (pool s) pg); [| done].
    injection E2 as E2. rewrite E2. done. }
  destruct (release_spec (with_pool s1 a2) pg (page_order al) 2 d) as (a3 & a4 & E3 & _ & E4 & G4 & Hh4 & Hfr4); try done; [by left |].
  exists a2, a3, a4. split; [done |]. split; [exact E3 |]. split; [done |].
  set (P := other_than pg (page_order al)).
  assert (G : grows P s (with_pool s1 a4)).
  { apply (slab_grows_trans P s (with_pool s a2)); [done |]. destruct G4 as [I4 H4 D4 S4 W4]. by split. }
  pose proof (co_nodup _ _ D) as Hnd. rewrite El in Hnd. apply list.NoDup_cons in Hnd as [Hnin Hnd].
  assert (HP : forall c' q, C c' -> q ∈ slab_list (caches s c') -> q <> pg -> P q (page_order (caches s c'))).
  { intros c' q _ _ Hne [-> _]. done. }
  assert (Hoth : forall c', C c' -> c' <> c -> within P s c').
  { intros c' Hc' Hne q Hq. apply HP; [done | done |]. intros ->. apply Hne.
    apply (page_cache_unique s c' c pg); try apply (HC c' Hc'); try apply D; done. }
  assert (Eoth : forall c', c' <> c -> caches (with_pool s1 a4) c' = caches s c').
  { intros c' Hne. cbn [caches with_pool s1 set_cache]. by rewrite fn_lookup_insert_ne. }
  assert (Ec : caches (with_pool s1 a4) c = mk_cache (size al) (align al) (page_order al) rest).
  { cbn [caches with_pool s1 set_cache]. by rewrite fn_lookup_insert. }
  assert (Hrest : forall q, q ∈ rest -> q ∈ slab_list (caches s c) /\ P q (page_order (caches s c)) /\ q <> pg).
  { intros q Hq. assert (q <> pg) by (by intros ->). rewrite El. split_and!; [by right | by intros [-> _] | done]. }
  assert (Hfl : forall q, q ∈ rest -> free_list (with_pool s1 a4) q = free_list s q).
  { intros q Hq. destruct (Hrest q Hq) as (H1 & H2 & _). apply (grows_free_list P s _ c); [done | done | apply D | by apply D]. }
  split_and!.
  - split; [apply G |]. intros c' Hc'. destruct (decide (c' = c)) as [-> | Hne].
    + split; rewrite Ec; [by apply (wf_shape (caches s c)), D | done |]. intros q Hq. cbn [slab_list] in Hq.
      destruct (Hrest q Hq) as (H1 & H2 & _). apply (grows_page P s); [done | done | by rewrite Ec | apply D | by apply D].
    + apply (grows_cache P s); [done | by apply Hoth | by apply Eoth | by apply HC].
  - intros c' x Hc' Hne. apply (grows_in_use P); [done | by apply Hoth | by apply Eoth | by apply HC].
  - intros x. unfold in_use. rewrite Ec. cbn [slab_list]. split.
    + intros (q & Hq & Ho & Hf). destruct (Hrest q Hq) as (H1 & _ & H3). split; [exists q; split_and!; [done | done |] |].
      * by rewrite <- Hfl.
      * intros Ho'. apply H3. apply (obj_page_unique s C c q pg x); done.
    + intros ((q & Hq & Ho & Hf) & Hnot). rewrite El in Hq. apply elem_of_cons in Hq as [-> | Hq]; [done |].
      exists q. split_and!; [done | done |]. by rewrite Hfl.
  - done.
  - intros x. rewrite Hfr4, Hfr2. done.
Qed.

(** A block is all free exactly when none of its objects is in use. *)
Lemma all_free_iff s C c pg : slab_inv s C -> C c -> pg ∈ slab_list (caches s c) ->
  slab_free_count (spage s pg) = slab_objs_count (spage s pg) <-> forall x, is_obj (caches s c) pg x -> ~ in_use s c x.
Proof.
  intros Hinv Hc Hpg. pose proof Hinv as [Hi HC]. pose proof (HC c Hc) as D. pose proof (co_wf _ _ D) as W.
  pose proof (co_page _ _ D _ Hpg) as P. pose proof (wf_objs _ W) as Hcnt. pose proof (free_count_bound _ _ _ W P) as Hb.
  destruct (po_count _ _ _ P) as [-> _].
  destruct (seq_objs (caches s c) pg (Z.to_nat (objs_of (caches s c))) W) as [Hnd Hin]; [lia |].
  set (l := _ <$> seq 0 _) in *.
  assert (Hll : length l = Z.to_nat (objs_of (caches s c))) by (unfold l; by rewrite length_fmap, length_seq).
  assert (Hlf : length (free_list s pg) = Z.to_nat (slab_free_count (spage s pg))) by apply length_walk.
  assert (Huse : forall x, is_obj (caches s c) pg x -> in_use s c x <-> (x ∉ free_list s pg)).
  { intros x Ho. split; [| by exists pg]. intros (q & Hq & Ho' & Hf).
    assert (q = pg) as -> by (by apply (obj_page_unique s C c q pg x)). done. }
  split.
  - intros E x Ho. rewrite (Huse x Ho). intros Hnin. assert (Hsub : l ⊆ free_list s pg).
    { intros y Hy. pose proof (NoDup_submseteq _ _ (po_nodup _ _ _ P) (fun z Hz => proj2 (Hin z) (po_free _ _ _ P z Hz))) as Hs.
      apply (submseteq_length_Permutation) in Hs; [| lia]. by rewrite Hs. }
    apply Hnin, Hsub, Hin. done.
  - intros Hno. assert (Hsub : l ⊆+ free_list s pg).
    { apply NoDup_submseteq; [done |]. intros x Hx. apply Hin in Hx. destruct (decide (x ∈ free_list s pg)) as [| Hn]; [done |].
      exfalso. apply (Hno x Hx). by apply Huse. }
    apply submseteq_length in Hsub. lia.
Qed.

Lemma deinit_loop_spec C c (n : nat) : forall s, slab_inv s C -> C c -> length (slab_list (caches s c)) = n ->
  ((forall x, ~ in_use s c x) -> exists s', deinit_loop s c n = Ret s' /\ slab_inv s' C /\ slab_list (caches s' c) = [] /\
     (forall c' x, C c' -> in_use s' c' x <-> in_use s c' x) /\
     (forall x, pb_free (pool s) x -> pb_free (pool s') x) /\
     (forall pg x, pg ∈ slab_list (caches s c) -> blk pg (page_order (caches s c)) x -> pb_free (pool s') x)) /\
  ((exists x, in_use s c x) -> deinit_loop s c n = Halt Panic).
Proof.
  induction n as [| n IH]; intros s Hinv Hc Hlen.
  { apply nil_length_inv in Hlen. cbn [deinit_loop]. rewrite Hlen. split.
    - intros _. exists s. split_and!; try done. intros pg x Hpg. by apply elem_of_nil in Hpg.
    - intros (x & pg & Hpg & _). rewrite Hlen in Hpg. by apply elem_of_nil in Hpg. }
  destruct (slab_list (caches s c)) as [| pg rest] eqn:El; [done |]. cbn [deinit_loop]. rewrite El.
  assert (Hpg : pg ∈ slab_list (caches s c)) by (rewrite El; left).
  destruct (deinit_step s C c pg rest Hinv Hc El) as (a2 & a3 & a4 & -> & E3 & E4 & Hinv' & Hoth & Hown & Hfl & Hfree).
  set (al := caches s c) in *. set (s1 := set_cache s c _) in *. cbn [spage with_pool s1 set_cache].
  pose proof (all_free_iff s C c pg Hinv Hc Hpg) as Hall.
  assert (Ec : caches (with_pool s1 a4) c = mk_cache (size al) (align al) (page_order al) rest).
  { cbn [caches with_pool s1 set_cache]. by rewrite fn_lookup_insert. }
  assert (Hlen' : length (slab_list (caches (with_pool s1 a4) c)) = n) by (rewrite Ec; simpl in Hlen |- *; lia).
  destruct (IH (with_pool s1 a4) Hinv' Hc Hlen') as [IH1 IH2].
  destruct (Z.eqb_spec (slab_free_count (spage s pg)) (slab_objs_count (spage s pg))) as [E | Hne].
  - rewrite E3. change (pool (with_pool s1 a3)) with a3. rewrite E4.
    change (with_pool (with_pool s1 a3) a4) with (with_pool s1 a4).
    pose proof (proj1 Hall E) as Hno. split.
    + intros Hnone. destruct IH1 as (s' & -> & H1 & H2 & H3 & H4 & H5).
      { intros x Hx. apply Hown in Hx as [Hx _]. by apply (Hnone x). }
      exists s'. split_and!; try done.
      * intros c' x Hc'. rewrite H3 by done. destruct (decide (c' = c)) as [-> |]; [| by apply Hoth].
        split; [intros Hx%Hown; tauto | intros Hx; by apply Hnone in Hx].
      * intros x Hx. apply H4. cbn [pool with_pool]. apply Hfree. by left.
      * rewrite Ec in H5. cbn [slab_list page_order] in H5. intros q x [-> | Hq]%elem_of_cons Hx; [| by apply (H5 q)].
        apply H4. cbn [pool with_pool]. apply Hfree. by right.
    + intros (x & Hx). apply IH2. exists x. apply Hown. split; [done |]. intros Ho. by apply (Hno x).
  - split; [| done]. intros Hnone. exfalso. apply Hne, Hall. intros x _. apply Hnone.
Qed.

(** ** Setting a cache up *)

Lemma set_cache_other s c al c' : c' <> c -> cache_ok s c' -> pb_inv (pool s) ->
  cache_ok (set_cache s c al) c' /\ forall x, in_use (set_cache s c al) c' x <-> in_use s c' x.
Proof.
  intros Hne D Hi. assert (G : grows every s (set_cache s c al)) by by split.
  assert (E : caches (set_cache s c al) c' = caches s c') by (cbn [caches set_cache]; by rewrite fn_lookup_insert_ne).
  split; [by apply (grows_cache every s) | intros x; by apply (grows_in_use every)].
Qed.

Lemma slab_init_spec s C c sz k : slab_inv s C -> ~ C c -> 0 < sz <= 2 ^ 24 -> 3 <= k <= 24 ->
  exists s' err, slab_init s c sz (2 ^ k) = Ret (s', err) /\ (err = 0 \/ err = - ENOMEM) /\
    slab_inv s' (fun c' => C c' \/ c' = c) /\
    align (caches s' c) = 2 ^ k /\ size (caches s' c) = (sz + 2 ^ k - 1) / 2 ^ k * 2 ^ k /\
    (forall c', c' <> c -> caches s' c' = caches s c') /\
    (forall c' x, C c' -> in_use s' c' x <-> in_use s c' x) /\ (forall x, ~ in_use s' c x) /\ keeps s s'.
Proof.
  intros [Hi HC] Hnew Hsz Hk. unfold slab_init. assert (H2k : 2 ^ 3 <= 2 ^ k <= 2 ^ 24) by (split; apply Z.pow_le_mono_r; lia).
  change (2 ^ 3) with 8 in H2k.
  destruct (Z.eqb_spec sz 0); [lia |]. destruct (Z.eqb_spec (2 ^ k) 0); [lia |]. cbn [orb].
  destruct (Z.ltb_spec (2 ^ k) 8); [lia |]. rewrite is_power_of_two_pow2 by lia.
  set (sz1 := if sz <? 8 then 8 else sz).
  assert (Hsz1 : sz <= sz1 <= 2 ^ 24 /\ 0 < sz1 /\ (sz1 + 2 ^ k - 1) / 2 ^ k = (sz + 2 ^ k - 1) / 2 ^ k).
  { unfold sz1. destruct (Z.ltb_spec sz 8); [| lia]. split_and!; try lia.
    rewrite <- (Z.div_unique_pos (8 + 2 ^ k - 1) (2 ^ k) 1 (8 - 1)), <- (Z.div_unique_pos (sz + 2 ^ k - 1) (2 ^ k) 1 (sz - 1)); lia. }
  destruct Hsz1 as (Hs1 & Hs0 & Hq). rewrite <- Hq.
  set (S := (sz1 + 2 ^ k - 1) / 2 ^ k * 2 ^ k).
  assert (Hru : (if is_aligned sz1 (2 ^ k) then sz1 else round_up sz1 (2 ^ k)) = S).
  { rewrite round_up_spec by lia. fold S. destruct (is_aligned sz1 (2 ^ k)) eqn:E; [| done].
    apply is_aligned_spec in E; [| lia]. unfold S. apply Z.mod_divide in E as [q ->]; [| lia].
    replace (q * 2 ^ k + 2 ^ k - 1) with (2 ^ k - 1 + q * 2 ^ k) by lia. rewrite Z.div_add, Z.div_small by lia. lia. }
  rewrite Hru.
  assert (HS : sz1 <= S <= 2 ^ 24).
  { split; unfold S.
    - pose proof (Z.div_mod (sz1 + 2 ^ k - 1) (2 ^ k) ltac:(lia)). pose proof (Z.mod_pos_bound (sz1 + 2 ^ k - 1) (2 ^ k) ltac:(lia)). lia.
    - assert ((sz1 + 2 ^ k - 1) / 2 ^ k <= 2 ^ (24 - k)).
      { apply Z.lt_succ_r, Z.div_lt_upper_bound; [lia |]. rewrite Z.mul_succ_r, <- Z.pow_add_r by lia. replace (k + (24 - k)) with 24 by lia. lia. }
      replace (2 ^ 24) with (2 ^ (24 - k) * 2 ^ k); [nia |]. rewrite <- Z.pow_add_r by lia. f_equal. lia. }
  set (al := mk_cache S (2 ^ k) (Buddy.page_order S) []). set (s1 := set_cache s c al).
  assert (Ec : caches s1 c = al) by (cbn [caches s1 set_cache]; by rewrite fn_lookup_insert).
  assert (Hinv1 : slab_inv s1 (fun c' => C c' \/ c' = c)).
  { split; [done |]. intros c' [Hc' | ->].
    - apply set_cache_other; [by intros -> | by apply HC | done].
    - split; rewrite Ec; [split; cbn [align size page_order al] | apply NoDup_nil_2 | intros pg Hpg; by apply elem_of_nil in Hpg].
      + exists k. split; [lia | done].
      + unfold S. apply Z.mod_mul. lia.
      + split; [lia |]. apply page_order_fits. lia.
      + apply page_order_bound. }
  destruct (add_page_spec s1 c (proj1 Hinv1) (proj2 Hinv1 c (or_intror eq_refl))) as (s' & err & Heq & _).
  rewrite Heq. exists s', err. split; [done |].
  destruct (add_page_inv s1 _ c s' err Hinv1 (or_intror eq_refl) Heq) as (Hinv' & G & Hu & Hsh & Hoth & Hhl & Hcase).
  destruct (Hsh c) as (Sh1 & Sh2 & _). rewrite Ec in Sh1, Sh2. split_and!; try done.
  - destruct Hcase as [[-> _] | [-> _]]; [by right | by left].
  - intros c' Hne. rewrite Hoth by done. cbn [caches s1 set_cache]. by rewrite fn_lookup_insert_ne.
  - intros c' x Hc'. rewrite Hu by (by left). apply set_cache_other; [by intros -> | by apply HC | done].
  - intros x Hx. apply Hu in Hx; [| by right]. destruct Hx as (pg & Hpg & _). rewrite Ec in Hpg. by apply elem_of_nil in Hpg.
  - apply (keeps_trans s s1); [by apply keeps_refl | by apply grows_keeps].
Qed.

(** ** kmalloc *)

Definition kcache (c : Z) : Prop := 0 <= c < NR_KMALLOC_ALLOCATORS.

(** A block that [kmalloc] took from the page allocator. *)
Definition kblock (s : slab_state) (q o : Z) : Prop :=
  pb_held (pool s) q o /\ exists d, pb_desc (pool s) q = Some d /\
    flags d = Z.lor PAGE_FLAGS_NEW_PAGE PAGE_FLAGS_KMALLOC /\ buddy_page_order d = o.

Definition kmem_inv (s : slab_state) : Prop :=
  slab_inv s kcache /\ forall i, kcache i -> size (caches s i) = Z.max 16 (2 ^ (3 + i)) /\ align (caches s i) = 16.

(** The allocations: [n] bytes from [p] on. *)
Definition live (s : slab_state) (p n : Z) : Prop :=
  (exists c, kcache c /\ in_use s c p /\ n = size (caches s c)) \/
  (exists q o, kblock s q o /\ p = va q /\ n = 2 ^ (12 + o)).

(** Where an allocation lies: in one held block. *)
Lemma live_block s p n : kmem_inv s -> live s p n ->
  exists q o, pb_held (pool s) q o /\ va q <= p /\ p + n <= va (q + 2 ^ o) /\ 0 < n /\
    ((exists c, kcache c /\ q ∈ slab_list (caches s c) /\ o = page_order (caches s c) /\
        is_obj (caches s c) q p /\ in_use s c p /\ n = size (caches s c)) \/
     (kblock s q o /\ p = va q /\ n = 2 ^ (12 + o))).
Proof.
  intros [[Hi HC] _] [(c & Hc & Hu & ->) | (q & o & Hk & -> & ->)].
  - pose proof Hu as (pg & Hpg & Ho & Hf). pose proof (HC c Hc) as D. pose proof (co_wf _ _ D) as W.
    pose proof (obj_bounds _ _ _ W Ho). pose proof (wf_size _ W).
    exists pg, (page_order (caches s c)). split_and!; try lia; [by apply D |]. left. exists c. done.
  - exists q, o. destruct Hk as [Hh Hd]. destruct (pb_held_ok _ _ _ Hi Hh) as (Hor & _ & _ & _ & _).
    unfold PAGE_ORDER_MAX in Hor. split_and!; try done; try lia.
    + unfold va. rewrite Z.pow_add_r by lia. lia.
    + right. done.
Qed.

Lemma slab_not_kblock s c q o : cache_ok s c -> q ∈ slab_list (caches s c) -> ~ kblock s q o.
Proof.
  intros D Hq [_ (d & Hd & Hf & _)]. destruct (po_head _ _ _ (co_page _ _ D _ Hq)) as (d' & Hd' & Hf').
  rewrite Hd in Hd'. simplify_eq. rewrite Hf in Hf'. done.
Qed.

(** Allocations do not overlap. *)
Lemma live_apart s p n p' n' : kmem_inv s -> live s p n -> live s p' n' ->
  (p = p' /\ n = n') \/ p + n <= p' \/ p' + n' <= p.
Proof.
  intros Hinv L1 L2. pose proof Hinv as [[Hi HC] _].
  destruct (live_block s p n Hinv L1) as (q & o & Hh & B1 & B2 & Hn & K1).
  destruct (live_block s p' n' Hinv L2) as (q' & o' & Hh' & B1' & B2' & Hn' & K2).
  destruct (decide (q = q' /\ o = o')) as [[<- <-] | Hne].
  2: { destruct (held_apart (pool s) q o q' o') as [E%va_le | E%va_le]; try done; lia. }
  destruct K1 as [(c & Hc & Hq & -> & Ho & Hu & ->) | (Hk & -> & ->)],
    K2 as [(c' & Hc' & Hq' & E' & Ho' & Hu' & ->) | (Hk' & -> & ->)].
  - destruct (decide (c = c' /\ p = p')) as [[<- <-] | Hne]; [by left | right].
    apply (objs_apart s c c' q q); auto.
  - exfalso. by apply (slab_not_kblock s c q (page_order (caches s c)) (HC c Hc) Hq).
  - exfalso. by apply (slab_not_kblock s c' q o (HC c' Hc') Hq').
  - by left.
Qed.

Lemma index_spec sz : 0 < sz -> sz <= 4096 ->
  kcache (kmalloc_allocator_index sz) /\ sz <= 2 ^ (3 + kmalloc_allocator_index sz).
Proof.
  intros H0 H1. unfold kmalloc_allocator_index, kcache, NR_KMALLOC_ALLOCATORS.
  repeat match goal with |- context [sz <=? ?b] => destruct (Z.leb_spec sz b); [split; [lia | simpl; lia] |] end. lia.
Qed.

Lemma index_none sz : 4096 < sz -> kmalloc_allocator_index sz = -1.
Proof.
  intros H. unfold kmalloc_allocator_index.
  repeat match goal with |- context [sz <=? ?b] => destruct (Z.leb_spec sz b); [lia |] end. done.
Qed.

(** A block of any cache or of kmalloc survives whatever leaves it alone. *)
Lemma keeps_kblock s s' q o : pb_inv (pool s) -> keeps s s' -> kblock s q o -> kblock s' q o.
Proof.
  intros Hi K [Hh (d & Hd & H)]. destruct (pb_held_ok _ _ _ Hi Hh) as (Ho & _ & _ & _ & _).
  split; [by apply K |]. exists d. rewrite (kp_desc _ _ K q o); [done | done | apply blk_head; lia].
Qed.

Lemma in_use_not_block s c x q o : kmem_inv s -> kcache c -> in_use s c x -> kblock s q o -> x <> va q.
Proof.
  intros Hinv Hc (pg & Hpg & Ho & _) Hk ->. pose proof Hinv as [[Hi HC] _]. pose proof (HC c Hc) as D.
  pose proof (obj_bounds _ _ _ (co_wf _ _ D) Ho) as Hb. pose proof (wf_size _ (co_wf _ _ D)) as Hs.
  destruct (pb_held_ok _ _ _ Hi (proj1 Hk)) as (Hor & _ & _ & _ & _). unfold PAGE_ORDER_MAX in Hor.
  destruct (decide (q = pg /\ o = page_order (caches s c))) as [[-> _] | Hne]; [by apply (slab_not_kblock s c pg o) |].
  destruct (held_apart (pool s) q o pg (page_order (caches s c))) as [E%va_le | E%va_le]; try done; [apply Hk | by apply D | |];
    unfold va in *; lia.
Qed.

Lemma in_use_unique s c c' x : kmem_inv s -> kcache c -> kcache c' -> in_use s c x -> in_use s c' x -> c = c'.
Proof.
  intros [[Hi HC] _] Hc Hc' (q & Hq & Ho & _) (q' & Hq' & Ho' & _). destruct (decide (c = c')) as [| Hne]; [done |].
  pose proof (wf_size _ (co_wf _ _ (HC c Hc))). pose proof (wf_size _ (co_wf _ _ (HC c' Hc'))).
  destruct (objs_apart s c c' q q' x x) as [E | E]; auto; try lia; tauto.
Qed.

(** The allocation [p], [n] that a call hands out. *)
Record hands_memory (s s' : slab_state) (p n : Z) : Prop := {
  hm_pos : 0 < p;
  hm_align : p mod 16 = 0;
  hm_live : forall p' n', live s' p' n' <-> live s p' n' \/ (p' = p /\ n' = n);
  hm_apart : forall p' n', live s p' n' -> p + n <= p' \/ p' + n' <= p
}.

Lemma kmalloc_slab s i : kmem_inv s -> kcache i ->
  exists s' r, slab_alloc s i = Ret (s', r) /\ kmem_inv s' /\ keeps s s' /\
    match r with
    | None => forall p n, live s' p n <-> live s p n
    | Some p => hands_memory s s' p (size (caches s i))
    end.
Proof.
  intros Hinv Hi. pose proof Hinv as [Hs Hsz].
  destruct (slab_alloc_spec s kcache i Hs Hi) as (s' & r & -> & Hs' & K & Hsh & Hhl & Hr).
  assert (Hinv' : kmem_inv s').
  { split; [done |]. intros c Hc. destruct (Hsh c) as (-> & -> & _). by apply Hsz. }
  exists s', r. split_and!; try done.
  assert (Hkb : forall q o, kblock s' q o <-> kblock s q o).
  { intros q o. split; [| apply keeps_kblock; [apply Hs | done]]. intros Hk. pose proof Hk as [Hh (d & Hd & Hf)].
    destruct (Hhl q o Hh) as [Hq | Hq]; [| exfalso; apply (slab_not_kblock s' i q o); [by apply Hs' | done | done]].
    split; [done |]. exists d. destruct (pb_held_ok _ _ _ (proj1 Hs) Hq) as (Ho & _ & _ & _ & _).
    rewrite <- (kp_desc _ _ K q o q Hq); [done | apply blk_head; lia]. }
  destruct r as [obj |].
  - destruct Hr as [R1 R2 R3 R4]. destruct (Hsz i Hi) as [_ Hal].
    assert (Hlive : forall p n, live s' p n <-> live s p n \/ (p = obj /\ n = size (caches s i))).
    { intros p n. unfold live. setoid_rewrite Hkb. split.
      - intros [(c & Hc & Hu & ->) | Hk]; [| tauto]. destruct (Hsh c) as (-> & _).
        apply (R4 c p Hc) in Hu as [Hu | [-> ->]]; [left; left; by exists c | by right].
      - intros [[(c & Hc & Hu & ->) | Hk] | [-> ->]]; [| tauto |]; left; [exists c | exists i];
          (split_and!; [done | apply R4; tauto |]); [destruct (Hsh c) as (-> & _) | destruct (Hsh i) as (-> & _)]; done. }
    split; try done; [by rewrite <- Hal |]. intros p' n' Hl.
    assert (Hu : in_use s' i obj) by (apply R4; tauto).
    destruct (live_apart s' obj (size (caches s i)) p' n' Hinv') as [[<- <-] | H]; [apply Hlive; tauto | apply Hlive; tauto | | done].
    exfalso. destruct Hl as [(c & Hc & Hc' & _) | (q & o & Hk & E & _)].
    + assert (c = i) as ->; [| done]. apply (in_use_unique s' c i obj); try done. apply R4; tauto.
    + apply (in_use_not_block s' i obj q o); try done. by apply Hkb.
  - destruct Hr as [R _]. intros p n. unfold live. setoid_rewrite Hkb. split.
    + intros [(c & Hc & Hu & ->) | Hk]; [left | by right]. apply (R c p Hc) in Hu. exists c. split_and!; try done.
      by destruct (Hsh c) as (-> & _).
    + intros [(c & Hc & Hu & ->) | Hk]; [left | by right]. exists c. split_and!; [done | by apply R |]. by destruct (Hsh c) as (-> & _).
Qed.

(** A new block, marked by kmalloc. *)
Lemma alloc_mark_spec s o : pb_inv (pool s) -> 0 < o <= 12 ->
  exists a r, pb_alloc (pool s) o = Ret (a, r) /\
    match r with
    | None => grows every s (with_pool s a) /\ forall q o', pb_held a q o' <-> pb_held (pool s) q o'
    | Some pg => exists a', kmalloc_mark_block (with_pool s a) pg o = Ret (with_pool s a') /\
        grows every s (with_pool s a') /\ kblock (with_pool s a') pg o /\ ~ pb_held (pool s) pg o /\
        forall q o', pb_held a' q o' <-> pb_held (pool s) q o' \/ (q = pg /\ o' = o)
    end.
Proof.
  intros Hi Ho. destruct (pb_alloc_ok (pool s) o Hi) as (a & r & Heq & Hi1 & Hd1 & Hr); [unfold PAGE_ORDER_MAX; lia |].
  exists a, r. split; [done |]. destruct r as [pg |].
  2: { split; [| done]. split; try done; [intros q o' _; apply Hr | intros q o' x _ Hq Hx; by apply (Hd1 q o')]. }
  destruct Hr as (Hheld & Hnew & d0 & Hd0 & Hf0). assert (Hh1 : pb_held a pg o) by (apply Hheld; by right).
  unfold kmalloc_mark_block. rewrite shiftl_order by lia.
  destruct (kmark_loop_spec pg o o (Z.to_nat (2 ^ o)) (with_pool s a) pg) as (a' & -> & U); try done; try lia.
  rewrite Z2Nat.id in U by lia. cbn [pool with_pool] in U. exists a'. split_and!; [done | | | done |].
  - split; cbn [pool with_pool spage words]; try done.
    + apply U.
    + intros q o' _ Hq. apply U, Hheld. by left.
    + intros q o' x _ Hq Hx. rewrite (up_desc _ _ _ _ _ U), decide_False; [by apply (Hd1 q o') |]. intros Hx'.
      destruct (pb_disjoint a q o' pg o x) as [-> ->]; try done. apply Hheld; by left.
  - split; [by apply U |]. exists (kmark o d0). cbn [pool with_pool]. rewrite (up_desc _ _ _ _ _ U), decide_True, Hd0 by lia.
    split; [done |]. unfold kmark. cbn [flags buddy_page_order]. by rewrite Hf0.
  - intros q o'. cbn [pool with_pool]. rewrite (up_held _ _ _ _ _ U), Hheld. done.
Qed.

Lemma grows_kmem s a : kmem_inv s -> grows every s (with_pool s a) -> kmem_inv (with_pool s a) /\
  forall c x, kcache c -> in_use (with_pool s a) c x <-> in_use s c x.
Proof.
  intros [[Hi HC] Hsz] G. split; [split; [split; [apply G |] | done] |].
  - intros c Hc. apply (grows_cache every s); auto. done.
  - intros c x Hc. apply (grows_in_use every); auto. done.
Qed.

Lemma va_align q : va q mod 16 = 0.
Proof. unfold va, PAGE_OFFSET. zdm. Qed.

Lemma kmalloc_block s sz a p : pb_inv (pool s) -> 4096 < sz -> pb_alloc (pool s) (Buddy.page_order sz) = Ret (a, Some p) ->
  exists s', kmalloc s sz = Ret (s', Some (page_to_virt p)).
Proof.
  intros Hi Hsz Hal. assert (Ho : 0 < Buddy.page_order sz <= 12).
  { pose proof (page_order_bound sz). pose proof (page_order_pos sz Hsz). lia. }
  destruct (alloc_mark_spec s _ Hi Ho) as (a1 & r & Heq & Hr). rewrite Hal in Heq. injection Heq as <- <-.
  destruct Hr as (a' & Hmk & _). exists (with_pool s a'). unfold kmalloc.
  destruct (Z.eqb_spec sz 0); [lia |]. rewrite (index_none sz Hsz). change (0 <=? -1) with false. cbv iota zeta.
  rewrite Hal. destruct (Z.ltb_spec 0 (Buddy.page_order sz)); [| lia]. by rewrite Hmk.
Qed.

(** [kmalloc] of any size: [n] is what the caller really gets. *)
Lemma kmalloc_spec s sz : kmem_inv s -> 0 < sz ->
  exists s' r, kmalloc s sz = Ret (s', r) /\ kmem_inv s' /\ keeps s s' /\
    match r with
    | None => forall p n, live s' p n <-> live s p n
    | Some p => exists n, hands_memory s s' p n /\
        n = (if sz <=? 4096 then size (caches s (kmalloc_allocator_index sz)) else 2 ^ (12 + Buddy.page_order sz))
    end.
Proof.
  intros Hinv Hsz. unfold kmalloc. destruct (Z.eqb_spec sz 0) as [| _]; [lia |]. destruct (Z.leb_spec sz 4096) as [Hle | Hgt].
  { destruct (index_spec sz Hsz Hle) as [Hi _]. destruct (Z.leb_spec 0 (kmalloc_allocator_index sz)); [| unfold kcache in Hi; lia].
    destruct (kmalloc_slab s _ Hinv Hi) as (s' & r & -> & H1 & H2 & H3). exists s', r. split_and!; try done. destruct r; eauto. }
  rewrite (index_none sz Hgt). change (0 <=? -1) with false. cbv iota.
  assert (Ho : 0 < Buddy.page_order sz <= 12).
  { pose proof (page_order_bound sz). pose proof (page_order_pos sz Hgt). lia. }
  pose proof Hinv as [[Hi HC] _].
  destruct (alloc_mark_spec s (Buddy.page_order sz) Hi Ho) as (a & r & -> & Hr). destruct r as [pg |].
  - destruct Hr as (a' & Hmk & G & Hkb & Hnew & Hheld). destruct (Z.ltb_spec 0 (Buddy.page_order sz)); [| lia]. rewrite Hmk.
    destruct (grows_kmem s a' Hinv G) as [Hinv' Hu]. pose proof Hinv' as [[Hi' _] _].
    destruct (pb_held_ok _ _ _ Hi' (proj1 Hkb)) as (_ & Hp0 & _ & Hpe & _).
    assert (0 < 2 ^ Buddy.page_order sz) by lia. rewrite page_to_virt_va by lia.
    eexists _, _. split; [reflexivity |]. split_and!; [done | by apply grows_keeps |]. exists (2 ^ (12 + Buddy.page_order sz)).
    split; [| done].
    assert (Hk' : forall q o, kblock (with_pool s a') q o <-> kblock s q o \/ (q = pg /\ o = Buddy.page_order sz)).
    { intros q o. split.
      - intros [Hh (d & Hd & Hf)]. apply Hheld in Hh as [Hq | ?]; [left | by right]. split; [done |]. exists d.
        rewrite <- (gr_desc _ _ _ G q o q); try done. destruct (pb_held_ok _ _ _ Hi Hq) as (Hoo & _). apply blk_head; lia.
      - intros [Hk | [-> ->]]; [| done]. apply (keeps_kblock s); [done | by apply grows_keeps | done]. }
    assert (Hlive : forall p n, live (with_pool s a') p n <-> live s p n \/ (p = va pg /\ n = 2 ^ (12 + Buddy.page_order sz))).
    { intros p n. unfold live. setoid_rewrite Hk'. cbn [caches with_pool]. split.
      - intros [(c & Hc & Hx & ->) | (q & o & [Hk | [-> ->]] & -> & ->)]; [| left; right; eauto | by right].
        left. left. exists c. done.
      - intros [[(c & Hc & Hx & ->) | (q & o & Hk & -> & ->)] | [-> ->]];
          [left; exists c; split_and!; done | right; exists q, o; tauto | right; do 2 eexists; split; [right |]; done]. }
    split; [unfold va, PAGE_OFFSET; lia | apply va_align | done |]. intros p' n' Hl.
    destruct (live_block s p' n' Hinv Hl) as (q & o & Hh & B1 & B2 & Hn & _).
    assert (Hne : ~ (pg = q /\ Buddy.page_order sz = o)).
    { by intros [<- <-]. }
    destruct (held_apart a' pg (Buddy.page_order sz) q o) as [E%va_le | E%va_le]; try done; [apply Hkb | apply Hheld; by left | |].
    + left. unfold va in *. rewrite Z.pow_add_r by lia. lia.
    + right. lia.
  - destruct Hr as [G Hheld]. destruct (grows_kmem s a Hinv G) as [Hinv' Hu]. eexists _, _. split; [reflexivity |].
    split_and!; [done | by apply grows_keeps |]. intros p n. unfold live. cbn [caches with_pool].
    assert (Hk' : forall q o, kblock (with_pool s a) q o <-> kblock s q o).
    { intros q o. split; [| apply keeps_kblock; [done | by apply grows_keeps]]. intros [Hh (d & Hd & Hf)].
      apply Hheld in Hh. split; [done |]. exists d. rewrite <- (gr_desc _ _ _ G q o q); try done.
      destruct (pb_held_ok _ _ _ Hi Hh) as (Hoo & _). apply blk_head; lia. }
    setoid_rewrite Hk'. split; (intros [(c & Hc & Hx & ->) | Hk]; [left | by right]); exists c; split_and!; done.
Qed.

(** What giving [p] back amounts to. *)
Record takes_back (s s' : slab_state) (p : Z) : Prop := {
  tb_inv : kmem_inv s';
  tb_live : forall p' n', live s' p' n' <-> live s p' n' /\ p' <> p;
  tb_words : forall p' n' w, live s' p' n' -> p' <= w < p' + n' -> words s' w = words s w
}.

Lemma kfree_object s c p : kmem_inv s -> kcache c -> in_use s c p ->
  exists s', slab_free s c p = Ret s' /\ takes_back s s' p.
Proof.
  intros Hinv Hc Hu. pose proof Hinv as [Hs Hsz].
  destruct (slab_free_spec s kcache c p Hs Hc Hu) as (s' & -> & Hs' & Ep & Ec & Hw & Hin). exists s'. split; [done |].
  assert (Hlive : forall p' n', live s' p' n' <-> live s p' n' /\ p' <> p).
  { intros p' n'. unfold live, kblock. rewrite Ep, Ec. split.
    - intros [(c' & Hc' & Hu' & ->) | (q & o & Hk & -> & ->)].
      + apply (Hin c' p' Hc') in Hu' as [Hu' Hne]. split; [left; by exists c' |]. intros ->. apply Hne. split; [| done].
        by apply (in_use_unique s c' c p).
      + split; [right; by exists q, o |]. intros E. by apply (in_use_not_block s c p q o).
    - intros [[(c' & Hc' & Hu' & ->) | Hk] Hne]; [left | by right]. exists c'. split_and!; try done. apply Hin; [done |]. split; [done | tauto]. }
  split; [split; [done |]; by rewrite Ec | done |].
  intros p' n' w Hl Hw'. apply Hw. intros ->. apply Hlive in Hl as [Hl Hne].
  assert (Hl0 : live s p (size (caches s c))) by (left; by exists c).
  destruct (live_block s p _ Hinv Hl0) as (_ & _ & _ & _ & _ & Hn & _).
  destruct (live_apart s p (size (caches s c)) p' n' Hinv Hl0 Hl) as [[<- _] | [? | ?]]; [done | lia | lia].
Qed.

Lemma block_head q o : 0 <= q < 2 ^ 64 -> 0 <= o <= 12 -> q mod 2 ^ o = 0 -> kmalloc_block_head q o = q.
Proof.
  intros Hq Ho Hal. unfold kmalloc_block_head. rewrite Z.shiftl_1_l, u64_small.
  - rewrite land_align_down by lia. pose proof (Z.div_mod q (2 ^ o) ltac:(lia)). lia.
  - assert (2 ^ o <= 2 ^ 12) by (apply Z.pow_le_mono_r; lia). lia.
Qed.

Lemma kfree_spec s p n : kmem_inv s -> live s p n -> exists s', kfree s p = Ret s' /\ takes_back s s' p.
Proof.
  intros Hinv Hl. pose proof Hinv as [[Hi HC] Hsz].
  destruct (live_block s p n Hinv Hl) as (q & o & Hh & B1 & B2 & Hn & Hcase).
  destruct (pb_held_ok _ _ _ Hi Hh) as (Ho & Hq0 & Hqal & Hqe & _). unfold PAGE_ORDER_MAX in Ho.
  unfold kfree. destruct (Z.eqb_spec p 0) as [-> | _]; [unfold va, PAGE_OFFSET in B1; lia |].
  destruct Hcase as [(c & Hc & Hq & -> & Hobj & Hu & ->) | (Hk & -> & ->)].
  - set (x := q + (p - va q) / 4096). assert (Hx : blk q (page_order (caches s c)) x /\ p = va x + (p - va q) mod 4096).
    { unfold x, blk, va in *. pose proof (Z.div_mod (p - (PAGE_OFFSET + 4096 * q)) 4096 ltac:(lia)).
      pose proof (Z.div_pos (p - (PAGE_OFFSET + 4096 * q)) 4096 ltac:(lia) ltac:(lia)).
      pose proof (Z.mod_pos_bound (p - (PAGE_OFFSET + 4096 * q)) 4096 ltac:(lia)). lia. }
    destruct Hx as [Hx Ep]. pose proof (virt_to_page_va x ((p - va q) mod 4096)) as Hv. rewrite <- Ep in Hv.
    rewrite Hv by (unfold blk in Hx; try apply Z.mod_pos_bound; lia). clearbody x.
    destruct (po_mark _ _ _ (co_page _ _ (HC c Hc) _ Hq) x Hx) as [Hsc (d & Hd & Hf)].
    unfold get_desc. rewrite Hd, Hf, Hsc. by apply kfree_object.
  - assert (0 < 2 ^ o) by lia. pose proof (virt_to_page_va q 0 ltac:(lia) ltac:(lia)) as Hv. rewrite Z.add_0_r in Hv. rewrite Hv.
    pose proof Hk as [_ (d & Hd & Hf & Hord)]. unfold get_desc at 1. rewrite Hd, Hf, Hord.
    change (has (Z.lor PAGE_FLAGS_NEW_PAGE PAGE_FLAGS_KMALLOC) PAGE_FLAGS_SLAB) with false.
    change (has (Z.lor PAGE_FLAGS_NEW_PAGE PAGE_FLAGS_KMALLOC) PAGE_FLAGS_KMALLOC) with true. cbv iota.
    rewrite block_head by (done || lia). unfold get_desc at 1. rewrite Hd, Hf, Hord.
    change (has (Z.lor PAGE_FLAGS_NEW_PAGE PAGE_FLAGS_KMALLOC) PAGE_FLAGS_HEAD) with true. cbv iota.
    destruct (release_spec s q o 4 d) as (a1 & a2 & E1 & Hd1 & E2 & G & Hh2 & _); try done; [by right |].
    unfold kmalloc_unmark_block. change PAGE_FLAGS_KMALLOC with (2 ^ 4). rewrite E1. unfold get_desc. cbn [pool with_pool]. rewrite Hd1.
    cbn [clear_flag buddy_page_order]. rewrite Hord, E2. eexists. split; [reflexivity |].
    change (with_pool (with_pool s a1) a2) with (with_pool s a2).
    assert (HP : forall c, kcache c -> within (other_than q o) s c).
    { intros c Hc pg Hpg [-> _]. by apply (slab_not_kblock s c q o (HC c Hc) Hpg). }
    assert (Hk' : forall q' o', kblock (with_pool s a2) q' o' <-> kblock s q' o' /\ ~ (q' = q /\ o' = o)).
    { intros q' o'. split.
      - intros [Hx (d' & Hd' & Hf')]. apply Hh2 in Hx as [Hx Hne]. split; [| done]. split; [done |]. exists d'.
        rewrite <- (gr_desc _ _ _ G q' o' q'); try done. destruct (pb_held_ok _ _ _ Hi Hx) as (? & _). apply blk_head; lia.
      - intros [[Hx (d' & Hd' & Hf')] Hne]. split; [by apply Hh2 |]. exists d'.
        rewrite (gr_desc _ _ _ G q' o' q'); try done. destruct (pb_held_ok _ _ _ Hi Hx) as (? & _). apply blk_head; lia. }
    assert (Hlive : forall p' n', live (with_pool s a2) p' n' <-> live s p' n' /\ p' <> va q).
    { intros p' n'. unfold live. setoid_rewrite Hk'. cbn [caches with_pool]. split.
      - intros [(c & Hc & Hu & ->) | (q' & o' & [Hx Hne] & -> & ->)].
        + split; [left; by exists c |]. by apply (in_use_not_block s c p' q o).
        + split; [right; by exists q', o' |]. intros E. assert (q' = q) as -> by (unfold va in E; lia). apply Hne.
          split; [done |]. destruct Hx as [_ (d1 & H1 & _ & H2)]. rewrite Hd in H1. by simplify_eq.
      - intros [[(c & Hc & Hu & ->) | (q' & o' & Hx & -> & ->)] Hne]; [left; by exists c | right].
        exists q', o'. split_and!; try done. by intros [-> _]. }
    split; [| done | done].
    split; [split; [apply G |] | done]. intros c Hc. apply (grows_cache (other_than q o) s); auto.
Qed.

(** ** Using the memory *)

(** A word of an allocation is not a link of a free list. *)
Lemma live_not_free s p n w c q : kmem_inv s -> live s p n -> p <= w < p + n -> kcache c -> q ∈ slab_list (caches s c) ->
  w ∉ free_list s q.
Proof.
  intros Hinv Hl Hw Hc Hq Hin. pose proof Hinv as [[Hi HC] _]. pose proof (HC c Hc) as D. pose proof (co_page _ _ D _ Hq) as P.
  pose proof (po_free _ _ _ P _ Hin) as Hobj. pose proof (obj_bounds _ _ _ (co_wf _ _ D) Hobj) as Hb.
  pose proof (wf_size _ (co_wf _ _ D)) as Hs.
  destruct Hl as [(c' & Hc' & (q' & Hq' & Ho' & Hf') & ->) | (b & o & Hk & -> & ->)].
  - destruct (decide (c' = c /\ p = w)) as [[-> ->] | Hne].
    + apply Hf'. assert (q' = q) as -> by (by apply (obj_page_unique s kcache c q' q w)). done.
    + destruct (objs_apart s c' c q' q p w) as [E | E]; auto; lia.
  - destruct (pb_held_ok _ _ _ Hi (proj1 Hk)) as (Ho & _ & _ & _ & _). unfold PAGE_ORDER_MAX in Ho.
    destruct (decide (b = q /\ o = page_order (caches s c))) as [[-> _] | Hne]; [by apply (slab_not_kblock s c q o) |].
    rewrite Z.pow_add_r in Hw by lia. change (2 ^ 12) with 4096 in Hw.
    destruct (held_apart (pool s) b o q (page_order (caches s c))) as [E%va_le | E%va_le]; try done; [apply Hk | apply P | |];
      unfold va in *; lia.
Qed.

Lemma store_live s p n w v : kmem_inv s -> live s p n -> p <= w < p + n ->
  kmem_inv (store s w v) /\ forall p' n', live (store s w v) p' n' <-> live s p' n'.
Proof.
  intros Hinv Hl Hw. pose proof Hinv as [[Hi HC] Hsz].
  assert (Hfl : forall c q, kcache c -> q ∈ slab_list (caches s c) -> free_list (store s w v) q = free_list s q).
  { intros c q Hc Hq. unfold free_list. cbn [spage store words]. apply walk_ext. intros x Hx.
    apply fn_lookup_insert_ne. intros ->. by apply (live_not_free s p n x c q). }
  split.
  - split; [split; [done |] | done]. intros c Hc. pose proof (HC c Hc) as D. split; [apply D | apply D |].
    intros q Hq. pose proof (co_page _ _ D _ Hq) as P.
    apply (page_ok_touch s); [done | done | done | apply P | | | done]; rewrite (Hfl c) by done; apply P.
  - intros p' n'. unfold live. split; (intros [(c & Hc & (q & Hq & Ho & Hf) & ->) | Hk]; [left | by right]);
      exists c; (split_and!; [done | exists q; split_and!; [done | done |] | done]).
    + by rewrite <- (Hfl c).
    + by rewrite (Hfl c).
Qed.

Lemma zero_words_spec (n : nat) : forall s p m a, kmem_inv s -> live s p m -> p <= a -> a + 8 * Z.of_nat n <= p + m ->
  let s' := zero_words s a n in
  kmem_inv s' /\ (forall p' n', live s' p' n' <-> live s p' n') /\
  (forall i : nat, (i < n)%nat -> words s' (a + 8 * Z.of_nat i) = 0) /\
  (forall w, (w < a \/ a + 8 * Z.of_nat n <= w) -> words s' w = words s w).
Proof.
  induction n as [| n IH]; intros s p m a Hinv Hl Ha He; cbn [zero_words]; cbv zeta.
  { split_and!; try done. intros i Hi; lia. }
  destruct (store_live s p m a 0 Hinv Hl) as [Hinv1 Hl1]; [lia |].
  destruct (IH (store s a 0) p m (a + 8)) as (H1 & H2 & H3 & H4); [done | by apply Hl1 | lia | lia |]. split_and!; try done.
  - intros p' n'. by rewrite H2.
  - intros [| i] Hi.
    + change (8 * Z.of_nat 0) with 0. rewrite Z.add_0_r, H4 by lia. cbn [words store]. by rewrite fn_lookup_insert.
    + replace (a + 8 * Z.of_nat (S i)) with (a + 8 + 8 * Z.of_nat i) by lia. apply H3. lia.
  - intros w Hw. rewrite H4 by lia. cbn [words store]. by rewrite fn_lookup_insert_ne by lia.
Qed.

Lemma memset_zero_spec s p m bytes : kmem_inv s -> live s p m -> 0 <= bytes <= m ->
  let s' := memset_zero s p bytes in
  kmem_inv s' /\ (forall p' n', live s' p' n' <-> live s p' n') /\
  (forall i, 0 <= i -> 8 * i + 8 <= bytes -> words s' (p + 8 * i) = 0) /\
  (forall i, 0 <= i -> 8 * i < bytes < 8 * i + 8 -> words s' (p + 8 * i) mod 2 ^ (8 * (bytes mod 8)) = 0) /\
  (forall w, (w < p \/ p + bytes <= w) -> words s' w = words s w).
Proof.
  intros Hinv Hl Hb. cbv zeta. unfold memset_zero. pose proof (Z.div_mod bytes 8 ltac:(lia)) as Hdm.
  pose proof (Z.mod_pos_bound bytes 8 ltac:(lia)) as Hm. pose proof (Z.div_pos bytes 8 ltac:(lia) ltac:(lia)) as Hd.
  destruct (zero_words_spec (Z.to_nat (bytes / 8)) s p m p) as (H1 & H2 & H3 & H4); [done | done | lia | lia |].
  rewrite Z2Nat.id in H4 by lia. set (s1 := zero_words s p (Z.to_nat (bytes / 8))) in *.
  assert (Hfull : forall i, 0 <= i -> 8 * i + 8 <= bytes -> words s1 (p + 8 * i) = 0).
  { intros i Hi Hi'. rewrite <- (H3 (Z.to_nat i)) by lia. by rewrite Z2Nat.id by lia. }
  destruct (Z.eqb_spec (8 * (bytes mod 8)) 0) as [E | Hne].
  - split_and!; try done; [intros i Hi Hi'; lia |]. intros w Hw. apply H4. lia.
  - destruct (store_live s1 p m (p + bytes / 8 * 8) (words s1 (p + bytes / 8 * 8) / 2 ^ (8 * (bytes mod 8)) * 2 ^ (8 * (bytes mod 8)))) as [G1 G2];
      [done | by apply H2 | lia |]. split_and!.
    + done.
    + intros p' n'. by rewrite G2.
    + intros i Hi Hi'. cbn [words store]. rewrite fn_lookup_insert_ne by lia. by apply Hfull.
    + intros i Hi Hi'. replace (p + 8 * i) with (p + bytes / 8 * 8) by lia. cbn [words store]. rewrite fn_lookup_insert.
      apply Z.mod_mul. lia.
    + intros w Hw. cbn [words store]. rewrite fn_lookup_insert_ne by lia. apply H4. lia.
Qed.

(** ** Any use of the heap *)

(** [kmalloc] of up to 16 MiB gives at least what was asked for. *)
Lemma kmalloc_fits s sz : kmem_inv s -> 0 < sz <= 2 ^ 24 ->
  sz <= (if sz <=? 4096 then size (caches s (kmalloc_allocator_index sz)) else 2 ^ (12 + Buddy.page_order sz)).
Proof.
  intros [_ Hc] Hsz. destruct (Z.leb_spec sz 4096) as [Hle | Hgt]; [| apply page_order_fits; lia].
  destruct (index_spec sz ltac:(lia) Hle) as [Hi Hfit]. destruct (Hc _ Hi) as [-> _]. lia.
Qed.

Lemma keeps_live_words s s' p n w : kmem_inv s -> keeps s s' -> live s p n -> p <= w < p + n -> words s' w = words s w.
Proof.
  intros Hinv K Hl Hw. destruct (live_block s p n Hinv Hl) as (q & o & Hh & B1 & B2 & _).
  apply (kp_words _ _ K q o); [done | lia].
Qed.

(** What an allocation of [sz] bytes amounts to, when it succeeds and when it
    does not. *)
Definition allocates (s s' : slab_state) (sz : Z) (r : option Z) : Prop :=
  kmem_inv s' /\ (forall p n w, live s p n -> p <= w < p + n -> words s' w = words s w) /\
  match r with
  | None => forall p n, live s' p n <-> live s p n
  | Some p => exists n, sz <= n /\ hands_memory s s' p n
  end.

Lemma kmalloc_allocates s sz : kmem_inv s -> 0 < sz <= 2 ^ 24 ->
  exists s' r, kmalloc s sz = Ret (s', r) /\ allocates s s' sz r.
Proof.
  intros Hinv Hsz. destruct (kmalloc_spec s sz Hinv) as (s' & r & -> & H1 & K & H2); [lia |].
  exists s', r. split; [done |]. split_and!; [done | intros; by eapply keeps_live_words |].
  destruct r as [p |]; [| done]. destruct H2 as (n & H2 & ->). eexists. split; [| exact H2]. by apply kmalloc_fits.
Qed.

(** [kcalloc], whose product does not overflow. *)
Lemma kcalloc_allocates s nmemb sz : kmem_inv s -> 0 < nmemb -> 0 < sz -> nmemb * sz <= 2 ^ 24 ->
  exists s' r, kcalloc s nmemb sz = Ret (s', r) /\ allocates s s' (nmemb * sz) r /\
    forall p, r = Some p ->
      (forall i, 0 <= i -> 8 * i + 8 <= nmemb * sz -> words s' (p + 8 * i) = 0) /\
      (forall i, 0 <= i -> 8 * i < nmemb * sz < 8 * i + 8 -> words s' (p + 8 * i) mod 2 ^ (8 * ((nmemb * sz) mod 8)) = 0).
Proof.
  intros Hinv Hn Hs Hfit. unfold kcalloc, UINT64_MAX. destruct (Z.eqb_spec nmemb 0) as [| _]; [lia |]. cbn [negb andb].
  pose proof (Z.div_mod (2 ^ 64 - 1) nmemb ltac:(lia)) as Hdm. pose proof (Z.mod_pos_bound (2 ^ 64 - 1) nmemb ltac:(lia)) as Hmb.
  destruct (Z.ltb_spec ((2 ^ 64 - 1) / nmemb) sz) as [Hx | _]; [nia |]. assert (Hpos : 0 < nmemb * sz) by nia.
  rewrite u64_small by lia. destruct (kmalloc_allocates s (nmemb * sz) Hinv) as (s1 & r & -> & H1 & K & H2); [lia |].
  destruct r as [p |]; [| by exists s1, None]. destruct H2 as (n & Hsz & H2). eexists _, _. split; [reflexivity |].
  assert (Hl : live s1 p n) by (apply (hm_live _ _ _ _ H2); by right).
  destruct (memset_zero_spec s1 p n (nmemb * sz) H1 Hl) as (G1 & G2 & G3 & G4 & G5); [lia |].
  split; [| intros ? [= <-]; by split]. split; [done |]. split.
  - intros p' n' w Hl' Hw. rewrite <- (K p' n' w Hl' Hw). apply G5. pose proof (hm_apart _ _ _ _ H2 p' n' Hl'). lia.
  - exists n. split; [done |]. destruct H2 as [A1 A2 A3 A4]. split; try done. intros p' n'. by rewrite G2.
Qed.

(** The heap as its callers see it: [owed] holds the requests that were granted
    and not yet freed, the size that was asked for by address, and [wrote] the
    words their owners know the contents of. *)
Record heap : Type := mk_heap { mem : slab_state; owed : gmap Z Z; wrote : Z -> option Z }.

Definition granted (h : heap) (s' : slab_state) (r : option Z) (sz : Z) (known : Z -> option Z) : heap :=
  match r with
  | None => mk_heap s' (owed h) (wrote h)
  | Some p => mk_heap s' (<[p := sz]> (owed h))
      (fun w => if decide (p <= w < p + sz) then known (w - p) else wrote h w)
  end.

(** The words that [memset] of [bytes] bytes clears. *)
Definition zeroed (bytes i : Z) : option Z := if decide (i mod 8 = 0 /\ i + 8 <= bytes) then Some 0 else None.

(** Callers allocate up to 16 MiB, free what they were given, and write words
    of what they asked for (a store to some bytes of a word is a store of the
    word that has the other bytes as they were). *)
Inductive heap_step : heap -> heap -> Prop :=
| step_kmalloc h sz s' r : 0 < sz <= 2 ^ 24 -> kmalloc (mem h) sz = Ret (s', r) ->
    heap_step h (granted h s' r sz (fun _ => None))
| step_kcalloc h nmemb sz s' r : 0 < nmemb -> 0 < sz -> nmemb * sz <= 2 ^ 24 -> kcalloc (mem h) nmemb sz = Ret (s', r) ->
    heap_step h (granted h s' r (nmemb * sz) (zeroed (nmemb * sz)))
| step_kfree h p n s' : owed h !! p = Some n -> kfree (mem h) p = Ret s' ->
    heap_step h (mk_heap s' (delete p (owed h)) (wrote h))
| step_write h p n w v : owed h !! p = Some n -> p <= w < p + n ->
    heap_step h (mk_heap (store (mem h) w v) (owed h) (<[w := Some v]> (wrote h))).

Record heap_ok (h : heap) : Prop := {
  ho_inv : kmem_inv (mem h);
  ho_live : forall p n, owed h !! p = Some n -> 0 < n /\ p mod 16 = 0 /\ exists m, n <= m /\ live (mem h) p m;
  ho_words : forall p n w v, owed h !! p = Some n -> p <= w < p + n -> wrote h w = Some v -> words (mem h) w = v
}.

Lemma owed_apart h p n p' n' : heap_ok h -> owed h !! p = Some n -> owed h !! p' = Some n' ->
  p = p' \/ p + n <= p' \/ p' + n' <= p.
Proof.
  intros [I L _] H1 H2. destruct (L p n H1) as (_ & _ & m & ? & L1), (L p' n' H2) as (_ & _ & m' & ? & L2).
  destruct (live_apart _ _ _ _ _ I L1 L2) as [[? _] | ?]; [by left | right; lia].
Qed.

Lemma granted_ok h s' r sz known : heap_ok h -> 0 < sz -> allocates (mem h) s' sz r ->
  (forall p i v, r = Some p -> 0 <= i < sz -> known i = Some v -> words s' (p + i) = v) ->
  heap_ok (granted h s' r sz known).
Proof.
  intros [I L W] Hsz (I' & K & Hr) Hkn. destruct r as [p |]; cbn [granted].
  - destruct Hr as (m & Hm & [P1 P2 P3 P4]). split; cbn [mem owed wrote]; [done | |].
    + intros q n [[<- <-] | [Hne Hq]]%lookup_insert_Some; [split_and!; [lia | done |]; exists m; split; [done |]; apply P3; by right |].
      destruct (L q n Hq) as (? & ? & m' & ? & Hl). split_and!; [done | done |]. exists m'. split; [done |]. apply P3. by left.
    + intros q n w v [[<- <-] | [Hne Hq]]%lookup_insert_Some Hw; case_decide as Hin; intros Hv.
      * replace w with (p + (w - p)) by lia. apply Hkn; [done | lia | done].
      * lia.
      * destruct (L q n Hq) as (_ & _ & m' & ? & Hl). specialize (P4 q m' Hl). lia.
      * destruct (L q n Hq) as (_ & _ & m' & ? & Hl). rewrite (K q m' w Hl) by lia. by apply (W q n).
  - split; cbn [mem owed wrote]; [done | |].
    + intros q n Hq. destruct (L q n Hq) as (? & ? & m' & ? & Hl). split_and!; [done | done |]. exists m'. split; [done |]. by apply Hr.
    + intros q n w v Hq Hw Hv. destruct (L q n Hq) as (_ & _ & m' & ? & Hl). rewrite (K q m' w Hl) by lia. by apply (W q n).
Qed.

Lemma heap_step_ok h h' : heap_step h h' -> heap_ok h -> heap_ok h'.
Proof.
  intros Hst H. pose proof H as [I L W].
  destruct Hst as [h sz s' r Hsz Heq | h nmemb sz s' r Hn Hs Hfit Heq | h p n s' Hp Heq | h p n w v Hp Hw].
  - destruct (kmalloc_allocates (mem h) sz I Hsz) as (s1 & r1 & H1 & H2). rewrite Heq in H1. simplify_eq.
    apply granted_ok; [done | lia | done | done].
  - destruct (kcalloc_allocates (mem h) nmemb sz I Hn Hs Hfit) as (s1 & r1 & H1 & H2 & H3). rewrite Heq in H1. simplify_eq.
    apply granted_ok; [done | nia | done |]. intros p i v -> Hi. unfold zeroed. case_decide as Hz; intros [= <-].
    destruct (H3 p eq_refl) as [Hzero _]. pose proof (Z.div_mod i 8 ltac:(lia)).
    rewrite <- (Hzero (i / 8)); [f_equal; lia | lia | lia].
  - destruct (L p n Hp) as (_ & _ & m & _ & Hl). destruct (kfree_spec (mem h) p m I Hl) as (s1 & H1 & [T1 T2 T3]).
    rewrite Heq in H1. simplify_eq. split; cbn [mem owed wrote]; [done | |].
    + intros q k [Hne Hq]%lookup_delete_Some. destruct (L q k Hq) as (? & ? & m' & ? & Hl'). split_and!; [done | done |].
      exists m'. split; [done |]. by apply T2.
    + intros q k w v [Hne Hq]%lookup_delete_Some Hw Hv. destruct (L q k Hq) as (_ & _ & m' & ? & Hl').
      rewrite (T3 q m' w); [by apply (W q k) | by apply T2 | lia].
  - destruct (L p n Hp) as (_ & _ & m & Hm & Hl). destruct (store_live (mem h) p m w v I Hl) as [S1 S2]; [lia |].
    split; cbn [mem owed wrote]; [done | |].
    + intros q k Hq. destruct (L q k Hq) as (? & ? & m' & ? & Hl'). split_and!; [done | done |]. exists m'. split; [done |]. by apply S2.
    + intros q k w' v' Hq Hw'. cbn [words store]. destruct (decide (w = w')) as [<- | Hne].
      * rewrite !fn_lookup_insert. by intros [= ->].
      * rewrite !fn_lookup_insert_ne by done. by apply (W q k).
Qed.

Lemma heap_steps_ok h h' : rtc heap_step h h' -> heap_ok h -> heap_ok h'.
Proof. induction 1; intros; [done |]. eauto using heap_step_ok. Qed.

Lemma kinit_loop_spec C sz : forall s i, slab_inv s (fun c => C c /\ c < i) -> Forall (fun z => 0 < z <= 4096) sz ->
  exists s', kinit_loop s i sz = Ret s' /\ slab_inv s' (fun c => (C c /\ c < i) \/ i <= c < i + Z.of_nat (length sz)) /\
    (forall c, c < i \/ i + Z.of_nat (length sz) <= c -> caches s' c = caches s c) /\
    (forall (j : nat) z, sz !! j = Some z -> size (caches s' (i + Z.of_nat j)) = (z + 15) / 16 * 16 /\ align (caches s' (i + Z.of_nat j)) = 16) /\
    (forall c x, C c -> c < i -> in_use s' c x <-> in_use s c x) /\
    (forall c x, i <= c < i + Z.of_nat (length sz) -> ~ in_use s' c x) /\ keeps s s'.
Proof.
  induction sz as [| z sz IH] in C |- *; intros s i Hinv Hall; cbn [kinit_loop].
  { exists s. cbn [length]. change (Z.of_nat 0) with 0. split_and!; try done; try (intros; lia); try (by apply keeps_refl).
    destruct Hinv as [Hi HC]. split; [done |]. intros c [Hc | Hc]; [by apply HC | lia]. }
  apply list.Forall_cons in Hall as [Hz Hall].
  destruct (slab_init_spec s _ i z 4 Hinv) as (s1 & err & E1 & _ & Hinv1 & A1 & S1 & O1 & U1 & N1 & K1); [lia | lia | lia |].
  change (2 ^ 4) with 16 in *. rewrite E1.
  destruct (IH (fun c => (C c /\ c < i) \/ c = i) s1 (i + 1)) as (s' & -> & Hinv' & O' & S' & U' & N' & K'); [| done |].
  { destruct Hinv1 as [Hi1 HC1]. split; [done |]. intros c [Hc _]. by apply HC1. }
  exists s'. cbn [length]. split_and!; try done.
  - destruct Hinv' as [Hi' HC']. split; [done |]. intros c Hc. apply HC'. destruct Hc as [Hc | Hc]; [left; split; [tauto | lia] |].
    destruct (decide (c = i)) as [-> |]; [left; split; [by right | lia] | right; lia].
  - intros c Hc. rewrite O' by lia. apply O1. lia.
  - intros [| j] z' Hj; simpl in Hj.
    + simplify_eq. change (Z.of_nat 0) with 0. rewrite Z.add_0_r, O' by lia. rewrite A1, S1. split; [do 2 f_equal; lia | done].
    + replace (i + Z.of_nat (S j)) with (i + 1 + Z.of_nat j) by lia. by apply S'.
  - intros c x Hc Hlt. rewrite U' by (tauto || lia). by apply U1.
  - intros c x Hc. destruct (decide (c = i)) as [-> |]; [| apply N'; lia]. rewrite U' by (tauto || lia). apply N1.
  - by apply (keeps_trans s s1).
Qed.

(** ** Properties *)

(** [kmalloc] of up to 16 MiB always returns; memory it hands out is 16-byte
    aligned, at least as large as was asked for, and overlaps no allocation
    that is live; the live allocations are the old ones and the new one, none
    of them changes its contents, and NULL changes nothing that is live. *)
Theorem kmalloc_correct s sz : kmem_inv s -> 0 < sz <= 2 ^ 24 ->
  exists s' r, kmalloc s sz = Ret (s', r) /\ kmem_inv s' /\
    (forall p n w, live s p n -> p <= w < p + n -> words s' w = words s w) /\
    match r with
    | None => forall p n, live s' p n <-> live s p n
    | Some p => exists n, sz <= n /\ hands_memory s s' p n
    end.
Proof. apply kmalloc_allocates. Qed.

(** [kfree] of a live allocation, whether an object of a cache or a block of
    pages, returns; exactly that allocation is live no longer, and the contents
    of all others are untouched. *)
Theorem kfree_correct s p n : kmem_inv s -> live s p n ->
  exists s', kfree s p = Ret s' /\ kmem_inv s' /\
    (forall p' n', live s' p' n' <-> live s p' n' /\ p' <> p) /\
    (forall p' n' w, live s' p' n' -> p' <= w < p' + n' -> words s' w = words s w).
Proof. intros Hinv Hl. destruct (kfree_spec s p n Hinv Hl) as (s' & H1 & [H2 H3 H4]). eauto. Qed.

(** C11: whatever callers do with the heap, from a state of it that satisfies
    its invariant and with nothing owed to them: allocate up to 16 MiB with
    [kmalloc] or [kcalloc], free what they were given, and write what they asked
    for, in any order.  No call of [kmalloc] and no [kfree] of what is owed
    halts.  What was granted and not yet freed is aligned to 16 bytes; the bytes
    that were asked for lie within what the allocator holds as one allocation,
    and overlap those of no other request.  Every word has the value its owner
    wrote there last (0 after [kcalloc]).  The invariant of pages, free chains
    and size classes holds again. *)
Theorem heap_safe s h : kmem_inv s -> rtc heap_step (mk_heap s ∅ (fun _ => None)) h ->
  (forall sz, 0 < sz -> exists s' r, kmalloc (mem h) sz = Ret (s', r)) /\
  (forall p n, owed h !! p = Some n -> exists s', kfree (mem h) p = Ret s') /\
  (forall p n, owed h !! p = Some n -> p mod 16 = 0 /\ exists m, n <= m /\ live (mem h) p m) /\
  (forall p n p' n', owed h !! p = Some n -> owed h !! p' = Some n' -> p = p' \/ p + n <= p' \/ p' + n' <= p) /\
  (forall p n w v, owed h !! p = Some n -> p <= w < p + n -> wrote h w = Some v -> words (mem h) w = v) /\
  kmem_inv (mem h).
Proof.
  intros Hinv Hr. assert (H : heap_ok h).
  { eapply heap_steps_ok; [exact Hr |]. split; cbn [mem owed]; [done | |]; intros *; by rewrite lookup_empty. }
  pose proof H as [I L W]. split_and!; try done.
  - intros sz Hsz. destruct (kmalloc_spec (mem h) sz I Hsz) as (s'' & r & E & _). eauto.
  - intros p n Hp. destruct (L p n Hp) as (_ & _ & m & _ & Hl). destruct (kfree_spec (mem h) p m I Hl) as (s'' & E & _). eauto.
  - intros p n Hp. destruct (L p n Hp) as (_ & ? & ?). done.
  - intros p n p' n'. by apply owed_apart.
Qed.

(** A request beyond 16 MiB, the largest block, is not refused: the caller
    gets a block of 16 MiB, less than was asked for. *)
Theorem kmalloc_oversize s sz s' p : kmem_inv s -> 2 ^ 24 < sz -> kmalloc s sz = Ret (s', Some p) ->
  hands_memory s s' p (2 ^ 24).
Proof.
  intros Hinv Hsz Heq. destruct (kmalloc_spec s sz Hinv) as (s1 & r & H1 & _ & _ & H2); [lia |].
  rewrite Heq in H1. simplify_eq. destruct H2 as (n & H2 & ->). destruct (Z.leb_spec sz 4096); [lia |].
  by rewrite page_order_max in H2.
Qed.

(** [kcalloc] refuses a product that does not fit in 64 bits, and otherwise
    hands out memory for it whose bytes are zero. *)
Theorem kcalloc_correct s nmemb sz : kmem_inv s -> 0 < nmemb < 2 ^ 64 -> 0 < sz < 2 ^ 64 ->
  (2 ^ 64 <= nmemb * sz -> kcalloc s nmemb sz = Ret (s, None)) /\
  (nmemb * sz <= 2 ^ 24 -> exists s' r, kcalloc s nmemb sz = Ret (s', r) /\ kmem_inv s' /\
     match r with
     | None => True
     | Some p => exists n, nmemb * sz <= n /\ hands_memory s s' p n /\
         (forall i, 0 <= i -> 8 * i + 8 <= nmemb * sz -> words s' (p + 8 * i) = 0) /\
         (forall i, 0 <= i -> 8 * i < nmemb * sz < 8 * i + 8 -> words s' (p + 8 * i) mod 2 ^ (8 * ((nmemb * sz) mod 8)) = 0)
     end).
Proof.
  intros Hinv Hn Hs. split.
  - intros Hov. unfold kcalloc, UINT64_MAX. destruct (Z.eqb_spec nmemb 0); [lia |]. cbn [negb andb].
    pose proof (Z.div_mod (2 ^ 64 - 1) nmemb ltac:(lia)) as Hdm. pose proof (Z.mod_pos_bound (2 ^ 64 - 1) nmemb ltac:(lia)) as Hmb.
    destruct (Z.ltb_spec ((2 ^ 64 - 1) / nmemb) sz); [done | nia].
  - intros Hfit. destruct (kcalloc_allocates s nmemb sz Hinv ltac:(lia) ltac:(lia) Hfit) as (s' & r & Heq & (H1 & _ & H2) & H3).
    exists s', r. split_and!; [exact Heq | done |]. destruct r as [p |]; [| done]. destruct H2 as (n & Hn' & H2).
    destruct (H3 p eq_refl) as [H4 H5]. eauto 10.
Qed.

(** Tearing a cache down gives every page of it back, exactly when no object
    of it is in use; otherwise the assertion stops the kernel. *)
Theorem slab_deinit_correct s C c : slab_inv s C -> C c ->
  ((forall x, ~ in_use s c x) -> exists s', slab_deinit s c = Ret s' /\ slab_inv s' C /\ slab_list (caches s' c) = [] /\
     (forall c' x, C c' -> in_use s' c' x <-> in_use s c' x) /\
     (forall pg x, pg ∈ slab_list (caches s c) -> blk pg (page_order (caches s c)) x -> pb_free (pool s') x)) /\
  ((exists x, in_use s c x) -> slab_deinit s c = Halt Panic).
Proof.
  intros Hinv Hc. destruct (deinit_loop_spec C c _ s Hinv Hc eq_refl) as [H1 H2]. split; [| done].
  intros Hno. destruct (H1 Hno) as (s' & ? & ? & ? & ? & _ & ?). eauto 10.
Qed.

(** The caches of kmalloc after boot. *)
Theorem kmalloc_init_correct s : pb_inv (pool s) ->
  exists s', kmalloc_init s = Ret s' /\ kmem_inv s' /\ forall c x, kcache c -> ~ in_use s' c x.
Proof.
  intros Hi. destruct (kinit_loop_spec (fun _ => False) [8; 16; 32; 64; 128; 256; 512; 1024; 2048; 4096] s 0)
    as (s' & Heq & [Hi' HC'] & _ & Hsz & _ & Hno & _).
  { split; [done |]. by intros c [[] _]. }
  { repeat constructor; lia. }
  exists s'. split; [exact Heq |]. split.
  - split; [split; [done |]; intros c Hc; apply HC'; right; exact Hc |]. intros i Hc. unfold kcache, NR_KMALLOC_ALLOCATORS in Hc.
    assert (i = 0 \/ i = 1 \/ i = 2 \/ i = 3 \/ i = 4 \/ i = 5 \/ i = 6 \/ i = 7 \/ i = 8 \/ i = 9) as Hcase by lia.
    repeat destruct Hcase as [-> | Hcase]; [exact (Hsz 0%nat _ eq_refl) | exact (Hsz 1%nat _ eq_refl) | exact (Hsz 2%nat _ eq_refl) |
      exact (Hsz 3%nat _ eq_refl) | exact (Hsz 4%nat _ eq_refl) | exact (Hsz 5%nat _ eq_refl) | exact (Hsz 6%nat _ eq_refl) |
      exact (Hsz 7%nat _ eq_refl) | exact (Hsz 8%nat _ eq_refl) | rewrite Hcase; exact (Hsz 9%nat _ eq_refl)].
  - intros c x Hc. apply Hno. exact Hc.
Qed.

End Slab.

(** ** The buddy allocator underneath

    With RAM of [N] frames from [phys_offset] on, on one CPU, the page cache
    having nothing to reclaim.  The state also records the blocks that are
    handed out, by their first page. *)

Section BuddyBlocks.

Context (N phys_offset cpu : Z).
Hypothesis ram_base : phys_offset mod 2 ^ 24 = 0.
Hypothesis ram_size : N <= 2 ^ 25.

Record buddy_blocks : Type := mk_bb { bb_state : buddy_state; bb_held : gmap Z Z }.

Definition bb_ok (b : buddy_blocks) : Prop :=
  map_full N (bb_state b) /\ inv none (bb_state b) /\
  (forall p o, bb_held b !! p = Some o -> owned (bb_state b) p o) /\
  (forall p o q o' x, bb_held b !! p = Some o -> bb_held b !! q = Some o' -> blk p o x -> blk q o' x -> p = q).

Definition bb_alloc (b : buddy_blocks) (o : Z) : res (buddy_blocks * option Z) :=
  let! (st, r) := page_alloc phys_offset quiet (bb_state b) cpu o in
  match r with
  | Some p => Ret (mk_bb st (<[p := o]> (bb_held b)), Some p)
  | None => Ret (mk_bb st (bb_held b), None)
  end.

Definition bb_release (b : buddy_blocks) (p o : Z) : res buddy_blocks :=
  let! st := page_free phys_offset (bb_state b) cpu p o in
  Ret (mk_bb st (delete p (bb_held b))).

Lemma owned_page st p o x : map_full N st -> inv none st -> owned st p o -> blk p o x ->
  (forall o', x ∉ areas st o') /\ (forall c, x ∉ pages (pcps st c)) /\ exists d, mem_map st !! x = Some d /\ ~ looks_free d.
Proof.
  intros Hm Hi Hown Hx. assert (Ha : forall o', x ∉ areas st o').
  { intros o' Hin. pose proof (inv_area _ _ Hi _ _ Hin) as (Ho' & _).
    eapply (own_area _ _ _ Hown); [exact Hin | apply blk_self; lia | done]. }
  split_and!; [done | intros c Hc; by eapply (own_pcp _ _ _ Hown) |].
  destruct (own_map _ _ _ Hown x Hx) as [d Hd]. exists d. split; [done |]. intros Hl.
  apply (Ha (buddy_page_order d)). apply (inv_flags _ _ Hi x d); [done | done | intros []].
Qed.

Lemma owned_same st st' p o : map_full N st -> map_full N st' -> (forall x, is_free st' x -> is_free st x) -> owned st p o -> owned st' p o.
Proof.
  intros Hm Hm' Hf Hown. apply (owned_intro N); [done | apply Hown | apply Hown |]. intros x Hx.
  split; [by eapply (owned_range N st) |]. intros Hx'. apply Hf in Hx'. by eapply owned_free in Hx'.
Qed.

#[export, program] Instance buddy_blocks_ok : PageBlocks buddy_blocks := {
  pb_inv := bb_ok;
  pb_desc b x := mem_map (bb_state b) !! x;
  pb_set b x d := mk_bb (set_page (bb_state b) x d) (bb_held b);
  pb_held b p o := bb_held b !! p = Some o;
  pb_free b x := is_free (bb_state b) x;
  pb_alloc := bb_alloc;
  pb_release := bb_release
}.
Next Obligation.
  intros b p o (Hm & Hi & Hown & _) Hh. specialize (Hown p o Hh). pose proof (own_order _ _ _ Hown) as Ho.
  assert (Hend : p + 2 ^ o <= N).
  { assert (blk p o (p + 2 ^ o - 1)) as Hl%(owned_range N (bb_state b)) by (unfold blk; lia); [lia | done | done]. }
  split_and!; try apply Hown; [lia |]. intros x Hx. split; [by eapply owned_free |].
  by destruct (owned_page (bb_state b) p o x) as (_ & _ & Hx').
Qed.
Next Obligation.
  intros b p o q o' x (_ & _ & _ & Hd) H1 H2 X1 X2. assert (p = q) as -> by (by apply (Hd p o q o' x)). split; [done | congruence].
Qed.
Next Obligation.
  intros b p o x d (Hm & Hi & Hown & Hd) Hh Hx Hl. destruct (owned_page (bb_state b) p o x) as (Ha & Hc & d0 & Hd0 & _); auto.
  split_and!; try done.
  - split_and!; cbn [bb_state bb_held]; [by eapply map_full_set_page | by eapply (set_page_inv none none) | | done].
    intros q o' Hq. eapply owned_set_page; eauto.
  - intros y. cbn [bb_state mem_map set_page]. apply lookup_insert.
Qed.
Next Obligation.
  intros b o (Hm & Hi & Hown & Hd) Ho. unfold PAGE_ORDER_MAX in Ho. unfold bb_alloc.
  destruct (quiet_alloc_spec N phys_offset cpu (bb_state b) o ram_base Hm Hi Ho) as (st' & r & -> & st1 & [F1 F2 F3 F4] & Hr).
  assert (Hnf : forall q o' x, bb_held b !! q = Some o' -> blk q o' x -> ~ is_free (bb_state b) x).
  { intros q o' x Hq Hx. eapply owned_free; [by apply Hown | done]. }
  destruct r as [p |]; (eexists _, _; split; [reflexivity |]).
  - destruct Hr as [H1 H2 H3 H4 H5 H6].
    assert (Hsub : forall x, is_free st' x -> is_free (bb_state b) x) by (intros x Hx; apply F3, H5; by left).
    assert (Hpf : forall x, blk p o x -> is_free (bb_state b) x) by (intros x Hx; apply F3, H5; by right).
    assert (Hpb : forall q o' x, bb_held b !! q = Some o' -> blk q o' x -> ~ blk p o x).
    { intros q o' x Hq Hx Hx'. by apply (Hnf q o' x Hq Hx), Hpf. }
    assert (Hp : bb_held b !! p = None).
    { destruct (bb_held b !! p) as [o' |] eqn:E; [| done]. exfalso. pose proof (own_order _ _ _ (Hown p o' E)).
      apply (Hpb p o' p E); apply blk_self; lia. }
    split_and!; cbn [bb_state bb_held].
    + split_and!; cbn [bb_state bb_held]; try done.
      * intros q o' Hq. apply lookup_insert_Some in Hq as [[<- <-] | [_ Hq]]; [done |].
        apply (owned_same (bb_state b)); auto.
      * intros q1 o1 q2 o2 x Hq1 Hq2 X1 X2. apply lookup_insert_Some in Hq1 as [[<- <-] | [_ Hq1]], Hq2 as [[<- <-] | [_ Hq2]]; try done.
        -- by destruct (Hpb q2 o2 x).
        -- by destruct (Hpb q1 o1 x).
        -- by apply (Hd q1 o1 q2 o2 x).
    + intros q o' Hq x Hx. rewrite H6 by (rewrite F3; by apply (Hnf q o')). apply F4. by apply (Hnf q o').
    + intros q o'. rewrite lookup_insert_Some. split.
      * intros [[<- <-] | [_ Hq]]; [by right | by left].
      * intros [Hq | [-> ->]]; [| by left]. right. split; [congruence | done].
    + congruence.
    + eexists. split; [exact H4 | done].
  - subst st'. split_and!; cbn [bb_state bb_held]; try done.
    + split_and!; cbn [bb_state bb_held]; try done. intros q o' Hq. apply (owned_same (bb_state b)); auto. intros x. apply F3.
    + intros q o' Hq x Hx. apply F4. by apply (Hnf q o').
Qed.
Next Obligation.
  intros b p o d (Hm & Hi & Hown & Hd) Hh Hdesc Hf. unfold bb_release.
  destruct (page_free_spec N phys_offset (bb_state b) cpu p o) as (st' & -> & [G1 G2 G3 G4] & _); try done; [by apply Hown | by exists d |].
  assert (Hne : forall q o' x, bb_held b !! q = Some o' -> q <> p -> blk q o' x -> ~ is_free (bb_state b) x /\ ~ blk p o x).
  { intros q o' x Hq Hqp Hx. split; [eapply owned_free; [by apply Hown | done] |]. intros Hx'. apply Hqp. by apply (Hd q o' p o x). }
  eexists. split; [reflexivity |]. split_and!; cbn [bb_state bb_held].
  - split_and!; cbn [bb_state bb_held]; try done.
    + intros q o' Hq. apply lookup_delete_Some in Hq as [Hqp Hq]. pose proof (Hown q o' Hq) as Ho.
      apply (owned_intro N); [done | apply Ho | apply Ho |]. intros x Hx. split; [by eapply (owned_range N (bb_state b)) |].
      rewrite G3. destruct (Hne q o' x) as [H1 H2]; [done | by intros -> | done |]. tauto.
    + intros q1 o1 q2 o2 x Hq1 Hq2. apply lookup_delete_Some in Hq1 as [_ Hq1], Hq2 as [_ Hq2]. by apply (Hd q1 o1 q2 o2 x).
  - intros q o'. rewrite lookup_delete_Some. split.
    + intros [Hn Hq]. split; [done |]. intros [-> _]. done.
    + intros [Hq Hn]. split; [| done]. intros ->. apply Hn. split; [done | congruence].
  - done.
  - intros q o' Hq x Hx. apply lookup_delete_Some in Hq as [Hqp Hq]. destruct (Hne q o' x) as [H1 H2]; [done | by intros -> | done |].
    by apply G4.
Qed.

End BuddyBlocks.

(** ** Witnesses

    16 MiB of RAM at 0x80000000: with a block of two pages handed out by kmalloc
    and nothing free ([heap_used]), and with everything free ([heap_free]). *)

Definition heap_pool : PageBlocks buddy_blocks := buddy_blocks_ok 4096 0x80000000 0 eq_refl ltac:(lia).

Definition empty_caches (i : Z) : slab_allocator :=
  mk_cache (Z.max 16 (2 ^ (3 + i))) 16 (Buddy.page_order (Z.max 16 (2 ^ (3 + i)))) [].

Definition used_state : buddy_state :=
  set_page (boot_state 4096) 0 (mk_page (Z.lor PAGE_FLAGS_NEW_PAGE PAGE_FLAGS_KMALLOC) 1 1).

Definition heap_used : slab_state (A := buddy_blocks) :=
  mk_slab (mk_bb used_state {[0 := 1]}) (fun _ => mk_spage 0 0 0 0) (fun _ => 0) empty_caches.

Definition heap_free : slab_state (A := buddy_blocks) :=
  mk_slab (mk_bb one_block ∅) (fun _ => mk_spage 0 0 0 0) (fun _ => 0) empty_caches.

Lemma boot_page0 : mem_map (boot_state 4096) !! 0 = Some (mk_page PAGE_FLAGS_NEW_PAGE 1 0).
Proof. apply boot_lookup. split; [lia | done]. Qed.

Lemma used_pool_ok : bb_ok 4096 (mk_bb used_state {[0 := 1]}).
Proof.
  assert (Hown : owned (boot_state 4096) 0 1) by (apply boot_owned; done || lia).
  destruct (owned_unlisted _ _ _ _ (boot_inv 4096) Hown) as [Ha Hc].
  split_and!; cbn [bb_state bb_held].
  - eapply map_full_set_page; [exact boot_page0 | by apply boot_full].
  - eapply (set_page_inv none none); [apply boot_inv | done | done | exact boot_page0 | | done]. by intros [H _].
  - intros p o Hp. apply lookup_singleton_Some in Hp as [<- <-]. eapply owned_set_page; [exact boot_page0 | done].
  - intros p o q o' x Hp Hq. apply lookup_singleton_Some in Hp as [<- _], Hq as [<- _]. done.
Qed.

Lemma free_pool_ok : bb_ok 4096 (mk_bb one_block ∅).
Proof.
  split_and!; cbn [bb_state bb_held]; [apply one_block_ok | apply one_block_ok | |].
  - intros p o Hp. by rewrite lookup_empty in Hp.
  - intros p o q o' x Hp. by rewrite lookup_empty in Hp.
Qed.

Lemma empty_caches_ok (a : buddy_blocks) : bb_ok 4096 a ->
  kmem_inv (PB := heap_pool) (mk_slab a (fun _ => mk_spage 0 0 0 0) (fun _ => 0) empty_caches).
Proof.
  intros Ha. split; [split; [done |] | intros i Hi; by split]. intros c Hc. unfold kcache, NR_KMALLOC_ALLOCATORS in Hc.
  split; [| apply NoDup_nil_2 | intros pg Hpg; by apply elem_of_nil in Hpg].
  cbn [caches]. unfold empty_caches. assert (Hle : 2 ^ (3 + c) <= 2 ^ 12) by (apply Z.pow_le_mono_r; lia).
  split; cbn [align size page_order].
  - exists 4. split; [lia | done].
  - assert (c = 0 \/ 2 ^ (3 + c) = 2 ^ (c - 1) * 16) as [-> | E]; [| done |].
    { destruct (Z.eq_dec c 0); [by left | right]. change 16 with (2 ^ 4). rewrite <- Z.pow_add_r by lia. f_equal. lia. }
    destruct (Z.max_spec 16 (2 ^ (3 + c))) as [[_ ->] | [_ ->]]; [rewrite E; apply Z.mod_mul; lia | done].
  - split; [lia |]. apply page_order_fits. lia.
  - apply page_order_bound.
Qed.

Lemma used_live : live (PB := heap_pool) heap_used (va 0) (2 ^ 13).
Proof.
  right. exists 0, 1. split; [| done]. split; [apply lookup_singleton_eq |].
  eexists. split; [apply lookup_insert_eq | done].
Qed.

Lemma kmalloc_correct_witness :
  exists s' r, kmalloc (PB := heap_pool) 0x80000000 0 heap_free 100 = Ret (s', r) /\ kmem_inv (PB := heap_pool) s'.
Proof.
  destruct (kmalloc_correct (PB := heap_pool) 0x80000000 0 ltac:(lia) heap_free 100) as (s' & r & H1 & H2 & _);
    [apply empty_caches_ok, free_pool_ok | lia |].
  exists s', r. exact (conj H1 H2).
Defined.

Lemma kfree_correct_witness :
  exists s', kfree (PB := heap_pool) 0x80000000 heap_used (va 0) = Ret s' /\ ~ live (PB := heap_pool) s' (va 0) (2 ^ 13).
Proof.
  destruct (kfree_correct (PB := heap_pool) 0x80000000 ltac:(lia) heap_used (va 0) (2 ^ 13)) as (s' & H1 & _ & H2 & _);
    [apply empty_caches_ok, used_pool_ok | exact used_live |].
  exists s'. split; [exact H1 |]. intros Hl. apply H2 in Hl as [_ Hne]. by apply Hne.
Defined.

Lemma slab_deinit_witness :
  exists s', slab_deinit (PB := heap_pool) heap_used 3 = Ret s' /\ slab_inv (PB := heap_pool) s' kcache.
Proof.
  destruct (slab_deinit_correct (PB := heap_pool) 0x80000000 ltac:(lia) heap_used kcache 3) as [H _].
  - apply empty_caches_ok, used_pool_ok.
  - unfold kcache, NR_KMALLOC_ALLOCATORS. lia.
  - destruct H as (s' & H1 & H2 & _).
    + intros x (pg & Hpg & _). by apply elem_of_nil in Hpg.
    + exists s'. exact (conj H1 H2).
Defined.

Lemma free_alloc : exists b p, bb_alloc 0x80000000 0 (mk_bb one_block ∅) 12 = Ret (b, Some p).
Proof.
  unfold bb_alloc, page_alloc. cbn [bb_state bb_held].
  destruct (alloc_try_spec 4096 one_block 0 12) as (st & r & Heq & Hr); [apply one_block_ok | apply one_block_ok | lia |].
  rewrite Heq. destruct r as [p |]; [eauto |]. destruct Hr as [_ Hr]. specialize (Hr 12 ltac:(lia)). discriminate Hr.
Qed.

Lemma heap_safe_witness :
  exists s' p, kmalloc (PB := heap_pool) 0x80000000 0 heap_free (2 ^ 24) = Ret (s', Some p) /\
    exists m, 2 ^ 24 <= m /\ live (PB := heap_pool) s' p m.
Proof.
  destruct free_alloc as (b & p & Hal).
  destruct (kmalloc_block (PB := heap_pool) 0x80000000 0 heap_free (2 ^ 24) b p) as (s' & Hs');
    [apply free_pool_ok | lia | exact Hal |].
  exists s', (page_to_virt 0x80000000 p). split; [exact Hs' |].
  destruct (heap_safe (PB := heap_pool) 0x80000000 0 ltac:(lia) heap_free
    (mk_heap s' {[page_to_virt 0x80000000 p := 2 ^ 24]}
       (fun w => if decide (page_to_virt 0x80000000 p <= w < page_to_virt 0x80000000 p + 2 ^ 24) then None else None)))
    as (_ & _ & H & _).
  - apply empty_caches_ok, free_pool_ok.
  - apply rtc_once.
    exact (step_kmalloc (PB := heap_pool) 0x80000000 0 (mk_heap heap_free ∅ (fun _ => None)) (2 ^ 24) s' _ ltac:(lia) Hs').
  - exact (proj2 (H (page_to_virt 0x80000000 p) (2 ^ 24) (lookup_singleton_eq _ _))).
Defined.

Lemma oversize_returns : exists s' p, kmalloc (PB := heap_pool) 0x80000000 0 heap_free (2 ^ 24 + 1) = Ret (s', Some p).
Proof.
  destruct free_alloc as (b & p & Hal).
  destruct (kmalloc_block (PB := heap_pool) 0x80000000 0 heap_free (2 ^ 24 + 1) b p) as (s' & Hs').
  - apply free_pool_ok.
  - lia.
  - rewrite page_order_max by lia. exact Hal.
  - exists s', (page_to_virt 0x80000000 p). exact Hs'.
Qed.

Lemma kmalloc_oversize_witness :
  exists s' p, kmalloc (PB := heap_pool) 0x80000000 0 heap_free (2 ^ 24 + 1) = Ret (s', Some p) /\
    hands_memory (PB := heap_pool) heap_free s' p (2 ^ 24).
Proof.
  destruct oversize_returns as (s' & p & H). exists s', p. split; [exact H |].
  apply (kmalloc_oversize (PB := heap_pool) 0x80000000 0 ltac:(lia) heap_free (2 ^ 24 + 1) s' p);
    [apply empty_caches_ok, free_pool_ok | lia | exact H].
Defined.
