(* ===== verification/PageTable.v ===== *)
(** * Sv39 page tables: riscv/include/arch/pgtable.h, the mapping routines of
    mm/mm.c and the table management of riscv/mm/page_table.c

    Physical memory is a map from page-aligned physical addresses to the 512
    words of the frame; a table is a frame, and a table pointer is the physical
    address behind it ([phys_to_virt] and [virt_to_phys] are inverse linear
    maps).  Frames come from a page allocator that the [PageFrames] class
    describes; the buddy allocator is an instance.  [walk] is the reference: what
    the Sv39 hardware makes of a tree of tables. *)

From S2P Require Import Prelude Buddy.

(** ** Entries *)

Definition PTE_V : Z := 1.
Definition PTE_U : Z := 16.
Definition PGD_SHIFT : Z := 30.
Definition PMD_SHIFT : Z := 21.
Definition PTE_SHIFT : Z := 12.
Definition PTRS_PER_PGD : Z := 512.
Definition PTRS_PER_PMD : Z := 512.
Definition PTRS_PER_PT : Z := 512.
Definition PGD_FLAGS_MASK : Z := 0x3ff.
Definition PMD_FLAGS_MASK : Z := 0x3ff.
Definition PTE_FLAGS_MASK : Z := 0x3ff.
Definition PAGE_SIZE_2M : Z := 0x200000.
Definition PAGE_SIZE_1G : Z := 0x40000000.

Definition pgd_flags (pgd : Z) : Z := Z.land pgd PGD_FLAGS_MASK.
Definition pgd_is_valid (pgd : Z) : bool := negb (Z.land (pgd_flags pgd) PTE_V =? 0).
Definition pgd_is_leaf (pgd : Z) : bool := pgd_is_valid pgd && negb (pgd_flags pgd =? PTE_V).
Definition pgd_index (vaddr : Z) : Z := Z.land (Z.shiftr vaddr PGD_SHIFT) (PTRS_PER_PGD - 1).
Definition pgd_set_next (pmd_phys : Z) : Z :=
  Z.lor (u64 (Z.shiftl (Z.shiftr pmd_phys PAGE_SHIFT) 10)) PTE_V.
Definition pgd_set_leaf (phys flags : Z) : Z :=
  Z.lor (Z.lor (u64 (Z.shiftl (Z.shiftr phys PGD_SHIFT) 28)) PTE_V) flags.
Definition pgd_next (pgd : Z) : Z := u64 (Z.shiftl (Z.shiftr pgd 10) PAGE_SHIFT).
Definition pgd_leaf (pgd : Z) : Z := u64 (Z.shiftl (Z.shiftr pgd 28) PGD_SHIFT).
Definition pgd_clear : Z := 0.

Definition pmd_flags (pmd : Z) : Z := Z.land pmd PMD_FLAGS_MASK.
Definition pmd_is_valid (pmd : Z) : bool := negb (Z.land (pmd_flags pmd) PTE_V =? 0).
Definition pmd_is_leaf (pmd : Z) : bool := pmd_is_valid pmd && negb (pmd_flags pmd =? PTE_V).
Definition pmd_index (vaddr : Z) : Z := Z.land (Z.shiftr vaddr PMD_SHIFT) (PTRS_PER_PMD - 1).
Definition pmd_set_next (pt_phys : Z) : Z :=
  Z.lor (u64 (Z.shiftl (Z.shiftr pt_phys PAGE_SHIFT) 10)) PTE_V.
Definition pmd_set_leaf (phys flags : Z) : Z :=
  Z.lor (Z.lor (u64 (Z.shiftl (Z.shiftr phys PMD_SHIFT) 19)) PTE_V) flags.
Definition pmd_next (pmd : Z) : Z := u64 (Z.shiftl (Z.shiftr pmd 10) PAGE_SHIFT).
Definition pmd_leaf (pmd : Z) : Z := u64 (Z.shiftl (Z.shiftr pmd 19) PMD_SHIFT).
Definition pmd_clear : Z := 0.

Definition pte_flags (pte : Z) : Z := Z.land pte PTE_FLAGS_MASK.
Definition pte_is_valid (pte : Z) : bool := negb (Z.land (pte_flags pte) PTE_V =? 0).
Definition pte_index (vaddr : Z) : Z := Z.land (Z.shiftr vaddr PTE_SHIFT) (PTRS_PER_PT - 1).
Definition pte_set_leaf (phys flags : Z) : Z :=
  Z.lor (Z.lor (u64 (Z.shiftl (Z.shiftr phys PAGE_SHIFT) 10)) PTE_V) flags.
Definition pte_leaf (pte : Z) : Z := u64 (Z.shiftl (Z.shiftr pte 10) PAGE_SHIFT).
Definition pte_clear : Z := 0.

(** ** Memory and the allocator behind it *)

(** What page-table code relies on: [page_alloc] composed with
    [page_to_phys], and [page_free] of order 0 composed with [phys_to_page].
    [pf_free] are the free physical pages, [pf_held] the single pages handed
    out. *)
Class PageFrames (A : Type) := {
  pf_inv : A -> Prop;
  pf_free : A -> Z -> Prop;
  pf_held : A -> Z -> Prop;
  pf_alloc : A -> Z -> res (A * option Z);
  pf_release : A -> Z -> res A;
  pf_held_used a x : pf_inv a -> pf_held a x -> ~ pf_free a x;
  pf_alloc_ok a o : pf_inv a -> 0 <= o <= PAGE_ORDER_MAX ->
    exists a' r, pf_alloc a o = Ret (a', r) /\ pf_inv a' /\
      (forall x, pf_free a' x -> pf_free a x) /\ (forall x, pf_held a x -> pf_held a' x) /\
      match r with
      | Some pa => pa mod 2 ^ (12 + o) = 0 /\ 0 < pa /\ pa + 2 ^ (12 + o) <= 2 ^ 56 /\
          (o = 0 -> pf_held a' pa) /\
          forall k, 0 <= k < 2 ^ o -> pf_free a (pa + 4096 * k) /\ ~ pf_free a' (pa + 4096 * k)
      | None => True
      end;
  pf_release_ok a pa : pf_inv a -> pf_held a pa ->
    exists a', pf_release a pa = Ret a' /\ pf_inv a' /\
      (forall x, pf_free a' x <-> pf_free a x \/ x = pa) /\
      (forall x, pf_held a x -> x <> pa -> pf_held a' x)
}.

Section PageTables.

Context {A : Type} `{PF : PageFrames A}.

Record pt_state : Type := mk_pt { frames : gmap Z (list Z); pool : A }.

Definition load (s : pt_state) (pa i : Z) : res Z :=
  match frames s !! pa with Some l => rd l i | None => Halt Fault end.

Definition store_page (s : pt_state) (pa : Z) (l : list Z) : res pt_state :=
  match frames s !! pa with
  | Some _ => Ret (mk_pt (<[pa := l]> (frames s)) (pool s))
  | None => Halt Fault
  end.

Definition store (s : pt_state) (pa i v : Z) : res pt_state :=
  match frames s !! pa with
  | Some l => let! l := wr l i v in store_page s pa l
  | None => Halt Fault
  end.

Definition page_alloc_phys (s : pt_state) (order : Z) : res (pt_state * Z) :=
  let! (a, r) := pf_alloc (pool s) order in
  Ret (mk_pt (frames s) a, match r with Some pa => pa | None => 0 end).

Definition zero_page : list Z := replicate 512 0.

(** ** mm/mm.c *)

Fixpoint unmap_range_loop (s : pt_state) (root addr end_addr : Z) (n : nat) : res pt_state :=
  if addr <? end_addr then
    match n with
    | O => Halt Fuel
    | S n' =>
        let! pgde := load s root (pgd_index addr) in
        if pgd_is_leaf pgde then
          assert! PAGE_SIZE_1G <=? end_addr - addr in
          let! s := store s root (pgd_index addr) pgd_clear in
          unmap_range_loop s root (u64 (addr + PAGE_SIZE_1G)) end_addr n'
        else assert! pgd_is_valid pgde in
        let pmd := pgd_next pgde in
        let! pmde := load s pmd (pmd_index addr) in
        if pmd_is_leaf pmde then
          assert! PAGE_SIZE_2M <=? end_addr - addr in
          let! s := store s pmd (pmd_index addr) pmd_clear in
          unmap_range_loop s root (u64 (addr + PAGE_SIZE_2M)) end_addr n'
        else assert! pmd_is_valid pmde in
        let pt := pmd_next pmde in
        let! pte := load s pt (pte_index addr) in
        assert! pte_is_valid pte in
        let! s := store s pt (pte_index addr) pte_clear in
        unmap_range_loop s root (u64 (addr + PAGE_SIZE)) end_addr n'
    end
  else Ret s.

(** Each turn advances by at least a page. *)
Definition unmap_range (s : pt_state) (root addr end_addr : Z) : res pt_state :=
  unmap_range_loop s root addr end_addr (Z.to_nat ((end_addr - addr) / PAGE_SIZE + 1)).

Definition ENOMEM : Z := 12.

(** The table below an entry, allocated when the entry is not valid; [None]
    is a failed allocation. *)
Definition next_table (s : pt_state) (table i : Z) (valid : Z -> bool) (next set_next : Z -> Z)
    : res (pt_state * option Z) :=
  let! e := load s table i in
  if negb (valid e) then
    let! (s, pa) := page_alloc_phys s 0 in
    if pa =? 0 then Ret (s, None)
    else
      let! s := store_page s pa zero_page in
      let! s := store s table i (set_next pa) in
      Ret (s, Some pa)
  else Ret (s, Some (next e)).

(** One turn of the loop of [map_fixed_size_pages]; [false] is a failed
    allocation. *)
Definition map_one (s : pt_state) (root addr paddr page_size flags : Z) : res (pt_state * bool) :=
  let gi := pgd_index addr in
  if page_size =? PAGE_SIZE_1G then
    let! pgde := load s root gi in
    assert! negb (pgd_is_valid pgde) in
    let! s := store s root gi (pgd_set_leaf paddr flags) in
    Ret (s, true)
  else
    let! (s, t) := next_table s root gi pgd_is_valid pgd_next pgd_set_next in
    match t with
    | None => Ret (s, false)
    | Some pmd =>
        let mi := pmd_index addr in
        if page_size =? PAGE_SIZE_2M then
          let! pmde := load s pmd mi in
          assert! negb (pmd_is_valid pmde) in
          let! s := store s pmd mi (pmd_set_leaf paddr flags) in
          Ret (s, true)
        else
          let! (s, t) := next_table s pmd mi pmd_is_valid pmd_next pmd_set_next in
          match t with
          | None => Ret (s, false)
          | Some pt =>
              let ti := pte_index addr in
              let! pte := load s pt ti in
              assert! negb (pte_is_valid pte) in
              let! s := store s pt ti (pte_set_leaf paddr flags) in
              Ret (s, true)
          end
    end.

Fixpoint map_fixed_loop (s : pt_state) (root start_addr addr paddr end_addr page_size flags : Z) (n : nat)
    : res (pt_state * Z) :=
  if addr <? end_addr then
    match n with
    | O => Halt Fuel
    | S n' =>
        let! (s, ok) := map_one s root addr paddr page_size flags in
        if ok then
          map_fixed_loop s root start_addr (u64 (addr + page_size)) (u64 (paddr + page_size))
            end_addr page_size flags n'
        else
          let! s := unmap_range s root start_addr addr in
          Ret (s, - ENOMEM)
    end
  else Ret (s, 0).

Definition map_fixed_size_pages (s : pt_state) (root addr paddr size page_size flags : Z)
    : res (pt_state * Z) :=
  map_fixed_loop s root addr addr paddr (u64 (addr + size)) page_size flags
    (Z.to_nat (size / page_size)).

(** The page size of the next chunk of a mapping. *)
Definition chunk_size (addr paddr rem_size : Z) : Z :=
  if is_aligned addr PAGE_SIZE_1G && is_aligned paddr PAGE_SIZE_1G && (PAGE_SIZE_1G <=? rem_size)
  then PAGE_SIZE_1G
  else if is_aligned addr PAGE_SIZE_2M && is_aligned paddr PAGE_SIZE_2M && (PAGE_SIZE_2M <=? rem_size)
  then PAGE_SIZE_2M
  else PAGE_SIZE.

Fixpoint map_pages_loop (s : pt_state) (root addr paddr end_addr flags : Z) (n : nat)
    : res (pt_state * Z) :=
  if addr <? end_addr then
    match n with
    | O => Halt Fuel
    | S n' =>
        let page_size := chunk_size addr paddr (end_addr - addr) in
        let rem_size := round_down (end_addr - addr) page_size in
        let! (s, err) := map_fixed_size_pages s root addr paddr rem_size page_size flags in
        if negb (err =? 0) then Ret (s, err)
        else map_pages_loop s root (u64 (addr + rem_size)) (u64 (paddr + rem_size)) end_addr flags n'
    end
  else Ret (s, 0).

(** At most a chunk of each page size. *)
Definition map_pages (s : pt_state) (root addr paddr size flags : Z) : res (pt_state * Z) :=
  assert! is_aligned addr PAGE_SIZE in
  assert! is_aligned size PAGE_SIZE in
  assert! is_aligned paddr PAGE_SIZE in
  map_pages_loop s root addr paddr (u64 (addr + size)) flags 3.

Definition unmap_pages (s : pt_state) (root addr size : Z) : res pt_state :=
  assert! is_aligned addr PAGE_SIZE in
  assert! is_aligned size PAGE_SIZE in
  unmap_range s root addr (u64 (addr + size)).

(** [map_kernel_pages] with [root] the kernel's directory. *)
Definition map_kernel_pages (s : pt_state) (root addr size paddr flags : Z) : res (pt_state * Z) :=
  map_pages s root addr paddr (round_up size PAGE_SIZE) flags.

Definition unmap_kernel_pages (s : pt_state) (root addr size : Z) : res pt_state :=
  unmap_pages s root addr size.

Definition map_user_pages (s : pt_state) (root addr size paddr flags : Z) : res (pt_state * Z) :=
  map_pages s root addr paddr (round_up size PAGE_SIZE) (Z.lor flags PTE_U).

Definition unmap_user_pages (s : pt_state) (root addr size : Z) : res pt_state :=
  unmap_pages s root addr size.

(** ** riscv/mm/page_table.c *)

Definition alloc_pgtable (s : pt_state) : res (pt_state * Z) :=
  let! (s, pa) := page_alloc_phys s 0 in
  if pa =? 0 then Ret (s, 0)
  else let! s := store_page s pa zero_page in Ret (s, pa).

Definition free_pgtable (s : pt_state) (paddr : Z) : res pt_state :=
  let! a := pf_release (pool s) paddr in Ret (mk_pt (frames s) a).

(** [kernel_pgdir] is the kernel's directory, read under its lock. *)
Definition create_user_pgtable (kernel_pgdir : list Z) (s : pt_state) : res (pt_state * Z) :=
  let! (s, pa) := alloc_pgtable s in
  let! s := store_page s pa kernel_pgdir in
  Ret (s, pa).

(** What the panic message prints is left out. *)
Fixpoint destroy_user_pt (s : pt_state) (pt i : Z) (n : nat) : res unit :=
  match n with
  | O => Ret tt
  | S n' =>
      let! pte := load s pt i in
      if pte_is_valid pte then Halt Panic else destroy_user_pt s pt (i + 1) n'
  end.

Fixpoint destroy_user_pmd (s : pt_state) (pmd i : Z) (n : nat) : res pt_state :=
  match n with
  | O => Ret s
  | S n' =>
      let! pmde := load s pmd i in
      if negb (pmd_is_valid pmde) then destroy_user_pmd s pmd (i + 1) n'
      else if pmd_is_leaf pmde then Halt Panic
      else
        let pa := pmd_next pmde in
        let! _ := destroy_user_pt s pa 0 512 in
        let! s := free_pgtable s pa in
        destroy_user_pmd s pmd (i + 1) n'
  end.

Fixpoint destroy_user_pgd (kernel_pgdir : list Z) (s : pt_state) (pgd i : Z) (n : nat) : res pt_state :=
  match n with
  | O => Ret s
  | S n' =>
      let! kpgde := rd kernel_pgdir i in
      let is_kspace := pgd_is_valid kpgde in
      let! pgde := load s pgd i in
      if is_kspace || negb (pgd_is_valid pgde) then destroy_user_pgd kernel_pgdir s pgd (i + 1) n'
      else if pgd_is_leaf pgde then Halt Panic
      else
        let pa := pgd_next pgde in
        let! s := destroy_user_pmd s pa 0 512 in
        let! s := free_pgtable s pa in
        destroy_user_pgd kernel_pgdir s pgd (i + 1) n'
  end.

Definition destroy_user_pgtable (kernel_pgdir : list Z) (s : pt_state) (pgd : Z) : res pt_state :=
  let! s := destroy_user_pgd kernel_pgdir s pgd 0 512 in
  free_pgtable s pgd.

End PageTables.
Arguments pt_state A : clear implicits.

(** ** The reference: what a tree of tables translates *)

Definition entry (fr : gmap Z (list Z)) (pa i : Z) : option Z :=
  if decide (0 <= i) then fr !! pa ≫= fun l => l !! Z.to_nat i else None.

(** The leaf a virtual address reaches: base address, flags and size. *)
Definition walk (fr : gmap Z (list Z)) (root va : Z) : option (Z * Z * Z) :=
  e ← entry fr root (pgd_index va);
  if negb (pgd_is_valid e) then None
  else if pgd_is_leaf e then Some (pgd_leaf e, pgd_flags e, PAGE_SIZE_1G)
  else
    e ← entry fr (pgd_next e) (pmd_index va);
    if negb (pmd_is_valid e) then None
    else if pmd_is_leaf e then Some (pmd_leaf e, pmd_flags e, PAGE_SIZE_2M)
    else
      e ← entry fr (pmd_next e) (pte_index va);
      if negb (pte_is_valid e) then None
      else Some (pte_leaf e, pte_flags e, PAGE_SIZE).

(** The physical address and the flags. *)
Definition translate (fr : gmap Z (list Z)) (root va : Z) : option (Z * Z) :=
  '(b, f, z) ← walk fr root va; Some (b + va mod z, f).

(** ** Encoding *)

Lemma lor_small (k a b : Z) : 0 <= k -> 0 <= a < 2 ^ k -> 0 <= b < 2 ^ k -> 0 <= Z.lor a b < 2 ^ k.
Proof.
  intros Hk Ha Hb. split; [apply Z.lor_nonneg; lia |].
  assert (E : Z.shiftr (Z.lor a b) k = 0).
  { rewrite Z.shiftr_lor, !Z.shiftr_div_pow2, !Z.div_small by lia. done. }
  rewrite Z.shiftr_div_pow2 in E by lia. apply Z.div_small_iff in E; lia.
Qed.

Lemma land_1_lor f : Z.land (Z.lor 1 f) 1 = 1.
Proof.
  change 1 with (2 ^ 1 - 1) at 2. rewrite land_ones_mod by lia. change (2 ^ 1) with 2.
  rewrite Zmod_odd, <- Z.bit0_odd, Z.lor_spec. done.
Qed.

(** An entry is a frame number above ten bits of flags. *)
Lemma entry_pack (s t pa f : Z) :
  10 <= t <= s -> s <= 30 -> 0 <= pa < 2 ^ 56 -> 0 <= f < 1024 ->
  Z.lor (Z.lor (u64 (Z.shiftl (Z.shiftr pa s) t)) 1) f = pa / 2 ^ s * 2 ^ t + Z.lor 1 f.
Proof.
  intros Ht Hs Hpa Hf. rewrite Z.shiftr_div_pow2, Z.shiftl_mul_pow2 by lia.
  assert (0 < 2 ^ s) by lia. assert (2 ^ t <= 2 ^ s) by (apply Z.pow_le_mono_r; lia).
  assert (pa / 2 ^ s * 2 ^ s <= pa) by zdm. assert (0 <= pa / 2 ^ s) by (apply Z.div_pos; lia).
  rewrite u64_small by nia. rewrite <- Z.lor_assoc. apply lor_pack; [lia |].
  destruct (lor_small 10 1 f); [lia | lia | lia |]. assert (2 ^ 10 <= 2 ^ t) by (apply Z.pow_le_mono_r; lia). lia.
Qed.

Lemma packed_flags (t hi f : Z) :
  10 <= t -> 0 <= f < 1024 -> Z.land (hi * 2 ^ t + Z.lor 1 f) 0x3ff = Z.lor 1 f.
Proof.
  intros Ht Hf. change 0x3ff with (2 ^ 10 - 1). rewrite land_ones_mod by lia.
  replace t with ((t - 10) + 10) by lia. rewrite Z.pow_add_r, Z.mul_assoc by lia.
  rewrite Z.add_comm, Z.mod_add by lia. apply Z.mod_small. by apply lor_small.
Qed.

Lemma packed_addr (s t pa f : Z) :
  10 <= t <= s -> s <= 30 -> 0 <= pa < 2 ^ 56 -> pa mod 2 ^ s = 0 -> 0 <= f < 1024 ->
  u64 (Z.shiftl (Z.shiftr (pa / 2 ^ s * 2 ^ t + Z.lor 1 f) t) s) = pa.
Proof.
  intros Ht Hs Hpa Hal Hf. rewrite Z.shiftr_div_pow2, Z.shiftl_mul_pow2 by lia.
  destruct (lor_small 10 1 f); [lia | lia | lia |]. assert (2 ^ 10 <= 2 ^ t) by (apply Z.pow_le_mono_r; lia).
  rewrite Z.add_comm, Z.div_add, (Z.div_small (Z.lor 1 f)), Z.add_0_l by lia.
  assert (0 < 2 ^ s) by lia. replace (pa / 2 ^ s * 2 ^ s) with pa by zdm. apply u64_small. lia.
Qed.

(** What a leaf entry of each level decodes to. *)
Lemma pte_leaf_dec pa f : 0 <= pa < 2 ^ 56 -> pa mod 2 ^ 12 = 0 -> 0 <= f < 1024 ->
  pte_is_valid (pte_set_leaf pa f) = true /\ pte_flags (pte_set_leaf pa f) = Z.lor 1 f /\
  pte_leaf (pte_set_leaf pa f) = pa.
Proof.
  intros Hpa Hal Hf. unfold pte_is_valid, pte_flags, pte_leaf, pte_set_leaf, PTE_V, PAGE_SHIFT, PTE_FLAGS_MASK.
  rewrite (entry_pack 12 10), packed_flags, land_1_lor, packed_addr by lia. done.
Qed.

Lemma pmd_leaf_dec pa f : 0 <= pa < 2 ^ 56 -> pa mod 2 ^ 21 = 0 -> 0 <= f < 1024 -> Z.lor 1 f <> 1 ->
  pmd_is_valid (pmd_set_leaf pa f) = true /\ pmd_is_leaf (pmd_set_leaf pa f) = true /\
  pmd_flags (pmd_set_leaf pa f) = Z.lor 1 f /\ pmd_leaf (pmd_set_leaf pa f) = pa.
Proof.
  intros Hpa Hal Hf Hl. unfold pmd_is_leaf, pmd_is_valid, pmd_flags, pmd_leaf, pmd_set_leaf, PTE_V, PMD_SHIFT, PMD_FLAGS_MASK.
  rewrite (entry_pack 21 19), packed_flags, land_1_lor, packed_addr by lia.
  destruct (Z.eqb_spec (Z.lor 1 f) 1); [lia | done].
Qed.

Lemma pgd_leaf_dec pa f : 0 <= pa < 2 ^ 56 -> pa mod 2 ^ 30 = 0 -> 0 <= f < 1024 -> Z.lor 1 f <> 1 ->
  pgd_is_valid (pgd_set_leaf pa f) = true /\ pgd_is_leaf (pgd_set_leaf pa f) = true /\
  pgd_flags (pgd_set_leaf pa f) = Z.lor 1 f /\ pgd_leaf (pgd_set_leaf pa f) = pa.
Proof.
  intros Hpa Hal Hf Hl. unfold pgd_is_leaf, pgd_is_valid, pgd_flags, pgd_leaf, pgd_set_leaf, PTE_V, PGD_SHIFT, PGD_FLAGS_MASK.
  rewrite (entry_pack 30 28), packed_flags, land_1_lor, packed_addr by lia.
  destruct (Z.eqb_spec (Z.lor 1 f) 1); [lia | done].
Qed.

Lemma pgd_next_dec pa : 0 <= pa < 2 ^ 56 -> pa mod 2 ^ 12 = 0 ->
  pgd_is_valid (pgd_set_next pa) = true /\ pgd_is_leaf (pgd_set_next pa) = false /\
  pgd_next (pgd_set_next pa) = pa.
Proof.
  intros Hpa Hal. unfold pgd_is_leaf, pgd_is_valid, pgd_flags, pgd_next, pgd_set_next, PTE_V, PAGE_SHIFT, PGD_FLAGS_MASK.
  rewrite <- (Z.lor_0_r (Z.lor _ 1)), (entry_pack 12 10), packed_flags, land_1_lor, packed_addr by lia. done.
Qed.

Lemma pmd_next_dec pa : 0 <= pa < 2 ^ 56 -> pa mod 2 ^ 12 = 0 ->
  pmd_is_valid (pmd_set_next pa) = true /\ pmd_is_leaf (pmd_set_next pa) = false /\
  pmd_next (pmd_set_next pa) = pa.
Proof. apply pgd_next_dec. Qed.

(** ** Indices *)

Definition VSPACE : Z := 2 ^ 39.

(** How far [va] lies above [a], modulo the 39 bits the hardware looks at. *)
Definition dist (a va : Z) : Z := (va - a) mod VSPACE.

Lemma index_div (va k : Z) : 0 <= k -> Z.land (Z.shiftr va k) 511 = va / 2 ^ k mod 512.
Proof.
  intros Hk. rewrite Z.shiftr_div_pow2 by lia. change 511 with (2 ^ 9 - 1). rewrite land_ones_mod by lia. done.
Qed.

Lemma pgd_index_div va : pgd_index va = va / 2 ^ 30 mod 512.
Proof. apply (index_div va 30). lia. Qed.
Lemma pmd_index_div va : pmd_index va = va / 2 ^ 21 mod 512.
Proof. apply (index_div va 21). lia. Qed.
Lemma pte_index_div va : pte_index va = va / 2 ^ 12 mod 512.
Proof. apply (index_div va 12). lia. Qed.

Lemma index_bounds va :
  0 <= pgd_index va < 512 /\ 0 <= pmd_index va < 512 /\ 0 <= pte_index va < 512.
Proof. rewrite pgd_index_div, pmd_index_div, pte_index_div. zdm. Qed.

(** The three indices are the digits of the address. *)
Lemma digits va : va mod VSPACE =
  pgd_index va * 2 ^ 30 + pmd_index va * 2 ^ 21 + pte_index va * 2 ^ 12 + va mod 2 ^ 12.
Proof. rewrite pgd_index_div, pmd_index_div, pte_index_div. unfold VSPACE. zdm. Qed.

(** Two addresses reach the same slot of the level with pages of size [z]
    exactly when they lie in the same page. *)
Definition same_slot (z a va : Z) : Prop :=
  pgd_index a = pgd_index va /\
  (z = PAGE_SIZE_1G \/ pmd_index a = pmd_index va /\ (z = PAGE_SIZE_2M \/ pte_index a = pte_index va)).

Definition page_sz (z : Z) : Prop := z = PAGE_SIZE_1G \/ z = PAGE_SIZE_2M \/ z = PAGE_SIZE.

Lemma aligned_digits a :
  (a mod PAGE_SIZE_2M = 0 -> pte_index a = 0) /\
  (a mod PAGE_SIZE_1G = 0 -> pte_index a = 0 /\ pmd_index a = 0).
Proof. rewrite pmd_index_div, pte_index_div. unfold PAGE_SIZE_2M, PAGE_SIZE_1G. zdm. Qed.

Lemma page_sz_4k a z : page_sz z -> a mod z = 0 -> a mod 2 ^ 12 = 0.
Proof. intros [-> | [-> | ->]]; unfold PAGE_SIZE_1G, PAGE_SIZE_2M, PAGE_SIZE; zdm. Qed.

Lemma dist_cases a va : dist a va =
  if va mod VSPACE <? a mod VSPACE then va mod VSPACE - a mod VSPACE + VSPACE else va mod VSPACE - a mod VSPACE.
Proof. unfold dist, VSPACE. destruct (Z.ltb_spec (va mod 2 ^ 39) (a mod 2 ^ 39)); zdm. Qed.

Lemma same_slot_dist z a va : page_sz z -> a mod z = 0 -> same_slot z a va <-> dist a va < z.
Proof.
  intros Hz Ha. pose proof (page_sz_4k a z Hz Ha) as Hk. destruct (aligned_digits a) as [H2 H3].
  rewrite dist_cases, (digits a), (digits va), Hk. unfold same_slot, VSPACE.
  pose proof (index_bounds a) as B1. pose proof (index_bounds va) as B2.
  pose proof (Z.mod_pos_bound va (2 ^ 12) ltac:(lia)) as B3.
  destruct Hz as [-> | [-> | ->]]; unfold PAGE_SIZE_1G, PAGE_SIZE_2M, PAGE_SIZE in *.
  - destruct (H3 Ha) as [-> ->]. destruct (Z.ltb_spec
      (pgd_index va * 2 ^ 30 + pmd_index va * 2 ^ 21 + pte_index va * 2 ^ 12 + va mod 2 ^ 12)
      (pgd_index a * 2 ^ 30 + 0 * 2 ^ 21 + 0 * 2 ^ 12 + 0)); lia.
  - rewrite (H2 Ha). destruct (Z.ltb_spec
      (pgd_index va * 2 ^ 30 + pmd_index va * 2 ^ 21 + pte_index va * 2 ^ 12 + va mod 2 ^ 12)
      (pgd_index a * 2 ^ 30 + pmd_index a * 2 ^ 21 + 0 * 2 ^ 12 + 0)); lia.
  - destruct (Z.ltb_spec
      (pgd_index va * 2 ^ 30 + pmd_index va * 2 ^ 21 + pte_index va * 2 ^ 12 + va mod 2 ^ 12)
      (pgd_index a * 2 ^ 30 + pmd_index a * 2 ^ 21 + pte_index a * 2 ^ 12 + 0)); lia.
Qed.

(** ** Trees of tables

    The role of a frame is its place in the tree.  A frame has one role, so
    no two entries share a table. *)

Inductive role : Set := Root | Pmd (i : Z) | Pt (i j : Z).

Record tree (fr : gmap Z (list Z)) (root : Z) (rl : Z -> option role) : Prop := {
  tr_root : rl root = Some Root;
  tr_uniq : forall t, rl t = Some Root -> t = root;
  tr_table : forall t r, rl t = Some r -> exists l, fr !! t = Some l /\ length l = 512%nat;
  tr_pgd : forall i e, entry fr root i = Some e -> pgd_is_valid e = true -> pgd_is_leaf e = false ->
    rl (pgd_next e) = Some (Pmd i);
  tr_pmd : forall t i j e, rl t = Some (Pmd i) -> entry fr t j = Some e -> pmd_is_valid e = true ->
    pmd_is_leaf e = false -> rl (pmd_next e) = Some (Pt i j)
}.

Lemma entry_table fr root rl t r i : tree fr root rl -> rl t = Some r -> 0 <= i < 512 ->
  exists e, entry fr t i = Some e.
Proof.
  intros Ht Hr Hi. destruct (tr_table _ _ _ Ht t r Hr) as (l & Hl & Hlen). unfold entry.
  rewrite decide_True, Hl by lia. simpl. apply lookup_lt_is_Some_2. lia.
Qed.

Lemma entry_range fr root rl t r i e : tree fr root rl -> rl t = Some r -> entry fr t i = Some e -> 0 <= i < 512.
Proof.
  intros Ht Hr. destruct (tr_table _ _ _ Ht t r Hr) as (l & Hl & Hlen). unfold entry.
  case_decide; [| done]. rewrite Hl. simpl. intros H1%lookup_lt_Some. lia.
Qed.

Lemma load_entry {A} (s : pt_state A) t i e : entry (frames s) t i = Some e -> load s t i = Ret e.
Proof.
  unfold entry, load, rd. case_decide; [| done]. destruct (frames s !! t) as [l |]; [| done]. simpl.
  by intros ->.
Qed.

(** Writing one entry of a table. *)
Definition set_entry (fr : gmap Z (list Z)) (t i v : Z) : gmap Z (list Z) :=
  alter (fun l => <[Z.to_nat i := v]> l) t fr.

Lemma store_entry {A} (s : pt_state A) t i v e : entry (frames s) t i = Some e ->
  store s t i v = Ret (mk_pt (set_entry (frames s) t i v) (pool s)).
Proof.
  unfold entry, store. case_decide; [| done]. destruct (frames s !! t) as [l |] eqn:E; [| done]. simpl.
  intros Hl. pose proof (lookup_lt_Some _ _ _ Hl). rewrite wr_in_range by lia. unfold store_page. rewrite E.
  unfold set_entry. f_equal. f_equal. apply map_eq. intros x. destruct (decide (x = t)) as [-> |].
  - rewrite lookup_insert_eq, lookup_alter_eq, E. done.
  - by rewrite lookup_insert_ne, lookup_alter_ne.
Qed.

Lemma entry_set fr t i v e t' j : entry fr t i = Some e ->
  entry (set_entry fr t i v) t' j = if decide (t' = t /\ j = i) then Some v else entry fr t' j.
Proof.
  unfold entry, set_entry. case_decide as Hi; [| done]. destruct (fr !! t) as [l |] eqn:E; [| done]. simpl.
  intros Hl. pose proof (lookup_lt_Some _ _ _ Hl). destruct (decide (t' = t)) as [-> |].
  - rewrite lookup_alter_eq, E. simpl. destruct (decide (j = i)) as [-> |].
    + rewrite !decide_True by done. by rewrite list_lookup_insert_eq.
    + rewrite (decide_False (P := t = t /\ j = i)) by tauto. case_decide; [| done].
      rewrite list_lookup_insert_ne by lia. done.
  - rewrite lookup_alter_ne by done. rewrite (decide_False (P := t' = t /\ j = i)) by tauto. done.
Qed.

Lemma set_entry_table fr t i v t' l : fr !! t' = Some l ->
  exists l', set_entry fr t i v !! t' = Some l' /\ length l' = length l.
Proof.
  intros Hl. unfold set_entry. destruct (decide (t' = t)) as [-> |].
  - rewrite lookup_alter_eq, Hl. simpl. eexists. split; [done |]. apply length_insert.
  - rewrite lookup_alter_ne by done. eauto.
Qed.

(** No leaf is in the way of a page of size [z] at [va], and no table is in
    the way of a large one. *)
Definition vacant (fr : gmap Z (list Z)) (root z va : Z) : bool :=
  match entry fr root (pgd_index va) with
  | None => false
  | Some e =>
      if negb (pgd_is_valid e) then true
      else if pgd_is_leaf e || (z =? PAGE_SIZE_1G) then false
      else
        match entry fr (pgd_next e) (pmd_index va) with
        | None => false
        | Some e =>
            if negb (pmd_is_valid e) then true
            else if pmd_is_leaf e || (z =? PAGE_SIZE_2M) then false
            else
              match entry fr (pmd_next e) (pte_index va) with
              | None => false
              | Some e => negb (pte_is_valid e)
              end
        end
  end.

Ltac pt_simp := cbn [mbind option_bind negb orb andb].

Lemma vacant_walk fr root z va : vacant fr root z va = true -> walk fr root va = None.
Proof.
  unfold vacant, walk. destruct (entry fr root (pgd_index va)) as [e |]; [| done]. pt_simp.
  destruct (pgd_is_valid e); pt_simp; [| done]. destruct (pgd_is_leaf e); [done |].
  destruct (z =? PAGE_SIZE_1G); [done |]. pt_simp.
  destruct (entry fr (pgd_next e) (pmd_index va)) as [e2 |]; [| done]. pt_simp.
  destruct (pmd_is_valid e2); pt_simp; [| done]. destruct (pmd_is_leaf e2); [done |].
  destruct (z =? PAGE_SIZE_2M); [done |]. pt_simp.
  destruct (entry fr (pmd_next e2) (pte_index va)) as [e3 |]; [| done]. pt_simp. by intros ->.
Qed.

(** What an empty slot says level by level. *)
Lemma vacant_pgd fr root z va : vacant fr root z va = true ->
  exists e, entry fr root (pgd_index va) = Some e /\ pgd_is_leaf e = false /\
    (z = PAGE_SIZE_1G -> pgd_is_valid e = false).
Proof.
  unfold vacant. destruct (entry fr root (pgd_index va)) as [e |]; [| done]. intros H. exists e.
  unfold pgd_is_leaf in *. destruct (pgd_is_valid e); cbn [negb andb] in *; [| done]. split; [done |].
  destruct (pgd_flags e =? PTE_V); cbn [negb orb] in *; [| done]. split; [done |]. intros ->. done.
Qed.

Lemma vacant_pmd fr root z va e1 : vacant fr root z va = true ->
  entry fr root (pgd_index va) = Some e1 -> pgd_is_valid e1 = true ->
  exists e, entry fr (pgd_next e1) (pmd_index va) = Some e /\ pmd_is_leaf e = false /\
    (z = PAGE_SIZE_2M -> pmd_is_valid e = false).
Proof.
  unfold vacant. intros H E1 V1. rewrite E1, V1 in H. cbn [negb] in H.
  destruct (pgd_is_leaf e1 || (z =? PAGE_SIZE_1G)); [done |].
  destruct (entry fr (pgd_next e1) (pmd_index va)) as [e |]; [| done]. exists e.
  unfold pmd_is_leaf in *. destruct (pmd_is_valid e); cbn [negb andb] in *; [| done]. split; [done |].
  destruct (pmd_flags e =? PTE_V); cbn [negb orb] in *; [| done]. split; [done |]. intros ->. done.
Qed.

Lemma vacant_pte fr root z va e1 e2 : vacant fr root z va = true ->
  entry fr root (pgd_index va) = Some e1 -> pgd_is_valid e1 = true ->
  entry fr (pgd_next e1) (pmd_index va) = Some e2 -> pmd_is_valid e2 = true ->
  exists e, entry fr (pmd_next e2) (pte_index va) = Some e /\ pte_is_valid e = false.
Proof.
  unfold vacant. intros H E1 V1 E2 V2. rewrite E1, V1 in H. cbn [negb] in H.
  destruct (pgd_is_leaf e1 || (z =? PAGE_SIZE_1G)); [done |]. rewrite E2, V2 in H. cbn [negb] in H.
  destruct (pmd_is_leaf e2 || (z =? PAGE_SIZE_2M)); [done |].
  destruct (entry fr (pmd_next e2) (pte_index va)) as [e |]; [| done]. exists e. split; [done |].
  by destruct (pte_is_valid e).
Qed.

(** The slots the translation of [va] reads. *)
Definition on_path (rl : Z -> option role) (va t j : Z) : Prop :=
  rl t = Some Root /\ j = pgd_index va \/
  rl t = Some (Pmd (pgd_index va)) /\ j = pmd_index va \/
  rl t = Some (Pt (pgd_index va) (pmd_index va)) /\ j = pte_index va.

Lemma path_agree fr fr' root rl va : tree fr root rl ->
  (forall t j, on_path rl va t j -> entry fr' t j = entry fr t j) ->
  walk fr' root va = walk fr root va /\ forall z, vacant fr' root z va = vacant fr root z va.
Proof.
  intros Ht Hag. unfold walk, vacant.
  rewrite (Hag root) by (left; split; [apply Ht | done]).
  destruct (entry fr root (pgd_index va)) as [e |] eqn:E1; [| done]. pt_simp.
  destruct (pgd_is_valid e) eqn:V1; [| done]. destruct (pgd_is_leaf e) eqn:L1; [done |]. pt_simp.
  pose proof (tr_pgd _ _ _ Ht _ _ E1 V1 L1) as R1.
  rewrite (Hag (pgd_next e)) by (right; left; done).
  destruct (entry fr (pgd_next e) (pmd_index va)) as [e2 |] eqn:E2; [| done]. pt_simp.
  destruct (pmd_is_valid e2) eqn:V2; [| done]. destruct (pmd_is_leaf e2) eqn:L2; [done |]. pt_simp.
  rewrite (Hag (pmd_next e2)) by (right; right; split; [by eapply (tr_pmd _ _ _ Ht) | done]). done.
Qed.

(** ** Changing one entry *)

(** The tables an entry of a table may point to. *)
Definition entry_ok (rl : Z -> option role) (r : role) (i v : Z) : Prop :=
  match r with
  | Root => pgd_is_valid v = true -> pgd_is_leaf v = false -> rl (pgd_next v) = Some (Pmd i)
  | Pmd k => pmd_is_valid v = true -> pmd_is_leaf v = false -> rl (pmd_next v) = Some (Pt k i)
  | Pt _ _ => True
  end.

Lemma tree_set fr root rl t r i v : tree fr root rl -> rl t = Some r -> 0 <= i < 512 ->
  entry_ok rl r i v -> tree (set_entry fr t i v) root rl.
Proof.
  intros Ht Hr Hi Hok. destruct (entry_table _ _ _ _ _ _ Ht Hr Hi) as [old Hold]. split; try apply Ht.
  - intros t' r' Hr'. destruct (tr_table _ _ _ Ht _ _ Hr') as (l & Hl & Hlen).
    destruct (set_entry_table fr t i v t' l Hl) as (l' & Hl' & Hlen'). exists l'. split; [done | lia].
  - intros j e. rewrite (entry_set _ _ _ _ _ _ _ Hold). case_decide as Hd.
    + destruct Hd as [-> ->]. intros [= ->]. rewrite (tr_root _ _ _ Ht) in Hr. injection Hr as <-. apply Hok.
    + apply (tr_pgd _ _ _ Ht).
  - intros t' k j e Hk. rewrite (entry_set _ _ _ _ _ _ _ Hold). case_decide as Hd.
    + destruct Hd as [-> ->]. intros [= ->]. rewrite Hk in Hr. injection Hr as <-. apply Hok.
    + by apply (tr_pmd _ _ _ Ht).
Qed.

(** Entries off the path of [va] do not matter to it. *)
Lemma set_off_path fr root rl t r i v va : tree fr root rl -> rl t = Some r -> 0 <= i < 512 ->
  ~ on_path rl va t i ->
  walk (set_entry fr t i v) root va = walk fr root va /\
  forall z, vacant (set_entry fr t i v) root z va = vacant fr root z va.
Proof.
  intros Ht Hr Hi Hoff. destruct (entry_table _ _ _ _ _ _ Ht Hr Hi) as [old Hold].
  apply (path_agree fr _ root rl); [done |]. intros t' j Hp. rewrite (entry_set _ _ _ _ _ _ _ Hold).
  case_decide as Hd; [| done]. destruct Hd as [-> ->]. done.
Qed.

(** A zeroed frame as a new table. *)
Definition with_role (rl : Z -> option role) (pa : Z) (r : role) (x : Z) : option role :=
  if decide (x = pa) then Some r else rl x.

Lemma entry_zero fr pa i e : entry (<[pa := zero_page]> fr) pa i = Some e -> e = 0.
Proof.
  unfold entry. case_decide; [| done]. rewrite lookup_insert_eq. simpl. intros He.
  by apply lookup_replicate_1 in He as [-> _].
Qed.

Lemma entry_other fr pa l t i : t <> pa -> entry (<[pa := l]> fr) t i = entry fr t i.
Proof. intros H. unfold entry. by rewrite lookup_insert_ne by done. Qed.

Lemma tree_new fr root rl pa r : tree fr root rl -> rl pa = None -> r <> Root ->
  tree (<[pa := zero_page]> fr) root (with_role rl pa r).
Proof.
  intros Ht Hpa Hr.
  assert (Hold : forall t r', rl t = Some r' -> with_role rl pa r t = Some r').
  { intros t r' Ht'. unfold with_role. rewrite decide_False by congruence. done. }
  split.
  - apply Hold, Ht.
  - intros t. unfold with_role. case_decide; [congruence |]. apply Ht.
  - intros t r'. unfold with_role. case_decide as Hd.
    + intros _. subst t. exists zero_page. split; [apply lookup_insert_eq | by apply length_replicate].
    + intros Ht'. rewrite lookup_insert_ne by done. by eapply Ht.
  - intros i e. rewrite entry_other by (intros <-; pose proof (tr_root _ _ _ Ht); congruence).
    intros He Hv Hl. apply Hold. by eapply Ht.
  - intros t i j e. unfold with_role at 1. case_decide as Hd.
    + subst t. intros _ ->%entry_zero. done.
    + intros Ht'. rewrite entry_other by done. intros He Hv Hl. apply Hold. by eapply Ht.
Qed.

Lemma new_agree fr root rl pa va : tree fr root rl -> rl pa = None ->
  walk (<[pa := zero_page]> fr) root va = walk fr root va /\
  forall z, vacant (<[pa := zero_page]> fr) root z va = vacant fr root z va.
Proof.
  intros Ht Hpa. apply (path_agree fr _ root rl); [done |]. intros t j Hp. apply entry_other.
  intros ->. destruct Hp as [[? _] | [[? _] | [? _]]]; congruence.
Qed.

(** ** New tables *)

Section Mapping.

Context {A : Type} `{PF : PageFrames A}.
Implicit Types (s : pt_state A) (rl : Z -> option role).

(** The tables of the tree are not free, and every free frame is memory. *)
Record pt_inv s root rl : Prop := {
  pi_tree : tree (frames s) root rl;
  pi_pool : pf_inv (pool s);
  pi_used : forall t r, rl t = Some r -> ~ pf_free (pool s) t;
  pi_held : forall t r, rl t = Some r -> t <> root -> pf_held (pool s) t;
  pi_backed : forall x, pf_free (pool s) x -> is_Some (frames s !! x)
}.

(** What an operation on a tree leaves alone: the frames in use by others. *)
Record grows root s rl s' rl' : Prop := {
  gr_inv : pt_inv s' root rl';
  gr_roles : forall t r, rl t = Some r -> rl' t = Some r;
  gr_new : forall t r, rl' t = Some r -> rl t = None -> pf_free (pool s) t;
  gr_free : forall x, pf_free (pool s') x -> pf_free (pool s) x;
  gr_held : forall x, pf_held (pool s) x -> pf_held (pool s') x;
  gr_frame : forall x, ~ pf_free (pool s) x -> rl x = None -> frames s' !! x = frames s !! x
}.

Lemma grows_refl root s rl : pt_inv s root rl -> grows root s rl s rl.
Proof. intros H. split; try done. intros t r H1 H2. congruence. Qed.

Lemma grows_trans root s1 rl1 s2 rl2 s3 rl3 :
  grows root s1 rl1 s2 rl2 -> grows root s2 rl2 s3 rl3 -> grows root s1 rl1 s3 rl3.
Proof.
  intros G1 G2. split.
  - apply G2.
  - intros t r H. by apply G2, G1.
  - intros t r H3 H1. destruct (rl2 t) as [r2 |] eqn:E; [by eapply (gr_new _ _ _ _ _ G1) |].
    by eapply (gr_free _ _ _ _ _ G1), (gr_new _ _ _ _ _ G2).
  - intros x H. by apply (gr_free _ _ _ _ _ G1), (gr_free _ _ _ _ _ G2).
  - intros x H. by apply (gr_held _ _ _ _ _ G2), (gr_held _ _ _ _ _ G1).
  - intros x Hf H1. rewrite (gr_frame _ _ _ _ _ G2); [by apply G1 | |].
    + intros H. by apply Hf, (gr_free _ _ _ _ _ G1).
    + destruct (rl2 x) as [r2 |] eqn:E; [| done]. by destruct (Hf (gr_new _ _ _ _ _ G1 x r2 E H1)).
Qed.

Lemma grows_set root s rl t r i v : pt_inv s root rl -> rl t = Some r -> 0 <= i < 512 -> entry_ok rl r i v ->
  grows root s rl (mk_pt (set_entry (frames s) t i v) (pool s)) rl.
Proof.
  intros [I1 I2 I3 I4 I5] Hr Hi Hok. split; try done.
  - split; try done; cbn [frames pool].
    + by eapply tree_set.
    + intros x Hx. destruct (I5 x Hx) as [l Hl]. destruct (set_entry_table _ t i v _ _ Hl) as (l' & -> & _). done.
  - intros x r' H1 H2. congruence.
  - intros x _ Hx. cbn [frames]. unfold set_entry. rewrite lookup_alter_ne; [done |]. congruence.
Qed.

(** A frame from the allocator, zeroed, as a table of the tree. *)
Lemma alloc_table_spec root s rl r : pt_inv s root rl -> r <> Root ->
  exists s1 pa, page_alloc_phys s 0 = Ret (s1, pa) /\ frames s1 = frames s /\
    (pa = 0 -> grows root s rl s1 rl) /\
    (pa <> 0 -> pa mod 2 ^ 12 = 0 /\ 0 <= pa < 2 ^ 56 /\ rl pa = None /\
       exists s2, store_page s1 pa zero_page = Ret s2 /\ frames s2 = <[pa := zero_page]> (frames s) /\
         grows root s rl s2 (with_role rl pa r)).
Proof.
  intros [I1 I2 I3 I4 I5] Hr. unfold page_alloc_phys.
  destruct (pf_alloc_ok (pool s) 0 I2 ltac:(unfold PAGE_ORDER_MAX; lia)) as (a & o & -> & Ha & Hfree & Hheld & Ho).
  eexists _, _. split; [reflexivity |]. cbn [frames]. split; [done |]. destruct o as [pa |]; split; [lia | | | done].
  - intros _. destruct Ho as (Hal & Hp & Hb & Hh & Hk). change (2 ^ (12 + 0)) with 4096 in *.
    destruct (Hk 0) as [Hf Hnf]; [lia |]. rewrite Z.mul_0_r, Z.add_0_r in *.
    assert (Hnone : rl pa = None).
    { destruct (rl pa) as [r' |] eqn:E; [| done]. by destruct (I3 pa r' E). }
    split_and!; [done | lia | lia | done |]. unfold store_page. cbn [frames pool].
    destruct (I5 pa Hf) as [l ->]. eexists. split; [reflexivity |]. split; [done |].
    assert (Hrole : forall t r', with_role rl pa r t = Some r' -> t = pa \/ rl t = Some r').
    { intros t r'. unfold with_role. case_decide; tauto. }
    split; cbn [frames pool]; try done.
    + split; cbn [frames pool]; try done.
      * by apply tree_new.
      * intros t r' [-> | Ht]%Hrole; [done |]. intros Hx. by eapply I3, Hfree.
      * intros t r' [-> | Ht]%Hrole Hne; [by apply Hh | by eapply Hheld, I4].
      * intros x Hx. destruct (decide (x = pa)) as [-> |].
        -- rewrite lookup_insert_eq. done.
        -- rewrite lookup_insert_ne by done. by apply I5, Hfree.
    + intros t r' Ht. unfold with_role. rewrite decide_False by congruence. done.
    + intros t r' [-> | Ht]%Hrole Hn; [done | congruence].
    + intros x Hx _. rewrite lookup_insert_ne; [done |]. intros <-. done.
  - intros _. split; cbn [frames pool]; try done.
    + split; cbn [frames pool]; try done.
      * intros t r' Ht Hx. by eapply I3, Hfree.
      * intros t r' Ht Hne. by eapply Hheld, I4.
      * intros x Hx. by apply I5, Hfree.
    + intros t r' H1 H2. congruence.
Qed.

(** The table below an entry that holds no leaf, before the mapping itself. *)
Record next_ok root s rl s' rl' (gi mi : Z) (z0 : Z) : Prop := {
  nx_grows : grows root s rl s' rl';
  nx_walk : forall va, walk (frames s') root va = walk (frames s) root va;
  nx_vacant : forall va z,
    (z = z0 -> ~ (pgd_index va = gi /\ (z0 = PAGE_SIZE_2M -> pmd_index va = mi))) ->
    vacant (frames s') root z va = vacant (frames s) root z va
}.

Lemma next_pgd_spec root s rl gi e : pt_inv s root rl -> 0 <= gi < 512 ->
  entry (frames s) root gi = Some e -> pgd_is_leaf e = false ->
  exists s' t, next_table s root gi pgd_is_valid pgd_next pgd_set_next = Ret (s', t) /\
    match t with
    | None => frames s' = frames s /\ grows root s rl s' rl
    | Some pmd => exists rl' e', next_ok root s rl s' rl' gi 0 PAGE_SIZE_1G /\
        entry (frames s') root gi = Some e' /\ pgd_is_valid e' = true /\ pgd_is_leaf e' = false /\
        pgd_next e' = pmd
    end.
Proof.
  intros Hinv Hgi He Hleaf. unfold next_table. rewrite (load_entry _ _ _ _ He).
  destruct (pgd_is_valid e) eqn:Hv; cbn [negb].
  { do 2 eexists. split; [reflexivity |]. exists rl, e. split_and!; try done. split; [by apply grows_refl | done | done]. }
  destruct (alloc_table_spec root s rl (Pmd gi) Hinv ltac:(done)) as (s1 & pa & -> & Hfr & Hz & Hnz).
  destruct (Z.eqb_spec pa 0) as [-> | Hpa]; [eexists _, None; split; [reflexivity |]; by split; [| apply Hz] |].
  destruct (Hnz Hpa) as (Hal & Hb & Hnone & s2 & -> & Hfr2 & Hg). clear Hz Hnz.
  pose proof (gr_inv _ _ _ _ _ Hg) as Hinv2. pose proof (pi_tree _ _ _ Hinv2) as Ht2.
  pose proof (pi_tree _ _ _ Hinv) as Ht. pose proof (tr_root _ _ _ Ht2) as Hroot.
  destruct (pgd_next_dec pa Hb Hal) as (D1 & D2 & D3).
  assert (Hne : root <> pa) by (intros ->; rewrite (tr_root _ _ _ Ht) in Hnone; done).
  assert (He2 : entry (frames s2) root gi = Some e) by (by rewrite Hfr2, entry_other).
  rewrite (store_entry _ _ _ _ _ He2). eexists _, (Some pa). split; [reflexivity |].
  exists (with_role rl pa (Pmd gi)), (pgd_set_next pa). cbn [frames].
  rewrite (entry_set _ _ _ _ _ _ _ He2), decide_True by done. split_and!; try done.
  assert (Hok : entry_ok (with_role rl pa (Pmd gi)) Root gi (pgd_set_next pa)).
  { intros _ _. rewrite D3. unfold with_role. by rewrite decide_True. }
  assert (Hin : forall va, pgd_index va = gi ->
    walk (set_entry (frames s2) root gi (pgd_set_next pa)) root va = None /\
    walk (frames s) root va = None /\
    forall z, z <> PAGE_SIZE_1G -> vacant (set_entry (frames s2) root gi (pgd_set_next pa)) root z va = true /\
      vacant (frames s) root z va = true).
  { intros va Hva. unfold walk, vacant. rewrite Hva, He, !(entry_set _ _ _ _ _ _ _ He2), decide_True by done.
    pt_simp. rewrite Hv, D1, D2, D3. pt_simp.
    rewrite (entry_set _ _ _ _ _ _ _ He2), decide_False by (intros [? _]; congruence).
    destruct (entry_table _ _ _ pa (Pmd gi) (pmd_index va) Ht2) as [e2 E2];
      [unfold with_role; by rewrite decide_True | apply index_bounds |].
    rewrite E2. rewrite Hfr2 in E2. apply entry_zero in E2 as ->. pt_simp. split_and!; try done.
    intros z Hz. apply Z.eqb_neq in Hz as ->. done. }
  assert (Hout : forall va, pgd_index va <> gi ->
    walk (set_entry (frames s2) root gi (pgd_set_next pa)) root va = walk (frames s) root va /\
    forall z, vacant (set_entry (frames s2) root gi (pgd_set_next pa)) root z va = vacant (frames s) root z va).
  { intros va Hva. destruct (set_off_path (frames s2) root _ root Root gi (pgd_set_next pa) va Ht2 Hroot Hgi) as [W V].
    { intros [[_ ?] | [[? _] | [? _]]]; congruence. }
    destruct (new_agree (frames s) root rl pa va Ht Hnone) as [W2 V2]. rewrite <- Hfr2 in W2, V2.
    split; [congruence |]. intros z. by rewrite V, V2. }
  split; cbn [frames].
  - eapply grows_trans; [exact Hg |]. by apply (grows_set _ _ _ _ Root).
  - intros va. destruct (decide (pgd_index va = gi)) as [E | E]; [destruct (Hin va E) as (-> & -> & _); done | by apply Hout].
  - intros va z Hz. destruct (decide (pgd_index va = gi)) as [E | E]; [| by apply Hout].
    destruct (Hin va E) as (_ & _ & Hvac). destruct (Hvac z) as [-> ->]; [| done].
    intros ->. apply Hz; [done |]. split; [done |]. done.
Qed.

Lemma next_pmd_spec root s rl gi mi e1 e : pt_inv s root rl -> 0 <= gi < 512 -> 0 <= mi < 512 ->
  entry (frames s) root gi = Some e1 -> pgd_is_valid e1 = true -> pgd_is_leaf e1 = false ->
  entry (frames s) (pgd_next e1) mi = Some e -> pmd_is_leaf e = false ->
  exists s' t, next_table s (pgd_next e1) mi pmd_is_valid pmd_next pmd_set_next = Ret (s', t) /\
    match t with
    | None => frames s' = frames s /\ grows root s rl s' rl
    | Some pt => exists rl' e', next_ok root s rl s' rl' gi mi PAGE_SIZE_2M /\
        entry (frames s') root gi = Some e1 /\
        entry (frames s') (pgd_next e1) mi = Some e' /\ pmd_is_valid e' = true /\ pmd_is_leaf e' = false /\
        pmd_next e' = pt
    end.
Proof.
  intros Hinv Hgi Hmi He1 Hv1 Hl1 He Hleaf. unfold next_table. rewrite (load_entry _ _ _ _ He).
  destruct (pmd_is_valid e) eqn:Hv; cbn [negb].
  { do 2 eexists. split; [reflexivity |]. exists rl, e. split_and!; try done. split; [by apply grows_refl | done | done]. }
  destruct (alloc_table_spec root s rl (Pt gi mi) Hinv ltac:(done)) as (s1 & pa & -> & Hfr & Hz & Hnz).
  destruct (Z.eqb_spec pa 0) as [-> | Hpa]; [eexists _, None; split; [reflexivity |]; by split; [| apply Hz] |].
  destruct (Hnz Hpa) as (Hal & Hb & Hnone & s2 & -> & Hfr2 & Hg). clear Hz Hnz.
  pose proof (gr_inv _ _ _ _ _ Hg) as Hinv2. pose proof (pi_tree _ _ _ Hinv2) as Ht2.
  pose proof (pi_tree _ _ _ Hinv) as Ht. set (pmd := pgd_next e1) in *.
  pose proof (tr_pgd _ _ _ Ht _ _ He1 Hv1 Hl1) as Hpmd. fold pmd in Hpmd.
  pose proof (gr_roles _ _ _ _ _ Hg _ _ Hpmd) as Hpmd2.
  destruct (pmd_next_dec pa Hb Hal) as (D1 & D2 & D3).
  assert (Hne0 : root <> pa) by (intros ->; rewrite (tr_root _ _ _ Ht) in Hnone; done).
  assert (Hne : pmd <> pa) by congruence.
  assert (Hrp : root <> pmd) by (intros E; rewrite <- E, (tr_root _ _ _ Ht) in Hpmd; done).
  assert (He12 : entry (frames s2) root gi = Some e1) by (by rewrite Hfr2, entry_other).
  assert (He2 : entry (frames s2) pmd mi = Some e) by (by rewrite Hfr2, entry_other).
  rewrite (store_entry _ _ _ _ _ He2). eexists _, (Some pa). split; [reflexivity |].
  exists (with_role rl pa (Pt gi mi)), (pmd_set_next pa). cbn [frames].
  set (fr' := set_entry (frames s2) pmd mi (pmd_set_next pa)).
  assert (Hset : forall t j, entry fr' t j = if decide (t = pmd /\ j = mi) then Some (pmd_set_next pa) else entry (frames s2) t j).
  { intros t j. exact (entry_set _ _ _ _ _ _ _ He2). }
  rewrite !Hset, decide_False by (intros [? _]; done). rewrite decide_True by done. split_and!; try done.
  assert (Hok : entry_ok (with_role rl pa (Pt gi mi)) (Pmd gi) mi (pmd_set_next pa)).
  { intros _ _. rewrite D3. unfold with_role. by rewrite decide_True. }
  assert (Hin : forall va, pgd_index va = gi -> pmd_index va = mi ->
    walk fr' root va = None /\ walk (frames s) root va = None /\
    forall z, z <> PAGE_SIZE_2M -> vacant fr' root z va = negb (z =? PAGE_SIZE_1G) /\
      vacant (frames s) root z va = negb (z =? PAGE_SIZE_1G)).
  { intros va Hva Hvm. unfold walk, vacant. rewrite Hva, Hvm, He1, !Hset, decide_False by (intros [? _]; done).
    rewrite He12. pt_simp. rewrite Hv1, Hl1. pt_simp. fold pmd. rewrite He, Hset, decide_True by done.
    pt_simp. rewrite Hv, D1, D2, D3. pt_simp. rewrite Hset, decide_False by (intros [? _]; congruence).
    destruct (entry_table _ _ _ pa (Pt gi mi) (pte_index va) Ht2) as [e3 E3];
      [unfold with_role; by rewrite decide_True | apply index_bounds |].
    rewrite E3. rewrite Hfr2 in E3. apply entry_zero in E3 as ->. pt_simp. split_and!; try done.
    intros z Hz. apply Z.eqb_neq in Hz as ->. by destruct (z =? PAGE_SIZE_1G). }
  assert (Hout : forall va, ~ (pgd_index va = gi /\ pmd_index va = mi) ->
    walk fr' root va = walk (frames s) root va /\ forall z, vacant fr' root z va = vacant (frames s) root z va).
  { intros va Hva. destruct (set_off_path (frames s2) root _ pmd (Pmd gi) mi (pmd_set_next pa) va Ht2 Hpmd2 Hmi) as [W V].
    { intros [[? _] | [[? ?] | [? _]]]; [congruence | | congruence]. apply Hva. split; [congruence | done]. }
    destruct (new_agree (frames s) root rl pa va Ht Hnone) as [W2 V2]. rewrite <- Hfr2 in W2, V2.
    unfold fr'. split; [congruence |]. intros z. by rewrite V, V2. }
  split; cbn [frames].
  - eapply grows_trans; [exact Hg |]. by apply (grows_set _ _ _ _ (Pmd gi)).
  - intros va. destruct (decide (pgd_index va = gi /\ pmd_index va = mi)) as [[E1 E2] | E];
      [destruct (Hin va E1 E2) as (-> & -> & _); done | by apply Hout].
  - intros va z Hz. destruct (decide (pgd_index va = gi /\ pmd_index va = mi)) as [[E1 E2] | E]; [| by apply Hout].
    destruct (Hin va E1 E2) as (_ & _ & Hvac). destruct (Hvac z) as [-> ->]; [| done].
    intros ->. by apply Hz.
Qed.

(** ** Writing a leaf slot *)

#[local] Instance same_slot_dec z a va : Decision (same_slot z a va).
Proof. unfold same_slot. apply _. Defined.

(** The slot of size [z] at [a] now translates to [w]. *)
Record slot_set root s rl s' (z a : Z) (w : option (Z * Z * Z)) : Prop := {
  ss_grows : grows root s rl s' rl;
  ss_walk : forall va, walk (frames s') root va = if decide (same_slot z a va) then w else walk (frames s) root va;
  ss_vacant : forall va z', ~ same_slot z a va -> vacant (frames s') root z' va = vacant (frames s) root z' va
}.

Lemma slot_set_intro root s rl t r i v z a w :
  pt_inv s root rl -> rl t = Some r -> 0 <= i < 512 -> entry_ok rl r i v ->
  (forall va, on_path rl va t i -> same_slot z a va) ->
  (forall va, same_slot z a va -> walk (set_entry (frames s) t i v) root va = w) ->
  slot_set root s rl (mk_pt (set_entry (frames s) t i v) (pool s)) z a w.
Proof.
  intros Hinv Hr Hi Hok Hon Hin.
  assert (Hoff : forall va, ~ same_slot z a va -> ~ on_path rl va t i) by (intros va H1 H2; by apply H1, Hon).
  split; cbn [frames].
  - by eapply grows_set.
  - intros va. case_decide as Hd; [by apply Hin |].
    by destruct (set_off_path _ _ _ _ _ i v va (pi_tree _ _ _ Hinv) Hr Hi (Hoff va Hd)).
  - intros va z' Hd. by destruct (set_off_path _ _ _ _ _ i v va (pi_tree _ _ _ Hinv) Hr Hi (Hoff va Hd)) as [_ ->].
Qed.

Lemma leaf_pgd_spec root s rl a e v : pt_inv s root rl ->
  entry (frames s) root (pgd_index a) = Some e -> (pgd_is_valid v = true -> pgd_is_leaf v = true) ->
  exists s', store s root (pgd_index a) v = Ret s' /\
    slot_set root s rl s' PAGE_SIZE_1G a
      (if pgd_is_valid v then Some (pgd_leaf v, pgd_flags v, PAGE_SIZE_1G) else None).
Proof.
  intros Hinv He Hv. rewrite (store_entry _ _ _ _ _ He). eexists. split; [reflexivity |].
  pose proof (tr_root _ _ _ (pi_tree _ _ _ Hinv)) as Hroot.
  apply (slot_set_intro _ _ _ _ Root); try done.
  - apply index_bounds.
  - intros H1 H2. rewrite Hv in H2; done.
  - intros va [[_ E] | [[? _] | [? _]]]; [| congruence | congruence]. split; [done | by left].
  - intros va [E _]. unfold walk. rewrite <- E, (entry_set _ _ _ _ _ _ _ He), decide_True by done. pt_simp.
    destruct (pgd_is_valid v); [| done]. by rewrite Hv.
Qed.

Lemma leaf_pmd_spec root s rl a e1 e v : pt_inv s root rl ->
  entry (frames s) root (pgd_index a) = Some e1 -> pgd_is_valid e1 = true -> pgd_is_leaf e1 = false ->
  entry (frames s) (pgd_next e1) (pmd_index a) = Some e -> (pmd_is_valid v = true -> pmd_is_leaf v = true) ->
  exists s', store s (pgd_next e1) (pmd_index a) v = Ret s' /\
    slot_set root s rl s' PAGE_SIZE_2M a
      (if pmd_is_valid v then Some (pmd_leaf v, pmd_flags v, PAGE_SIZE_2M) else None).
Proof.
  intros Hinv He1 Hv1 Hl1 He Hv. rewrite (store_entry _ _ _ _ _ He). eexists. split; [reflexivity |].
  pose proof (tr_pgd _ _ _ (pi_tree _ _ _ Hinv) _ _ He1 Hv1 Hl1) as Hpmd.
  pose proof (tr_root _ _ _ (pi_tree _ _ _ Hinv)) as Hroot.
  apply (slot_set_intro _ _ _ _ (Pmd (pgd_index a))); try done.
  - apply index_bounds.
  - intros H1 H2. rewrite Hv in H2; done.
  - intros va [[? _] | [[E E'] | [? _]]]; [congruence | | congruence].
    split; [congruence |]. right. split; [done | by left].
  - intros va [Eg [? | [Em _]]]; [done |]. unfold walk.
    rewrite (entry_set _ _ _ _ _ _ _ He), <- Eg, decide_False by (intros [E _]; rewrite <- E in Hpmd; congruence).
    rewrite He1. pt_simp. rewrite Hv1, Hl1. pt_simp.
    rewrite (entry_set _ _ _ _ _ _ _ He), <- Em, decide_True by done. pt_simp.
    destruct (pmd_is_valid v); [| done]. by rewrite Hv.
Qed.

Lemma leaf_pte_spec root s rl a e1 e2 e v : pt_inv s root rl ->
  entry (frames s) root (pgd_index a) = Some e1 -> pgd_is_valid e1 = true -> pgd_is_leaf e1 = false ->
  entry (frames s) (pgd_next e1) (pmd_index a) = Some e2 -> pmd_is_valid e2 = true -> pmd_is_leaf e2 = false ->
  entry (frames s) (pmd_next e2) (pte_index a) = Some e ->
  exists s', store s (pmd_next e2) (pte_index a) v = Ret s' /\
    slot_set root s rl s' PAGE_SIZE a
      (if pte_is_valid v then Some (pte_leaf v, pte_flags v, PAGE_SIZE) else None).
Proof.
  intros Hinv He1 Hv1 Hl1 He2 Hv2 Hl2 He. rewrite (store_entry _ _ _ _ _ He). eexists. split; [reflexivity |].
  pose proof (tr_pgd _ _ _ (pi_tree _ _ _ Hinv) _ _ He1 Hv1 Hl1) as Hpmd.
  pose proof (tr_pmd _ _ _ (pi_tree _ _ _ Hinv) _ _ _ _ Hpmd He2 Hv2 Hl2) as Hpt.
  pose proof (tr_root _ _ _ (pi_tree _ _ _ Hinv)) as Hroot.
  apply (slot_set_intro _ _ _ _ (Pt (pgd_index a) (pmd_index a))); try done.
  - apply index_bounds.
  - intros va [[? _] | [[? _] | [E E']]]; [congruence | congruence |].
    split; [congruence |]. right. split; [congruence |]. by right.
  - intros va [Eg [? | [Em [? | Et]]]]; [done | done |]. unfold walk.
    rewrite (entry_set _ _ _ _ _ _ _ He), <- Eg, decide_False by (intros [E _]; rewrite <- E in Hpt; congruence).
    rewrite He1. pt_simp. rewrite Hv1, Hl1. pt_simp.
    rewrite (entry_set _ _ _ _ _ _ _ He), <- Em, decide_False by (intros [E _]; rewrite <- E in Hpt; congruence).
    rewrite He2. pt_simp. rewrite Hv2, Hl2. pt_simp.
    rewrite (entry_set _ _ _ _ _ _ _ He), <- Et, decide_True by done. pt_simp.
    by destruct (pte_is_valid v).
Qed.

(** ** Mapping one page *)

Record mapped_one root s rl s' rl' (z a pa f : Z) : Prop := {
  mo_grows : grows root s rl s' rl';
  mo_walk : forall va, walk (frames s') root va =
    if decide (same_slot z a va) then Some (pa, Z.lor 1 f, z) else walk (frames s) root va;
  mo_vacant : forall va z', page_sz z' -> z' <= z -> ~ same_slot z a va ->
    vacant (frames s') root z' va = vacant (frames s) root z' va
}.

Lemma mapped_after root s0 rl0 s rl s' z a pa f gi mi z0 :
  next_ok root s0 rl0 s rl gi mi z0 -> z < z0 -> slot_set root s rl s' z a (Some (pa, Z.lor 1 f, z)) ->
  mapped_one root s0 rl0 s' rl z a pa f.
Proof.
  intros [N1 N2 N3] Hz [S1 S2 S3]. split.
  - by eapply grows_trans.
  - intros va. rewrite S2, N2. done.
  - intros va z' _ Hz' Hns. rewrite S3 by done. apply N3. lia.
Qed.

Lemma mapped_trans root s0 rl0 s rl s' rl' z a pa f gi mi z0 :
  next_ok root s0 rl0 s rl gi mi z0 -> z < z0 -> mapped_one root s rl s' rl' z a pa f ->
  mapped_one root s0 rl0 s' rl' z a pa f.
Proof.
  intros [N1 N2 N3] Hz [S1 S2 S3]. split.
  - by eapply grows_trans.
  - intros va. rewrite S2, N2. done.
  - intros va z' Hp Hz' Hns. rewrite S3 by done. apply N3. lia.
Qed.

Definition flags_ok (f : Z) : Prop := 0 <= f < 1024 /\ Z.lor 1 f <> 1.

Lemma map_1g_spec root s rl a pa f : pt_inv s root rl -> vacant (frames s) root PAGE_SIZE_1G a = true ->
  0 <= pa < 2 ^ 56 -> pa mod 2 ^ 30 = 0 -> flags_ok f ->
  exists s', map_one s root a pa PAGE_SIZE_1G f = Ret (s', true) /\ mapped_one root s rl s' rl PAGE_SIZE_1G a pa f.
Proof.
  intros Hinv Hvac Hpa Hal [Hf Hlf]. unfold map_one. rewrite Z.eqb_refl.
  destruct (vacant_pgd _ _ _ _ Hvac) as (e & He & Hl & Hv). rewrite (load_entry _ _ _ _ He), (Hv eq_refl). cbn [negb].
  destruct (pgd_leaf_dec pa f Hpa Hal Hf Hlf) as (D1 & D2 & D3 & D4).
  destruct (leaf_pgd_spec root s rl a e (pgd_set_leaf pa f) Hinv He ltac:(done)) as (s' & -> & [S1 S2 S3]).
  rewrite D1, D3, D4 in S2. exists s'. split; [done |]. split; [done | done |]. intros va z' _ _ Hns. by apply S3.
Qed.

Lemma map_2m_spec root s rl a pa f : pt_inv s root rl -> vacant (frames s) root PAGE_SIZE_2M a = true ->
  0 <= pa < 2 ^ 56 -> pa mod 2 ^ 21 = 0 -> flags_ok f ->
  exists s' ok, map_one s root a pa PAGE_SIZE_2M f = Ret (s', ok) /\
    if ok then exists rl', mapped_one root s rl s' rl' PAGE_SIZE_2M a pa f
    else frames s' = frames s /\ grows root s rl s' rl.
Proof.
  intros Hinv Hvac Hpa Hal [Hf Hlf]. unfold map_one. cbn [Z.eqb]. change (PAGE_SIZE_2M =? PAGE_SIZE_1G) with false. cbv iota.
  destruct (vacant_pgd _ _ _ _ Hvac) as (e & He & Hl & _).
  destruct (next_pgd_spec root s rl (pgd_index a) e Hinv ltac:(apply index_bounds) He Hl) as (s1 & t & -> & Ht).
  destruct t as [pmd |]; [| by exists s1, false].
  destruct Ht as (rl1 & e1 & Hn & He1 & Hv1 & Hl1 & <-). change (PAGE_SIZE_2M =? PAGE_SIZE_2M) with true. cbv iota.
  pose proof (gr_inv _ _ _ _ _ (nx_grows _ _ _ _ _ _ _ _ Hn)) as Hinv1.
  rewrite <- (nx_vacant _ _ _ _ _ _ _ _ Hn) in Hvac by done.
  destruct (vacant_pmd _ _ _ _ _ Hvac He1 Hv1) as (e2 & He2 & Hl2 & Hv2).
  rewrite (load_entry _ _ _ _ He2), (Hv2 eq_refl). cbn [negb].
  destruct (pmd_leaf_dec pa f Hpa Hal Hf Hlf) as (D1 & D2 & D3 & D4).
  destruct (leaf_pmd_spec root s1 rl1 a e1 e2 (pmd_set_leaf pa f) Hinv1 He1 Hv1 Hl1 He2 ltac:(done)) as (s' & -> & Hs).
  rewrite D1, D3, D4 in Hs. exists s', true. split; [done |]. exists rl1. by eapply mapped_after.
Qed.

Lemma map_4k_spec root s rl a pa f : pt_inv s root rl -> vacant (frames s) root PAGE_SIZE a = true ->
  0 <= pa < 2 ^ 56 -> pa mod 2 ^ 12 = 0 -> flags_ok f ->
  exists s' ok, map_one s root a pa PAGE_SIZE f = Ret (s', ok) /\
    if ok then exists rl', mapped_one root s rl s' rl' PAGE_SIZE a pa f
    else exists rl', grows root s rl s' rl' /\ forall va, walk (frames s') root va = walk (frames s) root va.
Proof.
  intros Hinv Hvac Hpa Hal [Hf Hlf]. unfold map_one.
  change (PAGE_SIZE =? PAGE_SIZE_1G) with false. change (PAGE_SIZE =? PAGE_SIZE_2M) with false. cbv iota.
  destruct (vacant_pgd _ _ _ _ Hvac) as (e & He & Hl & _).
  destruct (next_pgd_spec root s rl (pgd_index a) e Hinv ltac:(apply index_bounds) He Hl) as (s1 & t & -> & Ht).
  destruct t as [pmd |]; [| destruct Ht as [E G]; exists s1, false; split; [done |]; exists rl; by rewrite E].
  destruct Ht as (rl1 & e1 & Hn & He1 & Hv1 & Hl1 & <-).
  pose proof (gr_inv _ _ _ _ _ (nx_grows _ _ _ _ _ _ _ _ Hn)) as Hinv1.
  rewrite <- (nx_vacant _ _ _ _ _ _ _ _ Hn) in Hvac by done.
  destruct (vacant_pmd _ _ _ _ _ Hvac He1 Hv1) as (e2 & He2 & Hl2 & _).
  destruct (next_pmd_spec root s1 rl1 (pgd_index a) (pmd_index a) e1 e2 Hinv1 ltac:(apply index_bounds)
    ltac:(apply index_bounds) He1 Hv1 Hl1 He2 Hl2) as (s2 & t & -> & Ht).
  destruct t as [pt |].
  2: { destruct Ht as [E G]. exists s2, false. split; [done |]. exists rl1. rewrite E.
       split; [eapply grows_trans; [apply Hn | done] | apply Hn]. }
  destruct Ht as (rl2 & e2' & Hn2 & He12 & He22 & Hv2 & Hl2' & <-).
  pose proof (gr_inv _ _ _ _ _ (nx_grows _ _ _ _ _ _ _ _ Hn2)) as Hinv2.
  rewrite <- (nx_vacant _ _ _ _ _ _ _ _ Hn2) in Hvac by done.
  destruct (vacant_pte _ _ _ _ _ _ Hvac He12 Hv1 He22 Hv2) as (e3 & He3 & Hv3).
  rewrite (load_entry _ _ _ _ He3), Hv3. cbn [negb].
  destruct (pte_leaf_dec pa f Hpa Hal Hf) as (D1 & D2 & D3).
  destruct (leaf_pte_spec root s2 rl2 a e1 e2' e3 (pte_set_leaf pa f) Hinv2 He12 Hv1 Hl1 He22 Hv2 Hl2' He3) as (s' & -> & Hs).
  rewrite D1, D2, D3 in Hs. exists s', true. split; [done |]. exists rl2.
  eapply mapped_trans; [exact Hn | done |]. by eapply mapped_after.
Qed.

Lemma map_one_spec root s rl z a pa f : pt_inv s root rl -> page_sz z -> vacant (frames s) root z a = true ->
  0 <= pa < 2 ^ 56 -> pa mod z = 0 -> flags_ok f ->
  exists s' ok, map_one s root a pa z f = Ret (s', ok) /\
    if ok then exists rl', mapped_one root s rl s' rl' z a pa f
    else exists rl', grows root s rl s' rl' /\ forall va, walk (frames s') root va = walk (frames s) root va.
Proof.
  intros Hinv [-> | [-> | ->]] Hvac Hpa Hal Hf.
  - destruct (map_1g_spec root s rl a pa f) as (s' & -> & H); try done. exists s', true. eauto.
  - destruct (map_2m_spec root s rl a pa f) as (s' & ok & -> & H); try done. exists s', ok. split; [done |].
    destruct ok; [done |]. destruct H as [E G]. exists rl. by rewrite E.
  - by apply map_4k_spec.
Qed.

(** ** Unmapping *)

(** The addresses from [a] to [e] are whole leaves. *)
Inductive leaves (w : Z -> option (Z * Z * Z)) : Z -> Z -> Prop :=
| leaves_nil a : leaves w a a
| leaves_cons a e b f z : w a = Some (b, f, z) -> page_sz z -> a mod z = 0 -> a + z <= e ->
    leaves w (a + z) e -> leaves w a e.

Lemma page_sz_bounds z : page_sz z -> 4096 <= z <= VSPACE /\ z mod 4096 = 0.
Proof. by intros [-> | [-> | ->]]. Qed.

Lemma leaves_le w a e : leaves w a e -> a <= e.
Proof. induction 1 as [| a e b f z H1 H2 H3 H4 H5 IH]; [lia |]. pose proof (page_sz_bounds z H2). lia. Qed.

Lemma leaves_ext w w' a e : (forall va, a <= va < e -> w' va = w va) -> leaves w a e -> leaves w' a e.
Proof.
  intros Hw H. induction H as [| a e b f z H1 H2 H3 H4 H5 IH]; [constructor |].
  pose proof (page_sz_bounds z H2). apply (leaves_cons _ a e b f z); try done; [rewrite Hw by lia; done |].
  apply IH. intros va Hva. apply Hw. lia.
Qed.

Lemma leaves_app w a b c : leaves w a b -> leaves w b c -> leaves w a c.
Proof.
  induction 1 as [| a e b' f z H1 H2 H3 H4 H5 IH]; intros Hc; [done |].
  pose proof (leaves_le _ _ _ Hc). apply (leaves_cons _ a c b' f z); try done; [lia | by apply IH].
Qed.

Lemma dist_split a va z n : 0 <= z <= n -> n <= VSPACE ->
  dist a va < n <-> dist a va < z \/ dist (a + z) va < n - z.
Proof. unfold dist, VSPACE. intros Hz Hn. zdm. Qed.

Lemma dist_near a va : a <= va < a + VSPACE -> dist a va = va - a.
Proof. intros H. unfold dist. apply Z.mod_small. lia. Qed.

(** The leaf of [a] is found and cleared, whatever its size. *)
Definition unmap_step (s : pt_state A) (root addr end_addr : Z) (k : pt_state A -> Z -> res (pt_state A)) : res (pt_state A) :=
  let! pgde := load s root (pgd_index addr) in
  if pgd_is_leaf pgde then
    assert! PAGE_SIZE_1G <=? end_addr - addr in
    let! st := store s root (pgd_index addr) pgd_clear in k st PAGE_SIZE_1G
  else assert! pgd_is_valid pgde in
  let! pmde := load s (pgd_next pgde) (pmd_index addr) in
  if pmd_is_leaf pmde then
    assert! PAGE_SIZE_2M <=? end_addr - addr in
    let! st := store s (pgd_next pgde) (pmd_index addr) pmd_clear in k st PAGE_SIZE_2M
  else assert! pmd_is_valid pmde in
  let! pte := load s (pmd_next pmde) (pte_index addr) in
  assert! pte_is_valid pte in
  let! st := store s (pmd_next pmde) (pte_index addr) pte_clear in k st PAGE_SIZE.

Lemma unmap_step_spec root s rl a e b f z k : pt_inv s root rl ->
  walk (frames s) root a = Some (b, f, z) -> a + z <= e ->
  exists s', unmap_step s root a e k = k s' z /\ slot_set root s rl s' z a None.
Proof.
  intros Hinv Hw Hz. unfold unmap_step. unfold walk in Hw.
  destruct (entry (frames s) root (pgd_index a)) as [e1 |] eqn:E1; [| done]. cbn [mbind option_bind] in Hw.
  rewrite (load_entry _ _ _ _ E1).
  destruct (pgd_is_valid e1) eqn:V1; cbn [negb] in Hw; [| done].
  destruct (pgd_is_leaf e1) eqn:L1.
  { injection Hw as <- <- <-. destruct (Z.leb_spec PAGE_SIZE_1G (e - a)); [| lia].
    destruct (leaf_pgd_spec root s rl a e1 pgd_clear Hinv E1 ltac:(done)) as (s' & -> & Hs). eauto. }
  destruct (entry (frames s) (pgd_next e1) (pmd_index a)) as [e2 |] eqn:E2; [| done]. cbn [mbind option_bind] in Hw.
  rewrite (load_entry _ _ _ _ E2).
  destruct (pmd_is_valid e2) eqn:V2; cbn [negb] in Hw; [| done].
  destruct (pmd_is_leaf e2) eqn:L2.
  { injection Hw as <- <- <-. destruct (Z.leb_spec PAGE_SIZE_2M (e - a)); [| lia].
    destruct (leaf_pmd_spec root s rl a e1 e2 pmd_clear Hinv E1 V1 L1 E2 ltac:(done)) as (s' & -> & Hs). eauto. }
  destruct (entry (frames s) (pmd_next e2) (pte_index a)) as [e3 |] eqn:E3; [| done]. cbn [mbind option_bind] in Hw.
  rewrite (load_entry _ _ _ _ E3).
  destruct (pte_is_valid e3) eqn:V3; cbn [negb] in Hw; [| done]. injection Hw as <- <- <-.
  destruct (leaf_pte_spec root s rl a e1 e2 e3 pte_clear Hinv E1 V1 L1 E2 V2 L2 E3) as (s' & -> & Hs). eauto.
Qed.

Lemma slot_if {B} z a va (x y : B) : page_sz z -> a mod z = 0 ->
  (if decide (same_slot z a va) then x else y) = (if dist a va <? z then x else y).
Proof.
  intros Hz Hal. pose proof (same_slot_dist z a va Hz Hal).
  case_decide; destruct (Z.ltb_spec (dist a va) z); try done;
    [assert (dist a va < z) by tauto; lia | tauto].
Qed.

(** The range is gone and nothing else is. *)
Record unmapped root s rl s' (a n : Z) : Prop := {
  um_grows : grows root s rl s' rl;
  um_walk : forall va, walk (frames s') root va = if dist a va <? n then None else walk (frames s) root va
}.

Lemma unmap_loop_spec root (n : nat) : forall s rl a e,
  pt_inv s root rl -> leaves (walk (frames s) root) a e -> 0 <= a -> e < 2 ^ 64 -> e - a <= VSPACE ->
  e - a < 4096 * Z.of_nat n ->
  exists s', unmap_range_loop s root a e n = Ret s' /\ unmapped root s rl s' a (e - a).
Proof.
  induction n as [| n IH]; intros s rl a e Hinv Hlv Ha He Hv Hn; pose proof (leaves_le _ _ _ Hlv) as Hle; [lia |].
  cbn [unmap_range_loop]. destruct (Z.ltb_spec a e) as [Hlt | Hge].
  2: { exists s. split; [done |]. split; [by apply grows_refl |]. intros va.
       destruct (Z.ltb_spec (dist a va) (e - a)); [| done].
       pose proof (Z.mod_pos_bound (va - a) VSPACE ltac:(done)). unfold dist in *. lia. }
  inversion Hlv as [| ? ? b f z Hw Hz Hal Hend Hrest]; subst; [lia |]. pose proof (page_sz_bounds z Hz) as [Hzb _].
  destruct (unmap_step_spec root s rl a e b f z
    (fun s z => unmap_range_loop s root (u64 (a + z)) e n) Hinv Hw Hend) as (s1 & Hst & [S1 S2 S3]).
  unfold unmap_step in Hst. rewrite Hst, u64_small by lia.
  assert (Hw1 : forall va, walk (frames s1) root va = if dist a va <? z then None else walk (frames s) root va).
  { intros va. rewrite S2. by apply slot_if. }
  destruct (IH s1 rl (a + z) e) as (s' & -> & [U1 U2]); try lia.
  - apply (gr_inv _ _ _ _ _ S1).
  - eapply leaves_ext; [| exact Hrest]. intros va Hva. rewrite Hw1, dist_near by lia.
    destruct (Z.ltb_spec (va - a) z); [lia | done].
  - exists s'. split; [done |]. split; [by eapply grows_trans |]. intros va. rewrite U2, Hw1.
    pose proof (dist_split a va z (e - a) ltac:(lia) Hv) as Hd. replace (e - a - z) with (e - (a + z)) in Hd by lia.
    destruct (Z.ltb_spec (dist (a + z) va) (e - (a + z))), (Z.ltb_spec (dist a va) z),
      (Z.ltb_spec (dist a va) (e - a)); try done; exfalso; lia.
Qed.

(** ** Mapping a run of pages of one size *)

Lemma dist_nonneg a va : 0 <= dist a va.
Proof. apply Z.mod_pos_bound. done. Qed.

Lemma dist_step a va z : 0 <= z <= dist a va -> dist (a + z) va = dist a va - z.
Proof. unfold dist, VSPACE. zdm. Qed.

Record mapped_run root s rl s' rl' (z a pa f n : Z) : Prop := {
  mr_grows : grows root s rl s' rl';
  mr_walk : forall va, walk (frames s') root va =
    if dist a va <? n then Some (pa + dist a va / z * z, Z.lor 1 f, z) else walk (frames s) root va;
  mr_vacant : forall va z', page_sz z' -> z' <= z -> n <= dist a va ->
    vacant (frames s') root z' va = vacant (frames s) root z' va;
  mr_leaves : leaves (walk (frames s') root) a (a + n)
}.

Lemma mapped_run_nil root s rl z a pa f : pt_inv s root rl -> mapped_run root s rl s rl z a pa f 0.
Proof.
  intros Hinv. split; [by apply grows_refl | | done | rewrite Z.add_0_r; constructor].
  intros va. pose proof (dist_nonneg a va). destruct (Z.ltb_spec (dist a va) 0); [lia | done].
Qed.

Lemma mapped_run_cons root s rl s1 rl1 s2 rl2 z a pa f n :
  page_sz z -> a mod z = 0 -> 0 <= n -> z + n <= VSPACE ->
  mapped_one root s rl s1 rl1 z a pa f -> mapped_run root s1 rl1 s2 rl2 z (a + z) (pa + z) f n ->
  mapped_run root s rl s2 rl2 z a pa f (z + n).
Proof.
  intros Hz Hal Hn Hv [M1 M2 M3] [R1 R2 R3 R4]. pose proof (page_sz_bounds z Hz) as [Hzb _].
  assert (Hw : forall va, walk (frames s2) root va =
    if dist a va <? z + n then Some (pa + dist a va / z * z, Z.lor 1 f, z) else walk (frames s) root va).
  { intros va. rewrite R2, M2, (slot_if z a) by done. pose proof (dist_nonneg a va).
    pose proof (dist_split a va z (z + n) ltac:(lia) Hv) as Hd. replace (z + n - z) with n in Hd by lia.
    destruct (Z.ltb_spec (dist a va) z).
    - assert (Hfar : ~ dist (a + z) va < n).
      { unfold dist, VSPACE in *. zdm. }
      destruct (Z.ltb_spec (dist (a + z) va) n); [lia |]. destruct (Z.ltb_spec (dist a va) (z + n)); [| lia].
      rewrite (Z.div_small (dist a va)) by lia. do 3 f_equal. lia.
    - rewrite (dist_step a va z) by lia.
      destruct (Z.ltb_spec (dist a va - z) n), (Z.ltb_spec (dist a va) (z + n)); try done; try lia.
      replace (dist a va - z) with (dist a va + -1 * z) by lia. rewrite Z.div_add by lia. do 3 f_equal. lia. }
  split; [by eapply grows_trans | done | |].
  - intros va z' Hz' Hle Hd. rewrite R3; [| done | done |].
    + apply M3; try done. rewrite (same_slot_dist z a va Hz Hal). lia.
    + rewrite (dist_step a va z) by lia. lia.
  - apply (leaves_cons _ a _ pa (Z.lor 1 f) z); try done; [| lia | by rewrite Z.add_assoc].
    rewrite Hw. unfold dist. rewrite Z.sub_diag, Z.mod_0_l by done.
    destruct (Z.ltb_spec 0 (z + n)); [| lia]. rewrite Z.div_0_l by lia. do 3 f_equal. lia.
Qed.

(** The allocator has nothing left: what had been mapped since [start] goes. *)
Lemma map_undo root s rl start a : pt_inv s root rl -> leaves (walk (frames s) root) start a ->
  0 <= start -> a < 2 ^ 64 -> a - start <= VSPACE ->
  exists s', unmap_range s root start a = Ret s' /\ unmapped root s rl s' start (a - start).
Proof.
  intros Hinv Hlv Hs Ha Hv. pose proof (leaves_le _ _ _ Hlv). apply unmap_loop_spec; try done.
  unfold PAGE_SIZE. rewrite Z2Nat.id; zdm.
Qed.

Lemma map_fixed_loop_spec root z f start : page_sz z -> flags_ok f -> 0 <= start ->
  forall (n : nat) s rl a pa, let N := Z.of_nat n * z in
  pt_inv s root rl -> a mod z = 0 -> pa mod z = 0 -> start <= a -> a + N - start <= VSPACE -> a + N < 2 ^ 64 ->
  0 <= pa -> pa + N <= 2 ^ 56 ->
  leaves (walk (frames s) root) start a -> (forall va, dist a va < N -> vacant (frames s) root z va = true) ->
  exists s' err rl', map_fixed_loop s root start a pa (a + N) z f n = Ret (s', err) /\
    (err = 0 /\ mapped_run root s rl s' rl' z a pa f N \/
     err = - ENOMEM /\ grows root s rl s' rl' /\
       forall va, walk (frames s') root va = if dist start va <? a - start then None else walk (frames s) root va).
Proof.
  intros Hz Hf Hst. pose proof (page_sz_bounds z Hz) as [Hzb _].
  induction n as [| n IH]; intros s rl a pa N Hinv Hal Hpal Hsa Hvs Hfit Hpa Hpfit Hlv Hvac; cbn [map_fixed_loop].
  { unfold N. rewrite Z.mul_0_l, Z.add_0_r, Z.ltb_irrefl. exists s, 0, rl. split; [done |]. left. split; [done |].
    by apply mapped_run_nil. }
  assert (HN : N = z + Z.of_nat n * z) by (unfold N; lia). clearbody N. subst N.
  assert (Hp : 0 <= Z.of_nat n * z) by nia.
  destruct (Z.ltb_spec a (a + (z + Z.of_nat n * z))); [| lia].
  assert (Hd0 : dist a a = 0) by (unfold dist; rewrite Z.sub_diag; done).
  destruct (map_one_spec root s rl z a pa f) as (s1 & ok & -> & Hok); try done; [apply Hvac; lia | lia |].
  destruct ok.
  - destruct Hok as (rl1 & Hone). pose proof Hone as [M1 M2 M3].
    rewrite !u64_small by lia.
    assert (Hw1 : forall va, walk (frames s1) root va =
      if dist a va <? z then Some (pa, Z.lor 1 f, z) else walk (frames s) root va)
      by (intros va; rewrite M2; by apply slot_if).
    assert (Hlv1 : leaves (walk (frames s1) root) start (a + z)).
    { apply (leaves_app _ _ a).
      - eapply leaves_ext; [| exact Hlv]. intros va Hva. rewrite Hw1.
        destruct (Z.ltb_spec (dist a va) z); [| done].
        assert (dist a va = va - a + VSPACE) by (unfold dist, VSPACE in *; zdm). lia.
      - apply (leaves_cons _ a (a + z) pa (Z.lor 1 f) z); try done; [| constructor].
        rewrite Hw1, Hd0. destruct (Z.ltb_spec 0 z); [done | lia]. }
    destruct (IH s1 rl1 (a + z) (pa + z)) as (s2 & err & rl2 & Hrun & Hres); try lia; try done.
    + apply (gr_inv _ _ _ _ _ M1).
    + rewrite <- Zplus_mod_idemp_r, Z.mod_same, Z.add_0_r by lia. done.
    + rewrite <- Zplus_mod_idemp_r, Z.mod_same, Z.add_0_r by lia. done.
    + intros va Hva. pose proof (dist_split a va z (z + Z.of_nat n * z) ltac:(lia) ltac:(lia)) as Hd.
      replace (z + Z.of_nat n * z - z) with (Z.of_nat n * z) in Hd by lia.
      rewrite M3; [apply Hvac; lia | done | lia |]. rewrite same_slot_dist by done. unfold dist, VSPACE in *. zdm.
    + rewrite Z.add_assoc, Hrun. exists s2, err, rl2. split; [done |].
      destruct Hres as [[-> Hr] | (-> & Hg & Hw)]; [left | right]; (split; [done |]).
      * by eapply mapped_run_cons; try lia.
      * split; [by eapply grows_trans |]. intros va. rewrite Hw, Hw1.
        pose proof (dist_split start va (a - start) (a + z - start) ltac:(lia) ltac:(lia)) as Hd.
        replace (start + (a - start)) with a in Hd by lia. replace (a + z - start - (a - start)) with z in Hd by lia.
        destruct (Z.ltb_spec (dist start va) (a + z - start)), (Z.ltb_spec (dist start va) (a - start)),
          (Z.ltb_spec (dist a va) z); try done; try lia.
        symmetry. eapply vacant_walk, Hvac. lia.
  - destruct Hok as (rl1 & Hg & Hw1). destruct (map_undo root s1 rl1 start a) as (s2 & -> & [U1 U2]); try lia.
    + apply (gr_inv _ _ _ _ _ Hg).
    + eapply leaves_ext; [| exact Hlv]. intros va _. apply Hw1.
    + exists s2, (- ENOMEM), rl1. split; [done |]. right. split_and!; [done | by eapply grows_trans |].
      intros va. by rewrite U2, Hw1.
Qed.

(** ** Mapping a range *)

Record mapped root s rl s' rl' (a pa f n : Z) : Prop := {
  mp_grows : grows root s rl s' rl';
  mp_in : forall va, dist a va < n -> translate (frames s') root va = Some (pa + dist a va, Z.lor 1 f);
  mp_out : forall va, n <= dist a va -> walk (frames s') root va = walk (frames s) root va;
  mp_leaves : leaves (walk (frames s') root) a (a + n)
}.

(** Nothing is in the way of the pages a mapping of [n] bytes at [a] may use. *)
Definition room (fr : gmap Z (list Z)) (root a n : Z) : Prop :=
  forall z va, page_sz z -> 0 <= dist a va - va mod z -> dist a va - va mod z + z <= n ->
    vacant fr root z va = true.

Lemma mod_dist z a va : page_sz z -> a mod z = 0 -> va mod z = dist a va mod z.
Proof. intros [-> | [-> | ->]] Ha; unfold dist, VSPACE, PAGE_SIZE_1G, PAGE_SIZE_2M, PAGE_SIZE in *; zdm. Qed.

Lemma run_mapped root s rl s' rl' z a pa f n : page_sz z -> a mod z = 0 ->
  mapped_run root s rl s' rl' z a pa f n -> mapped root s rl s' rl' a pa f n.
Proof.
  intros Hz Hal [R1 R2 R3 R4]. split; try done.
  - intros va Hva. unfold translate. rewrite R2. destruct (Z.ltb_spec (dist a va) n); [| lia]. cbn [mbind option_bind].
    pose proof (page_sz_bounds z Hz). rewrite (mod_dist z a va Hz Hal). do 2 f_equal.
    pose proof (Z.div_mod (dist a va) z ltac:(lia)). lia.
  - intros va Hva. rewrite R2. destruct (Z.ltb_spec (dist a va) n); [lia | done].
Qed.

Lemma mapped_app root s rl s1 rl1 s2 rl2 a pa f n m :
  0 <= n -> 0 <= m -> n + m <= VSPACE ->
  mapped root s rl s1 rl1 a pa f n -> mapped root s1 rl1 s2 rl2 (a + n) (pa + n) f m ->
  mapped root s rl s2 rl2 a pa f (n + m).
Proof.
  intros Hn Hm Hv [A1 A2 A3 A4] [B1 B2 B3 B4].
  assert (Hfar : forall va, dist a va < n -> m <= dist (a + n) va) by (intros va; unfold dist, VSPACE in *; zdm).
  split.
  - by eapply grows_trans.
  - intros va Hva. destruct (Z.lt_ge_cases (dist a va) n) as [H | H].
    + unfold translate. rewrite B3 by auto. by apply A2.
    + pose proof (dist_step a va n ltac:(lia)) as E. rewrite B2 by lia. do 2 f_equal. lia.
  - intros va Hva. rewrite B3, A3; [done | lia |]. pose proof (dist_step a va n ltac:(lia)). lia.
  - rewrite Z.add_assoc. apply (leaves_app _ _ (a + n)); [| done].
    eapply leaves_ext; [| exact A4]. intros va Hva. apply B3, Hfar. rewrite dist_near by lia. lia.
Qed.

Lemma chunk_spec a pa rem : a mod 4096 = 0 -> pa mod 4096 = 0 -> 4096 <= rem ->
  let z := chunk_size a pa rem in page_sz z /\ a mod z = 0 /\ pa mod z = 0 /\ z <= rem.
Proof.
  intros Ha Hpa Hr. unfold chunk_size.
  pose proof (is_aligned_spec a 30 ltac:(lia)) as G1. pose proof (is_aligned_spec pa 30 ltac:(lia)) as G2.
  pose proof (is_aligned_spec a 21 ltac:(lia)) as M1. pose proof (is_aligned_spec pa 21 ltac:(lia)) as M2.
  change (2 ^ 30) with PAGE_SIZE_1G in *. change (2 ^ 21) with PAGE_SIZE_2M in *.
  destruct (is_aligned a PAGE_SIZE_1G && is_aligned pa PAGE_SIZE_1G && (PAGE_SIZE_1G <=? rem)) eqn:E1.
  { apply andb_true_iff in E1 as [[H1 H2]%andb_true_iff H3%Z.leb_le]. split_and!; [by left | tauto | tauto | done]. }
  destruct (is_aligned a PAGE_SIZE_2M && is_aligned pa PAGE_SIZE_2M && (PAGE_SIZE_2M <=? rem)) eqn:E2.
  { apply andb_true_iff in E2 as [[H1 H2]%andb_true_iff H3%Z.leb_le]. split_and!; [right; by left | tauto | tauto | done]. }
  split_and!; try done. right. by right.
Qed.

Lemma round_down_sz x z : page_sz z -> 0 <= x < 2 ^ 64 -> round_down x z = x / z * z.
Proof.
  intros [-> | [-> | ->]] Hx.
  - by apply (round_down_spec x 30).
  - by apply (round_down_spec x 21).
  - by apply (round_down_spec x 12).
Qed.

Lemma map_fixed_spec root s rl z a pa f n : page_sz z -> flags_ok f -> pt_inv s root rl ->
  0 <= a -> a mod z = 0 -> pa mod z = 0 -> 0 <= n <= VSPACE -> n mod z = 0 -> a + n < 2 ^ 64 ->
  0 <= pa -> pa + n <= 2 ^ 56 -> (forall va, dist a va < n -> vacant (frames s) root z va = true) ->
  exists s' err rl', map_fixed_size_pages s root a pa n z f = Ret (s', err) /\
    (err = 0 /\ mapped_run root s rl s' rl' z a pa f n \/
     err = - ENOMEM /\ grows root s rl s' rl' /\ forall va, walk (frames s') root va = walk (frames s) root va).
Proof.
  intros Hz Hf Hinv Ha Hal Hpal Hn Hnal Hfit Hpa Hpfit Hvac. pose proof (page_sz_bounds z Hz) as [Hzb _].
  unfold map_fixed_size_pages. rewrite u64_small by lia.
  assert (Hnz : Z.of_nat (Z.to_nat (n / z)) * z = n).
  { rewrite Z2Nat.id by (apply Z.div_pos; lia). pose proof (Z.div_mod n z ltac:(lia)). lia. }
  destruct (map_fixed_loop_spec root z f a Hz Hf Ha (Z.to_nat (n / z)) s rl a pa) as (s' & err & rl' & Hrun & Hres);
    rewrite ?Hnz; try lia; try done; [constructor |].
  rewrite Hnz in *. exists s', err, rl'. split; [done |].
  destruct Hres as [H | (H1 & H2 & H3)]; [by left | right]. split_and!; try done.
  intros va. rewrite H3, Z.sub_diag. pose proof (dist_nonneg a va). destruct (Z.ltb_spec (dist a va) 0); [lia | done].
Qed.

(** What is left after a chunk of pages of size [z] is smaller than [z]. *)
Lemma room_rest root s rl s' rl' z a pa f r n : page_sz z -> a mod z = 0 -> 0 <= r -> n - r < z -> n <= VSPACE ->
  room (frames s) root a n -> mapped_run root s rl s' rl' z a pa f r -> room (frames s') root (a + r) (n - r).
Proof.
  intros Hz Hal Hr Hrest Hv Hroom Hrun z' va Hz' Hd1 Hd2. pose proof (page_sz_bounds z' Hz').
  pose proof (Z.mod_pos_bound va z' ltac:(lia)).
  assert (Hd : dist a va = dist (a + r) va + r) by (unfold dist, VSPACE in *; zdm).
  rewrite (mr_vacant _ _ _ _ _ _ _ _ _ _ Hrun) by (done || lia). apply Hroom; [done | lia | lia].
Qed.

(** The page around an offset below a whole number of pages ends there. *)
Lemma page_end d r z : 0 < z -> r mod z = 0 -> d < r -> d - d mod z + z <= r.
Proof.
  intros Hz Hr Hd. pose proof (Z.div_mod r z ltac:(lia)). pose proof (Z.div_mod d z ltac:(lia)).
  assert (d / z < r / z) by (apply Z.div_lt_upper_bound; lia). nia.
Qed.

Lemma map_pages_loop_spec root f : flags_ok f -> forall (k : nat) s rl a pa n,
  pt_inv s root rl -> 0 <= a -> a mod 4096 = 0 -> pa mod 4096 = 0 -> n mod 4096 = 0 ->
  0 <= n <= VSPACE -> a + n < 2 ^ 64 -> 0 <= pa -> pa + n <= 2 ^ 56 -> room (frames s) root a n ->
  (0 < n -> (1 <= k)%nat) -> (PAGE_SIZE_2M <= n -> (2 <= k)%nat) -> (PAGE_SIZE_1G <= n -> (3 <= k)%nat) ->
  exists s' err rl' m, map_pages_loop s root a pa (a + n) f k = Ret (s', err) /\
    mapped root s rl s' rl' a pa f m /\ 0 <= m <= n /\ (err = 0 /\ m = n \/ err = - ENOMEM /\ m < n).
Proof.
  intros Hf. induction k as [| k IH]; intros s rl a pa n Hinv Ha Hal Hpal Hnal Hn Hfit Hpa Hpfit Hroom K1 K2 K3;
    cbn [map_pages_loop]; (destruct (Z.ltb_spec a (a + n));
    [| exists s, 0, rl, 0; split; [done |]; split; [| split; [lia | left; lia]];
       by apply (run_mapped _ _ _ _ _ PAGE_SIZE); [right; right | | apply mapped_run_nil]]).
  { exfalso. lia. }
  replace (a + n - a) with n by lia.
  pose proof (chunk_spec a pa n Hal Hpal ltac:(zdm)) as (Hz & Hza & Hzpa & Hzn).
  set (z := chunk_size a pa n) in *. clearbody z. pose proof (page_sz_bounds z Hz) as [Hzb _].
  unfold VSPACE in Hn. rewrite (round_down_sz n z Hz) by lia.
  pose proof (Z.div_mod n z ltac:(lia)) as Hdm. pose proof (Z.mod_pos_bound n z ltac:(lia)) as Hmb.
  set (r := n / z * z) in *. assert (Hr : r = n - n mod z) by (unfold r; lia).
  assert (Hrz : r mod z = 0) by (unfold r; apply Z.mod_mul; lia).
  assert (Hr4 : r mod 4096 = 0) by (eapply page_sz_4k; [exact Hz | done]).
  assert (Hr0 : z <= r).
  { unfold r. assert (1 <= n / z) by (apply Z.div_le_lower_bound; lia). nia. }
  clearbody r.
  destruct (map_fixed_spec root s rl z a pa f r) as (s1 & err & rl1 & -> & Hres); try done; try (unfold VSPACE; lia).
  { intros va Hva. apply Hroom; [done | |]; rewrite (mod_dist z a va Hz Hza);
      pose proof (dist_nonneg a va).
    - pose proof (Z.mod_le (dist a va) z ltac:(lia) ltac:(lia)). lia.
    - pose proof (page_end (dist a va) r z ltac:(lia) Hrz Hva). lia. }
  destruct Hres as [[-> Hrun] | (-> & Hg & Hw)].
  - cbn [Z.eqb negb]. rewrite !u64_small by lia. replace (a + n) with (a + r + (n - r)) by lia.
    destruct (IH s1 rl1 (a + r) (pa + r) (n - r)) as (s2 & err & rl2 & m & -> & Hm & Hmb2 & Hres);
      try (unfold VSPACE; lia); try zdm.
    + apply (gr_inv _ _ _ _ _ (mr_grows _ _ _ _ _ _ _ _ _ _ Hrun)).
    + eapply (room_rest _ s rl s1 rl1 z); try done; try (unfold VSPACE; lia).
    + intros Hpos. assert (z <> PAGE_SIZE); [| destruct Hz as [-> | [-> | ->]]; unfold PAGE_SIZE_1G, PAGE_SIZE_2M in *; lia].
      intros ->. unfold PAGE_SIZE in *. lia.
    + intros Hbig. destruct Hz as [-> | [-> | ->]]; unfold PAGE_SIZE_1G, PAGE_SIZE_2M, PAGE_SIZE in *; lia.
    + intros Hbig. destruct Hz as [-> | [-> | ->]]; unfold PAGE_SIZE_1G, PAGE_SIZE_2M, PAGE_SIZE in *; lia.
    + exists s2, err, rl2, (r + m). split; [done |]. split; [| split; [lia |]].
      * eapply mapped_app; [lia | lia | unfold VSPACE; lia | by eapply run_mapped | done].
      * destruct Hres as [[-> ->] | [-> ?]]; [left | right]; lia.
  - exists s1, (- ENOMEM), rl1, 0. split; [done |]. split; [| split; [lia | right; lia]]. split; try done.
    + intros va Hva. pose proof (dist_nonneg a va). lia.
    + rewrite Z.add_0_r. constructor.
Qed.

(** ** Mapping a single page *)

(** In a tree, an address without a translation has room for a page. *)
Lemma walk_vacant fr root rl va : tree fr root rl -> walk fr root va = None -> vacant fr root PAGE_SIZE va = true.
Proof.
  intros T. pose proof (index_bounds va) as (B1 & B2 & B3). unfold walk, vacant.
  destruct (entry_table _ _ _ _ _ _ T (tr_root _ _ _ T) B1) as [e1 E1]. rewrite E1. pt_simp.
  destruct (pgd_is_valid e1) eqn:V1; pt_simp; [| done]. destruct (pgd_is_leaf e1) eqn:L1; [done |]. pt_simp.
  change (PAGE_SIZE =? PAGE_SIZE_1G) with false. cbv iota.
  pose proof (tr_pgd _ _ _ T _ _ E1 V1 L1) as R1. destruct (entry_table _ _ _ _ _ _ T R1 B2) as [e2 E2]. rewrite E2. pt_simp.
  destruct (pmd_is_valid e2) eqn:V2; pt_simp; [| done]. destruct (pmd_is_leaf e2) eqn:L2; [done |]. pt_simp.
  change (PAGE_SIZE =? PAGE_SIZE_2M) with false. cbv iota.
  pose proof (tr_pmd _ _ _ T _ _ _ _ R1 E2 V2 L2) as R2. destruct (entry_table _ _ _ _ _ _ T R2 B3) as [e3 E3]. rewrite E3. pt_simp.
  by destruct (pte_is_valid e3).
Qed.

(** A page in use that is no table of the tree. *)
Record own s rl (pa : Z) : Prop := {
  ow_held : pf_held (pool s) pa;
  ow_used : ~ pf_free (pool s) pa;
  ow_data : rl pa = None;
  ow_back : is_Some (frames s !! pa);
  ow_pos : 0 < pa
}.

Lemma own_grows root s rl s' rl' pa : grows root s rl s' rl' -> own s rl pa -> own s' rl' pa.
Proof.
  intros G [H1 H2 H3 H4 H5]. split; [by apply G | | | | done].
  - intros H. by apply H2, (gr_free _ _ _ _ _ G).
  - destruct (rl' pa) as [r |] eqn:E; [| done]. by destruct (H2 (gr_new _ _ _ _ _ G pa r E H3)).
  - by rewrite (gr_frame _ _ _ _ _ G).
Qed.

(** Single pages are taken one after the other, and after at most [n] of them
    there is none. *)
Definition alloc_step (a a' : A) : Prop := exists pa, pf_alloc a 0 = Ret (a', Some pa).
Definition starved (n : nat) (a : A) : Prop :=
  exists j a1 a2, (j <= n)%nat /\ nsteps alloc_step j a a1 /\ pf_alloc a1 0 = Ret (a2, None).

Lemma starved_after n m a a' : nsteps alloc_step n a a' -> starved m a' -> starved (n + m) a.
Proof.
  intros H (j & a1 & a2 & Hj & Hs & Hn). exists (n + j)%nat, a1, a2. split_and!; [lia | | done].
  by eapply nsteps_trans.
Qed.

Lemma starved_more n m a : (n <= m)%nat -> starved n a -> starved m a.
Proof. intros H (j & a1 & a2 & Hj & Hs). exists j, a1, a2. split; [lia | done]. Qed.

(** A page for data. *)
Lemma take_page_spec root s rl : pt_inv s root rl ->
  exists s1 pa, page_alloc_phys s 0 = Ret (s1, pa) /\ frames s1 = frames s /\ grows root s rl s1 rl /\
    (pa = 0 -> starved 0 (pool s)) /\
    (pa <> 0 -> own s1 rl pa /\ pf_free (pool s) pa /\ pa mod 4096 = 0 /\ pa + 4096 <= 2 ^ 56 /\ alloc_step (pool s) (pool s1)).
Proof.
  intros [I1 I2 I3 I4 I5]. unfold page_alloc_phys.
  destruct (pf_alloc_ok (pool s) 0 I2 ltac:(unfold PAGE_ORDER_MAX; lia)) as (a & o & E & Ha & Hfree & Hheld & Ho). rewrite E.
  eexists _, _. split; [reflexivity |]. cbn [frames pool]. split; [done |]. split.
  - split; cbn [frames pool]; try done.
    + split; cbn [frames pool]; try done; eauto. intros t r Ht Hx. by eapply I3, Hfree.
    + intros t r H1 H2. congruence.
  - destruct o as [pa |].
    + destruct Ho as (Hal & Hp & Hb & Hh & Hk). change (2 ^ (12 + 0)) with 4096 in *. destruct (Hk 0) as [Hf Hnf]; [lia |].
      rewrite Z.mul_0_r, Z.add_0_r in *. split; [lia |]. intros _. split_and!; try done; [| by exists pa].
      split; cbn [frames pool]; [by apply Hh | done | | by apply I5 | done].
      destruct (rl pa) as [r' |] eqn:Er; [| done]. by destruct (I3 pa r' Er).
    + split; [| done]. intros _. exists 0%nat, (pool s), a. split_and!; [done | constructor | done].
Qed.

(** How often a mapping of one page asks the allocator. *)
Lemma next_table_pool s t i v nx sn s' r : pf_inv (pool s) -> next_table s t i v nx sn = Ret (s', r) ->
  match r with
  | None => starved 0 (pool s)
  | Some _ => exists n, (n <= 1)%nat /\ nsteps alloc_step n (pool s) (pool s') /\ pf_inv (pool s')
  end.
Proof.
  intros Hi. unfold next_table. destruct (load s t i) as [e |]; [| done]. destruct (negb (v e)).
  2: { intros [= <- <-]. exists 0%nat. split_and!; [lia | constructor | done]. }
  unfold page_alloc_phys. destruct (pf_alloc_ok (pool s) 0 Hi ltac:(unfold PAGE_ORDER_MAX; lia)) as (a & o & E & Ha & _ & _ & Ho).
  rewrite E. destruct o as [pa |].
  - destruct Ho as (_ & Hp & _). destruct (Z.eqb_spec pa 0); [lia |]. unfold store_page, store. cbn [frames pool].
    destruct (frames s !! pa); [| done]. cbn [frames pool]. destruct (_ !! t); [| done]. destruct (wr _ i _); [| done].
    unfold store_page. cbn [frames pool]. destruct (_ !! t); [| done].
    intros [= <- <-]. cbn [pool]. exists 1%nat. split_and!; [lia | | done]. eapply nsteps_l; [by exists pa | constructor].
  - intros [= <- <-]. exists 0%nat, (pool s), a. split_and!; [lia | constructor | done].
Qed.

Lemma store_pool s t i v s' : store s t i v = Ret s' -> pool s' = pool s.
Proof.
  unfold store, store_page. destruct (frames s !! t); [| done]. destruct (wr _ i v); [| done]. by intros [= <-].
Qed.

(** Unmapping leaves the allocator alone. *)
Lemma unmap_loop_pool root e (n : nat) : forall s a s', unmap_range_loop s root a e n = Ret s' -> pool s' = pool s.
Proof.
  induction n as [| n IH]; intros s a s'; cbn [unmap_range_loop]; destruct (a <? e); try done; [by intros [= <-] | | by intros [= <-]].
  destruct (load s root (pgd_index a)) as [e1 |]; [| done]. destruct (pgd_is_leaf e1).
  { destruct (PAGE_SIZE_1G <=? e - a); [| done]. destruct (store s root _ _) as [s1 |] eqn:E; [| done].
    intros H%IH. by rewrite H, (store_pool _ _ _ _ _ E). }
  destruct (pgd_is_valid e1); [| done]. destruct (load s _ (pmd_index a)) as [e2 |]; [| done]. destruct (pmd_is_leaf e2).
  { destruct (PAGE_SIZE_2M <=? e - a); [| done]. destruct (store s _ (pmd_index a) _) as [s1 |] eqn:E; [| done].
    intros H%IH. by rewrite H, (store_pool _ _ _ _ _ E). }
  destruct (pmd_is_valid e2); [| done]. destruct (load s _ (pte_index a)) as [e3 |]; [| done]. destruct (pte_is_valid e3); [| done].
  destruct (store s _ (pte_index a) _) as [s1 |] eqn:E; [| done]. intros H%IH. by rewrite H, (store_pool _ _ _ _ _ E).
Qed.

Lemma map_one_pool s root a pa f s' ok : pf_inv (pool s) -> map_one s root a pa PAGE_SIZE f = Ret (s', ok) ->
  if ok then exists n, (n <= 2)%nat /\ nsteps alloc_step n (pool s) (pool s') else starved 1 (pool s).
Proof.
  intros Hi. unfold map_one. change (PAGE_SIZE =? PAGE_SIZE_1G) with false. change (PAGE_SIZE =? PAGE_SIZE_2M) with false. cbv iota.
  destruct (next_table s root _ _ _ _) as [[s1 [pmd |]] |] eqn:E1; [| | done].
  2: { intros [= <- <-]. apply next_table_pool in E1; [| done]. by eapply (starved_more 0); [lia |]. }
  destruct (next_table_pool _ _ _ _ _ _ _ _ Hi E1) as (n1 & L1 & S1 & Hi1).
  destruct (next_table s1 pmd _ _ _ _) as [[s2 [pt |]] |] eqn:E2; [| | done].
  2: { intros [= <- <-]. apply next_table_pool in E2; [| done]. eapply (starved_more (n1 + 0)); [lia |]. by eapply starved_after. }
  destruct (next_table_pool _ _ _ _ _ _ _ _ Hi1 E2) as (n2 & L2 & S2 & _).
  destruct (load s2 pt _) as [e |]; [| done]. destruct (negb (pte_is_valid e)); [| done].
  destruct (store s2 pt _ _) as [s3 |] eqn:E3; [| done]. intros [= <- <-]. exists (n1 + n2)%nat. split; [lia |].
  rewrite (store_pool _ _ _ _ _ E3). by eapply nsteps_trans.
Qed.

(** [map_pages] of one page is one turn. *)
Lemma map_page_eq s root a pa f : 0 <= a -> a mod 4096 = 0 -> a + 4096 < 2 ^ 64 -> 0 <= pa -> pa mod 4096 = 0 -> pa + 4096 <= 2 ^ 56 ->
  map_pages s root a pa PAGE_SIZE f =
  let! (s', ok) := map_one s root a pa PAGE_SIZE f in Ret (s', if ok then 0 else - ENOMEM).
Proof.
  intros H1 H2 H3 H4 H5 H6. unfold map_pages. assert (Hal : forall x, x mod 4096 = 0 -> is_aligned x PAGE_SIZE = true).
  { intros x Hx. change PAGE_SIZE with (2 ^ 12). by apply is_aligned_spec. }
  rewrite !Hal by done. unfold PAGE_SIZE at 1. rewrite u64_small by lia. cbn [map_pages_loop].
  destruct (Z.ltb_spec a (a + 4096)); [| lia]. replace (a + 4096 - a) with 4096 by lia.
  assert (Hc : chunk_size a pa 4096 = PAGE_SIZE) by (unfold chunk_size; change (PAGE_SIZE_1G <=? 4096) with false;
    change (PAGE_SIZE_2M <=? 4096) with false; by rewrite !andb_false_r).
  rewrite Hc. change (round_down 4096 PAGE_SIZE) with 4096. unfold map_fixed_size_pages. rewrite u64_small by lia.
  change (Z.to_nat (4096 / PAGE_SIZE)) with 1%nat. cbn [map_fixed_loop]. destruct (Z.ltb_spec a (a + 4096)); [| lia].
  destruct (map_one s root a pa PAGE_SIZE f) as [[s' ok] |]; [| done]. destruct ok; cbv beta iota.
  - unfold PAGE_SIZE. rewrite !u64_small by lia. destruct (Z.ltb_spec (a + 4096) (a + 4096)); [lia |]. done.
  - unfold unmap_range. rewrite Z.sub_diag. change (Z.to_nat (0 / PAGE_SIZE + 1)) with 1%nat. cbn [unmap_range_loop].
    by rewrite Z.ltb_irrefl.
Qed.

Lemma map_page_spec root s rl a pa f : pt_inv s root rl -> 0 <= a -> a mod 4096 = 0 -> a + 4096 < 2 ^ 64 ->
  0 <= pa -> pa mod 4096 = 0 -> pa + 4096 <= 2 ^ 56 -> flags_ok f -> walk (frames s) root a = None ->
  exists s' err rl', map_pages s root a pa PAGE_SIZE f = Ret (s', err) /\ grows root s rl s' rl' /\
    (err = 0 /\ (exists n, (n <= 2)%nat /\ nsteps alloc_step n (pool s) (pool s')) /\
       (forall va, walk (frames s') root va =
          if dist a va <? 4096 then Some (pa, Z.lor 1 f, PAGE_SIZE) else walk (frames s) root va) \/
     err = - ENOMEM /\ starved 1 (pool s) /\ forall va, walk (frames s') root va = walk (frames s) root va).
Proof.
  intros Hinv H1 H2 H3 H4 H5 H6 Hf Hw. rewrite map_page_eq by done.
  assert (Hz : page_sz PAGE_SIZE) by (right; by right).
  destruct (map_one_spec root s rl PAGE_SIZE a pa f) as (s' & ok & E & Hok); try done.
  { by eapply walk_vacant; [apply Hinv |]. }
  { unfold PAGE_SIZE. lia. }
  pose proof (map_one_pool s root a pa f s' ok (pi_pool _ _ _ Hinv) E) as Hp. rewrite E. destruct ok.
  - destruct Hok as (rl' & [M1 M2 _]). exists s', 0, rl'. split_and!; [done | done |]. left. split_and!; [done | done |].
    intros va. rewrite M2. by apply (slot_if PAGE_SIZE).
  - destruct Hok as (rl' & G & Hw'). exists s', (- ENOMEM), rl'. split_and!; [done | done |]. right. done.
Qed.

(** ** Destroying a tree *)

(** The tables below the entries [i], [i + 1], ... of a middle table, and of
    a directory without the kernel's entries, in the order they are freed. *)
Definition pmd_tables (l : list Z) : list Z :=
  map pmd_next (filter (fun e => pmd_is_valid e = true) l).

Definition page_words (fr : gmap Z (list Z)) (pa : Z) : list Z := default [] (fr !! pa).

Definition pgd_tables (fr : gmap Z (list Z)) (kl l : list Z) : list Z :=
  mjoin (zip_with (fun k e => if pgd_is_valid k || negb (pgd_is_valid e) then []
    else pmd_tables (page_words fr (pgd_next e)) ++ [pgd_next e]) kl l).

(** Nothing is mapped below the user's entries, and every table is memory. *)
Definition pt_empty (fr : gmap Z (list Z)) (pt : Z) : Prop :=
  exists l, fr !! pt = Some l /\ length l = 512%nat /\ Forall (fun e => pte_is_valid e = false) l.

Definition pmd_empty (fr : gmap Z (list Z)) (pmd : Z) : Prop :=
  exists l, fr !! pmd = Some l /\ length l = 512%nat /\
    Forall (fun e => pmd_is_valid e = true -> pmd_is_leaf e = false /\ pt_empty fr (pmd_next e)) l.

Definition pgd_empty (fr : gmap Z (list Z)) (kl : list Z) (pgd : Z) : Prop :=
  exists l, fr !! pgd = Some l /\ length l = 512%nat /\ length kl = 512%nat /\
    Forall2 (fun k e => pgd_is_valid k = false -> pgd_is_valid e = true ->
      pgd_is_leaf e = false /\ pmd_empty fr (pgd_next e)) kl l.

Fixpoint release_all (a : A) (l : list Z) : res A :=
  match l with
  | [] => Ret a
  | pa :: l' => let! a := pf_release a pa in release_all a l'
  end.

Lemma release_all_app l1 l2 : forall a,
  release_all a (l1 ++ l2) = let! a := release_all a l1 in release_all a l2.
Proof. induction l1 as [| x l1 IH]; intros a; [done |]. cbn [app release_all]. destruct (pf_release a x); [apply IH | done]. Qed.

Lemma load_at s t l (i : nat) e : frames s !! t = Some l -> l !! i = Some e -> load s t (Z.of_nat i) = Ret e.
Proof.
  intros Hl He. unfold load. rewrite Hl. unfold rd. rewrite decide_True, Nat2Z.id, He by lia. done.
Qed.

Lemma destroy_pt_spec s pt l : frames s !! pt = Some l ->
  forall (n i : nat), (i + n = length l)%nat -> Forall (fun e => pte_is_valid e = false) l ->
  destroy_user_pt s pt (Z.of_nat i) n = Ret tt.
Proof.
  intros Hl. induction n as [| n IH]; intros i Hi Hf; cbn [destroy_user_pt]; [done |].
  destruct (lookup_lt_is_Some_2 l i) as [e He]; [lia |]. rewrite (load_at _ _ _ _ _ Hl He).
  rewrite (Forall_lookup_1 _ _ _ _ Hf He). replace (Z.of_nat i + 1) with (Z.of_nat (S i)) by lia. apply IH; [lia | done].
Qed.

Definition with_pool s (a : A) : pt_state A := mk_pt (frames s) a.

Lemma pmd_tables_cons e l : pmd_tables (e :: l) = if pmd_is_valid e then pmd_next e :: pmd_tables l else pmd_tables l.
Proof.
  unfold pmd_tables. rewrite filter_cons. destruct (pmd_is_valid e); case_decide; done.
Qed.

Lemma destroy_pmd_spec pmd l : forall (n i : nat) s, frames s !! pmd = Some l -> (i + n = length l)%nat ->
  Forall (fun e => pmd_is_valid e = true -> pmd_is_leaf e = false /\ pt_empty (frames s) (pmd_next e)) l ->
  destroy_user_pmd s pmd (Z.of_nat i) n =
  let! a := release_all (pool s) (pmd_tables (drop i l)) in Ret (with_pool s a).
Proof.
  induction n as [| n IH]; intros i s Hl Hi Hf; cbn [destroy_user_pmd].
  { rewrite drop_ge by lia. cbn. by destruct s. }
  destruct (lookup_lt_is_Some_2 l i) as [e He]; [lia |]. rewrite (load_at _ _ _ _ _ Hl He).
  rewrite (drop_S _ _ _ He), pmd_tables_cons. pose proof (Forall_lookup_1 _ _ _ _ Hf He) as Hfe. cbn beta in Hfe.
  replace (Z.of_nat i + 1) with (Z.of_nat (S i)) by lia.
  destruct (pmd_is_valid e) eqn:V; cbn [negb]; [| apply IH; [done | lia | done]].
  destruct (Hfe eq_refl) as [-> (lt & Hlt & Hlen & Hpt)]. 
  pose proof (destroy_pt_spec s (pmd_next e) lt Hlt 512 0 ltac:(lia) Hpt) as Hd. change (Z.of_nat 0) with 0 in Hd.
  rewrite Hd. cbn [release_all]. unfold free_pgtable.
  destruct (pf_release (pool s) (pmd_next e)) as [a |]; [| done]. rewrite IH; [done | done | lia | done].
Qed.

Lemma destroy_pgd_spec kl pgd l : forall (n i : nat) s, frames s !! pgd = Some l -> (i + n = length l)%nat ->
  Forall2 (fun k e => pgd_is_valid k = false -> pgd_is_valid e = true ->
      pgd_is_leaf e = false /\ pmd_empty (frames s) (pgd_next e)) kl l ->
  destroy_user_pgd kl s pgd (Z.of_nat i) n =
  let! a := release_all (pool s) (pgd_tables (frames s) (drop i kl) (drop i l)) in Ret (with_pool s a).
Proof.
  induction n as [| n IH]; intros i s Hl Hi Hf; cbn [destroy_user_pgd]; pose proof (Forall2_length Hf) as Hlen.
  { rewrite !drop_ge by lia. cbn. by destruct s. }
  destruct (lookup_lt_is_Some_2 l i) as [e He]; [lia |]. destruct (lookup_lt_is_Some_2 kl i) as [k Hk]; [lia |].
  rewrite (load_at _ _ _ _ _ Hl He).
  assert (Hrd : rd kl (Z.of_nat i) = Ret k) by (apply rd_ret; rewrite Nat2Z.id; split; [lia | done]). rewrite Hrd.
  rewrite (drop_S _ _ _ He), (drop_S _ _ _ Hk). unfold pgd_tables. cbn [zip_with mjoin list_join].
  fold (pgd_tables (frames s) (drop (S i) kl) (drop (S i) l)).
  pose proof (Forall2_lookup_lr _ _ _ _ _ _ Hf Hk He) as Hfe. cbn beta in Hfe.
  replace (Z.of_nat i + 1) with (Z.of_nat (S i)) by lia.
  destruct (pgd_is_valid k) eqn:Vk; cbn [orb]; [apply IH; [done | lia | done] |].
  destruct (pgd_is_valid e) eqn:V; cbn [negb]; [| apply IH; [done | lia | done]].
  destruct (Hfe eq_refl eq_refl) as [-> (lm & Hlm & Hmlen & Hm)].
  pose proof (destroy_pmd_spec (pgd_next e) lm 512 0 s Hlm ltac:(lia) Hm) as Hd. change (Z.of_nat 0) with 0 in Hd.
  assert (Hpw : page_words (frames s) (pgd_next e) = lm) by (unfold page_words; by rewrite Hlm).
  rewrite drop_0 in Hd. rewrite Hd, Hpw.
  rewrite <- app_assoc, release_all_app. destruct (release_all (pool s) (pmd_tables lm)) as [a |]; [| done].
  cbn [app release_all]. unfold free_pgtable. cbn [pool with_pool frames].
  destruct (pf_release a (pgd_next e)) as [a' |]; [| done]. rewrite IH; [done | done | lia | done].
Qed.

(** Held pages, each once, can all be given back. *)
Lemma release_all_spec l : forall a, pf_inv a -> NoDup l -> Forall (pf_held a) l ->
  exists a', release_all a l = Ret a' /\ pf_inv a' /\ forall x, pf_free a' x <-> pf_free a x \/ x ∈ l.
Proof.
  induction l as [| pa l IH]; intros a Ha Hnd Hh; cbn [release_all].
  { exists a. split_and!; try done. intros x. rewrite elem_of_nil. tauto. }
  apply list.NoDup_cons in Hnd as [Hni Hnd]. apply list.Forall_cons in Hh as [Hpa Hh].
  destruct (pf_release_ok a pa Ha Hpa) as (a1 & -> & Ha1 & Hf1 & Hh1).
  destruct (IH a1) as (a2 & -> & Ha2 & Hf2); try done.
  { rewrite list.Forall_forall in *. intros x Hx. apply Hh1; [by apply Hh | congruence]. }
  exists a2. split_and!; try done. intros x. rewrite Hf2, Hf1, elem_of_cons. tauto.
Qed.

(** What a completed destruction has seen. *)
Lemma destroy_pt_ret s pt : forall (n : nat) i, 0 <= i -> destroy_user_pt s pt i n = Ret tt ->
  forall j e, i <= j < i + Z.of_nat n -> entry (frames s) pt j = Some e -> pte_is_valid e = false.
Proof.
  induction n as [| n IH]; intros i Hi Hd j e Hj He; [lia |]. cbn [destroy_user_pt] in Hd.
  destruct (load s pt i) as [e' |] eqn:El; [| done]. destruct (pte_is_valid e') eqn:V; [done |].
  destruct (decide (j = i)) as [-> | Hne].
  - rewrite (load_entry _ _ _ _ He) in El. congruence.
  - apply (IH (i + 1) ltac:(lia) Hd j e); [lia | done].
Qed.

Lemma free_pgtable_frames s pa s' : free_pgtable s pa = Ret s' -> frames s' = frames s.
Proof. unfold free_pgtable. destruct (pf_release (pool s) pa); [| done]. by intros [= <-]. Qed.

Lemma destroy_pmd_ret pmd : forall (n : nat) s i s', 0 <= i -> destroy_user_pmd s pmd i n = Ret s' ->
  frames s' = frames s /\
  forall j e, i <= j < i + Z.of_nat n -> entry (frames s) pmd j = Some e -> pmd_is_valid e = true ->
    pmd_is_leaf e = false /\
    forall k e', 0 <= k < 512 -> entry (frames s) (pmd_next e) k = Some e' -> pte_is_valid e' = false.
Proof.
  induction n as [| n IH]; intros s i s' Hi Hd; cbn [destroy_user_pmd] in Hd.
  { injection Hd as <-. split; [done |]. intros; lia. }
  destruct (load s pmd i) as [e |] eqn:El; [| done].
  assert (Hstep : exists s1, frames s1 = frames s /\ destroy_user_pmd s1 pmd (i + 1) n = Ret s' /\
    (pmd_is_valid e = true -> pmd_is_leaf e = false /\ destroy_user_pt s (pmd_next e) 0 512 = Ret tt)).
  { destruct (pmd_is_valid e); cbn [negb] in Hd; [| by exists s]. destruct (pmd_is_leaf e); [done |].
    destruct (destroy_user_pt s (pmd_next e) 0 512) as [[] |]; [| done].
    destruct (free_pgtable s (pmd_next e)) as [s1 |] eqn:Ef; [| done].
    exists s1. split; [by eapply free_pgtable_frames | done]. }
  destruct Hstep as (s1 & Hfr & Hd1 & Hv). destruct (IH s1 (i + 1) s' ltac:(lia) Hd1) as [Hf' Hall].
  rewrite Hfr in *. split; [done |]. intros j e' Hj He Hval. destruct (decide (j = i)) as [-> | Hne].
  - rewrite (load_entry _ _ _ _ He) in El. injection El as ->. destruct (Hv Hval) as [Hl Hpt]. split; [done |].
    intros k e2 Hk. by eapply (destroy_pt_ret s); [| exact Hpt |].
  - by apply (Hall j e'); [lia | |].
Qed.

Lemma destroy_pgd_ret kl pgd : forall (n : nat) s i s', 0 <= i -> destroy_user_pgd kl s pgd i n = Ret s' ->
  forall va k, i <= pgd_index va < i + Z.of_nat n -> rd kl (pgd_index va) = Ret k -> pgd_is_valid k = false ->
  walk (frames s) pgd va = None.
Proof.
  induction n as [| n IH]; intros s i s' Hi Hd va k Hva Hk Hkv; [lia |]. cbn [destroy_user_pgd] in Hd.
  destruct (rd kl i) as [ke |] eqn:Er; [| done]. destruct (load s pgd i) as [e |] eqn:El; [| done].
  assert (Hstep : exists s1, frames s1 = frames s /\ destroy_user_pgd kl s1 pgd (i + 1) n = Ret s' /\
    (pgd_is_valid ke = false -> pgd_is_valid e = true -> pgd_is_leaf e = false /\
       exists s2, destroy_user_pmd s (pgd_next e) 0 512 = Ret s2)).
  { destruct (pgd_is_valid ke); cbn [orb] in Hd; [by exists s |].
    destruct (pgd_is_valid e); cbn [negb] in Hd; [| by exists s]. destruct (pgd_is_leaf e); [done |].
    destruct (destroy_user_pmd s (pgd_next e) 0 512) as [s1 |] eqn:Ed; [| done].
    destruct (free_pgtable s1 (pgd_next e)) as [s2 |] eqn:Ef; [| done].
    exists s2. split; [| eauto]. rewrite (free_pgtable_frames _ _ _ Ef). exact (proj1 (destroy_pmd_ret _ 512 s 0 s1 ltac:(lia) Ed)). }
  destruct Hstep as (s1 & Hfr & Hd1 & Hv). destruct (decide (pgd_index va = i)) as [E | Hne].
  2: { rewrite <- Hfr. by apply (IH s1 (i + 1) s' ltac:(lia) Hd1 va k); [lia | |]. }
  unfold walk. destruct (entry (frames s) pgd (pgd_index va)) as [e' |] eqn:Ee; [| done]. pt_simp.
  rewrite E in *. rewrite (load_entry _ _ _ _ Ee) in El. injection El as ->. rewrite Er in Hk. injection Hk as ->.
  destruct (pgd_is_valid e) eqn:V; [| done]. destruct (Hv Hkv eq_refl) as [-> (s2 & Hpmd)]. pt_simp.
  destruct (destroy_pmd_ret _ 512 s 0 s2 ltac:(lia) Hpmd) as [_ Hall]. pose proof (index_bounds va) as (_ & B2 & B3).
  destruct (entry (frames s) (pgd_next e) (pmd_index va)) as [e2 |] eqn:E2; [| done]. pt_simp.
  destruct (pmd_is_valid e2) eqn:V2; [| done]. destruct (Hall (pmd_index va) e2 ltac:(lia) E2 V2) as [-> Hpt]. pt_simp.
  destruct (entry (frames s) (pmd_next e2) (pte_index va)) as [e3 |] eqn:E3; [| done]. pt_simp.
  by rewrite (Hpt _ _ B3 E3).
Qed.

End Mapping.

(** ** The buddy allocator as a source of frames

    With RAM of [N] frames from [phys_offset] on, on one CPU, the page cache
    having nothing to reclaim. *)

Section BuddyFrames.

Context (N phys_offset cpu : Z).
Hypothesis ram_base : 0 < phys_offset /\ phys_offset mod 2 ^ 24 = 0.
Hypothesis ram_end : phys_offset + 4096 * N <= 2 ^ 56.

Definition frame_of (pg : Z) : Z := phys_offset + 4096 * pg.

Definition buddy_alloc (st : buddy_state) (o : Z) : res (buddy_state * option Z) :=
  let! (st, r) := page_alloc phys_offset quiet st cpu o in
  Ret (st, option_map (pfn_to_phys phys_offset) r).

Definition buddy_release (st : buddy_state) (pa : Z) : res buddy_state :=
  page_free phys_offset st cpu (phys_to_pfn phys_offset pa) 0.

Definition buddy_held (st : buddy_state) (x : Z) : Prop :=
  exists pg, x = frame_of pg /\ owned st pg 0 /\ allocated st pg.

Definition buddy_free (st : buddy_state) (x : Z) : Prop := exists pg, x = frame_of pg /\ is_free st pg.

Lemma to_phys pg : 0 <= pg < N -> pfn_to_phys phys_offset pg = frame_of pg.
Proof.
  intros Hpg. unfold pfn_to_phys, frame_of. rewrite Z.shiftl_mul_pow2 by (unfold PAGE_SHIFT; lia).
  change (2 ^ PAGE_SHIFT) with 4096. rewrite (u64_small (pg * 4096)), u64_small; lia.
Qed.

Lemma of_phys pg : 0 <= pg < N -> phys_to_pfn phys_offset (frame_of pg) = pg.
Proof.
  intros Hpg. unfold phys_to_pfn, frame_of. rewrite Z.shiftr_div_pow2 by (unfold PAGE_SHIFT; lia).
  change (2 ^ PAGE_SHIFT) with 4096. rewrite u64_small by lia.
  replace (phys_offset + 4096 * pg - phys_offset) with (pg * 4096) by lia. by apply Z.div_mul.
Qed.

Lemma held_keep st st' : map_full N st -> map_full N st' ->
  (forall x, is_free st' x -> is_free st x) ->
  (forall x, ~ is_free st x -> mem_map st' !! x = mem_map st !! x) ->
  forall x, buddy_held st x -> buddy_held st' x.
Proof.
  intros Hm Hm' Hf Hfr x (pg & -> & Hown & (p & Hp & Hfl)). exists pg. split; [done |].
  assert (Hself : blk pg 0 pg) by (apply blk_self; lia).
  assert (Hnf : ~ is_free st pg) by (by eapply owned_free).
  split.
  - apply (owned_intro N); [done | lia | apply Z.mod_1_r |]. intros y Hy. split; [eapply (owned_range N st); [done | done | exact Hy] |].
    intros Hy'. eapply owned_free; [exact Hown | exact Hy | by apply Hf].
  - exists p. by rewrite Hfr.
Qed.

#[export, program] Instance buddy_frames : PageFrames buddy_state := {
  pf_inv st := map_full N st /\ inv none st;
  pf_free := buddy_free;
  pf_held := buddy_held;
  pf_alloc := buddy_alloc;
  pf_release := buddy_release
}.
Next Obligation.
  intros st x _ (pg & -> & Hown & _) (q & E & Hq). assert (q = pg) as -> by (unfold frame_of in E; lia).
  eapply owned_free; [exact Hown | | exact Hq]. apply blk_self. lia.
Qed.
Next Obligation.
  intros st o [Hm Hi] Ho. unfold PAGE_ORDER_MAX in Ho. unfold buddy_alloc.
  destruct (quiet_alloc_spec N phys_offset cpu st o (proj2 ram_base) Hm Hi Ho) as (st' & r & -> & st1 & [F1 F2 F3 F4] & Hr).
  eexists _, _. split; [reflexivity |]. destruct r as [pg |]; cbn [option_map].
  - destruct Hr as [H1 H2 H3 H4 H5 H6]. split; [done |]. pose proof (own_align _ _ _ H3) as Hal.
    assert (Hrange : forall x, blk pg o x -> 0 <= x < N) by (intros x; by apply (owned_range N st')).
    assert (Hpg : 0 <= pg < N) by (apply Hrange, blk_self; lia).
    assert (Hend : pg + 2 ^ o <= N).
    { assert (0 < 2 ^ o) by lia. assert (blk pg o (pg + 2 ^ o - 1)) as Hl by (unfold blk; lia). apply Hrange in Hl. lia. }
    split_and!.
    + intros x (q & -> & Hq). exists q. split; [done |]. apply F3, H5. by left.
    + apply (held_keep st); [done | done | |].
      * intros x Hx. apply F3, H5. by left.
      * intros x Hx. rewrite H6 by (by rewrite F3). by apply F4.
    + rewrite to_phys by done. unfold frame_of. rewrite Z.pow_add_r by lia. change (2 ^ 12) with 4096.
      apply Z.mod_divide; [lia |]. apply Z.divide_add_r.
      * apply Z.mod_divide; [lia |]. destruct ram_base as [_ Hb]. apply Z.mod_divide in Hb as [q ->]; [| lia].
        apply Z.mod_divide; [lia |]. exists (q * 2 ^ (12 - o)).
        replace (2 ^ 24) with (2 ^ (12 - o) * (4096 * 2 ^ o)); [lia |].
        change 4096 with (2 ^ 12). rewrite <- !Z.pow_add_r by lia. f_equal. lia.
      * apply Z.mod_divide in Hal as [q ->]; [| lia]. exists q. lia.
    + rewrite to_phys by done. unfold frame_of. lia.
    + rewrite to_phys by done. unfold frame_of. rewrite Z.pow_add_r by lia. change (2 ^ 12) with 4096. lia.
    + intros ->. exists pg. split; [by apply to_phys | split; [done |]]. eexists. split; [exact H4 | done].
    + intros k Hk. rewrite to_phys by done. replace (frame_of pg + 4096 * k) with (frame_of (pg + k)) by (unfold frame_of; lia).
      assert (Hb : blk pg o (pg + k)) by (unfold blk; lia). split.
      * exists (pg + k). split; [done |]. apply F3, H5. by right.
      * intros (q & E & Hq). assert (q = pg + k) as -> by (unfold frame_of in E; lia). by eapply owned_free.
  - subst st'. split; [done |]. split_and!; [| | done].
    + intros x (q & -> & Hq). exists q. split; [done |]. by apply F3.
    + apply (held_keep st); try done. intros x. by rewrite F3.
Qed.
Next Obligation.
  intros st pa [Hm Hi] (pg & -> & Hown & Hal). unfold buddy_release.
  assert (Hpg : 0 <= pg < N) by (apply (owned_range N st pg 0); [done | done | apply blk_self; lia]).
  rewrite of_phys by done.
  destruct (page_free_spec N phys_offset st cpu pg 0 (proj2 ram_base) Hm Hi Hown Hal) as (st' & Hst & [G1 G2 G3 G4] & _).
  exists st'. split; [done |]. split; [done |]. split.
  - intros x. split.
    + intros (q & -> & Hq). apply G3 in Hq as [Hq | Hq]; [left; by exists q | right].
      unfold blk in Hq. change (2 ^ 0) with 1 in Hq. unfold frame_of. lia.
    + intros [(q & -> & Hq) | ->]; [exists q | exists pg]; (split; [done |]); apply G3; [by left | right].
      apply blk_self. lia.
  - intros x (q & -> & Hq & (p & Hp & Hfl)) Hne.
    assert (Hqp : q <> pg) by congruence.
    assert (Hnf : ~ is_free st q) by (eapply owned_free; [exact Hq | apply blk_self; lia]).
    assert (Hnb : ~ blk pg 0 q) by (unfold blk; change (2 ^ 0) with 1; lia).
    exists q. split; [done |]. split.
    + apply (owned_intro N); [done | lia | apply Z.mod_1_r |]. intros y Hy. split; [eapply (owned_range N st); [done | done | exact Hy] |].
      assert (y = q) as -> by (unfold blk in Hy; change (2 ^ 0) with 1 in Hy; lia). rewrite G3. tauto.
    + exists p. by rewrite G4.
Qed.

End BuddyFrames.

(** A pool of single frames, for examples. *)
Definition good_frame (x : Z) : Prop := x mod 4096 = 0 /\ 0 < x /\ x + 4096 <= 2 ^ 56.

Definition list_alloc (a : list Z) (o : Z) : res (list Z * option Z) :=
  if o =? 0 then match a with pa :: a' => Ret (a', Some pa) | [] => Ret ([], None) end else Ret (a, None).

#[export, program] Instance list_frames : PageFrames (list Z) := {
  pf_inv a := NoDup a /\ Forall good_frame a;
  pf_free a x := (x ∈ a);
  pf_held a x := (x ∉ a) /\ good_frame x;
  pf_alloc := list_alloc;
  pf_release a pa := Ret (pa :: a)
}.
Next Obligation.
  intros a x _ [Hx _]. done.
Qed.
Next Obligation.
  intros a o [Hnd Hg] Ho. unfold list_alloc. destruct (Z.eqb_spec o 0) as [-> | Hne].
  2: { exists a, None. by split_and!. }
  destruct a as [| pa a]; [exists [], None; by split_and! |].
  apply list.NoDup_cons in Hnd as [Hni Hnd]. apply list.Forall_cons in Hg as [(G1 & G2 & G3) Hg].
  exists a, (Some pa). change (2 ^ (12 + 0)) with 4096. change (2 ^ 0) with 1. split_and!; try done.
  - intros x Hx. by right.
  - intros x [Hx Hgx]. split; [| done]. intros Hx'. apply Hx. by right.
  - intros k Hk. replace (pa + 4096 * k) with pa by lia. split; [left | done].
Qed.
Next Obligation.
  intros a pa [Hnd Hg] [Hni Hgp]. exists (pa :: a). split_and!; try done.
  - by apply list.NoDup_cons.
  - by apply list.Forall_cons.
  - intros x. rewrite elem_of_cons. tauto.
  - intros x [Hx Hgx] Hne. split; [| done]. rewrite elem_of_cons. tauto.
Qed.

(** ** Properties *)

(** A leaf entry of each of the three levels decodes to the address and
    the flags it was made from, an entry for a table to the table, and the
    indices of a virtual address are its digits. *)
Theorem entry_roundtrip pa f va :
  0 <= pa < 2 ^ 56 -> 0 <= f < 1024 -> Z.lor 1 f <> 1 ->
  (pa mod PAGE_SIZE = 0 -> pte_is_valid (pte_set_leaf pa f) = true /\
     pte_leaf (pte_set_leaf pa f) = pa /\ pte_flags (pte_set_leaf pa f) = Z.lor 1 f /\
     pgd_is_leaf (pgd_set_next pa) = false /\ pgd_next (pgd_set_next pa) = pa /\
     pmd_is_leaf (pmd_set_next pa) = false /\ pmd_next (pmd_set_next pa) = pa) /\
  (pa mod PAGE_SIZE_2M = 0 -> pmd_is_leaf (pmd_set_leaf pa f) = true /\
     pmd_leaf (pmd_set_leaf pa f) = pa /\ pmd_flags (pmd_set_leaf pa f) = Z.lor 1 f) /\
  (pa mod PAGE_SIZE_1G = 0 -> pgd_is_leaf (pgd_set_leaf pa f) = true /\
     pgd_leaf (pgd_set_leaf pa f) = pa /\ pgd_flags (pgd_set_leaf pa f) = Z.lor 1 f) /\
  va mod 2 ^ 39 = pgd_index va * 2 ^ 30 + pmd_index va * 2 ^ 21 + pte_index va * 2 ^ 12 + va mod 2 ^ 12.
Proof.
  intros Hpa Hf Hl. split_and!.
  - intros Hal. destruct (pte_leaf_dec pa f Hpa Hal Hf) as (? & ? & ?).
    destruct (pgd_next_dec pa Hpa Hal) as (? & ? & ?). destruct (pmd_next_dec pa Hpa Hal) as (? & ? & ?). done.
  - intros Hal. destruct (pmd_leaf_dec pa f Hpa Hal Hf Hl) as (? & ? & ? & ?). done.
  - intros Hal. destruct (pgd_leaf_dec pa f Hpa Hal Hf Hl) as (? & ? & ? & ?). done.
  - apply digits.
Qed.

Lemma entry_roundtrip_witness :
  pmd_leaf (pmd_set_leaf 0x80200000 0xd7) = 0x80200000 /\ pmd_flags (pmd_set_leaf 0x80200000 0xd7) = 0xd7.
Proof.
  destruct (entry_roundtrip 0x80200000 0xd7 0 ltac:(lia) ltac:(lia) ltac:(done)) as (_ & H & _ & _).
  apply H. reflexivity.
Defined.

Section Properties.

Context {A : Type} `{PF : PageFrames A}.

(** A request [map_pages] can serve: page-aligned, inside both spaces. *)
Record map_args (addr paddr size f : Z) : Prop := {
  ma_addr : 0 <= addr /\ addr mod 4096 = 0 /\ addr + size < 2 ^ 64;
  ma_size : 0 <= size <= VSPACE /\ size mod 4096 = 0;
  ma_paddr : 0 <= paddr /\ paddr mod 4096 = 0 /\ paddr + size <= 2 ^ 56;
  ma_flags : flags_ok f
}.

Lemma aligned_true x : x mod 4096 = 0 -> is_aligned x PAGE_SIZE = true.
Proof. intros Hx. change PAGE_SIZE with (2 ^ 12). by apply is_aligned_spec. Qed.

Lemma map_pages_spec (s : pt_state A) root rl addr paddr size f :
  pt_inv s root rl -> map_args addr paddr size f -> room (frames s) root addr size ->
  exists s' err rl' m, map_pages s root addr paddr size f = Ret (s', err) /\
    mapped root s rl s' rl' addr paddr f m /\ 0 <= m <= size /\
    (err = 0 /\ m = size \/ err = - ENOMEM /\ m < size).
Proof.
  intros Hinv [(A1 & A2 & A3) [B1 B2] (C1 & C2 & C3) Hf] Hroom. unfold map_pages.
  rewrite !aligned_true, u64_small by (done || lia).
  apply map_pages_loop_spec; try done; unfold VSPACE, PAGE_SIZE_2M, PAGE_SIZE_1G in *; lia.
Qed.

(** C12: [map_pages] always returns.  On success exactly the addresses of the
    range translate, with the given flags, each to the physical address as far
    above [paddr] as it is above [addr], whatever mix of page sizes was used;
    on [-ENOMEM] this holds of a prefix of the range.  No other translation
    changes, and no frame that was in use and is not a table of this tree. *)
Theorem map_pages_correct (s : pt_state A) root rl addr paddr size f :
  pt_inv s root rl -> map_args addr paddr size f -> room (frames s) root addr size ->
  exists s' err rl' m, map_pages s root addr paddr size f = Ret (s', err) /\
    mapped root s rl s' rl' addr paddr f m /\ 0 <= m <= size /\
    (err = 0 /\ m = size \/ err = - ENOMEM /\ m < size).
Proof. apply map_pages_spec. Qed.

(** C36: unmapping a range that is made of whole leaves clears exactly its
    translations, never trips an assertion, and touches no other frame. *)
Theorem unmap_pages_correct (s : pt_state A) root rl addr size :
  pt_inv s root rl -> addr mod 4096 = 0 -> size mod 4096 = 0 -> 0 <= addr -> addr + size < 2 ^ 64 ->
  size <= VSPACE -> leaves (walk (frames s) root) addr (addr + size) ->
  exists s', unmap_pages s root addr size = Ret s' /\ unmapped root s rl s' addr size.
Proof.
  intros Hinv Ha Hs Ha0 Hfit Hv Hlv. pose proof (leaves_le _ _ _ Hlv). unfold unmap_pages.
  rewrite !aligned_true, u64_small by (done || lia).
  destruct (map_undo root s rl addr (addr + size)) as (s' & -> & Hu); try done; [lia |].
  exists s'. split; [done |]. by replace (addr + size - addr) with size in Hu by lia.
Qed.

(** A user mapping that succeeds can be taken back: unmapping its
    rounded range succeeds and every translation is as it was before. *)
Theorem map_unmap_user_pages (s : pt_state A) root rl addr size paddr f s1 :
  let sz := round_up size PAGE_SIZE in
  pt_inv s root rl -> map_args addr paddr sz (Z.lor f PTE_U) -> room (frames s) root addr sz ->
  map_user_pages s root addr size paddr f = Ret (s1, 0) ->
  exists s2, unmap_user_pages s1 root addr sz = Ret s2 /\
    forall va, walk (frames s2) root va = walk (frames s) root va.
Proof.
  cbv zeta. unfold map_user_pages, unmap_user_pages, unmap_pages. set (sz := round_up size PAGE_SIZE).
  intros Hinv Hargs Hroom Hmap.
  destruct (map_pages_spec s root rl addr paddr sz (Z.lor f PTE_U) Hinv Hargs Hroom)
    as (s1' & err & rl1 & m & Hm & [M1 M2 M3 M4] & _ & Hres).
  rewrite Hm in Hmap. injection Hmap as -> ->. destruct Hres as [[_ ->] | [? _]]; [| done].
  destruct Hargs as [(A1 & A2 & A3) [B1 B2] (C1 & C2 & C3) Hf].
  rewrite !aligned_true, u64_small by (done || lia).
  destruct (map_undo root s1 rl1 addr (addr + sz)) as (s2 & -> & [_ Hu]); try done; [apply M1 | lia |].
  exists s2. split; [done |]. intros va. rewrite Hu. replace (addr + sz - addr) with sz by lia.
  destruct (Z.ltb_spec (dist addr va) sz); [| by apply M3].
  symmetry. apply (vacant_walk _ _ PAGE_SIZE). pose proof (dist_nonneg addr va).
  assert (Hz : page_sz PAGE_SIZE) by (right; by right).
  apply Hroom; [done | |]; rewrite (mod_dist PAGE_SIZE addr va Hz A2).
  - pose proof (Z.mod_le (dist addr va) PAGE_SIZE ltac:(lia) ltac:(done)). lia.
  - by apply page_end.
Qed.

(** Destroying a user tree with nothing mapped in it frees each of its
    tables and its directory once and nothing else; a destruction that returns
    has found no user address mapped. *)
Theorem destroy_user_pgtable_correct (kernel_pgdir : list Z) (s : pt_state A) pgd :
  (pf_inv (pool s) -> pgd_empty (frames s) kernel_pgdir pgd ->
   let tables := pgd_tables (frames s) kernel_pgdir (page_words (frames s) pgd) ++ [pgd] in
   NoDup tables -> Forall (pf_held (pool s)) tables ->
   exists s', destroy_user_pgtable kernel_pgdir s pgd = Ret s' /\ frames s' = frames s /\
     forall x, pf_free (pool s') x <-> pf_free (pool s) x \/ x ∈ tables) /\
  (forall s' va k, destroy_user_pgtable kernel_pgdir s pgd = Ret s' ->
     rd kernel_pgdir (pgd_index va) = Ret k -> pgd_is_valid k = false ->
     walk (frames s) pgd va = None).
Proof.
  unfold destroy_user_pgtable. split.
  - intros Hp (l & Hl & Hlen & Hklen & Hall) Hnd Hheld.
    pose proof (destroy_pgd_spec kernel_pgdir pgd l 512 0 s Hl ltac:(lia) Hall) as Hd.
    change (Z.of_nat 0) with 0 in Hd. rewrite !drop_0 in Hd. rewrite Hd.
    assert (Hpw : page_words (frames s) pgd = l) by (unfold page_words; by rewrite Hl).
    rewrite Hpw in *.
    destruct (release_all_spec _ (pool s) Hp Hnd Hheld) as (a & Hrel & Ha & Hfree).
    rewrite release_all_app in Hrel.
    destruct (release_all (pool s) (pgd_tables (frames s) kernel_pgdir l)) as [a1 |]; [| done].
    cbn [release_all] in Hrel. unfold free_pgtable. cbn [with_pool pool frames].
    destruct (pf_release a1 pgd) as [a2 |]; [| done]. injection Hrel as ->.
    eexists. split; [reflexivity |]. split; [done | exact Hfree].
  - intros s' va k Hd Hk Hkv. destruct (destroy_user_pgd kernel_pgdir s pgd 0 512) as [s1 |] eqn:E; [| done].
    pose proof (index_bounds va) as (B & _). exact (destroy_pgd_ret _ _ 512 s 0 s1 ltac:(lia) E va k ltac:(lia) Hk Hkv).
Qed.

(** A new user directory translates every address as the kernel's does,
    sharing its tables; when no frame is left, the copy goes to physical
    address 0. *)
Theorem create_user_pgtable_correct (kernel_pgdir : list Z) (s : pt_state A) kroot rl :
  pt_inv s kroot rl -> frames s !! kroot = Some kernel_pgdir ->
  (exists s' pa, create_user_pgtable kernel_pgdir s = Ret (s', pa) /\ pa <> 0 /\ pf_free (pool s) pa /\
     pf_held (pool s') pa /\ (forall x, x <> pa -> frames s' !! x = frames s !! x) /\
     forall va, walk (frames s') pa va = walk (frames s) kroot va) \/
  (exists a, pf_alloc (pool s) 0 = Ret (a, None) /\
     create_user_pgtable kernel_pgdir s = let! s := store_page (mk_pt (frames s) a) 0 kernel_pgdir in Ret (s, 0)).
Proof.
  intros [I1 I2 I3 I4 I5] Hk. unfold create_user_pgtable, alloc_pgtable, page_alloc_phys.
  destruct (pf_alloc_ok (pool s) 0 I2 ltac:(unfold PAGE_ORDER_MAX; lia)) as (a & r & -> & Ha & Hf & Hh & Hr).
  destruct r as [pa |]; [left | right; exists a; done].
  destruct Hr as (Hal & Hp & Hb & Hheld & Hblk). destruct (Hblk 0) as [Hfree Hused]; [lia |].
  rewrite Z.mul_0_r, Z.add_0_r in *. destruct (Z.eqb_spec pa 0); [lia |].
  unfold store_page at 1. cbn [frames pool]. destruct (I5 pa Hfree) as [l ->].
  unfold store_page. cbn [frames pool]. rewrite lookup_insert_eq.
  eexists _, pa. split; [reflexivity |]. cbn [frames pool]. rewrite insert_insert_eq.
  split; [lia |]. split; [done |]. split; [by apply Hheld |].
  split; [intros x Hx; by rewrite lookup_insert_ne |]. intros va.
  assert (Hno : forall t r, rl t = Some r -> t <> pa) by (intros t r Ht ->; by destruct (I3 pa r Ht)).
  unfold walk.
  assert (He : entry (<[pa := kernel_pgdir]> (frames s)) pa (pgd_index va) = entry (frames s) kroot (pgd_index va)).
  { unfold entry. by rewrite lookup_insert_eq, Hk. }
  rewrite He. destruct (entry (frames s) kroot (pgd_index va)) as [e |] eqn:E1; [| done]. pt_simp.
  destruct (pgd_is_valid e) eqn:V1; [| done]. destruct (pgd_is_leaf e) eqn:L1; [done |]. pt_simp.
  pose proof (tr_pgd _ _ _ I1 _ _ E1 V1 L1) as R1. rewrite entry_other by (by eapply Hno).
  destruct (entry (frames s) (pgd_next e) (pmd_index va)) as [e2 |] eqn:E2; [| done]. pt_simp.
  destruct (pmd_is_valid e2) eqn:V2; [| done]. destruct (pmd_is_leaf e2) eqn:L2; [done |]. pt_simp.
  pose proof (tr_pmd _ _ _ I1 _ _ _ _ R1 E2 V2 L2) as R2. by rewrite entry_other by (by eapply Hno).
Qed.

End Properties.

(** ** Examples *)

(** An empty directory at 0x1000 and two free frames. *)
Definition demo_pt (free : list Z) : pt_state (list Z) :=
  mk_pt {[0x1000 := zero_page; 0x2000 := zero_page; 0x3000 := zero_page]} free.

Definition demo_roles (x : Z) : option role := if x =? 0x1000 then Some Root else None.

Lemma demo_entry free i : 0 <= i < 512 -> entry (frames (demo_pt free)) 0x1000 i = Some 0.
Proof.
  intros Hi. unfold entry. rewrite decide_True by lia. change (frames (demo_pt free) !! 0x1000) with (Some zero_page).
  cbn [mbind option_bind]. apply lookup_replicate_2. lia.
Qed.

Lemma demo_room free a n : room (frames (demo_pt free)) 0x1000 a n.
Proof. intros z va _ _ _. unfold vacant. rewrite demo_entry by apply index_bounds. done. Qed.

Lemma demo_inv free : free ⊆ [0x2000; 0x3000] -> NoDup free -> pt_inv (demo_pt free) 0x1000 demo_roles.
Proof.
  intros Hsub Hnd.
  assert (Hx : forall x, x ∈ free -> x = 0x2000 \/ x = 0x3000).
  { intros x Hx%Hsub. rewrite !elem_of_cons, elem_of_nil in Hx. tauto. }
  assert (Hroot : forall t r, demo_roles t = Some r -> t = 0x1000 /\ r = Root).
  { intros t r. unfold demo_roles. destruct (Z.eqb_spec t 0x1000); [| done]. by intros [= <-]. }
  split; cbn [pool demo_pt].
  - split; try done.
    + intros t Ht. exact (proj1 (Hroot t Root Ht)).
    + intros t r Ht. apply Hroot in Ht as [-> _]. exists zero_page. split; [done | by apply length_replicate].
    + intros i e He. destruct (decide (0 <= i < 512)) as [Hi |].
      * rewrite demo_entry in He by done. by injection He as <-.
      * exfalso. unfold entry in He. case_decide; [| done].
        change (frames (demo_pt free) !! 0x1000) with (Some zero_page) in He. cbn [mbind option_bind] in He.
        apply lookup_replicate in He as [_ ?]. lia.
    + intros t i j e Ht. destruct (Hroot t _ Ht) as [_ ?]. done.
  - split; [done |]. apply list.Forall_forall. intros x Hxf. destruct (Hx x Hxf) as [-> | ->]; (split; [done | lia]).
  - intros t r Ht Hf. destruct (Hroot t r Ht) as [-> _]. destruct (Hx _ Hf); done.
  - intros t r Ht Hne. destruct (Hroot t r Ht) as [? _]. done.
  - intros x Hxf. destruct (Hx x Hxf) as [-> | ->]; done.
Qed.

Lemma demo_two : [0x2000; 0x3000] ⊆ [0x2000; 0x3000] /\ NoDup [0x2000; 0x3000].
Proof. split; [done |]. apply (bool_decide_unpack _). reflexivity. Qed.

Lemma demo_args : map_args 0x400000 0x80000000 0x2000 0x17.
Proof. split; [done | done | done |]. split; [lia | done]. Qed.

Lemma map_pages_witness :
  exists s' err rl' m, map_pages (demo_pt [0x2000; 0x3000]) 0x1000 0x400000 0x80000000 0x2000 0x17 = Ret (s', err) /\
    mapped 0x1000 (demo_pt [0x2000; 0x3000]) demo_roles s' rl' 0x400000 0x80000000 0x17 m /\ 0 <= m <= 0x2000 /\
    (err = 0 /\ m = 0x2000 \/ err = - ENOMEM /\ m < 0x2000).
Proof.
  exact (map_pages_correct _ 0x1000 demo_roles 0x400000 0x80000000 0x2000 0x17
    (demo_inv _ (proj1 demo_two) (proj2 demo_two)) demo_args (demo_room _ _ _)).
Defined.

Definition outcome {B C} (d : B) (r : res (B * C)) : B := match r with Ret (b, _) => b | Halt _ => d end.

(** Two pages mapped at 0x400000. *)
Definition demo_mapped : pt_state (list Z) :=
  outcome (demo_pt []) (map_user_pages (demo_pt [0x2000; 0x3000]) 0x1000 0x400000 5000 0x80000000 7).

Lemma map_unmap_user_pages_witness :
  exists s2, unmap_user_pages demo_mapped 0x1000 0x400000 (round_up 5000 PAGE_SIZE) = Ret s2 /\
    forall va, walk (frames s2) 0x1000 va = walk (frames (demo_pt [0x2000; 0x3000])) 0x1000 va.
Proof.
  refine (map_unmap_user_pages (demo_pt [0x2000; 0x3000]) 0x1000 demo_roles 0x400000 5000 0x80000000 7 demo_mapped
    (demo_inv _ (proj1 demo_two) (proj2 demo_two)) demo_args (demo_room _ _ _) _).
  vm_compute. reflexivity.
Defined.

Lemma unmap_pages_witness :
  exists rl s', unmap_pages demo_mapped 0x1000 0x400000 0x2000 = Ret s' /\
    unmapped 0x1000 demo_mapped rl s' 0x400000 0x2000.
Proof.
  destruct (map_pages_spec (demo_pt [0x2000; 0x3000]) 0x1000 demo_roles 0x400000 0x80000000 0x2000 0x17
    (demo_inv _ (proj1 demo_two) (proj2 demo_two)) demo_args (demo_room _ _ _))
    as (s1 & err & rl & m & Hmap & [M1 M2 M3 M4] & Hm & Hres).
  assert (Hok : map_pages (demo_pt [0x2000; 0x3000]) 0x1000 0x400000 0x80000000 0x2000 0x17 = Ret (demo_mapped, 0))
    by (vm_compute; reflexivity).
  rewrite Hok in Hmap. injection Hmap as <- <-. destruct Hres as [[_ ->] | [? _]]; [| done].
  exists rl. refine (unmap_pages_correct demo_mapped 0x1000 rl 0x400000 0x2000 _ eq_refl eq_refl _ _ _ M4).
  - apply M1.
  - lia.
  - lia.
  - done.
Defined.

Lemma create_user_pgtable_witness :
  (exists s' pa, create_user_pgtable zero_page (demo_pt [0x2000; 0x3000]) = Ret (s', pa) /\ pa <> 0 /\
     pf_free [0x2000; 0x3000] pa /\ pf_held (pool s') pa /\
     (forall x, x <> pa -> frames s' !! x = frames (demo_pt [0x2000; 0x3000]) !! x) /\
     forall va, walk (frames s') pa va = walk (frames (demo_pt [0x2000; 0x3000])) 0x1000 va) \/
  (exists a, pf_alloc [0x2000; 0x3000] 0 = Ret (a, None) /\
     create_user_pgtable zero_page (demo_pt [0x2000; 0x3000]) =
     let! s := store_page (mk_pt (frames (demo_pt [0x2000; 0x3000])) a) 0 zero_page in Ret (s, 0)).
Proof.
  exact (create_user_pgtable_correct zero_page (demo_pt [0x2000; 0x3000]) 0x1000 demo_roles
    (demo_inv _ (proj1 demo_two) (proj2 demo_two)) eq_refl).
Defined.

(** A directory with one empty middle table. *)
Definition demo_dir : list Z := pgd_set_next 0x2000 :: replicate 511 0.

Definition demo_tree : pt_state (list Z) := mk_pt {[0x1000 := demo_dir; 0x2000 := zero_page]} [].

Lemma destroy_user_pgtable_witness :
  exists s', destroy_user_pgtable zero_page demo_tree 0x1000 = Ret s' /\ frames s' = frames demo_tree /\
    forall x, pf_free (pool s') x <-> pf_free [] x \/ x ∈ [0x2000; 0x1000].
Proof.
  destruct (destroy_user_pgtable_correct zero_page demo_tree 0x1000) as [H _].
  assert (Ht : pgd_tables (frames demo_tree) zero_page (page_words (frames demo_tree) 0x1000) ++ [0x1000] =
    [0x2000; 0x1000]) by (vm_compute; reflexivity).
  rewrite Ht in H. apply H.
  - split; [constructor | done].
  - exists demo_dir. split_and!; [done | done | done |]. constructor.
    + intros _ _. split; [done |]. exists zero_page. split_and!; [done | done |].
      apply Forall_replicate. done.
    + apply (Forall2_replicate _ 511). done.
  - apply (bool_decide_unpack _). reflexivity.
  - repeat apply list.Forall_cons_2; try done; (split; [apply not_elem_of_nil | split; [done | lia]]).
Defined.

(** A mapping that fails half way keeps what it had mapped with larger
    pages: with one frame left, mapping 2 MiB and a page reports [-ENOMEM] and
    the 2 MiB stay mapped. *)
Theorem map_pages_error_keeps_prefix :
  exists s', map_pages (demo_pt [0x2000]) 0x1000 0x200000 0x80200000 0x201000 0x17 = Ret (s', - ENOMEM) /\
    translate (frames s') 0x1000 0x200000 = Some (0x80200000, 0x17) /\
    translate (frames s') 0x1000 0x3fffff = Some (0x803fffff, 0x17).
Proof.
  exists (outcome (demo_pt []) (map_pages (demo_pt [0x2000]) 0x1000 0x200000 0x80200000 0x201000 0x17)).
  split_and!; vm_compute; reflexivity.
Qed.

(** A table stays behind when its last page is unmapped, and is in the
    way of a large page: mapping a page, unmapping it and mapping 2 MiB at the
    same place stops the kernel, though nothing is mapped there. *)
Theorem map_large_over_empty_table :
  exists s1 s2, map_pages (demo_pt [0x2000; 0x3000]) 0x1000 0x400000 0x80000000 0x1000 0x17 = Ret (s1, 0) /\
    unmap_pages s1 0x1000 0x400000 0x1000 = Ret s2 /\
    translate (frames s2) 0x1000 0x400000 = None /\
    map_pages s2 0x1000 0x400000 0x80000000 0x200000 0x17 = Halt Panic.
Proof.
  set (s1 := outcome (demo_pt []) (map_pages (demo_pt [0x2000; 0x3000]) 0x1000 0x400000 0x80000000 0x1000 0x17)).
  exists s1, (match unmap_pages s1 0x1000 0x400000 0x1000 with Ret s => s | Halt _ => s1 end).
  split_and!; vm_compute; reflexivity.
Qed.
