(* ===== verification/Vmalloc.v ===== *)
(** * mm/vmalloc.c: kernel virtual areas, and mm/ioremap.c

    The areas are a list that tiles the vmalloc window, in address order.  Pages
    come from the allocator behind [PageTable.PageFrames] and are mapped by
    [PageTable.map_kernel_pages] into the kernel's tables, with its assertions;
    pages and tables come from the same pool.  A page is named by its physical
    address.  The region cache and the page array are flags: [slab_ok] says
    whether the one, [arr_ok] whether the other can be had.  [tail] is what the
    last turn of [merge_free_vm_areas] finds: its [next] is not a region but the
    list head, read as one.  The pages recorded in a free area mean nothing. *)

From S2P Require Import Prelude Buddy PageTable.

Definition VMALLOC_START : Z := 0xffffffe000000000.
Definition VMALLOC_SIZE : Z := 0x1000000000.
Definition PTE_R : Z := 2.
Definition PTE_W : Z := 4.

Record vmalloc_region : Set := mk_area {
  addr : Z; size : Z; pages : list Z; is_free : bool
}.

(** ** The list of areas *)

Definition find_vm_area (l : list vmalloc_region) (a : Z) : option vmalloc_region :=
  list_find (fun r => addr r = a) l ≫= fun '(_, r) => Some r.

(** [list_for_each_entry_safe(curr, next, &vma, list)]. *)
Fixpoint merge_from (tail curr : vmalloc_region) (rest : list vmalloc_region) : list vmalloc_region :=
  match rest with
  | [] =>
      if is_free curr && is_free tail && (u64 (addr curr + size curr) =? addr tail)
      then [] else [curr]
  | next :: rest' =>
      if is_free curr && is_free next && (u64 (addr curr + size curr) =? addr next)
      then merge_from tail (mk_area (addr curr) (u64 (size next + size curr)) (pages next) (is_free next)) rest'
      else curr :: merge_from tail next rest'
  end.

Definition merge_free_vm_areas (tail : vmalloc_region) (l : list vmalloc_region) : list vmalloc_region :=
  match l with [] => [] | curr :: rest => merge_from tail curr rest end.

(** The list with the area taken marked, and the area. *)
Fixpoint find_free_loop (slab_ok : bool) (l : list vmalloc_region) (sz : Z)
    : option (list vmalloc_region * vmalloc_region) :=
  match l with
  | [] => None
  | area :: l' =>
      if negb (is_free area) || (size area <? sz) then
        match find_free_loop slab_ok l' sz with
        | Some (l', r) => Some (area :: l', r)
        | None => None
        end
      else if size area =? sz then
        let r := mk_area (addr area) (size area) (pages area) false in Some (r :: l', r)
      else if negb slab_ok then None
      else
        let r := mk_area (addr area) sz (pages area) false in
        let new_area := mk_area (u64 (addr area + sz)) (size area - sz) [] true in
        Some (r :: new_area :: l', r)
  end.

Definition find_free_vm_area (slab_ok : bool) (l : list vmalloc_region) (sz : Z)
    : option (list vmalloc_region * vmalloc_region) :=
  find_free_loop slab_ok l (round_up sz PAGE_SIZE).

(** An area is named by its address. *)
Definition update_area (l : list vmalloc_region) (a : Z) (f : vmalloc_region -> vmalloc_region)
    : list vmalloc_region :=
  map (fun r => if addr r =? a then f r else r) l.

Definition free_vm_area (tail : vmalloc_region) (l : list vmalloc_region) (a : Z) : list vmalloc_region :=
  merge_free_vm_areas tail (update_area l a (fun r => mk_area (addr r) (size r) (pages r) true)).

Definition vmalloc_init : list vmalloc_region := [mk_area VMALLOC_START VMALLOC_SIZE [] true].

(** ** Mapped allocations *)

Section Mapped.

(** [root] is the physical address of [kernel_pgdir]. *)
Context {A : Type} `{PF : PageFrames A} (root : Z).

Record vm_state : Type := mk_vm { vma : list vmalloc_region; kpt : pt_state A }.

Inductive fill_result : Set := Filled | Failed.

Definition page_free (k : pt_state A) (pg : Z) : res (pt_state A) :=
  let! a := pf_release (pool k) pg in Ret (mk_pt (frames k) a).

(** [for (; i < npgs; ++i)]: the pages placed, newest last, and how it ends. *)
Fixpoint fill_loop (k : pt_state A) (vaddr : Z) (got : list Z) (n : nat) : res (pt_state A * list Z * fill_result) :=
  match n with
  | O => Ret (k, got, Filled)
  | S n' =>
      let! (k, pg) := page_alloc_phys k 0 in
      if pg =? 0 then Ret (k, got, Failed)
      else
        let! (k, err) := map_kernel_pages k root vaddr PAGE_SIZE pg (Z.lor PTE_R PTE_W) in
        if negb (err =? 0) then
          let! k := page_free k pg in Ret (k, got, Failed)
        else fill_loop k (u64 (vaddr + PAGE_SIZE)) (got ++ [pg]) n'
  end.

(** The loops that free the pages of an area. *)
Fixpoint free_pages (k : pt_state A) (l : list Z) : res (pt_state A) :=
  match l with
  | [] => Ret k
  | pg :: l' =>
      assert! negb (pg =? 0) in
      let! k := page_free k pg in free_pages k l'
  end.

Definition vmalloc (tail : vmalloc_region) (slab_ok arr_ok : bool) (s : vm_state) (sz : Z)
    : res (vm_state * option Z) :=
  let sz := round_up sz PAGE_SIZE in
  match find_free_vm_area slab_ok (vma s) sz with
  | None => Ret (s, None)
  | Some (l, area) =>
      let npgs := Z.shiftr sz PAGE_SHIFT in
      if negb arr_ok then Ret (mk_vm (free_vm_area tail l (addr area)) (kpt s), None)
      else
        let! f := fill_loop (kpt s) (addr area) [] (Z.to_nat npgs) in
        let '(k, got, r) := f in
        match r with
        | Filled =>
            Ret (mk_vm (update_area l (addr area) (fun r => mk_area (addr r) (size r) got (is_free r))) k,
                 Some (addr area))
        | Failed =>
            let! k := free_pages k got in
            Ret (mk_vm (free_vm_area tail l (addr area)) k, None)
        end
  end.

Definition vfree (tail : vmalloc_region) (s : vm_state) (ptr : Z) : res vm_state :=
  match find_vm_area (vma s) ptr with
  | None => Ret s
  | Some area =>
      if is_free area then Ret s
      else
        let! k := unmap_kernel_pages (kpt s) root (addr area) (size area) in
        let! k := free_pages k (pages area) in
        Ret (mk_vm (free_vm_area tail (vma s) (addr area)) k)
  end.

Definition vmalloc_nomap (slab_ok : bool) (s : vm_state) (sz : Z) : vm_state * option Z :=
  match find_free_vm_area slab_ok (vma s) (round_up sz PAGE_SIZE) with
  | None => (s, None)
  | Some (l, area) => (mk_vm l (kpt s), Some (addr area))
  end.

Definition vfree_nomap (tail : vmalloc_region) (s : vm_state) (ptr : Z) : vm_state :=
  match find_vm_area (vma s) ptr with
  | None => s
  | Some area => if is_free area then s else mk_vm (free_vm_area tail (vma s) (addr area)) (kpt s)
  end.

(** ** mm/ioremap.c *)

Definition ioremap (tail : vmalloc_region) (slab_ok : bool) (s : vm_state) (paddr sz flags : Z)
    : res (vm_state * option Z) :=
  let sz := round_up sz PAGE_SIZE in
  let (s, r) := vmalloc_nomap slab_ok s sz in
  match r with
  | None => Ret (s, None)
  | Some virt =>
      let! (k, err) := map_kernel_pages (kpt s) root virt sz paddr flags in
      let s := mk_vm (vma s) k in
      if negb (err =? 0) then Ret (vfree_nomap tail s virt, None) else Ret (s, Some virt)
  end.

Definition iounmap (tail : vmalloc_region) (s : vm_state) (a sz : Z) : res vm_state :=
  let sz := round_up sz PAGE_SIZE in
  let! k := unmap_kernel_pages (kpt s) root a sz in
  Ret (vfree_nomap tail (mk_vm (vma s) k) a).

End Mapped.
Arguments vm_state A : clear implicits.

(** ** Invariant *)

(** [l] tiles [[lo, hi)] with whole pages. *)
Fixpoint tiles (lo : Z) (l : list vmalloc_region) (hi : Z) : Prop :=
  match l with
  | [] => lo = hi
  | r :: l' => addr r = lo /\ 0 < size r /\ size r mod 4096 = 0 /\ tiles (lo + size r) l' hi
  end.

(** Free areas are merged. *)
Fixpoint merged (l : list vmalloc_region) : Prop :=
  match l with
  | r1 :: ((r2 :: _) as l') => ~ (is_free r1 = true /\ is_free r2 = true) /\ merged l'
  | _ => True
  end.

Definition vma_ok (l : list vmalloc_region) : Prop :=
  tiles VMALLOC_START l (VMALLOC_START + VMALLOC_SIZE) /\ merged l.

(** The address [x] is handed out. *)
Definition taken (l : list vmalloc_region) (x : Z) : Prop :=
  exists r, r ∈ l /\ is_free r = false /\ addr r <= x < addr r + size r.

(** The list head does not look like a free area behind the window. *)
Definition tail_ok (tail : vmalloc_region) : Prop :=
  ~ (is_free tail = true /\ addr tail = VMALLOC_START + VMALLOC_SIZE).

(** ** Tilings *)

Abbreviation WEND := (VMALLOC_START + VMALLOC_SIZE).

Lemma WEND_small : WEND < 2 ^ 64.
Proof. reflexivity. Qed.

Lemma tiles_le lo l hi : tiles lo l hi -> lo <= hi.
Proof.
  revert lo. induction l as [| r l IH]; intros lo H; simpl in H; [lia |].
  destruct H as (_ & H2 & _ & H4). apply IH in H4. lia.
Qed.

Lemma tiles_app lo l1 l2 hi : tiles lo (l1 ++ l2) hi <-> exists m, tiles lo l1 m /\ tiles m l2 hi.
Proof.
  revert lo. induction l1 as [| r l1 IH]; intros lo; simpl.
  - split; [intros H; by exists lo | intros (m & -> & H); done].
  - rewrite IH. split.
    + intros (H1 & H2 & H3 & m & H4 & H5). exists m. tauto.
    + intros (m & (H1 & H2 & H3 & H4) & H5). split_and!; try done. eauto.
Qed.

Lemma tiles_mem lo l hi r : tiles lo l hi -> r ∈ l -> lo <= addr r /\ addr r + size r <= hi /\ 0 < size r.
Proof.
  revert lo. induction l as [| r' l IH]; intros lo H Hr; [by apply elem_of_nil in Hr |].
  simpl in H. destruct H as (H1 & H2 & H3 & H4). pose proof (tiles_le _ _ _ H4).
  apply elem_of_cons in Hr as [-> | Hr]; [lia |]. apply (IH _ H4) in Hr. lia.
Qed.

Lemma taken_cons r l x : taken (r :: l) x <-> (is_free r = false /\ addr r <= x < addr r + size r) \/ taken l x.
Proof.
  unfold taken. setoid_rewrite elem_of_cons. split.
  - intros (r' & [-> | Hr] & H); [by left | right; eauto].
  - intros [H | (r' & Hr & H)]; eauto.
Qed.

Lemma taken_nil x : ~ taken [] x.
Proof. intros (r & Hr & _). by apply elem_of_nil in Hr. Qed.

Lemma taken_app l1 l2 x : taken (l1 ++ l2) x <-> taken l1 x \/ taken l2 x.
Proof.
  induction l1 as [| r l1 IH]; simpl.
  - pose proof (taken_nil x). tauto.
  - rewrite !taken_cons, IH. tauto.
Qed.

Lemma taken_range lo l hi x : tiles lo l hi -> taken l x -> lo <= x < hi.
Proof. intros Ht (r & Hr & _ & Hx). apply (tiles_mem _ _ _ _ Ht) in Hr. lia. Qed.

(** The areas at two distinct places do not overlap. *)
Lemma tiles_mid lo l1 r l2 hi : tiles lo (l1 ++ r :: l2) hi ->
  (forall x, taken l1 x -> x < addr r) /\ (forall x, taken l2 x -> addr r + size r <= x) /\
  0 < size r /\ size r mod 4096 = 0 /\ tiles lo l1 (addr r) /\ tiles (addr r + size r) l2 hi.
Proof.
  intros H. apply tiles_app in H as (m & H1 & H2). simpl in H2. destruct H2 as (<- & H2 & H3 & H4).
  split_and!; try done.
  - intros x Hx. apply (taken_range _ _ _ _ H1) in Hx. lia.
  - intros x Hx. apply (taken_range _ _ _ _ H4) in Hx. lia.
Qed.

(** ** Merging *)

Lemma merge_from_spec tail hi rest : forall lo curr,
  tiles lo (curr :: rest) hi -> 0 <= lo -> hi < 2 ^ 64 -> ~ (is_free tail = true /\ addr tail = hi) ->
  exists r l, merge_from tail curr rest = r :: l /\ is_free r = is_free curr /\
    tiles lo (r :: l) hi /\ merged (r :: l) /\ forall x, taken (r :: l) x <-> taken (curr :: rest) x.
Proof.
  induction rest as [| next rest IH]; intros lo curr Ht Hlo Hhi Htail; cbn [merge_from].
  - pose proof Ht as (H1 & H2 & H3 & H4). simpl in H4. rewrite u64_small by lia.
    destruct (is_free curr) eqn:Ef, (is_free tail) eqn:Et; cbn [andb];
      try (exists curr, []; split_and!; done).
    destruct (Z.eqb_spec (addr curr + size curr) (addr tail)); [exfalso; apply Htail; split; [done | lia] |].
    exists curr, []. split_and!; done.
  - pose proof Ht as (H1 & H2 & H3 & H4). pose proof H4 as (H5 & H6 & H7 & H8).
    pose proof (tiles_le _ _ _ H8) as Hle. rewrite u64_small by lia.
    destruct (is_free curr) eqn:Ef; [destruct (is_free next) eqn:En |]; cbn [andb].
    + destruct (Z.eqb_spec (addr curr + size curr) (addr next)); [| lia].
      rewrite u64_small by lia.
      destruct (IH lo (mk_area (addr curr) (size next + size curr) (pages next) true))
        as (r & l & -> & Hr & Htr & Hm & Htk); try done.
      { simpl. split_and!; try done; [lia | | replace (lo + (size next + size curr)) with (lo + size curr + size next) by lia; done].
        rewrite Z.add_mod, H3, H7 by lia. done. }
      exists r, l. split_and!; try done. intros x. rewrite Htk, !taken_cons. simpl. rewrite Ef, En. split; [|]; intuition done.
    + destruct (IH (lo + size curr) next) as (r & l & -> & Hr & Htr & Hm & Htk); try done; [lia |].
      exists curr, (r :: l). split_and!; try done.
      * split; [| done]. rewrite Hr, En. intros [_ ?]. done.
      * intros x. rewrite taken_cons, Htk, (taken_cons curr). done.
    + destruct (IH (lo + size curr) next) as (r & l & -> & Hr & Htr & Hm & Htk); try done; [lia |].
      exists curr, (r :: l). split_and!; try done.
      * split; [| done]. rewrite Ef. intros [? _]. done.
      * intros x. rewrite taken_cons, Htk, (taken_cons curr). done.
Qed.

(** ** Finding a free area *)

Definition too_small (sz : Z) (r : vmalloc_region) : Prop := is_free r = false \/ size r < sz.

Lemma find_free_spec slab_ok sz l : forall lo hi,
  tiles lo l hi -> 0 <= lo -> hi < 2 ^ 64 -> 0 < sz ->
  match find_free_loop slab_ok l sz with
  | Some (l', r) => exists l1 area l2, l = l1 ++ area :: l2 /\ is_free area = true /\ sz <= size area /\
      Forall (too_small sz) l1 /\ r = mk_area (addr area) sz (pages area) false /\
      l' = l1 ++ r :: (if size area =? sz then l2
                       else mk_area (addr area + sz) (size area - sz) [] true :: l2)
  | None => slab_ok = true -> Forall (too_small sz) l
  end.
Proof.
  induction l as [| a l IH]; intros lo hi Ht Hlo Hhi Hsz; cbn [find_free_loop]; [constructor |].
  pose proof Ht as (H1 & H2 & H3 & H4). pose proof (tiles_le _ _ _ H4) as Hle.
  destruct (negb (is_free a) || (size a <? sz)) eqn:E.
  - assert (Hsmall : too_small sz a).
    { apply orb_true_iff in E as [E | E%Z.ltb_lt]; [left; by destruct (is_free a) | by right]. }
    specialize (IH _ _ H4 ltac:(lia) Hhi Hsz). destruct (find_free_loop slab_ok l sz) as [[l' r] |].
    + destruct IH as (l1 & area & l2 & -> & Hf & Hs & Hall & -> & ->).
      exists (a :: l1), area, l2. split_and!; try done. by constructor.
    + intros Hok. constructor; [done | by apply IH].
  - apply orb_false_iff in E as [Ef Es%Z.ltb_ge]. apply negb_false_iff in Ef.
    destruct (Z.eqb_spec (size a) sz) as [Heq | Hne].
    + exists [], a, l. rewrite Heq, Z.eqb_refl. split_and!; (done || lia || constructor).
    + destruct slab_ok; cbn [negb]; [| done]. rewrite u64_small by lia.
      exists [], a, l. destruct (Z.eqb_spec (size a) sz); [done |]. split_and!; (done || lia || constructor).
Qed.

(** A run nobody holds lies inside one free area. *)
Lemma free_run l : forall lo hi x sz,
  tiles lo l hi -> merged l -> lo <= x -> x + sz <= hi -> 0 < sz ->
  (forall y, x <= y < x + sz -> ~ taken l y) ->
  exists r, r ∈ l /\ is_free r = true /\ addr r <= x /\ x + sz <= addr r + size r.
Proof.
  induction l as [| r l IH]; intros lo hi x sz Ht Hm Hlo Hhi Hsz Hfree; simpl in Ht; [lia |].
  destruct Ht as (H1 & H2 & H3 & H4). destruct (Z.lt_ge_cases x (lo + size r)) as [Hin | Hout].
  - assert (Hf : is_free r = true).
    { destruct (is_free r) eqn:E; [done |]. exfalso. apply (Hfree x); [lia |]. apply taken_cons. left. split; [done | lia]. }
    destruct (Z.le_gt_cases (x + sz) (lo + size r)) as [Hfit | Hover].
    { exists r. split; [left |]. split_and!; [done | lia | lia]. }
    exfalso. destruct l as [| r2 l]; simpl in H4; [lia |]. destruct H4 as (H5 & H6 & _).
    destruct Hm as [Hnn _]. destruct (is_free r2) eqn:E2; [by apply Hnn |].
    apply (Hfree (lo + size r)); [lia |]. apply taken_cons. right. apply taken_cons. left. split; [done | lia].
  - destruct (IH (lo + size r) hi x sz) as (r' & Hr' & Hrest); try done.
    + destruct l; [done |]. apply Hm.
    + intros y Hy Ht. apply (Hfree y Hy). apply taken_cons. by right.
    + exists r'. split; [by right | done].
Qed.

Lemma merged_app_inv l1 r l2 : merged (l1 ++ r :: l2) -> merged (r :: l2).
Proof.
  induction l1 as [| a l1 IH]; [done |]. simpl. intros H. apply IH. destruct (l1 ++ r :: l2); [done |]. apply H.
Qed.

(** Replacing a free area by an allocated one, with or without a free rest. *)
Lemma merged_take l1 area l2 r rest :
  merged (l1 ++ area :: l2) -> is_free area = true -> is_free r = false ->
  rest = l2 \/ (exists n, rest = n :: l2 /\ is_free n = true) -> merged (l1 ++ r :: rest).
Proof.
  induction l1 as [| a l1 IH]; intros Hm Hf Hr Hrest.
  - simpl in *. destruct Hrest as [-> | (n & -> & Hn)].
    + destruct l2; [done |]. destruct Hm as [_ Hm]. split; [rewrite Hr; by intros [? _] | done].
    + split; [rewrite Hr; by intros [? _] |]. destruct l2; [done |]. destruct Hm as [Hm1 Hm2].
      split; [| done]. intros [_ H2]. by apply Hm1.
  - specialize (IH ltac:(simpl in Hm; destruct (l1 ++ area :: l2); [done | apply Hm]) Hf Hr Hrest).
    destruct l1 as [| b l1]; simpl in *.
    + split; [| done]. rewrite Hr. by intros [_ ?].
    + split; [apply Hm | done].
Qed.

Lemma round_up_page sz : 0 <= sz < 2 ^ 63 ->
  round_up sz PAGE_SIZE mod 4096 = 0 /\ sz <= round_up sz PAGE_SIZE < sz + 4096.
Proof. intros. apply (round_up_bounds sz 12); lia. Qed.

Lemma round_up_twice sz : 0 <= sz < 2 ^ 62 ->
  round_up (round_up sz PAGE_SIZE) PAGE_SIZE = round_up sz PAGE_SIZE.
Proof.
  intros. pose proof (round_up_page sz ltac:(lia)) as [H1 H2].
  pose proof (round_up_page (round_up sz PAGE_SIZE) ltac:(lia)) as [H3 H4].
  set (a := round_up sz PAGE_SIZE) in *. set (b := round_up a PAGE_SIZE) in *. clearbody a b. zdm.
Qed.

(** What taking an area of [sz] bytes amounts to. *)
Record takes (l l' : list vmalloc_region) (a sz : Z) : Prop := {
  tk_ok : vma_ok l';
  tk_window : VMALLOC_START <= a /\ a + sz <= WEND /\ a mod 4096 = 0;
  tk_new : forall x, a <= x < a + sz -> ~ taken l x;
  tk_taken : forall x, taken l' x <-> taken l x \/ a <= x < a + sz
}.

Lemma tiles_aligned lo l hi r : tiles lo l hi -> lo mod 4096 = 0 -> r ∈ l -> addr r mod 4096 = 0.
Proof.
  revert lo. induction l as [| r' l IH]; intros lo H Hlo Hr; [by apply elem_of_nil in Hr |].
  simpl in H. destruct H as (H1 & H2 & H3 & H4). apply elem_of_cons in Hr as [-> | Hr]; [by rewrite H1 |].
  apply (IH _ H4); [| done]. rewrite Z.add_mod, Hlo, H3 by lia. done.
Qed.

Lemma find_free_takes slab_ok l sz :
  vma_ok l -> 0 < sz < 2 ^ 62 -> sz mod 4096 = 0 ->
  match find_free_vm_area slab_ok l sz with
  | Some (l', r) => takes l l' (addr r) sz /\ size r = sz
  | None => slab_ok = true -> forall x, VMALLOC_START <= x -> x + sz <= WEND ->
      exists y, x <= y < x + sz /\ taken l y
  end.
Proof.
  intros [Ht Hm] Hsz Hal. unfold find_free_vm_area.
  replace (round_up sz PAGE_SIZE) with sz.
  2: { pose proof (round_up_page sz ltac:(lia)) as [H1 H2].
       set (a := round_up sz PAGE_SIZE) in *. clearbody a. zdm. }
  pose proof (find_free_spec slab_ok sz l VMALLOC_START WEND Ht ltac:(unfold VMALLOC_START; lia) WEND_small ltac:(lia)) as Hf.
  destruct (find_free_loop slab_ok l sz) as [[l' r] |].
  - destruct Hf as (l1 & area & l2 & -> & Hfree & Hs & _ & -> & ->). cbn [addr size]. split; [| done].
    pose proof (tiles_mid _ _ _ _ _ Ht) as (Hl1 & Hl2 & Hp & Ha & Ht1 & Ht2).
    pose proof (tiles_le _ _ _ Ht1). pose proof (tiles_le _ _ _ Ht2).
    assert (Halign : addr area mod 4096 = 0) by (apply (tiles_aligned _ _ _ area Ht); [done | set_solver]).
    set (r := mk_area (addr area) sz (pages area) false).
    split.
    + split.
      * apply tiles_app. exists (addr area). split; [done |]. simpl. split_and!; try done; [lia |].
        destruct (Z.eqb_spec (size area) sz) as [<- | Hne]; [done |]. simpl. split_and!; try done; [lia | |].
        -- rewrite Zminus_mod, Ha, Hal. done.
        -- replace (addr area + sz + (size area - sz)) with (addr area + size area) by lia. done.
      * eapply merged_take; [exact Hm | done | done |].
        destruct (size area =? sz); [by left | right; eauto].
    + split_and!; try lia.
    + intros x Hx. rewrite taken_app, taken_cons. intros [Hc | [[Hc _] | Hc]]; [apply Hl1 in Hc; lia | congruence | apply Hl2 in Hc; lia].
    + intros x. rewrite !taken_app, !taken_cons. cbn [r is_free addr size].
      assert (Hrest : taken (if size area =? sz then l2 else mk_area (addr area + sz) (size area - sz) [] true :: l2) x <-> taken l2 x).
      { destruct (size area =? sz); [done |]. rewrite taken_cons. simpl. intuition congruence. }
      rewrite Hrest. intuition congruence.
  - intros Hok x Hx Hx'. specialize (Hf Hok).
    destruct (decide (Exists (fun r => is_free r = false /\ addr r < x + sz /\ x < addr r + size r) l)) as [Hex | Hno].
    + apply list.Exists_exists in Hex as (r & Hr & Hfr & H1 & H2). exists (Z.max x (addr r)).
      pose proof (tiles_mem _ _ _ _ Ht Hr). split; [lia |]. exists r. split_and!; try done; lia.
    + exfalso. destruct (free_run l VMALLOC_START WEND x sz) as (r & Hr & Hfr & H1 & H2); try done; [lia | |].
      * intros y Hy (r & Hr & Hfr & Hyr). apply Hno. apply list.Exists_exists. exists r. split_and!; try done; lia.
      * rewrite list.Forall_forall in Hf. destruct (Hf r Hr) as [? | ?]; [congruence | lia].
Qed.

(** ** Giving an area back *)

Lemma update_outside l a f : (forall r, r ∈ l -> addr r <> a) -> update_area l a f = l.
Proof.
  induction l as [| r l IH]; intros H; [done |]. simpl.
  destruct (Z.eqb_spec (addr r) a) as [E | _]; [exfalso; apply (H r); [left | done] |].
  f_equal. apply IH. intros r' Hr'. apply H. by right.
Qed.

Lemma update_mid lo l1 r l2 hi f : tiles lo (l1 ++ r :: l2) hi ->
  update_area (l1 ++ r :: l2) (addr r) f = l1 ++ f r :: l2.
Proof.
  intros Ht. pose proof (tiles_mid _ _ _ _ _ Ht) as (_ & _ & Hp & _ & Ht1 & Ht2).
  unfold update_area. rewrite map_app. cbn [map]. rewrite Z.eqb_refl. f_equal; [| f_equal].
  - apply (update_outside l1). intros r' Hr'. pose proof (tiles_mem _ _ _ _ Ht1 Hr'). lia.
  - apply (update_outside l2). intros r' Hr'. pose proof (tiles_mem _ _ _ _ Ht2 Hr'). lia.
Qed.

Lemma free_area_spec tail l1 r l2 :
  tail_ok tail -> tiles VMALLOC_START (l1 ++ r :: l2) WEND -> is_free r = false ->
  let l' := free_vm_area tail (l1 ++ r :: l2) (addr r) in
  vma_ok l' /\ forall x, taken l' x <-> taken (l1 ++ r :: l2) x /\ ~ (addr r <= x < addr r + size r).
Proof.
  intros Htail Ht Hr. cbv zeta. unfold free_vm_area. rewrite (update_mid _ _ _ _ _ _ Ht).
  pose proof (tiles_mid _ _ _ _ _ Ht) as (Hl1 & Hl2 & Hp & Ha & Ht1 & Ht2).
  set (r' := mk_area (addr r) (size r) (pages r) true).
  assert (Ht' : tiles VMALLOC_START (l1 ++ r' :: l2) WEND).
  { apply tiles_app. exists (addr r). split; [done |]. simpl. done. }
  assert (Htk : forall x, taken (l1 ++ r' :: l2) x <->
    taken (l1 ++ r :: l2) x /\ ~ (addr r <= x < addr r + size r)).
  { intros x. rewrite !taken_app, !taken_cons. cbn [r' is_free addr size].
    pose proof (Hl1 x) as Hb1. pose proof (Hl2 x) as Hb2. split.
    - intros [Hc | [[? _] | Hc]]; [split; [tauto | intros ?; specialize (Hb1 Hc); lia] | done |
        split; [tauto | intros ?; specialize (Hb2 Hc); lia]].
    - intros [[Hc | [[_ Hc] | Hc]] Hn]; [tauto | tauto | tauto]. }
  destruct (l1 ++ r' :: l2) as [| c rest] eqn:El; [by destruct l1 |]. cbn [merge_free_vm_areas].
  destruct (merge_from_spec tail WEND rest VMALLOC_START c)
    as (x & l & -> & _ & Htx & Hmx & Hkx); [done | unfold VMALLOC_START; lia | apply WEND_small | done |].
  split; [done |]. intros y. by rewrite Hkx, Htk.
Qed.

Lemma find_vm_area_spec lo l hi r : tiles lo l hi -> r ∈ l -> find_vm_area l (addr r) = Some r.
Proof.
  revert lo. induction l as [| r' l IH]; intros lo Ht Hr; [by apply elem_of_nil in Hr |].
  simpl in Ht. destruct Ht as (H1 & H2 & H3 & H4). unfold find_vm_area. cbn [list_find].
  destruct (decide (addr r' = addr r)) as [E | E].
  - apply elem_of_cons in Hr as [-> | Hr]; [done |]. pose proof (tiles_mem _ _ _ _ H4 Hr). lia.
  - apply elem_of_cons in Hr as [-> | Hr]; [done |]. specialize (IH _ H4 Hr). unfold find_vm_area in IH.
    destruct (list_find _ l) as [[i x] |]; simpl in *; done.
Qed.

(** ** Freeing pages *)

Section Properties.

Context {A : Type} `{PF : PageFrames A} (root : Z).
Implicit Types (k : pt_state A) (s : vm_state A) (rl : Z -> option role).

Lemma area_page_free_spec k rl pg : pt_inv k root rl -> own k rl pg ->
  exists k', page_free k pg = Ret k' /\ pt_inv k' root rl /\ frames k' = frames k /\
    (forall x, pf_free (pool k') x <-> pf_free (pool k) x \/ x = pg) /\
    (forall x, pf_held (pool k) x -> x <> pg -> pf_held (pool k') x).
Proof.
  intros [I1 I2 I3 I4 I5] [O1 O2 O3 O4 O5]. unfold page_free.
  destruct (pf_release_ok (pool k) pg I2 O1) as (a & -> & Ha & Hf & Hh). eexists. split; [reflexivity |]. cbn [frames pool].
  split_and!; try done. split; cbn [frames pool]; try done.
  - intros t r Ht [Hx | ->]%Hf; [by eapply I3 | congruence].
  - intros t r Ht Hne. apply Hh; [by eapply I4 | congruence].
  - intros x [Hx | ->]%Hf; [by apply I5 | done].
Qed.

Lemma own_free k rl k' q pg : frames k' = frames k -> (forall x, pf_free (pool k') x <-> pf_free (pool k) x \/ x = pg) ->
  (forall x, pf_held (pool k) x -> x <> pg -> pf_held (pool k') x) -> own k rl q -> q <> pg -> own k' rl q.
Proof.
  intros Hfr Hf Hh [O1 O2 O3 O4 O5] Hne. split; [auto | rewrite Hf; tauto | done | by rewrite Hfr | done].
Qed.

Lemma free_pages_spec rl l : forall k, pt_inv k root rl -> NoDup l -> Forall (own k rl) l ->
  exists k', free_pages k l = Ret k' /\ pt_inv k' root rl /\ frames k' = frames k /\
    forall x, pf_free (pool k') x <-> pf_free (pool k) x \/ x ∈ l.
Proof.
  induction l as [| pg l IH]; intros k Hinv Hnd Hown; cbn [free_pages].
  { exists k. split_and!; try done. intros x. rewrite elem_of_nil. tauto. }
  apply list.NoDup_cons in Hnd as [Hni Hnd]. apply list.Forall_cons in Hown as [Hpg Hown].
  destruct (Z.eqb_spec pg 0) as [-> |]; [destruct Hpg; lia |]. cbn [negb].
  destruct (area_page_free_spec k rl pg Hinv Hpg) as (k1 & -> & Hinv1 & Hfr1 & Hf1 & Hh1).
  destruct (IH k1 Hinv1 Hnd) as (k2 & -> & Hinv2 & Hfr2 & Hf2).
  { rewrite list.Forall_forall in *. intros q Hq. apply (own_free k rl k1 q pg); auto. congruence. }
  exists k2. split_and!; [done | done | by rewrite Hfr2 |]. intros x. rewrite Hf2, Hf1, elem_of_cons. tauto.
Qed.

(** A page that was taken and is given back. *)
Lemma give_back k rl k2 rl2 pg : pt_inv k root rl -> grows root k rl k2 rl2 -> own k2 rl2 pg -> pf_free (pool k) pg ->
  exists k3, page_free k2 pg = Ret k3 /\ frames k3 = frames k2 /\ grows root k rl k3 rl2.
Proof.
  intros Hinv G Hown Hfree. destruct (area_page_free_spec k2 rl2 pg (gr_inv _ _ _ _ _ G) Hown) as (k3 & E & Hinv3 & Hfr & Hf & Hh).
  exists k3. split_and!; [done | done |]. destruct G as [G1 G2 G3 G4 G5 G6]. split; try done.
  - intros x [Hx | ->]%Hf; auto.
  - intros x Hx. apply Hh; [auto |]. intros ->. by apply (pf_held_used (pool k) pg (pi_pool _ _ _ Hinv)).
  - intros x Hx Hr. rewrite Hfr. auto.
Qed.

(** ** Filling an area with pages *)

Definition PROT : Z := Z.lor PTE_R PTE_W.

(** Page [i] from [a] on leads to the [i]-th of [pgs], and all else is as in [fr]. *)
Definition shows (fr fr' : gmap Z (list Z)) (a : Z) (pgs : list Z) : Prop := forall va,
  walk fr' root va = if dist a va <? 4096 * Z.of_nat (length pgs)
                     then pgs !! Z.to_nat (dist a va / 4096) ≫= fun pg => Some (pg, Z.lor 1 PROT, PAGE_SIZE)
                     else walk fr root va.

Lemma shows_nil fr a : shows fr fr a [].
Proof. intros va. cbn [length]. change (4096 * Z.of_nat 0) with 0. pose proof (dist_nonneg a va). by destruct (Z.ltb_spec (dist a va) 0); [lia |]. Qed.

Lemma shows_same fr fr' fr'' a pgs : (forall va, walk fr'' root va = walk fr' root va) -> shows fr fr' a pgs -> shows fr fr'' a pgs.
Proof. intros E H va. rewrite E. apply H. Qed.

Lemma shows_cons fr fr1 fr2 a pg pgs : 4096 * Z.of_nat (S (length pgs)) <= VSPACE ->
  (forall va, walk fr1 root va = if dist a va <? 4096 then Some (pg, Z.lor 1 PROT, PAGE_SIZE) else walk fr root va) ->
  shows fr1 fr2 (a + 4096) pgs -> shows fr fr2 a (pg :: pgs).
Proof.
  intros Hv H1 H2 va. rewrite H2, H1. cbn [length]. pose proof (dist_nonneg a va).
  destruct (Z.ltb_spec (dist a va) 4096).
  - assert (Hfar : ~ dist (a + 4096) va < 4096 * Z.of_nat (length pgs)) by (unfold dist, VSPACE in *; zdm).
    destruct (Z.ltb_spec (dist (a + 4096) va) (4096 * Z.of_nat (length pgs))); [lia |].
    destruct (Z.ltb_spec (dist a va) (4096 * Z.of_nat (S (length pgs)))); [| lia]. by rewrite Z.div_small by lia.
  - rewrite (dist_step a va 4096) by lia.
    destruct (Z.ltb_spec (dist a va - 4096) (4096 * Z.of_nat (length pgs))), (Z.ltb_spec (dist a va) (4096 * Z.of_nat (S (length pgs)))); try lia; [| done].
    replace (dist a va - 4096) with (dist a va + -1 * 4096) by lia. rewrite Z.div_add by lia.
    assert (1 <= dist a va / 4096) by (apply Z.div_le_lower_bound; lia).
    replace (Z.to_nat (dist a va / 4096)) with (S (Z.to_nat (dist a va / 4096 + -1))) by lia. done.
Qed.

Lemma fill_loop_spec (n : nat) : forall k rl a got, let N := 4096 * Z.of_nat n in
  pt_inv k root rl -> 0 <= a -> a mod 4096 = 0 -> a + N < 2 ^ 64 -> N <= VSPACE ->
  (forall va, dist a va < N -> walk (frames k) root va = None) ->
  exists k' pgs r rl', fill_loop root k a got n = Ret (k', got ++ pgs, r) /\ grows root k rl k' rl' /\ NoDup pgs /\
    Forall (fun pg => pf_free (pool k) pg /\ own k' rl' pg) pgs /\ shows (frames k) (frames k') a pgs /\
    (r = Filled /\ length pgs = n \/ r = Failed /\ (length pgs < n)%nat /\ starved (3 * n) (pool k)).
Proof.
  induction n as [| n IH]; intros k rl a got N Hinv Ha Hal Hfit Hv Hclear; cbn [fill_loop].
  { exists k, [], Filled, rl. rewrite app_nil_r. split_and!; [done | by apply grows_refl | apply NoDup_nil_2 | apply Forall_nil_2 | apply shows_nil | by left]. }
  assert (HN : N = 4096 + 4096 * Z.of_nat n) by (unfold N; lia). clearbody N. subst N.
  destruct (take_page_spec root k rl Hinv) as (k1 & pg & -> & Hfr1 & G1 & Hno & Hyes).
  destruct (Z.eqb_spec pg 0) as [-> | Hpg].
  { exists k1, [], Failed, rl. rewrite app_nil_r. split_and!; [done | done | apply NoDup_nil_2 | apply Forall_nil_2 | rewrite Hfr1; apply shows_nil |].
    right. split_and!; [done | cbn; lia |]. apply (starved_more 0); [lia | auto]. }
  destruct (Hyes Hpg) as (Hown & Hfree & Hpal & Hpb & Hstep). unfold map_kernel_pages. change (round_up PAGE_SIZE PAGE_SIZE) with PAGE_SIZE.
  assert (Hd0 : dist a a = 0) by (unfold dist; by rewrite Z.sub_diag).
  destruct (map_page_spec root k1 rl a pg PROT) as (k2 & err & rl2 & E & G2 & Hres); try done; try lia.
  { apply G1. } { destruct Hown; lia. } { rewrite Hfr1. apply Hclear. lia. }
  fold PROT. rewrite E. pose proof (grows_trans _ _ _ _ _ _ _ G1 G2) as G12.
  assert (Hstep1 : nsteps alloc_step 1 (pool k) (pool k1)) by (eapply nsteps_l; [exact Hstep | constructor]).
  destruct Hres as [(-> & (j & Hj & Hsteps) & Hw) | (-> & Hst & Hw)]; cbn [Z.eqb negb].
  - unfold PAGE_SIZE at 1. rewrite u64_small by lia.
    destruct (IH k2 rl2 (a + 4096) (got ++ [pg])) as (k3 & pgs & r & rl3 & E3 & G3 & Hnd & Hall & Hsh & Hend); try lia.
    { apply G2. } { zdm. }
    { intros va Hva. rewrite Hw, Hfr1. pose proof (dist_split a va 4096 (4096 + 4096 * Z.of_nat n) ltac:(lia) ltac:(lia)) as Hd.
      replace (4096 + 4096 * Z.of_nat n - 4096) with (4096 * Z.of_nat n) in Hd by lia.
      assert (~ dist a va < 4096) by (unfold dist, VSPACE in *; zdm). destruct (Z.ltb_spec (dist a va) 4096); [lia |]. apply Hclear. lia. }
    rewrite E3. pose proof (own_grows _ _ _ _ _ _ (grows_trans _ _ _ _ _ _ _ G2 G3) Hown) as Hown3.
    exists k3, (pg :: pgs), r, rl3. rewrite <- app_assoc. split_and!; try done.
    + by eapply grows_trans.
    + apply list.NoDup_cons. split; [| done]. intros Hin. rewrite list.Forall_forall in Hall. destruct (Hall pg Hin) as [Hf _].
      by apply (ow_used _ _ _ Hown), (gr_free _ _ _ _ _ G2).
    + constructor; [done |]. eapply list.Forall_impl; [exact Hall |]. intros q [Hf Ho]. split; [| done]. by apply (gr_free _ _ _ _ _ G12).
    + eapply shows_cons; [| intros va; rewrite Hw, Hfr1; reflexivity | exact Hsh]. destruct Hend as [[_ ?] | (_ & ? & _)]; lia.
    + destruct Hend as [[-> Hl] | (-> & Hlt & Hs)]; [left; split; [done | cbn; lia] | right]. split_and!; [done | cbn; lia |].
      apply (starved_more (1 + j + 3 * n)); [lia |]. eapply starved_after; [| exact Hs]. by eapply nsteps_trans.
  - destruct (give_back k rl k2 rl2 pg Hinv G12 (own_grows _ _ _ _ _ _ G2 Hown) Hfree) as (k3 & -> & Hfr3 & G3).
    exists k3, [], Failed, rl2. rewrite app_nil_r. split_and!; [done | done | apply NoDup_nil_2 | apply Forall_nil_2 | |].
    + rewrite Hfr3. apply (shows_same _ (frames k)); [intros va; by rewrite Hw, Hfr1 | apply shows_nil].
    + right. split_and!; [done | cbn; lia |]. apply (starved_more (1 + 1)); [lia |]. by eapply starved_after.
Qed.

(** ** Properties *)

(** Addresses that nobody holds are not mapped. *)
Definition clear s : Prop := forall x, VMALLOC_START <= x < WEND -> ~ taken (vma s) x -> walk (frames (kpt s)) root x = None.

Definition vm_ok s rl : Prop := vma_ok (vma s) /\ pt_inv (kpt s) root rl /\ clear s.

(** Page [i] of an area at [a] is a leaf for the [i]-th page of [pgs], and nothing
    else changes. *)
Definition maps_pages (k k' : pt_state A) (a : Z) (pgs : list Z) : Prop :=
  (forall (i : nat) pg off, pgs !! i = Some pg -> 0 <= off < 4096 ->
     walk (frames k') root (a + 4096 * Z.of_nat i + off) = Some (pg, Z.lor PTE_V PROT, PAGE_SIZE)) /\
  (forall va, 4096 * Z.of_nat (length pgs) <= dist a va -> walk (frames k') root va = walk (frames k) root va).

Lemma shows_maps k k' a pgs : a mod 4096 = 0 -> 4096 * Z.of_nat (length pgs) <= VSPACE -> shows (frames k) (frames k') a pgs -> maps_pages k k' a pgs.
Proof.
  intros Ha Hv H. split.
  - intros i pg off Hi Hoff. pose proof (lookup_lt_Some _ _ _ Hi) as Hlt. rewrite H, dist_near by lia. destruct (Z.ltb_spec (a + 4096 * Z.of_nat i + off - a) (4096 * Z.of_nat (length pgs))); [| lia].
    replace (a + 4096 * Z.of_nat i + off - a) with (off + Z.of_nat i * 4096) by lia. rewrite Z.div_add, Z.div_small by lia.
    rewrite Z.add_0_l, Nat2Z.id, Hi. done.
  - intros va Hva. rewrite H. by destruct (Z.ltb_spec (dist a va) (4096 * Z.of_nat (length pgs))); [lia |].
Qed.

(** The window is small enough for addresses in it not to alias. *)
Lemma window_dist a sz x : VMALLOC_START <= a -> a + sz <= WEND -> VMALLOC_START <= x < WEND -> 0 <= sz ->
  dist a x < sz <-> a <= x < a + sz.
Proof. intros. unfold dist, VSPACE, VMALLOC_START, VMALLOC_SIZE in *. zdm. Qed.

Lemma clear_run s a sz : clear s -> VMALLOC_START <= a -> a + sz <= WEND -> 0 <= sz ->
  (forall x, a <= x < a + sz -> ~ taken (vma s) x) -> forall va, dist a va < sz -> walk (frames (kpt s)) root va = None.
Proof.
  intros Hc H1 H2 H3 Hno va Hva. pose proof (dist_nonneg a va) as Hd.
  assert (E : walk (frames (kpt s)) root va = walk (frames (kpt s)) root (a + dist a va)).
  { unfold walk. assert (Hm : va mod VSPACE = (a + dist a va) mod VSPACE) by (unfold dist, VSPACE; zdm).
    assert (Hi : pgd_index va = pgd_index (a + dist a va) /\ pmd_index va = pmd_index (a + dist a va) /\ pte_index va = pte_index (a + dist a va)).
    { rewrite !pgd_index_div, !pmd_index_div, !pte_index_div. unfold VSPACE in Hm. clear -Hm. zdm. }
    destruct Hi as (-> & -> & ->). done. }
  rewrite E. apply Hc; [lia |]. apply Hno. lia.
Qed.

Lemma find_free_held slab_ok l sz l' r : vma_ok l -> 0 < sz < 2 ^ 62 -> sz mod 4096 = 0 ->
  find_free_vm_area slab_ok l sz = Some (l', r) -> exists l1 l2, l' = l1 ++ r :: l2 /\ is_free r = false.
Proof.
  intros [Ht _] Hsz Hal E. unfold find_free_vm_area in E. replace (round_up sz PAGE_SIZE) with sz in E.
  2: { pose proof (round_up_page sz ltac:(lia)) as [H1 H2]. set (a := round_up sz PAGE_SIZE) in *. clearbody a. zdm. }
  pose proof (find_free_spec slab_ok sz l VMALLOC_START WEND Ht ltac:(unfold VMALLOC_START; lia) WEND_small ltac:(lia)) as Hs.
  rewrite E in Hs. destruct Hs as (l1 & area & l2 & _ & _ & _ & _ & -> & ->). by do 2 eexists.
Qed.

(** Taking an area and giving it back. *)
Lemma takes_undo tail l l1 r l2 sz : tail_ok tail -> takes l (l1 ++ r :: l2) (addr r) sz -> size r = sz -> is_free r = false ->
  vma_ok (free_vm_area tail (l1 ++ r :: l2) (addr r)) /\
  forall x, taken (free_vm_area tail (l1 ++ r :: l2) (addr r)) x <-> taken l x.
Proof.
  intros Htail [[Ht _] Hw Hnew Htk] <- Hr. destruct (free_area_spec tail l1 r l2 Htail Ht Hr) as [H1 H2]. split; [done |].
  intros x. rewrite H2, Htk. specialize (Hnew x). tauto.
Qed.

Lemma takes_pages l l1 r l2 sz pgs : takes l (l1 ++ r :: l2) (addr r) sz -> is_free r = false ->
  let r' := mk_area (addr r) (size r) pgs (is_free r) in
  update_area (l1 ++ r :: l2) (addr r) (fun r => mk_area (addr r) (size r) pgs (is_free r)) = l1 ++ r' :: l2 /\
  takes l (l1 ++ r' :: l2) (addr r) sz.
Proof.
  intros [[Ht Hm] Hw Hnew Htk] Hr r'. split; [by rewrite (update_mid _ _ _ _ _ _ Ht) |].
  pose proof (tiles_mid _ _ _ _ _ Ht) as (_ & _ & Hp & Ha & Ht1 & Ht2). split; try done.
  - split; [apply tiles_app; exists (addr r); split; [done |]; simpl; done |].
    clear -Hm. induction l1 as [| a l1 IH]; [destruct l2; done |]. destruct l1 as [| b l1]; simpl in *; (split; [apply Hm | apply IH; apply Hm]).
  - intros x. rewrite <- Htk, !taken_app, !taken_cons. done.
Qed.

(** An unmapped allocation returns a page-aligned run of the window that
    nobody held and that is now held, the rest unchanged, the tiling kept; it
    fails, the region cache permitting, only when every run of that size in the
    window meets a held address. *)
Theorem vmalloc_nomap_correct slab_ok s sz :
  vma_ok (vma s) -> 0 < sz < 2 ^ 61 ->
  match vmalloc_nomap slab_ok s sz with
  | (s', Some a) => takes (vma s) (vma s') a (round_up sz PAGE_SIZE) /\ kpt s' = kpt s
  | (s', None) => s' = s /\ (slab_ok = true -> forall x, VMALLOC_START <= x ->
      x + round_up sz PAGE_SIZE <= WEND -> exists y, x <= y < x + round_up sz PAGE_SIZE /\ taken (vma s) y)
  end.
Proof.
  intros Hok Hsz. unfold vmalloc_nomap. pose proof (round_up_page sz ltac:(lia)) as [H1 H2].
  pose proof (find_free_takes slab_ok (vma s) (round_up sz PAGE_SIZE) Hok ltac:(lia) H1) as Hf.
  destruct (find_free_vm_area slab_ok (vma s) (round_up sz PAGE_SIZE)) as [[l r] |]; [split; [apply Hf | done] | done].
Qed.

(** The outcome of [vmalloc], for the claim and for what follows it. *)
Definition vmalloc_result (slab_ok arr_ok : bool) s (sz : Z) s' (r : option Z) rl' : Prop :=
  (forall x, pf_free (pool (kpt s')) x -> pf_free (pool (kpt s)) x) /\
  match r with
  | Some a => vm_ok s' rl' /\ takes (vma s) (vma s') a sz /\
      exists pgs, 4096 * Z.of_nat (length pgs) = sz /\ NoDup pgs /\
        Forall (fun pg => pf_free (pool (kpt s)) pg /\ own (kpt s') rl' pg) pgs /\
        maps_pages (kpt s) (kpt s') a pgs /\
        exists area, area ∈ vma s' /\ addr area = a /\ is_free area = false /\ size area = sz /\ pages area = pgs
  | None => vma_ok (vma s') /\ pt_inv (kpt s') root rl' /\ (forall x, taken (vma s') x <-> taken (vma s) x) /\
      (slab_ok = false \/ arr_ok = false \/ starved (3 * Z.to_nat (sz / 4096)) (pool (kpt s)) \/
       forall x, VMALLOC_START <= x -> x + sz <= WEND -> exists y, x <= y < x + sz /\ taken (vma s) y)
  end.

Lemma vmalloc_spec tail slab_ok arr_ok s rl sz : tail_ok tail -> vm_ok s rl -> 0 < sz < 2 ^ 61 ->
  exists s' r rl', vmalloc root tail slab_ok arr_ok s sz = Ret (s', r) /\
    vmalloc_result slab_ok arr_ok s (round_up sz PAGE_SIZE) s' r rl'.
Proof.
  intros Htail (Hok & Hinv & Hclear) Hsz. unfold vmalloc, vmalloc_result. pose proof (round_up_page sz ltac:(lia)) as [H1 H2].
  set (n := round_up sz PAGE_SIZE) in *. clearbody n.
  pose proof (find_free_takes slab_ok (vma s) n Hok ltac:(lia) H1) as Hf.
  pose proof (find_free_held slab_ok (vma s) n) as Hh.
  destruct (find_free_vm_area slab_ok (vma s) n) as [[l r] |].
  2: { exists s, None, rl. split; [done |]. split; [done |]. split_and!; try done. destruct slab_ok; [do 3 right; auto | by left]. }
  destruct Hf as [Htk Hsize]. destruct (Hh l r Hok ltac:(lia) H1 eq_refl) as (l1 & l2 & -> & Hr). clear Hh.
  pose proof (takes_undo tail _ _ _ _ _ Htail Htk Hsize Hr) as [Hback1 Hback2].
  destruct arr_ok; cbn [negb].
  2: { eexists _, None, rl. split; [reflexivity |]. cbn [vma kpt]. split; [done |]. split_and!; try done. right. by left. }
  pose proof (tk_window _ _ _ _ Htk) as (Hw1 & Hw2 & Hw3). pose proof WEND_small.
  rewrite Z.shiftr_div_pow2 by (unfold PAGE_SHIFT; lia). change (2 ^ PAGE_SHIFT) with 4096.
  assert (Hn : 4096 * Z.of_nat (Z.to_nat (n / 4096)) = n) by zdm.
  assert (Hv : n <= VSPACE) by (unfold VSPACE, VMALLOC_START, VMALLOC_SIZE in *; lia).
  destruct (fill_loop_spec (Z.to_nat (n / 4096)) (kpt s) rl (addr r) []) as (k' & pgs & res & rl' & -> & G & Hnd & Hall & Hsh & Hend);
    try (done || lia || (unfold VMALLOC_START in *; lia)).
  { rewrite Hn. apply (clear_run s); [done | lia | lia | lia |]. apply (tk_new _ _ _ _ Htk). }
  assert (Hown : Forall (own k' rl') pgs) by (eapply list.Forall_impl; [exact Hall |]; by intros pg [_ ?]).
  cbn [app]. destruct Hend as [[-> Hlen] | (-> & Hlt & Hst)].
  - destruct (takes_pages _ _ _ _ _ pgs Htk Hr) as [-> Htk']. set (r' := mk_area _ _ _ _) in *.
    eexists _, (Some (addr r)), rl'. split; [reflexivity |]. cbn [vma kpt]. split; [apply G |].
    pose proof (shows_maps (kpt s) k' (addr r) pgs Hw3 ltac:(lia) Hsh) as Hmap. split_and!; [| done |].
    + split; [apply Htk' |]. split; [apply G |]. intros x Hx Hno. cbn [vma kpt] in *. rewrite (tk_taken _ _ _ _ Htk') in Hno.
      rewrite (proj2 Hmap); [apply Hclear; tauto |]. pose proof (window_dist (addr r) n x ltac:(lia) ltac:(lia) Hx ltac:(lia)). lia.
    + exists pgs. split_and!; try done; [lia |]. exists r'. split_and!; try done. set_solver.
  - destruct (free_pages_spec rl' pgs k' (gr_inv _ _ _ _ _ G) Hnd Hown) as (k2 & -> & Hinv2 & _ & Hf2).
    eexists _, None, rl'. split; [reflexivity |]. cbn [vma kpt]. split.
    + intros x [Hx | Hx]%Hf2; [by apply (gr_free _ _ _ _ _ G) |]. rewrite list.Forall_forall in Hall. by apply Hall.
    + split_and!; try done. right. right. by left.
Qed.

(** C38: [vmalloc] on a state whose free areas are not mapped, over the real
    mapping routine with its assertions, always returns.  An address it returns
    starts a page-aligned run of the window that nobody held and that is now held,
    the rest unchanged; page [i] of the run is mapped readable and writable to the
    [i]-th of as many distinct pages, which were free, are now in use and are no
    page tables; no other translation changes, and free areas stay unmapped, so
    that the theorem applies again.  It returns NULL only when the region cache or
    the page array cannot be had, when after at most three pages for each page of
    the area the page allocator has none left, or when every run of that size meets
    a held address; held addresses are then as before.  Whatever the outcome, no
    page is free that was not.  (What a failed call had mapped stays mapped, so
    that then free areas are mapped: see [vmalloc_failure_panics].) *)
Theorem vmalloc_correct tail slab_ok arr_ok s rl sz : tail_ok tail -> vm_ok s rl -> 0 < sz < 2 ^ 61 ->
  exists s' r rl', vmalloc root tail slab_ok arr_ok s sz = Ret (s', r) /\
    vmalloc_result slab_ok arr_ok s (round_up sz PAGE_SIZE) s' r rl'.
Proof. apply vmalloc_spec. Qed.

(** Mapped pages are whole leaves. *)
Lemma shows_leaves w a (pgs : list Z) f : forall i : nat, a mod 4096 = 0 ->
  (forall j : nat, (i <= j < length pgs)%nat -> exists pg, w (a + 4096 * Z.of_nat j) = Some (pg, f, PAGE_SIZE)) -> (i <= length pgs)%nat ->
  leaves w (a + 4096 * Z.of_nat i) (a + 4096 * Z.of_nat (length pgs)).
Proof.
  intros i Ha Hw Hi. remember (length pgs - i)%nat as d eqn:Ed. revert i Hw Hi Ed. induction d as [| d IH]; intros i Hw Hi Ed.
  { replace i with (length pgs) by lia. constructor. }
  destruct (Hw i ltac:(lia)) as [pg Hpg].
  apply (leaves_cons _ _ _ pg f PAGE_SIZE); [done | right; by right | unfold PAGE_SIZE; zdm | unfold PAGE_SIZE; lia |].
  replace (a + 4096 * Z.of_nat i + PAGE_SIZE) with (a + 4096 * Z.of_nat (S i)) by (unfold PAGE_SIZE; lia).
  apply IH; [intros j Hj; apply Hw; lia | lia | lia].
Qed.

(** [vfree] of an area that is held and mapped makes exactly its addresses
    available again (merged with its free neighbours), removes its mappings and
    no others, and gives back exactly its pages; free areas stay unmapped.  Any
    other pointer changes nothing. *)
Theorem vfree_correct tail s rl ptr : tail_ok tail -> vm_ok s rl ->
  (forall r, r ∈ vma s -> is_free r = false -> addr r = ptr -> NoDup (pages r) -> Forall (own (kpt s) rl) (pages r) ->
     leaves (walk (frames (kpt s)) root) (addr r) (addr r + size r) ->
     exists s', vfree root tail s ptr = Ret s' /\ vm_ok s' rl /\
       (forall x, taken (vma s') x <-> taken (vma s) x /\ ~ (addr r <= x < addr r + size r)) /\
       (forall x, pf_free (pool (kpt s')) x <-> pf_free (pool (kpt s)) x \/ x ∈ pages r) /\
       (forall va, walk (frames (kpt s')) root va =
          if dist (addr r) va <? size r then None else walk (frames (kpt s)) root va)) /\
  ((forall r, r ∈ vma s -> addr r = ptr -> is_free r = true) -> vfree root tail s ptr = Ret s).
Proof.
  intros Htail (Hok & Hinv & Hclear). pose proof Hok as [Ht Hm]. unfold vfree. split.
  - intros r Hr Hfree <- Hnd Hown Hlv. rewrite (find_vm_area_spec _ _ _ _ Ht Hr), Hfree.
    pose proof (tiles_mem _ _ _ _ Ht Hr) as (B1 & B2 & B3). pose proof WEND_small.
    pose proof (tiles_aligned _ _ _ r Ht eq_refl Hr) as Hal.
    apply list_elem_of_split in Hr as (l1 & l2 & El). pose proof Ht as Ht'. rewrite El in Ht'.
    pose proof (tiles_mid _ _ _ _ _ Ht') as (_ & _ & _ & Hsal & _ & _).
    destruct (free_area_spec tail l1 r l2 Htail Ht' Hfree) as [Hok' Htk']. rewrite <- El in Hok', Htk'.
    unfold unmap_kernel_pages, unmap_pages. rewrite !aligned_true, u64_small by (done || (unfold VMALLOC_START in *; lia)).
    destruct (map_undo root (kpt s) rl (addr r) (addr r + size r)) as (k1 & Ek1 & [U1 U2]); try done;
      try (unfold VMALLOC_START, VMALLOC_SIZE, VSPACE in *; lia).
    rewrite Ek1. replace (addr r + size r - addr r) with (size r) in U2 by lia. pose proof (unmap_loop_pool _ _ _ _ _ _ Ek1) as Hpool.
    destruct (free_pages_spec rl (pages r) k1 (gr_inv _ _ _ _ _ U1) Hnd) as (k2 & -> & Hinv2 & Hfr & Hf2).
    { eapply list.Forall_impl; [exact Hown |]. intros pg. by apply (own_grows root). }
    eexists. split; [reflexivity |]. cbn [vma kpt]. rewrite Hfr. split_and!; try done.
    + split_and!; try done. intros x Hx Hno. cbn [vma kpt] in *. rewrite Hfr, U2, Htk' in *.
      pose proof (window_dist (addr r) (size r) x ltac:(lia) ltac:(lia) Hx ltac:(lia)).
      destruct (Z.ltb_spec (dist (addr r) x) (size r)); [done |]. apply Hclear; [done |]. intros Hc. apply Hno. split; [done | lia].
    + intros x. by rewrite Hf2, Hpool.
  - intros Hnone. unfold find_vm_area. destruct (list_find _ (vma s)) as [[i r] |] eqn:E; [| done].
    apply list_find_Some in E as (Hi & Ha & _). simpl. rewrite Hnone; [done | | done].
    by eapply list_elem_of_lookup_2.
Qed.


(** What [vmalloc] returned, [vfree] takes back: every address is held and mapped
    as it was before. *)
Theorem vmalloc_vfree tail slab_ok arr_ok s rl sz s1 a : tail_ok tail -> vm_ok s rl -> 0 < sz < 2 ^ 61 ->
  vmalloc root tail slab_ok arr_ok s sz = Ret (s1, Some a) ->
  exists s2 rl2, vfree root tail s1 a = Ret s2 /\ vm_ok s2 rl2 /\ (forall x, taken (vma s2) x <-> taken (vma s) x) /\
    forall va, walk (frames (kpt s2)) root va = walk (frames (kpt s)) root va.
Proof.
  intros Htail Hok Hsz E. destruct (vmalloc_spec tail slab_ok arr_ok s rl sz Htail Hok Hsz) as (s1' & r & rl1 & E1 & _ & Hr).
  rewrite E in E1. injection E1 as <- <-. destruct Hr as (Hok1 & Htk & pgs & Hlen & Hnd & Hall & Hmap & area & Har & <- & Hfree & Hsize & Hpgs).
  pose proof (tk_window _ _ _ _ Htk) as (W1 & W2 & W3). set (n := round_up sz PAGE_SIZE) in *. clearbody n.
  destruct (vfree_correct tail s1 rl1 (addr area) Htail Hok1) as [Hv _].
  destruct (Hv area Har Hfree eq_refl) as (s2 & E2 & Hok2 & Htk2 & _ & Hw2).
  - by rewrite Hpgs.
  - rewrite Hpgs. eapply list.Forall_impl; [exact Hall |]. by intros pg [_ ?].
  - rewrite Hsize, <- Hlen. replace (addr area) with (addr area + 4096 * Z.of_nat 0) at 1 by lia.
    apply (shows_leaves _ _ pgs (Z.lor PTE_V PROT)); [done | | lia]. intros j [_ Hj].
    destruct (lookup_lt_is_Some_2 _ _ Hj) as [pg Hpg]. pose proof (proj1 Hmap j pg 0 Hpg ltac:(lia)) as Ht. rewrite Z.add_0_r in Ht. eauto.
  - exists s2, rl1. split_and!; try done.
    + intros x. rewrite Htk2, (tk_taken _ _ _ _ Htk), Hsize. pose proof (tk_new _ _ _ _ Htk x). tauto.
    + intros va. rewrite Hw2, Hsize. destruct (Z.ltb_spec (dist (addr area) va) n).
      * symmetry. destruct Hok as (_ & _ & Hc). apply (clear_run s (addr area) n); try done; [lia | apply (tk_new _ _ _ _ Htk)].
      * apply Hmap. lia.
Qed.


(** [ioremap] of a physical range: on success exactly the new run of the window
    is mapped to it, with the given flags; when it fails, held addresses are as
    they were.  [room] is asked for every run that nobody holds. *)
Theorem ioremap_correct tail slab_ok s rl paddr sz f : let n := round_up sz PAGE_SIZE in
  tail_ok tail -> vm_ok s rl -> 0 < sz < 2 ^ 38 -> 0 <= paddr -> paddr mod 4096 = 0 -> paddr + n <= 2 ^ 56 -> flags_ok f ->
  (forall a, (forall x, a <= x < a + n -> ~ taken (vma s) x) -> room (frames (kpt s)) root a n) ->
  exists s' r rl', ioremap root tail slab_ok s paddr sz f = Ret (s', r) /\ pt_inv (kpt s') root rl' /\ vma_ok (vma s') /\
    match r with
    | Some a => takes (vma s) (vma s') a n /\ mapped root (kpt s) rl (kpt s') rl' a paddr f n
    | None => forall x, taken (vma s') x <-> taken (vma s) x
    end.
Proof.
  intros n Htail (Hok & Hinv & Hclear) Hsz Hp0 Hpal Hpb Hf Hroom. unfold ioremap, vmalloc_nomap. fold n.
  pose proof (round_up_page sz ltac:(lia)) as [H1 H2]. fold n in H1, H2.
  assert (En : round_up n PAGE_SIZE = n) by (apply round_up_twice; lia). clearbody n. rewrite En.
  pose proof (find_free_takes slab_ok (vma s) n Hok ltac:(lia) H1) as Hfind. pose proof (find_free_held slab_ok (vma s) n) as Hh.
  destruct (find_free_vm_area slab_ok (vma s) n) as [[l r] |]; [| by exists s, None, rl].
  destruct Hfind as [Htk Hsize]. destruct (Hh l r Hok ltac:(lia) H1 eq_refl) as (l1 & l2 & -> & Hr). cbn [kpt vma].
  pose proof (tk_window _ _ _ _ Htk) as (W1 & W2 & W3). pose proof WEND_small. unfold map_kernel_pages. rewrite En.
  destruct (map_pages_spec (kpt s) root rl (addr r) paddr n f Hinv) as (k & err & rl' & m & -> & Hmap & Hm & Hres).
  { split; [| unfold VSPACE; lia | done | done]. unfold VMALLOC_START in *. lia. }
  { apply Hroom. apply (tk_new _ _ _ _ Htk). }
  destruct Hres as [[-> ->] | [-> Hlt]]; cbn [Z.eqb negb Z.opp ENOMEM].
  - eexists _, _, rl'. split; [reflexivity |]. cbn [kpt vma]. split_and!; [apply Hmap | apply Htk | done | done].
  - pose proof (takes_undo tail _ _ _ _ _ Htail Htk Hsize Hr) as [Hback1 Hback2]. unfold vfree_nomap. cbn [vma kpt].
    rewrite (find_vm_area_spec _ _ _ r (proj1 (tk_ok _ _ _ _ Htk))) by set_solver. rewrite Hr.
    eexists _, None, rl'. split; [reflexivity |]. cbn [kpt vma]. split_and!; [apply Hmap | done | done].
Qed.

End Properties.

(** ** Examples

    A kernel directory at 0x1000 with nothing mapped, and free frames. *)

Definition demo_tail : vmalloc_region := mk_area 0 0 [] false.

Lemma demo_tail_ok : tail_ok demo_tail.
Proof. by intros [? _]. Qed.

Lemma vmalloc_init_ok : vma_ok vmalloc_init.
Proof. split; [| done]. simpl. split_and!; done. Qed.

Definition demo_vm : vm_state (list Z) := mk_vm vmalloc_init (demo_pt [0x2000; 0x3000]).

Lemma demo_vm_ok : vm_ok 0x1000 demo_vm demo_roles.
Proof.
  split; [exact vmalloc_init_ok |]. split; [by apply demo_inv; apply demo_two |]. intros x _ _. cbn [demo_vm kpt].
  unfold walk. rewrite demo_entry by apply index_bounds. done.
Qed.

Lemma vmalloc_witness :
  exists s' r rl', vmalloc 0x1000 demo_tail true true demo_vm 5000 = Ret (s', r) /\
    vmalloc_result 0x1000 true true demo_vm (round_up 5000 PAGE_SIZE) s' r rl'.
Proof. exact (vmalloc_correct 0x1000 demo_tail true true demo_vm demo_roles 5000 demo_tail_ok demo_vm_ok ltac:(lia)). Defined.

(** Three frames and a fourth for the directory. *)
Definition full_vm (free : list Z) : vm_state (list Z) :=
  mk_vm vmalloc_init (mk_pt {[0x1000 := zero_page; 0x2000 := zero_page; 0x3000 := zero_page; 0x4000 := zero_page]} free).

Definition vm_of (d : vm_state (list Z)) (r : res (vm_state (list Z) * option Z)) : vm_state (list Z) :=
  match r with Ret (s, _) => s | Halt _ => d end.

(** When page memory runs out after the first page of an area, [vmalloc] frees the
    page it had mapped but leaves the mapping in place: an address that nobody
    holds leads to a free page, and the next call for a page of that address stops
    the kernel at the assertion of the mapping routine, though there is memory. *)
Theorem vmalloc_failure_panics : let s := full_vm [0x2000; 0x3000; 0x4000] in
  exists s', vmalloc 0x1000 demo_tail true true s 8192 = Ret (s', None) /\ vma s' = vma s /\ 0x2000 ∈ pool (kpt s') /\
    translate (frames (kpt s')) 0x1000 VMALLOC_START = Some (0x2000, 7) /\
    vmalloc 0x1000 demo_tail true true s' 4096 = Halt Panic.
Proof.
  cbv zeta. exists (vm_of demo_vm (vmalloc 0x1000 demo_tail true true (full_vm [0x2000; 0x3000; 0x4000]) 8192)).
  split_and!; try (vm_compute; reflexivity). vm_compute. left.
Qed.
