(* ===== verification/Uvm.v ===== *)
(** * User address spaces: mm/mmap.c and the first half of mm/mm.c

    A space is a list of regions and a page table.  The table is the map from
    page addresses to the page and the flags of the leaf there, which is what
    [PageTable] shows map and unmap to update; [PTE_V] is presence in the map.
    The page allocator is the list of its free pages with the count of each
    page; which page comes first, and whether kernel memory or a table frame
    is to be had ([answers]), is up to the state, so theorems hold for every
    choice.  The contents of a page are a function of the offset.

    A region's [slots] are its [pages] or its [cached] pages, whichever its kind
    uses; [nr_pages] is their number. *)

From S2P Require Import Prelude Refcnt.

Definition ENOENT : Z := 2.
Definition EIO : Z := 5.
Definition ENOMEM : Z := 12.
Definition EACCES : Z := 13.
Definition EFAULT : Z := 14.
Definition EINVAL : Z := 22.
Definition EOPNOTSUPP : Z := 95.

Definition PAGE_SIZE : Z := 4096.
Definition PAGE_SHIFT : Z := 12.
Definition USTACK_SIZE : Z := PAGE_SIZE * 256.
Definition USER_SPACE_SIZE_MAX : Z := 2 ^ 38 - PAGE_SIZE.

Definition PTE_R : Z := 2.
Definition PTE_W : Z := 4.
Definition PTE_X : Z := 8.
Definition PTE_U : Z := 16.
Definition PTE_COW : Z := 256.

Definition PROT_READ : Z := 1.
Definition PROT_WRITE : Z := 2.
Definition PROT_EXEC : Z := 4.
Definition MAP_SHARED : Z := 1.
Definition MAP_PRIVATE : Z := 2.
Definition MAP_FIXED : Z := 0x10.
Definition MAP_ANONYMOUS : Z := 0x20.
Definition MCL_CURRENT : Z := 1.
Definition MCL_FUTURE : Z := 2.

(** ** Data *)

Inductive region_kind : Set := UVM_REGION_ANON | UVM_REGION_SHARED_FILE.

#[global] Instance region_kind_eq : EqDecision region_kind.
Proof. solve_decision. Defined.

Record uvm_region : Set := mk_region {
  addr : Z; size : Z; slots : list (option Z); flags : Z; kind : region_kind;
  inode : Z; file : Z; file_offset : Z
}.

Definition nr_pages (r : uvm_region) : Z := Z.of_nat (length (slots r)).

(** [kzalloc]ed. *)
Definition uvm_region_new : uvm_region := mk_region 0 0 [] 0 UVM_REGION_ANON 0 0 0.

Definition set_slots (r : uvm_region) (l : list (option Z)) : uvm_region :=
  mk_region (addr r) (size r) l (flags r) (kind r) (inode r) (file r) (file_offset r).
Definition set_flags (r : uvm_region) (f : Z) : uvm_region :=
  mk_region (addr r) (size r) (slots r) f (kind r) (inode r) (file r) (file_offset r).

Record uvm_space : Type := mk_space {
  pt : gmap Z (Z * Z); seg : list uvm_region; stack : uvm_region; heap : uvm_region;
  brk : Z; mmap_top : Z
}.

Definition set_pt (s : uvm_space) (t : gmap Z (Z * Z)) : uvm_space := mk_space t (seg s) (stack s) (heap s) (brk s) (mmap_top s).
Definition set_seg (s : uvm_space) (l : list uvm_region) : uvm_space := mk_space (pt s) l (stack s) (heap s) (brk s) (mmap_top s).
Definition set_heap (s : uvm_space) (h : uvm_region) : uvm_space := mk_space (pt s) (seg s) (stack s) h (brk s) (mmap_top s).
Definition set_top (s : uvm_space) (t : Z) : uvm_space := mk_space (pt s) (seg s) (stack s) (heap s) (brk s) t.

(** The rest of the kernel: free pages, the count and the contents of each page,
    the fortune of coming allocations, and the counts of page-cache pages,
    inodes and files with the cached pages marked dirty. *)
Record kstate : Type := mk_k {
  pool : list Z; prefs : Z -> Z; content : Z -> Z -> Z; answers : list bool;
  crefs : Z -> Z; dirty : Z -> bool; irefs : Z -> Z; frefs : Z -> Z
}.

Definition set_pages (k : kstate) (l : list Z) (f : Z -> Z) (c : Z -> Z -> Z) : kstate :=
  mk_k l f c (answers k) (crefs k) (dirty k) (irefs k) (frefs k).

Definition page_alloc (k : kstate) : kstate * option Z :=
  match pool k with
  | [] => (k, None)
  | p :: l => (set_pages k l (<[p := refcnt_init 1]> (prefs k)) (content k), Some p)
  end.

Definition page_get (k : kstate) (p : Z) : kstate := set_pages k (pool k) (<[p := refcnt_inc (prefs k p)]> (prefs k)) (content k).

Definition page_put (k : kstate) (p : Z) : kstate :=
  let (c, new_val) := refcnt_dec_fetch (prefs k p) in
  if 0 <? new_val then set_pages k (pool k) (<[p := c]> (prefs k)) (content k)
  else set_pages k (p :: pool k) (<[p := c]> (prefs k)) (content k).

Definition write_page (k : kstate) (p : Z) (c : Z -> Z) : kstate := set_pages k (pool k) (prefs k) (<[p := c]> (content k)).

(** [kzalloc], [kcalloc] or a frame for a table. *)
Definition kalloc (k : kstate) : kstate * bool :=
  match answers k with
  | [] => (k, false)
  | b :: l => (mk_k (pool k) (prefs k) (content k) l (crefs k) (dirty k) (irefs k) (frefs k), b)
  end.

Definition set_cached (k : kstate) (f : Z -> Z) (d : Z -> bool) : kstate :=
  mk_k (pool k) (prefs k) (content k) (answers k) f d (irefs k) (frefs k).
Definition cached_page_get (k : kstate) (cp : Z) : kstate := set_cached k (<[cp := refcnt_inc (crefs k cp)]> (crefs k)) (dirty k).
Definition cached_page_put (k : kstate) (cp : Z) : kstate := set_cached k (<[cp := refcnt_dec (crefs k cp)]> (crefs k)) (dirty k).
Definition cached_page_mark_dirty (k : kstate) (cp : Z) : kstate := set_cached k (crefs k) (<[cp := true]> (dirty k)).

Definition set_files (k : kstate) (i f : Z -> Z) : kstate :=
  mk_k (pool k) (prefs k) (content k) (answers k) (crefs k) (dirty k) i f.
Definition fs_inode_get (k : kstate) (i : Z) : kstate := set_files k (<[i := refcnt_inc (irefs k i)]> (irefs k)) (frefs k).
Definition fs_inode_put (k : kstate) (i : Z) : kstate := set_files k (<[i := refcnt_dec (irefs k i)]> (irefs k)) (frefs k).
Definition fs_file_get (k : kstate) (f : Z) : kstate := set_files k (irefs k) (<[f := refcnt_inc (frefs k f)]> (frefs k)).
Definition fs_file_put (k : kstate) (f : Z) : kstate := set_files k (irefs k) (<[f := refcnt_dec (frefs k f)]> (frefs k)).

(** ** Page-table entries *)

Definition lookup_pte (s : uvm_space) (a : Z) : option (Z * Z) := pt s !! round_down a PAGE_SIZE.
Definition uvm_page_is_mapped (s : uvm_space) (a : Z) : bool := match lookup_pte s a with Some _ => true | None => false end.
Definition pte_set_leaf (s : uvm_space) (a p f : Z) : uvm_space := set_pt s (<[round_down a PAGE_SIZE := (p, f)]> (pt s)).
Definition pte_clear (s : uvm_space) (a : Z) : uvm_space := set_pt s (delete (round_down a PAGE_SIZE) (pt s)).
Definition has (f bit : Z) : bool := negb (Z.land f bit =? 0).

(** [map_user_pages] of one page: it asserts that nothing is mapped there. *)
Definition map_user_page (k : kstate) (s : uvm_space) (a p f : Z) : res (kstate * uvm_space * Z) :=
  assert! negb (uvm_page_is_mapped s a) in
  let (k, ok) := kalloc k in
  if ok then Ret (k, pte_set_leaf s a p (Z.lor f PTE_U), 0) else Ret (k, s, - ENOMEM).

Definition unmap_user_page (s : uvm_space) (a : Z) : uvm_space := pte_clear s a.

Definition update_present_pte (s : uvm_space) (a f : Z) : uvm_space * bool :=
  match lookup_pte s a with
  | None => (s, false)
  | Some (p, old) =>
      let f := if has old PTE_COW then Z.lor (Z.land f (not64 PTE_W)) PTE_COW else f in
      if has f (Z.lor (Z.lor PTE_R PTE_W) PTE_X) then (pte_set_leaf s a p (Z.lor f PTE_U), true)
      else (pte_clear s a, true)
  end.

Definition uvm_cow_protect (s : uvm_space) (a : Z) : uvm_space * Z :=
  match lookup_pte s a with
  | None => (s, - ENOENT)
  | Some (p, f) =>
      if negb (has f PTE_COW) || has f PTE_W
      then (pte_set_leaf s a p (Z.lor (Z.land f (not64 (Z.lor PTE_W PTE_COW))) PTE_COW), 0)
      else (s, 0)
  end.

Definition uvm_pte_is_cow (s : uvm_space) (a : Z) : bool :=
  match lookup_pte s a with Some (_, f) => has f PTE_COW | None => false end.

Definition uvm_pte_flags (s : uvm_space) (a : Z) : option Z :=
  match lookup_pte s a with Some (_, f) => Some (Z.land f (Z.lor (Z.lor PTE_R PTE_W) PTE_X)) | None => None end.

(** ** Regions *)

Definition uvm_region_alloc (k : kstate) : kstate * bool := kalloc k.

(** [for (i = 0; i < nr; i++)] with [idx = start + i]. *)
Fixpoint free_range_loop (k : kstate) (r : uvm_region) (idx : Z) (n : nat) : res (kstate * uvm_region) :=
  match n with
  | O => Ret (k, r)
  | S n' =>
      let! sl := rd (slots r) idx in
      match sl with
      | None => free_range_loop k r (idx + 1) n'
      | Some p =>
          let k := match kind r with
                   | UVM_REGION_SHARED_FILE => cached_page_put (cached_page_mark_dirty k p) p
                   | UVM_REGION_ANON => page_put k p
                   end in
          let! l := wr (slots r) idx None in
          free_range_loop k (set_slots r l) (idx + 1) n'
      end
  end.

Definition uvm_region_free_range (k : kstate) (r : uvm_region) (start nr : Z) : res (kstate * uvm_region) :=
  if nr_pages r <=? start then Ret (k, r)
  else
    let nr := if nr_pages r - start <? nr then nr_pages r - start else nr in
    free_range_loop k r start (Z.to_nat nr).

Definition uvm_region_release (k : kstate) (r : uvm_region) : res kstate :=
  let! res := uvm_region_free_range k r 0 (nr_pages r) in
  let (k, r) := res in
  match kind r with
  | UVM_REGION_ANON => Ret k
  | UVM_REGION_SHARED_FILE =>
      let k := if inode r =? 0 then k else fs_inode_put k (inode r) in
      Ret (if file r =? 0 then k else fs_file_put k (file r))
  end.

Fixpoint unmap_range_loop (s : uvm_space) (r : uvm_region) (idx : Z) (n : nat) : uvm_space :=
  match n with
  | O => s
  | S n' =>
      let a := u64 (addr r + u64 (idx * PAGE_SIZE)) in
      unmap_range_loop (if uvm_page_is_mapped s a then unmap_user_page s a else s) r (idx + 1) n'
  end.

Definition uvm_region_unmap_range (s : uvm_space) (r : uvm_region) (start nr : Z) : uvm_space :=
  if nr_pages r <=? start then s
  else
    let nr := if nr_pages r - start <? nr then nr_pages r - start else nr in
    unmap_range_loop s r start (Z.to_nat nr).

(** ** Choosing an address *)

Definition ranges_overlap (a alen b blen : Z) : bool :=
  if (alen =? 0) || (blen =? 0) then false
  else if (UINT64_MAX - alen <? a) || (UINT64_MAX - blen <? b) then true
  else (a <? u64 (b + blen)) && (b <? u64 (a + alen)).

Definition region_overlaps (a sz : Z) (r : uvm_region) : bool := ranges_overlap a sz (addr r) (size r).

(** [list_for_each_entry]. *)
Fixpoint first_overlap (a sz : Z) (l : list uvm_region) : option uvm_region :=
  match l with [] => None | r :: l' => if region_overlaps a sz r then Some r else first_overlap a sz l' end.

Definition find_conflict (s : uvm_space) (a sz : Z) : option uvm_region :=
  match first_overlap a sz (seg s) with
  | Some r => Some r
  | None =>
      if negb (size (stack s) =? 0) && region_overlaps a sz (stack s) then Some (stack s)
      else if negb (size (heap s) =? 0) && region_overlaps a sz (heap s) then Some (heap s)
      else None
  end.

Definition uvm_range_conflicts (s : uvm_space) (a sz : Z) : bool :=
  match first_overlap a sz (seg s) with
  | Some _ => true
  | None => (negb (size (stack s) =? 0) && region_overlaps a sz (stack s)) || (negb (size (heap s) =? 0) && region_overlaps a sz (heap s))
  end.

Definition initial_mmap_top (s : uvm_space) : Z :=
  if negb (mmap_top s =? 0) then mmap_top s
  else if negb (size (stack s) =? 0) then addr (stack s)
  else USER_SPACE_SIZE_MAX - USTACK_SIZE - 33 * PAGE_SIZE.

(** [for (;;)]: the address, or the error. *)
Fixpoint choose_loop (s : uvm_space) (sz top : Z) (fuel : nat) : res (Z + Z) :=
  let heap_start := addr (heap s) in
  if (top <=? sz) || (top - sz <? heap_start) then Ret (inr (- ENOMEM))
  else
    let candidate := top - sz in
    if candidate <? heap_start then Ret (inr (- ENOMEM))
    else
      match find_conflict s candidate sz with
      | None => Ret (inl candidate)
      | Some conflict =>
          if (addr conflict <=? candidate) || (top <? addr conflict) then Ret (inr (- ENOMEM))
          else match fuel with O => Halt Fuel | S fuel' => choose_loop s sz (addr conflict) fuel' end
      end.

(** The number of regions, the heap and the stack bound the turns. *)
Definition choose_addr (s : uvm_space) (hint sz fl : Z) : res (uvm_space * (Z + Z)) :=
  if has fl MAP_FIXED then
    if (hint =? 0) || negb (Z.land hint (PAGE_SIZE - 1) =? 0) then Ret (s, inr (- EINVAL))
    else if (USER_SPACE_SIZE_MAX <? hint) || (USER_SPACE_SIZE_MAX - hint <? sz) then Ret (s, inr (- EINVAL))
    else if hint <? addr (heap s) then Ret (s, inr (- ENOMEM))
    else
      match find_conflict s hint sz with
      | Some _ => Ret (s, inr (- ENOMEM))
      | None =>
          let s := if (mmap_top s =? 0) || (hint <? mmap_top s) then set_top s hint else s in
          Ret (s, inl hint)
      end
  else
    let! r := choose_loop s sz (initial_mmap_top s) (length (seg s) + 2) in
    match r with
    | inl candidate => Ret (set_top s candidate, inl candidate)
    | inr e => Ret (s, inr e)
    end.

(** ** Mapping *)

Definition prot_to_pte (prot : Z) : Z :=
  let f := 0 in
  let f := if has prot PROT_READ then Z.lor f PTE_R else f in
  let f := if has prot PROT_WRITE then Z.lor f (Z.lor PTE_R PTE_W) else f in
  if has prot PROT_EXEC then Z.lor f PTE_X else f.

Definition map_anon_lazy (k : kstate) (s : uvm_space) (a sz prot : Z) : kstate * uvm_space * Z :=
  let (k, ok) := uvm_region_alloc k in
  if negb ok then (k, s, - ENOMEM)
  else
    let (k, ok) := kalloc k in
    if negb ok then (k, s, - ENOMEM)
    else
      let vma := mk_region a sz (replicate (Z.to_nat (sz / PAGE_SIZE)) None) (prot_to_pte prot) UVM_REGION_ANON 0 0 0 in
      (k, set_seg s (seg s ++ [vma]), 0).

(** [(size + PAGE_SIZE - 1) & ~(PAGE_SIZE - 1)]. *)
Definition page_round (len : Z) : Z := Z.land (u64 (len + PAGE_SIZE - 1)) (not64 (PAGE_SIZE - 1)).

(** The new states, the result and the value for [*addr_out] when it is 0. *)
Definition uvm_mmap_anon (k : kstate) (s : uvm_space) (hint len prot fl offset : Z) : res (kstate * uvm_space * Z * Z) :=
  if len =? 0 then Ret (k, s, - EINVAL, 0)
  else if negb (offset =? 0) then Ret (k, s, - EINVAL, 0)
  else if has fl MAP_SHARED then Ret (k, s, - EOPNOTSUPP, 0)
  else if negb (Z.land fl (Z.lnot (Z.lor (Z.lor MAP_PRIVATE MAP_ANONYMOUS) MAP_FIXED)) =? 0) then Ret (k, s, - EINVAL, 0)
  else if negb (has fl MAP_ANONYMOUS) || negb (has fl MAP_PRIVATE) then Ret (k, s, - EOPNOTSUPP, 0)
  else if negb (Z.land prot (Z.lnot (Z.lor (Z.lor PROT_READ PROT_WRITE) PROT_EXEC)) =? 0) then Ret (k, s, - EINVAL, 0)
  else if USER_SPACE_SIZE_MAX <? len then Ret (k, s, - ENOMEM, 0)
  else
    let sz := page_round len in
    if (sz =? 0) || (USER_SPACE_SIZE_MAX <? sz) then Ret (k, s, - ENOMEM, 0)
    else
      let! r := choose_addr s hint sz fl in
      let (s, c) := r in
      match c with
      | inr e => Ret (k, s, e, 0)
      | inl a =>
          let '(k, s, err) := map_anon_lazy k s a sz prot in
          if negb (err =? 0) then Ret (k, s, err, 0) else Ret (k, s, 0, a)
      end.

(** ** Faults *)

Definition contains (r : uvm_region) (a : Z) : bool := (addr r <=? a) && (u64 (a - addr r) <? size r).

Fixpoint first_containing (a : Z) (l : list uvm_region) (i : nat) : option nat :=
  match l with [] => None | r :: l' => if contains r a then Some i else first_containing a l' (S i) end.

(** Regions are numbered: those of [seg], then the heap, then the stack. *)
Definition find_region_containing (s : uvm_space) (a : Z) : option nat :=
  match first_containing a (seg s) 0 with
  | Some i => Some i
  | None =>
      if negb (size (heap s) =? 0) && contains (heap s) a then Some (length (seg s))
      else if negb (size (stack s) =? 0) && contains (stack s) a then Some (S (length (seg s)))
      else None
  end.

Definition region_at (s : uvm_space) (i : nat) : uvm_region :=
  match seg s !! i with Some r => r | None => if (i =? length (seg s))%nat then heap s else stack s end.

Definition set_region (s : uvm_space) (i : nat) (r : uvm_region) : uvm_space :=
  if (i <? length (seg s))%nat then set_seg s (<[i := r]> (seg s))
  else if (i =? length (seg s))%nat then set_heap s r
  else mk_space (pt s) (seg s) r (heap s) (brk s) (mmap_top s).

Definition RWX : Z := Z.lor (Z.lor PTE_R PTE_W) PTE_X.

Section cached.
(** [cp->page] of a page of the page cache. *)
Context (cp_page : Z -> Z).

Definition uvm_handle_fault (k : kstate) (s : uvm_space) (a : Z) (write instr : bool) : res (kstate * uvm_space * Z) :=
  let page := Z.land a (not64 (PAGE_SIZE - 1)) in
  if USER_SPACE_SIZE_MAX <? a then Ret (k, s, - EFAULT)
  else
    match find_region_containing s page with
    | None => Ret (k, s, - EFAULT)
    | Some i =>
        let r := region_at s i in
        let idx := Z.shiftr (u64 (page - addr r)) PAGE_SHIFT in
        if nr_pages r <=? idx then Ret (k, s, - EFAULT)
        else
          let need := if instr then PTE_X else if write then PTE_W else PTE_R in
          if negb (Z.land (flags r) need =? need) then Ret (k, s, - EACCES)
          else
            let! sl := rd (slots r) idx in
            if write && bool_decide (kind r = UVM_REGION_ANON) && uvm_pte_is_cow s page then
              match sl with
              | None => Ret (k, s, - EFAULT)
              | Some old =>
                  let (k, pg) := page_alloc k in
                  match pg with
                  | None => Ret (k, s, - ENOMEM)
                  | Some pg =>
                      let k := write_page k pg (content k old) in
                      let! l := wr (slots r) idx (Some pg) in
                      let k := page_put k old in
                      let s := set_region s i (set_slots r l) in
                      Ret (k, pte_set_leaf s page pg (Z.lor (Z.land (flags r) RWX) PTE_U), 0)
                  end
              end
            else
              let fin (k : kstate) (s : uvm_space) (p : Z) : res (kstate * uvm_space * Z) :=
                let f := Z.land (flags r) RWX in
                let (s, done) := update_present_pte s page f in
                if done then Ret (k, s, 0) else map_user_page k s page p f in
              match kind r, sl with
              | UVM_REGION_SHARED_FILE, None => Ret (k, s, - EFAULT)
              | UVM_REGION_SHARED_FILE, Some cp => fin k s (cp_page cp)
              | UVM_REGION_ANON, Some p => fin k s p
              | UVM_REGION_ANON, None =>
                  let (k, pg) := page_alloc k in
                  match pg with
                  | None => Ret (k, s, - ENOMEM)
                  | Some pg =>
                      let k := write_page k pg (fun _ => 0) in
                      let! l := wr (slots r) idx (Some pg) in
                      fin k (set_region s i (set_slots r l)) pg
                  end
              end
    end.

(** ** Changing protections *)

Definition cow_replace_page (k : kstate) (s : uvm_space) (r : uvm_region) (idx a : Z) : res (kstate * uvm_space * uvm_region * Z) :=
  match lookup_pte s a with
  | None => Ret (k, s, r, 0)
  | Some (_, f) =>
      if negb (has f PTE_COW) then Ret (k, s, r, 0)
      else if bool_decide (kind r <> UVM_REGION_ANON) then Ret (k, s, r, - EFAULT)
      else
        let! sl := rd (slots r) idx in
        match sl with
        | None => Ret (k, s, r, - EFAULT)
        | Some old =>
            let (k, pg) := page_alloc k in
            match pg with
            | None => Ret (k, s, r, - ENOMEM)
            | Some pg =>
                let k := write_page k pg (content k old) in
                let! l := wr (slots r) idx (Some pg) in
                let k := page_put k old in
                Ret (k, pte_set_leaf s a pg (Z.land f (Z.lor (Z.lor PTE_R PTE_X) PTE_U)), set_slots r l, 0)
            end
        end
  end.

(** The two halves, or the error. *)
Definition split_region_at (k : kstate) (r : uvm_region) (at_ : Z) : kstate * ((uvm_region * uvm_region) + Z) :=
  if (at_ <=? addr r) || (u64 (addr r + size r) <=? at_) then (k, inr (- EINVAL))
  else
    let off := Z.shiftr (at_ - addr r) PAGE_SHIFT in
    let (k, ok) := uvm_region_alloc k in
    if negb ok then (k, inr (- ENOMEM))
    else
      let shared := bool_decide (kind r = UVM_REGION_SHARED_FILE) in
      let k := if shared then fs_file_get (fs_inode_get k (inode r)) (file r) else k in
      let (k, ok) := kalloc k in
      if negb ok then
        let k := if shared then
                   let k := fs_inode_put k (inode r) in if file r =? 0 then k else fs_file_put k (file r)
                 else k in
        (k, inr (- ENOMEM))
      else
        let rhalf := mk_region at_ (u64 (addr r + size r) - at_) (drop (Z.to_nat off) (slots r)) (flags r) (kind r)
                       (if shared then inode r else 0) (if shared then file r else 0) (file_offset r + (at_ - addr r)) in
        let lhalf := mk_region (addr r) (at_ - addr r) (take (Z.to_nat off) (slots r)) (flags r) (kind r) (inode r) (file r) (file_offset r) in
        (k, inl (lhalf, rhalf)).

(** [for (a = rstart; a < rend; a += PAGE_SIZE)] over [n] pages. *)
Fixpoint protect_loop (k : kstate) (s : uvm_space) (r : uvm_region) (f a idx : Z) (n : nat) : res (kstate * uvm_space * uvm_region * Z) :=
  match n with
  | O => Ret (k, s, r, 0)
  | S n' =>
      let! c := (if f =? 0 then cow_replace_page k s r idx a else Ret (k, s, r, 0)) in
      let '(k, s, r, err) := c in
      if negb (err =? 0) then Ret (k, s, r, err)
      else protect_loop k (update_present_pte s a f).1 r f (a + PAGE_SIZE) (idx + 1) n'
  end.

(** One region: what takes its place, and the error or 0. *)
Definition mprotect_one (k : kstate) (s : uvm_space) (r : uvm_region) (a e f : Z) : res (kstate * uvm_space * list uvm_region * Z) :=
  let rstart := addr r in
  let rend := u64 (rstart + size r) in
  if (rend <=? a) || (e <=? rstart) then Ret (k, s, [r], 0)
  else
    let (k, h1) := (if rstart <? a then
                      match split_region_at k r a with
                      | (k, inl (lhalf, rhalf)) => (k, inl ([lhalf], rhalf))
                      | (k, inr err) => (k, inr err)
                      end
                    else (k, inl ([], r))) in
    match h1 with
    | inr err => Ret (k, s, [r], err)
    | inl (before, r) =>
        let rstart := addr r in
        let rend := u64 (rstart + size r) in
        let (k, h2) := (if e <? rend then
                          match split_region_at k r e with
                          | (k, inl (lhalf, rhalf)) => (k, inl (lhalf, [rhalf], e))
                          | (k, inr err) => (k, inr err)
                          end
                        else (k, inl (r, [], rend))) in
        match h2 with
        | inr err => Ret (k, s, before ++ [r], err)
        | inl (r, after, rend) =>
            let! p := protect_loop k s (set_flags r f) f rstart 0 (Z.to_nat ((rend - rstart) / PAGE_SIZE)) in
            let '(k, s, r, err) := p in
            Ret (k, s, before ++ [r] ++ after, err)
        end
    end.

Fixpoint mprotect_loop (k : kstate) (s : uvm_space) (l : list uvm_region) (a e f : Z) : res (kstate * uvm_space * list uvm_region * Z) :=
  match l with
  | [] => Ret (k, s, [], 0)
  | r :: l' =>
      let! one := mprotect_one k s r a e f in
      let '(k, s, new, err) := one in
      if negb (err =? 0) then Ret (k, s, new ++ l', err)
      else
        let! rest := mprotect_loop k s l' a e f in
        let '(k, s, l', err) := rest in
        Ret (k, s, new ++ l', err)
  end.

Definition uvm_mprotect (k : kstate) (s : uvm_space) (a len prot : Z) : res (kstate * uvm_space * Z) :=
  if len =? 0 then Ret (k, s, - EINVAL)
  else if negb (Z.land a (PAGE_SIZE - 1) =? 0) then Ret (k, s, - EINVAL)
  else if negb (Z.land prot (Z.lnot (Z.lor (Z.lor PROT_READ PROT_WRITE) PROT_EXEC)) =? 0) then Ret (k, s, - EINVAL)
  else
    let sz := page_round len in
    if (USER_SPACE_SIZE_MAX <? a) || (USER_SPACE_SIZE_MAX - a <? sz) then Ret (k, s, - EINVAL)
    else
      let! r := mprotect_loop k s (seg s) a (a + sz) (Z.land (prot_to_pte prot) RWX) in
      let '(k, s, l, err) := r in
      Ret (k, set_seg s l, err).

End cached.

(** ** New spaces *)

(** What [uvm_space_create] sets up: an empty table, no mappings, and a stack and
    a heap of size 0. *)
Definition uvm_space_new : uvm_space := mk_space ∅ [] uvm_region_new uvm_region_new 0 0.

(** [slab_alloc], [create_user_pgtable] and two [uvm_region_alloc], each of which
    gives back what came before it when it fails. *)
Definition uvm_space_create (k : kstate) : kstate * (uvm_space + Z) :=
  let (k, ok) := kalloc k in
  if negb ok then (k, inr (- ENOMEM))
  else
    let (k, ok) := kalloc k in
    if negb ok then (k, inr (- ENOMEM))
    else
      let (k, ok) := uvm_region_alloc k in
      if negb ok then (k, inr (- ENOMEM))
      else
        let (k, ok) := uvm_region_alloc k in
        if negb ok then (k, inr (- ENOMEM)) else (k, inl uvm_space_new).

(** ** Geometry *)

Definition all_regions (s : uvm_space) : list uvm_region := seg s ++ [stack s; heap s].

Definition owns (r : uvm_region) (a : Z) : Prop := addr r <= a < addr r + size r.

(** Where a region may lie. *)
Record placed (r : uvm_region) : Prop := {
  pl_low : 0 <= addr r;
  pl_size : 0 <= size r;
  pl_high : addr r + size r <= USER_SPACE_SIZE_MAX;
  pl_align : addr r mod PAGE_SIZE = 0;
  pl_pages : size r mod PAGE_SIZE = 0
}.

(** The range meets the region. *)
Definition meets (a sz : Z) (r : uvm_region) : Prop := a < addr r + size r /\ addr r < a + sz /\ 0 < size r.

Lemma overlap_spec a sz r : 0 <= a -> 0 < sz -> a + sz < 2 ^ 63 -> placed r -> region_overlaps a sz r = true <-> meets a sz r.
Proof.
  intros Ha Hs Hb [H0 H1 H2 _ _]. unfold USER_SPACE_SIZE_MAX, PAGE_SIZE in H2. unfold region_overlaps, ranges_overlap, meets, UINT64_MAX.
  destruct (Z.eqb_spec sz 0); [lia |]. cbn [orb]. destruct (Z.eqb_spec (size r) 0); [split; [done | lia] |].
  destruct (Z.ltb_spec (2 ^ 64 - 1 - sz) a); [lia |]. destruct (Z.ltb_spec (2 ^ 64 - 1 - size r) (addr r)); [lia |]. cbn [orb].
  rewrite !u64_small by lia. rewrite andb_true_iff, !Z.ltb_lt. lia.
Qed.

Lemma first_overlap_spec a sz l :
  match first_overlap a sz l with
  | Some r => r ∈ l /\ region_overlaps a sz r = true
  | None => Forall (fun r => region_overlaps a sz r = false) l
  end.
Proof.
  induction l as [| r l IH]; cbn [first_overlap]; [constructor |].
  destruct (region_overlaps a sz r) eqn:E; [split; [left | done] |].
  destruct (first_overlap a sz l); [destruct IH; split; [by right | done] | by constructor].
Qed.

Lemma find_conflict_spec s a sz : 0 <= a -> 0 < sz -> a + sz < 2 ^ 63 -> Forall placed (all_regions s) ->
  match find_conflict s a sz with
  | Some r => r ∈ all_regions s /\ meets a sz r
  | None => forall r, r ∈ all_regions s -> ~ meets a sz r
  end.
Proof.
  intros Ha Hs Hb Hpl. rewrite list.Forall_forall in Hpl. unfold find_conflict. pose proof (first_overlap_spec a sz (seg s)) as Hseg.
  assert (Hst : stack s ∈ all_regions s) by (apply elem_of_app; right; left).
  assert (Hhp : heap s ∈ all_regions s) by (apply elem_of_app; right; right; left).
  assert (Hov : forall r, r ∈ all_regions s -> region_overlaps a sz r = true <-> meets a sz r) by (intros; apply overlap_spec; auto).
  destruct (first_overlap a sz (seg s)) as [r |].
  { destruct Hseg as [Hin E]. assert (r ∈ all_regions s) by (apply elem_of_app; by left). split; [done |]. by apply Hov. }
  rewrite list.Forall_forall in Hseg.
  destruct (region_overlaps a sz (stack s)) eqn:Es.
  { assert (meets a sz (stack s)) as Hm by (by apply Hov). destruct (Z.eqb_spec (size (stack s)) 0); [destruct Hm; lia |]. by cbn. }
  rewrite andb_false_r. destruct (region_overlaps a sz (heap s)) eqn:Eh.
  { assert (meets a sz (heap s)) as Hm by (by apply Hov). destruct (Z.eqb_spec (size (heap s)) 0); [destruct Hm; lia |]. by cbn. }
  rewrite andb_false_r. intros r Hr Hm. apply Hov in Hm; [| done]. apply elem_of_app in Hr as [Hr | Hr].
  - rewrite Hseg in Hm; done.
  - apply elem_of_cons in Hr as [-> | Hr]; [congruence |]. apply list_elem_of_singleton in Hr as ->. congruence.
Qed.

(** How many regions start below [top]. *)
Definition below (s : uvm_space) (top : Z) : nat := length (filter (fun r => addr r < top) (all_regions s)).

Lemma below_lt s top r : r ∈ all_regions s -> addr r < top -> (below s (addr r) < below s top)%nat.
Proof.
  unfold below. intros Hin Hlt. induction (all_regions s) as [| x l IH]; [by apply elem_of_nil in Hin |].
  assert (Hle : forall l : list uvm_region, (length (filter (fun r' => (addr r' < addr r)%Z) l) <= length (filter (fun r' => (addr r' < top)%Z) l))%nat).
  { induction l0 as [| y l0 IH0]; [done |]. rewrite !filter_cons. destruct (decide (addr y < addr r)), (decide (addr y < top)); simpl; lia. }
  rewrite !filter_cons. apply elem_of_cons in Hin as [-> | Hin].
  - rewrite decide_False by lia. rewrite decide_True by done. simpl. specialize (Hle l). lia.
  - specialize (IH Hin). destruct (decide (addr x < addr r)), (decide (addr x < top)); simpl; lia.
Qed.

Lemma choose_loop_spec s sz (fuel : nat) : forall top, Forall placed (all_regions s) -> 0 < sz -> sz mod PAGE_SIZE = 0 ->
  0 <= top < 2 ^ 62 -> top mod PAGE_SIZE = 0 -> (below s top <= fuel)%nat ->
  exists c, choose_loop s sz top fuel = Ret c /\
    match c with
    | inl c => addr (heap s) <= c /\ c + sz <= top /\ c mod PAGE_SIZE = 0 /\ forall r, r ∈ all_regions s -> ~ meets c sz r
    | inr e => e = - ENOMEM
    end.
Proof.
  induction fuel as [| fuel IH]; intros top Hpl Hs Hsa Ht Hta Hf; cbn [choose_loop];
    (destruct (Z.leb_spec top sz); [by eexists |]); (destruct (Z.ltb_spec (top - sz) (addr (heap s))); [by eexists |]); cbn [orb];
    pose proof (find_conflict_spec s (top - sz) sz ltac:(lia) ltac:(lia) ltac:(lia) Hpl) as Hc;
    (destruct (find_conflict s (top - sz) sz) as [r |];
     [| eexists; split; [done |]; split_and!; [done | lia | unfold PAGE_SIZE in *; zdm | done]]);
    destruct Hc as [Hr Hm]; pose proof (below_lt s top r Hr ltac:(destruct Hm; lia)).
  - lia.
  - destruct (Z.leb_spec (addr r) (top - sz)); [by eexists |]. destruct (Z.ltb_spec top (addr r)); [by eexists |]. cbn [orb].
    pose proof (proj1 (list.Forall_forall _ _) Hpl r Hr) as Hplr.
    destruct (IH (addr r)) as (c & -> & Hcs); [done | done | done | destruct Hm; destruct Hplr; lia | apply Hplr | lia |].
    exists c. split; [done |]. destruct c as [c |]; [| done]. destruct Hcs as (? & ? & ? & ?). split_and!; [done | destruct Hm; lia | done | done].
Qed.

Definition apart (r r' : uvm_region) : Prop := forall a, owns r a -> owns r' a -> False.

Fixpoint apart_all (l : list uvm_region) : Prop :=
  match l with [] => True | r :: l' => Forall (apart r) l' /\ apart_all l' end.

Lemma apart_sym r r' : apart r r' -> apart r' r.
Proof. intros H a H1 H2. by apply (H a). Qed.

#[global] Instance apart_all_perm : Proper ((≡ₚ) ==> iff) apart_all.
Proof.
  intros l l' H. induction H as [| x l l' H IH | x y l | l1 l2 l3 _ IH1 _ IH2]; cbn [apart_all].
  - done.
  - by rewrite IH, H.
  - rewrite !list.Forall_cons. naive_solver eauto using apart_sym.
  - by rewrite IH1.
Qed.

(** The regions of a space lie in user memory and do not overlap. *)
Record space_geo (s : uvm_space) : Prop := {
  geo_placed : Forall placed (all_regions s);
  geo_apart : apart_all (all_regions s);
  geo_top : 0 <= mmap_top s <= USER_SPACE_SIZE_MAX;
  geo_top_align : mmap_top s mod PAGE_SIZE = 0
}.

Lemma geo_set_top s t : space_geo s -> 0 <= t <= USER_SPACE_SIZE_MAX -> t mod PAGE_SIZE = 0 -> space_geo (set_top s t).
Proof. intros [H1 H2 _ _] Ht Ha. by constructor. Qed.

Lemma not_meets_apart a sz r vma : addr vma = a -> size vma = sz -> ~ meets a sz r -> apart vma r.
Proof. intros <- <- H b [H1 H2] [H3 H4]. apply H. unfold meets. lia. Qed.

Lemma geo_add s vma : space_geo s -> placed vma -> (forall r, r ∈ all_regions s -> ~ meets (addr vma) (size vma) r) ->
  space_geo (set_seg s (seg s ++ [vma])).
Proof.
  intros [Hpl Hap Ht Hta] Hv Hm.
  assert (Hperm : all_regions (set_seg s (seg s ++ [vma])) ≡ₚ vma :: all_regions s).
  { unfold all_regions. cbn [seg stack heap set_seg]. rewrite <- app_assoc. symmetry. apply Permutation_middle. }
  constructor; [rewrite Hperm; by constructor | rewrite Hperm | done | done].
  split; [| done]. apply list.Forall_forall. intros r Hr. apply (not_meets_apart (addr vma) (size vma)); auto.
Qed.

Lemma page_round_spec len : 0 < len <= USER_SPACE_SIZE_MAX ->
  len <= page_round len < len + PAGE_SIZE /\ page_round len mod PAGE_SIZE = 0.
Proof.
  intros H. unfold page_round, USER_SPACE_SIZE_MAX, PAGE_SIZE in *. rewrite u64_small by lia. change (4096 - 1) with (2 ^ 12 - 1).
  rewrite land_align_down by lia. zdm.
Qed.

Lemma initial_top s : space_geo s -> 0 <= initial_mmap_top s <= USER_SPACE_SIZE_MAX /\ initial_mmap_top s mod PAGE_SIZE = 0.
Proof.
  intros [Hpl _ Ht Hta]. unfold initial_mmap_top. destruct (Z.eqb_spec (mmap_top s) 0); cbn [negb]; [| done].
  destruct (Z.eqb_spec (size (stack s)) 0); cbn [negb]; [unfold USER_SPACE_SIZE_MAX, USTACK_SIZE, PAGE_SIZE; split; [lia | done] |].
  apply list.Forall_forall with (x := stack s) in Hpl; [| apply elem_of_app; right; left]. destruct Hpl. split; [lia | done].
Qed.

(** [choose_addr] always returns; the range it picks is aligned, above the start of
    the heap and free; below [mmap_top], unless the caller fixed it. *)
Lemma choose_addr_spec s hint sz fl : space_geo s -> 0 <= hint -> 0 < sz <= USER_SPACE_SIZE_MAX -> sz mod PAGE_SIZE = 0 ->
  exists s' c, choose_addr s hint sz fl = Ret (s', c) /\ space_geo s' /\ s' = set_top s (mmap_top s') /\
    match c with
    | inl a => addr (heap s) <= a /\ a mod PAGE_SIZE = 0 /\ a + sz <= USER_SPACE_SIZE_MAX /\
               (forall r, r ∈ all_regions s -> ~ meets a sz r) /\
               (if has fl MAP_FIXED then a = hint else mmap_top s' = a /\ a + sz <= initial_mmap_top s)
    | inr e => s' = s /\ (e = - EINVAL \/ e = - ENOMEM)
    end.
Proof.
  intros Hg Hh Hs Hsa. set (good := fun (s' : uvm_space) (c : Z + Z) => match c with
    | inl a => addr (heap s) <= a /\ a mod PAGE_SIZE = 0 /\ a + sz <= USER_SPACE_SIZE_MAX /\
               (forall r, r ∈ all_regions s -> ~ meets a sz r) /\
               (if has fl MAP_FIXED then a = hint else mmap_top s' = a /\ a + sz <= initial_mmap_top s)
    | inr e => s' = s /\ (e = - EINVAL \/ e = - ENOMEM) end).
  assert (Hno : forall e, e = - EINVAL \/ e = - ENOMEM -> exists s' c, Ret (s, inr e) = Ret (s', c) /\ space_geo s' /\ s' = set_top s (mmap_top s') /\ good s' c)
    by (intros e He; exists s, (inr e); split; [done |]; split; [done |]; split; [by destruct s | by split]).
  change (exists s' c, choose_addr s hint sz fl = Ret (s', c) /\ space_geo s' /\ s' = set_top s (mmap_top s') /\ good s' c).
  unfold choose_addr. destruct (has fl MAP_FIXED) eqn:Efix.
  - destruct (Z.eqb_spec hint 0); cbn [orb]; [by apply Hno; auto |].
    destruct (Z.eqb_spec (Z.land hint (PAGE_SIZE - 1)) 0) as [Hal |]; cbn [negb]; [| by apply Hno; auto].
    destruct (Z.ltb_spec USER_SPACE_SIZE_MAX hint); cbn [orb]; [by apply Hno; auto |].
    destruct (Z.ltb_spec (USER_SPACE_SIZE_MAX - hint) sz); [by apply Hno; auto |].
    destruct (Z.ltb_spec hint (addr (heap s))); [by apply Hno; auto |].
    change (PAGE_SIZE - 1) with (2 ^ 12 - 1) in Hal. rewrite land_ones_mod in Hal by lia.
    pose proof (find_conflict_spec s hint sz ltac:(lia) ltac:(lia) ltac:(unfold USER_SPACE_SIZE_MAX, PAGE_SIZE in *; lia) (geo_placed _ Hg)) as Hc.
    destruct (find_conflict s hint sz); [by apply Hno; auto |].
    eexists _, (inl hint). split; [done |]. split_and!; [| | unfold good; rewrite ?Efix; split_and!; (done || lia)].
    + destruct ((mmap_top s =? 0) || (hint <? mmap_top s)); [| done]. apply geo_set_top; [done | lia | done].
    + destruct ((mmap_top s =? 0) || (hint <? mmap_top s)); [done | by destruct s].
  - destruct (initial_top s Hg) as [Ht Hta]. destruct (choose_loop_spec s sz (length (seg s) + 2) (initial_mmap_top s)) as (c & -> & Hc);
      [apply Hg | lia | done | unfold USER_SPACE_SIZE_MAX, PAGE_SIZE in *; lia | done | |].
    { unfold below. etransitivity; [apply length_filter |]. unfold all_regions. rewrite length_app. simpl. lia. }
    destruct c as [a | e]; [| by apply Hno; auto].
    destruct Hc as (H1 & H2 & H3 & H4). eexists _, (inl a). split; [done |]. split_and!; [| done | unfold good; rewrite ?Efix; split_and!; (done || lia)].
    apply geo_set_top; [done | | done]. pose proof (geo_placed _ Hg) as Hpl.
    apply list.Forall_forall with (x := heap s) in Hpl; [destruct Hpl; lia | apply elem_of_app; right; right; left].
Qed.

(** The region an anonymous mapping makes. *)
Definition anon_region (a sz prot : Z) : uvm_region :=
  mk_region a sz (replicate (Z.to_nat (sz / PAGE_SIZE)) None) (prot_to_pte prot) UVM_REGION_ANON 0 0 0.

(** C27: an anonymous [mmap] always returns; on success the space has one more
    region, of the length asked for rounded up to pages, page aligned, above the
    start of the heap, disjoint from everything mapped, at the hint if that is
    fixed, with no page yet; on any error the regions are as before; the space
    stays well formed either way. *)
Theorem uvm_mmap_anon_correct k s hint len prot fl offset : space_geo s -> 0 <= hint < 2 ^ 64 -> 0 <= len < 2 ^ 64 ->
  exists k' s' e a, uvm_mmap_anon k s hint len prot fl offset = Ret (k', s', e, a) /\ space_geo s' /\ pt s' = pt s /\
    (e <> 0 -> seg s' = seg s) /\
    (e = 0 -> let sz := round_up len PAGE_SIZE in
       seg s' = seg s ++ [anon_region a sz prot] /\ len <= sz < len + PAGE_SIZE /\ a mod PAGE_SIZE = 0 /\ addr (heap s) <= a /\
       a + sz <= USER_SPACE_SIZE_MAX /\ (forall r, r ∈ all_regions s -> ~ meets a sz r) /\ (has fl MAP_FIXED = true -> a = hint)).
Proof.
  intros Hg Hh Hl. unfold uvm_mmap_anon.
  assert (Hfail : forall e, e <> 0 -> exists k' s' e' a, Ret (k, s, e, 0) = Ret (k', s', e', a) /\ space_geo s' /\ pt s' = pt s /\ (e' <> 0 -> seg s' = seg s) /\
    (e' = 0 -> let sz := round_up len PAGE_SIZE in seg s' = seg s ++ [anon_region a sz prot] /\ len <= sz < len + PAGE_SIZE /\ a mod PAGE_SIZE = 0 /\ addr (heap s) <= a /\
       a + sz <= USER_SPACE_SIZE_MAX /\ (forall r, r ∈ all_regions s -> ~ meets a sz r) /\ (has fl MAP_FIXED = true -> a = hint))).
  { intros e He. exists k, s, e, 0. by split_and!. }
  destruct (Z.eqb_spec len 0); [by apply Hfail |]. destruct (negb (offset =? 0)); [by apply Hfail |].
  destruct (has fl MAP_SHARED); [by apply Hfail |]. destruct (negb _); [by apply Hfail |]. destruct (_ || _); [by apply Hfail |].
  destruct (negb _); [by apply Hfail |]. destruct (Z.ltb_spec USER_SPACE_SIZE_MAX len); [by apply Hfail |].
  assert (Hru : round_up len PAGE_SIZE = page_round len) by done. rewrite Hru in *.
  destruct (page_round_spec len) as [Hsz Hsa]; [lia |]. set (sz := page_round len) in *.
  destruct (Z.eqb_spec sz 0); [by apply Hfail |]. destruct (Z.ltb_spec USER_SPACE_SIZE_MAX sz); [by apply Hfail |]. cbn [orb].
  destruct (choose_addr_spec s hint sz fl Hg) as (s1 & c & -> & Hg1 & Hs1 & Hc); [lia | lia | done |].
  destruct c as [a | e].
  - destruct Hc as (Hha & Hal & Hhi & Hfree & Hfix). unfold map_anon_lazy, uvm_region_alloc. destruct (kalloc k) as [k1 []]; cbn [negb].
    2: { exists k1, s1, (- ENOMEM), 0. split_and!; [done | done | by rewrite Hs1 | by rewrite Hs1 | done]. }
    destruct (kalloc k1) as [k2 []]; cbn [negb].
    2: { exists k2, s1, (- ENOMEM), 0. split_and!; [done | done | by rewrite Hs1 | by rewrite Hs1 | done]. }
    eexists k2, _, 0, a. split; [done |].
    assert (Hpa : 0 <= addr (heap s)) by (pose proof (geo_placed _ Hg) as Hpl; apply list.Forall_forall with (x := heap s) in Hpl; [by destruct Hpl | apply elem_of_app; right; right; left]).
    split_and!; [| by rewrite Hs1 | done |].
    + apply geo_add; [done | by constructor; cbn; lia |]. intros r Hr. apply Hfree. rewrite Hs1 in Hr. exact Hr.
    + intros _. cbv zeta. cbn [seg set_seg]. assert (seg s1 = seg s) as -> by (by rewrite Hs1). split_and!; try (done || lia). intros Hf. by rewrite Hf in Hfix.
  - destruct Hc as [-> He]. exists k, s, e, 0. split_and!; try done. destruct He as [-> | ->]; done.
Qed.

(** A mapping that is not fixed goes below [mmap_top], which no call raises:
    addresses above it are not handed out again once they are unmapped, and a fixed
    mapping at the start of the heap leaves no room for any other. *)
Theorem mmap_below_top s hint sz fl s' a : space_geo s -> 0 <= hint -> 0 < sz <= USER_SPACE_SIZE_MAX -> sz mod PAGE_SIZE = 0 ->
  mmap_top s <> 0 -> has fl MAP_FIXED = false -> choose_addr s hint sz fl = Ret (s', inl a) ->
  addr (heap s) <= a /\ a + sz <= mmap_top s /\ mmap_top s' = a.
Proof.
  intros Hg Hh Hs Hsa Ht Hf E. destruct (choose_addr_spec s hint sz fl Hg Hh Hs Hsa) as (s1 & c & E' & _ & _ & Hc).
  rewrite E in E'. injection E' as <- <-. rewrite Hf in Hc. destruct Hc as (? & _ & _ & _ & ? & Htop). unfold initial_mmap_top in Htop.
  destruct (Z.eqb_spec (mmap_top s) 0); [done |]. cbn [negb] in Htop. by split_and!.
Qed.

(** ** Pages and who holds them *)

(** The regions whose pages are kept one by one; the stack is one block. *)
Definition regions (s : uvm_space) : list uvm_region := seg s ++ [heap s].

Definition one_if (b : bool) : Z := if b then 1 else 0.

(** How often a page is in the slots. *)
Fixpoint cnt_slots (l : list (option Z)) (p : Z) : Z :=
  match l with [] => 0 | x :: l' => one_if (bool_decide (x = Some p)) + cnt_slots l' p end.

Definition cnt_region (r : uvm_region) (p : Z) : Z :=
  match kind r with UVM_REGION_ANON => cnt_slots (slots r) p | UVM_REGION_SHARED_FILE => 0 end.

Fixpoint cnt (l : list uvm_region) (p : Z) : Z :=
  match l with [] => 0 | r :: l' => cnt_region r p + cnt l' p end.

Definition slot_no (r : uvm_region) (a : Z) : nat := Z.to_nat ((a - addr r) / PAGE_SIZE).

(** Page address [a] is backed by slot value [x] of a region of this kind and with
    these flags. *)
Definition backs (s : uvm_space) (a : Z) (kd : region_kind) (fl : Z) (x : option Z) : Prop :=
  exists r, r ∈ regions s /\ owns r a /\ a mod PAGE_SIZE = 0 /\ slots r !! slot_no r a = Some x /\ kind r = kd /\ flags r = fl.

Record region_ok (r : uvm_region) : Prop := {
  ro_placed : placed r;
  ro_slots : size r = PAGE_SIZE * nr_pages r;
  ro_read : has (flags r) PTE_W = true -> has (flags r) PTE_R = true
}.

(** An entry for [a] fits its slot: it leads to the page there, and is writable
    only where the region is and not marked copy on write, which entries of
    shared mappings never are. *)
Definition entry_fits (kd : region_kind) (fl : Z) (x : option Z) (p f : Z) : Prop :=
  match kd with
  | UVM_REGION_ANON => x = Some p /\ (has f PTE_W = true -> has fl PTE_W = true /\ has f PTE_COW = false)
  | UVM_REGION_SHARED_FILE => has f PTE_COW = false
  end.

(** The page may be written without a copy being made first. *)
Definition writable_as_is (s : uvm_space) (a fl : Z) : Prop :=
  match pt s !! a with
  | None => True
  | Some (_, f) => has f PTE_COW = false /\ has fl PTE_W = true
  end.

(** [others p] references to page [p] are held elsewhere. *)
Record inv (others : Z -> Z) (k : kstate) (s : uvm_space) : Prop := {
  inv_geo : space_geo s;
  inv_regions : Forall region_ok (regions s);
  inv_pool : NoDup (pool k) /\ forall p, p ∈ pool k -> prefs k p = 0;
  inv_others : forall p, 0 <= others p;
  inv_count : forall p, prefs k p = others p + cnt (regions s) p;
  inv_pte : forall a p f, pt s !! a = Some (p, f) -> owns (stack s) a \/ exists kd fl x, backs s a kd fl x /\ entry_fits kd fl x p f;
  inv_excl : forall a fl p, backs s a UVM_REGION_ANON fl (Some p) -> writable_as_is s a fl -> prefs k p = 1
}.

(** What a page address reads: the page of its slot, or zeros before it has one. *)
Definition reads (k : kstate) (s : uvm_space) (a : Z) (c : Z -> Z) : Prop :=
  exists fl x, backs s a UVM_REGION_ANON fl x /\ c = match x with Some p => content k p | None => fun _ => 0 end.

(** ** Counting *)

Lemma cnt_slots_nonneg l p : 0 <= cnt_slots l p.
Proof. induction l as [| x l IH]; cbn [cnt_slots]; [lia |]. unfold one_if. destruct (bool_decide _); lia. Qed.

Lemma cnt_region_nonneg r p : 0 <= cnt_region r p.
Proof. unfold cnt_region. destruct (kind r); [apply cnt_slots_nonneg | lia]. Qed.

Lemma cnt_nonneg l p : 0 <= cnt l p.
Proof. induction l as [| r l IH]; cbn [cnt]; [lia |]. pose proof (cnt_region_nonneg r p). lia. Qed.

Lemma cnt_slots_app l l' p : cnt_slots (l ++ l') p = cnt_slots l p + cnt_slots l' p.
Proof. induction l as [| x l IH]; cbn [app cnt_slots]; lia. Qed.

Lemma cnt_app l l' p : cnt (l ++ l') p = cnt l p + cnt l' p.
Proof. induction l as [| x l IH]; cbn [app cnt]; lia. Qed.

Lemma cnt_slots_insert l i x y p : l !! i = Some x ->
  cnt_slots (<[i := y]> l) p = cnt_slots l p - one_if (bool_decide (x = Some p)) + one_if (bool_decide (y = Some p)).
Proof.
  intros H. pose proof (take_drop_middle _ _ _ H) as E. rewrite <- E at 2. rewrite insert_take_drop by (by apply lookup_lt_Some in H).
  rewrite !cnt_slots_app. cbn [cnt_slots]. lia.
Qed.

Lemma cnt_insert l i r r' p : l !! i = Some r -> cnt (<[i := r']> l) p = cnt l p - cnt_region r p + cnt_region r' p.
Proof.
  intros H. pose proof (take_drop_middle _ _ _ H) as E. rewrite <- E at 2. rewrite insert_take_drop by (by apply lookup_lt_Some in H).
  rewrite !cnt_app. cbn [cnt]. lia.
Qed.

Lemma cnt_slots_pos l i p : l !! i = Some (Some p) -> 1 <= cnt_slots l p.
Proof.
  intros H. pose proof (cnt_slots_insert l i (Some p) None p H) as E. rewrite bool_decide_true, bool_decide_false in E by done. cbn [one_if] in E.
  pose proof (cnt_slots_nonneg (<[i := None]> l) p). lia.
Qed.

Lemma cnt_elem l r p : r ∈ l -> cnt_region r p <= cnt l p.
Proof. intros [i Hi]%list_elem_of_lookup. pose proof (cnt_insert l i r uvm_region_new p Hi). pose proof (cnt_nonneg (<[i := uvm_region_new]> l) p). cbn in *. lia. Qed.

Lemma backs_cnt s a fl p : backs s a UVM_REGION_ANON fl (Some p) -> 1 <= cnt (regions s) p.
Proof.
  intros (r & Hr & _ & _ & Hs & Hk & _). pose proof (cnt_elem _ _ p Hr) as H. unfold cnt_region in H. rewrite Hk in H.
  pose proof (cnt_slots_pos _ _ _ Hs). lia.
Qed.

(** ** Finding a region *)

Lemma geo_regions s : space_geo s -> apart_all (regions s) /\ Forall (apart (stack s)) (regions s) /\ Forall placed (regions s).
Proof.
  intros [Hpl Hap _ _]. assert (Hp : all_regions s ≡ₚ stack s :: regions s).
  { unfold all_regions, regions. symmetry. apply Permutation_middle. }
  rewrite Hp in Hpl, Hap. cbn [apart_all] in Hap. apply list.Forall_cons in Hpl. naive_solver.
Qed.

Lemma owner_index l : apart_all l -> forall i j r r' a, l !! i = Some r -> l !! j = Some r' -> owns r a -> owns r' a -> i = j.
Proof.
  induction l as [| x l IH]; intros Hap i j r r' a Hi Hj Ha Ha'; [done |]. destruct Hap as [Hx Hap].
  assert (Hno : forall n y, l !! n = Some y -> owns x a -> owns y a -> False).
  { intros n y Hn H1 H2. rewrite list.Forall_forall in Hx. by apply (Hx y (list_elem_of_lookup_2 _ _ _ Hn) a). }
  destruct i as [| i], j as [| j]; simpl in Hi, Hj; simplify_eq; [done | exfalso; eauto | exfalso; eauto | f_equal; eauto].
Qed.

Lemma owner_unique s r r' a : space_geo s -> r ∈ regions s -> r' ∈ regions s -> owns r a -> owns r' a -> r = r'.
Proof.
  intros Hg [i Hi]%list_elem_of_lookup [j Hj]%list_elem_of_lookup Ha Ha'. destruct (geo_regions s Hg) as [Hap _].
  assert (i = j) as -> by (by eapply owner_index). congruence.
Qed.

Lemma backs_fun s a kd fl x kd' fl' x' : space_geo s -> backs s a kd fl x -> backs s a kd' fl' x' -> kd = kd' /\ fl = fl' /\ x = x'.
Proof.
  intros Hg (r & Hr & Ho & _ & Hs & Hk & Hf) (r' & Hr' & Ho' & _ & Hs' & Hk' & Hf').
  pose proof (owner_unique s r r' a Hg Hr Hr' Ho Ho') as ->. split_and!; congruence.
Qed.

Lemma contains_spec r a : placed r -> 0 <= a <= USER_SPACE_SIZE_MAX -> contains r a = true <-> owns r a.
Proof.
  intros [H0 H1 H2 _ _] Ha. unfold contains, owns, USER_SPACE_SIZE_MAX, PAGE_SIZE in *. rewrite andb_true_iff, Z.leb_le, Z.ltb_lt.
  destruct (Z.lt_ge_cases a (addr r)); [lia |]. rewrite u64_small by lia. lia.
Qed.

Lemma first_containing_spec a l : forall n,
  match first_containing a l n with
  | Some i => exists j r, i = (n + j)%nat /\ l !! j = Some r /\ contains r a = true
  | None => Forall (fun r => contains r a = false) l
  end.
Proof.
  induction l as [| r l IH]; intros n; cbn [first_containing]; [constructor |]. destruct (contains r a) eqn:E.
  - exists 0%nat, r. split_and!; [lia | done | done].
  - specialize (IH (S n)). destruct (first_containing a l (S n)) as [i |]; [| by constructor].
    destruct IH as (j & r' & -> & Hj & Hc). exists (S j), r'. split_and!; [lia | done | done].
Qed.

Lemma find_region_spec s a : space_geo s -> 0 <= a <= USER_SPACE_SIZE_MAX -> ~ owns (stack s) a ->
  match find_region_containing s a with
  | Some i => exists r, regions s !! i = Some r /\ region_at s i = r /\ owns r a
  | None => forall r, r ∈ regions s -> ~ owns r a
  end.
Proof.
  intros Hg Ha Hst. destruct (geo_regions s Hg) as (_ & _ & Hpl). rewrite list.Forall_forall in Hpl.
  assert (Hplst : placed (stack s)) by (pose proof (geo_placed _ Hg) as H; apply list.Forall_forall with (x := stack s) in H; [done | apply elem_of_app; right; left]).
  assert (Hhp : heap s ∈ regions s) by (apply elem_of_app; right; left).
  unfold find_region_containing. pose proof (first_containing_spec a (seg s) 0) as Hseg. destruct (first_containing a (seg s) 0) as [i |].
  { destruct Hseg as (j & r & -> & Hj & Hc). exists r. cbn [Nat.add]. assert (Hr : regions s !! j = Some r) by (unfold regions; by apply lookup_app_l_Some).
    split_and!; [done | unfold region_at; by rewrite Hj | apply contains_spec; [apply Hpl; by eapply list_elem_of_lookup_2 | done | done]]. }
  rewrite list.Forall_forall in Hseg. destruct (contains (heap s) a) eqn:Eh.
  - assert (owns (heap s) a) as Ho by (apply contains_spec; auto). destruct (Z.eqb_spec (size (heap s)) 0); [unfold owns in Ho; lia |]. cbn [negb andb].
    exists (heap s). split_and!; [unfold regions; by rewrite list_lookup_middle | | done].
    unfold region_at. rewrite lookup_ge_None_2 by lia. by rewrite Nat.eqb_refl.
  - rewrite andb_false_r. destruct (contains (stack s) a) eqn:Es; [by apply contains_spec in Es |]. rewrite andb_false_r.
    intros r Hr Ho. apply contains_spec in Ho; [| auto | done]. apply elem_of_app in Hr as [Hr | Hr].
    + by rewrite Hseg in Ho.
    + apply list_elem_of_singleton in Hr as ->. congruence.
Qed.

Lemma regions_set s i r : (i <= length (seg s))%nat -> regions (set_region s i r) = <[i := r]> (regions s).
Proof.
  intros H. unfold set_region, regions. destruct (Nat.ltb_spec i (length (seg s))); cbn [seg heap set_seg].
  - by rewrite insert_app_l.
  - destruct (Nat.eqb_spec i (length (seg s))) as [-> |]; [| lia]. cbn [seg heap set_heap].
    rewrite <- (Nat.add_0_r (length (seg s))). by rewrite insert_app_r.
Qed.

Lemma region_index s i r : regions s !! i = Some r -> (i <= length (seg s))%nat.
Proof. intros H. apply lookup_lt_Some in H. unfold regions in H. rewrite length_app in H. simpl in H. lia. Qed.

(** ** Flags *)

Lemma has_pow2 f i : 0 <= i -> has f (2 ^ i) = Z.testbit f i.
Proof.
  intros Hi. unfold has. destruct (Z.testbit f i) eqn:E.
  - apply negb_true_iff, Z.eqb_neq. intros H. apply (f_equal (fun z => Z.testbit z i)) in H.
    rewrite Z.land_spec, E, Z.pow2_bits_true, Z.bits_0 in H by done. done.
  - apply negb_false_iff, Z.eqb_eq, Z.bits_inj'. intros j Hj. rewrite Z.land_spec, Z.bits_0, Z.pow2_bits_eqb by done.
    destruct (Z.eqb_spec i j) as [<- |]; [by rewrite E | apply andb_false_r].
Qed.

Lemma has_lor_r f a b : has f (Z.lor a b) = has f a || has f b.
Proof.
  unfold has. rewrite Z.land_lor_distr_r. destruct (Z.eqb_spec (Z.lor (Z.land f a) (Z.land f b)) 0) as [E | E].
  - apply Z.lor_eq_0_iff in E as [-> ->]. done.
  - destruct (Z.eqb_spec (Z.land f a) 0) as [Ea |], (Z.eqb_spec (Z.land f b) 0) as [Eb |]; try done. by rewrite Ea, Eb in E.
Qed.

Lemma has_R f : has f PTE_R = Z.testbit f 1. Proof. by apply (has_pow2 f 1). Qed.
Lemma has_W f : has f PTE_W = Z.testbit f 2. Proof. by apply (has_pow2 f 2). Qed.
Lemma has_X f : has f PTE_X = Z.testbit f 3. Proof. by apply (has_pow2 f 3). Qed.
Lemma has_COW f : has f PTE_COW = Z.testbit f 8. Proof. by apply (has_pow2 f 8). Qed.
Lemma has_RWX f : has f RWX = Z.testbit f 1 || Z.testbit f 2 || Z.testbit f 3.
Proof. unfold RWX. by rewrite !has_lor_r, has_R, has_W, has_X. Qed.

Ltac is_flag c :=
  lazymatch c with PTE_R => idtac | PTE_W => idtac | PTE_X => idtac | PTE_U => idtac | PTE_COW => idtac | RWX => idtac | Z.lor ?a ?b => is_flag a; is_flag b end.

(** Bits of flags built from others, with the constants evaluated. *)
Ltac flag_bits :=
  rewrite ?has_RWX, ?has_R, ?has_W, ?has_X, ?has_COW in *;
  repeat match goal with
  | |- context [Z.testbit ?c ?i] => is_flag c; let v := eval vm_compute in (Z.testbit c i) in change (Z.testbit c i) with v
  | H : context [Z.testbit ?c ?i] |- _ => is_flag c; let v := eval vm_compute in (Z.testbit c i) in change (Z.testbit c i) with v in H
  | |- context [Z.testbit (Z.lor _ _) _] => rewrite Z.lor_spec
  | |- context [Z.testbit (Z.land _ _) _] => rewrite Z.land_spec
  | |- context [Z.testbit (not64 _) _] => rewrite not64_testbit by lia
  | H : context [Z.testbit (Z.lor _ _) _] |- _ => rewrite Z.lor_spec in H
  | H : context [Z.testbit (Z.land _ _) _] |- _ => rewrite Z.land_spec in H
  | H : context [Z.testbit (not64 _) _] |- _ => rewrite not64_testbit in H by lia
  end;
  cbn [negb andb orb] in *; rewrite ?andb_true_r, ?andb_false_r, ?orb_true_r, ?orb_false_r in *.

Lemma need_bits f need : Z.land f need = need -> 0 < need -> (need = PTE_R \/ need = PTE_W \/ need = PTE_X) -> has f need = true.
Proof. intros H Hp _. unfold has. rewrite H. apply negb_true_iff, Z.eqb_neq. lia. Qed.

(** ** Changing one slot *)

Lemma slot_no_inj r a b : placed r -> owns r a -> owns r b -> a mod PAGE_SIZE = 0 -> b mod PAGE_SIZE = 0 -> slot_no r a = slot_no r b -> a = b.
Proof.
  intros Hpl [H1 _] [H2 _] Ha Hb E. unfold slot_no in E. pose proof (pl_align _ Hpl). unfold PAGE_SIZE in *.
  assert ((a - addr r) / 4096 = (b - addr r) / 4096) by (apply Z2Nat.inj; [zdm | zdm | done]). zdm.
Qed.

Definition same_place (r r' : uvm_region) : Prop := addr r = addr r' /\ size r = size r'.

Lemma geo_same s s' : Forall2 same_place (all_regions s) (all_regions s') -> mmap_top s' = mmap_top s -> space_geo s -> space_geo s'.
Proof.
  intros H Ht [Hpl Hap Ht1 Ht2]. constructor; [| | by rewrite Ht | by rewrite Ht].
  - clear Hap. induction H as [| r r' l l' [E1 E2] _ IH]; [constructor |]. apply list.Forall_cons in Hpl as [[] Hpl]. constructor; [constructor; congruence | auto].
  - clear Hpl. revert Hap. induction H as [| r r' l l' [E1 E2] H IH]; [done |]. intros [Hr Hap]. split; [| auto]. clear IH Hap.
    induction H as [| q q' l l' [E3 E4] _ IH]; [constructor |]. apply list.Forall_cons in Hr as [Hq Hr]. constructor; [| auto].
    intros a Ha Ha'. apply (Hq a); unfold owns in *; congruence.
Qed.

Lemma geo_set_region s i r r' : regions s !! i = Some r -> same_place r r' -> space_geo s -> space_geo (set_region s i r').
Proof.
  intros Hi Hp Hg. pose proof (region_index _ _ _ Hi) as Hle. assert (Hrefl : forall l, Forall2 same_place l l) by (induction l; by constructor).
  apply (geo_same s); [| unfold set_region; by destruct (i <? length (seg s))%nat, (i =? length (seg s))%nat | done].
  unfold set_region, all_regions, regions in *. destruct (Nat.ltb_spec i (length (seg s))) as [Hlt |].
  - cbn [seg stack heap set_seg]. rewrite lookup_app_l in Hi by done. apply Forall2_app; [| apply Hrefl].
    rewrite <- (list_insert_id (seg s) i r) at 1 by done. by apply Forall2_insert.
  - destruct (Nat.eqb_spec i (length (seg s))) as [-> |]; [| lia]. cbn [seg stack heap set_heap].
    rewrite list_lookup_middle in Hi by done. injection Hi as ->. apply Forall2_app; [apply Hrefl |]. constructor; [done |]. constructor; [done | constructor].
Qed.

Lemma set_region_frame s i r : pt (set_region s i r) = pt s /\ ((i <= length (seg s))%nat -> stack (set_region s i r) = stack s).
Proof. unfold set_region. destruct (Nat.ltb_spec i (length (seg s))); [done |]. destruct (Nat.eqb_spec i (length (seg s))); [done |]. split; [done | lia]. Qed.

(** Slot of page [a] of region number [i] set to [y]. *)
Definition put_slot (s : uvm_space) (i : nat) (r : uvm_region) (a : Z) (y : option Z) : uvm_space :=
  set_region s i (set_slots r (<[slot_no r a := y]> (slots r))).

Record put_slot_ok (s s' : uvm_space) (r : uvm_region) (a : Z) (x y : option Z) : Prop := {
  ps_geo : space_geo s';
  ps_regions : Forall region_ok (regions s');
  ps_pt : pt s' = pt s;
  ps_stack : stack s' = stack s;
  ps_backs : forall b kd fl z, backs s' b kd fl z <-> if decide (b = a) then kd = kind r /\ fl = flags r /\ z = y else backs s b kd fl z;
  ps_cnt : forall p, cnt (regions s') p = cnt (regions s) p +
    match kind r with UVM_REGION_ANON => one_if (bool_decide (y = Some p)) - one_if (bool_decide (x = Some p)) | UVM_REGION_SHARED_FILE => 0 end
}.

Lemma slot_in_range r a : region_ok r -> owns r a -> a mod PAGE_SIZE = 0 -> (slot_no r a < length (slots r))%nat.
Proof.
  intros [Hpl Hs _] [H1 H2] Ha. unfold slot_no, nr_pages in *. pose proof (pl_align _ Hpl). unfold PAGE_SIZE in *. zdm.
Qed.

Lemma put_slot_spec s i r a x y : space_geo s -> Forall region_ok (regions s) -> regions s !! i = Some r -> owns r a -> a mod PAGE_SIZE = 0 ->
  slots r !! slot_no r a = Some x -> put_slot_ok s (put_slot s i r a y) r a x y.
Proof.
  intros Hg Hok Hi Ho Ha Hx. pose proof (region_index _ _ _ Hi) as Hle. set (r' := set_slots r (<[slot_no r a := y]> (slots r))).
  assert (Hr : region_ok r) by (rewrite list.Forall_forall in Hok; apply Hok; by eapply list_elem_of_lookup_2).
  assert (Hplr := ro_placed _ Hr).
  assert (Hregs : regions (put_slot s i r a y) = <[i := r']> (regions s)) by (by apply regions_set).
  constructor.
  - by eapply geo_set_region.
  - rewrite Hregs. apply Forall_insert; [done |]. destruct Hr as [_ Hsz ?]. constructor; [by destruct Hplr; constructor | | done].
    unfold nr_pages in *. cbn [size slots r' set_slots]. by rewrite length_insert.
  - apply set_region_frame.
  - by apply set_region_frame.
  - intros b kd fl z. unfold backs. rewrite Hregs. split.
    + intros (q & Hq & Hob & Hb & Hz & Hk & Hf). apply list_elem_of_lookup in Hq as [j Hj].
      destruct (decide (i = j)) as [<- | Hne].
      * rewrite list_lookup_insert_eq in Hj by (by apply lookup_lt_Some in Hi). injection Hj as <-. cbn [kind flags slots r' set_slots] in *.
        change (slot_no r' b) with (slot_no r b) in Hz. change (owns r b) in Hob. destruct (decide (b = a)) as [-> | Hba].
        -- rewrite list_lookup_insert_eq in Hz by (by apply lookup_lt_Some in Hx). naive_solver.
        -- rewrite list_lookup_insert_ne in Hz by (intros E; apply Hba; symmetry; by apply (slot_no_inj r)). exists r. split_and!; try done. by eapply list_elem_of_lookup_2.
      * rewrite list_lookup_insert_ne in Hj by done. destruct (decide (b = a)) as [-> | Hba].
        -- exfalso. apply Hne. destruct (geo_regions s Hg) as [Hap _]. by eapply owner_index.
        -- exists q. split_and!; try done. by eapply list_elem_of_lookup_2.
    + destruct (decide (b = a)) as [-> | Hba].
      * intros (-> & -> & ->). exists r'. split_and!; try done; [apply list_elem_of_lookup; exists i; apply list_lookup_insert_eq; by apply lookup_lt_Some in Hi |].
        apply list_lookup_insert_eq. by apply lookup_lt_Some in Hx.
      * intros (q & Hq & Hob & Hb & Hz & Hk & Hf). apply list_elem_of_lookup in Hq as [j Hj]. destruct (decide (i = j)) as [<- | Hne].
        -- rewrite Hi in Hj. injection Hj as <-. exists r'. split_and!; try done.
           ++ apply list_elem_of_lookup. exists i. apply list_lookup_insert_eq. by apply lookup_lt_Some in Hi.
           ++ change (slots r') with (<[slot_no r a := y]> (slots r)). change (slot_no r' b) with (slot_no r b).
              rewrite list_lookup_insert_ne; [done |]. intros E. apply Hba. symmetry. by apply (slot_no_inj r).
        -- exists q. split_and!; try done. apply list_elem_of_lookup. exists j. by rewrite list_lookup_insert_ne.
  - intros p. rewrite Hregs. rewrite (cnt_insert _ _ r) by done. unfold cnt_region. cbn [kind slots r' set_slots].
    destruct (kind r); [| lia]. rewrite (cnt_slots_insert _ _ x) by done. lia.
Qed.

(** ** One page at a time *)

(** Only the pages matter to the invariant. *)
Lemma inv_same others k k' s : pool k' = pool k -> (forall p, prefs k' p = prefs k p) -> inv others k s -> inv others k' s.
Proof.
  intros Hp Hf [H1 H2 [H3 H3'] H4 H5 H6 H7]. constructor; try done.
  - rewrite Hp. split; [done |]. intros p Hin. rewrite Hf. auto.
  - intros p. rewrite Hf. auto.
  - intros a fl p Hb Hw. rewrite Hf. eauto.
Qed.

Lemma kalloc_same k : exists k' b, kalloc k = (k', b) /\ pool k' = pool k /\ prefs k' = prefs k /\ content k' = content k.
Proof. unfold kalloc. destruct (answers k) as [| b l]; by do 2 eexists. Qed.

Lemma not_stack s a kd fl x : space_geo s -> backs s a kd fl x -> ~ owns (stack s) a.
Proof.
  intros Hg (r & Hr & Ho & _) Hs. destruct (geo_regions s Hg) as (_ & Hst & _). rewrite list.Forall_forall in Hst. by apply (Hst r Hr a).
Qed.

Lemma inv_entry others k s a kd fl x p f : inv others k s -> backs s a kd fl x -> entry_fits kd fl x p f ->
  (kd = UVM_REGION_ANON -> has f PTE_COW = false -> has fl PTE_W = true -> prefs k p = 1) ->
  inv others k (set_pt s (<[a := (p, f)]> (pt s))).
Proof.
  intros [H1 H2 H3 H4 H5 H6 H7] Hb Hfit Hone. constructor; try done.
  - by destruct H1.
  - intros b q g Hl. destruct (decide (a = b)) as [<- | Hne].
    + cbn [pt set_pt] in Hl. rewrite lookup_insert_eq in Hl. injection Hl as -> ->. right. by exists kd, fl, x.
    + cbn [pt set_pt] in Hl. rewrite lookup_insert_ne in Hl by done. apply (H6 b q g Hl).
  - intros b fl' q Hb' Hw. unfold writable_as_is in Hw. cbn [pt set_pt] in Hw. destruct (decide (a = b)) as [<- | Hne].
    + rewrite lookup_insert_eq in Hw. destruct (backs_fun s a _ _ _ _ _ _ H1 Hb Hb') as (-> & -> & ->).
      destruct Hfit as [[= ->] _]. destruct Hw. by apply Hone.
    + rewrite lookup_insert_ne in Hw by done. by apply (H7 b fl' q).
Qed.

Lemma inv_clear others k s a : inv others k s -> (forall fl p, backs s a UVM_REGION_ANON fl (Some p) -> prefs k p = 1) ->
  inv others k (set_pt s (delete a (pt s))).
Proof.
  intros [H1 H2 H3 H4 H5 H6 H7] Hone. constructor; try done.
  - by destruct H1.
  - intros b q g Hl. cbn [pt set_pt] in Hl. apply lookup_delete_Some in Hl as [_ Hl]. apply (H6 b q g Hl).
  - intros b fl' q Hb' Hw. unfold writable_as_is in Hw. cbn [pt set_pt] in Hw. destruct (decide (a = b)) as [<- | Hne]; [by apply (Hone fl') |].
    rewrite lookup_delete_ne in Hw by done. by apply (H7 b fl' q).
Qed.

(** A page from the allocator is held by nobody. *)
Lemma alloc_spec others k s k' pg : inv others k s -> page_alloc k = (k', Some pg) ->
  pool k = pg :: pool k' /\ prefs k' = <[pg := 1]> (prefs k) /\ content k' = content k /\ others pg = 0 /\ cnt (regions s) pg = 0 /\ prefs k pg = 0 /\ pg ∉ pool k'.
Proof.
  intros Hinv E. unfold page_alloc in E. destruct (pool k) as [| q l] eqn:Ep; [done |]. injection E as <- <-. cbn.
  destruct (inv_pool _ _ _ Hinv) as [Hnd Hz]. rewrite Ep in Hnd, Hz. apply list.NoDup_cons in Hnd as [Hnot _].
  assert (H0 : prefs k q = 0) by (apply Hz; left). pose proof (inv_count _ _ _ Hinv q). pose proof (inv_others _ _ _ Hinv q). pose proof (cnt_nonneg (regions s) q).
  split_and!; try done; lia.
Qed.

Lemma put_spec k p : 0 < prefs k p ->
  prefs (page_put k p) = <[p := prefs k p - 1]> (prefs k) /\ content (page_put k p) = content k /\
  pool (page_put k p) = if decide (prefs k p = 1) then p :: pool k else pool k.
Proof.
  intros H. unfold page_put, refcnt_dec_fetch. destruct (Z.ltb_spec 0 (prefs k p)); [| lia]. destruct (Z.ltb_spec 0 (prefs k p - 1)).
  - rewrite decide_False by lia. done.
  - rewrite decide_True by lia. done.
Qed.

(** Filling an empty slot with a fresh page. *)
Lemma inv_fill others k k1 s s' r a pg c : inv others k s -> page_alloc k = (k1, Some pg) -> kind r = UVM_REGION_ANON -> backs s a (kind r) (flags r) None ->
  put_slot_ok s s' r a None (Some pg) -> inv others (write_page k1 pg c) s'.
Proof.
  intros Hinv Ha Hk Hb [Hg Hro Hpt Hst Hbk Hc]. destruct (alloc_spec _ _ _ _ _ Hinv Ha) as (Hpool & Hpref & _ & Hoth & Hcnt & H0 & Hnot).
  pose proof Hinv as [H1 H2 [H3 H3'] H4 H5 H6 H7]. constructor; try done.
  - cbn. rewrite Hpool in H3, H3'. apply list.NoDup_cons in H3 as [_ H3]. split; [done |]. intros p Hp. rewrite Hpref.
    rewrite fn_lookup_insert_ne by congruence. apply H3'. by right.
  - intros p. cbn. rewrite Hpref, Hc, Hk. destruct (decide (p = pg)) as [-> | Hne].
    + rewrite fn_lookup_insert, bool_decide_true, bool_decide_false by done. cbn [one_if]. lia.
    + rewrite fn_lookup_insert_ne, !bool_decide_false by congruence. cbn [one_if]. rewrite H5. lia.
  - intros b p f Hl. rewrite Hpt in Hl. rewrite Hst. destruct (H6 b p f Hl) as [? | (kd & fl & x & Hb' & Hfit)]; [by left | right].
    exists kd, fl, x. split; [| done]. apply Hbk. destruct (decide (b = a)) as [-> |]; [| done].
    destruct (backs_fun s a _ _ _ _ _ _ H1 Hb Hb') as (<- & <- & <-). rewrite Hk in Hfit. by destruct Hfit.
  - intros b fl p Hb' Hw. cbn. rewrite Hpref. apply Hbk in Hb'. destruct (decide (b = a)) as [-> | Hne].
    + destruct Hb' as (_ & _ & [= ->]). apply fn_lookup_insert.
    + pose proof (backs_cnt _ _ _ _ Hb'). rewrite fn_lookup_insert_ne by (intros ->; lia).
      apply (H7 b fl p Hb'). unfold writable_as_is in *. by rewrite Hpt in Hw.
Qed.

(** Replacing a page by a private copy of it. *)
Lemma inv_copy others k k1 s s' r a old pg f : inv others k s -> page_alloc k = (k1, Some pg) -> kind r = UVM_REGION_ANON ->
  backs s a (kind r) (flags r) (Some old) -> put_slot_ok s s' r a (Some old) (Some pg) -> entry_fits UVM_REGION_ANON (flags r) (Some pg) pg f ->
  inv others (page_put (write_page k1 pg (content k1 old)) old) (set_pt s' (<[a := (pg, f)]> (pt s'))).
Proof.
  intros Hinv Ha Hk Hb [Hg Hro Hpt Hst Hbk Hc] Hfit. destruct (alloc_spec _ _ _ _ _ Hinv Ha) as (Hpool & Hpref & _ & Hoth & Hcnt & H0 & Hnot).
  pose proof Hinv as [H1 H2 [H3 H3'] H4 H5 H6 H7]. rewrite Hk in Hb. pose proof (backs_cnt _ _ _ _ Hb) as Hold.
  assert (Hne : old <> pg) by (intros ->; lia). pose proof (H5 old). pose proof (H4 old).
  assert (Hpo : prefs (write_page k1 pg (content k1 old)) old = prefs k old) by (cbn; rewrite Hpref; by apply fn_lookup_insert_ne).
  destruct (put_spec (write_page k1 pg (content k1 old)) old) as (Hpf & _ & Hpl); [rewrite Hpo; lia |]. rewrite Hpo in Hpf, Hpl. cbn [prefs pool write_page set_pages] in Hpf, Hpl.
  rewrite Hpool in H3, H3'. apply list.NoDup_cons in H3 as [_ H3].
  assert (Hcnt' : forall p, prefs (page_put (write_page k1 pg (content k1 old)) old) p = others p + cnt (regions s') p).
  { intros p. rewrite Hpf, Hc, Hk, Hpref. destruct (decide (p = old)) as [-> | Hpo'].
    + rewrite fn_lookup_insert, bool_decide_false, bool_decide_true by congruence. cbn [one_if]. lia.
    + rewrite fn_lookup_insert_ne by done. destruct (decide (p = pg)) as [-> | Hpg].
      * rewrite fn_lookup_insert, bool_decide_true, bool_decide_false by congruence. cbn [one_if]. lia.
      * rewrite fn_lookup_insert_ne, !bool_decide_false by congruence. cbn [one_if]. rewrite H5. lia. }
  constructor; try done.
  - by destruct Hg.
  - rewrite Hpl. assert (Hz : forall p, p ∈ pool k1 -> prefs k p = 0) by (intros p Hp; apply H3'; by right).
    assert (Hzz : forall p, p ∈ pool k1 -> prefs (page_put (write_page k1 pg (content k1 old)) old) p = 0).
    { intros p Hp. specialize (Hz p Hp). rewrite Hpf, Hpref. rewrite !fn_lookup_insert_ne; [done | intros ->; done | intros ->; lia]. }
    destruct (decide (prefs k old = 1)) as [E1 |]; [| done].
    split; [apply list.NoDup_cons; split; [intros Hin; specialize (Hz old Hin); lia | done] |].
    intros p [-> | Hp]%elem_of_cons; [rewrite Hpf, fn_lookup_insert; lia | auto].
  - intros b p g Hl. cbn [pt set_pt] in Hl. change (stack (set_pt s' _)) with (stack s'). rewrite Hst. destruct (decide (a = b)) as [<- | Hba].
    + rewrite lookup_insert_eq in Hl. injection Hl as -> ->. right. exists UVM_REGION_ANON, (flags r), (Some p).
      split; [| done]. change (backs s' a UVM_REGION_ANON (flags r) (Some p)). apply Hbk. rewrite decide_True by done. by rewrite Hk.
    + rewrite lookup_insert_ne in Hl by done. rewrite Hpt in Hl. destruct (H6 b p g Hl) as [? | (kd & fl & x & Hb' & Hf')]; [by left | right].
      exists kd, fl, x. split; [| done]. change (backs s' b kd fl x). apply Hbk. by rewrite decide_False by done.
  - intros b fl p Hb' Hw. change (backs s' b UVM_REGION_ANON fl (Some p)) in Hb'. apply Hbk in Hb'. rewrite Hpf, Hpref. destruct (decide (b = a)) as [-> | Hba].
    + destruct Hb' as (_ & _ & [= ->]). rewrite fn_lookup_insert_ne by done. apply fn_lookup_insert.
    + pose proof (backs_cnt _ _ _ _ Hb'). assert (p <> pg) by (intros ->; lia).
      unfold writable_as_is in Hw. cbn [pt set_pt] in Hw. rewrite lookup_insert_ne in Hw by done. rewrite Hpt in Hw.
      pose proof (H7 b fl p Hb' Hw) as Hp1. destruct (decide (p = old)) as [-> |]; [| by rewrite !fn_lookup_insert_ne by done].
      exfalso. specialize (Hc old). rewrite Hk, bool_decide_false, bool_decide_true in Hc by congruence. cbn [one_if] in Hc.
      assert (Hb2 : backs s' b UVM_REGION_ANON fl (Some old)) by (apply Hbk; by rewrite decide_False by done).
      pose proof (backs_cnt _ _ _ _ Hb2). lia.
Qed.

(** ** Faults *)

(** The page address of a fault and what it needs of the region. *)
Definition page_of (a : Z) : Z := Z.land a (not64 (PAGE_SIZE - 1)).
Definition needs (write instr : bool) : Z := if instr then PTE_X else if write then PTE_W else PTE_R.

Lemma page_of_spec a : 0 <= a < 2 ^ 64 -> page_of a = a - a mod PAGE_SIZE.
Proof. intros H. unfold page_of, PAGE_SIZE. change (4096 - 1) with (2 ^ 12 - 1). rewrite land_align_down by lia. zdm. Qed.

Lemma round_down_page a : 0 <= a < 2 ^ 64 -> a mod PAGE_SIZE = 0 -> round_down a PAGE_SIZE = a.
Proof. intros H Ha. change (round_down a PAGE_SIZE) with (page_of a). rewrite page_of_spec by done. lia. Qed.

(** The effect of a fault on the rest of the system: pages held elsewhere keep
    their contents, no page is taken but a free one, and every address reads
    what it read. *)
Record fault_frame (others : Z -> Z) (k k' : kstate) (s s' : uvm_space) (page : Z) : Prop := {
  ff_content : forall p, 0 < others p -> content k' p = content k p;
  ff_grab : forall p, p ∉ pool k -> cnt (regions s') p <= cnt (regions s) p;
  ff_reads : forall b c, reads k s b c -> reads k' s' b c;
  ff_pt : forall b, b <> page -> pt s' !! b = pt s !! b
}.

Lemma frame_same others k k' s s' page : content k' = content k -> regions s' = regions s -> (forall b, b <> page -> pt s' !! b = pt s !! b) ->
  fault_frame others k k' s s' page.
Proof.
  intros Hc Hr Hp. constructor; [by rewrite Hc | intros; by rewrite Hr | | done].
  intros b c (fl & x & Hb & ->). exists fl, x. split; [unfold backs in *; by rewrite Hr | by rewrite Hc].
Qed.

Lemma frame_trans others k k1 k' s s1 s' page : pool k1 = pool k \/ (exists p, pool k = p :: pool k1 /\ 1 <= cnt (regions s1) p) ->
  fault_frame others k k1 s s1 page -> fault_frame others k1 k' s1 s' page -> fault_frame others k k' s s' page.
Proof.
  intros Hpool [A1 A2 A3 A4] [B1 B2 B3 B4]. constructor.
  - intros p Hp. rewrite B1, A1 by done. done.
  - intros p Hp. assert (Hp1 : p ∉ pool k1) by (destruct Hpool as [-> | (q & E & _)]; [done | rewrite E in Hp; set_solver]).
    specialize (A2 p Hp). specialize (B2 p Hp1). lia.
  - auto.
  - intros b Hb. rewrite B4, A4 by done. done.
Qed.

(** The end of the handler: refresh the entry or make one. *)
Definition fault_fin (k : kstate) (s : uvm_space) (page fl p : Z) : res (kstate * uvm_space * Z) :=
  let f := Z.land fl RWX in
  let (s, done) := update_present_pte s page f in
  if done then Ret (k, s, 0) else map_user_page k s page p f.

(** What a fault wants of the allocators: a page, to fill an untouched slot or
    to copy one marked copy on write, and a table entry when there is none; and
    whether it cannot be had. *)
Definition wants_page (s : uvm_space) (page : Z) (write : bool) (kd : region_kind) (x : option Z) : bool :=
  match kd, x with
  | UVM_REGION_ANON, None => true
  | UVM_REGION_ANON, Some _ => write && uvm_pte_is_cow s page
  | UVM_REGION_SHARED_FILE, _ => false
  end.
Definition no_table (k : kstate) (s : uvm_space) (page : Z) : bool := negb (uvm_page_is_mapped s page) && negb (snd (kalloc k)).
Definition lacks_memory (k : kstate) (s : uvm_space) (page : Z) (write : bool) (kd : region_kind) (x : option Z) : bool :=
  wants_page s page write kd x && bool_decide (pool k = []) || no_table k s page.

Definition fault_done (others : Z -> Z) (k : kstate) (s : uvm_space) (page need : Z) (lack : bool) (r : res (kstate * uvm_space * Z)) : Prop :=
  exists k' s' e, r = Ret (k', s', e) /\ inv others k' s' /\ fault_frame others k k' s s' page /\ e = (if lack then - ENOMEM else 0) /\
    (e = 0 -> exists p f, pt s' !! page = Some (p, f) /\ has f need = true).

Lemma fin_spec others k s page kd fl x p need : inv others k s -> backs s page kd fl x -> 0 <= page < 2 ^ 64 -> page mod PAGE_SIZE = 0 ->
  (kd = UVM_REGION_ANON -> x = Some p) -> (need = PTE_R \/ need = PTE_W \/ need = PTE_X) -> has fl need = true ->
  (need = PTE_W -> kd = UVM_REGION_ANON -> uvm_pte_is_cow s page = false) ->
  fault_done others k s page need (no_table k s page) (fault_fin k s page fl p).
Proof.
  intros Hinv Hb Hpg Hal Hx Hneed Hhas Hcow. unfold no_table, uvm_page_is_mapped, fault_fin, update_present_pte, uvm_pte_is_cow, lookup_pte in *.
  rewrite round_down_page in * by done. assert (Hnst := not_stack _ _ _ _ _ (inv_geo _ _ _ Hinv) Hb).
  assert (Hset : forall s0 q g, pte_set_leaf s0 page q g = set_pt s0 (<[page := (q, g)]> (pt s0))) by (intros; unfold pte_set_leaf; by rewrite round_down_page).
  assert (Hfr : forall q g, fault_frame others k k s (set_pt s (<[page := (q, g)]> (pt s))) page)
    by (intros; apply frame_same; [done | done |]; intros; by apply lookup_insert_ne).
  destruct (pt s !! page) as [[p0 old] |] eqn:Ept.
  - destruct (inv_pte _ _ _ Hinv _ _ _ Ept) as [? | (kd' & fl' & x' & Hb' & Hfit)]; [done |].
    destruct (backs_fun s page _ _ _ _ _ _ (inv_geo _ _ _ Hinv) Hb Hb') as (<- & <- & <-).
    set (f := if has old PTE_COW then Z.lor (Z.land (Z.land fl RWX) (not64 PTE_W)) PTE_COW else Z.land fl RWX).
    assert (Hgood : has f need = true).
    { unfold f. destruct (has old PTE_COW) eqn:Eo; destruct Hneed as [-> | [-> | ->]]; flag_bits; try done.
      destruct kd; [by specialize (Hcow eq_refl eq_refl) | exfalso; unfold entry_fits in Hfit; flag_bits; congruence]. }
    assert (Hrwx : has f RWX = true) by (destruct Hneed as [-> | [-> | ->]]; flag_bits; rewrite Hgood; cbn; rewrite ?orb_true_r; done).
    change (has f (Z.lor (Z.lor PTE_R PTE_W) PTE_X)) with (has f RWX). rewrite Hrwx, Hset. do 3 eexists. split; [done |]. split_and!.
    + eapply inv_entry; [done | done | |].
      * destruct kd; unfold entry_fits in *; [destruct Hfit as [-> _]; split; [done |]; unfold f; destruct (has old PTE_COW); flag_bits; done |].
        unfold f. rewrite Hfit. by flag_bits.
      * intros -> Hc Hw. destruct Hfit as [-> _]. apply (inv_excl _ _ _ Hinv page fl p0 Hb). unfold writable_as_is. rewrite Ept. split; [| done].
        unfold f in Hc. destruct (has old PTE_COW); [by flag_bits | done].
    + apply Hfr.
    + done.
    + intros _. do 2 eexists. split; [apply lookup_insert_eq |]. destruct Hneed as [-> | [-> | ->]]; flag_bits; by rewrite Hgood.
  - unfold map_user_page, uvm_page_is_mapped, lookup_pte. rewrite round_down_page, Ept by done. cbn [negb andb].
    destruct (kalloc_same k) as (k1 & ok & -> & Hk1 & Hk2 & Hk3). cbn [snd].
    assert (Hinv1 : inv others k1 s) by (apply (inv_same others k); [done | by intros; rewrite Hk2 | done]).
    destruct ok.
    + rewrite Hset. do 3 eexists. split; [done |]. split_and!.
      * eapply inv_entry; [done | done | |].
        -- destruct kd; unfold entry_fits; [split; [auto |]; flag_bits; done | by flag_bits].
        -- intros -> _ _. rewrite Hk2. apply (inv_excl _ _ _ Hinv page fl p); [by rewrite <- Hx | unfold writable_as_is; by rewrite Ept].
      * apply frame_same; [done | done |]. intros b Hbne. by apply lookup_insert_ne.
      * done.
      * intros _. do 2 eexists. split; [apply lookup_insert_eq |]. destruct Hneed as [-> | [-> | ->]]; flag_bits; by rewrite Hhas.
    + do 3 eexists. split; [done |]. split_and!; [done | by apply frame_same | done | done].
Qed.

Lemma land_need f write instr : (Z.land f (needs write instr) =? needs write instr) = has f (needs write instr).
Proof.
  assert (H : forall i, 0 <= i -> (Z.land f (2 ^ i) =? 2 ^ i) = has f (2 ^ i)).
  { intros i Hi. rewrite has_pow2 by done. destruct (Z.testbit f i) eqn:E.
    - apply Z.eqb_eq, Z.bits_inj'. intros j Hj. rewrite Z.land_spec, Z.pow2_bits_eqb by done. destruct (Z.eqb_spec i j) as [<- |]; [by rewrite E | apply andb_false_r].
    - apply Z.eqb_neq. intros H. apply (f_equal (fun z => Z.testbit z i)) in H. rewrite Z.land_spec, E, Z.pow2_bits_true in H by done. done. }
  unfold needs. destruct instr; [apply (H 3); lia |]. destruct write; [apply (H 2); lia | apply (H 1); lia].
Qed.

Lemma needs_cases write instr : needs write instr = PTE_R \/ needs write instr = PTE_W \/ needs write instr = PTE_X.
Proof. unfold needs. destruct instr, write; auto. Qed.

(** What filling or replacing the slot of [page] by the fresh page [pg] with the
    contents [page] had does to the rest. *)
Lemma frame_fresh others k k1 k' s s' r page x pg : inv others k s -> page_alloc k = (k1, Some pg) -> kind r = UVM_REGION_ANON ->
  backs s page (kind r) (flags r) x -> put_slot_ok s s' r page x (Some pg) ->
  content k' = <[pg := match x with Some old => content k old | None => fun _ => 0 end]> (content k) ->
  fault_frame others k k' s s' page.
Proof.
  intros Hinv Ha Hk Hb [Hg Hro Hpt Hst Hbk Hc] Hcont. destruct (alloc_spec _ _ _ _ _ Hinv Ha) as (Hpool & _ & _ & Hoth & Hcnt & _ & _).
  constructor.
  - intros p Hp. rewrite Hcont. apply fn_lookup_insert_ne. intros ->. lia.
  - intros p Hp. rewrite Hc, Hk. rewrite bool_decide_false by (intros [= ->]; apply Hp; rewrite Hpool; left).
    unfold one_if. destruct (bool_decide (x = Some p)); lia.
  - intros b c (fl & y & Hb' & ->). destruct (decide (b = page)) as [-> | Hne].
    + destruct (backs_fun s page _ _ _ _ _ _ (inv_geo _ _ _ Hinv) Hb Hb') as (_ & <- & <-). exists (flags r), (Some pg). split.
      * apply Hbk. rewrite decide_True by done. by rewrite Hk.
      * by rewrite Hcont, fn_lookup_insert.
    + exists fl, y. split; [apply Hbk; by rewrite decide_False by done |]. destruct y as [p |]; [| done].
      pose proof (backs_cnt _ _ _ _ Hb'). rewrite Hcont, fn_lookup_insert_ne; [done |]. intros ->. lia.
  - intros b _. by rewrite Hpt.
Qed.

Lemma frame_pt others k k' s s' page e : fault_frame others k k' s s' page ->
  fault_frame others k k' s (set_pt s' (<[page := e]> (pt s'))) page.
Proof.
  intros [A1 A2 A3 A4]. constructor; try done. intros b Hb. cbn [pt set_pt]. rewrite lookup_insert_ne by done. auto.
Qed.

Lemma page_alloc_cases k : (page_alloc k = (k, None) /\ pool k = []) \/
  exists k1 pg, page_alloc k = (k1, Some pg) /\ pool k <> [] /\ answers k1 = answers k.
Proof. unfold page_alloc. destruct (pool k); [by left | right; by do 2 eexists]. Qed.

(** The three ways a fault in an anonymous region is served. *)
Lemma fault_cow others k s i r page old need : inv others k s -> regions s !! i = Some r -> kind r = UVM_REGION_ANON -> owns r page -> page mod PAGE_SIZE = 0 ->
  0 <= page < 2 ^ 64 -> slots r !! slot_no r page = Some (Some old) -> (need = PTE_R \/ need = PTE_W \/ need = PTE_X) -> has (flags r) need = true ->
  fault_done others k s page need (bool_decide (pool k = []))
    (let (k, pg) := page_alloc k in
     match pg with
     | None => Ret (k, s, - ENOMEM)
     | Some pg =>
         let k := write_page k pg (content k old) in
         let! l := wr (slots r) (Z.of_nat (slot_no r page)) (Some pg) in
         let k := page_put k old in
         let s := set_region s i (set_slots r l) in
         Ret (k, pte_set_leaf s page pg (Z.lor (Z.land (flags r) RWX) PTE_U), 0)
     end).
Proof.
  intros Hinv Hi Hk Ho Hal Hpg Hsl Hneed Hhas. destruct (page_alloc_cases k) as [[-> Hnil] | (k1 & pg & Ha & Hnn & Hans)].
  { do 3 eexists. split; [done |]. split_and!; [done | by apply frame_same | by rewrite bool_decide_true by done | done]. }
  rewrite Ha. rewrite wr_in_range by (apply lookup_lt_Some in Hsl; lia). rewrite Nat2Z.id.
  assert (Hb : backs s page (kind r) (flags r) (Some old)) by (exists r; split_and!; try done; by eapply list_elem_of_lookup_2).
  pose proof (put_slot_spec s i r page (Some old) (Some pg) (inv_geo _ _ _ Hinv) (inv_regions _ _ _ Hinv) Hi Ho Hal Hsl) as Hps.
  change (set_region s i (set_slots r (<[slot_no r page := Some pg]> (slots r)))) with (put_slot s i r page (Some pg)).
  unfold pte_set_leaf. rewrite round_down_page by done.
  destruct (alloc_spec _ _ _ _ _ Hinv Ha) as (Hpool & Hpref & Hcont & Hoth & Hcnt & H0 & _).
  do 3 eexists. split; [done |]. split_and!; [| | by rewrite bool_decide_false by done |].
  - apply (inv_copy others k k1 s _ r); try done. split; [done |]. flag_bits. done.
  - apply frame_pt, (frame_fresh others k k1 _ s _ r page (Some old) pg); try done.
    destruct (put_spec (write_page k1 pg (content k1 old)) old) as (_ & -> & _); [| cbn; by rewrite Hcont].
    cbn. rewrite Hpref. pose proof (backs_cnt s page (flags r) old ltac:(by rewrite <- Hk)).
    rewrite fn_lookup_insert_ne by (intros ->; lia). pose proof (inv_count _ _ _ Hinv old). pose proof (inv_others _ _ _ Hinv old). lia.
  - intros _. do 2 eexists. split; [apply lookup_insert_eq |]. destruct Hneed as [-> | [-> | ->]]; flag_bits; by rewrite Hhas.
Qed.

Lemma fault_fill others k s i r page need : inv others k s -> regions s !! i = Some r -> kind r = UVM_REGION_ANON -> owns r page -> page mod PAGE_SIZE = 0 ->
  0 <= page < 2 ^ 64 -> slots r !! slot_no r page = Some None -> (need = PTE_R \/ need = PTE_W \/ need = PTE_X) -> has (flags r) need = true ->
  fault_done others k s page need (bool_decide (pool k = []) || no_table k s page)
    (let (k, pg) := page_alloc k in
     match pg with
     | None => Ret (k, s, - ENOMEM)
     | Some pg =>
         let k := write_page k pg (fun _ => 0) in
         let! l := wr (slots r) (Z.of_nat (slot_no r page)) (Some pg) in
         fault_fin k (set_region s i (set_slots r l)) page (flags r) pg
     end).
Proof.
  intros Hinv Hi Hk Ho Hal Hpg Hsl Hneed Hhas. destruct (page_alloc_cases k) as [[-> Hnil] | (k1 & pg & Ha & Hnn & Hans)].
  { do 3 eexists. split; [done |]. split_and!; [done | by apply frame_same | by rewrite bool_decide_true by done | done]. }
  rewrite Ha. rewrite wr_in_range by (apply lookup_lt_Some in Hsl; lia). rewrite Nat2Z.id.
  assert (Hb : backs s page (kind r) (flags r) None) by (exists r; split_and!; try done; by eapply list_elem_of_lookup_2).
  pose proof (put_slot_spec s i r page None (Some pg) (inv_geo _ _ _ Hinv) (inv_regions _ _ _ Hinv) Hi Ho Hal Hsl) as Hps.
  change (set_region s i (set_slots r (<[slot_no r page := Some pg]> (slots r)))) with (put_slot s i r page (Some pg)).
  destruct (alloc_spec _ _ _ _ _ Hinv Ha) as (Hpool & Hpref & Hcont & Hoth & Hcnt & H0 & _).
  pose proof (inv_fill others k k1 s _ r page pg (fun _ => 0) Hinv Ha Hk Hb Hps) as Hinv1.
  pose proof (frame_fresh others k k1 (write_page k1 pg (fun _ => 0)) s _ r page None pg Hinv Ha Hk Hb Hps ltac:(cbn; by rewrite Hcont)) as Hfr1.
  assert (Hb1 : backs (put_slot s i r page (Some pg)) page UVM_REGION_ANON (flags r) (Some pg)) by (apply Hps; by rewrite decide_True, Hk by done).
  assert (Hnone : pt s !! page = None).
  { destruct (pt s !! page) as [[q f] |] eqn:E; [| done]. destruct (inv_pte _ _ _ Hinv _ _ _ E) as [Hst | (kd & fl & x & Hb' & Hfit)].
    - by apply (not_stack s page _ _ _ (inv_geo _ _ _ Hinv) Hb) in Hst.
    - destruct (backs_fun s page _ _ _ _ _ _ (inv_geo _ _ _ Hinv) Hb Hb') as (<- & <- & <-). rewrite Hk in Hfit. by destruct Hfit. }
  destruct (fin_spec others _ _ page _ (flags r) _ pg need Hinv1 Hb1) as (k' & s' & e & E & Hi' & Hf' & He & Hdone); try done.
  { intros _ _. unfold uvm_pte_is_cow, lookup_pte. rewrite round_down_page by done. rewrite (ps_pt _ _ _ _ _ _ Hps). by rewrite Hnone. }
  exists k', s', e. split_and!; try done; [eapply frame_trans; [| exact Hfr1 | exact Hf']; right; exists pg; split; [done |]; by eapply backs_cnt |].
  rewrite bool_decide_false by done. rewrite He. unfold no_table, uvm_page_is_mapped, lookup_pte, kalloc. cbn [write_page set_pages answers].
  rewrite (ps_pt _ _ _ _ _ _ Hps), Hans. by destruct (answers k).
Qed.

(** What becomes of a fault: the space stays well formed and the rest of the system
    as [fault_frame] says; on success the entry grants the access.  The result is
    EFAULT for an address of no region, EACCES for an access that its region
    forbids, and for one that it permits EFAULT when the page of the file is not
    there, ENOMEM exactly when a page or a table is wanted and cannot be had, and
    0 otherwise. *)
Definition fault_outcome (others : Z -> Z) (k : kstate) (s : uvm_space) (page : Z) (write instr : bool) (r : res (kstate * uvm_space * Z)) : Prop :=
  exists k' s' e, r = Ret (k', s', e) /\ inv others k' s' /\ fault_frame others k k' s s' page /\
    (e = 0 -> exists p f, pt s' !! page = Some (p, f) /\ has f (needs write instr) = true) /\
    (forall kd fl x, backs s page kd fl x ->
       e = if negb (has fl (needs write instr)) then - EACCES
           else if bool_decide (kd = UVM_REGION_SHARED_FILE /\ x = None) then - EFAULT
           else if lacks_memory k s page write kd x then - ENOMEM else 0) /\
    ((forall kd fl x, ~ backs s page kd fl x) -> e = - EFAULT).

Lemma handle_fault_spec cp_page others k s a write instr : inv others k s -> 0 <= a < 2 ^ 64 -> ~ owns (stack s) (page_of a) ->
  fault_outcome others k s (page_of a) write instr (uvm_handle_fault cp_page k s a write instr).
Proof.
  intros Hinv Ha Hst. set (page := page_of a) in *. assert (Hpage : page = a - a mod PAGE_SIZE) by (by apply page_of_spec).
  assert (Hal : page mod PAGE_SIZE = 0) by (unfold PAGE_SIZE in *; zdm). assert (Hpg : 0 <= page < 2 ^ 64) by (unfold PAGE_SIZE in *; zdm).
  assert (Hg := inv_geo _ _ _ Hinv).
  assert (Hsame : fault_frame others k k s s page) by (by apply frame_same).
  assert (Hnot : (forall r, r ∈ regions s -> ~ owns r page) -> fault_outcome others k s page write instr (Ret (k, s, - EFAULT))).
  { intros Hno. do 3 eexists. split; [done |]. split_and!; try done. intros kd fl x (r & Hr & Ho & _). by apply Hno in Hr. }
  unfold uvm_handle_fault. fold (page_of a) page. destruct (Z.ltb_spec USER_SPACE_SIZE_MAX a) as [Hbig | Hsmall].
  { apply Hnot. intros r Hr [H1 H2]. destruct (geo_regions s Hg) as (_ & _ & Hpl). rewrite list.Forall_forall in Hpl.
    pose proof (pl_high _ (Hpl r Hr)). unfold USER_SPACE_SIZE_MAX, PAGE_SIZE in *. zdm. }
  pose proof (find_region_spec s page Hg ltac:(unfold PAGE_SIZE in *; zdm) Hst) as Hfind. destruct (find_region_containing s page) as [i |]; [| by apply Hnot].
  destruct Hfind as (r & Hi & -> & Ho). pose proof (list_elem_of_lookup_2 _ _ _ Hi) as Hr.
  assert (Hok : region_ok r) by (pose proof (inv_regions _ _ _ Hinv) as H; rewrite list.Forall_forall in H; auto).
  pose proof (slot_in_range r page Hok Ho Hal) as Hslot.
  assert (Hidx : Z.shiftr (u64 (page - addr r)) PAGE_SHIFT = Z.of_nat (slot_no r page)).
  { unfold slot_no, PAGE_SHIFT, PAGE_SIZE. destruct Ho. destruct (ro_placed _ Hok). rewrite u64_small, Z.shiftr_div_pow2 by lia. change (2 ^ 12) with 4096. rewrite Z2Nat.id; [done | apply Z.div_pos; lia]. }
  rewrite Hidx. destruct (Z.leb_spec (nr_pages r) (Z.of_nat (slot_no r page))); [unfold nr_pages in *; lia |].
  fold (needs write instr). rewrite land_need. destruct (lookup_lt_is_Some_2 _ _ Hslot) as [x Hx].
  assert (Hb : backs s page (kind r) (flags r) x) by (by exists r).
  assert (Huniq : forall kd fl y, backs s page kd fl y -> kd = kind r /\ fl = flags r /\ y = x)
    by (intros kd fl y Hb'; destruct (backs_fun s page _ _ _ _ _ _ Hg Hb Hb') as (-> & -> & ->); done).
  destruct (has (flags r) (needs write instr)) eqn:Ehas; cbn [negb].
  2: { do 3 eexists. split; [done |]. split_and!; try done; [| intros Hno; by apply Hno in Hb].
       intros kd fl y Hb'. destruct (Huniq _ _ _ Hb') as (_ & -> & _). by rewrite Ehas. }
  assert (Hrd : rd (slots r) (Z.of_nat (slot_no r page)) = Ret x) by (apply rd_ret; split; [lia | by rewrite Nat2Z.id]). rewrite Hrd.
  assert (Hfinish : forall lack res, ~ (kind r = UVM_REGION_SHARED_FILE /\ x = None) -> lack = lacks_memory k s page write (kind r) x ->
    fault_done others k s page (needs write instr) lack res -> fault_outcome others k s page write instr res).
  { intros lack res Hnf -> (k' & s' & e & -> & H1 & H2 & H3 & H4). exists k', s', e. split_and!; try done; [| intros Hno; by apply Hno in Hb].
    intros kd fl y Hb'. destruct (Huniq _ _ _ Hb') as (-> & -> & ->). rewrite Ehas, bool_decide_false by done. done. }
  pose proof (needs_cases write instr) as Hneed.
  destruct (write && bool_decide (kind r = UVM_REGION_ANON) && uvm_pte_is_cow s page) eqn:Ecow.
  - apply andb_true_iff in Ecow as [Ew Ec]. apply andb_true_iff in Ew as [Ew Ek]. apply bool_decide_eq_true in Ek.
    assert (exists old, x = Some old) as [old ->].
    { unfold uvm_pte_is_cow, lookup_pte in Ec. rewrite round_down_page in Ec by done. destruct (pt s !! page) as [[q f] |] eqn:E; [| done].
      destruct (inv_pte _ _ _ Hinv _ _ _ E) as [? | (kd & fl & y & Hb' & Hfit)]; [done |]. destruct (Huniq _ _ _ Hb') as (-> & -> & ->). rewrite Ek in Hfit. destruct Hfit as [-> _]. by eexists. }
    assert (Hmap : no_table k s page = false).
    { unfold no_table, uvm_page_is_mapped. unfold uvm_pte_is_cow in Ec. by destruct (lookup_pte s page) as [[]|]. }
    eapply (Hfinish (bool_decide (pool k = []))); [by rewrite Ek; intros [? _] | | by apply fault_cow].
    unfold lacks_memory. rewrite Ek, Hmap. cbn [wants_page]. rewrite Ew, Ec, orb_false_r. done.
  - assert (Hnc : needs write instr = PTE_W -> kind r = UVM_REGION_ANON -> uvm_pte_is_cow s page = false).
    { intros Hn Hk. rewrite bool_decide_true in Ecow by done. unfold needs in Hn. destruct instr; [done |]. destruct write; [| done]. done. }
    destruct (kind r) eqn:Ek; destruct x as [p |].
    + eapply (Hfinish (no_table k s page)); [by intros [? _] | | by eapply (fin_spec others k s page)].
      unfold lacks_memory. cbn [wants_page]. rewrite bool_decide_true, andb_true_r in Ecow by done. by rewrite Ecow.
    + eapply (Hfinish (bool_decide (pool k = []) || no_table k s page)); [by intros [? _] | done | by apply fault_fill].
    + eapply (Hfinish (no_table k s page)); [by intros [_ ?] | done | by eapply (fin_spec others k s page)].
    + do 3 eexists. split; [done |]. split_and!; try done.
      intros kd fl y Hb'. destruct (Huniq _ _ _ Hb') as (-> & -> & ->). by rewrite Ehas.
Qed.

(** C25: a page fault at an address outside the stack always returns and keeps
    the space well formed.  No address of anonymous memory reads anything else
    than before, no page that another space holds is touched, and on success the
    entry grants the access.  The result is exactly: EFAULT for an address of no
    region, EACCES for an access that its region forbids; for a permitted one
    EFAULT when the page of a shared file is not cached, ENOMEM when a page is
    wanted (the slot is untouched, or the entry is marked copy on write and the
    access is a store) and none is free, or when there is no entry yet and no
    table for it to be had, and otherwise 0. *)
Theorem uvm_handle_fault_correct cp_page others k s a write instr : inv others k s -> 0 <= a < 2 ^ 64 -> ~ owns (stack s) (page_of a) ->
  fault_outcome others k s (page_of a) write instr (uvm_handle_fault cp_page k s a write instr).
Proof. apply handle_fault_spec. Qed.

(** ** Stores *)

(** A store instruction of the user: through the entry if that is writable, else
    after a fault. *)
Definition user_store (cp_page : Z -> Z) (k : kstate) (s : uvm_space) (a v : Z) : res (kstate * uvm_space * Z) :=
  let hit (k : kstate) (s : uvm_space) (p : Z) := write_page k p (<[a mod PAGE_SIZE := v]> (content k p)) in
  let retry : res (kstate * uvm_space * Z) :=
    let! r := uvm_handle_fault cp_page k s a true false in
    let '(k, s, e) := r in
    if negb (e =? 0) then Ret (k, s, e)
    else
      match pt s !! page_of a with
      | Some (p, f) => if has f PTE_W then Ret (hit k s p, s, 0) else Halt Fault
      | None => Halt Fault
      end in
  match pt s !! page_of a with
  | Some (p, f) => if has f PTE_W then Ret (hit k s p, s, 0) else retry
  | None => retry
  end.

(** A page in two slots is counted twice. *)
Lemma backs_two s a b fl fl' p : space_geo s -> Forall region_ok (regions s) -> a <> b ->
  backs s a UVM_REGION_ANON fl (Some p) -> backs s b UVM_REGION_ANON fl' (Some p) -> 2 <= cnt (regions s) p.
Proof.
  intros Hg Hok Hne (r & Hr & Ho & Ha & Hs & Hk & Hf) Hb. apply list_elem_of_lookup in Hr as [i Hi].
  pose proof (put_slot_spec s i r a (Some p) None Hg Hok Hi Ho Ha Hs) as Hps.
  assert (Hb' : backs (put_slot s i r a None) b UVM_REGION_ANON fl' (Some p)) by (apply Hps; by rewrite decide_False by done).
  pose proof (backs_cnt _ _ _ _ Hb') as H1. rewrite (ps_cnt _ _ _ _ _ _ Hps p), Hk in H1. rewrite bool_decide_false, bool_decide_true in H1 by done. cbn [one_if] in H1. lia.
Qed.

(** Writing through a writable entry. *)
Lemma store_through others k s a p f c v : inv others k s -> 0 <= a < 2 ^ 64 -> reads k s (page_of a) c -> pt s !! page_of a = Some (p, f) -> has f PTE_W = true ->
  let k' := write_page k p (<[a mod PAGE_SIZE := v]> (content k p)) in
  inv others k' s /\ (forall q, 0 < others q -> content k' q = content k q) /\
  reads k' s (page_of a) (<[a mod PAGE_SIZE := v]> c) /\ forall b d, b <> page_of a -> reads k s b d -> reads k' s b d.
Proof.
  intros Hinv Ha (fl & x & Hb & ->) Hpt Hw k'. assert (Hg := inv_geo _ _ _ Hinv).
  destruct (inv_pte _ _ _ Hinv _ _ _ Hpt) as [Hst | (kd & fl' & x' & Hb' & Hfit)]; [by apply (not_stack s _ _ _ _ Hg Hb) in Hst |].
  destruct (backs_fun s _ _ _ _ _ _ _ Hg Hb Hb') as (<- & <- & <-). destruct Hfit as [-> Hfit]. destruct (Hfit Hw) as [Hwf Hc].
  assert (H1 : prefs k p = 1) by (apply (inv_excl _ _ _ Hinv _ _ _ Hb); unfold writable_as_is; by rewrite Hpt).
  pose proof (inv_count _ _ _ Hinv p). pose proof (inv_others _ _ _ Hinv p). pose proof (backs_cnt _ _ _ _ Hb). split_and!.
  - by apply (inv_same others k).
  - intros q Hq. apply fn_lookup_insert_ne. intros ->. lia.
  - exists fl, (Some p). split; [done |]. symmetry. apply fn_lookup_insert.
  - intros b d Hne (fl2 & y & Hb2 & ->). exists fl2, y. split; [done |]. destruct y as [q |]; [| done]. symmetry. apply fn_lookup_insert_ne. intros ->.
    pose proof (backs_two s b (page_of a) _ _ _ Hg (inv_regions _ _ _ Hinv) Hne Hb2 Hb). lia.
Qed.

(** A store, and which pages it may take. *)
Lemma user_store_spec cp_page others k s a v c : inv others k s -> 0 <= a < 2 ^ 64 -> ~ owns (stack s) (page_of a) -> reads k s (page_of a) c ->
  exists k' s' e, user_store cp_page k s a v = Ret (k', s', e) /\ inv others k' s' /\
    (forall p, 0 < others p -> content k' p = content k p) /\
    (forall b d, b <> page_of a -> reads k s b d -> reads k' s' b d) /\
    reads k' s' (page_of a) (if e =? 0 then <[a mod PAGE_SIZE := v]> c else c) /\
    (e = 0 \/ e = - ENOMEM \/ e = - EACCES) /\ forall p, p ∉ pool k -> cnt (regions s') p <= cnt (regions s) p.
Proof.
  intros Hinv Ha Hst Hr. unfold user_store.
  assert (Hthrough : forall p f, pt s !! page_of a = Some (p, f) -> has f PTE_W = true ->
    exists k' s' e, Ret (write_page k p (<[a mod PAGE_SIZE := v]> (content k p)), s, 0) = Ret (k', s', e) /\ inv others k' s' /\
      (forall p, 0 < others p -> content k' p = content k p) /\ (forall b d, b <> page_of a -> reads k s b d -> reads k' s' b d) /\
      reads k' s' (page_of a) (if e =? 0 then <[a mod PAGE_SIZE := v]> c else c) /\ (e = 0 \/ e = - ENOMEM \/ e = - EACCES) /\ forall p, p ∉ pool k -> cnt (regions s') p <= cnt (regions s) p).
  { intros p f Hpt Hw. destruct (store_through others k s a p f c v Hinv Ha Hr Hpt Hw) as (H1 & H2 & H3 & H4). do 3 eexists. split; [done |]. split_and!; auto. intros q _. lia. }
  destruct (pt s !! page_of a) as [[p f] |] eqn:Ept; [destruct (has f PTE_W) eqn:Ew; [by apply (Hthrough p f) |] |]; clear Hthrough.
  all: destruct (handle_fault_spec cp_page others k s a true false Hinv Ha Hst) as (k1 & s1 & e & -> & Hinv1 & [F1 F2 F3 _] & Hdone & Herr & _);
    destruct Hr as (fl & x & Hb & Hc); specialize (Herr _ fl x Hb); assert (Hr1 : reads k1 s1 (page_of a) c) by (apply F3; by exists fl, x);
    (destruct (Z.eqb_spec e 0) as [-> | Hne]; cbn [negb];
     [| exists k1, s1, e; split; [done |]; split_and!; auto; [destruct (Z.eqb_spec e 0); [done | exact Hr1] | destruct (has fl _); cbn [negb] in Herr; [rewrite bool_decide_false in Herr by (by intros [? _]); destruct (lacks_memory _ _ _ _ _ _) |]; auto]]);
    destruct (Hdone eq_refl) as (q & g & Hq & Hg); rewrite Hq; change (has g (needs true false)) with (has g PTE_W) in Hg; rewrite Hg;
    destruct (store_through others k1 s1 a q g c v Hinv1 Ha Hr1 Hq Hg) as (H1 & H2 & H3 & H4);
    do 3 eexists; (split; [done |]); split_and!; auto; intros p0 Hp0; rewrite H2, F1 by done; done.
Qed.

(** A store to anonymous memory takes effect at its address, changes what no
    other address of the space reads, and never a page that another space holds;
    it fails only without permission or memory, and then changes nothing that is
    read. *)
Theorem user_store_private cp_page others k s a v c : inv others k s -> 0 <= a < 2 ^ 64 -> ~ owns (stack s) (page_of a) -> reads k s (page_of a) c ->
  exists k' s' e, user_store cp_page k s a v = Ret (k', s', e) /\ inv others k' s' /\
    (forall p, 0 < others p -> content k' p = content k p) /\
    (forall b d, b <> page_of a -> reads k s b d -> reads k' s' b d) /\
    reads k' s' (page_of a) (if e =? 0 then <[a mod PAGE_SIZE := v]> c else c) /\
    (e = 0 \/ e = - ENOMEM \/ e = - EACCES).
Proof. intros Hinv Ha Hst Hr. destruct (user_store_spec cp_page others k s a v c Hinv Ha Hst Hr) as (k' & s' & e & H). exists k', s', e. naive_solver. Qed.

(** ** The pages of a region *)

Lemma cnt_slots_le l p : cnt_slots l p <= Z.of_nat (length l).
Proof. induction l as [| x l IH]; cbn [cnt_slots length]; [lia |]. unfold one_if. destruct (bool_decide (x = Some p)); lia. Qed.

Lemma cnt_slots_none n p : cnt_slots (replicate n None) p = 0.
Proof. induction n as [| n IH]; [done |]. cbn [replicate cnt_slots]. rewrite IH, bool_decide_false by done. done. Qed.

(** The address of page [j] of a region. *)
Definition pa (r : uvm_region) (j : nat) : Z := addr r + PAGE_SIZE * Z.of_nat j.

Lemma pa_spec r j : region_ok r -> (j < length (slots r))%nat ->
  u64 (addr r + u64 (Z.of_nat j * PAGE_SIZE)) = pa r j /\ owns r (pa r j) /\ pa r j mod PAGE_SIZE = 0 /\ slot_no r (pa r j) = j /\
  0 <= pa r j < 2 ^ 64 /\ round_down (pa r j) PAGE_SIZE = pa r j.
Proof.
  intros [[H0 H1 H2 H3 _] Hs _] Hj. unfold nr_pages in Hs. assert (Hb : 0 <= pa r j < USER_SPACE_SIZE_MAX) by (unfold pa, PAGE_SIZE in *; lia).
  assert (Ha : pa r j mod PAGE_SIZE = 0) by (unfold pa, PAGE_SIZE in *; zdm). unfold USER_SPACE_SIZE_MAX, PAGE_SIZE in Hb, H2. split_and!.
  - unfold pa, PAGE_SIZE in *. rewrite (u64_small (Z.of_nat j * 4096)) by lia. rewrite u64_small by lia. lia.
  - unfold owns, pa, PAGE_SIZE in *. lia.
  - done.
  - unfold slot_no, pa, PAGE_SIZE. replace (addr r + 4096 * Z.of_nat j - addr r) with (Z.of_nat j * 4096) by lia. rewrite Z.div_mul by lia. lia.
  - lia.
  - lia.
  - apply round_down_page; [lia | done].
Qed.

Lemma pa_inj r j j' : pa r j = pa r j' -> j = j'.
Proof. unfold pa, PAGE_SIZE. lia. Qed.

(** ** A small space *)

(** Two pages at 0x10000, readable and writable, the first one resident. *)
Definition region_w : uvm_region := mk_region 0x10000 8192 [Some 7; None] 6 UVM_REGION_ANON 0 0 0.
Definition space_w : uvm_space := mk_space {[0x10000 := (7, 22)]} [region_w] uvm_region_new uvm_region_new 0 0.
Definition kernel_w : kstate :=
  mk_k [1; 2; 3] (fun p => one_if (p =? 7)) (fun p _ => p) (replicate 20 true) (fun _ => 0) (fun _ => false) (fun _ => 0) (fun _ => 0).

Lemma geo_w : space_geo space_w.
Proof.
  constructor; [| | done | done].
  - repeat constructor; done.
  - split; [| split; [| repeat constructor]]; repeat constructor; intros b [H1 H2] [H3 H4]; cbn in *; lia.
Qed.

Lemma backs_w a kd fl x : backs space_w a kd fl x -> kd = UVM_REGION_ANON /\ fl = 6 /\ (a = 0x10000 /\ x = Some 7 \/ a = 0x11000 /\ x = None).
Proof.
  intros (r & Hr & [H1 H2] & Hal & Hs & <- & <-). apply elem_of_cons in Hr as [-> | ->%list_elem_of_singleton]; [| cbn in *; lia]. cbn [kind flags region_w]. split_and!; [done | done |].
  cbn in H1, H2. assert (Ha : a = 0x10000 \/ a = 0x11000) by (unfold PAGE_SIZE in Hal; zdm). destruct Ha as [-> | ->]; [left | right]; (split; [done |]); vm_compute in Hs; congruence.
Qed.

Lemma inv_w : inv (fun _ => 0) kernel_w space_w.
Proof.
  constructor; try done.
  - apply geo_w.
  - repeat constructor; done.
  - split; [repeat (constructor; [set_solver |]); constructor |]. intros p Hp. cbn in *. unfold one_if. destruct (Z.eqb_spec p 7); [set_solver | done].
  - intros p. cbn. unfold one_if. repeat case_bool_decide; destruct (Z.eqb_spec p 7); simplify_eq; try done.
  - intros a p f H. change (({[0x10000 := (7, 22)]} : gmap Z (Z * Z)) !! a = Some (p, f)) in H. apply lookup_singleton_Some in H as [<- [= <- <-]]. right. exists UVM_REGION_ANON, 6, (Some 7). split; [| split; [done | intros _; split; done]]. exists region_w. split_and!; try done. left.
  - intros a fl p H _. apply backs_w in H as (_ & _ & [[_ [= ->]] | [_ [=]]]). done.
Qed.

Lemma reads_w : reads kernel_w space_w 0x10000 (fun _ => 7).
Proof. exists 6, (Some 7). split; [| done]. exists region_w. split_and!; try done. left. Qed.

(** Reads the error of a concrete call off its equation. *)
Ltac err_of E := apply (f_equal (fun r => match r with Ret x => Some (snd x) | Halt _ => None end)) in E; vm_compute in E; congruence.

Lemma uvm_mmap_anon_witness : exists k' s' e a, uvm_mmap_anon kernel_w space_w 0 5000 3 0x22 0 = Ret (k', s', e, a) /\ e = 0 /\
  seg s' = [region_w; anon_region a 8192 3] /\ addr region_w + size region_w <= a.
Proof.
  destruct (uvm_mmap_anon_correct kernel_w space_w 0 5000 3 0x22 0 geo_w ltac:(lia) ltac:(lia)) as (k' & s' & e & a & E & _ & _ & _ & H).
  exists k', s', e, a. assert (Hea : match uvm_mmap_anon kernel_w space_w 0 5000 3 0x22 0 with Ret (_, _, e, a) => Some (e, a) | Halt _ => None end = Some (0, 274876710912)) by (vm_compute; reflexivity).
  rewrite E in Hea. injection Hea as He Ha. split; [exact E |]. split; [exact He |]. destruct (H He) as (H1 & _). split; [exact H1 | rewrite Ha; vm_compute; discriminate].
Defined.

Lemma uvm_handle_fault_witness : exists k' s', uvm_handle_fault id kernel_w space_w 0x11008 true false = Ret (k', s', 0) /\ inv (fun _ => 0) k' s' /\
  reads k' s' 0x10000 (fun _ => 7).
Proof.
  assert (Hst : ~ owns (stack space_w) (page_of 0x11008)) by (intros [H1 H2]; vm_compute in H2; discriminate).
  destruct (uvm_handle_fault_correct id (fun _ => 0) kernel_w space_w 0x11008 true false inv_w ltac:(lia) Hst) as (k' & s' & e & E & H1 & H2 & _).
  exists k', s'. assert (e = 0) as -> by (err_of E). split; [exact E |]. split; [exact H1 | apply (ff_reads _ _ _ _ _ _ H2), reads_w].
Defined.

Lemma user_store_witness : exists k' s', user_store id kernel_w space_w 0x10005 42 = Ret (k', s', 0) /\ reads k' s' 0x10000 (<[5 := 42]> (fun _ => 7)).
Proof.
  assert (Hst : ~ owns (stack space_w) (page_of 0x10005)) by (intros [H1 H2]; vm_compute in H2; discriminate).
  destruct (user_store_private id (fun _ => 0) kernel_w space_w 0x10005 42 (fun _ => 7) inv_w ltac:(lia) Hst reads_w) as (k' & s' & e & E & _ & _ & _ & H & _).
  exists k', s'. assert (e = 0) as -> by (err_of E). split; [exact E | exact H].
Defined.
