(* ===== verification/UvmUnmap.v ===== *)
(** * Giving memory back: munmap of mm/mmap.c, region release of mm/mm.c

    What [uvm_munmap] does to the regions, the page table and the pages of a
    space that satisfies the invariant of [Uvm]. *)

From S2P Require Import Prelude Refcnt Uvm.

(** ** Unmapping *)

(** One turn of the loop: what takes the place of [r] in the list, or the error.
    [right] is allocated before anything is undone. *)
Definition munmap_one (k : kstate) (s : uvm_space) (r : uvm_region) (a e : Z) : res (kstate * uvm_space * (list uvm_region + Z)) :=
  let rstart := addr r in
  let rend := u64 (rstart + size r) in
  if (rend <=? a) || (e <=? rstart) then Ret (k, s, inl [r])
  else
    let lo := if rstart <? a then a else rstart in
    let hi := if e <? rend then e else rend in
    let off := Z.shiftr (lo - rstart) PAGE_SHIFT in
    let nr := Z.shiftr (hi - lo) PAGE_SHIFT in
    if nr =? 0 then Ret (k, s, inl [r])
    else
      let split := negb (lo =? rstart) && negb (hi =? rend) in
      let shared := bool_decide (kind r = UVM_REGION_SHARED_FILE) in
      let '(k, ok) := (if split then let (k, ok) := uvm_region_alloc k in if ok then kalloc k else (k, false) else (k, true)) in
      if negb ok then Ret (k, s, inr (- ENOMEM))
      else
        let s := uvm_region_unmap_range s r off nr in
        if (lo =? rstart) && (hi =? rend) then
          let! k := uvm_region_release k r in Ret (k, s, inl [])
        else
          let! kr := uvm_region_free_range k r off nr in
          let (k, r) := kr in
          if lo =? rstart then
            Ret (k, s, inl [mk_region hi (size r - nr * PAGE_SIZE) (drop (Z.to_nat nr) (slots r)) (flags r) (kind r) (inode r) (file r)
                              (if shared then file_offset r + nr * PAGE_SIZE else file_offset r)])
          else if hi =? rend then
            Ret (k, s, inl [mk_region (addr r) (size r - nr * PAGE_SIZE) (take (Z.to_nat (nr_pages r - nr)) (slots r)) (flags r) (kind r) (inode r) (file r) (file_offset r)])
          else
            let k := if shared then fs_file_get (fs_inode_get k (inode r)) (file r) else k in
            let right := mk_region hi (rend - hi) (drop (Z.to_nat (off + nr)) (slots r)) (flags r) (kind r)
                           (if shared then inode r else 0) (if shared then file r else 0) (file_offset r + (hi - rstart)) in
            Ret (k, s, inl [mk_region (addr r) (lo - rstart) (take (Z.to_nat off) (slots r)) (flags r) (kind r) (inode r) (file r) (file_offset r); right]).

(** [list_for_each_entry_safe] over [l]: the new list and the error, or 0. *)
Fixpoint munmap_loop (k : kstate) (s : uvm_space) (l : list uvm_region) (a e : Z) : res (kstate * uvm_space * list uvm_region * Z) :=
  match l with
  | [] => Ret (k, s, [], 0)
  | r :: l' =>
      let! one := munmap_one k s r a e in
      let '(k, s, out) := one in
      match out with
      | inr err => Ret (k, s, l, err)
      | inl new =>
          let! rest := munmap_loop k s l' a e in
          let '(k, s, l', err) := rest in
          Ret (k, s, new ++ l', err)
      end
  end.

Definition uvm_munmap (k : kstate) (s : uvm_space) (a len : Z) : res (kstate * uvm_space * Z) :=
  if len =? 0 then Ret (k, s, - EINVAL)
  else if negb (Z.land a (PAGE_SIZE - 1) =? 0) then Ret (k, s, - EINVAL)
  else
    let sz := page_round len in
    if (USER_SPACE_SIZE_MAX <? a) || (USER_SPACE_SIZE_MAX - a <? sz) then Ret (k, s, - EINVAL)
    else
      let! r := munmap_loop k s (seg s) a (a + sz) in
      let '(k, s, l, err) := r in
      Ret (k, set_seg s l, err).

(** [list_for_each_entry_safe]: unmap and release. *)
Fixpoint free_list_loop (k : kstate) (s : uvm_space) (l : list uvm_region) : res (kstate * uvm_space) :=
  match l with
  | [] => Ret (k, s)
  | curr :: l' =>
      let s := uvm_region_unmap_range s curr 0 (nr_pages curr) in
      let! k := uvm_region_release k curr in
      free_list_loop k s l'
  end.

Definition uvm_space_free_segments (k : kstate) (s : uvm_space) : res (kstate * uvm_space) :=
  let! r := free_list_loop k s (seg s) in
  let (k, s) := r in Ret (k, set_seg s []).

(** ** Giving pages back *)

Lemma cnt_slots_take l n p : cnt_slots l p = cnt_slots (take n l) p + cnt_slots (drop n l) p.
Proof. rewrite <- cnt_slots_app. by rewrite take_drop. Qed.

(** The page addresses of slots [n] to [n + m]. *)
Definition in_pages (r : uvm_region) (n m : nat) (b : Z) : bool := (pa r n <=? b) && (b <? pa r (n + m)) && (b mod PAGE_SIZE =? 0).

Lemma region_unmap_loop_spec r (m : nat) : forall s n, region_ok r -> (n + m <= length (slots r))%nat ->
  exists t, unmap_range_loop s r (Z.of_nat n) m = set_pt s t /\ forall b, t !! b = if in_pages r n m b then None else pt s !! b.
Proof.
  induction m as [| m IH]; intros s n Hr Hm; cbn [unmap_range_loop].
  { exists (pt s). split; [by destruct s |]. intros b. unfold in_pages. rewrite Nat.add_0_r. destruct (Z.leb_spec (pa r n) b), (Z.ltb_spec b (pa r n)); (done || lia). }
  destruct (pa_spec r n Hr) as (Hpa & Ho & Ha & _ & _ & Hrd); [lia |]. rewrite Hpa. replace (Z.of_nat n + 1) with (Z.of_nat (S n)) by lia.
  set (s1 := if uvm_page_is_mapped s (pa r n) then unmap_user_page s (pa r n) else s).
  assert (H1 : s1 = set_pt s (pt s1) /\ forall b, pt s1 !! b = if decide (b = pa r n) then None else pt s !! b).
  { unfold s1, uvm_page_is_mapped, unmap_user_page, pte_clear, lookup_pte. rewrite Hrd. destruct (pt s !! pa r n) eqn:E; cbn [pt set_pt].
    - split; [done |]. intros b. destruct (decide (b = pa r n)) as [-> |]; [apply lookup_delete_eq | by rewrite lookup_delete_ne by done].
    - split; [by destruct s |]. intros b. destruct (decide (b = pa r n)) as [-> |]; done. }
  destruct H1 as [E1 Hpt]. destruct (IH s1 (S n) Hr) as (t & -> & Ht); [lia |]. exists t. split; [by rewrite E1 |].
  intros b. rewrite Ht, Hpt. unfold in_pages. replace (S n + m)%nat with (n + S m)%nat by lia.
  assert (pa r (S n) = pa r n + PAGE_SIZE) by (unfold pa, PAGE_SIZE; lia). assert (pa r (S n) <= pa r (n + S m)) by (unfold pa, PAGE_SIZE; lia).
  destruct (decide (b = pa r n)) as [-> | Hne].
  - rewrite Ha, Z.eqb_refl. destruct (Z.leb_spec (pa r n) (pa r n)), (Z.ltb_spec (pa r n) (pa r (n + S m))); unfold PAGE_SIZE in *; try lia. cbn [andb].
    by destruct (_ && _).
  - destruct (Z.leb_spec (pa r (S n)) b), (Z.leb_spec (pa r n) b), (Z.ltb_spec b (pa r (n + S m))), (Z.eqb_spec (b mod PAGE_SIZE) 0); cbn [andb]; try done; unfold PAGE_SIZE in *; try lia; exfalso; zdm.
Qed.

Definition pool_ok (k : kstate) : Prop := NoDup (pool k) /\ forall p, p ∈ pool k -> prefs k p = 0.

Lemma put_pool_ok k p : 0 < prefs k p -> pool_ok k -> pool_ok (page_put k p).
Proof.
  intros Hp [Hnd Hz]. destruct (put_spec k p Hp) as (P1 & _ & P3).
  assert (Hz' : forall q, q ∈ pool k -> prefs (page_put k p) q = 0) by (intros q Hq; rewrite P1, fn_lookup_insert_ne; [auto | intros ->; specialize (Hz _ Hq); lia]).
  unfold pool_ok. rewrite P3. destruct (decide (prefs k p = 1)); [| done]. split.
  - apply list.NoDup_cons. split; [intros Hin; specialize (Hz p Hin); lia | done].
  - intros q [-> | Hq]%elem_of_cons; [rewrite P1, fn_lookup_insert; lia | auto].
Qed.

(** How much freeing a stretch of slots takes from the counts. *)
Definition freed (r : uvm_region) (l : list (option Z)) (p : Z) : Z :=
  match kind r with UVM_REGION_ANON => cnt_slots l p | UVM_REGION_SHARED_FILE => 0 end.

Lemma free_loop_spec (m : nat) : forall k r n, (n + m <= length (slots r))%nat -> pool_ok k ->
  (forall p, freed r (drop n (slots r)) p <= prefs k p) ->
  exists k' l', free_range_loop k r (Z.of_nat n) m = Ret (k', set_slots r l') /\ pool_ok k' /\ content k' = content k /\
    (forall p, prefs k' p = prefs k p - freed r (take m (drop n (slots r))) p) /\
    length l' = length (slots r) /\ take n l' = take n (slots r) /\ drop (n + m) l' = drop (n + m) (slots r).
Proof.
  induction m as [| m IH]; intros k r n Hm Hpool Hle; cbn [free_range_loop].
  { exists k, (slots r). split_and!; try done; [by destruct r | intros p; unfold freed; rewrite take_0; destruct (kind r); cbn [cnt_slots]; lia]. }
  destruct (lookup_lt_is_Some_2 (slots r) n) as [x Hx]; [lia |]. assert (Hrd : rd (slots r) (Z.of_nat n) = Ret x) by (apply rd_ret; split; [lia | by rewrite Nat2Z.id]). rewrite Hrd.
  assert (Hdrop : drop n (slots r) = x :: drop (S n) (slots r)) by (by apply drop_S). rewrite Hdrop in *.
  replace (Z.of_nat n + 1) with (Z.of_nat (S n)) by lia.
  assert (Hhead : forall p, freed r (x :: drop (S n) (slots r)) p = freed r [x] p + freed r (drop (S n) (slots r)) p).
  { intros p. unfold freed. destruct (kind r); [cbn [cnt_slots]; lia | done]. }
  assert (Htail : forall p, freed r (take (S m) (x :: drop (S n) (slots r))) p = freed r [x] p + freed r (take m (drop (S n) (slots r))) p).
  { intros p. unfold freed. destruct (kind r); [cbn [take cnt_slots]; lia | done]. }
  assert (Hnn : forall l p, 0 <= freed r l p) by (intros l p; unfold freed; destruct (kind r); [apply cnt_slots_nonneg | lia]).
  set (k1 := match x with None => k | Some p => match kind r with UVM_REGION_SHARED_FILE => cached_page_put (cached_page_mark_dirty k p) p | UVM_REGION_ANON => page_put k p end end).
  assert (H1 : pool_ok k1 /\ content k1 = content k /\ forall p, prefs k1 p = prefs k p - freed r [x] p).
  { unfold k1, freed. destruct x as [p |]; destruct (kind r) eqn:Ek; cbn [cnt_slots]; try (split_and!; [done | done |]; intros q; rewrite ?bool_decide_false by done; cbn [one_if]; lia); [| split_and!; [done | done | intros; cbn; lia]].
    specialize (Hle p). rewrite Hhead in Hle. pose proof (Hnn (drop (S n) (slots r)) p) as Hge. unfold freed in Hle, Hge. rewrite Ek in Hle, Hge. cbn [cnt_slots] in Hle. rewrite bool_decide_true in Hle by done. cbn [one_if] in Hle.
    destruct (put_spec k p) as (P1 & P2 & _); [lia |]. split_and!; [apply put_pool_ok; [lia | done] | done |]. intros q. rewrite P1.
    destruct (decide (q = p)) as [-> |]; [rewrite fn_lookup_insert, bool_decide_true by done; cbn [one_if]; lia | rewrite fn_lookup_insert_ne, bool_decide_false by congruence; cbn [one_if]; lia]. }
  destruct H1 as (Hp1 & Hc1 & Hf1). set (r1 := match x with None => r | Some _ => set_slots r (<[n := None]> (slots r)) end).
  assert (Hr1 : kind r1 = kind r /\ length (slots r1) = length (slots r) /\ take n (slots r1) = take n (slots r) /\ drop (S n) (slots r1) = drop (S n) (slots r) /\ forall l, set_slots r1 l = set_slots r l).
  { unfold r1. destruct x; [| by split_and!]. cbn [kind slots set_slots]. split_and!; [done | by rewrite length_insert | by rewrite take_insert_ge by lia | by rewrite drop_insert_lt by lia | done]. }
  destruct Hr1 as (Hk1 & Hl1 & Ht1 & Hd1 & Hset).
  assert (Hfr1 : forall l p, freed r1 l p = freed r l p) by (intros; unfold freed; by rewrite Hk1).
  destruct (IH k1 r1 (S n)) as (k' & l' & E & Hp' & Hc' & Hf' & Hl' & Ht' & Hd'); [lia | done | |].
  { intros p. rewrite Hfr1, Hd1, Hf1. specialize (Hle p). rewrite Hhead in Hle. lia. }
  exists k', l'. split.
  - rewrite <- Hset, <- E. unfold k1, r1. destruct x as [p |]; [| done]. rewrite wr_in_range by lia. by rewrite Nat2Z.id.
  - split_and!; [done | congruence | | lia | | ].
    + intros p. rewrite Hf', Hfr1, Hd1, Hf1, Htail. lia.
    + rewrite <- Ht1. apply (f_equal (take n)) in Ht'. rewrite !take_take in Ht'. by replace (n `min` S n)%nat with n in Ht' by lia.
    + replace (n + S m)%nat with (S n + m)%nat by lia. rewrite Hd'. apply (f_equal (drop m)) in Hd1. rewrite !drop_drop in Hd1. by replace (S n + m)%nat with (S n + m)%nat in Hd1 by lia.
Qed.

(** ** Taking pages away *)

(** The addresses [gone] picks are dropped from the space, and their pages from
    the counts. *)
Lemma inv_drop others k k' s s' (gone : Z -> bool) : inv others k s -> space_geo s' -> Forall region_ok (regions s') -> stack s' = stack s ->
  (forall b, pt s' !! b = if gone b then None else pt s !! b) ->
  (forall b kd fl x, backs s' b kd fl x <-> backs s b kd fl x /\ gone b = false) ->
  (forall p, prefs k' p = prefs k p - (cnt (regions s) p - cnt (regions s') p)) -> pool_ok k' ->
  (forall p, cnt (regions s') p <= cnt (regions s) p) -> inv others k' s'.
Proof.
  intros [H1 H2 H3 H4 H5 H6 H7] Hg Hro Hst Hpt Hbk Hpf Hpool Hle. constructor; try done.
  - intros p. rewrite Hpf, H5. lia.
  - intros b p f Hl. rewrite Hpt in Hl. destruct (gone b) eqn:Eg; [done |]. rewrite Hst.
    destruct (H6 b p f Hl) as [? | (kd & fl & x & Hb & Hf)]; [by left | right]. exists kd, fl, x. by rewrite Hbk.
  - intros b fl p Hb Hw. pose proof (backs_cnt _ _ _ _ Hb) as Hc. apply Hbk in Hb as [Hb Hgone].
    assert (Hk : prefs k p = 1) by (apply (H7 b fl p Hb); unfold writable_as_is in *; by rewrite Hpt, Hgone in Hw).
    rewrite Hpf. specialize (H5 p). specialize (H4 p). specialize (Hle p). lia.
Qed.

(** Another space, while pages it does not hold alone come and go. *)
Lemma inv_partner oth oth' k k' t : inv oth k t -> pool_ok k' -> (forall p, 0 <= oth' p) -> (forall p, prefs k' p - prefs k p = oth' p - oth p) ->
  (forall p, 1 <= cnt (regions t) p -> prefs k p = 1 -> prefs k' p = 1) -> inv oth' k' t.
Proof.
  intros [H1 H2 H3 H4 H5 H6 H7] Hpool Ho Hpf Hone. constructor; try done.
  - intros p. specialize (Hpf p). specialize (H5 p). lia.
  - intros b fl p Hb Hw. apply Hone; [by eapply backs_cnt | by eapply H7].
Qed.

(** [q] is what is left of [r] between slots [n] and [m]. *)
Record piece (r : uvm_region) (n m : nat) (q : uvm_region) : Prop := {
  pc_addr : addr q = pa r n;
  pc_size : size q = PAGE_SIZE * Z.of_nat (m - n);
  pc_slots : slots q = drop n (take m (slots r));
  pc_kind : kind q = kind r;
  pc_flags : flags q = flags r
}.

Lemma piece_ok r n m q : region_ok r -> piece r n m q -> (n <= m <= length (slots r))%nat -> region_ok q.
Proof.
  intros [[H0 H1 H2 H3 H4] Hs Hrd] [P1 P2 P3 P4 P5] Hm. unfold nr_pages in Hs. constructor; [constructor | |].
  - rewrite P1. unfold pa, PAGE_SIZE. lia.
  - rewrite P2. unfold PAGE_SIZE. lia.
  - rewrite P1, P2. unfold pa, PAGE_SIZE in *. lia.
  - rewrite P1. unfold pa, PAGE_SIZE in *. zdm.
  - rewrite P2. unfold PAGE_SIZE. zdm.
  - unfold nr_pages. rewrite P2, P3, length_drop, length_take. unfold PAGE_SIZE. lia.
  - by rewrite P5.
Qed.

Lemma piece_owns r n m q b : piece r n m q -> (n <= m <= length (slots r))%nat -> region_ok r -> owns q b -> owns r b /\ pa r n <= b < pa r m.
Proof.
  intros [P1 P2 _ _ _] Hm [[H0 H1 _ _ _] Hs _] [Hb1 Hb2]. unfold nr_pages in Hs. rewrite P1 in Hb1. rewrite P1, P2 in Hb2. unfold owns, pa, PAGE_SIZE in *. lia.
Qed.

(** The slot of an address in a piece is its slot in the region. *)
Lemma piece_slot r n m q b : piece r n m q -> region_ok r -> (n <= m <= length (slots r))%nat -> b mod PAGE_SIZE = 0 -> pa r n <= b < pa r m ->
  owns q b /\ slots q !! slot_no q b = slots r !! slot_no r b.
Proof.
  intros [P1 P2 P3 _ _] [[H0 H1 _ H3 _] Hs _] Hm Hb Hr. unfold owns, slot_no. rewrite P1, P2, P3.
  assert (E : Z.to_nat ((b - addr r) / PAGE_SIZE) = (n + Z.to_nat ((b - pa r n) / PAGE_SIZE))%nat) by (unfold pa, PAGE_SIZE in *; zdm).
  split; [unfold pa, PAGE_SIZE in *; lia |]. rewrite lookup_drop, E, lookup_take_lt; [done |].
  assert (0 <= (b - pa r n) / PAGE_SIZE < Z.of_nat (m - n)) by (unfold pa, PAGE_SIZE in *; split; [apply Z.div_pos; lia | apply Z.div_lt_upper_bound; lia]). lia.
Qed.

(** What is left of [r] after slots [n] to [m] are taken out. *)
Definition remains (r : uvm_region) (n m : nat) (new : list uvm_region) : Prop :=
  exists l1 l2, new = l1 ++ l2 /\
    (if (n =? 0)%nat then l1 = [] else exists q, l1 = [q] /\ piece r 0 n q) /\
    (if (m =? length (slots r))%nat then l2 = [] else exists q, l2 = [q] /\ piece r m (length (slots r)) q).

Lemma remains_in r n m new : remains r n m new -> region_ok r -> (n <= m <= length (slots r))%nat ->
  Forall (fun q => region_ok q /\ (forall b, owns q b -> owns r b /\ ~ (pa r n <= b < pa r m)) /\ kind q = kind r /\ flags q = flags r) new /\ apart_all new.
Proof.
  intros (l1 & l2 & -> & H1 & H2) Hr Hm.
  assert (Ho1 : forall q b, piece r 0 n q -> owns q b -> owns r b /\ b < pa r n) by (intros q b Hq Hb; destruct (piece_owns r 0 n q b Hq ltac:(lia) Hr Hb); split; [done | lia]).
  assert (Ho2 : forall q b, piece r m (length (slots r)) q -> owns q b -> owns r b /\ pa r m <= b) by (intros q b Hq Hb; destruct (piece_owns r m _ q b Hq ltac:(lia) Hr Hb); split; [done | lia]).
  assert (Hpm : pa r n <= pa r m) by (unfold pa, PAGE_SIZE; lia).
  assert (G1 : Forall (fun q => region_ok q /\ (forall b, owns q b -> owns r b /\ b < pa r n) /\ kind q = kind r /\ flags q = flags r) l1 /\ apart_all l1).
  { destruct (n =? 0)%nat; [subst; by split |]. destruct H1 as (q & -> & Hq). split; [| by split]. apply list.Forall_singleton. pose proof (pc_kind _ _ _ _ Hq). pose proof (pc_flags _ _ _ _ Hq).
    split_and!; [apply (piece_ok r 0 n q Hr Hq); lia | intros b Hb; by apply (Ho1 q) | done | done]. }
  assert (G2 : Forall (fun q => region_ok q /\ (forall b, owns q b -> owns r b /\ pa r m <= b) /\ kind q = kind r /\ flags q = flags r) l2 /\ apart_all l2).
  { destruct (m =? length (slots r))%nat; [subst; by split |]. destruct H2 as (q & -> & Hq). split; [| by split]. apply list.Forall_singleton. pose proof (pc_kind _ _ _ _ Hq). pose proof (pc_flags _ _ _ _ Hq).
    split_and!; [apply (piece_ok r m _ q Hr Hq); lia | intros b Hb; by apply (Ho2 q) | done | done]. }
  destruct G1 as [G1 A1], G2 as [G2 A2]. split.
  - apply list.Forall_app. rewrite !list.Forall_forall in *. split; intros q Hq; [destruct (G1 q Hq) as (? & Hb & ?) | destruct (G2 q Hq) as (? & Hb & ?)]; (split_and!; [done | intros b Hob; destruct (Hb b Hob); split; [done | lia] | naive_solver | naive_solver]).
  - clear H1 H2. induction l1 as [| q l1 IH]; [done |]. apply list.Forall_cons in G1 as [(_ & Hq & _) G1]. destruct A1 as [A0 A1]. cbn [app apart_all]. split; [| auto].
    apply list.Forall_app. split; [done |]. rewrite list.Forall_forall in *. intros q' Hq' b Hb Hb'. destruct (G2 q' Hq') as (_ & Hb2 & _). destruct (Hq b Hb), (Hb2 b Hb'). lia.
Qed.

Lemma remains_slot r n m new b : remains r n m new -> region_ok r -> (n <= m <= length (slots r))%nat -> owns r b -> b mod PAGE_SIZE = 0 ->
  ~ (pa r n <= b < pa r m) -> exists q, q ∈ new /\ owns q b /\ slots q !! slot_no q b = slots r !! slot_no r b.
Proof.
  intros (l1 & l2 & -> & H1 & H2) Hr Hm [Hb1 Hb2] Hal Hout. pose proof Hr as [[H0 _ _ _ _] Hs _]. unfold nr_pages in Hs.
  destruct (Z.lt_ge_cases b (pa r n)) as [Hlt | Hge].
  - destruct (Nat.eqb_spec n 0) as [-> |]; [unfold pa, PAGE_SIZE in *; lia |]. destruct H1 as (q & -> & Hq).
    destruct (piece_slot r 0 n q b Hq Hr) as [Hoq Hsq]; [lia | done | unfold pa, PAGE_SIZE in *; lia |]. exists q. split; [by left | done].
  - destruct (Nat.eqb_spec m (length (slots r))) as [-> |]; [unfold pa, PAGE_SIZE in *; lia |]. destruct H2 as (q & -> & Hq).
    destruct (piece_slot r m (length (slots r)) q b Hq Hr) as [Hoq Hsq]; [lia | done | unfold pa, PAGE_SIZE in *; lia |].
    exists q. split; [apply elem_of_app; right; by left | done].
Qed.

Lemma remains_cnt r n m new p : remains r n m new -> (n <= m <= length (slots r))%nat ->
  cnt new p = cnt_region r p - freed r (drop n (take m (slots r))) p.
Proof.
  intros (l1 & l2 & -> & H1 & H2) Hm. rewrite cnt_app.
  assert (E1 : cnt l1 p = freed r (take n (slots r)) p).
  { destruct (Nat.eqb_spec n 0) as [-> |]; [subst; unfold freed; rewrite take_0; by destruct (kind r) |]. destruct H1 as (q & -> & [_ _ P3 P4 _]).
    cbn [cnt]. unfold cnt_region, freed. rewrite P4, P3, drop_0. destruct (kind r); lia. }
  assert (E2 : cnt l2 p = freed r (drop m (slots r)) p).
  { destruct (Nat.eqb_spec m (length (slots r))) as [-> |]; [subst; unfold freed; rewrite drop_all; by destruct (kind r) |]. destruct H2 as (q & -> & [_ _ P3 P4 _]).
    cbn [cnt]. unfold cnt_region, freed. rewrite P4, P3, firstn_all. destruct (kind r); lia. }
  rewrite E1, E2. unfold cnt_region, freed. destruct (kind r); [| lia].
  rewrite (cnt_slots_take (slots r) m p), (cnt_slots_take (take m (slots r)) n p), take_take. replace (n `min` m)%nat with n by lia. lia.
Qed.

Lemma cut_spec s t r l1 l2 new n m : space_geo s -> Forall region_ok (regions s) -> seg s = l1 ++ r :: l2 -> remains r n m new -> (n <= m <= length (slots r))%nat ->
  let s' := set_seg (set_pt s t) (l1 ++ new ++ l2) in
  space_geo s' /\ Forall region_ok (regions s') /\
  (forall b kd fl x, backs s' b kd fl x <-> backs s b kd fl x /\ in_pages r n (m - n) b = false) /\
  (forall p, cnt (regions s') p = cnt (regions s) p - freed r (drop n (take m (slots r))) p).
Proof.
  intros Hg Hro Hseg Hrem Hm s'. set (rest := l1 ++ l2 ++ [heap s]).
  assert (Hps : regions s ≡ₚ r :: rest) by (unfold regions, rest; rewrite Hseg, <- app_assoc; symmetry; apply Permutation_middle).
  assert (Hps' : regions s' ≡ₚ new ++ rest) by (unfold regions, rest; cbn [seg heap s' set_seg set_pt]; rewrite <- !app_assoc; apply Permutation_app_swap_app).
  pose proof Hro as Hro'. rewrite Hps in Hro'. apply list.Forall_cons in Hro' as [Hr Hrest].
  destruct (remains_in r n m new Hrem Hr Hm) as [Hnew Hap]. rewrite list.Forall_forall in Hnew.
  destruct (geo_regions s Hg) as (Hapart & Hstack & _). rewrite Hps in Hapart. destruct Hapart as [Hapr Haprest]. rewrite Hps in Hstack. apply list.Forall_cons in Hstack as [Hstr Hstrest].
  assert (Hpages : forall b, in_pages r n (m - n) b = true -> owns r b).
  { intros b Hb. unfold in_pages in Hb. replace (n + (m - n))%nat with m in Hb by lia. destruct Hr as [_ Hs _]. unfold nr_pages in Hs.
    rewrite !andb_true_iff, Z.leb_le, Z.ltb_lt in Hb. unfold owns, pa, PAGE_SIZE in *. lia. }
  split_and!.
  - assert (Hall' : all_regions s' ≡ₚ stack s :: new ++ rest).
    { unfold all_regions. cbn [seg stack heap s' set_seg set_pt]. rewrite <- Hps'. unfold regions. cbn [seg heap s' set_seg set_pt]. symmetry. apply Permutation_middle. }
    assert (Hall : all_regions s ≡ₚ stack s :: r :: rest) by (rewrite <- Hps; unfold all_regions, regions; symmetry; apply Permutation_middle).
    pose proof Hg as [Gp _ Gt Gta]. rewrite Hall in Gp. apply list.Forall_cons in Gp as [Gst Gp]. apply list.Forall_cons in Gp as [_ Gp]. constructor; [| | done | done].
    + rewrite Hall'. apply list.Forall_cons. split; [done |]. apply list.Forall_app. split; [| done]. apply list.Forall_forall. intros q Hq. by destruct (Hnew q Hq) as ([] & _).
    + rewrite Hall'. cbn [apart_all]. split.
      * apply list.Forall_app. split; [| done]. apply list.Forall_forall. intros q Hq b Hb1 Hb2. destruct (Hnew q Hq) as (_ & Hin & _). by apply (Hstr b); [| apply Hin].
      * clear -Hap Hnew Hapr Haprest. induction new as [| q new IH]; [done |]. destruct Hap as [Hq Hap]. cbn [app apart_all]. split.
        -- apply list.Forall_app. split; [done |]. rewrite list.Forall_forall in *. intros q' Hq' b Hb1 Hb2. destruct (Hnew q) as (_ & Hin & _); [left |]. destruct (Hin b Hb1). by apply (Hapr q' Hq' b).
        -- apply IH; [intros q' Hq'; apply Hnew; by right | done].
  - rewrite Hps'. apply list.Forall_app. split; [| done]. apply list.Forall_forall. intros q Hq. apply (Hnew q Hq).
  - intros b kd fl x. unfold backs. split.
    + intros (q & Hq & Ho & Ha & Hsl & Hk & Hf). rewrite Hps' in Hq. apply elem_of_app in Hq as [Hq | Hq].
      * destruct (Hnew q Hq) as (_ & Hin & Hkq & Hfq). destruct (Hin b Ho) as [Hor Hout]. destruct (remains_slot r n m new b Hrem Hr Hm Hor Ha Hout) as (q' & Hq' & Hoq' & Hsl').
        assert (q' = q) as ->.
        { apply list_elem_of_lookup in Hq as [i Hi]. apply list_elem_of_lookup in Hq' as [i' Hi'].
          pose proof (owner_index new Hap i i' q q' b Hi Hi' Ho Hoq'). congruence. }
        split; [exists r; rewrite Hps; split_and!; [by left | done | done | congruence | congruence | congruence] |].
        unfold in_pages. replace (n + (m - n))%nat with m by lia. destruct (Z.leb_spec (pa r n) b), (Z.ltb_spec b (pa r m)); try done. lia.
      * split; [exists q; rewrite Hps; split_and!; [by right | done..] |]. destruct (in_pages r n (m - n) b) eqn:E; [| done]. apply Hpages in E.
        rewrite list.Forall_forall in Hapr. exfalso. by apply (Hapr q Hq b).
    + intros [(q & Hq & Ho & Ha & Hsl & Hk & Hf) Hout]. rewrite Hps in Hq. apply elem_of_cons in Hq as [-> | Hq].
      * destruct (remains_slot r n m new b Hrem Hr Hm Ho Ha) as (q & Hq & Hoq & Hslq).
        { unfold in_pages in Hout. replace (n + (m - n))%nat with m in Hout by lia. intros [? ?]. destruct (Z.leb_spec (pa r n) b), (Z.ltb_spec b (pa r m)), (Z.eqb_spec (b mod PAGE_SIZE) 0); try done; lia. }
        destruct (Hnew q Hq) as (_ & _ & Hkq & Hfq). exists q. rewrite Hps'. split_and!; [apply elem_of_app; by left | done | done | congruence | congruence | congruence].
      * exists q. rewrite Hps'. split_and!; [apply elem_of_app; by right | done..].
  - intros p. assert (Hc : forall l l', l ≡ₚ l' -> cnt l p = cnt l' p) by (induction 1; cbn [cnt]; lia).
    rewrite (Hc _ _ Hps), (Hc _ _ Hps'). cbn [cnt]. rewrite cnt_app, (remains_cnt r n m new p Hrem Hm). lia.
Qed.

(** Cutting slots [n] to [m] out of region [r], entries and pages included. *)
Lemma inv_cut others k k' s t r l1 l2 new n m : inv others k s -> seg s = l1 ++ r :: l2 -> remains r n m new -> (n <= m <= length (slots r))%nat ->
  (forall b, t !! b = if in_pages r n (m - n) b then None else pt s !! b) -> pool_ok k' ->
  (forall p, prefs k' p = prefs k p - freed r (take (m - n) (drop n (slots r))) p) ->
  let s' := set_seg (set_pt s t) (l1 ++ new ++ l2) in
  inv others k' s' /\ (forall b kd fl x, backs s' b kd fl x <-> backs s b kd fl x /\ in_pages r n (m - n) b = false) /\
  (forall p, prefs k' p = prefs k p - (cnt (regions s) p - cnt (regions s') p)) /\ forall p, cnt (regions s') p <= cnt (regions s) p.
Proof.
  intros Hinv Hseg Hrem Hm Ht Hpool Hpf s'. destruct (cut_spec s t r l1 l2 new n m (inv_geo _ _ _ Hinv) (inv_regions _ _ _ Hinv) Hseg Hrem Hm) as (Hg & Hro & Hbk & Hcnt).
  fold s' in Hg, Hro, Hbk, Hcnt. assert (Etd : take (m - n) (drop n (slots r)) = drop n (take m (slots r))) by (rewrite skipn_firstn_comm; done).
  assert (Hnn : forall l p, 0 <= freed r l p) by (intros l p; unfold freed; destruct (kind r); [apply cnt_slots_nonneg | lia]).
  assert (Hpf' : forall p, prefs k' p = prefs k p - (cnt (regions s) p - cnt (regions s') p)) by (intros p; rewrite Hpf, Etd, Hcnt; lia).
  assert (Hle : forall p, cnt (regions s') p <= cnt (regions s) p) by (intros p; rewrite Hcnt; pose proof (Hnn (drop n (take m (slots r))) p); lia).
  split_and!; try done. apply (inv_drop others k k' s s' (in_pages r n (m - n))); done.
Qed.

(** What releasing a region takes: [n] is the number of its slots. *)
Lemma region_free_range_spec k r n m : (n <= m <= length (slots r))%nat -> pool_ok k -> (forall p, cnt_region r p <= prefs k p) ->
  exists k' l', uvm_region_free_range k r (Z.of_nat n) (Z.of_nat (m - n)) = Ret (k', set_slots r l') /\ pool_ok k' /\ content k' = content k /\
    (forall p, prefs k' p = prefs k p - freed r (take (m - n) (drop n (slots r))) p) /\
    length l' = length (slots r) /\ take n l' = take n (slots r) /\ drop m l' = drop m (slots r).
Proof.
  intros Hm Hpool Hle. unfold uvm_region_free_range, nr_pages. destruct (Z.leb_spec (Z.of_nat (length (slots r))) (Z.of_nat n)) as [Hend | Hlt].
  - assert (m = n) as -> by lia. rewrite Nat.sub_diag. exists k, (slots r). split_and!; try done; [by destruct r |]. intros p. unfold freed. rewrite take_0. destruct (kind r); cbn [cnt_slots]; lia.
  - destruct (Z.ltb_spec (Z.of_nat (length (slots r)) - Z.of_nat n) (Z.of_nat (m - n))); [lia |]. rewrite Nat2Z.id.
    destruct (free_loop_spec (m - n) k r n) as (k' & l' & E); [lia | done | |].
    + intros p. specialize (Hle p). unfold cnt_region, freed in *. destruct (kind r); [| done]. rewrite (cnt_slots_take (slots r) n p) in Hle. pose proof (cnt_slots_nonneg (take n (slots r)) p). lia.
    + exists k', l'. by replace (n + (m - n))%nat with m in E by lia.
Qed.

Lemma region_release_spec k r : pool_ok k -> (forall p, cnt_region r p <= prefs k p) ->
  exists k', uvm_region_release k r = Ret k' /\ pool_ok k' /\ content k' = content k /\ forall p, prefs k' p = prefs k p - freed r (slots r) p.
Proof.
  intros Hpool Hle. unfold uvm_region_release, nr_pages. destruct (region_free_range_spec k r 0 (length (slots r))) as (k' & l' & E & Hp & Hc & Hf & _); [lia | done | done |].
  rewrite Nat.sub_0_r in E, Hf. change (Z.of_nat 0) with 0 in E. rewrite E. cbn [kind set_slots inode file].
  assert (Hf' : forall p, prefs k' p = prefs k p - freed r (slots r) p) by (intros p; rewrite Hf; cbn [drop]; by rewrite firstn_all).
  destruct (kind r); [by exists k' |]. eexists. split; [done |]. by destruct (inode r =? 0), (file r =? 0).
Qed.

Lemma region_unmap_range_spec s r n m : region_ok r -> (n <= m <= length (slots r))%nat ->
  exists t, uvm_region_unmap_range s r (Z.of_nat n) (Z.of_nat (m - n)) = set_pt s t /\ forall b, t !! b = if in_pages r n (m - n) b then None else pt s !! b.
Proof.
  intros Hr Hm. unfold uvm_region_unmap_range, nr_pages. destruct (Z.leb_spec (Z.of_nat (length (slots r))) (Z.of_nat n)).
  - exists (pt s). split; [by destruct s |]. intros b. assert (m = n) as -> by lia. unfold in_pages. replace (n + (n - n))%nat with n by lia.
    destruct (Z.leb_spec (pa r n) b), (Z.ltb_spec b (pa r n)); (done || lia).
  - destruct (Z.ltb_spec (Z.of_nat (length (slots r)) - Z.of_nat n) (Z.of_nat (m - n))); [lia |]. rewrite Nat2Z.id. apply region_unmap_loop_spec; [done | lia].
Qed.

(** ** What unmapping does *)

(** What one turn of the loop of [uvm_munmap] does to region [r]. *)
Definition munmapped (others : Z -> Z) (k k' : kstate) (s : uvm_space) (t : gmap Z (Z * Z)) (r : uvm_region) (l1 l2 new : list uvm_region) (a e : Z) : Prop :=
  let s1 := set_seg s (l1 ++ r :: l2) in
  let s' := set_seg (set_pt s t) (l1 ++ new ++ l2) in
  let gone b := owns r b /\ a <= b < e in
  inv others k' s' /\ (forall b kd fl x, backs s' b kd fl x <-> backs s1 b kd fl x /\ ~ gone b) /\
  (forall b, ~ gone b -> t !! b = pt s !! b) /\ (forall b, gone b -> t !! b = None) /\ (forall q b, q ∈ new -> owns q b -> owns r b /\ ~ a <= b < e) /\
  (forall p, prefs k' p = prefs k p - (cnt (regions s1) p - cnt (regions s') p)) /\ forall p, cnt (regions s') p <= cnt (regions s1) p.

Lemma munmapped_none others k s r l1 l2 a e : inv others k (set_seg s (l1 ++ r :: l2)) -> (forall b, ~ (owns r b /\ a <= b < e)) -> munmapped others k k s (pt s) r l1 l2 [r] a e.
Proof.
  intros Hinv Hno. assert (E : set_seg (set_pt s (pt s)) (l1 ++ [r] ++ l2) = set_seg s (l1 ++ r :: l2)) by (by destruct s). unfold munmapped. rewrite E.
  split_and!; try done.
  - intros b kd fl x. split; [intros Hb; split; [done | apply Hno] | naive_solver].
  - intros b Hg. by apply Hno in Hg.
  - intros q b ->%list_elem_of_singleton Hb. split; [done |]. intros ?. by apply (Hno b).
  - intros p. lia.
Qed.

Lemma munmapped_cut others k k' s t r l1 l2 new n m a e : inv others k (set_seg s (l1 ++ r :: l2)) -> remains r n m new -> (n <= m <= length (slots r))%nat ->
  (forall b, in_pages r n (m - n) b = true <-> owns r b /\ a <= b < e /\ b mod PAGE_SIZE = 0) -> (forall b, owns r b -> ~ (pa r n <= b < pa r m) -> ~ a <= b < e) ->
  (forall b, t !! b = if in_pages r n (m - n) b then None else pt s !! b) -> pool_ok k' ->
  (forall p, prefs k' p = prefs k p - freed r (take (m - n) (drop n (slots r))) p) -> munmapped others k k' s t r l1 l2 new a e.
Proof.
  intros Hinv Hrem Hm Hin Hout Ht Hpool Hpf. unfold munmapped. set (s1 := set_seg s (l1 ++ r :: l2)) in *.
  destruct (inv_cut others k k' s1 t r l1 l2 new n m Hinv eq_refl Hrem Hm Ht Hpool Hpf) as (H1 & H2 & H3 & H4).
  assert (Hr : region_ok r) by (pose proof (inv_regions _ _ _ Hinv) as H; rewrite list.Forall_forall in H; apply H; unfold regions; cbn; set_solver).
  change (set_seg (set_pt s1 t) (l1 ++ new ++ l2)) with (set_seg (set_pt s t) (l1 ++ new ++ l2)) in *.
  assert (Hkey : forall b, pt s !! b <> None -> owns r b -> b mod PAGE_SIZE = 0).
  { intros b Hb Ho. destruct (pt s !! b) as [[p f] |] eqn:E; [| done]. destruct (inv_pte _ _ _ Hinv b p f E) as [Hst | (kd & fl & x & (q & _ & _ & Hal & _) & _)]; [| done].
    destruct (geo_regions _ (inv_geo _ _ _ Hinv)) as (_ & Hap & _). rewrite list.Forall_forall in Hap. exfalso. apply (Hap r ltac:(unfold regions; cbn; set_solver) b Hst Ho). }
  split_and!; try done.
  - intros b kd fl x. rewrite H2. split; intros [Hb Hg]; (split; [done |]).
    + intros [Ho Hae]. destruct Hb as (_ & _ & _ & Hal & _). assert (in_pages r n (m - n) b = true) by (by apply Hin). congruence.
    + destruct (in_pages r n (m - n) b) eqn:E; [| done]. apply Hin in E as (H5 & H6 & _). by destruct (Hg (conj H5 H6)).
  - intros b Hg. rewrite Ht. destruct (in_pages r n (m - n) b) eqn:E; [| done]. apply Hin in E as (H5 & H6 & _). by destruct (Hg (conj H5 H6)).
  - intros b [Ho Hae]. rewrite Ht. destruct (in_pages r n (m - n) b) eqn:E; [done |]. destruct (pt s !! b) eqn:Ep; [| done].
    assert (in_pages r n (m - n) b = true) by (apply Hin; split_and!; try done; [lia | lia | apply Hkey; [congruence | done]]). congruence.
  - intros q b Hq Hb. destruct (remains_in r n m new Hrem Hr Hm) as [Hnew _]. rewrite list.Forall_forall in Hnew. destruct (Hnew q Hq) as (_ & Hin' & _). destruct (Hin' b Hb) as [Ho Hno].
    split; [done |]. by apply Hout.
Qed.

(** The stretch of [r] that [a .. e) cuts out, in slots. *)
Lemma stretch r a e : region_ok r -> 0 <= a -> a mod PAGE_SIZE = 0 -> e mod PAGE_SIZE = 0 -> a < addr r + size r -> addr r < e ->
  let lo := if addr r <? a then a else addr r in
  let hi := if e <? addr r + size r then e else addr r + size r in
  lo < hi ->
  exists n m, (n < m <= length (slots r))%nat /\ lo = pa r n /\ hi = pa r m /\
    Z.shiftr (lo - addr r) PAGE_SHIFT = Z.of_nat n /\ Z.shiftr (hi - lo) PAGE_SHIFT = Z.of_nat (m - n) /\
    (lo =? addr r) = (n =? 0)%nat /\ (hi =? addr r + size r) = (m =? length (slots r))%nat /\
    (forall b, in_pages r n (m - n) b = true <-> owns r b /\ a <= b < e /\ b mod PAGE_SIZE = 0) /\
    (forall b, owns r b -> ~ (pa r n <= b < pa r m) -> ~ a <= b < e).
Proof.
  intros [[H0 H1 H2 H3 H4] Hs _] Ha Haa Hea Hover1 Hover2 lo hi Hlh. unfold nr_pages in Hs.
  assert (Hlo : lo = Z.max a (addr r)) by (unfold lo; destruct (Z.ltb_spec (addr r) a); lia).
  assert (Hhi : hi = Z.min e (addr r + size r)) by (unfold hi; destruct (Z.ltb_spec e (addr r + size r)); lia).
  assert (Hlm : (lo - addr r) mod PAGE_SIZE = 0) by (rewrite Hlo; unfold PAGE_SIZE in *; destruct (Z.max_spec a (addr r)) as [[_ ->] | [_ ->]]; zdm).
  assert (Hhm : (hi - addr r) mod PAGE_SIZE = 0) by (rewrite Hhi; unfold PAGE_SIZE in *; destruct (Z.min_spec e (addr r + size r)) as [[_ ->] | [_ ->]]; zdm).
  exists (Z.to_nat ((lo - addr r) / PAGE_SIZE)), (Z.to_nat ((hi - addr r) / PAGE_SIZE)).
  assert (En : PAGE_SIZE * ((lo - addr r) / PAGE_SIZE) = lo - addr r) by (unfold PAGE_SIZE in *; zdm).
  assert (Em : PAGE_SIZE * ((hi - addr r) / PAGE_SIZE) = hi - addr r) by (unfold PAGE_SIZE in *; zdm).
  set (zn := (lo - addr r) / PAGE_SIZE) in *. set (zm := (hi - addr r) / PAGE_SIZE) in *. clearbody zn zm. clearbody lo hi.
  unfold PAGE_SIZE, PAGE_SHIFT in *. rewrite !Z.shiftr_div_pow2 by lia. change (2 ^ 12) with 4096.
  assert (Hpn : pa r (Z.to_nat zn) = lo) by (unfold pa, PAGE_SIZE; lia). assert (Hpm : pa r (Z.to_nat zm) = hi) by (unfold pa, PAGE_SIZE; lia). rewrite Hpn, Hpm.
  split_and!; try lia.
  - rewrite <- En, Z.mul_comm, Z.div_mul; lia.
  - replace (hi - lo) with ((zm - zn) * 4096) by lia. rewrite Z.div_mul; lia.
  - destruct (Z.eqb_spec lo (addr r)), (Nat.eqb_spec (Z.to_nat zn) 0); (done || lia).
  - destruct (Z.eqb_spec hi (addr r + size r)), (Nat.eqb_spec (Z.to_nat zm) (length (slots r))); (done || lia).
  - intros b. unfold in_pages. replace (Z.to_nat zn + (Z.to_nat zm - Z.to_nat zn))%nat with (Z.to_nat zm) by lia. rewrite Hpn, Hpm, !andb_true_iff, Z.leb_le, Z.ltb_lt, Z.eqb_eq.
    unfold owns, PAGE_SIZE. split; intros; split_and!; lia.
  - intros b [Hb1 Hb2]. lia.
Qed.

Lemma munmap_one_spec others k s r l1 l2 a e : inv others k (set_seg s (l1 ++ r :: l2)) -> 0 <= a <= e -> a mod PAGE_SIZE = 0 -> e mod PAGE_SIZE = 0 ->
  exists k' t out, munmap_one k s r a e = Ret (k', set_pt s t, out) /\ content k' = content k /\
    match out with
    | inr err => err = - ENOMEM /\ t = pt s /\ pool k' = pool k /\ prefs k' = prefs k
    | inl new => munmapped others k k' s t r l1 l2 new a e
    end.
Proof.
  intros Hinv [Ha Hae] Haa Hea. assert (Hin : r ∈ regions (set_seg s (l1 ++ r :: l2))) by (unfold regions; cbn; set_solver).
  assert (Hr : region_ok r) by (pose proof (inv_regions _ _ _ Hinv) as H; rewrite list.Forall_forall in H; auto).
  assert (Hid : set_pt s (pt s) = s) by (by destruct s).
  assert (Hcr : forall p, cnt_region r p <= prefs k p) by (intros p; pose proof (cnt_elem _ _ p Hin); pose proof (inv_count _ _ _ Hinv p); pose proof (inv_others _ _ _ Hinv p); lia).
  assert (Hpk : pool_ok k) by apply Hinv.
  pose proof Hr as [[H0 H1 H2 _ _] _ _]. unfold munmap_one. rewrite u64_small by (unfold USER_SPACE_SIZE_MAX, PAGE_SIZE in *; lia).
  assert (Hnone : (forall b, ~ (owns r b /\ a <= b < e)) -> exists k' t out, Ret (k, s, inl [r]) = Ret (k', set_pt s t, out) /\ content k' = content k /\
    match out with inr err => err = - ENOMEM /\ t = pt s /\ pool k' = pool k /\ prefs k' = prefs k | inl new => munmapped others k k' s t r l1 l2 new a e end).
  { intros Hno. exists k, (pt s), (inl [r]). rewrite Hid. split_and!; [done | done |]. by apply munmapped_none. }
  destruct (Z.leb_spec (addr r + size r) a); cbn [orb]; [apply Hnone; unfold owns; lia |]. destruct (Z.leb_spec e (addr r)); [apply Hnone; unfold owns; lia |].
  set (lo := if addr r <? a then a else addr r). set (hi := if e <? addr r + size r then e else addr r + size r).
  destruct (Z.lt_ge_cases lo hi) as [Hlh | Hge].
  2: { assert (Hno : forall b, ~ (owns r b /\ a <= b < e)) by (intros b; unfold owns, lo, hi in *; destruct (Z.ltb_spec (addr r) a), (Z.ltb_spec e (addr r + size r)); lia).
       assert (hi = lo) as -> by (unfold lo, hi in *; destruct (Z.ltb_spec (addr r) a), (Z.ltb_spec e (addr r + size r)); lia). rewrite Z.sub_diag. cbn [Z.shiftr Z.shiftl PAGE_SHIFT Z.opp Z.eqb]. by apply Hnone. }
  destruct (stretch r a e Hr Ha Haa Hea) as (n & m & Hm & Elo & Ehi & Eoff & Enr & En0 & Eml & Hpages & Hout); [lia | lia | exact Hlh |]. fold lo hi in Elo, Ehi, Eoff, Enr, En0, Eml.
  rewrite Eoff, Enr, En0, Eml. destruct (Z.eqb_spec (Z.of_nat (m - n)) 0); [lia |]. clear Hnone.
  set (al := if negb (n =? 0)%nat && negb (m =? length (slots r))%nat then let (k, ok) := uvm_region_alloc k in if ok then kalloc k else (k, false) else (k, true)).
  assert (Hal : exists k1 ok, al = (k1, ok) /\ pool k1 = pool k /\ prefs k1 = prefs k /\ content k1 = content k).
  { unfold al, uvm_region_alloc. destruct (negb _ && negb _); [| by exists k, true]. destruct (kalloc_same k) as (k1 & ok & -> & E1 & E2 & E3). destruct ok; [| by exists k1, false].
    destruct (kalloc_same k1) as (k2 & ok & -> & F1 & F2 & F3). exists k2, ok. split_and!; congruence. }
  destruct Hal as (k1 & ok & -> & Ep & Ef & Ec). destruct ok; cbn [negb]; [| exists k1, (pt s), (inr (- ENOMEM)); rewrite Hid; by split_and!].
  destruct (region_unmap_range_spec s r n m Hr ltac:(lia)) as (t & -> & Ht).
  assert (Hpk1 : pool_ok k1) by (unfold pool_ok; by rewrite Ep, Ef). assert (Hcr1 : forall p, cnt_region r p <= prefs k1 p) by (by rewrite Ef).
  destruct ((n =? 0)%nat && (m =? length (slots r))%nat) eqn:Efull.
  - apply andb_true_iff in Efull as [En Em]. apply Nat.eqb_eq in En, Em. destruct (region_release_spec k1 r Hpk1 Hcr1) as (k' & -> & Hp' & Hc' & Hf').
    exists k', t, (inl []). split_and!; [done | congruence |]. apply (munmapped_cut _ _ _ _ _ _ _ _ _ n m); try done; [| lia |].
    + exists [], []. subst n m. rewrite !Nat.eqb_refl. done.
    + intros p. subst n m. rewrite Hf', Ef, Nat.sub_0_r, drop_0, firstn_all. done.
  - destruct (region_free_range_spec k1 r n m ltac:(lia) Hpk1 Hcr1) as (k' & l' & -> & Hp' & Hc' & Hf' & Hl' & Ht' & Hd'). cbn [slots set_slots size flags kind inode file file_offset addr].
    assert (Hpf : forall p, prefs k' p = prefs k p - freed r (take (m - n) (drop n (slots r))) p) by (intros p; by rewrite Hf', Ef).
    assert (Hsz : size r = PAGE_SIZE * Z.of_nat (length (slots r))) by apply Hr.
    assert (Epn : pa r n - addr r = PAGE_SIZE * Z.of_nat n) by (unfold pa; lia). assert (Epm : addr r + size r - pa r m = PAGE_SIZE * Z.of_nat (length (slots r) - m)) by (unfold pa, PAGE_SIZE in *; lia).
    assert (Hfin : forall new k2, remains r n m new -> pool_ok k2 -> content k2 = content k' -> prefs k2 = prefs k' ->
      exists k3 t3 out, Ret (k2, set_pt s t, inl new) = Ret (k3, set_pt s t3, out) /\ content k3 = content k /\
        match out with inr err => err = - ENOMEM /\ t3 = pt s /\ pool k3 = pool k /\ prefs k3 = prefs k | inl new => munmapped others k k3 s t3 r l1 l2 new a e end).
    { intros new k2 Hrem Hp2 Hc2 Hf2. exists k2, t, (inl new). split_and!; [done | congruence |]. apply (munmapped_cut _ _ _ _ _ _ _ _ _ n m); try done; [lia | by rewrite Hf2]. }
    assert (Hright : forall q, addr q = hi -> size q = PAGE_SIZE * Z.of_nat (length (slots r) - m) -> slots q = drop m l' -> kind q = kind r -> flags q = flags r -> piece r m (length (slots r)) q).
    { intros q Q1 Q2 Q3 Q4 Q5. constructor; [congruence | done | rewrite Q3, Hd', firstn_all; done | done | done]. }
    assert (Hleft : forall q, addr q = addr r -> size q = PAGE_SIZE * Z.of_nat n -> slots q = take n l' -> kind q = kind r -> flags q = flags r -> piece r 0 n q).
    { intros q Q1 Q2 Q3 Q4 Q5. constructor; [rewrite Q1; unfold pa; lia | by rewrite Nat.sub_0_r | rewrite Q3, Ht', drop_0; done | done | done]. }
    destruct (Nat.eqb_spec n 0) as [-> | Hn0].
    + cbn [andb] in Efull. rewrite !Nat.sub_0_r in *. rewrite Nat2Z.id. apply Hfin; try done. eexists [], _. split; [done |]. split; [done |]. rewrite Efull. eexists. split; [done |]. apply Hright; try done. cbn [size]. unfold PAGE_SIZE in *. lia.
    + destruct (Nat.eqb_spec m (length (slots r))) as [-> | Hml].
      * apply Hfin; try done. eexists _, []. split; [by rewrite app_nil_r |]. destruct (Nat.eqb_spec n 0); [done |]. rewrite Nat.eqb_refl. split; [| done]. eexists. split; [done |].
        apply Hleft; try done; cbn [size slots]; [unfold PAGE_SIZE in *; lia |]. unfold nr_pages. cbn [slots set_slots]. f_equal. lia.
      * apply Hfin; try (destruct (bool_decide (kind r = UVM_REGION_SHARED_FILE)); done).
        eexists [_], [_]. split; [done |]. destruct (Nat.eqb_spec n 0); [done |]. destruct (Nat.eqb_spec m (length (slots r))); [done |].
        split; eexists; (split; [done |]); [apply Hleft | apply Hright]; try done; cbn [size slots addr].
        -- lia.
        -- by rewrite Nat2Z.id.
        -- lia.
        -- f_equal. lia.
Qed.

(** After the loop over [l]: some regions still to do if it ran out of memory. *)
Record munmapped_all (others : Z -> Z) (k k' : kstate) (s1 s' : uvm_space) (l l' : list uvm_region) (a e err : Z) : Prop := {
  ma_inv : inv others k' s';
  ma_content : content k' = content k;
  ma_err : err = 0 \/ err = - ENOMEM;
  ma_keep : forall b kd fl x, backs s1 b kd fl x -> ~ (exists r, r ∈ l /\ owns r b /\ a <= b < e) -> backs s' b kd fl x;
  ma_old : forall b kd fl x, backs s' b kd fl x -> backs s1 b kd fl x;
  ma_pt : forall b, ~ (exists r, r ∈ l /\ owns r b /\ a <= b < e) -> pt s' !! b = pt s1 !! b;
  ma_gone : err = 0 -> (forall r b, r ∈ l' -> owns r b -> ~ a <= b < e) /\ (forall b, (exists r, r ∈ l /\ owns r b /\ a <= b < e) -> pt s' !! b = None /\ forall kd fl x, ~ backs s' b kd fl x);
  ma_owned : forall q b, q ∈ l' -> owns q b -> exists r, r ∈ l /\ owns r b;
  ma_prefs : forall p, prefs k' p = prefs k p - (cnt (regions s1) p - cnt (regions s') p);
  ma_le : forall p, cnt (regions s') p <= cnt (regions s1) p
}.

Lemma munmap_loop_spec others a e l : 0 <= a <= e -> a mod PAGE_SIZE = 0 -> e mod PAGE_SIZE = 0 ->
  forall k s l1, inv others k (set_seg s (l1 ++ l)) ->
  exists k' t l' err, munmap_loop k s l a e = Ret (k', set_pt s t, l', err) /\
    munmapped_all others k k' (set_seg s (l1 ++ l)) (set_seg (set_pt s t) (l1 ++ l')) l l' a e err.
Proof.
  intros Hae Haa Hea. induction l as [| r l IH]; intros k s l1 Hinv; cbn [munmap_loop].
  { exists k, (pt s), [], 0. assert (E : set_pt s (pt s) = s) by (by destruct s). rewrite E. split; [done |]. constructor; try done; try (by left); try (intros p; lia); try (by intros ? ? ?%elem_of_nil).
    intros _. split; [by intros ? ? ?%elem_of_nil | by intros b (? & ?%elem_of_nil & _)]. }
  destruct (munmap_one_spec others k s r l1 l a e Hinv Hae Haa Hea) as (k1 & t1 & out & -> & Hc1 & Hout). destruct out as [new | err].
  - destruct Hout as (M1 & M2 & M3 & M4 & M5 & M6 & M7).
    destruct (IH k1 (set_pt s t1) (l1 ++ new)) as (k' & t & l' & err & -> & Hall); [by rewrite <- app_assoc |].
    rewrite <- !app_assoc in Hall. change (set_pt (set_pt s t1) t) with (set_pt s t) in *. destruct Hall as [A1 A2 A3 A4 A5 A6 A7 A8 A9 A10].
    exists k', t, (new ++ l'), err. split; [done |].
    assert (Hcase : forall b, (exists q, q ∈ r :: l /\ owns q b /\ a <= b < e) <-> (owns r b /\ a <= b < e) \/ (exists q, q ∈ l /\ owns q b /\ a <= b < e)).
    { intros b. split; [intros (q & [-> | Hq]%elem_of_cons & H); [by left | right; by exists q] | intros [H | (q & Hq & H)]; [exists r | exists q]; (split; [set_solver | done])]. }
    constructor; try done.
    + congruence.
    + intros b kd fl x Hb Hno. rewrite Hcase in Hno. apply A4; [apply M2; split; [done | intros Hr; apply Hno; by left] | intros Hl; apply Hno; by right].
    + intros b kd fl x Hb. apply A5 in Hb. apply M2 in Hb as [Hb _]. done.
    + intros b Hno. rewrite Hcase in Hno. rewrite A6 by (intros Hl; apply Hno; by right). apply M3. intros Hr. apply Hno. by left.
    + intros He. destruct (A7 He) as [G1 G2]. split.
      * intros q b [Hq | Hq]%elem_of_app Ho; [by apply (M5 q b) | by apply (G1 q b)].
      * intros b Hb. rewrite Hcase in Hb. destruct Hb as [Hr | Hl]; [| by apply G2]. split.
        -- rewrite A6; [by apply M4 |]. intros (q & Hq & Ho & _). destruct (geo_regions _ (inv_geo _ _ _ Hinv)) as (Hap & _ & _).
           assert (Hperm : regions (set_seg s (l1 ++ r :: l)) ≡ₚ r :: l1 ++ l ++ [heap s]) by (unfold regions; cbn [seg set_seg heap]; rewrite <- app_assoc; cbn [app]; by rewrite <- Permutation_middle).
           rewrite Hperm in Hap. destruct Hap as [Hap _]. rewrite list.Forall_forall in Hap. apply (Hap q ltac:(set_solver) b (proj1 Hr) Ho).
        -- intros kd fl x Hb'. apply A5 in Hb'. apply M2 in Hb' as [_ Hn]. by apply Hn.
    + intros q b [Hq | Hq]%elem_of_app Ho; [exists r; split; [left | by apply (M5 q b)] | destruct (A8 q b Hq Ho) as (q' & Hq' & Ho'); exists q'; split; [by right | done]].
    + intros p. rewrite A9, M6. lia.
    + intros p. etransitivity; [apply A10 | apply M7].
  - destruct Hout as (-> & -> & Ep & Ef). exists k1, (pt s), (r :: l), (- ENOMEM). assert (E : set_pt s (pt s) = s) by (by destruct s). rewrite E. split; [done |].
    constructor; try done; try (by right); try (intros p; rewrite ?Ef; lia); [by apply (inv_same _ k); [| rewrite Ef |] |]. by intros q b Hq Ho; exists q.
Qed.

Lemma page_round_mod len : 0 <= page_round len /\ page_round len mod PAGE_SIZE = 0.
Proof.
  change (page_round len) with (page_of (u64 (len + PAGE_SIZE - 1))). pose proof (u64_bound (len + PAGE_SIZE - 1)). rewrite page_of_spec by done.
  generalize dependent (u64 (len + PAGE_SIZE - 1)). intros x Hx. unfold PAGE_SIZE. zdm.
Qed.

(** C26: on a space that satisfies the invariant, [uvm_munmap] ends, keeps the
    invariant and the contents of every page, and returns -EINVAL exactly when
    the length is zero, the address unaligned or the range not in user memory,
    with nothing changed.  What lies outside the range keeps its page, its
    protection and its table entry, also when memory for a split runs out; when
    it returns 0, no mapping is left in the range and every entry of the old
    ones is gone, so that the next access faults with -EFAULT. *)
Theorem uvm_munmap_correct others k s a len : inv others k s -> 0 <= a < 2 ^ 64 -> 0 <= len < 2 ^ 64 ->
  exists k' s' e, uvm_munmap k s a len = Ret (k', s', e) /\ inv others k' s' /\ content k' = content k /\ stack s' = stack s /\ heap s' = heap s /\
    (e = - EINVAL <-> len = 0 \/ a mod PAGE_SIZE <> 0 \/ USER_SPACE_SIZE_MAX < a + page_round len) /\
    (e = - EINVAL -> k' = k /\ s' = s) /\ (e = 0 \/ e = - EINVAL \/ e = - ENOMEM) /\
    (forall b, ~ a <= b < a + page_round len -> pt s' !! b = pt s !! b /\ forall kd fl x, backs s' b kd fl x <-> backs s b kd fl x) /\
    (e = 0 -> forall b, a <= b < a + page_round len ->
       (forall r, r ∈ seg s' -> ~ owns r b) /\ ((exists r, r ∈ seg s /\ owns r b) -> pt s' !! b = None)).
Proof.
  intros Hinv Ha Hlen. unfold uvm_munmap. pose proof (page_round_mod len) as [Hp0 Hpm].
  assert (Hmod : Z.land a (PAGE_SIZE - 1) = a mod PAGE_SIZE) by (change (PAGE_SIZE - 1) with (Z.ones 12); rewrite Z.land_ones by lia; done). rewrite Hmod.
  assert (Hbad : len = 0 \/ a mod PAGE_SIZE <> 0 \/ USER_SPACE_SIZE_MAX < a + page_round len ->
    exists k' s' e, Ret (k, s, - EINVAL) = Ret (k', s', e) /\ inv others k' s' /\ content k' = content k /\ stack s' = stack s /\ heap s' = heap s /\
    (e = - EINVAL <-> len = 0 \/ a mod PAGE_SIZE <> 0 \/ USER_SPACE_SIZE_MAX < a + page_round len) /\
    (e = - EINVAL -> k' = k /\ s' = s) /\ (e = 0 \/ e = - EINVAL \/ e = - ENOMEM) /\
    (forall b, ~ a <= b < a + page_round len -> pt s' !! b = pt s !! b /\ forall kd fl x, backs s' b kd fl x <-> backs s b kd fl x) /\
    (e = 0 -> forall b, a <= b < a + page_round len -> (forall r, r ∈ seg s' -> ~ owns r b) /\ ((exists r, r ∈ seg s /\ owns r b) -> pt s' !! b = None))).
  { intros Hb. exists k, s, (- EINVAL). split_and!; auto; intros; done. }
  destruct (Z.eqb_spec len 0); [apply Hbad; by left |]. destruct (Z.eqb_spec (a mod PAGE_SIZE) 0) as [Haa |]; cbn [negb]; [| apply Hbad; right; by left].
  destruct (Z.ltb_spec USER_SPACE_SIZE_MAX a); cbn [orb]; [apply Hbad; lia |]. destruct (Z.ltb_spec (USER_SPACE_SIZE_MAX - a) (page_round len)); [apply Hbad; lia |]. clear Hbad.
  assert (Es : set_seg s (seg s) = s) by (by destruct s).
  destruct (munmap_loop_spec others a (a + page_round len) (seg s) ltac:(lia) Haa ltac:(unfold PAGE_SIZE in *; zdm) k s []) as (k' & t & l' & err & -> & Hall); [cbn [app]; by rewrite Es |].
  cbn [app] in Hall. rewrite Es in Hall. destruct Hall as [A1 A2 A3 A4 A5 A6 A7 A8 _ _]. exists k', (set_seg (set_pt s t) l'), err.
  assert (Hne : err <> - EINVAL) by (destruct A3; subst; done).
  split_and!; auto; try done.
  - split; [done |]. intros [? | [? | ?]]; lia.
  - destruct A3; auto.
  - intros b Hb. assert (Hno : ~ exists r, r ∈ seg s /\ owns r b /\ a <= b < a + page_round len) by (intros (r & _ & _ & ?); lia). split; [by apply A6 |]. intros kd fl x. split; [apply A5 | by intros; apply A4].
  - intros He b Hb. destruct (A7 He) as [G1 G2]. split; [intros r Hr Ho; by apply (G1 r b) |]. intros (r & Hr & Ho). apply (G2 b). by exists r.
Qed.

(** Findings: a length within a page of the largest number rounds up to 0, and the
    call succeeds with nothing unmapped. *)
Lemma munmap_loop_empty k s l a : munmap_loop k s l a a = Ret (k, s, l, 0).
Proof.
  induction l as [| r l IH]; [done |]. cbn [munmap_loop]. unfold munmap_one.
  destruct (Z.leb_spec (u64 (addr r + size r)) a); cbn [orb]; [by rewrite IH |]. destruct (Z.leb_spec a (addr r)); [by rewrite IH |].
  destruct (Z.ltb_spec (addr r) a); [| lia]. destruct (Z.ltb_spec a (u64 (addr r + size r))); [| lia]. rewrite Z.sub_diag. change (Z.shiftr 0 PAGE_SHIFT =? 0) with true. cbv beta iota zeta. by rewrite IH.
Qed.

Theorem munmap_len_wraps k s a len : 2 ^ 64 - PAGE_SIZE < len < 2 ^ 64 -> 0 <= a <= USER_SPACE_SIZE_MAX -> a mod PAGE_SIZE = 0 -> uvm_munmap k s a len = Ret (k, s, 0).
Proof.
  intros Hlen Ha Haa. assert (Hr : page_round len = 0).
  { change (page_round len) with (page_of (u64 (len + PAGE_SIZE - 1))). pose proof (u64_bound (len + PAGE_SIZE - 1)). rewrite page_of_spec by done.
    unfold wrap, PAGE_SIZE in *. change (2 ^ 64) with 18446744073709551616 in *. zdm. }
  unfold uvm_munmap. rewrite Hr. destruct (Z.eqb_spec len 0); [unfold PAGE_SIZE in *; lia |].
  assert (Hmod : Z.land a (PAGE_SIZE - 1) = a mod PAGE_SIZE) by (change (PAGE_SIZE - 1) with (Z.ones 12); rewrite Z.land_ones by lia; done). rewrite Hmod, Haa. cbn [Z.eqb negb].
  destruct (Z.ltb_spec USER_SPACE_SIZE_MAX a); [lia |]. destruct (Z.ltb_spec (USER_SPACE_SIZE_MAX - a) 0); [lia |]. cbn [orb].
  rewrite Z.add_0_r, munmap_loop_empty. by destruct s.
Qed.

(** ** Freeing all regions *)

Lemma free_list_spec others l : forall k s, inv others k (set_seg s l) ->
  exists k' t, free_list_loop k s l = Ret (k', set_pt s t) /\ inv others k' (set_seg (set_pt s t) []) /\ content k' = content k /\
    (forall b, ~ (exists r, r ∈ l /\ owns r b) -> t !! b = pt s !! b) /\
    forall p, prefs k' p = prefs k p - (cnt (regions (set_seg s l)) p - cnt (regions (set_seg s [])) p).
Proof.
  induction l as [| r l IH]; intros k s Hinv; cbn [free_list_loop].
  { exists k, (pt s). assert (E : set_pt s (pt s) = s) by (by destruct s). rewrite E. split_and!; try done. intros p. lia. }
  assert (Hin : r ∈ regions (set_seg s (r :: l))) by (unfold regions; cbn; set_solver).
  assert (Hr : region_ok r) by (pose proof (inv_regions _ _ _ Hinv) as H; rewrite list.Forall_forall in H; auto).
  destruct (region_unmap_range_spec s r 0 (length (slots r)) Hr ltac:(lia)) as (t1 & E & Ht). rewrite Nat.sub_0_r in E, Ht. unfold nr_pages. change (Z.of_nat 0) with 0 in E. rewrite E.
  destruct (region_release_spec k r) as (k1 & -> & Hp1 & Hc1 & Hf1); [apply Hinv | |].
  { intros p. pose proof (cnt_elem _ _ p Hin). pose proof (inv_count _ _ _ Hinv p). pose proof (inv_others _ _ _ Hinv p). lia. }
  destruct (inv_cut others k k1 (set_seg s (r :: l)) t1 r [] l [] 0 (length (slots r)) Hinv eq_refl) as (H1 & H2 & H3 & H4); [| lia | by rewrite Nat.sub_0_r | done | |].
  { exists [], []. rewrite !Nat.eqb_refl. done. }
  { intros p. rewrite Hf1, Nat.sub_0_r, drop_0, firstn_all. done. }
  cbn [app] in *. change (set_seg (set_pt (set_seg s (r :: l)) t1) l) with (set_seg (set_pt s t1) l) in *.
  destruct (IH k1 (set_pt s t1) H1) as (k' & t & -> & Hinv' & Hc & Hpt & Hf). exists k', t. change (set_pt (set_pt s t1) t) with (set_pt s t) in *. split_and!; try done.
  - congruence.
  - intros b Hno. rewrite Hpt by (intros (q & Hq & Ho); apply Hno; exists q; split; [by right | done]). cbn [pt set_pt]. rewrite Ht.
    destruct (in_pages r 0 (length (slots r)) b) eqn:Eb; [| done]. exfalso. apply Hno. exists r. split; [left |]. unfold in_pages in Eb. rewrite !andb_true_iff, Z.leb_le, Z.ltb_lt in Eb.
    pose proof (ro_slots _ Hr) as Hs. unfold nr_pages in Hs. unfold owns, pa in *. cbn [Nat.add] in Eb. lia.
  - intros p. rewrite Hf, H3. change (cnt (regions (set_seg (set_pt s t1) [])) p) with (cnt (regions (set_seg s [])) p). lia.
Qed.

(** [uvm_space_free_segments] releases every mapping of a space that satisfies
    the invariant without a double put: the space keeps the invariant with no
    mapped region, no entry of the old ones is left, and each page has lost as
    many references as the mappings held. *)
Theorem uvm_space_free_segments_correct others k s : inv others k s ->
  exists k' s', uvm_space_free_segments k s = Ret (k', s') /\ inv others k' s' /\ seg s' = [] /\ content k' = content k /\
    (forall b, (exists r, r ∈ seg s /\ owns r b) -> pt s' !! b = None) /\
    (forall b, ~ (exists r, r ∈ seg s /\ owns r b) -> pt s' !! b = pt s !! b) /\
    forall p, prefs k' p = prefs k p - cnt (seg s) p.
Proof.
  intros Hinv. assert (E : set_seg s (seg s) = s) by (by destruct s). unfold uvm_space_free_segments. destruct (free_list_spec others (seg s) k s) as (k' & t & -> & Hi & Hc & Hpt & Hf); [by rewrite E |].
  exists k', (set_seg (set_pt s t) []). split_and!; try done.
  - intros b (r & Hr & Ho). cbn [pt set_seg set_pt]. destruct (t !! b) as [[p f] |] eqn:Eb; [| done]. exfalso.
    destruct (geo_regions _ (inv_geo _ _ _ Hinv)) as (Hap & Hst & _). rewrite list.Forall_forall in Hst. assert (Hrs : r ∈ regions s) by (unfold regions; set_solver).
    destruct (inv_pte _ _ _ Hi b p f Eb) as [H | (kd & fl & x & (q & Hq & Hoq & _) & _)]; [by apply (Hst r Hrs b) |].
    apply list_elem_of_singleton in Hq as ->. cbn [heap set_seg set_pt] in Hoq.
    assert (Hperm : regions s ≡ₚ heap s :: seg s) by (unfold regions; symmetry; apply Permutation_cons_append). rewrite Hperm in Hap. destruct Hap as [Hap _]. rewrite list.Forall_forall in Hap. by apply (Hap r Hr b).
  - intros p. rewrite Hf, E. unfold regions. cbn [seg set_seg heap app]. rewrite cnt_app. lia.
Qed.

Lemma uvm_munmap_witness : exists k' s', uvm_munmap kernel_w space_w 0x10000 1 = Ret (k', s', 0) /\ inv (fun _ => 0) k' s' /\ pt s' !! 0x10000 = None.
Proof.
  destruct (uvm_munmap_correct (fun _ => 0) kernel_w space_w 0x10000 1 inv_w ltac:(lia) ltac:(lia)) as (k' & s' & e & E & H1 & _ & _ & _ & _ & _ & _ & _ & H2).
  exists k', s'. assert (e = 0) as -> by (err_of E). split; [exact E |]. split; [exact H1 |]. apply (H2 eq_refl 0x10000 ltac:(vm_compute; split; congruence)).
  exists region_w. split; [left | vm_compute; split; congruence].
Defined.

Lemma free_segments_witness : exists k' s', uvm_space_free_segments kernel_w space_w = Ret (k', s') /\ seg s' = [] /\ prefs k' 7 = 0.
Proof.
  destruct (uvm_space_free_segments_correct (fun _ => 0) kernel_w space_w inv_w) as (k' & s' & E & _ & H1 & _ & _ & _ & H2). exists k', s'. split; [exact E |]. split; [exact H1 | apply (H2 7)].
Defined.
