(* ===== verification/UvmFork.v ===== *)
(** * Copying an address space: the fork half of mm/mm.c

    [uvm_space_copy_region] and its callers, for private regions: the child gets
    the pages of its parent, copy-on-write where either may write them. *)

From S2P Require Import Prelude Refcnt Uvm UvmUnmap.

Section cached.
(** [cp->page] of a page of the page cache. *)
Context (cp_page : Z -> Z).

(** ** Copying a space *)

(** What a loop that copies pages leaves: both spaces, the pages of the copy so
    far and the error, or 0. *)
Record copied : Type := mk_copied { c_k : kstate; c_dst : uvm_space; c_src : uvm_space; c_pgs : list (option Z); c_err : Z }.

(** The body for page [i] of a private region: the page is shared, marked copy
    on write if the region is writable, or copied if it has no entry. *)
Definition copy_anon_one (k : kstate) (dst src : uvm_space) (r : uvm_region) (pgs : list (option Z)) (i : Z) : res copied :=
  let page_addr := u64 (addr r + u64 (i * PAGE_SIZE)) in
  let! src_pg := rd (slots r) i in
  match src_pg with
  | None => Ret (mk_copied k dst src pgs 0)
  | Some src_pg =>
      if negb (uvm_page_is_mapped src page_addr) then
        let (k, pg) := page_alloc k in
        match pg with
        | None => Ret (mk_copied k dst src pgs (- ENOMEM))
        | Some pg =>
            let k := write_page k pg (content k src_pg) in
            let! pgs := wr pgs i (Some pg) in
            Ret (mk_copied k dst src pgs 0)
        end
      else
        match uvm_pte_flags src page_addr with
        | None => Ret (mk_copied k dst src pgs (- ENOMEM))
        | Some f =>
            let k := page_get k src_pg in
            let! pgs := wr pgs i (Some src_pg) in
            if has (flags r) PTE_W then
              let! m := map_user_page k dst page_addr src_pg (Z.lor (Z.land f (not64 PTE_W)) PTE_COW) in
              let '(k, dst, err) := m in
              if negb (err =? 0) then Ret (mk_copied k dst src pgs err)
              else let (src, err) := uvm_cow_protect src page_addr in Ret (mk_copied k dst src pgs err)
            else
              let f := if uvm_pte_is_cow src page_addr then Z.lor f PTE_COW else f in
              let! m := map_user_page k dst page_addr src_pg f in
              let '(k, dst, err) := m in
              Ret (mk_copied k dst src pgs err)
        end
  end.

(** [for (i = 0; i < npgs; i++)]; with it the index it stopped at. *)
Fixpoint copy_anon_loop (k : kstate) (dst src : uvm_space) (r : uvm_region) (pgs : list (option Z)) (i : Z) (n : nat) : res (copied * Z) :=
  match n with
  | O => Ret (mk_copied k dst src pgs 0, i)
  | S n' =>
      let! c := copy_anon_one k dst src r pgs i in
      if negb (c_err c =? 0) then Ret (c, i)
      else copy_anon_loop (c_k c) (c_dst c) (c_src c) r (c_pgs c) (i + 1) n'
  end.

(** [failed]: [for (j = 0; j <= i && j < npgs; ++j)]. *)
Fixpoint copy_undo (k : kstate) (dst : uvm_space) (r : uvm_region) (pgs : list (option Z)) (j : Z) (n : nat) : res (kstate * uvm_space) :=
  match n with
  | O => Ret (k, dst)
  | S n' =>
      let page_addr := u64 (addr r + u64 (j * PAGE_SIZE)) in
      let! pg := rd pgs j in
      match pg with
      | None => copy_undo k dst r pgs (j + 1) n'
      | Some p =>
          let dst := if uvm_page_is_mapped dst page_addr then unmap_user_page dst page_addr else dst in
          copy_undo (page_put k p) dst r pgs (j + 1) n'
      end
  end.

(** The body for page [i] of a shared file mapping. *)
Definition copy_shared_one (k : kstate) (dst src : uvm_space) (r : uvm_region) (pgs : list (option Z)) (i : Z) : res copied :=
  let page_addr := u64 (addr r + u64 (i * PAGE_SIZE)) in
  let! cp := rd (slots r) i in
  match cp with
  | None => Ret (mk_copied k dst src pgs (- EIO))
  | Some cp =>
      let k := cached_page_get k cp in
      if uvm_page_is_mapped src page_addr then
        match uvm_pte_flags src page_addr with
        | None => Ret (mk_copied (cached_page_put k cp) dst src pgs (- ENOMEM))
        | Some f =>
            let! m := map_user_page k dst page_addr (cp_page cp) f in
            let '(k, dst, err) := m in
            if negb (err =? 0) then Ret (mk_copied (cached_page_put k cp) dst src pgs err)
            else Ret (mk_copied k dst src (pgs ++ [Some cp]) 0)
        end
      else Ret (mk_copied k dst src (pgs ++ [Some cp]) 0)
  end.

(** [while (size > 0 && i < npgs)]. *)
Fixpoint copy_shared_loop (k : kstate) (dst src : uvm_space) (r : uvm_region) (pgs : list (option Z)) (i sz : Z) (n : nat) : res copied :=
  match n with
  | O => Ret (mk_copied k dst src pgs 0)
  | S n' =>
      if sz <=? 0 then Ret (mk_copied k dst src pgs 0)
      else
        let! c := copy_shared_one k dst src r pgs i in
        if negb (c_err c =? 0) then Ret c
        else copy_shared_loop (c_k c) (c_dst c) (c_src c) r (c_pgs c) (i + 1) (sz - PAGE_SIZE) n'
  end.

(** [d] is the region to fill.  The result is the states, the spaces, the region
    and the error or 0. *)
Definition uvm_space_copy_region (k : kstate) (d r : uvm_region) (dst src : uvm_space) : res (kstate * uvm_region * uvm_space * uvm_space * Z) :=
  let npgs := nr_pages r in
  match kind r with
  | UVM_REGION_SHARED_FILE =>
      let k := fs_file_get (fs_inode_get k (inode r)) (file r) in
      let (k, ok) := kalloc k in
      if negb ok then
        let k := fs_inode_put k (inode r) in
        let k := if file r =? 0 then k else fs_file_put k (file r) in
        Ret (k, mk_region (addr d) (size d) (slots d) (flags d) UVM_REGION_SHARED_FILE 0 0 (file_offset r), dst, src, - ENOMEM)
      else
        let! c := copy_shared_loop k dst src r [] 0 (size r) (length (slots r)) in
        let d' := mk_region (addr d) (size d) (c_pgs c) (flags d) UVM_REGION_SHARED_FILE (inode r) (file r) (file_offset r) in
        if c_err c =? 0 then
          Ret (c_k c, mk_region (addr r) (size r) (c_pgs c) (flags r) UVM_REGION_SHARED_FILE (inode r) (file r) (file_offset r), c_dst c, c_src c, 0)
        else
          let dst := uvm_region_unmap_range (c_dst c) d' 0 (nr_pages d') in
          let! kr := uvm_region_free_range (c_k c) d' 0 (nr_pages d') in
          let (k, d') := kr in
          let k := if inode r =? 0 then k else fs_inode_put k (inode r) in
          let k := if file r =? 0 then k else fs_file_put k (file r) in
          Ret (k, mk_region (addr d) (size d) (slots d') (flags d) UVM_REGION_SHARED_FILE 0 0 (file_offset r), dst, c_src c, c_err c)
  | UVM_REGION_ANON =>
      let (k, ok) := kalloc k in
      if negb ok then Ret (k, d, dst, src, - ENOMEM)
      else
        let! ci := copy_anon_loop k dst src r (replicate (Z.to_nat npgs) None) 0 (Z.to_nat npgs) in
        let (c, i) := ci in
        if c_err c =? 0 then
          Ret (c_k c, mk_region (addr r) (size r) (c_pgs c) (flags r) UVM_REGION_ANON (inode d) (file d) (file_offset d), c_dst c, c_src c, 0)
        else
          let! u := copy_undo (c_k c) (c_dst c) r (c_pgs c) 0 (Z.to_nat (Z.min (i + 1) npgs)) in
          let (k, dst) := u in
          Ret (k, d, dst, c_src c, c_err c)
  end.

(** [list_for_each_entry] with [list_add] to the front of [acc]. *)
Fixpoint copy_segments_loop (k : kstate) (dst src : uvm_space) (l acc : list uvm_region) : res (kstate * uvm_space * uvm_space * list uvm_region * Z) :=
  match l with
  | [] => Ret (k, dst, src, acc, 0)
  | curr :: l' =>
      let (k, ok) := uvm_region_alloc k in
      if negb ok then Ret (k, dst, src, acc, - ENOMEM)
      else
        let! c := uvm_space_copy_region k uvm_region_new curr dst src in
        let '(k, vma, dst, src, err) := c in
        if negb (err =? 0) then Ret (k, dst, src, acc, err)
        else copy_segments_loop k dst src l' (vma :: acc)
  end.

Definition uvm_space_copy_segments (k : kstate) (dst src : uvm_space) : res (kstate * uvm_space * uvm_space * Z) :=
  let! c := copy_segments_loop k dst src (seg src) [] in
  let '(k, dst, src, acc, err) := c in
  if err =? 0 then Ret (k, set_seg dst (acc ++ seg dst), src, 0)
  else
    let! r := free_list_loop k dst acc in
    let (k, dst) := r in Ret (k, dst, src, err).

Definition uvm_space_copy_heap (k : kstate) (dst src : uvm_space) : res (kstate * uvm_space * uvm_space * Z) :=
  if size (heap src) =? 0 then Ret (k, dst, src, 0)
  else
    let! c := uvm_space_copy_region k (heap dst) (heap src) dst src in
    let '(k, h, dst, src, err) := c in
    Ret (k, set_heap dst h, src, err).

End cached.

(** ** Copying a private region *)

Section copying.
Context (o : Z -> Z) (k0 : kstate) (dx d0 s0 : uvm_space) (r : uvm_region).
(** [d0] is [dx] with the regions copied so far put in. *)
Context (Hdx : pt dx = pt d0) (Hopos : forall p, 0 <= o p).
Context (Hs : inv (fun p => o p + cnt (regions d0) p) k0 s0) (Hd : inv (fun p => o p + cnt (regions s0) p) k0 d0).
Context (Hr : r ∈ regions s0) (Hkind : kind r = UVM_REGION_ANON) (Hnew : forall b, owns r b -> pt d0 !! b = None).
Context (Hsmall : forall p, prefs k0 p + Z.of_nat (length (slots r)) < 2 ^ 32).

Local Lemma Hrok : region_ok r.
Proof. pose proof (inv_regions _ _ _ Hs) as H. rewrite list.Forall_forall in H. auto. Qed.

(** What holds while pages are being copied, and if it fails. *)
Record copying (k : kstate) (d s : uvm_space) (pgs : list (option Z)) (n : nat) : Prop := {
  cp_len : length pgs = length (slots r);
  cp_refs : forall p, prefs k p = prefs k0 p + cnt_slots pgs p;
  cp_pool : NoDup (pool k) /\ (forall p, p ∈ pool k -> prefs k p = 0) /\ (forall p, p ∈ pool k -> p ∈ pool k0);
  cp_content : forall p, p ∉ pool k0 -> content k p = content k0 p;
  cp_dst : d = set_pt dx (pt d);
  cp_dpt : forall b, pt d !! b = pt d0 !! b \/ exists j p, (j < n)%nat /\ b = pa r j /\ pgs !! j = Some (Some p);
  cp_src : s = set_pt s0 (pt s);
  cp_spt : forall b, pt s !! b = pt s0 !! b \/
    (has (flags r) PTE_W = true /\ owns r b /\ exists p f f', pt s0 !! b = Some (p, f) /\ pt s !! b = Some (p, f') /\ has f' PTE_W = false /\ has f' PTE_COW = true);
  cp_rest : forall j, (n <= j < length (slots r))%nat -> pgs !! j = Some None
}.

(** What holds of a page that has been copied. *)
Definition copied_page (k : kstate) (d s : uvm_space) (pgs : list (option Z)) (j : nat) : Prop :=
  match slots r !! j with
  | Some (Some p) =>
      match pt s0 !! pa r j with
      | None => exists pg, pgs !! j = Some (Some pg) /\ content k pg = content k0 p /\ pg ∈ pool k0 /\ prefs k pg = 1 /\ pt d !! pa r j = None
      | Some _ => pgs !! j = Some (Some p) /\ (exists f, pt d !! pa r j = Some (p, f) /\ has f PTE_W = false /\ (has (flags r) PTE_W = true -> has f PTE_COW = true)) /\
          (has (flags r) PTE_W = true -> exists q f', pt s !! pa r j = Some (q, f') /\ has f' PTE_COW = true)
      end
  | _ => pgs !! j = Some None /\ pt d !! pa r j = None
  end.

Lemma copy_start k : pool k = pool k0 -> prefs k = prefs k0 -> content k = content k0 ->
  copying k dx s0 (replicate (length (slots r)) None) 0.
Proof.
  intros Hp Hf Hc. constructor; try done.
  - apply length_replicate.
  - intros p. rewrite Hf, cnt_slots_none. lia.
  - rewrite Hp, Hf. destruct (inv_pool _ _ _ Hs). split_and!; auto.
  - intros p _. by rewrite Hc.
  - by destruct dx.
  - intros b. left. by rewrite Hdx.
  - by destruct s0.
  - intros b. by left.
  - intros j Hj. apply lookup_replicate. split; [done | lia].
Qed.

Lemma backs_slot j x : slots r !! j = Some x -> backs s0 (pa r j) UVM_REGION_ANON (flags r) x.
Proof.
  intros Hj. destruct (pa_spec r j Hrok) as (_ & Ho & Ha & Hn & _); [by apply lookup_lt_Some in Hj |]. exists r. rewrite Hn. by split_and!.
Qed.

Lemma src_pages j p : slots r !! j = Some (Some p) -> 1 <= prefs k0 p /\ p ∉ pool k0.
Proof.
  intros Hj. pose proof (backs_cnt _ _ _ _ (backs_slot j _ Hj)). pose proof (inv_count _ _ _ Hs p) as Hc. pose proof (inv_others _ _ _ Hs p) as Ho. cbv beta in *.
  split; [lia |]. intros Hin. destruct (inv_pool _ _ _ Hs) as [_ Hz]. specialize (Hz p Hin). lia.
Qed.

Lemma copying_next k d s pgs n : copying k d s pgs n -> copying k d s pgs (S n).
Proof.
  intros [C1 C2 C3 C4 C5 C6 C7 C8 C9]. constructor; try done.
  - intros b. destruct (C6 b) as [? | (j & p & ? & ? & ?)]; [by left | right; exists j, p; split_and!; [lia | done | done]].
  - intros j Hj. apply C9. lia.
Qed.

Lemma copying_same k k' d s pgs n : pool k' = pool k -> prefs k' = prefs k -> content k' = content k -> copying k d s pgs n -> copying k' d s pgs n.
Proof. intros Hp Hf Hc [C1 C2 C3 C4 C5 C6 C7 C8 C9]. constructor; try done; [by rewrite Hf | by rewrite Hp, Hf | by rewrite Hc]. Qed.

Lemma copying_get k d s pgs n p : copying k d s pgs n -> slots r !! n = Some (Some p) -> copying (page_get k p) d s (<[n := Some p]> pgs) (S n).
Proof.
  intros Hc Hn. pose proof (copying_next _ _ _ _ _ Hc) as [C1 C2 C3 C4 C5 C6 C7 C8 _]. pose proof (lookup_lt_Some _ _ _ Hn) as Hlt. pose proof (cp_rest _ _ _ _ _ Hc n ltac:(lia)) as Hnone.
  destruct (src_pages n p Hn) as [Hpos Hnp].
  assert (Hle : cnt_slots pgs p < Z.of_nat (length (slots r))).
  { pose proof (cnt_slots_insert pgs n None (Some p) p Hnone) as E. rewrite bool_decide_false, bool_decide_true in E by done. cbn [one_if] in E.
    pose proof (cnt_slots_le (<[n := Some p]> pgs) p) as H. rewrite length_insert, C1 in H. lia. }
  assert (Hinc : refcnt_inc (prefs k p) = prefs k p + 1).
  { unfold refcnt_inc, refcnt_inc_fetch. cbn [fst]. apply u32_small. rewrite C2. specialize (Hsmall p). pose proof (cnt_slots_nonneg pgs p). lia. }
  assert (Hpf : forall q, prefs (page_get k p) q = prefs k q + one_if (bool_decide (Some p = Some q))).
  { intros q. unfold page_get. cbn [prefs set_pages]. rewrite Hinc. destruct (decide (q = p)) as [-> |]; [rewrite fn_lookup_insert, bool_decide_true by done; done |].
    rewrite fn_lookup_insert_ne, bool_decide_false by congruence. cbn [one_if]. lia. }
  constructor; try done.
  - by rewrite length_insert.
  - intros q. rewrite Hpf, C2, (cnt_slots_insert _ _ None) by done. rewrite (bool_decide_false (None = Some q)) by done. cbn [one_if]. lia.
  - destruct C3 as (N1 & N2 & N3). split_and!; try done. intros q Hq. rewrite Hpf. rewrite bool_decide_false; [rewrite N2 by done; done |].
    intros [= <-]. apply Hnp, N3, Hq.
  - intros b. destruct (C6 b) as [? | (j & q & Hj & -> & Hq)]; [by left | right]. destruct (decide (j = n)) as [-> | Hne].
    + congruence.
    + exists j, q. split_and!; [lia | done |]. by rewrite list_lookup_insert_ne.
  - intros j Hj. rewrite list_lookup_insert_ne by lia. apply (cp_rest _ _ _ _ _ Hc). lia.
Qed.

Lemma copying_dpt k d s pgs n p e : copying k d s pgs (S n) -> pgs !! n = Some (Some p) ->
  copying k (set_pt d (<[pa r n := e]> (pt d))) s pgs (S n).
Proof.
  intros [C1 C2 C3 C4 C5 C6 C7 C8 C9] Hn. constructor; try done; [by rewrite C5 |].
  intros b. cbn [pt set_pt]. destruct (decide (pa r n = b)) as [<- | Hne]; [right; exists n, p; split_and!; [lia | done | done] |].
  rewrite lookup_insert_ne by done. apply C6.
Qed.

Lemma copying_spt k d s pgs m n p f f' : copying k d s pgs m -> (n < length (slots r))%nat -> has (flags r) PTE_W = true -> pt s !! pa r n = Some (p, f) ->
  has f' PTE_W = false -> has f' PTE_COW = true -> copying k d (set_pt s (<[pa r n := (p, f')]> (pt s))) pgs m.
Proof.
  intros [C1 C2 C3 C4 C5 C6 C7 C8 C9] Hn Hw Hp Hf1 Hf2. constructor; try done; [by rewrite C7 |].
  intros b. cbn [pt set_pt]. destruct (decide (pa r n = b)) as [<- | Hne]; [| rewrite lookup_insert_ne by done; apply C8].
  right. split; [done |]. destruct (pa_spec r n Hrok Hn) as (_ & Ho & _). split; [done |]. rewrite lookup_insert_eq.
  destruct (C8 (pa r n)) as [E | (_ & _ & q & g & g' & E1 & E2 & _)].
  - exists p, f, f'. by rewrite <- E.
  - rewrite E2 in Hp. injection Hp as -> _. by exists p, g, f'.
Qed.

Lemma dpt_none k d s pgs n j : copying k d s pgs n -> (n <= j < length (slots r))%nat -> pt d !! pa r j = None.
Proof.
  intros [_ _ _ _ _ C6 _ _ _] Hj. destruct (C6 (pa r j)) as [-> | (j' & p & Hj' & E & _)].
  - apply Hnew. apply (pa_spec r j Hrok). lia.
  - apply pa_inj in E. lia.
Qed.

(** The entry of a source page leads to it. *)
Lemma src_entry k d s pgs m j p q f : copying k d s pgs m -> slots r !! j = Some (Some p) -> pt s !! pa r j = Some (q, f) ->
  q = p /\ (has (flags r) PTE_W = false -> has f PTE_W = false) /\ exists f0, pt s0 !! pa r j = Some (q, f0).
Proof.
  intros Hc Hj Hp. pose proof (backs_slot j _ Hj) as Hb.
  assert (H0 : exists f0, pt s0 !! pa r j = Some (q, f0) /\ (has (flags r) PTE_W = false -> f0 = f)).
  { destruct (cp_spt _ _ _ _ _ Hc (pa r j)) as [E | (Hw & _ & p' & g & g' & E1 & E2 & _)].
    - exists f. by rewrite <- E.
    - rewrite E2 in Hp. injection Hp as -> _. exists g. split; [done | congruence]. }
  destruct H0 as (f0 & E0 & Hf0). destruct (inv_pte _ _ _ Hs _ _ _ E0) as [Hst | (kd & fl & x & Hb' & Hfit)].
  - by apply (not_stack s0 _ _ _ _ (inv_geo _ _ _ Hs) Hb) in Hst.
  - destruct (backs_fun s0 _ _ _ _ _ _ _ (inv_geo _ _ _ Hs) Hb Hb') as (<- & <- & <-). destruct Hfit as [[= ->] Hfit]. split_and!; [done | | by exists f0].
    intros Hw. rewrite <- (Hf0 Hw). destruct (has f0 PTE_W); [| done]. destruct (Hfit eq_refl). congruence.
Qed.

Lemma copied_keep k d s pgs k' d' s' pgs' j : copied_page k d s pgs j -> pgs' !! j = pgs !! j -> pt d' !! pa r j = pt d !! pa r j -> pt s' !! pa r j = pt s !! pa r j ->
  (forall pg, pgs !! j = Some (Some pg) -> pg ∈ pool k0 -> content k' pg = content k pg /\ prefs k' pg = prefs k pg) -> copied_page k' d' s' pgs' j.
Proof.
  unfold copied_page. intros Hc Hp Hd' Hs' Hk. rewrite Hp, Hd', Hs'. destruct (slots r !! j) as [[p |] |]; try done.
  destruct (pt s0 !! pa r j); [done |]. destruct Hc as (pg & H1 & H2 & H3 & H4 & H5). destruct (Hk pg H1 H3) as [E1 E2]. exists pg. split_and!; congruence.
Qed.

Definition copy_step_ok (c : copied) (n : nat) : Prop :=
  copying (c_k c) (c_dst c) (c_src c) (c_pgs c) (S n) /\
  ((c_err c = 0 /\ forall j, (j < S n)%nat -> copied_page (c_k c) (c_dst c) (c_src c) (c_pgs c) j) \/ c_err c = - ENOMEM).

(** A page without an entry is copied. *)
Lemma copy_private k d s pgs n p : copying k d s pgs n -> (forall j, (j < n)%nat -> copied_page k d s pgs j) -> slots r !! n = Some (Some p) -> pt s !! pa r n = None ->
  exists c, (let (k, pg) := page_alloc k in
     match pg with
     | None => Ret (mk_copied k d s pgs (- ENOMEM))
     | Some pg => let k := write_page k pg (content k p) in let! pgs := wr pgs (Z.of_nat n) (Some pg) in Ret (mk_copied k d s pgs 0)
     end) = Ret c /\ copy_step_ok c n.
Proof.
  intros Hc Hdone Hn Hnone. pose proof (lookup_lt_Some _ _ _ Hn) as Hlt. pose proof (copying_next _ _ _ _ _ Hc) as Hc1.
  destruct (page_alloc_cases k) as [[-> _] | (k1 & pg & Ha & _)]; [eexists; split; [done |]; split; [done | by right] |]. rewrite Ha.
  pose proof Hc as [C1 C2 (N1 & N2 & N3) C4 C5 C6 C7 C8 C9]. pose proof (C9 n ltac:(lia)) as Hslot.
  rewrite wr_in_range by lia. rewrite Nat2Z.id. eexists. split; [done |].
  unfold page_alloc in Ha. destruct (pool k) as [| q l] eqn:Ep; [done |]. injection Ha as <- <-. cbn [pool set_pages] in *.
  apply list.NoDup_cons in N1 as [Hq Hnd]. assert (Hq0 : prefs k q = 0) by (apply N2; left). assert (Hq1 : q ∈ pool k0) by (apply N3; left).
  pose proof (C2 q) as Cq. pose proof (cnt_slots_nonneg pgs q) as Hge. destruct (inv_pool _ _ _ Hs) as [_ Hz]. pose proof (Hz q Hq1) as Hz0.
  destruct (src_pages n p Hn) as [_ Hpn].
  assert (Hs0 : pt s0 !! pa r n = None) by (destruct (C8 (pa r n)) as [<- | (_ & _ & ? & ? & ? & _ & E & _)]; [done | congruence]).
  split.
  - constructor; cbn [c_k c_dst c_src c_pgs pool prefs content write_page set_pages]; try done.
    + by rewrite length_insert.
    + intros t. rewrite (cnt_slots_insert _ _ None) by done. rewrite (bool_decide_false (None = Some t)) by done. cbn [one_if]. destruct (decide (t = q)) as [-> |].
      * rewrite fn_lookup_insert, bool_decide_true by done. cbn [one_if]. unfold refcnt_init. lia.
      * rewrite fn_lookup_insert_ne, bool_decide_false by congruence. cbn [one_if]. rewrite C2. lia.
    + split_and!; [done | | intros t Ht; apply N3; by right]. intros t Ht. rewrite fn_lookup_insert_ne by congruence. apply N2. by right.
    + intros t Ht. rewrite fn_lookup_insert_ne by congruence. auto.
    + intros b. destruct (C6 b) as [? | (j & t & Hj & -> & Ht)]; [by left | right]. exists j, t. split_and!; [lia | done |]. rewrite list_lookup_insert_ne by lia. done.
    + intros j Hj. rewrite list_lookup_insert_ne by lia. apply C9. lia.
  - left. split; [done |]. cbn [c_k c_dst c_src c_pgs]. intros j Hj. destruct (decide (j = n)) as [-> | Hne].
    + unfold copied_page. rewrite Hn, Hs0. exists q. cbn [content prefs write_page set_pages]. rewrite !fn_lookup_insert.
      split_and!; [apply list_lookup_insert_eq; lia | by apply C4 | done | done | by apply (dpt_none k d s pgs n)].
    + apply (copied_keep k d s pgs); [apply Hdone; lia | by rewrite list_lookup_insert_ne by lia | done | done |].
      intros t Ht Htin. cbn [content prefs write_page set_pages]. assert (t <> q) by (intros ->; pose proof (cnt_slots_pos _ _ _ Ht); lia). by rewrite !fn_lookup_insert_ne.
Qed.

(** A page with an entry is shared. *)
Lemma copy_shared_page k d s pgs n p q f : copying k d s pgs n -> (forall j, (j < n)%nat -> copied_page k d s pgs j) -> slots r !! n = Some (Some p) -> pt s !! pa r n = Some (q, f) ->
  exists c, (let k := page_get k p in
    let! pgs := wr pgs (Z.of_nat n) (Some p) in
    if has (flags r) PTE_W then
      let! m := map_user_page k d (pa r n) p (Z.lor (Z.land (Z.land f RWX) (not64 PTE_W)) PTE_COW) in
      let '(k, dst, err) := m in
      if negb (err =? 0) then Ret (mk_copied k dst s pgs err)
      else let (src, err) := uvm_cow_protect s (pa r n) in Ret (mk_copied k dst src pgs err)
    else
      let f := if uvm_pte_is_cow s (pa r n) then Z.lor (Z.land f RWX) PTE_COW else Z.land f RWX in
      let! m := map_user_page k d (pa r n) p f in
      let '(k, dst, err) := m in Ret (mk_copied k dst s pgs err)) = Ret c /\ copy_step_ok c n.
Proof.
  intros Hc Hdone Hn Hpt. pose proof (lookup_lt_Some _ _ _ Hn) as Hlt. destruct (src_entry k d s pgs n n p q f Hc Hn Hpt) as (Eq & Hro & f0 & Hs0). subst q.
  destruct (pa_spec r n Hrok Hlt) as (_ & _ & _ & _ & _ & Hrd). pose proof (copying_get _ _ _ _ _ _ Hc Hn) as Hg.
  pose proof (cp_len _ _ _ _ _ Hc) as Hlen. pose proof (dpt_none k d s pgs n n Hc ltac:(lia)) as Hdn.
  rewrite wr_in_range by lia. rewrite Nat2Z.id.
  assert (Hpg : (<[n := Some p]> pgs) !! n = Some (Some p)) by (apply list_lookup_insert_eq; lia).
  assert (Hkeep : forall k2 d2 s2, pool k2 = pool (page_get k p) -> prefs k2 = prefs (page_get k p) -> content k2 = content (page_get k p) ->
    (forall j, (j < n)%nat -> pt d2 !! pa r j = pt d !! pa r j) -> (forall j, (j < n)%nat -> pt s2 !! pa r j = pt s !! pa r j) ->
    forall j, (j < n)%nat -> copied_page k2 d2 s2 (<[n := Some p]> pgs) j).
  { intros k2 d2 s2 E1 E2 E3 Ed Es j Hj. apply (copied_keep k d s pgs); [by apply Hdone | by rewrite list_lookup_insert_ne by lia | by apply Ed | by apply Es |].
    intros t Ht Hin. rewrite E2, E3. unfold page_get. cbn [content prefs set_pages]. split; [done |]. apply fn_lookup_insert_ne. intros E. rewrite <- E in Hin. by destruct (src_pages n p Hn). }
  assert (Hins : forall (t : gmap Z (Z * Z)) e j, (j < n)%nat -> <[pa r n := e]> t !! pa r j = t !! pa r j).
  { intros t e j Hj. apply lookup_insert_ne. intros E. apply pa_inj in E. lia. }
  unfold map_user_page, uvm_page_is_mapped, uvm_cow_protect, uvm_pte_is_cow, lookup_pte, pte_set_leaf. rewrite Hrd, Hdn, Hpt. cbn [negb].
  destruct (kalloc_same (page_get k p)) as (k2 & ok & -> & E1 & E2 & E3). pose proof (copying_same _ k2 _ _ _ _ E1 E2 E3 Hg) as Hg2.
  destruct (has (flags r) PTE_W) eqn:Ew.
  - destruct ok; cbn [negb Z.eqb Z.opp ENOMEM]; [| eexists; split; [done |]; split; [done | by right]].
    set (fd := Z.lor (Z.lor (Z.land (Z.land f RWX) (not64 PTE_W)) PTE_COW) PTE_U).
    pose proof (copying_dpt _ _ _ _ _ p (p, fd) Hg2 Hpg) as Hg3.
    assert (Hfd : has fd PTE_W = false /\ has fd PTE_COW = true) by (unfold fd; split; flag_bits; done).
    destruct (negb (has f PTE_COW) || has f PTE_W) eqn:Eneed.
    + set (fs := Z.lor (Z.land f (not64 (Z.lor PTE_W PTE_COW))) PTE_COW). assert (Hfs : has fs PTE_W = false /\ has fs PTE_COW = true) by (unfold fs; split; flag_bits; done).
      eexists. split; [done |]. split; cbn [c_k c_dst c_src c_pgs c_err]; [apply (copying_spt _ _ _ _ _ n p f fs Hg3 Hlt Ew Hpt); apply Hfs |].
      left. split; [done |]. intros j Hj. destruct (decide (j = n)) as [-> | Hne]; [| apply Hkeep; [done | done | done | intros; by apply Hins | intros; by apply Hins | lia]].
      unfold copied_page. rewrite Hn, Hs0. cbn [pt set_pt]. rewrite !lookup_insert_eq. split_and!; [done | exists fd; by destruct Hfd | intros _; exists p, fs; by destruct Hfs].
    + apply orb_false_iff in Eneed as [Ec _]. apply negb_false_iff in Ec.
      eexists. split; [done |]. split; [done |]. cbn [c_k c_dst c_src c_pgs c_err].
      left. split; [done |]. intros j Hj. destruct (decide (j = n)) as [-> | Hne]; [| apply Hkeep; [done | done | done | intros; by apply Hins | done | lia]].
      unfold copied_page. rewrite Hn, Hs0. cbn [pt set_pt]. rewrite !lookup_insert_eq. split_and!; [done | exists fd; by destruct Hfd | intros _; exists p, f; done].
  - destruct ok; [| eexists; split; [done |]; split; [done | by right]].
    eexists. split; [done |]. split; cbn [c_k c_dst c_src c_pgs c_err]; [by apply copying_dpt with p |].
    left. split; [done |]. intros j Hj. destruct (decide (j = n)) as [-> | Hne]; [| apply Hkeep; [done | done | done | intros; by apply Hins | done | lia]].
    unfold copied_page. rewrite Hn, Hs0. cbn [pt set_pt]. rewrite !lookup_insert_eq. split_and!; [done | | by rewrite Ew].
    eexists. split; [done |]. split; [| by rewrite Ew]. specialize (Hro eq_refl). destruct (has f PTE_COW); flag_bits; by rewrite Hro.
Qed.

Lemma copy_one_spec k d s pgs n : copying k d s pgs n -> (forall j, (j < n)%nat -> copied_page k d s pgs j) -> (n < length (slots r))%nat ->
  exists c, copy_anon_one k d s r pgs (Z.of_nat n) = Ret c /\ copy_step_ok c n.
Proof.
  intros Hc Hdone Hn. destruct (pa_spec r n Hrok Hn) as (Hpa & _ & _ & _ & _ & Hrd). unfold copy_anon_one. rewrite Hpa.
  destruct (lookup_lt_is_Some_2 _ _ Hn) as [x Hx]. assert (Hr' : rd (slots r) (Z.of_nat n) = Ret x) by (apply rd_ret; split; [lia | by rewrite Nat2Z.id]). rewrite Hr'.
  destruct x as [p |].
  - unfold uvm_page_is_mapped, uvm_pte_flags, lookup_pte. rewrite Hrd. destruct (pt s !! pa r n) as [[q f] |] eqn:E; cbn [negb].
    + by apply (copy_shared_page k d s pgs n p q f).
    + by apply copy_private.
  - eexists. split; [done |]. split; cbn [c_k c_dst c_src c_pgs c_err]; [by apply copying_next |]. left. split; [done |]. intros j Hj.
    destruct (decide (j = n)) as [-> |]; [| apply Hdone; lia]. unfold copied_page. rewrite Hx. split; [apply (cp_rest _ _ _ _ _ Hc); lia | by apply (dpt_none k d s pgs n)].
Qed.

Lemma copy_anon_loop_spec (m : nat) : forall k d s pgs n, copying k d s pgs n -> (forall j, (j < n)%nat -> copied_page k d s pgs j) -> (n + m = length (slots r))%nat ->
  exists c i, copy_anon_loop k d s r pgs (Z.of_nat n) m = Ret (c, Z.of_nat i) /\
    (c_err c = 0 /\ copying (c_k c) (c_dst c) (c_src c) (c_pgs c) (length (slots r)) /\
       (forall j, (j < length (slots r))%nat -> copied_page (c_k c) (c_dst c) (c_src c) (c_pgs c) j) \/
     c_err c = - ENOMEM /\ (i < length (slots r))%nat /\ copying (c_k c) (c_dst c) (c_src c) (c_pgs c) (S i)).
Proof.
  induction m as [| m IH]; intros k d s pgs n Hc Hdone Hm; cbn [copy_anon_loop].
  - exists (mk_copied k d s pgs 0), n. split; [done |]. left. replace (length (slots r)) with n by lia. by split_and!.
  - destruct (copy_one_spec k d s pgs n Hc Hdone ltac:(lia)) as (c & -> & Hc' & Hout). destruct Hout as [[E Hdone'] | E].
    + rewrite E. cbn [negb Z.eqb]. replace (Z.of_nat n + 1) with (Z.of_nat (S n)) by lia. apply IH; [done | done | lia].
    + rewrite E. cbn [negb Z.eqb Z.opp ENOMEM]. exists c, n. split; [done |]. right. split_and!; [done | lia | done].
Qed.

(** ** Undoing a copy *)

Record undoing (pgs : list (option Z)) (k : kstate) (d : uvm_space) (n : nat) : Prop := {
  un_refs : forall p, prefs k p = prefs k0 p + cnt_slots (drop n pgs) p;
  un_pool : NoDup (pool k) /\ forall p, p ∈ pool k -> prefs k p = 0;
  un_content : forall p, p ∉ pool k0 -> content k p = content k0 p;
  un_dst : d = set_pt dx (pt d);
  un_dpt : forall b, pt d !! b = pt d0 !! b \/ exists j p, (n <= j)%nat /\ b = pa r j /\ pgs !! j = Some (Some p)
}.

Lemma undo_spec pgs (m : nat) : forall k d n, length pgs = length (slots r) -> undoing pgs k d n -> (n + m <= length pgs)%nat ->
  exists k' d', copy_undo k d r pgs (Z.of_nat n) m = Ret (k', d') /\ undoing pgs k' d' (n + m).
Proof.
  induction m as [| m IH]; intros k d n Hlen Hu Hm; cbn [copy_undo]; [exists k, d; by rewrite Nat.add_0_r |].
  destruct (lookup_lt_is_Some_2 pgs n) as [x Hx]; [lia |]. assert (Hrd : rd pgs (Z.of_nat n) = Ret x) by (apply rd_ret; split; [lia | by rewrite Nat2Z.id]). rewrite Hrd.
  destruct (pa_spec r n Hrok ltac:(lia)) as (Hpa & Ho & _ & _ & _ & Hround). rewrite Hpa.
  pose proof Hu as [U1 [U2 U3] U4 U5 U6]. assert (Hdrop : forall p, cnt_slots (drop n pgs) p = one_if (bool_decide (x = Some p)) + cnt_slots (drop (S n) pgs) p)
    by (intros p; by rewrite (drop_S pgs x n) by done).
  replace (Z.of_nat n + 1) with (Z.of_nat (S n)) by lia. replace (n + S m)%nat with (S n + m)%nat by lia.
  destruct x as [p |].
  - apply IH; [done | | lia].
    assert (Hpos : prefs k p = prefs k0 p + 1 + cnt_slots (drop (S n) pgs) p) by (rewrite U1, Hdrop, bool_decide_true by done; cbn [one_if]; lia).
    assert (Hk0 : 0 <= prefs k0 p) by (pose proof (inv_count _ _ _ Hs p); pose proof (inv_others _ _ _ Hs p); pose proof (cnt_nonneg (regions s0) p); cbv beta in *; lia).
    pose proof (cnt_slots_nonneg (drop (S n) pgs) p). destruct (put_spec k p) as (P1 & P2 & P3); [lia |].
    assert (Hpr : forall q, prefs (page_put k p) q = prefs k0 q + cnt_slots (drop (S n) pgs) q).
    { intros q. rewrite P1. destruct (decide (q = p)) as [-> |]; [rewrite fn_lookup_insert; lia |].
      rewrite fn_lookup_insert_ne, U1, Hdrop, bool_decide_false by congruence. cbn [one_if]. lia. }
    constructor.
    + done.
    + assert (Hz : forall q, q ∈ pool k -> prefs (page_put k p) q = 0).
      { intros q Hq. rewrite P1, fn_lookup_insert_ne; [auto |]. intros ->. specialize (U3 _ Hq). lia. }
      rewrite P3. destruct (decide (prefs k p = 1)) as [E |]; [| done]. split.
      * apply list.NoDup_cons. split; [intros Hin; specialize (U3 p Hin); lia | done].
      * intros q [-> | Hq]%elem_of_cons; [rewrite P1, fn_lookup_insert; lia | auto].
    + intros q Hq. rewrite P2. auto.
    + by destruct (uvm_page_is_mapped d (pa r n)); rewrite U5.
    + assert (Hpt : forall b, pt (if uvm_page_is_mapped d (pa r n) then unmap_user_page d (pa r n) else d) !! b = if decide (b = pa r n) then None else pt d !! b).
      { intros b. unfold uvm_page_is_mapped, unmap_user_page, pte_clear, lookup_pte. rewrite Hround. destruct (pt d !! pa r n) eqn:E; cbn [pt set_pt].
        - destruct (decide (b = pa r n)) as [-> |]; [apply lookup_delete_eq | by rewrite lookup_delete_ne by done].
        - destruct (decide (b = pa r n)) as [-> |]; done. }
      intros b. rewrite Hpt. destruct (decide (b = pa r n)) as [-> | Hb]; [left; symmetry; by apply Hnew |].
      destruct (U6 b) as [? | (j & q & Hj & -> & Hq)]; [by left | right]. exists j, q. split_and!; [| done | done]. destruct (decide (j = n)) as [-> |]; [done | lia].
  - apply IH; [done | | lia]. constructor; try done.
    + intros p. rewrite U1, Hdrop, bool_decide_false by done. cbn [one_if]. lia.
    + intros b. destruct (U6 b) as [? | (j & q & Hj & -> & Hq)]; [by left | right]. exists j, q. split_and!; [| done | done]. destruct (decide (j = n)) as [-> |]; [congruence | lia].
Qed.

Lemma cnt_slots_zero l p : (forall j, l !! j <> Some (Some p)) -> cnt_slots l p = 0.
Proof.
  induction l as [| x l IH]; intros H; [done |]. cbn [cnt_slots]. rewrite bool_decide_false by (intros ->; by apply (H 0%nat)).
  rewrite IH; [done |]. intros j. apply (H (S j)).
Qed.

Lemma undo_all k d s pgs i : copying k d s pgs (S i) -> (i < length (slots r))%nat ->
  exists k', copy_undo k d r pgs 0 (S i) = Ret (k', dx) /\ (forall p, prefs k' p = prefs k0 p) /\
    (NoDup (pool k') /\ forall p, p ∈ pool k' -> prefs k' p = 0) /\ (forall p, p ∉ pool k0 -> content k' p = content k0 p).
Proof.
  intros [C1 C2 (N1 & N2 & _) C4 C5 C6 C7 C8 C9] Hi. destruct (undo_spec pgs (S i) k d 0 C1) as (k' & d' & E & [U1 U2 U3 U4 U5]); [| lia |].
  { constructor; try done. intros b. destruct (C6 b) as [? | (j & p & _ & ? & ?)]; [by left | right; exists j, p; split_and!; [lia | done | done]]. }
  assert (Hrest : forall j p, (S i <= j)%nat -> pgs !! j <> Some (Some p)).
  { intros j p Hj E'. pose proof (lookup_lt_Some _ _ _ E'). rewrite C9 in E' by lia. done. }
  exists k'. cbn [Nat.add] in *. replace d' with dx in E; [split_and!; [exact E | | apply U2 | apply U2 | done] |].
  - intros p. rewrite U1, cnt_slots_zero; [lia |]. intros j E'. rewrite lookup_drop in E'. by apply Hrest in E'; [| lia].
  - rewrite U4. assert (Ept : pt d' = pt dx).
    { apply map_eq. intros b. destruct (U5 b) as [-> | (j & p & Hj & _ & E')]; [by rewrite Hdx | by apply Hrest in E']. }
    rewrite Ept. by destruct dx.
Qed.

(** ** Both spaces after a copy *)

Lemma src_after o' k' k d s pgs n : copying k d s pgs n -> (forall p, 0 <= o' p) -> (forall p, prefs k' p = o' p + cnt (regions s0) p) ->
  (NoDup (pool k') /\ forall p, p ∈ pool k' -> prefs k' p = 0) ->
  (forall a fl p, backs s0 a UVM_REGION_ANON fl (Some p) -> writable_as_is s0 a fl -> writable_as_is s a fl -> prefs k' p = 1) ->
  inv o' k' s.
Proof.
  intros [_ _ _ _ _ _ C7 C8 _] Ho Hcnt Hpool Hex. assert (Hregs : regions s = regions s0) by (by rewrite C7).
  assert (Hbk : forall a kd fl x, backs s a kd fl x <-> backs s0 a kd fl x) by (intros; unfold backs; by rewrite Hregs).
  constructor.
  - rewrite C7. by destruct (inv_geo _ _ _ Hs).
  - rewrite Hregs. apply Hs.
  - done.
  - done.
  - by rewrite Hregs.
  - intros a p f Hl. assert (Hst : stack s = stack s0) by (by rewrite C7). rewrite Hst. destruct (C8 a) as [E | (Hw & Ho' & q & g & g' & E1 & E2 & Hg1 & Hg2)].
    + rewrite E in Hl. destruct (inv_pte _ _ _ Hs _ _ _ Hl) as [? | (kd & fl & x & Hb & Hf)]; [by left | right]. exists kd, fl, x. by rewrite Hbk.
    + rewrite E2 in Hl. injection Hl as -> ->. destruct (inv_pte _ _ _ Hs _ _ _ E1) as [? | (kd & fl & x & Hb & Hf)]; [by left | right]. exists kd, fl, x. rewrite Hbk. split; [done |].
      destruct Hb as (t & Ht & Hot & _ & _ & Hk & _). assert (t = r) as -> by (by apply (owner_unique s0 _ _ a (inv_geo _ _ _ Hs))).
      rewrite Hkind in Hk. subst kd. destruct Hf as [-> _]. split; [done | congruence].
  - intros a fl p Hb Hw. apply Hbk in Hb. apply (Hex a fl p Hb); [| done]. unfold writable_as_is in *.
    destruct (C8 a) as [<- | (_ & _ & q & g & g' & _ & E2 & _ & Hg2)]; [done |]. rewrite E2 in Hw. destruct Hw. congruence.
Qed.

(** A page of the copy comes from the pool or is the source's. *)
Lemma pgs_from k d s pgs p j : (forall j, (j < length (slots r))%nat -> copied_page k d s pgs j) -> copying k d s pgs (length (slots r)) -> pgs !! j = Some (Some p) ->
  (p ∈ pool k0 /\ prefs k p = 1 /\ pt d !! pa r j = None) \/
  (slots r !! j = Some (Some p) /\ (exists e, pt s0 !! pa r j = Some e) /\
   (exists f, pt d !! pa r j = Some (p, f) /\ has f PTE_W = false /\ (has (flags r) PTE_W = true -> has f PTE_COW = true)) /\
   (has (flags r) PTE_W = true -> exists q f', pt s !! pa r j = Some (q, f') /\ has f' PTE_COW = true)).
Proof.
  intros Hall Hc Hj. pose proof (lookup_lt_Some _ _ _ Hj) as Hlt. rewrite (cp_len _ _ _ _ _ Hc) in Hlt. specialize (Hall j Hlt). unfold copied_page in Hall.
  destruct (slots r !! j) as [[q |] |]; [| destruct Hall; congruence | destruct Hall; congruence].
  destruct (pt s0 !! pa r j) as [e |].
  - right. destruct Hall as (E & Hd' & Hs'). rewrite Hj in E. injection E as <-. split_and!; try done. by exists e.
  - left. destruct Hall as (pg & E & _ & H1 & H2 & H3). rewrite Hj in E. injection E as <-. done.
Qed.

Lemma src_after_copy k d s pgs d1 : copying k d s pgs (length (slots r)) -> (forall j, (j < length (slots r))%nat -> copied_page k d s pgs j) ->
  (forall p, cnt (regions d1) p = cnt (regions d0) p + cnt_slots pgs p) -> inv (fun p => o p + cnt (regions d1) p) k s.
Proof.
  intros Hc Hall Hcnt. pose proof Hc as [C1 C2 (N1 & N2 & _) _ _ _ _ _ _]. apply (src_after _ k k d s pgs _ Hc).
  - intros p. rewrite Hcnt. pose proof (inv_others _ _ _ Hs p). pose proof (cnt_slots_nonneg pgs p). cbv beta in *. lia.
  - intros p. rewrite C2, Hcnt. pose proof (inv_count _ _ _ Hs p). cbv beta in *. lia.
  - done.
  - intros a fl p Hb Hw0 Hw. pose proof (inv_excl _ _ _ Hs a fl p Hb Hw0) as H1. rewrite C2, cnt_slots_zero; [lia |]. intros j Hj.
    destruct (pgs_from k d s pgs p j Hall Hc Hj) as [(Hin & _) | (Hsl & (e & He) & _ & Hcow)].
    + destruct (inv_pool _ _ _ Hs) as [_ Hz]. specialize (Hz p Hin). lia.
    + pose proof (backs_slot j _ Hsl) as Hbj. destruct (decide (pa r j = a)) as [E | Hne].
      * subst a. destruct (backs_fun s0 _ _ _ _ _ _ _ (inv_geo _ _ _ Hs) Hb Hbj) as (_ & -> & _). unfold writable_as_is in Hw0, Hw. rewrite He in Hw0. destruct e as [q f], Hw0 as [_ Hwf].
        destruct (Hcow Hwf) as (q' & f' & E' & Hf'). rewrite E' in Hw. destruct Hw. congruence.
      * pose proof (backs_two s0 _ _ _ _ _ (inv_geo _ _ _ Hs) (inv_regions _ _ _ Hs) Hne Hbj Hb). pose proof (inv_count _ _ _ Hs p). pose proof (inv_others _ _ _ Hs p). cbv beta in *. lia.
Qed.

Lemma dst_after_copy k d s pgs d1 : copying k d s pgs (length (slots r)) -> (forall j, (j < length (slots r))%nat -> copied_page k d s pgs j) ->
  space_geo d1 -> Forall region_ok (regions d1) -> pt d1 = pt d -> stack d1 = stack d0 ->
  (forall p, cnt (regions d1) p = cnt (regions d0) p + cnt_slots pgs p) ->
  (forall b kd fl x, backs d1 b kd fl x <-> backs d0 b kd fl x \/ exists j, b = pa r j /\ kd = UVM_REGION_ANON /\ fl = flags r /\ pgs !! j = Some x) ->
  inv (fun p => o p + cnt (regions s0) p) k d1.
Proof.
  intros Hc Hall Hg Hro Hpt Hst Hcnt Hbk. pose proof Hc as [C1 C2 (N1 & N2 & _) _ _ C6 _ _ _]. constructor; try done.
  - apply Hd.
  - intros p. rewrite C2, Hcnt. pose proof (inv_count _ _ _ Hd p). cbv beta in *. lia.
  - intros a p f Hl. rewrite Hpt in Hl. rewrite Hst. destruct (C6 a) as [E | (j & q & Hj & -> & Hq)].
    + rewrite E in Hl. destruct (inv_pte _ _ _ Hd _ _ _ Hl) as [? | (kd & fl & x & Hb & Hf)]; [by left | right]. exists kd, fl, x. rewrite Hbk. auto.
    + destruct (pgs_from k d s pgs q j Hall Hc Hq) as [(_ & _ & E) | (_ & _ & (g & E & Hg1 & _) & _)]; [congruence |]. rewrite E in Hl. injection Hl as -> ->.
      right. exists UVM_REGION_ANON, (flags r), (Some p). split; [apply Hbk; right; by exists j |]. split; [done | congruence].
  - intros a fl p Hb Hw. unfold writable_as_is in Hw. rewrite Hpt in Hw.
    assert (Hnew' : forall j, pgs !! j = Some (Some p) -> a = pa r j -> fl = flags r -> prefs k p = 1).
    { intros j Hj -> ->. destruct (pgs_from k d s pgs p j Hall Hc Hj) as [(_ & H1 & _) | (_ & _ & (g & E & _ & Hcow) & _)]; [done |].
      rewrite E in Hw. destruct Hw as [Hc0 Hwf]. rewrite Hcow in Hc0 by done. done. }
    destruct (C6 a) as [E | (j & q & Hj & Ea & Hq)].
    + apply Hbk in Hb as [Hb | (j & -> & _ & -> & Hj)]; [| by apply (Hnew' j)].
      assert (H1 : prefs k0 p = 1) by (apply (inv_excl _ _ _ Hd a fl p Hb); unfold writable_as_is; by rewrite <- E).
      rewrite C2, cnt_slots_zero; [lia |]. intros j Hj. pose proof (backs_cnt _ _ _ _ Hb). pose proof (inv_count _ _ _ Hd p). pose proof (inv_others _ _ _ Hs p). cbv beta in *.
      destruct (pgs_from k d s pgs p j Hall Hc Hj) as [(Hin & _) | (Hsl & _)].
      * destruct (inv_pool _ _ _ Hs) as [_ Hz]. specialize (Hz p Hin). lia.
      * pose proof (backs_cnt _ _ _ _ (backs_slot j _ Hsl)). pose proof (inv_count _ _ _ Hs p). pose proof (Hopos p). cbv beta in *. lia.
    + assert (Hb2 : backs d1 a UVM_REGION_ANON (flags r) (Some q)) by (apply Hbk; right; by exists j).
      destruct (backs_fun d1 _ _ _ _ _ _ _ Hg Hb Hb2) as (_ & -> & [= ->]). by apply (Hnew' j).
Qed.

(** The whole of [uvm_space_copy_region] for a private region: a region with
    copied pages, or nothing changed but copy-on-write marks in the source. *)
Lemma copy_region_spec cp_page dd :
  exists k' d' dst' src' e, uvm_space_copy_region cp_page k0 dd r dx s0 = Ret (k', d', dst', src', e) /\
    (forall p, p ∉ pool k0 -> content k' p = content k0 p) /\
    (e = 0 /\ (exists pgs, d' = mk_region (addr r) (size r) pgs (flags r) UVM_REGION_ANON (inode dd) (file dd) (file_offset dd) /\
       copying k' dst' src' pgs (length (slots r)) /\ forall j, (j < length (slots r))%nat -> copied_page k' dst' src' pgs j) \/
     e = - ENOMEM /\ d' = dd /\ dst' = dx /\ src' = set_pt s0 (pt src') /\
       inv (fun p => o p + cnt (regions d0) p) k' src' /\ inv (fun p => o p + cnt (regions s0) p) k' d0).
Proof.
  unfold uvm_space_copy_region. rewrite Hkind. destruct (kalloc_same k0) as (k1 & ok & -> & E1 & E2 & E3). destruct ok; cbn [negb].
  2: { do 5 eexists. split; [done |]. split; [by rewrite E3 |]. right. split_and!; try done; [by destruct s0 | |]; by apply (inv_same _ k0); [| intros; rewrite E2 |]. }
  unfold nr_pages. rewrite Nat2Z.id. destruct (copy_anon_loop_spec (length (slots r)) k1 dx s0 _ 0 (copy_start k1 E1 E2 E3)) as (c & i & E & Hout); [lia | lia |].
  change (Z.of_nat 0) with 0 in E. rewrite E. destruct Hout as [(-> & Hc & Hall) | (-> & Hi & Hc)]; cbn [Z.eqb Z.opp ENOMEM].
  - do 5 eexists. split; [done |]. split; [apply (cp_content _ _ _ _ _ Hc) |]. left. split; [done |]. by exists (c_pgs c).
  - replace (Z.to_nat (Z.min (Z.of_nat i + 1) (Z.of_nat (length (slots r))))) with (S i) by lia.
    destruct (undo_all _ _ _ _ _ Hc Hi) as (k' & -> & Hp & Hpool & Hcont). do 5 eexists. split; [done |]. split; [done |]. right.
    split_and!; try done; [apply (cp_src _ _ _ _ _ Hc) | |].
    + apply (src_after _ k' _ _ _ _ _ Hc); [apply Hs | intros p; rewrite Hp; apply (inv_count _ _ _ Hs) | done |].
      intros a fl p Hb Hw _. rewrite Hp. by apply (inv_excl _ _ _ Hs a fl).
    + destruct Hd as [H1 H2 H3 H4 H5 H6 H7]. constructor; try done; [intros p; rewrite Hp; auto |]. intros a fl p Hb Hw. rewrite Hp. eauto.
Qed.

End copying.

(** ** Copying the mappings *)

(** A region joins the space that is being built. *)
Lemma added_region d acc r pgs i f fo : space_geo (set_seg d acc) -> Forall region_ok (regions (set_seg d acc)) -> region_ok r -> length pgs = length (slots r) ->
  Forall (apart r) (all_regions (set_seg d acc)) ->
  let vma := mk_region (addr r) (size r) pgs (flags r) UVM_REGION_ANON i f fo in
  let d1 := set_seg d (vma :: acc) in
  space_geo d1 /\ Forall region_ok (regions d1) /\ (forall p, cnt (regions d1) p = cnt (regions (set_seg d acc)) p + cnt_slots pgs p) /\
  forall b kd fl x, backs d1 b kd fl x <-> backs (set_seg d acc) b kd fl x \/ exists j, b = pa r j /\ kd = UVM_REGION_ANON /\ fl = flags r /\ pgs !! j = Some x.
Proof.
  intros [Hpl Hap Ht Hta] Hro [Hp Hsz Hrd] Hlen Hapr vma d1.
  assert (Hperm : all_regions d1 ≡ₚ vma :: all_regions (set_seg d acc)) by done.
  assert (Hreg : regions d1 = vma :: regions (set_seg d acc)) by done.
  assert (Hvok : region_ok vma) by (constructor; [by destruct Hp | unfold nr_pages in *; cbn [slots vma size]; by rewrite Hlen | done]). split_and!.
  - constructor; [| | done | done]; rewrite Hperm; [constructor; [apply Hvok | done] |]. split; [| done]. apply (list.Forall_impl _ _ _ Hapr). intros q Hq b. apply (Hq b).
  - rewrite Hreg. by constructor.
  - intros p. rewrite Hreg. cbn [cnt]. unfold cnt_region at 1. cbn [kind slots vma]. lia.
  - intros b kd fl x. unfold backs at 1. rewrite Hreg. split.
    + intros (q & [-> | Hq]%elem_of_cons & Ho & Hal & Hs & <- & <-); [right | left; by exists q]. exists (slot_no vma b). split_and!; try done.
      unfold pa, slot_no, owns in *. cbn [addr vma] in *. destruct Hp as [? _ _ ? _]. unfold PAGE_SIZE in *. rewrite Z2Nat.id by (apply Z.div_pos; lia). zdm.
    + intros [(q & Hq & H) | (j & -> & -> & -> & Hj)]; [exists q; split; [by right | done] |]. exists vma. apply lookup_lt_Some in Hj as Hlt.
      destruct (pa_spec vma j Hvok Hlt) as (_ & H1 & H2 & H3 & _). change (pa vma j) with (pa r j) in *. rewrite H3. split_and!; try done. left.
Qed.

(** What a space reads stays when the pages that are in use keep their contents. *)
Lemma reads_kept others k k' d d' b c : inv others k d -> (forall p, p ∉ pool k -> content k' p = content k p) ->
  (forall kd fl x, backs d b kd fl x -> backs d' b kd fl x) -> reads k d b c -> reads k' d' b c.
Proof.
  intros Hinv Hc Hb (fl & x & Hx & ->). exists fl, x. split; [by apply Hb |]. destruct x as [p |]; [| done]. rewrite Hc; [done |]. intros Hp.
  pose proof (backs_cnt _ _ _ _ Hx). pose proof (inv_count _ _ _ Hinv p). pose proof (inv_others _ _ _ Hinv p). pose proof (proj2 (inv_pool _ _ _ Hinv) p Hp). lia.
Qed.

Lemma reads_fun k d b c c' : space_geo d -> reads k d b c -> reads k d b c' -> c = c'.
Proof. intros Hg (fl & x & Hx & ->) (fl' & x' & Hx' & ->). destruct (backs_fun d _ _ _ _ _ _ _ Hg Hx Hx') as (_ & _ & ->). done. Qed.

(** All the pages a list of regions may take. *)
Definition total (l : list uvm_region) : Z := Z.of_nat (sum_list_with (fun r => length (slots r)) l).

(** Where a region is and what may be done there. *)
Definition shape (r : uvm_region) : Z * Z * Z * region_kind := (addr r, size r, flags r, kind r).

(** One region of the source is copied, or the child is as it was. *)
Lemma copied_reads o k0 k d0 s0 dst src r pgs d1 b c : inv (fun p => o p + cnt (regions d0) p) k0 s0 -> r ∈ regions s0 -> kind r = UVM_REGION_ANON -> owns r b ->
  copying k0 dst d0 s0 r k d1 src pgs (length (slots r)) -> (forall j, (j < length (slots r))%nat -> copied_page k0 s0 r k d1 src pgs j) ->
  reads k0 s0 b c -> exists x, pgs !! slot_no r b = Some x /\ b = pa r (slot_no r b) /\ c = match x with Some p => content k p | None => fun _ => 0 end.
Proof.
  intros Hs Hr Hk Ho Hc Hall (fl & x & Hb & ->). assert (Hok : region_ok r) by (pose proof (inv_regions _ _ _ Hs) as H; rewrite list.Forall_forall in H; auto).
  pose proof Hb as (q & Hq & Hoq & Hal & Hsl & Hkq & Hfq). pose proof (owner_unique s0 q r b (inv_geo _ _ _ Hs) Hq Hr Hoq Ho) as ->.
  pose proof (slot_in_range r b Hok Ho Hal) as Hj. specialize (Hall _ Hj).
  assert (Epa : b = pa r (slot_no r b)).
  { unfold pa, slot_no, owns in *. destruct Hok as [[? _ _ ? _] _ _]. unfold PAGE_SIZE in *. rewrite Z2Nat.id by (apply Z.div_pos; lia). zdm. }
  unfold copied_page in Hall. rewrite Hsl in Hall. destruct x as [p |]; [| exists None; by destruct Hall].
  destruct (pt s0 !! pa r (slot_no r b)) as [e |].
  - destruct Hall as (Hp & _). exists (Some p). split_and!; try done. symmetry. apply (cp_content _ _ _ _ _ _ _ _ _ _ Hc). intros Hin.
    pose proof (backs_cnt _ _ _ _ Hb). pose proof (inv_count _ _ _ Hs p). pose proof (inv_others _ _ _ Hs p). pose proof (proj2 (inv_pool _ _ _ Hs) p Hin). cbv beta in *. lia.
  - destruct Hall as (pg & Hp & Hcont & _). by exists (Some pg).
Qed.

(** What the loop over the mappings leaves behind. *)
Definition segments_copied (o : Z -> Z) (k k' : kstate) (dst src : uvm_space) (l acc acc' : list uvm_region) (t u : gmap Z (Z * Z)) (e : Z) : Prop :=
  let d0 := set_seg dst acc in
  let d' := set_seg (set_pt dst t) acc' in
  inv (fun p => o p + cnt (regions d') p) k' (set_pt src u) /\ inv (fun p => o p + cnt (regions src) p) k' d' /\
  (forall p, p ∉ pool k -> content k' p = content k p) /\
  (e = - ENOMEM \/
   e = 0 /\ map shape acc' = reverse (map shape l) ++ map shape acc /\
     (forall b c, reads k d0 b c -> reads k' d' b c) /\ (forall r b c, r ∈ l -> owns r b -> reads k src b c -> reads k' d' b c) /\
     (forall b kd fl x, backs d' b kd fl x -> backs d0 b kd fl x \/ exists r, r ∈ l /\ owns r b)).

Lemma segments_loop_spec cp_page o l : (forall p, 0 <= o p) -> forall k dst src acc,
  inv (fun p => o p + cnt (regions (set_seg dst acc)) p) k src -> inv (fun p => o p + cnt (regions src) p) k (set_seg dst acc) ->
  (forall r, r ∈ l -> r ∈ regions src /\ kind r = UVM_REGION_ANON /\ Forall (apart r) (all_regions (set_seg dst acc)) /\ forall b, owns r b -> pt dst !! b = None) ->
  apart_all l -> (forall p, prefs k p + total l < 2 ^ 32) ->
  exists k' t u acc' e, copy_segments_loop cp_page k dst src l acc = Ret (k', set_pt dst t, set_pt src u, acc', e) /\ segments_copied o k k' dst src l acc acc' t u e.
Proof.
  intros Hopos. induction l as [| r l IH]; intros k dst src acc Hs Hd Hl Hap Hsmall; cbn [copy_segments_loop].
  { exists k, (pt dst), (pt src), acc, 0. unfold segments_copied. assert (Ed : set_pt dst (pt dst) = dst) by (by destruct dst). assert (Es : set_pt src (pt src) = src) by (by destruct src).
    rewrite Ed, Es. split; [done |]. split_and!; try done. right. split_and!; try done; [by intros r b c ?%elem_of_nil |]. by left. }
  unfold uvm_region_alloc. destruct (kalloc_same k) as (k1 & ok & -> & E1 & E2 & E3).
  assert (Hs1 : inv (fun p => o p + cnt (regions (set_seg dst acc)) p) k1 src) by (apply (inv_same _ k); [done | intros; by rewrite E2 | done]).
  assert (Hd1 : inv (fun p => o p + cnt (regions src) p) k1 (set_seg dst acc)) by (apply (inv_same _ k); [done | intros; by rewrite E2 | done]).
  assert (Edst : set_pt dst (pt dst) = dst) by (by destruct dst). assert (Esrc : set_pt src (pt src) = src) by (by destruct src).
  destruct ok; cbn [negb]. 2: { exists k1, (pt dst), (pt src), acc, (- ENOMEM). rewrite Edst, Esrc. split; [done |]. unfold segments_copied. rewrite Edst, Esrc. split_and!; try done; [by rewrite E3 | by left]. }
  destruct (Hl r) as (Hr & Hk & Hapr & Hnew); [left |]. assert (Htot : total (r :: l) = Z.of_nat (length (slots r)) + total l) by (unfold total; cbn [sum_list_with]; lia).
  assert (Hrok : region_ok r) by (pose proof (inv_regions _ _ _ Hs) as H; rewrite list.Forall_forall in H; auto).
  destruct (copy_region_spec o k1 dst (set_seg dst acc) src r eq_refl Hs1 Hd1 Hr Hk Hnew) with (cp_page := cp_page) (dd := uvm_region_new) as (k2 & d' & dst2 & src2 & e & -> & Hcont & Hout).
  { intros p. rewrite E2. specialize (Hsmall p). unfold total in *. lia. }
  destruct Hout as [(-> & pgs & -> & Hc & Hall) | (-> & _ & -> & Esr & HI1 & HI2)]; cbn [Z.eqb negb].
  2: { exists k2, (pt dst), (pt src2), acc, (- ENOMEM). rewrite Edst, <- Esr. split; [done |]. unfold segments_copied. rewrite Edst, <- Esr. split_and!; try done; [| by left]. rewrite <- E1, <- E3. done. }
  cbn [negb]. change (inode uvm_region_new) with 0. change (file uvm_region_new) with 0. change (file_offset uvm_region_new) with 0. set (vma := mk_region _ _ _ _ _ _ _ _).
  destruct (added_region dst acc r pgs 0 0 0 (inv_geo _ _ _ Hd) (inv_regions _ _ _ Hd) Hrok (cp_len _ _ _ _ _ _ _ _ _ _ Hc) Hapr) as (G1 & G2 & G3 & G4). fold vma in G1, G2, G3, G4.
  pose proof (cp_dst _ _ _ _ _ _ _ _ _ _ Hc) as Ed2. pose proof (cp_src _ _ _ _ _ _ _ _ _ _ Hc) as Es2. destruct (cp_pool _ _ _ _ _ _ _ _ _ _ Hc) as (N1 & N2 & N3).
  set (d1 := set_seg dst2 (vma :: acc)). assert (Ereg : regions d1 = regions (set_seg dst (vma :: acc))) by (unfold d1; rewrite Ed2; done).
  assert (Hbk : forall b kd fl x, backs d1 b kd fl x <-> backs (set_seg dst acc) b kd fl x \/ exists j, b = pa r j /\ kd = UVM_REGION_ANON /\ fl = flags r /\ pgs !! j = Some x).
  { intros b kd fl x. rewrite <- G4. unfold backs. by rewrite Ereg. }
  assert (Hcnt : forall p, cnt (regions d1) p = cnt (regions (set_seg dst acc)) p + cnt_slots pgs p) by (intros p; by rewrite Ereg).
  assert (Hs2 : inv (fun p => o p + cnt (regions d1) p) k2 src2) by (by apply (src_after_copy o k1 dst (set_seg dst acc) src r Hs1 Hr Hk k2 dst2 src2 pgs)).
  assert (Rsrc : regions src2 = regions src) by (by rewrite Es2).
  assert (Hd2 : inv (fun p => o p + cnt (regions src2) p) k2 d1).
  { rewrite Rsrc. apply (dst_after_copy o k1 dst (set_seg dst acc) src r Hopos Hs1 Hd1 Hr Hk k2 dst2 src2 pgs); try done; unfold d1; [rewrite Ed2; by destruct G1 | by rewrite Ed2 | by rewrite Ed2]. }
  destruct Hap as [Hapl Hap].
  destruct (IH k2 dst2 src2 (vma :: acc)) as (k' & t & u & acc' & e & -> & Hi); try done.
  { intros q Hq. destruct (Hl q) as (Q1 & Q2 & Q3 & Q4); [by right |]. rewrite Rsrc. rewrite list.Forall_forall in Hapl. split_and!; try done.
    - assert (Eall : all_regions (set_seg dst2 (vma :: acc)) = vma :: all_regions (set_seg dst acc)) by (by rewrite Ed2). rewrite Eall. constructor; [| done]. intros b Hb1 Hb2. by apply (Hapl q Hq b).
    - intros b Hb. destruct (cp_dpt _ _ _ _ _ _ _ _ _ _ Hc b) as [-> | (j & p & Hj & -> & _)]; [by apply Q4 |]. exfalso. destruct (pa_spec r j Hrok Hj) as (_ & Ho & _). by apply (Hapl q Hq (pa r j)). }
  { intros p. rewrite (cp_refs _ _ _ _ _ _ _ _ _ _ Hc p), E2. pose proof (cnt_slots_le pgs p) as Hle. rewrite (cp_len _ _ _ _ _ _ _ _ _ _ Hc) in Hle. specialize (Hsmall p). lia. }
  assert (Et : forall m, set_pt dst2 m = set_pt dst m) by (intros m; by rewrite Ed2). assert (Eu : forall m, set_pt src2 m = set_pt src m) by (intros m; by rewrite Es2).
  exists k', t, u, acc', e. unfold segments_copied in *. cbv zeta in *. rewrite Et, Eu, Rsrc in Hi. rewrite Et, Eu. destruct Hi as (I1 & I2 & I3 & I4). split; [done |].
  assert (Hout : forall p, p ∉ pool k -> p ∉ pool k2) by (intros p Hp Hp2; apply Hp; rewrite <- E1; by apply N3).
  assert (Hck : forall p, p ∉ pool k -> content k2 p = content k p) by (intros p Hp; rewrite <- E3; apply Hcont; by rewrite E1).
  split_and!; try done; [intros p Hp; rewrite I3 by auto; auto |]. destruct I4 as [-> | (-> & J1 & J2 & J3 & J4)]; [by left | right]. split_and!; try done.
  - cbn [map] in *. rewrite J1, reverse_cons, <- app_assoc. cbn [app]. unfold shape at 3. cbn [addr size flags kind vma]. unfold shape. by rewrite Hk.
  - intros b c Hb. apply J2. apply (reads_kept _ k k2 (set_seg dst acc) d1 b c Hd); try done. intros kd fl x Hx. apply Hbk. by left.
  - intros q b c [-> | Hq]%elem_of_cons Ho Hb.
    + assert (Hb1 : reads k1 src b c) by (by apply (reads_kept _ k k1 src src b c Hs); [intros; rewrite E3 | |]).
      destruct (copied_reads o k1 k2 (set_seg dst acc) src dst src2 r pgs dst2 b c Hs1 Hr Hk Ho Hc Hall Hb1) as (x & Hx & Epa & ->). apply J2. exists (flags r), x. split; [| done].
      apply Hbk. right. by exists (slot_no r b).
    + apply (J3 q b c Hq Ho). apply (reads_kept _ k k2 src src2 b c Hs); try done. intros kd fl x. unfold backs. by rewrite Rsrc.
  - intros b kd fl x Hb. destruct (J4 b kd fl x Hb) as [H | (q & Hq & Ho)]; [| right; exists q; split; [by right | done]]. apply Hbk in H as [H | (j & -> & _ & _ & Hj)]; [by left |].
    right. exists r. split; [left |]. apply lookup_lt_Some in Hj. rewrite (cp_len _ _ _ _ _ _ _ _ _ _ Hc) in Hj. apply (pa_spec r j Hrok Hj).
Qed.

Lemma inv_ext oth oth' k s : (forall p, oth p = oth' p) -> inv oth k s -> inv oth' k s.
Proof. intros E [H1 H2 H3 H4 H5 H6 H7]. constructor; auto; intros p; rewrite <- E; auto. Qed.

(** A new space satisfies the invariant. *)
Lemma inv_new others k : pool_ok k -> (forall p, 0 <= others p) -> (forall p, prefs k p = others p) -> inv others k uvm_space_new.
Proof.
  intros Hp Ho Hf. constructor; auto.
  - constructor; cbn; try done; [repeat constructor; done |]. split; [| repeat constructor]. constructor; [| constructor]. intros b [H1 H2] [H3 H4]. cbn in *. lia.
  - repeat constructor; done.
  - intros p. rewrite Hf. cbn. lia.
  - intros a p f H. cbn in H. by rewrite lookup_empty in H.
  - intros a fl p (r & ->%list_elem_of_singleton & [H1 H2] & _). cbn in *. lia.
Qed.

(** ** Success

    [n] free pages, and [m] allocations of kernel memory or a table that are
    going to succeed. *)
Definition rich (k : kstate) (n m : nat) : Prop := (n <= length (pool k))%nat /\ exists rest, answers k = replicate m true ++ rest.

Lemma rich_less k n m n' m' : (n' <= n)%nat -> (m' <= m)%nat -> rich k n m -> rich k n' m'.
Proof.
  intros Hn Hm [H1 [rest H2]]. split; [lia |]. exists (replicate (m - m') true ++ rest). rewrite app_assoc, <- replicate_add, H2. do 2 f_equal. lia.
Qed.

Lemma rich_kalloc k n m : rich k n (S m) -> exists k', kalloc k = (k', true) /\ rich k' n m.
Proof. intros [H1 [rest H2]]. unfold kalloc. rewrite H2. cbn [replicate app]. eexists. split; [reflexivity |]. split; [done | by exists rest]. Qed.

Lemma rich_alloc k n m : rich k (S n) m -> exists k' p, page_alloc k = (k', Some p) /\ rich k' n m.
Proof. intros [H1 H2]. unfold page_alloc. destruct (pool k) as [| p l]; cbn [length] in H1; [lia |]. do 2 eexists. split; [reflexivity |]. split; [cbn; lia | done]. Qed.

Lemma map_user_page_rich k s a p f n m x : rich k n (S m) -> map_user_page k s a p f = Ret x -> snd x = 0 /\ rich (fst (fst x)) n m.
Proof.
  intros Hr. unfold map_user_page. destruct (negb (uvm_page_is_mapped s a)); [| done]. destruct (rich_kalloc k n m Hr) as (k' & -> & Hr').
  by intros [= <-].
Qed.

Lemma copy_anon_one_rich k dst src r pgs i n m c : copy_anon_one k dst src r pgs i = Ret c -> rich k (S n) (S m) ->
  c_err c <> - ENOMEM /\ rich (c_k c) n m.
Proof.
  unfold copy_anon_one. intros E Hr. destruct (rd (slots r) i) as [[p |] |]; [| by injection E as <-; split; [done |]; eapply rich_less; [| | exact Hr]; lia | done].
  set (a := u64 _) in *. unfold uvm_page_is_mapped, uvm_pte_flags in E. destruct (lookup_pte src a) as [[q f] |] eqn:El; cbn [negb] in E.
  - destruct (wr pgs i (Some p)) as [pgs' |]; [| done]. assert (Hg : rich (page_get k p) n (S m)) by (eapply rich_less; [| | exact Hr]; lia).
    destruct (has (flags r) PTE_W).
    + destruct (map_user_page _ _ _ _ _) as [[[k1 d1] e1] |] eqn:Em; [| done]. apply (map_user_page_rich _ _ _ _ _ n m) in Em as [He Hr1]; [| done].
      cbn [fst snd] in *. subst e1. cbn [Z.eqb negb] in E. destruct (uvm_cow_protect src a) as [s1 e1] eqn:Ec. injection E as <-. split; [| done]. cbn [c_err].
      unfold uvm_cow_protect in Ec. rewrite El in Ec. destruct (negb _ || _); by injection Ec as _ <-.
    + destruct (map_user_page _ _ _ _ _) as [[[k1 d1] e1] |] eqn:Em; [| done]. apply (map_user_page_rich _ _ _ _ _ n m) in Em as [He Hr1]; [| done].
      cbn [fst snd] in *. subst e1. by injection E as <-.
  - destruct (rich_alloc k n m) as (k1 & pg & Ha & Hr1); [eapply rich_less; [| | exact Hr]; lia |]. rewrite Ha in E.
    destruct (wr pgs i (Some pg)) as [pgs' |]; [| done]. by injection E as <-.
Qed.

Lemma copy_anon_loop_rich r (N : nat) : forall k dst src pgs i n m c j, copy_anon_loop k dst src r pgs i N = Ret (c, j) -> rich k (N + n) (N + m) ->
  c_err c <> - ENOMEM /\ (c_err c = 0 -> rich (c_k c) n m).
Proof.
  induction N as [| N IH]; intros k dst src pgs i n m c j E Hr; cbn [copy_anon_loop] in E; [by injection E as <- _ |].
  destruct (copy_anon_one k dst src r pgs i) as [c1 |] eqn:E1; [| done].
  destruct (copy_anon_one_rich _ _ _ _ _ _ (N + n) (N + m) _ E1 Hr) as [H1 H2].
  destruct (Z.eqb_spec (c_err c1) 0) as [H0 | H0]; cbn [negb] in E; [by apply (IH _ _ _ _ _ n m) in E |]. by injection E as <- _.
Qed.

Lemma copy_region_rich cp_page k d r dst src n m x : kind r = UVM_REGION_ANON -> uvm_space_copy_region cp_page k d r dst src = Ret x ->
  rich k (length (slots r) + n) (S (length (slots r) + m)) -> snd x <> - ENOMEM /\ (snd x = 0 -> rich (fst (fst (fst (fst x)))) n m).
Proof.
  intros Hk E Hr. unfold uvm_space_copy_region in E. rewrite Hk in E. destruct (rich_kalloc _ _ _ Hr) as (k1 & Ha & Hr1). rewrite Ha in E. cbn [negb] in E.
  unfold nr_pages in E. rewrite Nat2Z.id in E. destruct (copy_anon_loop _ _ _ _ _ _ _) as [[c i] |] eqn:El; [| done].
  destruct (copy_anon_loop_rich _ _ _ _ _ _ _ n m _ _ El Hr1) as [H1 H2]. destruct (Z.eqb_spec (c_err c) 0) as [H0 | H0]; [by injection E as <-; split; [| auto] |].
  destruct (copy_undo _ _ _ _ _ _) as [[k2 d2] |]; [| done]. by injection E as <-.
Qed.

(** Two allocations for each region, and a page and a table for each page. *)
Definition wants (l : list uvm_region) : nat := 2 * length l + sum_list_with (fun r => length (slots r)) l.

Lemma segments_loop_rich cp_page l : forall k dst src acc n m x, Forall (fun r => kind r = UVM_REGION_ANON) l ->
  copy_segments_loop cp_page k dst src l acc = Ret x -> rich k (sum_list_with (fun r => length (slots r)) l + n) (wants l + m) -> snd x <> - ENOMEM.
Proof.
  induction l as [| r l IH]; intros k dst src acc n m x Hall E Hr; cbn [copy_segments_loop] in E; [by injection E as <- |].
  apply list.Forall_cons in Hall as [Hk Hall]. unfold wants in *. cbn [sum_list_with length] in Hr. unfold uvm_region_alloc in E.
  destruct (rich_kalloc k (length (slots r) + (sum_list_with (fun r => length (slots r)) l + n))
    (S (length (slots r) + (2 * length l + sum_list_with (fun r => length (slots r)) l + m)))) as (k1 & Ha & Hr1);
    [eapply rich_less; [| | exact Hr]; lia |]. rewrite Ha in E. cbn [negb] in E.
  destruct (uvm_space_copy_region cp_page k1 uvm_region_new r dst src) as [y |] eqn:Ec; [| done].
  destruct (copy_region_rich _ _ _ _ _ _ _ _ _ Hk Ec Hr1) as [H1 H2]. destruct y as [[[[k2 vma] d2] s2] e2]. cbn [fst snd] in *.
  destruct (Z.eqb_spec e2 0) as [H0 | H0]; cbn [negb] in E; [by apply (IH _ _ _ _ n m) in E; auto |]. by injection E as <-.
Qed.

Lemma copy_segments_rich cp_page k dst src k' dst' src' e : Forall (fun r => kind r = UVM_REGION_ANON) (seg src) ->
  uvm_space_copy_segments cp_page k dst src = Ret (k', dst', src', e) -> rich k (sum_list_with (fun r => length (slots r)) (seg src)) (wants (seg src)) ->
  e <> - ENOMEM.
Proof.
  intros Hall E Hr. unfold uvm_space_copy_segments in E. destruct (copy_segments_loop cp_page k dst src (seg src) []) as [x |] eqn:El; [| done].
  apply (segments_loop_rich cp_page (seg src) _ _ _ _ 0 0) in El; [| done | by rewrite !Nat.add_0_r]. destruct x as [[[[k1 d1] s1] acc] e1]. cbn [snd] in El.
  destruct (Z.eqb_spec e1 0) as [-> |]; [by injection E as _ _ _ <- |]. destruct (free_list_loop _ _ _) as [[k2 d2] |]; [| done]. by injection E as _ _ _ <-.
Qed.

Lemma copy_segments_spec cp_page o k src : inv o k src -> Forall (fun r => kind r = UVM_REGION_ANON) (seg src) -> size (heap src) = 0 ->
  (forall p, prefs k p + total (seg src) < 2 ^ 32) ->
  exists k' dst' src' e, uvm_space_copy_segments cp_page k uvm_space_new src = Ret (k', dst', src', e) /\ (e = 0 \/ e = - ENOMEM) /\
    inv (fun p => o p + cnt (regions dst') p) k' src' /\ inv (fun p => o p + cnt (regions src') p) k' dst' /\
    (forall b c, reads k src b c <-> reads k' src' b c) /\
    (e = 0 -> (forall b c, reads k src b c <-> reads k' dst' b c) /\ map shape (seg dst') = reverse (map shape (seg src))) /\
    (e <> 0 -> dst' = uvm_space_new).
Proof.
  intros Hs Hanon Hheap Hsmall. unfold uvm_space_copy_segments.
  assert (Hpos : forall p, 0 <= o p) by apply Hs. assert (Hpool : pool_ok k) by apply Hs.
  assert (Hs0 : inv (fun p => o p + cnt (regions (set_seg uvm_space_new [])) p) k src) by (apply (inv_ext o); [intros p; cbn; lia | done]).
  assert (Hd0 : inv (fun p => o p + cnt (regions src) p) k (set_seg uvm_space_new [])).
  { apply (inv_new _ k Hpool); intros p; [pose proof (Hpos p); pose proof (cnt_nonneg (regions src) p); lia | apply Hs]. }
  destruct (geo_regions _ (inv_geo _ _ _ Hs)) as (Hap & _).
  assert (Hperm : regions src ≡ₚ heap src :: seg src) by (unfold regions; symmetry; apply Permutation_cons_append). rewrite Hperm in Hap. destruct Hap as [_ Hap].
  destruct (segments_loop_spec cp_page o (seg src) Hpos k uvm_space_new src [] Hs0 Hd0) as (k' & t & u & acc & e & -> & HI); try done.
  { intros r Hr. rewrite list.Forall_forall in Hanon. split_and!; auto; [unfold regions; set_solver |]. cbn. repeat constructor; intros b _ [H1 H2]; cbn in *; lia. }
  destruct HI as (I1 & I2 & I3 & I4). set (d' := set_seg (set_pt uvm_space_new t) acc) in *.
  assert (Hback : forall k2, (forall p, p ∉ pool k -> content k2 p = content k p) -> forall b c, reads k src b c <-> reads k2 (set_pt src u) b c).
  { intros k2 Hc b c. split; [by apply (reads_kept o k k2 src (set_pt src u) b c Hs) |]. intros (fl & x & Hx & ->). assert (Hr : reads k src b (match x with Some p => content k p | None => fun _ => 0 end)) by (by exists fl, x).
    pose proof (reads_kept o k k2 src (set_pt src u) b _ Hs Hc ltac:(done) Hr) as Hr2. assert (E : match x with Some p => content k2 p | None => fun _ => 0 end = match x with Some p => content k p | None => fun _ => 0 end); [| by rewrite E].
    apply (reads_fun k2 (set_pt src u) b); [apply I1 | by exists fl, x | done]. }
  destruct I4 as [-> | (-> & J1 & J2 & J3 & J4)].
  - change (- ENOMEM =? 0) with false. cbv iota. destruct (free_list_spec _ acc k' (set_pt uvm_space_new t) I2) as (k2 & t2 & -> & Hi & Hc & _ & Hf).
    change (set_pt (set_pt uvm_space_new t) t2) with (set_pt uvm_space_new t2) in *.
    assert (Et : set_pt uvm_space_new t2 = uvm_space_new).
    { unfold set_pt, uvm_space_new. f_equal. apply map_eq. intros b. rewrite lookup_empty. destruct (t2 !! b) as [[p f] |] eqn:E; [| done]. exfalso.
      destruct (inv_pte _ _ _ Hi b p f E) as [[H1 H2] | (kd & fl & x & (q & ->%list_elem_of_singleton & [H1 H2] & _) & _)]; cbn in *; lia. }
    rewrite Et in *. exists k2, uvm_space_new, (set_pt src u), (- ENOMEM). split_and!; try done; [by right | |].
    + apply (inv_partner _ _ _ _ _ I1); [apply Hi | intros p; cbn; pose proof (Hpos p); lia | intros p; rewrite Hf; fold d'; cbn; lia |].
      intros p Hp H1. rewrite Hf. fold d'. pose proof (inv_count _ _ _ I1 p). pose proof (cnt_nonneg (regions d') p). specialize (Hpos p). assert (Hz : cnt (regions (set_seg (set_pt uvm_space_new t) [])) p = 0) by done. rewrite Hz. cbv beta in *. lia.
    + apply Hback. intros p Hp. rewrite Hc. auto.
  - cbn [Z.eqb]. exists k', d', (set_pt src u), 0. assert (Ed : set_seg (set_pt uvm_space_new t) (acc ++ seg (set_pt uvm_space_new t)) = d') by (unfold d'; cbn [seg set_pt uvm_space_new]; by rewrite app_nil_r).
    rewrite Ed. split_and!; try done; [by left | by apply Hback |]. intros _. split; [| change (seg d') with acc; by rewrite J1, app_nil_r].
    assert (Hto : forall b c, reads k src b c -> reads k' d' b c).
    { intros b c Hb. pose proof Hb as (fl & x & (q & Hq & Ho & _) & _). unfold regions in Hq. apply elem_of_app in Hq as [Hq | ->%list_elem_of_singleton]; [by apply (J3 q b c) |]. unfold owns in Ho. lia. }
    intros b c. split; [apply Hto |]. intros Hb. pose proof Hb as (fl & x & Hx & _). destruct (J4 b _ fl x Hx) as [(q & ->%list_elem_of_singleton & [H1 H2] & _) | (r & Hr & Ho)]; [cbn in *; lia |].
    assert (Hrr : r ∈ regions src) by (unfold regions; set_solver). pose proof (inv_regions _ _ _ Hs) as Hro. rewrite list.Forall_forall in Hro.
    assert (Hal : b mod PAGE_SIZE = 0) by (by destruct Hx as (? & _ & _ & ? & _)). pose proof (slot_in_range r b (Hro r Hrr) Ho Hal) as Hlt. apply lookup_lt_is_Some in Hlt as [y Hy].
    rewrite list.Forall_forall in Hanon. set (c' := match y with Some p => content k p | None => fun _ => 0 end).
    assert (Hsr : reads k src b c') by (exists (flags r), y; split; [| done]; exists r; split_and!; auto; apply Hanon; done).
    rewrite (reads_fun k' d' b c c' (inv_geo _ _ _ I2) Hb (Hto b c' Hsr)). done.
Qed.

(** C19: [uvm_space_copy_segments] for the child of a fork, when all mappings of
    the parent are private, its heap is empty (another function copies that), and
    no page count can overflow.  It ends, with 0 or -ENOMEM.  Parent and child both
    satisfy the invariant with each other's references counted, so that no page
    either could write without a copy is shared; the parent reads what it read
    before, though pages of it that it may write may be left marked copy on write.
    With 0 the child reads exactly what the parent does at every address and has
    the same mappings, newest first; with -ENOMEM it is empty as it was.  The
    result is 0 when there is a free page for each page of the mappings and the
    allocations succeed, two for each mapping and one for each page. *)
Theorem uvm_space_copy_segments_correct cp_page o k src : inv o k src -> Forall (fun r => kind r = UVM_REGION_ANON) (seg src) -> size (heap src) = 0 ->
  (forall p, prefs k p + total (seg src) < 2 ^ 32) ->
  exists k' dst' src' e, uvm_space_copy_segments cp_page k uvm_space_new src = Ret (k', dst', src', e) /\ (e = 0 \/ e = - ENOMEM) /\
    inv (fun p => o p + cnt (regions dst') p) k' src' /\ inv (fun p => o p + cnt (regions src') p) k' dst' /\
    (forall b c, reads k src b c <-> reads k' src' b c) /\
    (e = 0 -> (forall b c, reads k src b c <-> reads k' dst' b c) /\ map shape (seg dst') = reverse (map shape (seg src))) /\
    (e <> 0 -> dst' = uvm_space_new) /\
    (rich k (sum_list_with (fun r => length (slots r)) (seg src)) (wants (seg src)) -> e = 0).
Proof.
  intros Hs Hanon Hheap Hsmall. destruct (copy_segments_spec cp_page o k src Hs Hanon Hheap Hsmall) as (k' & dst' & src' & e & E & He & H1 & H2 & H3 & H4 & H5).
  exists k', dst', src', e. split_and!; try done. intros Hr. destruct He as [-> | ->]; [done |].
  by apply (copy_segments_rich cp_page k _ src k' dst' src' (- ENOMEM) Hanon E) in Hr.
Qed.

(** Two spaces that count each other's references; [o] counts the rest. *)
Definition partners (o : Z -> Z) (k : kstate) (s t : uvm_space) : Prop :=
  inv (fun p => o p + cnt (regions t) p) k s /\ inv (fun p => o p + cnt (regions s) p) k t.

(** C10: two spaces that count each other's references, as parent and child do
    after a fork, are isolated: a store by one takes effect there, changes
    nothing that the other reads, and leaves both as they were required to be, so
    that this holds of any sequence of stores by either. *)
Theorem stores_isolated cp_page o k s t a v c : (forall p, 0 <= o p) -> partners o k s t ->
  0 <= a < 2 ^ 64 -> ~ owns (stack s) (page_of a) -> reads k s (page_of a) c ->
  exists k' s' e, user_store cp_page k s a v = Ret (k', s', e) /\
    partners o k' s' t /\
    (forall b d, reads k t b d -> reads k' t b d) /\
    (e = 0 -> reads k' s' (page_of a) (<[a mod PAGE_SIZE := v]> c)) /\ (e = 0 \/ e = - ENOMEM \/ e = - EACCES).
Proof.
  intros Hpos [Hs Ht] Ha Hst Hr. destruct (user_store_spec cp_page _ k s a v c Hs Ha Hst Hr) as (k' & s' & e & -> & Hi & Hcont & _ & Hnew & He & Hgrab).
  exists k', s', e. unfold partners. split_and!; try done.
  - apply (inv_partner _ _ _ _ _ Ht); [apply Hi | | |]; intros p.
    + pose proof (Hpos p). pose proof (cnt_nonneg (regions s') p). lia.
    + pose proof (inv_count _ _ _ Hi p). pose proof (inv_count _ _ _ Hs p). cbv beta in *. lia.
    + intros H1 H2. pose proof (inv_count _ _ _ Hi p). pose proof (inv_count _ _ _ Hs p). pose proof (Hpos p). pose proof (cnt_nonneg (regions s') p). pose proof (cnt_nonneg (regions s) p).
      assert (Hp : p ∉ pool k) by (intros Hp; pose proof (proj2 (inv_pool _ _ _ Hs) p Hp); lia). specialize (Hgrab p Hp). cbv beta in *. lia.
  - intros b d (fl & x & Hx & ->). exists fl, x. split; [done |]. destruct x as [p |]; [| done]. symmetry. apply Hcont. pose proof (backs_cnt _ _ _ _ Hx). pose proof (Hpos p). lia.
  - intros ->. done.
Qed.

Lemma copy_segments_witness : exists k' dst' src', uvm_space_copy_segments id kernel_w uvm_space_new space_w = Ret (k', dst', src', 0) /\
  reads k' dst' 0x10000 (fun _ => 7) /\ reads k' src' 0x10000 (fun _ => 7) /\ prefs k' 7 = 2.
Proof.
  destruct (uvm_space_copy_segments_correct id (fun _ => 0) kernel_w space_w inv_w) as (k' & dst' & src' & e & E & _ & _ & _ & H1 & H2 & _).
  - repeat constructor.
  - reflexivity.
  - intros p. unfold total. cbn. unfold one_if. destruct (p =? 7); lia.
  - exists k', dst', src'. assert (e = 0) as -> by (err_of E). split; [exact E |]. split; [apply (H2 eq_refl), reads_w |]. split; [apply H1, reads_w |].
    apply (f_equal (fun r => match r with Ret (k, _, _, _) => prefs k 7 | Halt _ => 0 end)) in E. vm_compute in E. exact (eq_sym E).
Defined.

(** The states a fork of [space_w] leaves. *)
Definition forked_w : kstate * uvm_space * uvm_space :=
  match uvm_space_copy_segments id kernel_w uvm_space_new space_w with Ret (k, dst, src, _) => (k, dst, src) | Halt _ => (kernel_w, uvm_space_new, space_w) end.

Lemma forked_w_ok : inv (fun p => 0 + cnt (regions forked_w.2) p) forked_w.1.1 forked_w.1.2 /\ inv (fun p => 0 + cnt (regions forked_w.1.2) p) forked_w.1.1 forked_w.2 /\
  reads forked_w.1.1 forked_w.1.2 0x10000 (fun _ => 7) /\ reads forked_w.1.1 forked_w.2 0x10000 (fun _ => 7).
Proof.
  destruct (copy_segments_spec id (fun _ => 0) kernel_w space_w inv_w) as (k' & dst' & src' & e & E & _ & G1 & G2 & H1 & H2 & _).
  - repeat constructor.
  - reflexivity.
  - intros p. unfold total. cbn. unfold one_if. destruct (p =? 7); lia.
  - unfold forked_w. rewrite E. cbn [fst snd]. assert (He : e = 0) by (err_of E). destruct (H2 He) as [H3 _]. split_and!; auto using reads_w; [apply H3 | apply H1]; apply reads_w.
Qed.

Lemma stores_isolated_witness : exists k' s' e, user_store id forked_w.1.1 forked_w.1.2 0x10005 42 = Ret (k', s', e) /\ e = 0 /\
  reads k' s' 0x10000 (<[5 := 42]> (fun _ => 7)) /\ reads k' forked_w.2 0x10000 (fun _ => 7).
Proof.
  assert (Hst : ~ owns (stack forked_w.1.2) (page_of 0x10005)) by (intros [H1 H2]; vm_compute in H2; discriminate). destruct forked_w_ok as (H1 & H2 & H3 & H4).
  destruct (stores_isolated id (fun _ => 0) forked_w.1.1 forked_w.1.2 forked_w.2 0x10005 42 (fun _ => 7) ltac:(intros; lia) (conj H1 H2) ltac:(lia) Hst H3) as (k' & s' & e & E & _ & R1 & R2 & _).
  exists k', s', e. assert (He : e = 0) by (err_of E). split; [exact E |]. split; [exact He |]. split; [exact (R2 He) | apply R1, H4].
Defined.

(** ** Protection changes break the isolation *)

(** What a page slot of the space holds at an offset. *)
Definition peek (k : kstate) (s : uvm_space) (a : Z) : option Z :=
  match find_region_containing s (page_of a) with
  | Some i => match slots (region_at s i) !! slot_no (region_at s i) (page_of a) with Some (Some p) => Some (content k p (a mod PAGE_SIZE)) | _ => None end
  | None => None
  end.

(** A parent makes its page read-only before it forks; the child makes its own
    copy writable again and stores.  The result of the calls, and what the parent
    holds at the address before and after. *)
Definition mprotect_then_fork : res (list Z * option Z * option Z) :=
  let! r := uvm_mprotect kernel_w space_w 0x10000 4096 PROT_READ in
  let '(k, parent, e1) := r in
  let! r := uvm_space_copy_segments id k uvm_space_new parent in
  let '(k, child, parent, e2) := r in
  let before := peek k parent 0x10005 in
  let! r := uvm_mprotect k child 0x10000 4096 (Z.lor PROT_READ PROT_WRITE) in
  let '(k, child, e3) := r in
  let! r := user_store id k child 0x10005 42 in
  let '(k, child, e4) := r in
  Ret ([e1; e2; e3; e4], before, peek k parent 0x10005).

(** Finding: a page that is not writable when its owner forks is shared without a
    copy-on-write mark, and [uvm_mprotect] later makes the entry writable: the
    child's store is seen by the parent. *)
Theorem mprotect_after_fork_shares : mprotect_then_fork = Ret ([0; 0; 0; 0], Some 7, Some 42).
Proof. vm_compute. reflexivity. Qed.

(** Finding: the heap of size 0 that every program starts with is not copied, not
    even its address, which is the lower bound of [choose_addr]. *)
Theorem copy_heap_keeps_bound cp_page k dst src : size (heap src) = 0 -> uvm_space_copy_heap cp_page k dst src = Ret (k, dst, src, 0).
Proof. intros H. unfold uvm_space_copy_heap. by rewrite H. Qed.
