(* ===== verification/Devno.v ===== *)
(** * dev/base/devno.c: device numbers

    A [devno_allocator] hands out major numbers from a bitmap and, for each
    major, runs of minor numbers kept as a list sorted by [minor_start].  The
    lists are the C hlists in order; the lock makes a call one step.
    [kzalloc] is given as the flag [mem_ok], whether it returns an object. *)

From S2P Require Import Prelude Bitmap.

(** ** include/brk/device.h *)

Definition MAJOR_BITS : Z := 8.
Definition MINOR_BITS : Z := 20.
Definition MAJOR_MAX : Z := Z.shiftl 1 MAJOR_BITS.
Definition MINOR_MAX : Z := Z.shiftl 1 MINOR_BITS.
Definition MAJOR_MASK : Z := MAJOR_MAX - 1.
Definition MINOR_MASK : Z := MINOR_MAX - 1.
Definition CHRDEV : Z := 0.
Definition BLKDEV : Z := Z.shiftl 1 28.
Definition MKDEV (major minor : Z) : Z :=
  Z.lor (Z.shiftl (Z.land major MAJOR_MASK) 20) (Z.land minor MINOR_MASK).
Definition MKCHRDEV (major minor : Z) : Z := Z.lor CHRDEV (MKDEV major minor).
Definition MKBLKDEV (major minor : Z) : Z := Z.lor BLKDEV (MKDEV major minor).
Definition DEVTYPE (dev : Z) : Z := Z.land dev (Z.shiftl 15 28).
Definition MAJOR (dev : Z) : Z := Z.land (Z.shiftr dev 20) MAJOR_MASK.
Definition MINOR (dev : Z) : Z := Z.land dev MINOR_MASK.
Definition IS_CHRDEV (dev : Z) : bool := DEVTYPE dev =? CHRDEV.
Definition IS_BLKDEV (dev : Z) : bool := DEVTYPE dev =? BLKDEV.

Definition ENOMEM : Z := 12.
Definition EINVAL : Z := 22.

(** ** Data *)

Record devno_region : Set := mk_dregion { minor_start : Z; minor_count : Z }.

Record devno_allocator : Set := mk_devno {
  regions : Z -> list devno_region;   (* regions[0 .. MAJOR_MAX) *)
  major_pool : list Z
}.

Definition set_regions (a : devno_allocator) (major : Z) (l : list devno_region) : devno_allocator :=
  mk_devno (<[major := l]> (regions a)) (major_pool a).

Definition set_pool (a : devno_allocator) (pool : list Z) : devno_allocator :=
  mk_devno (regions a) pool.

(** ** Operations *)

Definition devno_allocator_init (a : devno_allocator) (first_dynamic : Z) : res devno_allocator :=
  let! pool := bitmap_zero (major_pool a) MAJOR_MAX in
  let! pool := bitmap_fill pool first_dynamic in
  Ret (mk_devno (fun _ => []) pool).

(** An operation returns [inl err] where the C code returns [-err]. *)
Definition devno_alloc_major_no_lock (a : devno_allocator) : res (devno_allocator * (Z + Z)) :=
  let! (pool, r) := bitmap_alloc_bit_from (major_pool a) MAJOR_MAX 0 in
  match r with
  | None => Ret (a, inl ENOMEM)
  | Some bit => Ret (set_pool a pool, inr (u32 bit))
  end.

Definition devno_free_major_no_lock (a : devno_allocator) (major : Z) : res devno_allocator :=
  let! pool := bitmap_free_bit (major_pool a) MAJOR_MAX major in
  Ret (set_pool a pool).

(** The walk over the regions of a major, split at the place of the new entry:
    [pre] ends in [last].  The flag says whether the walk left for [found]. *)
Fixpoint gap_scan (rest pre : list devno_region) (minor count : Z)
    : bool * Z * list devno_region * list devno_region :=
  match rest with
  | [] => (false, minor, pre, [])
  | curr :: rest' =>
      let start := minor_start curr in
      let end_ := u32 (start + minor_count curr) in
      if (minor <? start) && (count <=? start - minor) then (true, minor, pre, rest)
      else gap_scan rest' (pre ++ [curr]) (if minor <? end_ then end_ else minor) count
  end.

(** [goto err_range] and [goto err_nomem]. *)
Definition devno_undo (a : devno_allocator) (major_allocated : bool) (major err : Z)
    : res (devno_allocator * (Z + Z)) :=
  let! a := (if major_allocated then devno_free_major_no_lock a major else Ret a) in
  Ret (a, inl err).

Definition devno_place (mem_ok : bool) (a : devno_allocator) (major_allocated : bool)
    (major base_minor count : Z) : res (devno_allocator * (Z + Z)) :=
  if (count =? 0) || (MINOR_MAX <? count) || (MINOR_MAX <=? base_minor)
  then devno_undo a major_allocated major EINVAL
  else
    let '(found, minor, pre, post) := gap_scan (regions a major) [] base_minor count in
    if negb found && ((MINOR_MAX <=? minor) || (MINOR_MAX - minor <? count))
    then devno_undo a major_allocated major EINVAL
    else if negb mem_ok then devno_undo a major_allocated major ENOMEM
    else Ret (set_regions a major (pre ++ mk_dregion minor count :: post), inr (MKDEV major minor)).

Definition devno_alloc_region_no_lock (mem_ok : bool) (a : devno_allocator)
    (major base_minor count : Z) : res (devno_allocator * (Z + Z)) :=
  if major =? 0 then
    let! (a, r) := devno_alloc_major_no_lock a in
    match r with
    | inl err => Ret (a, inl err)
    | inr major => devno_place mem_ok a true major base_minor count
    end
  else if MAJOR_MAX <=? major then Ret (a, inl EINVAL)
  else
    let! used := bitmap_test_bit (major_pool a) major in
    if negb used then Ret (a, inl EINVAL)
    else devno_place mem_ok a false major base_minor count.

Definition devno_alloc_major (a : devno_allocator) : res (devno_allocator * (Z + Z)) :=
  devno_alloc_major_no_lock a.

Definition devno_free_major (a : devno_allocator) (major : Z) : res devno_allocator :=
  if MAJOR_MAX <=? major then Ret a else devno_free_major_no_lock a major.

Definition devno_alloc_minor (mem_ok : bool) (a : devno_allocator) (major : Z)
    : res (devno_allocator * (Z + Z)) :=
  if MAJOR_MAX <=? major then Ret (a, inl EINVAL)
  else
    let! used := bitmap_test_bit (major_pool a) major in
    if negb used then Ret (a, inl EINVAL)
    else
      let! (a, r) := devno_alloc_region_no_lock mem_ok a major 0 1 in
      match r with
      | inl err => Ret (a, inl err)
      | inr dev => Ret (a, inr (MINOR dev))
      end.

Definition devno_alloc_region (mem_ok : bool) (a : devno_allocator) (major base_minor count : Z)
    : res (devno_allocator * (Z + Z)) :=
  if (MAJOR_MAX <=? major) || (count =? 0) then Ret (a, inl EINVAL)
  else devno_alloc_region_no_lock mem_ok a major base_minor count.

(** The list less the region to delete, if the walk finds it. *)
Fixpoint region_delete (l : list devno_region) (minor count : Z) : list devno_region :=
  match l with
  | [] => []
  | curr :: l' =>
      if u32 (minor_start curr + minor_count curr) <=? minor
      then curr :: region_delete l' minor count
      else if (minor_start curr =? minor) && (minor_count curr =? count) then l'
      else curr :: l'
  end.

Definition devno_free_region (a : devno_allocator) (major minor count : Z) : devno_allocator :=
  if (MAJOR_MAX <=? major) || (count =? 0) || (MINOR_MAX <=? minor) || (MINOR_MAX - minor <? count)
  then a
  else set_regions a major (region_delete (regions a major) minor count).

Definition devno_free_minor (a : devno_allocator) (major minor : Z) : devno_allocator :=
  devno_free_region a major minor 1.

Fixpoint region_has (l : list devno_region) (minor : Z) : bool :=
  match l with
  | [] => false
  | curr :: l' =>
      if (minor_start curr <=? minor) && (minor <? u32 (minor_start curr + minor_count curr))
      then true else region_has l' minor
  end.

Definition devno_minor_is_allocated (a : devno_allocator) (major minor : Z) : res bool :=
  if (MAJOR_MAX <=? major) || (MINOR_MAX <=? minor) then Ret false
  else
    let! used := bitmap_test_bit (major_pool a) major in
    if used then Ret (region_has (regions a major) minor) else Ret false.

(** ** Invariant *)

Definition rend (r : devno_region) : Z := minor_start r + minor_count r.

(** Sorted, non-empty, disjoint, above [lo] and below MINOR_MAX. *)
Fixpoint regs_ok (lo : Z) (l : list devno_region) : Prop :=
  match l with
  | [] => lo <= MINOR_MAX
  | r :: l' => lo <= minor_start r /\ 0 < minor_count r /\ regs_ok (rend r) l'
  end.

Record devno_inv (a : devno_allocator) : Prop := {
  di_words : words_ok (major_pool a);
  di_len : length (major_pool a) = 4%nat;
  di_regs : forall major, regs_ok 0 (regions a major)
}.

Definition covers (l : list devno_region) (x : Z) : Prop :=
  exists r, r ∈ l /\ minor_start r <= x < rend r.

Lemma MAJOR_MAX_val : MAJOR_MAX = 256.
Proof. done. Qed.

Lemma MINOR_MAX_val : MINOR_MAX = 1048576.
Proof. done. Qed.

Lemma dcovers_nil x : ~ covers [] x.
Proof. intros (r & Hr & _). by apply elem_of_nil in Hr. Qed.

Lemma dcovers_cons r l x : covers (r :: l) x <-> minor_start r <= x < rend r \/ covers l x.
Proof.
  unfold covers. setoid_rewrite elem_of_cons. split.
  - intros (r' & [-> | Hr] & Hx); [by left | right; eauto].
  - intros [Hx | (r' & Hr & Hx)]; eauto.
Qed.

Lemma dcovers_app l1 l2 x : covers (l1 ++ l2) x <-> covers l1 x \/ covers l2 x.
Proof.
  unfold covers. setoid_rewrite elem_of_app. split.
  - intros (r & [Hr | Hr] & Hx); [left | right]; eauto.
  - intros [(r & Hr & Hx) | (r & Hr & Hx)]; eauto.
Qed.

Lemma regs_ok_le lo l : regs_ok lo l -> lo <= MINOR_MAX.
Proof.
  revert lo. induction l as [| r l IH]; intros lo H; simpl in H; [done |].
  destruct H as (H1 & H2 & H3). apply IH in H3. unfold rend in H3. lia.
Qed.

Lemma regs_ok_mid lo l1 r l2 : regs_ok lo (l1 ++ r :: l2) -> 0 < minor_count r.
Proof.
  revert lo. induction l1 as [| r' l1 IH]; intros lo; simpl; [tauto |].
  intros (_ & _ & H). by apply IH in H.
Qed.

Lemma regs_ok_weaken lo lo' l : lo' <= lo -> regs_ok lo l -> regs_ok lo' l.
Proof. destruct l; simpl; [lia |]. intuition lia. Qed.

Lemma regs_ok_covers lo l x : regs_ok lo l -> covers l x -> lo <= x < MINOR_MAX.
Proof.
  revert lo. induction l as [| r l IH]; intros lo H Hc; simpl in H; [by apply dcovers_nil in Hc |].
  destruct H as (H1 & H2 & H3). pose proof (regs_ok_le _ _ H3). apply dcovers_cons in Hc as [Hc | Hc].
  - lia.
  - apply (IH _ H3) in Hc. unfold rend in *. lia.
Qed.

Lemma rend_u32 lo r l : 0 <= lo -> regs_ok lo (r :: l) -> u32 (minor_start r + minor_count r) = rend r.
Proof.
  intros Hlo (H1 & H2 & H3). apply regs_ok_le in H3. rewrite MINOR_MAX_val in H3.
  apply u32_small. unfold rend in *. lia.
Qed.

(** ** The search for a gap *)

(** No run of [count] minors starts in [[m, m')] without hitting [l]. *)
Definition no_gap (l : list devno_region) (count m m' : Z) : Prop :=
  forall k, m <= k < m' -> exists x, k <= x < k + count /\ covers l x.

Lemma gap_scan_spec count (Hc : 0 < count) rest : forall lo pre minor found m p q,
  0 <= lo -> regs_ok lo rest -> gap_scan rest pre minor count = (found, m, p, q) ->
  exists mid, rest = mid ++ q /\ p = pre ++ mid /\ minor <= m /\
    Forall (fun r => rend r <= m) mid /\ no_gap mid count minor m /\
    (if found then exists r q', q = r :: q' /\ m + count <= minor_start r else q = []).
Proof.
  induction rest as [| r rest IH]; intros lo pre minor found m p q Hlo Hok Hs; cbn [gap_scan] in Hs.
  { simplify_eq. exists []. split_and!; [done | by rewrite app_nil_r | lia | constructor | intros k Hk; lia | done]. }
  rewrite (rend_u32 lo _ rest) in Hs by done. pose proof Hok as (H1 & H2 & H3).
  destruct ((minor <? minor_start r) && (count <=? minor_start r - minor)) eqn:E.
  { apply andb_true_iff in E as [E1%Z.ltb_lt E2%Z.leb_le]. simplify_eq. exists [].
    split_and!; [done | by rewrite app_nil_r | lia | constructor | intros k Hk; lia |].
    exists r, rest. split; [done | lia]. }
  assert (Hskip : no_gap [r] count minor (if minor <? rend r then rend r else minor)).
  { intros k Hk. exists (Z.max k (minor_start r)). rewrite dcovers_cons.
    apply andb_false_iff in E. unfold rend in *. bool_prop; lia. }
  apply (IH (rend r)) in Hs as (mid & -> & -> & Hm & Hf & Hg & Hq); [| unfold rend; lia | done].
  exists (r :: mid). split_and!; [done | by rewrite <- app_assoc | bool_prop; lia | | | done].
  - apply list.Forall_cons. split; [bool_prop; lia | done].
  - intros k Hk. destruct (Z.lt_ge_cases k (if minor <? rend r then rend r else minor)) as [Hlt | Hge].
    + destruct (Hskip k) as (x & Hx & Hcx); [lia |]. exists x. split; [done |].
      rewrite dcovers_cons in Hcx |- *. left. pose proof (dcovers_nil x). tauto.
    + destruct (Hg k) as (x & Hx & Hcx); [lia |]. exists x. split; [done |]. apply dcovers_cons. by right.
Qed.

Lemma regs_ok_insert mid q m count : forall lo,
  0 < count -> lo <= m -> regs_ok lo (mid ++ q) -> Forall (fun r => rend r <= m) mid ->
  match q with r :: _ => m + count <= minor_start r | [] => m + count <= MINOR_MAX end ->
  regs_ok lo (mid ++ mk_dregion m count :: q).
Proof.
  induction mid as [| r mid IH]; intros lo Hc Hlo Hok Hf Hq; simpl in *.
  - unfold rend. simpl. split_and!; try done. destruct q as [| r q]; simpl in *; [lia |].
    split_and!; try tauto; lia.
  - destruct Hok as (H1 & H2 & H3). apply list.Forall_cons in Hf as [Hr Hf].
    split_and!; try done. by apply IH.
Qed.

Lemma gap_disjoint lo mid q m count : regs_ok lo (mid ++ q) -> Forall (fun r => rend r <= m) mid ->
  match q with r :: _ => m + count <= minor_start r | [] => True end ->
  forall x, m <= x < m + count -> ~ covers (mid ++ q) x.
Proof.
  revert lo. induction mid as [| r mid IH]; intros lo Hok Hf Hq x Hx Hcov; simpl in *.
  - destruct q as [| r q]; [by apply dcovers_nil in Hcov |]. simpl in Hok. destruct Hok as (H1 & H2 & H3).
    apply dcovers_cons in Hcov as [Hc | Hc]; [lia |]. apply (regs_ok_covers _ _ _ H3) in Hc. unfold rend in *. lia.
  - destruct Hok as (H1 & H2 & H3). apply list.Forall_cons in Hf as [Hr Hf].
    apply dcovers_cons in Hcov as [Hc | Hc]; [lia |]. by apply (IH (rend r) H3 Hf Hq x).
Qed.

(** ** Device numbers *)

Lemma MKDEV_val major minor : 0 <= major < 256 -> 0 <= minor < 1048576 ->
  MKDEV major minor = major * 2 ^ 20 + minor.
Proof.
  intros H1 H2. unfold MKDEV, MAJOR_MASK, MINOR_MASK, MAJOR_MAX, MINOR_MAX, MAJOR_BITS, MINOR_BITS.
  rewrite !Z.shiftl_1_l, !land_ones_mod, Z.shiftl_mul_pow2 by lia.
  rewrite (Z.mod_small major), (Z.mod_small minor) by lia. apply lor_pack; lia.
Qed.

Lemma MAJOR_val dev : MAJOR dev = dev / 2 ^ 20 mod 256.
Proof.
  unfold MAJOR, MAJOR_MASK, MAJOR_MAX, MAJOR_BITS.
  rewrite Z.shiftl_1_l, land_ones_mod, Z.shiftr_div_pow2 by lia. done.
Qed.

Lemma MINOR_val dev : MINOR dev = dev mod 2 ^ 20.
Proof.
  unfold MINOR, MINOR_MASK, MINOR_MAX, MINOR_BITS. rewrite Z.shiftl_1_l, land_ones_mod by lia. done.
Qed.

Lemma MKDEV_roundtrip major minor : 0 <= major < 256 -> 0 <= minor < 1048576 ->
  MAJOR (MKDEV major minor) = major /\ MINOR (MKDEV major minor) = minor.
Proof. intros. rewrite MAJOR_val, MINOR_val, MKDEV_val by lia. split; zdm. Qed.

Lemma lor_blkdev d : 0 <= d < 2 ^ 28 -> Z.lor BLKDEV d = 2 ^ 28 + d.
Proof.
  intros. unfold BLKDEV. rewrite Z.shiftl_1_l. replace (2 ^ 28) with (1 * 2 ^ 28) at 1 by lia.
  rewrite lor_pack by lia. lia.
Qed.

Lemma DEVTYPE_val dev : 0 <= dev < 2 ^ 32 -> DEVTYPE dev = dev / 2 ^ 28 * 2 ^ 28.
Proof.
  intros Hd. unfold DEVTYPE. rewrite <- Z.shiftr_div_pow2, <- Z.shiftl_mul_pow2 by lia.
  apply Z.bits_inj'. intros i Hi. rewrite Z.land_spec, !Z.shiftl_spec by lia.
  destruct (Z.lt_ge_cases i 28).
  - rewrite !(Z.testbit_neg_r _ (i - 28)) by lia. apply andb_false_r.
  - rewrite Z.shiftr_spec by lia. replace (i - 28 + 28) with i by lia.
    change 15 with (Z.ones 4). destruct (Z.lt_ge_cases i 32).
    + rewrite Z.ones_spec_low by lia. apply andb_true_r.
    + rewrite (testbit_high 32 dev) by lia. done.
Qed.

(** ** Placing a region *)

Lemma inv_capacity a : devno_inv a -> capacity (major_pool a) = 256.
Proof. intros Ha. unfold capacity. rewrite (di_len _ Ha). done. Qed.

Definition unchanged (a a' : devno_allocator) : Prop :=
  devno_inv a' /\ (forall j, 0 <= j < MAJOR_MAX -> bm_get (major_pool a') j = bm_get (major_pool a) j) /\
  forall j, regions a' j = regions a j.

(** A run placed in [a] under [major] and recorded in [a']. *)
Record placed (a a' : devno_allocator) (major base count minor : Z) : Prop := {
  pl_range : base <= minor /\ minor + count <= MINOR_MAX;
  pl_new : forall x, minor <= x < minor + count -> ~ covers (regions a major) x;
  pl_first : no_gap (regions a major) count base minor;
  pl_covers : forall x, covers (regions a' major) x <->
    covers (regions a major) x \/ minor <= x < minor + count;
  pl_frame : forall j, j <> major -> regions a' j = regions a j;
  pl_pool : major_pool a' = major_pool a;
  pl_inv : devno_inv a'
}.

(** No run of [count] minors at or above [base] is left. *)
Definition exhausted (l : list devno_region) (base count : Z) : Prop :=
  forall k, base <= k -> k + count <= MINOR_MAX -> exists x, k <= x < k + count /\ covers l x.

Definition place_outcome (mem_ok : bool) (a a' : devno_allocator) (major base count : Z) (r : Z + Z) : Prop :=
  match r with
  | inr dev => exists minor, dev = MKDEV major minor /\ placed a a' major base count minor
  | inl err => a' = a /\ (err = EINVAL -> count = 0 \/ exhausted (regions a major) base count) /\
      (err = EINVAL \/ (err = ENOMEM /\ mem_ok = false))
  end.

Lemma place_spec mem_ok a major base count :
  devno_inv a -> 0 <= major < 256 -> 0 <= base -> 0 <= count ->
  exists a' r, devno_place mem_ok a false major base count = Ret (a', r) /\
    place_outcome mem_ok a a' major base count r /\
    forall b, devno_place mem_ok a b major base count =
      match r with inr _ => Ret (a', r) | inl err => devno_undo a b major err end.
Proof.
  intros Ha Hmaj Hb Hc. unfold devno_place.
  destruct ((count =? 0) || (MINOR_MAX <? count) || (MINOR_MAX <=? base)) eqn:E.
  { exists a, (inl EINVAL). split_and!; [done | | done]. split_and!; [done | | by left]. intros _.
    apply orb_true_iff in E as [E | E%Z.leb_le]; [apply orb_true_iff in E as [E%Z.eqb_eq | E%Z.ltb_lt] |].
    - by left.
    - right. intros k Hk Hk'. lia.
    - destruct (Z.eq_dec count 0); [by left | right]. intros k Hk Hk'. lia. }
  apply orb_false_iff in E as [E E3%Z.leb_gt]. apply orb_false_iff in E as [E1%Z.eqb_neq E2%Z.ltb_ge].
  pose proof (di_regs _ Ha major) as Hok.
  destruct (gap_scan (regions a major) [] base count) as [[[found m] p] q] eqn:Hs.
  apply (gap_scan_spec count ltac:(lia) _ 0) in Hs as (mid & Hrest & -> & Hm & Hf & Hg & Hq);
    [| lia | done].
  simpl (_ ++ mid). rewrite Hrest in Hok.
  destruct (negb found && ((MINOR_MAX <=? m) || (MINOR_MAX - m <? count))) eqn:E.
  { apply andb_true_iff in E as [E Ef]. destruct found; [done |]. subst q. rewrite app_nil_r in Hrest.
    exists a, (inl EINVAL). split_and!; [done | | done]. split_and!; [done | | by left]. intros _.
    right. intros k Hk Hk'. rewrite Hrest. apply Hg.
    apply orb_true_iff in Ef as [Ef%Z.leb_le | Ef%Z.ltb_lt]; lia. }
  destruct mem_ok; simpl negb; cbv iota.
  2: { exists a, (inl ENOMEM). split_and!; [done | | done]. split_and!; [done | done | by right]. }
  assert (Hnext : match q with r :: _ => m + count <= minor_start r | [] => m + count <= MINOR_MAX end).
  { destruct found; [destruct Hq as (r & q' & -> & Hr); done |]. subst q. simpl in E.
    apply orb_false_iff in E as [E4%Z.leb_gt E5%Z.ltb_ge]. lia. }
  assert (Hnew : regs_ok 0 (mid ++ mk_dregion m count :: q)) by (apply regs_ok_insert; try done; lia).
  assert (Hfit : m + count <= MINOR_MAX).
  { destruct q as [| r q]; [done |].
    apply (regs_ok_covers 0 _ (minor_start r)) in Hok; [lia |].
    pose proof (regs_ok_mid _ _ _ _ Hok).
    exists r. split; [set_solver | unfold rend; lia]. }
  exists (set_regions a major (mid ++ mk_dregion m count :: q)), (inr (MKDEV major m)).
  split_and!; [done | | done]. exists m. split; [done |]. split.
  - lia.
  - rewrite Hrest. apply (gap_disjoint 0); [done | done |]. destruct q; [done |]. lia.
  - rewrite Hrest. intros k Hk. destruct (Hg k Hk) as (x & Hx & Hcx). exists x. split; [done |].
    apply dcovers_app. by left.
  - intros x. simpl. rewrite fn_lookup_insert, Hrest, !dcovers_app, dcovers_cons. unfold rend. simpl. tauto.
  - intros j Hj. simpl. by rewrite fn_lookup_insert_ne by congruence.
  - done.
  - split; try apply Ha. intros j. simpl. destruct (decide (major = j)) as [<- | Hne].
    + by rewrite fn_lookup_insert.
    + rewrite fn_lookup_insert_ne by done. apply Ha.
Qed.

(** Taking a major and giving it back. *)
Lemma set_pool_inv a f pool : devno_inv a -> bm_is (major_pool a) pool f -> devno_inv (set_pool a pool).
Proof.
  intros Ha Hp. split; simpl; [apply Hp | rewrite (bmi_length _ _ _ Hp); apply Ha | apply Ha].
Qed.

Lemma alloc_major_spec a : devno_inv a ->
  exists a' r, devno_alloc_major_no_lock a = Ret (a', r) /\ devno_inv a' /\
    match r with
    | inl err => err = ENOMEM /\ a' = a /\ forall j, 0 <= j < MAJOR_MAX -> bm_get (major_pool a) j = true
    | inr major => 0 <= major < MAJOR_MAX /\ bm_get (major_pool a) major = false /\
        a' = set_pool a (major_pool a') /\
        (forall j, 0 <= j < MAJOR_MAX ->
           bm_get (major_pool a') j = (j =? major) || bm_get (major_pool a) j) /\
        forall j, 0 <= j < major -> bm_get (major_pool a) j = true
    end.
Proof.
  intros Ha. unfold devno_alloc_major_no_lock. pose proof (inv_capacity _ Ha) as Hcap.
  destruct (alloc_bit_from_spec (major_pool a) MAJOR_MAX 0) as (pool & r & -> & Hr);
    [apply Ha | rewrite Hcap, MAJOR_MAX_val; lia | lia |].
  destruct r as [bit |].
  - destruct Hr as (Hb & Hfree & Hset & Hlow & _). rewrite MAJOR_MAX_val in *.
    do 2 eexists. split; [reflexivity |]. rewrite u32_small by lia.
    split; [by eapply set_pool_inv |]. split_and!; [lia | lia | done | done | |].
    + intros j Hj. apply (bmi_get _ _ _ Hset). lia.
    + intros j Hj. apply Hlow; lia.
  - destruct Hr as [-> Hr]. do 2 eexists. split; [reflexivity |]. done.
Qed.

Lemma free_major_spec a major : devno_inv a -> 0 <= major < MAJOR_MAX ->
  exists a', devno_free_major_no_lock a major = Ret a' /\ devno_inv a' /\
    a' = set_pool a (major_pool a') /\
    forall j, 0 <= j < MAJOR_MAX -> bm_get (major_pool a') j = negb (j =? major) && bm_get (major_pool a) j.
Proof.
  intros Ha Hm. unfold devno_free_major_no_lock, bitmap_free_bit.
  destruct (Z.ltb_spec major MAJOR_MAX); [| lia]. pose proof (inv_capacity _ Ha) as Hcap.
  rewrite MAJOR_MAX_val in *.
  destruct (bitmap_clear_bit_spec (major_pool a) major) as (pool & -> & Hp); [apply Ha | lia |].
  eexists. split; [reflexivity |]. split_and!; [by eapply set_pool_inv | done |].
  intros j Hj. apply (bmi_get _ _ _ Hp). lia.
Qed.

(** ** Properties *)

(** A device number built from a major and a minor gives both back, and
    the type field tells a block device from a character device. *)
Theorem devno_encoding major minor :
  0 <= major < MAJOR_MAX -> 0 <= minor < MINOR_MAX ->
  MAJOR (MKBLKDEV major minor) = major /\ MINOR (MKBLKDEV major minor) = minor /\
  MAJOR (MKCHRDEV major minor) = major /\ MINOR (MKCHRDEV major minor) = minor /\
  IS_BLKDEV (MKBLKDEV major minor) = true /\ IS_CHRDEV (MKBLKDEV major minor) = false /\
  IS_CHRDEV (MKCHRDEV major minor) = true /\ IS_BLKDEV (MKCHRDEV major minor) = false.
Proof.
  rewrite MAJOR_MAX_val, MINOR_MAX_val. intros H1 H2.
  unfold MKBLKDEV, MKCHRDEV, IS_BLKDEV, IS_CHRDEV, CHRDEV. rewrite Z.lor_0_l.
  pose proof (MKDEV_val major minor H1 H2) as E. rewrite lor_blkdev by (rewrite E; lia).
  rewrite !MAJOR_val, !MINOR_val, !DEVTYPE_val by (rewrite E; lia).
  rewrite E. change BLKDEV with (2 ^ 28). rewrite !Z.eqb_eq, !Z.eqb_neq. split_and!; zdm.
Qed.

Lemma devno_encoding_witness :
  MAJOR (MKBLKDEV 8 300) = 8 /\ MINOR (MKBLKDEV 8 300) = 300 /\
  MAJOR (MKCHRDEV 8 300) = 8 /\ MINOR (MKCHRDEV 8 300) = 300 /\
  IS_BLKDEV (MKBLKDEV 8 300) = true /\ IS_CHRDEV (MKBLKDEV 8 300) = false /\
  IS_CHRDEV (MKCHRDEV 8 300) = true /\ IS_BLKDEV (MKCHRDEV 8 300) = false.
Proof. apply (devno_encoding 8 300); [rewrite MAJOR_MAX_val; lia | rewrite MINOR_MAX_val; lia]. Defined.

(** An allocation of [count] minors from [base_minor] up returns the first
    run that overlaps no region, keeps the regions of the major sorted and
    disjoint, and takes the lowest free major when none is asked for; a call
    that fails leaves the allocator as it was, its major given back, and says
    EINVAL for want of room only when there is none. *)
Theorem devno_alloc_region_correct mem_ok a major base count :
  devno_inv a -> 0 <= major -> 0 <= base -> 0 <= count ->
  exists a' r, devno_alloc_region mem_ok a major base count = Ret (a', r) /\
    match r with
    | inl err => unchanged a a' /\ (err = EINVAL \/ err = ENOMEM) /\
        (err = EINVAL -> 0 < major < MAJOR_MAX -> bm_get (major_pool a) major = true ->
         count = 0 \/ exhausted (regions a major) base count)
    | inr dev => exists minor a1 major', dev = MKDEV major' minor /\
        placed a1 a' major' base count minor /\
        ((major' = major /\ a1 = a /\ bm_get (major_pool a) major = true) \/
         (major = 0 /\ bm_get (major_pool a) major' = false /\
          (forall j, 0 <= j < major' -> bm_get (major_pool a) j = true) /\
          regions a1 = regions a /\
          forall j, 0 <= j < MAJOR_MAX ->
            bm_get (major_pool a1) j = (j =? major') || bm_get (major_pool a) j))
    end.
Proof.
  intros Ha Hm Hb Hc. unfold devno_alloc_region, devno_alloc_region_no_lock.
  assert (Hsame : unchanged a a) by done.
  destruct (Z.leb_spec MAJOR_MAX major) as [Hge | Hlt]; cbn [orb].
  { do 2 eexists. split; [reflexivity |]. split_and!; [done | by left | lia]. }
  destruct (Z.eqb_spec count 0) as [-> | Hne].
  { do 2 eexists. split; [reflexivity |]. split_and!; [done | by left | by left]. }
  pose proof MAJOR_MAX_val as Hmax. rewrite Hmax in Hlt.
  destruct (Z.eqb_spec major 0) as [-> | Hnz].
  - destruct (alloc_major_spec a Ha) as (a1 & [err | maj] & -> & Ha1 & Hr).
    { destruct Hr as (-> & -> & _). do 2 eexists. split; [reflexivity |]. split_and!; [done | by right | lia]. }
    destruct Hr as (Hr1 & Hr2 & Hr3 & Hr4 & Hr5).
    destruct (place_spec mem_ok a1 maj base count Ha1) as (a2 & r & _ & Hout & Hplace); try lia.
    rewrite Hplace. destruct r as [err | dev].
    + destruct Hout as (-> & _ & Herr). unfold devno_undo.
      destruct (free_major_spec a1 maj Ha1 Hr1) as (a3 & -> & Ha3 & Hset & Hget).
      do 2 eexists. split; [reflexivity |]. split_and!; [| tauto | lia].
      split_and!; [done | | rewrite Hset, Hr3; done].
      intros j Hj. rewrite Hget, Hr4 by done. destruct (Z.eqb_spec j maj) as [-> |]; [by rewrite Hr2 | done].
    + destruct Hout as (minor & -> & Hpl). do 2 eexists. split; [reflexivity |].
      exists minor, a1, maj. split_and!; [done | done |]. right.
      split_and!; [done | done | done | by rewrite Hr3 | done].
  - destruct (Z.leb_spec MAJOR_MAX major); [lia |].
    rewrite bitmap_test_bit_spec by (apply (di_words _ Ha) || (rewrite inv_capacity by done; lia)).
    destruct (bm_get (major_pool a) major) eqn:Hbit; cbn [negb].
    2: { do 2 eexists. split; [reflexivity |]. split_and!; [done | by left | done]. }
    destruct (place_spec mem_ok a major base count Ha) as (a2 & r & -> & Hout & _); try lia.
    do 2 eexists. split; [reflexivity |]. destruct r as [err | dev].
    + destruct Hout as (-> & Hex & Herr). split_and!; [done | tauto | tauto].
    + destruct Hout as (minor & -> & Hpl). exists minor, a, major. split_and!; [done | done | by left].
Qed.

Definition demo_devno : devno_allocator :=
  mk_devno (<[1 := [mk_dregion 0 4; mk_dregion 8 2]]> (fun _ => [])) [65535; 0; 0; 0].

Lemma demo_devno_inv : devno_inv demo_devno.
Proof.
  split; [repeat constructor; lia | done |]. intros major. simpl.
  destruct (decide (1 = major)) as [<- | Hne].
  - rewrite fn_lookup_insert. simpl. unfold rend. simpl. rewrite MINOR_MAX_val. lia.
  - rewrite fn_lookup_insert_ne by done. simpl. rewrite MINOR_MAX_val. lia.
Qed.

Lemma devno_alloc_region_witness :
  exists a' r, devno_alloc_region true demo_devno 1 0 5 = Ret (a', r) /\ r = inr (MKDEV 1 10).
Proof.
  destruct (devno_alloc_region_correct true demo_devno 1 0 5) as (a' & r & H & _);
    [apply demo_devno_inv | lia | lia | lia |].
  exists a', r. split; [exact H |]. vm_compute in H. injection H as _ <-. reflexivity.
Defined.

Lemma region_delete_spec minor count (Hc : 0 < count) l : forall lo,
  0 <= lo -> regs_ok lo l ->
  regs_ok lo (region_delete l minor count) /\
  (mk_dregion minor count ∈ l -> forall x, covers (region_delete l minor count) x <->
     covers l x /\ ~ (minor <= x < minor + count)) /\
  (mk_dregion minor count ∉ l -> region_delete l minor count = l).
Proof.
  induction l as [| r l IH]; intros lo Hlo Hok; cbn [region_delete].
  { split_and!; [done | by intros ?%elem_of_nil | done]. }
  rewrite (rend_u32 lo _ l) by done. pose proof Hok as (K1 & K2 & K3).
  pose proof (regs_ok_le _ _ K3) as Hle.
  destruct (Z.leb_spec (rend r) minor) as [Hskip | Hhit].
  { destruct (IH (rend r)) as (I1 & I2 & I3); [unfold rend; lia | done |]. split_and!.
    - done.
    - intros Hin x. apply elem_of_cons in Hin as [<- | Hin]; [unfold rend in *; simpl in *; lia |].
      rewrite !dcovers_cons, I2 by done. unfold rend in *. intuition lia.
    - intros Hni. rewrite I3; [done |]. set_solver. }
  destruct (Z.eqb_spec (minor_start r) minor) as [Es | Es]; cbn [andb];
    [destruct (Z.eqb_spec (minor_count r) count) as [Ec | Ec] |].
  - split_and!.
    + eapply regs_ok_weaken; [| exact K3]. unfold rend. lia.
    + intros _ x. rewrite dcovers_cons. pose proof (regs_ok_covers _ _ x K3) as Hx.
      unfold rend in *. subst. split; [intros Hc'; specialize (Hx Hc'); split; [tauto | lia] | tauto].
    + intros Hni. exfalso. apply Hni. subst. destruct r. left.
  - split_and!; [done | | done]. intros Hin x. exfalso.
    apply elem_of_cons in Hin as [<- | Hin]; [done |].
    assert (Hc' : covers l minor) by (exists (mk_dregion minor count); split; [done | unfold rend; simpl; lia]).
    apply (regs_ok_covers _ _ _ K3) in Hc'. lia.
  - split_and!; [done | | done]. intros Hin x. exfalso.
    apply elem_of_cons in Hin as [<- | Hin]; [done |].
    assert (Hc' : covers l minor) by (exists (mk_dregion minor count); split; [done | unfold rend; simpl; lia]).
    apply (regs_ok_covers _ _ _ K3) in Hc'. lia.
Qed.

(** Freeing a region that was allocated removes exactly its minors; a
    free that matches no region changes nothing. *)
Theorem devno_free_region_correct a major minor count :
  devno_inv a -> 0 <= major < MAJOR_MAX -> 0 <= minor -> 0 < count -> minor + count <= MINOR_MAX ->
  let a' := devno_free_region a major minor count in
  devno_inv a' /\ (forall j, j <> major -> regions a' j = regions a j) /\
  (mk_dregion minor count ∈ regions a major ->
   forall x, covers (regions a' major) x <->
     covers (regions a major) x /\ ~ (minor <= x < minor + count)) /\
  (mk_dregion minor count ∉ regions a major -> regions a' major = regions a major).
Proof.
  intros Ha Hm Hmin Hc Hfit. unfold devno_free_region.
  destruct (Z.leb_spec MAJOR_MAX major); [lia |]. destruct (Z.eqb_spec count 0); [lia |].
  destruct (Z.leb_spec MINOR_MAX minor); [lia |].
  destruct (Z.ltb_spec (MINOR_MAX - minor) count); [lia |]. cbn [orb]. cbv zeta.
  destruct (region_delete_spec minor count Hc (regions a major) 0 ltac:(lia) (di_regs _ Ha major)) as (D1 & D2 & D3).
  split_and!.
  - split; try apply Ha. intros j. simpl. destruct (decide (major = j)) as [<- | Hne].
    + by rewrite fn_lookup_insert.
    + rewrite fn_lookup_insert_ne by done. apply Ha.
  - intros j Hj. simpl. by rewrite fn_lookup_insert_ne by congruence.
  - intros Hin x. simpl. rewrite fn_lookup_insert. by apply D2.
  - intros Hni. simpl. rewrite fn_lookup_insert. by apply D3.
Qed.

Lemma devno_free_region_witness :
  let a' := devno_free_region demo_devno 1 8 2 in
  devno_inv a' /\ (forall j, j <> 1 -> regions a' j = regions demo_devno j) /\
  (mk_dregion 8 2 ∈ regions demo_devno 1 ->
   forall x, covers (regions a' 1) x <-> covers (regions demo_devno 1) x /\ ~ (8 <= x < 8 + 2)) /\
  (mk_dregion 8 2 ∉ regions demo_devno 1 -> regions a' 1 = regions demo_devno 1).
Proof.
  apply (devno_free_region_correct demo_devno 1 8 2);
    [apply demo_devno_inv | rewrite MAJOR_MAX_val; lia | lia | lia | rewrite MINOR_MAX_val; lia].
Defined.

(** [devno_alloc_minor] on major 0, which its test accepts because the
    reserved majors are marked in the pool, takes a new dynamic major and
    returns only the minor: the caller cannot tell which major it was. *)
Theorem devno_alloc_minor_zero mem_ok a :
  devno_inv a -> bm_get (major_pool a) 0 = true ->
  forall a' minor, devno_alloc_minor mem_ok a 0 = Ret (a', inr minor) ->
  exists major, 0 < major < MAJOR_MAX /\ bm_get (major_pool a) major = false /\
    bm_get (major_pool a') major = true /\ regions a' 0 = regions a 0.
Proof.
  intros Ha H0 a' minor Hr. unfold devno_alloc_minor in Hr.
  rewrite bitmap_test_bit_spec in Hr by (apply (di_words _ Ha) || (rewrite inv_capacity by done; lia)).
  rewrite H0 in Hr. cbn [negb] in Hr. destruct (Z.leb_spec MAJOR_MAX 0); [done |].
  unfold devno_alloc_region_no_lock in Hr. cbn [Z.eqb] in Hr.
  destruct (alloc_major_spec a Ha) as (a1 & [err | maj] & Hal & Ha1 & Hm); rewrite Hal in Hr; [done |].
  destruct Hm as (Hr1 & Hr2 & Hr3 & Hr4 & Hr5). rewrite MAJOR_MAX_val in *.
  destruct (place_spec mem_ok a1 maj 0 1 Ha1) as (a2 & r & _ & Hout & Hplace); try lia.
  rewrite Hplace in Hr. destruct r as [err | dev].
  { unfold devno_undo in Hr. destruct (devno_free_major_no_lock a1 maj); done. }
  destruct Hout as (m & -> & Hpl). simplify_eq. exists maj.
  assert (maj <> 0) by (intros ->; congruence).
  split_and!; [lia | lia | done | |].
  - rewrite (pl_pool _ _ _ _ _ _ Hpl), Hr4 by lia. by rewrite Z.eqb_refl.
  - rewrite (pl_frame _ _ _ _ _ _ Hpl) by congruence. by rewrite Hr3.
Qed.

Lemma devno_alloc_minor_zero_witness :
  exists a' minor, devno_alloc_minor true demo_devno 0 = Ret (a', inr minor) /\
  exists major, 0 < major < MAJOR_MAX /\ bm_get (major_pool demo_devno) major = false /\
    bm_get (major_pool a') major = true /\ regions a' 0 = regions demo_devno 0.
Proof.
  eexists _, _. split; [vm_compute; reflexivity |].
  eapply (devno_alloc_minor_zero true demo_devno demo_devno_inv eq_refl). vm_compute. reflexivity.
Defined.
