(* ===== verification/FdTable.v ===== *)
(** * fs/fdtable.c: file descriptor tables

    Open files live in a shared store: [counts] maps a file to its reference
    count, a file it does not hold has been freed, and using such a file is a
    [Fault].  [released] records the files whose last reference was dropped, in
    order ([fs_file_put] then calls [release], drops the path and frees the
    object).  A table is its array of OPEN_MAX slots, NULL as [None]. *)

From S2P Require Import Prelude Refcnt.

Definition OPEN_MAX : Z := 64.
Definition EBADF : Z := 9.
Definition EMFILE : Z := 24.

Record file_store : Set := mk_store { counts : gmap Z Z; released : list Z }.

Record file_desc_table : Set := mk_fdtable { refcnt : Z; files : list (option Z) }.

Definition set_files (t : file_desc_table) (l : list (option Z)) : file_desc_table :=
  mk_fdtable (refcnt t) l.

(** ** fs/file.c *)

Definition fs_file_get (h : file_store) (file : Z) : res file_store :=
  match counts h !! file with
  | Some c => Ret (mk_store (<[file := refcnt_inc c]> (counts h)) (released h))
  | None => Halt Fault
  end.

Definition fs_file_put (h : file_store) (file : Z) : res file_store :=
  match counts h !! file with
  | Some c =>
      let (counter, v) := refcnt_dec_fetch c in
      if 0 <? v then Ret (mk_store (<[file := counter]> (counts h)) (released h))
      else Ret (mk_store (delete file (counts h)) (released h ++ [file]))
  | None => Halt Fault
  end.

(** [if (file) fs_file_put(file)]. *)
Definition put_if (h : file_store) (file : option Z) : res file_store :=
  match file with Some f => fs_file_put h f | None => Ret h end.

(** [if (file) new = fs_file_get(file)]. *)
Definition get_if (h : file_store) (file : option Z) : res file_store :=
  match file with Some f => fs_file_get h f | None => Ret h end.

(** ** The table *)

Definition fdtable_alloc : file_desc_table := mk_fdtable 1 (replicate (Z.to_nat OPEN_MAX) None).

Definition fdtable_get (t : file_desc_table) : file_desc_table :=
  mk_fdtable (refcnt_inc (refcnt t)) (files t).

(** The loops over the slots, [n] left from [i]. *)
Fixpoint close_loop (h : file_store) (l : list (option Z)) (i : Z) (n : nat)
    : res (file_store * list (option Z)) :=
  match n with
  | O => Ret (h, l)
  | S n' =>
      let! file := rd l i in
      let! l := wr l i None in
      let! h := put_if h file in
      close_loop h l (i + 1) n'
  end.

(** [None]: the table itself was freed. *)
Definition fdtable_put (h : file_store) (t : file_desc_table)
    : res (file_store * option file_desc_table) :=
  let (counter, v) := refcnt_dec_fetch (refcnt t) in
  if 0 <? v then Ret (h, Some (mk_fdtable counter (files t)))
  else
    let! (h, _) := close_loop h (files t) 0 (Z.to_nat OPEN_MAX) in
    Ret (h, None).

Fixpoint copy_loop (h : file_store) (dst src : list (option Z)) (i : Z) (n : nat)
    : res (file_store * list (option Z)) :=
  match n with
  | O => Ret (h, dst)
  | S n' =>
      let! new_file := rd src i in
      let! h := get_if h new_file in
      let! old := rd dst i in
      let! dst := wr dst i new_file in
      let! h := put_if h old in
      copy_loop h dst src (i + 1) n'
  end.

Definition fdtable_copy (h : file_store) (dst src : file_desc_table)
    : res (file_store * file_desc_table) :=
  let! (h, l) := copy_loop h (files dst) (files src) 0 (Z.to_nat OPEN_MAX) in
  Ret (h, set_files dst l).

(** The first slot that is NULL, [n] left from [i]. *)
Fixpoint free_slot (l : list (option Z)) (i : Z) (n : nat) : res (option Z) :=
  match n with
  | O => Ret None
  | S n' =>
      let! file := rd l i in
      match file with
      | None => Ret (Some i)
      | Some _ => free_slot l (i + 1) n'
      end
  end.

Definition fdtable_alloc_fd (t : file_desc_table) (file : Z) : res (file_desc_table * Z) :=
  let! r := free_slot (files t) 0 (Z.to_nat OPEN_MAX) in
  match r with
  | None => Ret (t, - EMFILE)
  | Some fd => let! l := wr (files t) fd (Some file) in Ret (set_files t l, fd)
  end.

Definition bad_fd (fd : Z) : bool := (fd <? 0) || (OPEN_MAX <=? fd).

Definition fdtable_close_fd (h : file_store) (t : file_desc_table) (fd : Z)
    : res (file_store * file_desc_table * Z) :=
  if bad_fd fd then Ret (h, t, - EBADF)
  else
    let! file := rd (files t) fd in
    match file with
    | None => Ret (h, t, - EBADF)
    | Some f =>
        let! l := wr (files t) fd None in
        let! h := fs_file_put h f in
        Ret (h, set_files t l, 0)
    end.

(** [inl] carries the errno of the [ERR_PTR]. *)
Definition fdtable_get_file (h : file_store) (t : file_desc_table) (fd : Z)
    : res (file_store * (Z + Z)) :=
  if bad_fd fd then Ret (h, inl (- EBADF))
  else
    let! file := rd (files t) fd in
    match file with
    | None => Ret (h, inl (- EBADF))
    | Some f => let! h := fs_file_get h f in Ret (h, inr f)
    end.

Definition fdtable_dup_fd (h : file_store) (t : file_desc_table) (fd : Z)
    : res (file_store * file_desc_table * Z) :=
  if bad_fd fd then Ret (h, t, - EBADF)
  else
    let! file := rd (files t) fd in
    match file with
    | None => Ret (h, t, - EBADF)
    | Some f =>
        let! r := free_slot (files t) 0 (Z.to_nat OPEN_MAX) in
        match r with
        | None => Ret (h, t, - EMFILE)
        | Some newfd =>
            let! h := fs_file_get h f in
            let! l := wr (files t) newfd (Some f) in
            Ret (h, set_files t l, newfd)
        end
    end.

Definition fdtable_dup_fd2 (h : file_store) (t : file_desc_table) (oldfd newfd : Z)
    : res (file_store * file_desc_table * Z) :=
  if bad_fd oldfd || bad_fd newfd then Ret (h, t, - EBADF)
  else
    let! file := rd (files t) oldfd in
    match file with
    | None => Ret (h, t, - EBADF)
    | Some f =>
        let! cur := rd (files t) newfd in
        match cur with
        | Some g =>
            if negb (g =? f) then
              let! h := fs_file_get h f in
              let! l := wr (files t) newfd (Some f) in
              let! h := fs_file_put h g in
              Ret (h, set_files t l, 0)
            else Ret (h, t, 0)
        | None =>
            let! h := fs_file_get h f in
            let! l := wr (files t) newfd (Some f) in
            Ret (h, set_files t l, 0)
        end
    end.

Definition fdtable_close_all (h : file_store) (t : file_desc_table)
    : res (file_store * file_desc_table) :=
  let! (h, l) := close_loop h (files t) 0 (Z.to_nat OPEN_MAX) in
  Ret (h, set_files t l).

(** ** Reference counts are exact *)

Definition eqf (x : option Z) (f : Z) : Z := if decide (x = Some f) then 1 else 0.

Fixpoint occ (f : Z) (l : list (option Z)) : Z :=
  match l with [] => 0 | x :: l' => eqf x f + occ f l' end.

(** The count of every file is the number of slots that hold it plus the
    references [ext] held elsewhere; a file nobody refers to is freed. *)
Record counted (h : file_store) (l : list (option Z)) (ext : Z -> Z) : Prop := {
  ct_ext : forall f, 0 <= ext f < 2 ^ 31;
  ct_len : length l = 64%nat;
  ct_count : forall f, match counts h !! f with
                       | Some c => c = occ f l + ext f /\ 0 < c
                       | None => occ f l + ext f = 0
                       end
}.

Lemma eqf_eq f : eqf (Some f) f = 1.
Proof. unfold eqf. by rewrite decide_True. Qed.

Lemma eqf_ne g f : g <> f -> eqf (Some g) f = 0.
Proof. intros. unfold eqf. rewrite decide_False; congruence. Qed.

Lemma eqf_None f : eqf None f = 0.
Proof. done. Qed.

Lemma occ_nonneg f l : 0 <= occ f l <= Z.of_nat (length l).
Proof. induction l; simpl; [lia |]. unfold eqf. case_decide; lia. Qed.

Lemma occ_insert f l (i : nat) old new : l !! i = Some old ->
  occ f (<[i := new]> l) = occ f l - eqf old f + eqf new f.
Proof.
  revert i. induction l as [| x l IH]; intros [| i] Hi; simpl in *; simplify_eq; [lia |].
  rewrite IH by done. lia.
Qed.

Lemma occ_pos f l (i : nat) : l !! i = Some (Some f) -> 0 < occ f l.
Proof.
  revert i. induction l as [| x l IH]; intros [| i] Hi; simpl in *; simplify_eq.
  - pose proof (occ_nonneg f l). unfold eqf. rewrite decide_True by done. lia.
  - apply IH in Hi. unfold eqf. case_decide; lia.
Qed.

Lemma eqf_bound x f : 0 <= eqf x f <= 1.
Proof. unfold eqf. case_decide; lia. Qed.

(** A slot changes hands: what it held is put, what it gets was the caller's. *)
Lemma slot_swap h l ext (i : nat) old new :
  counted h l ext -> l !! i = Some old -> (forall f, new = Some f -> 0 < ext f) ->
  exists h', put_if h old = Ret h' /\
    counted h' (<[i := new]> l) (fun f => ext f - eqf new f) /\
    released h' = released h ++
      match old with
      | Some f => if decide (occ f l + ext f = 1) then [f] else []
      | None => []
      end.
Proof.
  intros [He Hl Hc] Hi Hnew.
  assert (Hext : forall f, 0 <= ext f - eqf new f < 2 ^ 31).
  { intros f. specialize (He f). unfold eqf. case_decide as E; [apply Hnew in E |]; lia. }
  destruct old as [g |]; simpl.
  - pose proof (occ_pos g l i Hi) as Hp. unfold fs_file_put.
    pose proof (Hc g) as Hcg. pose proof (He g). destruct (counts h !! g) as [c |] eqn:Hg; [| lia].
    destruct Hcg as [-> Hpos]. unfold refcnt_dec_fetch.
    destruct (Z.ltb_spec 0 (occ g l + ext g)); [| lia].
    destruct (Z.ltb_spec 0 (occ g l + ext g - 1)) as [Hmore | Hlast].
    + eexists. split; [reflexivity |]. split; [split |]; simpl.
      * done.
      * by rewrite length_insert.
      * intros f. rewrite (occ_insert f l i (Some g)) by done. specialize (Hc f).
        destruct (decide (g = f)) as [<- | Hne].
        -- rewrite lookup_insert_eq, eqf_eq. lia.
        -- rewrite lookup_insert_ne, (eqf_ne g f) by done. destruct (counts h !! f); lia.
      * rewrite decide_False by lia. by rewrite app_nil_r.
    + eexists. split; [reflexivity |]. split; [split |]; simpl.
      * done.
      * by rewrite length_insert.
      * intros f. rewrite (occ_insert f l i (Some g)) by done. specialize (Hc f).
        destruct (decide (g = f)) as [<- | Hne].
        -- rewrite lookup_delete_eq, eqf_eq. lia.
        -- rewrite lookup_delete_ne, (eqf_ne g f) by done. destruct (counts h !! f); lia.
      * by rewrite decide_True by lia.
  - eexists. split; [reflexivity |]. split; [split |]; simpl.
    + done.
    + by rewrite length_insert.
    + intros f. rewrite (occ_insert f l i None) by done. specialize (Hc f).
      rewrite eqf_None. destruct (counts h !! f); lia.
    + by rewrite app_nil_r.
Qed.

(** A live file gets one more reference. *)
Lemma file_get h l ext f :
  counted h l ext -> 0 < occ f l + ext f -> ext f < 2 ^ 31 - 1 ->
  exists h', fs_file_get h f = Ret h' /\ counted h' l (fun g => ext g + eqf (Some f) g) /\
    released h' = released h.
Proof.
  intros [He Hl Hc] Hlive Hmax. unfold fs_file_get. pose proof (Hc f) as Hf. pose proof (He f).
  pose proof (occ_nonneg f l) as Ho. rewrite Hl in Ho.
  destruct (counts h !! f) as [c |] eqn:E; [| lia]. destruct Hf as [-> Hpos].
  eexists. split; [reflexivity |]. split; [split |]; simpl; [| done | | done].
  - intros g. specialize (He g). unfold eqf. case_decide; simplify_eq; lia.
  - intros g. specialize (Hc g). destruct (decide (f = g)) as [<- | Hne].
    + rewrite lookup_insert_eq, eqf_eq. unfold refcnt_inc, refcnt_inc_fetch. simpl.
      rewrite u32_small by lia. lia.
    + rewrite lookup_insert_ne, eqf_ne by done. destruct (counts h !! g); lia.
Qed.

(** ** The operations *)

Lemma rd_slot {A} (l : list A) (fd : Z) : length l = 64%nat -> 0 <= fd < 64 ->
  exists x, rd l fd = Ret x /\ l !! Z.to_nat fd = Some x.
Proof.
  intros Hl Hfd. destruct (rd_in_range l fd) as [x Hx]; [lia |]. exists x.
  split; [done |]. by apply rd_ret in Hx as [_ Hx].
Qed.

Lemma free_slot_spec l (n : nat) : forall i,
  length l = 64%nat -> 0 <= i -> i + Z.of_nat n = 64 ->
  exists r, free_slot l i n = Ret r /\
    match r with
    | Some fd => i <= fd < 64 /\ l !! Z.to_nat fd = Some None /\
        forall j, i <= j < fd -> exists f, l !! Z.to_nat j = Some (Some f)
    | None => forall j, i <= j < 64 -> exists f, l !! Z.to_nat j = Some (Some f)
    end.
Proof.
  induction n as [| n IH]; intros i Hl Hi Hn; cbn [free_slot].
  { exists None. split; [done |]. intros j Hj. lia. }
  destruct (rd_slot l i Hl ltac:(lia)) as ([f |] & -> & Hs).
  - destruct (IH (i + 1) Hl) as (r & -> & Hr); [lia | lia |]. exists r. split; [done |].
    destruct r as [fd |].
    + destruct Hr as (H1 & H2 & H3). split_and!; [lia | lia | done |]. intros j Hj.
      destruct (Z.eq_dec j i) as [-> |]; [eauto |]. apply H3. lia.
    + intros j Hj. destruct (Z.eq_dec j i) as [-> |]; [eauto |]. apply Hr. lia.
  - exists (Some i). split; [done |]. split_and!; [lia | lia | done |]. intros j Hj. lia.
Qed.

Lemma wr_slot {A} (l : list A) (fd : Z) x : length l = 64%nat -> 0 <= fd < 64 ->
  wr l fd x = Ret (<[Z.to_nat fd := x]> l).
Proof. intros. apply wr_in_range. lia. Qed.

Lemma counted_ext h l ext ext' : (forall f, ext' f = ext f) -> counted h l ext -> counted h l ext'.
Proof. intros E [H1 H2 H3]. split; [| done |]; intros f; rewrite E; [apply H1 | apply H3]. Qed.

Lemma bad_fd_false fd : bad_fd fd = false <-> 0 <= fd < 64.
Proof. unfold bad_fd, OPEN_MAX. bool_prop; split; (done || lia). Qed.

(** What a process may do with its table.  [Install] hands over a reference
    the caller holds ([fdtable_alloc_fd]); [Lookup] takes one for the caller and
    [Drop] puts it. *)
Inductive fd_op : Set :=
| Install (f : Z) | Close (fd : Z) | Lookup (fd : Z) | Drop (f : Z)
| Dup (fd : Z) | Dup2 (oldfd newfd : Z) | CloseAll.

Record fd_sys : Type := mk_fdsys { store : file_store; table : file_desc_table; held : Z -> Z }.

(** [held] is the book-keeping of the references outside the table. *)
Definition op_step (s : fd_sys) (op : fd_op) : res (fd_sys * Z) :=
  let h := store s in let t := table s in let e := held s in
  match op with
  | Install f =>
      let! (t, fd) := fdtable_alloc_fd t f in
      Ret (mk_fdsys h t (if fd <? 0 then e else fun g => e g - eqf (Some f) g), fd)
  | Close fd =>
      let! (h, t, r) := fdtable_close_fd h t fd in Ret (mk_fdsys h t e, r)
  | Lookup fd =>
      let! (h, r) := fdtable_get_file h t fd in
      match r with
      | inl err => Ret (mk_fdsys h t e, err)
      | inr f => Ret (mk_fdsys h t (fun g => e g + eqf (Some f) g), 0)
      end
  | Drop f =>
      let! h := fs_file_put h f in Ret (mk_fdsys h t (fun g => e g - eqf (Some f) g), 0)
  | Dup fd =>
      let! (h, t, r) := fdtable_dup_fd h t fd in Ret (mk_fdsys h t e, r)
  | Dup2 oldfd newfd =>
      let! (h, t, r) := fdtable_dup_fd2 h t oldfd newfd in Ret (mk_fdsys h t e, r)
  | CloseAll =>
      let! (h, t) := fdtable_close_all h t in Ret (mk_fdsys h t e, 0)
  end.

Definition fd_inv (s : fd_sys) : Prop := counted (store s) (files (table s)) (held s).

(** A reference can only be handed over or dropped by who holds it, and the
    references outside the table stay far below the width of the counter. *)
Definition allowed (s : fd_sys) (op : fd_op) : Prop :=
  (forall f, held s f < 2 ^ 31 - 1) /\
  match op with Install f | Drop f => 0 < held s f | _ => True end.

Lemma close_loop_spec (n : nat) : forall h l ext i,
  counted h l ext -> 0 <= i -> i + Z.of_nat n = 64 ->
  exists h' l', close_loop h l i n = Ret (h', l') /\ counted h' l' ext /\
    forall j : nat, l' !! j = if decide (i <= Z.of_nat j < 64) then Some None else l !! j.
Proof.
  induction n as [| n IH]; intros h l ext i Hc Hi Hn; cbn [close_loop].
  { exists h, l. split_and!; try done. intros j. by rewrite decide_False by lia. }
  pose proof (ct_len _ _ _ Hc) as Hl.
  destruct (rd_slot l i Hl ltac:(lia)) as (x & -> & Hx). rewrite wr_slot by (done || lia).
  destruct (slot_swap h l ext (Z.to_nat i) x None Hc Hx ltac:(done)) as (h1 & -> & Hc1 & _).
  destruct (IH h1 (<[Z.to_nat i := None]> l) ext (i + 1)) as (h' & l' & -> & Hc' & Hl'); [| lia | lia |].
  { eapply counted_ext; [| exact Hc1]. intros f. unfold eqf. simpl. lia. }
  exists h', l'. split_and!; try done. intros j. rewrite Hl'.
  destruct (decide (Z.of_nat j = i)) as [E | E].
  - rewrite decide_False, decide_True by lia. replace (Z.to_nat i) with j by lia.
    apply list_lookup_insert_eq. apply lookup_lt_Some in Hx. lia.
  - rewrite list_lookup_insert_ne by lia. repeat case_decide; try done; lia.
Qed.

(** Dropping a reference held outside the table. *)
Lemma drop_held h l ext f : counted h l ext -> 0 < ext f ->
  exists h', fs_file_put h f = Ret h' /\ counted h' l (fun g => ext g - eqf (Some f) g).
Proof.
  intros [He Hl Hc] Hf. unfold fs_file_put. pose proof (Hc f) as Hcf. pose proof (He f).
  pose proof (occ_nonneg f l). destruct (counts h !! f) as [c |] eqn:E; [| lia].
  destruct Hcf as [-> Hpos]. unfold refcnt_dec_fetch. destruct (Z.ltb_spec 0 (occ f l + ext f)); [| lia].
  assert (Hext : forall g, 0 <= ext g - eqf (Some f) g < 2 ^ 31).
  { intros g. specialize (He g). unfold eqf. case_decide; simplify_eq; lia. }
  destruct (Z.ltb_spec 0 (occ f l + ext f - 1)); eexists; (split; [reflexivity |]);
    split; simpl; try done; intros g; specialize (Hc g); destruct (decide (f = g)) as [<- | Hne].
  - rewrite lookup_insert_eq, eqf_eq. lia.
  - rewrite lookup_insert_ne, eqf_ne by done. destruct (counts h !! g); lia.
  - rewrite lookup_delete_eq, eqf_eq. lia.
  - rewrite lookup_delete_ne, eqf_ne by done. destruct (counts h !! g); lia.
Qed.

(** Putting one more reference to a live file in a slot. *)
Lemma slot_share h l ext (i : nat) old f :
  counted h l ext -> l !! i = Some old -> 0 < occ f l + ext f -> ext f < 2 ^ 31 - 1 ->
  exists h1 h2, fs_file_get h f = Ret h1 /\ put_if h1 old = Ret h2 /\ counted h2 (<[i := Some f]> l) ext.
Proof.
  intros Hc Hi Hlive Hmax. destruct (file_get h l ext f) as (h1 & Hg & Hc1 & _); try done.
  destruct (slot_swap h1 l _ i old (Some f) Hc1 Hi) as (h2 & Hp & Hc2 & _).
  { intros g [= <-]. pose proof (ct_ext _ _ _ Hc f). unfold eqf. rewrite decide_True by done. lia. }
  exists h1, h2. split_and!; try done. eapply counted_ext; [| exact Hc2]. intros g. simpl. lia.
Qed.

Lemma op_step_ok s op : fd_inv s -> allowed s op ->
  exists s' r, op_step s op = Ret (s', r) /\ fd_inv s'.
Proof.
  intros Hinv [Hmax Hop]. destruct s as [h t e]. unfold fd_inv in *. simpl in *.
  pose proof (ct_len _ _ _ Hinv) as Hl.
  destruct op as [f | fd | fd | f | fd | oldfd newfd |]; simpl.
  - unfold fdtable_alloc_fd.
    destruct (free_slot_spec (files t) (Z.to_nat OPEN_MAX) 0 Hl) as ([fd |] & -> & Hr); [lia | done | |].
    + destruct Hr as (Hfd & Hs & _). rewrite wr_slot by (done || lia).
      destruct (slot_swap h (files t) e (Z.to_nat fd) None (Some f) Hinv Hs) as (h' & [= <-] & Hc & _).
      { by intros g [= <-]. }
      do 2 eexists. split; [reflexivity |]. destruct (Z.ltb_spec fd 0); [lia |]. done.
    + do 2 eexists. split; [reflexivity |]. done.
  - unfold fdtable_close_fd. destruct (bad_fd fd) eqn:Hb; [by do 2 eexists |].
    apply bad_fd_false in Hb. destruct (rd_slot (files t) fd Hl Hb) as ([f |] & -> & Hs); [| by do 2 eexists].
    rewrite wr_slot by done.
    destruct (slot_swap h (files t) e (Z.to_nat fd) (Some f) None Hinv Hs) as (h' & Hput & Hc & _); [done |].
    simpl in Hput. rewrite Hput. do 2 eexists. split; [reflexivity |].
    eapply counted_ext; [| exact Hc]. intros g. unfold eqf. simpl. lia.
  - unfold fdtable_get_file. destruct (bad_fd fd) eqn:Hb; [by do 2 eexists |].
    apply bad_fd_false in Hb. destruct (rd_slot (files t) fd Hl Hb) as ([f |] & -> & Hs); [| by do 2 eexists].
    pose proof (occ_pos _ _ _ Hs). pose proof (ct_ext _ _ _ Hinv f).
    destruct (file_get h (files t) e f Hinv) as (h' & -> & Hc & _); [lia | apply Hmax |].
    by do 2 eexists.
  - destruct (drop_held h (files t) e f Hinv Hop) as (h' & -> & Hc). by do 2 eexists.
  - unfold fdtable_dup_fd. destruct (bad_fd fd) eqn:Hb; [by do 2 eexists |].
    apply bad_fd_false in Hb. destruct (rd_slot (files t) fd Hl Hb) as ([f |] & -> & Hs); [| by do 2 eexists].
    pose proof (occ_pos _ _ _ Hs). pose proof (ct_ext _ _ _ Hinv f).
    destruct (free_slot_spec (files t) (Z.to_nat OPEN_MAX) 0 Hl) as ([nfd |] & -> & Hr); [lia | done | |];
      [| by do 2 eexists].
    destruct Hr as (Hfd & Hs' & _).
    destruct (slot_share h (files t) e (Z.to_nat nfd) None f Hinv Hs') as (h1 & h2 & -> & [= <-] & Hc);
      [lia | apply Hmax |].
    rewrite wr_slot by (done || lia). by do 2 eexists.
  - unfold fdtable_dup_fd2. destruct (bad_fd oldfd) eqn:Hb1; [by do 2 eexists |].
    destruct (bad_fd newfd) eqn:Hb2; [by do 2 eexists |]. cbn [orb].
    apply bad_fd_false in Hb1, Hb2.
    destruct (rd_slot (files t) oldfd Hl Hb1) as ([f |] & -> & Hs); [| by do 2 eexists].
    pose proof (occ_pos _ _ _ Hs). pose proof (ct_ext _ _ _ Hinv f).
    destruct (rd_slot (files t) newfd Hl Hb2) as (cur & -> & Hs').
    destruct (slot_share h (files t) e (Z.to_nat newfd) cur f Hinv Hs') as (h1 & h2 & Hg & Hp & Hc);
      [lia | apply Hmax |].
    destruct cur as [g |]; [destruct (Z.eqb_spec g f); simpl; [by do 2 eexists |] |];
      rewrite Hg, wr_slot by done; simpl in Hp; rewrite ?Hp; simplify_eq; by do 2 eexists.
  - unfold fdtable_close_all.
    destruct (close_loop_spec (Z.to_nat OPEN_MAX) h (files t) e 0 Hinv) as (h' & l' & -> & Hc & _);
      [lia | done |]. by do 2 eexists.
Qed.

Inductive fd_reach (s0 : fd_sys) : fd_sys -> Prop :=
| fdr_refl : fd_reach s0 s0
| fdr_step s s' op r : fd_reach s0 s -> allowed s op -> op_step s op = Ret (s', r) -> fd_reach s0 s'.

(** ** Properties *)

(** C37: over any sequence of opens, closes, lookups, dups and close-alls, the
    reference count of every file stays the number of descriptors and other
    holders that refer to it, a file with no holder left is freed and never
    touched again: every further operation returns. *)
Theorem fdtable_refcounts s0 s op :
  fd_inv s0 -> fd_reach s0 s -> allowed s op ->
  fd_inv s /\ exists s' r, op_step s op = Ret (s', r) /\ fd_inv s'.
Proof.
  intros Hinv Hreach Hop. assert (Hs : fd_inv s).
  { clear Hop. induction Hreach as [| s s' op' r _ IH Hal Hst]; [done |].
    destruct (op_step_ok s op' IH Hal) as (s1 & r1 & Hst1 & H1). rewrite Hst in Hst1. by simplify_eq. }
  split; [done |]. by apply op_step_ok.
Qed.

Definition demo_fds : fd_sys :=
  mk_fdsys (mk_store {[7 := 1]} []) fdtable_alloc (fun f => eqf (Some 7) f).

Lemma occ_empty f (n : nat) : occ f (replicate n None) = 0.
Proof. induction n; [done |]. simpl. rewrite IHn. done. Qed.

Lemma demo_fds_inv : fd_inv demo_fds.
Proof.
  split; cbn [demo_fds store table held counts files fdtable_alloc].
  - intros f. pose proof (eqf_bound (Some 7) f). lia.
  - done.
  - intros f. rewrite occ_empty. destruct (decide (7 = f)) as [<- | Hne].
    + rewrite lookup_singleton_eq, eqf_eq. lia.
    + rewrite lookup_singleton_ne, eqf_ne by done. lia.
Qed.

Lemma fdtable_refcounts_witness :
  fd_inv demo_fds /\ exists s' r, op_step demo_fds (Install 7) = Ret (s', r) /\ fd_inv s'.
Proof.
  apply (fdtable_refcounts demo_fds demo_fds (Install 7)); [apply demo_fds_inv | apply fdr_refl |].
  split; [| simpl; rewrite eqf_eq; lia]. intros f. simpl. pose proof (eqf_bound (Some 7) f). lia.
Defined.

(** [fdtable_alloc_fd] gives a file the lowest free descriptor and
    changes no other; it fails with EMFILE only when all of them are in use. *)
Theorem fdtable_alloc_fd_lowest t f :
  length (files t) = 64%nat ->
  exists t' fd, fdtable_alloc_fd t f = Ret (t', fd) /\
    ((fd = - EMFILE /\ t' = t /\ forall j, 0 <= j < OPEN_MAX -> exists g, files t !! Z.to_nat j = Some (Some g)) \/
     (0 <= fd < OPEN_MAX /\ files t !! Z.to_nat fd = Some None /\
      (forall j, 0 <= j < fd -> exists g, files t !! Z.to_nat j = Some (Some g)) /\
      files t' = <[Z.to_nat fd := Some f]> (files t))).
Proof.
  intros Hl. unfold fdtable_alloc_fd.
  destruct (free_slot_spec (files t) (Z.to_nat OPEN_MAX) 0 Hl) as ([fd |] & -> & Hr); [lia | done | |].
  - destruct Hr as (Hfd & Hs & Hlow). rewrite wr_slot by (done || lia).
    do 2 eexists. split; [reflexivity |]. right. split_and!; try done; unfold OPEN_MAX; lia.
  - do 2 eexists. split; [reflexivity |]. left. split_and!; done.
Qed.

Lemma fdtable_alloc_fd_lowest_witness :
  exists t' fd, fdtable_alloc_fd fdtable_alloc 5 = Ret (t', fd) /\ fd = 0.
Proof.
  destruct (fdtable_alloc_fd_lowest fdtable_alloc 5 eq_refl) as (t' & fd & H & _).
  exists t', fd. split; [exact H |]. vm_compute in H. congruence.
Defined.

(** [dup2] of an open descriptor makes [newfd] refer to the same file and
    changes no other slot; the file [newfd] had before loses one reference
    unless it is the same file, and is freed when that was the last. *)
Theorem fdtable_dup_fd2_correct h t ext oldfd newfd f cur :
  counted h (files t) ext -> (forall g, ext g < 2 ^ 31 - 1) ->
  0 <= oldfd < OPEN_MAX -> 0 <= newfd < OPEN_MAX ->
  files t !! Z.to_nat oldfd = Some (Some f) -> files t !! Z.to_nat newfd = Some cur ->
  exists h' t', fdtable_dup_fd2 h t oldfd newfd = Ret (h', t', 0) /\
    files t' = <[Z.to_nat newfd := Some f]> (files t) /\ counted h' (files t') ext /\
    released h' = released h ++
      match cur with
      | Some g => if decide (g <> f /\ occ g (files t) + ext g = 1) then [g] else []
      | None => []
      end.
Proof.
  intros Hc Hmax Ho Hn Hf Hcur. unfold OPEN_MAX in *. pose proof (ct_len _ _ _ Hc) as Hl.
  unfold fdtable_dup_fd2. rewrite (proj2 (bad_fd_false oldfd)), (proj2 (bad_fd_false newfd)) by lia.
  cbn [orb]. destruct (rd_slot (files t) oldfd Hl Ho) as (x & -> & Hx). rewrite Hf in Hx. simplify_eq.
  destruct (rd_slot (files t) newfd Hl Hn) as (y & -> & Hy). rewrite Hcur in Hy. simplify_eq.
  pose proof (occ_pos _ _ _ Hf) as Hpos. pose proof (ct_ext _ _ _ Hc f).
  destruct (decide (y = Some f)) as [-> | Hne].
  { rewrite Z.eqb_refl. simpl. do 2 eexists. split; [reflexivity |].
    rewrite list_insert_id by done. split_and!; try done.
    rewrite decide_False by tauto. by rewrite app_nil_r. }
  destruct (file_get h (files t) ext f Hc) as (h1 & Hg & Hc1 & Hr1); [lia | apply Hmax |].
  destruct (slot_swap h1 (files t) _ (Z.to_nat newfd) y (Some f) Hc1 Hcur) as (h2 & Hp & Hc2 & Hr2).
  { intros g [= <-]. rewrite eqf_eq. lia. }
  assert (Hc2' : counted h2 (<[Z.to_nat newfd := Some f]> (files t)) ext).
  { eapply counted_ext; [| exact Hc2]. intros g. simpl. lia. }
  exists h2, (set_files t (<[Z.to_nat newfd := Some f]> (files t))).
  destruct y as [g |]; simpl in Hp; simplify_eq.
  - destruct (Z.eqb_spec g f); [congruence |]. simpl. rewrite Hg, wr_slot by done. rewrite Hp.
    split_and!; try done. rewrite Hr2, Hr1. f_equal. rewrite eqf_ne by congruence.
    rewrite Z.add_0_r. repeat case_decide; try done; tauto.
  - rewrite Hg, wr_slot by done. split_and!; try done. by rewrite Hr1, app_nil_r.
Qed.

Lemma fdtable_dup_fd2_witness :
  let t := mk_fdtable 1 (Some 7 :: Some 8 :: replicate 62 None) in
  exists h' t', fdtable_dup_fd2 (mk_store {[7 := 1; 8 := 1]} []) t 0 1 = Ret (h', t', 0) /\
    files t' = <[1%nat := Some 7]> (files t) /\ counted h' (files t') (fun _ => 0) /\
    released h' = [] ++ if decide (8 <> 7 /\ occ 8 (files t) + 0 = 1) then [8] else [].
Proof.
  apply (fdtable_dup_fd2_correct (mk_store {[7 := 1; 8 := 1]} [])
           (mk_fdtable 1 (Some 7 :: Some 8 :: replicate 62 None)) (fun _ => 0) 0 1 7 (Some 8));
    [| intros; lia | unfold OPEN_MAX; lia | unfold OPEN_MAX; lia | done | done].
  split; [intros; lia | done |]. intros f. cbn [files occ counts]. rewrite (occ_empty f 62).
  destruct (decide (7 = f)) as [<- | H7]; [vm_compute; done |].
  destruct (decide (8 = f)) as [<- | H8]; [vm_compute; done |].
  rewrite lookup_insert_ne, lookup_singleton_ne, !eqf_ne by done. lia.
Defined.

Lemma copy_loop_spec src (n : nat) : forall h dst ext i,
  counted h dst ext -> length src = 64%nat -> (forall f, occ f src <= ext f < 2 ^ 31 - 1) ->
  0 <= i -> i + Z.of_nat n = 64 ->
  exists h' dst', copy_loop h dst src i n = Ret (h', dst') /\ counted h' dst' ext /\
    forall j : nat, dst' !! j = if decide (i <= Z.of_nat j < 64) then src !! j else dst !! j.
Proof.
  induction n as [| n IH]; intros h dst ext i Hc Hs He Hi Hn; cbn [copy_loop].
  { exists h, dst. split_and!; try done. intros j. by rewrite decide_False by lia. }
  pose proof (ct_len _ _ _ Hc) as Hl.
  destruct (rd_slot src i Hs ltac:(lia)) as (x & -> & Hx).
  destruct (rd_slot dst i Hl ltac:(lia)) as (old & Hold & Hlo).
  assert (Hstep : exists h1 h2, get_if h x = Ret h1 /\ put_if h1 old = Ret h2 /\
    counted h2 (<[Z.to_nat i := x]> dst) ext).
  { destruct x as [f |]; simpl.
    - pose proof (occ_pos _ _ _ Hx). pose proof (He f). pose proof (occ_nonneg f dst).
      apply (slot_share h dst ext (Z.to_nat i) old f); try done; lia.
    - destruct (slot_swap h dst ext (Z.to_nat i) old None Hc Hlo) as (h2 & Hp & Hc2 & _); [done |].
      exists h, h2. split_and!; try done. eapply counted_ext; [| exact Hc2]. intros f. cbv beta. rewrite eqf_None. lia. }
  destruct Hstep as (h1 & h2 & -> & Hp & Hc2). rewrite Hold, wr_slot by (done || lia). rewrite Hp.
  destruct (IH h2 (<[Z.to_nat i := x]> dst) ext (i + 1) Hc2 Hs He) as (h' & dst' & -> & Hc' & Hl'); [lia | lia |].
  exists h', dst'. split_and!; try done. intros j. rewrite Hl'.
  destruct (decide (Z.of_nat j = i)) as [E | E].
  - rewrite decide_False, decide_True by lia. replace (Z.to_nat i) with j in * by lia.
    rewrite list_lookup_insert_eq; [done |]. by eapply lookup_lt_Some.
  - rewrite list_lookup_insert_ne by lia. repeat case_decide; try done; lia.
Qed.

(** Copying a table (fork) gives the destination exactly the source's
    descriptors, with one reference of its own per descriptor; the files the
    destination had before are put. *)
Theorem fdtable_copy_correct h dst src ext :
  counted h (files dst) ext -> length (files src) = 64%nat ->
  (forall f, occ f (files src) <= ext f < 2 ^ 31 - 1) ->
  exists h' dst', fdtable_copy h dst src = Ret (h', dst') /\ files dst' = files src /\
    counted h' (files dst') ext.
Proof.
  intros Hc Hs He. unfold fdtable_copy.
  destruct (copy_loop_spec (files src) (Z.to_nat OPEN_MAX) h (files dst) ext 0 Hc Hs He)
    as (h' & l' & -> & Hc' & Hl'); [lia | done |].
  do 2 eexists. split; [reflexivity |]. simpl. split; [| done].
  apply list_ext_lt; [rewrite (ct_len _ _ _ Hc'); lia |]. intros j Hj.
  rewrite (ct_len _ _ _ Hc') in Hj. rewrite Hl', decide_True by lia. done.
Qed.

Lemma fdtable_copy_witness :
  let src := mk_fdtable 1 (Some 7 :: replicate 63 None) in
  exists h' dst', fdtable_copy (mk_store {[7 := 1]} []) fdtable_alloc src = Ret (h', dst') /\
    files dst' = files src /\ counted h' (files dst') (fun f => eqf (Some 7) f).
Proof.
  apply (fdtable_copy_correct (mk_store {[7 := 1]} []) fdtable_alloc
           (mk_fdtable 1 (Some 7 :: replicate 63 None)) (fun f => eqf (Some 7) f)).
  - exact demo_fds_inv.
  - done.
  - intros f. cbn [files occ]. rewrite (occ_empty f 63). pose proof (eqf_bound (Some 7) f). lia.
Defined.
