(* ===== verification/Pipe.v ===== *)
(** * fs/pipe.c: anonymous pipes

    A pipe is a ring of PIPE_RING_CAP bytes shared by readers and writers.
    [read_section] and [write_section] are what one turn of the loops of
    [pipe_read] and [pipe_write] does while it holds the pipe's lock: it either
    returns from the call ([Done]), goes to sleep ([Sleep]; the thread that
    wakes starts the section again, which is what the C loop does), or moves a
    chunk of bytes ([Chunk]) and releases the lock.  [read_loop] and
    [write_loop] are the calls run without interference; the step relation at
    the end interleaves the sections of any number of calls. *)

From S2P Require Import Prelude.

Definition PIPE_RING_CAP : Z := 4096.
Definition EINTR : Z := 4.
Definition EAGAIN : Z := 11.
Definition EINVAL : Z := 22.
Definition ESPIPE : Z := 29.
Definition EPIPE : Z := 32.
Definition FMODE_READ : Z := 1.
Definition FMODE_WRITE : Z := 2.
Definition POLLIN : Z := 0x1.
Definition POLLOUT : Z := 0x4.
Definition POLLERR : Z := 0x8.
Definition POLLHUP : Z := 0x10.
Definition POLLRDNORM : Z := 0x40.
Definition POLLWRNORM : Z := 0x100.
Definition O_NONBLOCK : Z := 2048.

Record anon_pipe : Set := mk_pipe {
  head : Z; count : Z; readers : Z; writers : Z; nonblock : bool; buf : list Z
}.

Inductive progress : Set :=
| Done (ret : Z)
| Sleep
| Chunk (bytes : list Z).

(** The part of [anon_pipe_create] that sets the pipe up. *)
Definition pipe_new (flags : Z) : anon_pipe :=
  mk_pipe 0 0 1 1 (negb (Z.land flags O_NONBLOCK =? 0)) (replicate 4096 0).

Definition pipe_release (p : anon_pipe) (mode : Z) : anon_pipe :=
  let r := if negb (Z.land mode FMODE_READ =? 0) then
             (if negb (readers p =? 0) then readers p - 1 else readers p) else readers p in
  let w := if negb (Z.land mode FMODE_WRITE =? 0) then
             (if negb (writers p =? 0) then writers p - 1 else writers p) else writers p in
  mk_pipe (head p) (count p) r w (nonblock p) (buf p).

(** [killed] is [task_is_killed(current_task())]. *)
Definition read_section (p : anon_pipe) (size total : Z) (killed : bool)
    : res (anon_pipe * progress) :=
  if count p =? 0 then
    if negb (total =? 0) then Ret (p, Done total)
    else if writers p =? 0 then Ret (p, Done total)
    else if nonblock p then Ret (p, Done (if negb (total =? 0) then total else - EAGAIN))
    else if killed then Ret (p, Done (if negb (total =? 0) then total else - EINTR))
    else Ret (p, Sleep)
  else
    let n := if size <? count p then size else count p in
    let first := u64 (PIPE_RING_CAP - head p) in
    let! bytes :=
      (if first <? n then
         let! a := rd_slice (buf p) (head p) first in
         let! b := rd_slice (buf p) 0 (n - first) in
         Ret (a ++ b)
       else rd_slice (buf p) (head p) n) in
    Ret (mk_pipe (u64 (head p + n) mod PIPE_RING_CAP) (count p - n) (readers p) (writers p)
           (nonblock p) (buf p), Chunk bytes).

(** [total += n] is on a [ssize_t]. *)
Fixpoint read_loop (p : anon_pipe) (size total : Z) (out : list Z) (killed : bool) (fuel : nat)
    : res (anon_pipe * list Z * option Z) :=
  match fuel with
  | O => Halt Fuel
  | S f =>
      if 0 <? size then
        let! (p, pr) := read_section p size total killed in
        match pr with
        | Done ret => Ret (p, out, Some ret)
        | Sleep => Ret (p, out, None)
        | Chunk bytes =>
            let n := Z.of_nat (length bytes) in
            read_loop p (size - n) (s64 (total + n)) (out ++ bytes) killed f
        end
      else Ret (p, out, Some total)
  end.

(** The call on its own: [None] when it ends up asleep. *)
Definition pipe_read (p : anon_pipe) (size : Z) (killed : bool) : res (anon_pipe * list Z * option Z) :=
  read_loop p size 0 [] killed 3.

Definition write_section (p : anon_pipe) (data : list Z) (total : Z) (killed : bool)
    : res (anon_pipe * progress) :=
  if readers p =? 0 then Ret (p, Done (if negb (total =? 0) then total else - EPIPE))
  else if count p =? PIPE_RING_CAP then
    if nonblock p then Ret (p, Done (if negb (total =? 0) then total else - EAGAIN))
    else if killed then Ret (p, Done (if negb (total =? 0) then total else - EINTR))
    else Ret (p, Sleep)
  else
    let size := Z.of_nat (length data) in
    let space := u64 (PIPE_RING_CAP - count p) in
    let n := if size <? space then size else space in
    let at_ := u64 (head p + count p) mod PIPE_RING_CAP in
    let first := u64 (PIPE_RING_CAP - at_) in
    let! buf :=
      (if first <? n then
         let! a := rd_slice data 0 first in
         let! buf := wr_slice (buf p) at_ a in
         let! b := rd_slice data first (n - first) in
         wr_slice buf 0 b
       else
         let! a := rd_slice data 0 n in
         wr_slice (buf p) at_ a) in
    Ret (mk_pipe (head p) (u64 (count p + n)) (readers p) (writers p) (nonblock p) buf,
         Chunk (take (Z.to_nat n) data)).

Fixpoint write_loop (p : anon_pipe) (data : list Z) (total : Z) (killed : bool) (fuel : nat)
    : res (anon_pipe * list Z * option Z) :=
  match fuel with
  | O => Halt Fuel
  | S f =>
      match data with
      | [] => Ret (p, [], Some total)
      | _ =>
          let! (p, pr) := write_section p data total killed in
          match pr with
          | Done ret => Ret (p, data, Some ret)
          | Sleep => Ret (p, data, None)
          | Chunk bytes =>
              write_loop p (drop (length bytes) data) (s64 (total + Z.of_nat (length bytes))) killed f
          end
      end
  end.

Definition pipe_write (p : anon_pipe) (data : list Z) (killed : bool)
    : res (anon_pipe * list Z * option Z) :=
  write_loop p data 0 killed 3.

Definition pipe_llseek : Z := - ESPIPE.

Definition pipe_poll (p : option anon_pipe) (events : Z) : Z :=
  match p with
  | None => POLLERR
  | Some p =>
      let rev := 0 in
      let rev := if 0 <? count p then Z.lor rev (Z.lor POLLIN POLLRDNORM) else rev in
      let rev := if writers p =? 0 then Z.lor rev POLLHUP else rev in
      let rev := if (count p <? PIPE_RING_CAP) && (0 <? readers p)
                 then Z.lor rev (Z.lor POLLOUT POLLWRNORM) else rev in
      let rev := if readers p =? 0 then Z.lor rev POLLERR else rev in
      Z.land rev (Z.lor (Z.lor events POLLERR) POLLHUP)
  end.

(** ** Abstraction: the bytes in flight *)

Record pipe_ok (p : anon_pipe) : Prop := {
  po_head : 0 <= head p < PIPE_RING_CAP;
  po_count : 0 <= count p <= PIPE_RING_CAP;
  po_readers : 0 <= readers p;
  po_writers : 0 <= writers p;
  po_buf : length (buf p) = 4096%nat
}.

Definition contents (p : anon_pipe) : list Z :=
  (fun i => default 0 (buf p !! Z.to_nat ((head p + i) mod PIPE_RING_CAP))) <$> seqZ 0 (count p).

Lemma contents_length p : 0 <= count p -> Z.of_nat (length (contents p)) = count p.
Proof. intros. unfold contents. rewrite length_fmap, length_seqZ. lia. Qed.

Lemma contents_lookup p (i : nat) : pipe_ok p -> Z.of_nat i < count p ->
  contents p !! i = buf p !! Z.to_nat ((head p + Z.of_nat i) mod PIPE_RING_CAP).
Proof.
  intros Hp Hi. unfold contents. rewrite list_lookup_fmap, lookup_seqZ_lt by lia. cbn [fmap option_fmap option_map]. rewrite Z.add_0_l.
  pose proof (po_buf _ Hp) as Hb.
  destruct (lookup_lt_is_Some_2 (buf p) (Z.to_nat ((head p + Z.of_nat i) mod PIPE_RING_CAP))) as [x Hx].
  { rewrite Hb. unfold PIPE_RING_CAP. zdm. }
  by rewrite Hx.
Qed.

(** [n] bytes of the ring from [at_], as one or two copies. *)
Lemma ring_read (l : list Z) (at_ n : Z) :
  length l = 4096%nat -> 0 <= at_ < 4096 -> 0 <= n <= 4096 ->
  exists bytes,
    (if 4096 - at_ <? n then
       let! a := rd_slice l at_ (4096 - at_) in
       let! b := rd_slice l 0 (n - (4096 - at_)) in Ret (a ++ b)
     else rd_slice l at_ n) = Ret bytes /\
    Z.of_nat (length bytes) = n /\
    forall i, Z.of_nat i < n -> bytes !! i = l !! Z.to_nat ((at_ + Z.of_nat i) mod 4096).
Proof.
  intros Hl Ha Hn. destruct (Z.ltb_spec (4096 - at_) n).
  - rewrite !rd_slice_ret by lia. eexists. split; [reflexivity |].
    rewrite length_app, !length_take, !length_drop, Hl. split; [lia |]. intros i Hi.
    destruct (decide (Z.of_nat i < 4096 - at_)).
    + rewrite lookup_app_l by (rewrite length_take, length_drop; lia).
      rewrite lookup_take_lt, lookup_drop by lia. f_equal. rewrite Z.mod_small by lia. lia.
    + rewrite lookup_app_r by (rewrite length_take, length_drop; lia).
      rewrite length_take, length_drop, Hl, lookup_take_lt, lookup_drop by lia. f_equal.
      replace ((at_ + Z.of_nat i) mod 4096) with (at_ + Z.of_nat i - 4096) by zdm. lia.
  - rewrite rd_slice_ret by lia. eexists. split; [reflexivity |].
    rewrite length_take, length_drop, Hl. split; [lia |]. intros i Hi.
    rewrite lookup_take_lt, lookup_drop by lia. f_equal. rewrite Z.mod_small by lia. lia.
Qed.

Lemma ring_write (l data : list Z) (at_ n : Z) :
  length l = 4096%nat -> 0 <= at_ < 4096 -> 0 <= n <= 4096 -> n <= Z.of_nat (length data) ->
  exists l',
    (if 4096 - at_ <? n then
       let! a := rd_slice data 0 (4096 - at_) in
       let! l := wr_slice l at_ a in
       let! b := rd_slice data (4096 - at_) (n - (4096 - at_)) in
       wr_slice l 0 b
     else
       let! a := rd_slice data 0 n in
       wr_slice l at_ a) = Ret l' /\
    length l' = 4096%nat /\
    (forall i, Z.of_nat i < n -> l' !! Z.to_nat ((at_ + Z.of_nat i) mod 4096) = data !! i) /\
    (forall j, 0 <= j < 4096 -> n <= (j - at_) mod 4096 -> l' !! Z.to_nat j = l !! Z.to_nat j).
Proof.
  intros Hl Ha Hn Hd. destruct (Z.ltb_spec (4096 - at_) n).
  - rewrite !rd_slice_ret by lia. rewrite drop_0.
    destruct (wr_slice_ret l (take (Z.to_nat (4096 - at_)) data) at_) as (l1 & -> & Hl1 & Hg1);
      [lia | rewrite length_take; lia |].
    destruct (wr_slice_ret l1 (take (Z.to_nat (n - (4096 - at_))) (drop (Z.to_nat (4096 - at_)) data)) 0)
      as (l2 & -> & Hl2 & Hg2); [lia | rewrite length_take, length_drop; lia |].
    exists l2. split; [done |]. split; [lia |]. rewrite !length_take, length_drop in *. split.
    + intros i Hi. rewrite Hg2, Hg1. destruct (decide (Z.of_nat i < 4096 - at_)).
      * rewrite Z.mod_small by lia. rewrite decide_False, decide_True by lia.
        rewrite lookup_take_lt by lia. f_equal. lia.
      * replace ((at_ + Z.of_nat i) mod 4096) with (at_ + Z.of_nat i - 4096) by zdm.
        rewrite decide_True by lia. rewrite lookup_take_lt, lookup_drop by lia. f_equal. lia.
    + intros j Hj Hout. rewrite Hg2, Hg1.
      assert (n - (4096 - at_) <= j < at_) by zdm. rewrite !decide_False by lia. done.
  - rewrite rd_slice_ret by lia. rewrite drop_0.
    destruct (wr_slice_ret l (take (Z.to_nat n) data) at_) as (l1 & -> & Hl1 & Hg1);
      [lia | rewrite length_take; lia |].
    exists l1. split; [done |]. split; [lia |]. rewrite length_take in *. split.
    + intros i Hi. rewrite Hg1. rewrite Z.mod_small by lia. rewrite decide_True by lia.
      rewrite lookup_take_lt by lia. f_equal. lia.
    + intros j Hj Hout. rewrite Hg1. rewrite decide_False; [done |]. zdm.
Qed.

(** ** One section *)

(** The two ends and the mode are not touched by the transfer of bytes. *)
Definition same_ends (p p' : anon_pipe) : Prop :=
  readers p' = readers p /\ writers p' = writers p /\ nonblock p' = nonblock p.

Lemma read_chunk p size total killed :
  pipe_ok p -> 0 < size -> 0 < count p ->
  exists p' bytes, read_section p size total killed = Ret (p', Chunk bytes) /\
    bytes = take (Z.to_nat size) (contents p) /\ bytes <> [] /\
    contents p' = drop (Z.to_nat size) (contents p) /\ pipe_ok p' /\ same_ends p p'.
Proof.
  intros Hp Hs Hc. pose proof Hp as [Hh Hcnt Hr Hw Hb]. unfold PIPE_RING_CAP in Hh, Hcnt.
  unfold read_section. destruct (Z.eqb_spec (count p) 0) as [| _]; [lia |].
  set (n := if size <? count p then size else count p).
  assert (Hn : n = Z.min size (count p)) by (unfold n; bool_prop; lia). clearbody n.
  unfold PIPE_RING_CAP. rewrite !u64_small by (pow2; lia).
  destruct (ring_read (buf p) (head p) n) as (bytes & Hbytes & Hlen & Hget); try lia.
  cbv zeta. rewrite Hbytes. do 2 eexists. split; [reflexivity |].
  pose proof (contents_length p ltac:(lia)) as Hcl.
  assert (Htake : bytes = take (Z.to_nat size) (contents p)).
  { apply list_ext_lt; [rewrite length_take; lia |]. intros i Hi.
    rewrite Hget by lia. rewrite lookup_take_lt by lia. rewrite contents_lookup by (done || lia). done. }
  set (p' := mk_pipe _ _ _ _ _ _).
  assert (Hp' : pipe_ok p').
  { split; simpl; try done; unfold PIPE_RING_CAP; [zdm | lia]. }
  split_and!; try done.
  - intros ->. simpl in Hlen. lia.
  - pose proof (contents_length p' ltac:(simpl; lia)) as Hcl'. simpl in Hcl'.
    apply list_ext_lt; [rewrite length_drop; lia |]. intros i Hi.
    rewrite lookup_drop. rewrite !contents_lookup by (done || (simpl; lia)). simpl. f_equal.
    unfold PIPE_RING_CAP. zdm.
Qed.

Lemma write_chunk p data total killed :
  pipe_ok p -> data <> [] -> 0 < readers p -> count p < PIPE_RING_CAP ->
  Z.of_nat (length data) < 2 ^ 63 ->
  let k := Z.to_nat (PIPE_RING_CAP - count p) in
  exists p', write_section p data total killed = Ret (p', Chunk (take k data)) /\
    contents p' = contents p ++ take k data /\ take k data <> [] /\ pipe_ok p' /\ same_ends p p'.
Proof.
  intros Hp Hd Hrd Hc Hlen k. pose proof Hp as [Hh Hcnt Hr Hw Hb].
  unfold write_section. unfold PIPE_RING_CAP in *.
  destruct (Z.eqb_spec (readers p) 0) as [| _]; [lia |].
  destruct (Z.eqb_spec (count p) 4096) as [| _]; [lia |].
  cbv zeta. rewrite (u64_small (4096 - count p)), (u64_small (head p + count p)) by (pow2; lia).
  set (n := if Z.of_nat (length data) <? 4096 - count p then Z.of_nat (length data) else 4096 - count p).
  assert (Hn : n = Z.min (Z.of_nat (length data)) (4096 - count p)) by (unfold n; bool_prop; lia). clearbody n.
  set (at_ := (head p + count p) mod 4096). assert (Hat : 0 <= at_ < 4096) by (unfold at_; zdm).
  rewrite (u64_small (4096 - at_)) by (pow2; lia).
  destruct (ring_write (buf p) data at_ n) as (buf' & Hw' & Hl' & Hin & Hout); try lia.
  rewrite Hw'. rewrite u64_small by (pow2; lia).
  assert (Hk : take (Z.to_nat n) data = take k data).
  { apply list_ext_lt; [rewrite !length_take; lia |]. intros i Hi. rewrite length_take in Hi.
    by rewrite !lookup_take_lt by lia. }
  rewrite Hk. eexists. split; [reflexivity |]. set (p' := mk_pipe _ _ _ _ _ _).
  assert (Hp' : pipe_ok p') by (split; simpl; unfold PIPE_RING_CAP; lia || done).
  pose proof (contents_length p ltac:(lia)) as Hcl.
  pose proof (contents_length p' ltac:(simpl; lia)) as Hcl'. simpl in Hcl'.
  assert (Hne : (0 < length data)%nat) by (destruct data; [done | simpl; lia]).
  split_and!; try done.
  - apply list_ext_lt; [rewrite length_app, length_take; lia |]. intros i Hi.
    rewrite contents_lookup by (done || (simpl; lia)). simpl. unfold PIPE_RING_CAP.
    destruct (decide (Z.of_nat i < count p)) as [Hlt | Hge].
    + rewrite lookup_app_l by lia. rewrite contents_lookup by (done || lia). unfold PIPE_RING_CAP.
      apply Hout; [zdm |]. unfold at_. zdm.
    + rewrite lookup_app_r by lia. rewrite lookup_take_lt by lia.
      rewrite <- Hin by lia. f_equal. unfold at_. f_equal. zdm.
  - intros E. apply (f_equal length) in E. rewrite length_take in E. simpl in E. lia.
Qed.

(** ** Properties of the calls *)

(** A read on a pipe that holds data returns at once with the oldest
    [min(size, count)] bytes and leaves the others in order. *)
Theorem pipe_read_data p size killed :
  pipe_ok p -> 0 < size < 2 ^ 63 -> 0 < count p ->
  exists p', pipe_read p size killed =
      Ret (p', take (Z.to_nat size) (contents p), Some (Z.min size (count p))) /\
    contents p' = drop (Z.to_nat size) (contents p) /\ pipe_ok p' /\ same_ends p p'.
Proof.
  intros Hp Hs Hc. unfold pipe_read. pose proof (po_count _ Hp) as Hcnt. unfold PIPE_RING_CAP in Hcnt.
  destruct (read_chunk p size 0 killed) as (p' & bytes & Hsec & Hbytes & Hne & Hrest & Hp' & Hends);
    try done; [lia |].
  assert (Hlen : Z.of_nat (length bytes) = Z.min size (count p)).
  { rewrite Hbytes, length_take. pose proof (contents_length p ltac:(lia)). lia. }
  assert (Hcnt' : count p' = count p - Z.min size (count p)).
  { pose proof (contents_length p' (proj1 (po_count _ Hp'))) as E. rewrite Hrest, length_drop in E.
    pose proof (contents_length p ltac:(lia)). lia. }
  exists p'. split; [| done].
  cbn [read_loop]. destruct (Z.ltb_spec 0 size); [| lia]. rewrite Hsec, Hlen.
  rewrite swrap_small by (simpl; lia). rewrite Z.add_0_l, app_nil_l, <- Hbytes.
  destruct (Z.ltb_spec 0 (size - Z.min size (count p))); [| done].
  unfold read_section. rewrite Hcnt'. destruct (Z.eqb_spec (count p - Z.min size (count p)) 0); [| lia].
  destruct (Z.eqb_spec (Z.min size (count p)) 0); [lia |]. done.
Qed.

(** A pipe holding the four bytes 1 2 3 4, wrapped around the end. *)
Definition demo_pipe : anon_pipe :=
  mk_pipe 4094 4 1 1 true ([3; 4] ++ replicate 4092 0 ++ [1; 2]).

Lemma demo_pipe_ok : pipe_ok demo_pipe.
Proof. split; unfold PIPE_RING_CAP; simpl head; simpl count; simpl readers; simpl writers; (lia || vm_compute; done). Qed.

Lemma pipe_read_data_witness :
  exists p', pipe_read demo_pipe 3 false = Ret (p', [1; 2; 3], Some 3) /\
    contents p' = [4] /\ pipe_ok p' /\ same_ends demo_pipe p'.
Proof.
  exact (pipe_read_data demo_pipe 3 false demo_pipe_ok ltac:(lia) ltac:(simpl; lia)).
Defined.

(** A read on an empty pipe returns 0 (end of file) when no writer is
    left, -EAGAIN on a non-blocking pipe, -EINTR for a killed task, and
    otherwise sleeps; the pipe is not changed. *)
Theorem pipe_read_empty p size killed :
  0 < size -> count p = 0 ->
  pipe_read p size killed = Ret (p, [],
    if writers p =? 0 then Some 0 else if nonblock p then Some (- EAGAIN)
    else if killed then Some (- EINTR) else None).
Proof.
  intros Hs Hc. unfold pipe_read. cbn [read_loop]. destruct (Z.ltb_spec 0 size); [| lia].
  unfold read_section. rewrite Hc. simpl.
  destruct (writers p =? 0), (nonblock p), killed; done.
Qed.

Lemma pipe_read_empty_witness :
  pipe_read (pipe_new 0) 10 true = Ret (pipe_new 0, [], Some (- EINTR)).
Proof. exact (pipe_read_empty (pipe_new 0) 10 true ltac:(lia) eq_refl). Defined.

(** C39: a write on a pipe with readers appends what fits behind the bytes in
    flight; it returns the full count when everything fits, and otherwise the
    part written (or, when the pipe was full, -EAGAIN or -EINTR) if it may not
    sleep; without readers it is -EPIPE. *)
Theorem pipe_write_result p data killed :
  pipe_ok p -> data <> [] -> Z.of_nat (length data) < 2 ^ 63 ->
  let k := Z.to_nat (PIPE_RING_CAP - count p) in
  let n := Z.of_nat (length (take k data)) in
  exists p', pipe_ok p' /\ same_ends p p' /\
    if readers p =? 0 then pipe_write p data killed = Ret (p, data, Some (- EPIPE))
    else contents p' = contents p ++ take k data /\
      pipe_write p data killed = Ret (p', drop k data,
        if n =? Z.of_nat (length data) then Some n
        else if nonblock p then Some (if n =? 0 then - EAGAIN else n)
        else if killed then Some (if n =? 0 then - EINTR else n) else None).
Proof.
  intros Hp Hd Hlen k n. unfold pipe_write. destruct data as [| x data]; [done |].
  pose proof (po_count _ Hp) as Hcnt. pose proof (po_readers _ Hp) as Hr.
  destruct (Z.eqb_spec (readers p) 0) as [Hr0 | Hr0].
  { exists p. split_and!; try done. cbn [write_loop]. unfold write_section. by rewrite Hr0. }
  unfold PIPE_RING_CAP in *.
  destruct (Z.eq_dec (count p) 4096) as [Hfull | Hroom].
  { exists p. split_and!; try done; [by unfold k; rewrite Hfull, take_0, app_nil_r |].
    unfold n, k. rewrite Hfull. cbn [write_loop]. unfold write_section, PIPE_RING_CAP. rewrite Hfull.
    destruct (Z.eqb_spec (readers p) 0); [done |]. simpl.
    destruct (nonblock p), killed; done. }
  destruct (write_chunk p (x :: data) 0 killed) as (p' & Hsec & Hcont & Hne & Hp' & Hends); try done;
    unfold PIPE_RING_CAP in *; [lia | lia |]. fold k in Hsec, Hcont, Hne.
  exists p'. split_and!; try done. cbn [write_loop]. rewrite Hsec. fold n.
  assert (Hdrop : drop (length (take k (x :: data))) (x :: data) = drop k (x :: data)).
  { rewrite length_take. destruct (decide (k <= length (x :: data))%nat); [by rewrite Nat.min_l by lia |].
    rewrite Nat.min_r, !drop_ge by lia. done. }
  rewrite Hdrop, swrap_small, Z.add_0_l by (unfold n; rewrite ?length_take; change (64 - 1) with 63; lia).
  assert (Hn0 : n <> 0) by (unfold n; destruct (take k (x :: data)); [done | simpl; lia]).
  assert (Hnlen : n = Z.min (4096 - count p) (Z.of_nat (length (x :: data))))
    by (unfold n, k; rewrite length_take; lia).
  pose proof (length_drop (x :: data) k) as Hld.
  destruct (Z.eqb_spec n (Z.of_nat (length (x :: data)))) as [Hall | Hpart].
  { destruct (drop k (x :: data)); [done | simpl length at 1 in Hld; lia]. }
  destruct (drop k (x :: data)) as [| y rest]; [simpl length at 1 in Hld; lia |].
  assert (Hcnt' : count p' = 4096).
  { pose proof (contents_length p' (proj1 (po_count _ Hp'))) as E. rewrite Hcont, length_app in E.
    pose proof (contents_length p ltac:(lia)). lia. }
  unfold write_section, PIPE_RING_CAP. destruct Hends as (E1 & E2 & E3). rewrite E1, E3, Hcnt'.
  destruct (Z.eqb_spec (readers p) 0); [done |]. simpl. destruct (Z.eqb_spec n 0); [done |].
  destruct (nonblock p), killed; done.
Qed.

Lemma pipe_write_result_witness :
  exists p', pipe_ok p' /\ same_ends demo_pipe p' /\
    (contents p' = [1; 2; 3; 4; 5; 6] /\ pipe_write demo_pipe [5; 6] false = Ret (p', [], Some 2)).
Proof.
  exact (pipe_write_result demo_pipe [5; 6] false demo_pipe_ok ltac:(done) ltac:(simpl; lia)).
Defined.

Lemma testbit_if_lor (c : bool) r k b :
  Z.testbit (if c then Z.lor r k else r) b = Z.testbit r b || (c && Z.testbit k b).
Proof. destruct c; [apply Z.lor_spec | by rewrite orb_false_r]. Qed.

(** [pipe_poll] reports the pipe readable exactly when a read would not
    wait for data and writable exactly when a write would find room and a
    reader; a missing writer or reader shows as POLLHUP or POLLERR whatever was
    asked for. *)
Theorem pipe_poll_correct p events :
  pipe_ok p ->
  let rev := pipe_poll (Some p) events in
  (Z.testbit rev 0 = true <-> Z.testbit events 0 = true /\ 0 < count p) /\
  (Z.testbit rev 2 = true <-> Z.testbit events 2 = true /\ count p < PIPE_RING_CAP /\ 0 < readers p) /\
  (Z.testbit rev 3 = true <-> readers p = 0) /\ (Z.testbit rev 4 = true <-> writers p = 0).
Proof.
  intros [Hh Hc Hr Hw Hb]. cbv zeta. unfold pipe_poll.
  split_and!; rewrite Z.land_spec, !Z.lor_spec, !testbit_if_lor; simpl;
    rewrite ?andb_false_r, ?orb_false_l, ?orb_false_r, ?orb_true_r, ?orb_false_l, ?andb_true_r, ?andb_true_iff, ?Z.ltb_lt, ?Z.eqb_eq;
    tauto.
Qed.

Lemma pipe_poll_witness :
  let rev := pipe_poll (Some demo_pipe) 5 in
  (Z.testbit rev 0 = true <-> Z.testbit 5 0 = true /\ 0 < count demo_pipe) /\
  (Z.testbit rev 2 = true <->
     Z.testbit 5 2 = true /\ count demo_pipe < PIPE_RING_CAP /\ 0 < readers demo_pipe) /\
  (Z.testbit rev 3 = true <-> readers demo_pipe = 0) /\ (Z.testbit rev 4 = true <-> writers demo_pipe = 0).
Proof. exact (pipe_poll_correct demo_pipe 5 demo_pipe_ok). Defined.

(** ** Any number of calls, interleaved *)

Inductive call : Set :=
| Reading (size total : Z) (out : list Z)
| Writing (data : list Z) (total : Z)
| Returned (ret : Z).

(** The pipe, the calls under way, and the bytes that went in and came out. *)
Record sys : Set := mk_sys { pipe : anon_pipe; calls : list call; wlog : list Z; rlog : list Z }.

Inductive pipe_step : sys -> sys -> Prop :=
| step_call p cs w r c :
    (forall size total out, c = Reading size total out -> total = 0 /\ out = []) ->
    (forall data total, c = Writing data total -> total = 0 /\ Z.of_nat (length data) < 2 ^ 63) ->
    pipe_step (mk_sys p cs w r) (mk_sys p (c :: cs) w r)
| step_read p cs w r i size total out killed p' pr :
    cs !! i = Some (Reading size total out) -> 0 < size ->
    read_section p size total killed = Ret (p', pr) ->
    pipe_step (mk_sys p cs w r)
      (match pr with
       | Done ret => mk_sys p' (<[i := Returned ret]> cs) w r
       | Sleep => mk_sys p' cs w r
       | Chunk b => mk_sys p' (<[i := Reading (size - Z.of_nat (length b))
                                   (s64 (total + Z.of_nat (length b))) (out ++ b)]> cs) w (r ++ b)
       end)
| step_write p cs w r i data total killed p' pr :
    cs !! i = Some (Writing data total) -> data <> [] ->
    write_section p data total killed = Ret (p', pr) ->
    pipe_step (mk_sys p cs w r)
      (match pr with
       | Done ret => mk_sys p' (<[i := Returned ret]> cs) w r
       | Sleep => mk_sys p' cs w r
       | Chunk b => mk_sys p' (<[i := Writing (drop (length b) data)
                                   (s64 (total + Z.of_nat (length b)))]> cs) (w ++ b) r
       end)
| step_read_end p cs w r i total out :
    cs !! i = Some (Reading 0 total out) ->
    pipe_step (mk_sys p cs w r) (mk_sys p (<[i := Returned total]> cs) w r)
| step_write_end p cs w r i total :
    cs !! i = Some (Writing [] total) ->
    pipe_step (mk_sys p cs w r) (mk_sys p (<[i := Returned total]> cs) w r)
| step_release p cs w r mode :
    pipe_step (mk_sys p cs w r) (mk_sys (pipe_release p mode) cs w r).

Inductive reachable (s0 : sys) : sys -> Prop :=
| reach_refl : reachable s0 s0
| reach_step s s' : reachable s0 s -> pipe_step s s' -> reachable s0 s'.

Record sys_ok (s : sys) : Prop := {
  so_pipe : pipe_ok (pipe s);
  so_data : forall i data total, calls s !! i = Some (Writing data total) ->
    Z.of_nat (length data) < 2 ^ 63;
  so_fifo : wlog s = rlog s ++ contents (pipe s)
}.

Lemma pipe_release_ok p mode : pipe_ok p ->
  pipe_ok (pipe_release p mode) /\ contents (pipe_release p mode) = contents p.
Proof.
  intros [Hh Hc Hr Hw Hb]. split; [| done]. split; simpl; try done; bool_prop; lia.
Qed.

(** A section that moves no bytes leaves the pipe alone. *)
Lemma read_section_cases p size total killed p' pr :
  pipe_ok p -> 0 < size -> read_section p size total killed = Ret (p', pr) ->
  match pr with
  | Chunk b => pipe_ok p' /\ contents p = b ++ contents p'
  | _ => p' = p
  end.
Proof.
  intros Hp Hs Hr. destruct (Z.eq_dec (count p) 0) as [E | E].
  - unfold read_section in Hr. rewrite E in Hr. simpl in Hr.
    destruct (total =? 0), (writers p =? 0), (nonblock p), killed; simpl in Hr; by simplify_eq.
  - pose proof (po_count _ Hp).
    destruct (read_chunk p size total killed) as (p1 & b & Hr1 & Hb & _ & Hrest & Hp1 & _); try done; [lia |].
    rewrite Hr in Hr1. simplify_eq. split; [done |]. rewrite Hrest. by rewrite take_drop.
Qed.

Lemma write_section_cases p data total killed p' pr :
  pipe_ok p -> data <> [] -> Z.of_nat (length data) < 2 ^ 63 ->
  write_section p data total killed = Ret (p', pr) ->
  match pr with
  | Chunk b => pipe_ok p' /\ contents p' = contents p ++ b /\ (length b <= length data)%nat
  | _ => p' = p
  end.
Proof.
  intros Hp Hd Hl Hw. destruct (Z.eq_dec (readers p) 0) as [E | E].
  { unfold write_section in Hw. rewrite E in Hw. simpl in Hw. by simplify_eq. }
  pose proof (po_readers _ Hp). pose proof (po_count _ Hp).
  destruct (Z.eq_dec (count p) PIPE_RING_CAP) as [F | F].
  { unfold write_section in Hw. rewrite F, Z.eqb_refl in Hw.
    destruct (Z.eqb_spec (readers p) 0); [done |].
    destruct (nonblock p), killed; by simplify_eq. }
  destruct (write_chunk p data total killed) as (p1 & Hw1 & Hc & _ & Hp1 & _); try done; [lia | lia |].
  rewrite Hw in Hw1. simplify_eq. split_and!; [done | done |]. rewrite length_take. lia.
Qed.

Lemma step_ok s s' : sys_ok s -> pipe_step s s' -> sys_ok s'.
Proof.
  intros Hs Hstep. destruct Hs as [Hp Hd Hf]. destruct Hstep; simpl in *.
  - split; simpl; [done | | done]. intros [| i] data total Hi; [| by eapply Hd].
    simpl in Hi. simplify_eq. by eapply H0.
  - apply read_section_cases in H1; [| done | done]. destruct pr as [ret | | b].
    + subst p'. split; simpl; [done | | done]. intros j data t Hj.
      apply list_lookup_insert_Some in Hj as [(_ & ? & _) | [_ Hj]]; [done | by eapply Hd].
    + by subst p'.
    + destruct H1 as [Hp' Hc]. split; simpl; [done | |].
      * intros j data t Hj.
        apply list_lookup_insert_Some in Hj as [(_ & ? & _) | [_ Hj]]; [done | by eapply Hd].
      * by rewrite Hf, Hc, app_assoc.
  - pose proof (Hd _ _ _ H) as Hlen. apply write_section_cases in H1; [| done | done | done].
    destruct pr as [ret | | b].
    + subst p'. split; simpl; [done | | done]. intros j data' t Hj.
      apply list_lookup_insert_Some in Hj as [(_ & ? & _) | [_ Hj]]; [done | by eapply Hd].
    + by subst p'.
    + destruct H1 as (Hp' & Hc & Hb). split; simpl; [done | |].
      * intros j data' t Hj. apply list_lookup_insert_Some in Hj as [(_ & ? & _) | [_ Hj]]; [| by eapply Hd].
        simplify_eq. rewrite length_drop. lia.
      * by rewrite Hf, Hc, app_assoc.
  - split; simpl; [done | | done]. intros j data t Hj.
    apply list_lookup_insert_Some in Hj as [(_ & ? & _) | [_ Hj]]; [done | by eapply Hd].
  - split; simpl; [done | | done]. intros j data t Hj.
    apply list_lookup_insert_Some in Hj as [(_ & ? & _) | [_ Hj]]; [done | by eapply Hd].
  - destruct (pipe_release_ok p mode Hp) as [H1 H2]. split; simpl; [done | done |]. by rewrite H2.
Qed.

(** C14: whatever the interleaving of reads, writes and closes, the bytes that
    came out followed by the bytes in the ring are exactly the bytes that went
    in, in order; no byte is lost, repeated or overtaken, and the ring never
    holds more than PIPE_RING_CAP. *)
Theorem pipe_fifo flags s :
  reachable (mk_sys (pipe_new flags) [] [] []) s ->
  wlog s = rlog s ++ contents (pipe s) /\ pipe_ok (pipe s).
Proof.
  intros Hr. assert (sys_ok s) as [? ? ?]; [| done].
  induction Hr as [| s s' _ IH Hstep].
  - split; simpl; [| done | done]. split; unfold PIPE_RING_CAP, pipe_new; cbn [head count readers writers]; try lia.
    apply length_replicate.
  - by eapply step_ok.
Qed.

Lemma pipe_fifo_witness :
  exists s, reachable (mk_sys (pipe_new 0) [] [] []) s /\ wlog s = [7; 8] /\ rlog s = [7] /\
    wlog s = rlog s ++ contents (pipe s).
Proof.
  assert (Hw : exists p', write_section (pipe_new 0) [7; 8] 0 false = Ret (p', Chunk [7; 8]) /\
    exists p'', read_section p' 1 0 false = Ret (p'', Chunk [7])).
  { eexists. split; [vm_compute; reflexivity |]. eexists. vm_compute. reflexivity. }
  destruct Hw as (p' & Hw & p'' & Hr).
  pose (cw := [Writing [7; 8] 0]). pose (cr := [Reading 1 0 []; Writing [] 2]).
  assert (H1 : pipe_step (mk_sys (pipe_new 0) [] [] []) (mk_sys (pipe_new 0) cw [] []))
    by (apply step_call; [done | intros ? ? [= <- <-]; simpl; lia]).
  pose proof (step_write (pipe_new 0) cw [] [] 0 [7; 8] 0 false p' (Chunk [7; 8])
    eq_refl ltac:(done) Hw) as H2.
  assert (H3 : pipe_step (mk_sys p' [Writing [] 2] [7; 8] []) (mk_sys p' cr [7; 8] []))
    by (apply step_call; [by intros ? ? ? [= _ <- <-] | done]).
  pose proof (step_read p' cr [7; 8] [] 0 1 0 [] false p'' (Chunk [7]) eq_refl ltac:(lia) Hr) as H4.
  eexists. assert (Hs := reach_step _ _ _ (reach_step _ _ _ (reach_step _ _ _
    (reach_step _ _ _ (reach_refl _) H1) H2) H3) H4).
  exact (conj Hs (conj eq_refl (conj eq_refl (proj1 (pipe_fifo 0 _ Hs))))).
Defined.
