(* ===== verification/Path.v ===== *)
(** * fs/path.c: path lookup

    A string is the list of its bytes without the final NUL, a pointer into it
    the rest from there.  The namespace (dentries, inodes, mounts) is a record of
    functions: what the walker asks of the dentry cache, the file systems and the
    mount table, which no part of a walk changes.  [own] is the multiset of the
    references the caller holds; dropping one that is not held is a [Fault].
    NULL is 0. *)

From stdpp Require Import gmultiset.
From S2P Require Import Prelude.

Definition ENOENT : Z := 2.
Definition ENOTDIR : Z := 20.
Definition EINVAL : Z := 22.
Definition ENAMETOOLONG : Z := 36.
Definition ELOOP : Z := 40.
Definition AT_FDCWD : Z := -100.
Definition PATH_MAX : Z := 512.
Definition MAXSYMLINKS : Z := 40.
Definition SLASH : Z := 47.
Definition DOT : Z := 46.

Definition LOOKUP_FOLLOW : Z := BIT 0.
Definition LOOKUP_MOUNTPOINT : Z := BIT 6.
Definition LOOKUP_PARENT : Z := BIT 10.
Definition LOOKUP_NO_SYMLINKS : Z := BIT 24.

Record fs_path : Set := mk_path { mnt : Z; dentry : Z }.

Definition null_path : fs_path := mk_path 0 0.

#[global] Instance fs_path_eq_dec : EqDecision fs_path.
Proof. solve_decision. Defined.

(** What an inode is to the walker, and what its [readlink] writes: [None]
    when it has none, an error, or the bytes. *)
Inductive file_type : Set := S_IFDIR | S_IFLNK | S_IFOTHER.

#[global] Instance file_type_eq_dec : EqDecision file_type.
Proof. solve_decision. Defined.

Record inode : Set := mk_inode { i_type : file_type; readlink : option (Z + list Z) }.

Record namespace : Type := mk_ns {
  d_parent : Z -> Z;
  d_name : Z -> list Z;
  d_inode : Z -> option inode;
  d_negative : Z -> bool;
  d_mounted : Z -> bool;
  d_lookup : Z -> list Z -> Z + Z;         (* fs_dentry_lookup *)
  m_root : Z -> Z;
  m_parent : Z -> Z;
  m_point : Z -> Z;
  m_lookup : Z -> Z -> option Z;           (* fs_mount_state_lookup *)
  permission : inode -> Z;                 (* inode_permission(inode, MAY_EXEC) *)
  task_root : fs_path;
  task_cwd : fs_path;
  task_file : Z -> Z + (Z * fs_path);      (* fdtable_get_file: the file and its path *)
  mount_depth : nat                        (* no mount is nested deeper *)
}.

(** ** References *)

Inductive obj : Set := Dentry (d : Z) | Mount (m : Z) | File (f : Z).

#[global] Instance obj_eq_dec : EqDecision obj.
Proof. solve_decision. Defined.

#[global] Instance obj_countable : Countable obj.
Proof.
  refine (inj_countable' (fun o => match o with Dentry d => inl (inl d) | Mount m => inl (inr m) | File f => inr f end)
    (fun s => match s with inl (inl d) => Dentry d | inl (inr m) => Mount m | inr f => File f end) _).
  by intros [].
Defined.

Abbreviation refs := (gmultiset obj).

Definition get (own : refs) (o : obj) : refs := own ⊎ {[+ o +]}.

Definition put (own : refs) (o : obj) : res refs :=
  if decide (o ∈ own) then Ret (own ∖ {[+ o +]}) else Halt Fault.

Definition fs_path_get (own : refs) (p : fs_path) : refs :=
  if (dentry p =? 0) || (mnt p =? 0) then own else get (get own (Dentry (dentry p))) (Mount (mnt p)).

Definition fs_path_put (own : refs) (p : fs_path) : res refs :=
  if (dentry p =? 0) || (mnt p =? 0) then Ret own
  else let! own := put own (Dentry (dentry p)) in put own (Mount (mnt p)).

(** ** Steps of a walk *)

Fixpoint follow_mount_loop (ns : namespace) (own : refs) (path : fs_path) (n : nat) : res (refs * fs_path) :=
  match m_lookup ns (mnt path) (dentry path) with
  | None => Ret (own, path)
  | Some child_mnt =>
      match n with
      | O => Halt Fuel
      | S n' =>
          let own := get own (Mount child_mnt) in
          let! own := fs_path_put own path in
          let path := mk_path child_mnt (m_root ns child_mnt) in
          let own := get own (Dentry (dentry path)) in
          if negb (d_mounted ns (dentry path)) then Ret (own, path)
          else follow_mount_loop ns own path n'
      end
  end.

Definition follow_mount (ns : namespace) (own : refs) (path : fs_path) : res (refs * fs_path) :=
  if negb (d_mounted ns (dentry path)) then Ret (own, path)
  else follow_mount_loop ns own path (mount_depth ns).

Definition dir_lookup_entry (ns : namespace) (own : refs) (dir : fs_path) (name : list Z)
    : refs * (Z + fs_path) :=
  match d_lookup ns (dentry dir) name with
  | inl err => (own, inl err)
  | inr d => (get (get own (Dentry d)) (Mount (mnt dir)), inr (mk_path (mnt dir) d))
  end.

Definition path_init (ns : namespace) (own : refs) (dir_fd : Z) (pathname : list Z)
    : res (refs * (Z + fs_path) * list Z) :=
  if hd 0 pathname =? SLASH then Ret (fs_path_get own (task_root ns), inr (task_root ns), tl pathname)
  else if dir_fd =? AT_FDCWD then Ret (fs_path_get own (task_cwd ns), inr (task_cwd ns), pathname)
  else
    match task_file ns dir_fd with
    | inl err => Ret (own, inl err, pathname)
    | inr (f, p) =>
        let own := get own (File f) in
        let own := fs_path_get own p in
        let! own := put own (File f) in
        Ret (own, inr p, pathname)
    end.

Fixpoint skip_slashes (p : list Z) : list Z :=
  match p with c :: p' => if c =? SLASH then skip_slashes p' else p | [] => [] end.

Fixpoint take_component (p : list Z) : list Z * list Z :=
  match p with
  | c :: p' => if c =? SLASH then ([], p) else let (name, rest) := take_component p' in (c :: name, rest)
  | [] => ([], [])
  end.

(** The component and the rest behind it. *)
Definition skip_component (pathname : list Z) : option (list Z * list Z) :=
  match skip_slashes pathname with
  | [] => None
  | p => let (name, rest) := take_component p in Some (name, skip_slashes rest)
  end.

Definition fs_path_dot (own : refs) (path : fs_path) : refs * fs_path := (fs_path_get own path, path).

Fixpoint dot_dot_loop (ns : namespace) (own : refs) (cur : fs_path) (n : nat) : res (refs * fs_path) :=
  if negb (dentry cur =? m_root ns (mnt cur)) then
    let dotdot := mk_path (mnt cur) (d_parent ns (dentry cur)) in
    let own := get own (Dentry (dentry dotdot)) in
    let own := get own (Mount (mnt dotdot)) in
    let! own := fs_path_put own cur in
    Ret (own, dotdot)
  else
    match n with
    | O => Halt Fuel
    | S n' =>
        if negb (m_parent ns (mnt cur) =? 0) && negb (mnt cur =? m_parent ns (mnt cur)) then
          let pmnt := m_parent ns (mnt cur) in
          let mp := m_point ns (mnt cur) in
          let own := get (get own (Mount pmnt)) (Dentry mp) in
          let! own := fs_path_put own cur in
          dot_dot_loop ns own (mk_path pmnt mp) n'
        else if (d_parent ns (dentry cur) =? 0) || (dentry cur =? d_parent ns (dentry cur)) then Ret (own, cur)
        else dot_dot_loop ns own cur n'
    end.

Definition fs_path_dot_dot (ns : namespace) (own : refs) (path : fs_path) : res (refs * fs_path) :=
  dot_dot_loop ns (fs_path_get own path) path (S (mount_depth ns)).

(** ** The walk *)

Record walk_end : Type := mk_end { w_own : refs; w_err : Z; w_path : fs_path; w_name : list Z }.

Definition lookup_error (own : refs) (path : fs_path) (err : Z) : res walk_end :=
  let! own := fs_path_put own path in
  Ret (mk_end own err null_path []).

(** The bytes up to the first NUL. *)
Fixpoint cstring (l : list Z) : list Z :=
  match l with c :: l' => if c =? 0 then [] else c :: cstring l' | [] => [] end.

Definition has_flag (flags f : Z) : bool := negb (Z.land flags f =? 0).

(** The symbolic link at [component] and the rest [p]: an error, or the
    target and the path [combined] to go on with. *)
Definition read_link (link : inode) (depth : Z) (p : list Z) : Z + (list Z * list Z) :=
  if MAXSYMLINKS <=? depth then inl (- ELOOP)
  else
    match readlink link with
    | None => inl (- EINVAL)
    | Some (inl err) => inl err
    | Some (inr bytes) =>
        if PATH_MAX - 1 <=? Z.of_nat (length bytes) then inl (- ENAMETOOLONG)
        else
          let target := cstring bytes in
          match target with
          | [] => inl (- ENOENT)
          | _ =>
              let sep := match p with [] => [] | _ => [SLASH] end in
              if PATH_MAX <? Z.of_nat (length target) + Z.of_nat (length sep) + Z.of_nat (length p) + 1
              then inl (- ENAMETOOLONG)
              else inr (target, target ++ sep ++ p)
          end
    end.

(** The component by its name. *)
Definition step_component (ns : namespace) (own : refs) (path : fs_path) (name : list Z)
    : res (refs * (Z + fs_path)) :=
  if decide (name = [DOT]) then let (own, p) := fs_path_dot own path in Ret (own, inr p)
  else if decide (name = [DOT; DOT]) then
    let! (own, p) := fs_path_dot_dot ns own path in Ret (own, inr p)
  else Ret (dir_lookup_entry ns own path name).

Fixpoint path_walk_loop (ns : namespace) (own : refs) (path : fs_path) (p name0 : list Z) (flags depth : Z) (n : nat)
    : res walk_end :=
  match n with
  | O => Halt Fuel
  | S n' =>
      match skip_component p with
      | None =>
          if has_flag flags LOOKUP_PARENT then lookup_error own path (- ENOENT)
          else Ret (mk_end own 0 path name0)
      | Some (name, p) =>
          match d_inode ns (dentry path) with
          | None => lookup_error own path (- ENOENT)
          | Some dir_inode =>
              if d_negative ns (dentry path) then lookup_error own path (- ENOENT)
              else
                match i_type dir_inode with
                | S_IFDIR =>
                    let! (own, path) := follow_mount ns own path in
                    let err := permission ns dir_inode in
                    if negb (err =? 0) then lookup_error own path err
                    else if has_flag flags LOOKUP_PARENT && (length p =? 0)%nat then Ret (mk_end own 0 path name)
                    else
                      let! (own, r) := step_component ns own path name in
                      match r with
                      | inl err => lookup_error own path err
                      | inr component_path =>
                          let onward :=
                            let! own := fs_path_put own path in
                            let path := component_path in
                            let! (own, path) :=
                              (if negb (has_flag flags LOOKUP_MOUNTPOINT) || negb (length p =? 0)%nat
                               then follow_mount ns own path else Ret (own, path)) in
                            path_walk_loop ns own path p name flags depth n' in
                          match d_inode ns (dentry component_path) with
                          | Some (mk_inode S_IFLNK _ as link) =>
                              if has_flag flags LOOKUP_NO_SYMLINKS then
                                let! own := fs_path_put own component_path in
                                lookup_error own path (- ELOOP)
                              else if negb (length p =? 0)%nat || has_flag flags LOOKUP_FOLLOW then
                                match read_link link depth p with
                                | inl err =>
                                    let! own := fs_path_put own component_path in
                                    lookup_error own path err
                                | inr (target, combined) =>
                                    let! own := fs_path_put own component_path in
                                    if (hd 0 target =? SLASH) then
                                      let! own := fs_path_put own path in
                                      let! (own, r, q) := path_init ns own AT_FDCWD combined in
                                      match r with
                                      | inl err => lookup_error own null_path err
                                      | inr path => path_walk_loop ns own path q name flags (depth + 1) n'
                                      end
                                    else path_walk_loop ns own path combined name flags (depth + 1) n'
                                end
                              else onward
                          | _ => onward
                          end
                      end
                | _ => lookup_error own path (- ENOTDIR)
                end
          end
      end
  end.

(** Each turn eats a byte of the path or one of the links it may still follow. *)
Definition walk_fuel (p : list Z) (depth : Z) : nat :=
  length p + Z.to_nat (MAXSYMLINKS - depth) * Z.to_nat PATH_MAX.

Definition path_walk (ns : namespace) (own : refs) (path : fs_path) (name : list Z) (flags : Z) : res walk_end :=
  path_walk_loop ns own path name [] flags 0 (S (walk_fuel name 0)).

Definition path_lookup (ns : namespace) (own : refs) (dirfd : Z) (name : list Z) (flags : Z) : res walk_end :=
  let! (own, r, name) := path_init ns own dirfd name in
  match r with
  | inl err => Ret (mk_end own err null_path [])
  | inr path => path_walk ns own path name flags
  end.

Definition fs_path_lookup_at := path_lookup.

Definition fs_path_lookup (ns : namespace) (own : refs) (name : list Z) (flags : Z) : res walk_end :=
  fs_path_lookup_at ns own AT_FDCWD name flags.

Definition fs_path_parent_at (ns : namespace) (own : refs) (dir_fd : Z) (name : list Z) : res walk_end :=
  path_lookup ns own dir_fd name LOOKUP_PARENT.

(** ** Absolute paths *)

(** The loop of [fs_path_to_absolute]: where the text begins, [None] when it
    does not fit.  [fuel] bounds the depth of the path. *)
Fixpoint abs_loop (ns : namespace) (own : refs) (cur : fs_path) (buf : list Z) (pos : Z) (fuel : nat)
    : res (refs * list Z * option Z) :=
  match fuel with
  | O => Halt Fuel
  | S fuel' =>
      if (dentry cur =? m_root ns (mnt cur)) && negb (m_parent ns (mnt cur) =? 0) &&
         negb (mnt cur =? m_parent ns (mnt cur)) then
        let pmnt := m_parent ns (mnt cur) in
        let mp := m_point ns (mnt cur) in
        let own := get (get own (Mount pmnt)) (Dentry mp) in
        let! own := fs_path_put own cur in
        abs_loop ns own (mk_path pmnt mp) buf pos fuel'
      else
        let stop := let! own := fs_path_put own cur in Ret (own, buf, Some pos) in
        if (d_parent ns (dentry cur) =? 0) || (dentry cur =? d_parent ns (dentry cur)) then stop
        else
          let name := d_name ns (dentry cur) in
          let len := Z.of_nat (length name) in
          if len =? 0 then stop
          else if pos <? len + 1 then
            let! own := fs_path_put own cur in
            Ret (own, buf, None)
          else
            let pos := pos - len in
            let! buf := wr_slice buf pos name in
            let pos := pos - 1 in
            let! buf := wr buf pos SLASH in
            let parent := d_parent ns (dentry cur) in
            let own := get (get own (Dentry parent)) (Mount (mnt cur)) in
            let! own := fs_path_put own cur in
            abs_loop ns own (mk_path (mnt cur) parent) buf pos fuel'
  end.

Definition fs_path_to_absolute (ns : namespace) (own : refs) (path : fs_path) (buf : list Z) (fuel : nat)
    : res (refs * Z * list Z) :=
  let bufsz := Z.of_nat (length buf) in
  if (mnt path =? 0) || (dentry path =? 0) || (bufsz =? 0) then Ret (own, - EINVAL, buf)
  else
    let own := get (get own (Mount (mnt path))) (Dentry (dentry path)) in
    let pos := bufsz - 1 in
    let! buf := wr buf pos 0 in
    let! (own, buf, r) := abs_loop ns own path buf pos fuel in
    match r with
    | None => Ret (own, - ENAMETOOLONG, buf)
    | Some pos =>
        if pos =? bufsz - 1 then
          if bufsz <? 2 then Ret (own, - ENAMETOOLONG, buf)
          else
            let! buf := wr buf 0 SLASH in
            let! buf := wr buf 1 0 in
            Ret (own, 0, buf)
        else
          let! text := rd_slice buf pos (bufsz - pos) in
          let! buf := wr_slice buf 0 text in
          Ret (own, 0, buf)
    end.

(** ** Components *)

(** The reference: the pieces between the slashes, the empty ones left out. *)
Fixpoint split_slash (p : list Z) : list (list Z) :=
  match p with
  | [] => [[]]
  | c :: p' =>
      if c =? SLASH then [] :: split_slash p'
      else match split_slash p' with h :: t => (c :: h) :: t | [] => [[c]] end
  end.

Definition components (p : list Z) : list (list Z) := filter (fun c => c <> []) (split_slash p).

Lemma split_cons p : exists h t, split_slash p = h :: t.
Proof.
  destruct p as [| c p]; simpl; [eauto |]. destruct (c =? SLASH); [eauto |]. destruct (split_slash p); eauto.
Qed.

Lemma split_app_slash t r : split_slash (t ++ SLASH :: r) = split_slash t ++ split_slash r.
Proof.
  induction t as [| c t IH]; [done |]. cbn [app split_slash]. destruct (c =? SLASH); [by rewrite IH |].
  rewrite IH. destruct (split_cons t) as (h & l & ->). done.
Qed.

Lemma components_slash p : components (SLASH :: p) = components p.
Proof. unfold components. cbn [split_slash]. rewrite Z.eqb_refl, filter_cons_False; [done |]. tauto. Qed.

Lemma components_app t r : components (t ++ SLASH :: r) = components t ++ components r.
Proof. unfold components. by rewrite split_app_slash, list.filter_app. Qed.

Lemma components_skip p : components (skip_slashes p) = components p.
Proof.
  induction p as [| c p IH]; [done |]. cbn [skip_slashes]. destruct (Z.eqb_spec c SLASH) as [-> |]; [| done].
  by rewrite components_slash.
Qed.

Lemma skip_length p : (length (skip_slashes p) <= length p)%nat.
Proof. induction p as [| c p IH]; [done |]. cbn [skip_slashes]. destruct (c =? SLASH); simpl; lia. Qed.

Lemma skip_head p : match skip_slashes p with [] => True | c :: _ => c <> SLASH end.
Proof. induction p as [| c p IH]; [done |]. cbn [skip_slashes]. destruct (Z.eqb_spec c SLASH); done. Qed.

Lemma take_component_spec p : let (c, r) := take_component p in
  p = c ++ r /\ (SLASH ∉ c) /\ (r = [] \/ exists r', r = SLASH :: r') /\
  (match p with [] => False | x :: _ => x <> SLASH end -> c <> []).
Proof.
  induction p as [| x p IH]; cbn [take_component]; [split_and!; [done | apply not_elem_of_nil | by left | done] |].
  destruct (Z.eqb_spec x SLASH) as [-> | Hx].
  - split_and!; [done | apply not_elem_of_nil | right; eauto | done].
  - destruct (take_component p) as [c r]. destruct IH as (-> & Hc & Hr & _). split_and!; try done.
    intros [?%symmetry | ?]%elem_of_cons; done.
Qed.

Lemma split_piece c : SLASH ∉ c -> split_slash c = [c].
Proof.
  induction c as [| x c IH]; intros Hc; [done |]. apply not_elem_of_cons in Hc as [Hx Hc]. cbn [split_slash].
  destruct (Z.eqb_spec x SLASH); [congruence |]. by rewrite IH.
Qed.

Lemma components_piece c : SLASH ∉ c -> c <> [] -> components c = [c].
Proof. intros Hc Hne. unfold components. rewrite split_piece by done. by rewrite filter_cons_True. Qed.

Lemma components_none p : skip_slashes p = p -> components p = [] -> p = [].
Proof.
  intros Hs Hc. destruct p as [| x p]; [done |]. pose proof (skip_head (x :: p)) as Hh. rewrite Hs in Hh.
  pose proof (take_component_spec (x :: p)) as Ht. destruct (take_component (x :: p)) as [c r].
  destruct Ht as (E & Hsl & Hr & Hne). specialize (Hne Hh). rewrite E in Hc.
  destruct Hr as [-> | [r' ->]]; [rewrite app_nil_r, components_piece in Hc by done; done |].
  rewrite components_app, components_piece in Hc by done. done.
Qed.

Lemma skip_twice p : skip_slashes (skip_slashes p) = skip_slashes p.
Proof.
  pose proof (skip_head p) as H. destruct (skip_slashes p) as [| c q]; [done |]. cbn [skip_slashes].
  by destruct (Z.eqb_spec c SLASH).
Qed.

(** A component, and the rest with the components behind it. *)
Lemma skip_component_spec p :
  match skip_component p with
  | None => components p = []
  | Some (c, r) => components p = c :: components r /\ c <> [] /\ (SLASH ∉ c) /\
      (length r < length p)%nat /\ (r = [] <-> components r = [])
  end.
Proof.
  unfold skip_component. rewrite <- (components_skip p). pose proof (skip_head p) as Hh. pose proof (skip_length p) as Hl.
  destruct (skip_slashes p) as [| x q] eqn:E; [done |].
  pose proof (take_component_spec (x :: q)) as Ht. destruct (take_component (x :: q)) as [c r].
  destruct Ht as (Eq & Hsl & Hr & Hne). specialize (Hne Hh). split_and!; try done.
  - rewrite Eq. destruct Hr as [-> | [r' ->]]; [by rewrite app_nil_r, components_piece |].
    rewrite components_app, components_piece, components_skip, components_slash by done. done.
  - rewrite Eq, length_app in Hl. destruct c; [done |]. pose proof (skip_length r). simpl in *. lia.
  - split; [by intros -> | apply components_none, skip_twice].
Qed.

(** ** The reference: resolving components *)

Section Resolution.

Context (ns : namespace).

(** The path on top of what is mounted there. *)
Inductive crosses : fs_path -> fs_path -> Prop :=
| cross_not p : d_mounted ns (dentry p) = false -> crosses p p
| cross_end p : m_lookup ns (mnt p) (dentry p) = None -> crosses p p
| cross_one p c q : m_lookup ns (mnt p) (dentry p) = Some c -> crosses (mk_path c (m_root ns c)) q -> crosses p q.

(** The parent directory: across a mount point at the root of a mount, and
    the root itself at the top. *)
Inductive up : fs_path -> fs_path -> Prop :=
| up_parent p : dentry p <> m_root ns (mnt p) -> up p (mk_path (mnt p) (d_parent ns (dentry p)))
| up_mount p q : dentry p = m_root ns (mnt p) -> m_parent ns (mnt p) <> 0 -> m_parent ns (mnt p) <> mnt p ->
    up (mk_path (m_parent ns (mnt p)) (m_point ns (mnt p))) q -> up p q
| up_top p : dentry p = m_root ns (mnt p) -> m_parent ns (mnt p) = 0 \/ m_parent ns (mnt p) = mnt p -> up p p.

(** The entry a component names in a directory. *)
Inductive entry_of (dir : fs_path) : list Z -> Z + fs_path -> Prop :=
| entry_dot : entry_of dir [DOT] (inr dir)
| entry_dot_dot q : up dir q -> entry_of dir [DOT; DOT] (inr q)
| entry_name name : name <> [DOT] -> name <> [DOT; DOT] ->
    entry_of dir name (match d_lookup ns (dentry dir) name with inl err => inl err | inr d => inr (mk_path (mnt dir) d) end).

(** The directory [p] may be searched, from [q]. *)
Definition is_dir (p : fs_path) (i : inode) : Prop :=
  d_inode ns (dentry p) = Some i /\ d_negative ns (dentry p) = false /\ i_type i = S_IFDIR.

Definition searches (p q : fs_path) : Prop := exists i, is_dir p i /\ crosses p q /\ permission ns i = 0.

(** Looking up [c], with [cs] behind it, gives [r]; the last component is
    not looked up when only its parent is wanted. *)
Definition looks_up (flags : Z) (p q : fs_path) (c : list Z) (cs : list (list Z)) (r : Z + fs_path) : Prop :=
  searches p q /\ entry_of q c r /\ ~ (has_flag flags LOOKUP_PARENT = true /\ cs = []).

Definition is_link (p : fs_path) (l : option (Z + list Z)) : Prop := d_inode ns (dentry p) = Some (mk_inode S_IFLNK l).

(** A link is followed unless it is the last component and the caller did
    not ask for it. *)
Definition followed (flags : Z) (rest : list (list Z)) : Prop :=
  has_flag flags LOOKUP_NO_SYMLINKS = false /\ (rest <> [] \/ has_flag flags LOOKUP_FOLLOW = true).

(** [resolves flags dep p cs err e o]: with [dep] links followed so far, the
    components [cs] from [p] end in [err] and the path [e]; when only the parent
    was asked for, [o] is the component left. *)
Inductive resolves (flags : Z) : Z -> fs_path -> list (list Z) -> Z -> fs_path -> option (list Z) -> Prop :=
| res_done dep p : has_flag flags LOOKUP_PARENT = false -> resolves flags dep p [] 0 p None
| res_no_parent dep p : has_flag flags LOOKUP_PARENT = true -> resolves flags dep p [] (- ENOENT) null_path None
| res_noent dep p c cs : d_inode ns (dentry p) = None \/ d_negative ns (dentry p) = true ->
    resolves flags dep p (c :: cs) (- ENOENT) null_path None
| res_notdir dep p c cs i : d_inode ns (dentry p) = Some i -> d_negative ns (dentry p) = false ->
    i_type i <> S_IFDIR -> resolves flags dep p (c :: cs) (- ENOTDIR) null_path None
| res_denied dep p c cs i : is_dir p i -> permission ns i <> 0 ->
    resolves flags dep p (c :: cs) (permission ns i) null_path None
| res_parent dep p q c : has_flag flags LOOKUP_PARENT = true -> searches p q ->
    resolves flags dep p [c] 0 q (Some c)
| res_error dep p q c cs err : looks_up flags p q c cs (inl err) ->
    resolves flags dep p (c :: cs) err null_path None
| res_no_links dep p q c cs r l : looks_up flags p q c cs (inr r) -> is_link r l ->
    has_flag flags LOOKUP_NO_SYMLINKS = true -> resolves flags dep p (c :: cs) (- ELOOP) null_path None
| res_loop dep p q c cs r l : looks_up flags p q c cs (inr r) -> is_link r l -> followed flags cs ->
    MAXSYMLINKS <= dep -> resolves flags dep p (c :: cs) (- ELOOP) null_path None
| res_bad_link dep p q c cs r l err : looks_up flags p q c cs (inr r) -> is_link r l -> followed flags cs ->
    dep < MAXSYMLINKS ->
    (l = None /\ err = - EINVAL) \/ l = Some (inl err) \/
    (exists b, l = Some (inr b) /\ (cstring b = [] /\ err = - ENOENT \/ err = - ENAMETOOLONG)) ->
    resolves flags dep p (c :: cs) err null_path None
| res_link dep p q c cs r b err e o : looks_up flags p q c cs (inr r) -> is_link r (Some (inr b)) ->
    followed flags cs -> dep < MAXSYMLINKS -> cstring b <> [] ->
    resolves flags (dep + 1) (if hd 0 (cstring b) =? SLASH then task_root ns else q)
      (components (cstring b) ++ cs) err e o ->
    resolves flags dep p (c :: cs) err e o
| res_entry dep p q c cs r r' err e o : looks_up flags p q c cs (inr r) ->
    (forall l, is_link r l -> cs = [] /\ has_flag flags LOOKUP_FOLLOW = false /\
       has_flag flags LOOKUP_NO_SYMLINKS = false) ->
    (has_flag flags LOOKUP_MOUNTPOINT = true /\ cs = [] /\ r' = r \/
     (has_flag flags LOOKUP_MOUNTPOINT = false \/ cs <> []) /\ crosses r r') ->
    resolves flags dep r' cs err e o ->
    resolves flags dep p (c :: cs) err e o.

(** ** References a walk holds *)

Definition valid (p : fs_path) : Prop := mnt p <> 0 /\ dentry p <> 0.

Definition refs_of (p : fs_path) : refs := {[+ Dentry (dentry p); Mount (mnt p) +]}.

(** The namespace is well formed: mounts form a tree of bounded depth whose
    top is its own parent directory, nothing is NULL and errors are not 0. *)
Record ns_ok (rank : Z -> nat) : Prop := {
  ok_rank : forall m, (rank m <= mount_depth ns)%nat;
  ok_child : forall m d c, m_lookup ns m d = Some c -> c <> 0 /\ (rank m < rank c)%nat;
  ok_root : forall m, m_root ns m <> 0;
  ok_parent : forall m, m_parent ns m <> 0 -> m_parent ns m <> m -> (rank (m_parent ns m) < rank m)%nat /\ m_point ns m <> 0;
  ok_top : forall m, m_parent ns m = 0 \/ m_parent ns m = m -> d_parent ns (m_root ns m) = m_root ns m;
  ok_dparent : forall d, d <> 0 -> d_parent ns d <> 0;
  ok_lookup : forall d n, match d_lookup ns d n with inl err => err <> 0 | inr d' => d' <> 0 end;
  ok_link : forall d i err, d_inode ns d = Some i -> readlink i = Some (inl err) -> err <> 0;
  ok_task : valid (task_root ns) /\ valid (task_cwd ns) /\
    forall fd, match task_file ns fd with inl err => err <> 0 | inr (_, p) => valid p end
}.

Lemma put_in own o : put (own ⊎ {[+ o +]}) o = Ret own.
Proof. unfold put. rewrite decide_True by multiset_solver. f_equal. multiset_solver. Qed.

Lemma path_put_valid own p : valid p -> fs_path_put (own ⊎ refs_of p) p = Ret own.
Proof.
  intros [H1 H2]. unfold fs_path_put. destruct (Z.eqb_spec (dentry p) 0); [done |].
  destruct (Z.eqb_spec (mnt p) 0); [done |]. cbn [orb]. unfold refs_of.
  replace (own ⊎ {[+ Dentry (dentry p); Mount (mnt p) +]})
    with ((own ⊎ {[+ Mount (mnt p) +]}) ⊎ {[+ Dentry (dentry p) +]}) by multiset_solver.
  rewrite put_in. apply put_in.
Qed.

Lemma path_put_in own own' p : valid p -> own' = own ⊎ refs_of p -> fs_path_put own' p = Ret own.
Proof. intros Hv ->. by apply path_put_valid. Qed.

Lemma path_get_valid own p : valid p -> fs_path_get own p = own ⊎ refs_of p.
Proof.
  intros [H1 H2]. unfold fs_path_get. destruct (Z.eqb_spec (dentry p) 0); [done |].
  destruct (Z.eqb_spec (mnt p) 0); [done |]. cbn [orb]. unfold get, refs_of. multiset_solver.
Qed.

Context (rank : Z -> nat) (Hns : ns_ok rank).

Lemma follow_loop_spec own n : forall path, valid path -> (mount_depth ns <= rank (mnt path) + n)%nat ->
  exists path', follow_mount_loop ns (own ⊎ refs_of path) path n = Ret (own ⊎ refs_of path', path') /\
    valid path' /\ crosses path path'.
Proof.
  induction n as [| n IH]; intros path Hv Hn; cbn [follow_mount_loop];
    (destruct (m_lookup ns (mnt path) (dentry path)) as [c |] eqn:E; [| exists path; split_and!; [done | done | by constructor]]);
    destruct (ok_child _ Hns _ _ _ E) as [Hc Hr]; [pose proof (ok_rank _ Hns c); lia |].
  rewrite (path_put_in (get own (Mount c))) by (done || (unfold get; multiset_solver)).
  assert (Hv' : valid (mk_path c (m_root ns c))) by (split; [done | apply (ok_root _ Hns)]).
  assert (Eown : get (get own (Mount c)) (Dentry (m_root ns c)) = own ⊎ refs_of (mk_path c (m_root ns c)))
    by (unfold get, refs_of; cbn [mnt dentry]; multiset_solver).
  cbn [dentry]. rewrite Eown. destruct (d_mounted ns (m_root ns c)) eqn:Em; cbn [negb].
  - destruct (IH (mk_path c (m_root ns c)) Hv') as (path' & -> & Hp & Hcr); [cbn [mnt]; lia |].
    exists path'. split_and!; [done | done | by eapply cross_one].
  - exists (mk_path c (m_root ns c)). split_and!; [done | done |]. eapply cross_one; [done |]. by apply cross_not.
Qed.

Lemma follow_mount_spec own path : valid path ->
  exists path', follow_mount ns (own ⊎ refs_of path) path = Ret (own ⊎ refs_of path', path') /\
    valid path' /\ crosses path path'.
Proof.
  intros Hv. unfold follow_mount. destruct (d_mounted ns (dentry path)) eqn:E; cbn [negb].
  - apply follow_loop_spec; [done | lia].
  - exists path. split_and!; [done | done | by apply cross_not].
Qed.

Lemma dot_dot_loop_spec own n : forall cur, valid cur -> (rank (mnt cur) < n)%nat ->
  exists q, dot_dot_loop ns (own ⊎ refs_of cur) cur n = Ret (own ⊎ refs_of q, q) /\ valid q /\ up cur q.
Proof.
  induction n as [| n IH]; intros cur Hv Hn; [lia |]. cbn [dot_dot_loop]. cbn [mnt dentry].
  destruct (Z.eqb_spec (dentry cur) (m_root ns (mnt cur))) as [Hr | Hr]; cbn [negb].
  2: { set (q := mk_path (mnt cur) (d_parent ns (dentry cur))).
       assert (Hq : valid q) by (split; [apply Hv | by apply (ok_dparent _ Hns), Hv]).
       rewrite (path_put_in (own ⊎ refs_of q)) by (done || (unfold get, refs_of, q; cbn [mnt dentry]; multiset_solver)).
       exists q. split_and!; [done | done | by apply up_parent]. }
  destruct (Z.eqb_spec (m_parent ns (mnt cur)) 0) as [H0 | H0]; cbn [negb andb].
  { assert (Htop : d_parent ns (dentry cur) = dentry cur) by (rewrite Hr; apply (ok_top _ Hns); by left).
    rewrite Htop, Z.eqb_refl, orb_true_r.
    exists cur. split_and!; [done | done | apply up_top; [done | by left]]. }
  destruct (Z.eqb_spec (mnt cur) (m_parent ns (mnt cur))) as [H1 | H1]; cbn [negb].
  { assert (Htop : d_parent ns (dentry cur) = dentry cur) by (rewrite Hr; apply (ok_top _ Hns); by right).
    rewrite Htop, Z.eqb_refl, orb_true_r.
    exists cur. split_and!; [done | done | apply up_top; [done | by right]]. }
  destruct (ok_parent _ Hns (mnt cur) H0) as [Hlt Hp]; [done |].
  set (p := mk_path (m_parent ns (mnt cur)) (m_point ns (mnt cur))).
  rewrite (path_put_in (own ⊎ refs_of p)) by (done || (unfold get, refs_of, p; cbn [mnt dentry]; multiset_solver)).
  destruct (IH p) as (q & -> & Hq & Hup); [by split | unfold p; cbn [mnt]; lia |].
  exists q. split_and!; [done | done | by eapply up_mount].
Qed.

Lemma step_component_spec own path name : valid path ->
  exists r, step_component ns (own ⊎ refs_of path) path name =
      Ret (own ⊎ refs_of path ⊎ match r with inl _ => ∅ | inr p => refs_of p end, r) /\
    entry_of path name r /\ match r with inl err => err <> 0 | inr p => valid p end.
Proof.
  intros Hv. unfold step_component. case_decide as H1.
  { subst name. unfold fs_path_dot. rewrite path_get_valid by done. exists (inr path). split_and!; [done | constructor | done]. }
  case_decide as H2.
  { subst name. unfold fs_path_dot_dot. rewrite path_get_valid by done.
    destruct (dot_dot_loop_spec (own ⊎ refs_of path) (S (mount_depth ns)) path Hv) as (q & -> & Hq & Hup).
    { pose proof (ok_rank _ Hns (mnt path)). lia. }
    exists (inr q). split_and!; [done | by constructor | done]. }
  unfold dir_lookup_entry. pose proof (ok_lookup _ Hns (dentry path) name) as Hl.
  pose proof (entry_name path name H1 H2) as He. destruct (d_lookup ns (dentry path) name) as [err | d].
  - exists (inl err). split_and!; [| done | done]. f_equal. f_equal. multiset_solver.
  - exists (inr (mk_path (mnt path) d)). split_and!; [| done | split; [apply Hv | done]].
    f_equal. f_equal. unfold get, refs_of. cbn [mnt dentry]. multiset_solver.
Qed.

(** ** The walk *)

Definition walk_ok (own : refs) (e : walk_end) : Prop :=
  w_err e = 0 /\ valid (w_path e) /\ w_own e = own ⊎ refs_of (w_path e) \/
  w_err e <> 0 /\ w_path e = null_path /\ w_own e = own.

(** What every exit of the walk amounts to. *)
Definition walked (own : refs) (flags depth : Z) (path : fs_path) (p : list Z) (r : res walk_end) : Prop :=
  exists e o, r = Ret e /\ walk_ok own e /\ resolves flags depth path (components p) (w_err e) (w_path e) o /\
    forall c, o = Some c -> w_name e = c.

Lemma walked_error own own' flags depth path0 p path err : valid path -> err <> 0 -> own' = own ⊎ refs_of path ->
  resolves flags depth path0 (components p) err null_path None ->
  walked own flags depth path0 p (lookup_error own' path err).
Proof.
  intros Hv He -> Hr. unfold lookup_error. rewrite path_put_valid by done.
  do 2 eexists. split; [reflexivity |]. split; [right; done |]. split; [exact Hr | done].
Qed.

Lemma cstring_length l : (length (cstring l) <= length l)%nat.
Proof. induction l as [| c l IH]; [done |]. cbn [cstring]. destruct (c =? 0); simpl; lia. Qed.

(** What [read_link] answers. *)
Lemma read_link_spec depth q i p :
  d_inode ns q = Some i -> i_type i = S_IFLNK ->
  match read_link i depth p with
  | inl err => err <> 0 /\ (MAXSYMLINKS <= depth /\ err = - ELOOP \/ depth < MAXSYMLINKS /\
      ((readlink i = None /\ err = - EINVAL) \/ readlink i = Some (inl err) \/
       (exists b, readlink i = Some (inr b) /\ (cstring b = [] /\ err = - ENOENT \/ err = - ENAMETOOLONG))))
  | inr (target, combined) => depth < MAXSYMLINKS /\ target <> [] /\
      components combined = components target ++ components p /\
      (length combined < 512)%nat /\ hd 0 combined = hd 0 target /\
      exists b, readlink i = Some (inr b) /\ cstring b = target
  end.
Proof.
  intros Hi Ht. unfold read_link. destruct (Z.leb_spec MAXSYMLINKS depth); [split; [done | by left] |].
  destruct (readlink i) as [[err | b] |] eqn:E.
  - split; [by eapply (ok_link _ Hns) |]. right. split; [done |]. right. by left.
  - assert (Hbad : forall err, err <> 0 -> cstring b = [] /\ err = - ENOENT \/ err = - ENAMETOOLONG ->
      err <> 0 /\ (MAXSYMLINKS <= depth /\ err = - ELOOP \/ depth < MAXSYMLINKS /\
        (Some (inr b) = None (A := Z + list Z) /\ err = - EINVAL \/ Some (inr b) = Some (inl err) \/
         exists b0, Some (inr b) = Some (inr b0 : Z + list Z) /\ (cstring b0 = [] /\ err = - ENOENT \/ err = - ENAMETOOLONG)))).
    { intros err H1 H2. split; [done |]. right. split; [done |]. right. right. eauto. }
    destruct (Z.leb_spec (PATH_MAX - 1) (Z.of_nat (length b))); [apply Hbad; [done | by right] |].
    destruct (cstring b) as [| t0 t] eqn:Et; [apply Hbad; [done | by left] |].
    destruct (Z.ltb_spec PATH_MAX (Z.of_nat (length (t0 :: t)) + Z.of_nat (length match p with [] => [] | _ => [SLASH] end) +
      Z.of_nat (length p) + 1)) as [Hlong | Hfit]; [apply Hbad; [done | by right] |].
    split_and!; [done | done | | | done | eauto].
    + destruct p as [| x p]; [by rewrite !app_nil_r | apply (components_app (t0 :: t) (x :: p))].
    + rewrite !length_app. unfold PATH_MAX in Hfit. lia.
  - split; [done |]. right. split; [done |]. by left.
Qed.

Lemma walked_step own flags d path p d' path' p' r : walked own flags d' path' p' r ->
  (forall err e o, resolves flags d' path' (components p') err e o -> resolves flags d path (components p) err e o) ->
  walked own flags d path p r.
Proof. intros (e & o & H1 & H2 & H3 & H4) Hs. exists e, o. split_and!; auto. Qed.

Lemma fuel_rest (p r : list Z) depth n : (length r < length p)%nat -> (walk_fuel p depth < S n)%nat ->
  (walk_fuel r depth < n)%nat.
Proof. unfold walk_fuel. lia. Qed.

Lemma fuel_link (p q : list Z) depth n : 0 <= depth < MAXSYMLINKS -> (length q < 512)%nat -> p <> [] ->
  (walk_fuel p depth < S n)%nat -> (walk_fuel q (depth + 1) < n)%nat.
Proof.
  unfold walk_fuel, MAXSYMLINKS. change (Z.to_nat PATH_MAX) with 512%nat. intros Hd Hq Hp Hf.
  replace (Z.to_nat (40 - depth)) with (S (Z.to_nat (40 - (depth + 1)))) in Hf by lia.
  destruct p; [done |]. simpl length in Hf. lia.
Qed.

(** The turn behind the lookup of a component. *)
Lemma onward_spec flags own n depth path q p name r cp :
  (forall path p name0 depth, valid path -> 0 <= depth <= MAXSYMLINKS -> (walk_fuel p depth < n)%nat ->
    walked own flags depth path p (path_walk_loop ns (own ⊎ refs_of path) path p name0 flags depth n)) ->
  valid q -> valid cp -> 0 <= depth <= MAXSYMLINKS -> (walk_fuel r depth < n)%nat ->
  components p = name :: components r -> (r = [] <-> components r = []) ->
  looks_up flags path q name (components r) (inr cp) ->
  (forall l, is_link cp l -> r = [] /\ has_flag flags LOOKUP_FOLLOW = false /\ has_flag flags LOOKUP_NO_SYMLINKS = false) ->
  walked own flags depth path p
    (let! own := fs_path_put (own ⊎ refs_of q ⊎ refs_of cp) q in
     let! (own, path) :=
       (if negb (has_flag flags LOOKUP_MOUNTPOINT) || negb (length r =? 0)%nat
        then follow_mount ns own cp else Ret (own, cp)) in
     path_walk_loop ns own path r name flags depth n).
Proof.
  intros IH Hq Hcp Hd Hf Hcs Hnil Hl Hlink.
  rewrite (path_put_in (own ⊎ refs_of cp)) by (done || multiset_solver).
  assert (Hgo : forall cp', valid cp' ->
    (has_flag flags LOOKUP_MOUNTPOINT = true /\ components r = [] /\ cp' = cp \/
     (has_flag flags LOOKUP_MOUNTPOINT = false \/ components r <> []) /\ crosses cp cp') ->
    walked own flags depth path p (path_walk_loop ns (own ⊎ refs_of cp') cp' r name flags depth n)).
  { intros cp' Hcp' Hcr. eapply walked_step; [by apply IH |]. intros err e o He. rewrite Hcs.
    eapply res_entry; [exact Hl | | exact Hcr | exact He].
    intros l Hil. destruct (Hlink l Hil) as (? & ? & ?). by rewrite <- Hnil. }
  destruct (has_flag flags LOOKUP_MOUNTPOINT) eqn:Em; cbn [negb orb].
  - destruct (Nat.eqb_spec (length r) 0) as [E | E]; cbn [negb].
    + apply length_zero_iff_nil in E. apply Hgo; [done |]. left. split_and!; [done | by apply Hnil | done].
    + destruct (follow_mount_spec own cp Hcp) as (cp' & -> & Hv & Hcr). apply Hgo; [done |]. right. split; [| done].
      right. rewrite <- Hnil. by intros ->.
  - destruct (follow_mount_spec own cp Hcp) as (cp' & -> & Hv & Hcr). apply Hgo; [done |]. right. split; [by left | done].
Qed.

Lemma walk_loop_spec flags own n : forall path p name0 depth, valid path -> 0 <= depth <= MAXSYMLINKS ->
  (walk_fuel p depth < n)%nat ->
  walked own flags depth path p (path_walk_loop ns (own ⊎ refs_of path) path p name0 flags depth n).
Proof.
  induction n as [| n IH]; intros path p name0 depth Hv Hd Hf; [lia |]. cbn [path_walk_loop].
  pose proof (skip_component_spec p) as Hsk. destruct (skip_component p) as [[name r] |].
  2: { destruct (has_flag flags LOOKUP_PARENT) eqn:Ep.
       - eapply walked_error; try done. rewrite Hsk. by apply res_no_parent.
       - do 2 eexists. split; [reflexivity |]. split; [left; done |]. split; [rewrite Hsk; by apply res_done | done]. }
  destruct Hsk as (Hcs & Hne & Hsl & Hlen & Hnil).
  destruct (d_inode ns (dentry path)) as [di |] eqn:Edi.
  2: { eapply walked_error; try done. rewrite Hcs. apply res_noent. by left. }
  destruct (d_negative ns (dentry path)) eqn:Eneg.
  { eapply walked_error; try done. rewrite Hcs. apply res_noent. by right. }
  destruct (decide (i_type di = S_IFDIR)) as [Edir | Edir].
  2: { destruct (i_type di) eqn:Et; try done; (eapply walked_error; try done; rewrite Hcs;
       eapply res_notdir; [exact Edi | done | by rewrite Et]). }
  rewrite Edir. destruct (follow_mount_spec own path Hv) as (q & -> & Hq & Hcr).
  destruct (Z.eqb_spec (permission ns di) 0) as [Eperm | Eperm]; cbn [negb].
  2: { eapply walked_error; try done. rewrite Hcs. by apply res_denied. }
  assert (Hse : searches path q) by (exists di; done).
  destruct (has_flag flags LOOKUP_PARENT && (length r =? 0)%nat) eqn:Epar.
  { apply andb_true_iff in Epar as [Ep El]. apply Nat.eqb_eq, length_zero_iff_nil in El. apply Hnil in El.
    do 2 eexists. split; [reflexivity |]. split; [left; done |]. split; [rewrite Hcs, El; by apply res_parent |].
    by intros c [= <-]. }
  assert (Hlk : forall x, entry_of q name x -> looks_up flags path q name (components r) x).
  { intros x Hx. split_and!; [done | done |]. intros [Ep El]. apply Hnil in El. by rewrite Ep, El in Epar. }
  destruct (step_component_spec own q name Hq) as (x & -> & Hen & Hx). apply Hlk in Hen.
  destruct x as [err | cp].
  { eapply walked_error; try done; [multiset_solver |]. rewrite Hcs. by eapply res_error. }
  pose proof (onward_spec flags own n depth path q p name r cp IH Hq Hx Hd (fuel_rest _ _ _ _ Hlen Hf) Hcs Hnil Hen)
    as Honward.
  destruct (d_inode ns (dentry cp)) as [[[] lk] |] eqn:Ecp; try (apply Honward; intros l Hl; unfold is_link in Hl; congruence).
  assert (Hil : is_link cp lk) by done. clear Hlk.
  assert (Hput : fs_path_put (own ⊎ refs_of q ⊎ refs_of cp) cp = Ret (own ⊎ refs_of q)) by (by apply path_put_valid).
  destruct (has_flag flags LOOKUP_NO_SYMLINKS) eqn:Enl.
  { rewrite Hput. eapply walked_error; try done. rewrite Hcs. by eapply res_no_links. }
  destruct (negb (length r =? 0)%nat || has_flag flags LOOKUP_FOLLOW) eqn:Efo.
  2: { apply orb_false_iff in Efo as [El Efo]. apply negb_false_iff, Nat.eqb_eq, length_zero_iff_nil in El.
       apply Honward. intros l _. done. }
  assert (Hfo : followed flags (components r)).
  { split; [done |]. apply orb_true_iff in Efo as [El | ?]; [left | by right]. rewrite <- Hnil. intros ->. done. }
  pose proof (read_link_spec depth (dentry cp) _ r Ecp eq_refl) as Hrl.
  destruct (read_link (mk_inode S_IFLNK lk) depth r) as [err | [target combined]].
  { destruct Hrl as [Herr Hrl]. rewrite Hput. eapply walked_error; try done. rewrite Hcs.
    destruct Hrl as [[? ->] | [? Hrl]]; [by eapply res_loop | by eapply res_bad_link]. }
  destruct Hrl as (Hdm & Htne & Hcc & Hclen & Hhd & b & Hb & Ht). simpl in Hb. subst lk. rewrite Hput.
  assert (Hpn : p <> []) by (by intros ->). subst target.
  assert (Hrun : forall start s, valid start -> components s = components combined -> (length s <= length combined)%nat ->
    start = (if hd 0 (cstring b) =? SLASH then task_root ns else q) ->
    walked own flags depth path p (path_walk_loop ns (own ⊎ refs_of start) start s name flags (depth + 1) n)).
  { intros start s Hst Hs Hsl' Est. eapply walked_step.
    - apply IH; [done | lia |]. eapply fuel_link; [| | exact Hpn | exact Hf]; lia.
    - intros err e o He. rewrite Hcs. eapply res_link; try done. rewrite <- Est, <- Hcc, <- Hs. exact He. }
  destruct (Z.eqb_spec (hd 0 (cstring b)) SLASH) as [Eh | Eh]; [| by apply Hrun].
  rewrite path_put_valid by done. unfold path_init. rewrite Hhd, Eh, Z.eqb_refl.
  destruct (ok_task _ Hns) as [Hroot _]. rewrite path_get_valid by done.
  destruct combined as [| h combined]; simpl in Hhd; [rewrite Eh in Hhd; done |].
  apply Hrun; [done | | simpl; lia | done]. simpl tl.
  assert (h = SLASH) as -> by congruence. by rewrite components_slash.
Qed.

(** ** Absolute paths *)

(** The names on the way from the root of the namespace, [n] steps up. *)
Inductive above : nat -> fs_path -> list (list Z) -> Prop :=
| above_top cur : (dentry cur = m_root ns (mnt cur) -> m_parent ns (mnt cur) = 0 \/ m_parent ns (mnt cur) = mnt cur) ->
    d_parent ns (dentry cur) = dentry cur -> above 0 cur []
| above_mount n cur names : dentry cur = m_root ns (mnt cur) -> m_parent ns (mnt cur) <> 0 ->
    m_parent ns (mnt cur) <> mnt cur ->
    above n (mk_path (m_parent ns (mnt cur)) (m_point ns (mnt cur))) names -> above (S n) cur names
| above_name n cur names :
    (dentry cur = m_root ns (mnt cur) -> m_parent ns (mnt cur) = 0 \/ m_parent ns (mnt cur) = mnt cur) ->
    d_parent ns (dentry cur) <> dentry cur -> d_name ns (dentry cur) <> [] ->
    above n (mk_path (mnt cur) (d_parent ns (dentry cur))) names ->
    above (S n) cur (names ++ [d_name ns (dentry cur)]).

Definition text (names : list (list Z)) : list Z := mjoin (map (cons SLASH) names).

Lemma text_snoc names c : text (names ++ [c]) = text names ++ SLASH :: c.
Proof. unfold text. rewrite map_app, join_app. cbn [map mjoin list_join]. by rewrite app_nil_r. Qed.

Lemma at_top cur : (dentry cur = m_root ns (mnt cur) -> m_parent ns (mnt cur) = 0 \/ m_parent ns (mnt cur) = mnt cur) ->
  (dentry cur =? m_root ns (mnt cur)) && negb (m_parent ns (mnt cur) =? 0) &&
    negb (mnt cur =? m_parent ns (mnt cur)) = false.
Proof.
  intros H. destruct (Z.eqb_spec (dentry cur) (m_root ns (mnt cur))) as [E |]; [| done]. cbn [andb].
  destruct (H E) as [-> | ->]; [done |]. rewrite Z.eqb_refl. apply andb_false_r.
Qed.

(** Text written in front of the rest of a buffer. *)
Lemma prepend (buf name : list Z) pos : 0 <= pos <= Z.of_nat (length buf) -> Z.of_nat (length name) + 1 <= pos ->
  exists b1 b2, wr_slice buf (pos - Z.of_nat (length name)) name = Ret b1 /\
    wr b1 (pos - Z.of_nat (length name) - 1) SLASH = Ret b2 /\ length b2 = length buf /\
    drop (Z.to_nat (pos - Z.of_nat (length name) - 1)) b2 = SLASH :: name ++ drop (Z.to_nat pos) buf.
Proof.
  intros Hpos Hfit. set (i := Z.to_nat (pos - Z.of_nat (length name) - 1)).
  assert (Hi : Z.to_nat (pos - Z.of_nat (length name)) = S i) by lia.
  unfold wr_slice. rewrite decide_True by lia. rewrite Hi. replace (S i + length name)%nat with (Z.to_nat pos) by lia.
  set (b1 := take (S i) buf ++ name ++ drop (Z.to_nat pos) buf).
  assert (Hl1 : length b1 = length buf).
  { unfold b1. rewrite !length_app, length_take, length_drop. lia. }
  exists b1. rewrite wr_in_range by lia. eexists. split; [done |]. split; [reflexivity |]. fold i.
  rewrite length_insert. split; [done |].
  rewrite (drop_S _ SLASH) by (apply list_lookup_insert_eq; lia). f_equal.
  rewrite drop_insert_lt by lia. unfold b1. rewrite drop_app_length'; [done | rewrite length_take; lia].
Qed.

Lemma abs_loop_spec own k cur names : above k cur names -> valid cur ->
  forall buf pos fuel, 0 <= pos <= Z.of_nat (length buf) -> (k < fuel)%nat ->
  exists buf' r, abs_loop ns (own ⊎ refs_of cur) cur buf pos fuel = Ret (own, buf', r) /\ length buf' = length buf /\
    r = (if Z.of_nat (length (text names)) <=? pos then Some (pos - Z.of_nat (length (text names))) else None) /\
    (Z.of_nat (length (text names)) <= pos ->
       drop (Z.to_nat (pos - Z.of_nat (length (text names)))) buf' = text names ++ drop (Z.to_nat pos) buf).
Proof.
  induction 1 as [cur Htop Hself | k cur names Hroot Hp0 Hp Hab IH | k cur names Htop Hself Hne Hab IH];
    intros Hv buf pos fuel Hpos Hf; (destruct fuel as [| fuel]; [lia |]); cbn [abs_loop].
  - rewrite at_top, Hself, Z.eqb_refl, orb_true_r, path_put_valid by done.
    exists buf, (Some pos). cbn [text map mjoin list_join length app]. destruct (Z.leb_spec (Z.of_nat 0) pos); [| lia].
    split_and!; [done | done | f_equal; lia |]. intros _. f_equal. lia.
  - rewrite <- Hroot, Z.eqb_refl. destruct (Z.eqb_spec (m_parent ns (mnt cur)) 0); [done |].
    destruct (Z.eqb_spec (mnt cur) (m_parent ns (mnt cur))); [congruence |]. cbn [negb andb].
    destruct (ok_parent _ Hns (mnt cur) Hp0 Hp) as [_ Hpt].
    set (p := mk_path (m_parent ns (mnt cur)) (m_point ns (mnt cur))) in *.
    rewrite (path_put_in (own ⊎ refs_of p)) by (done || (unfold get, refs_of, p; cbn [mnt dentry]; multiset_solver)).
    apply IH; [by split | done | lia].
  - rewrite at_top by done. pose proof (ok_dparent _ Hns (dentry cur) (proj2 Hv)) as Hd0.
    destruct (Z.eqb_spec (d_parent ns (dentry cur)) 0); [done |].
    destruct (Z.eqb_spec (dentry cur) (d_parent ns (dentry cur))); [congruence |]. cbn [orb].
    set (name := d_name ns (dentry cur)) in *. rewrite text_snoc, length_app. cbn [length].
    destruct (Z.eqb_spec (Z.of_nat (length name)) 0) as [E |]; [destruct name; [done | simpl in E; lia] |].
    destruct (Z.ltb_spec pos (Z.of_nat (length name) + 1)) as [Hlong | Hfit].
    { rewrite path_put_valid by done. exists buf, None. split_and!; [done | done | | lia].
      destruct (Z.leb_spec (Z.of_nat (length (text names) + S (length name))) pos); [lia | done]. }
    destruct (prepend buf name pos Hpos Hfit) as (b1 & b2 & -> & -> & Hl2 & Hd2).
    set (p := mk_path (mnt cur) (d_parent ns (dentry cur))) in *.
    rewrite (path_put_in (own ⊎ refs_of p)) by (done || (unfold get, refs_of, p; cbn [mnt dentry]; multiset_solver)).
    destruct (IH ltac:(split; [apply Hv | done]) b2 (pos - Z.of_nat (length name) - 1) fuel) as (b & r & -> & Hb & Hr & Ht);
      [lia | lia |].
    exists b, r. split_and!; [done | lia | |].
    + rewrite Hr. destruct (Z.leb_spec (Z.of_nat (length (text names))) (pos - Z.of_nat (length name) - 1)),
        (Z.leb_spec (Z.of_nat (length (text names) + S (length name))) pos); try lia; [f_equal; lia | done].
    + intros Hlen.
      replace (pos - Z.of_nat (length (text names) + S (length name)))
        with (pos - Z.of_nat (length name) - 1 - Z.of_nat (length (text names))) by lia.
      rewrite Ht, Hd2, <- app_assoc by lia. done.
Qed.

End Resolution.

(** ** Properties *)

(** [skip_component] gives the first of the pieces between the slashes
    and a rest that holds the other pieces, which is empty exactly when there
    is none. *)
Theorem skip_component_correct p :
  match skip_component p with
  | None => components p = []
  | Some (c, r) => components p = c :: components r /\ c <> [] /\ (SLASH ∉ c) /\
      (length r < length p)%nat /\ (r = [] <-> components r = [])
  end.
Proof. apply skip_component_spec. Qed.

Definition start_of (ns : namespace) (dirfd : Z) (name : list Z) : Z + fs_path :=
  if hd 0 name =? SLASH then inr (task_root ns)
  else if dirfd =? AT_FDCWD then inr (task_cwd ns)
  else match task_file ns dirfd with inl err => inl err | inr (_, p) => inr p end.

Lemma path_init_spec ns rank own dirfd name : ns_ok ns rank ->
  exists own' q, path_init ns own dirfd name = Ret (own', start_of ns dirfd name, q) /\
    components q = components name /\ (length q <= length name)%nat /\
    match start_of ns dirfd name with
    | inl err => own' = own /\ err <> 0
    | inr p => own' = own ⊎ refs_of p /\ valid p
    end.
Proof.
  intros Hns. destruct (ok_task _ _ Hns) as (Hr & Hc & Hfile). unfold path_init, start_of.
  destruct (Z.eqb_spec (hd 0 name) SLASH) as [E | _].
  { rewrite path_get_valid by done. do 2 eexists. split; [reflexivity |].
    destruct name as [| c name]; [done |]. simpl in E. subst c. simpl tl. rewrite components_slash. simpl length.
    split_and!; [done | lia | done | done]. }
  destruct (dirfd =? AT_FDCWD).
  { rewrite path_get_valid by done. do 2 eexists. split; [reflexivity |]. done. }
  specialize (Hfile dirfd). destruct (task_file ns dirfd) as [err | [f p]].
  { do 2 eexists. split; [reflexivity |]. done. }
  rewrite path_get_valid by done. unfold get.
  replace (own ⊎ {[+ File f +]} ⊎ refs_of p) with ((own ⊎ refs_of p) ⊎ {[+ File f +]}) by multiset_solver.
  rewrite put_in. do 2 eexists. split; [reflexivity |]. done.
Qed.

(** C13: a lookup always returns, within its bound of turns and at most 40
    links.  Its result is the one the components of the name resolve to: [.] and
    [..], mount points and symbolic links included.  On success the caller holds
    one more reference to the path found, on any error exactly the references it
    held before, and no reference is dropped that the walk does not hold. *)
Theorem fs_path_lookup_at_correct ns rank own dirfd name flags :
  ns_ok ns rank ->
  exists e, fs_path_lookup_at ns own dirfd name flags = Ret e /\
    match start_of ns dirfd name with
    | inl err => e = mk_end own err null_path []
    | inr start => walk_ok own e /\
        exists o, resolves ns flags 0 start (components name) (w_err e) (w_path e) o /\
          forall c, o = Some c -> w_name e = c
    end.
Proof.
  intros Hns. unfold fs_path_lookup_at, path_lookup.
  destruct (path_init_spec ns rank own dirfd name Hns) as (own' & q & -> & Hc & Hl & Hst).
  destruct (start_of ns dirfd name) as [err | start].
  { destruct Hst as [-> _]. eexists. done. }
  destruct Hst as [-> Hv]. unfold path_walk.
  destruct (walk_loop_spec ns rank Hns flags own (S (walk_fuel q 0)) start q [] 0 Hv) as (e & o & -> & Hok & Hr & Ho);
    [by unfold MAXSYMLINKS | lia |].
  exists e. split; [done |]. split; [done |]. exists o. by rewrite <- Hc.
Qed.

(** [..] is the parent inside a mount, the parent of the mount point at
    the root of a mount, however many mounts are stacked there, and the root
    itself at the top of the namespace; the new path is referenced. *)
Theorem fs_path_dot_dot_correct ns rank own path :
  ns_ok ns rank -> valid path ->
  exists q, fs_path_dot_dot ns own path = Ret (own ⊎ refs_of q, q) /\ valid q /\ up ns path q.
Proof.
  intros Hns Hv. unfold fs_path_dot_dot. rewrite path_get_valid by done.
  apply (dot_dot_loop_spec ns rank Hns); [done |]. pose proof (ok_rank _ _ Hns (mnt path)). lia.
Qed.

(** What [fs_path_to_absolute] has to produce. *)
Definition absolute (names : list (list Z)) : list Z := match names with [] => [SLASH] | _ => text names end.

Lemma take_two (b : list Z) x y : (2 <= length b)%nat -> take 2 (<[1%nat := y]> (<[0%nat := x]> b)) = [x; y].
Proof. destruct b as [| b0 [| b1 b]]; simpl; intros; try lia. done. Qed.

Lemma text_nil names : text names = [] -> names = [].
Proof. destruct names; done. Qed.

(** The absolute path of an object [k] steps below the root of the
    namespace is its names from the root, each behind a slash, and a lone slash
    for the root: it is written NUL-terminated when it fits in the buffer and
    refused with [-ENAMETOOLONG] exactly when it does not. *)
Theorem fs_path_to_absolute_correct ns rank own path k names buf fuel :
  ns_ok ns rank -> valid path -> above ns k path names -> (k < fuel)%nat -> buf <> [] ->
  exists buf', length buf' = length buf /\
    if (length (absolute names) <? length buf)%nat
    then fs_path_to_absolute ns own path buf fuel = Ret (own, 0, buf') /\
         take (S (length (absolute names))) buf' = absolute names ++ [0]
    else fs_path_to_absolute ns own path buf fuel = Ret (own, - ENAMETOOLONG, buf').
Proof.
  intros Hns Hv Hab Hf Hbuf. unfold fs_path_to_absolute. destruct Hv as [Hm Hd].
  destruct (Z.eqb_spec (mnt path) 0); [done |]. destruct (Z.eqb_spec (dentry path) 0); [done |]. cbn [orb].
  assert (Hlen : (0 < length buf)%nat) by (destruct buf; simpl; [done | lia]).
  destruct (Z.eqb_spec (Z.of_nat (length buf)) 0); [lia |].
  rewrite wr_in_range by lia. set (i := Z.to_nat (Z.of_nat (length buf) - 1)). set (b0 := <[i := 0]> buf).
  assert (Hl0 : length b0 = length buf) by apply length_insert.
  assert (Hdr : drop i b0 = [0]).
  { unfold b0. rewrite (drop_S _ 0) by (apply list_lookup_insert_eq; lia). f_equal.
    apply drop_ge. rewrite length_insert. lia. }
  destruct (abs_loop_spec ns rank Hns own k path names Hab (conj Hm Hd) b0 (Z.of_nat (length buf) - 1) fuel)
    as (b & r & Hloop & Hb & Hr & Ht); [lia | done |].
  replace (get (get own (Mount (mnt path))) (Dentry (dentry path))) with (own ⊎ refs_of path)
    by (unfold get, refs_of; multiset_solver).
  rewrite Hloop. clear Hloop. fold i in Ht. rewrite Hdr in Ht.
  destruct (Z.leb_spec (Z.of_nat (length (text names))) (Z.of_nat (length buf) - 1)) as [Hfit | Hlong]; rewrite Hr.
  2: { exists b. split; [lia |]. unfold absolute. destruct names; [simpl in Hlong; lia |].
       destruct (Nat.ltb_spec (length (text (l :: names))) (length buf)); [lia | done]. }
  specialize (Ht Hfit). destruct (Z.eqb_spec (Z.of_nat (length buf) - 1 - Z.of_nat (length (text names)))
    (Z.of_nat (length buf) - 1)) as [E | E].
  - assert (names = []) as -> by (apply text_nil, length_zero_iff_nil; lia). simpl length.
    destruct (Z.ltb_spec (Z.of_nat (length buf)) 2) as [Hs | Hs].
    + exists b. split; [lia |]. destruct (Nat.ltb_spec 1 (length buf)); [lia | done].
    + rewrite wr_in_range by lia. rewrite wr_in_range by (rewrite length_insert; lia).
      exists (<[1%nat := 0]> (<[0%nat := SLASH]> b)). rewrite !length_insert. split; [lia |].
      destruct (Nat.ltb_spec 1 (length buf)); [| lia].
      split; [reflexivity |]. apply take_two. lia.
  - assert (Habs : absolute names = text names).
    { destruct names; [| done]. simpl in E. lia. }
    rewrite Habs. set (s := text names) in *.
    assert (Hj : Z.to_nat (Z.of_nat (length buf) - (Z.of_nat (length buf) - 1 - Z.of_nat (length s))) = S (length s)) by lia.
    rewrite rd_slice_ret by lia. rewrite Ht, Hj.
    rewrite (take_ge (s ++ [0])) by (rewrite length_app; simpl; lia).
    assert (Hsl : length (s ++ [0]) = S (length s)) by (rewrite length_app; simpl; lia).
    unfold wr_slice. rewrite decide_True by lia. exists ((s ++ [0]) ++ drop (length (s ++ [0])) b).
    split; [rewrite length_app, length_drop; lia |].
    destruct (Nat.ltb_spec (length s) (length buf)); [| lia]. split; [reflexivity |].
    by rewrite <- Hsl, take_app_length.
Qed.

(** ** Examples *)

(** [/a] (11), [/a/f] (12) and [/l] (13), a link to [/a], on one mount. *)
Definition demo_ns : namespace := {|
  d_parent d := if d =? 12 then 11 else if (d =? 11) || (d =? 13) then 10 else d;
  d_name d := if d =? 11 then [97] else if d =? 12 then [102] else if d =? 13 then [108] else [SLASH];
  d_inode d := if d =? 12 then Some (mk_inode S_IFOTHER None)
    else if d =? 13 then Some (mk_inode S_IFLNK (Some (inr [SLASH; 97]))) else Some (mk_inode S_IFDIR None);
  d_negative _ := false;
  d_mounted _ := false;
  d_lookup d n := if decide (d = 10 /\ n = [97]) then inr 11 else if decide (d = 11 /\ n = [102]) then inr 12
    else if decide (d = 10 /\ n = [108]) then inr 13 else inl (- ENOENT);
  m_root _ := 10;
  m_parent m := m;
  m_point _ := 10;
  m_lookup _ _ := None;
  permission _ := 0;
  task_root := mk_path 1 10;
  task_cwd := mk_path 1 11;
  task_file _ := inl (-9);
  mount_depth := 0
|}.

Lemma demo_ns_ok : ns_ok demo_ns (fun _ => O).
Proof.
  split; try done.
  - intros d Hd. cbn [d_parent demo_ns]. destruct (d =? 12); [done |]. by destruct ((d =? 11) || (d =? 13)).
  - intros d n. cbn [d_lookup demo_ns]. repeat case_decide; done.
  - intros d i err. cbn [d_inode demo_ns]. destruct (d =? 12); [by intros [= <-] |].
    destruct (d =? 13); by intros [= <-].
Qed.

(** [l/f] from the root, through the link. *)
Lemma fs_path_lookup_at_witness :
  exists e, fs_path_lookup_at demo_ns ∅ AT_FDCWD [SLASH; 108; SLASH; 102] LOOKUP_FOLLOW = Ret e /\
    w_path e = mk_path 1 12 /\ walk_ok ∅ e /\
    exists o, resolves demo_ns LOOKUP_FOLLOW 0 (mk_path 1 10) [[108]; [102]] (w_err e) (w_path e) o.
Proof.
  destruct (fs_path_lookup_at_correct demo_ns (fun _ => O) ∅ AT_FDCWD [SLASH; 108; SLASH; 102] LOOKUP_FOLLOW demo_ns_ok)
    as (e & He & Hok & o & Hr & _).
  exists e. split; [done |]. split; [| split; [done | by exists o]].
  assert (Hrun : match fs_path_lookup_at demo_ns ∅ AT_FDCWD [SLASH; 108; SLASH; 102] LOOKUP_FOLLOW with
    | Ret e => w_path e = mk_path 1 12 | Halt _ => False end) by (vm_compute; reflexivity).
  by rewrite He in Hrun.
Defined.

Lemma fs_path_dot_dot_witness :
  exists q, fs_path_dot_dot demo_ns ∅ (mk_path 1 12) = Ret (∅ ⊎ refs_of q, q) /\ valid q /\ up demo_ns (mk_path 1 12) q.
Proof. apply (fs_path_dot_dot_correct demo_ns (fun _ => O) ∅ (mk_path 1 12) demo_ns_ok). split; done. Defined.

(** [/a/f] in 8 bytes. *)
Lemma fs_path_to_absolute_witness :
  exists buf', length buf' = 8%nat /\
    fs_path_to_absolute demo_ns ∅ (mk_path 1 12) (replicate 8 7) 5 = Ret (∅, 0, buf') /\
    take 5 buf' = [SLASH; 97; SLASH; 102; 0].
Proof.
  refine (fs_path_to_absolute_correct demo_ns (fun _ => O) ∅ (mk_path 1 12) 2 [[97]; [102]] (replicate 8 7) 5
    demo_ns_ok _ _ _ _).
  - split; done.
  - apply (above_name demo_ns 1 (mk_path 1 12) [[97]]); try done.
    apply (above_name demo_ns 0 (mk_path 1 11) []); try done.
    apply above_top; [by right | done].
  - lia.
  - done.
Defined.
