(* ===== verification/PrintkRing.v ===== *)
(** * kern/printk.c: the kernel log ring

    The log is a ring of PRINTK_RING_BUFFER_SIZE bytes holding records, each a
    16-byte header and its text, padded to 8 bytes.  [head] and [tail] are
    positions that only grow; the byte of a position is at its low 16 bits.  A
    record never crosses the end of the array: a WRAP record, or a few zero
    bytes where no header fits, pads to it.  The ring's lock makes a store or a
    read one step. *)

From S2P Require Import Prelude.

Definition PRINTK_RING_BUFFER_SIZE : Z := 65536.
Definition PRINTK_RING_BUFFER_MASK : Z := PRINTK_RING_BUFFER_SIZE - 1.
Definition PRINTK_MAX_PAYLOAD : Z := 1024.
Definition PRINTK_LOG_MAGIC0 : Z := 0x5a.
Definition PRINTK_LOG_MAGIC1 : Z := 0xa5.
Definition PRINTK_FLAGS_WRAP : Z := 4.
Definition PRINTK_FLAGS_TRUNCATED : Z := 8.
Definition KERN_DEBUG : Z := 7.
Definition KERN_MAX : Z := KERN_DEBUG.
Definition KERN_DEFAULT : Z := 4.
Definition KERN_EMERG : Z := 0.
Definition EIO : Z := 5.
Definition EAGAIN : Z := 11.
Definition EINVAL : Z := 22.
Definition ENOSPC : Z := 28.

(** ** Data *)

Record printk_log_header : Set := mk_header {
  magic0 : Z; magic1 : Z; level : Z; flags : Z; len : Z; nsec : Z
}.

Record printk_ring_buffer : Set := mk_ring { buf : list Z; head : Z; tail : Z }.

Record printk_log_reader : Set := mk_reader { cursor : Z; pending_lost : Z }.

(** The header's bytes: two of magic, level, flags, [len] and [nsec]. *)
Definition header_bytes (h : printk_log_header) : list Z :=
  [magic0 h; magic1 h; level h; flags h] ++ le_enc 4 (len h) ++ le_enc 8 (nsec h).

Definition header_of (b : list Z) : printk_log_header :=
  mk_header (default 0 (b !! 0%nat)) (default 0 (b !! 1%nat)) (default 0 (b !! 2%nat))
    (default 0 (b !! 3%nat)) (le_dec (take 4 (drop 4 b))) (le_dec (drop 8 b)).

Definition sizeof_header : Z := 16.

Definition get_header (b : list Z) (off : Z) : res printk_log_header :=
  let! bytes := rd_slice b off sizeof_header in Ret (header_of bytes).

Definition put_header (b : list Z) (off : Z) (h : printk_log_header) : res (list Z) :=
  wr_slice b off (header_bytes h).

(** ** Operations *)

Definition printk_ring_off (seq : Z) : Z := u32 (Z.land seq PRINTK_RING_BUFFER_MASK).

Definition printk_record_total (len : Z) : Z := u32 (round_up (sizeof_header + len) 8).

Definition printk_header_valid (h : printk_log_header) : bool :=
  if negb (magic0 h =? PRINTK_LOG_MAGIC0) || negb (magic1 h =? PRINTK_LOG_MAGIC1) then false
  else if negb (Z.land (flags h) PRINTK_FLAGS_WRAP =? 0)
       then len h <=? PRINTK_RING_BUFFER_SIZE - sizeof_header
       else len h <=? PRINTK_MAX_PAYLOAD.

(** [total == 0 || total > SIZE || off + total > SIZE]. *)
Definition bad_total (off total : Z) : bool :=
  (total =? 0) || (PRINTK_RING_BUFFER_SIZE <? total) || (PRINTK_RING_BUFFER_SIZE <? off + total).

Definition printk_oldest_record_total (r : printk_ring_buffer) : res Z :=
  let off := printk_ring_off (tail r) in
  if PRINTK_RING_BUFFER_SIZE <? off + sizeof_header then Ret (PRINTK_RING_BUFFER_SIZE - off)
  else
    let! h := get_header (buf r) off in
    if negb (printk_header_valid h) then Ret (u32 (head r - tail r))
    else
      let total := printk_record_total (len h) in
      if bad_total off total then Ret (u32 (head r - tail r)) else Ret total.

Definition printk_drop_oldest (r : printk_ring_buffer) : res printk_ring_buffer :=
  if tail r =? head r then Ret r
  else
    let! step := printk_oldest_record_total r in
    if step =? 0 then Ret (mk_ring (buf r) (head r) (head r))
    else
      let t := u64 (tail r + step) in
      Ret (mk_ring (buf r) (head r) (if head r <? t then head r else t)).

(** [while (head - tail + need > SIZE)]. *)
Fixpoint drop_loop (r : printk_ring_buffer) (need : Z) (fuel : nat) : res printk_ring_buffer :=
  if PRINTK_RING_BUFFER_SIZE <? u64 (head r - tail r + need) then
    match fuel with
    | O => Halt Fuel
    | S f => let! r := printk_drop_oldest r in drop_loop r need f
    end
  else Ret r.

Definition printk_write_wrap (r : printk_ring_buffer) (off pad : Z) : res printk_ring_buffer :=
  let! b :=
    (if sizeof_header <=? pad then
       put_header (buf r) off (mk_header PRINTK_LOG_MAGIC0 PRINTK_LOG_MAGIC1 KERN_DEBUG
                                 PRINTK_FLAGS_WRAP (pad - sizeof_header) 0)
     else wr_slice (buf r) off (replicate (Z.to_nat pad) 0)) in
  Ret (mk_ring b (u64 (head r + pad)) (tail r)).

(** Every drop frees at least eight bytes of the ring. *)
Definition drop_fuel : nat := Z.to_nat 8193.

(** The record itself, at [off]. *)
Definition write_record (r : printk_ring_buffer) (off total lvl : Z) (text : list Z) (ln fl ns : Z)
    : res printk_ring_buffer :=
  let! b := put_header (buf r) off (mk_header PRINTK_LOG_MAGIC0 PRINTK_LOG_MAGIC1 lvl fl ln ns) in
  let! payload := rd_slice text 0 ln in
  let! b := wr_slice b (off + sizeof_header) payload in
  let used := sizeof_header + ln in
  let! b := (if used <? total then wr_slice b (off + used) (replicate (Z.to_nat (total - used)) 0)
             else Ret b) in
  Ret (mk_ring b (u64 (head r + total)) (tail r)).

Definition printk_log_store_locked (r : printk_ring_buffer) (lvl : Z) (text : list Z) (ln fl ns : Z)
    : res printk_ring_buffer :=
  let lvl := if KERN_MAX <? lvl then KERN_MAX else lvl in
  if ln =? 0 then Ret r
  else
    let '(ln, fl) := if PRINTK_MAX_PAYLOAD <? ln
                     then (PRINTK_MAX_PAYLOAD, Z.lor fl PRINTK_FLAGS_TRUNCATED) else (ln, fl) in
    let total := printk_record_total (u32 ln) in
    if PRINTK_RING_BUFFER_SIZE <? total then Ret r
    else
      let off := printk_ring_off (head r) in
      let pad := if PRINTK_RING_BUFFER_SIZE <? off + total then PRINTK_RING_BUFFER_SIZE - off else 0 in
      let need := pad + total in
      if PRINTK_RING_BUFFER_SIZE <? need then Ret r
      else
        let! r := drop_loop r need drop_fuel in
        let! (r, off) :=
          (if negb (pad =? 0) then
             let! r := printk_write_wrap r off pad in Ret (r, printk_ring_off (head r))
           else Ret (r, off)) in
        write_record r off total lvl text ln fl ns.

Definition printk_log_write (r : printk_ring_buffer) (lvl : Z) (text : list Z) (ln ns : Z)
    : res (printk_ring_buffer * Z) :=
  let '(ln, fl) := if PRINTK_MAX_PAYLOAD <? ln
                   then (PRINTK_MAX_PAYLOAD, PRINTK_FLAGS_TRUNCATED) else (ln, 0) in
  let! r := printk_log_store_locked r lvl text ln fl ns in
  Ret (r, ln).

(** [n] and [printk_buf] are what [vsnprintf] returned and left behind. *)
Definition vprintk_common (r : printk_ring_buffer) (lvl n : Z) (printk_buf : list Z) (ns : Z)
    : res printk_ring_buffer :=
  if 0 <? n then
    let '(ln, fl) := if PRINTK_MAX_PAYLOAD <=? n
                     then (PRINTK_MAX_PAYLOAD - 1, PRINTK_FLAGS_TRUNCATED) else (n, 0) in
    printk_log_store_locked r (u8 lvl) printk_buf ln fl ns
  else Ret r.

Inductive printk_log_start : Set := PRINTK_LOG_START_OLDEST | PRINTK_LOG_START_NEWEST.

Definition printk_log_reader_init (r : printk_ring_buffer) (start : printk_log_start) : printk_log_reader :=
  mk_reader (match start with PRINTK_LOG_START_NEWEST => head r | PRINTK_LOG_START_OLDEST => tail r end) 0.

(** What a read returns: its code, and the text, level, timestamp and flags it
    stored through the caller's pointers. *)
Record read_result : Set := mk_read { code : Z; out : option (list Z * Z * Z * Z) }.

Definition skip_corrupt (r : printk_ring_buffer) (rd : printk_log_reader) : printk_log_reader :=
  mk_reader (head r) (u64 (pending_lost rd + (head r - cursor rd))).

(** [for (;;)]. *)
Fixpoint read_loop (r : printk_ring_buffer) (rd : printk_log_reader) (size : Z) (fuel : nat)
    : res (printk_log_reader * read_result) :=
  match fuel with
  | O => Halt Fuel
  | S f =>
      if cursor rd =? head r then Ret (rd, mk_read 0 None)
      else
        let off := printk_ring_off (cursor rd) in
        if PRINTK_RING_BUFFER_SIZE <? off + sizeof_header then
          read_loop r (mk_reader (u64 (cursor rd + (PRINTK_RING_BUFFER_SIZE - off))) (pending_lost rd)) size f
        else
          let! h := get_header (buf r) off in
          if negb (printk_header_valid h) then Ret (skip_corrupt r rd, mk_read (- EIO) None)
          else
            let total := printk_record_total (len h) in
            if bad_total off total || (head r <? u64 (cursor rd + total))
            then Ret (skip_corrupt r rd, mk_read (- EIO) None)
            else
              let next := mk_reader (u64 (cursor rd + total)) (pending_lost rd) in
              if negb (Z.land (flags h) PRINTK_FLAGS_WRAP =? 0) then read_loop r next size f
              else if size <? len h + 1 then Ret (next, mk_read (- ENOSPC) None)
              else
                let! text := rd_slice (buf r) (off + sizeof_header) (len h) in
                Ret (next, mk_read (len h) (Some (text, level h, nsec h, flags h)))
  end.

(** [contended]: a try-lock read that finds the lock taken. *)
Definition printk_log_read_common (r : printk_ring_buffer) (rd : printk_log_reader) (size : Z)
    (contended : bool) : res (printk_log_reader * read_result) :=
  if size =? 0 then Ret (rd, mk_read (- EINVAL) None)
  else if contended then Ret (rd, mk_read (- EAGAIN) None)
  else
    let rd := if cursor rd <? tail r
              then mk_reader (tail r) (u64 (pending_lost rd + (tail r - cursor rd))) else rd in
    read_loop r rd size (S drop_fuel).

Definition printk_log_read (r : printk_ring_buffer) (rd : printk_log_reader) (size : Z)
    : res (printk_log_reader * read_result) := printk_log_read_common r rd size false.

Definition printk_log_read_try (r : printk_ring_buffer) (rd : printk_log_reader) (size : Z)
    (contended : bool) : res (printk_log_reader * read_result) := printk_log_read_common r rd size contended.

(** ** Abstraction: the log as a sequence of records *)

Record rec : Set := mk_rec { r_text : list Z; r_level : Z; r_nsec : Z; r_flags : Z }.

Inductive frame : Set := FRec (r : rec) | FWrap (pad : Z) | FTiny (pad : Z).

Abbreviation llen l := (Z.of_nat (length l)).

Definition rtotal (n : Z) : Z := (n + 23) / 8 * 8.

Definition fsize (f : frame) : Z :=
  match f with FRec r => rtotal (llen (r_text r)) | FWrap p | FTiny p => p end.

Definition hdr (r : rec) : printk_log_header :=
  mk_header PRINTK_LOG_MAGIC0 PRINTK_LOG_MAGIC1 (r_level r) (r_flags r) (llen (r_text r)) (r_nsec r).

Definition wrap_hdr (p : Z) : printk_log_header :=
  mk_header PRINTK_LOG_MAGIC0 PRINTK_LOG_MAGIC1 KERN_DEBUG PRINTK_FLAGS_WRAP (p - 16) 0.

(** A record that can be in the ring. *)
Definition rec_ok (r : rec) : Prop :=
  0 < llen (r_text r) <= 1024 /\ Z.land (r_flags r) PRINTK_FLAGS_WRAP = 0.

Definition frame_at (b : list Z) (off : Z) (f : frame) : Prop :=
  match f with
  | FRec r => rec_ok r /\ off + fsize f <= 65536 /\ get_header b off = Ret (hdr r) /\
      rd_slice b (off + 16) (llen (r_text r)) = Ret (r_text r)
  | FWrap p => 16 <= p /\ p mod 8 = 0 /\ off + p = 65536 /\ get_header b off = Ret (wrap_hdr p)
  | FTiny p => 0 < p < 16 /\ p mod 8 = 0 /\ off + p = 65536
  end.

Fixpoint frames (b : list Z) (pos : Z) (fs : list frame) (e : Z) : Prop :=
  match fs with
  | [] => pos = e
  | f :: fs' => frame_at b (pos mod 65536) f /\ frames b (pos + fsize f) fs' e
  end.

(** The bytes of the ring that frames take, and what a record of [ln] bytes
    needs at the head: its own room and the padding to the end of the ring when
    it does not fit before it. *)
Fixpoint space (fs : list frame) : Z :=
  match fs with
  | [] => 0
  | f :: fs' => fsize f + space fs'
  end.

Definition needed (r : printk_ring_buffer) (ln : Z) : Z :=
  let off := head r mod PRINTK_RING_BUFFER_SIZE in
  (if PRINTK_RING_BUFFER_SIZE <? off + rtotal ln then PRINTK_RING_BUFFER_SIZE - off else 0) + rtotal ln.

Record ring_inv (r : printk_ring_buffer) (fs : list frame) : Prop := {
  ri_len : length (buf r) = Z.to_nat 65536;
  ri_pos : 0 <= tail r /\ tail r <= head r <= tail r + 65536;
  ri_align : tail r mod 8 = 0;
  ri_room : head r < 2 ^ 64 - 2 ^ 20;
  ri_frames : frames (buf r) (tail r) fs (head r)
}.

(** The records, oldest first. *)
Fixpoint recs (fs : list frame) : list rec :=
  match fs with
  | [] => []
  | FRec r :: fs' => r :: recs fs'
  | _ :: fs' => recs fs'
  end.

(** ** Arithmetic of the layout *)

Lemma ring_off_val s : 0 <= s -> printk_ring_off s = s mod 65536.
Proof.
  intros. unfold printk_ring_off, PRINTK_RING_BUFFER_MASK, PRINTK_RING_BUFFER_SIZE.
  change (65536 - 1) with (2 ^ 16 - 1). rewrite land_ones_mod by lia.
  apply u32_small. change (2 ^ 16) with 65536. zdm.
Qed.

Lemma record_total_val n : 0 <= n <= 65536 -> printk_record_total n = rtotal n.
Proof.
  intros. unfold printk_record_total, sizeof_header, rtotal. change 8 with (2 ^ 3) at 1.
  rewrite round_up_spec by lia. change (2 ^ 3) with 8. rewrite u32_small by zdm. f_equal. f_equal. lia.
Qed.

Lemma rtotal_bounds n : 0 <= n -> n + 16 <= rtotal n < n + 24 /\ rtotal n mod 8 = 0.
Proof. intros. unfold rtotal. split; [zdm |]. apply Z.mod_mul. lia. Qed.

Lemma header_roundtrip h :
  0 <= len h < 2 ^ 32 -> 0 <= nsec h < 2 ^ 64 -> header_of (header_bytes h) = h.
Proof.
  intros Hl Hn. destruct h as [m0 m1 lv fl ln ns]. unfold header_of, header_bytes.
  cbn [magic0 magic1 level flags len nsec] in *.
  change (drop 4 ([m0; m1; lv; fl] ++ le_enc 4 ln ++ le_enc 8 ns)) with (le_enc 4 ln ++ le_enc 8 ns).
  change (drop 8 ([m0; m1; lv; fl] ++ le_enc 4 ln ++ le_enc 8 ns)) with (le_enc 8 ns).
  rewrite take_app_length' by (by rewrite length_le_enc). rewrite !le_roundtrip by (simpl; lia). done.
Qed.

Lemma header_bytes_length h : length (header_bytes h) = 16%nat.
Proof. unfold header_bytes. rewrite !length_app, !length_le_enc. done. Qed.

(** ** Writes outside a frame *)

Definition agree (b b' : list Z) (off n : Z) : Prop :=
  length b' = length b /\ forall i : nat, off <= Z.of_nat i < off + n -> b' !! i = b !! i.

Lemma frame_at_agree b b' off f : 0 <= off -> agree b b' off (fsize f) -> frame_at b off f -> frame_at b' off f.
Proof.
  intros Hoff [Hl Hi] Hf. destruct f as [r | p | p]; cbn [frame_at fsize] in *; [| | done].
  - destruct Hf as (H1 & H2 & H3 & H4). pose proof (rtotal_bounds (llen (r_text r)) ltac:(lia)).
    split_and!; try done.
    + rewrite <- H3. unfold get_header, sizeof_header. rewrite (rd_slice_ext b b'); try done.
      intros i Hi'. apply Hi. lia.
    + rewrite <- H4. apply rd_slice_ext; [done |]. intros i Hi'. apply Hi. lia.
  - destruct Hf as (H1 & H2 & H3 & H4). split_and!; try done.
    rewrite <- H4. unfold get_header, sizeof_header. rewrite (rd_slice_ext b b'); try done.
    intros i Hi'. apply Hi. lia.
Qed.

Lemma frame_bounds b off f : 0 <= off -> frame_at b off f ->
  0 < fsize f /\ fsize f mod 8 = 0 /\ off + fsize f <= 65536.
Proof.
  intros Hoff. destruct f as [r | p | p]; cbn [frame_at fsize].
  - intros ([H1 _] & H2 & _). pose proof (rtotal_bounds (llen (r_text r)) ltac:(lia)). lia.
  - intros (H1 & H2 & H3 & _). lia.
  - intros (H1 & H2 & H3). lia.
Qed.

(** A write into [[w, w + n)] of the free part of the ring leaves the frames
    alone. *)
Lemma frames_agree b b' t e w n fs : forall pos,
  frames b pos fs e -> 0 <= t <= pos -> pos <= e -> e <= w -> 0 <= n -> w + n <= t + 65536 ->
  w mod 65536 + n <= 65536 ->
  length b' = length b ->
  (forall i : nat, ~ (w mod 65536 <= Z.of_nat i < w mod 65536 + n) -> b' !! i = b !! i) ->
  frames b' pos fs e.
Proof.
  induction fs as [| f fs IH]; intros pos Hf Ht Hpe Hew Hn Hfit Hcross Hl Hi; [done |].
  destruct Hf as [Hf Hfs]. pose proof (Z.mod_pos_bound pos 65536 ltac:(lia)) as Hpm.
  pose proof (frame_bounds _ _ _ (proj1 Hpm) Hf) as (Hsz & _ & Hend).
  assert (Hle : pos + fsize f <= e).
  { clear -Hfs. revert Hfs. generalize (pos + fsize f). intros p. revert p.
    induction fs as [| g fs IH]; intros p H; simpl in H; [lia |]. destruct H as [Hg H].
    apply IH in H. pose proof (Z.mod_pos_bound p 65536 ltac:(lia)) as Hpm.
    apply frame_bounds in Hg; lia. }
  split.
  - apply (frame_at_agree b); [lia | | done]. split; [done |]. intros i Hii. apply Hi. intros Hw.
    pose proof (Z.div_mod pos 65536 ltac:(lia)). pose proof (Z.div_mod w 65536 ltac:(lia)). lia.
  - apply IH; try done; lia.
Qed.

Lemma frames_app b fs1 fs2 : forall pos e,
  frames b pos (fs1 ++ fs2) e <-> exists m, frames b pos fs1 m /\ frames b m fs2 e.
Proof.
  induction fs1 as [| f fs1 IH]; intros pos e; simpl.
  - split; [intros H; by exists pos | intros (m & -> & H); done].
  - rewrite IH. split.
    + intros [H1 (m & H2 & H3)]. eauto.
    + intros (m & [H1 H2] & H3). eauto.
Qed.

Lemma frames_space b fs : forall pos e, frames b pos fs e -> e - pos = space fs.
Proof.
  induction fs as [| f fs IH]; intros pos e; cbn [frames space]; [lia |].
  intros [_ H]. apply IH in H. lia.
Qed.

Lemma frames_le b fs : forall pos e, frames b pos fs e -> pos <= e /\ (pos mod 8 = 0 -> e mod 8 = 0).
Proof.
  induction fs as [| f fs IH]; intros pos e H; simpl in H; [subst; split; [lia | done] |].
  destruct H as [Hf H]. apply IH in H as [H1 H2].
  pose proof (Z.mod_pos_bound pos 65536 ltac:(lia)) as Hpm.
  pose proof (frame_bounds _ _ _ (proj1 Hpm) Hf) as (Hsz & Hm & _).
  split; [lia |]. intros Hp. apply H2. zdm.
Qed.

(** ** Scanning a frame *)

Lemma valid_rec r : rec_ok r -> printk_header_valid (hdr r) = true.
Proof.
  intros [H1 H2]. unfold printk_header_valid. cbn [hdr magic0 magic1 flags len].
  rewrite !Z.eqb_refl, H2. simpl. apply Z.leb_le. unfold PRINTK_MAX_PAYLOAD. lia.
Qed.

Lemma valid_wrap p : p <= 65536 -> printk_header_valid (wrap_hdr p) = true.
Proof.
  intros. unfold printk_header_valid, wrap_hdr. cbn [magic0 magic1 flags len]. simpl.
  apply Z.leb_le. unfold PRINTK_RING_BUFFER_SIZE, sizeof_header. lia.
Qed.

Lemma total_rec r : rec_ok r -> printk_record_total (len (hdr r)) = fsize (FRec r).
Proof. intros [H1 _]. cbn [hdr len fsize]. apply record_total_val. lia. Qed.

Lemma total_wrap p : 16 <= p <= 65536 -> p mod 8 = 0 -> printk_record_total (len (wrap_hdr p)) = p.
Proof. intros. cbn [wrap_hdr len]. rewrite record_total_val by lia. unfold rtotal. zdm. Qed.

Lemma bad_total_false off n : 0 <= off -> 0 < n -> off + n <= 65536 -> bad_total off n = false.
Proof. intros. unfold bad_total, PRINTK_RING_BUFFER_SIZE. bool_prop; try done; lia. Qed.

Lemma oldest_total r f fs : ring_inv r (f :: fs) -> printk_oldest_record_total r = Ret (fsize f).
Proof.
  intros [Hl [Ht0 Hp] Ha Hr [Hf _]]. unfold printk_oldest_record_total. rewrite ring_off_val by lia.
  pose proof (Z.mod_pos_bound (tail r) 65536 ltac:(lia)) as Hm.
  pose proof (frame_bounds _ _ _ (proj1 Hm) Hf) as (Hsz & _ & Hend).
  unfold PRINTK_RING_BUFFER_SIZE, sizeof_header.
  destruct f as [rc | p | p]; cbn [frame_at] in Hf.
  - destruct Hf as (H1 & H2 & -> & _). pose proof (rtotal_bounds (llen (r_text rc)) ltac:(destruct H1; lia)).
    cbn [fsize] in *. destruct (Z.ltb_spec 65536 (tail r mod 65536 + 16)); [lia |].
    rewrite valid_rec, total_rec by done. cbn [negb fsize]. rewrite bad_total_false by lia. done.
  - destruct Hf as (H1 & H2 & H3 & ->). cbn [fsize] in *.
    destruct (Z.ltb_spec 65536 (tail r mod 65536 + 16)); [lia |].
    rewrite valid_wrap, total_wrap by lia. cbn [negb]. rewrite bad_total_false by lia. done.
  - destruct Hf as (H1 & H2 & H3). cbn [fsize] in *.
    destruct (Z.ltb_spec 65536 (tail r mod 65536 + 16)); [f_equal; lia | lia].
Qed.

Lemma drop_oldest_spec r f fs : ring_inv r (f :: fs) ->
  exists r', printk_drop_oldest r = Ret r' /\ ring_inv r' fs /\ buf r' = buf r /\ head r' = head r /\
    tail r' = tail r + fsize f.
Proof.
  intros Hinv. pose proof Hinv as [Hl [Ht0 Hp] Ha Hr [Hf Hfs]].
  pose proof (Z.mod_pos_bound (tail r) 65536 ltac:(lia)) as Hm.
  pose proof (frame_bounds _ _ _ (proj1 Hm) Hf) as (Hsz & Hm8 & Hend).
  pose proof (frames_le _ _ _ _ Hfs) as [Hle _].
  unfold printk_drop_oldest. destruct (Z.eqb_spec (tail r) (head r)); [lia |].
  rewrite (oldest_total r f fs Hinv). destruct (Z.eqb_spec (fsize f) 0); [lia |].
  cbv zeta. rewrite u64_small by lia. destruct (Z.ltb_spec (head r) (tail r + fsize f)); [lia |].
  eexists. split; [reflexivity |]. split_and!; try done. split; simpl; try done; try lia. zdm.
Qed.

Lemma drop_loop_spec need : 0 < need <= 65536 -> forall fuel r fs,
  ring_inv r fs -> head r - tail r <= 8 * Z.of_nat fuel ->
  exists r' k, drop_loop r need fuel = Ret r' /\ ring_inv r' (drop k fs) /\
    buf r' = buf r /\ head r' = head r /\ head r' - tail r' + need <= 65536 /\
    (forall j, (j < k)%nat -> 65536 < space (drop j fs) + need).
Proof.
  intros Hneed fuel. induction fuel as [| fuel IH]; intros r fs Hinv Hfuel;
    pose proof Hinv as [Hl [Ht0 Hp] Ha Hr Hfs]; cbn [drop_loop];
    rewrite u64_small by lia; unfold PRINTK_RING_BUFFER_SIZE;
    destruct (Z.ltb_spec 65536 (head r - tail r + need)) as [Hgt | Hle].
  - lia.
  - exists r, 0%nat. rewrite drop_0. split_and!; try done. lia.
  - destruct fs as [| f fs]; [simpl in Hfs; lia |].
    destruct (drop_oldest_spec r f fs Hinv) as (r1 & -> & Hinv1 & Hb1 & Hh1 & Ht1).
    assert (8 <= fsize f).
    { destruct Hfs as [Hf _]. pose proof (Z.mod_pos_bound (tail r) 65536 ltac:(lia)) as Hm.
      apply frame_bounds in Hf as (? & ? & _); [zdm | lia]. }
    destruct (IH r1 fs Hinv1) as (r' & k & -> & Hinv' & Hb & Hh & Hfit & Hmin); [lia |].
    exists r', (S k). cbn [drop]. split_and!; try done; try congruence.
    intros [| j] Hj; cbn [drop]; [apply frames_space in Hfs; lia | apply Hmin; lia].
  - exists r, 0%nat. rewrite drop_0. split_and!; try done. lia.
Qed.

(** ** Writing a frame at the head *)

Lemma ring_extend r fs b' f :
  ring_inv r fs -> head r - tail r + fsize f <= 65536 -> head r + fsize f < 2 ^ 64 - 2 ^ 20 ->
  length b' = length (buf r) ->
  (forall i : nat, ~ (head r mod 65536 <= Z.of_nat i < head r mod 65536 + fsize f) -> b' !! i = buf r !! i) ->
  frame_at b' (head r mod 65536) f ->
  ring_inv (mk_ring b' (head r + fsize f) (tail r)) (fs ++ [f]).
Proof.
  intros [Hl [Ht0 Hp] Ha Hr Hfs] Hfit Hroom Hl' Hi Hf.
  pose proof (Z.mod_pos_bound (head r) 65536 ltac:(lia)) as Hm.
  pose proof (frame_bounds _ _ _ (proj1 Hm) Hf) as (Hsz & _ & Hend).
  split; cbn [buf head tail]; try lia; try done. apply frames_app. exists (head r). split; [| done].
  eapply (frames_agree (buf r) b' (tail r) (head r) (head r) (fsize f)); try done; lia.
Qed.

Lemma write_wrap_spec r fs :
  ring_inv r fs -> let pad := 65536 - head r mod 65536 in
  head r - tail r + pad <= 65536 -> head r + 2 ^ 17 < 2 ^ 64 - 2 ^ 20 ->
  exists r' f, printk_write_wrap r (head r mod 65536) pad = Ret r' /\ recs [f] = [] /\
    ring_inv r' (fs ++ [f]) /\ head r' = head r + pad /\ tail r' = tail r.
Proof.
  intros Hinv pad Hfit Hroom. pose proof Hinv as [Hl [Ht0 Hp] Ha Hr Hfs].
  pose proof (frames_le _ _ _ _ Hfs) as [_ Hm8]. specialize (Hm8 Ha).
  pose proof (Z.mod_pos_bound (head r) 65536 ltac:(lia)) as Hm.
  assert (Hpad8 : pad mod 8 = 0) by (unfold pad; zdm).
  assert (Hpad : 0 < pad <= 65536) by (unfold pad; lia).
  unfold printk_write_wrap, put_header, sizeof_header.
  set (f := if 16 <=? pad then FWrap pad else FTiny pad).
  assert (Hfs' : fsize f = pad) by (unfold f; destruct (16 <=? pad); done).
  assert (Hw : exists b', (if 16 <=? pad
      then wr_slice (buf r) (head r mod 65536) (header_bytes (wrap_hdr pad))
      else wr_slice (buf r) (head r mod 65536) (replicate (Z.to_nat pad) 0)) = Ret b' /\
    length b' = length (buf r) /\
    (forall i : nat, ~ (head r mod 65536 <= Z.of_nat i < head r mod 65536 + pad) -> b' !! i = buf r !! i) /\
    frame_at b' (head r mod 65536) f).
  { unfold f. destruct (Z.leb_spec 16 pad) as [Hbig | Hsmall].
    - destruct (wr_slice_ret (buf r) (header_bytes (wrap_hdr pad)) (head r mod 65536))
        as (b' & Hb & Hlb & Hib); [lia | rewrite header_bytes_length; unfold pad in *; lia |].
      exists b'. rewrite header_bytes_length in Hib. cbn [frame_at]. split_and!; try done.
      + intros i Hi. rewrite Hib, decide_False by lia. done.
      + unfold pad. ring.
      + unfold get_header, sizeof_header. rewrite (rd_slice_same _ _ _ _ _ Hb) by (by rewrite header_bytes_length).
        rewrite header_roundtrip by (cbn [wrap_hdr len nsec]; lia). done.
    - destruct (wr_slice_ret (buf r) (replicate (Z.to_nat pad) 0) (head r mod 65536))
        as (b' & Hb & Hlb & Hib); [lia | rewrite length_replicate; unfold pad in *; lia |].
      exists b'. rewrite length_replicate in Hib. cbn [frame_at]. split_and!; try done; try lia.
      intros i Hi. rewrite Hib, decide_False by lia. done. }
  destruct Hw as (b' & Hb & Hlb & Hib & Hfr).
  change (mk_header _ _ _ _ _ _) with (wrap_hdr pad). rewrite Hb. rewrite u64_small by lia.
  exists (mk_ring b' (head r + pad) (tail r)), f. split_and!; try done.
  - unfold f. by destruct (16 <=? pad).
  - rewrite <- Hfs'. apply ring_extend; rewrite ?Hfs'; try done; lia.
Qed.

Lemma write_record_spec r fs lvl text ln fl ns :
  ring_inv r fs -> 0 < ln <= 1024 -> ln <= llen text -> Z.land fl PRINTK_FLAGS_WRAP = 0 ->
  0 <= ns < 2 ^ 64 -> head r mod 65536 + rtotal ln <= 65536 ->
  head r - tail r + rtotal ln <= 65536 -> head r + 2 ^ 17 < 2 ^ 64 - 2 ^ 20 ->
  exists r', write_record r (head r mod 65536) (rtotal ln) lvl text ln fl ns = Ret r' /\
    ring_inv r' (fs ++ [FRec (mk_rec (take (Z.to_nat ln) text) lvl ns fl)]) /\
    head r' = head r + rtotal ln /\ tail r' = tail r.
Proof.
  intros Hinv Hln Htext Hfl Hns Hcross Hfit Hroom. pose proof Hinv as [Hl [Ht0 Hp] Ha Hr Hfs].
  pose proof (Z.mod_pos_bound (head r) 65536 ltac:(lia)) as Hm.
  pose proof (rtotal_bounds ln ltac:(lia)) as [Hrt _].
  set (off := head r mod 65536) in *. set (rc := mk_rec (take (Z.to_nat ln) text) lvl ns fl).
  assert (Hlr : llen (r_text rc) = ln) by (cbn [rc r_text]; rewrite length_take; lia).
  unfold write_record, put_header, sizeof_header.
  replace (mk_header _ _ _ _ _ _) with (hdr rc) by (unfold hdr; rewrite Hlr; done).
  destruct (wr_slice_ret (buf r) (header_bytes (hdr rc)) off) as (b1 & Hb1 & Hl1 & Hi1);
    [lia | rewrite header_bytes_length; lia |].
  rewrite header_bytes_length in Hi1. rewrite Hb1, rd_slice_ret, drop_0 by lia.
  change (take (Z.to_nat ln) text) with (r_text rc).
  destruct (wr_slice_ret b1 (r_text rc) (off + 16)) as (b2 & Hb2 & Hl2 & Hi2); [lia | lia |].
  rewrite Hb2.
  assert (Hpad : exists b3, (if 16 + ln <? rtotal ln
      then wr_slice b2 (off + (16 + ln)) (replicate (Z.to_nat (rtotal ln - (16 + ln))) 0) else Ret b2) = Ret b3 /\
    length b3 = length b2 /\
    forall i : nat, ~ (off + 16 + ln <= Z.of_nat i < off + rtotal ln) -> b3 !! i = b2 !! i).
  { destruct (Z.ltb_spec (16 + ln) (rtotal ln)); [| by exists b2].
    destruct (wr_slice_ret b2 (replicate (Z.to_nat (rtotal ln - (16 + ln))) 0) (off + (16 + ln)))
      as (b3 & Hb3 & Hl3 & Hi3); [lia | rewrite length_replicate; lia |].
    exists b3. rewrite length_replicate in Hi3. split_and!; try done.
    intros i Hi. rewrite Hi3, decide_False by lia. done. }
  destruct Hpad as (b3 & Hb3 & Hl3 & Hi3). cbv zeta. rewrite Hb3. rewrite u64_small by lia.
  eexists. split; [reflexivity |]. split; [| done].
  replace (rtotal ln) with (fsize (FRec rc)) by (cbn [fsize]; by rewrite Hlr).
  apply ring_extend; try done; cbn [fsize]; rewrite ?Hlr; try lia.
  - intros i Hi. fold off in Hi. rewrite Hi3, Hi2, Hi1 by lia. rewrite !decide_False by lia. done.
  - fold off. cbn [frame_at fsize]. rewrite Hlr. split_and!; try done.
    + unfold rec_ok. rewrite Hlr. split; [lia | done].
    + unfold get_header, sizeof_header. rewrite (rd_slice_ext b1 b3); [| lia |].
      * rewrite (rd_slice_same _ _ _ _ _ Hb1) by (by rewrite header_bytes_length).
        rewrite header_roundtrip; [done | cbn [hdr len]; rewrite Hlr; lia | done].
      * intros i Hi. rewrite Hi3, Hi2, decide_False by lia. done.
    + rewrite (rd_slice_ext b2 b3); [| lia |].
      * by apply (rd_slice_same b1 b2).
      * intros i Hi. apply Hi3. lia.
Qed.

Lemma ring_inv_room r fs : ring_inv r fs -> head r - tail r <= 65536 /\ 0 <= head r.
Proof. intros [_ [? ?] _ _ _]. lia. Qed.

Lemma recs_app fs1 fs2 : recs (fs1 ++ fs2) = recs fs1 ++ recs fs2.
Proof. induction fs1 as [| [] fs1 IH]; simpl; [done | by rewrite IH | done | done]. Qed.

(** Storing a record of at most PRINTK_MAX_PAYLOAD bytes. *)
Lemma store_spec r fs lvl text ln fl ns :
  ring_inv r fs -> 0 < ln <= 1024 -> ln <= llen text -> Z.land fl PRINTK_FLAGS_WRAP = 0 ->
  0 <= ns < 2 ^ 64 -> head r + 2 ^ 18 < 2 ^ 64 - 2 ^ 20 ->
  exists r' k gap, printk_log_store_locked r lvl text ln fl ns = Ret r' /\
    ring_inv r' (drop k fs ++ gap ++ [FRec (mk_rec (take (Z.to_nat ln) text) (Z.min lvl 7) ns fl)]) /\
    recs gap = [] /\ head r' = head r + needed r ln /\
    space (drop k fs) + needed r ln <= 65536 /\
    (forall j, (j < k)%nat -> 65536 < space (drop j fs) + needed r ln).
Proof.
  intros Hinv Hln Htext Hfl Hns Hroom. unfold printk_log_store_locked, PRINTK_MAX_PAYLOAD, PRINTK_RING_BUFFER_SIZE.
  pose proof (ring_inv_room _ _ Hinv) as [Hr1 Hr2]. pose proof (rtotal_bounds ln ltac:(lia)) as [Hrt _].
  destruct (Z.eqb_spec ln 0); [lia |]. destruct (Z.ltb_spec 1024 ln); [lia |].
  rewrite u32_small, record_total_val, ring_off_val by lia.
  destruct (Z.ltb_spec 65536 (rtotal ln)); [lia |].
  pose proof (Z.mod_pos_bound (head r) 65536 ltac:(lia)) as Hm.
  set (off := head r mod 65536) in *.
  set (pad := if 65536 <? off + rtotal ln then 65536 - off else 0).
  assert (Hneed : needed r ln = pad + rtotal ln) by done. rewrite Hneed.
  assert (Hpad : (pad = 0 /\ off + rtotal ln <= 65536) \/ (pad = 65536 - off /\ 0 < pad < 1048)).
  { unfold pad. destruct (Z.ltb_spec 65536 (off + rtotal ln)); [right | left]; lia. }
  cbv zeta. destruct (Z.ltb_spec 65536 (pad + rtotal ln)); [lia |].
  destruct (drop_loop_spec (pad + rtotal ln) ltac:(lia) drop_fuel r fs Hinv)
    as (r1 & k & -> & Hinv1 & Hb1 & Hh1 & Hfit1 & Hk); [unfold drop_fuel; lia |].
  pose proof (frames_space _ _ _ _ (ri_frames _ _ Hinv1)) as Hsp.
  replace (if KERN_MAX <? lvl then KERN_MAX else lvl) with (Z.min lvl 7)
    by (unfold KERN_MAX, KERN_DEBUG; bool_prop; lia).
  destruct (Z.eqb_spec pad 0) as [Hp0 | Hp0]; cbn [negb].
  - replace off with (head r1 mod 65536) by (by rewrite Hh1).
    destruct (write_record_spec r1 (drop k fs) (Z.min lvl 7) text ln fl ns)
      as (r' & -> & Hinv' & Hh' & Ht'); try done; try lia; [rewrite Hh1; fold off; lia |].
    exists r', k, []. split_and!; try done; lia.
  - destruct Hpad as [[? _] | [Hpad Hpad']]; [done |].
    replace off with (head r1 mod 65536) in Hpad |- * by (by rewrite Hh1). rewrite Hpad.
    destruct (write_wrap_spec r1 (drop k fs) Hinv1) as (r2 & f & -> & Hf & Hinv2 & Hh2 & Ht2); [lia | lia |].
    rewrite ring_off_val by lia.
    assert (Hz : head r2 mod 65536 = 0).
    { rewrite Hh2. pose proof (Z.div_mod (head r1) 65536 ltac:(lia)).
      replace (head r1 + _) with ((head r1 / 65536 + 1) * 65536) by lia. apply Z.mod_mul. lia. }
    destruct (write_record_spec r2 (drop k fs ++ [f]) (Z.min lvl 7) text ln fl ns)
      as (r' & -> & Hinv' & Hh' & Ht'); try done; try lia.
    exists r', k, [f]. rewrite <- app_assoc in Hinv'. split_and!; try done; try lia.
    intros j Hj. specialize (Hk j Hj). lia.
Qed.

(** ** Reading *)

(** The reader stands at the frame boundary before [suf]. *)
Definition reader_at (r : printk_ring_buffer) (rd : printk_log_reader) (suf : list frame) : Prop :=
  tail r <= cursor rd /\ frames (buf r) (cursor rd) suf (head r).

Lemma read_loop_spec r fs : ring_inv r fs -> forall suf rd size fuel,
  reader_at r rd suf -> 0 < size -> (length suf < fuel)%nat ->
  exists rd' res', read_loop r rd size fuel = Ret (rd', res') /\ pending_lost rd' = pending_lost rd /\
    match recs suf with
    | [] => code res' = 0 /\ out res' = None /\ reader_at r rd' []
    | rc :: rest => (exists suf', reader_at r rd' suf' /\ recs suf' = rest) /\
        res' = if size <? llen (r_text rc) + 1 then mk_read (- ENOSPC) None
               else mk_read (llen (r_text rc)) (Some (r_text rc, r_level rc, r_nsec rc, r_flags rc))
    end.
Proof.
  intros [Hl [Ht0 Hp] Ha Hr Hfs]. induction suf as [| f suf IH]; intros rd size [| fuel] [Hc Hsuf] Hsz Hfuel;
    try (simpl in Hfuel; lia); cbn [read_loop].
  { simpl in Hsuf. rewrite Hsuf, Z.eqb_refl. do 2 eexists. split; [reflexivity |].
    split_and!; try done. }
  pose proof Hsuf as [Hf Hrest]. pose proof (Z.mod_pos_bound (cursor rd) 65536 ltac:(lia)) as Hm.
  pose proof (frame_bounds _ _ _ (proj1 Hm) Hf) as (Hfsz & _ & Hend).
  pose proof (frames_le _ _ _ _ Hrest) as [Hle _].
  destruct (Z.eqb_spec (cursor rd) (head r)); [lia |]. rewrite ring_off_val by lia.
  unfold PRINTK_RING_BUFFER_SIZE, sizeof_header.
  destruct f as [rc | p | p]; cbn [frame_at fsize] in *.
  - destruct Hf as (Hok & H2 & -> & Htext).
    pose proof (rtotal_bounds (llen (r_text rc)) ltac:(destruct Hok; lia)) as [Hrt _].
    destruct (Z.ltb_spec 65536 (cursor rd mod 65536 + 16)); [lia |].
    rewrite valid_rec, total_rec by done. cbn [negb fsize]. rewrite bad_total_false by lia. cbn [orb].
    rewrite u64_small by lia. destruct (Z.ltb_spec (head r) (cursor rd + rtotal (llen (r_text rc)))); [lia |].
    cbn [hdr flags len level nsec]. rewrite (proj2 Hok), Z.eqb_refl. cbn [negb recs].
    destruct (size <? llen (r_text rc) + 1).
    + do 2 eexists. split; [reflexivity |]. split_and!; [done | | done].
      exists suf. split; [| done]. split; cbn [cursor]; [lia | done].
    + rewrite Htext. do 2 eexists. split; [reflexivity |]. split_and!; [done | | done].
      exists suf. split; [| done]. split; cbn [cursor]; [lia | done].
  - destruct Hf as (H1 & H2 & H3 & ->). destruct (Z.ltb_spec 65536 (cursor rd mod 65536 + 16)); [lia |].
    rewrite valid_wrap, total_wrap by lia. cbn [negb]. rewrite bad_total_false by lia. cbn [orb].
    rewrite u64_small by lia. destruct (Z.ltb_spec (head r) (cursor rd + p)); [lia |].
    cbn [wrap_hdr flags recs]. simpl (negb _). cbv iota.
    destruct (IH (mk_reader (cursor rd + p) (pending_lost rd)) size fuel) as (rd' & res' & -> & IH1 & IH2);
      [split; cbn [cursor]; [lia | done] | done | simpl in Hfuel; lia |].
    do 2 eexists. split; [reflexivity |]. done.
  - destruct Hf as (H1 & H2 & H3). destruct (Z.ltb_spec 65536 (cursor rd mod 65536 + 16)); [| lia].
    replace (65536 - cursor rd mod 65536) with p by lia. rewrite u64_small by lia. cbn [recs].
    destruct (IH (mk_reader (cursor rd + p) (pending_lost rd)) size fuel) as (rd' & res' & -> & IH1 & IH2);
      [split; cbn [cursor]; [lia | done] | done | simpl in Hfuel; lia |].
    do 2 eexists. split; [reflexivity |]. done.
Qed.

(** A frame takes at least eight bytes. *)
Lemma frames_count b fs : forall pos e, frames b pos fs e -> 8 * llen fs <= e - pos.
Proof.
  induction fs as [| f fs IH]; intros pos e H; simpl in H; [simpl; lia |].
  destruct H as [Hf H]. apply IH in H. pose proof (Z.mod_pos_bound pos 65536 ltac:(lia)) as Hm.
  apply frame_bounds in Hf as (H1 & H2 & _); [| lia]. assert (8 <= fsize f) by zdm. simpl length. lia.
Qed.

Lemma read_spec r fs rd suf size :
  ring_inv r fs -> reader_at r rd suf -> 0 < size ->
  exists rd' res', printk_log_read r rd size = Ret (rd', res') /\ pending_lost rd' = pending_lost rd /\
    match recs suf with
    | [] => code res' = 0 /\ out res' = None /\ reader_at r rd' []
    | rc :: rest => (exists suf', reader_at r rd' suf' /\ recs suf' = rest) /\
        res' = if size <? llen (r_text rc) + 1 then mk_read (- ENOSPC) None
               else mk_read (llen (r_text rc)) (Some (r_text rc, r_level rc, r_nsec rc, r_flags rc))
    end.
Proof.
  intros Hinv Hat Hsz. unfold printk_log_read, printk_log_read_common.
  destruct (Z.eqb_spec size 0); [lia |]. pose proof Hat as [Hc Hsuf].
  destruct (Z.ltb_spec (cursor rd) (tail r)); [lia |].
  apply (read_loop_spec r fs Hinv suf); try done.
  apply frames_count in Hsuf. pose proof (ring_inv_room _ _ Hinv). unfold drop_fuel. lia.
Qed.

Lemma recs_ok b fs : forall pos e, frames b pos fs e -> Forall rec_ok (recs fs).
Proof.
  induction fs as [| f fs IH]; intros pos e Hf; simpl; [constructor |]. destruct Hf as [Hf Hfs].
  destruct f; [constructor; [by destruct Hf |] | |]; by eapply IH.
Qed.

(** Reading [n] records one after the other into a buffer of [size] bytes. *)
Fixpoint read_many (r : printk_ring_buffer) (rd : printk_log_reader) (size : Z) (n : nat)
    : res (list read_result) :=
  match n with
  | O => Ret []
  | S n' =>
      let! (rd, x) := printk_log_read r rd size in
      let! l := read_many r rd size n' in
      Ret (x :: l)
  end.

Definition returns (rc : rec) : read_result :=
  mk_read (llen (r_text rc)) (Some (r_text rc, r_level rc, r_nsec rc, r_flags rc)).

(** The empty log. *)
Definition printk_ring : printk_ring_buffer := mk_ring (replicate (Z.to_nat 65536) 0) 0 0.

Lemma printk_ring_inv : ring_inv printk_ring [].
Proof. split; cbn [printk_ring buf head tail]; try lia; [apply length_replicate | done | done]. Qed.

(** ** Properties *)

(** C15: storing a message of at most PRINTK_MAX_PAYLOAD bytes appends one
    record with its text, level, timestamp and flags to the log, after padding
    when it does not fit before the end of the ring.  What the log loses is its
    first [k] frames (records and paddings), and [k] is the smallest number that makes room: what is
    kept fits beside the new record, and with one frame less dropped it would
    not.  *)
Theorem printk_store_appends r fs lvl text ln fl ns :
  ring_inv r fs -> 0 < ln <= PRINTK_MAX_PAYLOAD -> ln <= llen text ->
  Z.land fl PRINTK_FLAGS_WRAP = 0 -> 0 <= ns < 2 ^ 64 -> head r + 2 ^ 18 < 2 ^ 64 - 2 ^ 20 ->
  exists r' k gap, printk_log_store_locked r lvl text ln fl ns = Ret r' /\
    ring_inv r' (drop k fs ++ gap ++ [FRec (mk_rec (take (Z.to_nat ln) text) (Z.min lvl KERN_MAX) ns fl)]) /\
    recs gap = [] /\ head r' = head r + needed r ln /\
    space (drop k fs) + needed r ln <= PRINTK_RING_BUFFER_SIZE /\
    (forall j, (j < k)%nat -> PRINTK_RING_BUFFER_SIZE < space (drop j fs) + needed r ln).
Proof. apply store_spec. Qed.

Lemma printk_store_appends_witness :
  exists r' k gap, printk_log_store_locked printk_ring 9 [104; 105] 2 0 77 = Ret r' /\
    ring_inv r' (drop k [] ++ gap ++ [FRec (mk_rec [104; 105] 7 77 0)]) /\
    recs gap = [] /\ head r' = 0 + needed printk_ring 2 /\
    space (drop k []) + needed printk_ring 2 <= 65536 /\
    (forall j, (j < k)%nat -> 65536 < space (drop j []) + needed printk_ring 2).
Proof.
  apply (printk_store_appends printk_ring [] 9 [104; 105] 2 0 77 printk_ring_inv);
    [unfold PRINTK_MAX_PAYLOAD; lia | simpl; lia | done | lia | simpl; lia].
Defined.

(** C16: a reader that starts at the oldest record and has room for the
    longest message gets every record of the log back, in order and unchanged,
    and then 0. *)
Theorem printk_read_back r fs size :
  ring_inv r fs -> PRINTK_MAX_PAYLOAD < size ->
  read_many r (printk_log_reader_init r PRINTK_LOG_START_OLDEST) size (S (length (recs fs))) =
    Ret (map returns (recs fs) ++ [mk_read 0 None]).
Proof.
  intros Hinv Hsz. unfold PRINTK_MAX_PAYLOAD in Hsz.
  assert (Hgen : forall l rd suf, recs suf = l -> reader_at r rd suf -> Forall rec_ok l ->
    read_many r rd size (S (length l)) = Ret (map returns l ++ [mk_read 0 None])).
  { induction l as [| rc l IH]; intros rd suf Hrecs Hat Hok;
      destruct (read_spec r fs rd suf size Hinv Hat ltac:(lia)) as (rd' & res' & Hrd & _ & Hres);
      rewrite Hrecs in Hres.
    - cbn [length read_many]. rewrite Hrd. destruct Hres as (H1 & H2 & _). destruct res'. simpl in *. by subst.
    - destruct Hres as ((suf' & Hat' & Hrecs') & ->). apply list.Forall_cons in Hok as [Hrc Hok].
      change (length (rc :: l)) with (S (length l)). cbn [read_many map app]. rewrite Hrd.
      destruct (Z.ltb_spec size (llen (r_text rc) + 1)); [destruct Hrc; lia |].
      specialize (IH rd' suf' Hrecs' Hat' Hok). cbn [read_many] in IH. rewrite IH. done. }
  apply (Hgen (recs fs) _ fs); [done | |].
  - split; [simpl; lia | apply Hinv].
  - by eapply recs_ok, Hinv.
Qed.

Lemma printk_read_back_witness :
  exists r fs, printk_log_store_locked printk_ring 3 [104; 105] 2 0 77 = Ret r /\
    recs fs = [mk_rec [104; 105] 3 77 0] /\
    read_many r (printk_log_reader_init r PRINTK_LOG_START_OLDEST) 1025 (S (length (recs fs))) =
      Ret (map returns (recs fs) ++ [mk_read 0 None]).
Proof.
  destruct (store_spec printk_ring [] 3 [104; 105] 2 0 77 printk_ring_inv)
    as (r & k & gap & Hst & Hinv & Hgap & _); [lia | simpl; lia | done | lia | simpl; lia |].
  rewrite drop_nil in Hinv. exists r, (gap ++ [FRec (mk_rec [104; 105] 3 77 0)]).
  refine (conj Hst (conj _ (printk_read_back r _ 1025 Hinv _))).
  - rewrite recs_app, Hgap. reflexivity.
  - reflexivity.
Defined.

(** A reader whose position was overwritten resumes at the oldest record
    still in the log and adds exactly the bytes it missed to [pending_lost]. *)
Theorem printk_read_overrun r fs rd size :
  ring_inv r fs -> 0 < size -> 0 <= cursor rd < tail r -> 0 <= pending_lost rd ->
  pending_lost rd + tail r < 2 ^ 64 ->
  exists rd' res', printk_log_read r rd size = Ret (rd', res') /\
    pending_lost rd' = pending_lost rd + (tail r - cursor rd) /\
    match recs fs with
    | [] => res' = mk_read 0 None
    | rc :: rest => (exists suf, reader_at r rd' suf /\ recs suf = rest) /\
        res' = if size <? llen (r_text rc) + 1 then mk_read (- ENOSPC) None else returns rc
    end.
Proof.
  intros Hinv Hsz Hc Hp Hlost.
  set (rd0 := mk_reader (tail r) (pending_lost rd + (tail r - cursor rd))).
  assert (Hat : reader_at r rd0 fs) by (split; [simpl; lia | apply Hinv]).
  destruct (read_spec r fs rd0 fs size Hinv Hat Hsz) as (rd' & res' & Hrd & Hpl & Hres).
  exists rd', res'. split; [| split; [done |]].
  - rewrite <- Hrd. unfold printk_log_read, printk_log_read_common.
    destruct (Z.eqb_spec size 0); [lia |]. destruct (Z.ltb_spec (cursor rd) (tail r)); [| lia].
    rewrite u64_small by lia. cbn [rd0 cursor]. by rewrite Z.ltb_irrefl.
  - destruct (recs fs); [| done]. destruct Hres as (H1 & H2 & _). destruct res'. simpl in *. by subst.
Qed.

Lemma printk_read_overrun_witness :
  let r := mk_ring (replicate (Z.to_nat 65536) 0) 8 8 in
  exists rd' res', printk_log_read r (mk_reader 0 5) 100 = Ret (rd', res') /\
    pending_lost rd' = 5 + (8 - 0) /\ res' = mk_read 0 None.
Proof.
  apply (printk_read_overrun (mk_ring (replicate (Z.to_nat 65536) 0) 8 8) [] (mk_reader 0 5) 100);
    [| lia | simpl; lia | simpl; lia | simpl; lia].
  split; cbn [buf head tail]; try lia; [apply length_replicate | done | done].
Defined.
