(* ===== verification/Timekeeping.v ===== *)
(** * kern/clocksource.c, kern/timekeeper.c, kern/ktime.c: time

    A clock source is a counter with a frequency; the value its [read] returns
    is an argument ([cycles]) of the functions that call it, and so is the wall
    clock provider's answer.  [ktime_t] and the wall offset are signed 64-bit
    nanoseconds, monotonic time is unsigned.  Locks make each function one step,
    except [timekeeper_nanosleep], which is followed over the wake-ups it sees. *)

From S2P Require Import Prelude.

Definition NS_PER_SEC : Z := 1000000000.
Definition HZ : Z := 1000.
Definition TICK_NS : Z := NS_PER_SEC / HZ.
Definition EINTR : Z := 4.
Definition EAGAIN : Z := 11.
Definition EBUSY : Z := 16.
Definition ENODEV : Z := 19.
Definition EINVAL : Z := 22.

(** ** Clock sources *)

(** [cs_id] is the object's address; [valid] says that it has a name and a
    [read] function. *)
Record clocksource : Set := mk_cs { cs_id : Z; valid : bool; frequency : Z; rating : Z }.

Record cs_state : Set := mk_css { clocksources : list clocksource; current_clocksource : option clocksource }.

Definition clocksource_register (s : cs_state) (cs : clocksource) : cs_state * Z :=
  if negb (valid cs) || (frequency cs =? 0) then (s, - EINVAL)
  else if existsb (fun e => cs_id e =? cs_id cs) (clocksources s) then (s, - EBUSY)
  else (mk_css (clocksources s ++ [cs]) (current_clocksource s), 0).

Fixpoint best_loop (l : list clocksource) (best : option clocksource) : option clocksource :=
  match l with
  | [] => best
  | cs :: l' =>
      best_loop l' (match best with
                    | None => Some cs
                    | Some b => if rating b <? rating cs then Some cs else best
                    end)
  end.

Definition clocksource_select (s : cs_state) : cs_state * option clocksource :=
  let best := best_loop (clocksources s) None in
  (mk_css (clocksources s) best, best).

Definition clocksource_init (s : cs_state) : cs_state * Z :=
  let (s, cs) := clocksource_select s in
  match cs with None => (s, - ENODEV) | Some _ => (s, 0) end.

Definition clocksource_read_ns (cs : option clocksource) (cycles : Z) : Z :=
  match cs with
  | None => 0
  | Some c =>
      if frequency c =? 0 then 0
      else
        let sec := cycles / frequency c in
        let rem := cycles mod frequency c in
        u64 (u64 (sec * NS_PER_SEC) + u64 (rem * NS_PER_SEC) / frequency c)
  end.

Definition clocksource_get_frequency (cs : option clocksource) : Z :=
  match cs with Some c => frequency c | None => 0 end.

Definition clocksource_get_resolution_ns (cs : option clocksource) : Z :=
  match cs with
  | None => TICK_NS
  | Some c =>
      if frequency c =? 0 then TICK_NS
      else
        let r := u64 (NS_PER_SEC + frequency c - 1) / frequency c in
        if negb (r =? 0) then r else 1
  end.

(** ** Timekeeper *)

(** A wall clock provider: [can_set] says whether it has [set_ns]. *)
Record wall_clock_dev : Set := mk_wc { wc_id : Z; can_set : bool }.

Record timekeeper : Set := mk_tk {
  mono_base_ns : Z; wall_offset_ns : Z; jiffies : Z; initialized : bool; wall_valid : bool;
  wall_clock : option wall_clock_dev; tick_handlers : list Z
}.

Definition timekeeper_mono_ns (tk : timekeeper) (now : Z) : Z := u64 (now - mono_base_ns tk).

(** [now] is what [clocksource_read_ns()] returns. *)
Definition timekeeper_init (tk : timekeeper) (now : Z) : timekeeper :=
  mk_tk now 0 0 true false None (tick_handlers tk).

(** [read] is the result of the provider's [read_ns]: an error or a time. *)
Definition timekeeper_register_wall_clock (tk : timekeeper) (wc : option wall_clock_dev)
    (read : Z + Z) (now : Z) : timekeeper * Z :=
  match wc with
  | None => (tk, - EINVAL)
  | Some w =>
      if negb (initialized tk) then (tk, - EAGAIN)
      else
        match read with
        | inl err => (tk, err)
        | inr wall_ns =>
            let mono_ns := timekeeper_mono_ns tk now in
            match wall_clock tk with
            | Some _ => (tk, - EBUSY)
            | None =>
                let offset := if wall_valid tk then wall_offset_ns tk
                              else s64 (s64 wall_ns - s64 mono_ns) in
                (mk_tk (mono_base_ns tk) offset (jiffies tk) (initialized tk) true (Some w)
                   (tick_handlers tk), 0)
            end
        end
  end.

Definition timekeeper_unregister_wall_clock (tk : timekeeper) (wc : option wall_clock_dev) : timekeeper :=
  match wc, wall_clock tk with
  | Some w, Some w' =>
      if wc_id w =? wc_id w'
      then mk_tk (mono_base_ns tk) (wall_offset_ns tk) (jiffies tk) (initialized tk) (wall_valid tk)
             None (tick_handlers tk)
      else tk
  | _, _ => tk
  end.

Definition set_handlers (tk : timekeeper) (l : list Z) : timekeeper :=
  mk_tk (mono_base_ns tk) (wall_offset_ns tk) (jiffies tk) (initialized tk) (wall_valid tk) (wall_clock tk) l.

(** A handler is [registered] when it is on the list. *)
Definition timekeeper_register_tick_handler (tk : timekeeper) (th : option Z) : timekeeper * Z :=
  match th with
  | None => (tk, - EINVAL)
  | Some h =>
      if bool_decide (h ∈ tick_handlers tk) then (tk, - EBUSY)
      else (set_handlers tk (tick_handlers tk ++ [h]), 0)
  end.

Definition timekeeper_unregister_tick_handler (tk : timekeeper) (th : option Z) : timekeeper :=
  match th with
  | None => tk
  | Some h => set_handlers tk (filter (fun x => x <> h) (tick_handlers tk))
  end.

(** The handlers the tick calls, in order. *)
Definition timekeeper_tick (tk : timekeeper) : timekeeper * list Z :=
  (mk_tk (mono_base_ns tk) (wall_offset_ns tk) (u64 (jiffies tk + 1)) (initialized tk) (wall_valid tk)
     (wall_clock tk) (tick_handlers tk), tick_handlers tk).

Definition jiffies_get (tk : timekeeper) : Z := jiffies tk.

Definition timekeeper_real (tk : timekeeper) (now : Z) : Z :=
  s64 (s64 (timekeeper_mono_ns tk now) + wall_offset_ns tk).

(** [set_result] is what the provider's [set_ns] returns; the second result is
    the time the provider is given, if it is asked. *)
Definition timekeeper_set_real (tk : timekeeper) (ns now set_result : Z) : timekeeper * Z * option Z :=
  let mono_ns := timekeeper_mono_ns tk now in
  let tk' := mk_tk (mono_base_ns tk) (s64 (ns - s64 mono_ns)) (jiffies tk) (initialized tk) true
               (wall_clock tk) (tick_handlers tk) in
  match wall_clock tk with
  | Some w => if can_set w then (tk', set_result, Some (u64 ns)) else (tk', 0, None)
  | None => (tk', 0, None)
  end.

(** One turn of the sleep loop: whether the task is killed, and the clock. *)
Record wakeup : Set := mk_wakeup { killed : bool; clock : Z }.

(** [None]: still asleep after the wake-ups seen so far; otherwise the return
    value and what is stored through [rem]. *)
Fixpoint sleep_loop (tk : timekeeper) (deadline_ns : Z) (ws : list wakeup) : option (Z * Z) :=
  match ws with
  | [] => None
  | w :: ws' =>
      let now_ns := s64 (timekeeper_mono_ns tk (clock w)) in
      if killed w then
        let left_ns := s64 (deadline_ns - now_ns) in
        Some (- EINTR, if left_ns <? 0 then 0 else left_ns)
      else if deadline_ns <=? now_ns then Some (0, 0)
      else sleep_loop tk deadline_ns ws'
  end.

Definition timekeeper_nanosleep (tk : timekeeper) (dur start : Z) (ws : list wakeup) : option (Z * Z) :=
  let start_ns := s64 (timekeeper_mono_ns tk start) in
  sleep_loop tk (s64 (start_ns + dur)) ws.

(** ** kern/ktime.c *)

Definition ktime_get_real := timekeeper_real.
Definition ktime_set_real := timekeeper_set_real.

(** C division rounds towards zero. *)
Definition ktime_get_real_sec (tk : timekeeper) (now : Z) : Z := Z.quot (ktime_get_real tk now) NS_PER_SEC.

Definition ktime_get_boot_ns := timekeeper_mono_ns.
Definition ktime_nanosleep := timekeeper_nanosleep.

Record times : Set := mk_times { atime : Z; mtime : Z; ctime : Z }.

Definition inode_times_set_all_now (i : times) (now : Z) : times := mk_times now now now.

Definition inode_times_set (i : times) (at_ mt : option Z) : times :=
  mk_times (default (atime i) at_) (default (mtime i) mt) (ctime i).

Definition inode_touch_mtime (i : times) (now : Z) : times := mk_times (atime i) now (ctime i).
Definition inode_touch_ctime (i : times) (now : Z) : times := mk_times (atime i) (mtime i) now.
Definition inode_touch_mtime_ctime (i : times) (now : Z) : times := mk_times (atime i) now now.
Definition inode_times_to_kstat (i : times) : times := mk_times (atime i) (mtime i) (ctime i).

(** ** Lemmas *)

Lemma s64_small z : - 2 ^ 63 <= z < 2 ^ 63 -> s64 z = z.
Proof. intros. apply swrap_small; [lia |]. change (64 - 1) with 63. lia. Qed.

Lemma read_ns_exact c cycles :
  0 < frequency c < 2 ^ 32 -> 0 <= cycles -> cycles * NS_PER_SEC / frequency c < 2 ^ 64 ->
  clocksource_read_ns (Some c) cycles = cycles * NS_PER_SEC / frequency c.
Proof.
  intros Hf Hc Hfit. unfold clocksource_read_ns. destruct (Z.eqb_spec (frequency c) 0); [lia |].
  cbv zeta. set (F := frequency c) in *. unfold NS_PER_SEC in *.
  pose proof (Z.div_mod cycles F ltac:(lia)) as Hdm. pose proof (Z.mod_pos_bound cycles F ltac:(lia)) as Hm.
  set (q := cycles / F) in *. set (r := cycles mod F) in *. clearbody q r.
  assert (Hq : 0 <= q) by nia.
  assert (E : cycles * 1000000000 / F = q * 1000000000 + r * 1000000000 / F).
  { rewrite Hdm. replace ((F * q + r) * 1000000000) with (r * 1000000000 + q * 1000000000 * F) by lia.
    rewrite Z.div_add by lia. lia. }
  assert (0 <= r * 1000000000 / F) by (apply Z.div_pos; lia).
  rewrite E in Hfit |- *. assert (r * 1000000000 / F < 1000000000) by (apply Z.div_lt_upper_bound; lia).
  rewrite (u64_small (q * 1000000000)), (u64_small (r * 1000000000)), u64_small by (pow2; lia). done.
Qed.

(** The first source of the highest rating. *)
Definition first_best (l : list clocksource) (b : clocksource) : Prop :=
  exists l1 l2, l = l1 ++ b :: l2 /\ Forall (fun c => rating c < rating b) l1 /\
    Forall (fun c => rating c <= rating b) l2.

Lemma best_loop_spec l : forall b0, exists b, best_loop l (Some b0) = Some b /\ first_best (b0 :: l) b.
Proof.
  induction l as [| x l IH]; intros b0; cbn [best_loop].
  { exists b0. split; [done |]. exists [], []. split_and!; constructor. }
  destruct (Z.ltb_spec (rating b0) (rating x)) as [Hlt | Hge].
  - destruct (IH x) as (b & -> & l1 & l2 & Hl & H1 & H2). exists b. split; [done |].
    exists (b0 :: l1), l2. split_and!; [by rewrite Hl | | done]. constructor; [| done].
    destruct l1 as [| y l1]; simplify_eq/=; [lia |]. apply list.Forall_cons in H1 as [H1 _]. lia.
  - destruct (IH b0) as (b & -> & l1 & l2 & Hl & H1 & H2). exists b. split; [done |].
    destruct l1 as [| y l1]; simplify_eq/=.
    + exists [], (x :: l2). split_and!; [done | constructor | by constructor].
    + apply list.Forall_cons in H1 as [Hy H1]. exists (y :: x :: l1), l2.
      split_and!; [done | | done]. constructor; [done |]. constructor; [lia | done].
Qed.

(** ** Properties *)

(** Reading a clock source converts cycles to nanoseconds exactly, with no
    overflow in between, as long as the result fits: a later reading is never
    smaller. *)
Theorem clocksource_read_ns_correct c cycles cycles' :
  0 < frequency c < 2 ^ 32 -> 0 <= cycles <= cycles' -> cycles' * NS_PER_SEC / frequency c < 2 ^ 64 ->
  clocksource_read_ns (Some c) cycles = cycles * NS_PER_SEC / frequency c /\
  clocksource_read_ns (Some c) cycles <= clocksource_read_ns (Some c) cycles'.
Proof.
  intros Hf Hc Hfit.
  assert (Hle : cycles * NS_PER_SEC / frequency c <= cycles' * NS_PER_SEC / frequency c).
  { apply Z.div_le_mono; [lia |]. unfold NS_PER_SEC. lia. }
  rewrite !read_ns_exact by lia. done.
Qed.

Lemma clocksource_read_ns_witness :
  clocksource_read_ns (Some (mk_cs 1 true 10000000 100)) 25 = 25 * NS_PER_SEC / 10000000 /\
  clocksource_read_ns (Some (mk_cs 1 true 10000000 100)) 25 <=
    clocksource_read_ns (Some (mk_cs 1 true 10000000 100)) 90000000000000000.
Proof.
  apply (clocksource_read_ns_correct (mk_cs 1 true 10000000 100) 25 90000000000000000);
    [simpl; lia | lia | vm_compute; done].
Defined.

(** The selected clock source is the first registered one of the highest
    rating; none is selected only when none is registered. *)
Theorem clocksource_select_best s :
  match clocksource_select s with
  | (s', None) => clocksources s = [] /\ current_clocksource s' = None
  | (s', Some b) => first_best (clocksources s) b /\ current_clocksource s' = Some b
  end.
Proof.
  unfold clocksource_select. destruct (clocksources s) as [| x l] eqn:E; [done |]. cbn [best_loop].
  destruct (best_loop_spec l x) as (b & -> & Hb). done.
Qed.

(** Times of this kernel: below 2^62 nanoseconds, 146 years. *)
Definition sane (t : Z) : Prop := 0 <= t < 2 ^ 62.

Lemma mono_sane tk now : 0 <= mono_base_ns tk <= now -> sane (now - mono_base_ns tk) ->
  s64 (timekeeper_mono_ns tk now) = now - mono_base_ns tk.
Proof.
  intros Hb [H1 H2]. unfold timekeeper_mono_ns. rewrite u64_small by lia. apply s64_small. lia.
Qed.

(** Once the wall time is set to [ns], reading it [d] nanoseconds later
    gives [ns + d]; a provider that can be set is told the same time, and one
    that registers later does not change it. *)
Theorem timekeeper_set_real_correct tk ns now d sr wc read :
  0 <= mono_base_ns tk <= now -> sane (now + d - mono_base_ns tk) -> 0 <= d -> sane (ns + d) -> 0 <= ns ->
  let '(tk', r, told) := timekeeper_set_real tk ns now sr in
  timekeeper_real tk' (now + d) = ns + d /\
  (forall t, told = Some t -> t = ns) /\
  timekeeper_real (timekeeper_register_wall_clock tk' wc read (now + d)).1 (now + d) = ns + d.
Proof.
  intros Hb Hm Hd Hns Hn0. unfold timekeeper_set_real.
  set (tk' := mk_tk _ _ _ _ _ _ _).
  assert (Hreal : forall tk2, mono_base_ns tk2 = mono_base_ns tk -> wall_offset_ns tk2 = wall_offset_ns tk' ->
    timekeeper_real tk2 (now + d) = ns + d).
  { intros tk2 E1 E2. unfold timekeeper_real. rewrite E2. cbn [tk' wall_offset_ns].
    unfold sane in *. rewrite (mono_sane tk2), (mono_sane tk now); rewrite ?E1; unfold sane; try lia.
    rewrite (s64_small (ns - _)) by lia. rewrite s64_small by lia. lia. }
  assert (Htold : u64 ns = ns) by (unfold sane in *; apply u64_small; lia).
  assert (Hlate : timekeeper_real (timekeeper_register_wall_clock tk' wc read (now + d)).1 (now + d) = ns + d).
  { apply Hreal; unfold timekeeper_register_wall_clock;
      (destruct wc; [| done]; destruct (negb (initialized tk')); [done |]; destruct read; [done |];
       destruct (wall_clock tk'); done). }
  destruct (wall_clock tk) as [w |]; [destruct (can_set w) |]; (split; [by apply Hreal |]; split; [| done]).
  - intros t [= <-]. done.
  - done.
  - done.
Qed.

Lemma timekeeper_set_real_witness :
  let tk := mk_tk 1000 0 0 true false None [] in
  let '(tk', r, told) := timekeeper_set_real tk 1700000000000000000 5000 0 in
  timekeeper_real tk' (5000 + 70) = 1700000000000000000 + 70 /\
  (forall t, told = Some t -> t = 1700000000000000000) /\
  timekeeper_real (timekeeper_register_wall_clock tk' (Some (mk_wc 3 true)) (inr 16) (5000 + 70)).1
    (5000 + 70) = 1700000000000000000 + 70.
Proof.
  apply (timekeeper_set_real_correct (mk_tk 1000 0 0 true false None []) 1700000000000000000 5000 70 0
           (Some (mk_wc 3 true)) (inr 16)); unfold sane; simpl; lia.
Defined.

(** C40: a sleep of [dur] nanoseconds returns 0 only at a wake-up at or after
    its deadline, and -EINTR with the time left (never negative) at the first
    wake-up of a killed task; it does return once a wake-up past the deadline
    comes. *)
Theorem timekeeper_nanosleep_correct tk dur start ws :
  0 <= mono_base_ns tk <= start -> 0 <= dur -> sane (start + dur - mono_base_ns tk) ->
  Forall (fun w => start <= clock w /\ sane (clock w - mono_base_ns tk)) ws ->
  match timekeeper_nanosleep tk dur start ws with
  | None => Forall (fun w => killed w = false /\ clock w < start + dur) ws
  | Some (ret, rem) => exists w, w ∈ ws /\
      ((ret = 0 /\ rem = 0 /\ killed w = false /\ start + dur <= clock w) \/
       (ret = - EINTR /\ killed w = true /\ rem = Z.max 0 (start + dur - clock w)))
  end.
Proof.
  intros Hb Hd Hs Hws. unfold timekeeper_nanosleep.
  rewrite (mono_sane tk start), s64_small by (unfold sane in *; lia).
  induction ws as [| w ws IH]; cbn [sleep_loop]; [constructor |].
  apply list.Forall_cons in Hws as [[Hw1 Hw2] Hws].
  rewrite (mono_sane tk (clock w)) by (try done; lia).
  destruct (killed w) eqn:Hk.
  { exists w. split; [left |]. right. unfold sane in *. rewrite s64_small by lia.
    split_and!; try done. destruct (Z.ltb_spec (start - mono_base_ns tk + dur - (clock w - mono_base_ns tk)) 0); lia. }
  destruct (Z.leb_spec (start - mono_base_ns tk + dur) (clock w - mono_base_ns tk)) as [Hdue | Hwait].
  { exists w. split; [left |]. left. split_and!; try done. lia. }
  specialize (IH Hws). destruct (sleep_loop _ _ ws) as [[ret rem] |].
  - destruct IH as (w' & Hin & Hw'). exists w'. split; [by right | done].
  - constructor; [split; [done | lia] | done].
Qed.

Lemma timekeeper_nanosleep_witness :
  match timekeeper_nanosleep (mk_tk 0 0 0 true false None []) 100 50 [mk_wakeup false 60; mk_wakeup false 151] with
  | None => Forall (fun w => killed w = false /\ clock w < 50 + 100) [mk_wakeup false 60; mk_wakeup false 151]
  | Some (ret, rem) => exists w, w ∈ [mk_wakeup false 60; mk_wakeup false 151] /\
      ((ret = 0 /\ rem = 0 /\ killed w = false /\ 50 + 100 <= clock w) \/
       (ret = - EINTR /\ killed w = true /\ rem = Z.max 0 (50 + 100 - clock w)))
  end.
Proof.
  apply (timekeeper_nanosleep_correct (mk_tk 0 0 0 true false None []) 100 50
           [mk_wakeup false 60; mk_wakeup false 151]); unfold sane; simpl; try lia.
  repeat constructor; simpl; lia.
Defined.

(** ** Tick handlers *)

Inductive tick_op : Set := Register (h : Z) | Unregister (h : Z) | Tick.

#[export] Instance tick_op_eq_dec : EqDecision tick_op.
Proof. solve_decision. Defined.

Definition tick_step (tk : timekeeper) (op : tick_op) : timekeeper :=
  match op with
  | Register h => (timekeeper_register_tick_handler tk (Some h)).1
  | Unregister h => timekeeper_unregister_tick_handler tk (Some h)
  | Tick => (timekeeper_tick tk).1
  end.

(** Whatever handlers come and go, no handler is on the list twice: a tick
    calls each registered handler exactly once, in the order of registration,
    and counts one jiffy. *)
Theorem tick_handlers_once ops tk :
  NoDup (tick_handlers tk) -> 0 <= jiffies tk -> jiffies tk + Z.of_nat (length ops) < 2 ^ 64 ->
  let tk' := fold_left tick_step ops tk in
  NoDup (timekeeper_tick tk').2 /\
  jiffies tk' = jiffies tk + Z.of_nat (length (filter (fun op => op = Tick) ops)) /\
  (forall h, (timekeeper_register_tick_handler tk' (Some h)).2 = - EBUSY <-> h ∈ (timekeeper_tick tk').2).
Proof.
  assert (Hdec : forall tk h, (timekeeper_register_tick_handler tk (Some h)).2 = - EBUSY <->
    h ∈ (timekeeper_tick tk).2).
  { intros t h. unfold timekeeper_register_tick_handler. simpl. case_bool_decide; simpl; split; done. }
  revert tk. induction ops as [| op ops IH]; intros tk Hnd Hj Hlen; cbv zeta; cbn [fold_left].
  { split_and!; [done | simpl; lia | apply Hdec]. }
  simpl length in Hlen.
  assert (Hstep : NoDup (tick_handlers (tick_step tk op)) /\
    jiffies (tick_step tk op) = jiffies tk + (if decide (op = Tick) then 1 else 0)).
  { destruct op as [h | h |]; cbn [tick_step].
    - unfold timekeeper_register_tick_handler. case_bool_decide as Hin; cbn [fst set_handlers tick_handlers jiffies];
        rewrite decide_False by done; (split; [| lia]); [done |].
      apply list.NoDup_app. split_and!; [done | set_solver | apply NoDup_singleton].
    - cbn [timekeeper_unregister_tick_handler set_handlers tick_handlers jiffies]. rewrite decide_False by done.
      split; [by apply list.NoDup_filter | lia].
    - cbn [timekeeper_tick fst tick_handlers jiffies]. rewrite decide_True by done.
      rewrite u64_small by lia. done. }
  destruct Hstep as [H1 H2]. destruct (IH (tick_step tk op) H1) as (I1 & I2 & I3);
    [case_decide; lia | case_decide; lia |].
  split_and!; [done | | done]. rewrite I2, H2, filter_cons. case_decide; simpl length; lia.
Qed.

Lemma tick_handlers_once_witness :
  let tk := mk_tk 0 0 7 true false None [4] in
  let tk' := fold_left tick_step [Register 5; Tick; Register 4; Unregister 5; Tick] tk in
  NoDup (timekeeper_tick tk').2 /\
  jiffies tk' = 7 + Z.of_nat (length (filter (fun op => op = Tick) [Register 5; Tick; Register 4; Unregister 5; Tick])) /\
  (forall h, (timekeeper_register_tick_handler tk' (Some h)).2 = - EBUSY <-> h ∈ (timekeeper_tick tk').2).
Proof.
  apply (tick_handlers_once [Register 5; Tick; Register 4; Unregister 5; Tick] (mk_tk 0 0 7 true false None [4]));
    [apply NoDup_singleton | simpl; lia | simpl; lia].
Defined.
