(* ===== verification/Signal.v ===== *)
(** * Signals: kern/signal.c

    A task keeps its pending and blocked sets as words, the address of the frame
    its handler returns through, and a table of actions that threads share and
    count.  The trap frame is the 38 words of [struct trap_frame]; user memory
    is a map from 8-byte aligned addresses to words.  The lock of the table
    makes each operation on it one step; [task_wake_spec] is recorded in
    [woken], and [task_exit_signal] does not come back. *)

From S2P Require Import Prelude Refcnt.

Definition EPERM : Z := 1.
Definition ESRCH : Z := 3.
Definition ENOMEM : Z := 12.
Definition EFAULT : Z := 14.
Definition EINVAL : Z := 22.

Definition SIGKILL : Z := 9.
Definition SIGCHLD : Z := 17.
Definition SIGCONT : Z := 18.
Definition SIGSTOP : Z := 19.
Definition SIGURG : Z := 23.
Definition SIGWINCH : Z := 28.
Definition NSIG : Z := 32.
Definition SIG_DFL : Z := 0.
Definition SIG_IGN : Z := 1.
Definition SIG_BLOCK : Z := 0.
Definition SIG_UNBLOCK : Z := 1.
Definition SIG_SETMASK : Z := 2.
Definition SA_NODEFER : Z := 0x40000000.
Definition USER_SPACE_SIZE_MAX : Z := 2 ^ 38 - 4096.

(** ** Data *)

Record sigaction : Set := mk_act { sa_handler : Z; sa_mask : Z; sa_flags : Z }.

Record sigaction_table : Set := mk_table { actions : list sigaction; t_refcnt : Z }.

(** Indices into the trap frame, and its size in words. *)
Definition TF_SP : Z := 2.
Definition TF_A0 : Z := 10.
Definition TF_SEPC : Z := 33.
Definition TF_WORDS : nat := 38.

(** [sizeof(struct user_sigframe)]: the trap frame, the mask, the number. *)
Definition SIGFRAME_SIZE : Z := 320.

Record task : Set := mk_task {
  pid : Z; tgid : Z; pgid : Z; euid : Z; zombie : bool;
  pending : Z; blocked : Z; in_handler : bool; sigframe_sp : Z;
  sigactions : Z;
  frame : list Z
}.

Definition set_sets (t : task) (p b : Z) (h : bool) (sp : Z) : task :=
  mk_task (pid t) (tgid t) (pgid t) (euid t) (zombie t) p b h sp (sigactions t) (frame t).
Definition set_pending (t : task) (p : Z) : task := set_sets t p (blocked t) (in_handler t) (sigframe_sp t).
Definition set_blocked (t : task) (b : Z) : task := set_sets t (pending t) b (in_handler t) (sigframe_sp t).
Definition set_frame (t : task) (f : list Z) : task :=
  mk_task (pid t) (tgid t) (pgid t) (euid t) (zombie t) (pending t) (blocked t) (in_handler t) (sigframe_sp t) (sigactions t) f.
Definition set_table (t : task) (k : Z) : task :=
  mk_task (pid t) (tgid t) (pgid t) (euid t) (zombie t) (pending t) (blocked t) (in_handler t) (sigframe_sp t) k (frame t).

(** ** Helpers *)

Definition sig_valid (sig : Z) : bool := (0 <? sig) && (sig <? NSIG).
Definition sig_bit (sig : Z) : Z := u64 (Z.shiftl 1 sig).

Definition signal_may_send (cap_kill : bool) (current target : task) : bool :=
  if cap_kill then true else euid target =? euid current.

Definition sig_default_terminate (sig : Z) : bool :=
  negb ((sig =? SIGCHLD) || (sig =? SIGURG) || (sig =? SIGWINCH) || (sig =? SIGCONT)).

Definition user_access_ok (addr len : Z) : bool := u64 (addr + len) <=? USER_SPACE_SIZE_MAX.

Definition sigaction_table_reset_locked (tb : sigaction_table) : sigaction_table :=
  mk_table (replicate (Z.to_nat NSIG) (mk_act SIG_DFL 0 0)) (t_refcnt tb).

Definition sigaction_table_reset (tb : sigaction_table) : sigaction_table := sigaction_table_reset_locked tb.

(** ** The next signal to deliver *)

(** [for (sig = 1; sig < NSIG; ++sig)], collecting the SA_NODEFER ones. *)
Fixpoint nodefer_loop (pending : Z) (acts : list sigaction) (sig nodfer : Z) (n : nat) : res Z :=
  match n with
  | O => Ret nodfer
  | S n' =>
      if Z.land pending (sig_bit sig) =? 0 then nodefer_loop pending acts (sig + 1) nodfer n'
      else
        let! a := rd acts sig in
        if Z.land (sa_flags a) SA_NODEFER =? 0 then nodefer_loop pending acts (sig + 1) nodfer n'
        else nodefer_loop pending acts (sig + 1) (Z.lor nodfer (sig_bit sig)) n'
  end.

Fixpoint first_sig (deliver sig : Z) (n : nat) : Z :=
  match n with
  | O => 0
  | S n' => if negb (Z.land deliver (sig_bit sig) =? 0) then sig else first_sig deliver (sig + 1) n'
  end.

Definition get_next_signal_locked (t : task) (acts : list sigaction) : res Z :=
  let deliver := Z.land (pending t) (not64 (blocked t)) in
  let! deliver :=
    (if in_handler t then
       let deliver := Z.land deliver (sig_bit SIGKILL) in
       let! nodfer := nodefer_loop (pending t) acts 1 0 31 in
       Ret (Z.lor deliver (Z.land nodfer (not64 (blocked t))))
     else Ret deliver) in
  if deliver =? 0 then Ret 0 else Ret (first_sig deliver 1 31).

Definition signal_reset_signal_sets_locked (t : task) : task := set_sets t 0 0 false 0.
Definition clear_pending_locked (t : task) (sig : Z) : task := set_pending t (Z.land (pending t) (not64 (sig_bit sig))).

Definition signal_pending (t : task) (acts : list sigaction) : res bool :=
  let! sig := get_next_signal_locked t acts in Ret (negb (sig =? 0)).

(** ** Delivering *)

(** The words of the frame at [sp]: [memcpy(&frame->tf, ...)] and back. *)
Fixpoint put_words (um : Z -> Z) (addr : Z) (l : list Z) : Z -> Z :=
  match l with [] => um | w :: l' => put_words (<[addr := w]> um) (u64 (addr + 8)) l' end.

Fixpoint get_words (um : Z -> Z) (addr : Z) (n : nat) : list Z :=
  match n with O => [] | S n' => um addr :: get_words um (u64 (addr + 8)) n' end.

(** [frame->signo] is the low half of its word. *)
Definition put_signo (um : Z -> Z) (addr sig : Z) : Z -> Z :=
  <[addr := um addr / 2 ^ 32 * 2 ^ 32 + u32 sig]> um.

Definition setup_signal_frame_locked (t : task) (acts : list sigaction) (um : Z -> Z) (sig handler : Z)
    : res (option (task * (Z -> Z))) :=
  let! sp := rd (frame t) TF_SP in
  let sp := u64 (sp - SIGFRAME_SIZE) in
  let sp := Z.land sp (not64 0xf) in
  if negb (user_access_ok sp SIGFRAME_SIZE) then Ret None
  else
    let um := put_words um sp (frame t) in
    let um := <[u64 (sp + 304) := blocked t]> um in
    let um := put_signo um (u64 (sp + 312)) sig in
    let! a := rd acts sig in
    let b := if Z.land (sa_flags a) SA_NODEFER =? 0 then Z.lor (blocked t) (sig_bit sig) else blocked t in
    let b := Z.lor b (sa_mask a) in
    let t := clear_pending_locked (set_sets t (pending t) b (in_handler t) sp) sig in
    let t := set_sets t (pending t) (blocked t) true (sigframe_sp t) in
    let! f := wr (frame t) TF_SP sp in
    let! f := wr f TF_SEPC handler in
    let! f := wr f TF_A0 sig in
    Ret (Some (set_frame t f, um)).

(** [task_exit_signal] ends the task; otherwise it goes on. *)
Inductive delivered : Type :=
| Exited (sig : Z)
| Goes (t : task) (um : Z -> Z).

Definition signal_deliver_one (t : task) (acts : list sigaction) (um : Z -> Z) (sig : Z) : res delivered :=
  let! a := rd acts sig in
  let handler := sa_handler a in
  if (sig =? SIGKILL) || ((handler =? SIG_DFL) && sig_default_terminate sig) then Ret (Exited sig)
  else if handler =? SIG_IGN then Ret (Goes (clear_pending_locked t sig) um)
  else if handler =? SIG_DFL then Ret (Goes (clear_pending_locked t sig) um)
  else
    let! r := setup_signal_frame_locked t acts um sig handler in
    match r with
    | None => Ret (Exited sig)
    | Some (t, um) => Ret (Goes t um)
    end.

(** [for (;;)]. *)
Fixpoint deliver_loop (t : task) (acts : list sigaction) (um : Z -> Z) (fuel : nat) : res delivered :=
  let! sig := get_next_signal_locked t acts in
  if sig =? 0 then Ret (Goes t um)
  else
    match fuel with
    | O => Halt Fuel
    | S fuel' =>
        let! d := signal_deliver_one t acts um sig in
        match d with
        | Exited s => Ret (Exited s)
        | Goes t um => if in_handler t then Ret (Goes t um) else deliver_loop t acts um fuel'
        end
    end.

(** Each turn ends the task, enters a handler or clears one of the 31 bits. *)
Definition signal_deliver_pending (t : task) (acts : list sigaction) (um : Z -> Z) : res delivered :=
  deliver_loop t acts um (Z.to_nat NSIG).

Definition signal_do_sigreturn (t : task) (um : Z -> Z) : res (task * Z) :=
  if sigframe_sp t =? 0 then Ret (t, u64 (- EINVAL))
  else if negb (user_access_ok (sigframe_sp t) SIGFRAME_SIZE) then Ret (t, u64 (- EFAULT))
  else
    let f := get_words um (sigframe_sp t) TF_WORDS in
    let b := um (u64 (sigframe_sp t + 304)) in
    let t := set_frame (set_sets t (pending t) b false 0) f in
    let! ret := rd (frame t) TF_A0 in
    Ret (t, ret).

(** ** Masks and actions *)

(** [act] is NULL or an action; the second result is what goes to [*oact]
    when [oact] is not NULL.  The two point to different objects. *)
Definition signal_do_sigaction (tb : sigaction_table) (sig : Z) (act : option sigaction)
    : res (sigaction_table * option sigaction * Z) :=
  if negb (sig_valid sig) then Ret (tb, None, - EINVAL)
  else if (sig =? SIGKILL) || (sig =? SIGSTOP) then Ret (tb, None, - EINVAL)
  else
    let! old := rd (actions tb) sig in
    match act with
    | None => Ret (tb, Some old, 0)
    | Some a => let! l := wr (actions tb) sig a in Ret (mk_table l (t_refcnt tb), Some old, 0)
    end.

(** The new task, the value for [*oldset], and the result. *)
Definition signal_do_sigprocmask (t : task) (how : Z) (set : option Z) : task * Z * Z :=
  match set with
  | None => (t, blocked t, 0)
  | Some s =>
      let apply (b : Z) :=
        let b := Z.land b (not64 (sig_bit SIGKILL)) in
        let b := Z.land b (not64 (sig_bit SIGSTOP)) in
        (set_blocked t b, blocked t, 0) in
      if how =? SIG_BLOCK then apply (Z.lor (blocked t) s)
      else if how =? SIG_UNBLOCK then apply (Z.land (blocked t) (not64 s))
      else if how =? SIG_SETMASK then apply s
      else (t, blocked t, - EINVAL)
  end.

(** [sys_sigpending]: the set copied out. *)
Definition sys_sigpending_set (t : task) : Z := Z.land (pending t) (blocked t).

(** ** Sending *)

(** The new task, and whether it is woken. *)
Definition signal_send (t : task) (sig : Z) : task * bool :=
  if negb (sig_valid sig) then (t, false)
  else if zombie t then (t, false)
  else (set_pending t (Z.lor (pending t) (sig_bit sig)), true).

Record sent_state : Type := mk_sent { tasks : list task; woken : list Z; found : bool; sent : bool }.

(** [list_for_each_entry(p, &tasks, list)] over the tasks [sel] picks. *)
Fixpoint send_loop (sel may : task -> bool) (sig : Z) (l : list task) : sent_state :=
  match l with
  | [] => mk_sent [] [] false false
  | p :: l' =>
      let r := send_loop sel may sig l' in
      if negb (sel p) then mk_sent (p :: tasks r) (woken r) (found r) (sent r)
      else if negb (may p) then mk_sent (p :: tasks r) (woken r) true (sent r)
      else
        let (p', w) := (if sig =? 0 then (p, false) else signal_send p sig) in
        mk_sent (p' :: tasks r) (if w then pid p :: woken r else woken r) true true
  end.

Definition sent_result (r : sent_state) : Z :=
  if sent r then 0 else if found r then - EPERM else - ESRCH.

Definition signal_kill_pgrp (may : task -> bool) (l : list task) (pgrp sig : Z) : list task * list Z * Z :=
  if pgrp <=? 0 then (l, [], - ESRCH)
  else if negb (sig =? 0) && negb (sig_valid sig) then (l, [], - EINVAL)
  else
    let r := send_loop (fun p => (pgid p =? pgrp) && (pid p =? tgid p)) may sig l in
    (tasks r, woken r, sent_result r).

(** The search for [pid], and what is done to the task it finds. *)
Fixpoint kill_one (may : task -> bool) (l : list task) (k sig : Z) : list task * list Z * Z :=
  match l with
  | [] => ([], [], - ESRCH)
  | p :: l' =>
      if pid p =? k then
        if negb (may p) then (l, [], - EPERM)
        else if zombie p then (l, [], - ESRCH)
        else if sig =? 0 then (l, [], 0)
        else (set_pending p (Z.lor (pending p) (sig_bit sig)) :: l', [pid p], 0)
      else let '(l'', w, r) := kill_one may l' k sig in (p :: l'', w, r)
  end.

Definition signal_do_kill (may : task -> bool) (current : task) (l : list task) (k sig : Z) : list task * list Z * Z :=
  if negb (sig =? 0) && negb (sig_valid sig) then (l, [], - EINVAL)
  else if k <=? 0 then
    if k =? -1 then
      let r := send_loop (fun p => pid p =? tgid p) may sig l in
      (tasks r, woken r, sent_result r)
    else signal_kill_pgrp may l (if k =? 0 then pgid current else s32 (- k)) sig
  else kill_one may l k sig.

(** ** Tables *)

(** [kzalloc] hands out the address [fresh], or NULL. *)
Definition sigaction_table_alloc (tabs : gmap Z sigaction_table) (fresh : option Z) : gmap Z sigaction_table * option Z :=
  match fresh with
  | None => (tabs, None)
  | Some k => (<[k := mk_table (replicate (Z.to_nat NSIG) (mk_act 0 0 0)) (refcnt_init 1)]> tabs, Some k)
  end.

Definition sigaction_table_put (tabs : gmap Z sigaction_table) (k : Z) : res (gmap Z sigaction_table) :=
  match tabs !! k with
  | None => Halt Fault
  | Some tb =>
      let (c, new_val) := refcnt_dec_fetch (t_refcnt tb) in
      if 0 <? new_val then Ret (<[k := mk_table (actions tb) c]> tabs) else Ret (delete k tabs)
  end.

Definition sigaction_table_get (tabs : gmap Z sigaction_table) (k : Z) : res (gmap Z sigaction_table) :=
  match tabs !! k with
  | None => Halt Fault
  | Some tb => Ret (<[k := mk_table (actions tb) (refcnt_inc (t_refcnt tb))]> tabs)
  end.

Definition sigaction_table_copy (dst src : sigaction_table) : sigaction_table := mk_table (actions src) (t_refcnt dst).

Definition signal_reset (t : task) (tb : sigaction_table) : task * sigaction_table :=
  (signal_reset_signal_sets_locked t, sigaction_table_reset_locked tb).

Definition signal_init (tabs : gmap Z sigaction_table) (t : task) (share : option Z) (b : Z) (fresh : option Z)
    : res (gmap Z sigaction_table * task * Z) :=
  match share with
  | None =>
      let (tabs, k) := sigaction_table_alloc tabs fresh in
      match k with
      | None => Ret (tabs, set_table t 0, - ENOMEM)
      | Some k =>
          match tabs !! k with
          | None => Halt Fault
          | Some tb => let (t, tb) := signal_reset (set_table t k) tb in Ret (<[k := tb]> tabs, t, 0)
          end
      end
  | Some k =>
      let! tabs := sigaction_table_get tabs k in
      Ret (tabs, set_blocked (signal_reset_signal_sets_locked (set_table t k)) b, 0)
  end.

(** A task whose [sigactions] is NULL has address 0 there. *)
Definition signal_deinit (tabs : gmap Z sigaction_table) (t : task) : res (gmap Z sigaction_table) :=
  if sigactions t =? 0 then Ret tabs else sigaction_table_put tabs (sigactions t).

Definition signal_copy (dst src : task) (td ts : sigaction_table) : task * sigaction_table :=
  (set_sets dst 0 (blocked src) false 0, sigaction_table_copy td ts).

(** ** Bits *)

Lemma sig_bit_pow sig : 0 <= sig < 64 -> sig_bit sig = 2 ^ sig.
Proof.
  intros H. unfold sig_bit. rewrite Z.shiftl_1_l. apply u64_small. split; [lia |]. apply Z.pow_lt_mono_r; lia.
Qed.

Lemma test_sig z sig : 0 <= sig < 64 -> (Z.land z (sig_bit sig) =? 0) = negb (Z.testbit z sig).
Proof.
  intros H. rewrite sig_bit_pow by done. destruct (Z.testbit z sig) eqn:E; simpl.
  - apply Z.eqb_neq. intros H0. apply (f_equal (fun x => Z.testbit x sig)) in H0.
    rewrite Z.land_spec, E, Z.pow2_bits_true, Z.bits_0 in H0 by lia. done.
  - apply Z.eqb_eq, Z.bits_inj'. intros i Hi. rewrite Z.land_spec, Z.bits_0. destruct (decide (i = sig)) as [-> |]; [by rewrite E |].
    rewrite Z.pow2_bits_false by lia. apply andb_false_r.
Qed.

Lemma or_sig z sig i : 0 <= sig < 64 -> 0 <= i -> Z.testbit (Z.lor z (sig_bit sig)) i = Z.testbit z i || (i =? sig).
Proof.
  intros H Hi. rewrite Z.lor_spec, sig_bit_pow by done. f_equal. rewrite Z.pow2_bits_eqb by lia. apply Z.eqb_sym.
Qed.

Lemma clear_sig z sig i : 0 <= sig < 64 -> 0 <= i < 64 ->
  Z.testbit (Z.land z (not64 (sig_bit sig))) i = Z.testbit z i && negb (i =? sig).
Proof.
  intros H Hi. rewrite Z.land_spec, not64_testbit, sig_bit_pow by lia. do 2 f_equal. rewrite Z.pow2_bits_eqb by lia. apply Z.eqb_sym.
Qed.

(** ** Which signal is next *)

Definition nodefer (acts : list sigaction) (sig : Z) : bool :=
  match acts !! Z.to_nat sig with Some a => negb (Z.land (sa_flags a) SA_NODEFER =? 0) | None => false end.

(** Pending, not blocked, and inside a handler only SIGKILL and the signals
    whose action has SA_NODEFER. *)
Definition deliverable (t : task) (acts : list sigaction) (sig : Z) : bool :=
  Z.testbit (pending t) sig && negb (Z.testbit (blocked t) sig) &&
  (negb (in_handler t) || (sig =? SIGKILL) || nodefer acts sig).

Lemma nodefer_loop_spec p acts (n : nat) : forall sig acc, length acts = 32%nat -> 0 <= sig -> sig + Z.of_nat n = 32 ->
  exists v, nodefer_loop p acts sig acc n = Ret v /\
    forall i, 0 <= i -> Z.testbit v i = Z.testbit acc i || ((sig <=? i) && (i <? 32) && Z.testbit p i && nodefer acts i).
Proof.
  induction n as [| n IH]; intros sig acc Hl Hs Hn; cbn [nodefer_loop].
  { exists acc. split; [done |]. intros i Hi. destruct (Z.leb_spec sig i), (Z.ltb_spec i 32); try lia; simpl; by rewrite orb_false_r. }
  assert (Hstep : forall acc', (forall i, 0 <= i -> Z.testbit acc' i = Z.testbit acc i || ((i =? sig) && Z.testbit p i && nodefer acts i)) ->
    exists v, nodefer_loop p acts (sig + 1) acc' n = Ret v /\
      forall i, 0 <= i -> Z.testbit v i = Z.testbit acc i || ((sig <=? i) && (i <? 32) && Z.testbit p i && nodefer acts i)).
  { intros acc' Hacc. destruct (IH (sig + 1) acc') as (v & -> & Hv); [done | lia | lia |]. exists v. split; [done |].
    intros i Hi. rewrite Hv, Hacc by done. destruct (Z.leb_spec sig i), (Z.leb_spec (sig + 1) i), (Z.ltb_spec i 32), (Z.eqb_spec i sig);
      try lia; cbn [andb]; rewrite ?orb_false_r; try done. }
  rewrite test_sig by lia. destruct (lookup_lt_is_Some_2 acts (Z.to_nat sig)) as [a Ha]; [lia |].
  assert (Hrd : rd acts sig = Ret a) by (apply rd_ret; split; [lia | done]).
  assert (Hnd : nodefer acts sig = negb (Z.land (sa_flags a) SA_NODEFER =? 0)) by (unfold nodefer; by rewrite Ha).
  destruct (Z.testbit p sig) eqn:Ep; cbn [negb]; [rewrite Hrd; destruct (Z.land (sa_flags a) SA_NODEFER =? 0) eqn:Ef |].
  - apply Hstep. intros i Hi. destruct (Z.eqb_spec i sig) as [-> |]; [rewrite Hnd; cbn [negb andb]; by rewrite andb_false_r, orb_false_r | by rewrite orb_false_r].
  - apply Hstep. intros i Hi. rewrite or_sig by lia. f_equal.
    destruct (Z.eqb_spec i sig) as [-> |]; [by rewrite Hnd, Ep | done].
  - apply Hstep. intros i Hi. destruct (Z.eqb_spec i sig) as [-> |]; [rewrite Ep; cbn [andb]; by rewrite orb_false_r | by rewrite orb_false_r].
Qed.

Lemma first_sig_spec d (n : nat) : forall sig, 0 < sig -> sig + Z.of_nat n = 32 ->
  (first_sig d sig n = 0 /\ forall i, sig <= i < 32 -> Z.testbit d i = false) \/
  (sig <= first_sig d sig n < 32 /\ Z.testbit d (first_sig d sig n) = true /\
   forall i, sig <= i < first_sig d sig n -> Z.testbit d i = false).
Proof.
  induction n as [| n IH]; intros sig Hs Hn; cbn [first_sig]; [left; split; [done | lia] |].
  rewrite test_sig, negb_involutive by lia. destruct (Z.testbit d sig) eqn:E; [right; split_and!; [lia | lia | done | lia] |].
  destruct (IH (sig + 1)) as [[-> H] | (H1 & H2 & H3)]; [lia | lia | left | right].
  - split; [done |]. intros i Hi. destruct (Z.eq_dec i sig) as [-> |]; [done | apply H; lia].
  - split_and!; [lia | lia | done |]. intros i Hi. destruct (Z.eq_dec i sig) as [-> |]; [done | apply H3; lia].
Qed.

Lemma next_spec t acts : length acts = 32%nat ->
  exists sig, get_next_signal_locked t acts = Ret sig /\
    ((sig = 0 /\ forall i, 1 <= i < 32 -> deliverable t acts i = false) \/
     (1 <= sig < 32 /\ deliverable t acts sig = true /\ forall i, 1 <= i < sig -> deliverable t acts i = false)).
Proof.
  intros Hl. unfold get_next_signal_locked. destruct (nodefer_loop_spec (pending t) acts 31 1 0 Hl) as (v & Hv & Hbits); [lia | done |].
  set (d0 := Z.land (pending t) (not64 (blocked t))).
  set (d := if in_handler t then Z.lor (Z.land d0 (sig_bit SIGKILL)) (Z.land v (not64 (blocked t))) else d0).
  assert (Hd : forall i, 1 <= i < 32 -> Z.testbit d i = deliverable t acts i).
  { intros i Hi. unfold d, deliverable, d0. destruct (in_handler t); cbn [negb orb].
    - rewrite Z.lor_spec, !Z.land_spec, not64_testbit, Hbits, Z.bits_0, sig_bit_pow by (unfold SIGKILL; lia).
      rewrite Z.pow2_bits_eqb by (unfold SIGKILL; lia). rewrite (Z.eqb_sym SIGKILL i).
      destruct (Z.leb_spec 1 i), (Z.ltb_spec i 32); try lia. cbn [orb andb].
      destruct (Z.testbit (pending t) i), (Z.testbit (blocked t) i), (i =? SIGKILL), (nodefer acts i); done.
    - rewrite Z.land_spec, not64_testbit by lia. by rewrite andb_true_r. }
  assert (Heq : (let! deliver := (if in_handler t then let! nodfer := nodefer_loop (pending t) acts 1 0 31 in
      Ret (Z.lor (Z.land d0 (sig_bit SIGKILL)) (Z.land nodfer (not64 (blocked t)))) else Ret d0) in
      if deliver =? 0 then Ret 0 else Ret (first_sig deliver 1 31)) = if d =? 0 then Ret 0 else Ret (first_sig d 1 31)).
  { unfold d. rewrite Hv. by destruct (in_handler t). }
  rewrite Heq. destruct (Z.eqb_spec d 0) as [E | Hne].
  - exists 0. split; [done |]. left. split; [done |]. intros i Hi. rewrite <- Hd, E by done. apply Z.bits_0.
  - exists (first_sig d 1 31). split; [done |]. destruct (first_sig_spec d 31 1) as [[-> H] | (H1 & H2 & H3)]; [lia | done | left | right].
    + split; [done |]. intros i Hi. rewrite <- Hd by done. by apply H.
    + split_and!; [lia | lia | by rewrite <- Hd by lia |]. intros i Hi. rewrite <- Hd by lia. by apply H3.
Qed.

(** ** Delivering: one signal *)

(** What the action of a signal does with it. *)
Inductive verdict : Set := Kills | Ignores | Handles (h : Z).

Definition verdict_of (acts : list sigaction) (sig : Z) : verdict :=
  match acts !! Z.to_nat sig with
  | None => Kills
  | Some a =>
      if sig =? SIGKILL then Kills
      else if sa_handler a =? SIG_DFL then (if sig_default_terminate sig then Kills else Ignores)
      else if sa_handler a =? SIG_IGN then Ignores
      else Handles (sa_handler a)
  end.

(** Whether the frame fits below the stack pointer. *)
Definition frame_fits (t : task) : bool :=
  match rd (frame t) TF_SP with
  | Ret sp => user_access_ok (Z.land (u64 (sp - SIGFRAME_SIZE)) (not64 0xf)) SIGFRAME_SIZE
  | Halt _ => false
  end.

Lemma deliver_one_spec t acts um sig : length acts = 32%nat -> length (frame t) = TF_WORDS -> 1 <= sig < 32 ->
  match verdict_of acts sig with
  | Kills => signal_deliver_one t acts um sig = Ret (Exited sig)
  | Ignores => signal_deliver_one t acts um sig = Ret (Goes (clear_pending_locked t sig) um)
  | Handles h =>
      if frame_fits t
      then exists t' um', setup_signal_frame_locked t acts um sig h = Ret (Some (t', um')) /\
             in_handler t' = true /\ signal_deliver_one t acts um sig = Ret (Goes t' um')
      else signal_deliver_one t acts um sig = Ret (Exited sig)
  end.
Proof.
  intros Hl Hf Hs. unfold verdict_of, signal_deliver_one, frame_fits, setup_signal_frame_locked.
  destruct (rd_in_range acts sig) as [a Ha]; [lia |]. pose proof Ha as Ha'. apply rd_ret in Ha' as [_ ->]. rewrite !Ha.
  destruct (rd_in_range (frame t) TF_SP) as [sp Hsp]; [unfold TF_SP, TF_WORDS in *; lia |]. rewrite !Hsp.
  destruct (sig =? SIGKILL); [done |]. cbn [orb].
  destruct (Z.eqb_spec (sa_handler a) SIG_DFL) as [E | E]; cbn [andb].
  { destruct (sig_default_terminate sig); [done |]. destruct (sa_handler a =? SIG_IGN); done. }
  destruct (sa_handler a =? SIG_IGN); [done |].
  destruct (user_access_ok _ SIGFRAME_SIZE); cbn [negb]; [| done].
  rewrite !wr_in_range by (simpl; rewrite ?length_insert; unfold TF_SP, TF_SEPC, TF_A0, TF_WORDS in *; lia).
  by do 2 eexists.
Qed.

(** ** Delivering: the loop *)

(** The bits of [p'] are those of [p] less the ones [cleared] picks. *)
Definition pending_less (p p' : Z) (cleared : Z -> bool) : Prop :=
  forall i, 0 <= i < 64 -> Z.testbit p' i = Z.testbit p i && negb (cleared i).

(** What delivering does: the ignored signals below the first other one are
    dropped; that one kills the task or enters its handler. *)
Definition delivers (t : task) (acts : list sigaction) (um : Z -> Z) (d : delivered) : Prop :=
  (exists p, d = Goes (set_pending t p) um /\ pending_less (pending t) p (fun i => (1 <=? i) && (i <? 32) && deliverable t acts i) /\
    forall i, 1 <= i < 32 -> deliverable t acts i = true -> verdict_of acts i = Ignores) \/
  (exists s p, 1 <= s < 32 /\ deliverable t acts s = true /\ verdict_of acts s <> Ignores /\
    (forall i, 1 <= i < s -> deliverable t acts i = true -> verdict_of acts i = Ignores) /\
    pending_less (pending t) p (fun i => (1 <=? i) && (i <? s) && deliverable t acts i) /\
    match verdict_of acts s with
    | Handles h =>
        if frame_fits t then exists t' um', d = Goes t' um' /\
          setup_signal_frame_locked (set_pending t p) acts um s h = Ret (Some (t', um')) /\ in_handler t' = true
        else d = Exited s
    | _ => d = Exited s
    end).

Lemma pending_less_trans p p' p'' c c' c'' : pending_less p p' c -> pending_less p' p'' c' ->
  (forall i, 0 <= i < 64 -> Z.testbit p i = true -> c'' i = c i || c' i) -> pending_less p p'' c''.
Proof.
  intros H1 H2 H i Hi. rewrite H2, H1 by done. destruct (Z.testbit p i) eqn:E; [| done].
  rewrite H by done. by destruct (c i), (c' i).
Qed.

Lemma pending_less_clear t sig : 0 <= sig < 64 -> pending_less (pending t) (pending (clear_pending_locked t sig)) (fun i => i =? sig).
Proof. intros H i Hi. by apply clear_sig. Qed.

Lemma deliverable_clear t acts sig i : in_handler t = false -> 0 <= sig < 64 -> 0 <= i < 64 ->
  deliverable (clear_pending_locked t sig) acts i = deliverable t acts i && negb (i =? sig).
Proof.
  intros Hh H Hi. unfold deliverable. cbn [pending blocked in_handler clear_pending_locked set_pending set_sets]. rewrite clear_sig, Hh by done.
  cbn [negb orb]. rewrite !andb_true_r. destruct (Z.testbit (pending t) i), (Z.testbit (blocked t) i), (i =? sig); done.
Qed.

(** Dropping the first deliverable signal, which is ignored, changes nothing
    in what delivering does. *)
Lemma delivers_skip t acts um d sig : in_handler t = false -> 1 <= sig < 32 -> deliverable t acts sig = true ->
  (forall i, 1 <= i < sig -> deliverable t acts i = false) -> verdict_of acts sig = Ignores ->
  delivers (clear_pending_locked t sig) acts um d -> delivers t acts um d.
Proof.
  intros Hh Hs Hd Hlow Hv Hdel.
  assert (Hclr : forall i, 0 <= i < 64 -> deliverable (clear_pending_locked t sig) acts i = deliverable t acts i && negb (i =? sig))
    by (intros; apply deliverable_clear; [done | lia | lia]).
  assert (Hkeep : forall i, 1 <= i < 32 -> i <> sig -> deliverable t acts i = true -> deliverable (clear_pending_locked t sig) acts i = true).
  { intros i Hi Hne E. rewrite Hclr, E by lia. by destruct (Z.eqb_spec i sig). }
  destruct Hdel as [(p & -> & Hp & Hall) | (s & p & Hs' & Hds & Hvs & Hbelow & Hp & Hd')]; [left | right].
  - exists p. split; [done |]. split.
    + eapply pending_less_trans; [apply (pending_less_clear t sig); lia | exact Hp |].
      intros i Hi _. cbv beta. rewrite Hclr by lia. destruct (Z.eqb_spec i sig) as [-> |]; cbn [negb orb].
      * rewrite Hd, andb_true_r. apply andb_true_iff; split; [apply Z.leb_le | apply Z.ltb_lt]; lia.
      * by rewrite andb_true_r.
    + intros i Hi E. destruct (Z.eq_dec i sig) as [-> | Hne]; [done |]. by apply Hall, Hkeep.
  - rewrite Hclr in Hds by lia. apply andb_true_iff in Hds as [Hds Hne]. apply negb_true_iff, Z.eqb_neq in Hne.
    assert (sig < s). { destruct (Z.lt_trichotomy s sig) as [Hlt | [-> | Hgt]]; [rewrite Hlow in Hds by lia; done | done | done]. }
    exists s, p. split_and!; [lia | lia | done | done | | | exact Hd'].
    + intros i Hi E. destruct (Z.eq_dec i sig) as [-> | Hne']; [done |]. apply Hbelow; [done |]. apply Hkeep; [lia | done | done].
    + eapply pending_less_trans; [apply (pending_less_clear t sig); lia | exact Hp |].
      intros i Hi _. cbv beta. rewrite Hclr by lia. destruct (Z.eqb_spec i sig) as [-> |]; cbn [negb orb].
      * rewrite Hd, andb_true_r. apply andb_true_iff; split; [apply Z.leb_le | apply Z.ltb_lt]; lia.
      * by rewrite andb_true_r.
Qed.

Lemma set_pending_id t : set_pending t (pending t) = t.
Proof. by destruct t. Qed.

Lemma pending_less_none p c : (forall i, 0 <= i < 64 -> Z.testbit p i = true -> c i = false) -> pending_less p p c.
Proof. intros H i Hi. destruct (Z.testbit p i) eqn:E; [by rewrite H | done]. Qed.

Lemma deliver_loop_spec acts um (fuel : nat) : forall t lo, length acts = 32%nat -> length (frame t) = TF_WORDS -> in_handler t = false ->
  1 <= lo -> 32 <= lo + Z.of_nat fuel -> (forall i, 1 <= i < lo -> deliverable t acts i = false) ->
  exists d, deliver_loop t acts um fuel = Ret d /\ delivers t acts um d.
Proof.
  induction fuel as [| fuel IH]; intros t lo Hl Hf Hh Hlo Hfuel Hlow; cbn [deliver_loop];
    destruct (next_spec t acts Hl) as (sig & -> & [[-> Hnone] | (Hs & Hd & Hfirst)]).
  1, 3: exists (Goes t um); split; [done |]; left; exists (pending t); split; [by rewrite set_pending_id |]; split;
    [apply pending_less_none; intros i Hi _; destruct (Z.leb_spec 1 i), (Z.ltb_spec i 32); try done; by apply Hnone
    | intros i Hi E; by rewrite Hnone in E].
  { rewrite Hlow in Hd by lia. done. }
  assert (lo <= sig) by (destruct (Z.lt_ge_cases sig lo); [rewrite Hlow in Hd by lia; done | done]).
  replace (sig =? 0) with false by (symmetry; apply Z.eqb_neq; lia).
  assert (Hstop : verdict_of acts sig <> Ignores -> forall d,
    match verdict_of acts sig with
    | Handles h => if frame_fits t then exists t' um', d = Goes t' um' /\ setup_signal_frame_locked t acts um sig h = Ret (Some (t', um')) /\ in_handler t' = true
                   else d = Exited sig
    | _ => d = Exited sig end -> delivers t acts um d).
  { intros Hv d Hd'. right. exists sig, (pending t). rewrite set_pending_id. split_and!; [lia | lia | done | done | | | done].
    - intros i Hi E. by rewrite Hfirst in E.
    - apply pending_less_none. intros i Hi _. destruct (Z.leb_spec 1 i), (Z.ltb_spec i sig); try done. by apply Hfirst. }
  pose proof (deliver_one_spec t acts um sig Hl Hf Hs) as Hone. destruct (verdict_of acts sig) as [| | h] eqn:Ev.
  - rewrite Hone. exists (Exited sig). split; [done |]. by apply Hstop.
  - rewrite Hone. replace (in_handler (clear_pending_locked t sig)) with false by (symmetry; exact Hh).
    destruct (IH (clear_pending_locked t sig) (sig + 1)) as (d & -> & Hdel); [done | done | done | lia | lia | |].
    { intros i Hi. rewrite deliverable_clear by (done || lia). destruct (Z.eqb_spec i sig); [by rewrite andb_false_r |]. rewrite Hfirst by lia. done. }
    exists d. split; [done |]. by apply delivers_skip with sig.
  - destruct (frame_fits t) eqn:Ef.
    + destruct Hone as (t' & um' & Hset & Hin & ->). rewrite Hin. exists (Goes t' um'). split; [done |]. apply Hstop; [done |].
      by exists t', um'.
    + rewrite Hone. exists (Exited sig). split; [done |]. by apply Hstop.
Qed.

(** C34: outside a handler [signal_deliver_pending] terminates; the deliverable
    signals are taken in increasing order, those whose action is to ignore them
    are dropped, and the first other one ends the task (SIGKILL, a terminating
    default, or no room for its frame) or enters its handler with the signals
    above it still pending. *)
Theorem signal_deliver_pending_correct t acts um : length acts = 32%nat -> length (frame t) = TF_WORDS -> in_handler t = false ->
  exists d, signal_deliver_pending t acts um = Ret d /\ delivers t acts um d.
Proof. intros Hl Hf Hh. apply (deliver_loop_spec acts um _ t 1); try done; lia. Qed.

(** Signals 17 (ignored by default), 10 (handled) and 15 are pending: 10 enters its
    handler, the others stay. *)
Definition demo_acts : list sigaction := <[10%nat := mk_act 0x1000 0 0]> (replicate 32 (mk_act SIG_DFL 0 0)).
Definition demo_task : task :=
  mk_task 7 7 7 0 false (2 ^ 10 + 2 ^ 15 + 2 ^ 17) 0 false 0 1 (<[2%nat := 0x8000]> (replicate 38 5)).

Lemma signal_deliver_pending_witness :
  (exists d, signal_deliver_pending demo_task demo_acts (fun _ => 0) = Ret d /\ delivers demo_task demo_acts (fun _ => 0) d) /\
  (let! d := signal_deliver_pending demo_task demo_acts (fun _ => 0) in
   match d with Goes t um => Ret (pending t, blocked t, sigframe_sp t, take 11 (frame t), um (0x8000 - 320)) | Exited _ => Halt Fault end) =
  Ret (2 ^ 15 + 2 ^ 17, 2 ^ 10, 0x8000 - 320, [5; 5; 0x8000 - 320; 5; 5; 5; 5; 5; 5; 5; 10], 5).
Proof. split; [apply (signal_deliver_pending_correct demo_task demo_acts (fun _ => 0)); reflexivity | reflexivity]. Defined.

(** ** The frame of a handler *)

Lemma put_words_spec l : forall um a, 0 <= a -> a + 8 * Z.of_nat (length l) < 2 ^ 64 ->
  (forall b, b < a \/ a + 8 * Z.of_nat (length l) <= b -> put_words um a l b = um b) /\
  (forall i w, l !! i = Some w -> put_words um a l (a + 8 * Z.of_nat i) = w).
Proof.
  induction l as [| x l IH]; intros um a Ha Hb; cbn [put_words length] in *; [split; [done | by intros] |].
  rewrite u64_small by lia. destruct (IH (<[a := x]> um) (a + 8)) as [H1 H2]; [lia | lia |]. split.
  - intros b Hb'. rewrite H1 by lia. apply fn_lookup_insert_ne. lia.
  - intros [| i] w Hi; simpl in Hi.
    + injection Hi as ->. rewrite H1 by lia. rewrite Z.add_0_r. apply fn_lookup_insert.
    + replace (a + 8 * Z.of_nat (S i)) with (a + 8 + 8 * Z.of_nat i) by lia. by apply H2.
Qed.

Lemma get_words_spec um (n : nat) : forall a l, 0 <= a -> a + 8 * Z.of_nat n < 2 ^ 64 -> length l = n ->
  (forall i w, l !! i = Some w -> um (a + 8 * Z.of_nat i) = w) -> get_words um a n = l.
Proof.
  induction n as [| n IH]; intros a [| x l] Ha Hb Hl Hw; try done; cbn [get_words]. rewrite u64_small by lia. f_equal.
  - rewrite <- (Hw 0%nat x) by done. f_equal. lia.
  - apply IH; [lia | lia | simpl in Hl; lia |]. intros i w Hi. rewrite <- (Hw (S i) w) by done. f_equal. lia.
Qed.

(** Where the frame goes when the stack has room for it. *)
Lemma frame_place sp : 336 <= sp < 2 ^ 64 ->
  let sp' := Z.land (u64 (sp - SIGFRAME_SIZE)) (not64 0xf) in
  0 < sp' /\ sp' mod 16 = 0 /\ sp - SIGFRAME_SIZE - 16 < sp' <= sp - SIGFRAME_SIZE.
Proof.
  intros H. cbv zeta. unfold SIGFRAME_SIZE. rewrite u64_small by lia.
  change 15 with (2 ^ 4 - 1). rewrite land_align_down by lia. zdm.
Qed.

(** The state a handler starts in. *)
Definition handler_entered (t t' : task) (acts : list sigaction) (sp0 sig h : Z) : Prop :=
  let sp := sigframe_sp t' in
  rd (frame t') TF_SP = Ret sp /\ rd (frame t') TF_SEPC = Ret h /\ rd (frame t') TF_A0 = Ret sig /\
  sp mod 16 = 0 /\ 0 < sp /\ sp + SIGFRAME_SIZE <= sp0 /\
  in_handler t' = true /\ (forall i, 0 <= i < 64 -> Z.testbit (pending t') i = Z.testbit (pending t) i && negb (i =? sig)) /\
  (forall i, 0 <= i < 64 -> Z.testbit (blocked t') i =
    Z.testbit (blocked t) i || ((i =? sig) && negb (nodefer acts sig)) ||
    match acts !! Z.to_nat sig with Some a => Z.testbit (sa_mask a) i | None => false end).

Lemma setup_spec t acts um sig h sp0 : length acts = 32%nat -> length (frame t) = TF_WORDS -> 1 <= sig < 32 ->
  rd (frame t) TF_SP = Ret sp0 -> 336 <= sp0 < 2 ^ 64 -> frame_fits t = true ->
  exists t' um', setup_signal_frame_locked t acts um sig h = Ret (Some (t', um')) /\ handler_entered t t' acts sp0 sig h /\
    user_access_ok (sigframe_sp t') SIGFRAME_SIZE = true /\
    um' (sigframe_sp t' + 304) = blocked t /\
    (forall i w, frame t !! i = Some w -> um' (sigframe_sp t' + 8 * Z.of_nat i) = w) /\
    (forall b, b < sigframe_sp t' \/ sigframe_sp t' + SIGFRAME_SIZE <= b -> um' b = um b).
Proof.
  intros Hl Hf Hs Hsp Hb Hfit. unfold frame_fits in Hfit. rewrite Hsp in Hfit. unfold setup_signal_frame_locked. rewrite Hsp.
  destruct (frame_place sp0 Hb) as (Hpos & Hal & Hlo). set (sp := Z.land (u64 (sp0 - SIGFRAME_SIZE)) (not64 0xf)) in *.
  rewrite Hfit. cbn [negb]. unfold SIGFRAME_SIZE in *.
  rewrite (u64_small (sp + 304)), (u64_small (sp + 312)) by lia.
  destruct (rd_in_range acts sig) as [a Ha]; [lia |]. rewrite Ha. apply rd_ret in Ha as [_ Ha].
  rewrite !wr_in_range by (simpl; rewrite ?length_insert; unfold TF_SP, TF_SEPC, TF_A0, TF_WORDS in *; lia).
  destruct (put_words_spec (frame t) um sp) as [Hout Hin]; [lia | rewrite Hf; unfold TF_WORDS; lia |].
  rewrite Hf in Hout. unfold TF_WORDS in *. do 2 eexists. split; [reflexivity |].
  assert (Hne : forall b, b <> sp + 304 -> b <> sp + 312 -> put_signo (<[sp + 304 := blocked t]> (put_words um sp (frame t))) (sp + 312) sig b = put_words um sp (frame t) b).
  { intros b H1 H2. unfold put_signo. rewrite !fn_lookup_insert_ne by done. done. }
  split; [| split_and!].
  - unfold handler_entered. cbn [sigframe_sp set_frame set_sets set_pending clear_pending_locked in_handler pending frame blocked].
    unfold TF_SP, TF_SEPC, TF_A0, SIGFRAME_SIZE. split_and!; try (lia || done).
    1-3: apply rd_ret; split; [lia |]; rewrite ?list_lookup_insert_ne by (simpl; lia); apply list_lookup_insert_eq; rewrite ?length_insert; lia.
    + intros i Hi. by apply clear_sig; [lia |].
    + intros i Hi. rewrite Z.lor_spec, Ha. unfold nodefer. rewrite Ha, negb_involutive.
      destruct (Z.land (sa_flags a) SA_NODEFER =? 0); [rewrite or_sig by lia |]; by rewrite ?andb_true_r, ?andb_false_r, ?orb_false_r.
  - exact Hfit.
  - cbn [sigframe_sp set_frame set_sets set_pending clear_pending_locked]. unfold put_signo. rewrite fn_lookup_insert_ne by lia. apply fn_lookup_insert.
  - intros i w Hi. cbn [sigframe_sp set_frame set_sets set_pending clear_pending_locked]. pose proof (lookup_lt_Some _ _ _ Hi). rewrite Hne by lia. by apply Hin.
  - intros b Hb'. cbn [sigframe_sp set_frame set_sets set_pending clear_pending_locked] in Hb'. rewrite Hne by lia. apply Hout. lia.
Qed.

(** C35: a task that enters a handler finds the handler's address, the signal
    number and a 16-byte aligned stack below everything it used; nothing
    outside the frame is written, and when the handler returns through
    [signal_do_sigreturn], whatever it did to the rest of the task and of
    memory, every register, the program counter and the blocked set are as the
    signal found them. *)
Theorem sigreturn_restores t acts um sig h sp0 : length acts = 32%nat -> length (frame t) = TF_WORDS -> 1 <= sig < 32 ->
  rd (frame t) TF_SP = Ret sp0 -> 336 <= sp0 < 2 ^ 64 -> frame_fits t = true ->
  exists t' um' a0, setup_signal_frame_locked t acts um sig h = Ret (Some (t', um')) /\
    handler_entered t t' acts sp0 sig h /\
    (forall b, b < sigframe_sp t' \/ sigframe_sp t' + SIGFRAME_SIZE <= b -> um' b = um b) /\
    rd (frame t) TF_A0 = Ret a0 /\
    forall t2 um2, sigframe_sp t2 = sigframe_sp t' ->
      (forall b, sigframe_sp t' <= b < sigframe_sp t' + SIGFRAME_SIZE -> um2 b = um' b) ->
      signal_do_sigreturn t2 um2 = Ret (set_frame (set_sets t2 (pending t2) (blocked t) false 0) (frame t), a0).
Proof.
  intros Hl Hf Hs Hsp Hb Hfit. destruct (setup_spec t acts um sig h sp0) as (t' & um' & Hset & Hent & Hok & Hblk & Hfr & Hout); try done.
  destruct (rd_in_range (frame t) TF_A0) as [a0 Ha0]; [unfold TF_A0, TF_WORDS in *; lia |].
  exists t', um', a0. split_and!; try done. intros t2 um2 Hsp2 Hum.
  destruct Hent as (_ & _ & _ & _ & Hpos & Hle & _). unfold SIGFRAME_SIZE in *.
  unfold signal_do_sigreturn, SIGFRAME_SIZE. rewrite Hsp2, Hok. replace (sigframe_sp t' =? 0) with false by (symmetry; apply Z.eqb_neq; lia).
  cbn [negb]. rewrite (get_words_spec um2 TF_WORDS (sigframe_sp t') (frame t)); [| lia | unfold TF_WORDS; lia | done |].
  2: { intros i w Hi. pose proof (lookup_lt_Some _ _ _ Hi). rewrite Hum by (unfold TF_WORDS in *; lia). by apply Hfr. }
  rewrite u64_small, Hum, Hblk by lia. cbn [frame set_frame]. by rewrite Ha0.
Qed.

Lemma sigreturn_restores_witness :
  exists t' um' a0, setup_signal_frame_locked demo_task demo_acts (fun _ => 0) 10 0x1000 = Ret (Some (t', um')) /\
    handler_entered demo_task t' demo_acts 0x8000 10 0x1000 /\
    (forall b, b < sigframe_sp t' \/ sigframe_sp t' + SIGFRAME_SIZE <= b -> um' b = 0) /\
    rd (frame demo_task) TF_A0 = Ret a0 /\
    forall t2 um2, sigframe_sp t2 = sigframe_sp t' ->
      (forall b, sigframe_sp t' <= b < sigframe_sp t' + SIGFRAME_SIZE -> um2 b = um' b) ->
      signal_do_sigreturn t2 um2 = Ret (set_frame (set_sets t2 (pending t2) (blocked demo_task) false 0) (frame demo_task), a0).
Proof. apply (sigreturn_restores demo_task demo_acts (fun _ => 0) 10 0x1000 0x8000); [reflexivity | reflexivity | lia | reflexivity | lia | reflexivity]. Defined.

(** ** Masks and actions *)

(** [sigprocmask] adds, removes or replaces exactly the signals of its
    set, hands out the old mask, and whatever it is asked leaves SIGKILL and
    SIGSTOP unblocked; an unknown [how] is refused with nothing changed. *)
Theorem sigprocmask_correct t how s : 0 <= how <= 2 ->
  exists t', signal_do_sigprocmask t how (Some s) = (t', blocked t, 0) /\
    t' = set_blocked t (blocked t') /\
    forall i, 0 <= i < 64 -> Z.testbit (blocked t') i =
      (if how =? SIG_BLOCK then Z.testbit (blocked t) i || Z.testbit s i
       else if how =? SIG_UNBLOCK then Z.testbit (blocked t) i && negb (Z.testbit s i)
       else Z.testbit s i) && negb (i =? SIGKILL) && negb (i =? SIGSTOP).
Proof.
  intros Hh. unfold signal_do_sigprocmask, SIG_BLOCK, SIG_UNBLOCK, SIG_SETMASK.
  destruct (Z.eqb_spec how 0); [| destruct (Z.eqb_spec how 1); [| replace (how =? 2) with true by (symmetry; apply Z.eqb_eq; lia)]];
    eexists; (split; [reflexivity |]); (split; [done |]); intros i Hi; cbn [blocked set_blocked set_sets];
    rewrite !clear_sig by (unfold SIGSTOP, SIGKILL; lia); rewrite ?Z.lor_spec, ?Z.land_spec, ?not64_testbit by lia; done.
Qed.

Lemma sigprocmask_witness :
  exists t', signal_do_sigprocmask demo_task 2 (Some UINT64_MAX) = (t', 0, 0) /\ t' = set_blocked demo_task (blocked t') /\
    forall i, 0 <= i < 64 -> Z.testbit (blocked t') i = Z.testbit UINT64_MAX i && negb (i =? SIGKILL) && negb (i =? SIGSTOP).
Proof. apply (sigprocmask_correct demo_task 2 UINT64_MAX). lia. Defined.

(** The mask of an action is not cleaned in the same way: with SIGKILL in it, a
    task that is in the handler does not see SIGKILL. *)
Theorem sa_mask_blocks_sigkill t acts um sig h sp0 a : length acts = 32%nat -> length (frame t) = TF_WORDS -> 1 <= sig < 32 ->
  rd (frame t) TF_SP = Ret sp0 -> 336 <= sp0 < 2 ^ 64 -> frame_fits t = true ->
  acts !! Z.to_nat sig = Some a -> Z.testbit (sa_mask a) SIGKILL = true ->
  exists t' um', setup_signal_frame_locked t acts um sig h = Ret (Some (t', um')) /\
    forall p, deliverable (set_pending t' p) acts SIGKILL = false.
Proof.
  intros Hl Hf Hs Hsp Hb Hfit Ha Hm. destruct (setup_spec t acts um sig h sp0) as (t' & um' & Hset & Hent & _); try done.
  exists t', um'. split; [done |]. intros p. destruct Hent as (_ & _ & _ & _ & _ & _ & _ & _ & Hblk).
  unfold deliverable. cbn [blocked set_pending set_sets]. rewrite Hblk, Ha, Hm by (unfold SIGKILL; lia).
  by rewrite orb_true_r, andb_false_r.
Qed.

Lemma sa_mask_blocks_sigkill_witness : exists t' um',
  setup_signal_frame_locked demo_task (<[10%nat := mk_act 0x1000 UINT64_MAX 0]> demo_acts) (fun _ => 0) 10 0x1000 = Ret (Some (t', um')) /\
  forall p, deliverable (set_pending t' p) (<[10%nat := mk_act 0x1000 UINT64_MAX 0]> demo_acts) SIGKILL = false.
Proof.
  apply (sa_mask_blocks_sigkill demo_task (<[10%nat := mk_act 0x1000 UINT64_MAX 0]> demo_acts) (fun _ => 0) 10 0x1000 0x8000 (mk_act 0x1000 UINT64_MAX 0));
    (reflexivity || lia).
Defined.

(** Word 32 of the trap frame is [sstatus]. *)
Definition TF_SSTATUS : Z := 32.

(** What a task returns with is what its memory says, the saved status register
    with its privilege bits included. *)
Theorem sigreturn_takes_any_frame t um l : sigframe_sp t <> 0 -> 0 <= sigframe_sp t < 2 ^ 64 - 8 * 38 ->
  user_access_ok (sigframe_sp t) SIGFRAME_SIZE = true -> length l = TF_WORDS ->
  (forall i w, l !! i = Some w -> um (sigframe_sp t + 8 * Z.of_nat i) = w) ->
  exists t' a0, signal_do_sigreturn t um = Ret (t', a0) /\ frame t' = l /\
    rd (frame t') TF_SSTATUS = Ret (um (sigframe_sp t + 256)).
Proof.
  intros H0 Hb Hok Hl Hum. unfold signal_do_sigreturn. rewrite Hok. destruct (Z.eqb_spec (sigframe_sp t) 0); [done |]. cbn [negb].
  rewrite (get_words_spec um TF_WORDS (sigframe_sp t) l) by (done || (unfold TF_WORDS; lia)). cbn [frame set_frame].
  destruct (rd_in_range l TF_A0) as [a0 Ha0]; [unfold TF_A0, TF_WORDS in *; lia |]. rewrite Ha0. do 2 eexists. split_and!; [done | done |].
  cbn [frame set_frame]. destruct (rd_in_range l TF_SSTATUS) as [v Hv]; [unfold TF_SSTATUS, TF_WORDS in *; lia |]. rewrite Hv.
  apply rd_ret in Hv as [_ Hv]. by rewrite <- (Hum _ _ Hv).
Qed.

(** The sum in [user_access_ok] wraps: a stack pointer below the size of the frame
    puts the frame at the top of the address space, which passes the check. *)
Theorem frame_at_top sp : 0 <= sp < 320 ->
  let sp' := Z.land (u64 (sp - SIGFRAME_SIZE)) (not64 0xf) in
  2 ^ 64 - 336 < sp' /\ user_access_ok sp' SIGFRAME_SIZE = true.
Proof.
  intros H. cbv zeta. unfold user_access_ok, SIGFRAME_SIZE, USER_SPACE_SIZE_MAX. change 15 with (2 ^ 4 - 1).
  rewrite land_align_down by (pose proof (u64_bound (sp - 320)); lia).
  assert (E : u64 (sp - 320) = sp - 320 + 2 ^ 64) by (unfold u64, wrap; zdm). rewrite E.
  split; [zdm |]. apply Z.leb_le. unfold u64, wrap. zdm.
Qed.

(** One address is kept for the frame: a handler entered while another runs
    (SA_NODEFER) takes it over, and once it has returned the outer one cannot. *)
Theorem second_sigreturn_fails t um t' r : sigframe_sp t <> 0 -> user_access_ok (sigframe_sp t) SIGFRAME_SIZE = true ->
  signal_do_sigreturn t um = Ret (t', r) ->
  forall um', signal_do_sigreturn t' um' = Ret (t', u64 (- EINVAL)).
Proof.
  intros H0 Hok. unfold signal_do_sigreturn at 1. rewrite Hok. destruct (Z.eqb_spec (sigframe_sp t) 0); [done |]. cbn [negb].
  destruct (rd _ TF_A0); [| done]. intros [= <- <-] um'. done.
Qed.

(** ** Sending *)

Definition raise (sig : Z) (p : task) : task := set_pending p (Z.lor (pending p) (sig_bit sig)).

(** Who gets the signal. *)
Definition hit (sel may : task -> bool) (sig : Z) (p : task) : bool :=
  negb (sig =? 0) && sel p && may p && negb (zombie p).

Definition raise_hit (sel may : task -> bool) (sig : Z) (p : task) : task :=
  if hit sel may sig p then raise sig p else p.

Lemma send_loop_spec sel may sig l : sig = 0 \/ sig_valid sig = true ->
  send_loop sel may sig l = mk_sent (raise_hit sel may sig <$> l) (pid <$> filter (fun p => hit sel may sig p = true) l)
    (existsb sel l) (existsb (fun p => sel p && may p) l).
Proof.
  intros Hsig. induction l as [| p l IH]; [done |]. cbn [send_loop existsb]. rewrite IH, fmap_cons, filter_cons.
  destruct (hit sel may sig p) eqn:Eh; [rewrite decide_True by done | rewrite decide_False by done];
    change (raise_hit sel may sig p) with (if hit sel may sig p then raise sig p else p); rewrite Eh; unfold hit in Eh; unfold signal_send;
    destruct (sel p), (may p), (zombie p); cbn [negb andb orb] in *;
    (destruct (Z.eqb_spec sig 0) as [-> | Hne]; [done |]); destruct Hsig as [-> | Hv]; try done; rewrite Hv; done.
Qed.

Lemma kill_one_spec may k sig l : NoDup (pid <$> l) -> sig = 0 \/ sig_valid sig = true ->
  let sel p := pid p =? k in
  kill_one may l k sig = (raise_hit sel may sig <$> l, pid <$> filter (fun p => hit sel may sig p = true) l,
    if existsb (fun p => sel p && may p && negb (zombie p)) l then 0
    else if existsb (fun p => sel p && negb (may p)) l then - EPERM else - ESRCH).
Proof.
  intros Hnd Hsig sel.
  assert (Hoff : forall l', k ∉ (pid <$> l') -> raise_hit sel may sig <$> l' = l' /\ filter (fun p => hit sel may sig p = true) l' = [] /\
    existsb (fun p => sel p && may p && negb (zombie p)) l' = false /\ existsb (fun p => sel p && negb (may p)) l' = false).
  { induction l' as [| p l' IH']; [done |]. intros Hk. rewrite fmap_cons, not_elem_of_cons in Hk. destruct Hk as [Hne Hk].
    destruct (IH' Hk) as (H1 & H2 & H3 & H4). rewrite fmap_cons, filter_cons, H1, H2. cbn [existsb]. rewrite H3, H4.
    unfold raise_hit, hit, sel. destruct (Z.eqb_spec (pid p) k); [congruence |]. rewrite !andb_false_r. done. }
  induction l as [| p l IH]; [done |]. rewrite fmap_cons, list.NoDup_cons in Hnd. destruct Hnd as [Hp Hnd].
  cbn [kill_one existsb]. rewrite fmap_cons, filter_cons. change (raise_hit sel may sig p) with (if hit sel may sig p then raise sig p else p). change (sel p) with (pid p =? k).
  assert (Hhit : hit sel may sig p = negb (sig =? 0) && (pid p =? k) && may p && negb (zombie p)) by done. rewrite Hhit.
  destruct (Z.eqb_spec (pid p) k) as [E | E].
  - rewrite E in Hp. destruct (Hoff l Hp) as (H1 & H2 & H3 & H4). rewrite H1, H2, H3, H4. cbn [andb orb]. rewrite !andb_true_r.
    destruct (may p); cbn [negb andb orb]; [| by rewrite !andb_false_r].
    destruct (zombie p); cbn [negb andb orb]; [by rewrite !andb_false_r |]. rewrite !andb_true_r. by destruct (sig =? 0).
  - rewrite IH by done. cbn [andb orb]. rewrite !andb_false_r. done.
Qed.

Lemma existsb_ext {A} (f g : A -> bool) l : (forall x, f x = g x) -> existsb f l = existsb g l.
Proof. intros H. induction l as [| x l IH]; [done |]. cbn [existsb]. by rewrite H, IH. Qed.

(** If no selected task may be sent to, one is found iff one refuses. *)
Lemma existsb_refused {A} (sel may : A -> bool) l : existsb (fun p => sel p && may p && true) l = false ->
  existsb sel l = existsb (fun p => sel p && negb (may p)) l.
Proof.
  induction l as [| p l IH]; [done |]. cbn [existsb]. intros [H1 H2]%orb_false_iff. rewrite IH by done.
  by destruct (sel p), (may p).
Qed.

(** The tasks [kill(k, sig)] is about. *)
Definition selected (current : task) (k : Z) (p : task) : bool :=
  if 0 <? k then pid p =? k
  else (pid p =? tgid p) && ((k =? -1) || (pgid p =? (if k =? 0 then pgid current else - k))).

(** [kill] raises the signal in exactly the selected tasks that may be sent
    to and are not zombies, wakes exactly those, and fails with EPERM when
    permission was all that was missing and with ESRCH when nobody was there;
    signal 0 only asks; an invalid signal is refused with nothing changed. *)
Theorem signal_do_kill_correct may current l k sig : NoDup (pid <$> l) -> - 2 ^ 31 < k -> 0 < pgid current ->
  let sel := selected current k in
  signal_do_kill may current l k sig =
  if negb (sig =? 0) && negb (sig_valid sig) then (l, [], - EINVAL)
  else (raise_hit sel may sig <$> l, pid <$> filter (fun p => hit sel may sig p = true) l,
        if existsb (fun p => sel p && may p && negb ((0 <? k) && zombie p)) l then 0
        else if existsb (fun p => sel p && negb (may p)) l then - EPERM else - ESRCH).
Proof.
  intros Hnd Hk Hpg sel. unfold signal_do_kill. destruct (negb (sig =? 0) && negb (sig_valid sig)) eqn:Ev; [done |].
  assert (Hsig : sig = 0 \/ sig_valid sig = true).
  { apply andb_false_iff in Ev as [Ev | Ev]; apply negb_false_iff in Ev; [left; by apply Z.eqb_eq | by right]. }
  assert (Hgrp : forall f, (forall p, f p = sel p) -> k <= 0 ->
    (tasks (send_loop f may sig l), woken (send_loop f may sig l), sent_result (send_loop f may sig l)) =
    (raise_hit sel may sig <$> l, pid <$> filter (fun p => hit sel may sig p = true) l,
        if existsb (fun p => sel p && may p && negb ((0 <? k) && zombie p)) l then 0
        else if existsb (fun p => sel p && negb (may p)) l then - EPERM else - ESRCH)).
  { intros f Hf Hle. rewrite send_loop_spec by done. unfold sent_result. cbn [tasks woken sent found].
    replace (0 <? k) with false by (symmetry; apply Z.ltb_ge; lia). cbn [andb negb]. f_equal; [f_equal |].
    - apply list_fmap_ext. intros i p _. unfold raise_hit, hit. by rewrite Hf.
    - f_equal. apply list_filter_iff. intros p. unfold hit. by rewrite Hf.
    - rewrite (existsb_ext f sel), (existsb_ext (fun p => f p && may p) (fun p => sel p && may p && true)) by (intros p; by rewrite ?Hf, ?andb_true_r).
      destruct (existsb (fun p => sel p && may p && true) l) eqn:E; [done |]. by rewrite (existsb_refused sel may). }
  destruct (Z.leb_spec k 0).
  - destruct (Z.eqb_spec k (-1)) as [-> | Hne].
    + apply Hgrp; [| lia]. intros p. unfold sel, selected. simpl. by rewrite andb_true_r.
    + unfold signal_kill_pgrp. rewrite Ev. destruct (Z.leb_spec (if k =? 0 then pgid current else s32 (- k)) 0) as [Hbad | _].
      { destruct (Z.eqb_spec k 0); [lia |]. rewrite swrap_small in Hbad by lia. lia. }
      apply Hgrp; [| lia]. intros p. unfold sel, selected. destruct (Z.ltb_spec 0 k); [lia |]. destruct (Z.eqb_spec k (-1)); [done |].
      rewrite andb_comm. cbn [orb]. destruct (Z.eqb_spec k 0); [done |]. by rewrite swrap_small by lia.
  - rewrite kill_one_spec by done. unfold sel, selected. destruct (Z.ltb_spec 0 k); [done | lia].
Qed.

(** Task 1 interrupts the group of tasks 1 to 3, of which 3 is another user's. *)
Definition demo_tasks : list task :=
  (fun '(p, u, z) => mk_task p p 1 u z 0 0 false 0 1 []) <$> [(1, 5, false); (2, 5, true); (3, 6, false); (4, 5, false)].

Lemma demo_tasks_nodup : NoDup (pid <$> demo_tasks).
Proof. apply (bool_decide_eq_true_1 (NoDup (pid <$> demo_tasks))). reflexivity. Defined.

Lemma signal_do_kill_witness :
  let may := fun p => euid p =? 5 in
  let cur := mk_task 1 1 1 5 false 0 0 false 0 1 [] in
  signal_do_kill may cur demo_tasks 0 2 =
    (raise_hit (selected cur 0) may 2 <$> demo_tasks, [1; 4], 0) /\ signal_do_kill may cur demo_tasks 3 2 = (demo_tasks, [], - EPERM).
Proof.
  split.
  - exact (signal_do_kill_correct (fun p => euid p =? 5) (mk_task 1 1 1 5 false 0 0 false 0 1 []) demo_tasks 0 2
      demo_tasks_nodup ltac:(lia) ltac:(reflexivity)).
  - exact (signal_do_kill_correct (fun p => euid p =? 5) (mk_task 1 1 1 5 false 0 0 false 0 1 []) demo_tasks 3 2
      demo_tasks_nodup ltac:(lia) ltac:(reflexivity)).
Defined.

(** ** The life of a table *)

Definition holders (ts : list task) (k : Z) : Z := Z.of_nat (length (filter (fun t => sigactions t = k) ts)).

(** Every task has a live table, whose count is the number of its tasks. *)
Definition tables_ok (tabs : gmap Z sigaction_table) (ts : list task) : Prop :=
  (forall k tb, tabs !! k = Some tb -> k <> 0 /\ t_refcnt tb = holders ts k /\ 0 < t_refcnt tb /\ length (actions tb) = 32%nat) /\
  Forall (fun t => is_Some (tabs !! sigactions t)) ts.

(** A task is made with a table of its own or its maker's, or goes away. *)
Inductive table_op : Set :=
| New (t : task) (fresh : option Z)
| Share (t maker : task) (b : Z)
| Gone (t : task) (others : list task).

Definition table_op_ok (tabs : gmap Z sigaction_table) (ts : list task) (op : table_op) : Prop :=
  match op with
  | New _ fresh => forall k, fresh = Some k -> k <> 0 /\ tabs !! k = None
  | Share _ maker _ => maker ∈ ts
  | Gone t others => ts ≡ₚ t :: others
  end.

Definition table_step (tabs : gmap Z sigaction_table) (ts : list task) (op : table_op) : res (gmap Z sigaction_table * list task) :=
  match op with
  | New t fresh =>
      let! r := signal_init tabs t None 0 fresh in
      let '(tabs', t', e) := r in
      if e =? 0 then Ret (tabs', t' :: ts) else let! tabs' := signal_deinit tabs' t' in Ret (tabs', ts)
  | Share t maker b =>
      let! r := signal_init tabs t (Some (sigactions maker)) b None in
      let '(tabs', t', _) := r in Ret (tabs', t' :: ts)
  | Gone t others => let! tabs' := signal_deinit tabs t in Ret (tabs', others)
  end.

Lemma holders_cons t ts k : holders (t :: ts) k = (if decide (sigactions t = k) then 1 else 0) + holders ts k.
Proof. unfold holders. rewrite filter_cons. destruct (decide (sigactions t = k)); cbn [length]; lia. Qed.

Lemma holders_perm ts ts' k : ts ≡ₚ ts' -> holders ts k = holders ts' k.
Proof. intros H. unfold holders. by rewrite H. Qed.

Lemma holders_none tabs ts k : tables_ok tabs ts -> tabs !! k = None -> holders ts k = 0.
Proof.
  intros [_ Hall] Hk. unfold holders. induction Hall as [| t ts Ht _ IH]; [done |]. rewrite filter_cons.
  destruct (decide (sigactions t = k)) as [<- |]; [| done]. rewrite Hk in Ht. by destruct Ht.
Qed.

Lemma live_insert (tabs : gmap Z sigaction_table) ts k tb : Forall (fun t => is_Some (tabs !! sigactions t)) ts ->
  Forall (fun t => is_Some (<[k := tb]> tabs !! sigactions t)) ts.
Proof.
  intros H. eapply list.Forall_impl; [exact H |]. intros t [tb' Ht].
  destruct (decide (k = sigactions t)) as [-> | Hne]; [rewrite lookup_insert_eq | rewrite lookup_insert_ne by done]; by eexists.
Qed.

Lemma new_ok tabs ts t k : tables_ok tabs ts -> k <> 0 -> tabs !! k = None ->
  exists tabs' ts', table_step tabs ts (New t (Some k)) = Ret (tabs', ts') /\ tables_ok tabs' ts'.
Proof.
  intros Hok Hk0 Hk. pose proof Hok as [Htab Hall]. cbn [table_step]. unfold signal_init, sigaction_table_alloc. rewrite lookup_insert_eq.
  cbn [Z.eqb signal_reset]. do 2 eexists. split; [done |]. rewrite insert_insert_eq. split.
  - intros k' tb' Hl. rewrite holders_cons. cbn [sigactions signal_reset_signal_sets_locked set_sets set_table].
    destruct (decide (k = k')) as [<- | Hne].
    + rewrite lookup_insert_eq in Hl. injection Hl as <-. rewrite (holders_none tabs ts k) by done. done.
    + rewrite lookup_insert_ne in Hl by done. by apply Htab.
  - apply list.Forall_cons. split; [cbn; rewrite lookup_insert_eq; by eexists |]. by apply live_insert.
Qed.

Lemma share_ok tabs ts t maker b : tables_ok tabs ts -> maker ∈ ts -> Z.of_nat (length ts) + 1 < 2 ^ 32 ->
  exists tabs' ts', table_step tabs ts (Share t maker b) = Ret (tabs', ts') /\ tables_ok tabs' ts'.
Proof.
  intros [Htab Hall] Hm Hlen. cbn [table_step]. pose proof Hall as Hall'. rewrite list.Forall_forall in Hall'. destruct (Hall' maker Hm) as [tb Htb].
  destruct (Htab _ _ Htb) as (Hk0 & Hcnt & Hpos & Hact).
  set (k := sigactions maker) in *. unfold signal_init, sigaction_table_get. rewrite Htb. do 2 eexists. split; [done |]. split.
  - intros k' tb' Hl. rewrite holders_cons. cbn [sigactions signal_reset_signal_sets_locked set_sets set_table set_blocked].
    destruct (decide (k = k')) as [<- | Hne].
    + rewrite lookup_insert_eq in Hl. injection Hl as <-. cbn [t_refcnt actions]. unfold refcnt_inc, refcnt_inc_fetch. cbn [fst].
      pose proof (length_filter (fun t => sigactions t = k) ts) as Hle. unfold holders in *. rewrite u32_small by lia. split_and!; (done || lia).
    + rewrite lookup_insert_ne in Hl by done. by apply Htab.
  - apply list.Forall_cons. split; [cbn; rewrite lookup_insert_eq; by eexists |]. by apply live_insert.
Qed.

Lemma gone_ok tabs ts t others : tables_ok tabs ts -> ts ≡ₚ t :: others ->
  exists tabs' ts', table_step tabs ts (Gone t others) = Ret (tabs', ts') /\ tables_ok tabs' ts'.
Proof.
  intros [Htab Hall] Hop. cbn [table_step]. rewrite Hop in Hall. apply list.Forall_cons in Hall as [[tb Htb] Hall].
  destruct (Htab _ _ Htb) as (Hk0 & Hcnt & Hpos & Hact).
  assert (Hh : forall k, holders ts k = (if decide (sigactions t = k) then 1 else 0) + holders others k)
    by (intros k; rewrite (holders_perm _ _ k Hop); apply holders_cons).
  assert (Hother : forall k tb', sigactions t <> k -> tabs !! k = Some tb' ->
    k <> 0 /\ t_refcnt tb' = holders others k /\ 0 < t_refcnt tb' /\ length (actions tb') = 32%nat).
  { intros k tb' Hne Hl. destruct (Htab _ _ Hl) as (? & Hc & ? & ?). rewrite Hh, decide_False in Hc by done. split_and!; (done || lia). }
  unfold signal_deinit, sigaction_table_put. destruct (Z.eqb_spec (sigactions t) 0); [done |]. rewrite Htb.
  unfold refcnt_dec_fetch. destruct (Z.ltb_spec 0 (t_refcnt tb)); [| lia]. rewrite Hh, decide_True in Hcnt by done.
  destruct (Z.ltb_spec 0 (t_refcnt tb - 1)) as [Hmore | Hlast]; do 2 eexists; (split; [done |]); split.
  - intros k' tb' Hl. destruct (decide (sigactions t = k')) as [<- | Hne].
    + rewrite lookup_insert_eq in Hl. injection Hl as <-. cbn [t_refcnt actions]. split_and!; (done || lia).
    + rewrite lookup_insert_ne in Hl by done. by apply Hother.
  - by apply live_insert.
  - intros k' tb' Hl. apply lookup_delete_Some in Hl as [Hne Hl]. by apply Hother.
  - apply list.Forall_forall. intros t0 Ht0. rewrite list.Forall_forall in Hall. destruct (Hall t0 Ht0) as [tb0 Htb0].
    rewrite lookup_delete_ne; [by eexists |]. intros E.
    assert (Hin : t0 ∈ filter (fun t1 => sigactions t1 = sigactions t) others) by (apply list_elem_of_filter; done).
    unfold holders in Hcnt. destruct (filter _ others); [by apply elem_of_nil in Hin | cbn [length] in Hcnt; lia].
Qed.

(** Making a task, with its own table of actions or its maker's, and
    dropping one keep the count of each table equal to the number of its tasks;
    a table is freed with its last task, never before, and no freed table is
    touched. *)
Theorem tables_counted tabs ts op : tables_ok tabs ts -> table_op_ok tabs ts op -> Z.of_nat (length ts) + 1 < 2 ^ 32 ->
  exists tabs' ts', table_step tabs ts op = Ret (tabs', ts') /\ tables_ok tabs' ts'.
Proof.
  intros Hok Hop Hlen. destruct op as [t [k |] | t maker b | t others]; cbn [table_op_ok] in Hop.
  - destruct (Hop k eq_refl). by apply new_ok.
  - by do 2 eexists.
  - by apply share_ok.
  - by apply gone_ok.
Qed.

Lemma tables_counted_witness :
  tables_ok ∅ [] /\ exists tabs' ts', table_step ∅ [] (New demo_task (Some 8)) = Ret (tabs', ts') /\ tables_ok tabs' ts'.
Proof.
  assert (H : tables_ok ∅ []) by (split; [intros k tb Hk; by rewrite lookup_empty in Hk | apply list.Forall_nil; done]).
  split; [exact H |]. apply (tables_counted ∅ [] (New demo_task (Some 8))); [exact H | intros k [= <-]; split; [lia | reflexivity] | simpl; lia].
Defined.
