(* ===== verification/Checksum.v ===== *)
(** * The Internet checksum: net/checksum.c

    Data is a list of bytes.  The accumulator keeps a 32-bit sum of big-endian
    16-bit words; folding it gives the one's-complement sum, of which the
    complement is stored, byte-swapped, in the packet. *)

From S2P Require Import Prelude.

Definition htons (x : Z) : Z := u16 (Z.lor (Z.shiftr (u16 x) 8) (Z.shiftl (u16 x) 8)).

Fixpoint inet_csum_add (sum : Z) (p : list Z) : Z :=
  match p with
  | a :: b :: p' => inet_csum_add (u32 (sum + Z.lor (u32 (Z.shiftl a 8)) b)) p'
  | [a] => u32 (sum + u32 (Z.shiftl a 8))
  | [] => sum
  end.

(** [while (sum >> 16)]; two turns do. *)
Fixpoint fold_loop (sum : Z) (fuel : nat) : res Z :=
  if Z.shiftr sum 16 =? 0 then Ret sum
  else
    match fuel with
    | O => Halt Fuel
    | S fuel' => fold_loop (u32 (Z.land sum 0xffff + Z.shiftr sum 16)) fuel'
    end.

Definition inet_csum_fold (sum : Z) : res Z :=
  let! sum := fold_loop sum 2 in Ret (htons (u16 (Z.lnot sum))).

Definition inet_csum (data : list Z) : res Z := inet_csum_fold (inet_csum_add 0 data).

(** ** The sum *)

(** The 16-bit words of the data, the last one padded with zero. *)
Fixpoint words (p : list Z) : list Z :=
  match p with
  | a :: b :: p' => 256 * a + b :: words p'
  | [a] => [256 * a]
  | [] => []
  end.

Definition sumw (l : list Z) : Z := foldr Z.add 0 l.
Definition bytes (p : list Z) : Prop := Forall (fun b => 0 <= b < 256) p.

(** The representative of [s] modulo 65535 that is zero for 0 only. *)
Definition ones_sum (s : Z) : Z := if s =? 0 then 0 else (s - 1) mod 65535 + 1.

Lemma even_ind {A} (P : list A -> Prop) : P [] -> (forall a b p, P p -> P (a :: b :: p)) ->
  forall p, Nat.Even (length p) -> P p.
Proof.
  intros H0 H2 p. remember (length p) as n eqn:E. revert p E. induction n as [n IH] using lt_wf_ind. intros [| a [| b p]] E He.
  - done.
  - subst. by destruct He as [[| k] Hk]; simpl in Hk; lia.
  - apply H2, (IH (length p)); [subst; simpl; lia | done |]. destruct He as [k Hk]. exists (k - 1)%nat. subst. simpl in *. lia.
Qed.

Lemma words_app p q : Nat.Even (length p) -> words (p ++ q) = words p ++ words q.
Proof. revert p. apply even_ind; [done |]. intros a b p IH. cbn [words app]. by rewrite IH. Qed.

Lemma sumw_app l l' : sumw (l ++ l') = sumw l + sumw l'.
Proof. unfold sumw. induction l as [| x l IH]; simpl; lia. Qed.

Lemma words_bounds (n : nat) : forall p, (length p <= n)%nat -> bytes p -> 0 <= sumw (words p) /\ 2 * sumw (words p) <= 65535 * (Z.of_nat (length p) + 1).
Proof.
  induction n as [| n IH]; intros [| a [| b p]] Hn Hb; try (simpl in *; lia).
  - apply list.Forall_cons in Hb as [Ha _]. unfold sumw. cbn [words foldr length]. lia.
  - apply list.Forall_cons in Hb as [Ha Hb]. apply list.Forall_cons in Hb as [Hb Hp]. cbn [words sumw foldr].
    destruct (IH p) as [H1 H2]; [simpl in Hn; lia | done |]. unfold sumw in *. cbn [length]. lia.
Qed.

Lemma byte_word a b : 0 <= a < 256 -> 0 <= b < 256 -> Z.lor (u32 (Z.shiftl a 8)) b = 256 * a + b.
Proof.
  intros Ha Hb. rewrite Z.shiftl_mul_pow2 by lia. rewrite u32_small by lia. rewrite (Z.mul_comm 256 a).
  exact (lor_pack a b 8 ltac:(lia) ltac:(lia)).
Qed.

(** The accumulator is the sum of the words as long as that fits 32 bits. *)
Lemma csum_add_spec (n : nat) : forall p s, (length p <= n)%nat -> bytes p -> 0 <= s -> s + sumw (words p) < 2 ^ 32 ->
  inet_csum_add s p = s + sumw (words p).
Proof.
  induction n as [| n IH]; intros [| a [| b p]] s Hn Hb Hs Hlt; try (simpl in *; lia); cbn [inet_csum_add].
  - apply list.Forall_cons in Hb as [Ha _]. rewrite Z.shiftl_mul_pow2 by lia. cbn [words sumw foldr] in *.
    rewrite (u32_small (a * 2 ^ 8)) by lia. rewrite u32_small by lia. lia.
  - apply list.Forall_cons in Hb as [Ha Hb]. apply list.Forall_cons in Hb as [Hb Hp].
    pose proof (words_bounds n p ltac:(simpl in Hn; lia) Hp) as [Hpos _]. rewrite byte_word by done. cbn [words sumw foldr] in *. fold (sumw (words p)) in *.
    rewrite u32_small by lia. rewrite IH by (done || simpl in Hn; lia). lia.
Qed.

(** ** Folding *)

Lemma fold_step s : 65536 <= s < 2 ^ 32 ->
  let s' := u32 (Z.land s 0xffff + Z.shiftr s 16) in s' = s mod 65536 + s / 65536.
Proof.
  intros H. cbv zeta. change 0xffff with (2 ^ 16 - 1). rewrite land_ones_mod, Z.shiftr_div_pow2 by lia.
  rewrite u32_small by (change (2 ^ 16) with 65536; zdm). done.
Qed.

Lemma ones_sum_step s : 65536 <= s -> ones_sum (s mod 65536 + s / 65536) = ones_sum s.
Proof.
  intros H. unfold ones_sum. destruct (Z.eqb_spec (s mod 65536 + s / 65536) 0); [zdm |]. destruct (Z.eqb_spec s 0); [lia |].
  f_equal. replace (s mod 65536 + s / 65536 - 1) with (s - 1 + - (s / 65536) * 65535) by zdm. apply Z_mod_plus_full.
Qed.

Lemma ones_sum_small s : 0 <= s < 65536 -> ones_sum s = s.
Proof. intros H. unfold ones_sum. destruct (Z.eqb_spec s 0); [lia |]. rewrite Z.mod_small by lia. lia. Qed.

Lemma fold_spec s : 0 <= s < 2 ^ 32 -> fold_loop s 2 = Ret (ones_sum s).
Proof.
  intros H.
  assert (Hstop : forall s' fuel, 0 <= s' < 65536 -> fold_loop s' fuel = Ret s').
  { intros s' fuel Hs. destruct fuel; cbn [fold_loop]; rewrite Z.shiftr_div_pow2, Z.div_small by lia; done. }
  assert (Hgo : forall s' fuel, 65536 <= s' < 2 ^ 32 -> fold_loop s' (S fuel) = fold_loop (s' mod 65536 + s' / 65536) fuel).
  { intros s' fuel Hs. cbn [fold_loop]. rewrite fold_step by done. destruct (Z.eqb_spec (Z.shiftr s' 16) 0) as [E |]; [| done].
    rewrite Z.shiftr_div_pow2 in E by lia. zdm. }
  destruct (Z.lt_ge_cases s 65536); [rewrite Hstop, ones_sum_small by lia; done |]. rewrite Hgo by lia. rewrite <- ones_sum_step by lia.
  set (s1 := s mod 65536 + s / 65536) in *. assert (0 <= s1 <= 131070) by (unfold s1; zdm).
  destruct (Z.lt_ge_cases s1 65536); [rewrite Hstop, ones_sum_small by lia; done |]. rewrite Hgo by lia. rewrite <- ones_sum_step by lia.
  rewrite Hstop, ones_sum_small; [done | zdm | zdm].
Qed.

Lemma ones_sum_bounds s : 0 <= s -> 0 <= ones_sum s <= 65535.
Proof. intros H. unfold ones_sum. destruct (Z.eqb_spec s 0); zdm. Qed.

Lemma ones_sum_eq x y : ones_sum x = ones_sum y -> exists k, x - y = 65535 * k.
Proof.
  unfold ones_sum. pose proof (Z.mod_pos_bound (x - 1) 65535). pose proof (Z.mod_pos_bound (y - 1) 65535).
  destruct (Z.eqb_spec x 0), (Z.eqb_spec y 0); intros E; [exists 0; lia | lia | lia |].
  exists ((x - 1) / 65535 - (y - 1) / 65535). pose proof (Z.div_mod (x - 1) 65535). pose proof (Z.div_mod (y - 1) 65535). lia.
Qed.

Lemma htons_val x : 0 <= x < 65536 -> htons x = 256 * (x mod 256) + x / 256.
Proof.
  intros H. unfold htons. rewrite (wrap_small 16 x) by lia. rewrite Z.shiftr_div_pow2, Z.shiftl_mul_pow2, Z.lor_comm by lia.
  rewrite lor_pack by zdm. unfold wrap. zdm.
Qed.

Lemma htons_inj x y : 0 <= x < 65536 -> 0 <= y < 65536 -> htons x = htons y -> x = y.
Proof. intros Hx Hy. rewrite !htons_val by done. intros E. zdm. Qed.

(** The checksum of data of at most 128 KiB. *)
Lemma csum_spec p : bytes p -> Z.of_nat (length p) <= 131072 ->
  inet_csum p = Ret (htons (65535 - ones_sum (sumw (words p)))).
Proof.
  intros Hb Hlen. destruct (words_bounds (length p) p) as [H0 H1]; [done | done |]. unfold inet_csum, inet_csum_fold.
  rewrite (csum_add_spec (length p)) by (done || lia). rewrite Z.add_0_l, fold_spec by lia.
  pose proof (ones_sum_bounds _ H0). do 2 f_equal. unfold wrap, Z.lnot. zdm.
Qed.

(** ** Fields of headers *)

(** A load of [n] bytes at [off]. *)
Definition field (d : list Z) (off n : Z) : res Z := let! l := rd_slice d off n in Ret (le_dec l).

Lemma bytes_app p q : bytes (p ++ q) <-> bytes p /\ bytes q.
Proof. apply list.Forall_app. Qed.

Lemma bytes_cons b p : bytes (b :: p) <-> 0 <= b < 256 /\ bytes p.
Proof. unfold bytes. by rewrite list.Forall_cons. Qed.

Lemma le_enc_bytes n v : bytes (le_enc n v).
Proof. revert v. induction n as [| n IH]; intros v; simpl; [constructor |]. apply bytes_cons. split; [zdm | done]. Qed.

Lemma le_enc_dec l : bytes l -> le_enc (length l) (le_dec l) = l.
Proof.
  induction l as [| b l IH]; intros H; simpl; [done |]. apply bytes_cons in H as [Hb Hl]. f_equal; [zdm |].
  replace ((b + 256 * le_dec l) / 256) with (le_dec l) by zdm. by apply IH.
Qed.

Lemma le_dec_bound l : bytes l -> 0 <= le_dec l < 256 ^ Z.of_nat (length l).
Proof.
  induction l as [| b l IH]; intros H; [done |]. apply bytes_cons in H as [Hb Hl]. specialize (IH Hl). cbn [le_dec length].
  rewrite Nat2Z.inj_succ, Z.pow_succ_r by lia. lia.
Qed.

Lemma rev_bytes l : bytes l -> bytes (rev l).
Proof. intros H. unfold bytes in *. rewrite list.Forall_forall in *. intros x Hx. apply H. by rewrite list_elem_of_In, <- in_rev, <- list_elem_of_In in Hx. Qed.

Lemma htons_bound x : 0 <= htons x < 65536.
Proof. apply (wrap_bound 16). lia. Qed.

Lemma htons_htons x : 0 <= x < 65536 -> htons (htons x) = x.
Proof. intros H. rewrite (htons_val (htons x)) by apply htons_bound. rewrite htons_val by done. zdm. Qed.

Lemma words_pos p : bytes p -> 0 <= sumw (words p).
Proof. intros H. by apply (words_bounds (length p) p). Qed.

Lemma field_ret d off n v : 0 <= off -> 0 <= n -> off + n <= Z.of_nat (length d) -> take (Z.to_nat n) (drop (Z.to_nat off) d) = le_enc (Z.to_nat n) v ->
  0 <= v < 256 ^ n -> field d off n = Ret v.
Proof.
  intros H1 H2 H3 E Hv. unfold field. rewrite rd_slice_ret by done. rewrite E. simpl. f_equal. apply le_roundtrip. by rewrite Z2Nat.id.
Qed.

Lemma field_bound d off n : bytes d -> 0 <= off -> 0 <= n -> off + n <= Z.of_nat (length d) -> exists v, field d off n = Ret v /\ 0 <= v < 256 ^ n.
Proof.
  intros Hb H1 H2 H3. unfold field. rewrite rd_slice_ret by done. eexists. split; [done |].
  pose proof (le_dec_bound (take (Z.to_nat n) (drop (Z.to_nat off) d)) (list.Forall_take _ _ _ (list.Forall_drop _ _ _ Hb))) as H.
  rewrite length_take, length_drop, Nat.min_l, Z2Nat.id in H by lia. done.
Qed.

(** A checksum field, at an even offset, filled with the checksum of the packet with
    the field zero; a checksum 0 may be sent as 0xffff. *)
Lemma csum_filled pre post c c' : bytes pre -> bytes post -> Nat.Even (length pre) ->
  Z.of_nat (length (pre ++ [0; 0] ++ post)) <= 131072 ->
  inet_csum (pre ++ [0; 0] ++ post) = Ret c -> c' = c \/ c = 0 /\ c' = 0xffff /\ 0 < sumw (words pre) ->
  inet_csum (pre ++ le_enc 2 c' ++ post) = Ret 0.
Proof.
  intros Hpre Hpost He Hlen Hc Hc'. unfold bytes in *.
  rewrite csum_spec in Hc; [| apply list.Forall_app; split; [done |]; repeat (apply list.Forall_cons; split; [lia |]); done | done].
  rewrite words_app, sumw_app in Hc by done. cbn [app words sumw foldr] in Hc. fold (sumw (words post)) in Hc. injection Hc as Hc.
  destruct (words_bounds _ pre (le_n _) Hpre) as [Hp0 _]. destruct (words_bounds _ post (le_n _) Hpost) as [Hq0 _].
  set (S0 := sumw (words pre) + (256 * 0 + 0 + sumw (words post))) in *. assert (HS0 : 0 <= S0) by (unfold S0; lia).
  pose proof (ones_sum_bounds S0 HS0) as Hob. set (v := 65535 - ones_sum S0) in *.
  assert (Hv : 0 <= v <= 65535) by (unfold v; lia).
  assert (Henc : exists w, le_enc 2 c' = [w / 256; w mod 256] /\ 0 <= w <= 65535 /\ ones_sum (S0 + w) = 65535).
  { destruct Hc' as [-> | (E0 & -> & Hpos)].
    - exists v. rewrite htons_val in Hc by lia. split; [cbn [le_enc]; subst c; clear -Hv; f_equal; [zdm | f_equal; zdm] |]. split; [done |].
      unfold v, ones_sum; destruct (Z.eqb_spec S0 0) as [-> | Hne]; [done |]; destruct (Z.eqb_spec (S0 + (65535 - ((S0 - 1) mod 65535 + 1))) 0); zdm.
    - exists 65535. split; [reflexivity |]. split; [lia |]. assert (Ev : v = 0) by (apply htons_inj; [lia | lia | by rewrite Hc]).
      assert (Es : ones_sum S0 = 65535) by lia. unfold ones_sum in *. destruct (Z.eqb_spec S0 0); [lia |]. destruct (Z.eqb_spec (S0 + 65535) 0); [lia | zdm]. }
  destruct Henc as (w & -> & Hw & Hsum). rewrite csum_spec.
  - do 2 f_equal. rewrite words_app, sumw_app by done. cbn [app words sumw foldr]. fold (sumw (words post)).
    replace (sumw (words pre) + (256 * (w / 256) + w mod 256 + sumw (words post))) with (S0 + w) by (unfold S0; zdm). by rewrite Hsum.
  - apply list.Forall_app; split; [done |]. repeat (apply list.Forall_cons; split; [zdm |]). done.
  - rewrite !length_app in *. done.
Qed.

(** ** Properties *)

(** The comment in net.h: a packet of at most 128 KiB whose checksum field,
    at an even offset, was filled with [inet_csum] of the packet with the field
    zero, has checksum 0. *)
Theorem csum_verifies pre post c : bytes pre -> bytes post -> Nat.Even (length pre) ->
  Z.of_nat (length (pre ++ [0; 0] ++ post)) <= 131072 ->
  inet_csum (pre ++ [0; 0] ++ post) = Ret c ->
  inet_csum (pre ++ le_enc 2 c ++ post) = Ret 0.
Proof. intros Hpre Hpost He Hlen Hc. by apply (csum_filled pre post c c); auto. Qed.

Lemma csum_verifies_witness : inet_csum ([69; 0; 0; 28] ++ le_enc 2 (0xe3ae) ++ [10; 0; 2]) = Ret 0.
Proof.
  apply (csum_verifies [69; 0; 0; 28] [10; 0; 2] 0xe3ae);
    [repeat (apply list.Forall_cons; split; [lia |]); exact (list.Forall_nil_2 _)
    | repeat (apply list.Forall_cons; split; [lia |]); exact (list.Forall_nil_2 _) | exists 2%nat; reflexivity | simpl; lia | reflexivity].
Defined.

(** Changing one aligned 16-bit word of a packet changes its checksum, unless
    the change is between 0x0000 and 0xffff, which one's-complement sums do not
    tell apart. *)
Theorem csum_detects pre post a b a' b' : bytes pre -> bytes post -> bytes [a; b; a'; b'] -> Nat.Even (length pre) ->
  Z.of_nat (length (pre ++ [a; b] ++ post)) <= 131072 ->
  256 * a + b <> 256 * a' + b' -> Z.abs (256 * a + b - (256 * a' + b')) <> 65535 ->
  inet_csum (pre ++ [a; b] ++ post) <> inet_csum (pre ++ [a'; b'] ++ post).
Proof.
  intros Hpre Hpost Hab He Hlen Hne Hne'. unfold bytes in *. rewrite !list.Forall_cons in Hab. destruct Hab as (Ha & Hb & Ha' & Hb' & _).
  rewrite !csum_spec; [| apply list.Forall_app; split; [done |]; repeat (apply list.Forall_cons; split; [done |]); done | by rewrite !length_app in *
    | apply list.Forall_app; split; [done |]; repeat (apply list.Forall_cons; split; [done |]); done | done].
  rewrite (words_app pre ([a; b] ++ post)), (words_app pre ([a'; b'] ++ post)), !sumw_app by done. cbn [app words sumw foldr]. fold (sumw (words post)).
  destruct (words_bounds _ pre (le_n _) Hpre) as [Hp0 _]. destruct (words_bounds _ post (le_n _) Hpost) as [Hq0 _].
  set (x := sumw (words pre) + (256 * a + b + sumw (words post))). set (y := sumw (words pre) + (256 * a' + b' + sumw (words post))).
  pose proof (ones_sum_bounds x ltac:(unfold x; lia)). pose proof (ones_sum_bounds y ltac:(unfold y; lia)).
  intros E. injection E as E.  apply htons_inj in E; [| lia | lia]. assert (Hxy : ones_sum x = ones_sum y) by lia.
  apply ones_sum_eq in Hxy as [k Hk]. assert (x - y = 256 * a + b - (256 * a' + b')) by (unfold x, y; lia). lia.
Qed.

Lemma csum_detects_witness : inet_csum ([69; 0] ++ [1; 2] ++ []) <> inet_csum ([69; 0] ++ [1; 3] ++ []).
Proof.
  apply (csum_detects [69; 0] [] 1 2 1 3); try (repeat (apply list.Forall_cons; split; [lia |]); exact (list.Forall_nil_2 _));
    [exists 1%nat; reflexivity | simpl; lia | lia | lia].
Defined.

(** A checksum may be accumulated in pieces of even length, as the
    transport protocols do with their pseudo-header. *)
Theorem csum_pieces p q s : Nat.Even (length p) -> inet_csum_add (inet_csum_add s p) q = inet_csum_add s (p ++ q).
Proof. intros He. revert p He s. apply (even_ind (fun p => forall s, inet_csum_add (inet_csum_add s p) q = inet_csum_add s (p ++ q))); [done |]. intros a b p IH s. cbn [inet_csum_add app]. apply IH. Qed.
