(* ===== verification/SkBuff.v ===== *)
(** * Packet buffers: net/skbuff.c

    A buffer is the bytes between [head] and [end]; [data] and [tail] are offsets
    into them.  A queue is threaded through the [next] pointers of its buffers,
    which a map gives by address. *)

From S2P Require Import Prelude Checksum.

Definition SKB_HEADROOM : Z := 128.

(** Addresses and ports of the control block. *)
Record ip_cb : Set := mk_cb { cb_saddr : Z; cb_daddr : Z; cb_sport : Z; cb_dport : Z }.

Record sk_buff : Set := mk_sk_buff {
  mem : list Z;
  data : Z;
  tail : Z;
  skb_len : Z;
  skb_dev : option Z;
  protocol : Z;
  cb : ip_cb }.

Definition skb_alloc (payload : Z) (ok : bool) : option sk_buff :=
  if ok then Some (mk_sk_buff (replicate (Z.to_nat (SKB_HEADROOM + payload)) 0) SKB_HEADROOM SKB_HEADROOM 0 None 0 (mk_cb 0 0 0 0)) else None.

(** The old tail, where the caller writes. *)
Definition skb_put (s : sk_buff) (n : Z) : res (sk_buff * Z) :=
  assert! tail s + n <=? Z.of_nat (length (mem s)) in
  Ret (mk_sk_buff (mem s) (data s) (tail s + n) (u32 (skb_len s + n)) (skb_dev s) (protocol s) (cb s), tail s).

Definition skb_push (s : sk_buff) (n : Z) : res (sk_buff * Z) :=
  assert! n <=? data s in
  Ret (mk_sk_buff (mem s) (data s - n) (tail s) (u32 (skb_len s + n)) (skb_dev s) (protocol s) (cb s), data s - n).

Definition skb_pull (s : sk_buff) (n : Z) : res sk_buff :=
  assert! n <=? skb_len s in
  Ret (mk_sk_buff (mem s) (data s + n) (tail s) (u32 (skb_len s - n)) (skb_dev s) (protocol s) (cb s)).

Definition skb_headroom (s : sk_buff) : Z := u32 (data s).
Definition skb_tailroom (s : sk_buff) : Z := u32 (Z.of_nat (length (mem s)) - tail s).

Definition skb_reserve (s : sk_buff) (n : Z) : res sk_buff :=
  assert! n <=? skb_tailroom s in
  Ret (mk_sk_buff (mem s) (data s + n) (tail s + n) (skb_len s) (skb_dev s) (protocol s) (cb s)).

(** Writes through a pointer into the buffer. *)
Definition store (s : sk_buff) (off : Z) (d : list Z) : res sk_buff :=
  let! m := wr_slice (mem s) off d in Ret (mk_sk_buff m (data s) (tail s) (skb_len s) (skb_dev s) (protocol s) (cb s)).

(** [memcpy(skb_put(skb, n), d, n)], and a header written where [skb_push] points. *)
Definition put_bytes (s : sk_buff) (d : list Z) : res sk_buff := let! r := skb_put s (Z.of_nat (length d)) in store (fst r) (snd r) d.
Definition push_bytes (s : sk_buff) (d : list Z) : res sk_buff := let! r := skb_push s (Z.of_nat (length d)) in store (fst r) (snd r) d.

(** [skb->len = n; skb->tail = skb->data + n]. *)
Definition skb_trim (s : sk_buff) (n : Z) : sk_buff := mk_sk_buff (mem s) (data s) (data s + n) n (skb_dev s) (protocol s) (cb s).

Definition set_dev (s : sk_buff) (d : Z) : sk_buff := mk_sk_buff (mem s) (data s) (tail s) (skb_len s) (Some d) (protocol s) (cb s).
Definition set_protocol (s : sk_buff) (p : Z) : sk_buff := mk_sk_buff (mem s) (data s) (tail s) (skb_len s) (skb_dev s) p (cb s).
Definition set_cb (s : sk_buff) (c : ip_cb) : sk_buff := mk_sk_buff (mem s) (data s) (tail s) (skb_len s) (skb_dev s) (protocol s) c.

(** ** Queues *)

Record sk_buff_head : Set := mk_head { q_head : option Z; q_tail : option Z; qlen : Z }.

(** [skb->next] of every buffer. *)
Abbreviation nexts := (gmap Z (option Z)).

Definition skb_queue_init : sk_buff_head := mk_head None None 0.

Definition skb_queue_tail (nx : nexts) (q : sk_buff_head) (skb : Z) : res (nexts * sk_buff_head) :=
  let nx := <[skb := None]> nx in
  match q_tail q with
  | Some t =>
      match nx !! t with
      | Some _ => Ret (<[t := Some skb]> nx, mk_head (q_head q) (Some skb) (u32 (qlen q + 1)))
      | None => Halt Fault
      end
  | None => Ret (nx, mk_head (Some skb) (Some skb) (u32 (qlen q + 1)))
  end.

Definition skb_dequeue (nx : nexts) (q : sk_buff_head) : res (nexts * sk_buff_head * option Z) :=
  match q_head q with
  | None => Ret (nx, q, None)
  | Some skb =>
      match nx !! skb with
      | Some h => Ret (<[skb := None]> nx, mk_head h (match h with None => None | Some _ => q_tail q end) (u32 (qlen q - 1)), Some skb)
      | None => Halt Fault
      end
  end.

(** The buffers freed, in order. *)
Fixpoint skb_queue_purge (nx : nexts) (q : sk_buff_head) (fuel : nat) : res (nexts * sk_buff_head * list Z) :=
  match fuel with
  | O => Halt Fuel
  | S fuel' =>
      let! r := skb_dequeue nx q in
      let '(nx, q, o) := r in
      match o with
      | None => Ret (nx, q, [])
      | Some skb => let! r := skb_queue_purge (delete skb nx) q fuel' in let '(nx, q, l) := r in Ret (nx, q, skb :: l)
      end
  end.

Definition skb_queue_empty (q : sk_buff_head) : bool := bool_decide (q_head q = None).

(** ** Contents *)

Definition contents (s : sk_buff) : list Z := take (Z.to_nat (skb_len s)) (drop (Z.to_nat (data s)) (mem s)).

Record skb_ok (s : sk_buff) : Prop := {
  b_data : 0 <= data s <= tail s;
  b_tail : tail s <= Z.of_nat (length (mem s));
  b_len : skb_len s = tail s - data s;
  b_bytes : bytes (mem s);
  b_size : Z.of_nat (length (mem s)) < 2 ^ 32 }.

Lemma skb_contents_length s : skb_ok s -> Z.of_nat (length (contents s)) = skb_len s.
Proof. intros [H1 H2 H3 H4 H5]. unfold contents. rewrite length_take, length_drop. lia. Qed.

Lemma contents_bytes s : skb_ok s -> bytes (contents s).
Proof. intros [H1 H2 H3 H4 H5]. unfold contents. by apply list.Forall_take, list.Forall_drop. Qed.

Lemma alloc_ok payload s : skb_alloc payload true = Some s -> 0 <= payload < 2 ^ 31 ->
  skb_ok s /\ contents s = [] /\ data s = SKB_HEADROOM /\ tail s = SKB_HEADROOM /\ Z.of_nat (length (mem s)) = SKB_HEADROOM + payload.
Proof.
  unfold skb_alloc, SKB_HEADROOM. intros [= <-] Hp. cbn [data tail mem]. rewrite length_replicate.
  split_and!; try done; [| lia]. split; cbn [mem data tail skb_len]; rewrite ?length_replicate; try lia. apply list.Forall_replicate. lia.
Qed.

(** Writing [d] at [off] into [l]. *)
Lemma wr_slice_split (l d : list Z) off : 0 <= off -> off + Z.of_nat (length d) <= Z.of_nat (length l) ->
  wr_slice l off d = Ret (take (Z.to_nat off) l ++ d ++ drop (Z.to_nat off + length d) l).
Proof. intros H1 H2. unfold wr_slice. rewrite decide_True by lia. done. Qed.

Lemma bytes_splice l d off : bytes l -> bytes d -> bytes (take off l ++ d ++ drop (off + length d) l).
Proof. intros H1 H2. unfold bytes in *. rewrite !list.Forall_app. split_and!; [by apply list.Forall_take | done | by apply list.Forall_drop]. Qed.

Lemma put_bytes_ok s d : skb_ok s -> bytes d -> tail s + Z.of_nat (length d) <= Z.of_nat (length (mem s)) ->
  exists s', put_bytes s d = Ret s' /\ skb_ok s' /\ contents s' = contents s ++ d /\ data s' = data s /\ tail s' = tail s + Z.of_nat (length d) /\ length (mem s') = length (mem s).
Proof.
  intros [H1 H2 H3 H4 H5] Hd Hl. unfold put_bytes, skb_put. rewrite (proj2 (Z.leb_le _ _) Hl). cbv beta iota. unfold store. cbn [fst snd mem].
  rewrite wr_slice_split by lia. set (m := take _ _ ++ _). assert (Em : length m = length (mem s)) by (unfold m; rewrite !length_app, length_take, length_drop; lia).
  eexists. split; [reflexivity |]. cbn [data tail mem]. rewrite u32_small by lia. split_and!; try done.
  - split; cbn [mem data tail skb_len]; rewrite ?Em; try lia. by apply bytes_splice.
  - unfold contents. cbn [mem data tail skb_len]. unfold m. rewrite drop_app_le by (rewrite length_take; lia). rewrite skipn_firstn_comm. rewrite firstn_app.
    rewrite length_take, length_drop, firstn_firstn. replace (Z.to_nat (skb_len s + Z.of_nat (length d)) `min` (Z.to_nat (tail s) - Z.to_nat (data s)))%nat with (Z.to_nat (skb_len s)) by lia. f_equal.
    rewrite Nat.min_l by lia. rewrite take_app_le by lia. apply take_ge. lia.
Qed.

Lemma push_bytes_ok s d : skb_ok s -> bytes d -> Z.of_nat (length d) <= data s ->
  exists s', push_bytes s d = Ret s' /\ skb_ok s' /\ contents s' = d ++ contents s /\ data s' = data s - Z.of_nat (length d) /\ tail s' = tail s /\ length (mem s') = length (mem s) /\
    skb_dev s' = skb_dev s /\ protocol s' = protocol s /\ cb s' = cb s.
Proof.
  intros [H1 H2 H3 H4 H5] Hd Hl. unfold push_bytes, skb_push. rewrite (proj2 (Z.leb_le _ _) Hl). cbv beta iota. unfold store. cbn [fst snd mem].
  rewrite wr_slice_split by lia. set (m := take _ _ ++ _). assert (Em : length m = length (mem s)) by (unfold m; rewrite !length_app, length_take, length_drop; lia).
  eexists. split; [reflexivity |]. cbn [data tail mem skb_dev protocol cb]. rewrite u32_small by lia. split_and!; try done.
  - split; cbn [mem data tail skb_len]; rewrite ?Em; try lia. by apply bytes_splice.
  - unfold contents. cbn [mem data tail skb_len]. unfold m. rewrite drop_app_length' by (rewrite length_take; lia).
    rewrite take_app_ge by lia. f_equal. f_equal; [lia |]. f_equal. lia.
Qed.

Lemma pull_ok s n : skb_ok s -> 0 <= n <= skb_len s ->
  exists s', skb_pull s n = Ret s' /\ skb_ok s' /\ contents s' = drop (Z.to_nat n) (contents s) /\ data s' = data s + n /\ tail s' = tail s /\ mem s' = mem s /\ cb s' = cb s /\
    skb_dev s' = skb_dev s /\ protocol s' = protocol s.
Proof.
  intros [H1 H2 H3 H4 H5] Hn. unfold skb_pull. rewrite (proj2 (Z.leb_le _ _)) by lia. eexists. split; [reflexivity |]. cbn [data tail mem cb skb_dev protocol]. rewrite u32_small by lia.
  split_and!; try done; [split; cbn; lia || done |]. unfold contents. cbn [mem data tail skb_len].
  rewrite skipn_firstn_comm, drop_drop. f_equal; [lia |]. f_equal. lia.
Qed.

Lemma trim_ok s n : skb_ok s -> 0 <= n <= skb_len s -> skb_ok (skb_trim s n) /\ contents (skb_trim s n) = take (Z.to_nat n) (contents s).
Proof.
  intros [H1 H2 H3 H4 H5] Hn. split; [split; cbn; lia || done |]. unfold contents, skb_trim. cbn [mem data tail skb_len]. rewrite firstn_firstn, Nat.min_l by lia. done.
Qed.

(** ** Queues are lists *)

(** The buffers from [h] on are [l]. *)
Fixpoint chain (nx : nexts) (h : option Z) (l : list Z) : Prop :=
  match l with [] => h = None | x :: l' => h = Some x /\ exists n, nx !! x = Some n /\ chain nx n l' end.

Record queue_is (nx : nexts) (q : sk_buff_head) (l : list Z) : Prop := {
  q_chain : chain nx (q_head q) l;
  q_last : q_tail q = list.last l;
  q_len : qlen q = Z.of_nat (length l);
  q_nodup : NoDup l;
  q_bound : Z.of_nat (length l) < 2 ^ 32 }.

(** Pointers outside the chain do not matter. *)
Lemma chain_insert nx l : forall h x v, x ∉ l -> chain nx h l -> chain (<[x := v]> nx) h l.
Proof.
  induction l as [| y l IH]; intros h x v Hx H; [done |]. apply not_elem_of_cons in Hx as [Hxy Hx]. destruct H as [-> (n & Hn & Hc)]. split; [done |]. exists n. split; [by rewrite lookup_insert_ne | by apply IH].
Qed.

(** The last pointer of a chain is replaced. *)
Lemma chain_snoc nx l : forall h t x, chain nx h l -> list.last l = Some t -> NoDup l -> x ∉ l -> nx !! x = Some None -> chain (<[t := Some x]> nx) h (l ++ [x]).
Proof.
  induction l as [| y l IH]; intros h t x H Hl Hnd Hx Hnx; [done |]. apply not_elem_of_cons in Hx as [Hxy Hx]. apply list.NoDup_cons in Hnd as [Hy Hnd]. destruct H as [-> (n & Hn & Hc)].
  split; [done |]. destruct l as [| z l].
  - cbn in Hl. injection Hl as <-. exists (Some x). split; [apply lookup_insert_eq |]. split; [done |]. exists None. split; [by rewrite lookup_insert_ne | done].
  - assert (Ht : t ∈ z :: l) by (apply last_Some in Hl as [l' E]; destruct l' as [| ? l']; [done | injection E as -> ->]; apply elem_of_app; right; by apply list_elem_of_singleton).
    exists n. split; [rewrite lookup_insert_ne; [done | set_solver] |]. apply IH; try done.
Qed.

Lemma queue_tail_ok nx q l x : queue_is nx q l -> x ∉ l -> Z.of_nat (length l) < 2 ^ 32 - 1 ->
  exists nx' q', skb_queue_tail nx q x = Ret (nx', q') /\ queue_is nx' q' (l ++ [x]) /\ (forall y, y <> x -> y ∉ l -> nx' !! y = nx !! y).
Proof.
  intros [H1 H2 H3 H4 H5] Hx Hb. unfold skb_queue_tail. rewrite H2. apply (chain_insert _ _ _ x None Hx) in H1. assert (Hlen : u32 (qlen q + 1) = Z.of_nat (length (l ++ [x]))).
  { rewrite H3, u32_small, length_app by lia. cbn. lia. }
  assert (Hnd : NoDup (l ++ [x])) by (apply list.NoDup_app; split_and!; [done | | apply NoDup_singleton]; intros y Hy; rewrite list_elem_of_singleton; by intros ->).
  destruct (list.last l) as [t |] eqn:El.
  - assert (Ht : t ∈ l) by (apply last_Some in El as [l' ->]; set_solver). assert (Hin : exists n, <[x:=None]> nx !! t = Some n).
    { clear -H1 Ht. revert H1. generalize (q_head q). induction l as [| y l IH]; intros h Hc; [by apply elem_of_nil in Ht |]. destruct Hc as [_ (n & Hn & Hc)].
      apply elem_of_cons in Ht as [-> | Ht]; eauto. }
    destruct Hin as [n Hn]. rewrite Hn. eexists _, _. split; [done |]. split.
    + split; cbn [q_head q_tail qlen]; [apply chain_snoc; [done | done | done | done | apply lookup_insert_eq] | by rewrite last_snoc | done | done |]. rewrite length_app. cbn. lia.
    + intros y Hy Hyl. rewrite !lookup_insert_ne; [done | done |]. intros ->. done.
  - apply last_None in El as ->. eexists _, _. split; [done |]. split; [| intros y Hy _; by rewrite lookup_insert_ne].
    split; cbn [q_head q_tail qlen]; [| done | done | done | cbn; lia]. split; [done |]. exists None. split; [apply lookup_insert_eq | done].
Qed.

Lemma dequeue_ok nx q l : queue_is nx q l ->
  match l with
  | [] => skb_dequeue nx q = Ret (nx, q, None)
  | x :: l' => exists nx' q', skb_dequeue nx q = Ret (nx', q', Some x) /\ queue_is nx' q' l' /\ (forall y, y <> x -> nx' !! y = nx !! y)
  end.
Proof.
  intros [H1 H2 H3 H4 H5]. unfold skb_dequeue. destruct l as [| x l]; [cbn in H1; by rewrite H1 |]. destruct H1 as [-> (n & Hn & Hc)]. rewrite Hn. apply list.NoDup_cons in H4 as [Hx Hnd].
  eexists _, _. split; [done |]. split; [| intros y Hy; by rewrite lookup_insert_ne]. cbn in H5. split; cbn [q_head q_tail qlen].
  - by apply chain_insert.
  - rewrite H2. destruct l as [| y l]; cbn in Hc; [by rewrite Hc |]. by destruct Hc as [-> _].
  - rewrite H3, u32_small by (cbn; lia). cbn. lia.
  - done.
  - lia.
Qed.

Lemma chain_delete nx l : forall h x, x ∉ l -> chain nx h l -> chain (delete x nx) h l.
Proof.
  induction l as [| y l IH]; intros h x Hx H; [done |]. apply not_elem_of_cons in Hx as [Hxy Hx]. destruct H as [-> (n & Hn & Hc)]. split; [done |]. exists n. split; [by rewrite lookup_delete_ne | by apply IH].
Qed.

(** ** Properties *)

(** C32: the receive and ARP queues are first in, first out: from a queue that holds the buffers [l], appending a buffer not in it
    gives the queue of [l] and the buffer, taking one gives the oldest and leaves the rest, and a purge ends and
    frees every buffer once, oldest first; no call follows a stale pointer, and pointers of other queues stay. *)
Theorem skb_queue_fifo (nx : nexts) (q : sk_buff_head) (l : list Z) : queue_is nx q l ->
  (forall x, x ∉ l -> Z.of_nat (length l) < 2 ^ 32 - 1 ->
     exists nx' q', skb_queue_tail nx q x = Ret (nx', q') /\ queue_is nx' q' (l ++ [x]) /\ (forall y, y <> x -> y ∉ l -> nx' !! y = nx !! y)) /\
  (skb_queue_empty q = true <-> l = []) /\
  match l with
  | [] => skb_dequeue nx q = Ret (nx, q, None)
  | x :: l' => exists nx' q', skb_dequeue nx q = Ret (nx', q', Some x) /\ queue_is nx' q' l' /\ (forall y, y <> x -> nx' !! y = nx !! y)
  end /\
  (exists nx' q', skb_queue_purge nx q (S (length l)) = Ret (nx', q', l) /\ queue_is nx' q' [] /\ (forall x, x ∈ l -> nx' !! x = None) /\ (forall y, y ∉ l -> nx' !! y = nx !! y)).
Proof.
  intros H. split_and!; [intros; by apply queue_tail_ok | | by apply dequeue_ok |].
  - unfold skb_queue_empty. rewrite bool_decide_eq_true. pose proof (q_chain _ _ _ H) as Hc. destruct l; cbn in Hc; [done |]. destruct Hc as [-> _]. done.
  - revert nx q H. induction l as [| x l IH]; intros nx q H; cbn [skb_queue_purge]; pose proof (dequeue_ok _ _ _ H) as Hd.
    + cbn in Hd. rewrite Hd. exists nx, q. split_and!; try done. intros x Hx. by apply elem_of_nil in Hx.
    + destruct Hd as (nx1 & q1 & -> & H1 & Hs1). pose proof (q_nodup _ _ _ H) as Hnd. apply list.NoDup_cons in Hnd as [Hx Hnd].
      cbv beta iota. change (length (x :: l)) with (S (length l)). destruct (IH (delete x nx1) q1) as (nx2 & q2 & -> & H2 & Hf & Hs2). { destruct H1 as [C1 C2 C3 C4 C5]. split; try done. by apply chain_delete. }
      exists nx2, q2. split_and!; try done.
      * intros y Hy. apply elem_of_cons in Hy as [-> | Hy]; [| by apply Hf]. rewrite Hs2, lookup_delete_eq by done. done.
      * intros y Hy. apply not_elem_of_cons in Hy as [Hyx Hy]. rewrite Hs2, lookup_delete_ne, Hs1 by done. done.
Qed.

Lemma skb_queue_fifo_witness : exists nx q, queue_is nx q [10; 20] /\
  exists nx' q', skb_queue_purge nx q 3 = Ret (nx', q', [10; 20]) /\ queue_is nx' q' [].
Proof.
  exists (<[10 := Some 20]> (<[20 := None]> ∅)), (mk_head (Some 10) (Some 20) 2).
  assert (H : queue_is (<[10 := Some 20]> (<[20 := None]> ∅)) (mk_head (Some 10) (Some 20) 2) [10; 20]).
  { split; try reflexivity; [| repeat constructor; set_solver]. split; [reflexivity |]. exists (Some 20). split; [reflexivity |]. split; [reflexivity |]. exists None. split; reflexivity. }
  split; [exact H |]. destruct (skb_queue_fifo _ _ _ H) as (_ & _ & _ & nx' & q' & E & Hq & _). exists nx', q'. split; [exact E | exact Hq].
Defined.
