(* ===== verification/Inet.v ===== *)
(** * Routing, devices, Ethernet, ARP, IP and ICMP

    net/route.c, netdevice.c, eth.c, arp.c, ip.c and icmp.c over the buffers of
    [SkBuff].  One record holds the routes, the devices and the ARP table; what a
    routine hands to the drivers is returned next to the new state, and the
    answer of a driver, which the driver of the loopback device computes from the
    receive path, is an argument, as is the time.  The queue of packets
    that wait for an address is the list that [SkBuff.skb_queue_fifo] shows it to be. *)

From S2P Require Import Prelude CString Checksum SkBuff.

Definition RT_TABLE_SIZE : Z := 8.
Definition IFF_UP : Z := 1.
Definition IFF_LOOPBACK : Z := 8.
Definition ETH_ALEN : Z := 6.
Definition ETH_HLEN : Z := 14.
Definition ETH_P_IP : Z := 0x0800.
Definition ETH_P_ARP : Z := 0x0806.
Definition ETH_P_ALL : Z := 0x0003.
Definition ARP_TABLE_SIZE : Z := 16.
Definition ARP_PENDING_MAX : Z := 4.
Definition ARP_REQUEST_INTERVAL_NS : Z := 1000000000.
Definition ARP_HWTYPE_ETHER : Z := 1.
Definition ARP_OP_REQUEST : Z := 1.
Definition ARP_OP_REPLY : Z := 2.
Definition IPPROTO_ICMP : Z := 1.
Definition IPPROTO_TCP : Z := 6.
Definition IPPROTO_UDP : Z := 17.
Definition IP_DF : Z := 0x4000.
Definition IP_MF : Z := 0x2000.
Definition IP_OFFSET : Z := 0x1fff.
Definition IP_TTL_DEFAULT : Z := 64.
Definition ICMP_ECHOREPLY : Z := 0.
Definition ICMP_ECHO : Z := 8.

Definition NET_IP4 (a b c d : Z) : Z := Z.lor (Z.lor (Z.lor a (Z.shiftl b 8)) (Z.shiftl c 16)) (Z.shiftl d 24).

(** ** State *)

Record rt_entry : Set := mk_rt { rt_dst : Z; rt_mask : Z; rt_gw : Z; rt_dev : option Z }.

Record net_device : Set := mk_dev {
  dev_addr : list Z;
  mtu : Z;
  dev_flags : Z;
  ip_addr : Z;
  has_xmit : bool;
  rx_packets : Z;
  tx_packets : Z;
  rx_bytes : Z;
  tx_bytes : Z;
  rx_dropped : Z;
  tx_dropped : Z;
  tx_errors : Z }.

Definition count_rx (n : Z) (d : net_device) : net_device :=
  mk_dev (dev_addr d) (mtu d) (dev_flags d) (ip_addr d) (has_xmit d) (u64 (rx_packets d + 1)) (tx_packets d) (u64 (rx_bytes d + n)) (tx_bytes d) (rx_dropped d) (tx_dropped d) (tx_errors d).
Definition count_rx_drop (d : net_device) : net_device :=
  mk_dev (dev_addr d) (mtu d) (dev_flags d) (ip_addr d) (has_xmit d) (rx_packets d) (tx_packets d) (rx_bytes d) (tx_bytes d) (u64 (rx_dropped d + 1)) (tx_dropped d) (tx_errors d).
Definition count_tx (n : Z) (d : net_device) : net_device :=
  mk_dev (dev_addr d) (mtu d) (dev_flags d) (ip_addr d) (has_xmit d) (rx_packets d) (u64 (tx_packets d + 1)) (rx_bytes d) (u64 (tx_bytes d + n)) (rx_dropped d) (tx_dropped d) (tx_errors d).
Definition count_tx_drop (d : net_device) : net_device :=
  mk_dev (dev_addr d) (mtu d) (dev_flags d) (ip_addr d) (has_xmit d) (rx_packets d) (tx_packets d) (rx_bytes d) (tx_bytes d) (rx_dropped d) (u64 (tx_dropped d + 1)) (tx_errors d).
Definition count_tx_error (d : net_device) : net_device :=
  mk_dev (dev_addr d) (mtu d) (dev_flags d) (ip_addr d) (has_xmit d) (rx_packets d) (tx_packets d) (rx_bytes d) (tx_bytes d) (rx_dropped d) (u64 (tx_dropped d + 1)) (u64 (tx_errors d + 1)).

Inductive arp_state : Set := ARP_INCOMPLETE | ARP_REACHABLE.

#[global] Instance arp_state_eq : EqDecision arp_state.
Proof. solve_decision. Defined.

Record arp_entry : Set := mk_arp {
  in_use : bool;
  arp_ip : Z;
  mac : list Z;
  arp_st : arp_state;
  last_request_ns : Z;
  last_used : Z;
  pending : list sk_buff }.

Record inet : Type := mk_inet {
  rt_table : list rt_entry;
  devs : gmap Z net_device;
  arp_table : list arp_entry;
  arp_generation : Z;
  ip_id : Z }.

Definition set_rt_table (v : list rt_entry) (s : inet) : inet := mk_inet v (devs s) (arp_table s) (arp_generation s) (ip_id s).
Definition set_devs (v : gmap Z net_device) (s : inet) : inet := mk_inet (rt_table s) v (arp_table s) (arp_generation s) (ip_id s).
Definition set_arp_table (v : list arp_entry) (s : inet) : inet := mk_inet (rt_table s) (devs s) v (arp_generation s) (ip_id s).
Definition set_arp_generation (v : Z) (s : inet) : inet := mk_inet (rt_table s) (devs s) (arp_table s) v (ip_id s).
Definition set_ip_id (v : Z) (s : inet) : inet := mk_inet (rt_table s) (devs s) (arp_table s) (arp_generation s) v.

Definition device (s : inet) (d : Z) : res net_device := match devs s !! d with Some x => Ret x | None => Halt Fault end.
Definition update_device (s : inet) (d : Z) (f : net_device -> net_device) : inet := set_devs (alter f d (devs s)) s.

(** ** Routes *)

Fixpoint free_slot (t : list rt_entry) (e : rt_entry) : option (list rt_entry) :=
  match t with
  | [] => None
  | x :: t' => match rt_dev x with None => Some (e :: t') | Some _ => cons x <$> free_slot t' e end
  end.

Definition route_add (s : inet) (dst mask gw : Z) (dev : option Z) : inet * Z :=
  match dev with
  | None => (s, - EINVAL)
  | Some _ => match free_slot (rt_table s) (mk_rt dst mask gw dev) with Some t => (set_rt_table t s, 0) | None => (s, - ENOSPC) end
  end.

Definition rt_matches (daddr : Z) (e : rt_entry) : bool :=
  bool_decide (rt_dev e <> None) && (Z.land daddr (rt_mask e) =? Z.land (rt_dst e) (rt_mask e)).

Fixpoint best_route (daddr : Z) (t : list rt_entry) (best : option rt_entry) : option rt_entry :=
  match t with
  | [] => best
  | e :: t' =>
      if negb (rt_matches daddr e) then best_route daddr t' best
      else best_route daddr t' (match best with None => Some e | Some b => if rt_mask b <? rt_mask e then Some e else best end)
  end.

(** An error, or the next hop and the device. *)
Definition ip_route_output (s : inet) (daddr : Z) : Z + Z * Z :=
  match best_route daddr (rt_table s) None with
  | Some (mk_rt _ _ gw (Some d)) => inr (if gw =? 0 then daddr else gw, d)
  | _ => inl (- ENETUNREACH)
  end.

(** ** Devices *)

(** A frame handed to a driver. *)
Definition frame : Type := Z * sk_buff.

(** The answer of a driver to a frame. *)
Definition driver : Type := Z -> sk_buff -> Z.

Definition netdev_start_xmit (s : inet) (drv : driver) (skb : sk_buff) : res (inet * Z * list frame) :=
  match skb_dev skb with
  | None => Ret (s, - EINVAL, [])
  | Some d =>
      let! dv := device s d in
      if Z.land (dev_flags dv) IFF_UP =? 0 then Ret (update_device s d count_tx_drop, - ENETDOWN, [])
      else if negb (has_xmit dv) then Ret (update_device s d count_tx_drop, - ENODEV, [])
      else
        let s := update_device s d (count_tx (skb_len skb)) in
        let e := drv d skb in
        Ret (if e =? 0 then s else update_device s d count_tx_error, e, [(d, skb)])
  end.

(** A registered packet type: the protocol, the device, the handler. *)
Inductive handler : Set := H_arp | H_ip.
Record packet_type : Set := mk_pt { pt_type : Z; pt_dev : option Z; pt_func : handler }.

(** net_init in net/init.c. *)
Definition ptype_list : list packet_type := [mk_pt ETH_P_ARP None H_arp; mk_pt ETH_P_IP None H_ip].

Fixpoint find_ptype (l : list packet_type) (proto d : Z) : option handler :=
  match l with
  | [] => None
  | pt :: l' =>
      if negb (pt_type pt =? proto) && negb (pt_type pt =? ETH_P_ALL) then find_ptype l' proto d
      else if bool_decide (pt_dev pt <> None) && negb (bool_decide (pt_dev pt = Some d)) then find_ptype l' proto d
      else Some (pt_func pt)
  end.

(** [netif_rx] up to the call of the handler, whose result it counts with [rx_result]. *)
Definition netif_rx (s : inet) (l : list packet_type) (skb : sk_buff) : inet * (Z + Z * handler) :=
  match skb_dev skb with
  | None => (s, inl (- EINVAL))
  | Some d =>
      let s := update_device s d (count_rx (skb_len skb)) in
      match find_ptype l (protocol skb) d with
      | None => (update_device s d count_rx_drop, inl (- ENOENT))
      | Some h => (s, inr (d, h))
      end
  end.

Definition rx_result (s : inet) (d err : Z) : inet := if err =? 0 then s else update_device s d count_rx_drop.

(** ** Ethernet *)

Definition eth_broadcast_addr : list Z := [0xff; 0xff; 0xff; 0xff; 0xff; 0xff].

(** The protocol and the buffer without the header. *)
Definition eth_type_trans (skb : sk_buff) : res (Z * sk_buff) :=
  if skb_len skb <? ETH_HLEN then Ret (0, skb)
  else
    let! p := field (contents skb) 12 2 in
    let! skb := skb_pull skb ETH_HLEN in
    Ret (htons p, skb).

Definition ethhdr (dest source : list Z) (type : Z) : list Z := dest ++ source ++ le_enc 2 (htons type).

(** [None] without room for the header. *)
Definition eth_header (skb : sk_buff) (source : list Z) (type : Z) (daddr : option (list Z)) : res (option sk_buff) :=
  if skb_headroom skb <? ETH_HLEN then Ret None
  else let! skb := push_bytes skb (ethhdr (match daddr with Some a => a | None => eth_broadcast_addr end) source type) in Ret (Some skb).

(** ** ARP *)

Fixpoint arp_index (t : list arp_entry) (ip : Z) : option nat :=
  match t with
  | [] => None
  | e :: t' => if in_use e && (arp_ip e =? ip) then Some 0%nat else S <$> arp_index t' ip
  end.

Definition arp_lookup_locked (s : inet) (ip : Z) : option nat := arp_index (arp_table s) ip.

Fixpoint free_entry (t : list arp_entry) : option nat :=
  match t with [] => None | e :: t' => if in_use e then S <$> free_entry t' else Some 0%nat end.

(** The least recently used entry, from the [i]-th on. *)
Fixpoint oldest (t : list arp_entry) (i : nat) (best : option (nat * Z)) : option (nat * Z) :=
  match t with
  | [] => best
  | e :: t' => oldest t' (S i) (match best with None => Some (i, last_used e) | Some (_, u) => if last_used e <? u then Some (i, last_used e) else best end)
  end.

Definition zero_entry : arp_entry := mk_arp false 0 [0; 0; 0; 0; 0; 0] ARP_INCOMPLETE 0 0 [].

Definition claim_entry (ip gen : Z) (e : arp_entry) : arp_entry := mk_arp true ip (mac e) ARP_INCOMPLETE (last_request_ns e) gen (pending e).

Definition arp_alloc_locked (s : inet) (ip : Z) : res (inet * nat) :=
  let gen := u64 (arp_generation s + 1) in
  match free_entry (arp_table s) with
  | Some i => Ret (set_arp_generation gen (set_arp_table (alter (claim_entry ip gen) i (arp_table s)) s), i)
  | None =>
      match oldest (arp_table s) 0 None with
      | Some (i, _) => Ret (set_arp_generation gen (set_arp_table (alter (fun _ => claim_entry ip gen zero_entry) i (arp_table s)) s), i)
      | None => Halt Fault
      end
  end.

(** The entry for an address, new if there is none. *)
Definition arp_get (s : inet) (ip : Z) : res (inet * nat) :=
  match arp_lookup_locked s ip with Some i => Ret (s, i) | None => arp_alloc_locked s ip end.

Definition arphdr (op : Z) (sha : list Z) (spa : Z) (tha : list Z) (tpa : Z) : list Z :=
  le_enc 2 (htons ARP_HWTYPE_ETHER) ++ le_enc 2 (htons ETH_P_IP) ++ [ETH_ALEN; 4] ++ le_enc 2 (htons op) ++ sha ++ le_enc 4 spa ++ tha ++ le_enc 4 tpa.

Definition arp_send (s : inet) (drv : driver) (ok : bool) (d op : Z) (tha : option (list Z)) (tpa : Z) : res (inet * Z * list frame) :=
  match skb_alloc 28 ok with
  | None => Ret (s, - ENOMEM, [])
  | Some skb =>
      let! dv := device s d in
      let! skb := put_bytes skb (arphdr op (dev_addr dv) (ip_addr dv) (match tha with Some a => a | None => [0; 0; 0; 0; 0; 0] end) tpa) in
      let! o := eth_header skb (dev_addr dv) ETH_P_ARP (Some (match tha with Some a => a | None => eth_broadcast_addr end)) in
      match o with None => Ret (s, - ENOSPC, []) | Some skb => netdev_start_xmit s drv (set_dev skb d) end
  end.

Fixpoint arp_flush_pending (s : inet) (drv : driver) (m : list Z) (q : list sk_buff) : res (inet * list frame) :=
  match q with
  | [] => Ret (s, [])
  | skb :: q' =>
      match skb_dev skb with
      | None => arp_flush_pending s drv m q'
      | Some d =>
          let! dv := device s d in
          let! o := eth_header skb (dev_addr dv) ETH_P_IP (Some m) in
          match o with
          | None => arp_flush_pending s drv m q'
          | Some skb =>
              let! r := netdev_start_xmit s drv skb in
              let '(s, _, f) := r in
              let! r := arp_flush_pending s drv m q' in
              let (s, f') := r in Ret (s, f ++ f')
          end
      end
  end.

Definition arp_update (s : inet) (drv : driver) (ip : Z) (m : list Z) (flush : bool) : res (inet * list frame) :=
  let! r := arp_get s ip in
  let (s, i) := r in
  let! e := rd (arp_table s) (Z.of_nat i) in
  let gen := u64 (arp_generation s + 1) in
  let e' := mk_arp (in_use e) (arp_ip e) m ARP_REACHABLE (last_request_ns e) gen (if flush then [] else pending e) in
  let s := set_arp_generation gen (set_arp_table (<[i := e']> (arp_table s)) s) in
  if flush then arp_flush_pending s drv m (pending e) else Ret (s, []).

Definition arp_rcv (s : inet) (drv : driver) (ok : bool) (d : Z) (skb : sk_buff) : res (inet * Z * list frame) :=
  let p := contents skb in
  if skb_len skb <? 28 then Ret (s, - EINVAL, [])
  else
    let! hrd := field p 0 2 in
    let! pro := field p 2 2 in
    let! hln := rd p 4 in
    let! pln := rd p 5 in
    if negb (hrd =? htons ARP_HWTYPE_ETHER) || negb (pro =? htons ETH_P_IP) || negb (hln =? ETH_ALEN) || negb (pln =? 4) then Ret (s, - EINVAL, [])
    else
      let! op := field p 6 2 in
      let! sha := rd_slice p 8 6 in
      let! spa := field p 14 4 in
      let! tpa := field p 24 4 in
      let! r := (if spa =? 0 then Ret (s, []) else arp_update s drv spa sha (htons op =? ARP_OP_REPLY)) in
      let (s, f) := r in
      let! dv := device s d in
      if (htons op =? ARP_OP_REQUEST) && (tpa =? ip_addr dv) then
        let! r := arp_send s drv ok d ARP_OP_REPLY (Some sha) spa in
        let '(s, _, f') := r in Ret (s, 0, f ++ f')
      else Ret (s, 0, f).

Definition arp_output (s : inet) (drv : driver) (ok : bool) (now : Z) (skb : sk_buff) (d next_hop : Z) : res (inet * Z * list frame) :=
  let found := match arp_lookup_locked s next_hop with Some i => match arp_table s !! i with Some e => Some (i, e) | None => None end | None => None end in
  match found with
  | Some (i, mk_arp u ip m ARP_REACHABLE lr _ q) =>
      let gen := u64 (arp_generation s + 1) in
      let s := set_arp_generation gen (set_arp_table (<[i := mk_arp u ip m ARP_REACHABLE lr gen q]> (arp_table s)) s) in
      let! dv := device s d in
      let! o := eth_header (set_dev skb d) (dev_addr dv) ETH_P_IP (Some m) in
      match o with None => Ret (s, - ENOSPC, []) | Some skb => netdev_start_xmit s drv skb end
  | _ =>
      let! r := arp_get s next_hop in
      let (s, i) := r in
      let! e := rd (arp_table s) (Z.of_nat i) in
      let q := (if ARP_PENDING_MAX <=? Z.of_nat (length (pending e)) then List.tl (pending e) else pending e) ++ [set_dev skb d] in
      let request := (last_request_ns e =? 0) || (ARP_REQUEST_INTERVAL_NS <=? u64 (now - last_request_ns e)) in
      let e' := mk_arp (in_use e) (arp_ip e) (mac e) (arp_st e) (if request then now else last_request_ns e) (last_used e) q in
      let s := set_arp_table (<[i := e']> (arp_table s)) s in
      if request then
        let! r := arp_send s drv ok d ARP_OP_REQUEST None next_hop in
        let '(s, _, f) := r in Ret (s, - EAGAIN, f)
      else Ret (s, - EAGAIN, [])
  end.

Definition arp_init (s : inet) : inet := set_arp_table (replicate (Z.to_nat ARP_TABLE_SIZE) zero_entry) s.

(** ** IP *)

Definition iphdr (tot_len id ttl proto check saddr daddr : Z) : list Z :=
  [0x45; 0] ++ le_enc 2 (htons tot_len) ++ le_enc 2 (htons id) ++ le_enc 2 (htons IP_DF) ++ [ttl; proto] ++ le_enc 2 check ++ le_enc 4 saddr ++ le_enc 4 daddr.

(** [None]: dropped; otherwise the protocol and what its handler gets. *)
Definition ip_rcv (skb : sk_buff) : res (option (Z * sk_buff)) :=
  let p := contents skb in
  if skb_len skb <? 20 then Ret None
  else
    let! vi := rd p 0 in
    if negb (Z.shiftr vi 4 =? 4) then Ret None
    else
      let ihl := Z.land vi 0x0f * 4 in
      if (ihl <? 20) || (skb_len skb <? ihl) then Ret None
      else
        let! tl := field p 2 2 in
        let tot_len := htons tl in
        if (tot_len <? ihl) || (skb_len skb <? tot_len) then Ret None
        else
          let! hdr := rd_slice p 0 ihl in
          let! c := inet_csum hdr in
          if negb (c =? 0) then Ret None
          else
            let! fo := field p 6 2 in
            if negb (Z.land (htons fo) (Z.lor IP_MF IP_OFFSET) =? 0) then Ret None
            else
              let! proto := rd p 9 in
              let! saddr := field p 12 4 in
              let! daddr := field p 16 4 in
              let! skb := skb_pull (skb_trim (set_cb skb (mk_cb saddr daddr (cb_sport (cb skb)) (cb_dport (cb skb)))) tot_len) ihl in
              if (proto =? IPPROTO_ICMP) || (proto =? IPPROTO_UDP) || (proto =? IPPROTO_TCP) then Ret (Some (proto, skb)) else Ret None.

Definition ip_output (s : inet) (drv : driver) (ok : bool) (now : Z) (skb : sk_buff) (saddr daddr proto ttl : Z) : res (inet * Z * list frame) :=
  match ip_route_output s daddr with
  | inl e => Ret (s, e, [])
  | inr (next_hop, d) =>
      let! dv := device s d in
      let saddr := if saddr =? 0 then ip_addr dv else saddr in
      if skb_headroom skb <? 20 then Ret (s, - ENOSPC, [])
      else
        let id := u16 (ip_id s + 1) in
        let s := set_ip_id id s in
        let ttl := if ttl =? 0 then IP_TTL_DEFAULT else ttl in
        let! c := inet_csum (iphdr (u16 (skb_len skb + 20)) id ttl proto 0 saddr daddr) in
        let! skb := push_bytes skb (iphdr (u16 (skb_len skb + 20)) id ttl proto c saddr daddr) in
        let skb := set_protocol (set_dev skb d) ETH_P_IP in
        if negb (Z.land (dev_flags dv) IFF_LOOPBACK =? 0) then netdev_start_xmit s drv skb
        else arp_output s drv ok now skb d next_hop
  end.

(** The state of the loop of [net_parse_ipv4]: the parts so far and whether a digit was seen. *)
Fixpoint parse_loop (buf : list Z) (parts : list Z) (part : Z) (digit : bool) : option (list Z * Z * bool) :=
  match buf with
  | [] => Some (parts, part, digit)
  | c :: buf' =>
      if (48 <=? c) && (c <=? 57) then
        let v := u32 (nth (Z.to_nat part) parts 0 * 10 + (c - 48)) in
        if 255 <? v then None else parse_loop buf' (<[Z.to_nat part := v]> parts) part true
      else if c =? 46 then
        if negb digit || (3 <=? part) then None else parse_loop buf' parts (part + 1) false
      else if (c =? 32) || (c =? 9) || (c =? 10) || (c =? 13) then Some (parts, part, digit)
      else None
  end.

(** -EINVAL, or 0 and the address. *)
Definition net_parse_ipv4 (buf : list Z) : Z * Z :=
  match parse_loop buf [0; 0; 0; 0] 0 false with
  | Some ([a; b; c; d], part, digit) => if negb digit || negb (part =? 3) then (- EINVAL, 0) else (0, NET_IP4 a b c d)
  | _ => (- EINVAL, 0)
  end.

(** ** ICMP *)

Definition icmphdr (type code check id seq : Z) : list Z := [type; code] ++ le_enc 2 check ++ le_enc 2 (htons id) ++ le_enc 2 (htons seq).

Definition icmp_rcv (s : inet) (drv : driver) (ok : bool) (now : Z) (skb : sk_buff) : res (inet * Z * list frame) :=
  let p := contents skb in
  if skb_len skb <? 8 then Ret (s, - EINVAL, [])
  else
    let! c := inet_csum p in
    if negb (c =? 0) then Ret (s, - EINVAL, [])
    else
      let! type := rd p 0 in
      let! code := rd p 1 in
      if (type =? ICMP_ECHO) && (code =? 0) then
        let! skb := store skb (data skb) [ICMP_ECHOREPLY] in
        let! skb := store skb (data skb + 2) [0; 0] in
        let! c := inet_csum (contents skb) in
        let! skb := store skb (data skb + 2) (le_enc 2 c) in
        ip_output s drv ok now skb (cb_daddr (cb skb)) (cb_saddr (cb skb)) IPPROTO_ICMP IP_TTL_DEFAULT
      else Ret (s, 0, []).

Definition icmp_send_echo (s : inet) (drv : driver) (ok : bool) (now saddr daddr id seq : Z) (d : list Z) : res (inet * Z * list frame) :=
  match skb_alloc (8 + Z.of_nat (length d)) ok with
  | None => Ret (s, - ENOMEM, [])
  | Some skb =>
      let! c := inet_csum (icmphdr ICMP_ECHO 0 0 id seq ++ d) in
      let! skb := put_bytes skb (icmphdr ICMP_ECHO 0 c id seq) in
      let! skb := put_bytes skb d in
      ip_output s drv ok now skb saddr daddr IPPROTO_ICMP IP_TTL_DEFAULT
  end.
