(* ===== verification/InetProps.v ===== *)
(** * What the IP layer promises

    Routes by longest prefix, packets that survive the way through the headers,
    parsers that stay inside the packet, echo replies and addresses as text. *)

From S2P Require Import Prelude CString Checksum SkBuff Inet.

(** ** Routes *)

(** The mask of a prefix of [p] bits, as the four bytes are loaded. *)
Definition netmask (p : Z) : Z := le_dec (rev (le_enc 4 (2 ^ 32 - 2 ^ (32 - p)))).

Lemma netmask_mono p q : 0 <= p <= 32 -> 0 <= q <= 32 -> netmask p <= netmask q -> p <= q.
Proof.
  intros Hp Hq. assert (H : forallb (fun p => forallb (fun q => (netmask q <? netmask p) || (p <=? q)) (seqZ 0 33)) (seqZ 0 33) = true) by (vm_compute; reflexivity).
  rewrite forallb_forall in H. specialize (H p). rewrite <- list_elem_of_In, elem_of_seqZ in H. specialize (H ltac:(lia)). rewrite forallb_forall in H. specialize (H q).
  rewrite <- list_elem_of_In, elem_of_seqZ in H. specialize (H ltac:(lia)). apply orb_true_iff in H as [H | H]; [apply Z.ltb_lt in H | apply Z.leb_le in H]; lia.
Qed.

Lemma best_route_spec daddr t : forall best, (forall b, best = Some b -> rt_matches daddr b = true) ->
  match best_route daddr t best with
  | None => best = None /\ Forall (fun e => rt_matches daddr e = false) t
  | Some e => (best = Some e \/ e ∈ t) /\ rt_matches daddr e = true /\ (forall b, best = Some b -> rt_mask b <= rt_mask e) /\
      Forall (fun e' => rt_matches daddr e' = true -> rt_mask e' <= rt_mask e) t
  end.
Proof.
  induction t as [| e t IH]; intros best Hb; cbn [best_route]; [destruct best as [b |]; [| done]; split_and!; auto; by intros ? [= ->] |].
  destruct (rt_matches daddr e) eqn:Em; cbn [negb].
  - set (best' := match best with None => Some e | Some b => if rt_mask b <? rt_mask e then Some e else best end).
    assert (Hb' : forall b, best' = Some b -> rt_matches daddr b = true) by (intros b; unfold best'; destruct best as [x |]; [destruct (_ <? _) |]; intros [= <-]; auto).
    assert (He : exists b, best' = Some b /\ rt_mask e <= rt_mask b /\ (forall x, best = Some x -> rt_mask x <= rt_mask b) /\ (best = Some b \/ b = e)).
    { unfold best'. destruct best as [x |]; [destruct (Z.ltb_spec (rt_mask x) (rt_mask e)) |]; eexists; (split; [done |]); split_and!; try lia; auto; intros ? [= <-]; lia. }
    destruct He as (b & Eb & He1 & He2 & He3). specialize (IH best' Hb'). destruct (best_route daddr t best') as [r |].
    + destruct IH as (I1 & I2 & I3 & I4). specialize (I3 b Eb). split_and!; [| done | intros x Hx; specialize (He2 x Hx); lia | constructor; [intros _; lia | done]].
      rewrite Eb in I1. destruct I1 as [[= <-] | I1]; [| right; set_solver]. destruct He3 as [-> | ->]; [by left | right; set_solver].
    + destruct IH as [I1 _]. congruence.
  - specialize (IH best Hb). destruct (best_route daddr t best) as [r |].
    + destruct IH as (I1 & I2 & I3 & I4). split_and!; [destruct I1; [by left | right; set_solver] | done | done | constructor; [congruence | done]].
    + destruct IH as [I1 I2]. split; [done | by constructor].
Qed.

(** C31: routing is by longest prefix. Over a table of routes whose masks are prefixes of any lengths, [ip_route_output]
    chooses a route that matches the address and has the longest prefix of all that do, and answers with its gateway,
    or the address itself without one, and its device; it fails exactly when no route matches. That the masks are
    compared as little-endian numbers does not change the order of prefixes. *)
Theorem route_longest_prefix (s : inet) (daddr : Z) : Forall (fun e => exists p, 0 <= p <= 32 /\ rt_mask e = netmask p) (rt_table s) ->
  match ip_route_output s daddr with
  | inl e => e = - ENETUNREACH /\ Forall (fun e => rt_matches daddr e = false) (rt_table s)
  | inr (next_hop, d) =>
      exists e p, e ∈ rt_table s /\ rt_matches daddr e = true /\ rt_dev e = Some d /\ 0 <= p <= 32 /\ rt_mask e = netmask p /\
        next_hop = (if rt_gw e =? 0 then daddr else rt_gw e) /\
        (forall e' q, e' ∈ rt_table s -> rt_matches daddr e' = true -> 0 <= q <= 32 -> rt_mask e' = netmask q -> q <= p)
  end.
Proof.
  intros Hm. unfold ip_route_output. pose proof (best_route_spec daddr (rt_table s) None ltac:(done)) as H. destruct (best_route daddr (rt_table s) None) as [[dst mask gw [d |]] |].
  - destruct H as ([|Hin] & Hmt & _ & Hmax); [done |]. destruct (proj1 (list.Forall_forall _ _) Hm _ Hin) as (p & Hp & Ep). cbn [rt_mask] in Ep.
    exists (mk_rt dst mask gw (Some d)), p. split; [done |]. split; [done |]. split; [done |]. split; [done |]. split; [done |]. split; [done |]. intros e' q Hin' Hmt' Hq Eq. rewrite list.Forall_forall in Hmax. specialize (Hmax e' Hin' Hmt'). cbn [rt_mask] in Hmax.
    apply netmask_mono; lia.
  - by destruct H as (_ & Hmt & _).
  - by destruct H.
Qed.

(** Two routes match; the one for the /24 wins over the default. *)
Definition ex_routes : inet :=
  mk_inet [mk_rt 0 0 (NET_IP4 10 0 2 2) (Some 1); mk_rt (NET_IP4 10 0 2 0) (NET_IP4 255 255 255 0) 0 (Some 1); mk_rt (NET_IP4 127 0 0 0) (NET_IP4 255 0 0 0) 0 (Some 2)] ∅ [] 0 0.

Lemma route_longest_prefix_witness :
  match ip_route_output ex_routes (NET_IP4 10 0 2 9) with
  | inl e => False
  | inr (next_hop, d) =>
      next_hop = NET_IP4 10 0 2 9 /\ exists e p, e ∈ rt_table ex_routes /\ rt_mask e = netmask p /\
        (forall e' q, e' ∈ rt_table ex_routes -> rt_matches (NET_IP4 10 0 2 9) e' = true -> 0 <= q <= 32 -> rt_mask e' = netmask q -> q <= p)
  end.
Proof.
  pose proof (route_longest_prefix ex_routes (NET_IP4 10 0 2 9)) as H.
  assert (Hm : Forall (fun e => exists p, 0 <= p <= 32 /\ rt_mask e = netmask p) (rt_table ex_routes)).
  { repeat apply list.Forall_cons_2; [exists 0 | exists 24 | exists 8 | apply list.Forall_nil_2]; split; (lia || reflexivity). }
  specialize (H Hm). assert (E : ip_route_output ex_routes (NET_IP4 10 0 2 9) = inr (NET_IP4 10 0 2 9, 1)) by (vm_compute; reflexivity). rewrite E in *.
  split; [reflexivity |]. destruct H as (e & p & H1 & _ & _ & _ & H2 & _ & H3). exists e, p. split; [exact H1 | split; [exact H2 | exact H3]].
Defined.

(** ** IP headers *)

(** The header around its checksum. *)
Definition ip_pre (tot_len id ttl proto : Z) : list Z :=
  [0x45; 0] ++ le_enc 2 (htons tot_len) ++ le_enc 2 (htons id) ++ le_enc 2 (htons IP_DF) ++ [ttl; proto].

Lemma iphdr_split tl id ttl proto check s d : iphdr tl id ttl proto check s d = ip_pre tl id ttl proto ++ le_enc 2 check ++ (le_enc 4 s ++ le_enc 4 d).
Proof. unfold iphdr, ip_pre. by rewrite <- !app_assoc. Qed.

Lemma iphdr_length tl id ttl proto check s d : length (iphdr tl id ttl proto check s d) = 20%nat.
Proof. done. Qed.

Lemma ip_pre_bytes tl id ttl proto : 0 <= ttl < 256 -> 0 <= proto < 256 -> bytes (ip_pre tl id ttl proto).
Proof.
  intros H1 H2. unfold ip_pre. rewrite !bytes_app, !bytes_cons. split_and!; try lia; try apply le_enc_bytes; constructor.
Qed.

Lemma iphdr_bytes tl id ttl proto check s d : 0 <= ttl < 256 -> 0 <= proto < 256 -> bytes (iphdr tl id ttl proto check s d).
Proof. intros H1 H2. rewrite iphdr_split, !bytes_app. split_and!; auto using ip_pre_bytes, le_enc_bytes. Qed.

(** The header with its checksum filled in. *)
Lemma iphdr_csum tl id ttl proto s d : 0 <= ttl < 256 -> 0 <= proto < 256 ->
  exists c, inet_csum (iphdr tl id ttl proto 0 s d) = Ret c /\ inet_csum (iphdr tl id ttl proto c s d) = Ret 0.
Proof.
  intros H1 H2. assert (Hc : exists c, inet_csum (iphdr tl id ttl proto 0 s d) = Ret c).
  { rewrite csum_spec; [by eexists | by apply iphdr_bytes | rewrite iphdr_length; lia]. }
  destruct Hc as [c Hc]. exists c. split; [done |]. rewrite iphdr_split in *. change (le_enc 2 0) with [0; 0] in Hc.
  apply (csum_filled (ip_pre tl id ttl proto) (le_enc 4 s ++ le_enc 4 d) c c); try done; [by apply ip_pre_bytes | rewrite bytes_app; auto using le_enc_bytes | by exists 5%nat | by left].
Qed.

(** What the receiver makes of a packet with such a header, padding included. *)
Lemma ip_rcv_built r id ttl proto c s d payload pad : skb_ok r -> 0 <= Z.of_nat (length payload) <= 65515 -> 0 <= s < 2 ^ 32 -> 0 <= d < 2 ^ 32 ->
  (proto = IPPROTO_ICMP \/ proto = IPPROTO_UDP \/ proto = IPPROTO_TCP) ->
  inet_csum (iphdr (20 + Z.of_nat (length payload)) id ttl proto c s d) = Ret 0 ->
  contents r = iphdr (20 + Z.of_nat (length payload)) id ttl proto c s d ++ payload ++ pad ->
  exists r', ip_rcv r = Ret (Some (proto, r')) /\ skb_ok r' /\ contents r' = payload /\ cb_saddr (cb r') = s /\ cb_daddr (cb r') = d.
Proof.
  intros Hok Hl Hs Hd Hp Hsum E. set (tl := 20 + Z.of_nat (length payload)) in *. pose proof (skb_contents_length r Hok) as Hlen. rewrite E, !length_app, iphdr_length in Hlen.
  unfold ip_rcv. set (P := contents r) in *. assert (HP : Z.of_nat (length P) = skb_len r) by (by apply skb_contents_length).
  destruct (Z.ltb_spec (skb_len r) 20); [lia |].
  assert (E0 : rd P 0 = Ret 69) by (rewrite E; done). assert (E9 : rd P 9 = Ret proto) by (rewrite E; apply rd_ret; by split). rewrite E0. cbv beta iota. change (negb (Z.shiftr 69 4 =? 4)) with false.
  change (Z.land 69 15 * 4) with 20. cbv beta iota zeta. change (20 <? 20) with false. rewrite (proj2 (Z.ltb_ge (skb_len r) 20)) by lia. cbn [orb].
  rewrite (field_ret P 2 2 (htons tl)); [| lia | lia | lia | rewrite E; reflexivity | pose proof (htons_bound tl); lia]. rewrite htons_htons by (unfold tl; lia).
  destruct (Z.ltb_spec tl 20); [unfold tl in *; lia |]. destruct (Z.ltb_spec (skb_len r) tl); [unfold tl in *; lia |]. cbn [orb].
  rewrite rd_slice_ret by lia. replace (take (Z.to_nat 20) (drop (Z.to_nat 0) P)) with (iphdr tl id ttl proto c s d) by (rewrite E; reflexivity). rewrite Hsum. cbv beta iota. change (negb (0 =? 0)) with false. cbv iota.
  rewrite (field_ret P 6 2 (htons IP_DF)); [| lia | lia | lia | rewrite E; reflexivity | vm_compute; split; congruence]. change (negb (Z.land (htons (htons IP_DF)) (Z.lor IP_MF IP_OFFSET) =? 0)) with false. cbv beta iota.
  rewrite E9, (field_ret P 12 4 s), (field_ret P 16 4 d); [| lia | lia | lia | rewrite E; reflexivity | done | lia | lia | lia | rewrite E; reflexivity | done].
  cbv beta iota. set (r1 := set_cb r _). assert (Hok1 : skb_ok r1) by (destruct Hok as [A1 A2 A3 A4 A5]; by split). destruct (trim_ok r1 tl Hok1) as [Ht1 Ht2]; [unfold tl; cbn; lia |].
  destruct (pull_ok (skb_trim r1 tl) 20 Ht1) as (r2 & -> & Hok2 & Hc2 & _ & _ & _ & Hcb & _); [cbn; unfold tl; lia |].
  assert (Ep : (proto =? IPPROTO_ICMP) || (proto =? IPPROTO_UDP) || (proto =? IPPROTO_TCP) = true) by (destruct Hp as [-> | [-> | ->]]; reflexivity). rewrite Ep. exists r2. split; [done |]. split; [done |].
  rewrite Hc2, Ht2, Hcb. split; [| done]. change (contents r1) with P. rewrite E.
  replace (Z.to_nat tl) with (length (iphdr tl id ttl proto c s d) + length payload)%nat by (rewrite iphdr_length; unfold tl; lia).
  rewrite take_app_add, take_app_length. reflexivity.
Qed.

Lemma headroom_ok s : skb_ok s -> skb_headroom s = data s.
Proof. intros [H1 H2 H3 H4 H5]. apply u32_small. lia. Qed.

(** Ethernet: a header is pushed and taken off again. *)
Lemma eth_header_ok skb source type dest : skb_ok skb -> bytes source -> bytes dest -> length source = 6%nat -> length dest = 6%nat -> ETH_HLEN <= data skb ->
  exists f, eth_header skb source type (Some dest) = Ret (Some f) /\ skb_ok f /\ contents f = ethhdr dest source type ++ contents skb /\ skb_dev f = skb_dev skb /\
    protocol f = protocol skb /\ cb f = cb skb /\ data f = data skb - 14.
Proof.
  intros Hok Hs Hd Ls Ld Hroom. unfold eth_header. rewrite headroom_ok by done. destruct (Z.ltb_spec (data skb) ETH_HLEN); [lia |].
  assert (Hl : length (ethhdr dest source type) = 14%nat) by (unfold ethhdr; rewrite !length_app, Ld, Ls, length_le_enc; done).
  destruct (push_bytes_ok skb (ethhdr dest source type) Hok) as (f & -> & H1 & H2 & H3 & _ & _ & H4 & H5 & H6); [unfold ethhdr; rewrite !bytes_app; auto using le_enc_bytes | rewrite Hl; unfold ETH_HLEN in *; lia |].
  exists f. rewrite Hl in H3. by split_and!.
Qed.

Lemma eth_type_trans_ok r dest source type body : skb_ok r -> length source = 6%nat -> length dest = 6%nat -> 0 <= type < 65536 -> contents r = ethhdr dest source type ++ body ->
  exists r', eth_type_trans r = Ret (type, r') /\ skb_ok r' /\ contents r' = body /\ cb r' = cb r.
Proof.
  intros Hok Ls Ld Ht E. pose proof (skb_contents_length r Hok) as Hlen.
  assert (Hl : length (ethhdr dest source type) = 14%nat) by (unfold ethhdr; rewrite !length_app, Ld, Ls, length_le_enc; done).
  unfold eth_type_trans. destruct (Z.ltb_spec (skb_len r) ETH_HLEN); [rewrite E, length_app, Hl in Hlen; unfold ETH_HLEN in *; lia |].
  rewrite (field_ret (contents r) 12 2 (htons type)); [| lia | lia | rewrite Hlen; unfold ETH_HLEN in *; lia | | pose proof (htons_bound type); lia].
  - destruct (pull_ok r ETH_HLEN Hok) as (r' & -> & H1 & H2 & _ & _ & _ & H3 & _); [unfold ETH_HLEN in *; lia |]. exists r'. rewrite htons_htons by done. split_and!; try done.
    rewrite H2, E. apply drop_app_length'. done.
  - rewrite E. unfold ethhdr. change (Z.to_nat 12) with (6 + 6)%nat. rewrite <- !app_assoc, <- drop_drop. rewrite <- Ld at 2. rewrite drop_app_length. rewrite <- Ls at 1. rewrite drop_app_length. reflexivity.
Qed.

(** What [ip_output] hands to the device or to ARP. *)
Lemma ip_output_packet s drv ok now skb saddr daddr proto ttl next_hop d dv : skb_ok skb -> 20 <= data skb -> skb_len skb <= 65515 -> 0 <= proto < 256 -> 0 <= ttl < 256 ->
  ip_route_output s daddr = inr (next_hop, d) -> devs s !! d = Some dv ->
  exists s1 pkt id c t, ip_output s drv ok now skb saddr daddr proto ttl =
      (if negb (Z.land (dev_flags dv) IFF_LOOPBACK =? 0) then netdev_start_xmit s1 drv pkt else arp_output s1 drv ok now pkt d next_hop) /\
    s1 = set_ip_id id s /\ skb_ok pkt /\ protocol pkt = ETH_P_IP /\ skb_dev pkt = Some d /\ data pkt = data skb - 20 /\
    contents pkt = iphdr (20 + skb_len skb) id t proto c (if saddr =? 0 then ip_addr dv else saddr) daddr ++ contents skb /\
    inet_csum (iphdr (20 + skb_len skb) id t proto c (if saddr =? 0 then ip_addr dv else saddr) daddr) = Ret 0.
Proof.
  intros Hok Hroom Hlen Hp Ht Hr Hdv. unfold ip_output. rewrite Hr. unfold device. rewrite Hdv. cbv beta iota zeta. rewrite headroom_ok by done. destruct (Z.ltb_spec (data skb) 20); [lia |].
  pose proof (skb_contents_length skb Hok) as Hcl. assert (El : u16 (skb_len skb + 20) = 20 + skb_len skb) by (rewrite wrap_small; lia). rewrite El.
  set (t := if ttl =? 0 then IP_TTL_DEFAULT else ttl). assert (Ht' : 0 <= t < 256) by (unfold t, IP_TTL_DEFAULT; destruct (ttl =? 0); lia).
  destruct (iphdr_csum (20 + skb_len skb) (u16 (ip_id s + 1)) t proto (if saddr =? 0 then ip_addr dv else saddr) daddr Ht' Hp) as (c & -> & Hc).
  destruct (push_bytes_ok skb (iphdr (20 + skb_len skb) (u16 (ip_id s + 1)) t proto c (if saddr =? 0 then ip_addr dv else saddr) daddr) Hok) as (pkt & -> & H1 & H2 & H3 & _ & _ & H4 & H5 & H6);
    [by apply iphdr_bytes | rewrite iphdr_length; lia |].
  eexists _, _, _, _, _. split; [reflexivity |]. split; [reflexivity |]. split; [destruct H1 as [A1 A2 A3 A4 A5]; by split |]. split; [done |]. split; [done |]. split; [exact H3 |]. split; [exact H2 | exact Hc].
Qed.

(** A packet survives the way through IP. Whatever transport data, addresses and protocol are passed to [ip_output], the packet it
    hands to a device or leaves with ARP carries them: a receiver that finds these bytes, with Ethernet padding behind them or not, accepts it in [ip_rcv] and passes on exactly the same data, with both addresses,
    to the handler of the same protocol; the sender's address is that of the output device when none was given. *)
Theorem ip_roundtrip (s : inet) (drv : driver) (ok : bool) (now : Z) (skb : sk_buff) (saddr daddr proto ttl next_hop d : Z) (dv : net_device) :
  skb_ok skb -> 20 <= data skb -> skb_len skb <= 65515 -> (proto = IPPROTO_ICMP \/ proto = IPPROTO_UDP \/ proto = IPPROTO_TCP) -> 0 <= ttl < 256 ->
  0 <= saddr < 2 ^ 32 -> 0 <= daddr < 2 ^ 32 -> 0 <= ip_addr dv < 2 ^ 32 -> ip_route_output s daddr = inr (next_hop, d) -> devs s !! d = Some dv ->
  exists s1 pkt, ip_output s drv ok now skb saddr daddr proto ttl =
      (if negb (Z.land (dev_flags dv) IFF_LOOPBACK =? 0) then netdev_start_xmit s1 drv pkt else arp_output s1 drv ok now pkt d next_hop) /\
    skb_ok pkt /\ protocol pkt = ETH_P_IP /\ skb_dev pkt = Some d /\
    forall r pad, skb_ok r -> contents r = contents pkt ++ pad ->
      exists r', ip_rcv r = Ret (Some (proto, r')) /\ skb_ok r' /\ contents r' = contents skb /\
        cb_saddr (cb r') = (if saddr =? 0 then ip_addr dv else saddr) /\ cb_daddr (cb r') = daddr.
Proof.
  intros Hok Hroom Hlen Hp Ht Hs Hd Hi Hr Hdv. assert (Hp' : 0 <= proto < 256) by (unfold IPPROTO_ICMP, IPPROTO_UDP, IPPROTO_TCP in Hp; lia).
  destruct (ip_output_packet s drv ok now skb saddr daddr proto ttl next_hop d dv Hok Hroom Hlen Hp' Ht Hr Hdv) as (s1 & pkt & id & c & t & E & _ & H1 & H2 & H3 & _ & H4 & H5).
  exists s1, pkt. split_and!; try done. intros r pad Hrok Er. pose proof (skb_contents_length skb Hok) as Hcl. rewrite <- Hcl in H4, H5.
  apply (ip_rcv_built r id t proto c (if saddr =? 0 then ip_addr dv else saddr) daddr (contents skb) pad); try done; [lia | by destruct (saddr =? 0) |].
  by rewrite Er, H4, app_assoc.
Qed.

(** The loopback device and its route. *)
Definition ex_lo : inet :=
  mk_inet [mk_rt (NET_IP4 127 0 0 0) (NET_IP4 255 0 0 0) 0 (Some 2)]
    {[2 := mk_dev [0; 0; 0; 0; 0; 0] 65535 (Z.lor IFF_UP IFF_LOOPBACK) (NET_IP4 127 0 0 1) true 0 0 0 0 0 0 0]} [] 0 0.
Definition ex_skb (room : nat) (d : list Z) : sk_buff := mk_sk_buff (replicate room 0 ++ d) (Z.of_nat room) (Z.of_nat (room + length d)) (Z.of_nat (length d)) None 0 (mk_cb 0 0 0 0).

Lemma ex_skb_ok room d : bytes d -> Z.of_nat (room + length d) < 2 ^ 32 -> skb_ok (ex_skb room d).
Proof. intros Hd Hl. unfold ex_skb. split; cbn [data tail mem skb_len]; rewrite ?length_app, ?length_replicate; try lia. apply bytes_app. split; [apply list.Forall_replicate; lia | done]. Qed.

Lemma ip_roundtrip_witness : exists s1 pkt, ip_output ex_lo (fun _ _ => 0) true 0 (ex_skb 20 [1; 2; 3; 4]) 0 (NET_IP4 127 0 0 1) IPPROTO_UDP 0 = netdev_start_xmit s1 (fun _ _ => 0) pkt /\
  exists r', ip_rcv pkt = Ret (Some (IPPROTO_UDP, r')) /\ contents r' = [1; 2; 3; 4] /\ cb_saddr (cb r') = NET_IP4 127 0 0 1.
Proof.
  destruct (ip_roundtrip ex_lo (fun _ _ => 0) true 0 (ex_skb 20 [1; 2; 3; 4]) 0 (NET_IP4 127 0 0 1) IPPROTO_UDP 0 (NET_IP4 127 0 0 1) 2 (mk_dev [0; 0; 0; 0; 0; 0] 65535 (Z.lor IFF_UP IFF_LOOPBACK) (NET_IP4 127 0 0 1) true 0 0 0 0 0 0 0))
    as (s1 & pkt & E & H1 & _ & _ & H2);
    [apply ex_skb_ok; [repeat apply list.Forall_cons_2; try lia; constructor | cbn; lia] | cbn; lia | cbn; lia | right; left; reflexivity | lia | lia | vm_compute; split; congruence | vm_compute; split; congruence | vm_compute; reflexivity | reflexivity |].
  exists s1, pkt. split; [exact E |]. destruct (H2 pkt [] H1) as (r' & E1 & _ & E2 & E3 & _); [symmetry; apply app_nil_r |]. exists r'. split; [exact E1 |]. split; [exact E2 | exact E3].
Defined.

(** The buffer [r] holds what [r'] holds behind a header with a right checksum, maybe with padding. *)
Definition carries (r r' : sk_buff) : Prop :=
  exists hdr pad, contents r = hdr ++ contents r' ++ pad /\ 20 <= Z.of_nat (length hdr) <= 60 /\ inet_csum hdr = Ret 0.

(** C30: [ip_rcv] is safe on every frame: whatever bytes a buffer holds, header lengths, total lengths and options included, it reads
    and pulls only within the buffer; what it passes on is a part of the packet behind a header of 20 to 60 bytes with a right checksum. *)
Theorem ip_rcv_safe (r : sk_buff) : skb_ok r ->
  exists o, ip_rcv r = Ret o /\
    forall proto r', o = Some (proto, r') -> skb_ok r' /\ 0 <= cb_saddr (cb r') < 2 ^ 32 /\ 0 <= cb_daddr (cb r') < 2 ^ 32 /\ carries r r'.
Proof.
  intros Hok. pose proof (skb_contents_length r Hok) as Hlen. pose proof (contents_bytes r Hok) as Hb. unfold ip_rcv. set (P := contents r) in *.
  destruct (Z.ltb_spec (skb_len r) 20); [by exists None |].
  assert (Hrd : forall i, 0 <= i < 20 -> exists b, rd P i = Ret b /\ 0 <= b < 256).
  { intros i Hi. destruct (rd_in_range P i) as [b Hrd]; [lia |]. exists b. split; [done |]. apply rd_ret in Hrd as [_ Hrd]. by apply (list.Forall_lookup_1 _ _ _ _ Hb) in Hrd. }
  destruct (Hrd 0) as (vi & -> & Hvi); [lia |]. cbv beta iota. destruct (negb _); [by exists None |]. cbv zeta.
  assert (Hihl : 0 <= Z.land vi 15 * 4 <= 60). { assert (Hl := Z.land_ones vi 4 ltac:(lia)). change (Z.ones 4) with 15 in Hl. rewrite Hl. pose proof (Z.mod_pos_bound vi (2 ^ 4) ltac:(lia)). lia. }
  set (ihl := Z.land vi 15 * 4) in *. destruct (Z.ltb_spec ihl 20); [by exists None |]. destruct (Z.ltb_spec (skb_len r) ihl); [by exists None |]. cbn [orb].
  destruct (field_bound P 2 2 Hb) as (tl & -> & _); [lia.. |]. destruct (Z.ltb_spec (htons tl) ihl); [by exists None |]. destruct (Z.ltb_spec (skb_len r) (htons tl)); [by exists None |]. cbn [orb].
  rewrite rd_slice_ret by lia. set (hdr := take (Z.to_nat ihl) (drop (Z.to_nat 0) P)). assert (Hhdr : hdr = take (Z.to_nat ihl) P) by reflexivity. assert (Hhl : Z.of_nat (length hdr) = ihl) by (rewrite Hhdr, length_take; lia).
  assert (Hc : exists c, inet_csum hdr = Ret c). { rewrite csum_spec; [by eexists | rewrite Hhdr; by apply list.Forall_take | lia]. }
  destruct Hc as [c Hc]. rewrite Hc. cbv beta iota. destruct (Z.eqb_spec c 0) as [-> |]; [| by exists None]. cbn [negb].
  destruct (field_bound P 6 2 Hb) as (fo & -> & _); [lia.. |]. destruct (negb _); [by exists None |].
  destruct (Hrd 9) as (proto & -> & _); [lia |]. destruct (field_bound P 12 4 Hb) as (sa & -> & Hsa); [lia.. |]. destruct (field_bound P 16 4 Hb) as (da & -> & Hda); [lia.. |]. cbv beta iota.
  set (r1 := set_cb r _). assert (Hok1 : skb_ok r1) by (destruct Hok as [A1 A2 A3 A4 A5]; by split).
  destruct (trim_ok r1 (htons tl) Hok1) as [Ht1 Ht2]; [cbn; lia |]. destruct (pull_ok (skb_trim r1 (htons tl)) ihl Ht1) as (r2 & -> & Hok2 & Hc2 & _ & _ & _ & Hcb & _); [cbn; lia |].
  destruct (_ || _); [| by exists None]. eexists. split; [done |]. intros p' r' [= <- <-]. split; [done |]. rewrite Hcb. split; [exact Hsa |]. split; [exact Hda |].
  unfold carries. fold P. exists hdr, (drop (Z.to_nat (htons tl)) P). split; [| split; [lia | done]]. rewrite Hc2, Ht2. change (contents r1) with P. rewrite Hhdr, skipn_firstn_comm.
  rewrite <- (take_drop (Z.to_nat ihl) P) at 1. f_equal. rewrite <- (take_drop (Z.to_nat (htons tl) - Z.to_nat ihl) (drop (Z.to_nat ihl) P)) at 1. f_equal. rewrite drop_drop. f_equal. lia.
Qed.

Lemma ip_rcv_safe_witness : exists proto r', ip_rcv (ex_skb 0 (iphdr 24 1 64 IPPROTO_UDP 53820 (NET_IP4 127 0 0 1) (NET_IP4 127 0 0 1) ++ [1; 2; 3; 4; 0])) = Ret (Some (proto, r')) /\ skb_ok r'.
Proof.
  destruct (ip_rcv_safe (ex_skb 0 (iphdr 24 1 64 IPPROTO_UDP 53820 (NET_IP4 127 0 0 1) (NET_IP4 127 0 0 1) ++ [1; 2; 3; 4; 0]))) as (o & E & H).
  { apply ex_skb_ok; [apply bytes_app; split; [apply iphdr_bytes; vm_compute; split; congruence | repeat apply list.Forall_cons_2; try lia; constructor] | cbn; lia]. }
  destruct o as [[proto r'] |]; [| exfalso; vm_compute in E; discriminate E]. exists proto, r'. split; [exact E | exact (proj1 (H proto r' eq_refl))].
Defined.

(** ** Echo *)

(** Writing inside the contents. *)
Lemma store_ok s k d : skb_ok s -> bytes d -> 0 <= k -> k + Z.of_nat (length d) <= skb_len s ->
  exists s', store s (data s + k) d = Ret s' /\ skb_ok s' /\ contents s' = take (Z.to_nat k) (contents s) ++ d ++ drop (Z.to_nat k + length d) (contents s) /\
    data s' = data s /\ skb_len s' = skb_len s /\ cb s' = cb s.
Proof.
  intros [H1 H2 H3 H4 H5] Hd Hk Hl. unfold store. rewrite wr_slice_split by lia. eexists. split; [reflexivity |]. cbn [data skb_len cb]. split_and!; try done.
  - split; cbn [mem data tail skb_len]; try lia; rewrite ?length_app, ?length_take, ?length_drop; try lia. by apply bytes_splice.
  - unfold contents. cbn [mem data skb_len]. rewrite drop_app_le by (rewrite length_take; lia). rewrite skipn_firstn_comm. replace (Z.to_nat (data s + k) - Z.to_nat (data s))%nat with (Z.to_nat k) by lia.
    rewrite take_app_ge by (rewrite length_take, length_drop; lia). rewrite length_take, length_drop, Nat.min_l by lia.
    rewrite take_app_ge by lia. f_equal; [rewrite firstn_firstn; f_equal; lia |]. f_equal. rewrite skipn_firstn_comm, drop_drop. f_equal; [lia |]. f_equal. lia.
Qed.

Lemma icmphdr_length type code check id seq : length (icmphdr type code check id seq) = 8%nat.
Proof. done. Qed.

(** An echo request is answered with an echo reply that carries the same identifier, sequence number and data and a right checksum, from the
    address the request was sent to, to the address it came from. *)
Theorem icmp_echo_reply (s : inet) (drv : driver) (ok : bool) (now : Z) (skb : sk_buff) (ck id seq : Z) (dat : list Z) :
  skb_ok skb -> skb_len skb <= 65515 -> contents skb = icmphdr ICMP_ECHO 0 ck id seq ++ dat -> inet_csum (contents skb) = Ret 0 ->
  exists reply ck', icmp_rcv s drv ok now skb = ip_output s drv ok now reply (cb_daddr (cb skb)) (cb_saddr (cb skb)) IPPROTO_ICMP IP_TTL_DEFAULT /\
    skb_ok reply /\ data reply = data skb /\ contents reply = icmphdr ICMP_ECHOREPLY 0 ck' id seq ++ dat /\ inet_csum (contents reply) = Ret 0.
Proof.
  intros Hok Hlen Ec Hsum. pose proof (skb_contents_length skb Hok) as Hcl. pose proof (contents_bytes skb Hok) as Hcb. assert (Hdat : bytes dat) by (rewrite Ec, bytes_app in Hcb; tauto). assert (Hl8 : skb_len skb = 8 + Z.of_nat (length dat)) by (rewrite <- Hcl, Ec, length_app, icmphdr_length; lia).
  unfold icmp_rcv. destruct (Z.ltb_spec (skb_len skb) 8); [lia |]. rewrite Hsum. cbv beta iota. change (negb (0 =? 0)) with false. cbv iota.
  assert (E0 : rd (contents skb) 0 = Ret ICMP_ECHO) by (by rewrite Ec). assert (E1 : rd (contents skb) 1 = Ret 0) by (by rewrite Ec). rewrite E0, E1. cbv beta iota. change ((ICMP_ECHO =? ICMP_ECHO) && (0 =? 0)) with true. cbv iota.
  assert (B0 : bytes [ICMP_ECHOREPLY]) by (apply bytes_cons; split; [done | constructor]). assert (B00 : bytes [0; 0]) by (rewrite !bytes_cons; split_and!; try lia; constructor).
  replace (store skb (data skb) [ICMP_ECHOREPLY]) with (store skb (data skb + 0) [ICMP_ECHOREPLY]) by (by rewrite Z.add_0_r). destruct (store_ok skb 0 [ICMP_ECHOREPLY] Hok B0) as (s1 & -> & K1 & C1 & D1 & L1 & A1); [lia | cbn; lia |]. cbv beta iota.
  destruct (store_ok s1 2 [0; 0] K1 B00) as (s2 & -> & K2 & C2 & D2 & L2 & A2); [lia | cbn; lia |]. cbv beta iota.
  assert (E2 : contents s2 = icmphdr ICMP_ECHOREPLY 0 0 id seq ++ dat) by (rewrite C2, C1, Ec; reflexivity).
  assert (Hck : exists c, inet_csum (contents s2) = Ret c). { rewrite csum_spec; [by eexists | by apply contents_bytes | rewrite skb_contents_length by done; lia]. }
  destruct Hck as [c Hck]. rewrite Hck. cbv beta iota. destruct (store_ok s2 2 (le_enc 2 c) K2 (le_enc_bytes 2 c)) as (s3 & -> & K3 & C3 & D3 & L3 & A3); [lia | rewrite length_le_enc; cbn; lia |]. cbv beta iota.
  rewrite A3, A2, A1. exists s3, c. split; [reflexivity |]. split; [done |]. split; [congruence |]. assert (E3 : contents s3 = icmphdr ICMP_ECHOREPLY 0 c id seq ++ dat) by (rewrite C3, E2; reflexivity). split; [done |].
  rewrite E3. change (icmphdr ICMP_ECHOREPLY 0 c id seq ++ dat) with ([ICMP_ECHOREPLY; 0] ++ le_enc 2 c ++ (le_enc 2 (htons id) ++ le_enc 2 (htons seq) ++ dat)).
  rewrite E2 in Hck. change (icmphdr ICMP_ECHOREPLY 0 0 id seq ++ dat) with ([ICMP_ECHOREPLY; 0] ++ [0; 0] ++ (le_enc 2 (htons id) ++ le_enc 2 (htons seq) ++ dat)) in Hck.
  apply (csum_filled [ICMP_ECHOREPLY; 0] _ c c); try done; [rewrite !bytes_app; auto using le_enc_bytes | by exists 1%nat | rewrite !length_app, !length_le_enc; cbn; lia | by left].
Qed.

Lemma icmp_echo_reply_witness : exists reply ck', icmp_rcv ex_lo (fun _ _ => 0) true 0 (ex_skb 20 (icmphdr ICMP_ECHO 0 62966 7 1 ++ [1; 2])) = ip_output ex_lo (fun _ _ => 0) true 0 reply 0 0 IPPROTO_ICMP IP_TTL_DEFAULT /\
  contents reply = icmphdr ICMP_ECHOREPLY 0 ck' 7 1 ++ [1; 2].
Proof.
  destruct (icmp_echo_reply ex_lo (fun _ _ => 0) true 0 (ex_skb 20 (icmphdr ICMP_ECHO 0 62966 7 1 ++ [1; 2])) 62966 7 1 [1; 2]) as (reply & ck & E & _ & _ & C & _);
    [apply ex_skb_ok; [repeat apply list.Forall_cons_2; try (vm_compute; split; congruence); constructor | cbn; lia] | cbn; lia | reflexivity | vm_compute; reflexivity |].
  exists reply, ck. split; [exact E | exact C].
Defined.

(** ** Addresses as text *)

(** A number below 256 in decimal. *)
Definition dec (a : Z) : list Z :=
  if a <? 10 then [48 + a] else if a <? 100 then [48 + a / 10; 48 + a mod 10] else [48 + a / 100; 48 + a / 10 mod 10; 48 + a mod 10].

(** [NET_IP4_FMT] of an address. *)
Definition dotted (x : Z) : list Z :=
  dec (x mod 256) ++ [46] ++ dec (x / 256 mod 256) ++ [46] ++ dec (x / 65536 mod 256) ++ [46] ++ dec (x / 16777216 mod 256).

Definition ends (rest : list Z) : Prop := match rest with [] => True | c :: _ => c = 32 \/ c = 9 \/ c = 10 \/ c = 13 end.

Lemma digit_step c parts part digit rest : 48 <= c <= 57 -> 0 <= nth (Z.to_nat part) parts 0 * 10 + (c - 48) <= 255 ->
  parse_loop (c :: rest) parts part digit = parse_loop rest (<[Z.to_nat part := nth (Z.to_nat part) parts 0 * 10 + (c - 48)]> parts) part true.
Proof.
  intros Hc Hv. cbn [parse_loop]. rewrite (proj2 (Z.leb_le 48 c)), (proj2 (Z.leb_le c 57)) by lia. cbn [andb]. rewrite u32_small by lia.
  destruct (Z.ltb_spec 255 (nth (Z.to_nat part) parts 0 * 10 + (c - 48))); [lia | done].
Qed.

Lemma nth_insert (l : list Z) i v : (i < length l)%nat -> nth i (<[i := v]> l) 0 = v.
Proof. intros H. apply nth_lookup_Some. by apply list_lookup_insert_eq. Qed.

Lemma dec_step a parts part digit rest : 0 <= a < 256 -> nth (Z.to_nat part) parts 0 = 0 -> (Z.to_nat part < length parts)%nat ->
  parse_loop (dec a ++ rest) parts part digit = parse_loop rest (<[Z.to_nat part := a]> parts) part true.
Proof.
  intros Ha H0 Hl. unfold dec. destruct (Z.ltb_spec a 10); [| destruct (Z.ltb_spec a 100)]; cbn [app].
  - rewrite digit_step by lia. do 2 f_equal. lia.
  - assert (0 <= a / 10 <= 9 /\ 0 <= a mod 10 <= 9 /\ a = 10 * (a / 10) + a mod 10) by zdm. rewrite digit_step by lia. rewrite H0.
    rewrite digit_step; rewrite ?nth_insert by done; try lia. rewrite list_insert_insert_eq. do 2 f_equal. lia.
  - assert (0 <= a / 100 <= 2 /\ 0 <= a / 10 mod 10 <= 9 /\ 0 <= a mod 10 <= 9 /\ a = 100 * (a / 100) + 10 * (a / 10 mod 10) + a mod 10) by zdm. rewrite digit_step by lia. rewrite H0.
    rewrite digit_step; rewrite ?nth_insert by done; try lia. rewrite list_insert_insert_eq.
    rewrite digit_step; rewrite ?nth_insert by done; try lia. rewrite list_insert_insert_eq. do 2 f_equal. lia.
Qed.

Lemma dot_step parts part rest : 0 <= part < 3 -> parse_loop (46 :: rest) parts part true = parse_loop rest parts (part + 1) false.
Proof. intros H. cbn [parse_loop]. cbn [Z.leb Z.eqb andb negb orb]. destruct (Z.leb_spec 3 part); [lia | done]. Qed.

Lemma net_ip4_sum a b c d : 0 <= a < 256 -> 0 <= b < 256 -> 0 <= c < 256 -> 0 <= d < 256 -> NET_IP4 a b c d = a + 256 * b + 65536 * c + 16777216 * d.
Proof.
  intros Ha Hb Hc Hd. unfold NET_IP4. rewrite !Z.shiftl_mul_pow2 by lia. rewrite (Z.lor_comm a), lor_pack by lia.
  rewrite (Z.lor_comm (b * 2 ^ 8 + a)), lor_pack by lia. rewrite (Z.lor_comm (c * 2 ^ 16 + _)), lor_pack by lia. lia.
Qed.

(** An IPv4 address printed in dotted form, with [NET_IP4_FMT], and followed by the end or by white space, parses back to the same address. *)
Theorem ipv4_text_roundtrip (x : Z) (rest : list Z) : 0 <= x < 2 ^ 32 -> ends rest -> net_parse_ipv4 (dotted x ++ rest) = (0, x).
Proof.
  intros Hx Hr. assert (Hp : 0 <= x mod 256 < 256 /\ 0 <= x / 256 mod 256 < 256 /\ 0 <= x / 65536 mod 256 < 256 /\ 0 <= x / 16777216 mod 256 < 256 /\
    x = x mod 256 + 256 * (x / 256 mod 256) + 65536 * (x / 65536 mod 256) + 16777216 * (x / 16777216 mod 256)) by zdm. destruct Hp as (Ha & Hb & Hc & Hd & E).
  unfold net_parse_ipv4, dotted. rewrite <- !app_assoc. rewrite dec_step by first [done | rewrite ?length_insert; vm_compute; lia]. cbn [app]. rewrite dot_step by lia.
  rewrite dec_step by first [done | rewrite ?length_insert; vm_compute; lia]. cbn [app]. rewrite dot_step by lia. rewrite dec_step by first [done | rewrite ?length_insert; vm_compute; lia]. cbn [app]. rewrite dot_step by lia. rewrite dec_step by first [done | rewrite ?length_insert; vm_compute; lia].
  assert (Hend : forall parts, parse_loop rest parts (0 + 1 + 1 + 1) true = Some (parts, 3, true)).
  { intros parts. destruct rest as [| ch rest]; [done |]. cbn [parse_loop]. destruct Hr as [-> | [-> | [-> | ->]]]; done. }
  rewrite Hend. cbn. f_equal. rewrite net_ip4_sum by done. lia.
Qed.

Lemma ipv4_text_witness : net_parse_ipv4 [49; 48; 46; 48; 46; 50; 46; 49; 53; 10] = (0, NET_IP4 10 0 2 15).
Proof. apply (ipv4_text_roundtrip (NET_IP4 10 0 2 15) [10]); [vm_compute; split; congruence | right; right; left; reflexivity]. Defined.
