(* ===== verification/Arp.v ===== *)
(** * The ARP table

    The invariant of the table and what resolution promises: packets that wait for
    an address leave in order, to that address, when the answer comes. *)

From S2P Require Import Prelude CString Checksum SkBuff Inet InetProps.

(** ** The invariant *)

Definition mac_ok (m : list Z) : Prop := length m = 6%nat /\ bytes m.

(** A packet that can be given an Ethernet header on a device we know. *)
Definition sendable (s : inet) (skb : sk_buff) : Prop := skb_ok skb /\ ETH_HLEN <= data skb /\ exists d, skb_dev skb = Some d /\ is_Some (devs s !! d).

Record arp_ok (s : inet) : Prop := {
  a_size : length (arp_table s) = 16%nat;
  a_unique : forall i j e e', arp_table s !! i = Some e -> arp_table s !! j = Some e' -> in_use e = true -> in_use e' = true -> arp_ip e = arp_ip e' -> i = j;
  a_mac : forall i e, arp_table s !! i = Some e -> mac_ok (mac e);
  a_pending : forall i e, arp_table s !! i = Some e -> Forall (sendable s) (pending e) /\ (length (pending e) <= 4)%nat;
  a_free : forall i e, arp_table s !! i = Some e -> in_use e = false -> pending e = [];
  a_dev : forall d dv, devs s !! d = Some dv -> mac_ok (dev_addr dv) }.

(** Devices keep their addresses. *)
Definition same_devs (s s' : inet) : Prop :=
  forall d, match devs s !! d, devs s' !! d with
            | Some x, Some y => dev_addr y = dev_addr x /\ dev_flags y = dev_flags x /\ has_xmit y = has_xmit x /\ ip_addr y = ip_addr x
            | None, None => True | _, _ => False end.

Lemma same_devs_refl s : same_devs s s.
Proof. intros d. by destruct (devs s !! d). Qed.

Lemma same_devs_trans s s' s'' : same_devs s s' -> same_devs s' s'' -> same_devs s s''.
Proof.
  intros H H' d. specialize (H d). specialize (H' d). destruct (devs s !! d), (devs s' !! d), (devs s'' !! d); try done.
  destruct H as (A1 & A2 & A3 & A4), H' as (B1 & B2 & B3 & B4). split_and!; congruence.
Qed.

Lemma same_devs_live s s' d : same_devs s s' -> is_Some (devs s !! d) -> is_Some (devs s' !! d).
Proof. intros H [x Hx]. specialize (H d). rewrite Hx in H. by destruct (devs s' !! d). Qed.

Lemma sendable_same s s' skb : same_devs s s' -> sendable s skb -> sendable s' skb.
Proof. intros H (A & B & d & E & L). split_and!; [done | done |]. exists d. split; [done | by eapply same_devs_live]. Qed.

(** Only statistics change. *)
Definition counts (f : net_device -> net_device) : Prop :=
  forall x, dev_addr (f x) = dev_addr x /\ dev_flags (f x) = dev_flags x /\ has_xmit (f x) = has_xmit x /\ ip_addr (f x) = ip_addr x.

Lemma update_same s d f : counts f -> same_devs s (update_device s d f).
Proof.
  intros Hf e. cbn. destruct (decide (d = e)) as [-> | N]; [rewrite lookup_alter_eq | rewrite lookup_alter_ne by done]; destruct (devs s !! e); by try apply Hf.
Qed.

Lemma arp_ok_same s s' : arp_ok s -> arp_table s' = arp_table s -> same_devs s s' -> arp_ok s'.
Proof.
  intros [H1 H2 H3 H4 H5 H6] E Hd. split; rewrite ?E; try done.
  - intros i e He. destruct (H4 i e He) as [A B]. split; [| done]. eapply list.Forall_impl; [exact A |]. intros skb. by apply sendable_same.
  - intros d dv Hdv. specialize (Hd d). rewrite Hdv in Hd. destruct (devs s !! d) as [x |] eqn:Ex; [| done]. destruct Hd as (-> & _). by eapply H6.
Qed.

(** ** Sending frames *)

Definition dev_up (dv : net_device) : bool := negb (Z.land (dev_flags dv) IFF_UP =? 0) && has_xmit dv.

Lemma xmit_ok s drv skb d dv : skb_dev skb = Some d -> devs s !! d = Some dv ->
  exists s' e, netdev_start_xmit s drv skb = Ret (s', e, if dev_up dv then [(d, skb)] else []) /\ same_devs s s' /\ arp_table s' = arp_table s /\ arp_generation s' = arp_generation s.
Proof.
  intros Ed Hd. unfold netdev_start_xmit, device, dev_up. rewrite Ed, Hd. cbv beta iota. destruct (Z.land (dev_flags dv) IFF_UP =? 0); cbn [negb andb].
  { eexists _, _. split; [done |]. split; [by apply update_same | done]. }
  destruct (has_xmit dv); cbn [negb]; [| eexists _, _; split; [done |]; split; [by apply update_same | done]].
  eexists _, _. split; [done |]. destruct (_ =? 0); [split; [by apply update_same | done] |]. split; [| done].
  eapply same_devs_trans; by apply update_same.
Qed.

Lemma set_dev_ok skb d : skb_ok skb -> skb_ok (set_dev skb d) /\ contents (set_dev skb d) = contents skb.
Proof. intros [H1 H2 H3 H4 H5]. by split. Qed.

Lemma arphdr_length op sha spa tha tpa : length sha = 6%nat -> length tha = 6%nat -> length (arphdr op sha spa tha tpa) = 28%nat.
Proof. intros H1 H2. unfold arphdr. rewrite !length_app, !length_le_enc, H1, H2. done. Qed.

Lemma arphdr_bytes op sha spa tha tpa : bytes sha -> bytes tha -> bytes (arphdr op sha spa tha tpa).
Proof. intros H1 H2. unfold arphdr. rewrite !bytes_app, !bytes_cons. unfold ETH_ALEN. split_and!; auto using le_enc_bytes; try lia. constructor. Qed.

(** An ARP message, when there is memory for it. *)
Lemma arp_send_ok s drv ok d dv op tha tpa : devs s !! d = Some dv -> mac_ok (dev_addr dv) -> (forall a, tha = Some a -> mac_ok a) ->
  exists s' e g, arp_send s drv ok d op tha tpa = Ret (s', e, if ok && dev_up dv then [(d, g)] else []) /\ same_devs s s' /\ arp_table s' = arp_table s /\ arp_generation s' = arp_generation s /\
    (ok = true -> contents g = ethhdr (match tha with Some a => a | None => eth_broadcast_addr end) (dev_addr dv) ETH_P_ARP ++
         arphdr op (dev_addr dv) (ip_addr dv) (match tha with Some a => a | None => [0; 0; 0; 0; 0; 0] end) tpa).
Proof.
  intros Hd [Ls Bs] Ht. unfold arp_send. destruct ok; [| cbn [andb]; exists s, (- ENOMEM), (mk_sk_buff [] 0 0 0 None 0 (mk_cb 0 0 0 0)); split; [done |]; split; [apply same_devs_refl | done]].
  destruct (skb_alloc 28 true) as [skb |] eqn:Ea; [| done]. destruct (alloc_ok 28 skb Ea ltac:(lia)) as (A1 & A2 & A3 & A4 & A5). unfold device. rewrite Hd. cbv beta iota.
  set (h := match tha with Some a => a | None => [0; 0; 0; 0; 0; 0] end). set (m := match tha with Some a => a | None => eth_broadcast_addr end).
  assert (Hh : mac_ok h /\ mac_ok m).
  { unfold h, m. destruct tha as [a |]; [specialize (Ht a eq_refl); done |]. split; (split; [done |]); unfold eth_broadcast_addr; rewrite ?bytes_cons; split_and!; try lia; constructor. }
  destruct Hh as [[Lh Bh] [Lm Bm]].
  destruct (put_bytes_ok skb (arphdr op (dev_addr dv) (ip_addr dv) h tpa) A1) as (s1 & -> & B1 & B2 & B3 & _); [by apply arphdr_bytes | rewrite arphdr_length, A4, A5 by done; lia |]. cbv beta iota.
  destruct (eth_header_ok s1 (dev_addr dv) ETH_P_ARP m B1 Bs Bm Ls Lm) as (s2 & -> & C1 & C2 & _); [rewrite B3, A3; done |]. cbv beta iota.
  destruct (xmit_ok s drv (set_dev s2 d) d dv eq_refl Hd) as (s' & e & -> & E1 & E2 & E3). exists s', e, (set_dev s2 d). split; [done |]. split; [done |]. split; [done |]. split; [done |].
  intros _. rewrite (proj2 (set_dev_ok s2 d C1)), C2, B2, A2. done.
Qed.

(** ** The table *)

Lemma arp_index_some t : forall ip i, arp_index t ip = Some i -> exists e, t !! i = Some e /\ in_use e = true /\ arp_ip e = ip.
Proof.
  induction t as [| e t IH]; intros ip i; cbn [arp_index]; [done |]. destruct (in_use e && (arp_ip e =? ip)) eqn:E.
  - intros [= <-]. apply andb_true_iff in E as [E1 E2%Z.eqb_eq]. by exists e.
  - destruct (arp_index t ip) as [j |] eqn:Ej; [| done]. intros [= <-]. by apply IH.
Qed.

Lemma arp_index_none t : forall ip, arp_index t ip = None -> forall i e, t !! i = Some e -> in_use e = true -> arp_ip e <> ip.
Proof.
  induction t as [| e t IH]; intros ip; cbn [arp_index]; [done |]. destruct (in_use e && (arp_ip e =? ip)) eqn:E; [done |].
  destruct (arp_index t ip) as [j |] eqn:Ej; [done |]. intros _ [| i] x Hx Hu; [injection Hx as <-; rewrite Hu in E; by apply Z.eqb_neq in E | by eapply IH].
Qed.

Lemma free_entry_spec t :
  match free_entry t with
  | Some i => exists e, t !! i = Some e /\ in_use e = false
  | None => Forall (fun e => in_use e = true) t
  end.
Proof.
  induction t as [| e t IH]; cbn [free_entry]; [constructor |]. destruct (in_use e) eqn:E; [| by exists e].
  destruct (free_entry t); cbn; [exact IH | by constructor].
Qed.

(** The entry found is the least recently used. *)
Lemma oldest_spec t : forall i best,
  match oldest t i best with
  | None => best = None /\ t = []
  | Some (k, u) =>
      (best = Some (k, u) \/ exists j e, k = (i + j)%nat /\ t !! j = Some e /\ last_used e = u) /\
      (forall k' u', best = Some (k', u') -> u <= u') /\ Forall (fun e => u <= last_used e) t
  end.
Proof.
  induction t as [| e t IH]; intros i best; cbn [oldest].
  { destruct best as [[k u] |]; [| done]. split; [by left |]. split; [by intros k' u' [= <- <-] | constructor]. }
  set (b := match best with None => _ | Some (_, u) => _ end). specialize (IH (S i) b).
  assert (Hb : exists k u, b = Some (k, u) /\ u <= last_used e /\ (forall k' u', best = Some (k', u') -> u <= u') /\ (best = Some (k, u) \/ k = i /\ u = last_used e)).
  { unfold b. destruct best as [[k u] |]; [destruct (Z.ltb_spec (last_used e) u) |]; eexists _, _; (split; [reflexivity |]); split_and!; try lia; auto; intros ? ? [= <- <-]; lia. }
  destruct Hb as (k & u & Eb & H1 & H2 & H3). destruct (oldest t (S i) b) as [[k' u'] |]; [| destruct IH as [IH _]; congruence].
  destruct IH as (I1 & I2 & I3). specialize (I2 k u Eb). split_and!.
  - destruct I1 as [I1 | (j & x & -> & Hj & Hx)]; [| right; exists (S j), x; split_and!; [lia | done | done]].
    rewrite Eb in I1. injection I1 as <- <-. destruct H3 as [H3 | [-> ->]]; [by left |]. right. exists 0%nat, e. split_and!; [lia | done | done].
  - intros k2 u2 E2. specialize (H2 _ _ E2). lia.
  - constructor; [lia | done].
Qed.

Lemma insert_cases {A} (t : list A) i j (e x : A) : <[i := e]> t !! j = Some x -> j = i /\ x = e \/ j <> i /\ t !! j = Some x.
Proof. intros H. destruct (decide (j = i)) as [-> | N]; [| right; by rewrite list_lookup_insert_ne in H]. apply list_lookup_insert_Some in H as [(_ & -> & _) | [N _]]; [by left | done]. Qed.

Lemma alter_insert_at {A} (f : A -> A) (t : list A) : forall i e, t !! i = Some e -> alter f i t = <[i := f e]> t.
Proof. induction t as [| x t IH]; intros [| i] e He; try done; [by injection He as -> |]. cbn. f_equal. by apply IH. Qed.

(** One entry replaced: a new address must be new to the table. *)
Lemma arp_ok_insert s s' i e e' : arp_ok s -> arp_table s !! i = Some e -> arp_table s' = <[i := e']> (arp_table s) -> devs s' = devs s ->
  (forall j x, j <> i -> arp_table s !! j = Some x -> in_use x = true -> in_use e' = true -> arp_ip x <> arp_ip e') ->
  mac_ok (mac e') -> Forall (sendable s) (pending e') -> (length (pending e') <= 4)%nat -> (in_use e' = false -> pending e' = []) -> arp_ok s'.
Proof.
  intros [H1 H2 H3 H4 H5 H6] Hi Et Ed Hn Hm Hp Hl Hf. assert (Hs : same_devs s s') by (intros d; rewrite Ed; by destruct (devs s !! d)). split; rewrite ?Et, ?Ed.
  - by rewrite length_insert.
  - intros j k x y Hj Hk Ux Uy E. apply insert_cases in Hj as [[-> ->] | [Nj Hj]]; apply insert_cases in Hk as [[-> ->] | [Nk Hk]]; [done | | |].
    + by destruct (Hn k y Nk Hk Uy Ux).
    + by destruct (Hn j x Nj Hj Ux Uy).
    + by eapply H2.
  - intros j x Hj. apply insert_cases in Hj as [[-> ->] | [Nj Hj]]; [done | by eapply H3].
  - intros j x Hj. assert (K : Forall (sendable s) (pending x) /\ (length (pending x) <= 4)%nat) by (apply insert_cases in Hj as [[-> ->] | [Nj Hj]]; [done | by eapply H4]).
    destruct K as [K1 K2]. split; [| done]. eapply list.Forall_impl; [exact K1 |]. intros skb. by apply sendable_same.
  - intros j x Hj Hu. apply insert_cases in Hj as [[-> ->] | [Nj Hj]]; [by apply Hf | by eapply H5].
  - done.
Qed.

(** An entry whose address stays. *)
Lemma arp_ok_entry s s' i e e' : arp_ok s -> arp_table s !! i = Some e -> arp_table s' = <[i := e']> (arp_table s) -> devs s' = devs s ->
  in_use e = true -> arp_ip e' = arp_ip e -> mac_ok (mac e') -> Forall (sendable s) (pending e') -> (length (pending e') <= 4)%nat -> in_use e' = true -> arp_ok s'.
Proof.
  intros H Hi Et Ed Hu Ei Hm Hp Hl Hu'. eapply arp_ok_insert; eauto; [| congruence]. intros j x Nj Hj Ux _ E. rewrite Ei in E. apply Nj. by eapply (a_unique _ H).
Qed.

Lemma zero_mac : mac_ok [0; 0; 0; 0; 0; 0].
Proof. split; [done |]. rewrite !bytes_cons. split_and!; try lia. constructor. Qed.

(** Finding or making the entry of an address: a new one is free or the least recently used, and the others stay. *)
Lemma arp_get_ok s ip : arp_ok s ->
  exists s' i e, arp_get s ip = Ret (s', i) /\ arp_ok s' /\ devs s' = devs s /\ arp_table s' !! i = Some e /\ in_use e = true /\ arp_ip e = ip /\
    (forall j, j <> i -> arp_table s' !! j = arp_table s !! j) /\
    match arp_index (arp_table s) ip with
    | Some k => i = k /\ s' = s
    | None => pending e = [] /\ arp_st e = ARP_INCOMPLETE /\
        exists old, arp_table s !! i = Some old /\ (in_use old = false \/ Forall (fun x => in_use x = true /\ last_used old <= last_used x) (arp_table s))
    end.
Proof.
  intros H. unfold arp_get, arp_lookup_locked. destruct (arp_index (arp_table s) ip) as [k |] eqn:Ek.
  { destruct (arp_index_some _ _ _ Ek) as (e & He & Hu & Hi). exists s, k, e. by split_and!. }
  pose proof (arp_index_none _ _ Ek) as Hnone. unfold arp_alloc_locked. set (gen := u64 (arp_generation s + 1)). pose proof (free_entry_spec (arp_table s)) as Hf.
  destruct (free_entry (arp_table s)) as [i |].
  - destruct Hf as (e & He & Hu). set (s' := set_arp_generation gen _). exists s', i, (claim_entry ip gen e). split; [done |].
    assert (Et : arp_table s' = <[i := claim_entry ip gen e]> (arp_table s)) by (cbn; by rewrite (alter_insert_at _ _ _ e)).
    pose proof (a_free _ H i e He Hu) as Hq. split_and!; try done.
    + eapply (arp_ok_insert s s' i e (claim_entry ip gen e)); eauto; cbn [claim_entry arp_ip mac pending in_use]; try done; [by eapply (a_mac _ H) | by rewrite Hq | rewrite Hq; cbn; lia].
    + rewrite Et. apply list_lookup_insert_eq. by eapply lookup_lt_Some.
    + intros j Nj. rewrite Et. by apply list_lookup_insert_ne.
    + exists e. split; [done | by left].
  - pose proof (oldest_spec (arp_table s) 0 None) as Ho. destruct (oldest (arp_table s) 0 None) as [[i u] |]; [| destruct Ho as [_ Ho]; pose proof (a_size _ H) as L; by rewrite Ho in L].
    destruct Ho as ([Ho | (j & e & -> & He & Eu)] & _ & Hmin); [done |]. cbn [Nat.add]. set (s' := set_arp_generation gen _). exists s', j, (claim_entry ip gen zero_entry). split; [done |].
    assert (Et : arp_table s' = <[j := claim_entry ip gen zero_entry]> (arp_table s)) by (cbn [s' set_arp_generation set_arp_table arp_table]; by rewrite (alter_insert_at _ _ _ e)).
    split_and!; try done.
    + eapply (arp_ok_insert s s' j e (claim_entry ip gen zero_entry)); eauto; cbn [claim_entry zero_entry arp_ip mac pending in_use]; first [done | apply zero_mac | cbn; lia].
    + rewrite Et. apply list_lookup_insert_eq. by eapply lookup_lt_Some.
    + intros k Nk. rewrite Et. by apply list_lookup_insert_ne.
    + exists e. split; [done |]. right. rewrite list.Forall_forall in *. intros x Hx. rewrite Eu. split; [by apply Hf | by apply Hmin].
Qed.

(** ** Flushing the queue *)

Definition up (s : inet) (skb : sk_buff) : bool :=
  match skb_dev skb with Some d => match devs s !! d with Some dv => dev_up dv | None => false end | None => false end.

(** The frame a waiting packet leaves in. *)
Definition sent_as (s : inet) (m : list Z) (skb : sk_buff) (f : frame) : Prop :=
  exists dv, skb_dev skb = Some (fst f) /\ devs s !! (fst f) = Some dv /\ contents (snd f) = ethhdr m (dev_addr dv) ETH_P_IP ++ contents skb.

Lemma up_same s s' skb : same_devs s s' -> up s' skb = up s skb.
Proof.
  intros H. unfold up. destruct (skb_dev skb) as [d |]; [| done]. specialize (H d). destruct (devs s !! d), (devs s' !! d); try done.
  destruct H as (_ & E1 & E2 & _). unfold dev_up. by rewrite E1, E2.
Qed.

Lemma sent_as_same s s' m skb f : same_devs s s' -> sent_as s' m skb f -> sent_as s m skb f.
Proof.
  intros H (dv & A & B & C). specialize (H (fst f)). rewrite B in H. destruct (devs s !! fst f) as [x |] eqn:Ex; [| done]. destruct H as (E & _). exists x. rewrite <- E. by split_and!.
Qed.

Lemma same_filter_up s s' (q : list sk_buff) : same_devs s s' -> filter (fun x => up s' x = true) q = filter (fun x => up s x = true) q.
Proof. intros H. apply list_filter_iff. intros x. by rewrite (up_same s s'). Qed.

Lemma arp_flush_ok drv m q : mac_ok m -> forall s, Forall (sendable s) q -> (forall d dv, devs s !! d = Some dv -> mac_ok (dev_addr dv)) ->
  exists s' fs, arp_flush_pending s drv m q = Ret (s', fs) /\ same_devs s s' /\ arp_table s' = arp_table s /\
    Forall2 (sent_as s m) (filter (fun x => up s x = true) q) fs.
Proof.
  intros [Lm Bm]. induction q as [| skb q IH]; intros s Hq Hmac; cbn [arp_flush_pending].
  { exists s, []. split_and!; [done | apply same_devs_refl | done | constructor]. }
  apply list.Forall_cons in Hq as [(Hok & Hroom & d & Ed & [dv Hdv]) Hq]. rewrite Ed. unfold device. rewrite Hdv. cbv beta iota. destruct (Hmac d dv Hdv) as [Ls Bs].
  destruct (eth_header_ok skb (dev_addr dv) ETH_P_IP m Hok Bs Bm Ls Lm Hroom) as (g & -> & G1 & G2 & G3 & _). cbv beta iota.
  destruct (xmit_ok s drv g d dv ltac:(congruence) Hdv) as (s1 & e & -> & S1 & T1 & _). cbv beta iota.
  destruct (IH s1) as (s2 & fs & -> & S2 & T2 & F2).
  { eapply list.Forall_impl; [exact Hq |]. intros x. by apply sendable_same. }
  { intros k x Hx. specialize (S1 k). rewrite Hx in S1. destruct (devs s !! k) as [y |] eqn:Ey; [| done]. destruct S1 as (-> & _). by eapply Hmac. }
  cbv beta iota. eexists _, _. split; [reflexivity |]. split; [by eapply same_devs_trans |]. split; [congruence |].
  rewrite (same_filter_up s s1 q S1) in F2. assert (F3 : Forall2 (sent_as s m) (filter (fun x => up s x = true) q) fs) by (eapply list.Forall2_impl; [exact F2 |]; intros x f; by apply sent_as_same).
  assert (Eu : up s skb = dev_up dv) by (unfold up; by rewrite Ed, Hdv). rewrite filter_cons, Eu. destruct (dev_up dv); [rewrite decide_True by done; constructor; [| done] | rewrite decide_False by done; done].
  exists dv. cbn [fst snd]. by split_and!.
Qed.

(** Learning an address. *)
Lemma arp_update_ok s drv ip m flush : arp_ok s -> mac_ok m ->
  exists s1 i e s' fs, arp_get s ip = Ret (s1, i) /\ arp_table s1 !! i = Some e /\ arp_update s drv ip m flush = Ret (s', fs) /\ arp_ok s' /\ same_devs s s' /\
    (exists e', arp_table s' = <[i := e']> (arp_table s1) /\ in_use e' = true /\ arp_ip e' = ip /\ mac e' = m /\ arp_st e' = ARP_REACHABLE /\ pending e' = if flush then [] else pending e) /\
    (if flush then Forall2 (sent_as s m) (filter (fun x => up s x = true) (pending e)) fs else fs = []).
Proof.
  intros H Hm. destruct (arp_get_ok s ip H) as (s1 & i & e & E & H1 & D1 & Hi & Hu & Ea & _ & _). exists s1, i, e. unfold arp_update. rewrite E. cbv beta iota zeta.
  rewrite (proj2 (rd_ret (arp_table s1) (Z.of_nat i) e)) by (split; [lia | by rewrite Nat2Z.id]). set (gen := u64 _). set (e' := mk_arp _ _ _ _ _ _ _). set (s2 := set_arp_generation gen _).
  destruct (a_pending _ H1 i e Hi) as [Hp Hl]. assert (Hs : same_devs s s1) by (intros d; rewrite D1; by destruct (devs s !! d)).
  assert (H2 : arp_ok s2). { eapply (arp_ok_entry s1 s2 i e e'); try done; cbn [e' pending]; destruct flush; first [done | cbn; lia]. }
  assert (He' : exists x, arp_table s2 = <[i := x]> (arp_table s1) /\ in_use x = true /\ arp_ip x = ip /\ mac x = m /\ arp_st x = ARP_REACHABLE /\ pending x = if flush then [] else pending e) by (exists e'; by split_and!).
  assert (Hs2 : same_devs s s2) by exact Hs. destruct flush; [| exists s2, []; by split_and!].
  destruct (arp_flush_ok drv m (pending e) Hm s2) as (s3 & fs & -> & S3 & T3 & F3); [exact Hp | by apply a_dev |].
  exists s3, fs. split_and!; try done; [by eapply arp_ok_same | by eapply same_devs_trans | by rewrite T3 |].
  rewrite (same_filter_up s s2 _ Hs2) in F3. eapply list.Forall2_impl; [exact F3 |]. intros x f. by apply sent_as_same.
Qed.

(** ** Sending a packet *)

(** The address is known: the packet leaves at once. *)
Lemma arp_output_known s drv ok now skb d dv ip i e : arp_ok s -> skb_ok skb -> ETH_HLEN <= data skb -> devs s !! d = Some dv ->
  arp_index (arp_table s) ip = Some i -> arp_table s !! i = Some e -> arp_st e = ARP_REACHABLE ->
  exists s' err g, arp_output s drv ok now skb d ip = Ret (s', err, if dev_up dv then [(d, g)] else []) /\ arp_ok s' /\ same_devs s s' /\
    contents g = ethhdr (mac e) (dev_addr dv) ETH_P_IP ++ contents skb.
Proof.
  intros H Hok Hroom Hdv Hi He Hst. destruct (a_dev _ H d dv Hdv) as [Ls Bs]. destruct (a_mac _ H i e He) as [Lm Bm]. unfold arp_output, arp_lookup_locked. rewrite Hi, He.
  destruct (arp_index_some _ _ _ Hi) as (e0 & He0 & Hu & Ea). assert (e0 = e) as -> by congruence. destruct (a_pending _ H i e He) as [Hp Hl].
  destruct e as [u a m st lr lu q]. cbn [arp_st mac pending in_use arp_ip] in *. subst st. cbv beta iota zeta. set (gen := u64 _). set (s1 := set_arp_generation gen _).
  assert (H1 : arp_ok s1) by (eapply (arp_ok_entry s s1 i); try done). unfold device. change (devs s1) with (devs s). rewrite Hdv. cbv beta iota.
  destruct (set_dev_ok skb d Hok) as [K1 K2]. destruct (eth_header_ok (set_dev skb d) (dev_addr dv) ETH_P_IP m K1 Bs Bm Ls Lm Hroom) as (g & -> & G1 & G2 & G3 & _). cbv beta iota.
  destruct (xmit_ok s1 drv g d dv ltac:(by rewrite G3) Hdv) as (s' & err & -> & S1 & T1 & _). exists s', err, g. split; [done |]. split; [by eapply arp_ok_same |]. split; [exact S1 |]. by rewrite G2, K2.
Qed.

(** The queue of an entry after one more packet. *)
Definition enqueue (q : list sk_buff) (skb : sk_buff) : list sk_buff := (if 4 <=? Z.of_nat (length q) then List.tl q else q) ++ [skb].

(** The address is not known: the packet waits at the end of the queue of the address; only an ARP request may leave. *)
Lemma arp_output_unknown s drv ok now skb d dv ip : arp_ok s -> skb_ok skb -> ETH_HLEN <= data skb -> devs s !! d = Some dv ->
  (forall i e, arp_index (arp_table s) ip = Some i -> arp_table s !! i = Some e -> arp_st e = ARP_INCOMPLETE) ->
  exists s1 i e s' f, arp_get s ip = Ret (s1, i) /\ arp_table s1 !! i = Some e /\ arp_output s drv ok now skb d ip = Ret (s', - EAGAIN, f) /\ arp_ok s' /\ same_devs s s' /\
    (exists e', arp_table s' = <[i := e']> (arp_table s1) /\ in_use e' = true /\ arp_ip e' = ip /\ arp_st e' = arp_st e /\ pending e' = enqueue (pending e) (set_dev skb d)) /\
    (f = [] \/ exists g, f = [(d, g)] /\ contents g = ethhdr eth_broadcast_addr (dev_addr dv) ETH_P_ARP ++ arphdr ARP_OP_REQUEST (dev_addr dv) (ip_addr dv) [0; 0; 0; 0; 0; 0] ip).
Proof.
  intros H Hok Hroom Hdv Hinc. destruct (arp_get_ok s ip H) as (s1 & i & e & E & H1 & D1 & Hi & Hu & Ea & _ & _). exists s1, i, e.
  assert (Hdv1 : devs s1 !! d = Some dv) by (by rewrite D1). destruct (a_pending _ H1 i e Hi) as [Hp Hl]. pose proof (a_mac _ H1 i e Hi) as Hm.
  assert (Hq : Forall (sendable s1) (enqueue (pending e) (set_dev skb d)) /\ (length (enqueue (pending e) (set_dev skb d)) <= 4)%nat).
  { unfold enqueue. rewrite list.Forall_app, length_app. cbn [length].
    assert (Hs : Forall (sendable s1) [set_dev skb d]) by (constructor; [| constructor]; split_and!; [by apply set_dev_ok | done | exists d; split; [done | by exists dv]]).
    destruct (Z.leb_spec 4 (Z.of_nat (length (pending e)))); [| split; [done | lia]]. destruct (pending e) as [| x q]; [cbn in *; lia |]. cbn [List.tl length] in *. apply list.Forall_cons in Hp as [_ Hp]. split; [done | lia]. }
  assert (Ht : forall t lr, arp_ok (set_arp_table (<[i := mk_arp (in_use e) (arp_ip e) (mac e) (arp_st e) lr t (enqueue (pending e) (set_dev skb d))]> (arp_table s1)) s1)).
  { intros t lr. destruct Hq as [Hq1 Hq2]. by eapply (arp_ok_entry s1 _ i e). }
  assert (Hs1 : same_devs s s1) by (intros k; rewrite D1; by destruct (devs s !! k)).
  assert (Eo : arp_output s drv ok now skb d ip = (let! r := arp_get s ip in let (s, i) := r in let! e := rd (arp_table s) (Z.of_nat i) in
     let request := (last_request_ns e =? 0) || (ARP_REQUEST_INTERVAL_NS <=? u64 (now - last_request_ns e)) in
     let s := set_arp_table (<[i := mk_arp (in_use e) (arp_ip e) (mac e) (arp_st e) (if request then now else last_request_ns e) (last_used e) (enqueue (pending e) (set_dev skb d))]> (arp_table s)) s in
     if request then let! r := arp_send s drv ok d ARP_OP_REQUEST None ip in let '(s, _, f) := r in Ret (s, - EAGAIN, f) else Ret (s, - EAGAIN, []))).
  { unfold arp_output, arp_lookup_locked. destruct (arp_index (arp_table s) ip) as [k |] eqn:Ek; [| done]. destruct (arp_table s !! k) as [[u a m st lr lu q] |] eqn:Et; [| done]. specialize (Hinc k _ eq_refl Et). cbn in Hinc. by subst st. }
  rewrite Eo, E. cbv beta iota. rewrite (proj2 (rd_ret (arp_table s1) (Z.of_nat i) e)) by (split; [lia | by rewrite Nat2Z.id]). cbv beta iota zeta. clear Eo.
  destruct (_ || _).
  - set (s2 := set_arp_table _ s1). assert (H2 : arp_ok s2) by apply Ht. destruct (arp_send_ok s2 drv ok d dv ARP_OP_REQUEST None ip Hdv1 ltac:(by eapply (a_dev _ H)) ltac:(done)) as (s3 & err & g & -> & S3 & T3 & _ & F3). cbv beta iota.
    eexists s3, _. split; [done |]. split; [done |]. split; [done |]. split; [by eapply arp_ok_same |]. split; [by eapply same_devs_trans |]. split; [rewrite T3; eexists; split; [reflexivity |]; by split_and! |].
    destruct ok; cbn [andb]; [| by left]. destruct (dev_up dv); [| by left]. right. exists g. split; [done | by apply F3].
  - eexists _, []. split; [done |]. split; [done |]. split; [done |]. split; [apply Ht |]. split; [exact Hs1 |]. split; [| by left]. eexists; split; [reflexivity |]. by split_and!.
Qed.

(** ** Receiving *)

Lemma slice_mac p off : bytes p -> 0 <= off -> off + 6 <= Z.of_nat (length p) -> exists m, rd_slice p off 6 = Ret m /\ mac_ok m.
Proof.
  intros Hb H1 H2. rewrite rd_slice_ret by lia. eexists. split; [done |]. split; [rewrite length_take, length_drop; lia |]. by apply list.Forall_take, list.Forall_drop.
Qed.

Lemma rd_in {A} (p : list A) i : 0 <= i < Z.of_nat (length p) -> exists x, rd p i = Ret x.
Proof. intros H. destruct (lookup_lt_is_Some_2 p (Z.to_nat i)) as [x Hx]; [lia |]. exists x. apply rd_ret. split; [lia | done]. Qed.

Lemma arp_rcv_ok s drv ok d dv skb : arp_ok s -> skb_ok skb -> devs s !! d = Some dv -> exists s' e f, arp_rcv s drv ok d skb = Ret (s', e, f) /\ arp_ok s' /\ same_devs s s'.
Proof.
  intros H Hok Hdv. pose proof (skb_contents_length skb Hok) as Hl. pose proof (contents_bytes skb Hok) as Hb. unfold arp_rcv.
  assert (Hdone : forall err : Z, exists (s' : inet) (e' : Z) f, Ret (s, err, @nil frame) = Ret (s', e', f) /\ arp_ok s' /\ same_devs s s') by (intros err; exists s, err, []; split_and!; [done | done | apply same_devs_refl]).
  destruct (Z.ltb_spec (skb_len skb) 28); [apply Hdone |]. destruct (field_bound (contents skb) 0 2 Hb) as (hrd & -> & _); [lia .. |]. destruct (field_bound (contents skb) 2 2 Hb) as (pro & -> & _); [lia .. |].
  destruct (rd_in (contents skb) 4) as [hln ->]; [lia |]. destruct (rd_in (contents skb) 5) as [pln ->]; [lia |]. cbv beta iota. destruct (_ || _); [apply Hdone |].
  destruct (field_bound (contents skb) 6 2 Hb) as (op & -> & _); [lia .. |]. destruct (slice_mac (contents skb) 8 Hb) as (sha & -> & Hsha); [lia .. |].
  destruct (field_bound (contents skb) 14 4 Hb) as (spa & -> & _); [lia .. |]. destruct (field_bound (contents skb) 24 4 Hb) as (tpa & -> & _); [lia .. |]. cbv beta iota.
  assert (Hu : exists s1 f, (if spa =? 0 then Ret (s, []) else arp_update s drv spa sha (htons op =? ARP_OP_REPLY)) = Ret (s1, f) /\ arp_ok s1 /\ same_devs s s1).
  { destruct (spa =? 0); [exists s, []; split_and!; [done | done | apply same_devs_refl] |]. destruct (arp_update_ok s drv spa sha (htons op =? ARP_OP_REPLY) H Hsha) as (? & ? & ? & s1 & f & _ & _ & -> & H1 & S1 & _). by exists s1, f. }
  destruct Hu as (s1 & f & -> & H1 & S1). cbv beta iota. unfold device. destruct (same_devs_live s s1 d S1 ltac:(by exists dv)) as [dv1 Hdv1]. rewrite Hdv1. cbv beta iota.
  destruct (_ && _); [| by exists s1, 0, f].
  destruct (arp_send_ok s1 drv ok d dv1 ARP_OP_REPLY (Some sha) spa Hdv1 ltac:(by eapply (a_dev _ H1)) ltac:(by intros a [= <-])) as (s2 & e & g & -> & S2 & T2 & _). cbv beta iota.
  eexists _, _, _. split; [done |]. split; [by eapply arp_ok_same | by eapply same_devs_trans].
Qed.

Lemma arp_output_ok s drv ok now skb d dv next_hop : arp_ok s -> skb_ok skb -> ETH_HLEN <= data skb -> devs s !! d = Some dv ->
  exists s' e f, arp_output s drv ok now skb d next_hop = Ret (s', e, f) /\ arp_ok s' /\ same_devs s s'.
Proof.
  intros H Hok Hroom Hdv. destruct (arp_index (arp_table s) next_hop) as [i |] eqn:Ei; [destruct (arp_index_some _ _ _ Ei) as (e & He & _); destruct (arp_st e) eqn:Est |].
  - destruct (arp_output_unknown s drv ok now skb d dv next_hop H Hok Hroom Hdv) as (? & ? & ? & s' & f & _ & _ & E & H' & S' & _); [congruence | by eexists _, _, _].
  - destruct (arp_output_known s drv ok now skb d dv next_hop i e H Hok Hroom Hdv Ei He Est) as (s' & err & g & E & H' & S' & _). by eexists _, _, _.
  - destruct (arp_output_unknown s drv ok now skb d dv next_hop H Hok Hroom Hdv) as (? & ? & ? & s' & f & _ & _ & E & H' & S' & _); [congruence | by eexists _, _, _].
Qed.

(** Whatever packets arrive and whatever is sent, the ARP table stays sound: [arp_rcv] of any packet and [arp_output] of any packet with
    room for a header return, and keep one entry at most for an address, hardware addresses of six bytes, at most four packets waiting
    for each, all with room for their header and a device, none on a free entry. *)
Theorem arp_table_safe (s : inet) (drv : driver) (ok : bool) (now d next_hop : Z) (dv : net_device) (skb : sk_buff) : arp_ok s -> skb_ok skb -> devs s !! d = Some dv ->
  (exists s' e f, arp_rcv s drv ok d skb = Ret (s', e, f) /\ arp_ok s') /\
  (ETH_HLEN <= data skb -> exists s' e f, arp_output s drv ok now skb d next_hop = Ret (s', e, f) /\ arp_ok s').
Proof.
  intros H Hok Hdv. split; [destruct (arp_rcv_ok s drv ok d dv skb H Hok Hdv) as (s' & e & f & E & H' & _) | intros Hroom; destruct (arp_output_ok s drv ok now skb d dv next_hop H Hok Hroom Hdv) as (s' & e & f & E & H' & _)]; by exists s', e, f.
Qed.

Lemma six (m : list Z) : length m = 6%nat -> exists a b c d e f, m = [a; b; c; d; e; f].
Proof. intros H. do 6 (destruct m as [| ? m]; [done |]). destruct m; [| done]. by repeat eexists. Qed.

(** What [arp_rcv] does with a well formed message. *)
Lemma arp_rcv_built s drv ok d skb op m ip tha tpa pad : skb_ok skb -> contents skb = arphdr op m ip tha tpa ++ pad -> length m = 6%nat -> length tha = 6%nat -> 0 < ip < 2 ^ 32 -> 0 <= tpa < 2 ^ 32 -> 0 <= op < 65536 ->
  arp_rcv s drv ok d skb =
    (let! r := arp_update s drv ip m (op =? ARP_OP_REPLY) in
     let (s, f) := r in
     let! dv := device s d in
     if (op =? ARP_OP_REQUEST) && (tpa =? ip_addr dv) then let! r := arp_send s drv ok d ARP_OP_REPLY (Some m) ip in let '(s, _, f') := r in Ret (s, 0, f ++ f') else Ret (s, 0, f)).
Proof.
  intros Hok E Lm Lt Hip Htpa Hop. pose proof (skb_contents_length skb Hok) as Hl. rewrite E, length_app, arphdr_length in Hl by done. unfold arp_rcv. set (P := contents skb) in *. destruct (Z.ltb_spec (skb_len skb) 28); [lia |].
  assert (HP : 28 <= Z.of_nat (length P)) by (rewrite E, length_app, arphdr_length by done; lia).
  destruct (six m Lm) as (m1 & m2 & m3 & m4 & m5 & m6 & ->). destruct (six tha Lt) as (t1 & t2 & t3 & t4 & t5 & t6 & ->).
  rewrite (field_ret P 0 2 (htons ARP_HWTYPE_ETHER)); [| lia | lia | lia | rewrite E; reflexivity | vm_compute; split; congruence]. rewrite (field_ret P 2 2 (htons ETH_P_IP)); [| lia | lia | lia | rewrite E; reflexivity | vm_compute; split; congruence].
  assert (E4 : rd P 4 = Ret ETH_ALEN) by (rewrite E; apply rd_ret; by split). assert (E5 : rd P 5 = Ret 4) by (rewrite E; apply rd_ret; by split). rewrite E4, E5. cbv beta iota.
  change (negb (htons ARP_HWTYPE_ETHER =? htons ARP_HWTYPE_ETHER) || negb (htons ETH_P_IP =? htons ETH_P_IP) || negb (ETH_ALEN =? ETH_ALEN) || negb (4 =? 4)) with false. cbv iota.
  rewrite (field_ret P 6 2 (htons op)); [| lia | lia | lia | rewrite E; reflexivity | pose proof (htons_bound op); lia]. rewrite htons_htons by done.
  rewrite rd_slice_ret by lia. replace (take (Z.to_nat 6) (drop (Z.to_nat 8) P)) with [m1; m2; m3; m4; m5; m6] by (rewrite E; reflexivity).
  rewrite (field_ret P 14 4 ip), (field_ret P 24 4 tpa); [| lia | lia | lia | rewrite E; reflexivity | lia | lia | lia | lia | rewrite E; reflexivity | lia]. cbv beta iota.
  destruct (Z.eqb_spec ip 0); [lia |]. done.
Qed.

Lemma arp_index_here t i e : t !! i = Some e -> in_use e = true -> (forall j x, t !! j = Some x -> in_use x = true -> arp_ip x = arp_ip e -> j = i) -> arp_index t (arp_ip e) = Some i.
Proof.
  intros Hi Hu Huniq. destruct (arp_index t (arp_ip e)) as [j |] eqn:Ej; [| by destruct (arp_index_none _ _ Ej i e Hi Hu)].
  destruct (arp_index_some _ _ _ Ej) as (x & Hx & Ux & Ex). by rewrite (Huniq j x Hx Ux Ex).
Qed.

(** C8: address resolution delivers. When the answer for an address comes, with or without padding, the packets that waited for it, and no other frames,
    leave in the order they were sent, each on its device, under an Ethernet header with the answered address (those whose
    device is down are dropped); after that the address is known, nothing waits for it, and the next packet for it leaves at once. *)
Theorem arp_resolves (s : inet) (drv : driver) (ok : bool) (now d : Z) (dv : net_device) (i : nat) (e : arp_entry) (r : sk_buff) (m tha : list Z) (tpa : Z) (pad : list Z) :
  arp_ok s -> devs s !! d = Some dv -> arp_table s !! i = Some e -> in_use e = true -> 0 < arp_ip e < 2 ^ 32 -> 0 <= tpa < 2 ^ 32 ->
  skb_ok r -> mac_ok m -> length tha = 6%nat -> contents r = arphdr ARP_OP_REPLY m (arp_ip e) tha tpa ++ pad ->
  exists s' fs, arp_rcv s drv ok d r = Ret (s', 0, fs) /\
    Forall2 (sent_as s m) (filter (fun x => up s x = true) (pending e)) fs /\
    (exists e', arp_table s' !! i = Some e' /\ arp_ip e' = arp_ip e /\ arp_st e' = ARP_REACHABLE /\ mac e' = m /\ pending e' = []) /\
    (forall j, j <> i -> arp_table s' !! j = arp_table s !! j) /\
    (forall skb, skb_ok skb -> ETH_HLEN <= data skb -> dev_up dv = true ->
       exists s'' err f, arp_output s' drv ok now skb d (arp_ip e) = Ret (s'', err, [f]) /\ sent_as s m (set_dev skb d) f).
Proof.
  intros H Hdv Hi Hu Hip Htpa Hr Hm Lt Er. rewrite (arp_rcv_built s drv ok d r ARP_OP_REPLY m (arp_ip e) tha tpa pad Hr Er (proj1 Hm) Lt Hip Htpa) by (unfold ARP_OP_REPLY; lia). change (ARP_OP_REPLY =? ARP_OP_REPLY) with true. change (ARP_OP_REPLY =? ARP_OP_REQUEST) with false.
  assert (Hx : arp_index (arp_table s) (arp_ip e) = Some i) by (apply arp_index_here; [done | done |]; intros j x Hx Ux Ex; by eapply (a_unique _ H)).
  destruct (arp_update_ok s drv (arp_ip e) m true H Hm) as (s1 & k & e1 & s' & fs & Eg & Hk & -> & H' & S' & (e' & T' & U' & A' & M' & R' & P') & F'). unfold arp_get, arp_lookup_locked in Eg. rewrite Hx in Eg. injection Eg as <- <-.
  assert (e1 = e) as -> by congruence. cbv beta iota. unfold device. destruct (same_devs_live s s' d S' ltac:(by exists dv)) as [dv' Hdv']. rewrite Hdv'. cbv beta iota. cbn [andb].
  assert (Hi' : arp_table s' !! i = Some e') by (rewrite T'; apply list_lookup_insert_eq; by eapply lookup_lt_Some).
  exists s', fs. split; [done |]. split; [exact F' |]. split; [exists e'; by split_and! |]. split; [intros j Nj; rewrite T'; by apply list_lookup_insert_ne |].
  intros skb Hok Hroom Hup. assert (Hx' : arp_index (arp_table s') (arp_ip e) = Some i) by (rewrite <- A'; apply arp_index_here; [done | done |]; intros j x Hj Ux Ex; by eapply (a_unique _ H')).
  destruct (arp_output_known s' drv ok now skb d dv' (arp_ip e) i e' H' Hok Hroom Hdv' Hx' Hi' R') as (s'' & err & g & Eo & _ & _ & C). pose proof (S' d) as Sd. rewrite Hdv, Hdv' in Sd. destruct Sd as (E1 & E2 & E3 & _).
  assert (Hup' : dev_up dv' = true) by (unfold dev_up in *; by rewrite E2, E3). rewrite Hup' in Eo. exists s'', err, (d, g). split; [done |]. exists dv. cbn [fst snd]. split_and!; try done. rewrite C, M', E1. done.
Qed.

(** An ARP request from the peer makes its entry reachable but leaves the packets that wait for it where they are: nothing leaves but
    the reply, and later packets for the address overtake them. *)
Theorem request_strands_pending (s : inet) (drv : driver) (ok : bool) (now d : Z) (dv : net_device) (i : nat) (e : arp_entry) (r : sk_buff) (m tha : list Z) (tpa : Z) (pad : list Z) :
  arp_ok s -> devs s !! d = Some dv -> arp_table s !! i = Some e -> in_use e = true -> 0 < arp_ip e < 2 ^ 32 -> 0 <= tpa < 2 ^ 32 -> tpa <> ip_addr dv ->
  skb_ok r -> mac_ok m -> length tha = 6%nat -> contents r = arphdr ARP_OP_REQUEST m (arp_ip e) tha tpa ++ pad ->
  exists s', arp_rcv s drv ok d r = Ret (s', 0, []) /\ exists e', arp_table s' !! i = Some e' /\ arp_st e' = ARP_REACHABLE /\ pending e' = pending e.
Proof.
  intros H Hdv Hi Hu Hip Htpa Hne Hr Hm Lt Er. rewrite (arp_rcv_built s drv ok d r ARP_OP_REQUEST m (arp_ip e) tha tpa pad Hr Er (proj1 Hm) Lt Hip Htpa) by (unfold ARP_OP_REQUEST; lia). change (ARP_OP_REQUEST =? ARP_OP_REPLY) with false.
  assert (Hx : arp_index (arp_table s) (arp_ip e) = Some i) by (apply arp_index_here; [done | done |]; intros j x Hx Ux Ex; by eapply (a_unique _ H)).
  destruct (arp_update_ok s drv (arp_ip e) m false H Hm) as (s1 & k & e1 & s' & fs & Eg & Hk & -> & H' & S' & (e' & T' & U' & A' & M' & R' & P') & ->). unfold arp_get, arp_lookup_locked in Eg. rewrite Hx in Eg. injection Eg as <- <-.
  assert (e1 = e) as -> by congruence. cbv beta iota. unfold device. pose proof (S' d) as Sd. rewrite Hdv in Sd. destruct (devs s' !! d) as [dv' |]; [| done]. destruct Sd as (_ & _ & _ & Eip). cbv beta iota. rewrite Eip. rewrite (proj2 (Z.eqb_neq tpa (ip_addr dv))) by done. rewrite andb_false_r.
  exists s'. split; [done |]. exists e'. split; [rewrite T'; apply list_lookup_insert_eq; by eapply lookup_lt_Some | by split].
Qed.

(** ** A concrete table *)

Lemma arp_init_ok s : (forall d dv, devs s !! d = Some dv -> mac_ok (dev_addr dv)) -> arp_ok (arp_init s).
Proof.
  intros Hm. unfold arp_init. split; cbn [arp_table set_arp_table devs]; try done.
  - intros i j e e' He _ Hu. apply lookup_replicate in He as [-> _]. done.
  - intros i e He. apply lookup_replicate in He as [-> _]. apply zero_mac.
  - intros i e He. apply lookup_replicate in He as [-> _]. split; [constructor | cbn; lia].
  - intros i e He. apply lookup_replicate in He as [-> _]. done.
Qed.

Definition ex_dev : net_device := mk_dev [2; 0; 0; 0; 0; 1] 1500 IFF_UP (NET_IP4 10 0 2 15) true 0 0 0 0 0 0 0.

(** A packet of four bytes that waits for 10.0.2.2, and the answer. *)
Definition ex_pkt : sk_buff := mk_sk_buff (replicate 16 0 ++ [1; 2; 3; 4]) 16 20 4 (Some 1) ETH_P_IP (mk_cb 0 0 0 0).
Definition ex_entry : arp_entry := mk_arp true (NET_IP4 10 0 2 2) [0; 0; 0; 0; 0; 0] ARP_INCOMPLETE 5 1 [ex_pkt].
Definition ex_inet : inet := set_arp_table (<[0%nat := ex_entry]> (replicate 16 zero_entry)) (mk_inet [] {[1 := ex_dev]} [] 1 0).
Definition ex_reply : sk_buff := mk_sk_buff (arphdr ARP_OP_REPLY [2; 0; 0; 0; 0; 9] (NET_IP4 10 0 2 2) [2; 0; 0; 0; 0; 1] (NET_IP4 10 0 2 15)) 0 28 28 (Some 1) ETH_P_ARP (mk_cb 0 0 0 0).

Lemma ex_pkt_ok : skb_ok ex_pkt.
Proof. split; cbn; try lia. rewrite !bytes_cons. split_and!; try lia. constructor. Qed.

Lemma ex_reply_ok : skb_ok ex_reply.
Proof. split; try (cbn; lia). apply arphdr_bytes; rewrite !bytes_cons; split_and!; try lia; constructor. Qed.

Lemma ex_inet_ok : arp_ok ex_inet.
Proof.
  eapply (arp_ok_insert (arp_init ex_inet) ex_inet 0 zero_entry ex_entry); try done.
  - apply arp_init_ok. intros d dv Hd. cbn in Hd. apply lookup_singleton_Some in Hd as [_ <-]. split; [done |]. cbn. rewrite !bytes_cons. split_and!; try lia. constructor.
  - intros j x _ Hx Hu. apply lookup_replicate in Hx as [-> _]. done.
  - apply zero_mac.
  - constructor; [| constructor]. split; [apply ex_pkt_ok |]. split; [done |]. exists 1. split; [done |]. by exists ex_dev.
  - cbn. lia.
Qed.

Lemma ex_mac_ok : mac_ok [2; 0; 0; 0; 0; 9].
Proof. split; [done |]. rewrite !bytes_cons. split_and!; try lia. constructor. Qed.

Lemma arp_table_safe_witness : exists s' e f, arp_rcv ex_inet (fun _ _ => 0) true 1 ex_reply = Ret (s', e, f) /\ arp_ok s'.
Proof. exact (proj1 (arp_table_safe ex_inet (fun _ _ => 0) true 7 1 0 ex_dev ex_reply ex_inet_ok ex_reply_ok eq_refl)). Defined.

Lemma arp_resolves_witness : exists s' fs, arp_rcv ex_inet (fun _ _ => 0) true 1 ex_reply = Ret (s', 0, fs) /\ map (fun f => contents (snd f)) fs = [[2; 0; 0; 0; 0; 9; 2; 0; 0; 0; 0; 1; 8; 0; 1; 2; 3; 4]] /\
  exists e', arp_table s' !! 0%nat = Some e' /\ arp_st e' = ARP_REACHABLE /\ pending e' = [].
Proof.
  destruct (arp_resolves ex_inet (fun _ _ => 0) true 7 1 ex_dev 0 ex_entry ex_reply [2; 0; 0; 0; 0; 9] [2; 0; 0; 0; 0; 1] (NET_IP4 10 0 2 15) []) as (s' & fs & E & F & (e' & T & _ & R & _ & P) & _);
    [exact ex_inet_ok | reflexivity | reflexivity | reflexivity | vm_compute; split; congruence | vm_compute; split; congruence | exact ex_reply_ok | exact ex_mac_ok | reflexivity | reflexivity |].
  exists s', fs. split; [exact E |]. split; [| exists e'; split; [exact T | split; [exact R | exact P]]].
  change (filter _ _) with [ex_pkt] in F. inversion F as [| x f ? ? Hf Hn]; subst. inversion Hn; subst. destruct Hf as (dv & H1 & H2 & H3). cbn [map]. rewrite H3. injection H1 as H1. rewrite <- H1 in H2. injection H2 as <-. reflexivity.
Defined.
