(* ===== verification/Udp.v ===== *)
(** * UDP: net/udp.c

    The sockets by address and the list of the bound ones.  Sending goes through
    [Inet.ip_output]; what a call does with another socket's memory, the answers of
    the allocator and of the copies from and to user space are arguments.
    A call that would sleep returns [None]. *)

From S2P Require Import Prelude CString Checksum SkBuff Inet InetProps Arp.

Definition UDP_EPHEMERAL_START : Z := 49152.
Definition UDP_EPHEMERAL_END : Z := 65535.
Definition UDP_RCV_QUEUE_MAX : Z := 64.
Definition AF_INET : Z := 2.
Definition POLLIN : Z := 0x0001.
Definition POLLOUT : Z := 0x0004.
Definition POLLERR : Z := 0x0008.
Definition POLLHUP : Z := 0x0010.
Definition POLLRDNORM : Z := 0x0040.
Definition POLLWRNORM : Z := 0x0100.

Record sock : Set := mk_sock {
  saddr : Z;
  daddr : Z;
  sport : Z;
  dport : Z;
  bound : bool;
  connected : bool;
  shutdown : bool;
  eof : bool;
  sk_err : Z;
  rcv_queue : list sk_buff }.

Definition set_local (a p : Z) (x : sock) : sock := mk_sock a (daddr x) p (dport x) true (connected x) (shutdown x) (eof x) (sk_err x) (rcv_queue x).
Definition set_peer (a p : Z) (x : sock) : sock := mk_sock (saddr x) a (sport x) p (bound x) true (shutdown x) (eof x) (sk_err x) (rcv_queue x).
Definition set_shutdown (x : sock) : sock := mk_sock (saddr x) (daddr x) (sport x) (dport x) (bound x) (connected x) true (eof x) (sk_err x) (rcv_queue x).
Definition set_rcv_queue (q : list sk_buff) (x : sock) : sock := mk_sock (saddr x) (daddr x) (sport x) (dport x) (bound x) (connected x) (shutdown x) (eof x) (sk_err x) q.

Record udp : Type := mk_udp { socks : gmap Z sock; udp_socks : list Z; udp_ephemeral : Z }.

Definition get (st : udp) (id : Z) : res sock := match socks st !! id with Some x => Ret x | None => Halt Fault end.
Definition put (st : udp) (id : Z) (x : sock) : udp := mk_udp (<[id := x]> (socks st)) (udp_socks st) (udp_ephemeral st).

(** The address a caller passes: its length and its fields, the port in network order. *)
Record sockaddr_in : Set := mk_sin { addrlen : Z; sin_family : Z; sin_port : Z; s_addr : Z }.

Definition bad_addr (a : sockaddr_in) : bool := (addrlen a <? 16) || negb (sin_family a =? AF_INET).

(** The bytes of an address that is passed back. *)
Definition sin_bytes (port addr : Z) : list Z := le_enc 2 AF_INET ++ le_enc 2 (htons port) ++ le_enc 4 addr ++ [0; 0; 0; 0; 0; 0; 0; 0].

(** ** Ports *)

(** Walks of [udp_socks]: the first socket that satisfies [p]. *)
Fixpoint find_sock (st : udp) (p : sock -> bool) (l : list Z) : res (option Z) :=
  match l with
  | [] => Ret None
  | id :: l' => let! x := get st id in if p x then Ret (Some id) else find_sock st p l'
  end.

Definition uses_port (laddr lport : Z) (x : sock) : bool := (sport x =? lport) && ((laddr =? 0) || (saddr x =? 0) || (saddr x =? laddr)).

Definition udp_port_in_use_locked (st : udp) (laddr lport : Z) : res bool :=
  let! o := find_sock st (uses_port laddr lport) (udp_socks st) in Ret (bool_decide (o <> None)).

Definition next_ephemeral (port : Z) : Z := let e := u16 (port + 1) in if e <? UDP_EPHEMERAL_START then UDP_EPHEMERAL_START else e.

Fixpoint port_loop (st : udp) (laddr : Z) (turns : nat) : res (udp * Z) :=
  match turns with
  | O => Ret (st, 0)
  | S turns' =>
      let port := udp_ephemeral st in
      let st := mk_udp (socks st) (udp_socks st) (next_ephemeral port) in
      let! used := udp_port_in_use_locked st laddr port in
      if used then port_loop st laddr turns' else Ret (st, port)
  end.

Definition udp_alloc_port_locked (st : udp) (laddr : Z) : res (udp * Z) := port_loop st laddr (Z.to_nat (UDP_EPHEMERAL_END - UDP_EPHEMERAL_START + 1)).

(** [list_add_tail] of a socket with its new local end. *)
Definition link (st : udp) (id a p : Z) (x : sock) : udp := mk_udp (<[id := set_local a p x]> (socks st)) (udp_socks st ++ [id]) (udp_ephemeral st).

Definition udp_autobind (st : udp) (id : Z) : res (udp * Z) :=
  let! x := get st id in
  if bound x then Ret (st, 0)
  else
    let! r := udp_alloc_port_locked st (saddr x) in
    let (st, port) := r in
    if port =? 0 then Ret (st, - EADDRINUSE) else Ret (link st id (saddr x) port x, 0).

Definition udp_bind (st : udp) (id : Z) (a : sockaddr_in) : res (udp * Z) :=
  if bad_addr a then Ret (st, - EINVAL)
  else
    let laddr := s_addr a in
    let lport := htons (sin_port a) in
    let! x := get st id in
    if bound x then Ret (st, - EINVAL)
    else if lport =? 0 then
      let! r := udp_alloc_port_locked st laddr in
      let (st, port) := r in
      if port =? 0 then Ret (st, - EADDRINUSE) else Ret (link st id laddr port x, 0)
    else
      let! used := udp_port_in_use_locked st laddr lport in
      if used then Ret (st, - EADDRINUSE) else Ret (link st id laddr lport x, 0).

Definition udp_connect (st : udp) (id : Z) (a : sockaddr_in) : res (udp * Z) :=
  if bad_addr a then Ret (st, - EINVAL)
  else
    let! x := get st id in
    let x := set_peer (s_addr a) (htons (sin_port a)) x in
    let st := put st id x in
    if bound x then Ret (st, 0) else udp_autobind st id.

(** ** Datagrams *)

Definition udphdr (source dest len check : Z) : list Z := le_enc 2 (htons source) ++ le_enc 2 (htons dest) ++ le_enc 2 (htons (u16 len)) ++ le_enc 2 check.

Definition pseudo (ulen : Z) : list Z := [0; IPPROTO_UDP; u8 (Z.shiftr ulen 8); u8 ulen].

Definition udp_csum (saddr daddr ulen : Z) (uh : list Z) : res Z :=
  inet_csum_fold (inet_csum_add (inet_csum_add (inet_csum_add (inet_csum_add 0 (le_enc 4 saddr)) (le_enc 4 daddr)) (pseudo ulen)) uh).

(** [udp_sendmsg] of a bound socket, from the route on. *)
Definition send_to (st : udp) (s : inet) (drv : driver) (ok : bool) (now id : Z) (buf : list Z) (copied : bool) (da dp : Z) : res (udp * inet * Z * list frame) :=
  let len := Z.of_nat (length buf) in
  match ip_route_output s da with
  | inl e => Ret (st, s, e, [])
  | inr (_, d) =>
      let! dv := device s d in
      if (mtu dv <=? 20 + 8) || (mtu dv - 20 - 8 <? len) then Ret (st, s, - EMSGSIZE, [])
      else
        let! x := get st id in
        let sa := if saddr x =? 0 then ip_addr dv else saddr x in
        let ulen := 8 + len in
        match skb_alloc ulen ok with
        | None => Ret (st, s, - ENOMEM, [])
        | Some skb =>
            let! skb := put_bytes skb (udphdr (sport x) dp ulen 0) in
            if negb (len =? 0) && negb copied then Ret (st, s, - EFAULT, [])
            else
              let! skb := put_bytes skb buf in
              let! c := udp_csum sa da ulen (contents skb) in
              let! skb := store skb (data skb + 6) (le_enc 2 (if c =? 0 then htons 0xffff else c)) in
              let! r := ip_output s drv ok now skb sa da IPPROTO_UDP IP_TTL_DEFAULT in
              let '(s, err, f) := r in
              Ret (st, s, if err =? 0 then s32 len else err, f)
        end
  end.

(** Where a message goes: the address passed, or the peer. *)
Definition destination (x : sock) (a : option sockaddr_in) : Z + Z * Z :=
  match a with
  | Some a => if bad_addr a then inl (- EINVAL) else inr (s_addr a, htons (sin_port a))
  | None => if connected x then inr (daddr x, dport x) else inl (- EDESTADDRREQ)
  end.

Definition udp_sendmsg (st : udp) (s : inet) (drv : driver) (ok : bool) (now id : Z) (buf : list Z) (copied : bool) (a : option sockaddr_in) : res (udp * inet * Z * list frame) :=
  let! x := get st id in
  match destination x a with
  | inl e => Ret (st, s, e, [])
  | inr (da, dp) =>
      let! r := (if bound x then Ret (st, 0) else udp_autobind st id) in
      let (st, err) := r in
      if negb (err =? 0) then Ret (st, s, err, []) else send_to st s drv ok now id buf copied da dp
  end.

Definition accepts (saddr' daddr' sport' dport' : Z) (x : sock) : bool :=
  (sport x =? dport') && ((saddr x =? 0) || (saddr x =? daddr')) && (negb (connected x) || ((dport x =? sport') && (daddr x =? saddr'))).

(** The new state, the result and the socket whose sleepers are woken. *)
Definition udp_rcv (st : udp) (skb : sk_buff) : res (udp * Z * option Z) :=
  if skb_len skb <? 8 then Ret (st, - EINVAL, None)
  else
    let p := contents skb in
    let! l := field p 4 2 in
    let ulen := htons l in
    if (ulen <? 8) || (skb_len skb <? ulen) then Ret (st, - EINVAL, None)
    else
      let skb := skb_trim skb ulen in
      let sa := cb_saddr (cb skb) in
      let da := cb_daddr (cb skb) in
      let! src := field p 0 2 in
      let! dst := field p 2 2 in
      let! check := field p 6 2 in
      let! c := (if check =? 0 then Ret 0 else udp_csum sa da ulen (contents skb)) in
      if negb (c =? 0) then Ret (st, - EINVAL, None)
      else
        let! skb := skb_pull skb 8 in
        let skb := set_cb skb (mk_cb sa da (htons src) (htons dst)) in
        let! o := find_sock st (accepts sa da (htons src) (htons dst)) (udp_socks st) in
        match o with
        | None => Ret (st, 0, None)
        | Some id =>
            let! x := get st id in
            if Z.of_nat (length (rcv_queue x)) <? UDP_RCV_QUEUE_MAX
            then Ret (put st id (set_rcv_queue (rcv_queue x ++ [skb]) x), 0, Some id)
            else Ret (st, 0, None)
        end.

(** The result, the bytes and what is written to the caller's address; [alen] is the length of the caller's address, if one is wanted. *)
Definition udp_recvmsg (st : udp) (id len : Z) (nonblock copied : bool) (alen : option Z) : res (udp * option (Z * list Z * option (list Z))) :=
  let! x := get st id in
  match rcv_queue x with
  | [] => Ret (st, if shutdown x then Some (0, [], None) else if nonblock then Some (- EAGAIN, [], None) else None)
  | skb :: q =>
      let st := put st id (set_rcv_queue q x) in
      let! out := (match alen with
                   | None => Ret None
                   | Some n => let! b := rd_slice (sin_bytes (cb_sport (cb skb)) (cb_saddr (cb skb))) 0 (Z.min n 16) in Ret (Some b)
                   end) in
      let n := Z.min len (skb_len skb) in
      if negb (n =? 0) && negb copied then Ret (st, Some (- EFAULT, [], out))
      else let! b := rd_slice (mem skb) (data skb) n in Ret (st, Some (s32 n, b, out))
  end.

Definition udp_shutdown (st : udp) (id : Z) : res (udp * Z) := let! x := get st id in Ret (put st id (set_shutdown x), 0).

Definition udp_poll (events : Z) (x : sock) : Z :=
  let rev := if bool_decide (rcv_queue x <> []) || eof x then Z.lor POLLIN POLLRDNORM else 0 in
  let rev := if negb (sk_err x =? 0) then Z.lor rev POLLERR else rev in
  let rev := if shutdown x then Z.lor rev POLLHUP else rev in
  Z.land (Z.lor rev (Z.lor POLLOUT POLLWRNORM)) (Z.lor events (Z.lor POLLERR POLLHUP)).

Definition udp_getname (n : Z) (peer : bool) (x : sock) : res (list Z) :=
  rd_slice (if peer then sin_bytes (dport x) (daddr x) else sin_bytes (sport x) (saddr x)) 0 (Z.min n 16).

Definition udp_release (st : udp) (id : Z) : res udp :=
  let! x := get st id in Ret (mk_udp (delete id (socks st)) (filter (fun i => i <> id) (udp_socks st)) (udp_ephemeral st)).

Definition zero_sock : sock := mk_sock 0 0 0 0 false false false false 0 [].

(** [alloc]: the address of the new socket, when there is memory. *)
Definition udp_sock_create (st : udp) (protocol : Z) (alloc : option Z) : udp * Z :=
  if negb (protocol =? 0) && negb (protocol =? IPPROTO_UDP) then (st, - EPROTONOSUPPORT)
  else match alloc with None => (st, - ENOMEM) | Some new => (put st new zero_sock, 0) end.

(** ** The invariant of the sockets *)

Record udp_ok (st : udp) : Prop := {
  u_nodup : NoDup (udp_socks st);
  u_live : forall id, id ∈ udp_socks st -> exists x, socks st !! id = Some x /\ bound x = true;
  u_bound : forall id x, socks st !! id = Some x -> bound x = true -> id ∈ udp_socks st;
  u_ephemeral : UDP_EPHEMERAL_START <= udp_ephemeral st <= UDP_EPHEMERAL_END;
  u_sport : forall id x, socks st !! id = Some x -> bound x = true -> 0 < sport x < 65536;
  u_exclusive : forall i j x y, socks st !! i = Some x -> socks st !! j = Some y -> bound x = true -> bound y = true -> sport x = sport y ->
    saddr x = 0 \/ saddr y = 0 \/ saddr x = saddr y -> i = j;
  u_queue : forall id x, socks st !! id = Some x -> Forall skb_ok (rcv_queue x) /\ (length (rcv_queue x) <= 64)%nat }.

Lemma udp_get_some st id x : socks st !! id = Some x -> get st id = Ret x.
Proof. intros H. unfold get. by rewrite H. Qed.

Lemma udp_find_sock_ret st p l : (forall id, id ∈ l -> exists x, socks st !! id = Some x) ->
  exists o, find_sock st p l = Ret o /\ (forall id, o = Some id -> id ∈ l /\ exists x, socks st !! id = Some x /\ p x = true) /\
    (o = None -> forall id x, id ∈ l -> socks st !! id = Some x -> p x = false).
Proof.
  induction l as [| i l IH]; intros Hl; cbn [find_sock]; [exists None; split_and!; [done | done |]; intros _ id x Hid; by apply elem_of_nil in Hid |].
  destruct (Hl i) as [x Hx]; [set_solver |]. rewrite (udp_get_some _ _ _ Hx). destruct (p x) eqn:Ep.
  - exists (Some i). split_and!; [done | | done]. intros id [= <-]. split; [set_solver | by exists x].
  - destruct IH as (o & E & H1 & H2); [intros id Hid; apply Hl; set_solver |]. exists o. split_and!; [done | |].
    + intros id Hid. destruct (H1 id Hid) as [A B]. split; [set_solver | done].
    + intros Ho id y Hid Hy. apply elem_of_cons in Hid as [-> | Hid]; [congruence | by eapply H2].
Qed.

(** A port that some bound socket uses at the address. *)
Definition port_used (st : udp) (laddr p : Z) : Prop := exists id x, socks st !! id = Some x /\ bound x = true /\ uses_port laddr p x = true.

Lemma udp_port_in_use_ret st laddr p : udp_ok st -> exists b, udp_port_in_use_locked st laddr p = Ret b /\ (b = true <-> port_used st laddr p).
Proof.
  intros H. unfold udp_port_in_use_locked. destruct (udp_find_sock_ret st (uses_port laddr p) (udp_socks st)) as (o & -> & H1 & H2); [intros id Hid; destruct (u_live _ H id Hid) as (x & Hx & _); by exists x |].
  eexists. split; [done |]. rewrite bool_decide_eq_true. split.
  - intros Ho. destruct o as [id |]; [| done]. destruct (H1 id eq_refl) as (H3 & x & H4 & H5). destruct (u_live _ H id H3) as (y & Hy & Hb). exists id, x. split_and!; try done. congruence.
  - intros (id & x & H3 & H4 & H5) ->. rewrite (H2 eq_refl id x (u_bound _ H id x H3 H4) H3) in H5. done.
Qed.

Lemma udp_next_ephemeral_range p : UDP_EPHEMERAL_START <= p <= UDP_EPHEMERAL_END -> UDP_EPHEMERAL_START <= next_ephemeral p <= UDP_EPHEMERAL_END.
Proof. unfold next_ephemeral, UDP_EPHEMERAL_START, UDP_EPHEMERAL_END, wrap. intros H. destruct (Z.ltb_spec ((p + 1) mod 2 ^ 16) 49152); zdm. Qed.

Lemma udp_ok_ephemeral st e : udp_ok st -> UDP_EPHEMERAL_START <= e <= UDP_EPHEMERAL_END -> udp_ok (mk_udp (socks st) (udp_socks st) e).
Proof. intros [H1 H2 H3 H4 H5 H6 H7] He. by split. Qed.

Lemma udp_port_loop_ret turns : forall st laddr, udp_ok st ->
  exists st' p, port_loop st laddr turns = Ret (st', p) /\ udp_ok st' /\ socks st' = socks st /\ udp_socks st' = udp_socks st /\ (p <> 0 -> UDP_EPHEMERAL_START <= p <= UDP_EPHEMERAL_END /\ ~ port_used st laddr p).
Proof.
  induction turns as [| turns IH]; intros st laddr H; cbn [port_loop]; [exists st, 0; by split_and! |]. pose proof (u_ephemeral _ H) as He. set (st1 := mk_udp _ _ _).
  assert (H1 : udp_ok st1) by (apply udp_ok_ephemeral; [done | by apply udp_next_ephemeral_range]). destruct (udp_port_in_use_ret st1 laddr (udp_ephemeral st) H1) as (b & -> & Hb). destruct b.
  - destruct (IH st1 laddr H1) as (st' & p & E & H2). by exists st', p.
  - exists st1, (udp_ephemeral st). split_and!; try done. intros _. split; [done |]. intros F. by apply Hb in F.
Qed.

Lemma udp_alloc_port_ret st laddr : udp_ok st ->
  exists st' p, udp_alloc_port_locked st laddr = Ret (st', p) /\ udp_ok st' /\ socks st' = socks st /\ udp_socks st' = udp_socks st /\ (p <> 0 -> UDP_EPHEMERAL_START <= p <= UDP_EPHEMERAL_END /\ ~ port_used st laddr p).
Proof. apply udp_port_loop_ret. Qed.

Lemma insert_map_cases {A} (m : gmap Z A) i j (e x : A) : <[i := e]> m !! j = Some x -> j = i /\ x = e \/ j <> i /\ m !! j = Some x.
Proof. intros H. apply lookup_insert_Some in H as [[-> ->] | [N H]]; [by left | right; split; [congruence | done]]. Qed.

(** A socket that keeps its local end. *)
Lemma udp_put_ok st id x x' : udp_ok st -> socks st !! id = Some x -> bound x' = bound x -> saddr x' = saddr x -> sport x' = sport x ->
  Forall skb_ok (rcv_queue x') -> (length (rcv_queue x') <= 64)%nat -> udp_ok (put st id x').
Proof.
  intros [H1 H2 H3 H4 H5 H6 H7] Hx Eb Ea Ep Hq Hl. assert (Hc : forall j y, socks (put st id x') !! j = Some y -> exists z, socks st !! j = Some z /\ bound y = bound z /\ saddr y = saddr z /\ sport y = sport z).
  { intros j y Hy. apply insert_map_cases in Hy as [[-> ->] | [_ Hy]]; [by exists x | by exists y]. }
  split; try done.
  - intros j Hj. destruct (H2 j Hj) as (y & Hy & Hb). destruct (decide (j = id)) as [-> | N]; [exists x'; split; [apply lookup_insert_eq | congruence] | exists y; split; [by rewrite <- Hy; apply lookup_insert_ne | done]].
  - intros j y Hy Hb. destruct (Hc j y Hy) as (z & Hz & E & _). apply (H3 j z); congruence.
  - intros j y Hy Hb. destruct (Hc j y Hy) as (z & Hz & E & _ & ->). apply (H5 j z); congruence.
  - intros i j y y' Hy Hy' Hb Hb' E K. destruct (Hc i y Hy) as (z & Hz & E1 & E2 & E3), (Hc j y' Hy') as (z' & Hz' & F1 & F2 & F3). apply (H6 i j z z'); congruence.
  - intros j y Hy. apply insert_map_cases in Hy as [[-> ->] | [_ Hy]]; [done | by eapply H7].
Qed.

(** A socket that gets a port nobody uses. *)
Lemma udp_link_ok st id a p x : udp_ok st -> socks st !! id = Some x -> bound x = false -> 0 < p < 65536 -> ~ port_used st a p -> udp_ok (link st id a p x).
Proof.
  intros H Hx Hb Hp Hn. destruct H as [H1 H2 H3 H4 H5 H6 H7]. assert (Hni : id ∉ udp_socks st) by (intros Hin; destruct (H2 id Hin) as (y & Hy & Hby); congruence).
  assert (Hfree : forall j y, socks st !! j = Some y -> bound y = true -> sport y = p -> a <> 0 /\ saddr y <> 0 /\ saddr y <> a).
  { intros j y Hy Hby E. assert (K : uses_port a p y = false) by (destruct (uses_port a p y) eqn:K; [| done]; destruct Hn; by exists j, y). unfold uses_port in K. rewrite (proj2 (Z.eqb_eq _ _) E) in K. cbn [andb] in K.
    apply orb_false_iff in K as [[K1 K2]%orb_false_iff K3]. by rewrite !Z.eqb_neq in *. }
  split; cbn [link socks udp_socks udp_ephemeral]; try done.
  - apply list.NoDup_app. split_and!; [done | | apply NoDup_singleton]. intros y Hy. rewrite list_elem_of_singleton. by intros ->.
  - intros j Hj. apply elem_of_app in Hj as [Hj | Hj%list_elem_of_singleton].
    + destruct (H2 j Hj) as (y & Hy & Hby). exists y. split; [rewrite lookup_insert_ne; [done | by intros ->] | done].
    + subst j. eexists. split; [apply lookup_insert_eq | done].
  - intros j y Hy Hby. apply elem_of_app. apply insert_map_cases in Hy as [[-> ->] | [_ Hy]]; [right; by apply list_elem_of_singleton | left; by eapply H3].
  - intros j y Hy Hby. apply insert_map_cases in Hy as [[-> ->] | [_ Hy]]; [done | by eapply H5].
  - intros i j y y' Hy Hy' By By' E K. apply insert_map_cases in Hy as [[-> ->] | [Ni Hy]]; apply insert_map_cases in Hy' as [[-> ->] | [Nj Hy']]; cbn [set_local saddr sport] in *; [done | | |].
    + destruct (Hfree j y' Hy' By' ltac:(done)) as (F1 & F2 & F3). destruct K as [K | [K | K]]; congruence.
    + destruct (Hfree i y Hy By ltac:(done)) as (F1 & F2 & F3). destruct K as [K | [K | K]]; congruence.
    + by eapply H6.
  - intros j y Hy. apply insert_map_cases in Hy as [[-> ->] | [_ Hy]]; [by apply (H7 id x) | by eapply H7].
Qed.

Lemma udp_autobind_ok st id x : udp_ok st -> socks st !! id = Some x ->
  exists st' e x', udp_autobind st id = Ret (st', e) /\ udp_ok st' /\ socks st' !! id = Some x' /\ saddr x' = saddr x /\ (bound x = true -> x' = x) /\ (e = 0 -> bound x' = true) /\ (e = 0 \/ e = - EADDRINUSE) /\
    (forall j, j <> id -> socks st' !! j = socks st !! j).
Proof.
  intros H Hx. unfold udp_autobind. rewrite (udp_get_some _ _ _ Hx). destruct (bound x) eqn:Eb; [exists st, 0, x; split_and!; auto |].
  destruct (udp_alloc_port_ret st (saddr x) H) as (st' & p & -> & H1 & Es & El & Hp). destruct (Z.eqb_spec p 0) as [-> | N]; [exists st', (- EADDRINUSE), x; rewrite Es; split_and!; auto; discriminate |].
  destruct (Hp N) as [Hr Hn]. eexists _, 0, _. split; [done |]. split; [apply udp_link_ok; try done; [by rewrite Es | unfold UDP_EPHEMERAL_START, UDP_EPHEMERAL_END in *; lia |]; intros (j & y & K1 & K2 & K3); apply Hn; exists j, y; rewrite <- Es; done |].
  split; [apply lookup_insert_eq |]. split_and!; auto; [done |]. intros j Nj. cbn [link socks]. rewrite Es. by apply lookup_insert_ne.
Qed.

Lemma htons_port p : 0 <= htons p < 65536.
Proof. apply htons_bound. Qed.

Lemma udp_bind_ok st id x a : udp_ok st -> socks st !! id = Some x -> exists st' e, udp_bind st id a = Ret (st', e) /\ udp_ok st'.
Proof.
  intros H Hx. unfold udp_bind. destruct (bad_addr a); [by exists st, (- EINVAL) |]. rewrite (udp_get_some _ _ _ Hx). destruct (bound x) eqn:Eb; [by exists st, (- EINVAL) |].
  destruct (Z.eqb_spec (htons (sin_port a)) 0) as [E0 | N0].
  - destruct (udp_alloc_port_ret st (s_addr a) H) as (st' & p & -> & H1 & Es & El & Hp). destruct (Z.eqb_spec p 0) as [-> | N]; [by exists st', (- EADDRINUSE) |].
    destruct (Hp N) as [Hr Hn]. eexists _, 0. split; [done |]. apply udp_link_ok; try done; [by rewrite Es | unfold UDP_EPHEMERAL_START, UDP_EPHEMERAL_END in *; lia |]. intros (j & y & K1 & K2 & K3). apply Hn. exists j, y. by rewrite <- Es.
  - destruct (udp_port_in_use_ret st (s_addr a) (htons (sin_port a)) H) as (b & -> & Hb). destruct b; [by exists st, (- EADDRINUSE) |]. eexists _, 0. split; [done |].
    apply udp_link_ok; try done; [pose proof (htons_bound (sin_port a)); lia |]. intros K. by apply Hb in K.
Qed.

Lemma udp_connect_ok st id x a : udp_ok st -> socks st !! id = Some x -> exists st' e, udp_connect st id a = Ret (st', e) /\ udp_ok st'.
Proof.
  intros H Hx. unfold udp_connect. destruct (bad_addr a); [by exists st, (- EINVAL) |]. rewrite (udp_get_some _ _ _ Hx). cbv beta iota zeta. destruct (u_queue _ H id x Hx) as [Hq Hl].
  assert (H1 : udp_ok (put st id (set_peer (s_addr a) (htons (sin_port a)) x))) by (by apply (udp_put_ok st id x)). destruct (bound (set_peer _ _ x)); [by eexists _, 0 |].
  destruct (udp_autobind_ok _ id _ H1 (lookup_insert_eq _ _ _)) as (st' & e & x' & -> & H2 & _). by exists st', e.
Qed.

Lemma shutdown_ok st id x : udp_ok st -> socks st !! id = Some x -> exists st' e, udp_shutdown st id = Ret (st', e) /\ udp_ok st'.
Proof. intros H Hx. unfold udp_shutdown. rewrite (udp_get_some _ _ _ Hx). destruct (u_queue _ H id x Hx) as [Hq Hl]. eexists _, 0. split; [done |]. by apply (udp_put_ok st id x). Qed.

Lemma udp_release_ok st id x : udp_ok st -> socks st !! id = Some x -> exists st', udp_release st id = Ret st' /\ udp_ok st'.
Proof.
  intros [H1 H2 H3 H4 H5 H6 H7] Hx. unfold udp_release. rewrite (udp_get_some _ _ _ Hx). eexists. split; [done |]. split; cbn [socks udp_socks udp_ephemeral]; try done.
  - by apply list.NoDup_filter.
  - intros j [Nj Hj]%list_elem_of_filter. destruct (H2 j Hj) as (y & Hy & Hb). exists y. split; [by rewrite lookup_delete_ne | done].
  - intros j y [Nj Hy]%lookup_delete_Some Hb. apply list_elem_of_filter. split; [congruence | by eapply H3].
  - intros j y [Nj Hy]%lookup_delete_Some Hb. by eapply H5.
  - intros i j y y' [_ Hy]%lookup_delete_Some [_ Hy']%lookup_delete_Some. by eapply H6.
  - intros j y [Nj Hy]%lookup_delete_Some. by eapply H7.
Qed.

Lemma udp_create_ok st protocol alloc : udp_ok st -> (forall new, alloc = Some new -> socks st !! new = None) -> udp_ok (fst (udp_sock_create st protocol alloc)).
Proof.
  intros H Hn. unfold udp_sock_create. destruct (_ && _); [done |]. destruct alloc as [new |]; [| done]. specialize (Hn new eq_refl). destruct H as [H1 H2 H3 H4 H5 H6 H7].
  split; cbn [fst put socks udp_socks udp_ephemeral]; try done.
  - intros j Hj. destruct (H2 j Hj) as (y & Hy & Hb). exists y. split; [rewrite lookup_insert_ne; [done | congruence] | done].
  - intros j y Hy Hb. apply insert_map_cases in Hy as [[-> ->] | [_ Hy]]; [done | by eapply H3].
  - intros j y Hy Hb. apply insert_map_cases in Hy as [[-> ->] | [_ Hy]]; [done | by eapply H5].
  - intros i j y y' Hy Hy' Hb Hb'. apply insert_map_cases in Hy as [[-> ->] | [_ Hy]]; [done |]. apply insert_map_cases in Hy' as [[-> ->] | [_ Hy']]; [done |]. by eapply H6.
  - intros j y Hy. apply insert_map_cases in Hy as [[-> ->] | [_ Hy]]; [split; [constructor | cbn; lia] | by eapply H7].
Qed.

(** ** The checksum *)

Lemma udp_csum_whole s d n uh : udp_csum s d n uh = inet_csum (le_enc 4 s ++ le_enc 4 d ++ pseudo n ++ uh).
Proof.
  unfold udp_csum, inet_csum. rewrite !csum_pieces; rewrite ?length_app, ?length_le_enc; simpl;
    [by rewrite <- ?app_assoc | first [by exists 2%nat | by exists 4%nat | by exists 6%nat] ..].
Qed.

Lemma udp_pseudo_bytes n : bytes (pseudo n).
Proof. unfold pseudo, IPPROTO_UDP. repeat (apply bytes_cons; split; [first [lia | apply (wrap_bound 8); lia | done] |]). constructor. Qed.

Lemma udp_pseudo_pos n : 0 < sumw (words (pseudo n)).
Proof.
  assert (0 <= u8 (Z.shiftr n 8)) by (apply (wrap_bound 8); lia). assert (0 <= u8 n) by (apply (wrap_bound 8); lia).
  unfold pseudo, sumw, IPPROTO_UDP. cbn [words foldr]. lia.
Qed.

Lemma udphdr_length s d l c : length (udphdr s d l c) = 8%nat.
Proof. done. Qed.

Lemma udphdr_bytes s d l c : bytes (udphdr s d l c).
Proof. unfold udphdr. rewrite !bytes_app. split_and!; apply le_enc_bytes. Qed.

(** The checksum as the sender computes it and fills it in, 0 replaced by 0xffff, verifies. *)
Lemma udp_csum_fills s d src dst len body : bytes body -> Z.of_nat (length body) <= 65515 ->
  exists c, udp_csum s d len (udphdr src dst len 0 ++ body) = Ret c /\
    udp_csum s d len (udphdr src dst len (if c =? 0 then htons 0xffff else c) ++ body) = Ret 0.
Proof.
  intros Hb Hl. rewrite udp_csum_whole.
  set (pre := le_enc 4 s ++ le_enc 4 d ++ pseudo len ++ le_enc 2 (htons src) ++ le_enc 2 (htons dst) ++ le_enc 2 (htons (u16 len))).
  assert (Hpre : bytes pre) by (unfold pre; rewrite !bytes_app; split_and!; auto using le_enc_bytes, udp_pseudo_bytes).
  assert (E : forall c, le_enc 4 s ++ le_enc 4 d ++ pseudo len ++ udphdr src dst len c ++ body = pre ++ le_enc 2 c ++ body) by (intros c; unfold pre, udphdr; by rewrite <- !app_assoc).
  rewrite E. assert (Hc : exists c, inet_csum (pre ++ le_enc 2 0 ++ body) = Ret c).
  { rewrite csum_spec; [by eexists | rewrite !bytes_app; auto using le_enc_bytes |]. rewrite !length_app. change (length pre) with 18%nat. rewrite length_le_enc. lia. }
  destruct Hc as [c Hc]. exists c. split; [done |]. rewrite udp_csum_whole, E. change (le_enc 2 0) with [0; 0] in Hc.
  apply (csum_filled pre body c); try done; [by exists 9%nat | rewrite !length_app; change (length pre) with 18%nat; cbn [length]; lia |].
  destruct (Z.eqb_spec c 0) as [-> |]; [right | by left]. split_and!; [done | done |]. unfold pre. rewrite !app_assoc.
  rewrite <- !app_assoc. rewrite words_app by (by exists 2%nat). rewrite words_app by (by exists 2%nat). rewrite words_app by (by exists 2%nat). rewrite !sumw_app.
  pose proof (words_pos (le_enc 4 s) (le_enc_bytes 4 s)). pose proof (words_pos (le_enc 4 d) (le_enc_bytes 4 d)). pose proof (udp_pseudo_pos len).
  assert (0 <= sumw (words (le_enc 2 (htons src) ++ le_enc 2 (htons dst) ++ le_enc 2 (htons (u16 len))))) by (apply words_pos; rewrite !bytes_app; auto using le_enc_bytes). lia.
Qed.

Lemma udp_csum_ret s d n uh : bytes uh -> Z.of_nat (length uh) <= 65535 -> exists c, udp_csum s d n uh = Ret c.
Proof.
  intros Hb Hl. rewrite udp_csum_whole. rewrite csum_spec; [by eexists | rewrite !bytes_app; auto using le_enc_bytes, udp_pseudo_bytes |]. rewrite !length_app, !length_le_enc. cbn [pseudo length]. lia.
Qed.

(** ** Receiving *)

Lemma set_cb_ok skb c : skb_ok skb -> skb_ok (set_cb skb c) /\ contents (set_cb skb c) = contents skb.
Proof. intros [H1 H2 H3 H4 H5]. by split. Qed.

Lemma rcv_ok st skb : udp_ok st -> skb_ok skb -> exists st' e w, udp_rcv st skb = Ret (st', e, w) /\ udp_ok st'.
Proof.
  intros H Hok. pose proof (skb_contents_length skb Hok) as Hl. pose proof (contents_bytes skb Hok) as Hb. unfold udp_rcv.
  assert (Hdone : forall (e : Z), exists (st' : udp) (e' : Z) (w : option Z), Ret (st, e, @None Z) = Ret (st', e', w) /\ udp_ok st') by (intros e; by exists st, e, None).
  destruct (Z.ltb_spec (skb_len skb) 8); [apply Hdone |]. destruct (field_bound (contents skb) 4 2 Hb) as (l & -> & _); [lia .. |]. cbv beta iota zeta. pose proof (htons_bound l) as Hu. set (ulen := htons l) in *.
  destruct (Z.ltb_spec ulen 8); [apply Hdone |]. destruct (Z.ltb_spec (skb_len skb) ulen); [apply Hdone |]. cbn [orb].
  destruct (field_bound (contents skb) 0 2 Hb) as (src & -> & _); [lia .. |]. destruct (field_bound (contents skb) 2 2 Hb) as (dst & -> & _); [lia .. |]. destruct (field_bound (contents skb) 6 2 Hb) as (chk & -> & _); [lia .. |]. cbv beta iota.
  destruct (trim_ok skb ulen Hok ltac:(lia)) as [T1 T2]. set (b := skb_trim skb ulen) in *. assert (Hlb : skb_len b = ulen) by done.
  assert (Hc : exists c, (if chk =? 0 then Ret 0 else udp_csum (cb_saddr (cb b)) (cb_daddr (cb b)) ulen (contents b)) = Ret c).
  { destruct (chk =? 0); [by eexists |]. apply udp_csum_ret; [by apply contents_bytes |]. rewrite skb_contents_length by done. lia. }
  destruct Hc as [c ->]. cbv beta iota. destruct (negb _); [apply Hdone |]. destruct (pull_ok b 8 T1 ltac:(lia)) as (b' & -> & P1 & _). cbv beta iota.
  destruct (udp_find_sock_ret st (accepts (cb_saddr (cb b)) (cb_daddr (cb b)) (htons src) (htons dst)) (udp_socks st)) as (o & -> & F1 & _); [intros id Hid; destruct (u_live _ H id Hid) as (x & Hx & _); by exists x |].
  cbv beta iota. destruct o as [id |]; [| apply Hdone]. destruct (F1 id eq_refl) as (_ & x & Hx & _). rewrite (udp_get_some _ _ _ Hx). cbv beta iota. destruct (u_queue _ H id x Hx) as [Hq Hql].
  destruct (Z.ltb_spec (Z.of_nat (length (rcv_queue x))) UDP_RCV_QUEUE_MAX); [| apply Hdone]. eexists _, _, _. split; [done |]. apply (udp_put_ok st id x); try done; cbn [set_rcv_queue rcv_queue].
  - apply list.Forall_app. split; [done |]. constructor; [by apply set_cb_ok | constructor].
  - rewrite length_app. cbn. unfold UDP_RCV_QUEUE_MAX in *. lia.
Qed.

Lemma recvmsg_ok st id x len nonblock copied alen : udp_ok st -> socks st !! id = Some x -> 0 <= len -> (forall n, alen = Some n -> 0 <= n) ->
  exists st' o, udp_recvmsg st id len nonblock copied alen = Ret (st', o) /\ udp_ok st'.
Proof.
  intros H Hx Hlen Ha. unfold udp_recvmsg. rewrite (udp_get_some _ _ _ Hx). cbv beta iota. destruct (u_queue _ H id x Hx) as [Hq Hl]. destruct (rcv_queue x) as [| skb q] eqn:Eq; [by eexists _, _ |].
  apply list.Forall_cons in Hq as [Hs Hq]. cbv zeta. assert (H1 : udp_ok (put st id (set_rcv_queue q x))) by (apply (udp_put_ok st id x); try done; cbn in *; lia).
  assert (Ho : exists out, (match alen with None => Ret None | Some n => let! b := rd_slice (sin_bytes (cb_sport (cb skb)) (cb_saddr (cb skb))) 0 (Z.min n 16) in Ret (Some b) end) = Ret out).
  { destruct alen as [n |]; [| by eexists]. specialize (Ha n eq_refl). rewrite rd_slice_ret; [by eexists | lia | lia |]. change (Z.of_nat (length (sin_bytes _ _))) with 16. lia. }
  destruct Ho as [out ->]. cbv beta iota. destruct (_ && _); [by eexists _, _ |]. destruct Hs as [S1 S2 S3 S4 S5]. rewrite rd_slice_ret by lia. by eexists _, _.
Qed.

(** ** Sending *)

(** The routes lead to devices whose packets fit the length field of IP. *)
Definition net_ok (s : inet) : Prop :=
  arp_ok s /\ forall da hop d, ip_route_output s da = inr (hop, d) -> exists dv, devs s !! d = Some dv /\ mtu dv <= 65535.

Lemma ip_output_ok s drv ok now skb sa da proto ttl hop d dv : arp_ok s -> skb_ok skb -> 34 <= data skb -> skb_len skb <= 65515 -> 0 <= proto < 256 -> 0 <= ttl < 256 ->
  ip_route_output s da = inr (hop, d) -> devs s !! d = Some dv -> exists s' e f, ip_output s drv ok now skb sa da proto ttl = Ret (s', e, f) /\ arp_ok s'.
Proof.
  intros H Hok Hroom Hl Hp Ht Hr Hdv. destruct (ip_output_packet s drv ok now skb sa da proto ttl hop d dv) as (s1 & pkt & i & c & t & -> & -> & P1 & _ & P2 & P3 & _); try done; [lia |].
  assert (H1 : arp_ok (set_ip_id i s)) by (apply (arp_ok_same s); [done | done |]; intros k; cbn; by destruct (devs s !! k)). destruct (negb _).
  - destruct (xmit_ok (set_ip_id i s) drv pkt d dv P2 Hdv) as (s' & e & -> & S & T & _). eexists _, _, _. split; [done |]. by eapply arp_ok_same.
  - destruct (arp_output_ok (set_ip_id i s) drv ok now pkt d dv hop H1 P1) as (s' & e & f & -> & H2 & _); [rewrite P3; unfold ETH_HLEN; lia | done | by exists s', e, f].
Qed.

(** What a message becomes. *)
Lemma send_to_ok st s drv ok now id x buf da dp hop d dv : socks st !! id = Some x -> bytes buf -> ip_route_output s da = inr (hop, d) -> devs s !! d = Some dv ->
  28 < mtu dv <= 65535 -> Z.of_nat (length buf) <= mtu dv - 28 -> ok = true ->
  exists skb c, let sa := if saddr x =? 0 then ip_addr dv else saddr x in
    send_to st s drv ok now id buf true da dp =
      (let! r := ip_output s drv ok now skb sa da IPPROTO_UDP IP_TTL_DEFAULT in let '(s, err, f) := r in Ret (st, s, if err =? 0 then s32 (Z.of_nat (length buf)) else err, f)) /\
    skb_ok skb /\ data skb = 128 /\ skb_len skb = 8 + Z.of_nat (length buf) /\ contents skb = udphdr (sport x) dp (8 + Z.of_nat (length buf)) c ++ buf /\
    udp_csum sa da (8 + Z.of_nat (length buf)) (contents skb) = Ret 0.
Proof.
  intros Hx Hb Hr Hdv Hm Hl ->. cbv zeta. unfold send_to. rewrite Hr. unfold device. rewrite Hdv. cbv beta iota zeta. set (len := Z.of_nat (length buf)) in *.
  destruct (Z.leb_spec (mtu dv) (20 + 8)); [lia |]. destruct (Z.ltb_spec (mtu dv - 20 - 8) len); [lia |]. cbn [orb]. rewrite (udp_get_some _ _ _ Hx). cbv beta iota.
  set (sa := if saddr x =? 0 then ip_addr dv else saddr x). destruct (skb_alloc (8 + len) true) as [skb |] eqn:Ea; [| done]. destruct (alloc_ok (8 + len) skb Ea ltac:(lia)) as (A1 & A2 & A3 & A4 & A5). unfold SKB_HEADROOM in *.
  destruct (put_bytes_ok skb (udphdr (sport x) dp (8 + len) 0) A1 (udphdr_bytes _ _ _ _)) as (k1 & -> & B1 & B2 & B3 & B4 & B5); [rewrite udphdr_length; lia |]. cbv beta iota. change (negb true) with false. rewrite andb_false_r.
  destruct (put_bytes_ok k1 buf B1 Hb) as (k2 & -> & C1 & C2 & C3 & C4 & C5); [rewrite B4, B5, udphdr_length; lia |]. cbv beta iota.
  assert (E2 : contents k2 = udphdr (sport x) dp (8 + len) 0 ++ buf) by (by rewrite C2, B2, A2).
  destruct (udp_csum_fills sa da (sport x) dp (8 + len) buf Hb ltac:(lia)) as (c & Ec & Ev). rewrite E2, Ec. cbv beta iota. set (c' := if c =? 0 then htons 65535 else c) in *.
  pose proof (skb_contents_length k2 C1) as Hlen. rewrite E2, length_app, udphdr_length in Hlen.
  destruct (store_ok k2 6 (le_enc 2 c') C1 (le_enc_bytes 2 c')) as (k3 & -> & D1 & D2 & D3 & D4 & _); [lia | rewrite length_le_enc; lia |]. cbv beta iota.
  assert (E3 : contents k3 = udphdr (sport x) dp (8 + len) c' ++ buf) by (rewrite D2, E2; reflexivity).
  exists k3, c'. split; [done |]. split; [done |]. split; [congruence |]. split; [lia |]. split; [done |]. by rewrite E3.
Qed.

Lemma send_to_total st s drv ok now id x buf copied da dp : net_ok s -> socks st !! id = Some x -> bytes buf -> exists s' e f, send_to st s drv ok now id buf copied da dp = Ret (st, s', e, f) /\ arp_ok s'.
Proof.
  intros [H Hn] Hx Hb. assert (Hdone : forall (e : Z), exists (s' : inet) (e' : Z) f, Ret (st, s, e, @nil frame) = Ret (st, s', e', f) /\ arp_ok s') by (intros e; by exists s, e, []).
  destruct (ip_route_output s da) as [err | [hop d]] eqn:Er; [unfold send_to; rewrite Er; apply Hdone |]. destruct (Hn da hop d Er) as (dv & Hdv & Hm).
  destruct (decide ((mtu dv <=? 20 + 8) || (mtu dv - 20 - 8 <? Z.of_nat (length buf)) = true)) as [K | K].
  { unfold send_to. rewrite Er. unfold device. rewrite Hdv. cbv beta iota zeta. rewrite K. apply Hdone. }
  assert (K' : (mtu dv <=? 20 + 8) || (mtu dv - 20 - 8 <? Z.of_nat (length buf)) = false) by (by destruct (_ || _)). pose proof K' as [K1%Z.leb_gt K2%Z.ltb_ge]%orb_false_iff.
  destruct ok; [destruct copied |].
  - destruct (send_to_ok st s drv true now id x buf da dp hop d dv Hx Hb Er Hdv) as (skb & c & -> & S1 & S2 & S3 & _); [lia | lia | done |].
    destruct (ip_output_ok s drv true now skb (if saddr x =? 0 then ip_addr dv else saddr x) da IPPROTO_UDP IP_TTL_DEFAULT hop d dv) as (s' & e & f & -> & H1); try done; [lia | lia |]. cbv beta iota. by eexists _, _, _.
  - destruct (decide (buf = [])) as [-> | Nb].
    + destruct (send_to_ok st s drv true now id x [] da dp hop d dv Hx Hb Er Hdv) as (skb & c & E & S1 & S2 & S3 & _); [lia | cbn in *; lia | done |].
      replace (send_to st s drv true now id [] false da dp) with (send_to st s drv true now id [] true da dp) by (unfold send_to; by rewrite Er). rewrite E.
      destruct (ip_output_ok s drv true now skb (if saddr x =? 0 then ip_addr dv else saddr x) da IPPROTO_UDP IP_TTL_DEFAULT hop d dv) as (s' & e & f & -> & H1); try done; [lia | rewrite S3; cbn; lia |]. cbv beta iota. by eexists _, _, _.
    + unfold send_to. rewrite Er. unfold device. rewrite Hdv. cbv beta iota zeta. rewrite K', (udp_get_some _ _ _ Hx). cbv beta iota. destruct (skb_alloc (8 + Z.of_nat (length buf)) true) as [skb |] eqn:Ea; [| done].
      destruct (alloc_ok _ skb Ea ltac:(lia)) as (A1 & A2 & A3 & A4 & A5). destruct (put_bytes_ok skb (udphdr (sport x) dp (8 + Z.of_nat (length buf)) 0) A1 (udphdr_bytes _ _ _ _)) as (k1 & -> & _); [rewrite udphdr_length; lia |].
      cbv beta iota. destruct (Z.eqb_spec (Z.of_nat (length buf)) 0) as [E0 | _]; [destruct buf; [done | cbn in E0; lia] |]. apply Hdone.
  - unfold send_to. rewrite Er. unfold device. rewrite Hdv. cbv beta iota zeta. rewrite K', (udp_get_some _ _ _ Hx). cbv beta iota. apply Hdone.
Qed.

Lemma sendmsg_ok st s drv ok now id x buf copied a : udp_ok st -> net_ok s -> socks st !! id = Some x -> bytes buf ->
  exists st' s' e f, udp_sendmsg st s drv ok now id buf copied a = Ret (st', s', e, f) /\ udp_ok st' /\ arp_ok s'.
Proof.
  intros H Hn Hx Hb. unfold udp_sendmsg. rewrite (udp_get_some _ _ _ Hx). cbv beta iota. destruct (destination x a) as [e | [da dp]]; [eexists _, _, _, _; split; [done |]; split; [done | apply Hn] |].
  assert (Hr : exists st' e x', (if bound x then Ret (st, 0) else udp_autobind st id) = Ret (st', e) /\ udp_ok st' /\ socks st' !! id = Some x').
  { destruct (bound x); [by exists st, 0, x |]. destruct (udp_autobind_ok st id x H Hx) as (st' & e & x' & E & H1 & H2 & _). by exists st', e, x'. }
  destruct Hr as (st' & e & x' & -> & H1 & Hx'). cbv beta iota. destruct (negb _); [eexists _, _, _, _; split; [done |]; split; [done | apply Hn] |].
  destruct (send_to_total st' s drv ok now id x' buf copied da dp Hn Hx' Hb) as (s' & e' & f & -> & H2). by eexists _, _, _, _.
Qed.

(** ** What UDP promises *)

(** C9: the sockets stay sound whatever is called and whatever arrives. Every call on a live socket, with any buffer and address, and the
    receipt of any packet return, and keep: the bound sockets are exactly the listed ones, no two of
    them share a port at overlapping addresses, ports are never 0, and at most 64 sound packets wait in a queue; the ARP table stays sound too. *)
Theorem udp_sockets_safe (st : udp) : udp_ok st ->
  (forall protocol alloc, (forall new, alloc = Some new -> socks st !! new = None) -> udp_ok (fst (udp_sock_create st protocol alloc))) /\
  (forall skb, skb_ok skb -> exists st' e w, udp_rcv st skb = Ret (st', e, w) /\ udp_ok st') /\
  (forall id, is_Some (socks st !! id) ->
     (forall a, exists st' e, udp_bind st id a = Ret (st', e) /\ udp_ok st') /\
     (forall a, exists st' e, udp_connect st id a = Ret (st', e) /\ udp_ok st') /\
     (exists st' e, udp_shutdown st id = Ret (st', e) /\ udp_ok st') /\
     (exists st', udp_release st id = Ret st' /\ udp_ok st') /\
     (forall len nonblock copied alen, 0 <= len -> (forall n, alen = Some n -> 0 <= n) -> exists st' o, udp_recvmsg st id len nonblock copied alen = Ret (st', o) /\ udp_ok st') /\
     (forall s drv ok now buf copied a, net_ok s -> bytes buf -> exists st' s' e f, udp_sendmsg st s drv ok now id buf copied a = Ret (st', s', e, f) /\ udp_ok st' /\ arp_ok s')).
Proof.
  intros H. split_and!; [intros; by apply udp_create_ok | intros; by apply rcv_ok |]. intros id [x Hx].
  split_and!; [intros; by eapply udp_bind_ok | intros; by eapply udp_connect_ok | by eapply shutdown_ok | by eapply udp_release_ok | intros; by eapply recvmsg_ok | intros; by eapply sendmsg_ok].
Qed.

(** Which socket gets a datagram. *)
Lemma find_accepts st sa da sp dp id x : udp_ok st -> socks st !! id = Some x -> bound x = true -> accepts sa da sp dp x = true -> find_sock st (accepts sa da sp dp) (udp_socks st) = Ret (Some id).
Proof.
  intros H Hx Hb Ha. destruct (udp_find_sock_ret st (accepts sa da sp dp) (udp_socks st)) as (o & -> & F1 & F2); [intros j Hj; destruct (u_live _ H j Hj) as (y & Hy & _); by exists y |].
  destruct o as [j |]; [| rewrite (F2 eq_refl id x (u_bound _ H id x Hx Hb) Hx) in Ha; done]. destruct (F1 j eq_refl) as (Hj & y & Hy & Hay). destruct (u_live _ H j Hj) as (y' & Hy' & Hby). assert (y' = y) as -> by congruence.
  do 2 f_equal. unfold accepts in Ha, Hay. apply andb_true_iff in Ha as [[E1%Z.eqb_eq E2%orb_true_iff]%andb_true_iff _]. apply andb_true_iff in Hay as [[D1%Z.eqb_eq D2%orb_true_iff]%andb_true_iff _].
  rewrite !Z.eqb_eq in *. apply (u_exclusive _ H j id y x); try done; [congruence |]. destruct E2, D2; [auto | auto | auto | right; right; congruence].
Qed.

(** A datagram of [send_to] at its receiver. *)
Lemma udp_rcv_built st r sa da sp dp c buf id x : udp_ok st -> skb_ok r -> contents r = udphdr sp dp (8 + Z.of_nat (length buf)) c ++ buf -> Z.of_nat (length buf) <= 65507 -> 0 <= sp < 65536 -> 0 <= dp < 65536 ->
  cb_saddr (cb r) = sa -> cb_daddr (cb r) = da -> udp_csum sa da (8 + Z.of_nat (length buf)) (contents r) = Ret 0 ->
  socks st !! id = Some x -> bound x = true -> accepts sa da sp dp x = true -> (length (rcv_queue x) < 64)%nat ->
  exists b, udp_rcv st r = Ret (put st id (set_rcv_queue (rcv_queue x ++ [b]) x), 0, Some id) /\ skb_ok b /\ contents b = buf /\ cb b = mk_cb sa da sp dp.
Proof.
  intros H Hok E Hl Hsp Hdp <- <- Hv Hx Hb Ha Hq. pose proof (skb_contents_length r Hok) as Hlen. rewrite E, length_app, udphdr_length in Hlen. unfold udp_rcv. set (P := contents r) in *.
  assert (HP : Z.of_nat (length P) = 8 + Z.of_nat (length buf)) by (rewrite E, length_app, udphdr_length; lia). set (n := 8 + Z.of_nat (length buf)) in *.
  destruct (Z.ltb_spec (skb_len r) 8); [lia |]. assert (Hn : 0 <= n < 65536) by lia. assert (Hu : u16 n = n) by (rewrite wrap_small; lia).
  rewrite (field_ret P 4 2 (htons (u16 n))); [| lia | lia | lia | rewrite E; reflexivity | pose proof (htons_bound (u16 n)); lia]. cbv beta iota zeta. rewrite htons_htons, Hu by lia.
  destruct (Z.ltb_spec n 8); [lia |]. destruct (Z.ltb_spec (skb_len r) n); [lia |]. cbn [orb].
  rewrite (field_ret P 0 2 (htons sp)), (field_ret P 2 2 (htons dp)); [| lia | lia | lia | rewrite E; reflexivity | pose proof (htons_bound dp); lia | lia | lia | lia | rewrite E; reflexivity | pose proof (htons_bound sp); lia].
  destruct (field_bound P 6 2 (contents_bytes r Hok)) as (chk & -> & _); [lia .. |]. cbv beta iota. rewrite !htons_htons by done.
  destruct (trim_ok r n Hok ltac:(lia)) as [T1 T2]. assert (ET : contents (skb_trim r n) = P) by (rewrite T2; apply take_ge; lia).
  assert (Ec : (if chk =? 0 then Ret 0 else udp_csum (cb_saddr (cb (skb_trim r n))) (cb_daddr (cb (skb_trim r n))) n (contents (skb_trim r n))) = Ret 0) by (destruct (chk =? 0); [done |]; rewrite ET; exact Hv). rewrite Ec. cbv beta iota.
  change (negb (0 =? 0)) with false. cbv iota. destruct (pull_ok (skb_trim r n) 8 T1) as (b & -> & P1 & P2 & _); [cbn; lia |]. cbv beta iota.
  change (cb_saddr (cb (skb_trim r n))) with (cb_saddr (cb r)). change (cb_daddr (cb (skb_trim r n))) with (cb_daddr (cb r)).
  rewrite (find_accepts st (cb_saddr (cb r)) (cb_daddr (cb r)) sp dp id x H Hx Hb Ha). cbv beta iota. rewrite (udp_get_some _ _ _ Hx). cbv beta iota.
  destruct (Z.ltb_spec (Z.of_nat (length (rcv_queue x))) UDP_RCV_QUEUE_MAX); [| unfold UDP_RCV_QUEUE_MAX in *; lia]. eexists. split; [reflexivity |]. destruct (set_cb_ok b (mk_cb (cb_saddr (cb r)) (cb_daddr (cb r)) sp dp) P1) as [S1 S2].
  split; [done |]. split; [| done]. rewrite S2, P2, ET, E. reflexivity.
Qed.

(** What the reader of a queue gets. *)
Lemma recvmsg_head st id x b q n nonblock : socks st !! id = Some x -> rcv_queue x = b :: q -> skb_ok b -> Z.of_nat (length (contents b)) <= n -> Z.of_nat (length (contents b)) < 2 ^ 31 ->
  udp_recvmsg st id n nonblock true (Some 16) = Ret (put st id (set_rcv_queue q x), Some (Z.of_nat (length (contents b)), contents b, Some (sin_bytes (cb_sport (cb b)) (cb_saddr (cb b))))).
Proof.
  intros Hx Eq Hb Hn Hs. pose proof (skb_contents_length b Hb) as Hl. unfold udp_recvmsg. rewrite (udp_get_some _ _ _ Hx). cbv beta iota. rewrite Eq. cbv beta iota zeta. rewrite rd_slice_ret by (cbn; lia). cbv beta iota.
  change (negb true) with false. rewrite andb_false_r. destruct Hb as [B1 B2 B3 B4 B5]. rewrite rd_slice_ret by lia. cbv beta iota. rewrite Z.min_r by lia. rewrite Hl in *. rewrite swrap_small by lia. reflexivity.
Qed.

(** C7: a datagram arrives as it was sent. A message of a bound socket that fits the device leaves in a packet (given to the loopback device or to ARP) such that whoever receives these bytes,
    with Ethernet padding behind them or not, gets through [ip_rcv] and [udp_rcv] into the queue of the one socket that is bound to the destination
    (and connected to the sender, if connected), unless the queue is full; a reader of that queue gets exactly the bytes of the message and the sender's
    address and port. *)
Theorem udp_delivers (st : udp) (s : inet) (drv : driver) (now id : Z) (x : sock) (buf : list Z) (a : option sockaddr_in) (da dp hop d : Z) (dv : net_device) :
  udp_ok st -> socks st !! id = Some x -> bound x = true -> bytes buf -> destination x a = inr (da, dp) -> 0 <= da < 2 ^ 32 -> 0 <= dp < 65536 -> 0 <= saddr x < 2 ^ 32 -> 0 <= ip_addr dv < 2 ^ 32 ->
  ip_route_output s da = inr (hop, d) -> devs s !! d = Some dv -> 28 < mtu dv <= 65535 -> Z.of_nat (length buf) <= mtu dv - 28 ->
  let sa := if saddr x =? 0 then ip_addr dv else saddr x in
  exists s1 pkt,
    udp_sendmsg st s drv true now id buf true a =
      (let! r := (if negb (Z.land (dev_flags dv) IFF_LOOPBACK =? 0) then netdev_start_xmit s1 drv pkt else arp_output s1 drv true now pkt d hop) in
       let '(s, err, f) := r in Ret (st, s, if err =? 0 then s32 (Z.of_nat (length buf)) else err, f)) /\
    skb_ok pkt /\ protocol pkt = ETH_P_IP /\
    forall r pad, skb_ok r -> contents r = contents pkt ++ pad ->
      exists r', ip_rcv r = Ret (Some (IPPROTO_UDP, r')) /\
        forall st2 id2 y, udp_ok st2 -> socks st2 !! id2 = Some y -> bound y = true -> accepts sa da (sport x) dp y = true -> (length (rcv_queue y) < 64)%nat ->
          exists b, udp_rcv st2 r' = Ret (put st2 id2 (set_rcv_queue (rcv_queue y ++ [b]) y), 0, Some id2) /\
            forall st3 z q n nonblock, socks st3 !! id2 = Some z -> rcv_queue z = b :: q -> Z.of_nat (length buf) <= n ->
              udp_recvmsg st3 id2 n nonblock true (Some 16) = Ret (put st3 id2 (set_rcv_queue q z), Some (Z.of_nat (length buf), buf, Some (sin_bytes (sport x) sa))).
Proof.
  intros H Hx Hb Hbuf Hdst Hda Hdp Hsa Hip Hr Hdv Hm Hl sa. pose proof (u_sport _ H id x Hx Hb) as Hsp. assert (Hsa' : 0 <= sa < 2 ^ 32) by (unfold sa; by destruct (saddr x =? 0)).
  destruct (send_to_ok st s drv true now id x buf da dp hop d dv Hx Hbuf Hr Hdv ltac:(lia) Hl eq_refl) as (skb & c & E & S1 & S2 & S3 & S4 & S5). fold sa in E, S5.
  destruct (ip_output_packet s drv true now skb sa da IPPROTO_UDP IP_TTL_DEFAULT hop d dv) as (s1 & pkt & i & ck & t & Eo & _ & P1 & P2 & _ & _ & P3 & P4); try done; [lia | lia |].
  exists s1, pkt. split; [unfold udp_sendmsg; rewrite (udp_get_some _ _ _ Hx); cbv beta iota; rewrite Hdst, Hb; cbv beta iota; change (negb (0 =? 0)) with false; cbv iota; rewrite E, Eo; done |]. split; [done |]. split; [done |].
  intros r pad Hrok Er. assert (Esa : (if sa =? 0 then ip_addr dv else sa) = sa) by (unfold sa; destruct (Z.eqb_spec (saddr x) 0) as [E0 | N0]; [by destruct (ip_addr dv =? 0) | by rewrite (proj2 (Z.eqb_neq _ _) N0)]).
  rewrite Esa in P3, P4. pose proof (skb_contents_length skb S1) as Hc. rewrite <- Hc in P3, P4.
  destruct (ip_rcv_built r i t IPPROTO_UDP ck sa da (contents skb) pad Hrok) as (r' & -> & R1 & R2 & R3 & R4); [lia | done | done | by right; left | done | by rewrite Er, P3, app_assoc |].
  exists r'. split; [done |]. intros st2 id2 y H2 Hy Hby Hacc Hq.
  destruct (udp_rcv_built st2 r' sa da (sport x) dp c buf id2 y) as (b & -> & B1 & B2 & B3); try done; [by rewrite R2 | lia | lia | by rewrite R2 |].
  exists b. split; [done |]. intros st3 z q n nonblock Hz Eq Hn. rewrite (recvmsg_head st3 id2 z b q n nonblock Hz Eq B1); rewrite B2; [by rewrite B3 | lia | lia].
Qed.

(** A message for an address that is being resolved is reported as failed, though it is queued and sent when the answer comes. *)
Theorem queued_message_reported_failed (st : udp) (s : inet) (drv : driver) (now id : Z) (x : sock) (buf : list Z) (a : option sockaddr_in) (da dp hop d : Z) (dv : net_device) :
  udp_ok st -> arp_ok s -> socks st !! id = Some x -> bound x = true -> bytes buf -> destination x a = inr (da, dp) ->
  ip_route_output s da = inr (hop, d) -> devs s !! d = Some dv -> Z.land (dev_flags dv) IFF_LOOPBACK = 0 -> 28 < mtu dv <= 65535 -> Z.of_nat (length buf) <= mtu dv - 28 ->
  (forall i e, arp_index (arp_table s) hop = Some i -> arp_table s !! i = Some e -> arp_st e = ARP_INCOMPLETE) ->
  exists s' f i e pkt, udp_sendmsg st s drv true now id buf true a = Ret (st, s', - EAGAIN, f) /\ arp_table s' !! i = Some e /\ arp_ip e = hop /\ list.last (pending e) = Some pkt.
Proof.
  intros H Ha Hx Hb Hbuf Hdst Hr Hdv Hlo Hm Hl Hinc. destruct (send_to_ok st s drv true now id x buf da dp hop d dv Hx Hbuf Hr Hdv ltac:(lia) Hl eq_refl) as (skb & c & E & S1 & S2 & S3 & S4 & S5).
  destruct (ip_output_packet s drv true now skb (if saddr x =? 0 then ip_addr dv else saddr x) da IPPROTO_UDP IP_TTL_DEFAULT hop d dv) as (s1 & pkt & k & ck & t & Eo & -> & P1 & _ & _ & P2 & _); try done; [lia | lia |].
  rewrite Hlo in Eo. change (negb (0 =? 0)) with false in Eo. cbv iota in Eo.
  assert (H1 : arp_ok (set_ip_id k s)) by (apply (arp_ok_same s); [done | done |]; intros j; cbn; by destruct (devs s !! j)).
  destruct (arp_output_unknown (set_ip_id k s) drv true now pkt d dv hop H1 P1) as (s2 & i & e & s3 & f & _ & Hi & Eu & _ & _ & (e' & T & _ & A & _ & Q) & _); [rewrite P2, S2; unfold ETH_HLEN; lia | done | exact Hinc |].
  exists s3, f, i, e', (set_dev pkt d). split_and!; [| rewrite T; apply list_lookup_insert_eq; by eapply lookup_lt_Some | done | rewrite Q; unfold enqueue; apply last_snoc].
  unfold udp_sendmsg. rewrite (udp_get_some _ _ _ Hx). cbv beta iota. rewrite Hdst, Hb. cbv beta iota. change (negb (0 =? 0)) with false. cbv iota. rewrite E, Eo, Eu. done.
Qed.

(** After [udp_shutdown] a reader of an empty queue gets 0 and nothing is written to its address, which [sys_recvfrom] copies to the user all the same. *)
Theorem shutdown_read_leaves_address (st : udp) (id : Z) (x : sock) (n : Z) (nonblock copied : bool) (alen : Z) : socks st !! id = Some x -> rcv_queue x = [] -> shutdown x = true ->
  udp_recvmsg st id n nonblock copied (Some alen) = Ret (st, Some (0, [], None)).
Proof. intros Hx Eq Es. unfold udp_recvmsg. rewrite (udp_get_some _ _ _ Hx). cbv beta iota. by rewrite Eq, Es. Qed.

(** ** Two sockets on one host *)

Definition boot_udp : udp := mk_udp ∅ [] UDP_EPHEMERAL_START.

Lemma boot_udp_ok : udp_ok boot_udp.
Proof. split; cbn [boot_udp socks udp_socks udp_ephemeral]; try done; [constructor | intros id Hid; by apply elem_of_nil in Hid]. Qed.

Definition ex_one : udp := link (put boot_udp 1 zero_sock) 1 0 5000 zero_sock.
Definition ex_udp : udp := link (put ex_one 2 zero_sock) 2 0 6000 zero_sock.

Lemma ex_one_ok : udp_ok ex_one.
Proof.
  apply udp_link_ok; [| reflexivity | reflexivity | lia |]; [apply (udp_create_ok boot_udp 0 (Some 1) boot_udp_ok); intros new _; reflexivity |].
  intros (j & y & Hy & Hb & _). apply insert_map_cases in Hy as [[-> ->] | [_ Hy]]; [discriminate Hb |]. cbn [boot_udp socks] in Hy. by rewrite lookup_empty in Hy.
Qed.

Lemma ex_udp_ok : udp_ok ex_udp.
Proof.
  apply udp_link_ok; [| reflexivity | reflexivity | lia |]; [apply (udp_create_ok ex_one 0 (Some 2) ex_one_ok); intros new [= <-]; reflexivity |].
  intros (j & y & Hy & Hb & Hu). apply insert_map_cases in Hy as [[-> ->] | [_ Hy]]; [discriminate Hb |]. apply insert_map_cases in Hy as [[-> ->] | [_ Hy]]; [discriminate Hu |].
  apply insert_map_cases in Hy as [[-> ->] | [_ Hy]]; [discriminate Hb |]. cbn [boot_udp socks] in Hy. by rewrite lookup_empty in Hy.
Qed.

Lemma udp_sockets_safe_witness : exists st', udp_release ex_udp 1 = Ret st' /\ udp_ok st'.
Proof. destruct (udp_sockets_safe ex_udp ex_udp_ok) as (_ & _ & H). destruct (H 1) as (_ & _ & _ & Hr & _); [eexists; reflexivity | exact Hr]. Defined.

(** A message from the socket on port 5000 to the one on port 6000 over the loopback device. *)
Lemma udp_delivers_witness : exists s1 pkt r' b,
  udp_sendmsg ex_udp ex_lo (fun _ _ => 0) true 0 1 [104; 105] true (Some (mk_sin 16 AF_INET (htons 6000) (NET_IP4 127 0 0 1))) =
    (let! r := netdev_start_xmit s1 (fun _ _ => 0) pkt in let '(s, err, f) := r in Ret (ex_udp, s, if err =? 0 then 2 else err, f)) /\
  ip_rcv pkt = Ret (Some (IPPROTO_UDP, r')) /\ udp_rcv ex_udp r' = Ret (put ex_udp 2 (set_rcv_queue [b] (set_local 0 6000 zero_sock)), 0, Some 2) /\
  udp_recvmsg (put ex_udp 2 (set_rcv_queue [b] (set_local 0 6000 zero_sock))) 2 100 false true (Some 16) =
    Ret (put (put ex_udp 2 (set_rcv_queue [b] (set_local 0 6000 zero_sock))) 2 (set_local 0 6000 zero_sock), Some (2, [104; 105], Some (sin_bytes 5000 (NET_IP4 127 0 0 1)))).
Proof.
  destruct (udp_delivers ex_udp ex_lo (fun _ _ => 0) 0 1 (set_local 0 5000 zero_sock) [104; 105] (Some (mk_sin 16 AF_INET (htons 6000) (NET_IP4 127 0 0 1))) (NET_IP4 127 0 0 1) 6000 (NET_IP4 127 0 0 1) 2
    (mk_dev [0; 0; 0; 0; 0; 0] 65535 (Z.lor IFF_UP IFF_LOOPBACK) (NET_IP4 127 0 0 1) true 0 0 0 0 0 0 0)) as (s1 & pkt & E & P1 & _ & P2);
    [exact ex_udp_ok | reflexivity | reflexivity | repeat apply list.Forall_cons_2; try lia; constructor | reflexivity | vm_compute; split; congruence | lia | cbn; lia | vm_compute; split; congruence | vm_compute; reflexivity | reflexivity | cbn; lia | cbn; lia |].
  destruct (P2 pkt [] P1 ltac:(symmetry; apply app_nil_r)) as (r' & R1 & R2). destruct (R2 ex_udp 2 (set_local 0 6000 zero_sock) ex_udp_ok ltac:(reflexivity) ltac:(reflexivity) ltac:(reflexivity) ltac:(cbn; lia)) as (b & B1 & B2).
  exists s1, pkt, r', b. split; [exact E |]. split; [exact R1 |]. split; [exact B1 |].
  exact (B2 (put ex_udp 2 (set_rcv_queue [b] (set_local 0 6000 zero_sock))) (set_rcv_queue [b] (set_local 0 6000 zero_sock)) [] 100 false ltac:(apply lookup_insert_eq) eq_refl ltac:(cbn; lia)).
Defined.
