(* ===== verification/Tcp.v ===== *)
(** * TCP: net/tcp.c

    Sockets live in a table, by address; the list [tcp_socks] is walked as in C,
    and a pointer to a socket that has been freed is a [Fault].  What a routine
    does under [tcp_lock] is one function; the segment it sends behind the lock
    is returned next to the new state.  What [tcp_rcv] and [tcp_release] do behind
    it with sockets that others may free is a function of its own, [run_late].
    The route, the memory for a segment and
    the result of [ip_output] are arguments; the time is too.  A receive buffer
    is its payload with the addresses noted in its control block. *)

From S2P Require Import Prelude CString Checksum.

Definition TCP_MSS : Z := 1460.
Definition TCP_DEFAULT_MSS : Z := 536.
Definition TCP_RCV_WND : Z := 4096.
Definition TCP_RCV_QUEUE_MAX : Z := 64.
Definition TCP_MAX_RETRIES : Z := 5.
Definition TCP_RTO_NS : Z := 1000000000.
Definition TCP_TIME_WAIT_NS : Z := 2000000000.
Definition TCP_FIN_WAIT2_NS : Z := 10000000000.
Definition TCP_SYN_RECV_NS : Z := 10000000000.
Definition TCP_TIMER_INTERVAL_NS : Z := 100000000.
Definition TCP_TIMER_BATCH : Z := 8.
Definition TCP_EPHEMERAL_START : Z := 49152.
Definition TCP_EPHEMERAL_END : Z := 65535.

Definition TCP_FIN : Z := 1.
Definition TCP_SYN : Z := 2.
Definition TCP_RST : Z := 4.
Definition TCP_PSH : Z := 8.
Definition TCP_ACK : Z := 16.
Definition TCP_OPT_END : Z := 0.
Definition TCP_OPT_NOP : Z := 1.
Definition TCP_OPT_MSS : Z := 2.
Definition IPPROTO_TCP : Z := 6.

Inductive tcp_state : Set :=
| TCP_CLOSE | TCP_LISTEN | TCP_SYN_SENT | TCP_SYN_RECV | TCP_ESTABLISHED
| TCP_FIN_WAIT_1 | TCP_FIN_WAIT_2 | TCP_CLOSE_WAIT | TCP_LAST_ACK | TCP_TIME_WAIT.

#[global] Instance tcp_state_eq : EqDecision tcp_state.
Proof. solve_decision. Defined.

Inductive tcp_tx_kind : Set := TCP_TX_NONE | TCP_TX_SYN | TCP_TX_DATA | TCP_TX_FIN.

#[global] Instance tcp_tx_kind_eq : EqDecision tcp_tx_kind.
Proof. solve_decision. Defined.

Record skb : Set := mk_skb { skb_data : list Z; cb_saddr : Z; cb_daddr : Z; cb_sport : Z; cb_dport : Z }.

(** [struct tcp_sock] with the fields of its [struct sock]; [accept_on] is the
    listener whose [accept_queue] holds the socket, when [accept_node] is linked. *)
Record tcp_sock : Type := mk_tcp_sock {
  saddr : Z;
  daddr : Z;
  sport : Z;
  dport : Z;
  bound : bool;
  connected : bool;
  shutdown : bool;
  eof : bool;
  sk_err : Z;
  rcv_queue : list skb;
  listener : option Z;
  accept_on : option Z;
  state : tcp_state;
  iss : Z;
  irs : Z;
  snd_una : Z;
  snd_nxt : Z;
  snd_wnd : Z;
  rcv_nxt : Z;
  rcv_wnd : Z;
  mss : Z;
  backlog : Z;
  accept_backlog : Z;
  accept_queue : list Z;
  tx_kind : tcp_tx_kind;
  tx_buf : Z;
  tx_data : list Z;
  tx_len : Z;
  tx_seq : Z;
  tx_retries : Z;
  rto_deadline_ns : Z;
  orphan : bool;
  created_ns : Z;
  time_wait_deadline_ns : Z;
  fin_wait2_deadline_ns : Z;
  err : Z }.

Definition set_saddr (v : Z) (x : tcp_sock) : tcp_sock := mk_tcp_sock v (daddr x) (sport x) (dport x) (bound x) (connected x) (shutdown x) (eof x) (sk_err x) (rcv_queue x) (listener x) (accept_on x) (state x) (iss x) (irs x) (snd_una x) (snd_nxt x) (snd_wnd x) (rcv_nxt x) (rcv_wnd x) (mss x) (backlog x) (accept_backlog x) (accept_queue x) (tx_kind x) (tx_buf x) (tx_data x) (tx_len x) (tx_seq x) (tx_retries x) (rto_deadline_ns x) (orphan x) (created_ns x) (time_wait_deadline_ns x) (fin_wait2_deadline_ns x) (err x).
Definition set_daddr (v : Z) (x : tcp_sock) : tcp_sock := mk_tcp_sock (saddr x) v (sport x) (dport x) (bound x) (connected x) (shutdown x) (eof x) (sk_err x) (rcv_queue x) (listener x) (accept_on x) (state x) (iss x) (irs x) (snd_una x) (snd_nxt x) (snd_wnd x) (rcv_nxt x) (rcv_wnd x) (mss x) (backlog x) (accept_backlog x) (accept_queue x) (tx_kind x) (tx_buf x) (tx_data x) (tx_len x) (tx_seq x) (tx_retries x) (rto_deadline_ns x) (orphan x) (created_ns x) (time_wait_deadline_ns x) (fin_wait2_deadline_ns x) (err x).
Definition set_sport (v : Z) (x : tcp_sock) : tcp_sock := mk_tcp_sock (saddr x) (daddr x) v (dport x) (bound x) (connected x) (shutdown x) (eof x) (sk_err x) (rcv_queue x) (listener x) (accept_on x) (state x) (iss x) (irs x) (snd_una x) (snd_nxt x) (snd_wnd x) (rcv_nxt x) (rcv_wnd x) (mss x) (backlog x) (accept_backlog x) (accept_queue x) (tx_kind x) (tx_buf x) (tx_data x) (tx_len x) (tx_seq x) (tx_retries x) (rto_deadline_ns x) (orphan x) (created_ns x) (time_wait_deadline_ns x) (fin_wait2_deadline_ns x) (err x).
Definition set_dport (v : Z) (x : tcp_sock) : tcp_sock := mk_tcp_sock (saddr x) (daddr x) (sport x) v (bound x) (connected x) (shutdown x) (eof x) (sk_err x) (rcv_queue x) (listener x) (accept_on x) (state x) (iss x) (irs x) (snd_una x) (snd_nxt x) (snd_wnd x) (rcv_nxt x) (rcv_wnd x) (mss x) (backlog x) (accept_backlog x) (accept_queue x) (tx_kind x) (tx_buf x) (tx_data x) (tx_len x) (tx_seq x) (tx_retries x) (rto_deadline_ns x) (orphan x) (created_ns x) (time_wait_deadline_ns x) (fin_wait2_deadline_ns x) (err x).
Definition set_bound (v : bool) (x : tcp_sock) : tcp_sock := mk_tcp_sock (saddr x) (daddr x) (sport x) (dport x) v (connected x) (shutdown x) (eof x) (sk_err x) (rcv_queue x) (listener x) (accept_on x) (state x) (iss x) (irs x) (snd_una x) (snd_nxt x) (snd_wnd x) (rcv_nxt x) (rcv_wnd x) (mss x) (backlog x) (accept_backlog x) (accept_queue x) (tx_kind x) (tx_buf x) (tx_data x) (tx_len x) (tx_seq x) (tx_retries x) (rto_deadline_ns x) (orphan x) (created_ns x) (time_wait_deadline_ns x) (fin_wait2_deadline_ns x) (err x).
Definition set_connected (v : bool) (x : tcp_sock) : tcp_sock := mk_tcp_sock (saddr x) (daddr x) (sport x) (dport x) (bound x) v (shutdown x) (eof x) (sk_err x) (rcv_queue x) (listener x) (accept_on x) (state x) (iss x) (irs x) (snd_una x) (snd_nxt x) (snd_wnd x) (rcv_nxt x) (rcv_wnd x) (mss x) (backlog x) (accept_backlog x) (accept_queue x) (tx_kind x) (tx_buf x) (tx_data x) (tx_len x) (tx_seq x) (tx_retries x) (rto_deadline_ns x) (orphan x) (created_ns x) (time_wait_deadline_ns x) (fin_wait2_deadline_ns x) (err x).
Definition set_shutdown (v : bool) (x : tcp_sock) : tcp_sock := mk_tcp_sock (saddr x) (daddr x) (sport x) (dport x) (bound x) (connected x) v (eof x) (sk_err x) (rcv_queue x) (listener x) (accept_on x) (state x) (iss x) (irs x) (snd_una x) (snd_nxt x) (snd_wnd x) (rcv_nxt x) (rcv_wnd x) (mss x) (backlog x) (accept_backlog x) (accept_queue x) (tx_kind x) (tx_buf x) (tx_data x) (tx_len x) (tx_seq x) (tx_retries x) (rto_deadline_ns x) (orphan x) (created_ns x) (time_wait_deadline_ns x) (fin_wait2_deadline_ns x) (err x).
Definition set_eof (v : bool) (x : tcp_sock) : tcp_sock := mk_tcp_sock (saddr x) (daddr x) (sport x) (dport x) (bound x) (connected x) (shutdown x) v (sk_err x) (rcv_queue x) (listener x) (accept_on x) (state x) (iss x) (irs x) (snd_una x) (snd_nxt x) (snd_wnd x) (rcv_nxt x) (rcv_wnd x) (mss x) (backlog x) (accept_backlog x) (accept_queue x) (tx_kind x) (tx_buf x) (tx_data x) (tx_len x) (tx_seq x) (tx_retries x) (rto_deadline_ns x) (orphan x) (created_ns x) (time_wait_deadline_ns x) (fin_wait2_deadline_ns x) (err x).
Definition set_sk_err (v : Z) (x : tcp_sock) : tcp_sock := mk_tcp_sock (saddr x) (daddr x) (sport x) (dport x) (bound x) (connected x) (shutdown x) (eof x) v (rcv_queue x) (listener x) (accept_on x) (state x) (iss x) (irs x) (snd_una x) (snd_nxt x) (snd_wnd x) (rcv_nxt x) (rcv_wnd x) (mss x) (backlog x) (accept_backlog x) (accept_queue x) (tx_kind x) (tx_buf x) (tx_data x) (tx_len x) (tx_seq x) (tx_retries x) (rto_deadline_ns x) (orphan x) (created_ns x) (time_wait_deadline_ns x) (fin_wait2_deadline_ns x) (err x).
Definition set_rcv_queue (v : list skb) (x : tcp_sock) : tcp_sock := mk_tcp_sock (saddr x) (daddr x) (sport x) (dport x) (bound x) (connected x) (shutdown x) (eof x) (sk_err x) v (listener x) (accept_on x) (state x) (iss x) (irs x) (snd_una x) (snd_nxt x) (snd_wnd x) (rcv_nxt x) (rcv_wnd x) (mss x) (backlog x) (accept_backlog x) (accept_queue x) (tx_kind x) (tx_buf x) (tx_data x) (tx_len x) (tx_seq x) (tx_retries x) (rto_deadline_ns x) (orphan x) (created_ns x) (time_wait_deadline_ns x) (fin_wait2_deadline_ns x) (err x).
Definition set_listener (v : option Z) (x : tcp_sock) : tcp_sock := mk_tcp_sock (saddr x) (daddr x) (sport x) (dport x) (bound x) (connected x) (shutdown x) (eof x) (sk_err x) (rcv_queue x) v (accept_on x) (state x) (iss x) (irs x) (snd_una x) (snd_nxt x) (snd_wnd x) (rcv_nxt x) (rcv_wnd x) (mss x) (backlog x) (accept_backlog x) (accept_queue x) (tx_kind x) (tx_buf x) (tx_data x) (tx_len x) (tx_seq x) (tx_retries x) (rto_deadline_ns x) (orphan x) (created_ns x) (time_wait_deadline_ns x) (fin_wait2_deadline_ns x) (err x).
Definition set_accept_on (v : option Z) (x : tcp_sock) : tcp_sock := mk_tcp_sock (saddr x) (daddr x) (sport x) (dport x) (bound x) (connected x) (shutdown x) (eof x) (sk_err x) (rcv_queue x) (listener x) v (state x) (iss x) (irs x) (snd_una x) (snd_nxt x) (snd_wnd x) (rcv_nxt x) (rcv_wnd x) (mss x) (backlog x) (accept_backlog x) (accept_queue x) (tx_kind x) (tx_buf x) (tx_data x) (tx_len x) (tx_seq x) (tx_retries x) (rto_deadline_ns x) (orphan x) (created_ns x) (time_wait_deadline_ns x) (fin_wait2_deadline_ns x) (err x).
Definition set_state (v : tcp_state) (x : tcp_sock) : tcp_sock := mk_tcp_sock (saddr x) (daddr x) (sport x) (dport x) (bound x) (connected x) (shutdown x) (eof x) (sk_err x) (rcv_queue x) (listener x) (accept_on x) v (iss x) (irs x) (snd_una x) (snd_nxt x) (snd_wnd x) (rcv_nxt x) (rcv_wnd x) (mss x) (backlog x) (accept_backlog x) (accept_queue x) (tx_kind x) (tx_buf x) (tx_data x) (tx_len x) (tx_seq x) (tx_retries x) (rto_deadline_ns x) (orphan x) (created_ns x) (time_wait_deadline_ns x) (fin_wait2_deadline_ns x) (err x).
Definition set_iss (v : Z) (x : tcp_sock) : tcp_sock := mk_tcp_sock (saddr x) (daddr x) (sport x) (dport x) (bound x) (connected x) (shutdown x) (eof x) (sk_err x) (rcv_queue x) (listener x) (accept_on x) (state x) v (irs x) (snd_una x) (snd_nxt x) (snd_wnd x) (rcv_nxt x) (rcv_wnd x) (mss x) (backlog x) (accept_backlog x) (accept_queue x) (tx_kind x) (tx_buf x) (tx_data x) (tx_len x) (tx_seq x) (tx_retries x) (rto_deadline_ns x) (orphan x) (created_ns x) (time_wait_deadline_ns x) (fin_wait2_deadline_ns x) (err x).
Definition set_irs (v : Z) (x : tcp_sock) : tcp_sock := mk_tcp_sock (saddr x) (daddr x) (sport x) (dport x) (bound x) (connected x) (shutdown x) (eof x) (sk_err x) (rcv_queue x) (listener x) (accept_on x) (state x) (iss x) v (snd_una x) (snd_nxt x) (snd_wnd x) (rcv_nxt x) (rcv_wnd x) (mss x) (backlog x) (accept_backlog x) (accept_queue x) (tx_kind x) (tx_buf x) (tx_data x) (tx_len x) (tx_seq x) (tx_retries x) (rto_deadline_ns x) (orphan x) (created_ns x) (time_wait_deadline_ns x) (fin_wait2_deadline_ns x) (err x).
Definition set_snd_una (v : Z) (x : tcp_sock) : tcp_sock := mk_tcp_sock (saddr x) (daddr x) (sport x) (dport x) (bound x) (connected x) (shutdown x) (eof x) (sk_err x) (rcv_queue x) (listener x) (accept_on x) (state x) (iss x) (irs x) v (snd_nxt x) (snd_wnd x) (rcv_nxt x) (rcv_wnd x) (mss x) (backlog x) (accept_backlog x) (accept_queue x) (tx_kind x) (tx_buf x) (tx_data x) (tx_len x) (tx_seq x) (tx_retries x) (rto_deadline_ns x) (orphan x) (created_ns x) (time_wait_deadline_ns x) (fin_wait2_deadline_ns x) (err x).
Definition set_snd_nxt (v : Z) (x : tcp_sock) : tcp_sock := mk_tcp_sock (saddr x) (daddr x) (sport x) (dport x) (bound x) (connected x) (shutdown x) (eof x) (sk_err x) (rcv_queue x) (listener x) (accept_on x) (state x) (iss x) (irs x) (snd_una x) v (snd_wnd x) (rcv_nxt x) (rcv_wnd x) (mss x) (backlog x) (accept_backlog x) (accept_queue x) (tx_kind x) (tx_buf x) (tx_data x) (tx_len x) (tx_seq x) (tx_retries x) (rto_deadline_ns x) (orphan x) (created_ns x) (time_wait_deadline_ns x) (fin_wait2_deadline_ns x) (err x).
Definition set_snd_wnd (v : Z) (x : tcp_sock) : tcp_sock := mk_tcp_sock (saddr x) (daddr x) (sport x) (dport x) (bound x) (connected x) (shutdown x) (eof x) (sk_err x) (rcv_queue x) (listener x) (accept_on x) (state x) (iss x) (irs x) (snd_una x) (snd_nxt x) v (rcv_nxt x) (rcv_wnd x) (mss x) (backlog x) (accept_backlog x) (accept_queue x) (tx_kind x) (tx_buf x) (tx_data x) (tx_len x) (tx_seq x) (tx_retries x) (rto_deadline_ns x) (orphan x) (created_ns x) (time_wait_deadline_ns x) (fin_wait2_deadline_ns x) (err x).
Definition set_rcv_nxt (v : Z) (x : tcp_sock) : tcp_sock := mk_tcp_sock (saddr x) (daddr x) (sport x) (dport x) (bound x) (connected x) (shutdown x) (eof x) (sk_err x) (rcv_queue x) (listener x) (accept_on x) (state x) (iss x) (irs x) (snd_una x) (snd_nxt x) (snd_wnd x) v (rcv_wnd x) (mss x) (backlog x) (accept_backlog x) (accept_queue x) (tx_kind x) (tx_buf x) (tx_data x) (tx_len x) (tx_seq x) (tx_retries x) (rto_deadline_ns x) (orphan x) (created_ns x) (time_wait_deadline_ns x) (fin_wait2_deadline_ns x) (err x).
Definition set_mss (v : Z) (x : tcp_sock) : tcp_sock := mk_tcp_sock (saddr x) (daddr x) (sport x) (dport x) (bound x) (connected x) (shutdown x) (eof x) (sk_err x) (rcv_queue x) (listener x) (accept_on x) (state x) (iss x) (irs x) (snd_una x) (snd_nxt x) (snd_wnd x) (rcv_nxt x) (rcv_wnd x) v (backlog x) (accept_backlog x) (accept_queue x) (tx_kind x) (tx_buf x) (tx_data x) (tx_len x) (tx_seq x) (tx_retries x) (rto_deadline_ns x) (orphan x) (created_ns x) (time_wait_deadline_ns x) (fin_wait2_deadline_ns x) (err x).
Definition set_backlog (v : Z) (x : tcp_sock) : tcp_sock := mk_tcp_sock (saddr x) (daddr x) (sport x) (dport x) (bound x) (connected x) (shutdown x) (eof x) (sk_err x) (rcv_queue x) (listener x) (accept_on x) (state x) (iss x) (irs x) (snd_una x) (snd_nxt x) (snd_wnd x) (rcv_nxt x) (rcv_wnd x) (mss x) v (accept_backlog x) (accept_queue x) (tx_kind x) (tx_buf x) (tx_data x) (tx_len x) (tx_seq x) (tx_retries x) (rto_deadline_ns x) (orphan x) (created_ns x) (time_wait_deadline_ns x) (fin_wait2_deadline_ns x) (err x).
Definition set_accept_backlog (v : Z) (x : tcp_sock) : tcp_sock := mk_tcp_sock (saddr x) (daddr x) (sport x) (dport x) (bound x) (connected x) (shutdown x) (eof x) (sk_err x) (rcv_queue x) (listener x) (accept_on x) (state x) (iss x) (irs x) (snd_una x) (snd_nxt x) (snd_wnd x) (rcv_nxt x) (rcv_wnd x) (mss x) (backlog x) v (accept_queue x) (tx_kind x) (tx_buf x) (tx_data x) (tx_len x) (tx_seq x) (tx_retries x) (rto_deadline_ns x) (orphan x) (created_ns x) (time_wait_deadline_ns x) (fin_wait2_deadline_ns x) (err x).
Definition set_accept_queue (v : list Z) (x : tcp_sock) : tcp_sock := mk_tcp_sock (saddr x) (daddr x) (sport x) (dport x) (bound x) (connected x) (shutdown x) (eof x) (sk_err x) (rcv_queue x) (listener x) (accept_on x) (state x) (iss x) (irs x) (snd_una x) (snd_nxt x) (snd_wnd x) (rcv_nxt x) (rcv_wnd x) (mss x) (backlog x) (accept_backlog x) v (tx_kind x) (tx_buf x) (tx_data x) (tx_len x) (tx_seq x) (tx_retries x) (rto_deadline_ns x) (orphan x) (created_ns x) (time_wait_deadline_ns x) (fin_wait2_deadline_ns x) (err x).
Definition set_tx_kind (v : tcp_tx_kind) (x : tcp_sock) : tcp_sock := mk_tcp_sock (saddr x) (daddr x) (sport x) (dport x) (bound x) (connected x) (shutdown x) (eof x) (sk_err x) (rcv_queue x) (listener x) (accept_on x) (state x) (iss x) (irs x) (snd_una x) (snd_nxt x) (snd_wnd x) (rcv_nxt x) (rcv_wnd x) (mss x) (backlog x) (accept_backlog x) (accept_queue x) v (tx_buf x) (tx_data x) (tx_len x) (tx_seq x) (tx_retries x) (rto_deadline_ns x) (orphan x) (created_ns x) (time_wait_deadline_ns x) (fin_wait2_deadline_ns x) (err x).
Definition set_tx_buf (v : Z) (x : tcp_sock) : tcp_sock := mk_tcp_sock (saddr x) (daddr x) (sport x) (dport x) (bound x) (connected x) (shutdown x) (eof x) (sk_err x) (rcv_queue x) (listener x) (accept_on x) (state x) (iss x) (irs x) (snd_una x) (snd_nxt x) (snd_wnd x) (rcv_nxt x) (rcv_wnd x) (mss x) (backlog x) (accept_backlog x) (accept_queue x) (tx_kind x) v (tx_data x) (tx_len x) (tx_seq x) (tx_retries x) (rto_deadline_ns x) (orphan x) (created_ns x) (time_wait_deadline_ns x) (fin_wait2_deadline_ns x) (err x).
Definition set_tx_data (v : list Z) (x : tcp_sock) : tcp_sock := mk_tcp_sock (saddr x) (daddr x) (sport x) (dport x) (bound x) (connected x) (shutdown x) (eof x) (sk_err x) (rcv_queue x) (listener x) (accept_on x) (state x) (iss x) (irs x) (snd_una x) (snd_nxt x) (snd_wnd x) (rcv_nxt x) (rcv_wnd x) (mss x) (backlog x) (accept_backlog x) (accept_queue x) (tx_kind x) (tx_buf x) v (tx_len x) (tx_seq x) (tx_retries x) (rto_deadline_ns x) (orphan x) (created_ns x) (time_wait_deadline_ns x) (fin_wait2_deadline_ns x) (err x).
Definition set_tx_len (v : Z) (x : tcp_sock) : tcp_sock := mk_tcp_sock (saddr x) (daddr x) (sport x) (dport x) (bound x) (connected x) (shutdown x) (eof x) (sk_err x) (rcv_queue x) (listener x) (accept_on x) (state x) (iss x) (irs x) (snd_una x) (snd_nxt x) (snd_wnd x) (rcv_nxt x) (rcv_wnd x) (mss x) (backlog x) (accept_backlog x) (accept_queue x) (tx_kind x) (tx_buf x) (tx_data x) v (tx_seq x) (tx_retries x) (rto_deadline_ns x) (orphan x) (created_ns x) (time_wait_deadline_ns x) (fin_wait2_deadline_ns x) (err x).
Definition set_tx_seq (v : Z) (x : tcp_sock) : tcp_sock := mk_tcp_sock (saddr x) (daddr x) (sport x) (dport x) (bound x) (connected x) (shutdown x) (eof x) (sk_err x) (rcv_queue x) (listener x) (accept_on x) (state x) (iss x) (irs x) (snd_una x) (snd_nxt x) (snd_wnd x) (rcv_nxt x) (rcv_wnd x) (mss x) (backlog x) (accept_backlog x) (accept_queue x) (tx_kind x) (tx_buf x) (tx_data x) (tx_len x) v (tx_retries x) (rto_deadline_ns x) (orphan x) (created_ns x) (time_wait_deadline_ns x) (fin_wait2_deadline_ns x) (err x).
Definition set_tx_retries (v : Z) (x : tcp_sock) : tcp_sock := mk_tcp_sock (saddr x) (daddr x) (sport x) (dport x) (bound x) (connected x) (shutdown x) (eof x) (sk_err x) (rcv_queue x) (listener x) (accept_on x) (state x) (iss x) (irs x) (snd_una x) (snd_nxt x) (snd_wnd x) (rcv_nxt x) (rcv_wnd x) (mss x) (backlog x) (accept_backlog x) (accept_queue x) (tx_kind x) (tx_buf x) (tx_data x) (tx_len x) (tx_seq x) v (rto_deadline_ns x) (orphan x) (created_ns x) (time_wait_deadline_ns x) (fin_wait2_deadline_ns x) (err x).
Definition set_rto_deadline_ns (v : Z) (x : tcp_sock) : tcp_sock := mk_tcp_sock (saddr x) (daddr x) (sport x) (dport x) (bound x) (connected x) (shutdown x) (eof x) (sk_err x) (rcv_queue x) (listener x) (accept_on x) (state x) (iss x) (irs x) (snd_una x) (snd_nxt x) (snd_wnd x) (rcv_nxt x) (rcv_wnd x) (mss x) (backlog x) (accept_backlog x) (accept_queue x) (tx_kind x) (tx_buf x) (tx_data x) (tx_len x) (tx_seq x) (tx_retries x) v (orphan x) (created_ns x) (time_wait_deadline_ns x) (fin_wait2_deadline_ns x) (err x).
Definition set_orphan (v : bool) (x : tcp_sock) : tcp_sock := mk_tcp_sock (saddr x) (daddr x) (sport x) (dport x) (bound x) (connected x) (shutdown x) (eof x) (sk_err x) (rcv_queue x) (listener x) (accept_on x) (state x) (iss x) (irs x) (snd_una x) (snd_nxt x) (snd_wnd x) (rcv_nxt x) (rcv_wnd x) (mss x) (backlog x) (accept_backlog x) (accept_queue x) (tx_kind x) (tx_buf x) (tx_data x) (tx_len x) (tx_seq x) (tx_retries x) (rto_deadline_ns x) v (created_ns x) (time_wait_deadline_ns x) (fin_wait2_deadline_ns x) (err x).
Definition set_created_ns (v : Z) (x : tcp_sock) : tcp_sock := mk_tcp_sock (saddr x) (daddr x) (sport x) (dport x) (bound x) (connected x) (shutdown x) (eof x) (sk_err x) (rcv_queue x) (listener x) (accept_on x) (state x) (iss x) (irs x) (snd_una x) (snd_nxt x) (snd_wnd x) (rcv_nxt x) (rcv_wnd x) (mss x) (backlog x) (accept_backlog x) (accept_queue x) (tx_kind x) (tx_buf x) (tx_data x) (tx_len x) (tx_seq x) (tx_retries x) (rto_deadline_ns x) (orphan x) v (time_wait_deadline_ns x) (fin_wait2_deadline_ns x) (err x).
Definition set_time_wait_deadline_ns (v : Z) (x : tcp_sock) : tcp_sock := mk_tcp_sock (saddr x) (daddr x) (sport x) (dport x) (bound x) (connected x) (shutdown x) (eof x) (sk_err x) (rcv_queue x) (listener x) (accept_on x) (state x) (iss x) (irs x) (snd_una x) (snd_nxt x) (snd_wnd x) (rcv_nxt x) (rcv_wnd x) (mss x) (backlog x) (accept_backlog x) (accept_queue x) (tx_kind x) (tx_buf x) (tx_data x) (tx_len x) (tx_seq x) (tx_retries x) (rto_deadline_ns x) (orphan x) (created_ns x) v (fin_wait2_deadline_ns x) (err x).
Definition set_fin_wait2_deadline_ns (v : Z) (x : tcp_sock) : tcp_sock := mk_tcp_sock (saddr x) (daddr x) (sport x) (dport x) (bound x) (connected x) (shutdown x) (eof x) (sk_err x) (rcv_queue x) (listener x) (accept_on x) (state x) (iss x) (irs x) (snd_una x) (snd_nxt x) (snd_wnd x) (rcv_nxt x) (rcv_wnd x) (mss x) (backlog x) (accept_backlog x) (accept_queue x) (tx_kind x) (tx_buf x) (tx_data x) (tx_len x) (tx_seq x) (tx_retries x) (rto_deadline_ns x) (orphan x) (created_ns x) (time_wait_deadline_ns x) v (err x).
Definition set_err (v : Z) (x : tcp_sock) : tcp_sock := mk_tcp_sock (saddr x) (daddr x) (sport x) (dport x) (bound x) (connected x) (shutdown x) (eof x) (sk_err x) (rcv_queue x) (listener x) (accept_on x) (state x) (iss x) (irs x) (snd_una x) (snd_nxt x) (snd_wnd x) (rcv_nxt x) (rcv_wnd x) (mss x) (backlog x) (accept_backlog x) (accept_queue x) (tx_kind x) (tx_buf x) (tx_data x) (tx_len x) (tx_seq x) (tx_retries x) (rto_deadline_ns x) (orphan x) (created_ns x) (time_wait_deadline_ns x) (fin_wait2_deadline_ns x) v.

(** The sockets, the list of bound ones, and the static variables. *)
Record tcp : Type := mk_tcp {
  socks : gmap Z tcp_sock;
  tcp_socks : list Z;
  tcp_ephemeral : Z;
  isn_counter : Z;
  next_run : Z }.

Definition set_socks (v : gmap Z tcp_sock) (x : tcp) : tcp := mk_tcp v (tcp_socks x) (tcp_ephemeral x) (isn_counter x) (next_run x).
Definition set_tcp_socks (v : list Z) (x : tcp) : tcp := mk_tcp (socks x) v (tcp_ephemeral x) (isn_counter x) (next_run x).
Definition set_tcp_ephemeral (v : Z) (x : tcp) : tcp := mk_tcp (socks x) (tcp_socks x) v (isn_counter x) (next_run x).
Definition set_isn_counter (v : Z) (x : tcp) : tcp := mk_tcp (socks x) (tcp_socks x) (tcp_ephemeral x) v (next_run x).
Definition set_next_run (v : Z) (x : tcp) : tcp := mk_tcp (socks x) (tcp_socks x) (tcp_ephemeral x) (isn_counter x) v.

Definition tcp_seq_after (a b : Z) : bool := 0 <? s32 (a - b).
Definition tcp_seq_geq (a b : Z) : bool := 0 <=? s32 (a - b).

Definition has (flags bit : Z) : bool := negb (Z.land flags bit =? 0).

Definition htonl (x : Z) : Z := le_dec (rev (le_enc 4 x)).

(** ** Segments on the wire *)

(** The header as [tcp_build_segment] fills it in. *)
Definition tcphdr (src dst seq ack : Z) (with_mss : bool) (flags window check : Z) : list Z :=
  le_enc 2 (htons src) ++ le_enc 2 (htons dst) ++ le_enc 4 (htonl seq) ++ le_enc 4 (htonl ack) ++
  [u8 (Z.shiftl (5 + (if with_mss then 1 else 0)) 4); flags] ++ le_enc 2 (htons window) ++ le_enc 2 check ++ [0; 0].

Definition mss_option : list Z := [TCP_OPT_MSS; 4; u8 (Z.shiftr TCP_MSS 8); u8 TCP_MSS].

Definition pseudo (len : Z) : list Z := [0; IPPROTO_TCP; u8 (Z.shiftr len 8); u8 len].

Definition tcp_checksum (saddr daddr : Z) (th : list Z) : res Z :=
  let sum := inet_csum_add 0 (le_enc 4 saddr) in
  let sum := inet_csum_add sum (le_enc 4 daddr) in
  let sum := inet_csum_add sum (pseudo (Z.of_nat (length th))) in
  let sum := inet_csum_add sum th in
  inet_csum_fold sum.

(** The segment with its checksum. *)
Definition fill_check (saddr daddr src dst seq ack : Z) (with_mss : bool) (flags window : Z) (data : list Z) : res (list Z) :=
  let rest := (if with_mss then mss_option else []) ++ data in
  let! check := tcp_checksum saddr daddr (tcphdr src dst seq ack with_mss flags window 0 ++ rest) in
  let check := if check =? 0 then htons 0xffff else check in
  Ret (tcphdr src dst seq ack with_mss flags window check ++ rest).

(** What the IP layer answers: an error or the address of the output device;
    whether a buffer is to be had; the result of sending from one address to another. *)
Record net : Type := mk_net { ip_route_output : Z -> Z + Z; skb_alloc : bool; ip_output : Z -> Z -> list Z -> Z }.

(** An error, or the source address and the segment. *)
Definition tcp_build_segment (n : net) (t : tcp_sock) (seq ack flags : Z) (data : list Z) (with_mss : bool) : res (Z + Z * list Z) :=
  if daddr t =? 0 then Ret (inl (- EDESTADDRREQ))
  else
    match ip_route_output n (daddr t) with
    | inl e => Ret (inl e)
    | inr ip_addr =>
        let src := if saddr t =? 0 then ip_addr else saddr t in
        if negb (skb_alloc n) then Ret (inl (- ENOMEM))
        else let! s := fill_check src (daddr t) (sport t) (dport t) seq ack with_mss flags (u16 (rcv_wnd t)) data in Ret (inr (src, s))
    end.

(** A segment as the receiver takes it apart. *)
Record segment : Set := mk_segment {
  g_source : Z; g_dest : Z; g_seq : Z; g_ack : Z; g_flags : Z; g_window : Z; g_mss : Z; g_payload : list Z }.

(** The loop over the options: the value of the last MSS option, 0 without one. *)
Fixpoint options_loop (d : list Z) (opt end_ mss : Z) (fuel : nat) : res Z :=
  if negb (opt <? end_) then Ret mss
  else
    match fuel with
    | O => Halt Fuel
    | S fuel' =>
        let! kind := rd d opt in
        if kind =? TCP_OPT_END then Ret mss
        else if kind =? TCP_OPT_NOP then options_loop d (opt + 1) end_ mss fuel'
        else if end_ <=? opt + 1 then Ret mss
        else
          let! olen := rd d (opt + 1) in
          if (olen <? 2) || (end_ <? opt + olen) then Ret mss
          else
            let! mss := (if (kind =? TCP_OPT_MSS) && (olen =? 4)
                         then let! a := rd d (opt + 2) in let! b := rd d (opt + 3) in Ret (u16 (Z.lor (Z.shiftl a 8) b))
                         else Ret mss) in
            options_loop d (opt + olen) end_ mss fuel'
    end.

(** [tcp_rcv], up to its lock; [None] when the segment is dropped. *)
Definition tcp_parse (saddr daddr : Z) (d : list Z) : res (option segment) :=
  let len := Z.of_nat (length d) in
  if len <? 20 then Ret None
  else
    let! doff_reserved := rd d 12 in
    let doff := Z.shiftr doff_reserved 4 * 4 in
    if (doff <? 20) || (len <? doff) then Ret None
    else
      let! c := tcp_checksum saddr daddr d in
      if negb (c =? 0) then Ret None
      else
        let! source := field d 0 2 in
        let! dest := field d 2 2 in
        let! seq := field d 4 4 in
        let! ack := field d 8 4 in
        let! flags := rd d 13 in
        let! window := field d 14 2 in
        let! m := (if has flags TCP_SYN then options_loop d 20 doff 0 40 else Ret 0) in
        Ret (Some (mk_segment (htons source) (htons dest) (htonl seq) (htonl ack) flags (htons window) m (drop (Z.to_nat doff) d))).

(** ** What a segment does to its socket *)

Definition tcp_clear_tx_locked (t : tcp_sock) : tcp_sock :=
  set_rto_deadline_ns 0 (set_tx_retries 0 (set_tx_kind TCP_TX_NONE (set_tx_len 0 (set_tx_data [] (set_tx_buf 0 t))))).

Definition tcp_set_error_locked (e : Z) (t : tcp_sock) : tcp_sock :=
  set_eof true (set_sk_err e (tcp_clear_tx_locked (set_state TCP_CLOSE (set_err e t)))).

Definition peer_mss (m : Z) : Z := if m =? 0 then TCP_DEFAULT_MSS else Z.min m TCP_MSS.

(** A segment to be sent behind the lock: sequence and acknowledgement number, flags, whether with the MSS option. *)
Definition reply : Type := Z * Z * Z * bool.

Definition rcv_rst (t : tcp_sock) : tcp_sock :=
  tcp_set_error_locked (if decide (state t = TCP_SYN_SENT) then - ECONNREFUSED else - ECONNRESET) t.

Definition rcv_syn_sent (g : segment) (t : tcp_sock) : tcp_sock * option reply * bool :=
  if (Z.land (g_flags g) (Z.lor TCP_SYN TCP_ACK) =? Z.lor TCP_SYN TCP_ACK) && (g_ack g =? snd_nxt t) then
    let t := set_mss (peer_mss (g_mss g)) (set_snd_wnd (g_window g) (set_snd_nxt (g_ack g) (set_snd_una (g_ack g)
               (set_rcv_nxt (u32 (g_seq g + 1)) (set_irs (g_seq g) t))))) in
    let t := tcp_clear_tx_locked (set_connected true (set_state TCP_ESTABLISHED t)) in
    (t, Some (snd_nxt t, rcv_nxt t, TCP_ACK, false), true)
  else (t, None, false).

(** The synchronise-acknowledge of a half-open connection. *)
Definition syn_ack (t : tcp_sock) : reply := (iss t, rcv_nxt t, Z.lor TCP_SYN TCP_ACK, true).

Definition rcv_ack (g : segment) (t : tcp_sock) : tcp_sock * bool :=
  if has (g_flags g) TCP_ACK then
    let t := if tcp_seq_after (g_ack g) (snd_una t) && negb (tcp_seq_after (g_ack g) (snd_nxt t)) then set_snd_una (g_ack g) t else t in
    let '(t, wake) := if decide (tx_kind t = TCP_TX_DATA) then
                        if tcp_seq_geq (g_ack g) (u32 (tx_seq t + tx_len t)) then (tcp_clear_tx_locked t, true) else (t, false)
                      else (t, false) in
    if decide (tx_kind t = TCP_TX_FIN) then
      if tcp_seq_geq (g_ack g) (u32 (tx_seq t + 1)) then (tcp_clear_tx_locked t, true) else (t, wake)
    else (t, wake)
  else (t, false).

Definition ack_now (t : tcp_sock) : option reply := Some (snd_nxt t, rcv_nxt t, TCP_ACK, false).

Definition rcv_payload (cb_saddr cb_daddr : Z) (g : segment) (t : tcp_sock) : tcp_sock * option reply * bool :=
  let len := Z.of_nat (length (g_payload g)) in
  if len =? 0 then (t, None, false)
  else if g_seq g =? rcv_nxt t then
    if orphan t then let t := set_rcv_nxt (u32 (rcv_nxt t + len)) t in (t, ack_now t, false)
    else if Z.of_nat (length (rcv_queue t)) <? TCP_RCV_QUEUE_MAX then
      let t := set_rcv_nxt (u32 (rcv_nxt t + len))
                 (set_rcv_queue (rcv_queue t ++ [mk_skb (g_payload g) cb_saddr cb_daddr (g_source g) (g_dest g)]) t) in
      (t, ack_now t, true)
    else (t, None, false)
  else (t, ack_now t, false).

Definition rcv_fin (now : Z) (g : segment) (t : tcp_sock) : tcp_sock * option reply * bool :=
  if has (g_flags g) TCP_FIN then
    if u32 (g_seq g + Z.of_nat (length (g_payload g))) =? rcv_nxt t then
      let t := set_rcv_nxt (u32 (rcv_nxt t + 1)) t in
      let t := match state t with
               | TCP_ESTABLISHED => set_state TCP_CLOSE_WAIT t
               | TCP_FIN_WAIT_1 | TCP_FIN_WAIT_2 => set_time_wait_deadline_ns (u64 (now + TCP_TIME_WAIT_NS)) (set_state TCP_TIME_WAIT t)
               | _ => t
               end in
      let t := set_eof true t in
      (t, ack_now t, true)
    else (t, ack_now t, false)
  else (t, None, false).

Definition rcv_closing (now : Z) (g : segment) (t : tcp_sock) : tcp_sock :=
  let acked := has (g_flags g) TCP_ACK && (g_ack g =? snd_nxt t) in
  let t := if decide (state t = TCP_FIN_WAIT_1) then
             if acked then set_fin_wait2_deadline_ns (u64 (now + TCP_FIN_WAIT2_NS)) (set_state TCP_FIN_WAIT_2 t) else t
           else t in
  if decide (state t = TCP_LAST_ACK) then if acked then set_state TCP_CLOSE t else t else t.

(** The later of two replies. *)
Definition later (a b : option reply) : option reply := match b with Some _ => b | None => a end.

(** From the acknowledgement on. *)
Definition rcv_data (now cb_saddr cb_daddr : Z) (g : segment) (t : tcp_sock) : tcp_sock * option reply * bool :=
  let '(t, w1) := rcv_ack g t in
  let '(t, r1, w2) := rcv_payload cb_saddr cb_daddr g t in
  let '(t, r2, w3) := rcv_fin now g t in
  (rcv_closing now g t, later r1 r2, w1 || w2 || w3).

(** A socket that is not listening: its new state, the reply, whether its
    sleepers are woken, and whether it is put on the accept queue of its listener. *)
Definition rcv_sock (now cb_saddr cb_daddr : Z) (g : segment) (t : tcp_sock) : tcp_sock * option reply * bool * bool :=
  if has (g_flags g) TCP_RST then (rcv_rst t, None, true, false)
  else
    match state t with
    | TCP_SYN_SENT => (rcv_syn_sent g t, false)
    | TCP_SYN_RECV =>
        if has (g_flags g) TCP_SYN && negb (has (g_flags g) TCP_ACK) then (t, Some (syn_ack t), false, false)
        else if negb (has (g_flags g) TCP_ACK) || negb (g_ack g =? snd_nxt t) then (t, None, false, false)
        else
          let t := set_connected true (set_state TCP_ESTABLISHED (set_snd_wnd (g_window g) (set_snd_una (g_ack g) t))) in
          let joins := bool_decide (listener t <> None) && bool_decide (accept_on t = None) in
          let t := if joins then set_accept_on (listener t) t else t in
          (rcv_data now cb_saddr cb_daddr g t, joins)
    | _ => (rcv_data now cb_saddr cb_daddr g t, false)
    end.

(** ** The table *)

Definition get (st : tcp) (id : Z) : res tcp_sock := match socks st !! id with Some t => Ret t | None => Halt Fault end.
Definition put (st : tcp) (id : Z) (t : tcp_sock) : tcp := set_socks (<[id := t]> (socks st)) st.
Definition kfree (st : tcp) (id : Z) : tcp := set_socks (delete id (socks st)) st.

Definition tcp_alloc_sock : tcp_sock :=
  mk_tcp_sock 0 0 0 0 false false false false 0 [] None None TCP_CLOSE 0 0 0 0 0 0 TCP_RCV_WND TCP_DEFAULT_MSS 0 0 [] TCP_TX_NONE 0 [] 0 0 0 0 false 0 0 0 0.

Definition tcp_isn (st : tcp) (now : Z) : tcp * Z :=
  let c := u32 (isn_counter st + 0x9e3779b9) in (set_isn_counter c st, u32 (u32 now + c)).

Definition tcp_unlink_locked (st : tcp) (id : Z) : res tcp :=
  let! t := get st id in
  let st := set_tcp_socks (filter (fun i => i <> id) (tcp_socks st)) st in
  match accept_on t with
  | None => Ret st
  | Some l =>
      let! lt := get st l in
      let st := put st l (set_accept_queue (filter (fun i => i <> id) (accept_queue lt)) lt) in
      let! t := get st id in
      Ret (put st id (set_accept_on None t))
  end.

(** Walks of [tcp_socks]: the first socket that satisfies [p]. *)
Fixpoint find_sock (st : tcp) (p : tcp_sock -> bool) (l : list Z) : res (option Z) :=
  match l with
  | [] => Ret None
  | id :: l' => let! t := get st id in if p t then Ret (Some id) else find_sock st p l'
  end.

Definition tcp_lookup_exact_locked (st : tcp) (src sp dst dp : Z) : res (option Z) :=
  find_sock st (fun t => (sport t =? dp) && (daddr t =? src) && (dport t =? sp) && ((saddr t =? 0) || (saddr t =? dst))) (tcp_socks st).

Definition tcp_lookup_listener_locked (st : tcp) (dst dp : Z) : res (option Z) :=
  find_sock st (fun t => bool_decide (state t = TCP_LISTEN) && (sport t =? dp) && ((saddr t =? 0) || (saddr t =? dst))) (tcp_socks st).

Definition uses_port (laddr lport : Z) (t : tcp_sock) : bool :=
  (sport t =? lport) && ((laddr =? 0) || (saddr t =? 0) || (saddr t =? laddr)).

Definition tcp_port_in_use_locked (st : tcp) (laddr lport : Z) : res bool :=
  let! o := find_sock st (uses_port laddr lport) (tcp_socks st) in Ret (bool_decide (o <> None)).

(** [tcp_ephemeral++], staying in the range. *)
Definition next_ephemeral (port : Z) : Z := let e := u16 (port + 1) in if e <? TCP_EPHEMERAL_START then TCP_EPHEMERAL_START else e.

Fixpoint port_loop (st : tcp) (laddr : Z) (turns : nat) : res (tcp * Z) :=
  match turns with
  | O => Ret (st, 0)
  | S turns' =>
      let port := tcp_ephemeral st in
      let st := set_tcp_ephemeral (next_ephemeral port) st in
      let! used := tcp_port_in_use_locked st laddr port in
      if used then port_loop st laddr turns' else Ret (st, port)
  end.

Definition tcp_alloc_port_locked (st : tcp) (laddr : Z) : res (tcp * Z) :=
  port_loop st laddr (Z.to_nat (TCP_EPHEMERAL_END - TCP_EPHEMERAL_START + 1)).

Definition tcp_autobind (st : tcp) (id : Z) : res (tcp * Z) :=
  let! t := get st id in
  if bound t then Ret (st, 0)
  else
    let! r := tcp_alloc_port_locked st (saddr t) in
    let (st, port) := r in
    if port =? 0 then Ret (st, - EADDRINUSE)
    else Ret (set_tcp_socks (tcp_socks st ++ [id]) (put st id (set_bound true (set_sport port t))), 0).

(** A packet handed to the IP layer: from, to, contents. *)
Definition packet : Type := Z * Z * list Z.

Definition tcp_xmit_skb (n : net) (src dst : Z) (d : list Z) : Z * list packet :=
  let e := ip_output n src dst d in
  if e =? - EAGAIN then (0, [(src, dst, d)]) else (e, if e =? 0 then [(src, dst, d)] else []).

Definition tcp_send_segment (n : net) (t : tcp_sock) (seq ack flags : Z) (data : list Z) (with_mss : bool) : res (Z * list packet) :=
  let! b := tcp_build_segment n t seq ack flags data with_mss in
  match b with inl e => Ret (e, []) | inr (src, d) => Ret (tcp_xmit_skb n src (daddr t) d) end.

Definition tcp_create_child (st : tcp) (now new lid : Z) (l : tcp_sock) (src sp dst dp seq window m : Z) : tcp :=
  let (st, i) := tcp_isn st now in
  let t := tcp_alloc_sock in
  let t := set_saddr (if saddr l =? 0 then dst else saddr l) (set_sport dp (set_daddr src (set_dport sp (set_bound true (set_connected true t))))) in
  let t := set_listener (Some lid) (set_state TCP_SYN_RECV (set_irs seq (set_rcv_nxt (u32 (seq + 1)) t))) in
  let t := set_iss i (set_snd_una i (set_snd_nxt (u32 (i + 1)) (set_snd_wnd window t))) in
  let t := set_created_ns now (set_mss (peer_mss m) t) in
  set_tcp_socks (tcp_socks st ++ [new]) (put st new t).

(** The socket a segment is for, which a listener may have to create, and then the reply of the new one. *)
Definition rcv_target (st : tcp) (now : Z) (alloc : option Z) (src dst : Z) (g : segment) : res (tcp * option Z * option reply) :=
  let! found := tcp_lookup_exact_locked st src (g_source g) dst (g_dest g) in
  match found with
  | Some id => Ret (st, Some id, None)
  | None =>
      if Z.land (g_flags g) (Z.lor TCP_SYN TCP_ACK) =? TCP_SYN then
        let! lo := tcp_lookup_listener_locked st dst (g_dest g) in
        match lo, alloc with
        | Some lid, Some new =>
            let! l := get st lid in
            let st := tcp_create_child st now new lid l src (g_source g) dst (g_dest g) (g_seq g) (g_window g) (g_mss g) in
            let! t := get st new in
            Ret (st, Some new, Some (syn_ack t))
        | _, _ => Ret (st, None, None)
        end
      else Ret (st, None, None)
  end.

(** What [tcp_rcv] and [tcp_release] still have to do with a socket when they drop [tcp_lock]: send a reply; send the FIN
    of a socket that was let go and then empty its queue; empty its queue.  By then the socket may be gone. *)
Inductive late_work : Type := LateReply (id : Z) (r : reply) | LateFin (id seq ack : Z) | LatePurge (id : Z).

Definition late_sock (w : late_work) : Z := match w with LateReply id _ | LateFin id _ _ | LatePurge id => id end.

(** It follows the pointer it has kept: the table, the packets sent and what is left to do then. *)
Definition run_late (n : net) (w : late_work) (st : tcp) : res (tcp * list packet * list late_work) :=
  match w with
  | LateReply id (seq, ack, flags, m) =>
      let! t := get st id in
      let! s := tcp_send_segment n t seq ack flags [] m in
      Ret (st, snd s, [])
  | LateFin id seq ack =>
      let! t := get st id in
      let! s := tcp_send_segment n t seq ack (Z.lor TCP_FIN TCP_ACK) [] false in
      Ret (st, snd s, [LatePurge id])
  | LatePurge id =>
      let! t := get st id in
      Ret (put st id (set_rcv_queue [] t), [], [])
  end.

(** [tcp_rcv], up to where it drops the lock: the new table, the result, what is left to do and the sockets whose sleepers
    are woken ([task_wake_all] takes the address of a socket, and does not follow it). *)
Definition tcp_rcv (st : tcp) (now : Z) (alloc : option Z) (src dst : Z) (d : list Z) : res (tcp * Z * list late_work * list Z) :=
  let! p := tcp_parse src dst d in
  match p with
  | None => Ret (st, - EINVAL, [], [])
  | Some g =>
      let! r := rcv_target st now alloc src dst g in
      let '(st, found, r0) := r in
      match found with
      | None => Ret (st, - EINVAL, [], [])
      | Some id =>
          let! t := get st id in
          if decide (state t = TCP_LISTEN) then Ret (st, - EINVAL, [], [])
          else
            let '(t, r1, wake, joins) := rcv_sock now src dst g t in
            let st := put st id t in
            let! st :=
              (match listener t with
               | Some l =>
                   if joins then
                     let! lt := get st l in
                     Ret (put st l (set_accept_backlog (u32 (accept_backlog lt + 1)) (set_accept_queue (accept_queue lt ++ [id]) lt)))
                   else Ret st
               | None => Ret st
               end) in
            Ret (st, 0, match later r0 r1 with Some r => [LateReply id r] | None => [] end,
                 (if wake then [id] else []) ++ (if joins then match listener t with Some l => [l] | None => [] end else []))
      end
  end.

(** ** The calls of [tcp_proto_ops] *)

Definition tcp_bind (st : tcp) (id laddr lport : Z) : res (tcp * Z) :=
  let! t := get st id in
  if bound t then Ret (st, - EINVAL)
  else
    let! r := (if lport =? 0 then
                 let! r := tcp_alloc_port_locked st laddr in
                 let (st, port) := r in Ret (st, port, port =? 0)
               else
                 let! used := tcp_port_in_use_locked st laddr lport in Ret (st, lport, used)) in
    let '(st, lport, fails) := r in
    if fails then Ret (st, - EADDRINUSE)
    else Ret (set_tcp_socks (tcp_socks st ++ [id]) (put st id (set_bound true (set_sport lport (set_saddr laddr t)))), 0).

(** [tcp_connect], up to its wait: 0 when the SYN is on its way. *)
Definition tcp_connect (st : tcp) (now : Z) (n : net) (id da dp : Z) : res (tcp * Z * list packet) :=
  let! t := get st id in
  if negb (bool_decide (state t = TCP_CLOSE)) then Ret (st, - EISCONN, [])
  else
    let st := put st id (set_connected true (set_dport dp (set_daddr da t))) in
    let! r := tcp_autobind st id in
    let (st, e) := r in
    if negb (e =? 0) then Ret (st, e, [])
    else
      let (st, i) := tcp_isn st now in
      let! t := get st id in
      let t := set_err 0 (set_state TCP_SYN_SENT (set_rcv_nxt 0 (set_snd_nxt (u32 (i + 1)) (set_snd_una i (set_iss i t))))) in
      let t := tcp_clear_tx_locked (set_shutdown false (set_eof false (set_sk_err 0 t))) in
      let t := set_rto_deadline_ns (u64 (now + TCP_RTO_NS)) (set_tx_retries 0 (set_tx_len 0 (set_tx_seq (iss t) (set_tx_kind TCP_TX_SYN t)))) in
      let! s := tcp_send_segment n t (iss t) 0 TCP_SYN [] true in
      let (e, out) := s in
      if negb (e =? 0) then Ret (put st id (set_state TCP_CLOSE (tcp_clear_tx_locked t)), e, [])
      else Ret (put st id t, 0, out).

(** The wait of [tcp_connect]: [None] while it sleeps. *)
Definition connect_wait (t : tcp_sock) : option Z :=
  if bool_decide (state t = TCP_SYN_SENT) && (err t =? 0) then None
  else Some (if negb (err t =? 0) then err t else if bool_decide (state t = TCP_ESTABLISHED) then 0 else - ECONNREFUSED).

Definition tcp_listen (st : tcp) (id bl : Z) : res (tcp * Z) :=
  let! r := tcp_autobind st id in
  let (st, e) := r in
  if negb (e =? 0) then Ret (st, e)
  else
    let! t := get st id in
    if negb (bool_decide (state t = TCP_CLOSE)) then Ret (st, - EINVAL)
    else Ret (put st id (set_backlog (if 0 <? bl then bl else 1) (set_state TCP_LISTEN t)), 0).

(** One turn of [tcp_accept]: [None] to sleep, an error, or the socket. *)
Definition tcp_accept (st : tcp) (id : Z) (mem : bool) : res (tcp * option (Z + Z)) :=
  let! t := get st id in
  if negb (bool_decide (state t = TCP_LISTEN)) then Ret (st, Some (inl (- EINVAL)))
  else match accept_queue t with
  | [] => if negb (err t =? 0) then Ret (st, Some (inl (err t))) else Ret (st, None)
  | ch :: q =>
      let! c := get st ch in
      let t := set_accept_backlog (if accept_backlog t =? 0 then 0 else accept_backlog t - 1) (set_accept_queue q t) in
      let st := put (put st id t) ch (set_listener None (set_accept_on None c)) in
      if mem then Ret (st, Some (inr ch))
      else let! st := tcp_unlink_locked st ch in Ret (kfree st ch, Some (inl (- ENOMEM)))
  end.

Definition can_send (t : tcp_sock) : bool := bool_decide (state t = TCP_ESTABLISHED) || bool_decide (state t = TCP_CLOSE_WAIT).

(** A turn of [tcp_sendmsg] with the bytes [data] in the buffer [buf]: an error, a sleep, or the numbers of the segment. *)
Inductive send_result : Set := SendErr (e : Z) | SendSleep | SendGo (seq ack : Z).

Definition send_chunk (now buf : Z) (data : list Z) (t : tcp_sock) : tcp_sock * send_result :=
  if negb (err t =? 0) then (t, SendErr (err t))
  else if negb (can_send t) then (t, SendErr (- ENOTCONN))
  else if negb (bool_decide (tx_kind t = TCP_TX_NONE)) then (t, SendSleep)
  else
    let len := Z.of_nat (length data) in
    let seq := snd_nxt t in
    (set_rto_deadline_ns (u64 (now + TCP_RTO_NS)) (set_tx_retries 0 (set_tx_seq seq (set_tx_len (u16 len) (set_tx_data data (set_tx_buf buf
       (set_tx_kind TCP_TX_DATA (set_snd_nxt (u32 (seq + len)) t))))))), SendGo seq (rcv_nxt t)).

(** The segment could not be sent. *)
Definition send_failed (buf seq : Z) (t : tcp_sock) : tcp_sock :=
  if bool_decide (tx_kind t = TCP_TX_DATA) && (tx_buf t =? buf) then set_snd_nxt seq (tcp_clear_tx_locked t) else t.

(** The wait for the acknowledgement. *)
Definition send_wait (t : tcp_sock) : option Z :=
  if (err t =? 0) && bool_decide (tx_kind t = TCP_TX_DATA) then None else Some (err t).

(** One turn of [tcp_recvmsg]: [None] to sleep, or the result and the bytes copied out. *)
Definition tcp_recvmsg (len : Z) (nonblock copied : bool) (t : tcp_sock) : tcp_sock * option (Z * list Z) :=
  if bool_decide (state t = TCP_LISTEN) then (t, Some (- ENOTCONN, []))
  else
    match rcv_queue t with
    | [] => if negb (sk_err t =? 0) then (t, Some (sk_err t, [])) else if eof t then (t, Some (0, []))
            else if nonblock then (t, Some (- EAGAIN, [])) else (t, None)
    | b :: q =>
        if negb (sk_err t =? 0) then (t, Some (sk_err t, []))
        else
          let n := Z.min len (Z.of_nat (length (skb_data b))) in
          (set_rcv_queue q t, Some (if negb (n =? 0) && negb copied then (- EFAULT, []) else (n, take (Z.to_nat n) (skb_data b))))
    end.

(** The FIN of [tcp_shutdown] and [tcp_release]. *)
Definition queue_fin (now : Z) (t : tcp_sock) : tcp_sock :=
  let t := tcp_clear_tx_locked t in
  let seq := snd_nxt t in
  set_state (if bool_decide (state t = TCP_CLOSE_WAIT) then TCP_LAST_ACK else TCP_FIN_WAIT_1)
    (set_rto_deadline_ns (u64 (now + TCP_RTO_NS)) (set_tx_retries 0 (set_tx_len 0 (set_tx_seq seq (set_tx_kind TCP_TX_FIN (set_snd_nxt (u32 (seq + 1)) t)))))).

Definition SHUT_RD : Z := 0.
Definition SHUT_WR : Z := 1.
Definition SHUT_RDWR : Z := 2.

(** The new socket and the numbers of the FIN to be sent. *)
Definition tcp_shutdown (now how : Z) (t : tcp_sock) : tcp_sock * option (Z * Z) :=
  let t := if (how =? SHUT_RD) || (how =? SHUT_RDWR) then set_eof true (set_shutdown true t) else t in
  if negb ((how =? SHUT_WR) || (how =? SHUT_RDWR)) then (t, None)
  else if can_send t then (queue_fin now t, Some (snd_nxt t, rcv_nxt t)) else (t, None).

Definition POLLIN : Z := 1.
Definition POLLOUT : Z := 4.
Definition POLLERR : Z := 8.
Definition POLLHUP : Z := 16.
Definition POLLRDNORM : Z := 64.
Definition POLLWRNORM : Z := 256.

Definition tcp_poll (events : Z) (t : tcp_sock) : Z :=
  let has_data := bool_decide (rcv_queue t <> []) in
  let rev := if has_data || eof t || negb (sk_err t =? 0) then Z.lor POLLIN POLLRDNORM else 0 in
  let rev := if negb (sk_err t =? 0) then Z.lor rev POLLERR else rev in
  let rev := if eof t then Z.lor rev POLLHUP else rev in
  let rev := if can_send t && (snd_una t =? snd_nxt t) then Z.lor rev (Z.lor POLLOUT POLLWRNORM) else rev in
  let rev := if bool_decide (state t = TCP_LISTEN) && bool_decide (accept_queue t <> []) then Z.lor rev (Z.lor POLLIN POLLRDNORM) else rev in
  Z.land rev (Z.lor events (Z.lor POLLERR POLLHUP)).

(** Address and port. *)
Definition tcp_getname (peer : bool) (t : tcp_sock) : Z * Z := if peer then (daddr t, dport t) else (saddr t, sport t).

(** The children of a listener that goes away. *)
Fixpoint release_children (st : tcp) (id : Z) (l : list Z) : res tcp :=
  match l with
  | [] => Ret st
  | ch :: l' =>
      let! c := get st ch in
      if bool_decide (listener c = Some id) then
        let! st := tcp_unlink_locked st ch in
        let! c := get st ch in
        release_children (kfree (put st ch (tcp_clear_tx_locked c)) ch) id l'
      else release_children st id l'
  end.

(** [tcp_release], up to where it drops the lock, and what is left to do.  A socket that does not linger is freed here:
    the code frees it when it has dropped the lock, and until then nothing but the late work of a packet can reach it. *)
Definition tcp_release (st : tcp) (now id : Z) : res (tcp * list late_work) :=
  let! t := get st id in
  match state t with
  | TCP_ESTABLISHED | TCP_CLOSE_WAIT => Ret (put st id (set_orphan true (queue_fin now t)), [LateFin id (snd_nxt t) (rcv_nxt t)])
  | TCP_FIN_WAIT_1 | TCP_FIN_WAIT_2 | TCP_LAST_ACK | TCP_TIME_WAIT =>
      let t := set_orphan true t in
      let t := if bool_decide (state t = TCP_TIME_WAIT) && (time_wait_deadline_ns t =? 0)
               then set_time_wait_deadline_ns (u64 (now + TCP_TIME_WAIT_NS)) t else t in
      let t := if bool_decide (state t = TCP_FIN_WAIT_2) && (fin_wait2_deadline_ns t =? 0)
               then set_fin_wait2_deadline_ns (u64 (now + TCP_FIN_WAIT2_NS)) t else t in
      Ret (put st id t, [LatePurge id])
  | st0 =>
      let st := put st id (tcp_clear_tx_locked t) in
      let! st := tcp_unlink_locked st id in
      let! st := (if bool_decide (st0 = TCP_LISTEN) then release_children st id (tcp_socks st) else Ret st) in
      Ret (kfree st id, [])
  end.

(** ** The timer *)

(** What the timer does about one socket: nothing, free it, wake its sleepers, send the segment again. *)
Inductive timer_action : Type := TKeep | TFree | TWake | TSend (seq ack flags : Z) (data : list Z) (with_mss : bool).

Definition timer_free (now : Z) (t : tcp_sock) : bool :=
  match state t with
  | TCP_SYN_RECV => negb (orphan t) && (TCP_SYN_RECV_NS <=? u64 (now - created_ns t))
  | TCP_TIME_WAIT => orphan t && (time_wait_deadline_ns t <=? now)
  | TCP_CLOSE => orphan t
  | TCP_FIN_WAIT_2 => orphan t && negb (fin_wait2_deadline_ns t =? 0) && (fin_wait2_deadline_ns t <=? now)
  | _ => false
  end.

(** [built] is whether the segment could be built, which the count [nr] of a turn depends on. *)
Definition timer_sock (now nr : Z) (t : tcp_sock) : tcp_sock * timer_action :=
  if timer_free now t then (t, TFree)
  else if bool_decide (tx_kind t = TCP_TX_NONE) || (now <? rto_deadline_ns t) then (t, TKeep)
  else if TCP_MAX_RETRIES <=? tx_retries t then (tcp_set_error_locked (- ETIMEDOUT) t, if orphan t then TFree else TWake)
  else if TCP_TIMER_BATCH <=? nr then (t, TKeep)
  else
    let t' := set_rto_deadline_ns (u64 (now + u64 (Z.shiftl TCP_RTO_NS (Z.min (tx_retries t + 1) 3)))) (set_tx_retries (u32 (tx_retries t + 1)) t) in
    match tx_kind t with
    | TCP_TX_SYN => (t', TSend (tx_seq t) 0 TCP_SYN [] true)
    | TCP_TX_DATA => (t', TSend (tx_seq t) (rcv_nxt t) (Z.lor TCP_ACK TCP_PSH) (tx_data t) false)
    | _ => (t', TSend (tx_seq t) (rcv_nxt t) (Z.lor TCP_FIN TCP_ACK) [] false)
    end.

Fixpoint timer_loop (st : tcp) (now : Z) (n : net) (nr : Z) (l : list Z) : res (tcp * list packet * list Z) :=
  match l with
  | [] => Ret (st, [], [])
  | id :: l' =>
      let! t := get st id in
      let '(t', a) := timer_sock now nr t in
      let st := put st id t' in
      match a with
      | TKeep => timer_loop st now n nr l'
      | TFree => let! st := tcp_unlink_locked st id in timer_loop (kfree st id) now n nr l'
      | TWake => let! r := timer_loop st now n nr l' in let '(st, out, wakes) := r in Ret (st, out, id :: wakes)
      | TSend seq ack flags data m =>
          let! b := tcp_build_segment n t seq ack flags data m in
          let! r := timer_loop st now n (match b with inl _ => nr | inr _ => nr + 1 end) l' in
          let '(st, out, wakes) := r in
          Ret (st, (match b with inl _ => [] | inr (src, d) => snd (tcp_xmit_skb n src (daddr t) d) end) ++ out, wakes)
      end
  end.

Definition tcp_timer_tick (st : tcp) (now : Z) (n : net) : res (tcp * list packet * list Z) :=
  if now <? next_run st then Ret (st, [], [])
  else timer_loop (set_next_run (u64 (now + TCP_TIMER_INTERVAL_NS)) st) now n 0 (tcp_socks st).

Definition tcp_sock_create (st : tcp) (protocol : Z) (alloc : option Z) : tcp * (Z + Z) :=
  if negb (protocol =? 0) && negb (protocol =? IPPROTO_TCP) then (st, inl (- EPROTONOSUPPORT))
  else match alloc with None => (st, inl (- ENOMEM)) | Some new => (put st new tcp_alloc_sock, inr new) end.
