(* ===== verification/TcpWire.v ===== *)
(** * TCP segments as bytes

    What [tcp_build_segment] writes, [tcp_rcv] reads back; and no packet, well
    formed or not, makes the parser read outside it. *)

From S2P Require Import Prelude CString Checksum Tcp.

Lemma htonl_enc x : le_enc 4 (htonl x) = rev (le_enc 4 x).
Proof. unfold htonl. rewrite <- (le_enc_dec (rev (le_enc 4 x))) at 2 by apply rev_bytes, le_enc_bytes. by rewrite length_rev, length_le_enc. Qed.

Lemma htonl_htonl x : 0 <= x < 2 ^ 32 -> htonl (htonl x) = x.
Proof. intros H. unfold htonl at 1. rewrite htonl_enc, rev_involutive. by apply le_roundtrip. Qed.

Lemma htonl_bound x : 0 <= htonl x < 2 ^ 32.
Proof.
  unfold htonl. pose proof (le_dec_bound (rev (le_enc 4 x)) (rev_bytes _ (le_enc_bytes 4 x))) as H. by rewrite length_rev, length_le_enc in H.
Qed.

(** ** Checksums *)

Lemma tcp_checksum_whole s d th : tcp_checksum s d th = inet_csum (le_enc 4 s ++ le_enc 4 d ++ pseudo (Z.of_nat (length th)) ++ th).
Proof.
  unfold tcp_checksum, inet_csum. rewrite !csum_pieces; rewrite ?length_app, ?length_le_enc; simpl;
    [by rewrite <- ?app_assoc | first [by exists 2%nat | by exists 4%nat | by exists 6%nat] ..].
Qed.

Lemma pseudo_bytes n : bytes (pseudo n).
Proof. unfold pseudo. repeat (apply bytes_cons; split; [first [lia | apply (wrap_bound 8); lia | done] |]). constructor. Qed.

Lemma pseudo_pos n : 0 < sumw (words (pseudo n)).
Proof.
  assert (0 <= u8 (Z.shiftr n 8)) by (apply (wrap_bound 8); lia). assert (0 <= u8 n) by (apply (wrap_bound 8); lia).
  unfold pseudo, sumw, IPPROTO_TCP. cbn [words foldr]. lia.
Qed.

(** Header and options around the checksum field. *)
Definition hdr_pre (src dst seq ack : Z) (with_mss : bool) (flags window : Z) : list Z :=
  le_enc 2 (htons src) ++ le_enc 2 (htons dst) ++ le_enc 4 (htonl seq) ++ le_enc 4 (htonl ack) ++
  [u8 (Z.shiftl (5 + (if with_mss then 1 else 0)) 4); flags] ++ le_enc 2 (htons window).

Lemma tcphdr_split src dst seq ack m flags window check rest :
  tcphdr src dst seq ack m flags window check ++ rest = hdr_pre src dst seq ack m flags window ++ le_enc 2 check ++ ([0; 0] ++ rest).
Proof. unfold tcphdr, hdr_pre. by rewrite <- !app_assoc. Qed.

Lemma hdr_pre_bytes src dst seq ack m flags window : 0 <= flags < 256 -> bytes (hdr_pre src dst seq ack m flags window).
Proof.
  intros Hf. unfold hdr_pre. repeat (apply bytes_app; split; [first [apply le_enc_bytes | idtac] |]); [| apply le_enc_bytes].
  repeat (apply bytes_cons; split; [first [done | apply (wrap_bound 8); lia] |]). constructor.
Qed.

Lemma hdr_pre_length src dst seq ack m flags window : length (hdr_pre src dst seq ack m flags window) = 16%nat.
Proof. done. Qed.

Lemma fill_check_ok s d src dst seq ack m flags window data : 0 <= flags < 256 -> bytes data -> Z.of_nat (length data) <= 65000 ->
  exists c, fill_check s d src dst seq ack m flags window data = Ret (tcphdr src dst seq ack m flags window c ++ (if m then mss_option else []) ++ data) /\
  0 <= c < 65536 /\ tcp_checksum s d (tcphdr src dst seq ack m flags window c ++ (if m then mss_option else []) ++ data) = Ret 0.
Proof.
  intros Hf Hd Hl. set (rest := (if m then mss_option else []) ++ data). assert (Hrest : bytes rest).
  { unfold rest. apply bytes_app. split; [| done]. destruct m; [| constructor]. unfold mss_option. repeat (apply bytes_cons; split; [vm_compute; split; congruence |]). constructor. }
  assert (Hlr : Z.of_nat (length rest) <= 65004) by (unfold rest; rewrite length_app; destruct m; simpl; lia).
  set (pre := le_enc 4 s ++ le_enc 4 d ++ pseudo (Z.of_nat (20 + length rest)) ++ hdr_pre src dst seq ack m flags window).
  assert (Hpre : bytes pre) by (unfold pre; rewrite !bytes_app; split_and!; auto using le_enc_bytes, pseudo_bytes, hdr_pre_bytes).
  assert (Hsum : forall check, tcp_checksum s d (tcphdr src dst seq ack m flags window check ++ rest) = inet_csum (pre ++ le_enc 2 check ++ [0; 0] ++ rest)).
  { intros check. rewrite tcp_checksum_whole, tcphdr_split. unfold pre. rewrite <- !app_assoc. by do 4 f_equal. }
  assert (Hev : Nat.Even (length pre)) by (exists 14%nat; done).
  assert (Hpost : bytes ([0; 0] ++ rest)) by (apply bytes_app; split; [repeat (apply bytes_cons; split; [lia |]); constructor | done]).
  assert (Hlen : Z.of_nat (length (pre ++ [0; 0] ++ [0; 0] ++ rest)) <= 131072).
  { rewrite !length_app. unfold pre. rewrite !length_app, hdr_pre_length, !length_le_enc. simpl. lia. }
  assert (Hpos : 0 < sumw (words pre)).
  { unfold pre. rewrite words_app, words_app, words_app, !sumw_app; [| by exists 2%nat ..].
    pose proof (words_pos _ (le_enc_bytes 4 s)). pose proof (words_pos _ (le_enc_bytes 4 d)). pose proof (words_pos _ (hdr_pre_bytes src dst seq ack m flags window Hf)).
    pose proof (pseudo_pos (Z.of_nat (20 + length rest))). lia. }
  unfold fill_check. fold rest. rewrite Hsum. change (le_enc 2 0) with [0; 0].
  assert (Hc : exists c, inet_csum (pre ++ [0; 0] ++ [0; 0] ++ rest) = Ret c /\ 0 <= c < 65536).
  { rewrite csum_spec; [eexists; split; [done | apply htons_bound] | | done]. rewrite !bytes_app. rewrite bytes_app in Hpost. tauto. }
  destruct Hc as (c & Ec & Hcb). rewrite Ec. eexists. split; [done |]. destruct (Z.eqb_spec c 0) as [-> | Hne].
  - split; [vm_compute; split; congruence |]. rewrite Hsum. eapply csum_filled; try done. right. by split_and!.
  - split; [done |]. rewrite Hsum. eapply csum_filled; try done. by left.
Qed.

(** ** Parsing *)

(** What the options of a segment of [tcp_build_segment] say. *)
Definition built_mss (with_mss : bool) (flags : Z) : Z := if has flags TCP_SYN && with_mss then TCP_MSS else 0.

Lemma parse_built s d src dst seq ack m flags window c data :
  0 <= src < 65536 -> 0 <= dst < 65536 -> 0 <= seq < 2 ^ 32 -> 0 <= ack < 2 ^ 32 -> 0 <= window < 65536 ->
  let p := tcphdr src dst seq ack m flags window c ++ (if m then mss_option else []) ++ data in
  tcp_checksum s d p = Ret 0 -> tcp_parse s d p = Ret (Some (mk_segment src dst seq ack flags window (built_mss m flags) data)).
Proof.
  intros Hs Hd Hseq Hack Hw p Hsum. unfold tcp_parse.
  assert (Hlen : Z.of_nat (length p) = 20 + (if m then 4 else 0) + Z.of_nat (length data)) by (unfold p; rewrite !length_app; destruct m; simpl; lia).
  destruct (Z.ltb_spec (Z.of_nat (length p)) 20); [destruct m; lia |].
  assert (E12 : rd p 12 = Ret (if m then 96 else 80)) by (apply rd_ret; split; [lia | by destruct m]). rewrite E12.
  assert (E13 : rd p 13 = Ret flags) by (apply rd_ret; by split).
  cbv beta iota. set (doff := Z.shiftr _ 4 * 4). assert (Edoff : doff = if m then 24 else 20) by (unfold doff; by destruct m). rewrite Edoff.
  destruct (_ || _) eqn:Eb; [apply orb_true_iff in Eb as [Eb | Eb]; apply Z.ltb_lt in Eb; destruct m; lia |]. rewrite Hsum, E13. cbn [negb Z.eqb].
  rewrite (field_ret p 0 2 (htons src)), (field_ret p 2 2 (htons dst)), (field_ret p 4 4 (htonl seq)), (field_ret p 8 4 (htonl ack)), (field_ret p 14 2 (htons window));
    try lia; try done; try (pose proof (htons_bound src); pose proof (htons_bound dst); pose proof (htons_bound window); lia); try apply htonl_bound.
  cbv beta iota. assert (Eopt : (if has flags TCP_SYN then options_loop p 20 (if m then 24 else 20) 0 40 else Ret 0) = Ret (built_mss m flags)).
  { unfold built_mss. destruct (has flags TCP_SYN); [| done]. by destruct m. }
  rewrite Eopt. cbv beta iota. rewrite !htons_htons, !htonl_htonl by done. do 3 f_equal. by destruct m.
Qed.

(** What [tcp_build_segment] writes, the receiver reads back: for any header values in range, with or without
    the MSS option, and any data, a segment is built, its checksum is right, and [tcp_rcv] takes from it exactly
    the ports, numbers, flags, window, MSS and data it was built from. *)
Theorem tcp_segment_roundtrip (s d src dst seq ack flags window : Z) (with_mss : bool) (data : list Z) :
  0 <= src < 65536 -> 0 <= dst < 65536 -> 0 <= seq < 2 ^ 32 -> 0 <= ack < 2 ^ 32 -> 0 <= window < 65536 -> 0 <= flags < 256 ->
  bytes data -> Z.of_nat (length data) <= TCP_MSS ->
  exists p, fill_check s d src dst seq ack with_mss flags window data = Ret p /\
    tcp_parse s d p = Ret (Some (mk_segment src dst seq ack flags window (built_mss with_mss flags) data)).
Proof.
  intros Hs Hd Hseq Hack Hw Hf Hdata Hl. unfold TCP_MSS in Hl. destruct (fill_check_ok s d src dst seq ack with_mss flags window data Hf Hdata) as (c & E & _ & Hsum); [lia |].
  eexists. split; [exact E |]. by apply parse_built.
Qed.

Lemma tcp_segment_roundtrip_witness :
  exists p, fill_check 16777343 16777343 40000 80 4294967295 7 true 18 4096 [104; 105; 33] = Ret p /\
    tcp_parse 16777343 16777343 p = Ret (Some (mk_segment 40000 80 4294967295 7 18 4096 1460 [104; 105; 33])).
Proof.
  apply (tcp_segment_roundtrip 16777343 16777343 40000 80 4294967295 7 18 4096 true [104; 105; 33]); try lia; [| simpl; unfold TCP_MSS; lia].
  repeat (apply list.Forall_cons; split; [lia |]). apply list.Forall_nil_2.
Defined.

(** The options loop stays inside the header and ends: every turn moves on. *)
Lemma options_loop_ok d end_ : bytes d -> end_ <= Z.of_nat (length d) -> forall fuel opt mss, 0 <= opt -> end_ - opt <= Z.of_nat fuel -> 0 <= mss < 65536 ->
  exists m, options_loop d opt end_ mss fuel = Ret m /\ 0 <= m < 65536.
Proof.
  intros Hb Hend. assert (Hrd : forall i, 0 <= i < end_ -> exists b, rd d i = Ret b /\ 0 <= b < 256).
  { intros i Hi. destruct (rd_in_range d i) as [b Hrd]; [lia |]. exists b. split; [done |]. apply rd_ret in Hrd as [_ Hrd].
    by apply (list.Forall_lookup_1 _ _ _ _ Hb) in Hrd. }
  induction fuel as [| fuel IH]; intros opt mss Ho Hf Hm; cbn [options_loop]; destruct (Z.ltb_spec opt end_); cbn [negb]; try (by exists mss); [lia |].
  destruct (Hrd opt) as (k & -> & Hk); [lia |]. cbv beta iota. destruct (k =? TCP_OPT_END); [by exists mss |]. destruct (k =? TCP_OPT_NOP); [apply IH; lia |].
  destruct (Z.leb_spec end_ (opt + 1)); [by exists mss |]. destruct (Hrd (opt + 1)) as (n & -> & Hn); [lia |]. cbv beta iota.
  destruct (Z.ltb_spec n 2); [by exists mss |]. destruct (Z.ltb_spec end_ (opt + n)); [by exists mss |]. cbn [orb].
  destruct ((k =? TCP_OPT_MSS) && (n =? 4)) eqn:E4; [| cbv beta iota; apply IH; lia]. apply andb_true_iff in E4 as [_ E4]. apply Z.eqb_eq in E4.
  destruct (Hrd (opt + 2)) as (a & -> & Ha); [lia |]. destruct (Hrd (opt + 3)) as (b & -> & Hb'); [lia |]. cbv beta iota. apply IH; [lia | lia |]. apply (wrap_bound 16). lia.
Qed.

(** A segment's numbers are of the width of their fields. *)
Definition segment_ok (g : segment) : Prop :=
  0 <= g_source g < 65536 /\ 0 <= g_dest g < 65536 /\ 0 <= g_seq g < 2 ^ 32 /\ 0 <= g_ack g < 2 ^ 32 /\ 0 <= g_flags g < 256 /\ 0 <= g_window g < 65536 /\
  0 <= g_mss g < 65536 /\ bytes (g_payload g).

Lemma tcp_parse_ok (s d : Z) (p : list Z) : bytes p -> Z.of_nat (length p) <= 65535 ->
  exists o, tcp_parse s d p = Ret o /\
    (forall g, o = Some g -> segment_ok g /\ tcp_checksum s d p = Ret 0 /\ exists hdr, p = hdr ++ g_payload g /\ 20 <= Z.of_nat (length hdr) <= 60).
Proof.
  intros Hb Hl. unfold tcp_parse. destruct (Z.ltb_spec (Z.of_nat (length p)) 20); [by exists None |].
  assert (Hrd : forall i, 0 <= i < 20 -> exists b, rd p i = Ret b /\ 0 <= b < 256).
  { intros i Hi. destruct (rd_in_range p i) as [b Hrd]; [lia |]. exists b. split; [done |]. apply rd_ret in Hrd as [_ Hrd].
    by apply (list.Forall_lookup_1 _ _ _ _ Hb) in Hrd. }
  destruct (Hrd 12) as (x & -> & Hx); [lia |]. cbv beta iota. set (doff := Z.shiftr x 4 * 4). assert (Hdoff : doff <= 60).
  { unfold doff. rewrite Z.shiftr_div_pow2 by lia. change (2 ^ 4) with 16. zdm. }
  destruct (Z.ltb_spec doff 20); [by exists None |]. destruct (Z.ltb_spec (Z.of_nat (length p)) doff); [by exists None |]. cbn [orb].
  assert (Hc : exists c, tcp_checksum s d p = Ret c).
  { rewrite tcp_checksum_whole, csum_spec; [by eexists | |]; [rewrite !bytes_app; split_and!; auto using le_enc_bytes, pseudo_bytes |].
    rewrite !length_app, !length_le_enc. simpl. lia. }
  destruct Hc as (c & Ec). rewrite Ec. cbv beta iota. destruct (Z.eqb_spec c 0) as [-> |]; [| by exists None]. cbn [negb].
  destruct (field_bound p 0 2 Hb) as (v1 & -> & _); [lia.. |]. destruct (field_bound p 2 2 Hb) as (v2 & -> & _); [lia.. |]. destruct (field_bound p 4 4 Hb) as (v3 & -> & _); [lia.. |].
  destruct (field_bound p 8 4 Hb) as (v4 & -> & _); [lia.. |]. destruct (Hrd 13) as (fl & -> & Hfl); [lia |]. destruct (field_bound p 14 2 Hb) as (v5 & -> & _); [lia.. |]. cbv beta iota.
  assert (Hm : exists m, (if has fl TCP_SYN then options_loop p 20 doff 0 40 else Ret 0) = Ret m /\ 0 <= m < 65536).
  { destruct (has fl TCP_SYN); [| by exists 0]. apply options_loop_ok; (done || lia). }
  destruct Hm as (m & -> & Hm). cbv beta iota. eexists. split; [done |]. intros g [= <-]. split; [| split; [done |]].
  - unfold segment_ok. cbn [g_source g_dest g_seq g_ack g_flags g_window g_mss g_payload]. split_and!; try apply htons_bound; try apply htonl_bound; try lia. by apply list.Forall_drop.
  - exists (take (Z.to_nat doff) p). cbn [g_payload]. rewrite take_drop. split; [done |]. rewrite length_take. lia.
Qed.

(** C29: the parser is safe on every packet: whatever up to 64 KiB of bytes arrive, and whatever header length, options
    and checksum they hold, [tcp_rcv] reads no byte outside the packet and its loop over the options ends; a segment
    it accepts has a right checksum, numbers within the width of their fields and a payload that is the end of the packet. *)
Theorem tcp_parse_safe (s d : Z) (p : list Z) : bytes p -> Z.of_nat (length p) <= 65535 ->
  exists o, tcp_parse s d p = Ret o /\
    (forall g, o = Some g -> segment_ok g /\ tcp_checksum s d p = Ret 0 /\ exists hdr, p = hdr ++ g_payload g /\ 20 <= Z.of_nat (length hdr) <= 60).
Proof. apply tcp_parse_ok. Qed.

Lemma tcp_parse_safe_witness : exists o, tcp_parse 1 2 (repeat 0 12 ++ [96; 2; 16; 0; 237; 244; 0; 0; 2; 4; 0; 0]) = Ret o /\
  (forall g, o = Some g -> segment_ok g /\ tcp_checksum 1 2 (repeat 0 12 ++ [96; 2; 16; 0; 237; 244; 0; 0; 2; 4; 0; 0]) = Ret 0 /\
     exists hdr, repeat 0 12 ++ [96; 2; 16; 0; 237; 244; 0; 0; 2; 4; 0; 0] = hdr ++ g_payload g /\ 20 <= Z.of_nat (length hdr) <= 60).
Proof. apply tcp_parse_safe; [| simpl; lia]. repeat (apply list.Forall_cons; split; [lia |]). apply list.Forall_nil_2. Defined.
