(* ===== verification/TcpTable.v ===== *)
(** * The table of TCP sockets

    The calls of [tcp_proto_ops], the arrival of packets and the timer, in any
    order, on one table.  [own] are the sockets user space holds; the others
    belong to the table.  A packet and a release are two steps: what they do under
    the lock, and the late work they do with the socket when they have dropped it,
    between which anything else may happen.  The rest of a call is one step: what
    connect, sendmsg and shutdown send behind the lock is for a socket that their
    caller holds, which nobody frees in between, and calls on one socket do not
    overlap.  Under the lock no call follows a pointer to a freed socket, and every
    socket is held by a user, waits for one on a listener, or is an orphan that the
    timer looks after; late work finds its socket there, or freed. *)

From S2P Require Import Prelude CString Checksum Tcp TcpWire.

(** ** Calls *)

Inductive call : Type :=
| Create (protocol : Z) (alloc : option Z)
| Bind (id laddr lport : Z)
| Connect (now : Z) (n : net) (id da dp : Z)
| Listen (id bl : Z)
| Accept (id : Z) (mem : bool)
| Send (now : Z) (n : net) (id buf : Z) (data : list Z)
| Recv (id len : Z) (nonblock copied : bool)
| Shutdown (now : Z) (n : net) (id how : Z)
| Release (now id : Z)
| Packet (now : Z) (alloc : option Z) (src dst : Z) (d : list Z)
| Tick (now : Z) (n : net).

(** The table and the sockets users hold after a call, and the late work it leaves. *)
Definition exec (c : call) (st : tcp) (own : gset Z) : res (tcp * gset Z * list late_work) :=
  match c with
  | Create protocol alloc => match tcp_sock_create st protocol alloc with (st, inr new) => Ret (st, own ∪ {[new]}, []) | (st, inl _) => Ret (st, own, []) end
  | Bind id laddr lport => let! r := tcp_bind st id laddr lport in Ret (fst r, own, [])
  | Connect now n id da dp => let! r := tcp_connect st now n id da dp in Ret (fst (fst r), own, [])
  | Listen id bl => let! r := tcp_listen st id bl in Ret (fst r, own, [])
  | Accept id mem => let! r := tcp_accept st id mem in Ret (fst r, match snd r with Some (inr ch) => own ∪ {[ch]} | _ => own end, [])
  | Send now n id buf data =>
      let! t := get st id in
      match send_chunk now buf data t with
      | (t', SendGo seq ack) =>
          let! s := tcp_send_segment n t' seq ack (Z.lor TCP_ACK TCP_PSH) data false in
          Ret (put st id (if fst s =? 0 then t' else send_failed buf seq t'), own, [])
      | (t', _) => Ret (put st id t', own, [])
      end
  | Recv id len nonblock copied => let! t := get st id in Ret (put st id (fst (tcp_recvmsg len nonblock copied t)), own, [])
  | Shutdown now n id how =>
      let! t := get st id in
      match tcp_shutdown now how t with
      | (t', Some (seq, ack)) => let! s := tcp_send_segment n t' seq ack (Z.lor TCP_FIN TCP_ACK) [] false in Ret (put st id t', own, [])
      | (t', None) => Ret (put st id t', own, [])
      end
  | Release now id => let! r := tcp_release st now id in Ret (fst r, own ∖ {[id]}, snd r)
  | Packet now alloc src dst d => let! r := tcp_rcv st now alloc src dst d in Ret (fst (fst (fst r)), own, snd (fst r))
  | Tick now n => let! r := tcp_timer_tick st now n in Ret (fst (fst r), own, [])
  end.

(** What a caller guarantees: users name sockets they hold, the heap returns addresses not in use, and a chunk of
    [tcp_sendmsg] has at most the segment size of the socket. *)
Definition fresh (st : tcp) (alloc : option Z) : Prop := forall new, alloc = Some new -> socks st !! new = None.

Definition valid (st : tcp) (own : gset Z) (c : call) : Prop :=
  match c with
  | Create _ alloc => fresh st alloc
  | Bind id _ _ | Connect _ _ id _ _ | Listen id _ | Accept id _ | Recv id _ _ _ | Shutdown _ _ id _ | Release _ id => id ∈ own
  | Send _ _ id _ data => id ∈ own /\ bytes data /\ (forall t, socks st !! id = Some t -> Z.of_nat (length data) <= mss t)
  | Packet _ alloc _ _ d => fresh st alloc /\ bytes d /\ Z.of_nat (length d) <= 65535
  | Tick _ _ => True
  end.

(** ** The invariant *)

(** What a socket by itself satisfies. *)
Record sock_ok (t : tcp_sock) : Prop := {
  k_mss : 0 <= mss t <= TCP_MSS;
  k_data : bytes (tx_data t);
  k_len : Z.of_nat (length (tx_data t)) <= TCP_MSS;
  k_bound : state t <> TCP_CLOSE -> bound t = true;
  k_listen : state t = TCP_LISTEN -> tx_kind t = TCP_TX_NONE /\ orphan t = false /\ listener t = None;
  k_close : state t = TCP_CLOSE -> tx_kind t = TCP_TX_NONE;
  k_last : state t = TCP_LAST_ACK -> tx_kind t = TCP_TX_NONE \/ tx_kind t = TCP_TX_FIN /\ snd_nxt t = u32 (tx_seq t + 1);
  k_queue : state t <> TCP_LISTEN -> accept_queue t = [];
  k_nodup : NoDup (accept_queue t);
  k_recv : state t = TCP_SYN_RECV -> listener t <> None;
  k_on : forall l, accept_on t = Some l -> listener t = Some l /\ state t <> TCP_SYN_RECV }.

(** The place of a socket in the table; [gone] is a listener that has left the list and is not freed yet. *)
Record placed (gone : option Z) (st : tcp) (own : gset Z) (id : Z) (t : tcp_sock) : Prop := {
  p_list : id ∈ tcp_socks st <-> bound t = true /\ gone <> Some id;
  p_own : id ∈ own <-> orphan t = false /\ listener t = None;
  p_orphan : orphan t = true -> bound t = true /\ listener t = None;
  p_listener : forall l, listener t = Some l -> bound t = true /\ exists lt, socks st !! l = Some lt /\ state lt = TCP_LISTEN;
  p_on : forall l, accept_on t = Some l -> exists lt, socks st !! l = Some lt /\ id ∈ accept_queue lt;
  p_queue : forall ch, ch ∈ accept_queue t -> exists c, socks st !! ch = Some c /\ accept_on c = Some id }.

Record table_okg (gone : option Z) (st : tcp) (own : gset Z) : Prop := {
  t_port : TCP_EPHEMERAL_START <= tcp_ephemeral st <= TCP_EPHEMERAL_END;
  t_nodup : NoDup (tcp_socks st);
  t_live : forall id, id ∈ tcp_socks st \/ id ∈ own -> is_Some (socks st !! id);
  t_sock : forall id t, socks st !! id = Some t -> sock_ok t;
  t_placed : forall id t, socks st !! id = Some t -> placed gone st own id t }.

Abbreviation table_ok := (table_okg None).

(** ** Small steps *)

(** A change of a socket that the other sockets do not notice. *)
Definition quiet (t t' : tcp_sock) : Prop :=
  orphan t' = orphan t /\ listener t' = listener t /\ accept_on t' = accept_on t /\ accept_queue t' = accept_queue t /\ (state t = TCP_LISTEN -> state t' = TCP_LISTEN).

Lemma socks_put st id t j : socks (put st id t) !! j = if decide (j = id) then Some t else socks st !! j.
Proof. unfold put. cbn [socks set_socks]. case_decide as E; [subst; apply lookup_insert_eq | by apply lookup_insert_ne]. Qed.

Lemma get_some st id t : socks st !! id = Some t -> get st id = Ret t.
Proof. unfold get. by intros ->. Qed.

Lemma change_ok gone st st' own id t t' : table_okg gone st own -> socks st !! id = Some t -> socks st' = <[id := t']> (socks st) ->
  TCP_EPHEMERAL_START <= tcp_ephemeral st' <= TCP_EPHEMERAL_END -> NoDup (tcp_socks st') -> (forall j, j <> id -> (j ∈ tcp_socks st' <-> j ∈ tcp_socks st)) ->
  (id ∈ tcp_socks st' <-> bound t' = true /\ gone <> Some id) -> (bound t = true -> bound t' = true) -> quiet t t' -> sock_ok t' -> table_okg gone st' own.
Proof.
  intros [H0 H1 H2 H3 H4] Ht Es Hport Hnd Hlist Hid Hb (Q2 & Q3 & Q4 & Q5 & Q6) Hok. split; [done | done | | |].
  - intros j Hj. rewrite Es. destruct (decide (j = id)) as [-> | Hne]; [rewrite lookup_insert_eq; done |]. rewrite lookup_insert_ne by done. rewrite (Hlist j Hne) in Hj. by apply H2.
  - intros j u. rewrite Es. destruct (decide (j = id)) as [-> | Hne]; [rewrite lookup_insert_eq; by intros [= <-] | rewrite lookup_insert_ne by done; apply H3].
  - assert (Hl : forall l lt, socks st !! l = Some lt -> exists lt', socks st' !! l = Some lt' /\ accept_queue lt' = accept_queue lt /\ accept_on lt' = accept_on lt /\
      (state lt = TCP_LISTEN -> state lt' = TCP_LISTEN)).
    { intros l lt Hlt. rewrite Es. destruct (decide (l = id)) as [-> | Hne]; [| rewrite lookup_insert_ne by done; by exists lt].
      rewrite Ht in Hlt. injection Hlt as <-. rewrite lookup_insert_eq. by exists t'. }
    assert (Hp : forall j u, placed gone st own j u -> (forall l, listener u = Some l -> exists lt, socks st' !! l = Some lt /\ state lt = TCP_LISTEN) /\
      (forall l, accept_on u = Some l -> exists lt, socks st' !! l = Some lt /\ j ∈ accept_queue lt) /\
      (forall ch, ch ∈ accept_queue u -> exists c, socks st' !! ch = Some c /\ accept_on c = Some j)).
    { intros j u [P1 P2 P3 P4 P5 P6]. split_and!.
      - intros l E. destruct (P4 l E) as (Eb & lt & E1 & E2). destruct (Hl _ _ E1) as (lt' & L1 & _ & _ & L2). eauto.
      - intros l E. destruct (P5 l E) as (lt & E1 & E2). destruct (Hl _ _ E1) as (lt' & L1 & L2 & _). exists lt'. by rewrite L2.
      - intros ch E. destruct (P6 ch E) as (c & E1 & E2). destruct (Hl _ _ E1) as (c' & L1 & _ & L2 & _). exists c'. by rewrite L2. }
    intros j u. rewrite Es. destruct (decide (j = id)) as [-> | Hne].
    + rewrite lookup_insert_eq. intros [= <-]. destruct (Hp _ _ (H4 _ _ Ht)) as (A1 & A2 & A3). destruct (H4 _ _ Ht) as [P1 P2 P3 P4 P5 P6].
      split; rewrite ?Q2, ?Q3, ?Q4, ?Q5; try done; [intros E; destruct (P3 E); auto | intros l E; destruct (P4 l E); auto].
    + rewrite lookup_insert_ne by done. intros Hu. destruct (Hp _ _ (H4 _ _ Hu)) as (A1 & A2 & A3). destruct (H4 _ _ Hu) as [P1 P2 P3 P4 P5 P6].
      split; try done; [by rewrite Hlist | intros l E; destruct (P4 l E); auto].
Qed.

Lemma put_ok gone st own id t t' : table_okg gone st own -> socks st !! id = Some t -> bound t' = bound t -> quiet t t' -> sock_ok t' -> table_okg gone (put st id t') own.
Proof.
  intros H Ht Hb Hq Hok. apply (change_ok gone st _ own id t t'); try done; [apply H | apply H | | by rewrite Hb]. rewrite Hb. apply (t_placed _ _ _ H _ _ Ht).
Qed.

(** A socket is bound to a port. *)
Lemma link_ok st own id t t' : table_ok st own -> socks st !! id = Some t -> bound t = false -> bound t' = true -> quiet t t' -> sock_ok t' ->
  table_ok (set_tcp_socks (tcp_socks st ++ [id]) (put st id t')) own.
Proof.
  intros H Ht Hb Hb' Hq Hok. assert (Hid : ~ id ∈ tcp_socks st) by (rewrite (p_list _ _ _ _ _ (t_placed _ _ _ H _ _ Ht)), Hb; by intros []).
  apply (change_ok None st _ own id t t'); try done; [apply H | | |].
  - cbn. apply list.NoDup_app. split_and!; [apply H | | apply NoDup_singleton]. intros x Hx. rewrite list_elem_of_singleton. by intros ->.
  - intros j Hj. cbn. rewrite elem_of_app, list_elem_of_singleton. tauto.
  - cbn. rewrite elem_of_app, list_elem_of_singleton. split; [done | by right].
Qed.

(** Fields outside the list of sockets do not matter. *)
Lemma table_same gone st st' own : table_okg gone st own -> socks st' = socks st -> tcp_socks st' = tcp_socks st ->
  TCP_EPHEMERAL_START <= tcp_ephemeral st' <= TCP_EPHEMERAL_END -> table_okg gone st' own.
Proof.
  intros [H0 H1 H2 H3 H4] E1 E2 Hp. split; [done | by rewrite E2 | intros id Hid; rewrite E2 in Hid; rewrite E1; auto | intros id t; rewrite E1; apply H3 |].
  intros id t Ht. rewrite E1 in Ht. destruct (H4 _ _ Ht) as [P1 P2 P3 P4 P5 P6]. split; rewrite ?E1, ?E2; done.
Qed.

Lemma own_live gone st own id : table_okg gone st own -> id ∈ own -> exists t, socks st !! id = Some t /\ sock_ok t /\ placed gone st own id t.
Proof. intros H Hid. destruct (t_live _ _ _ H id (or_intror Hid)) as [t Ht]. exists t. split; [done |]. split; [by eapply t_sock | by eapply t_placed]. Qed.

Lemma list_live gone st own id : table_okg gone st own -> id ∈ tcp_socks st -> exists t, socks st !! id = Some t /\ sock_ok t /\ placed gone st own id t.
Proof. intros H Hid. destruct (t_live _ _ _ H id (or_introl Hid)) as [t Ht]. exists t. split; [done |]. split; [by eapply t_sock | by eapply t_placed]. Qed.

(** ** Leaving the table *)

Lemma kfree_put st id t : kfree (put st id t) id = kfree st id.
Proof. unfold kfree, put. cbn. by rewrite delete_insert_eq. Qed.

Lemma socks_kfree st id j : socks (kfree st id) !! j = if decide (j = id) then None else socks st !! j.
Proof. unfold kfree. cbn [socks set_socks]. case_decide as E; [subst; apply lookup_delete_eq | by apply lookup_delete_ne]. Qed.

(** What [tcp_unlink_locked] of [t] at [id] leaves of the socket at [j]: its listener loses an entry of its queue. *)
Definition dequeued (id : Z) (t : tcp_sock) (j : Z) (u : tcp_sock) : tcp_sock :=
  if bool_decide (accept_on t = Some j) then set_accept_queue (filter (fun i => i <> id) (accept_queue u)) u else u.

Lemma tcp_unlink_ret gone st own id t : table_okg gone st own -> socks st !! id = Some t -> state t <> TCP_LISTEN ->
  exists st', tcp_unlink_locked st id = Ret st' /\ tcp_socks st' = filter (fun i => i <> id) (tcp_socks st) /\
    socks st' !! id = Some (set_accept_on None t) /\
    (forall j, j <> id -> socks st' !! j = dequeued id t j <$> socks st !! j).
Proof.
  intros H Ht Hst. unfold tcp_unlink_locked. rewrite (get_some _ _ _ Ht). destruct (t_placed _ _ _ H _ _ Ht) as [_ _ _ Pl P5 _]. pose proof (k_on _ (t_sock _ _ _ H _ _ Ht)) as Hon.
  destruct (accept_on t) as [l |] eqn:Eo.
  - destruct (P5 l eq_refl) as (lt & Hl & _). destruct (Pl l (proj1 (Hon l eq_refl))) as (_ & lt' & Hl' & Els). rewrite Hl in Hl'. injection Hl' as <-.
    assert (Hne : id <> l) by (intros ->; rewrite Ht in Hl; congruence).
    rewrite (get_some _ l lt) by done. rewrite (get_some _ id t) by (rewrite socks_put, decide_False by done; done).
    eexists. split; [reflexivity |]. split; [done |]. split; [by rewrite socks_put, decide_True |].
    intros j Hj. rewrite socks_put, decide_False, socks_put by done. case_decide as E.
    + subst. cbn [socks set_tcp_socks]. rewrite Hl. unfold dequeued. cbn. by rewrite Eo, bool_decide_eq_true_2.
    + cbn [socks set_tcp_socks]. destruct (socks st !! j); [| done]. unfold dequeued. cbn. by rewrite Eo, bool_decide_eq_false_2 by congruence.
  - eexists. split; [reflexivity |]. split; [done |]. split; [cbn [socks set_tcp_socks]; rewrite Ht; f_equal; rewrite <- Eo; by destruct t |].
    intros j Hj. cbn [socks set_tcp_socks]. destruct (socks st !! j); [| done]. unfold dequeued. cbn. by rewrite Eo.
Qed.

Lemma dequeued_same id t j u :
  state (dequeued id t j u) = state u /\ listener (dequeued id t j u) = listener u /\ accept_on (dequeued id t j u) = accept_on u /\ orphan (dequeued id t j u) = orphan u /\
  bound (dequeued id t j u) = bound u.
Proof. unfold dequeued. by destruct (bool_decide _). Qed.

Lemma dequeued_ok id t j u : sock_ok u -> sock_ok (dequeued id t j u).
Proof.
  intros [H1 H2 H3 H4 H5 Hc Hl H6 H7 H8 H9]. unfold dequeued. destruct (bool_decide _); [| done]. split; cbn; try done; [| by apply list.NoDup_filter].
  intros Hs. by rewrite (H6 Hs).
Qed.

Lemma unlink_free gone st own id t : table_okg gone st own -> socks st !! id = Some t -> state t <> TCP_LISTEN ->
  exists st', tcp_unlink_locked st id = Ret st' /\ table_okg gone (kfree st' id) (own ∖ {[id]}) /\ socks st' !! id = Some (set_accept_on None t) /\
    (forall j u, socks (kfree st' id) !! j = Some u -> exists u0, socks st !! j = Some u0 /\ listener u0 = listener u) /\
    (forall j, j <> id -> j ∈ tcp_socks st -> j ∈ tcp_socks (kfree st' id)).
Proof.
  intros H Ht Hst. destruct (tcp_unlink_ret _ _ _ _ _ H Ht Hst) as (st' & E & El & Ei & Ej). exists st'. split; [done |].
  assert (Hlook : forall j u, socks (kfree st' id) !! j = Some u -> j <> id /\ exists u0, socks st !! j = Some u0 /\ u = dequeued id t j u0).
  { intros j u. rewrite socks_kfree. case_decide as Ed; [done |]. rewrite Ej by done. destruct (socks st !! j) as [u0 |]; [| done]. intros [= <-]. eauto. }
  assert (Hback : forall j u, j <> id -> socks st !! j = Some u -> socks (kfree st' id) !! j = Some (dequeued id t j u)).
  { intros j u Hj Hu. rewrite socks_kfree, decide_False, Ej, Hu by done. done. }
  assert (Ep : tcp_ephemeral st' = tcp_ephemeral st).
  { unfold tcp_unlink_locked in E. rewrite (get_some _ _ _ Ht) in E. destruct (accept_on t); [| by injection E as <-].
    destruct (get _ _); [| done]. destruct (get _ id); [| done]. by injection E as <-. }
  split; [| split; [done |]; split].
  - split.
    + cbn. rewrite Ep. apply H.
    + cbn. rewrite El. by apply list.NoDup_filter, H.
    + intros j Hj. assert (Hj' : j <> id /\ (j ∈ tcp_socks st \/ j ∈ own)).
      { cbn in Hj. rewrite El, list_elem_of_filter in Hj. set_solver. }
      destruct Hj' as [Hne Hj']. destruct (t_live _ _ _ H j Hj') as [u Hu]. rewrite (Hback _ _ Hne Hu). done.
    + intros j u Hu. destruct (Hlook _ _ Hu) as (_ & u0 & Hu0 & ->). by eapply dequeued_ok, t_sock.
    + intros j u Hu. destruct (Hlook _ _ Hu) as (Hne & u0 & Hu0 & ->). destruct (t_placed _ _ _ H _ _ Hu0) as [P1 P2 P3 P4 P5 P6].
      destruct (dequeued_same id t j u0) as (D1 & D2 & D3 & D4 & D5). split; rewrite ?D2, ?D3, ?D4, ?D5; try done.
      * cbn [tcp_socks kfree set_socks]. rewrite El, list_elem_of_filter. rewrite <- P1. tauto.
      * rewrite <- P2. set_solver.
      * intros l Hl. destruct (P4 l Hl) as (Hb & lt & Hlt & Hls). split; [done |]. exists (dequeued id t l lt). rewrite (Hback l lt) by (done || congruence). by destruct (dequeued_same id t l lt) as (-> & _).
      * intros l Hl. destruct (P5 l Hl) as (lt & Hlt & Hin). assert (Hl' : l <> id).
        { intros ->. rewrite Ht in Hlt. injection Hlt as <-. rewrite (k_queue _ (t_sock _ _ _ H _ _ Ht) Hst) in Hin. set_solver. }
        exists (dequeued id t l lt). split; [by apply Hback |]. unfold dequeued. destruct (bool_decide _); [| done]. cbn. by apply list_elem_of_filter.
      * intros ch Hch. assert (Hch' : ch ∈ accept_queue u0 /\ ch <> id).
        { unfold dequeued in Hch. destruct (bool_decide (accept_on t = Some j)) eqn:Eb; [cbn in Hch; apply list_elem_of_filter in Hch; tauto |]. split; [done |]. intros ->.
          apply bool_decide_eq_false in Eb. destruct (P6 _ Hch) as (c & Hc & Hco). rewrite Ht in Hc. injection Hc as <-. done. }
        destruct Hch' as [Hch1 Hch2]. destruct (P6 _ Hch1) as (c & Hc & Hco). exists (dequeued id t ch c). split; [by apply Hback |]. by destruct (dequeued_same id t ch c) as (_ & _ & -> & _).
  - intros j u Hu. destruct (Hlook _ _ Hu) as (_ & u0 & Hu0 & ->). exists u0. split; [done |]. by destruct (dequeued_same id t j u0) as (_ & -> & _).
  - intros j Hj Hin. cbn. rewrite El. by apply list_elem_of_filter.
Qed.

(** ** Joining the table *)

Lemma placed_ext gone st st' own own' j u : placed gone st own j u -> (forall k v, socks st !! k = Some v -> socks st' !! k = Some v) ->
  (j ∈ tcp_socks st' <-> j ∈ tcp_socks st) -> (j ∈ own' <-> j ∈ own) -> placed gone st' own' j u.
Proof.
  intros [P1 P2 P3 P4 P5 P6] Hs Hl Ho. split; [by rewrite Hl | by rewrite Ho | done | | |].
  - intros l E. destruct (P4 l E) as (Hb & lt & E1 & E2). eauto.
  - intros l E. destruct (P5 l E) as (lt & E1 & E2). eauto.
  - intros ch E. destruct (P6 ch E) as (c & E1 & E2). eauto.
Qed.

(** A new socket, which is a user's or a listener's. *)
Lemma add_ok st st' own own' new t : table_ok st own -> socks st !! new = None -> socks st' = <[new := t]> (socks st) -> tcp_ephemeral st' = tcp_ephemeral st ->
  sock_ok t -> accept_on t = None -> accept_queue t = [] -> orphan t = false ->
  (listener t = None /\ bound t = false /\ tcp_socks st' = tcp_socks st /\ own' = own ∪ {[new]} \/
   exists l lt, listener t = Some l /\ socks st !! l = Some lt /\ state lt = TCP_LISTEN /\ bound t = true /\ tcp_socks st' = tcp_socks st ++ [new] /\ own' = own) ->
  table_ok st' own'.
Proof.
  intros H Hnew Es Ep Hok Eo Eq Eor Hcase.
  assert (Hout : (new ∉ tcp_socks st) /\ (new ∉ own)) by (split; intros F; [destruct (t_live _ _ _ H new (or_introl F)) | destruct (t_live _ _ _ H new (or_intror F))]; congruence).
  destruct Hout as [Ho1 Ho2]. assert (Hkeep : forall k v, socks st !! k = Some v -> socks st' !! k = Some v).
  { intros k v Hk. rewrite Es, lookup_insert_ne; [done | congruence]. }
  assert (Hlist : forall j, j <> new -> (j ∈ tcp_socks st' <-> j ∈ tcp_socks st)).
  { intros j Hj. destruct Hcase as [(_ & _ & -> & _) | (l & lt & _ & _ & _ & _ & -> & _)]; [done |]. rewrite elem_of_app, list_elem_of_singleton. tauto. }
  assert (Hown : forall j, j <> new -> (j ∈ own' <-> j ∈ own)).
  { intros j Hj. destruct Hcase as [(_ & _ & _ & ->) | (l & lt & _ & _ & _ & _ & _ & ->)]; set_solver. }
  split.
  - rewrite Ep. apply H.
  - destruct Hcase as [(_ & _ & -> & _) | (l & lt & _ & _ & _ & _ & -> & _)]; [apply H |]. apply list.NoDup_app. split_and!; [apply H | | apply NoDup_singleton].
    intros x Hx. rewrite list_elem_of_singleton. by intros ->.
  - intros j Hj. destruct (decide (j = new)) as [-> | Hne]; [rewrite Es, lookup_insert_eq; done |]. rewrite (Hlist j Hne), (Hown j Hne) in Hj.
    destruct (t_live _ _ _ H j Hj) as [u Hu]. by rewrite (Hkeep _ _ Hu).
  - intros j u. rewrite Es. destruct (decide (j = new)) as [-> | Hne]; [rewrite lookup_insert_eq; by intros [= <-] | rewrite lookup_insert_ne by done; apply H].
  - intros j u. rewrite Es. destruct (decide (j = new)) as [-> | Hne].
    + rewrite lookup_insert_eq. intros [= <-]. split; rewrite ?Eo, ?Eq, ?Eor; try done; try (by intros ? ?%elem_of_nil).
      * destruct Hcase as [(_ & -> & -> & _) | (l & lt & _ & _ & _ & -> & -> & _)]; [split; [done | by intros []] |]. rewrite elem_of_app, list_elem_of_singleton. split; [done | by right].
      * destruct Hcase as [(-> & _ & _ & ->) | (l & lt & -> & _ & _ & _ & _ & ->)]; [split; [done | set_solver] |]. split; [done | by intros []].
      * intros l El. destruct Hcase as [(El' & _) | (l' & lt & El' & Hl & Hls & Hb & _)]; [congruence |]. rewrite El' in El. injection El as <-. eauto.
    + rewrite lookup_insert_ne by done. intros Hu. eapply placed_ext; [by apply (t_placed _ _ _ H) | done | by apply Hlist | by apply Hown].
Qed.

(** ** Ports *)

Lemma find_sock_ret st (p : tcp_sock -> bool) l : (forall id, id ∈ l -> is_Some (socks st !! id)) ->
  exists o, find_sock st p l = Ret o /\ (forall id, o = Some id -> id ∈ l /\ exists t, socks st !! id = Some t /\ p t = true) /\
    (o = None -> forall id t, id ∈ l -> socks st !! id = Some t -> p t = false).
Proof.
  induction l as [| id l IH]; intros Hl; [exists None; split_and!; try done; by intros _ ? ? ?%elem_of_nil |]. cbn [find_sock]. destruct (Hl id) as [t Ht]; [set_solver |].
  rewrite (get_some _ _ _ Ht). destruct (p t) eqn:Ep; [exists (Some id); split_and!; [done | | done]; intros ? [= <-]; split; [set_solver | eauto] |].
  destruct IH as (o & -> & H1 & H2); [intros j Hj; apply Hl; set_solver |]. exists o. split_and!; [done | |].
  - intros j Hj. destruct (H1 j Hj) as [H3 H4]. split; [set_solver | done].
  - intros Ho j u Hj Hu. apply elem_of_cons in Hj as [-> | Hj]; [congruence |]. by eapply H2.
Qed.

(** A port that some bound socket uses at the address. *)
Definition port_used (st : tcp) (laddr p : Z) : Prop := exists id t, id ∈ tcp_socks st /\ socks st !! id = Some t /\ uses_port laddr p t = true.

Lemma port_in_use_ret st own laddr p : table_ok st own -> exists b, tcp_port_in_use_locked st laddr p = Ret b /\ (b = true <-> port_used st laddr p).
Proof.
  intros H. unfold tcp_port_in_use_locked. destruct (find_sock_ret st (uses_port laddr p) (tcp_socks st)) as (o & -> & H1 & H2); [intros id Hid; apply (t_live _ _ _ H); by left |].
  eexists. split; [done |]. rewrite bool_decide_eq_true. split.
  - intros Ho. destruct o as [id |]; [| done]. destruct (H1 id eq_refl) as (H3 & t & H4 & H5). by exists id, t.
  - intros (id & t & H3 & H4 & H5) ->. rewrite (H2 eq_refl _ _ H3 H4) in H5. done.
Qed.

Lemma next_ephemeral_range p : TCP_EPHEMERAL_START <= p <= TCP_EPHEMERAL_END ->
  TCP_EPHEMERAL_START <= next_ephemeral p <= TCP_EPHEMERAL_END /\ next_ephemeral p = (if p =? TCP_EPHEMERAL_END then TCP_EPHEMERAL_START else p + 1).
Proof.
  unfold next_ephemeral, TCP_EPHEMERAL_START, TCP_EPHEMERAL_END, wrap. intros H. destruct (Z.eqb_spec p 65535) as [-> |]; [done |].
  rewrite (Z.mod_small (p + 1)) by lia. destruct (Z.ltb_spec (p + 1) 49152); lia.
Qed.

(** The port [k] turns after [e]. *)
Definition port_at (e k : Z) : Z := TCP_EPHEMERAL_START + (e - TCP_EPHEMERAL_START + k) mod 16384.

Lemma port_at_next e k : TCP_EPHEMERAL_START <= e <= TCP_EPHEMERAL_END -> port_at (next_ephemeral e) k = port_at e (k + 1).
Proof.
  intros H. destruct (next_ephemeral_range e H) as [_ ->]. unfold port_at, TCP_EPHEMERAL_START, TCP_EPHEMERAL_END in *. f_equal.
  destruct (Z.eqb_spec e 65535) as [-> |]; [| f_equal; lia]. replace (65535 - 49152 + (k + 1)) with (49152 - 49152 + k + 1 * 16384) by lia. by rewrite Z_mod_plus_full.
Qed.

Lemma port_loop_ret turns : forall st own laddr, table_ok st own ->
  exists st' p, port_loop st laddr turns = Ret (st', p) /\ table_ok st' own /\ socks st' = socks st /\ tcp_socks st' = tcp_socks st /\
    (p = 0 /\ (forall k, 0 <= k < Z.of_nat turns -> port_used st laddr (port_at (tcp_ephemeral st) k)) \/
     TCP_EPHEMERAL_START <= p <= TCP_EPHEMERAL_END /\ ~ port_used st laddr p).
Proof.
  induction turns as [| turns IH]; intros st own laddr H; cbn [port_loop]; [exists st, 0; split_and!; try done; left; split; [done | intros; lia] |].
  pose proof (t_port _ _ _ H) as Hport. set (st1 := set_tcp_ephemeral _ st). destruct (next_ephemeral_range _ Hport) as [Hr _].
  assert (H1 : table_ok st1 own) by (apply (table_same _ st); done).
  destruct (port_in_use_ret st1 own laddr (tcp_ephemeral st) H1) as (b & -> & Hb). destruct b.
  - destruct (IH st1 own laddr H1) as (st' & p & E & H2 & E1 & E2 & Hp). exists st', p. split_and!; try done. destruct Hp as [[-> Hp] | Hp]; [left | by right]. split; [done |].
    intros k Hk. destruct (Z.eq_dec k 0) as [-> | Hne].
    + unfold port_at. rewrite Z.add_0_r, Z.mod_small, Zplus_minus by (unfold TCP_EPHEMERAL_START, TCP_EPHEMERAL_END in *; lia). by apply Hb.
    + specialize (Hp (k - 1) ltac:(lia)). cbn [tcp_ephemeral st1 set_tcp_ephemeral] in Hp. rewrite port_at_next in Hp by done. by replace (k - 1 + 1) with k in Hp by lia.
  - exists st1, (tcp_ephemeral st). split_and!; try done. right. split; [done |]. intros F. by apply Hb in F.
Qed.

(** Automatic ports. [tcp_alloc_port_locked] always returns; it returns a port of the range 49152 to 65535 that no
    bound socket uses at the address, or 0 exactly when there is none, wherever the search starts and however it wraps. *)
Theorem tcp_alloc_port_correct (st : tcp) (own : gset Z) (laddr : Z) : table_ok st own ->
  exists st' p, tcp_alloc_port_locked st laddr = Ret (st', p) /\ table_ok st' own /\
    (p <> 0 -> TCP_EPHEMERAL_START <= p <= TCP_EPHEMERAL_END /\ ~ port_used st laddr p) /\
    (p = 0 <-> forall q, TCP_EPHEMERAL_START <= q <= TCP_EPHEMERAL_END -> port_used st laddr q).
Proof.
  intros H. unfold tcp_alloc_port_locked. destruct (port_loop_ret (Z.to_nat (TCP_EPHEMERAL_END - TCP_EPHEMERAL_START + 1)) st own laddr H) as (st' & p & E & H1 & _ & _ & Hp).
  exists st', p. pose proof (t_port _ _ _ H) as Hport. unfold TCP_EPHEMERAL_START, TCP_EPHEMERAL_END in *. split_and!; [done | done | |].
  - intros Hne. destruct Hp as [[-> _] | Hp]; done.
  - destruct Hp as [[-> Hp] | [Hp1 Hp2]]; [split; [intros _ q Hq | done] | split; [lia |]; intros F; destruct (Hp2 (F p Hp1))].
    specialize (Hp ((q - tcp_ephemeral st) mod 16384)). rewrite Z2Nat.id in Hp by lia. assert (Hb := Z.mod_pos_bound (q - tcp_ephemeral st) 16384). specialize (Hp ltac:(lia)).
    unfold port_at, TCP_EPHEMERAL_START in Hp. rewrite Zplus_mod_idemp_r in Hp. replace (tcp_ephemeral st - 49152 + (q - tcp_ephemeral st)) with (q - 49152) in Hp by lia.
    by rewrite Z.mod_small, Zplus_minus in Hp by lia.
Qed.

(** ** What the calls do to one socket *)

(** A change that neither the table nor the other sockets notice. *)
Definition keeps (t t' : tcp_sock) : Prop := bound t' = bound t /\ quiet t t' /\ (state t' = TCP_LISTEN -> state t = TCP_LISTEN) /\ (sock_ok t -> sock_ok t').

Lemma keep_refl t : keeps t t.
Proof. by split_and!. Qed.

Lemma keep_trans t t' t'' : keeps t t' -> keeps t' t'' -> keeps t t''.
Proof.
  intros (A1 & (A2 & A3 & A4 & A5 & A6) & A7 & A8) (B1 & (B2 & B3 & B4 & B5 & B6) & B7 & B8). split_and!; [congruence | | auto | auto].
  split_and!; try congruence. auto.
Qed.

Lemma keeps_state_of t t' : keeps t t' -> state t <> TCP_LISTEN -> state t' <> TCP_LISTEN.
Proof. intros (_ & _ & H & _) Hn E. auto. Qed.

(** Only fields the invariant does not speak of differ. *)
Ltac keeps_fields := split_and!; [done | done | done | intros [K1 K2 K3 K4 K5 Kc Kl K6 K7 K8 K9]; by split].

Lemma keeps_state t s : state t <> TCP_LISTEN -> s <> TCP_LISTEN -> s <> TCP_SYN_RECV -> (s = TCP_CLOSE \/ state t <> TCP_CLOSE \/ bound t = true) ->
  (s = TCP_CLOSE -> tx_kind t = TCP_TX_NONE) -> (s = TCP_LAST_ACK -> tx_kind t = TCP_TX_FIN /\ snd_nxt t = u32 (tx_seq t + 1)) -> keeps t (set_state s t).
Proof.
  intros H1 H2 H3 H4 H5 H6. split_and!; [done | by split_and! | done | intros [K1 K2 K3 K4 K5 Kc Kl K6 K7 K8 K9]; split; cbn; try done].
  - intros Hs. destruct H4 as [| [H4 | H4]]; [done | by apply K4 | done].
  - auto.
  - intros _. auto.
  - intros l E. split; [by apply K9 | done].
Qed.

Lemma keeps_clear t : keeps t (tcp_clear_tx_locked t).
Proof.
  split_and!; [done | done | done | intros [K1 K2 K3 K4 K5 Kc Kl K6 K7 K8 K9]; split; cbn; try done; [constructor | | by left]]. intros E. by destruct (K5 E) as (_ & ? & ?).
Qed.

Lemma keeps_error e t : state t <> TCP_LISTEN -> keeps t (tcp_set_error_locked e t).
Proof.
  intros H. split_and!; [done | by split_and! | done | intros [K1 K2 K3 K4 K5 Kc Kl K6 K7 K8 K9]; split; cbn; try done; [constructor | auto |]].
  intros l E. split; [by apply K9 | done].
Qed.

Lemma keeps_ack g t : keeps t (fst (rcv_ack g t)).
Proof.
  unfold rcv_ack. destruct (has _ _); [| apply keep_refl]. set (t1 := if _ && _ then _ else _). assert (K1 : keeps t t1) by (unfold t1; destruct (_ && _); [keeps_fields | apply keep_refl]).
  clearbody t1. pose proof (keep_trans _ _ _ K1 (keeps_clear t1)) as K2.
  destruct (decide (tx_kind t1 = TCP_TX_DATA)) as [E | N].
  - destruct (tcp_seq_geq _ (u32 (tx_seq t1 + tx_len t1))); cbn [fst]; destruct (decide _); try done; try congruence; by destruct (tcp_seq_geq _ _).
  - destruct (decide _); [| done]. by destruct (tcp_seq_geq _ _).
Qed.

Lemma keeps_payload a b g t : keeps t (fst (fst (rcv_payload a b g t))).
Proof.
  unfold rcv_payload. destruct (_ =? 0); [apply keep_refl |]. destruct (_ =? _); [| apply keep_refl]. destruct (orphan t); [keeps_fields |].
  destruct (_ <? _); [keeps_fields | apply keep_refl].
Qed.

Lemma keeps_fin now g t : state t <> TCP_LISTEN -> keeps t (fst (fst (rcv_fin now g t))).
Proof.
  intros H. unfold rcv_fin. destruct (has _ _); [| apply keep_refl]. destruct (_ =? _); [| apply keep_refl].
  assert (K0 : keeps t (set_rcv_nxt (u32 (rcv_nxt t + 1)) t)) by keeps_fields. cbn [state set_rcv_nxt fst]. eapply keep_trans; [exact K0 |].
  destruct (state t) eqn:E; try keeps_fields.
  - eapply keep_trans; [apply (keeps_state _ TCP_CLOSE_WAIT); cbn; rewrite ?E; first [done | auto] |]. keeps_fields.
  - eapply keep_trans; [apply (keeps_state _ TCP_TIME_WAIT); cbn; rewrite ?E; first [done | auto] |]. keeps_fields.
  - eapply keep_trans; [apply (keeps_state _ TCP_TIME_WAIT); cbn; rewrite ?E; first [done | auto] |]. keeps_fields.
Qed.

Lemma keeps_closing now g t : state t <> TCP_LISTEN -> (state t = TCP_LAST_ACK -> has (g_flags g) TCP_ACK && (g_ack g =? snd_nxt t) = true -> tx_kind t = TCP_TX_NONE) ->
  keeps t (rcv_closing now g t).
Proof.
  intros H Hlast. unfold rcv_closing. generalize dependent (has (g_flags g) TCP_ACK && (g_ack g =? snd_nxt t)). intros k Hlast.
  destruct (decide (state t = TCP_FIN_WAIT_1)) as [E | N], k; rewrite ?decide_False by (cbn; congruence).
  - eapply keep_trans; [apply (keeps_state _ TCP_FIN_WAIT_2); rewrite ?E; first [done | auto] |]. keeps_fields.
  - apply keep_refl.
  - destruct (decide _) as [E' | N']; [| apply keep_refl]. apply keeps_state; rewrite ?E'; first [done | auto].
  - destruct (decide _); apply keep_refl.
Qed.

Lemma seq_geq_refl x : tcp_seq_geq x x = true.
Proof. unfold tcp_seq_geq. by rewrite Z.sub_diag. Qed.

(** The FIN of a socket in LAST_ACK is settled by the acknowledgement of everything sent. *)
Lemma last_ack_settled g t : sock_ok t -> state t = TCP_LAST_ACK -> has (g_flags g) TCP_ACK && (g_ack g =? snd_nxt t) = true -> tx_kind (fst (rcv_ack g t)) = TCP_TX_NONE.
Proof.
  intros Hok Es Eb. apply andb_true_iff in Eb as [E1 E2]. apply Z.eqb_eq in E2. unfold rcv_ack. rewrite E1. set (t1 := if _ && _ then _ else _).
  assert (T : tx_kind t1 = tx_kind t /\ tx_seq t1 = tx_seq t) by (unfold t1; by destruct (_ && _)). clearbody t1. destruct T as [T1 T2].
  destruct (k_last _ Hok Es) as [Ek | [Ek En]]; rewrite Ek in T1; rewrite T1, decide_False by done; cbv beta iota; rewrite T1.
  - by rewrite decide_False.
  - rewrite decide_True, T2, E2, En, seq_geq_refl by done. done.
Qed.

Lemma rcv_ack_sent g t : snd_nxt (fst (rcv_ack g t)) = snd_nxt t /\ state (fst (rcv_ack g t)) = state t.
Proof.
  unfold rcv_ack. destruct (has _ _); [| done]. set (t1 := if _ && _ then _ else _). assert (T : snd_nxt t1 = snd_nxt t /\ state t1 = state t) by (unfold t1; by destruct (_ && _)).
  clearbody t1. destruct T as [T1 T2]. repeat (case_match; cbn [fst]); simplify_eq/=; done.
Qed.

Lemma rcv_payload_sent a b g t : snd_nxt (fst (fst (rcv_payload a b g t))) = snd_nxt t /\ state (fst (fst (rcv_payload a b g t))) = state t /\
  tx_kind (fst (fst (rcv_payload a b g t))) = tx_kind t.
Proof. unfold rcv_payload. destruct (_ =? 0); [done |]. destruct (_ =? _); [| done]. destruct (orphan t); [done |]. by destruct (_ <? _). Qed.

Lemma rcv_fin_sent now g t : snd_nxt (fst (fst (rcv_fin now g t))) = snd_nxt t /\ tx_kind (fst (fst (rcv_fin now g t))) = tx_kind t /\
  (state (fst (fst (rcv_fin now g t))) = TCP_LAST_ACK -> state t = TCP_LAST_ACK).
Proof. unfold rcv_fin. destruct (has _ _); [| done]. destruct (_ =? _); [| done]. cbn [state set_rcv_nxt]. destruct (state t) eqn:E; cbn; by rewrite ?E. Qed.

Lemma keeps_data now a b g t : state t <> TCP_LISTEN -> sock_ok t -> keeps t (fst (fst (rcv_data now a b g t))).
Proof.
  intros H Hok. unfold rcv_data. pose proof (keeps_ack g t) as K1. pose proof (last_ack_settled g t Hok) as Hl. destruct (rcv_ack_sent g t) as [N1 S1]. destruct (rcv_ack g t) as [t1 w1].
  pose proof (keeps_payload a b g t1) as K2. destruct (rcv_payload_sent a b g t1) as (N2 & S2 & X2). destruct (rcv_payload a b g t1) as [[t2 r1] w2]. cbn [fst] in *. pose proof (keep_trans _ _ _ K1 K2) as K3.
  pose proof (keeps_fin now g t2 (keeps_state_of _ _ K3 H)) as K4. destruct (rcv_fin_sent now g t2) as (N3 & X3 & S3). destruct (rcv_fin now g t2) as [[t3 r2] w3]. cbn [fst] in *.
  pose proof (keep_trans _ _ _ K3 K4) as K5. eapply keep_trans; [exact K5 |]. apply keeps_closing; [by apply (keeps_state_of _ _ K5) |].
  intros E3 Eb. rewrite X3, X2. apply Hl; [rewrite <- S1, <- S2; by apply S3 | by rewrite <- N1, <- N2, <- N3].
Qed.

Lemma peer_mss_ok m : 0 <= m -> 0 <= peer_mss m <= TCP_MSS.
Proof. unfold peer_mss, TCP_MSS, TCP_DEFAULT_MSS. destruct (m =? 0); lia. Qed.

Lemma keeps_mss m t : 0 <= m -> keeps t (set_mss (peer_mss m) t).
Proof. intros Hm. split_and!; [done | done | done | intros [K1 K2 K3 K4 K5 Kc Kl K6 K7 K8 K9]; split; try done]. by apply peer_mss_ok. Qed.

Lemma keeps_snd_nxt v t : state t <> TCP_LAST_ACK -> keeps t (set_snd_nxt v t).
Proof. intros H. split_and!; [done | done | done | intros [K1 K2 K3 K4 K5 Kc Kl K6 K7 K8 K9]; by split]. Qed.

Lemma keeps_established t : state t = TCP_SYN_SENT -> keeps t (tcp_clear_tx_locked (set_connected true (set_state TCP_ESTABLISHED t))).
Proof.
  intros E. eapply keep_trans; [apply (keeps_state _ TCP_ESTABLISHED); rewrite ?E; first [done | auto] |].
  apply (keep_trans _ (set_connected true (set_state TCP_ESTABLISHED t))); [keeps_fields | apply keeps_clear].
Qed.

Lemma keeps_syn_sent g t : state t = TCP_SYN_SENT -> 0 <= g_mss g -> keeps t (fst (fst (rcv_syn_sent g t))).
Proof.
  intros E Hm. unfold rcv_syn_sent. destruct (_ && _); [| apply keep_refl]. cbv zeta. set (t0 := set_snd_una _ _). assert (A0 : keeps t t0) by keeps_fields.
  assert (E0 : state t0 = TCP_SYN_SENT) by exact E. clearbody t0. set (t1 := set_snd_wnd _ _).
  assert (A1 : keeps t0 t1) by (apply (keep_trans _ (set_snd_nxt (g_ack g) t0)); [apply keeps_snd_nxt; by rewrite E0 | keeps_fields]).
  assert (E1 : state t1 = TCP_SYN_SENT) by exact E0. clearbody t1. cbn [fst].
  eapply keep_trans; [exact A0 |]. eapply keep_trans; [exact A1 |]. eapply keep_trans; [by apply keeps_mss |]. by apply keeps_established.
Qed.

(** A packet for a socket that does not join an accept queue, and for one that does. *)
Lemma rcv_sock_ok now a b g t t' r w j : state t <> TCP_LISTEN -> sock_ok t -> 0 <= g_mss g -> rcv_sock now a b g t = (t', r, w, j) ->
  if j then exists l, listener t = Some l /\ accept_on t = None /\ accept_on t' = Some l /\ bound t' = bound t /\ orphan t' = orphan t /\ listener t' = Some l /\
              accept_queue t' = accept_queue t /\ state t' <> TCP_LISTEN /\ sock_ok t'
  else keeps t t'.
Proof.
  intros Hst Hok Hm E. unfold rcv_sock in E. destruct (has (g_flags g) TCP_RST); [injection E as <- <- <- <-; cbv iota; unfold rcv_rst; apply keeps_error; exact Hst |].
  assert (Hdata : (rcv_data now a b g t, false) = (t', r, w, j) -> if j then False else keeps t t').
  { intros E'. pose proof (keeps_data now a b g t Hst Hok) as K. destruct (rcv_data now a b g t) as [[t1 r1] w1]. by injection E' as <- _ _ <-. }
  destruct (state t) eqn:Es; try done; try (specialize (Hdata E); by destruct j).
  - pose proof (keeps_syn_sent g t Es Hm) as K. destruct (rcv_syn_sent g t) as [[t1 r1] w1]. by injection E as <- _ _ <-.
  - destruct (has _ TCP_SYN && _); [injection E as <- _ _ <-; apply keep_refl |]. destruct (_ || _); [injection E as <- _ _ <-; apply keep_refl |].
    set (t1 := set_connected _ _) in E. assert (K1 : keeps t t1).
    { eapply keep_trans; [assert (keeps t (set_snd_wnd (g_window g) (set_snd_una (g_ack g) t)) ) as K by keeps_fields; exact K |].
      eapply keep_trans; [apply (keeps_state _ TCP_ESTABLISHED); cbn; rewrite ?Es; first [done | auto] |]. keeps_fields. }
    destruct K1 as (A1 & (A2 & A3 & A4 & A5 & A6) & A7 & A8). specialize (A8 Hok).
    destruct (bool_decide (listener t1 <> None) && bool_decide (accept_on t1 = None)) eqn:Ej.
    + apply andb_true_iff in Ej as [Ej1 Ej2]. apply bool_decide_eq_true in Ej1, Ej2. destruct (listener t1) as [l |] eqn:El; [| done].
      assert (Hok1 : sock_ok (set_accept_on (Some l) t1)). { destruct A8 as [K1 K2 K3 K4 K5 Kc Kl K6 K7 K8 K9]. split; try done. cbn. intros l' [= <-]. by split. }
      pose proof (keeps_data now a b g (set_accept_on (Some l) t1) ltac:(done) Hok1) as K. pose proof (keeps_state_of _ _ K ltac:(done)) as Hs. destruct K as (B1 & (B2 & B3 & B4 & B5 & B6) & B7 & B8).
      destruct (rcv_data now a b g (set_accept_on (Some l) t1)) as [[t2 r2] w2]. cbn [fst] in *. injection E as <- _ _ <-. exists l.
      split_and!; [exact El | exact Ej2 | rewrite B4; reflexivity | rewrite B1; reflexivity | rewrite B2; reflexivity | rewrite B3; exact El | rewrite B5; reflexivity | exact Hs | apply B8, Hok1].
    + pose proof (keeps_data now a b g t1 ltac:(done) A8) as K. destruct (rcv_data now a b g t1) as [[t2 r2] w2]. cbn [fst] in K. injection E as <- _ _ <-.
      eapply keep_trans; [| exact K]. by split_and!.
Qed.

Lemma keeps_tx_kind k t : state t <> TCP_LISTEN -> state t <> TCP_CLOSE -> state t <> TCP_LAST_ACK -> keeps t (set_tx_kind k t).
Proof. intros H1 H2 H3. split_and!; [done | done | done | intros [K1 K2 K3 K4 K5 Kc Kl K6 K7 K8 K9]; by split]. Qed.

Lemma keeps_tx_seq v t : state t <> TCP_LAST_ACK -> keeps t (set_tx_seq v t).
Proof. intros H. split_and!; [done | done | done | intros [K1 K2 K3 K4 K5 Kc Kl K6 K7 K8 K9]; by split]. Qed.

Lemma keeps_tx_data d t : bytes d -> Z.of_nat (length d) <= TCP_MSS -> keeps t (set_tx_data d t).
Proof. intros H1 H2. split_and!; [done | done | done | intros [K1 K2 K3 K4 K5 Kc Kl K6 K7 K8 K9]; by split]. Qed.

(** A chain of updates; the state the tx fields are set in is left to show. *)
Ltac keeps_chain :=
  repeat match goal with
  | |- keeps ?t ?u => constr_eq t u; apply keep_refl
  | |- keeps ?t (set_tx_kind ?k ?u) => apply (keep_trans t u); [| apply keeps_tx_kind]
  | |- keeps ?t (set_tx_seq ?v ?u) => apply (keep_trans t u); [| apply keeps_tx_seq]
  | |- keeps ?t (set_snd_nxt ?v ?u) => apply (keep_trans t u); [| apply keeps_snd_nxt]
  | |- keeps ?t (set_tx_data ?d ?u) => apply (keep_trans t u); [| apply keeps_tx_data]
  | |- keeps ?t (set_state _ _) => fail 1
  | |- keeps ?t (?f ?v ?u) => apply (keep_trans t u); [| generalize v, u; intros ? ?; keeps_fields]
  end.

Lemma keeps_put gone st own id t t' : table_okg gone st own -> socks st !! id = Some t -> keeps t t' -> table_okg gone (put st id t') own.
Proof. intros H Ht (K1 & K2 & _ & K3). apply (put_ok _ _ _ _ t); try done. by eapply K3, t_sock. Qed.

(** What [queue_fin] sets before the state. *)
Definition fin_fields (now : Z) (t : tcp_sock) : tcp_sock :=
  set_rto_deadline_ns (u64 (now + TCP_RTO_NS)) (set_tx_retries 0 (set_tx_len 0 (set_tx_seq (snd_nxt t) (set_tx_kind TCP_TX_FIN (set_snd_nxt (u32 (snd_nxt t + 1)) t))))).

Lemma keeps_fin_fields now t : state t <> TCP_LISTEN -> state t <> TCP_CLOSE -> state t <> TCP_LAST_ACK -> keeps t (fin_fields now t).
Proof. intros H1 H2 H3. unfold fin_fields. keeps_chain; assumption. Qed.

Lemma can_send_state t : can_send t = true -> state t = TCP_ESTABLISHED \/ state t = TCP_CLOSE_WAIT.
Proof. unfold can_send. intros Hc. apply orb_true_iff in Hc as [Hc | Hc]; apply bool_decide_eq_true in Hc; auto. Qed.

Lemma keeps_queue_fin now t : can_send t = true -> keeps t (queue_fin now t).
Proof.
  intros Hc. apply can_send_state in Hc as Hs.
  assert (Hn : state t <> TCP_LISTEN /\ state t <> TCP_CLOSE /\ state t <> TCP_LAST_ACK) by (destruct Hs as [-> | ->]; done). destruct Hn as (Hn1 & Hn2 & Hn3).
  apply (keep_trans _ (fin_fields now (tcp_clear_tx_locked t))); [apply (keep_trans _ (tcp_clear_tx_locked t)); [apply keeps_clear | by apply keeps_fin_fields] |].
  change (queue_fin now t) with (set_state (if bool_decide (state t = TCP_CLOSE_WAIT) then TCP_LAST_ACK else TCP_FIN_WAIT_1) (fin_fields now (tcp_clear_tx_locked t))).
  assert (E : state (fin_fields now (tcp_clear_tx_locked t)) = state t) by reflexivity. assert (Ek : tx_kind (fin_fields now (tcp_clear_tx_locked t)) = TCP_TX_FIN) by reflexivity.
  assert (Eq : snd_nxt (fin_fields now (tcp_clear_tx_locked t)) = u32 (tx_seq (fin_fields now (tcp_clear_tx_locked t)) + 1)) by reflexivity.
  generalize dependent (fin_fields now (tcp_clear_tx_locked t)). intros u E Ek Eq.
  destruct (bool_decide _); apply keeps_state; rewrite ?E; first [done | auto].
Qed.

Lemma keeps_send_chunk now buf data t t' r : send_chunk now buf data t = (t', r) -> sock_ok t -> bytes data -> Z.of_nat (length data) <= TCP_MSS ->
  keeps t t' /\ (forall seq, keeps t (send_failed buf seq t')).
Proof.
  intros E Hok Hb Hl. assert (Hk : keeps t t').
  { unfold send_chunk in E. destruct (negb (err t =? 0)); [injection E as <- _; apply keep_refl |]. destruct (can_send t) eqn:Ec; cbn [negb] in E; [| injection E as <- _; apply keep_refl].
    destruct (negb (bool_decide _)); [injection E as <- _; apply keep_refl |]. injection E as <- _. apply can_send_state in Ec.
    assert (Hn : state t <> TCP_LISTEN /\ state t <> TCP_CLOSE /\ state t <> TCP_LAST_ACK) by (destruct Ec as [-> | ->]; done). destruct Hn as (Hn1 & Hn2 & Hn3). keeps_chain; assumption. }
  split; [done |]. intros seq. unfold send_failed. destruct (bool_decide _ && _) eqn:Eb; [| done]. apply andb_true_iff in Eb as [Eb _]. apply bool_decide_eq_true in Eb.
  eapply keep_trans; [exact Hk |]. apply (keep_trans _ (tcp_clear_tx_locked t')); [apply keeps_clear |]. apply keeps_snd_nxt. change (state t' <> TCP_LAST_ACK).
  intros Es. destruct Hk as (_ & _ & _ & Hk). destruct (k_last _ (Hk Hok) Es) as [F | [F _]]; congruence.
Qed.

Lemma keeps_recvmsg len nonblock copied t : keeps t (fst (tcp_recvmsg len nonblock copied t)).
Proof.
  unfold tcp_recvmsg. destruct (bool_decide _); [apply keep_refl |]. destruct (rcv_queue t); destruct (negb (sk_err t =? 0)); try apply keep_refl; [| keeps_fields].
  destruct (eof t); [apply keep_refl |]. destruct nonblock; apply keep_refl.
Qed.

Lemma keeps_shutdown now how t t' r : tcp_shutdown now how t = (t', r) -> keeps t t'.
Proof.
  unfold tcp_shutdown. set (t1 := if _ || _ then _ else t). assert (K1 : keeps t t1) by (unfold t1; destruct (_ || _); [keeps_chain | apply keep_refl]).
  assert (E1 : can_send t1 = can_send t) by (unfold t1; by destruct (_ || _)). clearbody t1.
  destruct (negb _); [intros [= <- _]; done |]. destruct (can_send t1) eqn:Ec; intros [= <- _]; [| done]. eapply keep_trans; [exact K1 |]. by apply keeps_queue_fin.
Qed.

(** ** Sending never halts *)

Lemma tcp_build_ret n t seq ack flags data m : 0 <= flags < 256 -> bytes data -> Z.of_nat (length data) <= 65000 -> exists b, tcp_build_segment n t seq ack flags data m = Ret b.
Proof.
  intros Hf Hd Hl. unfold tcp_build_segment. destruct (daddr t =? 0); [by eexists |]. destruct (ip_route_output n (daddr t)) as [e | ip]; [by eexists |]. destruct (negb _); [by eexists |].
  destruct (fill_check_ok (if saddr t =? 0 then ip else saddr t) (daddr t) (sport t) (dport t) seq ack m flags (u16 (rcv_wnd t)) data Hf Hd Hl) as (c & -> & _). by eexists.
Qed.

Lemma tcp_send_ret n t seq ack flags data m : 0 <= flags < 256 -> bytes data -> Z.of_nat (length data) <= 65000 -> exists s, tcp_send_segment n t seq ack flags data m = Ret s.
Proof.
  intros Hf Hd Hl. unfold tcp_send_segment. destruct (tcp_build_ret n t seq ack flags data m Hf Hd Hl) as [b ->]. destruct b as [e | [src d]]; by eexists.
Qed.

Lemma nil_bytes : bytes [].
Proof. constructor. Qed.

(** ** The calls keep the table *)

(** Late work that can be done: its socket is there, and the flags of a reply are a byte. *)
Definition flags_ok (w : late_work) : Prop := match w with LateReply _ r => 0 <= snd (fst r) < 256 | _ => True end.

Definition work_ok (st : tcp) (w : late_work) : Prop := is_Some (socks st !! late_sock w) /\ flags_ok w.

Lemma create_ok st own protocol alloc : table_ok st own -> fresh st alloc ->
  exists st' own' late, exec (Create protocol alloc) st own = Ret (st', own', late) /\ table_ok st' own' /\ Forall (work_ok st') late.
Proof.
  intros H Hf. cbn [exec]. unfold tcp_sock_create. destruct (_ && _); [by eexists _, _, _ |]. destruct alloc as [new |]; [| by eexists _, _, _].
  eexists _, _, _. split; [done |]. split; [| done]. apply (add_ok st _ own _ new tcp_alloc_sock); try done; [by apply Hf | | by left].
  split; try done; [constructor | constructor].
Qed.

Lemma alloc_port_ret st own laddr : table_ok st own ->
  exists st' p, tcp_alloc_port_locked st laddr = Ret (st', p) /\ table_ok st' own /\ socks st' = socks st.
Proof. intros H. destruct (port_loop_ret (Z.to_nat (TCP_EPHEMERAL_END - TCP_EPHEMERAL_START + 1)) st own laddr H) as (st' & p & E & H1 & H2 & _). by exists st', p. Qed.

Lemma bound_ok b p t : sock_ok t -> sock_ok (set_bound true (set_sport p (set_saddr b t))).
Proof. intros [K1 K2 K3 K4 K5 Kc Kl K6 K7 K8 K9]. by split. Qed.

Lemma bind_ok st own id laddr lport : table_ok st own -> id ∈ own -> exists st' r, tcp_bind st id laddr lport = Ret (st', r) /\ table_ok st' own.
Proof.
  intros H Hid. destruct (own_live _ _ _ _ H Hid) as (t & Ht & Hok & Hp). unfold tcp_bind. rewrite (get_some _ _ _ Ht). destruct (bound t) eqn:Eb; [by eexists _, _ |].
  assert (Hr : exists st' p fails, (if lport =? 0 then let! r := tcp_alloc_port_locked st laddr in let (st, port) := r in Ret (st, port, port =? 0)
    else let! used := tcp_port_in_use_locked st laddr lport in Ret (st, lport, used)) = Ret (st', p, fails) /\ table_ok st' own /\ socks st' = socks st).
  { destruct (lport =? 0).
    - destruct (alloc_port_ret st own laddr H) as (st' & p & -> & H1 & H2). by eexists _, _, _.
    - destruct (port_in_use_ret st own laddr lport H) as (b & -> & _). by eexists _, _, _. }
  destruct Hr as (st' & p & fails & -> & H1 & H2). destruct fails; [by eexists _, _ |]. eexists _, _. split; [done |].
  apply (link_ok st' own id t); [done | by rewrite H2 | done | done | done | by apply bound_ok].
Qed.

Lemma autobind_ok st own id : table_ok st own -> id ∈ own -> exists st' e t', tcp_autobind st id = Ret (st', e) /\ table_ok st' own /\ socks st' !! id = Some t' /\
  (exists t, socks st !! id = Some t /\ state t' = state t) /\ (e = 0 -> bound t' = true).
Proof.
  intros H Hid. destruct (own_live _ _ _ _ H Hid) as (t & Ht & Hok & Hp). unfold tcp_autobind. rewrite (get_some _ _ _ Ht). destruct (bound t) eqn:Eb; [exists st, 0, t; split_and!; by eauto |].
  destruct (alloc_port_ret st own (saddr t) H) as (st' & p & -> & H1 & H2). destruct (p =? 0); [exists st', (- EADDRINUSE), t; rewrite H2; split_and!; by eauto |].
  eexists _, _, _. split; [done |]. split; [apply (link_ok st' own id t (set_bound true (set_sport p t))) |]; [done | by rewrite H2 | done | done | done | |].
  - destruct Hok as [K1 K2 K3 K4 K5 Kc Kl K6 K7 K8 K9]. by split.
  - split_and!; [apply lookup_insert_eq | by exists t | done].
Qed.

Lemma listen_ok st own id bl : table_ok st own -> id ∈ own -> exists st' r, tcp_listen st id bl = Ret (st', r) /\ table_ok st' own.
Proof.
  intros H Hid. unfold tcp_listen. destruct (autobind_ok st own id H Hid) as (st1 & e & t & -> & H1 & Ht & _ & Hb). destruct (Z.eqb_spec e 0) as [-> | Ne]; cbn [negb]; [| by eexists _, _].
  rewrite (get_some _ _ _ Ht). destruct (bool_decide_reflect (state t = TCP_CLOSE)) as [Es | Ns]; cbn [negb]; [| by eexists _, _]. eexists _, _. split; [done |].
  pose proof (t_placed _ _ _ H1 _ _ Ht) as [P1 P2 P3 P4 P5 P6]. destruct (proj1 P2 Hid) as [Po Pl].
  apply (put_ok _ _ _ _ t); [done | done | done | by split_and!; rewrite ?Es |].
  pose proof (t_sock _ _ _ H1 _ _ Ht) as [K1 K2 K3 K4 K5 Kc Kl K6 K7 K8 K9]. split; try done; cbn; auto.
  intros l E. split; [by apply K9 | done].
Qed.

(** The updates of [tcp_connect], in three parts. *)
Definition syn_numbers (i : Z) (t : tcp_sock) : tcp_sock := set_rcv_nxt 0 (set_snd_nxt (u32 (i + 1)) (set_snd_una i (set_iss i t))).
Definition syn_reset (t : tcp_sock) : tcp_sock := tcp_clear_tx_locked (set_shutdown false (set_eof false (set_sk_err 0 (set_err 0 t)))).
Definition syn_tx (now : Z) (t : tcp_sock) : tcp_sock :=
  set_rto_deadline_ns (u64 (now + TCP_RTO_NS)) (set_tx_retries 0 (set_tx_len 0 (set_tx_seq (iss t) (set_tx_kind TCP_TX_SYN t)))).

Lemma keeps_syn_numbers i t : state t <> TCP_LAST_ACK -> keeps t (syn_numbers i t).
Proof. intros H. unfold syn_numbers. keeps_chain. exact H. Qed.

Lemma keeps_syn_reset t : keeps t (syn_reset t).
Proof. unfold syn_reset. apply (keep_trans _ (set_shutdown false (set_eof false (set_sk_err 0 (set_err 0 t))))); [keeps_chain | apply keeps_clear]. Qed.

Lemma keeps_syn_tx now t : state t = TCP_SYN_SENT -> keeps t (syn_tx now t).
Proof.
  intros H. assert (Hn : state t <> TCP_LISTEN /\ state t <> TCP_CLOSE /\ state t <> TCP_LAST_ACK) by (by rewrite H). destruct Hn as (H1 & H2 & H3).
  unfold syn_tx. keeps_chain; assumption.
Qed.

Lemma keeps_connect i now t : state t = TCP_CLOSE -> bound t = true -> keeps t (syn_tx now (syn_reset (set_state TCP_SYN_SENT (syn_numbers i t)))).
Proof.
  intros Es Hb. apply (keep_trans _ (syn_numbers i t)); [apply keeps_syn_numbers; by rewrite Es |]. assert (E1 : state (syn_numbers i t) = TCP_CLOSE) by exact Es.
  assert (B1 : bound (syn_numbers i t) = true) by exact Hb. generalize dependent (syn_numbers i t). intros u E1 B1.
  apply (keep_trans _ (set_state TCP_SYN_SENT u)); [apply keeps_state; rewrite ?E1; first [done | auto] |].
  assert (E2 : state (set_state TCP_SYN_SENT u) = TCP_SYN_SENT) by reflexivity. generalize dependent (set_state TCP_SYN_SENT u). intros v E2.
  apply (keep_trans _ (syn_reset v)); [apply keeps_syn_reset |]. by apply keeps_syn_tx.
Qed.

Lemma connect_ok st own now n id da dp : table_ok st own -> id ∈ own -> exists st' r out, tcp_connect st now n id da dp = Ret (st', r, out) /\ table_ok st' own.
Proof.
  intros H Hid. destruct (own_live _ _ _ _ H Hid) as (t & Ht & _ & _). unfold tcp_connect. rewrite (get_some _ _ _ Ht).
  destruct (bool_decide_reflect (state t = TCP_CLOSE)) as [Es | Ns]; cbn [negb]; [| by eexists _, _, _].
  set (t0 := set_connected true _). assert (K0 : keeps t t0) by (unfold t0; keeps_chain). assert (Es0 : state t0 = TCP_CLOSE) by exact Es. clearbody t0.
  pose proof (keeps_put _ _ _ _ _ _ H Ht K0) as H0. destruct (autobind_ok _ own id H0 Hid) as (st1 & e & t1 & -> & H1 & Ht1 & (t0' & Ht0 & Est) & Hb).
  rewrite socks_put, decide_True in Ht0 by done. injection Ht0 as <-. destruct (Z.eqb_spec e 0) as [-> | Ne]; cbn [negb]; [| by eexists _, _, _]. specialize (Hb eq_refl).
  unfold tcp_isn. set (i := u32 (u32 now + _)). set (st2 := set_isn_counter _ st1). assert (H2 : table_ok st2 own) by (apply (table_same _ st1); try done; apply H1).
  assert (Ht2 : socks st2 !! id = Some t1) by done. clearbody st2 i. rewrite (get_some _ _ _ Ht2).
  rewrite Es0 in Est. pose proof (keeps_connect i now t1 Est Hb) as K6.
  change (set_rto_deadline_ns _ _) with (syn_tx now (syn_reset (set_state TCP_SYN_SENT (syn_numbers i t1)))).
  assert (B6 : state (syn_tx now (syn_reset (set_state TCP_SYN_SENT (syn_numbers i t1)))) = TCP_SYN_SENT) by reflexivity.
  generalize dependent (syn_tx now (syn_reset (set_state TCP_SYN_SENT (syn_numbers i t1)))). intros t6 K6 B6.
  destruct (tcp_send_ret n t6 (iss t6) 0 TCP_SYN [] true ltac:(done) nil_bytes ltac:(done)) as [[e2 out] ->].
  destruct (negb (e2 =? 0)); eexists _, _, _; (split; [done |]); [| by eapply keeps_put]. eapply keeps_put; [exact H2 | exact Ht2 |].
  eapply keep_trans; [exact K6 |]. apply (keep_trans _ (tcp_clear_tx_locked t6)); [apply keeps_clear |]. apply keeps_state; try done; [by change (state t6 <> TCP_LISTEN); rewrite B6 | by left].
Qed.

(** A child is taken from the queue of its listener. *)
Lemma accepted_ok st own l t q ch c v : table_ok st own -> socks st !! l = Some t -> accept_queue t = ch :: q -> socks st !! ch = Some c ->
  table_ok (put (put st l (set_accept_backlog v (set_accept_queue q t))) ch (set_listener None (set_accept_on None c))) (own ∪ {[ch]}) /\
  ch <> l /\ (ch ∉ own) /\ state c <> TCP_LISTEN.
Proof.
  intros H Ht Eq Hc. destruct (p_queue _ _ _ _ _ (t_placed _ _ _ H _ _ Ht) ch) as (c' & Hc' & Eo); [rewrite Eq; set_solver |]. rewrite Hc in Hc'. injection Hc' as <-.
  destruct (k_on _ (t_sock _ _ _ H _ _ Hc) l Eo) as [El Enr]. destruct (t_placed _ _ _ H _ _ Hc) as [C1 C2 C3 C4 C5 C6]. destruct (C4 l El) as (Hb & lt & Hlt & Hls). rewrite Ht in Hlt. injection Hlt as <-.
  assert (Hne : ch <> l). { intros ->. rewrite Ht in Hc. injection Hc as <-. destruct (k_listen _ (t_sock _ _ _ H _ _ Ht) Hls) as (_ & _ & F). congruence. }
  assert (Hcs : state c <> TCP_LISTEN) by (intros F; destruct (k_listen _ (t_sock _ _ _ H _ _ Hc) F) as (_ & _ & F'); congruence).
  assert (Ecq : accept_queue c = []) by (by apply (k_queue _ (t_sock _ _ _ H _ _ Hc))).
  assert (Eor : orphan c = false) by (destruct (orphan c) eqn:E; [destruct (C3 eq_refl); congruence | done]). assert (Hno : ch ∉ own) by (rewrite C2; intros []; congruence).
  assert (Hnd : (ch ∉ q) /\ NoDup q) by (pose proof (k_nodup _ (t_sock _ _ _ H _ _ Ht)) as Hd; rewrite Eq in Hd; by apply list.NoDup_cons in Hd). destruct Hnd as [Hq1 Hq2].
  split; [| done]. set (t' := set_accept_backlog v _). set (c' := set_listener None _). set (st' := put _ ch c').
  assert (Hlook : forall j u, socks st' !! j = Some u -> j = ch /\ u = c' \/ j = l /\ u = t' \/ j <> ch /\ j <> l /\ socks st !! j = Some u).
  { intros j u. unfold st'. rewrite socks_put. case_decide; [intros [= <-]; auto |]. rewrite socks_put. case_decide; [intros [= <-]; auto | auto]. }
  assert (Hl' : socks st' !! l = Some t') by (unfold st'; rewrite socks_put, decide_False, socks_put, decide_True by done; done).
  assert (Hoth : forall j u, j <> ch -> j <> l -> socks st !! j = Some u -> socks st' !! j = Some u) by (intros j u N1 N2 Hu; unfold st'; rewrite socks_put, decide_False, socks_put, decide_False by done; done).
  assert (Hlis : forall j lt, socks st !! j = Some lt -> state lt = TCP_LISTEN -> exists lt', socks st' !! j = Some lt' /\ state lt' = TCP_LISTEN).
  { intros j lt Hlt Es. destruct (decide (j = l)) as [-> | N]; [exists t'; split; [done | exact Hls] |]. exists lt. split; [apply Hoth; [congruence | done | done] | done]. }
  split.
  - apply H.
  - apply H.
  - intros j Hj. unfold st'. rewrite socks_put. case_decide; [done |]. rewrite socks_put. case_decide; [done |]. apply (t_live _ _ _ H). cbn in Hj. by set_solver.
  - intros j u Hu. destruct (Hlook _ _ Hu) as [[-> ->] | [[-> ->] | (_ & _ & Hu')]]; [| | by eapply t_sock].
    + destruct (t_sock _ _ _ H _ _ Hc) as [K1 K2 K3 K4 K5 Kc Kl K6 K7 K8 K9]. split; try done.
    + destruct (t_sock _ _ _ H _ _ Ht) as [K1 K2 K3 K4 K5 Kc Kl K6 K7 K8 K9]. by split.
  - intros j u Hu. destruct (Hlook _ _ Hu) as [[-> ->] | [[-> ->] | (N1 & N2 & Hu')]].
    + split; try done; cbn; rewrite ?Eor, ?Ecq; first [done | by intros ? ?%elem_of_nil | clear; set_solver].
    + destruct (t_placed _ _ _ H _ _ Ht) as [P1 P2 P3 P4 P5 P6]. split; try done.
      * cbn. rewrite <- P2. clear -Hno Hne. set_solver.
      * intros l' E. destruct (P4 l' E) as (B & lt & A1 & A2). split; [done |]. by eapply Hlis.
      * intros l' E. destruct (k_listen _ (t_sock _ _ _ H _ _ Ht) Hls) as (_ & _ & F). destruct (k_on _ (t_sock _ _ _ H _ _ Ht) l' E). congruence.
      * intros x Hx. cbn in Hx. destruct (P6 x) as (cx & A1 & A2); [rewrite Eq; set_solver |]. exists cx. split; [apply Hoth; [congruence | | done] | done].
        intros ->. rewrite Ht in A1. injection A1 as <-. destruct (k_on _ (t_sock _ _ _ H _ _ Ht) l A2). destruct (k_listen _ (t_sock _ _ _ H _ _ Ht) Hls) as (_ & _ & F). congruence.
    + destruct (t_placed _ _ _ H _ _ Hu') as [P1 P2 P3 P4 P5 P6]. split; try done.
      * rewrite <- P2. set_solver.
      * intros l' E. destruct (P4 l' E) as (B & lt & A1 & A2). split; [done |]. by eapply Hlis.
      * intros l' E. destruct (P5 l' E) as (lt & A1 & A2). destruct (decide (l' = l)) as [-> | N3].
        -- rewrite Ht in A1. injection A1 as <-. exists t'. split; [done |]. rewrite Eq in A2. cbn. set_solver.
        -- exists lt. split; [apply Hoth; [| done | done] | done]. intros ->. rewrite Hc in A1. injection A1 as <-. rewrite Ecq in A2. by apply elem_of_nil in A2.
      * intros x Hx. destruct (P6 x Hx) as (cx & A1 & A2). destruct (decide (x = l)) as [-> | N3].
        -- rewrite Ht in A1. injection A1 as <-. by exists t'.
        -- exists cx. split; [apply Hoth; [congruence | done | done] | done].
Qed.

Lemma accept_ok st own id mem : table_ok st own -> id ∈ own ->
  exists st' r, tcp_accept st id mem = Ret (st', r) /\ table_ok st' (match r with Some (inr ch) => own ∪ {[ch]} | _ => own end).
Proof.
  intros H Hid. destruct (own_live _ _ _ _ H Hid) as (t & Ht & Hok & Hp). unfold tcp_accept. rewrite (get_some _ _ _ Ht). destruct (negb _); [by eexists _, _ |].
  destruct (accept_queue t) as [| ch q] eqn:Eq; [destruct (negb _); by eexists _, _ |].
  destruct (p_queue _ _ _ _ _ Hp ch) as (c & Hc & _); [rewrite Eq; set_solver |]. rewrite (get_some _ _ _ Hc).
  destruct (accepted_ok st own id t q ch c (if accept_backlog t =? 0 then 0 else accept_backlog t - 1) H Ht Eq Hc) as (H1 & Hne & Hno & Hcs).
  destruct mem; [by eexists _, _ |]. set (st1 := put _ ch _) in *. set (c1 := set_listener None _) in *. assert (Hc1 : socks st1 !! ch = Some c1) by (unfold st1; by rewrite socks_put, decide_True).
  destruct (unlink_free _ _ _ _ _ H1 Hc1 Hcs) as (st2 & -> & H2 & _). eexists _, _. split; [done |].
  assert (E : (own ∪ {[ch]}) ∖ {[ch]} = own) by (clear -Hno; set_solver). by rewrite E in H2.
Qed.

(** A child joins the queue of its listener. *)
Lemma join_ok st own id t t' l : table_ok st own -> socks st !! id = Some t -> listener t = Some l -> accept_on t = None -> accept_on t' = Some l ->
  bound t' = bound t -> orphan t' = orphan t -> listener t' = Some l -> accept_queue t' = accept_queue t -> state t <> TCP_LISTEN -> state t' <> TCP_LISTEN -> sock_ok t' ->
  exists lt, get (put st id t') l = Ret lt /\
    forall v, table_ok (put (put st id t') l (set_accept_backlog v (set_accept_queue (accept_queue lt ++ [id]) lt))) own.
Proof.
  intros H Ht El Eo Eo' Eb Eor El' Eq Hs Hs' Hok'. destruct (t_placed _ _ _ H _ _ Ht) as [P1 P2 P3 P4 P5 P6]. destruct (P4 l El) as (Hb & lt & Hlt & Hls).
  assert (Hne : l <> id) by (intros ->; congruence). exists lt. split; [apply get_some; by rewrite socks_put, decide_False |]. intros v.
  assert (Hnew : id ∉ accept_queue lt). { intros F. destruct (p_queue _ _ _ _ _ (t_placed _ _ _ H _ _ Hlt) id F) as (c & Hc & Hco). congruence. }
  assert (Etq : accept_queue t = []) by (by apply (k_queue _ (t_sock _ _ _ H _ _ Ht))). set (lt' := set_accept_backlog v _). set (st' := put _ l lt').
  assert (Hlook : forall j u, socks st' !! j = Some u -> j = l /\ u = lt' \/ j = id /\ u = t' \/ j <> id /\ j <> l /\ socks st !! j = Some u).
  { intros j u. unfold st'. rewrite socks_put. case_decide; [intros [= <-]; auto |]. rewrite socks_put. case_decide; [intros [= <-]; auto | auto]. }
  assert (Hl' : socks st' !! l = Some lt') by (unfold st'; by rewrite socks_put, decide_True).
  assert (Hid' : socks st' !! id = Some t') by (unfold st'; rewrite socks_put, decide_False, socks_put, decide_True by done; done).
  assert (Hoth : forall j u, j <> id -> j <> l -> socks st !! j = Some u -> socks st' !! j = Some u) by (intros j u N1 N2 Hu; unfold st'; rewrite socks_put, decide_False, socks_put, decide_False by done; done).
  assert (Hlis : forall j u, socks st !! j = Some u -> state u = TCP_LISTEN -> exists u', socks st' !! j = Some u' /\ state u' = TCP_LISTEN).
  { intros j u Hu Es. destruct (decide (j = l)) as [-> | N]; [exists lt'; split; [done | exact Hls] |]. exists u. split; [apply Hoth; [congruence | done | done] | done]. }
  assert (Hqueue : forall j u x, socks st !! j = Some u -> x ∈ accept_queue u -> exists c, socks st' !! x = Some c /\ accept_on c = Some j).
  { intros j u x Hu Hx. destruct (p_queue _ _ _ _ _ (t_placed _ _ _ H _ _ Hu) x Hx) as (c & Hc & Hco). destruct (decide (x = l)) as [-> | N].
    - exists lt'. split; [done |]. rewrite Hlt in Hc. by injection Hc as <-.
    - exists c. split; [apply Hoth; [congruence | done | done] | done]. }
  split.
  - apply H.
  - apply H.
  - intros j Hj. unfold st'. rewrite socks_put. case_decide; [done |]. rewrite socks_put. case_decide; [done |]. by apply (t_live _ _ _ H).
  - intros j u Hu. destruct (Hlook _ _ Hu) as [[-> ->] | [[-> ->] | (_ & _ & Hu')]]; [| done | by eapply t_sock].
    destruct (t_sock _ _ _ H _ _ Hlt) as [K1 K2 K3 K4 K5 Kc Kl K6 K7 K8 K9]. split; try done. cbn. apply list.NoDup_app. split_and!; [done | | apply NoDup_singleton].
    intros x Hx. rewrite list_elem_of_singleton. by intros ->.
  - intros j u Hu. destruct (Hlook _ _ Hu) as [[-> ->] | [[-> ->] | (N1 & N2 & Hu')]].
    + destruct (t_placed _ _ _ H _ _ Hlt) as [L1 L2 L3 L4 L5 L6]. split; try done.
      * intros l' E. destruct (L4 l' E) as (B & u & A1 & A2). split; [done |]. by eapply Hlis.
      * intros l' E. destruct (k_on _ (t_sock _ _ _ H _ _ Hlt) l' E) as [F _]. destruct (k_listen _ (t_sock _ _ _ H _ _ Hlt) Hls) as (_ & _ & F'). congruence.
      * intros x Hx. cbn in Hx. apply elem_of_app in Hx as [Hx | Hx]; [by eapply Hqueue |]. apply list_elem_of_singleton in Hx as ->. by exists t'.
    + split; rewrite ?Eb, ?Eor, ?Eq, ?Etq; try done; try (by intros ? ?%elem_of_nil).
      * rewrite El', <- El. exact P2.
      * intros E. destruct (P3 E). congruence.
      * intros l' E. rewrite El' in E. injection E as <-. split; [done |]. by eapply Hlis.
      * intros l' E. rewrite Eo' in E. injection E as <-. exists lt'. split; [done |]. cbn. apply elem_of_app. right. by apply list_elem_of_singleton.
    + destruct (t_placed _ _ _ H _ _ Hu') as [Q1 Q2 Q3 Q4 Q5 Q6]. split; try done.
      * intros l' E. destruct (Q4 l' E) as (B & u0 & A1 & A2). split; [done |]. by eapply Hlis.
      * intros l' E. destruct (Q5 l' E) as (u0 & A1 & A2). destruct (decide (l' = l)) as [-> | N3].
        -- rewrite Hlt in A1. injection A1 as <-. exists lt'. split; [done |]. cbn. apply elem_of_app. by left.
        -- exists u0. split; [apply Hoth; [| done | done] | done]. intros ->. rewrite Ht in A1. injection A1 as <-. rewrite Etq in A2. by apply elem_of_nil in A2.
      * intros x Hx. by eapply Hqueue.
Qed.

(** ** Packets *)

(** A segment that has found its socket. *)
Lemma deliver_ok st own id t now src dst g t' r w j : table_ok st own -> socks st !! id = Some t -> state t <> TCP_LISTEN -> 0 <= g_mss g ->
  rcv_sock now src dst g t = (t', r, w, j) ->
  exists st', (match listener t' with
     | Some l =>
         if j then let! lt := get (put st id t') l in
                   Ret (put (put st id t') l (set_accept_backlog (u32 (accept_backlog lt + 1)) (set_accept_queue (accept_queue lt ++ [id]) lt)))
         else Ret (put st id t')
     | None => Ret (put st id t')
     end) = Ret st' /\ table_ok st' own /\ is_Some (socks st' !! id).
Proof.
  intros H Ht Hs Hm E. pose proof (t_sock _ _ _ H _ _ Ht) as Hok. pose proof (rcv_sock_ok _ _ _ _ _ _ _ _ _ Hs Hok Hm E) as Hr. destruct j.
  - destruct Hr as (l & R1 & R2 & R3 & R4 & R5 & R6 & R7 & R8 & R9). destruct (join_ok st own id t t' l H Ht R1 R2 R3 R4 R5 R6 R7 Hs R8 R9) as (lt & Hg & Hj).
    rewrite R6, Hg. eexists. split; [done |]. split; [apply Hj |]. rewrite !socks_put. repeat case_decide; done.
  - exists (put st id t'). split; [by destruct (listener t') |]. split; [by eapply keeps_put | by rewrite socks_put, decide_True].
Qed.

Lemma child_ok st own now new lid l src sp dst dp seq window m : table_ok st own -> socks st !! new = None -> socks st !! lid = Some l -> state l = TCP_LISTEN -> 0 <= m ->
  table_ok (tcp_create_child st now new lid l src sp dst dp seq window m) own /\
  exists t, socks (tcp_create_child st now new lid l src sp dst dp seq window m) !! new = Some t /\ state t = TCP_SYN_RECV.
Proof.
  intros H Hnew Hl Hls Hm. unfold tcp_create_child, tcp_isn. set (i := u32 (u32 now + _)). set (t := set_created_ns _ _).
  assert (Hok : sock_ok t). { unfold t. split; try done; [by apply peer_mss_ok | constructor | constructor]. }
  assert (Et : state t = TCP_SYN_RECV /\ accept_on t = None /\ accept_queue t = [] /\ orphan t = false /\ listener t = Some lid /\ bound t = true) by done.
  clearbody t. destruct Et as (E1 & E2 & E3 & E4 & E5 & E6). split; [| exists t; split; [cbn; apply lookup_insert_eq | done]].
  apply (add_ok st _ own own new t); try done. right. by exists lid, l.
Qed.

Lemma reply_flags now a b g t t' r w j : rcv_sock now a b g t = (t', Some r, w, j) -> 0 <= snd (fst r) < 256.
Proof.
  unfold rcv_sock, rcv_data, rcv_syn_sent, rcv_payload, rcv_fin, ack_now, later. intros E. repeat (case_match; simplify_eq/=); done.
Qed.

(** The socket a segment is for, which a listener may have to create. *)
Lemma target_ok st own now alloc src dst g : table_ok st own -> fresh st alloc -> 0 <= g_mss g ->
  exists st' found r0, rcv_target st now alloc src dst g = Ret (st', found, r0) /\ table_ok st' own /\ (forall id, found = Some id -> is_Some (socks st' !! id)) /\ (forall r, r0 = Some r -> 0 <= snd (fst r) < 256).
Proof.
  intros H Hf Hm. assert (Hlive : forall id, id ∈ tcp_socks st -> is_Some (socks st !! id)) by (intros id Hid; apply (t_live _ _ _ H); by left).
  unfold rcv_target, tcp_lookup_exact_locked, tcp_lookup_listener_locked.
  match goal with |- context [find_sock st ?p (tcp_socks st)] => destruct (find_sock_ret st p (tcp_socks st) Hlive) as (o & -> & H1 & _) end.
  destruct o as [id |]; [eexists _, _, _; split; [done |]; split_and!; try done; intros ? [= <-]; by apply Hlive, H1 |].
  destruct (_ =? TCP_SYN); [| by eexists _, _, _].
  match goal with |- context [find_sock st ?p (tcp_socks st)] => destruct (find_sock_ret st p (tcp_socks st) Hlive) as (o & -> & H2 & _) end.
  destruct o as [lid |]; [| by eexists _, _, _]. destruct alloc as [new |]; [| by eexists _, _, _]. destruct (H2 lid eq_refl) as (_ & l & Hl & Hp).
  apply andb_true_iff in Hp as [Hp _]. apply andb_true_iff in Hp as [Hp _]. apply bool_decide_eq_true in Hp. rewrite (get_some _ _ _ Hl).
  destruct (child_ok st own now new lid l src (g_source g) dst (g_dest g) (g_seq g) (g_window g) (g_mss g) H (Hf new eq_refl) Hl Hp Hm) as [H3 (t & Ht & Es)].
  cbv zeta. rewrite (get_some _ _ _ Ht). eexists _, _, _. split; [done |]. split_and!; [done | intros ? [= <-]; by rewrite Ht | by intros ? [= <-]].
Qed.

Lemma packet_ok st own now alloc src dst d : table_ok st own -> fresh st alloc -> bytes d -> Z.of_nat (length d) <= 65535 ->
  exists st' e late wakes, tcp_rcv st now alloc src dst d = Ret (st', e, late, wakes) /\ table_ok st' own /\ Forall (work_ok st') late.
Proof.
  intros H Hf Hb Hl. unfold tcp_rcv. destruct (tcp_parse_ok src dst d Hb Hl) as (o & -> & Ho). destruct o as [g |]; [| by eexists _, _, _, _].
  destruct (Ho g eq_refl) as [(_ & _ & _ & _ & _ & _ & [Hm _] & _) _]. clear Ho. destruct (target_ok st own now alloc src dst g H Hf Hm) as (st1 & found & r0 & Htgt & H1 & Hfound & Hr0).
  rewrite Htgt. cbv beta iota.
  destruct found as [id |]; [| by eexists _, _, _, _]. destruct (Hfound id eq_refl) as [t Ht]. rewrite (get_some _ _ _ Ht).
  destruct (decide (state t = TCP_LISTEN)) as [E | N]; [by eexists _, _, _, _ |]. destruct (rcv_sock now src dst g t) as [[[t' r1] w] j] eqn:Er. cbv zeta.
  destruct (deliver_ok _ _ _ _ _ _ _ _ _ _ _ _ H1 Ht N Hm Er) as (st2 & -> & H2 & Hid). cbv beta iota. eexists _, _, _, _. split; [done |]. split; [done |].
  destruct (later r0 r1) as [r |] eqn:El; [| constructor]. apply Forall_singleton. split; [exact Hid |]. destruct r1 as [r1 |]; cbn in El; [injection El as ->; exact (reply_flags _ _ _ _ _ _ _ _ _ Er) | exact (Hr0 _ El)].
Qed.

(** ** Release *)

(** A user lets go of a socket that lingers. *)
Lemma orphan_ok st own id t t' : table_ok st own -> id ∈ own -> socks st !! id = Some t -> bound t' = true -> bound t = true -> orphan t' = true -> listener t' = listener t ->
  accept_on t' = accept_on t -> accept_queue t' = accept_queue t -> state t <> TCP_LISTEN -> sock_ok t' -> table_ok (put st id t') (own ∖ {[id]}).
Proof.
  intros H Hid Ht Hb' Hb Eo El Ea Eq Hs Hok'. destruct (t_placed _ _ _ H _ _ Ht) as [P1 P2 P3 P4 P5 P6]. destruct (proj1 P2 Hid) as [_ Eln].
  assert (Eno : accept_on t = None) by (destruct (accept_on t) as [l |] eqn:E; [destruct (k_on _ (t_sock _ _ _ H _ _ Ht) l E); congruence | done]).
  assert (Enq : accept_queue t = []) by (by apply (k_queue _ (t_sock _ _ _ H _ _ Ht))).
  assert (Hoth : forall j u, j <> id -> socks st !! j = Some u -> socks (put st id t') !! j = Some u) by (intros j u N Hu; by rewrite socks_put, decide_False).
  split; [apply H | apply H | | |].
  - intros j Hj. rewrite socks_put. case_decide; [done |]. apply (t_live _ _ _ H). cbn in Hj. clear -Hj. set_solver.
  - intros j u. rewrite socks_put. case_decide; [by intros [= <-] | apply H].
  - intros j u. rewrite socks_put. case_decide as E.
    + intros [= <-]. subst j. split; rewrite ?Hb', ?Eo, ?El, ?Ea, ?Eq, ?Enq, ?Eno, ?Eln; try done; try (by intros ? ?%elem_of_nil).
      * cbn. rewrite P1, Hb. done.
      * clear. split; [set_solver | by intros []].
    + intros Hu. destruct (t_placed _ _ _ H _ _ Hu) as [Q1 Q2 Q3 Q4 Q5 Q6]. split; try done.
      * rewrite <- Q2. clear -E. set_solver.
      * intros l E'. destruct (Q4 l E') as (B & lt & A1 & A2). split; [done |]. exists lt. split; [apply Hoth; [congruence | done] | done].
      * intros l E'. destruct (Q5 l E') as (lt & A1 & A2). exists lt. split; [apply Hoth; [| done] | done]. intros ->. rewrite Ht in A1. injection A1 as <-. rewrite Enq in A2. by apply elem_of_nil in A2.
      * intros x Hx. destruct (Q6 x Hx) as (c & A1 & A2). exists c. split; [apply Hoth; [congruence | done] | done].
Qed.

(** A listener leaves the list. *)
Lemma detach_ok st own id t : table_ok st own -> socks st !! id = Some t -> state t = TCP_LISTEN ->
  table_okg (Some id) (set_tcp_socks (filter (fun i => i <> id) (tcp_socks st)) st) own.
Proof.
  intros H Ht Hs. split; [apply H | apply list.NoDup_filter, H | | apply H |].
  - intros j Hj. apply (t_live _ _ _ H). cbn in Hj. rewrite list_elem_of_filter in Hj. tauto.
  - intros j u Hu. destruct (t_placed _ _ _ H _ _ Hu) as [P1 P2 P3 P4 P5 P6]. split; try done. cbn. rewrite list_elem_of_filter, P1. split; [intros (A & B & _); split; [done | congruence] | intros [A B]].
    split_and!; [congruence | done | done].
Qed.

Lemma release_children_ok id l : forall st own, table_okg (Some id) st own -> (exists t, socks st !! id = Some t /\ state t = TCP_LISTEN) -> NoDup l ->
  (forall j, j ∈ l -> j ∈ tcp_socks st) ->
  exists st', release_children st id l = Ret st' /\ table_okg (Some id) st' own /\ (exists t, socks st' !! id = Some t /\ state t = TCP_LISTEN) /\
    (forall j u, socks st' !! j = Some u -> listener u = Some id -> (j ∉ l) /\ exists u0, socks st !! j = Some u0 /\ listener u0 = Some id).
Proof.
  induction l as [| ch l IH]; intros st own H Hid Hnd Hl; cbn [release_children].
  { exists st. split_and!; try done. intros j u Hu El. split; [apply not_elem_of_nil | eauto]. }
  apply list.NoDup_cons in Hnd as [Hni Hnd]. destruct (list_live _ _ _ ch H) as (c & Hc & Hok & Hp); [apply Hl; set_solver |]. rewrite (get_some _ _ _ Hc).
  destruct (bool_decide_reflect (listener c = Some id)) as [El | Nl].
  - assert (Hcs : state c <> TCP_LISTEN) by (intros F; destruct (k_listen _ Hok F) as (_ & _ & F'); congruence).
    destruct (unlink_free _ _ _ _ _ H Hc Hcs) as (st1 & Eu & H1 & Hc1 & Hback & Hkeep). rewrite Eu, (get_some _ _ _ Hc1), kfree_put.
    assert (Eown : own ∖ {[ch]} = own). { assert (ch ∉ own) by (rewrite (p_own _ _ _ _ _ Hp); intros []; congruence). set_solver. } rewrite Eown in H1.
    assert (Hid1 : exists t, socks (kfree st1 ch) !! id = Some t /\ state t = TCP_LISTEN).
    { destruct Hid as (t & Ht & Hs). assert (Hne : id <> ch) by (intros ->; congruence). destruct (tcp_unlink_ret _ _ _ _ _ H Hc Hcs) as (st1' & Eu' & _ & _ & Ej).
      rewrite Eu in Eu'. injection Eu' as <-. exists (dequeued ch c id t). rewrite socks_kfree, decide_False, Ej, Ht by done. split; [done |]. by destruct (dequeued_same ch c id t) as (-> & _). }
    destruct (IH (kfree st1 ch) own H1 Hid1 Hnd) as (st2 & E2 & H2 & Hid2 & Hnone); [intros j Hj; apply Hkeep; [congruence | apply Hl; set_solver] |].
    exists st2. split_and!; try done. intros j u Hu Eu2. destruct (Hnone j u Hu Eu2) as (Hj & u0 & Hu0 & El0). destruct (Hback j u0 Hu0) as (u1 & Hu1 & El1). split; [| exists u1; split; [done | congruence]].
    apply not_elem_of_cons. split; [| done]. intros ->. rewrite socks_kfree, decide_True in Hu0 by done. done.
  - destruct (IH st own H Hid Hnd) as (st2 & E2 & H2 & Hid2 & Hnone); [intros j Hj; apply Hl; set_solver |]. exists st2. split_and!; try done.
    intros j u Hu Eu2. destruct (Hnone j u Hu Eu2) as (Hj & u0 & Hu0 & El0). split; [| eauto]. apply not_elem_of_cons. split; [congruence | done].
Qed.

Lemma free_listener_ok st own id t : table_okg (Some id) st own -> socks st !! id = Some t -> state t = TCP_LISTEN ->
  (forall j u, socks st !! j = Some u -> listener u <> Some id) -> table_ok (kfree st id) (own ∖ {[id]}).
Proof.
  intros H Ht Hs Hnone. pose proof (p_list _ _ _ _ _ (t_placed _ _ _ H _ _ Ht)) as Hout.
  assert (Hoth : forall j u, j <> id -> socks st !! j = Some u -> socks (kfree st id) !! j = Some u) by (intros j u N Hu; by rewrite socks_kfree, decide_False).
  split; [apply H | apply H | | |].
  - intros j Hj. assert (Hj' : j <> id /\ (j ∈ tcp_socks st \/ j ∈ own)). { cbn in Hj. split; [| clear -Hj; set_solver]. intros ->. destruct Hj as [Hj | Hj]; [apply Hout in Hj; by destruct Hj | set_solver]. }
    destruct (t_live _ _ _ H j (proj2 Hj')) as [u Hu]. rewrite (Hoth j u); [done | apply Hj' | done].
  - intros j u. rewrite socks_kfree. case_decide; [done | apply H].
  - intros j u. rewrite socks_kfree. case_decide as E; [done |]. intros Hu. destruct (t_placed _ _ _ H _ _ Hu) as [P1 P2 P3 P4 P5 P6]. split; try done.
    + cbn. rewrite P1. split; intros [A B]; (split; [done | congruence]).
    + rewrite <- P2. clear -E. set_solver.
    + intros l El. destruct (P4 l El) as (B & lt & A1 & A2). split; [done |]. exists lt. split; [apply Hoth; [| done] | done]. intros ->. by apply (Hnone j u).
    + intros l Eo. destruct (P5 l Eo) as (lt & A1 & A2). exists lt. split; [apply Hoth; [| done] | done]. intros ->. destruct (k_on _ (t_sock _ _ _ H _ _ Hu) id Eo) as [F _]. by apply (Hnone j u).
    + intros x Hx. destruct (P6 x Hx) as (c & A1 & A2). exists c. split; [apply Hoth; [| done] | done]. intros ->. rewrite Ht in A1. injection A1 as <-.
      destruct (k_on _ (t_sock _ _ _ H _ _ Ht) j A2) as [F _]. destruct (k_listen _ (t_sock _ _ _ H _ _ Ht) Hs) as (_ & _ & F'). congruence.
Qed.

Lemma orphaned_ok st own id t u t' : table_ok st own -> id ∈ own -> socks st !! id = Some t -> state t <> TCP_LISTEN -> state t <> TCP_CLOSE ->
  keeps t u -> keeps (set_orphan true u) t' -> table_ok (put st id t') (own ∖ {[id]}).
Proof.
  intros H Hid Ht Hs Hs' Ku Kt'. pose proof (keeps_state_of _ _ Ku Hs) as Hus. pose proof (t_sock _ _ _ H _ _ Ht) as Hok. pose proof (k_bound _ Hok Hs') as Hb.
  destruct Ku as (A1 & (A2 & A3 & A4 & A5 & _) & _ & A8). destruct Kt' as (B1 & (B2 & B3 & B4 & B5 & _) & _ & B8). specialize (A8 Hok).
  cbn in B1, B2, B3, B4, B5. apply (orphan_ok st own id t t'); try done; try congruence. apply B8.
  destruct A8 as [K1 K2 K3 K4 K5 Kc Kl K6 K7 K8 K9]. by split.
Qed.

Lemma release_ok st own now id : table_ok st own -> id ∈ own ->
  exists st' late, tcp_release st now id = Ret (st', late) /\ table_ok st' (own ∖ {[id]}) /\ Forall (work_ok st') late.
Proof.
  intros H Hid. destruct (own_live _ _ _ _ H Hid) as (t & Ht & Hok & Hp). unfold tcp_release. rewrite (get_some _ _ _ Ht).
  pose proof (keeps_put _ _ _ _ _ _ H Ht (keeps_clear t)) as Hcl. assert (Htc : socks (put st id (tcp_clear_tx_locked t)) !! id = Some (tcp_clear_tx_locked t)) by (by rewrite socks_put, decide_True).
  assert (Hfree : state t <> TCP_LISTEN -> exists st1, tcp_unlink_locked (put st id (tcp_clear_tx_locked t)) id = Ret st1 /\ table_ok (kfree st1 id) (own ∖ {[id]})).
  { intros Hs. destruct (unlink_free _ _ _ _ _ Hcl Htc Hs) as (st1 & E & H1 & _). by exists st1. }
  assert (Hwork : forall u w, late_sock w = id -> flags_ok w -> Forall (work_ok (put st id u)) [w]) by (intros u w Ew Hw; apply Forall_singleton; split; [rewrite Ew, socks_put, decide_True by done; done | done]).
  assert (Hfin : can_send t = true -> table_ok (put st id (set_orphan true (queue_fin now t))) (own ∖ {[id]})).
  { intros Hc. assert (Hs : state t <> TCP_LISTEN /\ state t <> TCP_CLOSE) by (apply can_send_state in Hc as [-> | ->]; done). destruct Hs as [Hs Hs'].
    apply (orphaned_ok st own id t (queue_fin now t) _ H Hid Ht Hs Hs' (keeps_queue_fin now t Hc) (keep_refl _)). }
  assert (Hlinger : state t <> TCP_LISTEN -> state t <> TCP_CLOSE -> exists st' late, (let t := set_orphan true t in
      let t := if bool_decide (state t = TCP_TIME_WAIT) && (time_wait_deadline_ns t =? 0) then set_time_wait_deadline_ns (u64 (now + TCP_TIME_WAIT_NS)) t else t in
      let t := if bool_decide (state t = TCP_FIN_WAIT_2) && (fin_wait2_deadline_ns t =? 0) then set_fin_wait2_deadline_ns (u64 (now + TCP_FIN_WAIT2_NS)) t else t in
      Ret (put st id t, [LatePurge id])) = Ret (st', late) /\ table_ok st' (own ∖ {[id]}) /\ Forall (work_ok st') late).
  { intros Hs Hs'. cbv zeta. eexists _, _. split; [reflexivity |]. split; [| by apply Hwork]. apply (orphaned_ok st own id t t _ H Hid Ht Hs Hs' (keep_refl t)). generalize (set_orphan true t). intros u.
    destruct (bool_decide (state u = TCP_TIME_WAIT) && _); destruct (bool_decide _ && _); keeps_chain. }
  destruct (state t) eqn:Es; try (apply Hlinger; done).
  - destruct Hfree as (st1 & -> & H1); [done |]. by eexists _, _.
  - pose proof (detach_ok _ _ _ _ Hcl Htc Es) as Hd. unfold tcp_unlink_locked. rewrite (get_some _ _ _ Htc).
    assert (Eno : accept_on (tcp_clear_tx_locked t) = None).
    { cbn. destruct (accept_on t) as [l |] eqn:E; [| done]. destruct (k_on _ Hok l E) as [F _]. destruct (k_listen _ Hok Es) as (_ & _ & F'). congruence. }
    rewrite Eno. set (st1 := set_tcp_socks _ _) in *.
    destruct (release_children_ok id (tcp_socks st1) st1 own Hd) as (st2 & E2 & H2 & (t2 & Ht2 & Hs2) & Hnone); [by exists (tcp_clear_tx_locked t) | apply Hd | done |].
    cbn [bool_decide]. rewrite bool_decide_eq_true_2 by done. rewrite E2. eexists _, _. split; [done |]. split; [| constructor]. apply (free_listener_ok st2 own id t2); try done.
    intros j u Hu El. destruct (Hnone j u Hu El) as (Hj & u0 & Hu0 & El0). apply Hj. apply (p_list _ _ _ _ _ (t_placed _ _ _ Hd _ _ Hu0)).
    destruct (p_listener _ _ _ _ _ (t_placed _ _ _ Hd _ _ Hu0) id El0) as [Hb _]. split; [done |]. intros [= ->].
    assert (Eu : u0 = tcp_clear_tx_locked t) by (cbn [socks st1 set_tcp_socks] in Hu0; rewrite Htc in Hu0; by injection Hu0 as <-). subst u0. cbn in El0.
    destruct (k_listen _ Hok Es) as (_ & _ & F'). congruence.
  - destruct Hfree as (st1 & -> & H1); [done |]. by eexists _, _.
  - destruct Hfree as (st1 & -> & H1); [done |]. by eexists _, _.
  - eexists _, _. split; [done |]. split; [apply Hfin; unfold can_send; by rewrite Es | by apply Hwork].
  - eexists _, _. split; [done |]. split; [apply Hfin; unfold can_send; by rewrite Es | by apply Hwork].
Qed.

(** ** The timer *)

Lemma timer_sock_ok now nr t t' a : sock_ok t -> timer_sock now nr t = (t', a) ->
  keeps t t' /\ (a = TFree -> state t <> TCP_LISTEN /\ (orphan t = true \/ state t = TCP_SYN_RECV)) /\
  (forall seq ack flags data m, a = TSend seq ack flags data m -> 0 <= flags < 256 /\ bytes data /\ Z.of_nat (length data) <= 65000).
Proof.
  intros Hok E. unfold timer_sock in E. destruct (timer_free now t) eqn:Ef.
  { injection E as <- <-. split; [apply keep_refl |]. split; [| done]. intros _. unfold timer_free in Ef. destruct (state t) eqn:Es; try done; (split; [done |]); try (by right); left;
      repeat (apply andb_true_iff in Ef as [Ef ?]); done. }
  destruct (bool_decide _ || _) eqn:Ek; [injection E as <- <-; split; [apply keep_refl | done] |]. apply orb_false_iff in Ek as [Ek _]. apply bool_decide_eq_false in Ek.
  assert (Hs : state t <> TCP_LISTEN) by (intros F; by destruct (k_listen _ Hok F)).
  destruct (TCP_MAX_RETRIES <=? _).
  { injection E as <- <-. split; [by apply keeps_error |]. destruct (orphan t); [| done]. split; [| done]. intros _. split; [done | by left]. }
  destruct (TCP_TIMER_BATCH <=? nr); [injection E as <- <-; split; [apply keep_refl | done] |].
  set (t1 := set_rto_deadline_ns _ _) in E. assert (K : keeps t t1) by (unfold t1; keeps_chain). clearbody t1.
  destruct (tx_kind t) eqn:Et; [done | ..]; injection E as <- <-; (split; [done |]); (split; [done |]); intros ? ? ? ? ? [= <- <- <- <- <-]; (split; [done |]); try (split; [apply nil_bytes | done]).
  split; [apply Hok | pose proof (k_len _ Hok); unfold TCP_MSS in *; lia].
Qed.

Lemma timer_loop_ok now n l : forall st own nr, table_ok st own -> NoDup l -> (forall j, j ∈ l -> j ∈ tcp_socks st) ->
  exists st' out wakes, timer_loop st now n nr l = Ret (st', out, wakes) /\ table_ok st' own.
Proof.
  induction l as [| id l IH]; intros st own nr H Hnd Hl; cbn [timer_loop]; [by eexists _, _, _ |]. apply list.NoDup_cons in Hnd as [Hni Hnd].
  destruct (list_live _ _ _ id H) as (t & Ht & Hok & Hp); [apply Hl; set_solver |]. rewrite (get_some _ _ _ Ht). destruct (timer_sock now nr t) as [t' a] eqn:Et.
  destruct (timer_sock_ok _ _ _ _ _ Hok Et) as (K & Hfree & Hsend). pose proof (keeps_put _ _ _ _ _ _ H Ht K) as H1. set (st1 := put st id t') in *.
  assert (Ht1 : socks st1 !! id = Some t') by (unfold st1; by rewrite socks_put, decide_True). assert (Hl1 : forall j, j ∈ l -> j ∈ tcp_socks st1) by (intros j Hj; apply Hl; set_solver).
  destruct a as [| | | seq ack flags data m].
  - by apply IH.
  - destruct (Hfree eq_refl) as [Hs Ho]. destruct (unlink_free _ _ _ _ _ H1 Ht1 (keeps_state_of _ _ K Hs)) as (st2 & -> & H2 & _ & _ & Hkeep).
    assert (Eown : own ∖ {[id]} = own). { assert (id ∉ own). { rewrite (p_own _ _ _ _ _ Hp). intros [F1 F2]. destruct Ho as [Ho | Ho]; [congruence |]. by apply (k_recv _ Hok). } set_solver. }
    rewrite Eown in H2. apply IH; [done | done |]. intros j Hj. apply Hkeep; [congruence | by apply Hl1].
  - destruct (IH st1 own nr H1 Hnd Hl1) as (st2 & out & wakes & -> & H2). by eexists _, _, _.
  - destruct (Hsend _ _ _ _ _ eq_refl) as (F1 & F2 & F3). destruct (tcp_build_ret n t seq ack flags data m F1 F2 F3) as [b ->].
    destruct (IH st1 own (match b with inl _ => nr | inr _ => nr + 1 end) H1 Hnd Hl1) as (st2 & out & wakes & -> & H2). by eexists _, _, _.
Qed.

Lemma tick_ok st own now n : table_ok st own -> exists st' out wakes, tcp_timer_tick st now n = Ret (st', out, wakes) /\ table_ok st' own.
Proof.
  intros H. unfold tcp_timer_tick. destruct (now <? next_run st); [by eexists _, _, _ |]. apply timer_loop_ok; [| apply H | done]. apply (table_same _ st); try done; apply H.
Qed.

(** ** Properties *)

Lemma exec_ok c st own : table_ok st own -> valid st own c ->
  exists st' own' late, exec c st own = Ret (st', own', late) /\ table_ok st' own' /\ Forall (work_ok st') late.
Proof.
  intros H Hv. destruct c as [proto alloc | id la lp | now n id da dp | id bl | id mem | now n id buf data | id len nb cp | now n id how | now id | now alloc src dst d | now n]; cbn [valid] in Hv.
  - by apply create_ok.
  - destruct (bind_ok st own id la lp H Hv) as (st' & r & E & H'). cbn [exec]. rewrite E. by eexists _, _, _.
  - destruct (connect_ok st own now n id da dp H Hv) as (st' & r & out & E & H'). cbn [exec]. rewrite E. by eexists _, _, _.
  - destruct (listen_ok st own id bl H Hv) as (st' & r & E & H'). cbn [exec]. rewrite E. by eexists _, _, _.
  - destruct (accept_ok st own id mem H Hv) as (st' & r & E & H'). cbn [exec]. rewrite E. by eexists _, _, _.
  - destruct Hv as (Hid & Hb & Hl). destruct (own_live _ _ _ _ H Hid) as (t & Ht & Hok & _). cbn [exec]. rewrite (get_some _ _ _ Ht). specialize (Hl t Ht). pose proof (k_mss _ Hok) as Hm.
    destruct (send_chunk now buf data t) as [t' r] eqn:Es. destruct (keeps_send_chunk _ _ _ _ _ _ Es Hok Hb ltac:(lia)) as [K1 K2].
    destruct r as [e | | seq ack]; [by eexists _, _, _; split; [done | split; [by eapply keeps_put | done]] | by eexists _, _, _; split; [done | split; [by eapply keeps_put | done]] |].
    destruct (tcp_send_ret n t' seq ack (Z.lor TCP_ACK TCP_PSH) data false ltac:(done) Hb ltac:(unfold TCP_MSS in *; lia)) as [s ->].
    eexists _, _, _. split; [done |]. split; [| done]. eapply keeps_put; [done | done |]. by destruct (fst s =? 0).
  - destruct (own_live _ _ _ _ H Hv) as (t & Ht & Hok & _). cbn [exec]. rewrite (get_some _ _ _ Ht). eexists _, _, _. split; [done |]. split; [| done]. eapply keeps_put; [done | done | apply keeps_recvmsg].
  - destruct (own_live _ _ _ _ H Hv) as (t & Ht & Hok & _). cbn [exec]. rewrite (get_some _ _ _ Ht). destruct (tcp_shutdown now how t) as [t' r] eqn:Es.
    pose proof (keeps_put _ _ _ _ _ _ H Ht (keeps_shutdown _ _ _ _ _ Es)) as H'. destruct r as [[seq ack] |]; [| by eexists _, _, _].
    destruct (tcp_send_ret n t' seq ack (Z.lor TCP_FIN TCP_ACK) [] false ltac:(done) nil_bytes ltac:(done)) as [s ->]. by eexists _, _, _.
  - destruct (release_ok st own now id H Hv) as (st' & late & E & H'). cbn [exec]. rewrite E. by eexists _, _, _.
  - destruct Hv as (Hf & Hb & Hl). destruct (packet_ok st own now alloc src dst d H Hf Hb Hl) as (st' & e & late & wakes & E & H'). cbn [exec]. rewrite E. by eexists _, _, _.
  - destruct (tick_ok st own now n H) as (st' & out & wakes & E & H'). cbn [exec]. rewrite E. by eexists _, _, _.
Qed.

(** Late work returns when there is a socket where its pointer leads, and faults when there is none. *)
Lemma late_gone n w st : socks st !! late_sock w = None -> run_late n w st = Halt Fault.
Proof. destruct w as [id [[[seq ack] fl] m] | id seq ack | id]; cbn; unfold get; by intros ->. Qed.

Lemma late_ok n w st own : table_ok st own -> work_ok st w ->
  exists st' out more, run_late n w st = Ret (st', out, more) /\ table_ok st' own /\ Forall flags_ok more.
Proof.
  intros H [[t Ht] Hw]. destruct w as [id [[[seq ack] fl] m] | id seq ack | id]; cbn [late_sock flags_ok fst snd] in *; cbn [run_late]; rewrite (get_some _ _ _ Ht).
  - destruct (tcp_send_ret n t seq ack fl [] m Hw nil_bytes ltac:(done)) as [s ->]. by eexists _, _, _.
  - destruct (tcp_send_ret n t seq ack (Z.lor TCP_FIN TCP_ACK) [] false ltac:(done) nil_bytes ltac:(done)) as [s ->]. eexists _, _, _. split; [done |]. split; [done | by apply Forall_singleton].
  - eexists _, _, _. split; [done |]. split; [| done]. eapply keeps_put; [done | done |]. generalize t. intros u. keeps_chain.
Qed.

(** The tables that calls and late work lead to from boot, with the late work not yet done. *)
Definition boot_table : tcp := mk_tcp ∅ [] TCP_EPHEMERAL_START 0 0.

Inductive reach : tcp -> gset Z -> list late_work -> Prop :=
| reach_boot : reach boot_table ∅ []
| reach_call c st own late st' own' more : reach st own late -> valid st own c -> exec c st own = Ret (st', own', more) -> reach st' own' (late ++ more)
| reach_late n w st own l1 l2 st' out more : reach st own (l1 ++ w :: l2) -> run_late n w st = Ret (st', out, more) -> reach st' own (l1 ++ more ++ l2).

Lemma boot_ok : table_ok boot_table ∅.
Proof. split; [done | constructor | intros id [Hid | Hid]; [by apply elem_of_nil in Hid | set_solver] | done | done]. Qed.

Lemma run_late_live n w st r : run_late n w st = Ret r -> is_Some (socks st !! late_sock w).
Proof. intros E. destruct (socks st !! late_sock w) eqn:Es; [done |]. by rewrite late_gone in E. Qed.

Lemma reach_ok st own late : reach st own late -> table_ok st own /\ Forall flags_ok late.
Proof.
  induction 1 as [| c st own late st' own' more _ [IH Hw] Hv E | n w st own l1 l2 st' out more _ [IH Hw] E].
  - split; [apply boot_ok | constructor].
  - destruct (exec_ok c st own IH Hv) as (st1 & own1 & late1 & E1 & H1 & W1). rewrite E in E1. injection E1 as <- <- <-. split; [done |].
    apply list.Forall_app. split; [done |]. by eapply list.Forall_impl; [exact W1 | intros ? []].
  - apply list.Forall_app in Hw as [W1 W2]. apply list.Forall_cons in W2 as [Ww W2].
    destruct (late_ok n w st own IH (conj (run_late_live _ _ _ _ E) Ww)) as (st1 & out1 & more1 & E1 & H1 & M1). rewrite E in E1. injection E1 as <- <- <-.
    split; [done |]. rewrite !list.Forall_app. done.
Qed.

(** C6: memory safety of the socket table. Whatever calls users make on sockets they hold (calls on one socket
    not overlapping), whatever packets arrive,
    whenever the timer runs, and whenever a packet or a release does what is left to do after it has dropped the lock:
    no call, up to where it drops the lock, follows a pointer to a socket that was freed, reads outside a packet or
    fails to end, and the socket it still has work for is alive at that moment; that late work, whenever it is done,
    returns if there is a socket at its address, and faults if there is none, the socket having been freed in between;
    every socket on an accept queue is alive and knows its listener; and none is lost: a socket is held by a user, or it
    is on the list the timer walks and is an orphan or belongs to a listener that a user holds. *)
Theorem tcp_table_safe (st : tcp) (own : gset Z) (late : list late_work) : reach st own late ->
  (forall c, valid st own c -> exists st' own' more, exec c st own = Ret (st', own', more) /\ Forall (fun w => is_Some (socks st' !! late_sock w)) more) /\
  (forall n w, w ∈ late -> match socks st !! late_sock w with Some _ => exists r, run_late n w st = Ret r | None => run_late n w st = Halt Fault end) /\
  (forall id, id ∈ own -> is_Some (socks st !! id)) /\
  (forall l lt ch, socks st !! l = Some lt -> ch ∈ accept_queue lt -> exists c, socks st !! ch = Some c /\ listener c = Some l) /\
  (forall id t, socks st !! id = Some t -> id ∈ own \/ id ∈ tcp_socks st /\ (orphan t = true \/ exists l, listener t = Some l /\ l ∈ own)).
Proof.
  intros Hr. destruct (reach_ok _ _ _ Hr) as [H Hw]. split_and!.
  - intros c Hv. destruct (exec_ok c st own H Hv) as (st' & own' & more & E & _ & W). exists st', own', more. split; [done |]. by eapply list.Forall_impl; [exact W | intros ? []].
  - intros n w Hin. destruct (socks st !! late_sock w) as [t |] eqn:Et; [| by apply late_gone]. rewrite list.Forall_forall in Hw.
    destruct (late_ok n w st own H) as (st' & out & more & E & _); [split; [by rewrite Et | by apply Hw] |]. eauto.
  - intros id Hid. apply (t_live _ _ _ H). by right.
  - intros l lt ch Hl Hch. destruct (p_queue _ _ _ _ _ (t_placed _ _ _ H _ _ Hl) ch Hch) as (c & Hc & Ho). exists c. split; [done |]. by apply (k_on _ (t_sock _ _ _ H _ _ Hc)).
  - intros id t Ht. destruct (t_placed _ _ _ H _ _ Ht) as [P1 P2 P3 P4 _ _]. destruct (orphan t) eqn:Eo.
    + right. split; [apply P1; split; [by apply P3 | done] | by left].
    + destruct (listener t) as [l |] eqn:El; [| left; by apply P2]. right. destruct (P4 l eq_refl) as (Hb & lt & Hlt & Hls). split; [by apply P1 |]. right. exists l. split; [done |].
      apply (p_own _ _ _ _ _ (t_placed _ _ _ H _ _ Hlt)). by destruct (k_listen _ (t_sock _ _ _ H _ _ Hlt) Hls) as (_ & ? & ?).
Qed.

(** A socket is created, bound to a port and made a listener; a client's SYN comes, and the reply to it is late. *)
Definition ex_net : net := mk_net (fun _ => inr 16777343) true (fun _ _ _ => 0).

Definition ex_client : tcp_sock := set_daddr 16777343 (set_dport 80 (set_sport 50000 tcp_alloc_sock)).

Definition ex_syn : list Z := match tcp_build_segment ex_net ex_client 1000 0 TCP_SYN [] true with Ret (inr (_, d)) => d | _ => [] end.

Definition after (c : call) (s : tcp * gset Z) : tcp * gset Z := match exec c (fst s) (snd s) with Ret (st, own, _) => (st, own) | Halt _ => s end.

Definition ex_created : tcp * gset Z := after (Create 0 (Some 1)) (boot_table, ∅).
Definition ex_bound : tcp * gset Z := after (Bind 1 0 80) ex_created.
Definition ex_listening : tcp * gset Z := after (Listen 1 5) ex_bound.
Definition ex_syn_in : tcp * gset Z := after (Packet 7 (Some 2) 16777343 16777343 ex_syn) ex_listening.
Definition ex_released : tcp * gset Z := after (Release 8 1) ex_syn_in.
Definition ex_reply : late_work := LateReply 2 (2654435776, 1001, 18, true).

Lemma reach_created : reach (fst ex_created) (snd ex_created) [].
Proof. apply (reach_call (Create 0 (Some 1)) boot_table ∅ []); [apply reach_boot | intros new _; reflexivity | reflexivity]. Qed.

Lemma reach_syn_in : reach (fst ex_syn_in) (snd ex_syn_in) [ex_reply].
Proof.
  apply (reach_call (Packet 7 (Some 2) 16777343 16777343 ex_syn) (fst ex_listening) (snd ex_listening) []).
  - apply (reach_call (Listen 1 5) (fst ex_bound) (snd ex_bound) []); [| cbn [valid]; by apply (bool_decide_unpack _); vm_compute | by vm_compute].
    apply (reach_call (Bind 1 0 80) (fst ex_created) (snd ex_created) []); [apply reach_created | cbn [valid]; by apply (bool_decide_unpack _); vm_compute | by vm_compute].
  - split; [intros new [= <-]; by vm_compute |]. split; [| vm_compute; discriminate]. repeat (constructor; [vm_compute; split; [discriminate | reflexivity] |]). constructor.
  - by vm_compute.
Qed.

Lemma tcp_table_safe_witness : 1 ∈ snd ex_syn_in /\ (exists st' own' more, exec (Release 8 1) (fst ex_syn_in) (snd ex_syn_in) = Ret (st', own', more) /\ Forall (fun w => is_Some (socks st' !! late_sock w)) more) /\
  (exists r, run_late ex_net ex_reply (fst ex_syn_in) = Ret r).
Proof.
  destruct (tcp_table_safe _ _ _ reach_syn_in) as (S1 & S2 & _). assert (Hin : 1 ∈ snd ex_syn_in) by (by apply (bool_decide_unpack _); vm_compute).
  split; [exact Hin |]. split; [apply S1; exact Hin |]. assert (Hw : ex_reply ∈ [ex_reply]) by (by left). specialize (S2 ex_net ex_reply Hw). revert S2. vm_compute (socks _ !! _). auto.
Defined.

(** The reply to a SYN that is late: the listener is released on another CPU before it is sent, which frees the child it is
    for, and sending it reads freed memory. *)
Theorem late_reply_after_free : reach (fst ex_released) (snd ex_released) [ex_reply] /\ run_late ex_net ex_reply (fst ex_released) = Halt Fault.
Proof.
  split; [| by vm_compute]. apply (reach_call (Release 8 1) (fst ex_syn_in) (snd ex_syn_in) [ex_reply]); [apply reach_syn_in | cbn [valid]; by apply (bool_decide_unpack _); vm_compute | by vm_compute].
Qed.

Lemma tcp_alloc_port_witness : exists st' p, tcp_alloc_port_locked (put boot_table 1 tcp_alloc_sock) 0 = Ret (st', p) /\
  (p <> 0 -> TCP_EPHEMERAL_START <= p <= TCP_EPHEMERAL_END /\ ~ port_used (put boot_table 1 tcp_alloc_sock) 0 p).
Proof.
  destruct (tcp_alloc_port_correct _ _ 0 (proj1 (reach_ok _ _ _ reach_created))) as (st' & p & E & _ & Hp & _). exists st', p. split; [exact E | exact Hp].
Defined.
