(* ===== verification/TcpStream.v ===== *)
(** * A TCP connection as a byte stream

    Two sockets in established states, joined by a network that loses, repeats,
    delays and reorders segments: every segment ever sent stays on the wire, and
    either side may receive any of them at any time, or never.  Fewer than 2^31
    bytes are sent in each direction, so that old segments cannot be mistaken for
    new ones.  Reads come with buffers of any size and may fail to copy out: a
    read takes a whole segment off the queue, and what does not fit its buffer
    is lost. *)

From S2P Require Import Prelude CString Checksum Tcp.





Definition on_side {A} (d : bool) (x : A) (f : bool -> A) : bool -> A := fun e => if Bool.eqb e d then x else f e.









(** ** The invariant of one direction *)















Lemma on_side_neg' {A} d (x : A) f : on_side (negb d) x f d = f d.
Proof. unfold on_side. by destruct d. Qed.


(** ** Receiving *)






(** The stream grows at its end, until the sender shuts down. *)
Definition grown (S S' : list Z) (f f' : bool) : Prop := S `prefix_of` S' /\ (f = true -> f' = true /\ S' = S).

Lemma grown_refl S f : grown S S f f.
Proof. by split. Qed.










(** ** The connection *)


































(** ** The handshake *)

Lemma port_loop_socks laddr turns : forall st st' p, port_loop st laddr turns = Ret (st', p) -> socks st' = socks st.
Proof.
  induction turns as [| k IH]; intros st st' p E; cbn [port_loop] in E; [by injection E as <- _ |].
  destruct (tcp_port_in_use_locked _ _ _) as [[] |]; [| by injection E as <- _ | done]. by rewrite (IH _ _ _ E).
Qed.














(** ** Where the code falls short *)

Lemma rcv_closing_unacked now g t : has (g_flags g) TCP_ACK && (g_ack g =? snd_nxt t) = false -> rcv_closing now g t = t.
Proof. intros E. unfold rcv_closing. rewrite E. by destruct (decide (state t = TCP_FIN_WAIT_1)), (decide (state t = TCP_LAST_ACK)). Qed.

(** A read into a buffer smaller than the segment at the head of the queue loses the rest of the segment. *)
Theorem short_read_loses (t : tcp_sock) (b : skb) (q : list skb) (len : Z) (nonblock : bool) : state t <> TCP_LISTEN -> sk_err t = 0 -> rcv_queue t = b :: q ->
  0 <= len < Z.of_nat (length (skb_data b)) ->
  tcp_recvmsg len nonblock true t = (set_rcv_queue q t, Some (len, take (Z.to_nat len) (skb_data b))).
Proof.
  intros H1 H2 H3 Hl. unfold tcp_recvmsg. rewrite bool_decide_eq_false_2, H2, H3, andb_false_r by done. simpl. by rewrite Z.min_l by lia.
Qed.

(** A reset that comes with the SYN closes the child that the SYN created; nothing frees it: it is not an orphan, was
    never handed to a user, and the timer passes over it. *)
Theorem syn_rst_leaks_child (now now' a b nr : Z) (g : segment) (t : tcp_sock) : state t = TCP_SYN_RECV -> orphan t = false -> has (g_flags g) TCP_RST = true ->
  exists t', rcv_sock now a b g t = (t', None, true, false) /\ state t' = TCP_CLOSE /\ timer_sock now' nr t' = (t', TKeep).
Proof.
  intros H1 H2 H3. unfold rcv_sock. rewrite H3. eexists. split; [reflexivity |]. split; [done |]. unfold timer_sock, timer_free, rcv_rst. cbn. by rewrite H2.
Qed.

(** An acknowledgement beyond everything sent ends the retransmission of a FIN without the state moving on; an orphan is then never freed. *)
Theorem bogus_ack_strands_orphan (now now' a b nr : Z) (t : tcp_sock) (ack : Z) : state t = TCP_FIN_WAIT_1 -> orphan t = true -> tx_kind t = TCP_TX_FIN ->
  tcp_seq_geq ack (u32 (tx_seq t + 1)) = true -> ack <> snd_nxt t ->
  exists t' r, rcv_sock now a b (mk_segment (dport t) (sport t) (rcv_nxt t) ack TCP_ACK 0 0 []) t = (t', r, true, false) /\
    state t' = TCP_FIN_WAIT_1 /\ orphan t' = true /\ timer_sock now' nr t' = (t', TKeep).
Proof.
  intros H1 H2 H3 H4 H5. unfold rcv_sock. cbn [g_flags]. change (has TCP_ACK TCP_RST) with false. rewrite H1. cbv iota. unfold rcv_data.
  set (g := mk_segment _ _ _ _ _ _ _ _). assert (Ha : exists u, rcv_ack g t = (tcp_clear_tx_locked (set_snd_una u t), true)).
  { unfold rcv_ack. cbn [g g_flags g_ack]. change (has TCP_ACK TCP_ACK) with true. cbv iota. destruct (_ && _).
    - exists ack. cbn [tx_kind set_snd_una]. rewrite H3, decide_False by done. cbv beta iota. cbn [tx_kind set_snd_una tx_seq]. by rewrite H3, decide_True, H4.
    - exists (snd_una t). rewrite H3, decide_False by done. cbv beta iota. rewrite H3, decide_True, H4 by done. by destruct t. }
  destruct Ha as [u ->]. unfold rcv_payload. change (Z.of_nat (length (g_payload g)) =? 0) with true. unfold rcv_fin. change (has (g_flags g) TCP_FIN) with false. cbv beta iota.
  rewrite rcv_closing_unacked; [| cbn; by rewrite (proj2 (Z.eqb_neq ack (snd_nxt t)) H5)].
  eexists _, _. split; [reflexivity |]. unfold timer_sock, timer_free. cbn. by rewrite H1, H2.
Qed.
