(* ===== verification/NTty.v ===== *)
(** * The terminal line discipline: dev/tty/n_tty.c

    Input bytes are edited in a ring that holds, between three free-running
    counters, the bytes that may be read ([rx_r] to [rx_w]) and the line that is
    being typed ([rx_w] to [rx_e]).  A [tty] here has the fields of its port that
    the discipline uses; [out] is what the driver was given to show and [signals]
    what was sent to process groups, in order.  Whether the driver accepts a
    character is an argument. *)

From S2P Require Import Prelude.

Definition EINTR : Z := 4.
Definition EFAULT : Z := 14.
Definition ENOTTY : Z := 25.
Definition SIGINT : Z := 2.
Definition SIGQUIT : Z := 3.
Definition SIGTSTP : Z := 20.
Definition SIGTTIN : Z := 21.
Definition SIGTTOU : Z := 22.

Definition VINTR : Z := 0.
Definition VQUIT : Z := 1.
Definition VERASE : Z := 2.
Definition VKILL : Z := 3.
Definition VEOF : Z := 4.
Definition VTIME : Z := 5.
Definition VMIN : Z := 6.
Definition VSTART : Z := 8.
Definition VSTOP : Z := 9.
Definition VSUSP : Z := 10.
Definition VEOL : Z := 11.
Definition VREPRINT : Z := 12.
Definition VDISCARD : Z := 13.
Definition VWERASE : Z := 14.
Definition VLNEXT : Z := 15.
Definition VEOL2 : Z := 16.

Definition INLCR : Z := 0x40.
Definition IGNCR : Z := 0x80.
Definition ICRNL : Z := 0x100.
Definition IXON : Z := 0x400.
Definition OPOST : Z := 1.
Definition ONLCR : Z := 4.
Definition CSIZE : Z := 0x30.
Definition CS8 : Z := 0x30.
Definition CREAD : Z := 0x80.
Definition CLOCAL : Z := 0x800.
Definition ISIG : Z := 1.
Definition ICANON : Z := 2.
Definition ECHO : Z := 8.
Definition ECHOE : Z := 0x10.
Definition ECHOK : Z := 0x20.
Definition NOFLSH : Z := 0x80.
Definition TOSTOP : Z := 0x100.
Definition ECHOCTL : Z := 0x200.
Definition FLUSHO : Z := 0x1000.
Definition IEXTEN : Z := 0x8000.

Definition TCGETS : Z := 0x5401.
Definition TCSETS : Z := 0x5402.
Definition TCSETSW : Z := 0x5403.
Definition TCSETSF : Z := 0x5404.
Definition TCFLSH : Z := 0x540B.
Definition FIONREAD : Z := 0x541B.
Definition TCIFLUSH : Z := 0.
Definition TCIOFLUSH : Z := 2.

Definition TTY_RX_BUF_SIZE : Z := 1024.
Definition VTIME_UNIT_NS : Z := 100000000.

(** ** State *)

Record termios : Type := mk_termios { c_iflag : Z; c_oflag : Z; c_cflag : Z; c_lflag : Z; c_cc : Z -> Z }.

Definition set_cflag (t : termios) (f : Z) : termios := mk_termios (c_iflag t) (c_oflag t) f (c_lflag t) (c_cc t).
Definition set_lflag (t : termios) (f : Z) : termios := mk_termios (c_iflag t) (c_oflag t) (c_cflag t) f (c_cc t).

Record tty : Type := mk_tty {
  term : termios; rx_buf : list Z; rx_size : Z; rx_r : Z; rx_w : Z; rx_e : Z;
  eof_pending : bool; lnext : bool; stopped : bool; pgrp : Z; out : list Z; signals : list (Z * Z)
}.

Definition set_term (s : tty) (t : termios) : tty :=
  mk_tty t (rx_buf s) (rx_size s) (rx_r s) (rx_w s) (rx_e s) (eof_pending s) (lnext s) (stopped s) (pgrp s) (out s) (signals s).
Definition set_buf (s : tty) (b : list Z) : tty :=
  mk_tty (term s) b (rx_size s) (rx_r s) (rx_w s) (rx_e s) (eof_pending s) (lnext s) (stopped s) (pgrp s) (out s) (signals s).
Definition set_counters (s : tty) (r w e : Z) : tty :=
  mk_tty (term s) (rx_buf s) (rx_size s) r w e (eof_pending s) (lnext s) (stopped s) (pgrp s) (out s) (signals s).
Definition set_flags (s : tty) (eof ln st : bool) : tty :=
  mk_tty (term s) (rx_buf s) (rx_size s) (rx_r s) (rx_w s) (rx_e s) eof ln st (pgrp s) (out s) (signals s).
Definition set_out (s : tty) (o : list Z) : tty :=
  mk_tty (term s) (rx_buf s) (rx_size s) (rx_r s) (rx_w s) (rx_e s) (eof_pending s) (lnext s) (stopped s) (pgrp s) o (signals s).
Definition signal_send_pgrp (s : tty) (pg sig : Z) : tty :=
  mk_tty (term s) (rx_buf s) (rx_size s) (rx_r s) (rx_w s) (rx_e s) (eof_pending s) (lnext s) (stopped s) (pgrp s) (out s) (signals s ++ [(pg, sig)]).

Definition set_r (s : tty) (r : Z) : tty := set_counters s r (rx_w s) (rx_e s).
Definition set_w (s : tty) (w : Z) : tty := set_counters s (rx_r s) w (rx_e s).
Definition set_e (s : tty) (e : Z) : tty := set_counters s (rx_r s) (rx_w s) e.

Definition has (f bit : Z) : bool := negb (Z.land f bit =? 0).
Definition cc (s : tty) (i : Z) : Z := c_cc (term s) i.
Definition iflag (s : tty) (b : Z) : bool := has (c_iflag (term s)) b.
Definition oflag (s : tty) (b : Z) : bool := has (c_oflag (term s)) b.
Definition lflag (s : tty) (b : Z) : bool := has (c_lflag (term s)) b.

Definition tty_termios_defaults : termios :=
  mk_termios (Z.lor ICRNL IXON) (Z.lor OPOST ONLCR) (Z.lor (Z.lor CS8 CREAD) CLOCAL)
    (Z.lor (Z.lor (Z.lor (Z.lor (Z.lor (Z.lor ISIG ICANON) ECHO) ECHOE) ECHOK) ECHOCTL) IEXTEN)
    (<[VINTR := 3]> (<[VQUIT := 28]> (<[VERASE := 127]> (<[VKILL := 21]> (<[VEOF := 4]> (<[VMIN := 1]> (<[VTIME := 0]>
     (<[VSTART := 17]> (<[VSTOP := 19]> (<[VSUSP := 26]> (<[VREPRINT := 18]> (<[VWERASE := 23]> (<[VLNEXT := 22]> (<[VDISCARD := 15]> (fun _ => 0))))))))))))))).

(** [tty_alloc] and [tty_init] with the default settings. *)
Definition tty_new : tty := mk_tty tty_termios_defaults (replicate (Z.to_nat TTY_RX_BUF_SIZE) 0) TTY_RX_BUF_SIZE 0 0 0 false false false 0 [] [].

(** ** Output *)

Section discipline.
(** [driver->ops->put_char]: its result, given what it has been given before. *)
Context (put_char : list Z -> Z -> Z).

Definition drv_put (s : tty) (c : Z) : tty * Z :=
  let err := put_char (out s) c in (if err =? 0 then set_out s (out s ++ [c]) else s, err).

Definition n_tty_put (s : tty) (c : Z) : tty := (drv_put s c).1.

Definition n_tty_output (s : tty) (c : Z) : tty :=
  if lflag s FLUSHO then s
  else if oflag s OPOST && oflag s ONLCR && (c =? 10) then n_tty_put (n_tty_put s 13) 10
  else n_tty_put s c.

Definition n_tty_echo_char (s : tty) (c : Z) : tty :=
  if negb (lflag s ECHO) then s
  else if lflag s ECHOCTL && (c <? 0x20) && negb (c =? 10) && negb (c =? 9) && negb (c =? 13) then n_tty_put (n_tty_put s 94) (c + 0x40)
  else n_tty_output s c.

Definition n_tty_erase_echo (s : tty) : tty := n_tty_put (n_tty_put (n_tty_put s 8) 32) 8.

Fixpoint n_tty_kill_echo (s : tty) (nr : nat) : tty :=
  match nr with O => s | S nr' => n_tty_kill_echo (n_tty_erase_echo s) nr' end.

Definition n_tty_background (s : tty) (pgid : Z) : bool := (0 <? pgrp s) && negb (pgid =? pgrp s).

(** ** Input *)

Definition n_tty_signal (s : tty) (sig c : Z) : tty :=
  if negb (lflag s ISIG) then s
  else
    let s := if 0 <? pgrp s then signal_send_pgrp s (pgrp s) sig else s in
    let s := if negb (lflag s NOFLSH) then set_e s (rx_w s) else s in
    if lflag s ECHO then n_tty_output (n_tty_put (n_tty_put s 94) (c + 0x40)) 10 else s.

Definition n_tty_store (s : tty) (c : Z) : res tty :=
  let canonical := lflag s ICANON in
  if rx_size s <=? u64 (rx_e s - rx_r s) then Ret (set_w s (rx_e s))
  else
    let! b := wr (rx_buf s) (rx_e s mod rx_size s) c in
    let s := set_buf s b in
    let s := set_e s (u64 (rx_e s + 1)) in
    let s := n_tty_echo_char s c in
    Ret (if canonical then s else set_w s (rx_e s)).

Definition is_blank (c : Z) : bool := (c =? 32) || (c =? 9).

(** The two loops of [n_tty_werase]: back while the last byte is (not) blank. *)
Fixpoint werase_loop (s : tty) (blank : bool) (start end_ : Z) (fuel : nat) : res Z :=
  if start <? end_ then
    match fuel with
    | O => Halt Fuel
    | S fuel' =>
        let! c := rd (rx_buf s) ((end_ - 1) mod rx_size s) in
        if Bool.eqb (is_blank c) blank then werase_loop s blank start (end_ - 1) fuel' else Ret end_
    end
  else Ret end_.

Definition n_tty_werase (s : tty) : res tty :=
  let start := rx_w s in
  let! e1 := werase_loop s true start (rx_e s) (Z.to_nat (rx_e s - start)) in
  let! e2 := werase_loop s false start e1 (Z.to_nat (e1 - start)) in
  let s := if lflag s ECHOE then n_tty_kill_echo s (Z.to_nat (u64 (rx_e s - e2))) else s in
  Ret (set_e s e2).

Fixpoint reprint_loop (s : tty) (i : Z) (n : nat) : res tty :=
  match n with
  | O => Ret s
  | S n' =>
      let! c := rd (rx_buf s) (i mod rx_size s) in
      reprint_loop (n_tty_echo_char s c) (i + 1) n'
  end.

Definition n_tty_reprint (s : tty) : res tty :=
  if negb (lflag s ECHO) then Ret s
  else
    let s := n_tty_output (n_tty_put (n_tty_put s 94) 82) 10 in
    let! s := reprint_loop s (rx_w s) (Z.to_nat (rx_e s - rx_w s)) in
    Ret (n_tty_output s 10).

(** The translations of [c_iflag]; [None] is a byte that is dropped. *)
Definition translate (t : termios) (c : Z) : option Z :=
  if has (c_iflag t) IGNCR && (c =? 13) then None
  else
    let c := if has (c_iflag t) ICRNL && (c =? 13) then 10 else c in
    let c := if has (c_iflag t) INLCR && (c =? 10) then 13 else c in
    if c =? 0 then None else Some c.

(** One turn of the loop of [n_tty_receive_buf]. *)
Definition receive_one (s : tty) (c : Z) : res tty :=
  let canonical := lflag s ICANON in
  match translate (term s) c with
  | None => Ret s
  | Some c =>
      if lnext s then n_tty_store (set_flags s (eof_pending s) false (stopped s)) c
      else if lflag s IEXTEN && (c =? cc s VLNEXT) then
        let s := set_flags s (eof_pending s) true (stopped s) in
        Ret (if lflag s ECHO then n_tty_put (n_tty_put s 94) 8 else s)
      else if iflag s IXON && (c =? cc s VSTOP) then Ret (set_flags s (eof_pending s) (lnext s) true)
      else if iflag s IXON && (c =? cc s VSTART) then Ret (set_flags s (eof_pending s) (lnext s) false)
      else if canonical && lflag s IEXTEN && (c =? cc s VDISCARD) then Ret (set_term s (set_lflag (term s) (Z.lxor (c_lflag (term s)) FLUSHO)))
      else if lflag s ISIG && (c =? cc s VINTR) then Ret (n_tty_signal s SIGINT c)
      else if lflag s ISIG && (c =? cc s VQUIT) then Ret (n_tty_signal s SIGQUIT c)
      else if lflag s ISIG && (c =? cc s VSUSP) then Ret (n_tty_signal s SIGTSTP c)
      else if negb canonical then n_tty_store s c
      else if c =? cc s VERASE then
        Ret (if rx_w s <? rx_e s then
               let s := set_e s (rx_e s - 1) in if lflag s ECHOE then n_tty_erase_echo s else s
             else s)
      else if c =? cc s VKILL then
        let nr := u64 (rx_e s - rx_w s) in
        let s := set_e s (rx_w s) in
        Ret (if lflag s ECHOK then n_tty_kill_echo s (Z.to_nat nr) else s)
      else if lflag s IEXTEN && (c =? cc s VWERASE) then n_tty_werase s
      else if lflag s IEXTEN && (c =? cc s VREPRINT) then n_tty_reprint s
      else if c =? cc s VEOF then
        Ret (if rx_e s =? rx_w s then set_flags s true (lnext s) (stopped s) else set_w s (rx_e s))
      else
        let! s := n_tty_store s c in
        Ret (if (c =? 10) || (c =? cc s VEOL) || (c =? cc s VEOL2) || (u64 (rx_e s - rx_r s) =? rx_size s) then set_w s (rx_e s) else s)
  end.

Fixpoint n_tty_receive_buf (s : tty) (buf : list Z) : res tty :=
  match buf with
  | [] => Ret s
  | c :: buf' => let! s := receive_one s c in n_tty_receive_buf s buf'
  end.

(** ** Reading *)

(** What a reader keeps between turns of its loop. *)
Record reader : Set := mk_reader { seen : Z; deadline : Z; timed : bool }.

(** How a turn under the lock ends: the call returns, the task sleeps for input or
    for the clock, or bytes were taken out. *)
Inductive read_out : Type := Returns (v : Z) | Sleeps | Sleeps_timer | Took (l : list Z).

(** The search for a newline in the readable bytes: the length of the line. *)
Fixpoint find_line (s : tty) (i : Z) (n : nat) : res (option Z) :=
  match n with
  | O => Ret None
  | S n' =>
      let! c := rd (rx_buf s) (u64 (rx_r s + i) mod rx_size s) in
      if c =? 10 then Ret (Some (i + 1)) else find_line s (i + 1) n'
  end.

Fixpoint copy_out (s : tty) (i : Z) (n : nat) : res (list Z) :=
  match n with
  | O => Ret []
  | S n' =>
      let! c := rd (rx_buf s) (u64 (rx_r s + i) mod rx_size s) in
      let! l := copy_out s (i + 1) n' in
      Ret (c :: l)
  end.

(** The end of a turn that has [copy] bytes to hand out. *)
Definition take_chunk (s : tty) (copy size total : Z) (rd' : reader) : res (tty * reader * read_out) :=
  if copy =? 0 then Ret (s, rd', Returns total)
  else
    let chunk := copy in
    let chunk := if size - total <? chunk then size - total else chunk in
    let chunk := if 256 <? chunk then 256 else chunk in
    let! tmp := copy_out s 0 (Z.to_nat chunk) in
    Ret (set_r s (u64 (rx_r s + chunk)), rd', Took tmp).

Definition or_eintr (total : Z) : Z := if 0 <? total then total else - EINTR.

(** One turn of the loop of [n_tty_read] under the port's lock. *)
Definition read_section (s : tty) (size total pgid : Z) (sigp : bool) (now : Z) (r : reader) : res (tty * reader * read_out) :=
  if n_tty_background s pgid && lflag s ISIG then Ret (signal_send_pgrp s pgid SIGTTIN, r, Returns (or_eintr total))
  else
    let canonical := lflag s ICANON in
    let min := cc s VMIN in
    let vtime := if canonical then 0 else cc s VTIME in
    let avail := u64 (rx_w s - rx_r s) in
    if canonical then
      let! line := (if 0 <? avail then find_line s 0 (Z.to_nat avail) else Ret None) in
      let copy := match line with Some l => l | None => if (0 <? avail) && (rx_size s <=? avail) then avail else 0 end in
      if copy =? 0 then
        if eof_pending s && (total =? 0) then Ret (set_flags s false (lnext s) (stopped s), r, Returns 0)
        else if sigp then Ret (s, r, Returns (or_eintr total))
        else Ret (s, r, Sleeps)
      else take_chunk s copy size total r
    else
      let copy := if min =? 0 then avail else if min <=? avail then avail else 0 in
      if copy =? 0 then
        if sigp then Ret (s, r, Returns (or_eintr total))
        else if (min =? 0) && (vtime =? 0) then Ret (s, r, Returns total)
        else if 0 <? vtime then
          let r := if (min =? 0) && negb (timed r) then mk_reader (seen r) (u64 (now + vtime * VTIME_UNIT_NS)) true
                   else if (0 <? min) && (0 <? avail) && (seen r <? avail) then mk_reader avail (u64 (now + vtime * VTIME_UNIT_NS)) true
                   else r in
          if timed r && (deadline r <=? now) then
            if 0 <? avail then take_chunk s avail size total r else Ret (s, r, Returns total)
          else Ret (s, r, Sleeps_timer)
        else Ret (s, r, Sleeps)
      else take_chunk s copy size total r.

(** What other tasks do before a turn, and what the turn sees. *)
Record turn : Type := mk_turn { others : tty -> tty; sigp : bool; now : Z }.

(** [n_tty_read]: the value and the bytes that reached the user, or [None] while
    it still sleeps after the given turns. *)
Fixpoint read_loop (s : tty) (size pgid : Z) (user_ok : bool) (r : reader) (ts : list turn) : res (tty * option (Z * list Z)) :=
  match ts with
  | [] => Ret (s, None)
  | t :: ts' =>
      let! x := read_section (others t s) size 0 pgid (sigp t) (now t) r in
      let '(s, r, o) := x in
      match o with
      | Returns v => Ret (s, Some (v, []))
      | Sleeps | Sleeps_timer => read_loop s size pgid user_ok r ts'
      | Took l => if user_ok then Ret (s, Some (Z.of_nat (length l), l)) else Ret (s, Some (- EFAULT, []))
      end
  end.

Definition n_tty_read (s : tty) (size pgid : Z) (user_ok : bool) (ts : list turn) : res (tty * option (Z * list Z)) :=
  if size =? 0 then Ret (s, Some (0, [])) else read_loop s size pgid user_ok (mk_reader 0 0 false) ts.

(** ** Writing *)

(** The characters of a chunk under the lock: how many went out, and the error. *)
Fixpoint put_chunk (s : tty) (l : list Z) (i : Z) : tty * Z * Z :=
  match l with
  | [] => (s, i, 0)
  | c :: l' =>
      if lflag s FLUSHO then put_chunk s l' (i + 1)
      else
        let '(s, err) :=
          (if oflag s OPOST && oflag s ONLCR && (c =? 10) then
             let '(s, err) := drv_put s 13 in if err =? 0 then drv_put s 10 else (s, err)
           else drv_put s c) in
        if negb (err =? 0) then (s, i, err) else put_chunk s l' (i + 1)
  end.

(** What other tasks do before a writer looks at [stopped], and before it puts. *)
Record wturn : Type := mk_wturn { before_check : tty -> tty; before_put : tty -> tty }.

(** The loop of [n_tty_write] from [total] on: [None] while it is stopped.
    [user_ok] says whether the chunk at an offset can be read. *)
Fixpoint write_loop (s : tty) (buf : list Z) (total : Z) (user_ok : Z -> bool) (ts : list wturn) : tty * option (Z * Z) :=
  if total <? Z.of_nat (length buf) then
    let chunk := Z.min (Z.of_nat (length buf) - total) 128 in
    if negb (user_ok total) then (s, Some (if total =? 0 then - EFAULT else total, 0))
    else
      match ts with
      | [] => (s, None)
      | t :: ts' =>
          let s := before_check t s in
          if stopped s && iflag s IXON then write_loop s buf total user_ok ts'
          else
            let '(s, i, err) := put_chunk (before_put t s) (take (Z.to_nat chunk) (drop (Z.to_nat total) buf)) 0 in
            if negb (err =? 0) then (s, Some (total + i, err)) else write_loop s buf (total + i) user_ok ts'
      end
  else (s, Some (total, 0)).

Definition n_tty_write (s : tty) (buf : list Z) (pgid : Z) (user_ok : Z -> bool) (ts : list wturn) : tty * option Z :=
  if n_tty_background s pgid && lflag s TOSTOP then (signal_send_pgrp s pgid SIGTTOU, Some (- EINTR))
  else
    let '(s, r) := write_loop s buf 0 user_ok ts in
    (s, match r with
        | None => None
        | Some (total, err) => Some (if 0 <? total then total else if total =? - EFAULT then - EFAULT else err)
        end).

End discipline.

(** ** Control *)

Definition flush_input (s : tty) : tty := set_flags (set_counters s 0 0 0) false false (stopped s).

(** [arg] is the user pointer, [user] the settings there if they can be read and
    [user_ok] whether the answer can be written.  The result and what is written. *)
Definition n_tty_ioctl (s : tty) (cmd arg : Z) (user : option termios) (user_ok : bool) : tty * Z * option (termios + Z) :=
  if (arg =? 0) && ((cmd =? TCGETS) || (cmd =? TCSETS) || (cmd =? TCSETSW) || (cmd =? TCSETSF) || (cmd =? FIONREAD)) then (s, - EFAULT, None)
  else if cmd =? TCGETS then if user_ok then (s, 0, Some (inl (term s))) else (s, - EFAULT, None)
  else if (cmd =? TCSETS) || (cmd =? TCSETSW) || (cmd =? TCSETSF) then
    match user with
    | None => (s, - EFAULT, None)
    | Some t =>
        let t := set_cflag t (Z.lor (Z.lor (Z.land (c_cflag t) (Z.lnot CSIZE)) CS8) (Z.lor CREAD CLOCAL)) in
        let s := set_term s t in
        (if cmd =? TCSETSF then flush_input s else s, 0, None)
    end
  else if cmd =? TCFLSH then (if (arg =? TCIFLUSH) || (arg =? TCIOFLUSH) then flush_input s else s, 0, None)
  else if cmd =? FIONREAD then
    let avail := s32 (u64 (rx_w s - rx_r s)) in
    let avail := if avail <? 0 then 0 else avail in
    if user_ok then (s, 0, Some (inr avail)) else (s, - EFAULT, None)
  else (s, - ENOTTY, None).

(** ** What the line discipline promises

    Input as two lists: what may be read, and the line that is being typed. *)

Record line : Type := mk_line { ready : list Z; edit : list Z; l_eof : bool; l_lnext : bool; l_stopped : bool; l_term : termios }.

Definition l_set (l : line) (rdy ed : list Z) : line := mk_line rdy ed (l_eof l) (l_lnext l) (l_stopped l) (l_term l).
Definition l_flags (l : line) (eof ln st : bool) : line := mk_line (ready l) (edit l) eof ln st (l_term l).
Definition l_cc (l : line) (i : Z) : Z := c_cc (l_term l) i.
Definition l_has (l : line) (b : Z) : bool := has (c_lflag (l_term l)) b.
Definition l_ixon (l : line) : bool := has (c_iflag (l_term l)) IXON.
Definition publish (l : line) : line := l_set l (ready l ++ edit l) [].
Definition l_len (l : line) : Z := Z.of_nat (length (ready l) + length (edit l)).

(** [l] without the elements at its end that satisfy [p]. *)
Fixpoint trim (p : Z -> bool) (rev_l : list Z) : list Z :=
  match rev_l with [] => [] | c :: l' => if p c then trim p l' else rev_l end.
Definition rtrim (p : Z -> bool) (l : list Z) : list Z := reverse (trim p (reverse l)).

Definition spec_store (cap : Z) (l : line) (c : Z) : line :=
  if cap <=? l_len l then publish l
  else if l_has l ICANON then l_set l (ready l) (edit l ++ [c])
  else publish (l_set l (ready l) (edit l ++ [c])).

Definition spec_signal (l : line) : line := if l_has l NOFLSH then l else l_set l (ready l) [].

(** One byte of input, with room for [cap] bytes. *)
Definition spec_receive (cap : Z) (l : line) (c : Z) : line :=
  match translate (l_term l) c with
  | None => l
  | Some c =>
      if l_lnext l then spec_store cap (l_flags l (l_eof l) false (l_stopped l)) c
      else if l_has l IEXTEN && (c =? l_cc l VLNEXT) then l_flags l (l_eof l) true (l_stopped l)
      else if l_ixon l && (c =? l_cc l VSTOP) then l_flags l (l_eof l) false true
      else if l_ixon l && (c =? l_cc l VSTART) then l_flags l (l_eof l) false false
      else if l_has l ICANON && l_has l IEXTEN && (c =? l_cc l VDISCARD) then
        mk_line (ready l) (edit l) (l_eof l) false (l_stopped l) (set_lflag (l_term l) (Z.lxor (c_lflag (l_term l)) FLUSHO))
      else if l_has l ISIG && ((c =? l_cc l VINTR) || (c =? l_cc l VQUIT) || (c =? l_cc l VSUSP)) then spec_signal l
      else if negb (l_has l ICANON) then spec_store cap l c
      else if c =? l_cc l VERASE then l_set l (ready l) (removelast (edit l))
      else if c =? l_cc l VKILL then l_set l (ready l) []
      else if l_has l IEXTEN && (c =? l_cc l VWERASE) then l_set l (ready l) (rtrim (fun c => negb (is_blank c)) (rtrim is_blank (edit l)))
      else if l_has l IEXTEN && (c =? l_cc l VREPRINT) then l
      else if c =? l_cc l VEOF then match edit l with [] => l_flags l true false (l_stopped l) | _ => publish l end
      else
        let l' := spec_store cap l c in
        if (c =? 10) || (c =? l_cc l VEOL) || (c =? l_cc l VEOL2) || (l_len l' =? cap) then publish l' else l'
  end.

(** ** The ring *)

Fixpoint ring (b : list Z) (sz i : Z) (n : nat) : list Z :=
  match n with O => [] | S n' => default 0 (b !! Z.to_nat (i mod sz)) :: ring b sz (i + 1) n' end.

Definition view (s : tty) : line :=
  mk_line (ring (rx_buf s) (rx_size s) (rx_r s) (Z.to_nat (rx_w s - rx_r s))) (ring (rx_buf s) (rx_size s) (rx_w s) (Z.to_nat (rx_e s - rx_w s)))
    (eof_pending s) (lnext s) (stopped s) (term s).

(** The counters are in order and the ring is large enough for what they span. *)
Record ok (s : tty) : Prop := {
  ok_size : 0 < rx_size s < 2 ^ 32;
  ok_buf : Z.of_nat (length (rx_buf s)) = rx_size s;
  ok_order : 0 <= rx_r s <= rx_w s /\ rx_w s <= rx_e s;
  ok_room : rx_e s - rx_r s <= rx_size s;
  ok_wide : rx_e s < 2 ^ 64
}.

Lemma ring_length b sz n : forall i, length (ring b sz i n) = n.
Proof. induction n as [| n IH]; intros i; cbn [ring length]; [done |]. by rewrite IH. Qed.

Lemma ring_app b sz n m : forall i, ring b sz i (n + m) = ring b sz i n ++ ring b sz (i + Z.of_nat n) m.
Proof. induction n as [| n IH]; intros i; cbn [Nat.add ring app]; [f_equal; lia |]. f_equal. rewrite IH. do 2 f_equal. lia. Qed.

Lemma ring_split b sz i j k : i <= j <= k -> ring b sz i (Z.to_nat (k - i)) = ring b sz i (Z.to_nat (j - i)) ++ ring b sz j (Z.to_nat (k - j)).
Proof. intros H. replace (Z.to_nat (k - i)) with (Z.to_nat (j - i) + Z.to_nat (k - j))%nat by lia. rewrite ring_app. do 2 f_equal. lia. Qed.

Lemma ring_put b sz e c n : 0 < sz -> forall i, i + Z.of_nat n <= e < i + sz -> ring (<[Z.to_nat (e mod sz) := c]> b) sz i n = ring b sz i n.
Proof.
  intros Hsz. induction n as [| n IH]; intros i Hi; cbn [ring]; [done |]. rewrite IH by lia. f_equal. rewrite list_lookup_insert_ne; [done |].
  pose proof (Z.mod_pos_bound e sz Hsz). pose proof (Z.mod_pos_bound i sz Hsz). intros E. assert (E' : e mod sz = i mod sz) by lia.
  apply Z.cong_iff_0 in E'. apply Z.mod_divide in E' as [k Hk]; [| lia]. clear - Hk Hi Hsz. assert (k <= 0 \/ 1 <= k) as [Hk0 | Hk1] by lia; nia.
Qed.

Lemma ring_one b sz e c : 0 < sz -> Z.of_nat (length b) = sz -> ring (<[Z.to_nat (e mod sz) := c]> b) sz e 1 = [c].
Proof. intros Hsz Hl. cbn [ring]. pose proof (Z.mod_pos_bound e sz Hsz). rewrite list_lookup_insert_eq by lia. done. Qed.

Lemma ring_rd b sz i : 0 < sz -> Z.of_nat (length b) = sz -> rd b (i mod sz) = Ret (default 0 (b !! Z.to_nat (i mod sz))).
Proof.
  intros Hsz Hl. pose proof (Z.mod_pos_bound i sz Hsz) as Hm. apply rd_ret. split; [lia |]. destruct (lookup_lt_is_Some_2 b (Z.to_nat (i mod sz))) as [x ->]; [lia |]. done.
Qed.

Lemma ring_last b sz i e : i < e -> ring b sz i (Z.to_nat (e - i)) = ring b sz i (Z.to_nat (e - 1 - i)) ++ [default 0 (b !! Z.to_nat ((e - 1) mod sz))].
Proof. intros H. rewrite (ring_split b sz i (e - 1) e) by lia. f_equal. replace (Z.to_nat (e - (e - 1))) with 1%nat by lia. done. Qed.

Lemma ring_none b sz i : ring b sz i (Z.to_nat (i - i)) = [].
Proof. by rewrite Z.sub_diag. Qed.

Lemma view_len s : ok s -> l_len (view s) = rx_e s - rx_r s.
Proof. intros [_ _ H _ _]. unfold l_len, view. cbn [ready edit]. rewrite !ring_length. lia. Qed.

(** ** Echoes change nothing but what is shown *)

Definition shows (s s' : tty) : Prop := s' = set_out s (out s').

Lemma shows_refl s : shows s s.
Proof. by destruct s. Qed.

Lemma shows_trans s1 s2 s3 : shows s1 s2 -> shows s2 s3 -> shows s1 s3.
Proof. unfold shows. intros -> ->. done. Qed.

Section input.
Context (put_char : list Z -> Z -> Z).

Lemma put_shows s c : shows s (n_tty_put put_char s c).
Proof. unfold n_tty_put, drv_put. destruct (_ =? 0); [done | apply shows_refl]. Qed.

Lemma output_shows s c : shows s (n_tty_output put_char s c).
Proof. unfold n_tty_output. destruct (lflag s FLUSHO); [apply shows_refl |]. destruct (_ && _); [eapply shows_trans; apply put_shows | apply put_shows]. Qed.

Lemma echo_shows s c : shows s (n_tty_echo_char put_char s c).
Proof.
  unfold n_tty_echo_char. destruct (negb _); [apply shows_refl |]. destruct (_ && _); [eapply shows_trans; apply put_shows | apply output_shows].
Qed.

Lemma erase_shows s : shows s (n_tty_erase_echo put_char s).
Proof. unfold n_tty_erase_echo. eapply shows_trans; [eapply shows_trans; apply put_shows | apply put_shows]. Qed.

Lemma kill_shows n : forall s, shows s (n_tty_kill_echo put_char s n).
Proof. induction n as [| n IH]; intros s; cbn [n_tty_kill_echo]; [apply shows_refl | eapply shows_trans; [apply erase_shows | apply IH]]. Qed.

(** An echo keeps the counters, the ring and the view. *)
Lemma shows_view s s' : shows s s' -> view s' = view s /\ (ok s -> ok s') /\ rx_e s' = rx_e s /\ rx_w s' = rx_w s /\ rx_r s' = rx_r s /\ rx_size s' = rx_size s /\ rx_buf s' = rx_buf s /\ term s' = term s /\ pgrp s' = pgrp s.
Proof. intros ->. split_and!; try done. intros [H1 H2 H3 H4 H5]. by constructor. Qed.

Lemma ok_set s r w e : ok s -> 0 <= r <= w -> w <= e -> e - r <= rx_size s -> e < 2 ^ 64 -> ok (set_counters s r w e).
Proof. intros [H1 H2 _ _ _] ? ? ? ?. by constructor. Qed.

Lemma view_publish s : ok s -> view (set_w s (rx_e s)) = publish (view s) /\ ok (set_w s (rx_e s)).
Proof.
  intros Hok. pose proof Hok as [H1 H2 [H3 H4] H5 H6]. split; [| apply ok_set; auto; lia]. unfold view, publish, l_set. cbn [rx_r rx_w rx_e set_w set_counters rx_buf rx_size ready edit].
  rewrite ring_none, (ring_split _ _ (rx_r s) (rx_w s) (rx_e s)) by lia. done.
Qed.

(** What one byte may do to the counters. *)
Definition advances (s s' : tty) : Prop := rx_e s' <= rx_e s + 1 /\ rx_r s' = rx_r s /\ rx_size s' = rx_size s /\ pgrp s' = pgrp s.

Lemma n_tty_store_spec s c : ok s -> rx_e s + 1 < 2 ^ 64 ->
  exists s', n_tty_store put_char s c = Ret s' /\ ok s' /\ view s' = spec_store (rx_size s) (view s) c /\ advances s s' /\ term s' = term s.
Proof.
  intros Hok Hw. pose proof Hok as [H1 H2 [H3 H4] H5 H6]. unfold n_tty_store, spec_store. rewrite u64_small by lia. rewrite view_len by done.
  destruct (Z.leb_spec (rx_size s) (rx_e s - rx_r s)) as [Hfull | Hroom].
  { destruct (view_publish s Hok). eexists. split; [done |]. split_and!; auto; split_and!; cbn; lia. }
  pose proof (Z.mod_pos_bound (rx_e s) (rx_size s) ltac:(lia)). rewrite wr_in_range by lia.
  set (s1 := set_e (set_buf s (<[Z.to_nat (rx_e s mod rx_size s) := c]> (rx_buf s))) (u64 (rx_e (set_buf s (<[Z.to_nat (rx_e s mod rx_size s) := c]> (rx_buf s))) + 1))).
  assert (Ee : rx_e s1 = rx_e s + 1) by (cbn; apply u64_small; lia).
  assert (Hok1 : ok s1) by (constructor; cbn [rx_size rx_buf rx_r rx_w s1 set_e set_counters set_buf]; rewrite ?Ee, ?length_insert; cbn; try lia; split_and!; lia).
  assert (Hv1 : view s1 = l_set (view s) (ready (view s)) (edit (view s) ++ [c])).
  { unfold view, l_set. rewrite Ee. cbn [rx_r rx_w rx_buf rx_size s1 set_e set_counters set_buf ready edit eof_pending lnext stopped term l_eof l_lnext l_stopped l_term]. f_equal.
    - apply ring_put; lia.
    - rewrite (ring_split _ _ (rx_w s) (rx_e s) (rx_e s + 1)) by lia. f_equal; [apply ring_put; lia |]. replace (Z.to_nat (rx_e s + 1 - rx_e s)) with 1%nat by lia. apply ring_one; lia. }
  destruct (shows_view _ _ (echo_shows s1 c)) as (Ev & Eok & E1 & E2 & E3 & E4 & _ & E6 & E7). specialize (Eok Hok1). set (s2 := n_tty_echo_char put_char s1 c) in *.
  assert (Hadv : forall s', rx_e s' = rx_e s2 -> rx_r s' = rx_r s2 -> rx_size s' = rx_size s2 -> pgrp s' = pgrp s2 -> advances s s') by (unfold advances; intros s' -> -> -> ->; rewrite E1, E3, E4, E7, Ee; split_and!; cbn; lia).
  change (l_has (view s) ICANON) with (lflag s ICANON). destruct (lflag s ICANON).
  - exists s2. split_and!; try done; [by rewrite Ev, Hv1 | by apply Hadv].
  - destruct (view_publish s2 Eok) as [Hp1 Hp2]. eexists. split; [done |]. split_and!; try done; [by rewrite Hp1, Ev, Hv1 | by apply Hadv].
Qed.

Lemma rtrim_snoc p l c : rtrim p (l ++ [c]) = if p c then rtrim p l else l ++ [c].
Proof. unfold rtrim. rewrite reverse_snoc. cbn [trim]. destruct (p c); [done |]. by rewrite reverse_cons, reverse_involutive. Qed.

Lemma rtrim_ext p q l : (forall c, p c = q c) -> rtrim p l = rtrim q l.
Proof. intros H. unfold rtrim. f_equal. induction (reverse l) as [| c l' IH]; cbn [trim]; [done |]. by rewrite H, IH. Qed.

Lemma werase_loop_spec s bl start (n : nat) : ok s -> forall e, start <= e -> n = Z.to_nat (e - start) ->
  exists e', werase_loop s bl start e n = Ret e' /\ start <= e' <= e /\
    ring (rx_buf s) (rx_size s) start (Z.to_nat (e' - start)) = rtrim (fun c => Bool.eqb (is_blank c) bl) (ring (rx_buf s) (rx_size s) start (Z.to_nat (e - start))).
Proof.
  intros Hok. pose proof Hok as [H1 H2 _ _ _]. induction n as [| n IH]; intros e He Hn; cbn [werase_loop]; destruct (Z.ltb_spec start e) as [Hlt | Hge]; try lia.
  - exists e. split; [done |]. split; [lia |]. replace (Z.to_nat (e - start)) with 0%nat by lia. done.
  - rewrite ring_rd by lia. rewrite ring_last, rtrim_snoc by done. destruct (Bool.eqb _ bl) eqn:E.
    + destruct (IH (e - 1)) as (e' & -> & He' & Hr); [lia | lia |]. exists e'. split; [done |]. split; [lia | done].
    + exists e. split; [done |]. split; [lia |]. by rewrite <- ring_last.
Qed.

Lemma werase_spec s : ok s -> exists s', n_tty_werase put_char s = Ret s' /\ ok s' /\ advances s s' /\
  view s' = l_set (view s) (ready (view s)) (rtrim (fun c => negb (is_blank c)) (rtrim is_blank (edit (view s)))).
Proof.
  intros Hok. pose proof Hok as [H1 H2 [H3 H4] H5 H6]. unfold n_tty_werase.
  destruct (werase_loop_spec s true (rx_w s) _ Hok (rx_e s) ltac:(lia) eq_refl) as (e1 & -> & He1 & R1).
  destruct (werase_loop_spec s false (rx_w s) _ Hok e1 ltac:(lia) eq_refl) as (e2 & -> & He2 & R2).
  set (s1 := if lflag s ECHOE then _ else s). assert (Hs1 : shows s s1) by (unfold s1; destruct (lflag s ECHOE); [apply kill_shows | apply shows_refl]).
  destruct (shows_view _ _ Hs1) as (Ev & Eok & E1 & E2 & E3 & E4 & E5 & E6 & E7). eexists. split; [done |]. split_and!.
  - apply ok_set; auto; rewrite ?E1, ?E2, ?E3, ?E4; lia.
  - split_and!; cbn; rewrite ?E3, ?E4, ?E7; lia.
  - rewrite Hs1. unfold view, l_set, set_e, set_counters, set_out. cbn [rx_r rx_w rx_e rx_buf rx_size ready edit eof_pending lnext stopped term l_eof l_lnext l_stopped l_term]. f_equal.
    rewrite R2. rewrite (rtrim_ext _ (fun c => negb (is_blank c))) by (intros c; by destruct (is_blank c)). f_equal. rewrite R1. apply rtrim_ext. intros c. by destruct (is_blank c).
Qed.

Lemma reprint_loop_shows (n : nat) : forall s i, ok s -> exists s', reprint_loop put_char s i n = Ret s' /\ shows s s'.
Proof.
  induction n as [| n IH]; intros s i Hok; cbn [reprint_loop]; [exists s; split; [done | apply shows_refl] |]. pose proof Hok as [H1 H2 _ _ _]. rewrite ring_rd by lia.
  set (c := default _ _). destruct (IH (n_tty_echo_char put_char s c) (i + 1)) as (s' & -> & Hs); [by apply (shows_view s _ (echo_shows s c)) |].
  exists s'. split; [done |]. eapply shows_trans; [apply echo_shows | done].
Qed.

Lemma reprint_spec s : ok s -> exists s', n_tty_reprint put_char s = Ret s' /\ shows s s'.
Proof.
  intros Hok. unfold n_tty_reprint. destruct (negb _); [exists s; split; [done | apply shows_refl] |]. set (s1 := n_tty_output _ _ 10).
  assert (Hs1 : shows s s1) by (eapply shows_trans; [eapply shows_trans; apply put_shows | apply output_shows]).
  destruct (reprint_loop_shows (Z.to_nat (rx_e s1 - rx_w s1)) s1 (rx_w s1)) as (s2 & -> & Hs2); [by apply (shows_view s s1) |]. eexists. split; [done |].
  eapply shows_trans; [exact Hs1 |]. eapply shows_trans; [exact Hs2 | apply output_shows].
Qed.

Lemma signal_spec s sig c : ok s -> lflag s ISIG = true -> let s' := n_tty_signal put_char s sig c in
  ok s' /\ view s' = spec_signal (view s) /\ advances s s'.
Proof.
  intros Hok Hi s'. unfold s', n_tty_signal. rewrite Hi. cbn [negb]. set (s1 := if 0 <? pgrp s then signal_send_pgrp s (pgrp s) sig else s).
  assert (Hs1 : ok s1 /\ view s1 = view s /\ term s1 = term s /\ rx_e s1 = rx_e s /\ rx_r s1 = rx_r s /\ rx_size s1 = rx_size s /\ pgrp s1 = pgrp s).
  { unfold s1. destruct (0 <? pgrp s); [| done]. split_and!; try done. destruct Hok. by constructor. }
  destruct Hs1 as (Hok1 & Ev & Et & Ee & Er & Esz & Epg). pose proof Hok1 as [H1 H2 [H3 H4] H5 H6]. set (s2 := if negb (lflag s1 NOFLSH) then set_e s1 (rx_w s1) else s1).
  assert (Hs2 : ok s2 /\ view s2 = spec_signal (view s) /\ advances s s2).
  { unfold s2, spec_signal. change (l_has (view s) NOFLSH) with (has (c_lflag (term s)) NOFLSH). rewrite <- Et. change (has (c_lflag (term s1)) NOFLSH) with (lflag s1 NOFLSH).
    destruct (lflag s1 NOFLSH); cbn [negb]; [split_and!; try done; split_and!; lia |]. rewrite <- Ev. split_and!.
    - apply ok_set; auto; lia.
    - unfold view, l_set, set_e, set_counters. cbn [rx_r rx_w rx_e rx_buf rx_size ready edit eof_pending lnext stopped term l_eof l_lnext l_stopped l_term]. by rewrite ring_none.
    - split_and!; cbn; lia. }
  destruct Hs2 as (Hok2 & Ev2 & A1 & A2 & A3 & A4). destruct (lflag s2 ECHO); [| by split_and!].
  assert (Hs : shows s2 (n_tty_output put_char (n_tty_put put_char (n_tty_put put_char s2 94) (c + 64)) 10)) by (eapply shows_trans; [eapply shows_trans; apply put_shows | apply output_shows]).
  destruct (shows_view _ _ Hs) as (Ev3 & Eok3 & F1 & _ & F3 & F4 & _ & _ & F5). split_and!; [auto | congruence |]. split_and!; congruence || lia.
Qed.

Lemma removelast_snoc {A} (l : list A) c : removelast (l ++ [c]) = l.
Proof. apply removelast_last. Qed.

Lemma erase_spec s : ok s -> let s' := if rx_w s <? rx_e s then (let s := set_e s (rx_e s - 1) in if lflag s ECHOE then n_tty_erase_echo put_char s else s) else s in
  ok s' /\ view s' = l_set (view s) (ready (view s)) (removelast (edit (view s))) /\ advances s s'.
Proof.
  intros Hok s'. pose proof Hok as [H1 H2 [H3 H4] H5 H6]. unfold s'. destruct (Z.ltb_spec (rx_w s) (rx_e s)) as [Hlt | Hge].
  - set (s1 := set_e s (rx_e s - 1)). assert (Hs1 : ok s1 /\ view s1 = l_set (view s) (ready (view s)) (removelast (edit (view s)))).
    { split; [apply ok_set; auto; lia |]. unfold view, l_set, s1, set_e, set_counters. cbn [rx_r rx_w rx_e rx_buf rx_size ready edit eof_pending lnext stopped term l_eof l_lnext l_stopped l_term].
      f_equal. rewrite (ring_last _ _ (rx_w s) (rx_e s)), removelast_snoc by done. done. }
    destruct Hs1 as [Ho1 Hv1]. cbv zeta. fold s1. destruct (lflag s1 ECHOE); [| split_and!; try done; split_and!; cbn; lia].
    destruct (shows_view _ _ (erase_shows s1)) as (Ev & Eok & E1 & _ & E3 & E4 & _ & _ & E7). split_and!; [auto | congruence |]. split_and!; rewrite ?E1, ?E3, ?E4, ?E7; cbn; lia.
  - split_and!; try done; [| split_and!; lia]. unfold view, l_set. cbn [ready edit l_eof l_lnext l_stopped l_term]. f_equal. replace (Z.to_nat (rx_e s - rx_w s)) with 0%nat by lia. done.
Qed.

(** A byte does what the specification says, in a state that is still in order. *)
Definition refines (s : tty) (r : res tty) (l' : line) : Prop := exists s', r = Ret s' /\ ok s' /\ view s' = l' /\ advances s s'.

Lemma refines_same s s' l' : ok s' -> view s' = l' -> rx_e s' = rx_e s -> rx_r s' = rx_r s -> rx_size s' = rx_size s -> pgrp s' = pgrp s -> refines s (Ret s') l'.
Proof. intros H1 H2 H3 H4 H5 H6. exists s'. split_and!; auto. split_and!; lia. Qed.

Lemma shows_refines s s' : ok s -> shows s s' -> refines s (Ret s') (view s).
Proof. intros Hok Hs. destruct (shows_view _ _ Hs) as (H1 & H2 & H3 & _ & H4 & H5 & _ & _ & H6). apply refines_same; auto. Qed.

Lemma kill_spec s nr : ok s -> refines s (Ret (let s := set_e s (rx_w s) in if lflag s ECHOK then n_tty_kill_echo put_char s nr else s)) (l_set (view s) (ready (view s)) []).
Proof.
  intros Hok. pose proof Hok as [H1 H2 [H3 H4] H5 H6]. cbv zeta. set (s1 := set_e s (rx_w s)).
  assert (Hs1 : ok s1 /\ view s1 = l_set (view s) (ready (view s)) []).
  { split; [apply ok_set; auto; lia |]. unfold view, l_set, s1, set_e, set_counters. cbn [rx_r rx_w rx_e rx_buf rx_size ready edit eof_pending lnext stopped term l_eof l_lnext l_stopped l_term]. by rewrite ring_none. }
  destruct Hs1 as [Ho Hv]. assert (Hsh : shows s1 (if lflag s1 ECHOK then n_tty_kill_echo put_char s1 nr else s1)) by (destruct (lflag s1 ECHOK); [apply kill_shows | apply shows_refl]).
  destruct (shows_view _ _ Hsh) as (E1 & E2 & E3 & _ & E4 & E5 & _ & _ & E6). eexists. split; [done |]. split_and!; [auto | congruence |]. split_and!; rewrite ?E3, ?E4, ?E5, ?E6; cbn; lia.
Qed.

Lemma eof_spec s : ok s -> lnext s = false ->
  refines s (Ret (if rx_e s =? rx_w s then set_flags s true (lnext s) (stopped s) else set_w s (rx_e s)))
    (match edit (view s) with [] => l_flags (view s) true false (l_stopped (view s)) | _ => publish (view s) end).
Proof.
  intros Hok Hl. pose proof Hok as [H1 H2 [H3 H4] H5 H6]. pose proof (ring_length (rx_buf s) (rx_size s) (Z.to_nat (rx_e s - rx_w s)) (rx_w s)) as Hlen. change (ring _ _ _ _) with (edit (view s)) in Hlen.
  destruct (Z.eqb_spec (rx_e s) (rx_w s)) as [He | Hne].
  - destruct (edit (view s)) as [| c l]; [| cbn [length] in Hlen; lia]. apply refines_same; try done. unfold view, l_flags. cbn. by rewrite Hl.
  - destruct (edit (view s)) as [| c l] eqn:E; [cbn [length] in Hlen; lia |]. destruct (view_publish s Hok) as [Hp1 Hp2]. apply refines_same; auto.
Qed.

Lemma typed_spec s c : ok s -> lflag s ICANON = true -> rx_e s + 1 < 2 ^ 64 ->
  refines s (let! s := n_tty_store put_char s c in
             Ret (if (c =? 10) || (c =? cc s VEOL) || (c =? cc s VEOL2) || (u64 (rx_e s - rx_r s) =? rx_size s) then set_w s (rx_e s) else s))
    (let l' := spec_store (rx_size s) (view s) c in
     if (c =? 10) || (c =? l_cc (view s) VEOL) || (c =? l_cc (view s) VEOL2) || (l_len l' =? rx_size s) then publish l' else l').
Proof.
  intros Hok Hc Hw. destruct (n_tty_store_spec s c Hok Hw) as (s' & -> & Hok' & Hv & Ha & Ht). cbv zeta. rewrite <- Hv, view_len by done.
  pose proof Hok' as [H1 H2 [H3 H4] H5 H6]. destruct Ha as (A1 & A2 & A3 & A4). rewrite u64_small by lia. change (l_cc (view s) VEOL) with (c_cc (term s) VEOL). change (l_cc (view s) VEOL2) with (c_cc (term s) VEOL2).
  rewrite <- Ht, <- A3. change (c_cc (term s')) with (cc s'). destruct (_ || _); [destruct (view_publish s' Hok') as [Hp1 Hp2] |]; eexists; (split; [done |]); split_and!; auto; split_and!; cbn; lia.
Qed.

Lemma receive_one_spec s c : ok s -> rx_e s + 1 < 2 ^ 64 -> refines s (receive_one put_char s c) (spec_receive (rx_size s) (view s) c).
Proof.
  intros Hok Hw. unfold receive_one, spec_receive. change (l_term (view s)) with (term s). destruct (translate (term s) c) as [c' |]; [| by apply refines_same].
  change (l_lnext (view s)) with (lnext s). destruct (lnext s) eqn:Hl.
  { set (s1 := set_flags s (eof_pending s) false (stopped s)). assert (Hok1 : ok s1) by (destruct Hok; by constructor).
    destruct (n_tty_store_spec s1 c' Hok1 Hw) as (s' & -> & Hok' & Hv & Ha & _). exists s'. split_and!; auto. }
  change (l_has (view s)) with (lflag s). change (l_cc (view s)) with (cc s). change (l_ixon (view s)) with (iflag s IXON). change (l_eof (view s)) with (eof_pending s). change (l_stopped (view s)) with (stopped s).
  assert (Hflags : forall st, refines s (Ret (set_flags s (eof_pending s) false st)) (l_flags (view s) (eof_pending s) false st)) by (intros st; apply refines_same; try done; destruct Hok; by constructor).
  destruct (lflag s IEXTEN && (c' =? cc s VLNEXT)).
  { set (s1 := set_flags s (eof_pending s) true (stopped s)). assert (Hok1 : ok s1) by (destruct Hok; by constructor). cbv zeta.
    assert (Hs : shows s1 (if lflag s1 ECHO then n_tty_put put_char (n_tty_put put_char s1 94) 8 else s1)) by (destruct (lflag s1 ECHO); [eapply shows_trans; apply put_shows | apply shows_refl]).
    apply (shows_refines s1 _ Hok1 Hs). }
  destruct (iflag s IXON && (c' =? cc s VSTOP)); [apply Hflags |]. destruct (iflag s IXON && (c' =? cc s VSTART)); [apply Hflags |].
  destruct (lflag s ICANON && lflag s IEXTEN && (c' =? cc s VDISCARD)); [apply refines_same; try done; first [by (unfold view; cbn; rewrite Hl) | by (destruct Hok; constructor)] |].
  assert (Hsig : forall sig, lflag s ISIG = true -> refines s (Ret (n_tty_signal put_char s sig c')) (spec_signal (view s))).
  { intros sig Hi. destruct (signal_spec s sig c' Hok Hi) as (S1 & S2 & S3). eexists. split_and!; try done. }
  destruct (lflag s ISIG) eqn:Hi; cbn [andb].
  1: destruct (c' =? cc s VINTR); cbn [orb]; [by apply Hsig |]; destruct (c' =? cc s VQUIT); cbn [orb]; [by apply Hsig |]; destruct (c' =? cc s VSUSP); [by apply Hsig |].
  all: clear Hsig Hflags; destruct (lflag s ICANON) eqn:Hc; cbn [negb]; [| destruct (n_tty_store_spec s c' Hok Hw) as (s' & -> & S1 & S2 & S3 & _); by exists s'].
  all: destruct (c' =? cc s VERASE); [destruct (erase_spec s Hok) as (S1 & S2 & S3); by eexists |].
  all: destruct (c' =? cc s VKILL); [by apply kill_spec |].
  all: destruct (lflag s IEXTEN && (c' =? cc s VWERASE)); [destruct (werase_spec s Hok) as (s' & -> & S1 & S2 & S3); by exists s' |].
  all: destruct (lflag s IEXTEN && (c' =? cc s VREPRINT)); [destruct (reprint_spec s Hok) as (s' & -> & S1); by apply shows_refines |].
  all: destruct (c' =? cc s VEOF); [pose proof (eof_spec s Hok Hl) as He; rewrite Hl in He; exact He | by apply typed_spec].
Qed.

Lemma receive_buf_spec s buf : ok s -> rx_e s + Z.of_nat (length buf) < 2 ^ 64 ->
  exists s', n_tty_receive_buf put_char s buf = Ret s' /\ ok s' /\ view s' = fold_left (spec_receive (rx_size s)) buf (view s) /\ rx_size s' = rx_size s.
Proof.
  revert s. induction buf as [| c buf IH]; intros s Hok Hw; cbn [n_tty_receive_buf fold_left]; [by exists s |]. cbn [length] in Hw.
  destruct (receive_one_spec s c Hok ltac:(lia)) as (s1 & -> & Hok1 & Hv & A1 & A2 & A3 & A4). destruct (IH s1 Hok1 ltac:(lia)) as (s' & -> & H1 & H2 & H3).
  exists s'. split_and!; try done; [by rewrite H2, A3, Hv | congruence].
Qed.

(** C20: [n_tty_receive_buf] refines the line editor on lists: from a ring in order
    with 2^64 bytes not yet exhausted it returns, the ring is in order again, and
    the readable bytes, the line being typed and the flags are what the editor
    makes of the input, byte by byte, whatever the driver does with the echoes. *)
Theorem n_tty_receive_buf_refines s buf : ok s -> rx_e s + Z.of_nat (length buf) < 2 ^ 64 ->
  exists s', n_tty_receive_buf put_char s buf = Ret s' /\ ok s' /\ view s' = fold_left (spec_receive (rx_size s)) buf (view s) /\ rx_size s' = rx_size s.
Proof. apply receive_buf_spec. Qed.

End input.

(** ** Reading *)

(** The length of the first line, its newline included. *)
Fixpoint line_len (l : list Z) : option Z :=
  match l with [] => None | c :: l' => if c =? 10 then Some 1 else match line_len l' with Some n => Some (n + 1) | None => None end end.

(** How many bytes a canonical read may take: one line, or all of a full ring. *)
Definition spec_avail (cap : Z) (l : list Z) : Z :=
  match line_len l with Some n => n | None => if cap <=? Z.of_nat (length l) then Z.of_nat (length l) else 0 end.

Definition spec_chunk (n size : Z) : Z := Z.min (Z.min n size) 256.

Lemma line_len_bound l n : line_len l = Some n -> 1 <= n <= Z.of_nat (length l).
Proof.
  revert n. induction l as [| c l IH]; intros n; cbn [line_len length]; [done |]. destruct (c =? 10); [intros [= <-]; lia |].
  destruct (line_len l) as [m |]; [| done]. intros [= <-]. specialize (IH m eq_refl). lia.
Qed.

Lemma find_line_spec s (n : nat) : ok s -> forall i, 0 <= i -> rx_r s + i + Z.of_nat n < 2 ^ 64 ->
  find_line s i n = Ret (match line_len (ring (rx_buf s) (rx_size s) (rx_r s + i) n) with Some k => Some (i + k) | None => None end).
Proof.
  intros [H1 H2 [H3 _] _ _]. induction n as [| n IH]; intros i Hi Hw; cbn [find_line ring line_len]; [done |]. rewrite u64_small by lia. rewrite ring_rd by lia.
  destruct (_ =? 10); [done |]. rewrite IH by lia. rewrite Z.add_assoc. destruct (line_len _); [do 2 f_equal; lia | done].
Qed.

Lemma copy_out_spec s (n : nat) : ok s -> forall i, 0 <= i -> rx_r s + i + Z.of_nat n < 2 ^ 64 -> copy_out s i n = Ret (ring (rx_buf s) (rx_size s) (rx_r s + i) n).
Proof.
  intros [H1 H2 [H3 _] _ _]. induction n as [| n IH]; intros i Hi Hw; cbn [copy_out ring]; [done |]. rewrite u64_small by lia. rewrite ring_rd by lia. rewrite IH by lia. by rewrite Z.add_assoc.
Qed.

Lemma taken_chunk_spec s copy size total r : ok s -> rx_w s < 2 ^ 64 -> 0 < copy <= rx_w s - rx_r s -> total < size ->
  let n := spec_chunk copy (size - total) in
  exists s', take_chunk s copy size total r = Ret (s', r, Took (take (Z.to_nat n) (ready (view s)))) /\ s' = set_r s (rx_r s + n) /\ ok s' /\
    ready (view s') = drop (Z.to_nat n) (ready (view s)) /\ edit (view s') = edit (view s).
Proof.
  intros Hok Hw Hc Ht n. pose proof Hok as [H1 H2 [H3 H4] H5 H6]. unfold take_chunk. destruct (Z.eqb_spec copy 0); [lia |].
  set (chunk := if 256 <? _ then 256 else _). assert (Hch : chunk = n).
  { unfold chunk, n, spec_chunk. destruct (Z.ltb_spec (size - total) copy); [destruct (Z.ltb_spec 256 (size - total)) | destruct (Z.ltb_spec 256 copy)]; lia. }
  assert (Hn : 0 < n <= copy) by (unfold n, spec_chunk; lia). rewrite Hch, copy_out_spec by (done || lia). rewrite Z.add_0_r, u64_small by lia.
  assert (Hsp : ready (view s) = ring (rx_buf s) (rx_size s) (rx_r s) (Z.to_nat n) ++ ring (rx_buf s) (rx_size s) (rx_r s + n) (Z.to_nat (rx_w s - (rx_r s + n)))).
  { cbn [ready view]. rewrite (ring_split _ _ (rx_r s) (rx_r s + n) (rx_w s)) by lia. do 2 f_equal. lia. }
  exists (set_r s (rx_r s + n)). split_and!; try done.
  - rewrite Hsp. do 3 f_equal. symmetry. apply take_app_length'. by rewrite ring_length.
  - apply ok_set; auto; lia.
  - rewrite Hsp. symmetry. apply drop_app_length'. by rewrite ring_length.
Qed.

(** What a turn took out. *)
Definition taken (o : read_out) : list Z := match o with Took l => l | _ => [] end.

(** A turn of a reader: it never halts, and takes a prefix of the readable bytes. *)
Lemma read_section_takes s size total pgid sg nw r : ok s -> 0 <= total < size ->
  exists s' r' o, read_section s size total pgid sg nw r = Ret (s', r', o) /\ ok s' /\ ready (view s) = taken o ++ ready (view s') /\ edit (view s') = edit (view s) /\
    (forall l, o = Took l -> 0 < Z.of_nat (length l) <= Z.min (size - total) 256).
Proof.
  intros Hok Ht. pose proof Hok as [H1 H2 [H3 H4] H5 H6].
  assert (Hsame : forall s' (r' : reader) o, ok s' -> view s' = view s \/ (ready (view s') = ready (view s) /\ edit (view s') = edit (view s)) -> taken o = [] -> (forall l, o <> Took l) ->
    exists s1 r1 o1, Ret (s', r', o) = Ret (s1, r1, o1) /\ ok s1 /\ ready (view s) = taken o1 ++ ready (view s1) /\ edit (view s1) = edit (view s) /\ (forall l, o1 = Took l -> 0 < Z.of_nat (length l) <= Z.min (size - total) 256)).
  { intros s' r' o Ho Hv Htk Hno. exists s', r', o. rewrite Htk. split_and!; try done; [destruct Hv as [-> | [-> _]]; done | destruct Hv as [-> | [_ ->]]; done | intros l ->; by destruct (Hno l)]. }
  assert (Hchunk : forall copy r', 0 < copy <= rx_w s - rx_r s -> exists s1 r1 o1, take_chunk s copy size total r' = Ret (s1, r1, o1) /\ ok s1 /\ ready (view s) = taken o1 ++ ready (view s1) /\
    edit (view s1) = edit (view s) /\ (forall l, o1 = Took l -> 0 < Z.of_nat (length l) <= Z.min (size - total) 256)).
  { intros copy r' Hc. destruct (taken_chunk_spec s copy size total r' Hok ltac:(lia) Hc ltac:(lia)) as (s' & -> & _ & Ho & Hr & He). do 3 eexists. split; [done |]. cbn [taken]. split_and!; auto; [by rewrite Hr, take_drop |].
    intros l [= <-]. rewrite length_take. cbn [ready view]. rewrite ring_length. unfold spec_chunk. lia. }
  unfold read_section. destruct (_ && _); [apply Hsame; [destruct Hok; by constructor | by left | done | done] |]. rewrite u64_small by lia. set (avail := rx_w s - rx_r s) in *.
  destruct (lflag s ICANON).
  - assert (Hline : exists o, (if 0 <? avail then find_line s 0 (Z.to_nat avail) else Ret None) = Ret o /\ forall k, o = Some k -> 0 < k <= avail).
    { destruct (Z.ltb_spec 0 avail) as [Ha | Ha]; [| by exists None]. rewrite find_line_spec by (done || lia). eexists. split; [done |]. intros k Hk. destruct (line_len _) as [m |] eqn:E; [| done]. injection Hk as <-.
      apply line_len_bound in E. rewrite ring_length in E. lia. }
    destruct Hline as (o & -> & Ho). set (copy := match o with Some l => l | None => _ end). assert (Hcopy : 0 <= copy <= avail).
    { unfold copy. destruct o as [k |]; [specialize (Ho k eq_refl); lia |]. destruct (_ && _); lia. }
    destruct (Z.eqb_spec copy 0); [| apply Hchunk; lia]. destruct (eof_pending s && (total =? 0)); [apply Hsame; [destruct Hok; by constructor | by right | done | done] |].
    destruct sg; apply Hsame; auto; by intros.
  - set (copy := if cc s VMIN =? 0 then avail else _). assert (Hcopy : 0 <= copy <= avail) by (unfold copy; destruct (_ =? 0); [lia |]; destruct (_ <=? avail); lia).
    destruct (Z.eqb_spec copy 0); [| apply Hchunk; lia]. destruct sg; [apply Hsame; auto; by intros |]. destruct (_ && _); [apply Hsame; auto; by intros |].
    destruct (0 <? cc s VTIME); [| apply Hsame; auto; by intros]. set (r' := if _ && _ then mk_reader _ _ _ else _). destruct (timed r' && (deadline r' <=? nw)); [| apply Hsame; auto; by intros].
    destruct (Z.ltb_spec 0 avail); [apply Hchunk; lia | apply Hsame; auto; by intros].
Qed.

(** A canonical turn in the foreground with something to hand out. *)
Lemma read_section_line s size pgid sg nw r : ok s -> 0 < size -> lflag s ICANON = true -> n_tty_background s pgid = false ->
  let n := spec_chunk (spec_avail (rx_size s) (ready (view s))) size in
  if 0 <? spec_avail (rx_size s) (ready (view s)) then
    exists s', read_section s size 0 pgid sg nw r = Ret (s', r, Took (take (Z.to_nat n) (ready (view s)))) /\ ok s' /\ s' = set_r s (rx_r s + n) /\ ready (view s') = drop (Z.to_nat n) (ready (view s))
  else
    read_section s size 0 pgid sg nw r =
      Ret (if eof_pending s then (set_flags s false (lnext s) (stopped s), r, Returns 0) else if sg then (s, r, Returns (- EINTR)) else (s, r, Sleeps)).
Proof.
  intros Hok Hsz Hc Hbg n. pose proof Hok as [H1 H2 [H3 H4] H5 H6]. unfold read_section. rewrite Hbg, Hc. cbn [andb]. rewrite u64_small by lia. set (avail := rx_w s - rx_r s) in *.
  assert (Hlen : Z.of_nat (length (ready (view s))) = avail) by (cbn [ready view]; rewrite ring_length; lia).
  assert (Hline : (if 0 <? avail then find_line s 0 (Z.to_nat avail) else Ret None) = Ret (line_len (ready (view s)))).
  { cbn [ready view]. fold avail. destruct (Z.ltb_spec 0 avail) as [Ha | Ha]; [| replace (Z.to_nat avail) with 0%nat by lia; done]. rewrite find_line_spec by (done || lia). rewrite Z.add_0_r. destruct (line_len _); do 2 f_equal. }
  rewrite Hline. set (copy := match line_len (ready (view s)) with Some l => l | None => _ end).
  assert (Hcp : copy = spec_avail (rx_size s) (ready (view s))).
  { unfold copy, spec_avail. destruct (line_len (ready (view s))); [done |]. rewrite Hlen. destruct (Z.leb_spec (rx_size s) avail), (Z.ltb_spec 0 avail); (done || lia). }
  assert (Ha0 : 0 <= avail) by (unfold avail; lia). assert (Hb : 0 <= spec_avail (rx_size s) (ready (view s)) <= avail).
  { unfold spec_avail. destruct (line_len (ready (view s))) as [m |] eqn:E; [apply line_len_bound in E; lia | destruct (rx_size s <=? Z.of_nat (length (ready (view s)))); lia]. }
  rewrite Hcp. clear copy Hcp. destruct (Z.ltb_spec 0 (spec_avail (rx_size s) (ready (view s)))) as [Hp | Hz].
  - destruct (Z.eqb_spec (spec_avail (rx_size s) (ready (view s))) 0); [lia |]. assert (Hw : rx_w s < 2 ^ 64) by lia. assert (Hav : 0 < spec_avail (rx_size s) (ready (view s)) <= rx_w s - rx_r s) by (unfold avail in *; lia). destruct (taken_chunk_spec s (spec_avail (rx_size s) (ready (view s))) size 0 r Hok Hw Hav ltac:(lia)) as (s' & -> & Es & Ho & Hr & _).
    rewrite Z.sub_0_r in *. by exists s'.
  - destruct (Z.eqb_spec (spec_avail (rx_size s) (ready (view s))) 0); [| lia]. rewrite andb_true_r. by destruct (eof_pending s), sg.
Qed.

(** A turn of [n_tty_read] under the lock always ends; the bytes it takes are
    the first of the readable ones, at least one, at most what was asked for and
    at most 256, and all others stay readable in order behind them; the line
    being typed is not touched. *)
Theorem read_section_correct s size total pgid sg nw r : ok s -> 0 <= total < size ->
  exists s' r' o, read_section s size total pgid sg nw r = Ret (s', r', o) /\ ok s' /\ ready (view s) = taken o ++ ready (view s') /\ edit (view s') = edit (view s) /\
    (forall l, o = Took l -> 0 < Z.of_nat (length l) <= Z.min (size - total) 256).
Proof. apply read_section_takes. Qed.

(** ** A line at the default settings *)

Definition plain (c : Z) : Prop := 32 <= c < 127.

Lemma receive_default cap l c : l_term l = tty_termios_defaults -> l_lnext l = false -> plain c \/ c = 10 -> l_len l < cap ->
  spec_receive cap l c = let l' := l_set l (ready l) (edit l ++ [c]) in if (c =? 10) || (l_len l + 1 =? cap) then publish l' else l'.
Proof.
  intros Ht Hl Hc Hlen. unfold plain in Hc. unfold spec_receive, spec_store, l_has, l_cc, l_ixon. rewrite Ht, Hl. repeat match goal with |- context [c_cc tty_termios_defaults ?i] => let v := eval vm_compute in (c_cc tty_termios_defaults i) in change (c_cc tty_termios_defaults i) with v end.
  assert (Htr : translate tty_termios_defaults c = Some c).
  { unfold translate. change (has (c_iflag tty_termios_defaults) IGNCR) with false. change (has (c_iflag tty_termios_defaults) ICRNL) with true. change (has (c_iflag tty_termios_defaults) INLCR) with false. cbn [andb].
    destruct (Z.eqb_spec c 13); [lia |]. destruct (Z.eqb_spec c 0); [lia | done]. }
  rewrite Htr. repeat match goal with |- context [has (?f tty_termios_defaults) ?b] => let v := eval vm_compute in (has (f tty_termios_defaults) b) in change (has (f tty_termios_defaults) b) with v end. cbn [andb negb].
  assert (Hn : forall k, 0 <= k < 32 /\ k <> 10 \/ k = 127 -> (c =? k) = false) by (intros k Hk; destruct (Z.eqb_spec c k); [lia | done]). rewrite !Hn by lia. rewrite ?orb_false_r. destruct (Z.leb_spec cap (l_len l)); [lia |].
  cbv zeta. assert (El : l_len (l_set l (ready l) (edit l ++ [c])) = l_len l + 1) by (unfold l_len, l_set; cbn [ready edit]; rewrite length_app; cbn [length]; lia). rewrite El, (Hn 0) by lia. by rewrite !orb_false_r.
Qed.

Lemma type_line cap txt : Forall plain txt -> forall l, l_term l = tty_termios_defaults -> l_lnext l = false -> l_len l + Z.of_nat (length txt) < cap ->
  fold_left (spec_receive cap) (txt ++ [10]) l = l_set l (ready l ++ edit l ++ txt ++ [10]) [].
Proof.
  induction 1 as [| c txt Hc Htxt IH]; intros l Ht Hl Hlen; cbn [app fold_left length] in *.
  - rewrite receive_default by (done || (by right) || lia). cbn [Z.eqb orb]. unfold publish, l_set. cbn. by rewrite app_assoc.
  - rewrite receive_default by (done || (by left) || lia). destruct (Z.eqb_spec c 10); [unfold plain in Hc; lia |]. destruct (Z.eqb_spec (l_len l + 1) cap); [lia |]. cbn [orb]. rewrite IH; try done.
    + unfold l_set. cbn. by rewrite <- !app_assoc.
    + unfold l_len, l_set in *. cbn [ready edit]. rewrite length_app. cbn [length]. lia.
Qed.

Lemma line_len_app txt rest : Forall plain txt -> line_len (txt ++ 10 :: rest) = Some (Z.of_nat (length txt) + 1).
Proof.
  induction 1 as [| c txt Hc Htxt IH]; cbn [app line_len length Z.eqb]; [done |]. unfold plain in Hc. destruct (Z.eqb_spec c 10); [lia |]. rewrite IH. f_equal. lia.
Qed.

Lemma receive_buf_pgrp put_char buf : forall s s', ok s -> rx_e s + Z.of_nat (length buf) < 2 ^ 64 -> n_tty_receive_buf put_char s buf = Ret s' -> pgrp s' = pgrp s.
Proof.
  induction buf as [| c buf IH]; intros s s' Hok Hw E; cbn [n_tty_receive_buf length] in *; [by injection E as <- |].
  destruct (receive_one_spec put_char s c Hok ltac:(lia)) as (s1 & E1 & Hok1 & _ & A1 & _ & _ & A4). rewrite E1 in E. rewrite <- A4. apply (IH s1 s'); [done | lia | done].
Qed.

(** C21: at the default settings, a line of printable characters typed into a
    terminal with nothing to read, short enough for its ring and for one read, is
    what the next read of a task in the foreground returns, with its newline, and
    nothing is left behind. *)
Theorem typed_line_read_back put_char s txt size pgid t ts : ok s -> term s = tty_termios_defaults -> lnext s = false -> rx_r s = rx_e s -> rx_e s + rx_size s < 2 ^ 63 ->
  n_tty_background s pgid = false -> Forall plain txt -> Z.of_nat (length txt) + 1 <= Z.min size 256 -> Z.of_nat (length txt) < rx_size s -> others t = id ->
  exists s1 s2, n_tty_receive_buf put_char s (txt ++ [10]) = Ret s1 /\ n_tty_read s1 size pgid true (t :: ts) = Ret (s2, Some (Z.of_nat (length txt) + 1, txt ++ [10])) /\
    ok s2 /\ ready (view s2) = [] /\ edit (view s2) = [].
Proof.
  intros Hok Ht Hl Hr Hw Hbg Hp Hsz Hcap Hid. pose proof Hok as [H1 H2 [H3 H4] H5 H6].
  assert (Hlen : rx_e s + Z.of_nat (length (txt ++ [10])) < 2 ^ 64) by (rewrite length_app; cbn [length]; lia).
  destruct (receive_buf_spec put_char s (txt ++ [10]) Hok Hlen) as (s1 & E1 & Hok1 & Hv1 & Hs1). exists s1. rewrite E1.
  assert (Hv : view s = mk_line [] [] (eof_pending s) false (stopped s) tty_termios_defaults).
  { unfold view. replace (Z.to_nat (rx_w s - rx_r s)) with 0%nat by lia. replace (Z.to_nat (rx_e s - rx_w s)) with 0%nat by lia. cbn [ring]. by rewrite Hl, Ht. }
  rewrite (type_line (rx_size s) txt Hp (view s)) in Hv1; [| done | done | rewrite view_len by done; lia]. rewrite Hv in Hv1. cbn [ready edit app l_set] in Hv1.
  assert (Hc1 : lflag s1 ICANON = true) by (unfold lflag; change (term s1) with (l_term (view s1)); rewrite Hv1; done).
  assert (Hbg1 : n_tty_background s1 pgid = false) by (unfold n_tty_background; rewrite (receive_buf_pgrp put_char (txt ++ [10]) s s1 Hok Hlen E1); exact Hbg).
  pose proof (read_section_line s1 size pgid (sigp t) (now t) (mk_reader 0 0 false) Hok1 ltac:(lia) Hc1 Hbg1) as Hrd. assert (Erd : ready (view s1) = txt ++ [10]) by (by rewrite Hv1).
  assert (Hav : spec_avail (rx_size s1) (ready (view s1)) = Z.of_nat (length txt) + 1) by (unfold spec_avail; rewrite Erd, line_len_app by done; done).
  rewrite Hav in Hrd. destruct (Z.ltb_spec 0 (Z.of_nat (length txt) + 1)); [| lia]. cbv zeta in Hrd. destruct Hrd as (s2 & Esec & Hok2 & Es2 & Hr2).
  assert (Hn : spec_chunk (Z.of_nat (length txt) + 1) size = Z.of_nat (length (txt ++ [10]))) by (unfold spec_chunk; rewrite length_app; cbn [length]; lia). rewrite Hn, Nat2Z.id, Erd in *. rewrite firstn_all, drop_all in *.
  exists s2. split; [done |]. split_and!; try done.
  - unfold n_tty_read. destruct (Z.eqb_spec size 0); [lia |]. cbn [read_loop]. rewrite Hid. cbn [id]. rewrite Esec. do 4 f_equal. rewrite length_app. cbn [length]. lia.
  - rewrite Es2. cbn [edit view set_r set_counters rx_buf rx_size rx_w rx_e]. change (ring _ _ _ _) with (edit (view s1)). by rewrite Hv1.
Qed.

(** ** Writing *)

(** What a character becomes on its way out. *)
Definition post (s : tty) (c : Z) : list Z := if oflag s OPOST && oflag s ONLCR && (c =? 10) then [13; 10] else [c].

Definition calm : wturn := mk_wturn id id.

Lemma put_chunk_spec put_char l : (forall o c, put_char o c = 0) -> forall s i, lflag s FLUSHO = false ->
  put_chunk put_char s l i = (set_out s (out s ++ concat (map (post s) l)), i + Z.of_nat (length l), 0).
Proof.
  intros Hp. induction l as [| c l IH]; intros s i Hf; cbn [put_chunk map concat length].
  { rewrite app_nil_r, Z.add_0_r. by destruct s. }
  rewrite Hf. unfold drv_put. rewrite !Hp. cbn [Z.eqb].
  assert (Hstep : forall o, put_chunk put_char (set_out s o) l (i + 1) = (set_out s (o ++ concat (map (post s) l)), i + Z.of_nat (S (length l)), 0)).
  { intros o. rewrite IH by done. do 2 f_equal. lia. }
  unfold post at 1. destruct (oflag s OPOST && oflag s ONLCR && (c =? 10)); rewrite ?Hp; cbn [Z.eqb negb out set_out].
  - change (set_out (set_out s (out s ++ [13])) ((out s ++ [13]) ++ [10])) with (set_out s ((out s ++ [13]) ++ [10])). rewrite Hstep. by rewrite <- !app_assoc.
  - rewrite Hstep. by rewrite <- !app_assoc.
Qed.

Lemma write_loop_spec put_char buf : (forall o c, put_char o c = 0) -> forall (k : nat) ts s total, 0 <= total <= Z.of_nat (length buf) -> Z.of_nat (length buf) - total <= 128 * Z.of_nat k ->
  lflag s FLUSHO = false -> stopped s = false ->
  write_loop put_char s buf total (fun _ => true) (replicate k calm ++ ts) = (set_out s (out s ++ concat (map (post s) (drop (Z.to_nat total) buf))), Some (Z.of_nat (length buf), 0)).
Proof.
  intros Hp. induction k as [| k IH]; intros ts s total Ht Hk Hf Hst.
  - assert (total = Z.of_nat (length buf)) as -> by lia. rewrite Nat2Z.id, drop_all. cbn [map concat]. rewrite app_nil_r. assert (E : set_out s (out s) = s) by (by destruct s). rewrite E.
    cbn [replicate app]. destruct ts; cbn [write_loop]; destruct (Z.ltb_spec (Z.of_nat (length buf)) (Z.of_nat (length buf))); (done || lia).
  - cbn [replicate app write_loop]. destruct (Z.ltb_spec total (Z.of_nat (length buf))) as [Hlt | Hge].
    + cbn [negb before_check before_put calm id]. rewrite Hst. cbn [andb]. set (n := Z.min (Z.of_nat (length buf) - total) 128). rewrite put_chunk_spec by done. rewrite Z.add_0_l. cbn [Z.eqb negb].
      set (l1 := take (Z.to_nat n) (drop (Z.to_nat total) buf)). assert (Hl1 : Z.of_nat (length l1) = n) by (unfold l1; rewrite length_take, length_drop; lia). rewrite Hl1.
      rewrite IH; [| lia | lia | done | done]. cbn [out set_out]. f_equal. unfold set_out. cbn. f_equal. rewrite <- app_assoc. f_equal.
      change (map (post (set_out s _))) with (map (post s)). rewrite <- concat_app, <- map_app. do 2 f_equal. unfold l1. rewrite Z2Nat.inj_add, <- drop_drop by lia. apply take_drop.
    + assert (total = Z.of_nat (length buf)) as -> by lia. rewrite Nat2Z.id, drop_all. cbn [map concat]. rewrite app_nil_r. by destruct s.
Qed.

(** A write in the foreground to a terminal whose output is neither stopped nor
    discarded and whose driver takes every character returns its length; what is
    shown in addition are its bytes in order, each newline as carriage return and
    newline where output processing asks for it, in chunks of 128 bytes. *)
Theorem n_tty_write_correct put_char s buf pgid ts : (forall o c, put_char o c = 0) -> n_tty_background s pgid = false -> lflag s FLUSHO = false -> stopped s = false ->
  buf <> [] ->
  n_tty_write put_char s buf pgid (fun _ => true) (replicate (S (length buf / 128)) calm ++ ts) =
    (set_out s (out s ++ concat (map (post s) buf)), Some (Z.of_nat (length buf))).
Proof.
  intros Hp Hbg Hf Hst Hne. unfold n_tty_write. rewrite Hbg. cbn [andb]. rewrite write_loop_spec; try done; [| lia |].
  - change (Z.to_nat 0) with 0%nat. rewrite drop_0. destruct buf; [done |]. cbn [length]. destruct (Z.ltb_spec 0 (Z.of_nat (S (length buf)))); [done | lia].
  - pose proof (Nat.div_mod_eq (length buf) 128). pose proof (Nat.mod_upper_bound (length buf) 128). lia.
Qed.

(** ** Examples and findings *)

Definition accepts (_ : list Z) (_ : Z) : Z := 0.
Definition quiet_turn : turn := mk_turn id false 0.

Lemma ok_new : ok tty_new.
Proof. constructor; vm_compute; split_and?; congruence. Qed.

Lemma receive_buf_witness : exists s', n_tty_receive_buf accepts tty_new [104; 105; 127; 10] = Ret s' /\ view s' = mk_line [104; 10] [] false false false tty_termios_defaults.
Proof.
  destruct (n_tty_receive_buf_refines accepts tty_new [104; 105; 127; 10] ok_new ltac:(vm_compute; reflexivity)) as (s' & E & _ & Hv & _). exists s'. split; [exact E |]. rewrite Hv. vm_compute. reflexivity.
Defined.

Lemma read_section_witness : exists s' r' o, read_section tty_new 10 0 1 true 0 (mk_reader 0 0 false) = Ret (s', r', o) /\ taken o = [].
Proof.
  destruct (read_section_correct tty_new 10 0 1 true 0 (mk_reader 0 0 false) ok_new ltac:(lia)) as (s' & r' & o & E & _ & H & _). exists s', r', o. split; [exact E |]. change (ready (view tty_new)) with (@nil Z) in H. symmetry in H. apply app_eq_nil in H. apply H.
Defined.

Lemma typed_line_witness : exists s1 s2, n_tty_receive_buf accepts tty_new ([108; 115] ++ [10]) = Ret s1 /\ n_tty_read s1 100 1 true [quiet_turn] = Ret (s2, Some (3, [108; 115; 10])).
Proof.
  destruct (typed_line_read_back accepts tty_new [108; 115] 100 1 quiet_turn [] ok_new eq_refl eq_refl eq_refl ltac:(vm_compute; reflexivity) eq_refl) as (s1 & s2 & E1 & E2 & _).
  - repeat constructor; vm_compute; congruence.
  - vm_compute. congruence.
  - vm_compute. reflexivity.
  - reflexivity.
  - exists s1, s2. split; [exact E1 | exact E2].
Defined.

Lemma n_tty_write_witness : out (n_tty_write accepts tty_new [104; 10] 1 (fun _ => true) [calm]).1 = [104; 13; 10].
Proof.
  pose proof (n_tty_write_correct accepts tty_new [104; 10] 1 [] ltac:(reflexivity) eq_refl eq_refl eq_refl ltac:(congruence)) as H. change (replicate (S (length [104; 10] / 128)) calm ++ []) with [calm] in H.
  rewrite H. vm_compute. reflexivity.
Defined.

(** A task types, and then reads as often as the list of sizes says. *)
Fixpoint reads (s : tty) (sizes : list Z) : res (list (option (Z * list Z))) :=
  match sizes with
  | [] => Ret []
  | n :: ns => let! x := n_tty_read s n 1 true [quiet_turn; quiet_turn] in let (s, r) := x in let! l := reads s ns in Ret (r :: l)
  end.

Definition type_and_read (input sizes : list Z) : res (list (option (Z * list Z))) := let! s := n_tty_receive_buf accepts tty_new input in reads s sizes.

(** Finding: end-of-file in the middle of a line publishes it, but the reader only
    takes bytes up to a newline and goes on sleeping. *)
Theorem eof_in_line_withheld : type_and_read [97; 98; 4] [10] = Ret [None].
Proof. vm_compute. reflexivity. Qed.

(** Finding: an end-of-file that was typed before a line is seen after it. *)
Theorem eof_out_of_order : type_and_read [4; 97; 10] [10; 10] = Ret [Some (2, [97; 10]); Some (0, [])].
Proof. vm_compute. reflexivity. Qed.

(** Finding: with ICRNL and INLCR both set a carriage return is mapped to a newline
    and back. *)
Theorem cr_mapped_twice t : has (c_iflag t) IGNCR = false -> has (c_iflag t) ICRNL = true -> has (c_iflag t) INLCR = true -> translate t 13 = Some 13.
Proof. intros H1 H2 H3. unfold translate. by rewrite H1, H2, H3. Qed.
