(* ===== verification/Sched.v ===== *)
(** * The scheduler: kern/sched.c, kern/cpu.c and the task life cycle of kern/task.c

    Every CPU runs on the kernel stack of one task, a list of frames: a frame is a
    point of a C function, and [run] does what the code does from there to the next
    point at which another CPU can be seen to act.  A section under a run-queue
    lock, under [sleep_queue_lock] or under the lock of another task is one step.
    The lock of a task that is held across a switch, and the spin locks of callers,
    are part of the state, and a CPU that finds one taken does not move.
    [call] is what the code of a task, or of an interrupt handler, may ask for.

    Interrupts nest on the stack; whether they are on follows from the frames,
    since every routine here restores the state it found.  The interrupt flag is
    not part of the state, and the two assertions about it ([task_sched] and
    [task_sleep]: it is off) are not modelled. *)

From S2P Require Import Prelude.

Definition MAX_CPUS : Z := 8.
Definition TIME_SLICE_MAX : Z := 5.
Definition WNOHANG : Z := 1.
Definition WNOWAIT : Z := 16777216.
Definition ECHILD : Z := 10.

(** The number of task structures memory has room for. *)
Definition NR_TASKS : Z := 2 ^ 31.

(** The spin lock [wait_lock], among the locks given by number, and the channel of the tick. *)
Definition WAIT_LOCK : Z := 0.
Definition JIFFIES : Z := -1.

Inductive task_state : Set := TASK_STATE_NEW | TASK_STATE_RUNNING | TASK_STATE_SLEEPING | TASK_STATE_ZOMBIE.

#[global] Instance task_state_eq : EqDecision task_state.
Proof. solve_decision. Defined.

Record tms : Set := mk_tms { tms_utime : Z; tms_stime : Z; tms_cutime : Z; tms_cstime : Z }.

(** Points of the code. *)
Inductive frame : Type :=
| FRun (irqs : bool) (held : list Z) (n : Z)  (* code of a task (interrupts on) or of a handler, the spin locks it holds, its [preempt_disable]s *)
| FTick                                       (* handle_interrupt, behind handle_tick *)
| FYield | FYieldEnd                          (* task_yield, before its lock is taken; behind task_sched *)
| FSleep (ch lk : Z) | FSleepPub (lk : Z) | FSleepUnlock (lk : Z) | FSleepEnd (lk : Z) | FSleepLock (lk : Z)
| FSched | FPick | FSwitch (next : Z) | FResume
| FNew | FDead                                (* the entry of a new task; behind a task_sched that does not return *)
| FWakeAll (ch : Z) | FWakeSpec (p : Z)
| FJoin (p : Z) | FSelect (p start off best best_load : Z) | FEnqueue (p target : Z)
| FLink (p : Z) | FStart (p : Z)              (* task_fork, before its child is linked; before it is made runnable *)
| FExit (status : Z) | FExitLock (status : Z)
| FWait (pid options : Z) | FAgain (pid options : Z) | FScan0 (pid options : Z)
| FScan (pid options : Z) (todo : list Z) (found : bool)
| FDestroy (p : Z).

#[global] Instance frame_eq : EqDecision frame.
Proof. solve_decision. Defined.

Record task : Type := mk_task {
  alive : bool;
  parent : option Z;
  children : list Z;
  locked : bool;
  chan : Z;
  kstack : list frame;
  state : task_state;
  exit_status : Z;
  tgid : Z;
  mm : option Z;
  rsrc_usage : option tms;
  kernel_tp : Z;
  oncpu : Z;
  tcpu : Z;
  ktime : Z;
  time_slice : Z;
  is_init_task : bool;
  result : Z * Z }.

Definition set_alive (v : bool) (x : task) : task := mk_task v (parent x) (children x) (locked x) (chan x) (kstack x) (state x) (exit_status x) (tgid x) (mm x) (rsrc_usage x) (kernel_tp x) (oncpu x) (tcpu x) (ktime x) (time_slice x) (is_init_task x) (result x).
Definition set_parent (v : option Z) (x : task) : task := mk_task (alive x) v (children x) (locked x) (chan x) (kstack x) (state x) (exit_status x) (tgid x) (mm x) (rsrc_usage x) (kernel_tp x) (oncpu x) (tcpu x) (ktime x) (time_slice x) (is_init_task x) (result x).
Definition set_children (v : list Z) (x : task) : task := mk_task (alive x) (parent x) v (locked x) (chan x) (kstack x) (state x) (exit_status x) (tgid x) (mm x) (rsrc_usage x) (kernel_tp x) (oncpu x) (tcpu x) (ktime x) (time_slice x) (is_init_task x) (result x).
Definition set_locked (v : bool) (x : task) : task := mk_task (alive x) (parent x) (children x) v (chan x) (kstack x) (state x) (exit_status x) (tgid x) (mm x) (rsrc_usage x) (kernel_tp x) (oncpu x) (tcpu x) (ktime x) (time_slice x) (is_init_task x) (result x).
Definition set_chan (v : Z) (x : task) : task := mk_task (alive x) (parent x) (children x) (locked x) v (kstack x) (state x) (exit_status x) (tgid x) (mm x) (rsrc_usage x) (kernel_tp x) (oncpu x) (tcpu x) (ktime x) (time_slice x) (is_init_task x) (result x).
Definition set_kstack (v : list frame) (x : task) : task := mk_task (alive x) (parent x) (children x) (locked x) (chan x) v (state x) (exit_status x) (tgid x) (mm x) (rsrc_usage x) (kernel_tp x) (oncpu x) (tcpu x) (ktime x) (time_slice x) (is_init_task x) (result x).
Definition set_state (v : task_state) (x : task) : task := mk_task (alive x) (parent x) (children x) (locked x) (chan x) (kstack x) v (exit_status x) (tgid x) (mm x) (rsrc_usage x) (kernel_tp x) (oncpu x) (tcpu x) (ktime x) (time_slice x) (is_init_task x) (result x).
Definition set_exit_status (v : Z) (x : task) : task := mk_task (alive x) (parent x) (children x) (locked x) (chan x) (kstack x) (state x) v (tgid x) (mm x) (rsrc_usage x) (kernel_tp x) (oncpu x) (tcpu x) (ktime x) (time_slice x) (is_init_task x) (result x).
Definition set_rsrc_usage (v : option tms) (x : task) : task := mk_task (alive x) (parent x) (children x) (locked x) (chan x) (kstack x) (state x) (exit_status x) (tgid x) (mm x) v (kernel_tp x) (oncpu x) (tcpu x) (ktime x) (time_slice x) (is_init_task x) (result x).
Definition set_kernel_tp (v : Z) (x : task) : task := mk_task (alive x) (parent x) (children x) (locked x) (chan x) (kstack x) (state x) (exit_status x) (tgid x) (mm x) (rsrc_usage x) v (oncpu x) (tcpu x) (ktime x) (time_slice x) (is_init_task x) (result x).
Definition set_oncpu (v : Z) (x : task) : task := mk_task (alive x) (parent x) (children x) (locked x) (chan x) (kstack x) (state x) (exit_status x) (tgid x) (mm x) (rsrc_usage x) (kernel_tp x) v (tcpu x) (ktime x) (time_slice x) (is_init_task x) (result x).
Definition set_tcpu (v : Z) (x : task) : task := mk_task (alive x) (parent x) (children x) (locked x) (chan x) (kstack x) (state x) (exit_status x) (tgid x) (mm x) (rsrc_usage x) (kernel_tp x) (oncpu x) v (ktime x) (time_slice x) (is_init_task x) (result x).
Definition set_ktime (v : Z) (x : task) : task := mk_task (alive x) (parent x) (children x) (locked x) (chan x) (kstack x) (state x) (exit_status x) (tgid x) (mm x) (rsrc_usage x) (kernel_tp x) (oncpu x) (tcpu x) v (time_slice x) (is_init_task x) (result x).
Definition set_time_slice (v : Z) (x : task) : task := mk_task (alive x) (parent x) (children x) (locked x) (chan x) (kstack x) (state x) (exit_status x) (tgid x) (mm x) (rsrc_usage x) (kernel_tp x) (oncpu x) (tcpu x) (ktime x) v (is_init_task x) (result x).
Definition set_result (v : Z * Z) (x : task) : task := mk_task (alive x) (parent x) (children x) (locked x) (chan x) (kstack x) (state x) (exit_status x) (tgid x) (mm x) (rsrc_usage x) (kernel_tp x) (oncpu x) (tcpu x) (ktime x) (time_slice x) (is_init_task x) v.

Record cpu : Type := mk_cpu {
  self : Z;
  handoff : option Z;
  current : option Z;
  idle : option Z;
  preempt_count : Z;
  online : bool;
  run_queue : list Z;
  nr_running : Z;
  ipi : bool;
  pgd : option Z }.

Definition set_self (v : Z) (x : cpu) : cpu := mk_cpu v (handoff x) (current x) (idle x) (preempt_count x) (online x) (run_queue x) (nr_running x) (ipi x) (pgd x).
Definition set_handoff (v : option Z) (x : cpu) : cpu := mk_cpu (self x) v (current x) (idle x) (preempt_count x) (online x) (run_queue x) (nr_running x) (ipi x) (pgd x).
Definition set_current (v : option Z) (x : cpu) : cpu := mk_cpu (self x) (handoff x) v (idle x) (preempt_count x) (online x) (run_queue x) (nr_running x) (ipi x) (pgd x).
Definition set_idle (v : option Z) (x : cpu) : cpu := mk_cpu (self x) (handoff x) (current x) v (preempt_count x) (online x) (run_queue x) (nr_running x) (ipi x) (pgd x).
Definition set_preempt_count (v : Z) (x : cpu) : cpu := mk_cpu (self x) (handoff x) (current x) (idle x) v (online x) (run_queue x) (nr_running x) (ipi x) (pgd x).
Definition set_online (v : bool) (x : cpu) : cpu := mk_cpu (self x) (handoff x) (current x) (idle x) (preempt_count x) v (run_queue x) (nr_running x) (ipi x) (pgd x).
Definition set_run_queue (v : list Z) (x : cpu) : cpu := mk_cpu (self x) (handoff x) (current x) (idle x) (preempt_count x) (online x) v (nr_running x) (ipi x) (pgd x).
Definition set_nr_running (v : Z) (x : cpu) : cpu := mk_cpu (self x) (handoff x) (current x) (idle x) (preempt_count x) (online x) (run_queue x) v (ipi x) (pgd x).
Definition set_ipi (v : bool) (x : cpu) : cpu := mk_cpu (self x) (handoff x) (current x) (idle x) (preempt_count x) (online x) (run_queue x) (nr_running x) v (pgd x).
Definition set_pgd (v : option Z) (x : cpu) : cpu := mk_cpu (self x) (handoff x) (current x) (idle x) (preempt_count x) (online x) (run_queue x) (nr_running x) (ipi x) v.

Record sys : Type := mk_sys {
  task_at : Z -> task;
  cpu_at : Z -> cpu;
  sleep_queue : list Z;
  locks : Z -> bool;
  init_reaper : option Z;
  jiffies : Z;
  next_cpu_hint : Z }.

Definition set_task_at (v : Z -> task) (x : sys) : sys := mk_sys v (cpu_at x) (sleep_queue x) (locks x) (init_reaper x) (jiffies x) (next_cpu_hint x).
Definition set_cpu_at (v : Z -> cpu) (x : sys) : sys := mk_sys (task_at x) v (sleep_queue x) (locks x) (init_reaper x) (jiffies x) (next_cpu_hint x).
Definition set_sleep_queue (v : list Z) (x : sys) : sys := mk_sys (task_at x) (cpu_at x) v (locks x) (init_reaper x) (jiffies x) (next_cpu_hint x).
Definition set_locks (v : Z -> bool) (x : sys) : sys := mk_sys (task_at x) (cpu_at x) (sleep_queue x) v (init_reaper x) (jiffies x) (next_cpu_hint x).
Definition set_init_reaper (v : option Z) (x : sys) : sys := mk_sys (task_at x) (cpu_at x) (sleep_queue x) (locks x) v (jiffies x) (next_cpu_hint x).
Definition set_jiffies (v : Z) (x : sys) : sys := mk_sys (task_at x) (cpu_at x) (sleep_queue x) (locks x) (init_reaper x) v (next_cpu_hint x).
Definition set_next_cpu_hint (v : Z) (x : sys) : sys := mk_sys (task_at x) (cpu_at x) (sleep_queue x) (locks x) (init_reaper x) (jiffies x) v.

Definition upd (t : Z) (f : task -> task) (s : sys) : sys := set_task_at (<[t := f (task_at s t)]> (task_at s)) s.
Definition updc (c : Z) (f : cpu -> cpu) (s : sys) : sys := set_cpu_at (<[c := f (cpu_at s c)]> (cpu_at s)) s.
Definition setlock (lk : Z) (b : bool) (s : sys) : sys := set_locks (<[lk := b]> (locks s)) s.

(** The task on CPU [c] goes on at [k]. *)
Definition goto (t : Z) (k : list frame) (s : sys) : sys := upd t (set_kstack k) s.

(** [list_empty] of the queue node of a task: it is on no queue. *)
Definition queued (s : sys) (t : Z) : bool :=
  bool_decide (t ∈ sleep_queue s) || existsb (fun c => bool_decide (t ∈ run_queue (cpu_at s c))) (seqZ 0 MAX_CPUS).

(** A pointer to a task that is followed. *)
Definition live (s : sys) (t : Z) (m : res sys) : res sys := if alive (task_at s t) then m else Halt Fault.

(** ** Choosing a CPU and joining its queue *)

Definition cpu_load (s : sys) (i : Z) : Z :=
  let cpu := cpu_at s i in
  if bool_decide (current cpu <> None /\ current cpu <> idle cpu) then u32 (nr_running cpu + 1) else nr_running cpu.

(** One turn of the loop of [task_select_cpu]: the best CPU and its load, and whether the loop goes on. *)
Definition select_turn (s : sys) (start off best best_load : Z) : Z * Z * bool :=
  let i := u32 (start + off) mod MAX_CPUS in
  if negb (online (cpu_at s i)) then (best, best_load, true)
  else
    let load := cpu_load s i in
    if load <? best_load then (i, load, negb (load =? 0)) else (best, best_load, true).

Fixpoint select_loop (s : sys) (start off best best_load : Z) (turns : nat) : Z :=
  match turns with
  | O => best
  | S turns' =>
      let '(best, best_load, go) := select_turn s start off best best_load in
      if go then select_loop s start (off + 1) best best_load turns' else best
  end.

(** The whole of [task_select_cpu], when no other CPU acts meanwhile. *)
Definition task_select_cpu (s : sys) : sys * Z :=
  let start := next_cpu_hint s in
  (set_next_cpu_hint (u32 (start + 1)) s, select_loop s start 0 (-1) (2 ^ 32 - 1) (Z.to_nat MAX_CPUS)).

(** The interrupt is ignored by a CPU that is not online yet. *)
Definition send_ipi (c : Z) (s : sys) : sys :=
  if MAX_CPUS <=? c then s else if negb (online (cpu_at s c)) then s else updc c (set_ipi true) s.

(** The second half of [task_join]. *)
Definition enqueue (s : sys) (me p target : Z) : res sys :=
  if (target <? 0) || (MAX_CPUS <=? target) then Halt Panic
  else live s p (
    assert! negb (queued s p) in
    assert! bool_decide (state (task_at s p) = TASK_STATE_RUNNING) in
    let s := upd p (set_tcpu target) s in
    let s := updc target (fun cpu => set_nr_running (u32 (nr_running cpu + 1)) (set_run_queue (run_queue cpu ++ [p]) cpu)) s in
    Ret (if target =? me then s else send_ipi target s)).

(** [task_join] of the task that is running: it stays on its CPU. *)
Definition task_join_self (s : sys) (me p : Z) : res sys :=
  assert! tcpu (task_at s p) =? me in enqueue s me p (tcpu (task_at s p)).

Definition task_pick_next (s : sys) (c : Z) : res (sys * option Z) :=
  match run_queue (cpu_at s c) with
  | [] => Ret (s, None)
  | p :: q =>
      if negb (alive (task_at s p)) then Halt Fault
      else
        assert! tcpu (task_at s p) =? c in
        assert! 0 <? nr_running (cpu_at s c) in
        Ret (updc c (fun cpu => set_nr_running (nr_running cpu - 1) (set_run_queue q cpu)) s, Some p)
  end.

(** ** Switching *)

Definition task_add_system_time (time : Z) (x : task) : task :=
  match rsrc_usage x with
  | None => x
  | Some u => set_rsrc_usage (Some (mk_tms (tms_utime u) (u64 (tms_stime u + time)) (tms_cutime u) (tms_cstime u))) x
  end.

Definition task_add_child_system_time (time : Z) (x : task) : task :=
  match rsrc_usage x with
  | None => x
  | Some u => set_rsrc_usage (Some (mk_tms (tms_utime u) (tms_stime u) (tms_cutime u) (u64 (tms_cstime u + time)))) x
  end.

Definition task_add_child_user_time (time : Z) (x : task) : task :=
  match rsrc_usage x with
  | None => x
  | Some u => set_rsrc_usage (Some (mk_tms (tms_utime u) (tms_stime u) (u64 (tms_cutime u + time)) (tms_cstime u))) x
  end.

Definition task_get_system_time (x : task) : Z := match rsrc_usage x with None => 0 | Some u => tms_stime u end.
Definition task_get_user_time (x : task) : Z := match rsrc_usage x with None => 0 | Some u => tms_utime u end.
Definition task_get_child_system_time (x : task) : Z := match rsrc_usage x with None => 0 | Some u => tms_cstime u end.
Definition task_get_child_user_time (x : task) : Z := match rsrc_usage x with None => 0 | Some u => tms_cutime u end.

(** [task_sched] up to the choice of the next task.  Its first assertion, that interrupts are off, is not here: no
    interrupt comes at [FSched] ([irqs_on] is false of it), since [task_yield] and [task_sleep] run with interrupts
    off. *)
Definition sched_leave (s : sys) (c t : Z) (k : list frame) : res sys :=
  let x := task_at s t in
  assert! locked x in
  assert! preempt_count (cpu_at s c) =? 0 in
  assert! oncpu x =? c in
  let s := updc c (set_current None) s in
  match state x with
  | TASK_STATE_RUNNING =>
      let! s := (if bool_decide (idle (cpu_at s c) = Some t) then Ret s else task_join_self s c t) in
      Ret (goto t (FPick :: k) s)
  | TASK_STATE_ZOMBIE | TASK_STATE_SLEEPING => Ret (goto t (FPick :: k) s)
  | TASK_STATE_NEW => Halt Panic
  end.

(** The choice; a task that is its own successor returns at once. *)
Definition sched_pick (s : sys) (c t : Z) (k : list frame) : res sys :=
  let! r := task_pick_next s c in
  let (s, next) := r in
  match (match next with Some n => Some n | None => idle (cpu_at s c) end) with
  | None => Halt Panic
  | Some n =>
      if n =? t then Ret (goto t k (updc c (set_current (Some t)) (upd t (set_time_slice TIME_SLICE_MAX) s)))
      else
        let s := upd t (fun x => task_add_system_time (u64 (jiffies s - ktime x)) x) s in
        Ret (goto t (FSwitch n :: k) (updc c (set_handoff (Some t)) s))
  end.

(** The switch, once the lock of the next task is taken. *)
Definition sched_switch (s : sys) (c t n : Z) (k : list frame) : option (res sys) :=
  if negb (alive (task_at s n)) then Some (Halt Fault)
  else if locked (task_at s n) then None
  else Some (
    assert! oncpu (task_at s n) =? -1 in
    let s := goto t k s in
    let s := upd n (fun x => set_kstack (FResume :: kstack x) (set_ktime (jiffies s) (set_time_slice TIME_SLICE_MAX
                                (set_kernel_tp c (set_oncpu c (set_locked true x)))))) s in
    Ret (updc c (fun cpu => set_self n (set_pgd (mm (task_at s n)) (set_current (Some n) cpu))) s)).

Definition task_sched_resume (s : sys) (c t : Z) (k : list frame) : res sys :=
  match handoff (cpu_at s c) with
  | None => Ret (goto t k s)
  | Some p =>
      live s p (
        let zombie := bool_decide (state (task_at s p) = TASK_STATE_ZOMBIE) in
        let par := if zombie then parent (task_at s p) else None in
        let s := upd p (fun x => set_locked false (set_oncpu (-1) x)) s in
        let s := updc c (set_handoff None) s in
        Ret (goto t (match par with Some q => FWakeSpec q :: k | None => k end) s))
  end.

(** [task_yield], up to [task_sched]. *)
Definition task_yield (s : sys) (c t : Z) (k : list frame) : option (res sys) :=
  if negb (preempt_count (cpu_at s c) =? 0) then Some (Halt Panic)
  else if locked (task_at s t) then None
  else Some (Ret (goto t (FSched :: FYieldEnd :: k) (upd t (set_locked true) s))).

(** [task_sleep], up to the sleep queue; on it.  Its assertion that interrupts are off is not here: its caller holds
    the lock [lk], which was taken with [spin_lock_irqsave], so [irqs_on] is false. *)
Definition task_sleep (s : sys) (c t ch lk : Z) (k : list frame) : option (res sys) :=
  if negb (locks s lk && (preempt_count (cpu_at s c) =? 0)) then Some (Halt Panic)
  else if locked (task_at s t) then None
  else Some (Ret (goto t (FSleepPub lk :: k) (upd t (fun x => set_chan ch (set_state TASK_STATE_SLEEPING (set_locked true x))) s))).

Definition sleep_publish (s : sys) (t lk : Z) (k : list frame) : res sys :=
  if queued s t then Halt Fault else Ret (goto t (FSleepUnlock lk :: k) (set_sleep_queue (sleep_queue s ++ [t]) s)).

(** The timer interrupt, behind [handle_tick]. *)
Definition timer_interrupt (s : sys) (c t : Z) (k : list frame) : sys :=
  let ts := time_slice (task_at s t) - 1 in
  let s := upd t (set_time_slice ts) s in
  goto t (if (ts <=? 0) && (preempt_count (cpu_at s c) =? 0) then FYield :: k else k) s.

(** The entry of a new task, behind [task_sched_resume]. *)
Definition complete_task_switch (s : sys) (t : Z) (k : list frame) : sys := goto t k (upd t (set_locked false) s).

(** The first half of [task_join]. *)
Definition task_join (s : sys) (c t p : Z) (k : list frame) : res sys :=
  live s p (
    if oncpu (task_at s p) <? 0 then
      Ret (goto t (FSelect p (next_cpu_hint s) 0 (-1) (2 ^ 32 - 1) :: k) (set_next_cpu_hint (u32 (next_cpu_hint s + 1)) s))
    else assert! tcpu (task_at s p) =? c in Ret (goto t (FEnqueue p (tcpu (task_at s p)) :: k) s)).

(** The child of [task_fork] joins the family of its parent; a new task is made runnable, in [task_fork] as in [kthread_join]. *)
Definition fork_link (s : sys) (t p : Z) (k : list frame) : sys :=
  goto t (FStart p :: k) (upd t (fun x => set_children (p :: children x) x) (upd p (set_parent (Some t)) s)).

Definition kthread_join (s : sys) (t p : Z) (k : list frame) : option (res sys) :=
  if locked (task_at s p) then None else Some (Ret (goto t (FJoin p :: k) (upd p (set_state TASK_STATE_RUNNING) s))).

(** ** Waking *)

(** The walk of [task_wake_all]: the first sleeper on the channel whose lock is free, and whether another was passed over. *)
Fixpoint wake_scan (s : sys) (ch : Z) (l : list Z) (retry : bool) : res (option Z * bool) :=
  match l with
  | [] => Ret (None, retry)
  | p :: l' =>
      let x := task_at s p in
      if negb (alive x) then Halt Fault
      else if negb (bool_decide (state x = TASK_STATE_SLEEPING) && (chan x =? ch)) then wake_scan s ch l' retry
      else if locked x then wake_scan s ch l' true
      else Ret (Some p, retry)
  end.

(** Off the sleep queue and runnable. *)
Definition wake_one (p : Z) (s : sys) : sys :=
  set_sleep_queue (filter (fun q => q <> p) (sleep_queue s))
    (upd p (fun x => set_chan 0 (set_state TASK_STATE_RUNNING x)) s).

Definition task_wake_all (s : sys) (t ch : Z) (k : list frame) : res sys :=
  let! r := wake_scan s ch (sleep_queue s) false in
  match r with
  | (Some p, _) => Ret (goto t (FJoin p :: FWakeAll ch :: k) (wake_one p s))
  | (None, true) => Ret s
  | (None, false) => Ret (goto t k s)
  end.

Definition task_wake_spec (s : sys) (t p : Z) (k : list frame) : res sys :=
  if negb (bool_decide (p ∈ sleep_queue s)) then Ret (goto t k s)
  else live s p (
    if negb (bool_decide (state (task_at s p) = TASK_STATE_SLEEPING)) then Ret (goto t k s)
    else if locked (task_at s p) then Ret s
    else Ret (goto t (FJoin p :: k) (wake_one p s))).

(** ** Exit and wait *)

(** The part of [task_exit] under [wait_lock]; [list_splice] leaves the head of
    the list of the dying task stale, but nothing reads it again. *)
Definition exit_reparent (s : sys) (t status : Z) (k : list frame) : res sys :=
  match children (task_at s t) with
  | [] => Ret (goto t (FExitLock status :: k) s)
  | cs =>
      match init_reaper s with
      | None => Halt Panic
      | Some r =>
          let s := foldl (fun s ch => upd ch (set_parent (Some r)) s) s cs in
          let s := upd t (set_children []) s in
          let s := upd r (fun x => set_children (cs ++ children x) x) s in
          Ret (goto t (FWakeSpec r :: FExitLock status :: k) s)
      end
  end.

Definition exit_zombie (s : sys) (t status : Z) (k : list frame) : sys :=
  goto t (FSched :: FDead :: k) (upd t (fun x => set_exit_status status (set_state TASK_STATE_ZOMBIE (set_locked true x))) s).

Definition has (options bit : Z) : bool := negb (Z.land options bit =? 0).

Definition wait_return (s : sys) (t v status : Z) (k : list frame) : sys :=
  goto t k (upd t (set_result (v, status)) s).

(** [task_wait], up to the loop over the children. *)
Definition task_wait (s : sys) (t pid options : Z) (k : list frame) : sys :=
  match children (task_at s t) with
  | [] => wait_return s t (- ECHILD) 0 k
  | _ => goto t (FScan0 pid options :: k) (setlock WAIT_LOCK true s)
  end.

Definition reap_times (y x : task) : task :=
  task_add_child_user_time (u64 (task_get_user_time y + task_get_child_user_time y))
    (task_add_child_system_time (u64 (task_get_system_time y + task_get_child_system_time y)) x).

(** One turn of the loop over the children in [task_wait], and what follows it. *)
Definition wait_scan (s : sys) (t pid options : Z) (todo : list Z) (found : bool) (k : list frame) : option (res sys) :=
  match todo with
  | [] =>
      if (0 <? pid) && negb found then Some (Ret (wait_return (setlock WAIT_LOCK false s) t (- ECHILD) 0 k))
      else if has options WNOHANG then Some (Ret (wait_return (setlock WAIT_LOCK false s) t 0 0 k))
      else Some (Ret (goto t (FSleep t WAIT_LOCK :: FAgain pid options :: k) s))
  | ch :: todo' =>
      let y := task_at s ch in
      if negb (alive y) then Some (Halt Fault)
      else if locked y then None
      else
        let found := found || ((0 <? pid) && (tgid y =? pid)) in
        if negb (bool_decide (state y = TASK_STATE_ZOMBIE)) || negb (oncpu y =? -1) || ((0 <? pid) && negb (tgid y =? pid))
        then Some (Ret (goto t (FScan pid options todo' found :: k) s))
        else if has options WNOWAIT
        then Some (Ret (wait_return (setlock WAIT_LOCK false s) t (tgid y) (exit_status y) k))
        else
          let s := upd t (reap_times y) s in
          let s := upd t (fun x => set_children (filter (fun q => q <> ch) (children x)) x) s in
          Some (Ret (wait_return (setlock WAIT_LOCK false s) t (tgid y) (exit_status y) (FDestroy ch :: k)))
  end.

Definition task_destroy (s : sys) (p : Z) : res sys :=
  live s p (if is_init_task (task_at s p) then Halt Panic else Ret (upd p (set_alive false) s)).

(** ** One step of a CPU *)

(** The spin lock a sleeper gets back belongs to the code it returns to. *)
Definition give (lk : Z) (k : list frame) : list frame :=
  match k with
  | FRun i h n :: k' => FRun i (lk :: h) n :: k'
  | FAgain pid o :: k' => FScan0 pid o :: k'
  | _ => k
  end.

(** What CPU [c], on the stack of [t], does at the frame [f]; [None] while it spins, or in code of the task. *)
Definition exec (s : sys) (c t : Z) (f : frame) (k : list frame) : option (res sys) :=
  let x := task_at s t in
  match f with
  | FRun _ _ _ | FAgain _ _ => None
  | FDead => Some (Halt Panic)
  | FTick => Some (Ret (timer_interrupt s c t k))
  | FYield => task_yield s c t k
  | FYieldEnd => Some (Ret (goto t k (upd t (set_locked false) s)))
  | FSleep ch lk => task_sleep s c t ch lk k
  | FSleepPub lk => Some (sleep_publish s t lk k)
  | FSleepUnlock lk => Some (Ret (goto t (FSched :: FSleepEnd lk :: k) (setlock lk false s)))
  | FSleepEnd lk => Some (Ret (goto t (FSleepLock lk :: k) (upd t (fun x => set_locked false (set_chan 0 x)) s)))
  | FSleepLock lk => if locks s lk then None else Some (Ret (goto t (give lk k) (setlock lk true s)))
  | FSched => Some (sched_leave s c t k)
  | FPick => Some (sched_pick s c t k)
  | FSwitch n => sched_switch s c t n k
  | FResume => Some (task_sched_resume s c t k)
  | FNew => Some (Ret (complete_task_switch s t k))
  | FWakeAll ch => Some (task_wake_all s t ch k)
  | FWakeSpec p => Some (task_wake_spec s t p k)
  | FJoin p => Some (task_join s c t p k)
  | FSelect p start off best best_load =>
      let finish best := Some (live s p (Ret (goto t (FEnqueue p (if best <? 0 then tcpu (task_at s p) else best) :: k) s))) in
      if off <? MAX_CPUS then
        let '(best, best_load, go) := select_turn s start off best best_load in
        if go then Some (Ret (goto t (FSelect p start (off + 1) best best_load :: k) s)) else finish best
      else finish best
  | FEnqueue p target => Some (let! s := enqueue s c p target in Ret (goto t k s))
  | FLink p => if locks s WAIT_LOCK then None else Some (Ret (fork_link s t p k))
  | FStart p => kthread_join s t p k
  | FExit status => if locks s WAIT_LOCK then None else Some (exit_reparent s t status k)
  | FExitLock status =>
      if negb (preempt_count (cpu_at s c) =? 0) then Some (Halt Panic)
      else if locked x then None else Some (Ret (exit_zombie s t status k))
  | FWait pid options => if locks s WAIT_LOCK then None else Some (Ret (task_wait s t pid options k))
  | FScan0 pid options => Some (Ret (goto t (FScan pid options (children x) false :: k) s))
  | FScan pid options todo found => wait_scan s t pid options todo found k
  | FDestroy p => Some (let! s := task_destroy s p in Ret (goto t k s))
  end.

Definition run (s : sys) (c : Z) : option (res sys) :=
  let cpu := cpu_at s c in
  if negb ((0 <=? c) && (c <? MAX_CPUS) && online cpu) then None
  else match kstack (task_at s (self cpu)) with [] => None | f :: k => exec s c (self cpu) f k end.

(** ** What code may ask for *)

Inductive action : Type :=
| ALock (lk : Z) | AUnlock (lk : Z)                  (* spin_lock_irqsave, spin_unlock_irqrestore *)
| APreemptDisable | APreemptEnable
| AYield | ASleep (ch lk : Z) | AWakeAll (ch : Z) | AWakeSpec (p : Z)
| AFork (p : Z) (space : option Z) | AKthread (p : Z) (space : option Z)
| AExit (status : Z) | AWait (pid options : Z)
| AReturn                                            (* of an interrupt handler *)
| AInterrupt | AIpi | ATick.                         (* an interrupt arrives *)

(** Interrupts are on: in code that holds no lock taken with [spin_lock_irqsave], and in what it called. *)
Fixpoint irqs_on (k : list frame) : bool :=
  match k with
  | FRun i [] _ :: _ => i
  | (FWakeAll _ | FWakeSpec _ | FJoin _ | FSelect _ _ _ _ _ | FEnqueue _ _ | FLink _ | FStart _ | FDestroy _) :: k' => irqs_on k'
  | (FExit _ | FExitLock _ | FWait _ _) :: _ => true
  | _ => false
  end.

(** A fresh task structure, as [task_create] sets it up. *)
Definition task_create (c : Z) (space : option Z) (id j : Z) : task :=
  mk_task true None [] false 0 [FNew; FRun true [] 0] TASK_STATE_NEW 0 id space (Some (mk_tms 0 0 0 0)) 0 (-1) c j 0 false (0, 0).

(** The bootstrap task and the idle task of a CPU. *)
Definition init_task_setup (c : Z) (boot : bool) (j : Z) : task :=
  mk_task true None [] false 0 (if boot then [FRun true [] 0] else [FYield; FDead; FRun true [] 0])
    (if boot then TASK_STATE_RUNNING else TASK_STATE_ZOMBIE) 0 0 None None c c c j TIME_SLICE_MAX true (0, 0).

Definition task_create_idle (c : Z) : task :=
  mk_task true None [] false 0 [FNew; FRun true [] 0] TASK_STATE_RUNNING 0 0 None None c (-1) c 0 0 false (0, 0).

Definition fresh (s : sys) (p : Z) : bool := (0 <=? p) && (p <? NR_TASKS) && negb (alive (task_at s p)).

(** The CPU that boots the machine. *)
Definition BOOT_CPU : Z := 0.

Definition task_scheduler (s : sys) (c i d : Z) : sys :=
  let boot := c =? BOOT_CPU in
  let s := upd i (fun _ => init_task_setup c boot (jiffies s)) s in
  let s := upd d (fun _ => task_create_idle c) s in
  let s := updc c (fun cpu => set_self i (set_handoff None (set_current (Some i) (set_idle (Some d)
                                (set_preempt_count 0 (set_online true (set_pgd None cpu))))))) s in
  if boot then set_init_reaper (Some i) s else s.

Definition preempt_disable (c : Z) (s : sys) : sys := updc c (set_preempt_count (preempt_count (cpu_at s c) + 1)) s.

Definition preempt_enable (c : Z) (s : sys) : res sys :=
  assert! 0 <? preempt_count (cpu_at s c) in Ret (updc c (set_preempt_count (preempt_count (cpu_at s c) - 1)) s).

(** The timer interrupt, up to the wake-up of [timekeeper_tick]; tick handlers are not modelled. *)
Definition handle_tick (s : sys) (c t : Z) (k : list frame) : sys :=
  if c =? BOOT_CPU then goto t (FWakeAll JIFFIES :: k) (set_jiffies (u64 (jiffies s + 1)) s) else goto t k s.

Definition call (s : sys) (c : Z) (a : action) : option (res sys) :=
  let cpu := cpu_at s c in
  let t := self cpu in
  let k := kstack (task_at s t) in
  let idling := bool_decide (idle cpu = Some t) in
  (* code of a task, outside of interrupts, with nothing held that forbids to sleep *)
  let plain := bool_decide (k = [FRun true [] 0]) && (preempt_count cpu =? 0) && negb idling in
  let push f s := Some (Ret (goto t (f :: k) s)) in
  if negb ((0 <=? c) && (c <? MAX_CPUS) && online cpu) then None
  else
    match a, k with
    | ALock lk, FRun i h n :: k' =>
        if (lk =? WAIT_LOCK) || locks s lk then None else Some (Ret (goto t (FRun i (lk :: h) n :: k') (setlock lk true s)))
    | AUnlock lk, FRun i (lk' :: h) n :: k' => if lk =? lk' then Some (Ret (goto t (FRun i h n :: k') (setlock lk false s))) else None
    | APreemptDisable, FRun i h n :: k' => Some (Ret (goto t (FRun i h (n + 1) :: k') (preempt_disable c s)))
    | APreemptEnable, FRun i h n :: k' =>
        if 0 <? n then Some (let! s := preempt_enable c s in Ret (goto t (FRun i h (n - 1) :: k') s)) else None
    | AYield, FRun true [] _ :: _ => if preempt_count cpu =? 0 then push FYield s else None
    | ASleep ch lk, [FRun true [lk'] _] =>
        if (lk =? lk') && (preempt_count cpu =? 0) && negb idling then Some (Ret (goto t [FSleep ch lk; FRun true [] 0] s)) else None
    | AWakeAll ch, FRun _ _ _ :: _ => push (FWakeAll ch) s
    | AWakeSpec p, FRun _ _ _ :: _ => push (FWakeSpec p) s
    | AFork p space, _ => if plain && fresh s p then push (FLink p) (upd p (fun _ => task_create c space p (jiffies s)) s) else None
    | AKthread p space, _ => if plain && fresh s p then push (FStart p) (upd p (fun _ => task_create c space p (jiffies s)) s) else None
    | AExit status, _ => if plain && negb (bool_decide (init_reaper s = Some t)) then push (FExit status) s else None
    | AWait pid options, _ => if plain then push (FWait pid options) s else None
    | AReturn, FRun false [] 0 :: k' => Some (Ret (goto t k' s))
    | AInterrupt, _ => if irqs_on k then push (FRun false [] 0) s else None
    | AIpi, _ =>
        if irqs_on k && ipi cpu
        then let s := updc c (set_ipi false) s in
             if preempt_count cpu =? 0 then push FYield s else Some (Ret s)
        else None
    | ATick, _ => if irqs_on k then Some (Ret (handle_tick s c t (FTick :: k))) else None
    | _, _ => None
    end.

(** A CPU may start, with two fresh task structures, once the boot CPU runs. *)
Definition may_boot (s : sys) (c i d : Z) : bool :=
  ((c =? BOOT_CPU) || online (cpu_at s BOOT_CPU)) && (0 <=? c) && (c <? MAX_CPUS) && negb (online (cpu_at s c)) && fresh s i && fresh s d && negb (i =? d).

Inductive step (s : sys) : sys -> Prop :=
| step_run c s' : run s c = Some (Ret s') -> step s s'
| step_call c a s' : call s c a = Some (Ret s') -> step s s'
| step_boot c i d : may_boot s c i d = true -> step s (task_scheduler s c i d).

(** Before any CPU runs. *)
Definition initial : sys :=
  mk_sys (fun _ => mk_task false None [] false 0 [] TASK_STATE_NEW 0 0 None None 0 (-1) 0 0 0 false (0, 0))
    (fun _ => mk_cpu 0 None None None 0 false [] 0 false None) [] (fun _ => false) None 0 0.

(** A given order of steps. *)
Inductive event : Type := EvRun (c : Z) (n : nat) | EvCall (c : Z) (a : action) | EvBoot (c i d : Z).

Fixpoint run_n (s : sys) (c : Z) (n : nat) : option sys :=
  match n with O => Some s | S n' => match run s c with Some (Ret s') => run_n s' c n' | _ => None end end.

Definition play_one (s : sys) (e : event) : option sys :=
  match e with
  | EvRun c n => run_n s c n
  | EvCall c a => match call s c a with Some (Ret s') => Some s' | _ => None end
  | EvBoot c i d => if may_boot s c i d then Some (task_scheduler s c i d) else None
  end.

Fixpoint play (s : sys) (l : list event) : option sys :=
  match l with [] => Some s | e :: l' => match play_one s e with Some s' => play s' l' | None => None end end.
