(* ===== verification/SchedInv.v ===== *)
(** * The invariant of the scheduler, and the steps of one task

    What ties run queues, the sleep queue, stacks, locks and CPUs together, and
    that it survives the steps in which a CPU moves a task along, leaves it, or
    comes to the next. *)

From S2P Require Import Prelude Sched.

(** ** The invariant *)

Definition on (s : sys) (c : Z) : Prop := 0 <= c < MAX_CPUS /\ online (cpu_at s c) = true.

Definition plain_stack (k : list frame) : bool := bool_decide (k = [FRun true [] 0]).

(** The caller of [task_sleep]. *)
Definition asleep (lk : Z) (k : list frame) : bool :=
  match k with FAgain _ _ :: k' => plain_stack k' && (lk =? WAIT_LOCK) | _ => plain_stack k end.

(** Calls of [preempt_disable] under way. *)
Definition depth1 (f : frame) : Z := match f with FRun _ _ n => n | _ => 0 end.
Definition depth (k : list frame) : Z := foldr (fun f n => depth1 f + n) 0 k.

(** Code that runs with its own lock free. *)
Fixpoint code (k : list frame) : bool :=
  match k with
  | [FRun i _ n] => i && (0 <=? n)
  | FRun i _ n :: k' => negb i && (0 <=? n) && code k'
  | (FTick | FWakeAll _ | FWakeSpec _ | FJoin _ | FSelect _ _ _ _ _ | FEnqueue _ _) :: k' => code k'
  | FYield :: k' => code k' && (depth k' =? 0)
  | (FLink _ | FStart _ | FDestroy _ | FExit _ | FExitLock _ | FWait _ _ | FScan0 _ _ | FScan _ _ _ _) :: k' => plain_stack k'
  | (FSleep _ lk | FSleepLock lk) :: k' => asleep lk k'
  | _ => false
  end.

(** What the stack of a task looks like when it is not running. *)
Definition resumable (st : task_state) (k : list frame) : bool :=
  match st, k with
  | TASK_STATE_RUNNING, FYieldEnd :: k' => code k' && (depth k' =? 0)
  | (TASK_STATE_RUNNING | TASK_STATE_NEW), FNew :: k' => plain_stack k'
  | (TASK_STATE_RUNNING | TASK_STATE_SLEEPING), FSleepEnd lk :: k' => asleep lk k'
  | TASK_STATE_ZOMBIE, FDead :: k' => plain_stack k'
  | TASK_STATE_ZOMBIE, FYieldEnd :: FDead :: k' => plain_stack k'
  | _, _ => false
  end.

(** Just resumed, with its own lock held. *)
Fixpoint resuming (k : list frame) : bool :=
  match k with
  | (FWakeSpec _ | FJoin _ | FSelect _ _ _ _ _ | FEnqueue _ _) :: k' => resuming k'
  | _ => resumable TASK_STATE_RUNNING k
  end.

(** The stack of a task that a CPU runs, with its state and whether its lock is taken. *)
Definition on_stack (st : task_state) (lock : bool) (k : list frame) : bool :=
  match k with
  | (FSleepPub lk | FSleepUnlock lk) :: k' => bool_decide (st = TASK_STATE_SLEEPING) && lock && asleep lk k'
  | (FSched | FPick | FSwitch _) :: k' => lock && resumable st k' && negb (bool_decide (st = TASK_STATE_NEW))
  | FResume :: k' => bool_decide (st = TASK_STATE_RUNNING) && lock && resumable st k'
  | FYield :: FDead :: k' => bool_decide (st = TASK_STATE_ZOMBIE) && negb lock && plain_stack k'
  | _ => bool_decide (st = TASK_STATE_RUNNING) && (if lock then resuming k else code k)
  end.

(** Tasks that a routine is about to hand on, and the spin locks it holds. *)
Definition hands1 (f : frame) : list Z :=
  match f with
  | FSwitch p | FJoin p | FSelect p _ _ _ _ | FEnqueue p _ | FLink p | FStart p | FDestroy p => [p]
  | _ => []
  end.
Definition hands (k : list frame) : list Z := k ≫= hands1.

Definition held1 (f : frame) : list Z :=
  match f with
  | FRun _ h _ => h
  | FSleep _ lk | FSleepPub lk | FSleepUnlock lk => [lk]
  | FScan0 _ _ | FScan _ _ _ _ => [WAIT_LOCK]
  | _ => []
  end.
Definition held (k : list frame) : list Z := k ≫= held1.

Definition idle_of (s : sys) (t : Z) : Prop := exists c, idle (cpu_at s c) = Some t.

(** The CPU is about to leave the task, which is back on a queue already. *)
Definition leaving (s : sys) (t : Z) : Prop :=
  exists c, on s c /\ (handoff (cpu_at s c) = Some t \/ self (cpu_at s c) = t /\ head (kstack (task_at s t)) = Some FPick).

Definition off (s : sys) (t : Z) : Prop := alive (task_at s t) = true /\ oncpu (task_at s t) = -1.

Definition on_no_list (s : sys) (t : Z) : Prop := forall u, alive (task_at s u) = true -> t ∉ children (task_at s u).

(** What a frame on the stack of [u] relies on. *)
Definition frame_ok (s : sys) (u : Z) (f : frame) : Prop :=
  match f with
  | FSwitch p => off s p /\ state (task_at s p) = TASK_STATE_RUNNING /\ (idle_of s p -> self (cpu_at s (tcpu (task_at s p))) = u) /\
                 tcpu (task_at s p) = tcpu (task_at s u)
  | FJoin p => off s p /\ state (task_at s p) = TASK_STATE_RUNNING /\ ~ idle_of s p
  | FSelect p _ _ best _ => off s p /\ state (task_at s p) = TASK_STATE_RUNNING /\ ~ idle_of s p /\ best < MAX_CPUS
  | FEnqueue p target => off s p /\ state (task_at s p) = TASK_STATE_RUNNING /\ ~ idle_of s p /\ 0 <= target < MAX_CPUS
  | FLink p => off s p /\ state (task_at s p) = TASK_STATE_NEW /\ ~ idle_of s p /\ is_init_task (task_at s p) = false /\ on_no_list s p
  | FStart p => off s p /\ state (task_at s p) = TASK_STATE_NEW /\ ~ idle_of s p
  | FDestroy p => off s p /\ state (task_at s p) = TASK_STATE_ZOMBIE /\ is_init_task (task_at s p) = false /\ on_no_list s p
  | FScan _ _ todo _ => todo ⊆ children (task_at s u) /\ ~ idle_of s u
  | FExit _ => init_reaper s <> Some u /\ ~ idle_of s u
  | FExitLock _ => children (task_at s u) = [] /\ init_reaper s <> Some u /\ ~ idle_of s u
  | FSleep _ _ | FSleepPub _ | FSleepUnlock _ | FSleepEnd _ | FSleepLock _ | FWait _ _ | FAgain _ _ | FScan0 _ _ => ~ idle_of s u
  | _ => True
  end.

Record inv (s : sys) : Prop := {
  i_range t : alive (task_at s t) = true -> 0 <= t < NR_TASKS /\ 0 <= tcpu (task_at s t) < MAX_CPUS;
  (* what a CPU runs *)
  i_self c : on s c -> alive (task_at s (self (cpu_at s c))) = true /\ oncpu (task_at s (self (cpu_at s c))) = c /\
    tcpu (task_at s (self (cpu_at s c))) = c /\
    on_stack (state (task_at s (self (cpu_at s c)))) (locked (task_at s (self (cpu_at s c)))) (kstack (task_at s (self (cpu_at s c)))) = true;
  i_cpu c : on s c -> preempt_count (cpu_at s c) = depth (kstack (task_at s (self (cpu_at s c)))) /\
    pgd (cpu_at s c) = mm (task_at s (self (cpu_at s c))) /\
    current (cpu_at s c) = match head (kstack (task_at s (self (cpu_at s c)))) with
                           | Some FPick | Some (FSwitch _) => None | _ => Some (self (cpu_at s c)) end;
  i_handoff c : on s c ->
    match head (kstack (task_at s (self (cpu_at s c)))) with
    | Some (FSwitch _) => handoff (cpu_at s c) = Some (self (cpu_at s c))
    | Some FResume => exists p, handoff (cpu_at s c) = Some p /\ p <> self (cpu_at s c) /\ alive (task_at s p) = true /\
        oncpu (task_at s p) = c /\ tcpu (task_at s p) = c /\ locked (task_at s p) = true /\
        resumable (state (task_at s p)) (kstack (task_at s p)) = true
    | _ => handoff (cpu_at s c) = None
    end;
  i_idle c d : idle (cpu_at s c) = Some d -> on s c /\ alive (task_at s d) = true /\ state (task_at s d) = TASK_STATE_RUNNING /\ tcpu (task_at s d) = c;
  i_has_idle c : on s c -> idle (cpu_at s c) <> None;
  (* tasks by where they run *)
  i_oncpu t : alive (task_at s t) = true -> oncpu (task_at s t) <> -1 ->
    on s (oncpu (task_at s t)) /\ (self (cpu_at s (oncpu (task_at s t))) = t \/ handoff (cpu_at s (oncpu (task_at s t))) = Some t);
  i_off t : off s t -> locked (task_at s t) = false /\ resumable (state (task_at s t)) (kstack (task_at s t)) = true;
  (* queues *)
  i_rq c : 0 <= c < MAX_CPUS -> NoDup (run_queue (cpu_at s c)) /\ nr_running (cpu_at s c) = Z.of_nat (length (run_queue (cpu_at s c)));
  i_rq_task c t : 0 <= c < MAX_CPUS -> t ∈ run_queue (cpu_at s c) ->
    alive (task_at s t) = true /\ state (task_at s t) = TASK_STATE_RUNNING /\ tcpu (task_at s t) = c /\ ~ idle_of s t /\
    (forall u, alive (task_at s u) = true -> t ∉ hands (kstack (task_at s u))) /\ (oncpu (task_at s t) = -1 \/ leaving s t);
  i_sq : NoDup (sleep_queue s);
  i_sq_task t : t ∈ sleep_queue s -> alive (task_at s t) = true /\ state (task_at s t) = TASK_STATE_SLEEPING /\
    (oncpu (task_at s t) = -1 \/ locked (task_at s t) = true) /\ forall lk, head (kstack (task_at s t)) <> Some (FSleepPub lk);
  i_running t : alive (task_at s t) = true -> state (task_at s t) = TASK_STATE_RUNNING -> oncpu (task_at s t) = -1 \/ leaving s t ->
    idle_of s t \/ t ∈ run_queue (cpu_at s (tcpu (task_at s t))) \/ exists u, alive (task_at s u) = true /\ t ∈ hands (kstack (task_at s u));
  i_sleeping t : alive (task_at s t) = true -> state (task_at s t) = TASK_STATE_SLEEPING ->
    t ∈ sleep_queue s \/ exists lk, head (kstack (task_at s t)) = Some (FSleepPub lk);
  (* stacks *)
  i_frames u f : alive (task_at s u) = true -> f ∈ kstack (task_at s u) -> frame_ok s u f;
  i_hands u : alive (task_at s u) = true -> NoDup (hands (kstack (task_at s u)));
  i_hands_one u v p : alive (task_at s u) = true -> alive (task_at s v) = true ->
    p ∈ hands (kstack (task_at s u)) -> p ∈ hands (kstack (task_at s v)) -> u = v;
  i_held u : alive (task_at s u) = true -> NoDup (held (kstack (task_at s u)));
  i_held_one u v lk : alive (task_at s u) = true -> alive (task_at s v) = true ->
    lk ∈ held (kstack (task_at s u)) -> lk ∈ held (kstack (task_at s v)) -> u = v;
  i_held_lock u lk : alive (task_at s u) = true -> lk ∈ held (kstack (task_at s u)) -> locks s lk = true;
  (* families *)
  i_children t ch : alive (task_at s t) = true -> ch ∈ children (task_at s t) ->
    alive (task_at s ch) = true /\ parent (task_at s ch) = Some t /\ is_init_task (task_at s ch) = false;
  i_children_one t : alive (task_at s t) = true -> NoDup (children (task_at s t));
  i_zombie t : alive (task_at s t) = true -> state (task_at s t) = TASK_STATE_ZOMBIE -> children (task_at s t) = [] /\ init_reaper s <> Some t;
  i_reaper r : init_reaper s = Some r -> alive (task_at s r) = true;
  i_has_reaper c : on s c -> init_reaper s <> None;
}.

(** ** Steps that only move the running task along *)

Record core (x y : task) : Prop := {
  c_alive : alive y = alive x; c_parent : parent y = parent x; c_children : children y = children x;
  c_mm : mm y = mm x; c_oncpu : oncpu y = oncpu x; c_tcpu : tcpu y = tcpu x; c_init : is_init_task y = is_init_task x }.

Record cpu_near (x y : cpu) : Prop := { cn_self : self y = self x; cn_idle : idle y = idle x; cn_online : online y = online x }.

Record cpu_core (x y : cpu) : Prop := {
  cc_near : cpu_near x y; cc_handoff : handoff y = handoff x; cc_current : current y = current x;
  cc_rq : run_queue y = run_queue x; cc_nr : nr_running y = nr_running x; cc_pgd : pgd y = pgd x }.

(** The top of the stack is none of the points the invariant singles out. *)
Definition still (k : list frame) : Prop :=
  match k with (FPick | FSwitch _ | FResume | FSleepPub _) :: _ => False | _ => True end.

(** The CPU is not about to leave the task, or just come from another. *)
Definition unswitched (k : list frame) : Prop := match k with (FPick | FSwitch _ | FResume) :: _ => False | _ => True end.

Lemma still_unswitched k : still k -> unswitched k.
Proof. by destruct k as [| []]. Qed.

Lemma core_refl x : core x x.
Proof. by constructor. Qed.

Lemma cpu_near_refl x : cpu_near x x.
Proof. by constructor. Qed.

Lemma cpu_core_refl x : cpu_core x x.
Proof. by constructor. Qed.

Record alike (s s' : sys) : Prop := {
  a_task v : core (task_at s v) (task_at s' v);
  a_state v : off s v -> state (task_at s' v) = state (task_at s v);
  a_cpu d : cpu_near (cpu_at s d) (cpu_at s' d);
  a_reaper : init_reaper s' = init_reaper s }.

Section alike.
Context (s s' : sys) (A : alike s s').

Lemma al_alive v : alive (task_at s' v) = alive (task_at s v). Proof. apply A. Qed.
Lemma al_parent v : parent (task_at s' v) = parent (task_at s v). Proof. apply A. Qed.
Lemma al_children v : children (task_at s' v) = children (task_at s v). Proof. apply A. Qed.
Lemma al_mm v : mm (task_at s' v) = mm (task_at s v). Proof. apply A. Qed.
Lemma al_oncpu v : oncpu (task_at s' v) = oncpu (task_at s v). Proof. apply A. Qed.
Lemma al_tcpu v : tcpu (task_at s' v) = tcpu (task_at s v). Proof. apply A. Qed.
Lemma al_init v : is_init_task (task_at s' v) = is_init_task (task_at s v). Proof. apply A. Qed.
Lemma al_self d : self (cpu_at s' d) = self (cpu_at s d). Proof. apply A. Qed.
Lemma al_idle d : idle (cpu_at s' d) = idle (cpu_at s d). Proof. apply A. Qed.
Lemma al_online d : online (cpu_at s' d) = online (cpu_at s d). Proof. apply A. Qed.

Lemma al_on c : on s' c <-> on s c.
Proof. unfold on. by rewrite al_online. Qed.

Lemma al_idle_of t : idle_of s' t <-> idle_of s t.
Proof. unfold idle_of. by setoid_rewrite al_idle. Qed.

Lemma al_off t : off s' t <-> off s t.
Proof. unfold off. by rewrite al_alive, al_oncpu. Qed.

Lemma al_no_list t : on_no_list s' t <-> on_no_list s t.
Proof. unfold on_no_list. by setoid_rewrite al_alive; setoid_rewrite al_children. Qed.

Lemma al_off_state p st P : off s' p /\ state (task_at s' p) = st /\ P <-> off s p /\ state (task_at s p) = st /\ P.
Proof. rewrite al_off. split; intros (H & E & ?); (split_and!; [done | | done]); by rewrite (a_state _ _ A p H) in *. Qed.

Lemma al_frame u f : frame_ok s' u f <-> frame_ok s u f.
Proof.
  destruct f; simpl; rewrite ?al_off_state, ?al_idle_of, ?al_no_list, ?al_children, ?al_init, ?al_self, ?al_tcpu, ?(a_reaper _ _ A); tauto.
Qed.
End alike.

Ltac alike_in A :=
  rewrite ?(al_alive _ _ A), ?(al_parent _ _ A), ?(al_children _ _ A), ?(al_mm _ _ A), ?(al_self _ _ A), ?(al_oncpu _ _ A),
    ?(al_tcpu _ _ A), ?(al_init _ _ A), ?(al_idle _ _ A),
    ?(al_on _ _ A), ?(al_idle_of _ _ A), ?(al_off _ _ A), ?(a_reaper _ _ A).

(** ** The running task *)

Section running.
Context (s : sys) (c t : Z) (I : inv s) (Hon : on s c) (Hself : self (cpu_at s c) = t).

Lemma run_alive : alive (task_at s t) = true.
Proof. rewrite <- Hself. by apply I. Qed.

Lemma run_oncpu : oncpu (task_at s t) = c.
Proof. rewrite <- Hself. by apply I. Qed.

Lemma run_tcpu : tcpu (task_at s t) = c.
Proof. rewrite <- Hself. by apply I. Qed.

Lemma run_not_off : ~ off s t.
Proof. intros [_ E]. rewrite run_oncpu in E. destruct Hon. lia. Qed.

Lemma run_one d : on s d -> self (cpu_at s d) = t -> d = c.
Proof. intros Hd E. pose proof (i_self s I d Hd) as (_ & E1 & _). rewrite E in E1. by rewrite run_oncpu in E1. Qed.

Lemma run_not_hand u : alive (task_at s u) = true -> t ∉ hands (kstack (task_at s u)).
Proof.
  intros Hu Ht. apply list_elem_of_bind in Ht as (f & Ht & Hf). apply run_not_off. apply (i_frames s I) in Hf; [| done].
  destruct f; simpl in *; try (by apply not_elem_of_nil in Ht); apply list_elem_of_singleton in Ht as ->; tauto.
Qed.

Lemma run_handoff d : on s d -> handoff (cpu_at s d) = Some t -> d = c /\ exists n k, kstack (task_at s t) = FSwitch n :: k.
Proof.
  intros Hd E. pose proof (i_handoff s I d Hd) as H. destruct (kstack (task_at s (self (cpu_at s d)))) as [| [] k] eqn:Ek; simpl in H; try congruence.
  - rewrite E in H. injection H as H. assert (d = c) as -> by (by apply run_one). rewrite H. eauto.
  - destruct H as (p & H & N & _ & H2 & _). rewrite E in H. injection H as <-. rewrite run_oncpu in H2. congruence.
Qed.

Lemma run_stays : unswitched (kstack (task_at s t)) -> ~ leaving s t.
Proof.
  intros U (d & Hd & [E | [E Hh]]).
  - destruct (run_handoff d Hd E) as (_ & n & k & Hk). by rewrite Hk in U.
  - by destruct (kstack (task_at s t)) as [| []].
Qed.

Lemma run_not_queued d : unswitched (kstack (task_at s t)) -> 0 <= d < MAX_CPUS -> t ∉ run_queue (cpu_at s d).
Proof.
  intros U Hd Ht. destruct (i_rq_task s I d t Hd Ht) as (_ & _ & _ & _ & _ & [E | E]); [| by apply run_stays in U].
  apply run_not_off. split; [apply run_alive | done].
Qed.
End running.

Section local.
Context (s s' : sys) (c t : Z) (I : inv s) (Hon : on s c) (Hself : self (cpu_at s c) = t).
Context (Hother : forall u, u <> t -> task_at s' u = task_at s u) (Hcore : core (task_at s t) (task_at s' t)).
Context (Hcpu : forall d, cpu_core (cpu_at s d) (cpu_at s' d)).
Context (Hpre : forall d, d <> c -> preempt_count (cpu_at s' d) = preempt_count (cpu_at s d)).
Context (Hreaper : init_reaper s' = init_reaper s).

Lemma local_alike : alike s s'.
Proof.
  split; [| | intros d; apply Hcpu | done]; intros v; (destruct (decide (v = t)) as [-> | ]; [| rewrite Hother by done]).
  - done.
  - apply core_refl.
  - intros H. by apply (run_not_off s c t I Hon Hself) in H.
  - done.
Qed.

Context (Hstill : unswitched (kstack (task_at s t))) (Hstill' : unswitched (kstack (task_at s' t))).

Lemma local_leaving v : leaving s' v <-> leaving s v.
Proof.
  unfold leaving. split; intros (d & Hd & Hl); exists d.
  - rewrite (al_on _ _ local_alike) in Hd. split; [done |]. rewrite (cc_handoff _ _ (Hcpu _)), (al_self _ _ local_alike) in Hl.
    destruct Hl as [Hl | [Hl Hk]]; [by left | right]. split; [done |].
    destruct (decide (v = t)) as [-> | Hv]; [| by rewrite Hother in Hk]. destruct (kstack (task_at s' t)) as [| [] ?]; done.
  - rewrite (al_on _ _ local_alike). split; [done |]. rewrite (cc_handoff _ _ (Hcpu _)), (al_self _ _ local_alike).
    destruct Hl as [Hl | [Hl Hk]]; [by left | right]. split; [done |].
    destruct (decide (v = t)) as [-> | Hv]; [| by rewrite Hother]. destruct (kstack (task_at s t)) as [| [] ?]; done.
Qed.

Context (Hst : on_stack (state (task_at s' t)) (locked (task_at s' t)) (kstack (task_at s' t)) = true).
Context (Hidle : idle_of s t -> state (task_at s' t) = TASK_STATE_RUNNING).
Context (Hzombie : state (task_at s' t) = TASK_STATE_ZOMBIE -> children (task_at s t) = [] /\ init_reaper s <> Some t).
Context (Hsq : NoDup (sleep_queue s')) (Hsq1 : forall v, v <> t -> v ∈ sleep_queue s' <-> v ∈ sleep_queue s).
Context (Hsq2 : t ∈ sleep_queue s' -> state (task_at s' t) = TASK_STATE_SLEEPING /\ locked (task_at s' t) = true /\
                  forall lk, head (kstack (task_at s' t)) <> Some (FSleepPub lk)).
Context (Hsq3 : state (task_at s' t) = TASK_STATE_SLEEPING -> t ∈ sleep_queue s' \/ exists lk, head (kstack (task_at s' t)) = Some (FSleepPub lk)).
Context (Hdepth : preempt_count (cpu_at s' c) = depth (kstack (task_at s' t))).
Context (Hhands : hands (kstack (task_at s' t)) = hands (kstack (task_at s t))).
Context (Hframes : forall f, f ∈ kstack (task_at s' t) -> f ∈ kstack (task_at s t) \/ frame_ok s t f).
Context (Hheld : NoDup (held (kstack (task_at s' t)))).
Context (Hheld1 : forall lk, lk ∈ held (kstack (task_at s' t)) -> locks s' lk = true /\ (lk ∈ held (kstack (task_at s t)) \/ locks s lk = false)).
Context (Hheld2 : forall lk, locks s lk = true -> locks s' lk = true \/ lk ∈ held (kstack (task_at s t))).

Lemma local_hands v : hands (kstack (task_at s' v)) = hands (kstack (task_at s v)).
Proof. destruct (decide (v = t)) as [-> | ]; [done |]. by rewrite Hother. Qed.

Lemma local_held u v lk : alive (task_at s u) = true -> alive (task_at s v) = true ->
  lk ∈ held (kstack (task_at s' u)) -> lk ∈ held (kstack (task_at s' v)) -> u = v.
Proof.
  intros Hu Hv H1 H2.
  destruct (decide (u = t)) as [-> | Nu], (decide (v = t)) as [-> | Nv]; [done | | |]; rewrite ?Hother in * by done.
  - destruct (Hheld1 lk H1) as [_ [H | H]]; [by apply (i_held_one s I t v lk) |]. by rewrite (i_held_lock s I v lk) in H.
  - destruct (Hheld1 lk H2) as [_ [H | H]]; [by apply (i_held_one s I u t lk) |]. by rewrite (i_held_lock s I u lk) in H.
  - by apply (i_held_one s I u v lk).
Qed.

Lemma inv_local : inv s'.
Proof.
  pose proof local_alike as A. pose proof (run_alive s c t I Hon Hself) as Ht.
  pose proof (fun d => run_one s c t I Hon Hself d) as Hone. pose proof (run_not_off s c t I Hon Hself) as Hnoff.
  split; intros *; alike_in A; rewrite ?(cc_handoff _ _ (Hcpu _)), ?(cc_current _ _ (Hcpu _)), ?(cc_rq _ _ (Hcpu _)), ?(cc_nr _ _ (Hcpu _)), ?(cc_pgd _ _ (Hcpu _)).
  - apply I.
  - intros H. destruct (decide (self (cpu_at s c0) = t)) as [E | N]; [| rewrite Hother by done; by apply I].
    pose proof (i_self s I c0 H) as (? & ? & ? & _). rewrite E in *. done.
  - intros H. pose proof (i_cpu s I c0 H) as (H1 & H2 & H3). destruct (decide (c0 = c)) as [-> | N].
    + rewrite Hself in *. split_and!; [done.. |]. rewrite H3. destruct (kstack (task_at s t)) as [| [] ?], (kstack (task_at s' t)) as [| [] ?]; done.
    + rewrite Hpre by done. rewrite !Hother by (intros E; by apply Hone in E). done.
  - intros H. pose proof (i_handoff s I c0 H) as H1. destruct (decide (c0 = c)) as [-> | N].
    + rewrite Hself in *. destruct (kstack (task_at s t)) as [| [] ?], (kstack (task_at s' t)) as [| [] ?]; done.
    + assert (Ns : self (cpu_at s c0) <> t) by (intros E; by apply Hone in E). rewrite (Hother (self _)) by done.
      destruct (head (kstack (task_at s (self (cpu_at s c0))))) as [[] |]; try done. destruct H1 as (p & H1 & H2 & H3 & H4 & H5). exists p. alike_in A.
      rewrite Hother; [done |]. intros ->. by rewrite (run_oncpu s c t I Hon Hself) in H4.
  - intros H. destruct (i_idle s I _ _ H) as (? & ? & ? & ?). split_and!; try done.
    destruct (decide (d = t)) as [-> | N]; [apply Hidle; by eexists | by rewrite Hother].
  - apply I.
  - intros H1 H2. destruct (i_oncpu s I t0 H1 H2). done.
  - intros H. rewrite Hother; [by apply I |]. by intros ->.
  - apply I.
  - intros H1 H2. assert (t0 <> t) by (intros ->; by apply (run_not_queued s c t I Hon Hself) in H2).
    rewrite Hother by done. destruct (i_rq_task s I _ _ H1 H2) as (? & ? & ? & ? & H3 & H4). rewrite local_leaving. split_and!; [done.. | | done].
    intros u. alike_in A. rewrite local_hands. apply H3.
  - done.
  - intros H. destruct (decide (t0 = t)) as [-> | N]; [destruct (Hsq2 H) as (? & ? & ?); by auto |]. rewrite Hother by done. apply I. by apply Hsq1.
  - rewrite local_leaving. intros H1 H2 H3. assert (t0 <> t).
    { intros ->. destruct H3 as [H3 | H3]; [by apply Hnoff | by apply (run_stays s c t I Hon Hself) in H3]. }
    rewrite Hother in H2 by done. destruct (i_running s I t0 H1 H2 H3) as [? | [? | (u & Hu & H4)]]; [by left | by right; left |].
    right; right. exists u. alike_in A. by rewrite local_hands.
  - intros H1 H2. destruct (decide (t0 = t)) as [-> | N]; [by apply Hsq3 |]. rewrite Hother in * by done. rewrite Hsq1 by done. by apply I.
  - intros Hu Hf. rewrite (al_frame _ _ A). destruct (decide (u = t)) as [-> | N]; [| rewrite Hother in Hf by done; by apply I].
    destruct (Hframes f Hf); [by apply I | done].
  - intros Hu. rewrite local_hands. by apply I.
  - intros Hu Hv. rewrite !local_hands. by apply I.
  - intros Hu. destruct (decide (u = t)) as [-> | N]; [done |]. rewrite Hother by done. by apply I.
  - apply local_held.
  - intros Hu Hl. destruct (decide (u = t)) as [-> | N]; [by apply Hheld1 |]. rewrite Hother in Hl by done.
    destruct (Hheld2 lk) as [H | H]; [by apply (i_held_lock s I u) | done |]. by destruct N; apply (i_held_one s I u t lk).
  - apply I.
  - apply I.
  - intros H1 H2. destruct (decide (t0 = t)) as [-> | N]; [by apply Hzombie |]. rewrite Hother in H2 by done. by apply I.
  - apply I.
  - apply I.
Qed.
End local.

Lemma inv_unchanged s s' : task_at s' = task_at s -> cpu_at s' = cpu_at s -> sleep_queue s' = sleep_queue s -> locks s' = locks s ->
  init_reaper s' = init_reaper s -> inv s -> inv s'.
Proof. destruct s, s'; simpl. intros -> -> -> -> -> I. destruct I. constructor; assumption. Qed.

Ltac sys_simpl :=
  unfold goto, upd, updc, setlock in *;
  cbn [task_at cpu_at sleep_queue locks init_reaper jiffies next_cpu_hint set_task_at set_cpu_at set_sleep_queue set_locks set_init_reaper
       set_jiffies set_next_cpu_hint] in *.

(** The running task goes on at [k'], from [k]. *)
Record moves (s : sys) (c t : Z) (k k' : list frame) (lock : bool) : Prop := {
  m_inv : inv s; m_on : on s c; m_self : self (cpu_at s c) = t; m_stack : kstack (task_at s t) = k;
  m_still : still k; m_still' : still k'; m_depth : depth k' = depth k; m_hands : hands k' = hands k;
  m_ok : on_stack (state (task_at s t)) lock k' = true;
  m_lock : state (task_at s t) = TASK_STATE_SLEEPING -> lock = true;
  m_frames f : f ∈ k' -> f ∈ k \/ frame_ok s t f }.

Lemma moves_alive s c t k k' b : moves s c t k k' b -> alive (task_at s t) = true.
Proof. intros M. rewrite <- (m_self _ _ _ _ _ _ M). by apply (i_self s (m_inv _ _ _ _ _ _ M)), M. Qed.

Lemma inv_moves s s' c t k k' : moves s c t k k' (locked (task_at s' t)) -> (forall u, u <> t -> task_at s' u = task_at s u) ->
  core (task_at s t) (task_at s' t) -> state (task_at s' t) = state (task_at s t) -> kstack (task_at s' t) = k' -> cpu_at s' = cpu_at s ->
  sleep_queue s' = sleep_queue s -> init_reaper s' = init_reaper s -> NoDup (held k') ->
  (forall lk, lk ∈ held k' -> locks s' lk = true /\ (lk ∈ held k \/ locks s lk = false)) ->
  (forall lk, locks s lk = true -> locks s' lk = true \/ lk ∈ held k) -> inv s'.
Proof.
  intros M Hother Hg Hst Hk' Ecpu Esq Er Hn Hl1 Hl2. pose proof (moves_alive _ _ _ _ _ _ M) as Ha. destruct M as [I Hc Hs Hk S S' Hd Hh Hok Hlk Hf].
  eapply (inv_local s s' c t); rewrite ?Hk', ?Hk, ?Ecpu, ?Hst, ?Esq; try done.
  - by apply still_unswitched.
  - by apply still_unswitched.
  - intros [d E]. by apply (i_idle s I) in E as (_ & _ & E & _).
  - by apply I.
  - apply I.
  - intros H. apply (i_sq_task s I) in H as (? & H & _). split_and!; auto. intros lk. by destruct k' as [| []].
  - intros H. destruct (i_sleeping s I t Ha H) as [? | [lk E]]; [by left |]. rewrite Hk in E. by destruct k as [| []].
  - rewrite Hd, <- Hk, <- Hs. by apply I.
Qed.

Lemma inv_goto_upd s c t k k' g : moves s c t k k' (locked (g (task_at s t))) -> core (task_at s t) (g (task_at s t)) -> state (g (task_at s t)) = state (task_at s t) ->
  held k' = held k -> inv (goto t k' (upd t g s)).
Proof.
  intros M Hg Hst Hh. pose proof (m_inv _ _ _ _ _ _ M) as I. pose proof (moves_alive _ _ _ _ _ _ M) as Ha.
  assert (E : task_at (goto t k' (upd t g s)) t = set_kstack k' (g (task_at s t))) by (sys_simpl; by rewrite !fn_lookup_insert).
  eapply (inv_moves s _ c t); try rewrite E; try done; rewrite ?Hh, <- ?(m_stack _ _ _ _ _ _ M).
  - intros u Hu. sys_simpl. by rewrite !fn_lookup_insert_ne.
  - by destruct Hg.
  - by apply I.
  - intros lk Hl. split; [by apply (i_held_lock s I t) | by left].
  - by left.
Qed.

Lemma inv_goto s c t k k' : moves s c t k k' (locked (task_at s t)) -> held k' = held k -> inv (goto t k' s).
Proof.
  intros M Hh. pose proof (m_inv _ _ _ _ _ _ M) as I. pose proof (moves_alive _ _ _ _ _ _ M) as Ha.
  assert (E : task_at (goto t k' s) t = set_kstack k' (task_at s t)) by (sys_simpl; by rewrite !fn_lookup_insert).
  eapply (inv_moves s _ c t); try rewrite E; try done; rewrite ?Hh, <- ?(m_stack _ _ _ _ _ _ M).
  - intros u Hu. sys_simpl. by rewrite !fn_lookup_insert_ne.
  - by apply I.
  - intros lk Hl. split; [by apply (i_held_lock s I t) | by left].
  - by left.
Qed.

(** ... and takes, or gives up, a spin lock. *)
Lemma inv_take s c t k k' lk : moves s c t k k' (locked (task_at s t)) -> locks s lk = false -> held k' = lk :: held k ->
  inv (goto t k' (setlock lk true s)).
Proof.
  intros M Hlk Hh. pose proof (m_inv _ _ _ _ _ _ M) as I. pose proof (moves_alive _ _ _ _ _ _ M) as Ha.
  assert (E : task_at (goto t k' (setlock lk true s)) t = set_kstack k' (task_at s t)) by (sys_simpl; by rewrite !fn_lookup_insert).
  eapply (inv_moves s _ c t); try rewrite E; try done; rewrite ?Hh, <- ?(m_stack _ _ _ _ _ _ M).
  - intros u Hu. sys_simpl. by rewrite !fn_lookup_insert_ne.
  - constructor; [| by apply I]. intros H. apply (i_held_lock s I t) in H; [| done]. congruence.
  - intros l Hl. sys_simpl. destruct (decide (lk = l)) as [-> | N]; [rewrite fn_lookup_insert; split; [done | by right] |].
    rewrite fn_lookup_insert_ne by done. apply elem_of_cons in Hl as [-> | Hl]; [done |]. split; [by apply (i_held_lock s I t) | by left].
  - intros l Hl. left. sys_simpl. destruct (decide (lk = l)) as [-> | N]; [by rewrite fn_lookup_insert |]. by rewrite fn_lookup_insert_ne.
Qed.

Lemma inv_release_gen s s' c t k k' lk : moves s c t k k' (locked (task_at s' t)) -> (forall u, u <> t -> task_at s' u = task_at s u) ->
  core (task_at s t) (task_at s' t) -> state (task_at s' t) = state (task_at s t) -> kstack (task_at s' t) = k' -> cpu_at s' = cpu_at s ->
  sleep_queue s' = sleep_queue s -> init_reaper s' = init_reaper s -> held k = lk :: held k' -> locks s' = <[lk := false]> (locks s) -> inv s'.
Proof.
  intros M Hother Hg Hst Hk' Ecpu Esq Er Hh El. pose proof (m_inv _ _ _ _ _ _ M) as I. pose proof (moves_alive _ _ _ _ _ _ M) as Ha.
  pose proof (i_held s I t Ha) as Hn. rewrite (m_stack _ _ _ _ _ _ M), Hh in Hn. apply list.NoDup_cons in Hn as [Hn1 Hn].
  eapply (inv_moves s s' c t); try done; rewrite ?Hh, El.
  - intros l Hl. assert (l ∈ held k) by (rewrite Hh; by right). rewrite fn_lookup_insert_ne by (intros ->; done).
    split; [| by left; right]. apply (i_held_lock s I t); [done |]. by rewrite (m_stack _ _ _ _ _ _ M).
  - intros l Hl. destruct (decide (lk = l)) as [-> | N]; [right; by left |]. rewrite fn_lookup_insert_ne by done. by left.
Qed.

Lemma inv_release s c t k k' g lk : moves s c t k k' (locked (g (task_at s t))) -> core (task_at s t) (g (task_at s t)) -> state (g (task_at s t)) = state (task_at s t) ->
  held k = lk :: held k' -> inv (goto t k' (upd t g (setlock lk false s))).
Proof.
  intros M Hg Hst Hh.
  assert (E : task_at (goto t k' (upd t g (setlock lk false s))) t = set_kstack k' (g (task_at s t))) by (sys_simpl; by rewrite !fn_lookup_insert).
  eapply (inv_release_gen s _ c t); try rewrite E; try done; [| by destruct Hg]. intros u Hu. sys_simpl. by rewrite !fn_lookup_insert_ne.
Qed.

Lemma inv_release_only s c t k k' lk : moves s c t k k' (locked (task_at s t)) -> held k = lk :: held k' -> inv (goto t k' (setlock lk false s)).
Proof.
  intros M Hh. assert (E : task_at (goto t k' (setlock lk false s)) t = set_kstack k' (task_at s t)) by (sys_simpl; by rewrite !fn_lookup_insert).
  eapply (inv_release_gen s _ c t); try rewrite E; try done. intros u Hu. sys_simpl. by rewrite !fn_lookup_insert_ne.
Qed.

(** ** Shapes of stacks *)

Lemma plain_eq k : plain_stack k = true -> k = [FRun true [] 0].
Proof. apply bool_decide_eq_true. Qed.

Lemma asleep_cases lk k : asleep lk k = true -> k = [FRun true [] 0] \/ lk = WAIT_LOCK /\ exists pid o, k = [FAgain pid o; FRun true [] 0].
Proof.
  destruct k as [| []]; simpl; intros H; try (left; by apply plain_eq). apply andb_true_iff in H as [H ->%Z.eqb_eq].
  apply plain_eq in H as ->. by right; eauto.
Qed.

Lemma code_on k : code k = true -> on_stack TASK_STATE_RUNNING false k = true /\ still k.
Proof. destruct k as [| [] k]; try done. destruct k as [| [] k]; done. Qed.

Lemma resuming_on k : resuming k = true -> on_stack TASK_STATE_RUNNING true k = true /\ still k.
Proof. destruct k as [| [] k]; done. Qed.

Lemma resumable_head st k : resumable st k = true -> still k.
Proof. destruct st, k as [| [] k]; done. Qed.

(** On an ordinary frame a running task is in its code, or just resumed. *)
Lemma on_stack_cases st b k : on_stack st b k = true -> match k with
  | (FSleepPub _ | FSleepUnlock _ | FSched | FPick | FSwitch _ | FResume | FYield) :: _ => True
  | _ => st = TASK_STATE_RUNNING /\ (b = false /\ code k = true \/ b = true /\ resuming k = true) end.
Proof.
  destruct k as [| [] k]; try done; simpl; rewrite andb_true_iff, bool_decide_eq_true; intros [-> H]; (split; [done |]);
    destruct b; simpl in *; auto.
Qed.

Definition good (o : option (res sys)) : Prop := forall r, o = Some r -> exists s', r = Ret s' /\ inv s'.

Lemma good_none : good None.
Proof. done. Qed.

Lemma good_ret s : inv s -> good (Some (Ret s)).
Proof. intros I r [= <-]. eauto. Qed.

Lemma queued_false s t : t ∉ sleep_queue s -> (forall d, 0 <= d < MAX_CPUS -> t ∉ run_queue (cpu_at s d)) -> queued s t = false.
Proof.
  intros Hs Hq. unfold queued. rewrite bool_decide_eq_false_2 by done. apply not_true_iff_false. intros H. apply existsb_exists in H as (d & Hd & H).
  apply bool_decide_eq_true in H. apply list_elem_of_In, elem_of_seqZ in Hd. apply (Hq d); [lia | done].
Qed.

Section exec.
Context (s : sys) (c t : Z) (I : inv s) (Hon : on s c) (Hself : self (cpu_at s c) = t).

Lemma ex_alive : alive (task_at s t) = true.
Proof. rewrite <- Hself. by apply I. Qed.

Lemma ex_stack : on_stack (state (task_at s t)) (locked (task_at s t)) (kstack (task_at s t)) = true.
Proof. rewrite <- Hself. by apply (i_self s I c). Qed.

Lemma ex_depth : preempt_count (cpu_at s c) = depth (kstack (task_at s t)).
Proof. rewrite <- Hself. by apply (i_cpu s I c). Qed.

(** The top frame [f] is replaced by the frames [fs]. *)
Lemma ex_moves f fs k b : kstack (task_at s t) = f :: k -> still (f :: k) -> still (fs ++ k) -> depth (fs ++ k) = depth (f :: k) ->
  hands (fs ++ k) = hands (f :: k) -> on_stack (state (task_at s t)) b (fs ++ k) = true -> (state (task_at s t) = TASK_STATE_SLEEPING -> b = true) ->
  Forall (frame_ok s t) fs -> moves s c t (f :: k) (fs ++ k) b.
Proof.
  intros Hk S S' Hd Hh Hok Hb Hf. split; try done. intros g Hg. apply elem_of_app in Hg as [Hg | Hg]; [right | left; by right].
  by eapply list.Forall_forall.
Qed.

Lemma ex_frame f k : kstack (task_at s t) = f :: k -> frame_ok s t f.
Proof. intros Hk. apply I; [apply ex_alive |]. rewrite Hk. by left. Qed.

Lemma ex_cases f k : kstack (task_at s t) = f :: k -> match f with FSleepPub _ | FSleepUnlock _ | FSched | FPick | FSwitch _ | FResume | FYield => True
  | _ => state (task_at s t) = TASK_STATE_RUNNING /\
      (locked (task_at s t) = false /\ code (f :: k) = true \/ locked (task_at s t) = true /\ resuming (f :: k) = true) end.
Proof. intros Hk. pose proof ex_stack as H. rewrite Hk in H. apply on_stack_cases in H. by destruct f. Qed.

(** A frame that is done, and one that goes on at another frame, in code or just resumed. *)
Lemma ex_pop f k b : kstack (task_at s t) = f :: k -> still (f :: k) -> depth1 f = 0 -> hands1 f = [] -> state (task_at s t) = TASK_STATE_RUNNING ->
  b = false /\ code k = true \/ b = true /\ resuming k = true -> moves s c t (f :: k) k b.
Proof.
  intros Hk S Hd Hh Hst Hb. apply (ex_moves f []); try done; simpl.
  - by destruct Hb as [[_ H] | [_ H]]; [apply code_on in H as [] | apply resuming_on in H as []].
  - by rewrite Hd.
  - unfold hands. simpl. by rewrite Hh.
  - rewrite Hst. by destruct Hb as [[-> H] | [-> H]]; [apply code_on in H as [] | apply resuming_on in H as []].
  - by rewrite Hst.
Qed.

Lemma ex_swap f f' k b : kstack (task_at s t) = f :: k -> still (f :: k) -> depth1 f' = depth1 f -> hands1 f' = hands1 f -> state (task_at s t) = TASK_STATE_RUNNING ->
  frame_ok s t f' -> b = false /\ code (f' :: k) = true \/ b = true /\ resuming (f' :: k) = true -> moves s c t (f :: k) (f' :: k) b.
Proof.
  intros Hk S Hd Hh Hst Hf Hb. apply (ex_moves f [f']); try done; simpl.
  - by destruct Hb as [[_ H] | [_ H]]; [apply code_on in H as [] | apply resuming_on in H as []].
  - by rewrite Hd.
  - unfold hands. simpl. by rewrite Hh.
  - rewrite Hst. by destruct Hb as [[-> H] | [-> H]]; [apply code_on in H as [] | apply resuming_on in H as []].
  - by rewrite Hst.
  - by constructor.
Qed.

Lemma ex_tick k : kstack (task_at s t) = FTick :: k -> good (exec s c t FTick k).
Proof.
  intros Hk. simpl. unfold timer_interrupt. apply good_ret. destruct (ex_cases _ _ Hk) as [Hst [[Hl Hc] | [Hl Hc]]]; [| done].
  assert (Hpre : preempt_count (cpu_at s c) = depth k) by (rewrite ex_depth, Hk; done).
  case_match eqn:E; (eapply (inv_goto_upd s c t (FTick :: k)); [| done | done | done]); [apply ex_swap | apply ex_pop]; try done; simpl; rewrite Hl; auto.
  left. apply andb_true_iff in E as [_ E]. simpl in E, Hc. by rewrite Hc, <- Hpre, E.
Qed.

Lemma ex_yield k : kstack (task_at s t) = FYield :: k -> good (exec s c t FYield k).
Proof.
  intros Hk. simpl. unfold task_yield. pose proof ex_stack as Ho. rewrite Hk in Ho.
  assert (Hz : depth k = 0 /\ resumable (state (task_at s t)) (FYieldEnd :: k) = true /\ state (task_at s t) <> TASK_STATE_NEW /\ state (task_at s t) <> TASK_STATE_SLEEPING).
  { destruct k as [| f k]; [simpl in Ho; by destruct (state _), (locked _) |].
    destruct (decide (f = FDead)) as [-> | N].
    - simpl in Ho. rewrite !andb_true_iff, bool_decide_eq_true in Ho. destruct Ho as [[-> _] Ho]. split_and!; try done. by rewrite (plain_eq _ Ho).
    - assert (H : bool_decide (state (task_at s t) = TASK_STATE_RUNNING) && (if locked (task_at s t) then false else code (FYield :: f :: k)) = true) by (by destruct f).
      rewrite andb_true_iff, bool_decide_eq_true in H. destruct H as [E H]. rewrite E. destruct (locked (task_at s t)); [done |].
      cbn [code resumable] in *. apply andb_true_iff in H as [H1 H2]. apply Z.eqb_eq in H2. rewrite H1, H2. done. }
  destruct Hz as (Hd & Hr & Hn & Hns). assert (Hpre : preempt_count (cpu_at s c) = 0) by (rewrite ex_depth, Hk; simpl; lia).
  rewrite Hpre. simpl. destruct (locked (task_at s t)); [done |]. apply good_ret.
  eapply (inv_goto_upd s c t (FYield :: k)); [| done | done | done]. apply (ex_moves FYield [FSched; FYieldEnd]); try done; simpl; rewrite ?Hr.
  - by rewrite bool_decide_eq_false_2.
  - by repeat constructor.
Qed.

Lemma ex_yield_end k : kstack (task_at s t) = FYieldEnd :: k -> good (exec s c t FYieldEnd k).
Proof.
  intros Hk. simpl. apply good_ret. destruct (ex_cases _ _ Hk) as [Hst [[Hl Hc] | [Hl Hc]]]; [done |].
  simpl in Hc. apply andb_true_iff in Hc as [Hc _]. eapply (inv_goto_upd s c t (FYieldEnd :: k)); [| done | done | done]. apply ex_pop; try done. by left.
Qed.

Lemma ex_new k : kstack (task_at s t) = FNew :: k -> good (exec s c t FNew k).
Proof.
  intros Hk. simpl. unfold complete_task_switch. apply good_ret. destruct (ex_cases _ _ Hk) as [Hst [[Hl Hc] | [Hl Hc]]]; [done |].
  simpl in Hc. apply plain_eq in Hc as ->. eapply (inv_goto_upd s c t [FNew; FRun true [] 0]); [| done | done | done]. apply ex_pop; try done. by left.
Qed.

Lemma ex_sleep_unlock lk k : kstack (task_at s t) = FSleepUnlock lk :: k -> good (exec s c t (FSleepUnlock lk) k).
Proof.
  intros Hk. simpl. apply good_ret. pose proof ex_stack as Ho. rewrite Hk in Ho. simpl in Ho.
  rewrite !andb_true_iff, bool_decide_eq_true in Ho. destruct Ho as [[Hst Hl] Ha]. pose proof (ex_frame _ _ Hk) as Hf.
  eapply (inv_release_only s c t (FSleepUnlock lk :: k)); [| done]. apply (ex_moves (FSleepUnlock lk) [FSched; FSleepEnd lk]); try done.
  - simpl. rewrite Hst, Hl. simpl. by rewrite Ha.
  - by repeat constructor.
Qed.

Lemma ex_sleep_end lk k : kstack (task_at s t) = FSleepEnd lk :: k -> good (exec s c t (FSleepEnd lk) k).
Proof.
  intros Hk. simpl. apply good_ret. destruct (ex_cases _ _ Hk) as [Hst [[Hl Hc] | [Hl Hc]]]; [done |]. pose proof (ex_frame _ _ Hk) as Hf.
  eapply (inv_goto_upd s c t (FSleepEnd lk :: k)); [| done | done | done]. apply ex_swap; try done. by left.
Qed.

Lemma ex_sleep_lock lk k : kstack (task_at s t) = FSleepLock lk :: k -> good (exec s c t (FSleepLock lk) k).
Proof.
  intros Hk. simpl. destruct (locks s lk) eqn:El; [done |]. apply good_ret.
  destruct (ex_cases _ _ Hk) as [Hst [[Hl Hc] | [Hl Hc]]]; [| done]. pose proof (ex_frame _ _ Hk) as Hf.
  destruct (asleep_cases lk k Hc) as [-> | (-> & pid & o & ->)]; (eapply (inv_take s c t); [split | done | ]); try (exact Hk); rewrite ?Hst, ?Hl; try done; simpl.
  - intros f Hf'. right. by apply list_elem_of_singleton in Hf' as ->.
  - intros f [-> | Hf']%elem_of_cons; [right | left; by right; right]. done.
Qed.

Lemma ex_scan0 pid o k : kstack (task_at s t) = FScan0 pid o :: k -> good (exec s c t (FScan0 pid o) k).
Proof.
  intros Hk. simpl. apply good_ret. destruct (ex_cases _ _ Hk) as [Hst [[Hl Hc] | [Hl Hc]]]; [| done]. pose proof (ex_frame _ _ Hk) as Hf.
  eapply (inv_goto s c t (FScan0 pid o :: k)); [| done]. apply ex_swap; try done. by left.
Qed.

Lemma ex_wait pid o k : kstack (task_at s t) = FWait pid o :: k -> good (exec s c t (FWait pid o) k).
Proof.
  intros Hk. simpl. unfold task_wait. destruct (locks s WAIT_LOCK) eqn:El; [done |].
  destruct (ex_cases _ _ Hk) as [Hst [[Hl Hc] | [Hl Hc]]]; [| done]. simpl in Hc. pose proof (ex_frame _ _ Hk) as Hf.
  destruct (children (task_at s t)); apply good_ret.
  - apply plain_eq in Hc as ->. eapply (inv_goto_upd s c t [FWait pid o; FRun true [] 0]); [| done | done | done]. apply ex_pop; try done. by left.
  - eapply (inv_take s c t (FWait pid o :: k)); [| done | done]. apply ex_swap; try done. by left.
Qed.

Lemma ex_join p k : kstack (task_at s t) = FJoin p :: k -> good (exec s c t (FJoin p) k).
Proof.
  intros Hk. simpl. unfold task_join. destruct (ex_frame _ _ Hk) as ([Hp Ho] & Hr & Hi). unfold live. rewrite Hp, Ho. simpl. apply good_ret.
  destruct (ex_cases _ _ Hk) as [Hst Hc]. simpl in Hc.
  assert (Hm : moves s c t (FJoin p :: k) (FSelect p (next_cpu_hint s) 0 (-1) (2 ^ 32 - 1) :: k) (locked (task_at s t))).
  { by apply ex_swap. }
  pose proof (inv_goto s c t _ _ Hm eq_refl) as J. revert J. by apply inv_unchanged.
Qed.

Lemma select_turn_bound start off best bl b l g : select_turn s start off best bl = (b, l, g) -> best < MAX_CPUS -> b < MAX_CPUS.
Proof.
  unfold select_turn. intros H Hb. case_match; [by simplify_eq |]. case_match; simplify_eq; [| done].
  pose proof (Z.mod_pos_bound (u32 (start + off)) MAX_CPUS ltac:(done)). lia.
Qed.

Lemma ex_select p start off best bl k : kstack (task_at s t) = FSelect p start off best bl :: k -> good (exec s c t (FSelect p start off best bl) k).
Proof.
  intros Hk. destruct (ex_frame _ _ Hk) as ([Hp Ho] & Hr & Hi & Hb). destruct (ex_cases _ _ Hk) as [Hst Hc].
  destruct (i_range s I p Hp) as [_ Hcpu].
  assert (Hfin : forall b, b < MAX_CPUS -> inv (goto t (FEnqueue p (if b <? 0 then tcpu (task_at s p) else b) :: k) s)).
  { intros b Hb'. eapply (inv_goto s c t (FSelect p start off best bl :: k)); [| done]. apply ex_swap; try done.
    split_and!; try done; by case_match; lia. }
  cbn [exec]. unfold live. rewrite Hp. destruct (off <? MAX_CPUS); [| apply good_ret; auto].
  destruct (select_turn s start off best bl) as [[b l] g] eqn:Et. pose proof (select_turn_bound _ _ _ _ _ _ _ Et Hb) as Hb'.
  destruct g; apply good_ret; [| auto].
  eapply (inv_goto s c t (FSelect p start off best bl :: k)); [| done]. apply ex_swap; try done.
Qed.

(** A step that changes the state of the running task, or puts it on the sleep queue. *)
Lemma ex_shift s' f fs k : kstack (task_at s t) = f :: k -> (forall u, u <> t -> task_at s' u = task_at s u) -> core (task_at s t) (task_at s' t) ->
  kstack (task_at s' t) = fs ++ k -> cpu_at s' = cpu_at s -> locks s' = locks s -> init_reaper s' = init_reaper s -> ~ idle_of s t ->
  unswitched (f :: k) -> unswitched (fs ++ k) -> depth (fs ++ k) = depth (f :: k) -> hands (fs ++ k) = hands (f :: k) -> held (fs ++ k) = held (f :: k) ->
  on_stack (state (task_at s' t)) (locked (task_at s' t)) (fs ++ k) = true -> Forall (frame_ok s t) fs ->
  (state (task_at s' t) = TASK_STATE_ZOMBIE -> children (task_at s t) = [] /\ init_reaper s <> Some t) ->
  (state (task_at s' t) = TASK_STATE_ZOMBIE /\ state (task_at s t) = TASK_STATE_RUNNING /\ sleep_queue s' = sleep_queue s \/
   state (task_at s' t) = TASK_STATE_SLEEPING /\ state (task_at s t) = TASK_STATE_RUNNING /\ sleep_queue s' = sleep_queue s /\ (exists lk, head fs = Some (FSleepPub lk)) \/
   state (task_at s' t) = TASK_STATE_SLEEPING /\ locked (task_at s' t) = true /\ (exists lk, f = FSleepPub lk) /\ sleep_queue s' = sleep_queue s ++ [t] /\
     (forall lk, head (fs ++ k) <> Some (FSleepPub lk))) ->
  inv s'.
Proof.
  intros Hk Ho Hc Hk' Ec El Er Hi U U' Hd Hh Hheld Hok Hf Hz Hq. pose proof ex_alive as Ha.
  assert (Hin : sleep_queue s' = sleep_queue s ++ [t] \/ sleep_queue s' = sleep_queue s) by (destruct Hq as [H | [H | H]]; naive_solver).
  assert (Hnot : state (task_at s t) = TASK_STATE_RUNNING \/ (exists lk, f = FSleepPub lk) -> t ∉ sleep_queue s).
  { intros Hx Ht. destruct (i_sq_task s I t Ht) as (_ & E & _ & Hp). destruct Hx as [Hx | [lk ->]]; [congruence |]. apply (Hp lk). by rewrite Hk. }
  eapply (inv_local s s' c t); rewrite ?Hk, ?Hk', ?Ec, ?El, ?Er, ?Hheld, ?Hh, ?Hd; try done.
  - destruct Hin as [-> | ->]; [| apply I]. apply list.NoDup_app. split; [apply I |]. split; [| apply NoDup_singleton].
    intros x Hx Hx'. apply list_elem_of_singleton in Hx' as ->. apply Hnot in Hx; naive_solver.
  - intros v Hv. destruct Hin as [-> | ->]; [| done]. rewrite elem_of_app, list_elem_of_singleton. naive_solver.
  - intros Ht. destruct Hq as [(_ & E & Eq) | [(_ & E & Eq & _) | (? & ? & _ & _ & ?)]]; [| | done].
    all: rewrite Eq in Ht; by apply Hnot in Ht; auto.
  - intros Hs. destruct Hq as [(E & _) | [(_ & _ & _ & lk & E) | (_ & _ & _ & -> & _)]]; [congruence | right; exists lk; by destruct fs | left].
    apply elem_of_app. right. by left.
  - rewrite <- Hd, Hd, <- Hk. apply ex_depth.
  - intros g Hg. apply elem_of_app in Hg as [Hg | Hg]; [right | left; by right]. by eapply list.Forall_forall.
  - rewrite <- Hk. by apply I.
  - intros lk Hlk. rewrite <- Hk in Hlk. split; [by apply (i_held_lock s I t) | left; by rewrite <- Hk].
  - by left.
Qed.

Lemma ex_sleep ch lk k : kstack (task_at s t) = FSleep ch lk :: k -> good (exec s c t (FSleep ch lk) k).
Proof.
  intros Hk. simpl. unfold task_sleep. destruct (ex_cases _ _ Hk) as [Hst [[Hl Hc] | [Hl Hc]]]; [| done]. pose proof (ex_frame _ _ Hk) as Hf.
  assert (Hlk : locks s lk = true) by (apply (i_held_lock s I t); [apply ex_alive | rewrite Hk; by left]).
  assert (Hpre : preempt_count (cpu_at s c) = 0).
  { rewrite ex_depth, Hk. destruct (asleep_cases lk k Hc) as [-> | (_ & pid & o & ->)]; done. }
  rewrite Hlk, Hpre, Hl. simpl. apply good_ret.
  assert (E : task_at (goto t (FSleepPub lk :: k) (upd t (fun x => set_chan ch (set_state TASK_STATE_SLEEPING (set_locked true x))) s)) t =
    set_kstack (FSleepPub lk :: k) (set_chan ch (set_state TASK_STATE_SLEEPING (set_locked true (task_at s t))))) by (sys_simpl; by rewrite !fn_lookup_insert).
  eapply (ex_shift _ (FSleep ch lk) [FSleepPub lk] k); try rewrite E; try done.
  - intros u Hu. sys_simpl. by rewrite !fn_lookup_insert_ne.
  - by constructor.
  - right; left. eauto.
Qed.

Lemma run_unqueued k : kstack (task_at s t) = k -> unswitched k -> t ∉ sleep_queue s -> queued s t = false.
Proof. intros Hk U Hs. apply queued_false; [done |]. intros d Hd. apply (run_not_queued s c t I Hon Hself); [by rewrite Hk | done]. Qed.

Lemma ex_sleep_pub lk k : kstack (task_at s t) = FSleepPub lk :: k -> good (exec s c t (FSleepPub lk) k).
Proof.
  intros Hk. simpl. unfold sleep_publish. pose proof ex_stack as Ho. rewrite Hk in Ho. simpl in Ho. rewrite !andb_true_iff, bool_decide_eq_true in Ho.
  destruct Ho as [[Hst Hl] Ha]. pose proof (ex_frame _ _ Hk) as Hf.
  rewrite (run_unqueued _ Hk); [| done |]. 2: { intros Ht. destruct (i_sq_task s I t Ht) as (_ & _ & _ & Hp). apply (Hp lk). by rewrite Hk. }
  apply good_ret. assert (E : task_at (goto t (FSleepUnlock lk :: k) (set_sleep_queue (sleep_queue s ++ [t]) s)) t = set_kstack (FSleepUnlock lk :: k) (task_at s t))
    by (sys_simpl; by rewrite !fn_lookup_insert).
  eapply (ex_shift _ (FSleepPub lk) [FSleepUnlock lk] k); try rewrite E; try done; simpl; rewrite ?Hst, ?Hl; try done.
  - intros u Hu. sys_simpl. by rewrite !fn_lookup_insert_ne.
  - by constructor.
  - right; right. eauto 10.
Qed.

Lemma ex_exit_lock status k : kstack (task_at s t) = FExitLock status :: k -> good (exec s c t (FExitLock status) k).
Proof.
  intros Hk. simpl. destruct (ex_cases _ _ Hk) as [Hst [[Hl Hc] | [Hl Hc]]]; [| done]. destruct (ex_frame _ _ Hk) as (Hch & Hr & Hi).
  simpl in Hc. apply plain_eq in Hc as ->. assert (Hpre : preempt_count (cpu_at s c) = 0) by (rewrite ex_depth, Hk; done).
  rewrite Hpre, Hl. simpl. apply good_ret. unfold exit_zombie.
  match goal with |- inv (goto t ?k' (upd t ?g s)) =>
    assert (E : task_at (goto t k' (upd t g s)) t = set_kstack k' (g (task_at s t))) by (sys_simpl; by rewrite !fn_lookup_insert) end.
  eapply (ex_shift _ (FExitLock status) [FSched; FDead] [FRun true [] 0]); try rewrite E; try done.
  - intros u Hu. sys_simpl. by rewrite !fn_lookup_insert_ne.
  - by repeat constructor.
  - by left.
Qed.
End exec.

(** ** Leaving a CPU *)

Lemma resumable_depth st k : resumable st k = true -> depth k = 0.
Proof.
  destruct st, k as [| [] k]; try done; simpl; intros H; try (by apply plain_eq in H as ->).
  - apply andb_true_iff in H as [_ H]. lia.
  - destruct (asleep_cases lk k H) as [-> | (_ & pid & o & ->)]; done.
  - destruct (asleep_cases lk k H) as [-> | (_ & pid & o & ->)]; done.
  - destruct k as [| [] k]; try done. by apply plain_eq in H as ->.
Qed.

Lemma bounded_length (l : list Z) (n : Z) : 0 <= n -> NoDup l -> (forall x, x ∈ l -> 0 <= x < n) -> Z.of_nat (length l) <= n.
Proof.
  intros Hn Hd Hl. assert (H : (length l <= length (seqZ 0 n))%nat).
  { apply submseteq_length, NoDup_submseteq; [done |]. intros x Hx. apply elem_of_seqZ. specialize (Hl x Hx). lia. }
  rewrite length_seqZ in H. lia.
Qed.

Section leave.
Context (s s' : sys) (c t : Z) (I : inv s) (Hon : on s c) (Hself : self (cpu_at s c) = t).
Context (k : list frame) (Hk : kstack (task_at s t) = FSched :: k) (joined : bool).
Context (Hother : forall u, u <> t -> task_at s' u = task_at s u) (Hcore : core (task_at s t) (task_at s' t)).
Context (Hstate : state (task_at s' t) = state (task_at s t)) (Hlock : locked (task_at s' t) = locked (task_at s t)).
Context (Hk' : kstack (task_at s' t) = FPick :: k).
Context (Hcpu : forall d, d <> c -> cpu_at s' d = cpu_at s d) (Hnear : cpu_near (cpu_at s c) (cpu_at s' c)).
Context (Hhand : handoff (cpu_at s' c) = handoff (cpu_at s c)) (Hpgd : pgd (cpu_at s' c) = pgd (cpu_at s c)).
Context (Hpre : preempt_count (cpu_at s' c) = preempt_count (cpu_at s c)) (Hcur : current (cpu_at s' c) = None).
Context (Hrq : run_queue (cpu_at s' c) = run_queue (cpu_at s c) ++ (if joined then [t] else [])).
Context (Hnr : nr_running (cpu_at s' c) = if joined then u32 (nr_running (cpu_at s c) + 1) else nr_running (cpu_at s c)).
Context (Hsq : sleep_queue s' = sleep_queue s) (Hlocks : locks s' = locks s) (Hreaper : init_reaper s' = init_reaper s).
Context (Hj : joined = true -> state (task_at s t) = TASK_STATE_RUNNING /\ ~ idle_of s t).
Context (Hnj : joined = false -> state (task_at s t) = TASK_STATE_RUNNING -> idle_of s t).

Lemma leave_cpu d : cpu_near (cpu_at s d) (cpu_at s' d) /\ handoff (cpu_at s' d) = handoff (cpu_at s d) /\ pgd (cpu_at s' d) = pgd (cpu_at s d) /\
  preempt_count (cpu_at s' d) = preempt_count (cpu_at s d).
Proof. destruct (decide (d = c)) as [-> | N]; [done |]. rewrite Hcpu by done. split_and!; try done. Qed.

Lemma leave_alike : alike s s'.
Proof.
  split; [| | apply leave_cpu | done]; intros v; (destruct (decide (v = t)) as [-> | ]; [done | by rewrite Hother]).
Qed.

Lemma leave_leaving v : leaving s' v <-> leaving s v \/ v = t.
Proof.
  unfold leaving. setoid_rewrite (al_on _ _ leave_alike). setoid_rewrite (al_self _ _ leave_alike). split.
  - intros (d & Hd & H). destruct (leave_cpu d) as (_ & E & _). rewrite E in H. destruct (decide (v = t)) as [-> | N]; [by right | left].
    exists d. by rewrite Hother in H.
  - destruct (decide (v = t)) as [-> | N]; [intros _; exists c; split; [done | right; by rewrite Hk'] |].
    intros [(d & Hd & H) | ?]; [| done]. exists d. destruct (leave_cpu d) as (_ & E & _). rewrite E, Hother by done. done.
Qed.

Lemma leave_hands v : hands (kstack (task_at s' v)) = hands (kstack (task_at s v)).
Proof. destruct (decide (v = t)) as [-> | ]; [by rewrite Hk, Hk' |]. by rewrite Hother. Qed.

Lemma leave_held v : held (kstack (task_at s' v)) = held (kstack (task_at s v)).
Proof. destruct (decide (v = t)) as [-> | ]; [by rewrite Hk, Hk' |]. by rewrite Hother. Qed.

Lemma leave_rq d v : v ∈ run_queue (cpu_at s' d) <-> v ∈ run_queue (cpu_at s d) \/ joined = true /\ d = c /\ v = t.
Proof.
  destruct (decide (d = c)) as [-> | N]; [rewrite Hrq, elem_of_app | rewrite Hcpu by done; naive_solver].
  destruct joined; [rewrite list_elem_of_singleton | rewrite elem_of_nil]; naive_solver.
Qed.

Lemma leave_state v : state (task_at s' v) = state (task_at s v) /\ locked (task_at s' v) = locked (task_at s v).
Proof. destruct (decide (v = t)) as [-> | ]; [done |]. by rewrite Hother. Qed.

Lemma inv_leave : inv s'.
Proof.
  pose proof leave_alike as A. pose proof (run_alive s c t I Hon Hself) as Ht.
  pose proof (fun d => run_one s c t I Hon Hself d) as Hone. pose proof (run_not_off s c t I Hon Hself) as Hnoff.
  assert (U : unswitched (kstack (task_at s t))) by (by rewrite Hk).
  split; intros *; alike_in A; rewrite ?(proj1 (leave_state _)), ?(proj2 (leave_state _)), ?Hsq, ?Hlocks, ?leave_hands, ?leave_held.
  - apply I.
  - intros H. pose proof (i_self s I c0 H) as (H1 & H2 & H3 & H4). split_and!; try done.
    destruct (decide (self (cpu_at s c0) = t)) as [E | N]; [| by rewrite Hother]. rewrite E, Hk' in *. by rewrite Hk in H4.
  - intros H. destruct (leave_cpu c0) as (_ & _ & -> & ->). pose proof (i_cpu s I c0 H) as (H1 & H2 & H3). destruct (decide (c0 = c)) as [-> | N].
    + rewrite Hself, Hk' in *. rewrite Hk in *. done.
    + rewrite Hcpu by done. rewrite !Hother by (intros E; by apply Hone in E). done.
  - intros H. destruct (leave_cpu c0) as (_ & -> & _). pose proof (i_handoff s I c0 H) as H1. destruct (decide (c0 = c)) as [-> | N].
    + rewrite Hself, Hk' in *. by rewrite Hk in H1.
    + rewrite (Hother (self _)) by (intros E; by apply Hone in E).
      destruct (head (kstack (task_at s (self (cpu_at s c0))))) as [[] |]; try done. destruct H1 as (p & H1 & H2 & H3 & H4 & H5). exists p. alike_in A.
      rewrite Hother; [done |]. intros ->. by rewrite (run_oncpu s c t I Hon Hself) in H4.
  - apply I.
  - apply I.
  - destruct (leave_cpu (oncpu (task_at s t0))) as (_ & -> & _). apply I.
  - intros H. rewrite Hother; [by apply I |]. by intros ->.
  - intros H. destruct (i_rq s I c0 H) as [H1 H2]. destruct (decide (c0 = c)) as [-> | N]; [| by rewrite Hcpu].
    pose proof (run_not_queued s c t I Hon Hself c U H) as Hnq. rewrite Hrq, Hnr. destruct joined; [| by rewrite app_nil_r]. split.
    + apply list.NoDup_app. split_and!; [done | | apply NoDup_singleton]. intros x Hx Hx'. by apply list_elem_of_singleton in Hx' as ->.
    + pose proof (bounded_length _ NR_TASKS ltac:(unfold NR_TASKS; lia) H1 ltac:(intros x Hx; apply (i_rq_task s I c x H) in Hx as (Hx & _); by apply I)).
      rewrite length_app. simpl. rewrite H2, u32_small; [lia |]. unfold NR_TASKS in *. lia.
  - intros H1 [H2 | (-> & -> & ->)]%leave_rq.
    + destruct (i_rq_task s I _ _ H1 H2) as (? & ? & ? & ? & H3 & H4). rewrite leave_leaving. split_and!; try done; [| tauto].
      intros u. alike_in A. rewrite leave_hands. apply H3.
    + destruct (Hj eq_refl). split_and!; try done; [by apply (run_tcpu s c t I Hon Hself) | | right; rewrite leave_leaving; by right].
      intros u. alike_in A. rewrite leave_hands. apply (run_not_hand s c t I Hon Hself).
  - apply I.
  - intros H. destruct (i_sq_task s I t0 H) as (? & ? & ? & H4). split_and!; try done. destruct (decide (t0 = t)) as [-> | N]; [by rewrite Hk' | by rewrite Hother].
  - rewrite leave_leaving. intros H1 H2 H3. setoid_rewrite leave_rq. destruct (decide (t0 = t)) as [-> | N].
    + destruct joined; [right; left; right; split_and!; try done; by apply (run_tcpu s c t I Hon Hself) | left; auto].
    + destruct (i_running s I t0 H1 H2) as [? | [? | (u & Hu & ?)]]; [tauto | by left | tauto |]. right; right. exists u. alike_in A. by rewrite leave_hands.
  - intros H1 H2. destruct (i_sleeping s I t0 H1 H2) as [? | [lk H]]; [by left |]. right. exists lk.
    destruct (decide (t0 = t)) as [-> | N]; [by rewrite Hk in H | by rewrite Hother].
  - intros Hu Hf. rewrite (al_frame _ _ A). destruct (decide (u = t)) as [-> | N]; [| rewrite Hother in Hf by done; by apply I].
    rewrite Hk' in Hf. apply elem_of_cons in Hf as [-> | Hf]; [done |]. apply I; [done |]. rewrite Hk. by right.
  - apply I.
  - apply I.
  - apply I.
  - apply I.
  - apply I.
  - apply I.
  - apply I.
  - apply I.
  - apply I.
  - apply I.
Qed.
End leave.

Lemma plain_no_switch k n : plain_stack k = true -> FSwitch n ∉ k.
Proof. intros ->%plain_eq. by intros ?%list_elem_of_singleton. Qed.

Lemma asleep_no_switch lk k n : asleep lk k = true -> FSwitch n ∉ k.
Proof. intros [-> | (_ & pid & o & ->)]%asleep_cases; rewrite ?elem_of_cons, elem_of_nil; naive_solver. Qed.

Lemma code_no_switch k n : code k = true -> FSwitch n ∉ k.
Proof.
  induction k as [| f k IH]; [done |]. intros H [E | Hin]%elem_of_cons; [by destruct f |].
  destruct f; simpl in H; try done; try (by apply IH); try (by apply plain_no_switch in Hin); try (by eapply asleep_no_switch in Hin).
  - destruct k; [by apply not_elem_of_nil in Hin |]. rewrite !andb_true_iff in H. destruct H as [_ H]. by apply IH.
  - apply andb_true_iff in H as [H _]. by apply IH.
Qed.

Lemma resumable_no_switch st k n : resumable st k = true -> FSwitch n ∉ k.
Proof.
  destruct k as [| f k]; [by destruct st |]. intros H [E | Hin]%elem_of_cons; [by destruct f, st |].
  destruct st, f; simpl in H; try done; try (by apply plain_no_switch in Hin); try (by eapply asleep_no_switch in Hin).
  - apply andb_true_iff in H as [H _]. by apply code_no_switch in Hin.
  - destruct k as [| [] k]; try done. apply elem_of_cons in Hin as [? | Hin]; [done | by apply plain_no_switch in Hin].
Qed.

Lemma resumable_resuming k : resumable TASK_STATE_RUNNING k = true -> resuming k = true.
Proof. by destruct k as [| [] k]. Qed.

(** ** The next task *)

Section pick.
Context (s s' : sys) (c t : Z) (I : inv s) (Hon : on s c) (Hself : self (cpu_at s c) = t).
Context (k : list frame) (Hk : kstack (task_at s t) = FPick :: k).

Lemma pick_no_handoff : handoff (cpu_at s c) = None.
Proof. pose proof (i_handoff s I c Hon) as H. by rewrite Hself, Hk in H. Qed.

Lemma pick_leaving n : leaving s n -> tcpu (task_at s n) = c -> n = t.
Proof.
  intros (d & Hd & H) Hn. destruct (i_self s I d Hd) as (_ & _ & E & _). destruct H as [H | [H _]].
  - pose proof (i_handoff s I d Hd) as Hh. destruct (kstack (task_at s (self (cpu_at s d)))) as [| [] ?]; simpl in Hh; try congruence.
    destruct Hh as (p & Hp & _ & _ & _ & Hc & _). assert (p = n) as -> by congruence. assert (d = c) as -> by congruence.
    rewrite pick_no_handoff in H. done.
  - subst n. assert (d = c) as -> by congruence. done.
Qed.

Lemma pick_off n : alive (task_at s n) = true -> tcpu (task_at s n) = c -> n <> t -> oncpu (task_at s n) = -1.
Proof.
  intros Ha Hn N. destruct (decide (oncpu (task_at s n) = -1)) as [| E]; [done |]. destruct (i_oncpu s I n Ha E) as [Ho [H | H]].
  - destruct (i_self s I _ Ho) as (_ & _ & E' & _). rewrite H in E'. congruence.
  - destruct N. apply pick_leaving; [| done]. eexists. split; [done |]. by left.
Qed.

Context (popped : list Z) (rq' : list Z) (Hrq : run_queue (cpu_at s c) = popped ++ rq') (Hpop : (length popped <= 1)%nat).
Context (Hcpu : forall d, d <> c -> cpu_at s' d = cpu_at s d) (Hpgd : pgd (cpu_at s' c) = pgd (cpu_at s c)).
Context (Hnear : cpu_near (cpu_at s c) (cpu_at s' c)) (Hpre : preempt_count (cpu_at s' c) = preempt_count (cpu_at s c)).
Context (Hrq' : run_queue (cpu_at s' c) = rq') (Hnr : nr_running (cpu_at s' c) = nr_running (cpu_at s c) - Z.of_nat (length popped)).
Context (Hother : forall u, u <> t -> task_at s' u = task_at s u) (Hcore : core (task_at s t) (task_at s' t)).
Context (Hstate : state (task_at s' t) = state (task_at s t)) (Hlock : locked (task_at s' t) = locked (task_at s t)).
Context (Hsq : sleep_queue s' = sleep_queue s) (Hlocks : locks s' = locks s) (Hreaper : init_reaper s' = init_reaper s).

Lemma pick_alike : alike s s'.
Proof.
  split; [| | | done]; intros v; [| | destruct (decide (v = c)) as [-> | N]; [done |]; by rewrite Hcpu].
  all: destruct (decide (v = t)) as [-> | ]; [done | by rewrite Hother].
Qed.

Lemma pick_state v : state (task_at s' v) = state (task_at s v) /\ locked (task_at s' v) = locked (task_at s v).
Proof. destruct (decide (v = t)) as [-> | ]; [done |]. by rewrite Hother. Qed.

Lemma pick_rq d v : 0 <= d < MAX_CPUS -> v ∈ run_queue (cpu_at s' d) <-> v ∈ run_queue (cpu_at s d) /\ v ∉ popped.
Proof.
  intros Hd. destruct (decide (d = c)) as [-> | N].
  - destruct (i_rq s I c Hd) as [Hn _]. rewrite Hrq in Hn. apply list.NoDup_app in Hn as (_ & Hn & _). rewrite Hrq, Hrq', elem_of_app. naive_solver.
  - rewrite Hcpu by done. split; [| naive_solver]. intros Hv. split; [done |]. intros Hp.
    destruct (i_rq_task s I d v Hd Hv) as (_ & _ & E & _). destruct Hon as [Hc _]. assert (Hv' : v ∈ run_queue (cpu_at s c)) by (rewrite Hrq; apply elem_of_app; by left).
    destruct (i_rq_task s I c v Hc Hv') as (_ & _ & E' & _). congruence.
Qed.

Lemma pick_rq_ok d : 0 <= d < MAX_CPUS -> NoDup (run_queue (cpu_at s' d)) /\ nr_running (cpu_at s' d) = Z.of_nat (length (run_queue (cpu_at s' d))).
Proof.
  intros Hd. destruct (i_rq s I d Hd) as [H1 H2]. destruct (decide (d = c)) as [-> | N]; [| by rewrite Hcpu].
  rewrite Hrq in H1, H2. rewrite Hrq', Hnr, H2, length_app. split; [| lia]. by apply list.NoDup_app in H1 as (_ & _ & ?).
Qed.

Section back.
Context (Hk' : kstack (task_at s' t) = k) (Hcur : current (cpu_at s' c) = Some t) (Hh : handoff (cpu_at s' c) = handoff (cpu_at s c)).
Context (Hn : popped = [t] \/ popped = [] /\ idle (cpu_at s c) = Some t).

Lemma back_running : state (task_at s t) = TASK_STATE_RUNNING.
Proof.
  destruct Hn as [E | [_ E]]; [| by apply (i_idle s I c t)]. destruct Hon as [Hc _].
  destruct (i_rq_task s I c t Hc) as (_ & ? & _); [| done]. rewrite Hrq, E. by left.
Qed.

Lemma back_resumable : resumable TASK_STATE_RUNNING k = true /\ locked (task_at s t) = true.
Proof.
  pose proof (ex_stack s c t I Hon Hself) as Ho. rewrite Hk in Ho. simpl in Ho. rewrite !andb_true_iff in Ho. rewrite <- back_running. tauto.
Qed.

Lemma back_handoff d : handoff (cpu_at s' d) = handoff (cpu_at s d).
Proof. destruct (decide (d = c)) as [-> | N]; [done |]. by rewrite Hcpu. Qed.

Lemma back_leaving v : leaving s' v <-> leaving s v /\ v <> t.
Proof.
  destruct back_resumable as [Hr _]. apply resumable_head in Hr. unfold leaving. setoid_rewrite (al_on _ _ pick_alike). setoid_rewrite (al_self _ _ pick_alike).
  setoid_rewrite back_handoff. split.
  - intros (d & Hd & H). destruct (decide (v = t)) as [-> | N]; [| split; [exists d; by rewrite Hother in H | done]]. exfalso. destruct H as [H | [_ H]].
    + destruct (run_handoff s c t I Hon Hself d Hd H) as (_ & n & k0 & E). congruence.
    + rewrite Hk' in H. by destruct k as [| []].
  - intros [(d & Hd & H) N]. exists d. by rewrite Hother.
Qed.

Lemma back_hands v : hands (kstack (task_at s' v)) = hands (kstack (task_at s v)).
Proof. destruct (decide (v = t)) as [-> | ]; [by rewrite Hk, Hk' |]. by rewrite Hother. Qed.

Lemma back_held v : held (kstack (task_at s' v)) = held (kstack (task_at s v)).
Proof. destruct (decide (v = t)) as [-> | ]; [by rewrite Hk, Hk' |]. by rewrite Hother. Qed.

Lemma back_popped v : v ∈ popped -> v = t.
Proof. destruct Hn as [-> | [-> _]]; [by intros ->%list_elem_of_singleton | by intros ?%elem_of_nil]. Qed.

Lemma inv_back : inv s'.
Proof.
  pose proof pick_alike as A. pose proof (run_alive s c t I Hon Hself) as Ht. pose proof back_running as Hrun. destruct back_resumable as [Hr Hl].
  pose proof (fun d => run_one s c t I Hon Hself d) as Hone. pose proof (run_not_off s c t I Hon Hself) as Hnoff. pose proof (resumable_head _ _ Hr) as Hstill.
  split; intros *; alike_in A; rewrite ?(proj1 (pick_state _)), ?(proj2 (pick_state _)), ?Hsq, ?Hlocks, ?back_hands, ?back_held, ?back_handoff.
  - apply I.
  - intros H. pose proof (i_self s I c0 H) as (H1 & H2 & H3 & H4). split_and!; try done.
    destruct (decide (self (cpu_at s c0) = t)) as [E | N]; [| by rewrite Hother]. rewrite E, Hk' in *. rewrite Hrun, Hl. by apply resuming_on, resumable_resuming.
  - intros H. pose proof (i_cpu s I c0 H) as (H1 & H2 & H3). destruct (decide (c0 = c)) as [-> | N].
    + rewrite Hpre, Hpgd, Hself, Hk' in *. rewrite Hk in H1. split_and!; [done.. |]. rewrite Hcur. by destruct k as [| []].
    + rewrite Hcpu by done. rewrite !Hother by (intros E; by apply Hone in E). done.
  - intros H. pose proof (i_handoff s I c0 H) as H1. destruct (decide (c0 = c)) as [-> | N].
    + rewrite Hself, Hk' in *. rewrite Hk in H1. simpl in H1. by destruct k as [| []].
    + rewrite (Hother (self _)) by (intros E; by apply Hone in E).
      destruct (head (kstack (task_at s (self (cpu_at s c0))))) as [[] |]; try done. destruct H1 as (p & H1 & H2 & H3 & H4 & H5). exists p. alike_in A.
      rewrite Hother; [done |]. intros ->. by rewrite (run_oncpu s c t I Hon Hself) in H4.
  - apply I.
  - apply I.
  - apply I.
  - intros H. rewrite Hother; [by apply I |]. by intros ->.
  - apply pick_rq_ok.
  - intros H1 [H2 Hp]%pick_rq; [| done]. destruct (i_rq_task s I _ _ H1 H2) as (? & ? & ? & Hni & H3 & H4). rewrite back_leaving. split_and!; try done.
    + intros u. alike_in A. rewrite back_hands. apply H3.
    + destruct H4 as [H4 | H4]; [by left | right]. split; [done |]. intros ->. destruct Hn as [-> | [_ Hi]]; [apply Hp; by left |]. apply Hni. by exists c.
  - apply I.
  - intros H. destruct (i_sq_task s I t0 H) as (? & Hs & ? & H4). split_and!; try done. rewrite Hother; [done |]. congruence.
  - rewrite back_leaving. intros H1 H2 H3. assert (t0 <> t) by (intros ->; destruct H3 as [H3 | [_ H3]]; [by apply Hnoff | done]).
    assert (Hc : 0 <= tcpu (task_at s t0) < MAX_CPUS) by (by apply I).
    rewrite pick_rq by done. destruct (i_running s I t0 H1 H2) as [? | [? | (u & Hu & ?)]]; [tauto | by left | |].
    + right; left. split; [done |]. by intros ?%back_popped.
    + right; right. exists u. alike_in A. by rewrite back_hands.
  - intros H1 H2. destruct (i_sleeping s I t0 H1 H2) as [? | [lk H]]; [by left |]. right. exists lk. rewrite Hother; [done |]. congruence.
  - intros Hu Hf. rewrite (al_frame _ _ A). destruct (decide (u = t)) as [-> | N]; [| rewrite Hother in Hf by done; by apply I].
    rewrite Hk' in Hf. apply I; [done |]. rewrite Hk. by right.
  - apply I.
  - apply I.
  - apply I.
  - apply I.
  - apply I.
  - apply I.
  - apply I.
  - apply I.
  - apply I.
  - apply I.
Qed.
End back.

Section onward.
Context (n : Z) (Hk' : kstack (task_at s' t) = FSwitch n :: k) (Hcur : current (cpu_at s' c) = current (cpu_at s c)).
Context (Hh : handoff (cpu_at s' c) = Some t) (Hn : popped = [n] \/ popped = [] /\ idle (cpu_at s c) = Some n) (Hne : n <> t).

Lemma onward_next : alive (task_at s n) = true /\ state (task_at s n) = TASK_STATE_RUNNING /\ tcpu (task_at s n) = c /\ (idle_of s n -> popped = []).
Proof.
  destruct Hn as [E | [E Hi]].
  - destruct Hon as [Hc _]. destruct (i_rq_task s I c n Hc) as (? & ? & ? & ? & _); [rewrite Hrq, E; by left |]. done.
  - destruct (i_idle s I c n Hi) as (_ & ? & ? & ?). done.
Qed.

Lemma onward_new u : alive (task_at s u) = true -> n ∉ hands (kstack (task_at s u)).
Proof.
  destruct onward_next as (_ & Est & Ecpu & _). destruct Hn as [E | [E Hi]].
  - destruct Hon as [Hc _]. destruct (i_rq_task s I c n Hc) as (_ & _ & _ & _ & H & _); [rewrite Hrq, E; by left | apply H].
  - intros Hu Hx. apply list_elem_of_bind in Hx as (f & Hx & Hf). pose proof (i_frames s I u f Hu Hf) as Hok. assert (Hi' : idle_of s n) by (by exists c).
    destruct f; simpl in *; try (by apply not_elem_of_nil in Hx); apply list_elem_of_singleton in Hx as ->; try tauto.
    + destruct Hok as (_ & _ & Hok & _). specialize (Hok Hi'). rewrite Ecpu, Hself in Hok. subst u.
      rewrite Hk in Hf. apply elem_of_cons in Hf as [? | Hf]; [done |]. pose proof (ex_stack s c t I Hon Hself) as Ho. rewrite Hk in Ho. simpl in Ho.
      rewrite !andb_true_iff in Ho. destruct Ho as [[_ Ho] _]. by eapply resumable_no_switch in Hf.
    + destruct Hok as (_ & Hok & _). congruence.
Qed.

Lemma onward_leaving v : leaving s' v <-> leaving s v.
Proof.
  unfold leaving. setoid_rewrite (al_on _ _ pick_alike). setoid_rewrite (al_self _ _ pick_alike). split; intros (d & Hd & H); exists d; (split; [done |]).
  - destruct (decide (d = c)) as [-> | N].
    + destruct H as [H | [H Hx]]; right; [split; [congruence |]; assert (v = t) as -> by congruence; by rewrite Hk |].
      assert (v = t) as -> by congruence. by rewrite Hk.
    + rewrite Hcpu in H by done. destruct H as [H | [H Hx]]; [by left | right]. split; [done |]. rewrite Hother in Hx; [done |].
      intros ->. by apply (run_one s c t I Hon Hself) in H.
  - destruct (decide (d = c)) as [-> | N].
    + left. destruct H as [H | [H _]]; [by rewrite pick_no_handoff in H |]. congruence.
    + rewrite Hcpu by done. destruct H as [H | [H Hx]]; [by left | right]. split; [done |]. rewrite Hother; [done |].
      intros ->. by apply (run_one s c t I Hon Hself) in H.
Qed.

Lemma onward_hands v : alive (task_at s v) = true -> hands (kstack (task_at s' v)) = (if decide (v = t) then [n] else []) ++ hands (kstack (task_at s v)).
Proof. case_decide as E; [subst v; by rewrite Hk, Hk' |]. by rewrite Hother. Qed.

Lemma onward_held v : held (kstack (task_at s' v)) = held (kstack (task_at s v)).
Proof. destruct (decide (v = t)) as [-> | ]; [by rewrite Hk, Hk' |]. by rewrite Hother. Qed.

Lemma onward_popped v : v ∈ popped -> v = n.
Proof. destruct Hn as [-> | [-> _]]; [by intros ->%list_elem_of_singleton | by intros ?%elem_of_nil]. Qed.

Lemma inv_onward : inv s'.
Proof.
  pose proof pick_alike as A. pose proof (run_alive s c t I Hon Hself) as Ht. destruct onward_next as (Hna & Hns & Hnc & Hni).
  pose proof (fun d => run_one s c t I Hon Hself d) as Hone. pose proof (run_not_off s c t I Hon Hself) as Hnoff.
  pose proof (ex_stack s c t I Hon Hself) as Ho. rewrite Hk in Ho. pose proof onward_new as Hnew.
  split; intros *; alike_in A; rewrite ?(proj1 (pick_state _)), ?(proj2 (pick_state _)), ?Hsq, ?Hlocks, ?onward_held.
  - apply I.
  - intros H. pose proof (i_self s I c0 H) as (H1 & H2 & H3 & H4). split_and!; try done.
    destruct (decide (self (cpu_at s c0) = t)) as [E | N]; [| by rewrite Hother]. rewrite E, Hk' in *. done.
  - intros H. pose proof (i_cpu s I c0 H) as (H1 & H2 & H3). destruct (decide (c0 = c)) as [-> | N].
    + rewrite Hpre, Hpgd, Hcur, Hself, Hk' in *. rewrite Hk in H1, H3. done.
    + rewrite Hcpu by done. rewrite !Hother by (intros E; by apply Hone in E). done.
  - intros H. pose proof (i_handoff s I c0 H) as H1. destruct (decide (c0 = c)) as [-> | N].
    + rewrite Hself, Hk' in *. done.
    + rewrite Hcpu by done. rewrite (Hother (self _)) by (intros E; by apply Hone in E).
      destruct (head (kstack (task_at s (self (cpu_at s c0))))) as [[] |]; try done. destruct H1 as (p & H1 & H2 & H3 & H4 & H5). exists p. alike_in A.
      rewrite Hother; [done |]. intros ->. by rewrite (run_oncpu s c t I Hon Hself) in H4.
  - apply I.
  - apply I.
  - intros H1 H2. destruct (i_oncpu s I t0 H1 H2) as [H3 H4]. split; [done |]. destruct (decide (oncpu (task_at s t0) = c)) as [E | N]; [| by rewrite Hcpu].
    left. destruct H4 as [H4 | H4]; [done |]. rewrite E, pick_no_handoff in H4. done.
  - intros H. rewrite Hother; [by apply I |]. by intros ->.
  - apply pick_rq_ok.
  - intros H1 [H2 Hp]%pick_rq; [| done]. destruct (i_rq_task s I _ _ H1 H2) as (? & ? & ? & Hi & H3 & H4). rewrite onward_leaving. split_and!; try done.
    intros u. alike_in A. intros Hu. rewrite onward_hands by done. rewrite not_elem_of_app. split; [| by apply H3]. case_decide; [| apply not_elem_of_nil].
    intros ->%list_elem_of_singleton. destruct Hn as [-> | [_ E]]; [apply Hp; by left | apply Hi; by exists c].
  - apply I.
  - intros H. destruct (i_sq_task s I t0 H) as (? & Hs & ? & H4). split_and!; try done. destruct (decide (t0 = t)) as [-> | N]; [by rewrite Hk' | by rewrite Hother].
  - rewrite onward_leaving. intros H1 H2 H3. assert (Hc : 0 <= tcpu (task_at s t0) < MAX_CPUS) by (by apply I).
    rewrite pick_rq by done. destruct (decide (t0 = n)) as [-> | N].
    { right; right. exists t. alike_in A. split; [done |]. rewrite onward_hands, decide_True by done. by left. }
    destruct (i_running s I t0 H1 H2 H3) as [? | [? | (u & Hu & ?)]]; [by left | |].
    + right; left. split; [done |]. by intros ?%onward_popped.
    + right; right. exists u. alike_in A. split; [done |]. rewrite onward_hands by done. apply elem_of_app. by right.
  - intros H1 H2. destruct (i_sleeping s I t0 H1 H2) as [? | [lk H]]; [by left |]. right. exists lk.
    destruct (decide (t0 = t)) as [-> | N]; [by rewrite Hk in H | by rewrite Hother].
  - intros Hu Hf. rewrite (al_frame _ _ A). destruct (decide (u = t)) as [-> | N]; [| rewrite Hother in Hf by done; by apply I].
    rewrite Hk' in Hf. apply elem_of_cons in Hf as [-> | Hf]; [| apply I; [done |]; rewrite Hk; by right].
    simpl. rewrite (run_tcpu s c t I Hon Hself). split_and!; [split; [done |]; by apply pick_off | done | | done]. intros _. by rewrite Hnc.
  - intros Hu. rewrite onward_hands by done. case_decide; [| by apply I]. apply list.NoDup_app. split; [apply NoDup_singleton |]. split; [| by apply I].
    intros x Hx%list_elem_of_singleton. subst x. by apply Hnew.
  - intros Hu Hv. rewrite !onward_hands by done. rewrite !elem_of_app. intros [H1 | H1] [H2 | H2].
    + repeat case_decide; try (by apply not_elem_of_nil in H1); try (by apply not_elem_of_nil in H2). congruence.
    + case_decide; [| by apply not_elem_of_nil in H1]. apply list_elem_of_singleton in H1 as ->. by apply Hnew in H2.
    + case_decide; [| by apply not_elem_of_nil in H2]. apply list_elem_of_singleton in H2 as ->. by apply Hnew in H1.
    + by apply (i_hands_one s I u v p).
  - apply I.
  - apply I.
  - apply I.
  - apply I.
  - apply I.
  - apply I.
  - apply I.
  - apply I.
Qed.
End onward.
End pick.

(** ** Across the switch *)

Lemma off_not_leaving s t : inv s -> off s t -> ~ leaving s t.
Proof.
  intros I [Ha Ho] (d & Hd & H). destruct (i_self s I d Hd) as (_ & E & _). destruct H as [H | [H _]].
  - pose proof (i_handoff s I d Hd) as Hh. destruct Hd as [Hd _]. destruct (kstack (task_at s (self (cpu_at s d)))) as [| [] ?]; simpl in Hh; try congruence.
    + assert (t = self (cpu_at s d)) as -> by congruence. lia.
    + destruct Hh as (p & Hp & _ & _ & E' & _). assert (p = t) as -> by congruence. lia.
  - subst t. destruct Hd as [Hd _]. lia.
Qed.

Section cross.
Context (s s' : sys) (c t n : Z) (I : inv s) (Hon : on s c) (Hself : self (cpu_at s c) = t).
Context (k : list frame) (Hk : kstack (task_at s t) = FSwitch n :: k).
Context (Hother : forall u, u <> t -> u <> n -> task_at s' u = task_at s u).
Context (Et : task_at s' t = set_kstack k (task_at s t)).
Context (En : core (set_oncpu c (task_at s n)) (task_at s' n)) (Ens : state (task_at s' n) = state (task_at s n)) (Enl : locked (task_at s' n) = true).
Context (Enk : kstack (task_at s' n) = FResume :: kstack (task_at s n)).
Context (Hcpu : forall d, d <> c -> cpu_at s' d = cpu_at s d).
Context (Ec : cpu_at s' c = set_self n (set_pgd (mm (task_at s n)) (set_current (Some n) (cpu_at s c)))).
Context (Hsq : sleep_queue s' = sleep_queue s) (Hlocks : locks s' = locks s) (Hreaper : init_reaper s' = init_reaper s).

Lemma cross_next : off s n /\ state (task_at s n) = TASK_STATE_RUNNING /\ tcpu (task_at s n) = c /\ n <> t.
Proof using I Hon Hself Hk.
  destruct (ex_frame s c t I Hon Hself _ _ Hk) as (H1 & H2 & _ & H3). split_and!; try done; [by rewrite H3, (run_tcpu s c t I Hon Hself) |].
  intros E. rewrite E in H1. by apply (run_not_off s c t I Hon Hself) in H1.
Qed.

Lemma cross_same v : alive (task_at s' v) = alive (task_at s v) /\ parent (task_at s' v) = parent (task_at s v) /\ children (task_at s' v) = children (task_at s v) /\
  state (task_at s' v) = state (task_at s v) /\ mm (task_at s' v) = mm (task_at s v) /\ tcpu (task_at s' v) = tcpu (task_at s v) /\
  is_init_task (task_at s' v) = is_init_task (task_at s v) /\ (v <> n -> oncpu (task_at s' v) = oncpu (task_at s v) /\ locked (task_at s' v) = locked (task_at s v)).
Proof.
  destruct (decide (v = t)) as [-> | Nt]; [by rewrite Et |]. destruct (decide (v = n)) as [-> | Nn]; [| by rewrite Hother].
  destruct En as [? ? ? ? ? ? ?]. done.
Qed.

Lemma cross_cpu d : handoff (cpu_at s' d) = handoff (cpu_at s d) /\ idle (cpu_at s' d) = idle (cpu_at s d) /\ online (cpu_at s' d) = online (cpu_at s d) /\
  run_queue (cpu_at s' d) = run_queue (cpu_at s d) /\ nr_running (cpu_at s' d) = nr_running (cpu_at s d) /\ preempt_count (cpu_at s' d) = preempt_count (cpu_at s d) /\
  (d <> c -> self (cpu_at s' d) = self (cpu_at s d)).
Proof. destruct (decide (d = c)) as [-> | N]; [by rewrite Ec | by rewrite Hcpu]. Qed.

Lemma cross_oncpu : oncpu (task_at s' n) = c.
Proof. by destruct En. Qed.

Lemma cross_on d : on s' d <-> on s d.
Proof. unfold on. by rewrite (proj1 (proj2 (proj2 (cross_cpu d)))). Qed.

Lemma cross_idle_of v : idle_of s' v <-> idle_of s v.
Proof. unfold idle_of. split; intros [d H]; exists d; by rewrite (proj1 (proj2 (cross_cpu d))) in *. Qed.

Lemma cross_hands v : kstack (task_at s' v) = (if decide (v = n) then [FResume] else []) ++ (if decide (v = t) then k else kstack (task_at s v)).
Proof.
  destruct cross_next as (_ & _ & _ & N). destruct (decide (v = t)) as [-> | Nt].
  - rewrite decide_False by congruence. by rewrite Et.
  - destruct (decide (v = n)) as [-> | Nn]; [by rewrite Enk | by rewrite Hother].
Qed.

Lemma cross_hand v p : p ∈ hands (kstack (task_at s' v)) <-> p ∈ hands (if decide (v = t) then k else kstack (task_at s v)).
Proof. rewrite cross_hands. unfold hands. rewrite bind_app, elem_of_app. case_decide; simpl; rewrite elem_of_nil; tauto. Qed.

Lemma cross_held v : held (kstack (task_at s' v)) = held (kstack (task_at s v)).
Proof. rewrite cross_hands. unfold held. rewrite bind_app. destruct (decide (v = t)) as [-> | N]; [rewrite Hk |]; case_decide; done. Qed.

Lemma cross_hand_ne v p : alive (task_at s v) = true -> p ∈ hands (kstack (task_at s' v)) -> p <> n /\ p ∈ hands (kstack (task_at s v)).
Proof.
  intros Ha Hp. apply cross_hand in Hp. pose proof (run_alive s c t I Hon Hself) as Ht. pose proof (i_hands s I t Ht) as Hn. rewrite Hk in Hn.
  destruct (decide (v = t)) as [-> | N].
  - rewrite Hk. split; [| by right]. intros ->. by apply list.NoDup_cons in Hn as [? _].
  - split; [| done]. intros ->. apply N. apply (i_hands_one s I v t n Ha Ht Hp). rewrite Hk. by left.
Qed.

Lemma cross_leaving v : leaving s' v <-> leaving s v.
Proof.
  destruct cross_next as (Ho & _ & _ & N). pose proof (run_handoff s c t I Hon Hself) as Hh. pose proof (i_handoff s I c Hon) as Hc. rewrite Hself, Hk in Hc. simpl in Hc.
  unfold leaving. split; intros (d & Hd & H); exists d; destruct (cross_cpu d) as (E1 & _ & _ & _ & _ & _ & E2); rewrite ?cross_on, E1 in *; (split; [done |]).
  - destruct H as [H | [H Hx]]; [by left |]. destruct (decide (d = c)) as [-> | Nd].
    + rewrite Ec in H. simpl in H. subst v. by rewrite Enk in Hx.
    + right. rewrite E2 in H by done. split; [done |]. assert (v <> t) by (intros ->; by apply (run_one s c t I Hon Hself) in H).
      assert (v <> n) by (intros ->; apply (run_not_off s d n I Hd H Ho)). by rewrite Hother in Hx.
  - destruct H as [H | [H Hx]]; [by left |]. destruct (decide (d = c)) as [-> | Nd]; [assert (v = t) as -> by congruence; by rewrite Hk in Hx |].
    right. rewrite E2 by done. split; [done |]. assert (v <> t) by (intros ->; by apply (run_one s c t I Hon Hself) in H).
    assert (v <> n) by (intros ->; apply (run_not_off s d n I Hd H Ho)). by rewrite Hother.
Qed.

Lemma cross_off v : off s' v <-> off s v /\ v <> n.
Proof.
  unfold off. destruct (cross_same v) as (-> & _ & _ & _ & _ & _ & _ & E). destruct (decide (v = n)) as [-> | N]; [| rewrite (proj1 (E N)); tauto].
  rewrite cross_oncpu. destruct Hon. lia || (split; intros []; [lia | done]).
Qed.

Lemma cross_frame u f : alive (task_at s u) = true -> f ∈ kstack (task_at s' u) -> frame_ok s' u f.
Proof.
  intros Ha Hf. destruct cross_next as (Ho & _ & Hnc & N).
  assert (Hp : forall p, p ∈ hands1 f -> p <> n).
  { intros p Hp. apply (cross_hand_ne u p Ha). apply list_elem_of_bind. eauto. }
  assert (Hold : f = FResume \/ f ∈ kstack (task_at s u) /\ (u = t -> f ∈ k)).
  { rewrite cross_hands in Hf. apply elem_of_app in Hf as [Hf | Hf]; [case_decide; [left; by apply list_elem_of_singleton in Hf | by apply not_elem_of_nil in Hf] |].
    right. destruct (decide (u = t)) as [-> | Nu]; [split; [rewrite Hk; by right | done] | done]. }
  destruct Hold as [-> | [Hold Hkt]]; [done |]. pose proof (i_frames s I u f Ha Hold) as Hok.
  assert (Hoff : forall p, p ∈ hands1 f -> off s p -> off s' p) by (intros p Hp' H; apply cross_off; auto).
  assert (Hlist : forall p, on_no_list s p -> on_no_list s' p).
  { intros p H v Hv. destruct (cross_same v) as (E1 & _ & E2 & _). rewrite E2. apply H. congruence. }
  destruct f; simpl in *; try done; rewrite ?cross_idle_of, ?Hreaper, ?(proj1 (proj2 (proj2 (cross_same _)))) in *; try done.
  all: match goal with |- off _ ?p /\ _ => destruct (cross_same p) as (_ & _ & _ & E1 & _ & E2 & E3 & _); rewrite ?E1, ?E2, ?E3 end.
  all: rewrite ?cross_idle_of; destruct Hok as (H1 & H2 & H3); split_and?; try tauto; try (apply Hoff; [by left | done]).
  all: try (apply Hlist; tauto).
  - intros Hi. specialize (proj1 H3 Hi) as E. destruct (cross_cpu (tcpu (task_at s next))) as (_ & _ & _ & _ & _ & _ & E').
    destruct (decide (tcpu (task_at s next) = c)) as [Ex | Nx]; [| by rewrite E']. exfalso. rewrite Ex, Hself in E. subst u.
    pose proof (ex_stack s c t I Hon Hself) as Hs. rewrite Hk in Hs. simpl in Hs. rewrite !andb_true_iff in Hs. destruct Hs as [[_ Hs] _].
    by apply (resumable_no_switch _ _ next Hs), Hkt.
  - destruct (cross_same u) as (_ & _ & _ & _ & _ & -> & _). apply H3.
Qed.

Lemma inv_cross : inv s'.
Proof.
  destruct cross_next as (Hoff & Hns & Hnc & N). pose proof (run_alive s c t I Hon Hself) as Ht. destruct (i_off s I n Hoff) as [Hnl Hnr]. rewrite Hns in Hnr.
  pose proof (ex_stack s c t I Hon Hself) as Ho. rewrite Hk in Ho. simpl in Ho. rewrite !andb_true_iff in Ho. destruct Ho as [[Hl Hr] _].
  pose proof (i_handoff s I c Hon) as Hh. rewrite Hself, Hk in Hh. simpl in Hh.
  assert (Hd0 : preempt_count (cpu_at s c) = 0) by (rewrite (ex_depth s c t I Hon Hself), Hk; simpl; by apply resumable_depth in Hr).
  assert (Hone : forall d, on s d -> d <> c -> self (cpu_at s d) <> t /\ self (cpu_at s d) <> n).
  { intros d Hd Nd. split; [intros E; by apply (run_one s c t I Hon Hself) in E |]. intros E. by apply (run_not_off s d n I Hd E). }
  split.
  - intros v. destruct (cross_same v) as (-> & _ & _ & _ & _ & -> & _). apply I.
  - intros d Hd%cross_on. destruct (decide (d = c)) as [-> | Nd].
    + rewrite Ec. simpl. destruct (cross_same n) as (-> & _ & _ & -> & _ & -> & _). rewrite cross_oncpu, Enl, Enk, Hns. destruct Hoff. split_and!; try done; exact Hnr.
    + rewrite Hcpu by done. destruct (Hone d Hd Nd). rewrite Hother by done. by apply I.
  - intros d Hd%cross_on. destruct (decide (d = c)) as [-> | Nd].
    + rewrite Ec. simpl. rewrite Enk, Hd0. simpl. split_and!; [by rewrite (resumable_depth _ _ Hnr) | | done]. by destruct (cross_same n) as (_ & _ & _ & _ & -> & _).
    + rewrite Hcpu by done. destruct (Hone d Hd Nd). rewrite Hother by done. by apply I.
  - intros d Hd%cross_on. destruct (decide (d = c)) as [-> | Nd].
    + rewrite Ec. simpl. rewrite Enk. simpl. exists t. rewrite Et. simpl. split_and!; try done; by apply (i_self s I c) || (rewrite <- Hself; by apply (i_self s I c)).
    + rewrite Hcpu by done. destruct (Hone d Hd Nd). rewrite (Hother (self _)) by done. pose proof (i_handoff s I d Hd) as H1.
      destruct (head (kstack (task_at s (self (cpu_at s d))))) as [[] |]; try done. destruct H1 as (p & H1 & H2 & H3 & H4 & H5). exists p.
      assert (p <> t) by (intros ->; by rewrite (run_oncpu s c t I Hon Hself) in H4). assert (p <> n).
      { intros ->. destruct Hoff as [_ E]. rewrite E in H4. destruct Hd as [Hd _]. lia. }
      by rewrite Hother.
  - intros d v. rewrite (proj1 (proj2 (cross_cpu d))), cross_on. destruct (cross_same v) as (-> & _ & _ & -> & _ & -> & _). apply I.
  - intros d. rewrite (proj1 (proj2 (cross_cpu d))), cross_on. apply I.
  - intros v. destruct (decide (v = n)) as [-> | Nn].
    + intros _ _. rewrite cross_oncpu, cross_on, Ec. simpl. auto.
    + destruct (cross_same v) as (-> & _ & _ & _ & _ & _ & _ & E). destruct (E Nn) as [-> _]. intros H1 H2. rewrite cross_on. destruct (i_oncpu s I v H1 H2) as [H3 H4].
      split; [done |]. destruct (cross_cpu (oncpu (task_at s v))) as (-> & _ & _ & _ & _ & _ & E'). destruct (decide (oncpu (task_at s v) = c)) as [Ex | Nx].
      * right. rewrite Ex in *. destruct H4 as [H4 | H4]; [congruence | done].
      * by rewrite E'.
  - intros v [Hv Nv]%cross_off. assert (v <> t) by (intros ->; by apply (run_not_off s c t I Hon Hself) in Hv). rewrite Hother by done. by apply I.
  - intros d. destruct (cross_cpu d) as (_ & _ & _ & -> & -> & _). apply I.
  - intros d v Hd. rewrite (proj1 (proj2 (proj2 (proj2 (cross_cpu d))))). intros Hv. destruct (i_rq_task s I d v Hd Hv) as (H1 & H2 & H3 & H4 & H5 & H6).
    assert (Nv : v <> n) by (intros ->; apply (H5 t Ht); rewrite Hk; by left).
    destruct (cross_same v) as (-> & _ & _ & -> & _ & -> & _ & E). rewrite (proj1 (E Nv)), cross_leaving, cross_idle_of. split_and!; try done.
    intros u. destruct (cross_same u) as (-> & _). intros Hu Hx. by apply cross_hand_ne in Hx as [_ Hx]; [apply H5 in Hx |].
  - rewrite Hsq. apply I.
  - intros v. rewrite Hsq. intros Hv. destruct (i_sq_task s I v Hv) as (H1 & H2 & H3 & H4). assert (Nv : v <> n) by congruence.
    destruct (cross_same v) as (-> & _ & _ & -> & _ & _ & _ & E). destruct (E Nv) as [-> ->]. split_and!; try done. intros lk.
    rewrite cross_hands, (decide_False (P := v = n)) by done. simpl. case_decide; [| done]. pose proof (resumable_head _ _ Hr) as S. by destruct k as [| []].
  - intros v. destruct (cross_same v) as (-> & _ & _ & -> & _ & -> & _ & E). rewrite cross_leaving, cross_idle_of. intros H1 H2 H3.
    assert (Nv : v <> n). { intros ->. rewrite cross_oncpu in H3. destruct H3 as [H3 | H3]; [destruct Hon; lia | by apply off_not_leaving in H3]. }
    rewrite (proj1 (E Nv)) in H3. rewrite (proj1 (proj2 (proj2 (proj2 (cross_cpu (tcpu (task_at s v))))))).
    destruct (i_running s I v H1 H2 H3) as [? | [? | (u & Hu & H4)]]; [by left | by right; left |]. right; right. exists u.
    rewrite (proj1 (cross_same u)), cross_hand. split; [done |]. case_decide as Eu; [| done]. subst u. rewrite Hk in H4. by apply elem_of_cons in H4 as [? | ?].
  - intros v. destruct (cross_same v) as (-> & _ & _ & -> & _). rewrite Hsq. intros H1 H2. destruct (i_sleeping s I v H1 H2) as [? | [lk H]]; [by left |].
    right. exists lk. assert (v <> t) by (intros ->; by rewrite Hk in H). assert (v <> n) by congruence. by rewrite Hother.
  - intros u f. rewrite (proj1 (cross_same u)). apply cross_frame.
  - intros u. rewrite (proj1 (cross_same u)). intros Hu. rewrite cross_hands. unfold hands. rewrite bind_app.
    replace ((if decide (u = n) then [FResume] else []) ≫= hands1) with (@nil Z) by (by case_decide). simpl.
    pose proof (i_hands s I u Hu) as Hn. case_decide as Eu; [| done]. subst u. rewrite Hk in Hn. by apply list.NoDup_cons in Hn as [_ ?].
  - intros u v p. rewrite (proj1 (cross_same u)), (proj1 (cross_same v)). intros Hu Hv H1 H2. apply cross_hand_ne in H1 as [_ H1]; [| done].
    apply cross_hand_ne in H2 as [_ H2]; [| done]. by apply (i_hands_one s I u v p).
  - intros u. rewrite (proj1 (cross_same u)), cross_held. apply I.
  - intros u v lk. rewrite (proj1 (cross_same u)), (proj1 (cross_same v)), !cross_held. apply I.
  - intros u lk. rewrite (proj1 (cross_same u)), cross_held, Hlocks. apply I.
  - intros v ch. destruct (cross_same v) as (-> & _ & -> & _). destruct (cross_same ch) as (-> & -> & _ & _ & _ & _ & -> & _). apply I.
  - intros v. destruct (cross_same v) as (-> & _ & -> & _). apply I.
  - intros v. destruct (cross_same v) as (-> & _ & -> & -> & _). rewrite Hreaper. apply I.
  - intros r. rewrite Hreaper, (proj1 (cross_same r)). apply I.
  - intros d. rewrite cross_on, Hreaper. apply I.
Qed.
End cross.

Lemma frame_mono s s' u f : frame_ok s u f ->
  (forall p, p ∈ hands1 f -> off s p -> off s' p /\ state (task_at s' p) = state (task_at s p) /\ tcpu (task_at s' p) = tcpu (task_at s p) /\
     is_init_task (task_at s' p) = is_init_task (task_at s p)) ->
  (forall p, idle_of s' p -> idle_of s p) -> (forall d, self (cpu_at s' d) = self (cpu_at s d)) ->
  (forall n, f = FSwitch n -> tcpu (task_at s' u) = tcpu (task_at s u)) -> children (task_at s' u) = children (task_at s u) -> init_reaper s' = init_reaper s -> (forall p, p ∈ hands1 f -> on_no_list s p -> on_no_list s' p) -> frame_ok s' u f.
Proof.
  intros Hok Hp Hi Hs Hu Hc Hr Hl.
  assert (Hidle : forall p, ~ idle_of s p -> ~ idle_of s' p) by auto.
  destruct f; simpl in *; try done; try (rewrite (Hu _ eq_refl)); rewrite ?Hc, ?Hr; auto; try (destruct Hok as (H1 & H2); split_and!; try tauto; auto; fail);
    try (destruct Hok as (H1 & H2 & H3); split_and!; try tauto; auto; fail).
  all: destruct Hok as (H1 & H2 & H3).
  all: match goal with |- off _ ?p /\ _ => destruct (Hp p ltac:(by left) H1) as (E1 & E2 & E3 & E4); specialize (Hl p ltac:(by left)); rewrite ?E2, ?E3, ?E4 end.
  all: rewrite ?Hs; split_and!; try done; try tauto; auto.
  all: destruct H3; auto; split_and?; auto.
  all: tauto || (apply Hl; tauto) || (intros ?; tauto).
Qed.

Section arrive.
Context (s s' : sys) (c t p : Z) (I : inv s) (Hon : on s c) (Hself : self (cpu_at s c) = t).
Context (k fs : list frame) (Hk : kstack (task_at s t) = FResume :: k) (Hp : handoff (cpu_at s c) = Some p).
Context (Hother : forall u, u <> t -> u <> p -> task_at s' u = task_at s u).
Context (Et : task_at s' t = set_kstack (fs ++ k) (task_at s t)) (Ep : task_at s' p = set_locked false (set_oncpu (-1) (task_at s p))).
Context (Hcpu : forall d, d <> c -> cpu_at s' d = cpu_at s d) (Ec : cpu_at s' c = set_handoff None (cpu_at s c)).
Context (Hsq : sleep_queue s' = sleep_queue s) (Hlocks : locks s' = locks s) (Hreaper : init_reaper s' = init_reaper s).
Context (Hfs : fs = [] \/ exists q, fs = [FWakeSpec q]).

Lemma arrive_prev : p <> t /\ alive (task_at s p) = true /\ oncpu (task_at s p) = c /\ tcpu (task_at s p) = c /\ resumable (state (task_at s p)) (kstack (task_at s p)) = true.
Proof. pose proof (i_handoff s I c Hon) as H. rewrite Hself, Hk in H. simpl in H. destruct H as (q & E & ? & ? & ? & ? & ? & ?). assert (q = p) as -> by congruence. done. Qed.

Lemma arrive_same v : alive (task_at s' v) = alive (task_at s v) /\ parent (task_at s' v) = parent (task_at s v) /\ children (task_at s' v) = children (task_at s v) /\
  state (task_at s' v) = state (task_at s v) /\ mm (task_at s' v) = mm (task_at s v) /\ tcpu (task_at s' v) = tcpu (task_at s v) /\
  is_init_task (task_at s' v) = is_init_task (task_at s v) /\ (v <> p -> oncpu (task_at s' v) = oncpu (task_at s v) /\ locked (task_at s' v) = locked (task_at s v)) /\
  (v <> t -> kstack (task_at s' v) = kstack (task_at s v)).
Proof.
  destruct (decide (v = t)) as [-> | Nt]; [by rewrite Et |]. destruct (decide (v = p)) as [-> | Nn]; [by rewrite Ep | by rewrite Hother].
Qed.

Lemma arrive_cpu d : self (cpu_at s' d) = self (cpu_at s d) /\ idle (cpu_at s' d) = idle (cpu_at s d) /\ online (cpu_at s' d) = online (cpu_at s d) /\
  run_queue (cpu_at s' d) = run_queue (cpu_at s d) /\ nr_running (cpu_at s' d) = nr_running (cpu_at s d) /\ preempt_count (cpu_at s' d) = preempt_count (cpu_at s d) /\
  pgd (cpu_at s' d) = pgd (cpu_at s d) /\ current (cpu_at s' d) = current (cpu_at s d) /\ (d <> c -> handoff (cpu_at s' d) = handoff (cpu_at s d)).
Proof. destruct (decide (d = c)) as [-> | N]; [by rewrite Ec | by rewrite Hcpu]. Qed.

Lemma arrive_on d : on s' d <-> on s d.
Proof. unfold on. by rewrite (proj1 (proj2 (proj2 (arrive_cpu d)))). Qed.

Lemma arrive_idle_of v : idle_of s' v <-> idle_of s v.
Proof. unfold idle_of. split; intros [d H]; exists d; by rewrite (proj1 (proj2 (arrive_cpu d))) in *. Qed.

Lemma arrive_k : resumable TASK_STATE_RUNNING k = true /\ state (task_at s t) = TASK_STATE_RUNNING /\ locked (task_at s t) = true.
Proof.
  pose proof (ex_stack s c t I Hon Hself) as Ho. rewrite Hk in Ho. simpl in Ho. rewrite !andb_true_iff, bool_decide_eq_true in Ho. destruct Ho as [[Hs Hl] Hr].
  by rewrite Hs in Hr.
Qed.

Lemma arrive_resuming : resuming (fs ++ k) = true.
Proof. destruct arrive_k as (H & _). apply resumable_resuming in H. by destruct Hfs as [-> | [q ->]]. Qed.

Lemma arrive_stack v : hands (kstack (task_at s' v)) = hands (kstack (task_at s v)) /\ held (kstack (task_at s' v)) = held (kstack (task_at s v)).
Proof.
  destruct (decide (v = t)) as [-> | N]; [| by rewrite (proj2 (proj2 (proj2 (proj2 (proj2 (proj2 (proj2 (proj2 (arrive_same v)))))))) N)].
  rewrite Et, Hk. simpl. by destruct Hfs as [-> | [q ->]].
Qed.

Lemma arrive_leaving v : leaving s' v <-> leaving s v /\ v <> p.
Proof.
  destruct arrive_prev as (N & Ha & Ho & _ & _). destruct (resuming_on _ arrive_resuming) as [_ S].
  assert (Hcase : forall d, on s d -> (handoff (cpu_at s' d) = Some v \/ self (cpu_at s d) = v /\ head (kstack (task_at s' v)) = Some FPick) <->
                    (handoff (cpu_at s d) = Some v \/ self (cpu_at s d) = v /\ head (kstack (task_at s v)) = Some FPick) /\ v <> p).
  { intros d Hd. destruct (arrive_same v) as (_ & _ & _ & _ & _ & _ & _ & _ & Ek). destruct (decide (d = c)) as [-> | Nd].
    - rewrite Ec. simpl. rewrite Hp. split; [intros [? | [<- Hx]]; [done |] | intros [[? | [<- Hx]] Nv]; [congruence |]].
      + exfalso. rewrite Hself, Et in Hx. simpl in Hx. by destruct (fs ++ k) as [| []].
      + exfalso. by rewrite Hself, Hk in Hx.
    - rewrite (proj2 (proj2 (proj2 (proj2 (proj2 (proj2 (proj2 (proj2 (arrive_cpu d)))))))) Nd). destruct (decide (v = t)) as [-> | Nt].
      + split; [intros H; split; [| done] | intros [H _]]; (destruct H as [H | [H _]]; [by left | by apply (run_one s c t I Hon Hself) in H]).
      + rewrite Ek by done. split; [intros H; split; [done |] | by intros [H _]]. intros ->. destruct H as [H | [H _]].
        * pose proof (i_handoff s I d Hd) as Hh. destruct (kstack (task_at s (self (cpu_at s d)))) as [| [] ?]; simpl in Hh; try congruence.
          -- destruct (i_self s I d Hd) as (_ & E & _). congruence.
          -- destruct Hh as (q & Hq & _ & _ & Hoq & _). congruence.
        * destruct (i_self s I d Hd) as (_ & E & _). congruence. }
  unfold leaving. split.
  - intros (d & Hd%arrive_on & H). rewrite (proj1 (arrive_cpu d)) in H. apply Hcase in H as [H ?]; eauto.
  - intros [(d & Hd & H) Nv]. exists d. rewrite arrive_on, (proj1 (arrive_cpu d)). split; [done |]. by apply Hcase.
Qed.

Lemma arrive_off v : off s' v <-> off s v \/ v = p.
Proof.
  destruct arrive_prev as (N & Ha & Ho & _ & _). unfold off. destruct (arrive_same v) as (-> & _ & _ & _ & _ & _ & _ & E & _).
  destruct (decide (v = p)) as [-> | Nv]; [rewrite Ep; simpl; tauto | rewrite (proj1 (E Nv)); tauto].
Qed.

Lemma inv_arrive : inv s'.
Proof.
  destruct arrive_prev as (N & Hpa & Hpo & Hpc & Hpr). pose proof (run_alive s c t I Hon Hself) as Ht. destruct arrive_k as (Hr & Hst & Hl).
  destruct (resuming_on _ arrive_resuming) as [Hro S].
  assert (Hone : forall d, on s d -> d <> c -> self (cpu_at s d) <> t /\ self (cpu_at s d) <> p).
  { intros d Hd Nd. split; [intros E; by apply (run_one s c t I Hon Hself) in E |]. intros E. destruct (i_self s I d Hd) as (_ & E' & _). congruence. }
  split.
  - intros v. destruct (arrive_same v) as (-> & _ & _ & _ & _ & -> & _). apply I.
  - intros d. rewrite arrive_on, (proj1 (arrive_cpu d)). intros Hd. destruct (decide (d = c)) as [-> | Nd]; [| destruct (Hone d Hd Nd); rewrite Hother by done; by apply I].
    rewrite Hself, Et. simpl. rewrite Hst, Hl. destruct (i_self s I c Hd) as (? & ? & ? & _). by rewrite Hself in *.
  - intros d. rewrite arrive_on. destruct (arrive_cpu d) as (-> & _ & _ & _ & _ & -> & -> & -> & _). intros Hd.
    destruct (decide (d = c)) as [-> | Nd]; [| destruct (Hone d Hd Nd); rewrite Hother by done; by apply I].
    pose proof (i_cpu s I c Hd) as (H1 & H2 & H3). rewrite Hself, Et, Hk in *. simpl in *. split_and!; [| done |].
    + rewrite H1. by destruct Hfs as [-> | [q ->]].
    + rewrite H3. by destruct (fs ++ k) as [| []].
  - intros d. rewrite arrive_on, (proj1 (arrive_cpu d)). intros Hd. destruct (decide (d = c)) as [-> | Nd].
    + rewrite Hself, Et, Ec. simpl. by destruct (fs ++ k) as [| []].
    + rewrite Hcpu by done. destruct (Hone d Hd Nd). rewrite (Hother (self _)) by done. pose proof (i_handoff s I d Hd) as H1.
      destruct (head (kstack (task_at s (self (cpu_at s d))))) as [[] |]; try done. destruct H1 as (q & H1 & H2 & H3 & H4 & H5). exists q.
      assert (q <> t) by (intros ->; by rewrite (run_oncpu s c t I Hon Hself) in H4). assert (q <> p) by congruence. by rewrite Hother.
  - intros d v. rewrite (proj1 (proj2 (arrive_cpu d))), arrive_on. destruct (arrive_same v) as (-> & _ & _ & -> & _ & -> & _). apply I.
  - intros d. rewrite (proj1 (proj2 (arrive_cpu d))), arrive_on. apply I.
  - intros v. destruct (decide (v = p)) as [-> | Nv]; [by rewrite Ep |].
    destruct (arrive_same v) as (-> & _ & _ & _ & _ & _ & _ & E & _). destruct (E Nv) as [-> _]. intros H1 H2. rewrite arrive_on. destruct (i_oncpu s I v H1 H2) as [H3 H4].
    split; [done |]. destruct (arrive_cpu (oncpu (task_at s v))) as (-> & _ & _ & _ & _ & _ & _ & _ & E'). destruct (decide (oncpu (task_at s v) = c)) as [Ex | Nx].
    + left. rewrite Ex in *. destruct H4 as [H4 | H4]; [done | congruence].
    + by rewrite E'.
  - intros v [Hv | ->]%arrive_off; [| rewrite Ep; done]. assert (v <> t) by (intros ->; by apply (run_not_off s c t I Hon Hself) in Hv).
    assert (v <> p) by (intros ->; destruct Hv as [_ Hv]; destruct Hon; lia). rewrite Hother by done. by apply I.
  - intros d. destruct (arrive_cpu d) as (_ & _ & _ & -> & -> & _). apply I.
  - intros d v Hd. rewrite (proj1 (proj2 (proj2 (proj2 (arrive_cpu d))))). intros Hv. destruct (i_rq_task s I d v Hd Hv) as (H1 & H2 & H3 & H4 & H5 & H6).
    destruct (arrive_same v) as (-> & _ & _ & -> & _ & -> & _ & E & _). rewrite arrive_leaving, arrive_idle_of. split_and!; try done.
    + intros u. rewrite (proj1 (arrive_same u)), (proj1 (arrive_stack u)). apply H5.
    + destruct (decide (v = p)) as [-> | Nv]; [left; by rewrite Ep |]. rewrite (proj1 (E Nv)). tauto.
  - rewrite Hsq. apply I.
  - intros v. rewrite Hsq. intros Hv. destruct (i_sq_task s I v Hv) as (H1 & H2 & H3 & H4). assert (Nt : v <> t) by congruence.
    destruct (arrive_same v) as (-> & _ & _ & -> & _ & _ & _ & E & Ek). rewrite Ek by done. split_and!; try done.
    destruct (decide (v = p)) as [-> | Nv]; [left; by rewrite Ep |]. by destruct (E Nv) as [-> ->].
  - intros v. destruct (arrive_same v) as (-> & _ & _ & -> & _ & -> & _ & E & _). rewrite arrive_leaving, arrive_idle_of. intros H1 H2 H3.
    rewrite (proj1 (proj2 (proj2 (proj2 (arrive_cpu (tcpu (task_at s v))))))).
    assert (H3' : oncpu (task_at s v) = -1 \/ leaving s v).
    { destruct (decide (v = p)) as [-> | Nv]; [right; exists c; split; [done | by left] |]. rewrite (proj1 (E Nv)) in H3. tauto. }
    destruct (i_running s I v H1 H2 H3') as [? | [? | (u & Hu & H4)]]; [by left | by right; left |]. right; right. exists u.
    by rewrite (proj1 (arrive_same u)), (proj1 (arrive_stack u)).
  - intros v. destruct (arrive_same v) as (-> & _ & _ & -> & _ & _ & _ & _ & Ek). rewrite Hsq. intros H1 H2. destruct (i_sleeping s I v H1 H2) as [? | [lk H]]; [by left |].
    right. exists lk. rewrite Ek; [done |]. congruence.
  - intros u f. rewrite (proj1 (arrive_same u)). intros Hu Hf. assert (Hold : f ∈ kstack (task_at s u) \/ exists q, f = FWakeSpec q).
    { destruct (decide (u = t)) as [-> | Nu]; [| rewrite (proj2 (proj2 (proj2 (proj2 (proj2 (proj2 (proj2 (proj2 (arrive_same u)))))))) Nu) in Hf; by left].
      rewrite Et in Hf. simpl in Hf. apply elem_of_app in Hf as [Hf | Hf]; [| left; rewrite Hk; by right]. right.
      destruct Hfs as [-> | [q ->]]; [by apply not_elem_of_nil in Hf | apply list_elem_of_singleton in Hf as ->; by exists q]. }
    destruct Hold as [Hold | [q ->]]; [| done]. apply (frame_mono s s' u f (i_frames s I u f Hu Hold)).
    + intros q _ Hq. rewrite arrive_off. destruct (arrive_same q) as (_ & _ & _ & ? & _ & ? & ? & _). auto.
    + intros q. by rewrite arrive_idle_of.
    + intros d. by destruct (arrive_cpu d).
    + by destruct (arrive_same u) as (_ & _ & _ & _ & _ & ? & _).
    + by destruct (arrive_same u) as (_ & _ & ? & _).
    + done.
    + intros q _ H v. destruct (arrive_same v) as (-> & _ & -> & _). apply H.
  - intros u. rewrite (proj1 (arrive_same u)), (proj1 (arrive_stack u)). apply I.
  - intros u v q. rewrite (proj1 (arrive_same u)), (proj1 (arrive_same v)), (proj1 (arrive_stack u)), (proj1 (arrive_stack v)). apply I.
  - intros u. rewrite (proj1 (arrive_same u)), (proj2 (arrive_stack u)). apply I.
  - intros u v lk. rewrite (proj1 (arrive_same u)), (proj1 (arrive_same v)), (proj2 (arrive_stack u)), (proj2 (arrive_stack v)). apply I.
  - intros u lk. rewrite (proj1 (arrive_same u)), (proj2 (arrive_stack u)), Hlocks. apply I.
  - intros v ch. destruct (arrive_same v) as (-> & _ & -> & _). destruct (arrive_same ch) as (-> & -> & _ & _ & _ & _ & -> & _). apply I.
  - intros v. destruct (arrive_same v) as (-> & _ & -> & _). apply I.
  - intros v. destruct (arrive_same v) as (-> & _ & -> & -> & _). rewrite Hreaper. apply I.
  - intros r. rewrite Hreaper, (proj1 (arrive_same r)). apply I.
  - intros d. rewrite arrive_on, Hreaper. apply I.
Qed.
End arrive.

(** ** The running task deals with another one, [p], that is not running *)

Section deal.
Context (s s' : sys) (c t p : Z) (I : inv s) (Hon : on s c) (Hself : self (cpu_at s c) = t) (Hpt : p <> t).
Context (k k' : list frame) (Hk : kstack (task_at s t) = k) (Hk' : kstack (task_at s' t) = k').
Context (Hother : forall u, u <> t -> u <> p -> task_at s' u = task_at s u).
Context (Ealive : alive (task_at s' t) = alive (task_at s t)) (Eparent : parent (task_at s' t) = parent (task_at s t)) (Estate : state (task_at s' t) = state (task_at s t))
  (Emm : mm (task_at s' t) = mm (task_at s t)) (Eoncpu : oncpu (task_at s' t) = oncpu (task_at s t)) (Etcpu : tcpu (task_at s' t) = tcpu (task_at s t))
  (Einit : is_init_task (task_at s' t) = is_init_task (task_at s t)) (Elocked : locked (task_at s' t) = locked (task_at s t)).
Context (Hrun : state (task_at s t) = TASK_STATE_RUNNING).
Context (Hstill : still k) (Hstill' : still k') (Hdepth : depth k' = depth k) (Hok : on_stack TASK_STATE_RUNNING (locked (task_at s t)) k' = true).
(* the other task, before and after *)
Context (Hp0 : alive (task_at s p) = true -> oncpu (task_at s p) = -1) (Hpi : ~ idle_of s p).
Context (Hp1 : alive (task_at s' p) = true -> 0 <= p < NR_TASKS /\ 0 <= tcpu (task_at s' p) < MAX_CPUS /\ oncpu (task_at s' p) = -1 /\ locked (task_at s' p) = false /\
  resumable (state (task_at s' p)) (kstack (task_at s' p)) = true /\ state (task_at s' p) <> TASK_STATE_SLEEPING).
Context (Hp2 : alive (task_at s' p) = true ->
  alive (task_at s p) = true /\ kstack (task_at s' p) = kstack (task_at s p) /\ children (task_at s' p) = children (task_at s p) /\
    is_init_task (task_at s' p) = is_init_task (task_at s p) /\ (state (task_at s' p) = TASK_STATE_ZOMBIE -> state (task_at s p) = TASK_STATE_ZOMBIE) \/
  alive (task_at s p) = false /\ kstack (task_at s' p) = [FNew; FRun true [] 0] /\ children (task_at s' p) = [] /\ state (task_at s' p) <> TASK_STATE_ZOMBIE).
Context (Hpr : init_reaper s = Some p -> alive (task_at s' p) = true) (Hpd : alive (task_at s' p) = false -> hands (kstack (task_at s p)) = []).
(* queues *)
Context (Hcpu : forall d, cpu_near (cpu_at s d) (cpu_at s' d) /\ handoff (cpu_at s' d) = handoff (cpu_at s d) /\ current (cpu_at s' d) = current (cpu_at s d) /\
  pgd (cpu_at s' d) = pgd (cpu_at s d) /\ preempt_count (cpu_at s' d) = preempt_count (cpu_at s d)).
Context (joined inhand : bool).
Context (Hrq : forall d, 0 <= d < MAX_CPUS -> NoDup (run_queue (cpu_at s' d)) /\ nr_running (cpu_at s' d) = Z.of_nat (length (run_queue (cpu_at s' d)))).
Context (Hrq' : forall d v, 0 <= d < MAX_CPUS -> v ∈ run_queue (cpu_at s' d) <-> (v ∈ run_queue (cpu_at s d) \/ joined = true /\ d = tcpu (task_at s' p) /\ v = p)).
Context (Hprq : forall d, 0 <= d < MAX_CPUS -> p ∉ run_queue (cpu_at s d)).
Context (Hsq : NoDup (sleep_queue s')) (Hsq' : forall v, v ∈ sleep_queue s' <-> v ∈ sleep_queue s /\ v <> p).
(* hands *)
Context (Hhd : NoDup (hands k')) (Hhd' : forall v, v ∈ hands k' <-> (v ∈ hands k /\ v <> p \/ inhand = true /\ v = p)).
Context (Hhp : forall u, u <> t -> alive (task_at s u) = true -> p ∉ hands (kstack (task_at s u))).
Context (Hplace : alive (task_at s' p) = true -> state (task_at s' p) = TASK_STATE_RUNNING -> joined = true \/ inhand = true).
Context (Hjoin : joined = true -> alive (task_at s' p) = true /\ state (task_at s' p) = TASK_STATE_RUNNING /\ inhand = false).
Context (Hframes : forall f, f ∈ k' -> frame_ok s' t f \/ (f ∈ k /\ ~ p ∈ hands1 f /\ children (task_at s' t) = children (task_at s t))).
(* spin locks *)
Context (Hheld : NoDup (held k')) (Hreaper : init_reaper s' = init_reaper s).
Context (Hheld1 : forall lk, lk ∈ held k' -> locks s' lk = true /\ lk ∈ held k) (Hheld2 : forall lk, locks s lk = true -> locks s' lk = true \/ lk ∈ held k).
(* families *)
Context (Hch : forall v, v ∈ children (task_at s' t) -> v ∈ children (task_at s t) \/ v = p) (Hchd : NoDup (children (task_at s' t))).
Context (Hchp : p ∈ children (task_at s' t) -> alive (task_at s' p) = true /\ parent (task_at s' p) = Some t /\ is_init_task (task_at s' p) = false).
Context (Hcho : forall u, alive (task_at s u) = true -> u <> t -> p ∈ children (task_at s u) ->
  alive (task_at s' p) = true /\ parent (task_at s' p) = parent (task_at s p) /\ is_init_task (task_at s' p) = is_init_task (task_at s p)).

Lemma deal_same v : v <> p -> alive (task_at s' v) = alive (task_at s v) /\ parent (task_at s' v) = parent (task_at s v) /\
  state (task_at s' v) = state (task_at s v) /\ mm (task_at s' v) = mm (task_at s v) /\ tcpu (task_at s' v) = tcpu (task_at s v) /\
  is_init_task (task_at s' v) = is_init_task (task_at s v) /\ oncpu (task_at s' v) = oncpu (task_at s v) /\ locked (task_at s' v) = locked (task_at s v) /\
  (v <> t -> children (task_at s' v) = children (task_at s v) /\ kstack (task_at s' v) = kstack (task_at s v)).
Proof. intros Np. destruct (decide (v = t)) as [-> | Nt]; [done | by rewrite Hother]. Qed.

Lemma deal_on d : on s' d <-> on s d.
Proof. unfold on. destruct (Hcpu d) as [[_ _ ->] _]. done. Qed.

Lemma deal_idle_of v : idle_of s' v <-> idle_of s v.
Proof. unfold idle_of. split; intros [d H]; exists d; destruct (Hcpu d) as [[_ E _] _]; congruence. Qed.

Lemma deal_self d : self (cpu_at s' d) = self (cpu_at s d).
Proof. by destruct (Hcpu d) as [[? _ _] _]. Qed.

Lemma deal_runs d : on s d -> self (cpu_at s d) <> p.
Proof. intros Hd E. destruct (i_self s I d Hd) as (H1 & H2 & _). rewrite E in *. destruct Hd as [Hd _]. specialize (Hp0 H1). lia. Qed.

Lemma deal_head d : on s d -> head (kstack (task_at s' (self (cpu_at s d)))) = head (kstack (task_at s (self (cpu_at s d)))) \/ d = c.
Proof.
  intros Hd. destruct (decide (d = c)) as [-> | N]; [by right | left].
  rewrite Hother; [done | intros E; by apply (run_one s c t I Hon Hself) in E | by apply deal_runs].
Qed.

Lemma deal_leaving v : v <> p -> leaving s' v <-> leaving s v.
Proof.
  intros Np. unfold leaving. split; intros (d & Hd & H); exists d; destruct (Hcpu d) as (_ & E & _); rewrite ?deal_on, ?deal_self, ?E in *; (split; [done |]);
    (destruct H as [H | [H Hx]]; [by left | right]); (split; [done |]).
  - destruct (decide (v = t)) as [-> | Nt]; [exfalso | by rewrite Hother in Hx]. rewrite Hk' in Hx. by destruct k' as [| []].
  - destruct (decide (v = t)) as [-> | Nt]; [exfalso | by rewrite Hother]. rewrite Hk in Hx. by destruct k as [| []].
Qed.

Lemma deal_not_leaving : ~ leaving s' p.
Proof.
  intros (d & Hd & H). rewrite deal_on in Hd. destruct (Hcpu d) as (_ & E & _). rewrite deal_self, E in H. destruct H as [H | [H _]]; [| by apply deal_runs in H].
  pose proof (i_handoff s I d Hd) as Hh. destruct (i_self s I d Hd) as (Ha & Ho & _).
  destruct (kstack (task_at s (self (cpu_at s d)))) as [| [] ?]; simpl in Hh; try congruence.
  - rewrite H in Hh. injection Hh as Hh. symmetry in Hh. by apply deal_runs in Hh.
  - destruct Hh as (q & Hq & _ & H1 & H2 & _). assert (q = p) as -> by congruence. specialize (Hp0 H1). destruct Hd as [Hd _]. lia.
Qed.

Lemma deal_hands u v : alive (task_at s' u) = true -> v ∈ hands (kstack (task_at s' u)) ->
  alive (task_at s u) = true /\ v ∈ hands (kstack (task_at s u)) /\ v <> p \/ u = t /\ v = p /\ inhand = true.
Proof.
  intros Hu Hv. destruct (decide (u = t)) as [-> | Nt].
  - rewrite Hk', Hhd' in Hv. rewrite Hk. rewrite Ealive in Hu. naive_solver.
  - assert (H : alive (task_at s u) = true /\ v ∈ hands (kstack (task_at s u))).
    { destruct (decide (u = p)) as [-> | Np]; [| by rewrite Hother in Hu, Hv].
      destruct (Hp2 Hu) as [(H1 & H2 & _) | (_ & H2 & _)]; rewrite H2 in Hv; [done |]. by apply not_elem_of_nil in Hv. }
    destruct H as [H1 H2]. left. split_and!; try done. intros ->. by apply (Hhp u) in H2.
Qed.

Lemma deal_hands_back u v : alive (task_at s u) = true -> v ∈ hands (kstack (task_at s u)) -> v <> p -> alive (task_at s' u) = true -> v ∈ hands (kstack (task_at s' u)).
Proof.
  intros Hu Hv Nv Hu'. destruct (decide (u = t)) as [-> | Nt]; [rewrite Hk', Hhd', <- Hk; by left |].
  destruct (decide (u = p)) as [-> | Np]; [| by rewrite Hother]. destruct (Hp2 Hu') as [(_ & -> & _) | (H & _)]; [done | congruence].
Qed.

Lemma deal_held u lk : alive (task_at s' u) = true -> lk ∈ held (kstack (task_at s' u)) -> alive (task_at s u) = true /\ lk ∈ held (kstack (task_at s u)).
Proof.
  intros Hu Hv. destruct (decide (u = t)) as [-> | Nt]; [rewrite Hk' in Hv; apply Hheld1 in Hv as [_ Hv]; rewrite Hk, <- Ealive; done |].
  destruct (decide (u = p)) as [-> | Np]; [| by rewrite Hother in Hu, Hv].
  destruct (Hp2 Hu) as [(H1 & H2 & _) | (_ & H2 & _)]; rewrite H2 in Hv; [done |]. by apply not_elem_of_nil in Hv.
Qed.

Lemma deal_no_list q : q <> p -> on_no_list s q -> on_no_list s' q.
Proof.
  intros Nq H u Hu Hin. destruct (decide (u = t)) as [-> | Nt].
  - destruct (Hch q Hin) as [Hin' | ->]; [| done]. revert Hin'. apply H. congruence.
  - destruct (decide (u = p)) as [-> | Np]; [| rewrite Hother in Hu, Hin by done; by apply H in Hin].
    destruct (Hp2 Hu) as [(H1 & _ & E & _) | (_ & _ & E & _)]; rewrite E in Hin; [by apply H in Hin | by apply not_elem_of_nil in Hin].
Qed.

Lemma deal_old_frame u f : alive (task_at s u) = true -> (forall n, f = FSwitch n -> u <> p) -> f ∈ kstack (task_at s u) -> p ∉ hands1 f ->
  children (task_at s' u) = children (task_at s u) -> frame_ok s' u f.
Proof.
  intros Hu Hc Hf Hnp Hchu. apply (frame_mono s s' u f (i_frames s I u f Hu Hf)); try done.
  - intros q Hq [H1 H2]. assert (Nq : q <> p) by congruence. destruct (deal_same q Nq) as (E1 & _ & ? & _ & ? & ? & E2 & _). split_and!; try done. split; congruence.
  - intros q. by rewrite deal_idle_of.
  - apply deal_self.
  - intros n E. apply Hc in E. by apply deal_same.
  - intros q Hq. apply deal_no_list. congruence.
Qed.

Lemma deal_frame u f : alive (task_at s' u) = true -> f ∈ kstack (task_at s' u) -> frame_ok s' u f.
Proof.
  intros Hu Hf. destruct (decide (u = t)) as [-> | Nt].
  - rewrite Hk' in Hf. destruct (Hframes f Hf) as [? | (H1 & H2 & H3)]; [done |]. rewrite <- Hk in H1. apply deal_old_frame; try done; congruence.
  - destruct (decide (u = p)) as [-> | Np].
    + destruct (Hp2 Hu) as [(H1 & H2 & H3 & _) | (_ & H2 & _)]; rewrite H2 in Hf.
      * apply deal_old_frame; try done.
        -- intros n -> _. destruct (i_off s I p (conj H1 (Hp0 H1))) as [_ Hr]. by eapply resumable_no_switch in Hf.
        -- intros Hin. apply (Hhp p Nt H1). apply list_elem_of_bind. eauto.
      * apply elem_of_cons in Hf as [-> | Hf]; [done |]. by apply list_elem_of_singleton in Hf as ->.
    + rewrite Hother in Hu, Hf by done. apply deal_old_frame; try done; [| by rewrite Hother]. intros Hin. apply (Hhp u Nt Hu). apply list_elem_of_bind. eauto.
Qed.

Lemma inv_deal : inv s'.
Proof.
  pose proof (run_alive s c t I Hon Hself) as Ht. pose proof (fun d => run_one s c t I Hon Hself d) as Hone.
  split.
  - intros v Hv. destruct (decide (v = p)) as [-> | Np]; [split; by apply Hp1 |]. destruct (deal_same v Np) as (E & _ & _ & _ & -> & _). apply I. congruence.
  - intros d. rewrite deal_on, deal_self. intros Hd. pose proof (deal_runs d Hd) as Np. destruct (i_self s I d Hd) as (H1 & H2 & H3 & H4).
    destruct (deal_same _ Np) as (-> & _ & -> & _ & -> & _ & -> & -> & E). split_and!; try done. destruct (decide (self (cpu_at s d) = t)) as [Es | Ns].
    + rewrite Es in *. by rewrite Hk', Hrun.
    + by rewrite (proj2 (E Ns)).
  - intros d. rewrite deal_on, deal_self. destruct (Hcpu d) as (_ & _ & -> & -> & ->). intros Hd. pose proof (deal_runs d Hd) as Np. destruct (i_cpu s I d Hd) as (H1 & H2 & H3).
    destruct (deal_same _ Np) as (_ & _ & _ & -> & _ & _ & _ & _ & E). destruct (decide (self (cpu_at s d) = t)) as [Es | Ns]; [| by rewrite (proj2 (E Ns))].
    rewrite Es in *. rewrite Hk in H1, H3. rewrite Hk', Hdepth. split_and!; try done. rewrite H3. by destruct k as [| []], k' as [| []].
  - intros d. rewrite deal_on, deal_self. destruct (Hcpu d) as (_ & -> & _). intros Hd. pose proof (deal_runs d Hd) as Np. pose proof (i_handoff s I d Hd) as H.
    destruct (deal_same _ Np) as (_ & _ & _ & _ & _ & _ & _ & _ & E). destruct (decide (self (cpu_at s d) = t)) as [Es | Ns].
    + rewrite Es, Hk in H. rewrite Es, Hk'. by destruct k as [| []], k' as [| []].
    + rewrite (proj2 (E Ns)). destruct (head (kstack (task_at s (self (cpu_at s d))))) as [[] |]; try done. destruct H as (q & H1 & H2 & H3 & H4 & H5 & H6 & H7). exists q.
      assert (Nq : q <> p). { intros ->. specialize (Hp0 H3). destruct Hd as [Hd _]. lia. }
      assert (Nqt : q <> t) by (intros ->; apply Ns; rewrite (run_oncpu s c t I Hon Hself) in H4; by rewrite <- H4).
      by rewrite Hother.
  - intros d v. rewrite deal_on. destruct (Hcpu d) as [[_ -> _] _]. intros Hv. destruct (i_idle s I d v Hv) as (H1 & H2 & H3 & H4).
    assert (Np : v <> p) by (intros ->; apply Hpi; by exists d). destruct (deal_same v Np) as (-> & _ & -> & _ & -> & _). done.
  - intros d. rewrite deal_on. destruct (Hcpu d) as [[_ -> _] _]. apply I.
  - intros v Hv Hne. destruct (decide (v = p)) as [-> | Np]; [by destruct (Hp1 Hv) as (_ & _ & ? & _) |].
    destruct (deal_same v Np) as (E1 & _ & _ & _ & _ & _ & E2 & _). rewrite E1 in Hv. rewrite E2 in *. rewrite deal_on, deal_self.
    destruct (Hcpu (oncpu (task_at s v))) as (_ & -> & _). by apply I.
  - intros v [Hv Ho]. destruct (decide (v = p)) as [-> | Np]; [by destruct (Hp1 Hv) as (_ & _ & _ & ? & ? & _) |].
    destruct (deal_same v Np) as (E1 & _ & -> & _ & _ & _ & E2 & -> & E). rewrite E1 in Hv. rewrite E2 in Ho.
    assert (Nt : v <> t) by (intros ->; by apply (run_not_off s c t I Hon Hself)). rewrite (proj2 (E Nt)). by apply I.
  - apply Hrq.
  - intros d v Hd [Hv | (Hj & -> & ->)]%Hrq'; [| | done].
    + assert (Np : v <> p) by (intros ->; by apply Hprq in Hv). destruct (i_rq_task s I d v Hd Hv) as (H1 & H2 & H3 & H4 & H5 & H6).
      destruct (deal_same v Np) as (-> & _ & -> & _ & -> & _ & -> & _). rewrite deal_leaving, deal_idle_of by done. split_and!; try done.
      intros u Hu Hx. apply deal_hands in Hx as [(Hu' & Hx & _) | (_ & ? & _)]; [by apply H5 in Hx | done | done].
    + destruct (Hjoin Hj) as (H1 & H2 & H3). destruct (Hp1 H1) as (_ & _ & ? & _). rewrite deal_idle_of. split_and!; try done; [| by left].
      intros u Hu Hx. apply deal_hands in Hx as [(_ & _ & ?) | (_ & _ & ?)]; [done | congruence | done].
  - done.
  - intros v [Hv Np]%Hsq'. destruct (i_sq_task s I v Hv) as (H1 & H2 & H3 & H4). assert (Nt : v <> t) by congruence.
    destruct (deal_same v Np) as (-> & _ & -> & _ & _ & _ & -> & -> & E). by rewrite (proj2 (E Nt)).
  - intros v Hv Hs Ho. destruct (decide (v = p)) as [-> | Np].
    + destruct (Hp1 Hv) as (_ & Hc & _). rewrite Hrq' by done. destruct (Hplace Hv Hs) as [Hj | Hi]; [right; left; by right | right; right]. exists t.
      rewrite Ealive, Hk', Hhd'. split; [done | by right].
    + destruct (deal_same v Np) as (E1 & _ & E2 & _ & E3 & _ & E4 & _). rewrite E1 in Hv. rewrite E2 in Hs. rewrite E4, deal_leaving in Ho by done.
      assert (Hc : 0 <= tcpu (task_at s v) < MAX_CPUS) by (by apply I). rewrite deal_idle_of, E3, Hrq' by done.
      destruct (i_running s I v Hv Hs Ho) as [? | [? | (u & Hu & Hx)]]; [by left | by right; left; left |]. right; right. exists u.
      assert (Hu' : alive (task_at s' u) = true).
      { destruct (decide (u = p)) as [-> | Nu]; [| by rewrite (proj1 (deal_same u Nu))]. destruct (alive (task_at s' p)) eqn:E; [done |].
        rewrite (Hpd eq_refl) in Hx. by apply not_elem_of_nil in Hx. }
      split; [done |]. by apply deal_hands_back.
  - intros v Hv Hs. destruct (decide (v = p)) as [-> | Np]; [by destruct (Hp1 Hv) as (_ & _ & _ & _ & _ & ?) |].
    destruct (deal_same v Np) as (E1 & _ & E2 & _ & _ & _ & _ & _ & E). rewrite E1 in Hv. rewrite E2 in Hs. assert (Nt : v <> t) by congruence.
    rewrite Hsq', (proj2 (E Nt)). destruct (i_sleeping s I v Hv Hs) as [? | ?]; [by left | by right].
  - apply deal_frame.
  - intros u Hu. destruct (decide (u = t)) as [-> | Nt]; [by rewrite Hk' |]. destruct (decide (u = p)) as [-> | Np]; [| rewrite Hother in * by done; by apply I].
    destruct (Hp2 Hu) as [(H1 & -> & _) | (_ & -> & _)]; [by apply I | constructor].
  - intros u v q Hu Hv H1 H2. apply deal_hands in H1; [| done]. apply deal_hands in H2; [| done].
    destruct H1 as [(H1 & H3 & H4) | (E1 & E2 & _)], H2 as [(H5 & H6 & H7) | (E3 & E4 & _)]; try congruence. by apply (i_hands_one s I u v q).
  - intros u Hu. destruct (decide (u = t)) as [-> | Nt]; [by rewrite Hk' |]. destruct (decide (u = p)) as [-> | Np]; [| rewrite Hother in * by done; by apply I].
    destruct (Hp2 Hu) as [(H1 & -> & _) | (_ & -> & _)]; [by apply I | constructor].
  - intros u v lk Hu Hv H1 H2. apply deal_held in H1 as [? ?]; [| done]. apply deal_held in H2 as [? ?]; [| done]. by apply (i_held_one s I u v lk).
  - intros u lk Hu Hl. destruct (decide (u = t)) as [-> | Nt]; [rewrite Hk' in Hl; by apply Hheld1 |]. apply deal_held in Hl as [Hu' Hl]; [| done].
    destruct (Hheld2 lk) as [H | H]; [by apply (i_held_lock s I u) | done |]. destruct Nt. apply (i_held_one s I u t lk); try done. by rewrite Hk.
  - intros v ch Hv Hc. assert (Hcase : v = t /\ ch = p \/ ch <> p /\ alive (task_at s v) = true /\ ch ∈ children (task_at s v) \/
      ch = p /\ v <> t /\ alive (task_at s v) = true /\ ch ∈ children (task_at s v)).
    { destruct (decide (v = t)) as [-> | Nt]; [rewrite Ealive in Hv; destruct (Hch ch Hc); destruct (decide (ch = p)); auto; tauto |].
      assert (alive (task_at s v) = true /\ ch ∈ children (task_at s v)) as [? ?].
      { destruct (decide (v = p)) as [-> | Np]; [| by rewrite Hother in Hv, Hc]. destruct (Hp2 Hv) as [(? & _ & E & _) | (_ & _ & E & _)]; rewrite E in Hc; [done |].
        by apply not_elem_of_nil in Hc. }
      destruct (decide (ch = p)); [right; right | right; left]; done. }
    destruct Hcase as [[-> ->] | [(Np & H1 & H2) | (-> & Nt & H1 & H2)]]; [by apply Hchp | |].
    + destruct (deal_same ch Np) as (-> & -> & _ & _ & _ & -> & _). by apply I.
    + destruct (Hcho v H1 Nt H2) as (-> & -> & ->). destruct (i_children s I v p H1 H2) as (_ & ? & ?). done.
  - intros v Hv. destruct (decide (v = t)) as [-> | Nt]; [done |]. destruct (decide (v = p)) as [-> | Np]; [| rewrite Hother in * by done; by apply I].
    destruct (Hp2 Hv) as [(H1 & _ & -> & _) | (_ & _ & -> & _)]; [by apply I | constructor].
  - intros v Hv Hz. rewrite Hreaper. destruct (decide (v = p)) as [-> | Np].
    + destruct (Hp2 Hv) as [(H1 & _ & -> & _ & H2) | (_ & _ & _ & ?)]; [| done]. apply I; auto.
    + destruct (deal_same v Np) as (E1 & _ & E2 & _ & _ & _ & _ & _ & E). rewrite E1 in Hv. rewrite E2 in Hz. assert (Nt : v <> t) by congruence.
      rewrite (proj1 (E Nt)). by apply I.
  - intros r. rewrite Hreaper. intros Hr. destruct (decide (r = p)) as [-> | Np]; [auto |]. rewrite (proj1 (deal_same r Np)). by apply (i_reaper s I).
  - intros d. rewrite deal_on, Hreaper. apply I.
Qed.
End deal.

Section switching.
Context (s : sys) (c t : Z) (I : inv s) (Hon : on s c) (Hself : self (cpu_at s c) = t).

Ltac at_self := sys_simpl; repeat (rewrite fn_lookup_insert || (rewrite fn_lookup_insert_ne by congruence)).

Lemma ex_sched k : kstack (task_at s t) = FSched :: k -> good (exec s c t FSched k).
Proof.
  intros Hk. simpl. pose proof (ex_stack s c t I Hon Hself) as Ho. rewrite Hk in Ho. simpl in Ho. rewrite !andb_true_iff, negb_true_iff, bool_decide_eq_false in Ho.
  destruct Ho as [[Hl Hr] Hn]. assert (Hpre : preempt_count (cpu_at s c) = 0) by (rewrite (ex_depth s c t), Hk by done; simpl; by apply resumable_depth in Hr).
  unfold sched_leave. rewrite Hl, Hpre, (run_oncpu s c t I Hon Hself), !Z.eqb_refl. simpl.
  assert (Hplain : (state (task_at s t) = TASK_STATE_RUNNING -> idle_of s t) -> inv (goto t (FPick :: k) (updc c (set_current None) s))).
  { intros Hi. eapply (inv_leave s _ c t I Hon Hself k Hk false); try (by at_self); try done.
    - intros u Hu. by at_self.
    - intros d Hd. by at_self.
    - at_self. by rewrite app_nil_r. }
  destruct (state (task_at s t)) eqn:Est; [done | | by apply good_ret, Hplain | by apply good_ret, Hplain].
  case_bool_decide as Hi; rewrite fn_lookup_insert in Hi; simpl in Hi; [apply good_ret, Hplain; by exists c |].
  assert (Hni : ~ idle_of s t).
  { intros [d Hd]. destruct (i_idle s I d t Hd) as (_ & _ & _ & E). rewrite (run_tcpu s c t I Hon Hself) in E. congruence. }
  unfold task_join_self, enqueue, live. cbn [task_at updc set_cpu_at]. rewrite (run_tcpu s c t I Hon Hself), Z.eqb_refl.
  assert (Hrange : (c <? 0) || (MAX_CPUS <=? c) = false) by (destruct Hon; lia). rewrite Hrange, (run_alive s c t I Hon Hself).
  rewrite queued_false; [| |].
  - rewrite Est. simpl. rewrite ?Z.eqb_refl. apply good_ret. eapply (inv_leave s _ c t I Hon Hself k Hk true); try (by at_self); try done.
    + intros u Hu. by at_self.
    + at_self. by constructor; simpl; rewrite ?(run_tcpu s c t I Hon Hself).
    + intros d Hd. by at_self.
  - cbn [sleep_queue updc set_cpu_at]. intros Ht. apply (i_sq_task s I) in Ht as (_ & E & _). congruence.
  - intros d Hd. destruct (decide (d = c)) as [-> | N]; at_self; apply (run_not_queued s c t I Hon Hself); try done; by rewrite Hk.
Qed.

(** What [sched_pick] does once the queue is looked at. *)
Lemma pick_spec k popped rq' s1 n : kstack (task_at s t) = FPick :: k -> run_queue (cpu_at s c) = popped ++ rq' -> (length popped <= 1)%nat ->
  task_at s1 = task_at s -> (forall d, d <> c -> cpu_at s1 d = cpu_at s d) ->
  cpu_at s1 c = set_nr_running (nr_running (cpu_at s c) - Z.of_nat (length popped)) (set_run_queue rq' (cpu_at s c)) ->
  sleep_queue s1 = sleep_queue s -> locks s1 = locks s -> init_reaper s1 = init_reaper s -> popped = [n] \/ popped = [] /\ idle (cpu_at s c) = Some n ->
  good (Some (if n =? t then Ret (goto t k (updc c (set_current (Some t)) (upd t (set_time_slice TIME_SLICE_MAX) s1)))
    else Ret (goto t (FSwitch n :: k) (updc c (set_handoff (Some t)) (upd t (fun x => task_add_system_time (u64 (jiffies s1 - ktime x)) x) s1))))).
Proof.
  intros Hk Hrq Hpop Et Eo Ec Esq El Er Hn. destruct (n =? t) eqn:En; apply good_ret; [apply Z.eqb_eq in En; subst n | apply Z.eqb_neq in En].
  - eapply (inv_back s _ c t I Hon Hself k Hk popped rq' Hrq); try done; try (by at_self); at_self; rewrite ?Et, ?Ec; try done.
    + intros d Hd. at_self. by apply Eo.
    + intros u Hu. at_self. by rewrite ?Et.
  - eapply (inv_onward s _ c t I Hon Hself k Hk popped rq' Hrq) with (n := n); try done; try (by at_self); at_self; rewrite ?Et, ?Ec; try done.
    + intros d Hd. at_self. by apply Eo.
    + intros u Hu. at_self. by rewrite ?Et.
    + unfold task_add_system_time. by destruct (rsrc_usage (task_at s t)).
    + unfold task_add_system_time. by destruct (rsrc_usage (task_at s t)).
    + unfold task_add_system_time. by destruct (rsrc_usage (task_at s t)).
Qed.

Lemma ex_pick k : kstack (task_at s t) = FPick :: k -> good (exec s c t FPick k).
Proof.
  intros Hk. simpl. unfold sched_pick, task_pick_next. destruct (run_queue (cpu_at s c)) as [| p q] eqn:Erq.
  - pose proof (i_has_idle s I c Hon) as Hi. simpl. destruct (idle (cpu_at s c)) as [n |] eqn:Ei; [| done].
    apply (pick_spec k [] []); try done; [simpl; lia | | by right]. simpl. rewrite Z.sub_0_r, <- Erq. by destruct (cpu_at s c).
  - assert (Hp : p ∈ run_queue (cpu_at s c)) by (rewrite Erq; by left). destruct (proj1 Hon) as [Hc1 Hc2].
    destruct (i_rq_task s I c p (proj1 Hon) Hp) as (Ha & Hs & Hc & _). destruct (i_rq s I c (proj1 Hon)) as [_ Hnr]. rewrite Erq in Hnr. simpl in Hnr.
    rewrite Ha, Hc, Z.eqb_refl. cbn [negb]. destruct (0 <? nr_running (cpu_at s c)) eqn:E0; [| lia]. simpl.
    apply (pick_spec k [p] q (updc c (fun cpu => set_nr_running (nr_running cpu - 1) (set_run_queue q cpu)) s)); try done; [| by at_self | by left]. intros d Hd. by at_self.
Qed.

Lemma ex_switch n k : kstack (task_at s t) = FSwitch n :: k -> good (exec s c t (FSwitch n) k).
Proof.
  intros Hk. simpl. destruct (cross_next s c t n I Hon Hself k Hk) as ([Ha Ho] & Hst & Hc & N). destruct (i_off s I n (conj Ha Ho)) as [Hl _].
  unfold sched_switch. rewrite Ha, Hl, Ho. simpl. apply good_ret.
  eapply (inv_cross s _ c t n I Hon Hself k Hk); try (by at_self).
  - intros u Hu Hv. by at_self.
  - intros d Hd. by at_self.
Qed.

Lemma ex_resume k : kstack (task_at s t) = FResume :: k -> good (exec s c t FResume k).
Proof.
  intros Hk. simpl. pose proof (i_handoff s I c Hon) as H. rewrite Hself, Hk in H. simpl in H. destruct H as (p & Hp & N & Ha & _).
  unfold task_sched_resume, live. rewrite Hp, Ha. apply good_ret.
  set (q := if bool_decide (state (task_at s p) = TASK_STATE_ZOMBIE) then parent (task_at s p) else None).
  apply (inv_arrive s _ c t p I Hon Hself k (match q with Some q => [FWakeSpec q] | None => [] end) Hk Hp); try (by at_self).
  - intros u Hu Hv. by at_self.
  - at_self. by destruct q.
  - intros d Hd. by at_self.
  - destruct q; eauto.
Qed.
End switching.
