(* ===== verification/SchedSafe.v ===== *)
(** * Safety of the scheduler

    The steps that deal with a second task (waking, joining a queue, creating,
    reaping), and the theorems about every interleaving of the CPUs. *)

From S2P Require Import Prelude Sched SchedInv.

(** ** Waking, joining, creating and reaping *)

Lemma hand_state s u q : inv s -> alive (task_at s u) = true -> q ∈ hands (kstack (task_at s u)) -> off s q /\ state (task_at s q) <> TASK_STATE_SLEEPING.
Proof.
  intros I Hu Hq. apply list_elem_of_bind in Hq as (f & Hq & Hf). pose proof (i_frames s I u f Hu Hf) as Hok.
  destruct f; simpl in Hq; try (by apply not_elem_of_nil in Hq); apply list_elem_of_singleton in Hq as ->; simpl in Hok; destruct Hok as (H1 & H2 & _); split; try done; congruence.
Qed.

Lemma resumable_woken k : resumable TASK_STATE_SLEEPING k = true -> resumable TASK_STATE_RUNNING k = true.
Proof. by destruct k as [| [] k]. Qed.

Lemma wake_scan_spec s ch l : forall retry, (forall p, p ∈ l -> alive (task_at s p) = true) -> exists o r, wake_scan s ch l retry = Ret (o, r) /\
  match o with
  | Some p => p ∈ l /\ state (task_at s p) = TASK_STATE_SLEEPING /\ chan (task_at s p) = ch /\ locked (task_at s p) = false
  | None => r = false -> retry = false /\ forall p, p ∈ l -> ~ (state (task_at s p) = TASK_STATE_SLEEPING /\ chan (task_at s p) = ch)
  end.
Proof.
  induction l as [| p l IH]; intros retry Hl; simpl.
  - exists None, retry. split; [done |]. intros ->. split; [done |]. intros p Hp. by apply not_elem_of_nil in Hp.
  - rewrite (Hl p) by (by left). simpl. assert (Hl' : forall q, q ∈ l -> alive (task_at s q) = true) by (intros q Hq; apply Hl; by right).
    destruct (bool_decide (state (task_at s p) = TASK_STATE_SLEEPING) && (chan (task_at s p) =? ch)) eqn:E; simpl.
    + apply andb_true_iff in E as [E1%bool_decide_eq_true E2%Z.eqb_eq]. destruct (locked (task_at s p)) eqn:El.
      * destruct (IH true Hl') as (o & r & -> & H). exists o, r. split; [done |]. destruct o as [q |]; [destruct H as (? & ?); split; [by right | done] |].
        intros Hr. by destruct (H Hr).
      * exists (Some p), retry. split; [done |]. split_and!; try done. by left.
    + destruct (IH retry Hl') as (o & r & -> & H). exists o, r. split; [done |]. destruct o as [q |]; [destruct H as (? & ?); split; [by right | done] |].
      intros Hr. destruct (H Hr) as [-> Hq]. split; [done |]. intros q [-> | Hq']%elem_of_cons; [| by apply Hq].
      intros [H1 H2]. rewrite H1, H2, bool_decide_eq_true_2, Z.eqb_refl in E by done. done.
Qed.

Lemma rq_bound s d : inv s -> 0 <= d < MAX_CPUS -> Z.of_nat (length (run_queue (cpu_at s d))) <= NR_TASKS.
Proof.
  intros I Hd. apply bounded_length; [by unfold NR_TASKS; lia | by apply I |]. intros x Hx. apply (i_rq_task s I d x Hd) in Hx as (Hx & _). by apply I.
Qed.

(** ** A step that only moves children *)

Section family.
Context (s s' : sys) (I : inv s) (P : Z -> option Z) (C : Z -> list Z).
Context (Hc : cpu_at s' = cpu_at s) (Hs : sleep_queue s' = sleep_queue s) (Hl : locks s' = locks s) (Hr : init_reaper s' = init_reaper s).
Context (E : forall v, task_at s' v = set_parent (P v) (set_children (C v) (task_at s v))).

Lemma family_leaving v : leaving s' v <-> leaving s v.
Proof. unfold leaving, on. rewrite Hc. setoid_rewrite E. done. Qed.

Lemma family_off v : off s' v <-> off s v.
Proof. unfold off. by rewrite E. Qed.

Lemma family_handoff c : match head (kstack (task_at s (self (cpu_at s c)))) with Some FResume => True | _ => False end ->
  (exists p, handoff (cpu_at s c) = Some p /\ p <> self (cpu_at s c) /\ alive (task_at s p) = true /\ oncpu (task_at s p) = c /\ tcpu (task_at s p) = c /\
     locked (task_at s p) = true /\ resumable (state (task_at s p)) (kstack (task_at s p)) = true) ->
  exists p, handoff (cpu_at s c) = Some p /\ p <> self (cpu_at s c) /\ alive (task_at s' p) = true /\ oncpu (task_at s' p) = c /\ tcpu (task_at s' p) = c /\
     locked (task_at s' p) = true /\ resumable (state (task_at s' p)) (kstack (task_at s' p)) = true.
Proof. intros _ (p & H). exists p. by rewrite E. Qed.

Context (Hch : forall t ch, alive (task_at s t) = true -> ch ∈ C t -> alive (task_at s ch) = true /\ P ch = Some t /\ is_init_task (task_at s ch) = false).
Context (Hone : forall t, alive (task_at s t) = true -> NoDup (C t)).
Context (Hz : forall t, init_reaper s <> Some t -> children (task_at s t) = [] -> C t = []).
Context (Hscan : forall u, alive (task_at s u) = true -> C u = [] \/ children (task_at s u) ⊆ C u).
Context (Hemp : forall u f, alive (task_at s u) = true -> f ∈ kstack (task_at s u) -> C u = [] -> match f with FScan _ _ (_ :: _) _ => children (task_at s u) = [] | _ => True end).
Context (Hno : forall q, on_no_list s q -> forall u, alive (task_at s u) = true -> q ∉ C u).

Lemma family_frame u f : alive (task_at s u) = true -> f ∈ kstack (task_at s u) -> frame_ok s' u f.
Proof.
  intros Hu Hf. pose proof (i_frames s I u f Hu Hf) as H. specialize (Hemp u f Hu Hf).
  assert (Hni : forall v, idle_of s' v <-> idle_of s v) by (unfold idle_of; by rewrite Hc).
  assert (Hnl : forall q, on_no_list s q -> on_no_list s' q) by (intros q Hq v; rewrite E; apply Hno; done).
  destruct f; simpl in H, Hemp |- *; rewrite ?family_off, ?Hni, ?Hr, ?E, ?Hc; cbn [alive parent children locked kstack state tcpu is_init_task set_parent set_children]; try exact H.
  - destruct H as (? & ? & ? & ? & H). split_and!; try done. by apply Hnl.
  - destruct H as (? & ? & ?). split_and!; try done. by apply Hz.
  - destruct H as [H1 H2]. split; [| done]. destruct todo as [| x todo]; [apply list_subseteq_nil |]. destruct (Hscan u Hu) as [E1 | E1]; [| by transitivity (children (task_at s u))].
    rewrite (Hemp E1) in H1. by rewrite E1.
  - destruct H as (? & ? & ? & H). split_and!; try done. by apply Hnl.
Qed.

Lemma inv_family : inv s'.
Proof.
  assert (Hon : forall d, on s' d <-> on s d) by (intros d; unfold on; by rewrite Hc).
  assert (Hni : forall v, idle_of s' v <-> idle_of s v) by (unfold idle_of; by rewrite Hc).
  split; intros *; rewrite ?family_leaving, ?family_off, ?Hon, ?Hni, ?Hc, ?Hs, ?Hl, ?Hr, ?E; cbn [alive parent children locked chan kstack state mm oncpu tcpu is_init_task set_parent set_children].
  - apply I.
  - apply I.
  - apply I.
  - intros H. pose proof (i_handoff s I c H) as H1. pose proof (family_handoff c) as H2. by destruct (head (kstack (task_at s (self (cpu_at s c))))) as [[] |]; auto.
  - apply I.
  - apply I.
  - apply I.
  - apply I.
  - apply I.
  - intros H1 H2. destruct (i_rq_task s I c t H1 H2) as (? & ? & ? & ? & H3 & ?). split_and!; try done. intros u. rewrite E. apply H3.
  - apply I.
  - apply I.
  - intros H1 H2 H3. destruct (i_running s I t H1 H2 H3) as [? | [? | (u & Hu & Hx)]]; [by left | by right; left | right; right]. exists u. by rewrite E.
  - apply I.
  - apply family_frame.
  - apply I.
  - apply I.
  - apply I.
  - apply I.
  - apply I.
  - apply Hch.
  - apply Hone.
  - intros H1 H2. destruct (i_zombie s I t H1 H2) as [H3 H4]. split; [by apply Hz | done].
  - apply I.
  - apply I.
Qed.
End family.

Section dealing.
Context (s : sys) (c t : Z) (I : inv s) (Hon : on s c) (Hself : self (cpu_at s c) = t).

Ltac at_self := sys_simpl; repeat (rewrite fn_lookup_insert || (rewrite fn_lookup_insert_ne by congruence)).

Lemma held_same k : kstack (task_at s t) = k -> NoDup (held k) /\ (forall lk, lk ∈ held k -> locks s lk = true /\ lk ∈ held k) /\
  (forall lk, locks s lk = true -> locks s lk = true \/ lk ∈ held k).
Proof.
  intros <-. pose proof (run_alive s c t I Hon Hself) as Ha. split_and!; [by apply I | | by left]. intros lk Hl. split; [by apply (i_held_lock s I t) | done].
Qed.

Lemma ex_wake_one f k k0 p : kstack (task_at s t) = f :: k -> still (f :: k) -> depth1 f = 0 -> hands1 f = [] -> held1 f = [] -> k0 = f :: k \/ k0 = k ->
  state (task_at s t) = TASK_STATE_RUNNING -> locked (task_at s t) = false /\ code k0 = true \/ locked (task_at s t) = true /\ resuming k0 = true ->
  p ∈ sleep_queue s -> locked (task_at s p) = false -> inv (goto t (FJoin p :: k0) (wake_one p s)).
Proof.
  intros Hk S Hd0 Hh0 Hl0 Hk0 Hst Hc Hp Hlp. destruct (i_sq_task s I p Hp) as (Ha & Hs & Ho & Hpub). destruct Ho as [Ho | ?]; [| congruence].
  assert (Npt : p <> t) by congruence. destruct (i_off s I p (conj Ha Ho)) as [_ Hr]. rewrite Hs in Hr. destruct (i_range s I p Ha) as [Hrg Htc].
  assert (Hni : ~ idle_of s p) by (intros [d Hd]; apply (i_idle s I) in Hd as (_ & _ & ? & _); congruence).
  assert (Hnh : forall u, alive (task_at s u) = true -> p ∉ hands (kstack (task_at s u))) by (intros u Hu Hx; by apply (hand_state s u p I Hu) in Hx as [_ ?]).
  assert (Hnq : forall d, 0 <= d < MAX_CPUS -> p ∉ run_queue (cpu_at s d)) by (intros d Hd Hx; apply (i_rq_task s I d p Hd) in Hx as (_ & ? & _); congruence).
  assert (Hhe : hands k0 = hands (f :: k)) by (destruct Hk0 as [-> | ->]; unfold hands; simpl; by rewrite ?Hh0).
  assert (Hle : held k0 = held (f :: k)) by (destruct Hk0 as [-> | ->]; unfold held; simpl; by rewrite ?Hl0).
  assert (Hde : depth k0 = depth (f :: k)) by (destruct Hk0 as [-> | ->]; simpl; lia).
  pose proof (run_alive s c t I Hon Hself) as Ht. pose proof (i_hands s I t Ht) as Hnd. rewrite Hk in Hnd. pose proof (Hnh t Ht) as Hnt. rewrite Hk in Hnt.
  destruct (held_same _ Hk) as (Hl1 & Hl2 & Hl3). pose proof (i_children_one s I t Ht) as Hcn.
  assert (Et : task_at (goto t (FJoin p :: k0) (wake_one p s)) t = set_kstack (FJoin p :: k0) (task_at s t)) by (unfold wake_one; by at_self).
  assert (Ep : task_at (goto t (FJoin p :: k0) (wake_one p s)) p = set_chan 0 (set_state TASK_STATE_RUNNING (task_at s p))) by (unfold wake_one; by at_self).
  eapply (inv_deal s _ c t p I Hon Hself Npt (f :: k) (FJoin p :: k0) Hk) with (joined := false) (inhand := true); rewrite ?Et, ?Ep; try done.
  - intros u Hu Hv. unfold wake_one. by at_self.
  - simpl. by destruct Hc as [[-> Hc] | [-> Hc]].
  - intros _. apply resumable_woken in Hr. done.
  - by left.
  - cbn. congruence.
  - apply I.
  - naive_solver.
  - apply list.NoDup_filter, I.
  - intros v. cbn. rewrite list_elem_of_filter. tauto.
  - change (hands (FJoin p :: k0)) with (p :: hands k0). rewrite Hhe. by constructor.
  - intros v. change (hands (FJoin p :: k0)) with (p :: hands k0). rewrite elem_of_cons, Hhe. destruct (decide (v = p)) as [-> | N]; naive_solver.
  - intros u _. apply Hnh.
  - by right.
  - intros g [-> | Hg]%elem_of_cons.
    + left. split_and!; [split; by rewrite Ep | by rewrite Ep | exact Hni].
    + right. assert (Hg' : g ∈ f :: k) by (destruct Hk0 as [-> | ->]; [done | by right]). split_and!; try done. intros Hx. apply Hnt. apply list_elem_of_bind. eauto.
  - change (held (FJoin p :: k0)) with (held k0). by rewrite Hle.
  - intros lk. change (held (FJoin p :: k0)) with (held k0). rewrite Hle. apply Hl2.
  - by left.
  - intros Hx. by apply (i_children s I t p Ht).
Qed.

Lemma sleepers_alive p : p ∈ sleep_queue s -> alive (task_at s p) = true.
Proof. intros H. by apply (i_sq_task s I). Qed.

Lemma ex_wake_all ch k : kstack (task_at s t) = FWakeAll ch :: k -> good (exec s c t (FWakeAll ch) k).
Proof.
  intros Hk. simpl. unfold task_wake_all. destruct (wake_scan_spec s ch (sleep_queue s) false sleepers_alive) as (o & r & -> & H). simpl.
  destruct (ex_cases s c t I Hon Hself _ _ Hk) as [Hst [[Hl Hc] | [Hl Hc]]]; [| done].
  destruct o as [p |].
  - destruct H as (H1 & _ & _ & H4). apply good_ret. apply (ex_wake_one (FWakeAll ch) k); try done; auto.
  - destruct r; apply good_ret; [done |]. eapply (inv_goto s c t (FWakeAll ch :: k)); [| done]. apply ex_pop; try done. by left.
Qed.

Lemma ex_wake_spec p k : kstack (task_at s t) = FWakeSpec p :: k -> good (exec s c t (FWakeSpec p) k).
Proof.
  intros Hk. simpl. unfold task_wake_spec, live. destruct (ex_cases s c t I Hon Hself _ _ Hk) as [Hst Hc].
  assert (Hpop : inv (goto t k s)) by (eapply (inv_goto s c t (FWakeSpec p :: k)); [by apply ex_pop | done]).
  case_bool_decide as Hp; simpl; [| by apply good_ret]. rewrite (sleepers_alive p Hp). case_bool_decide as Hs; simpl; [| by apply good_ret].
  destruct (locked (task_at s p)) eqn:El; apply good_ret; [done |]. apply (ex_wake_one (FWakeSpec p) k); try done; auto.
Qed.

Lemma hand_facts f k p : kstack (task_at s t) = f :: k -> hands1 f = [p] -> state (task_at s p) <> TASK_STATE_SLEEPING /\ off s p /\ p <> t /\
  (forall u, u <> t -> alive (task_at s u) = true -> p ∉ hands (kstack (task_at s u))) /\ (p ∉ hands k) /\ NoDup (hands k) /\
  (forall d, 0 <= d < MAX_CPUS -> p ∉ run_queue (cpu_at s d)) /\ p ∉ sleep_queue s.
Proof.
  intros Hk Hh. pose proof (run_alive s c t I Hon Hself) as Ht. assert (Hp : p ∈ hands (kstack (task_at s t))) by (rewrite Hk; unfold hands; simpl; rewrite Hh; by left).
  destruct (hand_state s t p I Ht Hp) as [Ho Hs]. pose proof (i_hands s I t Ht) as Hn. rewrite Hk in Hn. unfold hands in Hn. simpl in Hn. rewrite Hh in Hn.
  apply list.NoDup_cons in Hn as [Hn1 Hn2]. split_and!; try done.
  - intros ->. by apply (run_not_off s c t I Hon Hself).
  - intros u Nu Hu Hx. apply Nu. by apply (i_hands_one s I u t p).
  - intros d Hd Hx. destruct (i_rq_task s I d p Hd Hx) as (_ & _ & _ & _ & H & _). by apply (H t).
  - intros Hx. by apply (i_sq_task s I) in Hx as (_ & ? & _).
Qed.

(** The frame [f], with [p] in hand, is done and [p] has joined the queue of [target]. *)
Lemma ex_enqueue p target k : kstack (task_at s t) = FEnqueue p target :: k -> good (exec s c t (FEnqueue p target) k).
Proof.
  intros Hk. cbn [exec]. destruct (ex_frame s c t I Hon Hself _ _ Hk) as ([Ha Ho] & Hs & Hni & Htg). destruct (ex_cases s c t I Hon Hself _ _ Hk) as [Hst Hc].
  destruct (hand_facts _ k p Hk eq_refl) as (_ & Hoff & Npt & Hnh & Hnk & Hndk & Hnq & Hnsq). destruct (i_off s I p Hoff) as [Hlp Hrp].
  pose proof (run_alive s c t I Hon Hself) as Ht. destruct (held_same _ Hk) as (Hl1 & Hl2 & Hl3). pose proof (i_children_one s I t Ht) as Hcn.
  unfold enqueue, live. assert (Hrange : (target <? 0) || (MAX_CPUS <=? target) = false) by lia. rewrite Hrange, Ha, queued_false, Hs by done. cbn [negb].
  rewrite bool_decide_eq_true_2 by done. apply good_ret.
  set (s' := goto t k _).
  assert (Et : task_at s' t = set_kstack k (task_at s t)) by (unfold s', send_ipi; repeat case_match; by at_self).
  assert (Ep : task_at s' p = set_tcpu target (task_at s p)) by (unfold s', send_ipi; repeat case_match; by at_self).
  assert (Eo : forall u, u <> t -> u <> p -> task_at s' u = task_at s u) by (intros u Hu Hv; unfold s', send_ipi; repeat case_match; by at_self).
  assert (Ec : forall d, d <> target -> cpu_at s' d = cpu_at s d) by (intros d Hd; unfold s', send_ipi; repeat case_match; by at_self).
  assert (Eg : run_queue (cpu_at s' target) = run_queue (cpu_at s target) ++ [p] /\ nr_running (cpu_at s' target) = u32 (nr_running (cpu_at s target) + 1) /\
    cpu_near (cpu_at s target) (cpu_at s' target) /\ handoff (cpu_at s' target) = handoff (cpu_at s target) /\ current (cpu_at s' target) = current (cpu_at s target) /\
    pgd (cpu_at s' target) = pgd (cpu_at s target) /\ preempt_count (cpu_at s' target) = preempt_count (cpu_at s target))
    by (unfold s', send_ipi; repeat case_match; by at_self).
  destruct Eg as (Eg1 & Eg2 & Eg3 & Eg4 & Eg5 & Eg6 & Eg7).
  assert (Esq : sleep_queue s' = sleep_queue s /\ locks s' = locks s /\ init_reaper s' = init_reaper s) by (unfold s', send_ipi; by repeat case_match).
  destruct Esq as (Esq & El & Er). clearbody s'.
  eapply (inv_deal s s' c t p I Hon Hself Npt (FEnqueue p target :: k) k Hk) with (joined := true) (inhand := false); rewrite ?Et, ?Ep, ?Esq, ?El; try done.
  - simpl in Hc. by destruct Hc as [[_ H] | [_ H]]; [apply code_on in H as [] | apply resuming_on in H as []].
  - simpl in Hc. by destruct Hc as [[-> H] | [-> H]]; [apply code_on in H as [] | apply resuming_on in H as []].
  - intros _. destruct (i_range s I p Ha). cbn [state tcpu oncpu locked kstack set_tcpu]. by rewrite Hs in *.
  - by left.
  - simpl. congruence.
  - intros d. destruct (decide (d = target)) as [-> | N]; [done | by rewrite Ec].
  - intros d Hd. destruct (i_rq s I d Hd) as [H1 H2]. destruct (decide (d = target)) as [-> | N]; [| by rewrite Ec].
    pose proof (rq_bound s target I Hd) as Hb. rewrite Eg1, Eg2, length_app. simpl. split; [| rewrite H2, u32_small; unfold NR_TASKS in *; lia].
    apply list.NoDup_app. split_and!; [done | | apply NoDup_singleton]. intros x Hx Hx'. apply list_elem_of_singleton in Hx' as ->. by apply Hnq in Hx.
  - intros d v Hd. simpl. destruct (decide (d = target)) as [-> | N]; [rewrite Eg1, elem_of_app, list_elem_of_singleton | rewrite Ec by done]; naive_solver.
  - apply I.
  - intros v. split; [| tauto]. intros Hv. split; [done |]. by intros ->.
  - intros v. change (hands (FEnqueue p target :: k)) with (p :: hands k). rewrite elem_of_cons. destruct (decide (v = p)) as [-> | N]; naive_solver.
  - by left.
  - intros g Hg. right. split_and!; [by right | | done]. intros Hx. apply Hnk. apply list_elem_of_bind. eauto.
  - by left.
  - intros Hx. by apply (i_children s I t p Ht).
Qed.
(** No queue changes: [t] goes from [f :: k] to [fs ++ k] and [p] is made, changed or destroyed. *)
Lemma inv_deal_quiet s' p f fs k : p <> t -> kstack (task_at s t) = f :: k -> kstack (task_at s' t) = fs ++ k ->
  (forall u, u <> t -> u <> p -> task_at s' u = task_at s u) -> core (set_children (children (task_at s' t)) (task_at s t)) (task_at s' t) ->
  state (task_at s' t) = state (task_at s t) -> locked (task_at s' t) = locked (task_at s t) -> state (task_at s t) = TASK_STATE_RUNNING ->
  still (f :: k) -> still (fs ++ k) -> depth (fs ++ k) = depth (f :: k) -> on_stack TASK_STATE_RUNNING (locked (task_at s t)) (fs ++ k) = true ->
  cpu_at s' = cpu_at s -> sleep_queue s' = sleep_queue s -> init_reaper s' = init_reaper s ->
  (alive (task_at s p) = true -> oncpu (task_at s p) = -1) -> (~ idle_of s p) ->
  (alive (task_at s' p) = true -> 0 <= p < NR_TASKS /\ 0 <= tcpu (task_at s' p) < MAX_CPUS /\ oncpu (task_at s' p) = -1 /\ locked (task_at s' p) = false /\
    resumable (state (task_at s' p)) (kstack (task_at s' p)) = true /\ state (task_at s' p) <> TASK_STATE_SLEEPING) ->
  (alive (task_at s' p) = true ->
    alive (task_at s p) = true /\ kstack (task_at s' p) = kstack (task_at s p) /\ children (task_at s' p) = children (task_at s p) /\
      is_init_task (task_at s' p) = is_init_task (task_at s p) /\ (state (task_at s' p) = TASK_STATE_ZOMBIE -> state (task_at s p) = TASK_STATE_ZOMBIE) \/
    alive (task_at s p) = false /\ kstack (task_at s' p) = [FNew; FRun true [] 0] /\ children (task_at s' p) = [] /\ state (task_at s' p) <> TASK_STATE_ZOMBIE) ->
  (init_reaper s = Some p -> alive (task_at s' p) = true) -> (alive (task_at s' p) = false -> hands (kstack (task_at s p)) = []) ->
  (forall d, 0 <= d < MAX_CPUS -> p ∉ run_queue (cpu_at s d)) -> (p ∉ sleep_queue s) ->
  hands1 f ⊆ [p] -> (p ∉ hands k) -> NoDup (hands k) -> hands fs = [] \/ hands fs = [p] ->
  (forall u, u <> t -> alive (task_at s u) = true -> p ∉ hands (kstack (task_at s u))) ->
  (alive (task_at s' p) = true -> state (task_at s' p) = TASK_STATE_RUNNING -> hands fs = [p]) ->
  Forall (frame_ok s' t) fs -> k = [FRun true [] 0] \/ k = [] ->
  NoDup (held (fs ++ k)) -> (forall lk, lk ∈ held (fs ++ k) -> locks s' lk = true /\ lk ∈ held (f :: k)) ->
  (forall lk, locks s lk = true -> locks s' lk = true \/ lk ∈ held (f :: k)) ->
  (forall v, v ∈ children (task_at s' t) -> v ∈ children (task_at s t) \/ v = p) -> NoDup (children (task_at s' t)) ->
  (p ∈ children (task_at s' t) -> alive (task_at s' p) = true /\ parent (task_at s' p) = Some t /\ is_init_task (task_at s' p) = false) ->
  (forall u, alive (task_at s u) = true -> u <> t -> p ∈ children (task_at s u) ->
    alive (task_at s' p) = true /\ parent (task_at s' p) = parent (task_at s p) /\ is_init_task (task_at s' p) = is_init_task (task_at s p)) ->
  inv s'.
Proof.
  intros Npt Hk Hk' Ho Hc Est Elk Hst S S' Hd Hok Ec Esq Er Hp0 Hpi Hp1 Hp2 Hpr Hpd Hnq Hnsq Hf Hnk Hndk Hfs Hhp Hpl Hfr Hkk.
  intros Hheld Hheld1 Hheld2 Hch Hchd Hchp Hcho. destruct Hc as [E1 E2 E3 E4 E5 E6 E7].
  assert (Eh : hands (fs ++ k) = hands fs ++ hands k) by (unfold hands; apply bind_app).
  eapply (inv_deal s s' c t p I Hon Hself Npt (f :: k) (fs ++ k) Hk Hk' Ho) with (joined := false) (inhand := bool_decide (hands fs = [p])); rewrite ?Ec, ?Esq; try done.
  - apply I.
  - naive_solver.
  - apply I.
  - intros v. split; [| tauto]. intros Hv. split; [done |]. by intros ->.
  - rewrite Eh. destruct Hfs as [-> | ->]; [done |]. simpl. by constructor.
  - intros v. rewrite Eh. change (hands (f :: k)) with (hands1 f ++ hands k). rewrite elem_of_app, elem_of_app, bool_decide_eq_true.
    assert (Hv : v ∈ hands1 f -> v = p) by (intros Hv; apply Hf in Hv; by apply list_elem_of_singleton in Hv).
    destruct (decide (v = p)) as [-> | N]; destruct Hfs as [E | E]; rewrite E, ?elem_of_nil, ?list_elem_of_singleton; naive_solver.
  - intros Ha Hs. right. apply bool_decide_eq_true. auto.
  - intros g Hg. left. apply elem_of_app in Hg as [Hg | Hg]; [by eapply list.Forall_forall |].
    destruct Hkk as [-> | ->]; [by apply list_elem_of_singleton in Hg as -> | by apply not_elem_of_nil in Hg].
Qed.

Lemma off_facts p : off s p -> 0 <= p < NR_TASKS /\ 0 <= tcpu (task_at s p) < MAX_CPUS /\ locked (task_at s p) = false /\
  resumable (state (task_at s p)) (kstack (task_at s p)) = true.
Proof. intros H. destruct (i_off s I p H). destruct H as [Ha _]. by destruct (i_range s I p Ha). Qed.

Lemma not_idle_same s' p : cpu_at s' = cpu_at s -> ~ idle_of s p -> ~ idle_of s' p.
Proof. unfold idle_of. by intros ->. Qed.

Lemma no_list_child p : on_no_list s p -> p ∉ children (task_at s t).
Proof. intros H. by apply H, (run_alive s c t I Hon Hself). Qed.

Lemma ex_start p k : kstack (task_at s t) = FStart p :: k -> good (exec s c t (FStart p) k).
Proof.
  intros Hk. cbn [exec]. unfold kthread_join. destruct (ex_frame s c t I Hon Hself _ _ Hk) as (Hoff & Hs & Hni). destruct (ex_cases s c t I Hon Hself _ _ Hk) as [Hst [[Hl Hc] | [_ Hc]]]; [| done].
  destruct (hand_facts _ k p Hk eq_refl) as (_ & _ & Npt & Hnh & Hnk & Hndk & Hnq & Hnsq). destruct (off_facts p Hoff) as (? & ? & Hlp & Hrp).
  pose proof (run_alive s c t I Hon Hself) as Ht. destruct (held_same _ Hk) as (Hl1 & Hl2 & Hl3). pose proof (i_children_one s I t Ht) as Hcn.
  rewrite Hlp. apply good_ret. set (s' := goto t _ _). destruct Hoff as [Ha Ho]. simpl in Hc. apply plain_eq in Hc as ->.
  assert (Et : task_at s' t = set_kstack [FJoin p; FRun true [] 0] (task_at s t)) by (unfold s'; by at_self).
  assert (Ep : task_at s' p = set_state TASK_STATE_RUNNING (task_at s p)) by (unfold s'; by at_self).
  eapply (inv_deal_quiet s' p (FStart p) [FJoin p] [FRun true [] 0]); rewrite ?Et, ?Ep; try done.
  - intros u Hu Hv. unfold s'. by at_self.
  - by rewrite Hl.
  - intros _. cbn [state tcpu oncpu locked kstack set_state]. rewrite Hs in Hrp. do 4 (split; [done |]). split; [| done]. by destruct (kstack (task_at s p)) as [| []].
  - intros _. left. by cbn.
  - intros E. cbn in E. congruence.
  - by right.
  - constructor; [| done]. split_and!; [split; by rewrite Ep | by rewrite Ep | by apply (not_idle_same s')].
  - by left.
  - by left.
  - intros Hx. by apply (i_children s I t p Ht).
Qed.

Lemma ex_link p k : kstack (task_at s t) = FLink p :: k -> good (exec s c t (FLink p) k).
Proof.
  intros Hk. cbn [exec]. unfold fork_link. destruct (ex_frame s c t I Hon Hself _ _ Hk) as (Hoff & Hs & Hni & Hit & Hnl).
  destruct (ex_cases s c t I Hon Hself _ _ Hk) as [Hst [[Hl Hc] | [_ Hc]]]; [| done].
  destruct (hand_facts _ k p Hk eq_refl) as (_ & _ & Npt & Hnh & Hnk & Hndk & Hnq & Hnsq). destruct (off_facts p Hoff) as (? & ? & Hlp & Hrp).
  pose proof (run_alive s c t I Hon Hself) as Ht. destruct (held_same _ Hk) as (Hl1 & Hl2 & Hl3). pose proof (i_children_one s I t Ht) as Hcn.
  destruct (locks s WAIT_LOCK); [done |]. apply good_ret. set (s' := goto t _ _). destruct Hoff as [Ha Ho]. simpl in Hc. apply plain_eq in Hc as ->.
  assert (Et : task_at s' t = set_kstack [FStart p; FRun true [] 0] (set_children (p :: children (task_at s t)) (task_at s t))) by (unfold s'; by at_self).
  assert (Ep : task_at s' p = set_parent (Some t) (task_at s p)) by (unfold s'; by at_self).
  eapply (inv_deal_quiet s' p (FLink p) [FStart p] [FRun true [] 0]); rewrite ?Et, ?Ep; try done.
  - intros u Hu Hv. unfold s'. by at_self.
  - by rewrite Hl.
  - intros _. cbn [state tcpu oncpu locked kstack set_parent]. do 5 (split; [done |]). congruence.
  - intros _. left. by cbn.
  - intros E. cbn in E. congruence.
  - by right.
  - constructor; [| done]. split_and!; [split; by rewrite Ep | by rewrite Ep | by apply (not_idle_same s')].
  - by left.
  - intros v [-> | Hv]%elem_of_cons; [by right | by left].
  - constructor; [by apply no_list_child | done].
  - intros u Hu _ Hx. by apply Hnl in Hx.
Qed.

Lemma resumable_zombie_hands k : resumable TASK_STATE_ZOMBIE k = true -> hands k = [].
Proof. destruct k as [| [] k]; try done; simpl; [| by intros ->%plain_eq]. destruct k as [| [] k]; try done. by intros ->%plain_eq. Qed.

Lemma ex_destroy p k : kstack (task_at s t) = FDestroy p :: k -> good (exec s c t (FDestroy p) k).
Proof.
  intros Hk. cbn [exec]. destruct (ex_frame s c t I Hon Hself _ _ Hk) as (Hoff & Hs & Hit & Hnl).
  destruct (ex_cases s c t I Hon Hself _ _ Hk) as [Hst [[Hl Hc] | [_ Hc]]]; [| done].
  destruct (hand_facts _ k p Hk eq_refl) as (_ & _ & Npt & Hnh & Hnk & Hndk & Hnq & Hnsq). destruct (off_facts p Hoff) as (? & ? & Hlp & Hrp).
  pose proof (run_alive s c t I Hon Hself) as Ht. destruct (held_same _ Hk) as (Hl1 & Hl2 & Hl3). pose proof (i_children_one s I t Ht) as Hcn.
  destruct Hoff as [Ha Ho]. unfold task_destroy, live. rewrite Ha, Hit. apply good_ret. set (s' := goto t _ _). simpl in Hc. apply plain_eq in Hc as ->.
  assert (Et : task_at s' t = set_kstack [FRun true [] 0] (task_at s t)) by (unfold s'; by at_self).
  assert (Ep : task_at s' p = set_alive false (task_at s p)) by (unfold s'; by at_self).
  assert (Hni : ~ idle_of s p) by (intros [d Hd]; apply (i_idle s I) in Hd as (_ & _ & ? & _); congruence).
  eapply (inv_deal_quiet s' p (FDestroy p) [] [FRun true [] 0]); rewrite ?Et, ?Ep; try done.
  - intros u Hu Hv. unfold s'. by at_self.
  - by rewrite Hl.
  - intros E. by apply (i_zombie s I p Ha) in Hs as [_ ?].
  - intros _. rewrite Hs in Hrp. by apply resumable_zombie_hands.
  - by left.
  - by left.
  - by left.
  - intros Hx. by apply no_list_child in Hx.
  - intros u Hu _ Hx. by apply Hnl in Hx.
Qed.

Lemma only_parent u ch : alive (task_at s u) = true -> ch ∈ children (task_at s u) -> ch ∈ children (task_at s t) -> u = t.
Proof.
  intros Hu H1 H2. apply (i_children s I) in H1 as (_ & E1 & _); [| done]. apply (i_children s I) in H2 as (_ & E2 & _); [congruence |]. by apply (run_alive s c t I Hon Hself).
Qed.

Lemma child_not_hand u ch : state (task_at s ch) = TASK_STATE_ZOMBIE -> ch ∈ children (task_at s t) -> alive (task_at s u) = true -> ch ∉ hands (kstack (task_at s u)).
Proof.
  intros Hz Hc Hu Hx. apply list_elem_of_bind in Hx as (f & Hx & Hf). pose proof (i_frames s I u f Hu Hf) as Hok.
  destruct f; simpl in Hx; try (by apply not_elem_of_nil in Hx); apply list_elem_of_singleton in Hx as ->; simpl in Hok; try (destruct Hok as (_ & ? & _); congruence).
  destruct Hok as (_ & _ & _ & Hok). apply (Hok t) in Hc; [done |]. by apply (run_alive s c t I Hon Hself).
Qed.

Lemma reap_times_core y x : core x (reap_times y x) /\ state (reap_times y x) = state x /\ locked (reap_times y x) = locked x.
Proof. unfold reap_times, task_add_child_user_time, task_add_child_system_time. destruct (rsrc_usage x) eqn:E; simpl; rewrite ?E; done. Qed.

Lemma ex_reap pid o ch todo found v st : kstack (task_at s t) = [FScan pid o (ch :: todo) found; FRun true [] 0] -> state (task_at s t) = TASK_STATE_RUNNING ->
  locked (task_at s t) = false -> ch ∈ children (task_at s t) -> state (task_at s ch) = TASK_STATE_ZOMBIE -> oncpu (task_at s ch) = -1 ->
  inv (wait_return (setlock WAIT_LOCK false (upd t (fun x => set_children (filter (fun q => q <> ch) (children x)) x) (upd t (reap_times (task_at s ch)) s)))
         t v st [FDestroy ch; FRun true [] 0]).
Proof.
  intros Hk Hst Hl Hch Hz Ho. pose proof (run_alive s c t I Hon Hself) as Ht. destruct (i_children s I t ch Ht Hch) as (Ha & Hpar & Hit).
  assert (Hoff : off s ch) by done. destruct (off_facts ch Hoff) as (? & ? & Hlp & Hrp). assert (Npt : ch <> t) by congruence.
  pose proof (i_children_one s I t Ht) as Hcn. unfold wait_return. set (s' := goto t _ _). destruct (reap_times_core (task_at s ch) (task_at s t)) as ([] & Ers & Erl).
  assert (Et : task_at s' t = set_kstack [FDestroy ch; FRun true [] 0] (set_result (v, st) (set_children (filter (fun q => q <> ch) (children (task_at s t)))
    (reap_times (task_at s ch) (task_at s t))))) by (unfold s'; at_self; by rewrite c_children).
  assert (Ep : task_at s' ch = task_at s ch) by (unfold s'; by at_self).
  assert (Eo : forall u, u <> t -> task_at s' u = task_at s u) by (intros u Hu; unfold s'; by at_self).
  assert (Hni : ~ idle_of s ch) by (intros [d Hd]; apply (i_idle s I) in Hd as (_ & _ & ? & _); congruence).
  eapply (inv_deal_quiet s' ch (FScan pid o (ch :: todo) found) [FDestroy ch] [FRun true [] 0]); rewrite ?Et, ?Ep; try done.
  - intros u Hu _. by apply Eo.
  - by rewrite Hl.
  - intros _. rewrite Hz in *. done.
  - intros _. by left.
  - rewrite Ha. done.
  - intros d Hd Hx. apply (i_rq_task s I d ch Hd) in Hx as (_ & ? & _). congruence.
  - intros Hx. apply (i_sq_task s I) in Hx as (_ & ? & _). congruence.
  - simpl. apply list_subseteq_nil.
  - by intros ?%not_elem_of_nil.
  - constructor.
  - by right.
  - intros u _ Hu. by apply child_not_hand.
  - constructor; [| done]. split_and!; [split; by rewrite Ep | by rewrite Ep | by rewrite Ep |]. intros u Hu Hx.
    destruct (decide (u = t)) as [-> | N]; [rewrite Et in Hx; cbn in Hx; by apply list_elem_of_filter in Hx as [? _] |].
    rewrite Eo in Hu, Hx by done. by apply N, (only_parent u ch).
  - by left.
  - constructor.
  - by intros lk ?%not_elem_of_nil.
  - intros lk Hx. unfold s'. sys_simpl. destruct (decide (WAIT_LOCK = lk)) as [<- | N]; [right; by left | rewrite fn_lookup_insert_ne by done; by left].
  - intros x Hx. cbn in Hx. apply list_elem_of_filter in Hx as [_ Hx]. by left.
  - cbn. by apply list.NoDup_filter.
Qed.

Lemma ex_scan pid o todo found k : kstack (task_at s t) = FScan pid o todo found :: k -> good (exec s c t (FScan pid o todo found) k).
Proof.
  intros Hk. cbn [exec]. destruct (ex_frame s c t I Hon Hself _ _ Hk) as (Hsub & Hni). destruct (ex_cases s c t I Hon Hself _ _ Hk) as [Hst [[Hl Hc] | [_ Hc]]]; [| done].
  simpl in Hc. apply plain_eq in Hc as ->. pose proof (run_alive s c t I Hon Hself) as Ht.
  assert (Hret : forall v st, inv (wait_return (setlock WAIT_LOCK false s) t v st [FRun true [] 0])).
  { intros v st. eapply (inv_release s c t [FScan pid o todo found; FRun true [] 0]); [| done | done | done]. apply ex_pop; try done. left. by cbn. }
  unfold wait_scan. destruct todo as [| ch todo].
  - destruct ((0 <? pid) && negb found); [by apply good_ret |]. destruct (has o WNOHANG); [by apply good_ret |]. apply good_ret.
    eapply (inv_goto s c t [FScan pid o [] found; FRun true [] 0]); [| done]. apply (ex_moves s c t I Hon Hself _ [FSleep t WAIT_LOCK; FAgain pid o]); try done.
    + by rewrite Hst, Hl.
    + by rewrite Hst.
    + by repeat constructor.
  - assert (Hch : ch ∈ children (task_at s t)) by (apply Hsub; by left). destruct (i_children s I t ch Ht Hch) as (Ha & _). rewrite Ha. cbn [negb].
    destruct (locked (task_at s ch)); [done |]. destruct (_ || _ || _) eqn:E; [apply good_ret |].
    + eapply (inv_goto s c t [FScan pid o (ch :: todo) found; FRun true [] 0]); [| done]. apply ex_swap; try done; [| by left].
      split; [| done]. intros x Hx. apply Hsub. by right.
    + apply orb_false_iff in E as [E _]. apply orb_false_iff in E as [E1 E2]. apply negb_false_iff, bool_decide_eq_true in E1. apply negb_false_iff, Z.eqb_eq in E2.
      destruct (has o WNOWAIT); apply good_ret; [done |]. by eapply ex_reap.
Qed.

Lemma reparent_all r cs : forall s0, let s1 := foldl (fun s ch => upd ch (set_parent (Some r)) s) s0 cs in
  (forall v, task_at s1 v = if decide (v ∈ cs) then set_parent (Some r) (task_at s0 v) else task_at s0 v) /\ cpu_at s1 = cpu_at s0 /\
  sleep_queue s1 = sleep_queue s0 /\ locks s1 = locks s0 /\ init_reaper s1 = init_reaper s0.
Proof.
  induction cs as [| ch cs IH]; intros s0; cbn [foldl]; [by cbn |]. destruct (IH (upd ch (set_parent (Some r)) s0)) as (H1 & H2 & H3 & H4 & H5).
  rewrite H2, H3, H4, H5. split; [| done]. intros v. rewrite H1. destruct (decide (ch = v)) as [-> | N].
  - rewrite (decide_True (P := v ∈ v :: cs)) by (by left). unfold upd. simpl. rewrite fn_lookup_insert. by destruct (decide (v ∈ cs)).
  - unfold upd. simpl. rewrite fn_lookup_insert_ne by done. destruct (decide (v ∈ cs)) as [Hv | Hv]; [rewrite decide_True; [done | by right] |].
    rewrite decide_False; [done |]. by intros [-> | ?]%elem_of_cons.
Qed.

Lemma ex_exit status k : kstack (task_at s t) = FExit status :: k -> good (exec s c t (FExit status) k).
Proof.
  intros Hk. cbn [exec]. destruct (ex_frame s c t I Hon Hself _ _ Hk) as (Hnr & Hni). destruct (ex_cases s c t I Hon Hself _ _ Hk) as [Hst [[Hl Hc] | [_ Hc]]]; [| done].
  simpl in Hc. apply plain_eq in Hc as ->. pose proof (run_alive s c t I Hon Hself) as Ht.
  destruct (locks s WAIT_LOCK); [done |]. unfold exit_reparent. destruct (children (task_at s t)) as [| x0 cs0] eqn:Ecs.
  - apply good_ret. eapply (inv_goto s c t [FExit status; FRun true [] 0]); [| done]. apply ex_swap; try done. by left.
  - destruct (init_reaper s) as [r |] eqn:Er; [| by apply (i_has_reaper s I c Hon) in Er]. assert (Nrt : r <> t) by congruence.
    assert (Hra : alive (task_at s r) = true) by (by apply (i_reaper s I)). apply good_ret. rewrite <- Ecs. set (cs := children (task_at s t)) in *.
    destruct (reparent_all r cs s) as (F1 & F2 & F3 & F4 & F5). set (s0 := foldl _ s cs) in *. clearbody s0. set (s1 := upd r _ _).
    assert (E : forall v, task_at s1 v = set_parent (if decide (v ∈ cs) then Some r else parent (task_at s v))
      (set_children (if decide (v = t) then [] else if decide (v = r) then cs ++ children (task_at s r) else children (task_at s v)) (task_at s v))).
    { intros v. assert (Ev : task_at s0 v = set_parent (if decide (v ∈ cs) then Some r else parent (task_at s v)) (task_at s v)).
      { rewrite F1. destruct (decide (v ∈ cs)); [done |]. by destruct (task_at s v). }
      assert (Ecr : children (task_at s0 r) = children (task_at s r)) by (rewrite F1; by destruct (decide (r ∈ cs))).
      unfold s1. destruct (decide (v = t)) as [-> | N1]; [at_self; by rewrite Ev |]. destruct (decide (v = r)) as [-> | N2]; at_self; rewrite Ev; [by rewrite <- Ecr, F1; destruct (decide _) |].
      by destruct (task_at s v). }
    assert (I1 : inv s1).
    { eapply (inv_family s s1 I); [done | done | done | done | exact E | ..]; cbv beta.
      - intros v ch Hv. destruct (decide (v = t)) as [-> | N1]; [by intros ?%not_elem_of_nil |]. destruct (decide (v = r)) as [-> | N2].
        + intros [Hx | Hx]%elem_of_app; [rewrite decide_True by done; by destruct (i_children s I t ch Ht Hx) as (? & _ & ?) |].
          destruct (i_children s I r ch Hra Hx) as (? & E1 & ?). case_decide as Hy; [done |]. done.
        + intros Hx. destruct (i_children s I v ch Hv Hx) as (? & E1 & ?). rewrite decide_False; [done |]. intros Hy. by apply N1, (only_parent v ch).
      - intros v Hv. destruct (decide (v = t)) as [-> | N1]; [constructor |]. destruct (decide (v = r)) as [-> | N2]; [| by apply I].
        apply list.NoDup_app. split_and!; [by apply I | | by apply I]. intros x Hx Hy. by apply N1, (only_parent r x).
      - intros v Hv Hv'. destruct (decide (v = t)); [done |]. rewrite decide_False by congruence. done.
      - intros u Hu. destruct (decide (u = t)); [by left | right]. destruct (decide (u = r)) as [-> | N]; [apply list_subseteq_app_r; reflexivity | reflexivity].
      - intros u f Hu Hf Hx. destruct f; try done. destruct todo; [done |]. destruct (decide (u = t)) as [-> | N].
        { rewrite Hk in Hf. apply elem_of_cons in Hf as [? | Hf]; [done |]. by apply list_elem_of_singleton in Hf. }
        destruct (decide (u = r)) as [-> | N']; [| done]. rewrite Ecs in Hx. done.
      - intros q Hq u Hu. destruct (decide (u = t)) as [-> | N]; [by intros ?%not_elem_of_nil |]. destruct (decide (u = r)) as [-> | N']; [| by apply Hq].
        intros [Hx | Hx]%elem_of_app; [by apply (Hq t) in Hx | by apply (Hq r) in Hx]. }
    assert (Et : forall A (g : task -> A), (forall P C x, g (set_parent P (set_children C x)) = g x) -> g (task_at s1 t) = g (task_at s t)) by (intros A g Hg; rewrite E; apply Hg).
    assert (Hc1 : cpu_at s1 = cpu_at s) by done.
    eapply (inv_goto s1 c t [FExit status; FRun true [] 0]); [| done].
    apply (ex_moves s1 c t I1) with (fs := [FWakeSpec r; FExitLock status]) (k := [FRun true [] 0]); try done; rewrite ?(Et _ state), ?(Et _ locked), ?(Et _ kstack), ?Hst, ?Hl; try done.
    + unfold on. by rewrite Hc1.
    + by rewrite Hc1.
    + apply list.Forall_cons. split; [done |]. apply list.Forall_singleton. split_and!; [rewrite E; simpl; by rewrite decide_True | unfold s1; simpl; rewrite F5, Er; done | by apply (not_idle_same s1)].
Qed.

(** ** Calls *)

(** The code of a task, or of a handler, goes on at [fs ++ k]. *)
Lemma ex_enter fs k : kstack (task_at s t) = k -> state (task_at s t) = TASK_STATE_RUNNING -> locked (task_at s t) = false -> code k = true -> code (fs ++ k) = true ->
  depth (fs ++ k) = depth k -> hands fs = [] -> held fs = [] -> Forall (frame_ok s t) fs -> inv (goto t (fs ++ k) s).
Proof.
  intros Hk Hst Hl Hc Hc' Hd Hh Hhl Hf. apply (inv_goto s c t k); [split; try done |].
  - by apply code_on.
  - by apply code_on.
  - unfold hands in *. by rewrite bind_app, Hh.
  - rewrite Hst, Hl. by apply code_on.
  - by rewrite Hst.
  - intros f [Hx | Hx]%elem_of_app; [right; by eapply list.Forall_forall | by left].
  - unfold held in *. by rewrite bind_app, Hhl.
Qed.

Lemma irqs_code : irqs_on (kstack (task_at s t)) = true -> state (task_at s t) = TASK_STATE_RUNNING /\ locked (task_at s t) = false /\ code (kstack (task_at s t)) = true.
Proof.
  intros Hi. pose proof (ex_stack s c t I Hon Hself) as Ho.
  assert (Hr : forall k, irqs_on k = true -> resuming k = false) by (induction k as [| [] k IH]; done).
  specialize (Hr _ Hi). apply on_stack_cases in Ho. destruct (kstack (task_at s t)) as [| [] k]; try done; destruct Ho as [? [[? ?] | [_ Ho]]]; try done; congruence.
Qed.

Lemma run_code i h n k : kstack (task_at s t) = FRun i h n :: k -> state (task_at s t) = TASK_STATE_RUNNING /\ locked (task_at s t) = false /\ code (FRun i h n :: k) = true.
Proof. intros Hk. by destruct (ex_cases s c t I Hon Hself _ _ Hk) as [? [[? ?] | [_ ?]]]. Qed.

Lemma code_run i h n k : code (FRun i h n :: k) = true -> 0 <= n /\ (i = true -> k = []) /\ (i = false -> code k = true) /\
  forall h' n', 0 <= n' -> code (FRun i h' n' :: k) = true.
Proof.
  destruct k as [| f k]; intros H.
  - simpl in H. apply andb_true_iff in H as [-> H]. split_and!; try done; [lia |]. intros h' n' Hn. simpl. lia.
  - change (negb i && (0 <=? n) && code (f :: k) = true) in H. rewrite !andb_true_iff in H. destruct H as [[H1 H2] H3]. destruct i; [done |].
    split_and!; try done; [lia |]. intros h' n' Hn. change (negb false && (0 <=? n') && code (f :: k) = true). rewrite H3. simpl. lia.
Qed.

Lemma code_depth k : code k = true -> 0 <= depth k.
Proof.
  induction k as [| f k IH]; [done |]. intros H. destruct f.
  1: { destruct (code_run _ _ _ _ H) as (H1 & H2 & H3 & _). change (0 <= n + depth k). destruct irqs; [rewrite H2 by done; simpl; lia |]. specialize (IH (H3 eq_refl)). lia. }
  all: simpl in H |- *; try done; try (by apply IH); try (apply plain_eq in H as ->; done); try (destruct (asleep_cases _ _ H) as [-> | (_ & pid & o & ->)]; done).
  apply andb_true_iff in H as [H _]. by apply IH.
Qed.

Lemma ex_lock lk i h n k : kstack (task_at s t) = FRun i h n :: k -> locks s lk = false -> inv (goto t (FRun i (lk :: h) n :: k) (setlock lk true s)).
Proof.
  intros Hk Hf. destruct (run_code _ _ _ _ Hk) as (Hst & Hl & Hc). destruct (code_run _ _ _ _ Hc) as (Hn & _ & _ & Hc').
  eapply (inv_take s c t (FRun i h n :: k)); [| done | done]. apply ex_swap; try done. left. auto.
Qed.

Lemma ex_unlock lk i h n k : kstack (task_at s t) = FRun i (lk :: h) n :: k -> inv (goto t (FRun i h n :: k) (setlock lk false s)).
Proof.
  intros Hk. destruct (run_code _ _ _ _ Hk) as (Hst & Hl & Hc). destruct (code_run _ _ _ _ Hc) as (Hn & _ & _ & Hc').
  eapply (inv_release_only s c t (FRun i (lk :: h) n :: k)); [| done]. apply ex_swap; try done. left. auto.
Qed.

(** The stack stays code and the count of [preempt_disable]s, or a pending interrupt, of the CPU changes. *)
Lemma ex_count s' g k k' : kstack (task_at s t) = k -> state (task_at s t) = TASK_STATE_RUNNING -> locked (task_at s t) = false -> code k = true -> code k' = true ->
  hands k' = hands k -> held k' = held k -> (forall f, f ∈ k' -> f ∈ k \/ frame_ok s t f) -> cpu_core (cpu_at s c) (g (cpu_at s c)) ->
  preempt_count (g (cpu_at s c)) = depth k' -> (forall u, u <> t -> task_at s' u = task_at s u) -> task_at s' t = set_kstack k' (task_at s t) ->
  cpu_at s' = cpu_at (updc c g s) -> sleep_queue s' = sleep_queue s -> locks s' = locks s -> init_reaper s' = init_reaper s -> inv s'.
Proof.
  intros Hk Hst Hl Hc Hc' Hh Hhe Hf Hg Hp Ev Et Hcpu Es1 Es2 Es3. pose proof (run_alive s c t I Hon Hself) as Ht.
  assert (Ec : cpu_at s' c = g (cpu_at s c)) by (rewrite Hcpu; by at_self).
  assert (Eo : forall d, d <> c -> cpu_at s' d = cpu_at s d) by (intros d Hd; rewrite Hcpu; by at_self).
  destruct (held_same _ Hk) as (Hl1 & Hl2 & Hl3).
  eapply (inv_local s s' c t I Hon Hself); rewrite ?Et, ?Ec, ?Es1, ?Es2, ?Hk; simpl; rewrite ?Hst, ?Hl, ?Hh, ?Hhe; try done.
  - intros d. destruct (decide (d = c)) as [-> | N]; [by rewrite Ec | rewrite Eo by done; apply cpu_core_refl].
  - intros d N. by rewrite Eo.
  - by apply still_unswitched, code_on.
  - by apply still_unswitched, code_on.
  - by apply code_on.
  - apply I.
  - intros Hx. apply (i_sq_task s I) in Hx as (_ & ? & _). congruence.
  - intros lk Hx. destruct (Hl2 lk Hx). split; [done | by left].
Qed.

(** A new task structure comes into the hands of the running task. *)
Lemma ex_create f space p : kstack (task_at s t) = [FRun true [] 0] -> fresh s p = true -> f = FLink p \/ f = FStart p ->
  inv (goto t [f; FRun true [] 0] (upd p (fun _ => task_create c space p (jiffies s)) s)).
Proof.
  intros Hk Hfr Hf. destruct (run_code _ _ _ _ Hk) as (Hst & Hl & Hc). pose proof (run_alive s c t I Hon Hself) as Ht. set (s' := goto t _ _).
  unfold fresh in Hfr. rewrite !andb_true_iff, negb_true_iff in Hfr. destruct Hfr as [[Hp1 Hp2] Hd].
  assert (Npt : p <> t) by congruence. destruct (held_same _ Hk) as (Hl1 & Hl2 & Hl3). destruct Hon as [Hcr _].
  assert (Et : task_at s' t = set_kstack [f; FRun true [] 0] (task_at s t)) by (unfold s'; by at_self).
  assert (Ep : task_at s' p = task_create c space p (jiffies s)) by (unfold s'; by at_self).
  assert (Eo : forall u, u <> t -> u <> p -> task_at s' u = task_at s u) by (intros u Hu Hv; unfold s'; by at_self).
  assert (Hni : ~ idle_of s p) by (intros [d E]; apply (i_idle s I) in E as (_ & ? & _); congruence).
  assert (Hnl : on_no_list s p) by (intros u Hu Hx; apply (i_children s I u p Hu) in Hx as (? & _); congruence).
  assert (Hnl' : on_no_list s' p).
  { intros u Hu. destruct (decide (u = t)) as [-> | N1]; [rewrite Et; by apply Hnl |]. destruct (decide (u = p)) as [-> | N2]; [rewrite Ep; by intros ?%not_elem_of_nil |].
    rewrite Eo in Hu |- * by done. by apply Hnl. }
  assert (Hh : hands [f; FRun true [] 0] = [p]) by (by destruct Hf as [-> | ->]).
  eapply (inv_deal_quiet s' p (FRun true [] 0) [f; FRun true [] 0] []); rewrite ?Et, ?Ep, ?app_nil_r; try done.
  - by destruct Hf as [-> | ->].
  - by destruct Hf as [-> | ->].
  - rewrite Hl. by destruct Hf as [-> | ->].
  - congruence.
  - intros _. cbn [tcpu oncpu locked state kstack task_create]. split_and!; try done; lia.
  - intros _. by right.
  - intros d Hd' Hx. apply (i_rq_task s I d p Hd') in Hx as (? & _). congruence.
  - intros Hx. apply (i_sq_task s I) in Hx as (? & _). congruence.
  - apply list_subseteq_nil.
  - by intros ?%not_elem_of_nil.
  - by right.
  - intros u _ Hu Hx. apply (hand_state s u p I Hu) in Hx as [[? _] _]. congruence.
  - apply list.Forall_cons. split; [| by apply list.Forall_singleton]. destruct Hf as [-> | ->]; (split_and!; [split; by rewrite Ep | by rewrite Ep | by apply (not_idle_same s') |..]); try done. by rewrite Ep.
  - by right.
  - destruct Hf as [-> | ->]; constructor.
  - destruct Hf as [-> | ->]; by intros lk ?%not_elem_of_nil.
  - by left.
  - by apply I.
  - intros Hx. by apply (Hnl t) in Hx.
  - intros u Hu _ Hx. by apply Hnl in Hx.
Qed.
End dealing.

Lemma run_good s c : inv s -> good (run s c).
Proof.
  intros I. unfold run. destruct (negb _) eqn:E; [done |]. apply negb_false_iff in E. rewrite !andb_true_iff in E. destruct E as [[E1 E2] E3].
  assert (Hon : on s c) by (split; [lia | done]). destruct (kstack (task_at s (self (cpu_at s c)))) as [| f k] eqn:Hk; [done |].
  destruct f; try done; eauto using ex_tick, ex_yield, ex_yield_end, ex_new, ex_sleep_unlock, ex_sleep_end, ex_sleep_lock, ex_scan0, ex_wait, ex_join, ex_select, ex_sleep, ex_sleep_pub,
    ex_exit_lock, ex_sched, ex_pick, ex_switch, ex_resume, ex_wake_all, ex_wake_spec, ex_enqueue, ex_start, ex_link, ex_destroy, ex_scan, ex_exit.
  destruct (ex_cases s c _ I Hon eq_refl _ _ Hk) as [_ [[_ ?] | [_ ?]]]; done.
Qed.

Section calls.
Context (s : sys) (c t : Z) (I : inv s) (Hon : on s c) (Hself : self (cpu_at s c) = t).

Ltac at_self := sys_simpl; repeat (rewrite fn_lookup_insert || (rewrite fn_lookup_insert_ne by congruence)).

Lemma not_idle : idle (cpu_at s c) <> Some t -> ~ idle_of s t.
Proof.
  intros N [d Hd]. destruct (i_idle s I d t Hd) as (_ & _ & _ & E). rewrite (run_tcpu s c t I Hon Hself) in E. by subst d.
Qed.

Lemma call_count i h n n' k : kstack (task_at s t) = FRun i h n :: k -> 0 <= n' ->
  inv (goto t (FRun i h n' :: k) (updc c (set_preempt_count (preempt_count (cpu_at s c) + (n' - n))) s)).
Proof.
  intros Hk Hn'. destruct (run_code s c t I Hon Hself _ _ _ _ Hk) as (Hst & Hl & Hc). destruct (code_run _ _ _ _ Hc) as (Hn & _ & _ & Hc').
  eapply (ex_count s c t I Hon Hself _ (set_preempt_count (preempt_count (cpu_at s c) + (n' - n))) (FRun i h n :: k) (FRun i h n' :: k)); try done; [by apply Hc' | | | |].
  - intros f [-> | Hf]%elem_of_cons; [by right | left; by right].
  - cbn [preempt_count set_preempt_count]. rewrite (ex_depth s c t I Hon Hself), Hk. change (n + depth k + (n' - n) = n' + depth k). lia.
  - intros u Hu. by at_self.
  - by at_self.
Qed.

Lemma call_push f k : kstack (task_at s t) = k -> irqs_on k = true -> (forall k', k <> [] -> code k' = true -> k' = k -> code (f :: k') = true) ->
  depth1 f = 0 -> hands1 f = [] -> held1 f = [] -> frame_ok s t f -> inv (goto t (f :: k) s).
Proof.
  intros Hk Hi Hf Hd Hh Hl Hok. destruct (irqs_code s c t I Hon Hself) as (Hst & Hlk & Hc); [by rewrite Hk |]. rewrite Hk in Hc.
  apply (ex_enter s c t I Hon Hself [f]); try done; simpl.
  - apply Hf; try done. by intros ->.
  - by rewrite Hd.
  - unfold hands. simpl. by rewrite Hh.
  - unfold held. simpl. by rewrite Hl.
  - by apply list.Forall_singleton.
Qed.

(** The code of a task, or of a handler, calls a routine [f]. *)
Lemma call_enter i h n f k : kstack (task_at s t) = FRun i h n :: k -> code (f :: FRun i h n :: k) = true -> depth1 f = 0 -> hands1 f = [] -> held1 f = [] ->
  frame_ok s t f -> good (Some (Ret (goto t (f :: FRun i h n :: k) s))).
Proof.
  intros Hk Hf Hd Hh Hl Hok. destruct (run_code s c t I Hon Hself _ _ _ _ Hk) as (Hst & Hlk & Hc). apply good_ret.
  apply (ex_enter s c t I Hon Hself [f]); try done; simpl.
  - by rewrite Hd.
  - unfold hands. simpl. by rewrite Hh.
  - unfold held. simpl. by rewrite Hl.
  - by apply list.Forall_singleton.
Qed.

(** Code that may sleep. *)
Lemma plain_call : bool_decide (kstack (task_at s t) = [FRun true [] 0]) && (preempt_count (cpu_at s c) =? 0) && negb (bool_decide (idle (cpu_at s c) = Some t)) = true ->
  kstack (task_at s t) = [FRun true [] 0] /\ ~ idle_of s t.
Proof.
  rewrite !andb_true_iff, bool_decide_eq_true, negb_true_iff, bool_decide_eq_false. intros [[H _] H']. split; [done | by apply not_idle].
Qed.

Lemma call_ipi : irqs_on (kstack (task_at s t)) = true ->
  good (if preempt_count (cpu_at s c) =? 0 then Some (Ret (goto t (FYield :: kstack (task_at s t)) (updc c (set_ipi false) s))) else Some (Ret (updc c (set_ipi false) s))).
Proof.
  intros Hi. destruct (irqs_code s c t I Hon Hself Hi) as (Hst & Hlk & Hc). pose proof (ex_depth s c t I Hon Hself) as Hd. set (k := kstack (task_at s t)) in *.
  destruct (preempt_count (cpu_at s c) =? 0) eqn:E; apply good_ret.
  - eapply (ex_count s c t I Hon Hself _ (set_ipi false) k (FYield :: k)); try done.
    + simpl. rewrite Hc, <- Hd, E. done.
    + intros f [-> | Hf]%elem_of_cons; [by right | by left].
    + intros u Hu. by at_self.
    + by at_self.
  - eapply (ex_count s c t I Hon Hself _ (set_ipi false) k k); try done; [by left |]. unfold k. simpl. by destruct (task_at s t).
Qed.
End calls.

Lemma code_irqs_nonempty k : irqs_on k = true -> k <> [].
Proof. by destruct k. Qed.

Lemma call_good s c a : inv s -> good (call s c a).
Proof.
  intros I. unfold call. destruct (negb _) eqn:E; [done |]. apply negb_false_iff in E. rewrite !andb_true_iff in E. destruct E as [[E1 E2] E3].
  assert (Hon : on s c) by (split; [lia | done]). set (t := self (cpu_at s c)). assert (Hself : self (cpu_at s c) = t) by done. clearbody t.
  set (k := kstack (task_at s t)). assert (Hk : kstack (task_at s t) = k) by done. pose proof (plain_call s c t I Hon Hself) as Hplain. rewrite Hk in Hplain.
  pose proof (ex_depth s c t I Hon Hself) as Hd. rewrite Hk in Hd.
  assert (Hpush : forall f, irqs_on k = true -> code k = true -> code (f :: k) = true -> depth1 f = 0 -> hands1 f = [] -> held1 f = [] -> frame_ok s t f -> good (Some (Ret (goto t (f :: k) s)))).
  { intros f Hi Hck Hf Hdf Hh Hl Hok. apply good_ret. apply call_push with (c := c); try done. by intros k' _ _ ->. }
  clearbody k. destruct a.
  - destruct k as [| [] k]; try done. destruct (_ || _) eqn:El; [done |]. apply orb_false_iff in El as [_ El]. apply good_ret. by apply ex_lock with (c := c).
  - destruct k as [| [] k]; try done. rename irqs into i. destruct held as [| lk' h]; [done |]. destruct (lk =? lk') eqn:El; [| done]. apply Z.eqb_eq in El as ->. apply good_ret. by apply ex_unlock with (c := c).
  - destruct k as [| [] k]; try done. rename irqs into i, held into h. apply good_ret. destruct (run_code s c t I Hon Hself _ _ _ _ Hk) as (_ & _ & Hc). destruct (code_run _ _ _ _ Hc) as (Hn & _).
    pose proof (call_count s c t I Hon Hself _ _ _ (n + 1) _ Hk) as H. replace (n + 1 - n) with 1 in H by lia. apply H. lia.
  - destruct k as [| [] k]; try done. rename irqs into i, held into h. destruct (0 <? n) eqn:En; [| done]. destruct (run_code s c t I Hon Hself _ _ _ _ Hk) as (_ & _ & Hc).
    destruct (code_run _ _ _ _ Hc) as (Hn & Hi & Hi' & _). assert (Hdk : 0 <= depth k) by (destruct i; [rewrite Hi by done; done | by apply code_depth, Hi']).
    simpl in Hd. unfold preempt_enable. rewrite Hd. assert (Ep : (0 <? n + depth k) = true) by lia. rewrite Ep. apply good_ret.
    pose proof (call_count s c t I Hon Hself _ _ _ (n - 1) _ Hk) as H. rewrite Hd in H. replace (n + depth k + (n - 1 - n)) with (n + depth k - 1) in H by lia. apply H. lia.
  - destruct k as [| [] k]; try done. destruct irqs, held; try done. destruct (preempt_count (cpu_at s c) =? 0) eqn:Ep; [| done].
    destruct (run_code s c t I Hon Hself _ _ _ _ Hk) as (_ & _ & Hc). destruct (code_run _ _ _ _ Hc) as (Hn & Hi & _). apply Hpush; try done.
    change (code (FRun true [] n :: k) && (depth (FRun true [] n :: k) =? 0) = true). by rewrite Hc, <- Hd, Ep.
  - destruct k as [| [] k]; try done. destruct irqs, held as [| lk' []], k; try done. case_match eqn:Ep; [| done]. rewrite !andb_true_iff, negb_true_iff, bool_decide_eq_false in Ep.
    destruct Ep as [[->%Z.eqb_eq E0%Z.eqb_eq] Hi]. apply (not_idle s c t I Hon Hself) in Hi. destruct (run_code s c t I Hon Hself _ _ _ _ Hk) as (Hst & Hl & Hc).
    apply good_ret. apply (inv_goto s c t [FRun true [lk'] n]); [split; try done | done]; [simpl in *; lia | by rewrite Hst, Hl | by rewrite Hst |].
    intros f [-> | Hf]%elem_of_cons; [by right | right]. by apply list_elem_of_singleton in Hf as ->.
  - destruct k as [| [] k]; try done. rename irqs into i, held into h. destruct (run_code s c t I Hon Hself _ _ _ _ Hk) as (_ & _ & Hc). by apply call_enter with (c := c).
  - destruct k as [| [] k]; try done. rename irqs into i, held into h. destruct (run_code s c t I Hon Hself _ _ _ _ Hk) as (_ & _ & Hc). by apply call_enter with (c := c).
  - destruct (_ && fresh s p) eqn:Ep; [| done]. apply andb_true_iff in Ep as [Ep Hf]. destruct (Hplain Ep) as [-> _]. apply good_ret. apply ex_create with (c := c); try done. by left.
  - destruct (_ && fresh s p) eqn:Ep; [| done]. apply andb_true_iff in Ep as [Ep Hf]. destruct (Hplain Ep) as [-> _]. apply good_ret. apply ex_create with (c := c); try done. by right.
  - destruct (_ && negb (bool_decide (init_reaper s = Some t))) eqn:Ep; [| done]. apply andb_true_iff in Ep as [Ep Hr]. destruct (Hplain Ep) as [-> Hi].
    apply negb_true_iff, bool_decide_eq_false in Hr. by apply Hpush.
  - case_match; [| done]. destruct (Hplain eq_refl) as [-> Hi]. by apply Hpush.
  - destruct k as [| [] k]; try done. destruct irqs, held, n; try done. destruct (run_code s c t I Hon Hself _ _ _ _ Hk) as (Hst & Hl & Hc). destruct (code_run _ _ _ _ Hc) as (_ & _ & Hc' & _).
    apply good_ret. apply (inv_goto s c t (FRun false [] 0 :: k)); [| done]. apply ex_pop; try done. left. auto.
  - destruct (irqs_on k) eqn:Ei; [| done]. rewrite <- Hk in Ei. destruct (irqs_code s c t I Hon Hself Ei) as (Hst & Hl & Hc). rewrite Hk in Hc, Ei. apply Hpush; try done. by destruct k.
  - destruct (irqs_on k && ipi (cpu_at s c)) eqn:Ei; [| done]. apply andb_true_iff in Ei as [Ei _]. rewrite <- Hk in Ei |- *. by apply call_ipi.
  - destruct (irqs_on k) eqn:Ei; [| done]. rewrite <- Hk in Ei. destruct (irqs_code s c t I Hon Hself Ei) as (Hst & Hl & Hc). rewrite Hk in Hc, Ei. apply good_ret.
    unfold handle_tick. destruct (c =? BOOT_CPU); [| by apply (ex_enter s c t I Hon Hself [FTick]); try done; repeat constructor]. set (s1 := set_jiffies _ s). assert (I1 : inv s1) by (by apply (inv_unchanged s)). apply (ex_enter s1 c t I1 Hon Hself [FWakeAll JIFFIES; FTick]); try done. by repeat constructor.
Qed.

(** ** A CPU starts *)

Section boot.
Context (s : sys) (c i d : Z) (I : inv s) (Hb : may_boot s c i d = true).

Definition booted : sys := task_scheduler s c i d.

Lemma boot_facts : 0 <= c < MAX_CPUS /\ online (cpu_at s c) = false /\ (c = BOOT_CPU \/ on s BOOT_CPU) /\ i <> d /\
  0 <= i < NR_TASKS /\ alive (task_at s i) = false /\ 0 <= d < NR_TASKS /\ alive (task_at s d) = false.
Proof.
  unfold may_boot, fresh in Hb. rewrite !andb_true_iff, !negb_true_iff, orb_true_iff in Hb.
  destruct Hb as ((((((Hb1 & Hb2) & Hb3) & Hb4) & ((Hb5 & Hb6) & Hb7)) & ((Hb8 & Hb9) & Hb10)) & Hb11). split_and!; try done; try lia.
  destruct Hb1 as [Hb1 | Hb1]; [left; lia | right; split; [done | done]].
Qed.

Lemma boot_tasks : task_at booted i = init_task_setup c (c =? BOOT_CPU) (jiffies s) /\ task_at booted d = task_create_idle c /\
  (forall u, alive (task_at s u) = true -> task_at booted u = task_at s u) /\ (forall u, u <> i -> u <> d -> task_at booted u = task_at s u).
Proof.
  destruct boot_facts as (_ & _ & _ & Nid & _ & Hi & _ & Hd).
  assert (H : forall u, task_at booted u = if decide (u = d) then task_create_idle c else if decide (u = i) then init_task_setup c (c =? BOOT_CPU) (jiffies s) else task_at s u).
  { intros u. unfold booted, task_scheduler. transitivity (task_at (upd d (fun _ => task_create_idle c) (upd i (fun _ => init_task_setup c (c =? BOOT_CPU) (jiffies s)) s)) u);
      [by destruct (c =? BOOT_CPU) |]. sys_simpl. destruct (decide (u = d)) as [-> | N1]; [by rewrite fn_lookup_insert |]. rewrite fn_lookup_insert_ne by done.
    destruct (decide (u = i)) as [-> | N2]; [by rewrite fn_lookup_insert | by rewrite fn_lookup_insert_ne]. }
  split_and!; [rewrite H | rewrite H | |].
  - rewrite decide_False by done. by rewrite decide_True.
  - by rewrite decide_True.
  - intros u Hu. rewrite H, decide_False, decide_False; [done | congruence | congruence].
  - intros u N1 N2. by rewrite H, decide_False, decide_False.
Qed.

Lemma boot_cpus : (forall e, e <> c -> cpu_at booted e = cpu_at s e) /\
  cpu_at booted c = set_self i (set_handoff None (set_current (Some i) (set_idle (Some d) (set_preempt_count 0 (set_online true (set_pgd None (cpu_at s c))))))).
Proof.
  unfold booted, task_scheduler. split; [intros e He |]; destruct (c =? BOOT_CPU); sys_simpl; by rewrite ?fn_lookup_insert, ?fn_lookup_insert_ne.
Qed.

Lemma boot_rest : sleep_queue booted = sleep_queue s /\ locks booted = locks s /\ init_reaper booted = if c =? BOOT_CPU then Some i else init_reaper s.
Proof. unfold booted, task_scheduler. by destruct (c =? BOOT_CPU). Qed.

Lemma boot_on e : on booted e <-> on s e \/ e = c.
Proof.
  destruct boot_facts as (Hc & Ho & _). destruct boot_cpus as [E1 E2]. unfold on. destruct (decide (e = c)) as [-> | N]; [| rewrite E1 by done; tauto].
  rewrite E2. simpl. tauto.
Qed.

Lemma boot_not_on e : on s e -> e <> c.
Proof. destruct boot_facts as (_ & Ho & _). intros [_ He] ->. congruence. Qed.

Lemma boot_idle_of v : idle_of booted v <-> idle_of s v \/ v = d.
Proof.
  destruct boot_cpus as [E1 E2]. split.
  - intros [e He]. destruct (decide (e = c)) as [-> | N]; [rewrite E2 in He; simpl in He; right; congruence | left; exists e; by rewrite <- E1].
  - intros [[e He] | ->]; [| exists c; by rewrite E2]. exists e. rewrite E1; [done |]. apply boot_not_on. by apply (i_idle s I) in He as [? _].
Qed.

Lemma boot_handoff e v : on s e -> handoff (cpu_at s e) = Some v -> alive (task_at s v) = true.
Proof.
  intros He Hv. pose proof (i_handoff s I e He) as H. destruct (head (kstack (task_at s (self (cpu_at s e))))) as [[] |]; rewrite Hv in H; try done.
  - injection H as ->. by apply I.
  - destruct H as (p & [= <-] & _ & H & _). done.
Qed.

Lemma boot_leaving v : leaving booted v <-> leaving s v.
Proof.
  destruct boot_cpus as [E1 E2]. destruct boot_tasks as (T1 & _ & T3 & _). split.
  - intros (e & He & H). apply boot_on in He as [He | ->].
    + exists e. split; [done |]. rewrite E1 in H by (by apply boot_not_on). destruct H as [H | [H1 H2]]; [by left | right]. split; [done |].
      rewrite T3 in H2; [done |]. rewrite <- H1. by apply I.
    + rewrite E2 in H. simpl in H. destruct H as [H | [<- H]]; [done |]. rewrite T1 in H. unfold init_task_setup in H. by destruct (c =? BOOT_CPU).
  - intros (e & He & H). exists e. split; [apply boot_on; by left |]. rewrite E1 by (by apply boot_not_on). destruct H as [H | [H1 H2]]; [by left | right]. split; [done |].
    rewrite T3; [done |]. rewrite <- H1. by apply I.
Qed.

(** A task of the new state: the bootstrap task, the idle task, or an old one. *)
Lemma boot_alive u : alive (task_at booted u) = true -> u = i \/ u = d \/ u <> i /\ u <> d /\ alive (task_at s u) = true /\ task_at booted u = task_at s u.
Proof.
  destruct boot_tasks as (_ & _ & _ & T). intros H. destruct (decide (u = i)) as [-> | N1]; [by left |]. destruct (decide (u = d)) as [-> | N2]; [by right; left |].
  right; right. rewrite T in H |- * by done. done.
Qed.

Lemma boot_new u : u = i \/ u = d -> hands (kstack (task_at booted u)) = [] /\ held (kstack (task_at booted u)) = [] /\ children (task_at booted u) = [].
Proof.
  destruct boot_tasks as (T1 & T2 & _). intros [-> | ->]; rewrite ?T1, ?T2; unfold init_task_setup; by destruct (c =? BOOT_CPU).
Qed.

Lemma boot_no_list q : on_no_list s q -> on_no_list booted q.
Proof.
  intros H u Hu. destruct (boot_alive u Hu) as [E | [E | (_ & _ & Ha & ->)]]; [| | by apply H].
  all: destruct (boot_new u) as (_ & _ & ->); [tauto |]; by intros ?%not_elem_of_nil.
Qed.

Lemma boot_off p : off s p -> off booted p /\ task_at booted p = task_at s p.
Proof. destruct boot_tasks as (_ & _ & T & _). intros [H1 H2]. rewrite (T p H1). split; [| done]. split; by rewrite (T p H1). Qed.

Lemma boot_not_idle p : alive (task_at s p) = true -> ~ idle_of s p -> ~ idle_of booted p.
Proof. destruct boot_facts as (_ & _ & _ & _ & _ & _ & _ & Hd). rewrite boot_idle_of. intros Ha H [? | ->]; [done | congruence]. Qed.

Lemma boot_reaper u : alive (task_at s u) = true -> init_reaper s <> Some u -> init_reaper booted <> Some u.
Proof. destruct boot_facts as (_ & _ & _ & _ & _ & Hi & _). destruct boot_rest as (_ & _ & ->). intros Ha H. destruct (c =? BOOT_CPU); [congruence | done]. Qed.

Lemma boot_frame u f : alive (task_at s u) = true -> frame_ok s u f -> frame_ok booted u f.
Proof.
  intros Hu. pose proof (boot_not_idle u Hu) as Hui. pose proof (boot_reaper u Hu) as Hr. destruct boot_tasks as (_ & _ & T & _). pose proof (T u Hu) as Tu.
  assert (Hp : forall p, off s p -> off booted p /\ task_at booted p = task_at s p /\ (~ idle_of s p -> ~ idle_of booted p) /\ (on_no_list s p -> on_no_list booted p)).
  { intros p Ho. destruct (boot_off p Ho). split_and!; try done; [apply boot_not_idle; apply Ho | apply boot_no_list]. }
  destruct f; simpl; rewrite ?Tu; try tauto; intros (H1 & H2).
  all: match type of H1 with off s ?p => destruct (Hp p H1) as (P1 & -> & P3 & P4) end; try tauto.
  destruct H2 as (H2 & H3 & H4). split_and!; try done. intros Hx. apply boot_idle_of in Hx as [Hx | ->].
  - destruct boot_cpus as [E1 _]. rewrite E1; [by apply H3 |]. apply boot_not_on. destruct Hx as [e Hx]. destruct (i_idle s I e _ Hx) as (He & _ & _ & ->). done.
  - destruct boot_facts as (_ & _ & _ & _ & _ & _ & _ & Hd). destruct H1 as [H1 _]. congruence.
Qed.

(** What the idle and the bootstrap task have in common with the old ones. *)
Lemma boot_hands u q : alive (task_at booted u) = true -> q ∈ hands (kstack (task_at booted u)) -> alive (task_at s u) = true /\ q ∈ hands (kstack (task_at s u)).
Proof.
  intros Hu Hq. destruct (boot_alive u Hu) as [E | [E | (_ & _ & Ha & Et)]]; [| | by rewrite Et in Hq].
  all: destruct (boot_new u) as (Eh & _); [tauto |]; rewrite Eh in Hq; by apply not_elem_of_nil in Hq.
Qed.

Lemma boot_held u lk : alive (task_at booted u) = true -> lk ∈ held (kstack (task_at booted u)) -> alive (task_at s u) = true /\ lk ∈ held (kstack (task_at s u)).
Proof.
  intros Hu Hq. destruct (boot_alive u Hu) as [E | [E | (_ & _ & Ha & Et)]]; [| | by rewrite Et in Hq].
  all: destruct (boot_new u) as (_ & Eh & _); [tauto |]; rewrite Eh in Hq; by apply not_elem_of_nil in Hq.
Qed.

Lemma boot_children u q : alive (task_at booted u) = true -> q ∈ children (task_at booted u) -> alive (task_at s u) = true /\ q ∈ children (task_at s u).
Proof.
  intros Hu Hq. destruct (boot_alive u Hu) as [E | [E | (_ & _ & Ha & Et)]]; [| | by rewrite Et in Hq].
  all: destruct (boot_new u) as (_ & _ & Eh); [tauto |]; rewrite Eh in Hq; by apply not_elem_of_nil in Hq.
Qed.

Lemma boot_nodup u : alive (task_at booted u) = true -> NoDup (hands (kstack (task_at booted u))) /\ NoDup (held (kstack (task_at booted u))) /\ NoDup (children (task_at booted u)).
Proof.
  intros Hu. destruct (boot_alive u Hu) as [E | [E | (_ & _ & Ha & ->)]]; [| | split_and!; by apply I].
  all: destruct (boot_new u) as (-> & -> & ->); [tauto |]; split_and!; constructor.
Qed.

Lemma boot_old e : on s e -> alive (task_at s (self (cpu_at s e))) = true /\ cpu_at booted e = cpu_at s e /\ task_at booted (self (cpu_at s e)) = task_at s (self (cpu_at s e)).
Proof.
  intros He. destruct boot_tasks as (_ & _ & T & _). destruct boot_cpus as [E1 _]. pose proof (i_self s I e He) as (Ha & _).
  split_and!; [done | by apply E1, boot_not_on | by apply T].
Qed.

Lemma boot_queue e : run_queue (cpu_at booted e) = run_queue (cpu_at s e) /\ nr_running (cpu_at booted e) = nr_running (cpu_at s e).
Proof. destruct boot_cpus as [E1 E2]. destruct (decide (e = c)) as [-> | N]; [by rewrite E2 | by rewrite E1]. Qed.

Lemma boot_init : exists k, kstack (task_at booted i) = k /\ alive (task_at booted i) = true /\ oncpu (task_at booted i) = c /\ tcpu (task_at booted i) = c /\ mm (task_at booted i) = None /\
  on_stack (state (task_at booted i)) (locked (task_at booted i)) k = true /\ depth k = 0 /\ still k /\ (forall f, f ∈ k -> frame_ok booted i f) /\
  (state (task_at booted i) = TASK_STATE_ZOMBIE -> init_reaper booted = init_reaper s) /\ state (task_at booted i) <> TASK_STATE_SLEEPING.
Proof.
  destruct boot_tasks as (T1 & _). destruct boot_rest as (_ & _ & R). rewrite T1, R. unfold init_task_setup. eexists. split; [done |].
  destruct (c =? BOOT_CPU); simpl; split_and!; try done; intros f Hf; repeat (apply elem_of_cons in Hf as [-> | Hf]; [done |]); by apply not_elem_of_nil in Hf.
Qed.

Lemma inv_booted : inv booted.
Proof.
  destruct boot_facts as (Hc & Hoff & Hboot & Nid & Hri & Hai & Hrd & Had). destruct boot_tasks as (T1 & T2 & T3 & T4). destruct boot_cpus as [E1 E2].
  destruct boot_rest as (R1 & R2 & R3). destruct boot_init as (ki & B1 & B2 & B3 & B4 & B5 & B6 & B7 & B8 & B9 & B10 & B11).
  assert (Hself : self (cpu_at booted c) = i) by (by rewrite E2). assert (Hrs : forall r, init_reaper s = Some r -> r <> i) by (intros r Hr ->; apply (i_reaper s I) in Hr; congruence).
  assert (Hx : forall u, u = d -> task_at booted u = task_create_idle c) by (by intros u ->).
  split; intros *; rewrite ?boot_leaving, ?R1, ?R2, ?(proj1 (boot_queue _)), ?(proj2 (boot_queue _)).
  - intros H. destruct (boot_alive t H) as [-> | [-> | (_ & _ & Ha & ->)]]; [by rewrite B4 | by rewrite T2 | by apply I].
  - intros [H | ->]%boot_on; [destruct (boot_old c0 H) as (_ & -> & ->); by apply I |]. by rewrite Hself, B1.
  - intros [H | ->]%boot_on; [destruct (boot_old c0 H) as (_ & -> & ->); by apply I |]. rewrite Hself, B1, B5, B7, E2. split_and!; try done. by destruct ki as [| []].
  - intros [H | ->]%boot_on; [| rewrite Hself, B1, E2; by destruct ki as [| []]]. destruct (boot_old c0 H) as (_ & -> & ->). pose proof (i_handoff s I c0 H) as H1.
    destruct (head (kstack (task_at s (self (cpu_at s c0))))) as [[] |]; try done. destruct H1 as (p & H1 & H2 & H3 & H4). exists p. by rewrite (T3 p H3).
  - intros H. destruct (decide (c0 = c)) as [-> | N].
    + rewrite E2 in H. injection H as <-. rewrite T2. split_and!; try done. apply boot_on. by right.
    + rewrite E1 in H by done. destruct (i_idle s I c0 d0 H) as (H1 & H2 & H3 & H4). rewrite (T3 _ H2). split_and!; try done. apply boot_on. by left.
  - intros [H | ->]%boot_on; [destruct (boot_old c0 H) as (_ & -> & _); by apply I | by rewrite E2].
  - intros H H'. destruct (boot_alive t H) as [-> | [-> | (_ & _ & Ha & Et)]]; [rewrite B3; split; [apply boot_on; by right | by left] | by rewrite T2 in H' |].
    rewrite Et in *. destruct (i_oncpu s I t Ha H') as [H1 H2]. split; [apply boot_on; by left |]. by rewrite E1 by (by apply boot_not_on).
  - intros [H H']. destruct (boot_alive t H) as [-> | [-> | (_ & _ & Ha & Et)]]; [lia | by rewrite T2 |]. rewrite Et in *. by apply I.
  - apply I.
  - intros H1 H2. destruct (i_rq_task s I c0 t H1 H2) as (H3 & H4 & H5 & H6 & H7 & H8). rewrite (T3 t H3). split_and!; try done; [by apply boot_not_idle |].
    intros u Hu Hq. destruct (boot_hands u t Hu Hq) as [Hu' Hq']. by apply (H7 u).
  - apply I.
  - intros H. destruct (i_sq_task s I t H) as (H1 & H2). by rewrite (T3 t H1).
  - intros H H1 H2. destruct (boot_alive t H) as [-> | [-> | (_ & _ & Ha & Et)]]; [| left; apply boot_idle_of; by right |].
    + destruct H2 as [H2 | (e & He & H2)]; [lia |]. exfalso. destruct H2 as [H2 | [H2 _]]; [apply (boot_handoff e i He) in H2; congruence |].
      pose proof (i_self s I e He) as (H3 & _). rewrite H2 in H3. congruence.
    + rewrite Et in *. destruct (i_running s I t Ha H1 H2) as [H3 | [H3 | (u & Hu & H3)]]; [left; apply boot_idle_of; by left | by right; left | right; right; exists u; by rewrite (T3 u Hu)].
  - intros H H1. destruct (boot_alive t H) as [-> | [-> | (_ & _ & Ha & Et)]]; [done | by rewrite T2 in H1 |]. rewrite Et in *. by apply I.
  - intros H Hf. destruct (boot_alive u H) as [-> | [-> | (_ & _ & Ha & Et)]]; [rewrite B1 in Hf; auto | |].
    + rewrite T2 in Hf. apply elem_of_cons in Hf as [-> | Hf]; [done |]. by apply list_elem_of_singleton in Hf as ->.
    + rewrite Et in Hf. apply boot_frame; [done | by apply I].
  - apply boot_nodup.
  - intros Hu Hv H1 H2. destruct (boot_hands u p Hu H1), (boot_hands v p Hv H2). by apply (i_hands_one s I u v p).
  - apply boot_nodup.
  - intros Hu Hv H1 H2. destruct (boot_held u lk Hu H1), (boot_held v lk Hv H2). by apply (i_held_one s I u v lk).
  - intros Hu H1. destruct (boot_held u lk Hu H1). by apply (i_held_lock s I u).
  - intros Hu H1. destruct (boot_children t ch Hu H1) as [H2 H3]. destruct (i_children s I t ch H2 H3) as (H4 & H5 & H6). by rewrite (T3 ch H4).
  - apply boot_nodup.
  - intros H H1. destruct (boot_alive t H) as [-> | [-> | (_ & _ & Ha & Et)]]; [| by rewrite T2 in H1 |].
    + split; [apply boot_new; by left |]. rewrite (B10 H1). intros Hr. by apply (Hrs i).
    + rewrite Et in *. destruct (i_zombie s I t Ha H1). split; [done | by apply boot_reaper].
  - rewrite R3. destruct (c =? BOOT_CPU); [by intros [= <-] |]. intros H. apply (i_reaper s I) in H. by rewrite (T3 r H).
  - rewrite R3. intros _. destruct (Z.eqb_spec c BOOT_CPU); [done |]. destruct Hboot as [? | Hboot]; [done |]. by apply (i_has_reaper s I BOOT_CPU).
Qed.
End boot.
