(* ===== verification/SchedMain.v ===== *)
(** * What the scheduler guarantees

    The theorems about every interleaving of the CPUs, and a schedule that shows
    what is not guaranteed. *)

From S2P Require Import Prelude Sched SchedInv SchedSafe.

(** ** Every reachable state *)

Definition reachable (s : sys) : Prop := rtc step initial s.

Lemma inv_initial : inv initial.
Proof.
  assert (Hno : forall c, ~ on initial c) by (by intros c [_ ?]).
  split; intros *; try (by intros ?); try (by intros ?%Hno); try (by intros [? _]).
  - intros _. split; [constructor | done].
  - intros _. by intros ?%not_elem_of_nil.
  - constructor.
  - by intros ?%not_elem_of_nil.
Qed.

Lemma inv_step s s' : inv s -> step s s' -> inv s'.
Proof.
  intros I H. destruct H as [c s' H | c a s' H | c i d H].
  - destruct (run_good s c I _ H) as (? & [= <-] & ?). done.
  - destruct (call_good s c a I _ H) as (? & [= <-] & ?). done.
  - by apply inv_booted.
Qed.

Lemma reachable_inv s : reachable s -> inv s.
Proof.
  intros H. assert (G : inv initial -> inv s); [| apply G, inv_initial]. induction H as [x | x y z Hxy _ IH]; [done |].
  intros I. apply IH. by apply (inv_step x).
Qed.

(** A schedule that can be played is a path of steps. *)
Lemma run_n_steps n : forall s c s', run_n s c n = Some s' -> rtc step s s'.
Proof.
  induction n as [| n IH]; intros s c s'; simpl; [by intros [= ->] |]. destruct (run s c) as [[s1 |] |] eqn:E; try done. intros H.
  eapply rtc_l; [by eapply step_run | by eapply IH].
Qed.

Lemma play_steps l : forall s s', play s l = Some s' -> rtc step s s'.
Proof.
  induction l as [| e l IH]; intros s s'; simpl; [by intros [= ->] |]. destruct (play_one s e) as [s1 |] eqn:E; [| done]. intros H. transitivity s1; [| by apply IH].
  destruct e as [c n | c a | c i d]; simpl in E.
  - by eapply run_n_steps.
  - destruct (call s c a) as [[s2 |] |] eqn:Ec; try done. injection E as <-. by apply rtc_once, (step_call _ c a).
  - destruct (may_boot s c i d) eqn:Eb; [| done]. injection E as <-. by apply rtc_once, step_boot.
Qed.

(** Two CPUs boot; the first forks, the child is put on the second, exits there, and the first waits. *)
Definition fork_exit_wait : list event :=
  [EvBoot 0 1 2; EvBoot 1 3 4; EvRun 1 6; EvCall 0 (AFork 5 (Some 77)); EvRun 0 6; EvCall 1 AIpi; EvRun 1 6;
   EvCall 1 (AExit 9); EvRun 1 1; EvCall 0 (AWait (-1) 0); EvRun 0 3; EvRun 1 7; EvRun 0 9].
Definition played (l : list event) : sys := default initial (play initial l).

Definition can_play (l : list event) : bool := match play initial l with Some _ => true | None => false end.

Lemma played_reachable l : can_play l = true -> reachable (played l).
Proof. unfold can_play, played. destruct (play initial l) as [s |] eqn:E; [| done]. intros _. by apply play_steps in E. Qed.

(** C3: in every state the CPUs can get to, however they interleave, nothing goes
    wrong: no assertion fails, no panic is reached and no pointer to a task that
    has been freed is followed, by any step of any CPU and by any call. *)
Theorem sched_safe s : reachable s ->
  (forall c r, run s c = Some r -> exists s', r = Ret s') /\ (forall c a r, call s c a = Some r -> exists s', r = Ret s').
Proof.
  intros I%reachable_inv. split.
  - intros c r H. destruct (run_good s c I r H) as (s' & H' & _). eauto.
  - intros c a r H. destruct (call_good s c a I r H) as (s' & H' & _). eauto.
Qed.

Lemma sched_safe_witness : match call (played fork_exit_wait) 0 AYield with Some r => exists s', r = Ret s' | None => False end.
Proof.
  assert (R : reachable (played fork_exit_wait)) by (apply played_reachable; vm_compute; reflexivity).
  assert (H : (match call (played fork_exit_wait) 0 AYield with Some _ => true | None => false end) = true) by (vm_compute; reflexivity).
  destruct (call (played fork_exit_wait) 0 AYield) as [r |] eqn:E; [| discriminate H]. exact (proj2 (sched_safe _ R) 0 AYield r E).
Defined.

(** A task that is about to put itself on the sleep queue is running, with the lock of its condition held. *)
Lemma pub_runs s t lk : inv s -> alive (task_at s t) = true -> head (kstack (task_at s t)) = Some (FSleepPub lk) ->
  exists c, on s c /\ self (cpu_at s c) = t /\ lk ∈ held (kstack (task_at s t)).
Proof.
  intros I Ha Hk. destruct (kstack (task_at s t)) as [| f k] eqn:Ek; [done |]. injection Hk as ->.
  assert (N : oncpu (task_at s t) <> -1). { intros E. destruct (i_off s I t (conj Ha E)) as [_ H]. rewrite Ek in H. by destruct (state (task_at s t)). }
  destruct (i_oncpu s I t Ha N) as [Hc Hs]. exists (oncpu (task_at s t)). split; [done |]. split; [| by left]. destruct Hs as [? | Hs]; [done |].
  pose proof (i_handoff s I _ Hc) as H. destruct (head (kstack (task_at s (self (cpu_at s (oncpu (task_at s t))))))) as [[] |] eqn:Eh; rewrite Hs in H; try done; [congruence |].
  destruct H as (p & [= <-] & _ & _ & _ & _ & _ & H). rewrite Ek in H. by destruct (state (task_at s t)).
Qed.

(** C4: every task has one place.  It runs on at most one CPU, it is on at most one
    queue, once; a task on a run queue is runnable and belongs to that CPU, a
    sleeping one is on the sleep queue or about to be put there with its lock
    held; and a runnable task is never lost: some CPU is on its stack, or about to
    leave it, or it is an idle task, or on the run queue of its CPU, or in the
    hands of a task that is about to put it there or to switch to it. *)
Theorem sched_places s t : reachable s -> alive (task_at s t) = true ->
  (forall c c', on s c -> on s c' -> self (cpu_at s c) = t -> self (cpu_at s c') = t -> c = c') /\
  (forall c, 0 <= c < MAX_CPUS -> t ∈ run_queue (cpu_at s c) ->
     state (task_at s t) = TASK_STATE_RUNNING /\ tcpu (task_at s t) = c /\ (t ∉ sleep_queue s) /\ NoDup (run_queue (cpu_at s c))) /\
  (t ∈ sleep_queue s -> state (task_at s t) = TASK_STATE_SLEEPING /\ NoDup (sleep_queue s)) /\
  match state (task_at s t) with
  | TASK_STATE_RUNNING => (exists c, on s c /\ (self (cpu_at s c) = t \/ handoff (cpu_at s c) = Some t)) \/ idle_of s t \/
      t ∈ run_queue (cpu_at s (tcpu (task_at s t))) \/ exists u, alive (task_at s u) = true /\ t ∈ hands (kstack (task_at s u))
  | TASK_STATE_SLEEPING => t ∈ sleep_queue s \/ exists c lk, on s c /\ self (cpu_at s c) = t /\ locks s lk = true /\ head (kstack (task_at s t)) = Some (FSleepPub lk)
  | _ => True
  end.
Proof.
  intros I%reachable_inv Ha. split_and!.
  - intros c c' H1 H2 E1 E2. pose proof (i_self s I c H1) as (_ & F1 & _). pose proof (i_self s I c' H2) as (_ & F2 & _). rewrite E1 in F1. rewrite E2 in F2. congruence.
  - intros c Hc Ht. destruct (i_rq_task s I c t Hc Ht) as (_ & Hs & Htc & _). split_and!; try done; [| by apply I]. intros Hx. apply (i_sq_task s I) in Hx as (_ & ? & _). congruence.
  - intros Ht. split; [by apply (i_sq_task s I) | apply I].
  - destruct (state (task_at s t)) eqn:Hs; try done.
    + destruct (decide (oncpu (task_at s t) = -1)) as [E | N]; [right; apply (i_running s I); auto |]. left. destruct (i_oncpu s I t Ha N) as [H1 H2]. eauto.
    + destruct (i_sleeping s I t Ha Hs) as [? | [lk Hk]]; [by left | right].
      destruct (pub_runs s t lk I Ha Hk) as (c & Hc & Hsf & Hl). exists c, lk. split_and!; try done. by apply (i_held_lock s I t).
Qed.

Lemma sched_places_witness : 5 ∈ run_queue (cpu_at (played (take 5 fork_exit_wait)) 1) /\ state (task_at (played (take 5 fork_exit_wait)) 5) = TASK_STATE_RUNNING.
Proof.
  assert (C : 0 <= 1 < MAX_CPUS) by done. assert (H : 5 ∈ run_queue (cpu_at (played (take 5 fork_exit_wait)) 1)) by (vm_compute; left). split; [exact H |].
  assert (R : reachable (played (take 5 fork_exit_wait))) by (apply played_reachable; vm_compute; reflexivity).
  assert (A : alive (task_at (played (take 5 fork_exit_wait)) 5) = true) by (vm_compute; reflexivity).
  exact (proj1 (proj1 (proj2 (sched_places _ 5 R A)) 1 C H)).
Defined.

(** ** Waking *)

(** C24: no wake-up is lost under the lock of the condition.  When [task_wake_all]
    on a channel returns, a task that still sleeps on the channel has not yet put
    itself on the sleep queue and still holds the lock it passed to [task_sleep]:
    none of the locks the waker holds.  So a waker that changes a condition under
    the lock the sleepers pass wakes every one of them. *)
Theorem wake_all_complete s s' c ch k p : reachable s -> run s c = Some (Ret s') ->
  kstack (task_at s (self (cpu_at s c))) = FWakeAll ch :: k -> kstack (task_at s' (self (cpu_at s c))) = k ->
  alive (task_at s' p) = true -> state (task_at s' p) = TASK_STATE_SLEEPING -> chan (task_at s' p) = ch ->
  exists lk, head (kstack (task_at s' p)) = Some (FSleepPub lk) /\ lk ∉ held k.
Proof.
  intros I%reachable_inv Hr Hk Hk' Ha Hs Hch. unfold run in Hr. destruct (negb _) eqn:E; [done |]. apply negb_false_iff in E. rewrite !andb_true_iff in E.
  destruct E as [[E1 E2] E3]. assert (Hon : on s c) by (split; [lia | done]). rewrite Hk in Hr. simpl in Hr. set (t := self (cpu_at s c)) in *.
  assert (Hself : self (cpu_at s c) = t) by done. clearbody t. injection Hr as Hr. unfold task_wake_all in Hr.
  destruct (wake_scan_spec s ch (sleep_queue s) false (sleepers_alive s I)) as (o & r & Ew & Hw). rewrite Ew in Hr. simpl in Hr.
  assert (Hne : forall fs, fs ++ FWakeAll ch :: k <> k). { intros fs F. apply (f_equal length) in F. rewrite length_app in F. simpl in F. lia. }
  destruct o as [q |]; [| destruct r; injection Hr as <-].
  - injection Hr as <-. exfalso. unfold goto, upd in Hk'. simpl in Hk'. rewrite fn_lookup_insert in Hk'. by apply (Hne [FJoin q]).
  - exfalso. rewrite Hk in Hk'. by apply (Hne []).
  - destruct (ex_cases s c t I Hon Hself _ _ Hk) as [Hst _]. assert (Npt : t <> p) by (intros <-; unfold goto, upd in Hs; simpl in Hs; rewrite fn_lookup_insert in Hs; simpl in Hs; congruence).
    unfold goto, upd in *. simpl in *. rewrite fn_lookup_insert_ne in * by done.
    destruct (i_sleeping s I p Ha Hs) as [Hq | [lk Hp]]; [by destruct (proj2 (Hw eq_refl) p Hq) |]. exists lk. split; [done |]. intros Hl. apply Npt.
    destruct (pub_runs s p lk I Ha Hp) as (d & _ & _ & Hl'). apply (i_held_one s I t p lk); [by apply (run_alive s c) | done | by rewrite Hk | done].
Qed.

(** A child on the second CPU is about to sleep on channel 9, its lock 7 held, when the first CPU wakes the channel. *)
Definition wake_race : list event := take 7 fork_exit_wait ++ [EvCall 1 (ALock 7); EvCall 1 (ASleep 9 7); EvRun 1 1; EvCall 0 (ALock 8); EvCall 0 (AWakeAll 9)].

Lemma wake_all_complete_witness : exists lk, head (kstack (task_at (played (wake_race ++ [EvRun 0 1])) 5)) = Some (FSleepPub lk) /\ lk ∉ held [FRun true [8] 0].
Proof.
  assert (R : reachable (played wake_race)) by (apply played_reachable; vm_compute; reflexivity).
  refine (wake_all_complete (played wake_race) (played (wake_race ++ [EvRun 0 1])) 0 9 [FRun true [8] 0] 5 R _ _ _ _ _ _); vm_compute; reflexivity.
Defined.

(** The lost wake-up of [task_wait].  The comment in [task_sleep] relies on
    the waker holding the lock of the condition, but [task_sched_resume] wakes the
    parent of a zombie without [wait_lock].  In this schedule the parent has looked
    at its child while the child was still on its CPU, the wake-up comes before the
    parent is on the sleep queue, and the parent then sleeps in [task_wait] next to
    a zombie it could reap, while both CPUs idle and nothing is left to wake it. *)
Theorem wait_wakeup_lost : exists s, reachable s /\
  (task_at s 1).(state) = TASK_STATE_SLEEPING /\ sleep_queue s = [1] /\ kstack (task_at s 1) = [FSleepEnd WAIT_LOCK; FAgain (-1) 0; FRun true [] 0] /\
  children (task_at s 1) = [5] /\ state (task_at s 5) = TASK_STATE_ZOMBIE /\ oncpu (task_at s 5) = -1 /\ locked (task_at s 5) = false /\
  (forall c, c = 0 \/ c = 1 -> idle (cpu_at s c) = Some (self (cpu_at s c)) /\ kstack (task_at s (self (cpu_at s c))) = [FRun true [] 0] /\ run_queue (cpu_at s c) = []) /\
  (forall c, 2 <= c < MAX_CPUS -> online (cpu_at s c) = false).
Proof.
  exists (played fork_exit_wait). split; [apply played_reachable; vm_compute; reflexivity |]. do 7 (split; [vm_compute; reflexivity |]). split.
  - intros c [-> | ->]; vm_compute; done.
  - intros c Hc. assert (H : c ∈ seqZ 2 6) by (apply elem_of_seqZ; unfold MAX_CPUS in Hc; lia). clear Hc. revert c H. apply list.Forall_forall. vm_compute. repeat constructor.
Qed.

(** ** Choosing a CPU *)

Section select.
Context (s : sys) (start : Z).
Definition turn_cpu (j : Z) : Z := u32 (start + j) mod MAX_CPUS.
Context (Hload : forall i, 0 <= i < MAX_CPUS -> online (cpu_at s i) = true -> 0 <= cpu_load s i < 2 ^ 32 - 1).

(** After [off] turns: the best of the CPUs seen. *)
Definition best_of (off best best_load : Z) : Prop :=
  (forall j, 0 <= j < off -> online (cpu_at s (turn_cpu j)) = true -> 0 <= best /\ best_load <= cpu_load s (turn_cpu j)) /\
  (best = -1 /\ best_load = 2 ^ 32 - 1 \/ on s best /\ best_load = cpu_load s best).

Lemma turn_cpu_range j : 0 <= turn_cpu j < MAX_CPUS.
Proof. unfold turn_cpu. by apply Z.mod_pos_bound. Qed.

Lemma select_turn_best off best bl b l go : best_of off best bl -> select_turn s start off best bl = (b, l, go) ->
  best_of (off + 1) b l /\ (go = false -> 0 <= b /\ l = 0).
Proof.
  intros [H1 H2] E. unfold select_turn in E. fold (turn_cpu off) in E. pose proof (turn_cpu_range off) as Hr.
  destruct (online (cpu_at s (turn_cpu off))) eqn:Eo; simpl in E.
  2: { injection E as <- <- <-. split; [| done]. split; [| done]. intros j Hj Ho. apply H1; [| done]. destruct (decide (j = off)) as [-> | N]; [congruence | lia]. }
  specialize (Hload _ Hr Eo). destruct (cpu_load s (turn_cpu off) <? bl) eqn:El; injection E as <- <- <-.
  - split; [| intros E; split; [lia | by apply negb_false_iff, Z.eqb_eq in E]]. split; [| right; done]. intros j Hj Ho. split; [lia |].
    destruct (decide (j = off)) as [-> | N]; [lia |]. specialize (H1 j ltac:(lia) Ho). lia.
  - split; [| done]. split; [| done]. intros j Hj Ho. destruct (decide (j = off)) as [-> | N]; [| apply H1; [lia | done]].
    destruct H2 as [[-> ->] | [[H2 _] _]]; lia.
Qed.

Lemma select_loop_best turns : forall off best bl, 0 <= off -> best_of off best bl ->
  exists l, let b := select_loop s start off best bl turns in
    best_of (off + Z.of_nat turns) b l \/ 0 <= b /\ on s b /\ cpu_load s b = 0.
Proof.
  induction turns as [| turns IH]; intros off best bl Hoff Hb; cbn [select_loop]; [exists bl; left; cbv zeta; by replace (off + Z.of_nat 0) with off by lia |].
  destruct (select_turn s start off best bl) as [[b l] go] eqn:E. destruct (select_turn_best _ _ _ _ _ _ Hb E) as [Hb' Hgo].
  destruct go.
  - destruct (IH (off + 1) b l ltac:(lia) Hb') as [l' H]. exists l'. cbv zeta. by replace (off + Z.of_nat (S turns)) with (off + 1 + Z.of_nat turns) by lia.
  - exists 0. right. destruct (Hgo eq_refl) as [H1 ->]. destruct Hb' as [_ [[H2 _] | [H2 H3]]]; [lia | done].
Qed.

Lemma turn_cpu_all i : 0 <= i < MAX_CPUS -> exists j, 0 <= j < MAX_CPUS /\ turn_cpu j = i.
Proof.
  intros Hi. exists ((i - start) mod MAX_CPUS). split; [by apply Z.mod_pos_bound |]. unfold turn_cpu, u32, wrap, MAX_CPUS in *.
  rewrite Z.mod_mod_divide by (by exists (2 ^ 29)).
  rewrite Zplus_mod_idemp_r. replace (start + (i - start)) with i by lia. by apply Z.mod_small.
Qed.

Lemma select_loop_least b : b = select_loop s start 0 (-1) (2 ^ 32 - 1) (Z.to_nat MAX_CPUS) ->
  (forall i, on s i -> 0 <= b /\ on s b /\ cpu_load s b <= cpu_load s i) /\ ((forall i, ~ on s i) -> b = -1).
Proof.
  intros ->. destruct (select_loop_best (Z.to_nat MAX_CPUS) 0 (-1) (2 ^ 32 - 1)) as [l H]; [lia | split; [lia | by left] |]. cbv zeta in H.
  set (b := select_loop _ _ _ _ _ _) in *. clearbody b. destruct H as [[H1 H2] | (H1 & H2 & H3)].
  - split.
    + intros i [Hi Ho]. destruct (turn_cpu_all i Hi) as (j & Hj & <-). destruct (H1 j ltac:(unfold MAX_CPUS in *; lia) Ho) as [H3 H4]. destruct H2 as [[-> _] | [H2 ->]]; [lia | done].
    + intros Hn. destruct H2 as [[-> _] | [H2 _]]; [done | by apply Hn in H2].
  - split; [| intros Hn; by apply Hn in H2]. intros i [Hi Ho]. specialize (Hload i Hi Ho). split_and!; [done | done | lia].
Qed.
End select.

Lemma inv_load s i : inv s -> 0 <= i < MAX_CPUS -> 0 <= cpu_load s i < 2 ^ 32 - 1.
Proof.
  intros I Hi. destruct (i_rq s I i Hi) as [_ E]. pose proof (rq_bound s i I Hi) as Hb. unfold cpu_load, NR_TASKS in *. rewrite E.
  case_bool_decide; [rewrite u32_small by lia |]; lia.
Qed.

(** [task_select_cpu] chooses an online CPU whose load no other online CPU is
    below, wherever its search starts, also when the hint wraps around; -1 is
    returned exactly when no CPU is online. *)
Theorem task_select_cpu_least s s' cpu : reachable s -> task_select_cpu s = (s', cpu) ->
  next_cpu_hint s' = u32 (next_cpu_hint s + 1) /\
  (forall i, on s i -> 0 <= cpu /\ on s cpu /\ cpu_load s cpu <= cpu_load s i) /\ ((forall i, ~ on s i) -> cpu = -1).
Proof.
  intros I%reachable_inv [= <- <-]. split; [done |]. eapply select_loop_least; [| done]. intros i Hi _. by apply inv_load.
Qed.

Lemma task_select_cpu_least_witness : 0 <= snd (task_select_cpu (played (take 5 fork_exit_wait))).
Proof.
  assert (R : reachable (played (take 5 fork_exit_wait))) by (apply played_reachable; vm_compute; reflexivity).
  assert (C : on (played (take 5 fork_exit_wait)) 0) by (split; [split; [discriminate | reflexivity] | vm_compute; reflexivity]).
  exact (proj1 (proj1 (proj2 (task_select_cpu_least _ _ _ R (surjective_pairing _))) 0 C)).
Defined.

(** ** Joining a queue *)

Lemma select_loop_same s s' start turns : cpu_at s' = cpu_at s -> forall off best bl, select_loop s' start off best bl turns = select_loop s start off best bl turns.
Proof.
  intros E. assert (Et : forall off best bl, select_turn s' start off best bl = select_turn s start off best bl) by (intros; unfold select_turn, cpu_load; by rewrite E).
  induction turns as [| turns IH]; intros off best bl; simpl; [done |]. rewrite Et. destruct (select_turn s start off best bl) as [[b l] go]. destruct go; auto.
Qed.

(** Only the stack of [t] differs. *)
Definition only_stack (s s' : sys) (t : Z) (k : list frame) : Prop :=
  cpu_at s' = cpu_at s /\ sleep_queue s' = sleep_queue s /\ task_at s' t = set_kstack k (task_at s t) /\ forall u, u <> t -> task_at s' u = task_at s u.

Lemma only_stack_goto s t k : only_stack s (goto t k s) t k.
Proof. unfold only_stack, goto, upd. simpl. rewrite fn_lookup_insert. split_and!; try done. intros u Hu. by rewrite fn_lookup_insert_ne. Qed.

Lemma only_stack_trans s s1 s2 t k1 k2 : only_stack s s1 t k1 -> only_stack s1 s2 t k2 -> only_stack s s2 t k2.
Proof.
  intros (A1 & A2 & A3 & A4) (B1 & B2 & B3 & B4). split_and!; [congruence | congruence | by rewrite B3, A3 |]. intros u Hu. by rewrite B4, A4.
Qed.

Lemma run_at s c t f k : on s c -> self (cpu_at s c) = t -> kstack (task_at s t) = f :: k -> run s c = exec s c t f k.
Proof.
  intros [Hc Ho] <- Hk. unfold run. rewrite Ho, Hk. assert (H : (0 <=? c) && (c <? MAX_CPUS) = true) by lia. by rewrite H.
Qed.

Lemma run_n_app n m s c s1 s2 : run_n s c n = Some s1 -> run_n s1 c m = Some s2 -> run_n s c (n + m) = Some s2.
Proof.
  revert s. induction n as [| n IH]; intros s; simpl; [by intros [= ->] |]. destruct (run s c) as [[] |]; try done. apply IH.
Qed.

Lemma select_runs c t p start k turns : forall s off best bl, on s c -> self (cpu_at s c) = t -> p <> t -> alive (task_at s p) = true -> off + Z.of_nat turns = MAX_CPUS ->
  kstack (task_at s t) = FSelect p start off best bl :: k ->
  exists n s', (n <= turns + 1)%nat /\ run_n s c n = Some s' /\
    only_stack s s' t (FEnqueue p (let b := select_loop s start off best bl turns in if b <? 0 then tcpu (task_at s p) else b) :: k).
Proof.
  induction turns as [| turns IH]; intros s off best bl Hon Hself Npt Ha Hoff Hk; pose proof (run_at s c t _ _ Hon Hself Hk) as Hr; cbn [exec] in Hr; unfold live in Hr; rewrite Ha in Hr.
  - assert (E : (off <? MAX_CPUS) = false) by (simpl in Hoff; lia). rewrite E in Hr. exists 1%nat. eexists. split; [lia |]. simpl. rewrite Hr. split; [done | apply only_stack_goto].
  - assert (E : (off <? MAX_CPUS) = true) by lia. rewrite E in Hr. cbn [select_loop]. destruct (select_turn s start off best bl) as [[b l] go]. destruct go.
    + set (k1 := FSelect p start (off + 1) b l :: k) in *. pose proof (only_stack_goto s t k1) as O. set (s1 := goto t k1 s) in *. clearbody s1. pose proof O as (O1 & O2 & O3 & O4).
      destruct (IH s1 (off + 1) b l) as (n & s2 & Hn & Hrun & O'); try done; [unfold on; by rewrite O1 | by rewrite O1 | by rewrite O4 | lia | by rewrite O3 |].
      exists (S n), s2. split; [lia |]. simpl. rewrite Hr. split; [done |]. rewrite (select_loop_same s s1), O4 in O' by done.
      by eapply only_stack_trans.
    + exists 1%nat. eexists. split; [lia |]. simpl. rewrite Hr. split; [done | apply only_stack_goto].
Qed.

(** [task_join] of a task that is not running comes to an end within eleven
    steps when its CPU is left alone: the task is then at the end of the run
    queue of an online CPU whose load was the least, it belongs to that CPU, whose
    count of runnable tasks is one more, and that CPU has been told when it is
    another one. *)
Theorem task_join_balances s c p k : reachable s -> on s c -> kstack (task_at s (self (cpu_at s c))) = FJoin p :: k ->
  exists n s' target, (n <= 11)%nat /\ run_n s c n = Some s' /\ kstack (task_at s' (self (cpu_at s c))) = k /\
    on s target /\ (forall i, on s i -> cpu_load s target <= cpu_load s i) /\
    tcpu (task_at s' p) = target /\ run_queue (cpu_at s' target) = run_queue (cpu_at s target) ++ [p] /\
    nr_running (cpu_at s' target) = nr_running (cpu_at s target) + 1 /\ (target <> c -> ipi (cpu_at s' target) = true).
Proof.
  intros I%reachable_inv Hon Hk. set (t := self (cpu_at s c)) in *. assert (Hself : self (cpu_at s c) = t) by done. clearbody t.
  destruct (ex_frame s c t I Hon Hself _ _ Hk) as ([Ha Ho] & Hs & Hni). destruct (hand_facts s c t I Hon Hself _ k p Hk eq_refl) as (_ & Hoff & Npt & _).
  pose proof (run_at s c t _ _ Hon Hself Hk) as Hr. cbn [exec] in Hr. unfold task_join, live in Hr. rewrite Ha, Ho in Hr. cbn [Z.ltb Z.compare] in Hr.
  destruct (run_good s c I _ Hr) as (s1' & [= <-] & I1). set (k1 := FSelect p (next_cpu_hint s) 0 (-1) (2 ^ 32 - 1) :: k) in *.
  set (s1 := goto t k1 _) in *.
  assert (O1 : only_stack s s1 t k1) by (unfold s1; destruct (only_stack_goto (set_next_cpu_hint (u32 (next_cpu_hint s + 1)) s) t k1) as (? & ? & ? & ?); by split_and!).
  clearbody s1. pose proof O1 as (A1 & A2 & A3 & A4).
  assert (Hon1 : on s1 c) by (unfold on; by rewrite A1). assert (Hself1 : self (cpu_at s1 c) = t) by (by rewrite A1).
  destruct (select_runs c t p (next_cpu_hint s) k (Z.to_nat MAX_CPUS) s1 0 (-1) (2 ^ 32 - 1)) as (n & s2 & Hn & Hrun & O2); try done; [by rewrite A4 | by rewrite A3 |].
  pose proof (only_stack_trans _ _ _ _ _ _ O1 O2) as O3. rewrite (select_loop_same s s1), A4 in O3 by done. cbv zeta in O3.
  destruct (select_loop_least s (next_cpu_hint s) ltac:(intros i Hi _; by apply inv_load) _ eq_refl) as [Hleast _].
  set (b := select_loop s _ _ _ _ _) in *. clearbody b. destruct (Hleast c Hon) as (Hb0 & Hb & _). assert (Eb : (b <? 0) = false) by lia. rewrite Eb in O3.
  destruct O3 as (B1 & B2 & B3 & B4). assert (I2 : inv s2).
  { assert (Hst : rtc step s1 s2) by (by eapply run_n_steps). clear -I1 Hst. revert I1. induction Hst as [| x y z Hxy _ IH]; [done |]. intros Ix. apply IH. by apply (inv_step x). }
  assert (Hr2 : run s2 c = exec s2 c t (FEnqueue p b) k) by (apply run_at; [unfold on; by rewrite B1 | by rewrite B1 | by rewrite B3]).
  cbn [exec] in Hr2. destruct (run_good s2 c I2 _ Hr2) as (s3 & E3 & _). rewrite E3 in Hr2.
  destruct (enqueue s2 c p b) as [s3' | h] eqn:Een; [| done]. injection E3 as <-. destruct Hb as [Hbr Hbo].
  exists (S (n + 1)), (goto t k s3'), b. split; [unfold MAX_CPUS in Hn; lia |]. split; [simpl; rewrite Hr; eapply run_n_app; [exact Hrun | simpl; by rewrite Hr2] |].
  unfold enqueue, live in Een. destruct (_ || _); [done |]. destruct (alive (task_at s2 p)); [| done]. destruct (negb (queued s2 p)); [| done]. destruct (bool_decide _); [| done]. simpl in Een.
  injection Een as <-. pose proof (inv_load s b I Hbr) as Hl. destruct (i_rq s I b Hbr) as [_ Hnr]. pose proof (rq_bound s b I Hbr) as Hrb. unfold NR_TASKS in Hrb.
  assert (Hu : u32 (nr_running (cpu_at s b) + 1) = nr_running (cpu_at s b) + 1) by (apply u32_small; lia).
  split_and!; try done; [unfold goto, upd; simpl; by rewrite fn_lookup_insert | intros i Hi; by apply Hleast | ..].
  all: unfold send_ipi; assert (Eo : online (cpu_at (updc b (fun cpu => set_nr_running (u32 (nr_running cpu + 1)) (set_run_queue (run_queue cpu ++ [p]) cpu)) (upd p (set_tcpu b) s2)) b) = true)
    by (sys_simpl; rewrite fn_lookup_insert; simpl; by rewrite B1).
  all: assert (Em : (MAX_CPUS <=? b) = false) by lia; rewrite Em, Eo; destruct (Z.eqb_spec b c) as [-> | Nbc]; cbn [negb]; sys_simpl; repeat (rewrite fn_lookup_insert || (rewrite fn_lookup_insert_ne by congruence)); rewrite ?B1; simpl; try done.
Qed.

(** The first CPU has made a child and is about to put it on a queue. *)
Definition fork_join : list event := take 4 fork_exit_wait ++ [EvRun 0 2].

Lemma task_join_balances_witness : exists n s' target, (n <= 11)%nat /\ run_n (played fork_join) 0 n = Some s' /\ on (played fork_join) target /\
  run_queue (cpu_at s' target) = run_queue (cpu_at (played fork_join) target) ++ [5].
Proof.
  assert (R : reachable (played fork_join)) by (apply played_reachable; vm_compute; reflexivity).
  assert (C : on (played fork_join) 0) by (split; [split; [discriminate | reflexivity] | vm_compute; reflexivity]).
  assert (K : kstack (task_at (played fork_join) (self (cpu_at (played fork_join) 0))) = [FJoin 5; FRun true [] 0]) by (vm_compute; reflexivity).
  destruct (task_join_balances _ 0 5 _ R C K) as (n & s' & target & H1 & H2 & _ & H4 & _ & _ & H7 & _).
  exists n, s', target. split; [exact H1 |]. split; [exact H2 |]. split; [exact H4 | exact H7].
Defined.
